(* ===== verification/_CoqProject ===== *)
-Q . S2P
Prelude.v
Hex.v
Rfc6962.v
MerkleSpec.v
TreeFacts.v
Reference.v
Samples.v
Inclusion.v
Consistency.v
Checks.v
JsNumber.v
JsValue.v
Bitmap.v
BitmapFacts.v
BitmapProofs.v
Summary.v
Contract.v
ContractFacts.v
ContractProofs.v
LocalCast.v
Evidence.v
Verifiers.v
Engine.v
EngineProofs.v
EngineErrors.v
EngineSamples.v
Steps.v
VerdictSample.v
Journal.v
HostIo.v
HostIoProofs.v
JsText.v
Bulletin.v
CtSession.v
CtSessionProofs.v
BulletinSamples.v
Schema.v
SchemaProofs.v
PublicInput.v
VerifierReport.v
PublicBundle.v
Duplicates.v
HostSamples.v
FailClosed.v
FinStorage.v
FinStorageProofs.v
FinTransition.v
FinTransitionProofs.v
FinSamples.v
SessionVote.v
SessionVoteProofs.v
GuestInput.v
VoteFlow.v
MockStore.v
MockStoreProofs.v
SessionSamples.v
Presentation.v
PublicPolicy.v
Scenario.v
Tamper.v
FinalizeInputs.v
AuditConsistency.v
FinResult.v
CommitAdmission.v
Coordinator.v
FinRun.v
DynamoRecords.v
DynamoService.v
DynamoLifecycle.v
DynamoLifecycleProofs.v
DynamoPort.v
VoteCipher.v
Bundle.v
FinalizeSync.v
FinalizeSamples.v
DynamoVotes.v
DynamoVotesProofs.v
DynamoVoteWrites.v
DynamoSamples.v
FinRunDynamo.v
