(* ===== verification/Prelude.v ===== *)
(** * STARK Ballot Simulator: a verification library

    The repository simulates an election whose tally is proved by a zkVM. A
    voter casts a vote, 63 bots cast the others, every vote is a commitment in
    an append-only log, the log is finalized into the input of a zkVM guest, the
    guest's journal and receipt come back, and a verifier re-evaluates everything
    that was published and tells the voter whether the vote was cast, recorded
    and counted as intended. This library models the TypeScript packages that
    decide those answers and proves what the answers mean. The Rust guest, the
    host and the verifier service reach the code as data and are not modelled.

    ** Parts, files and sources (paths under src/packages)

    Foundations
    - [Prelude]: results of code that throws ([result], [Throw], and [OutOfFuel]
      which no code produces), a state monad [SM], strings, tactics, the hint
      database [no_fuel].
    - [Hex]: crypto-primitives/src/hex.ts, sha256.ts. The noble library is the
      class [Noble]; what its documentation promises is the class [NobleLaws].
      [Reference] is an instance of both (SHA-256 with its test vectors), so
      every theorem about them has a model.
    - [JsNumber], [JsText], [JsValue]: the language's numbers ([num]: integers,
      other rationals, infinities, NaN; rounding to doubles; no negative zero),
      [Number(text)], the texts of JSON.stringify and of base64, and values of
      unknown shape ([jsval]: objects are association lists in insertion order),
      with the guards of validation/src/unknown-value-guards.ts.
    - [Schema], [SchemaProofs]: validation/src/schema.ts, every schema class,
      its interpreter and its issues. A parsed value satisfies its schema, and
      parsing a parsed value changes nothing.

    Trees and proofs
    - [Rfc6962]: the class of merkle/src/rfc6962-merkle-tree.ts with both caches,
      as a state. [MerkleSpec] is RFC 6962 section 2.1 on lists of bytes;
      [TreeFacts] says that the caches always hold what the specification says;
      [Inclusion] and [Consistency] are refinement, completeness and soundness
      of roots and proofs. Soundness is stated up to an explicit collision: two
      different inputs with the same digest, found in a list that the theorem
      names ([collision_in]).
    - [Bitmap], [BitmapFacts], [BitmapProofs]: zkvm-contract/src/zkvm/bitmap-core.ts,
      verification/src/merkle/bitmap-merkle-tree.ts, bitmap-verifier.ts: the
      bitmap of counted votes, its root and its proofs.

    Commitments and the boundary of the prover
    - [Contract], [ContractFacts], [ContractProofs]: zkvm-contract/src/zkvm/types.ts,
      hex.ts, election-config.ts, work-budget.ts: vote and input commitments, the
      digest of a tree head, the limits of the guest's work, with the 32 and 64
      bit fields of the encodings.
    - [Journal]: journal-guards.ts, public-journal.ts, identifiers.ts,
      validated-domain.ts. [HostIo], [HostIoProofs]: host-io.ts and
      bitmap-artifacts.ts. [PublicInput]: the published guest input
      (verification/src/verification/public-input-contract.ts). [HostSamples]:
      their witnesses.
    - [VerifierReport]: verifier-service-report.ts and public-verification-result.ts,
      the reports of the verifier service, their agreement with its exit code and
      what is published of them. [PublicBundle]: public-bundle-manifest.ts, the
      files a bundle may publish. [Bundle]: receipt-normalizer.ts, the seal and the
      journal of a receipt in any of its formats, and verification-bundle.ts, the
      files of a bundle.

    Votes of a session
    - [Bulletin]: domain/src/lib/bulletin/simple-bulletin-board.ts.
      [CtSession], [CtSessionProofs]: ctSessionState.ts, stagedCtVoteWrite.ts.
    - [SessionVote], [SessionVoteProofs]: application/src/session (the mutation
      policy, replays, submissions). [VoteFlow]: the interface of the vote store,
      bot/botVoter.ts, complete-vote-submission.ts. [MockStore],
      [MockStoreProofs], [SessionSamples]: aws-adapters/src/store/mockSessionStore.ts
      and its mapped records, an implementation of that interface.
    - [GuestInput]: application/src/zkvm-input, the input of the guest that a
      session is turned into. [Duplicates]: validation/src/duplicate-detector.ts.

    Finalization (application/src/finalize)
    - [FinStorage], [FinStorageProofs]: finalization-storage.ts.
      [FinTransition], [FinTransitionProofs], [FinSamples]: finalization-record.ts
      and finalization-transition-policy.ts.
    - [Coordinator]: finalization-transition-coordinator.ts over the port of
      finalization-transition-persistence.ts, and finalization-store.ts.
    - [Scenario]: domain/src/lib/scenarios/processor.ts and scenario-application.ts.
      [FinalizeInputs]: usecases/finalize-session.ts, up to the prover. [FinResult]:
      finalization-result.ts. [FinalizeSamples]: their witnesses.
    - [FinRun]: usecases/finalize-async.ts, finalization-queue.ts,
      finalization-work-item.ts, finalization-state-update.ts,
      reconcile-finalization.ts and successful-finalization-commit-admission.ts, over
      the class of the commands of a store ([FinalizationCommands], with its laws)
      and of the services around it ([AsyncServices]). [FinRunDynamo] discharges
      the laws for the DynamoDB store. [CommitAdmission]:
      finalization-bitmap-admission.ts and usecases/user-vote-artifacts.ts.
      [FinRun.cancelFinalizationHandler] is the handler of a cancellation
      (../../apps/api: handlers/finalizeCancel.ts).
    - [FinalizeSync]: usecases/finalize-sync.ts, the prover and the verifier inside the
      request, over the class of their services ([SyncServices]);
      [FinalizeSync.ApiProofBundle]: the proof bundle service of the API, one of
      these services (../../apps/api: adapters/proofBundleService.ts and
      proofBundleLocalArtifacts.ts), over its own ports ([ApiBundlePorts]).

    DynamoDB (aws-adapters/src/store: dynamoSessionStore.ts, dynamo-records.ts)
    - [DynamoRecords]: the rows, their admission and their deep equality
      (isDeepStrictEqual of node:util). [DynamoService]: the service as a class of operations ([DynamoDB]) with its laws ([DynamoLaws]):
      conditions, transactions, pages, errors after which a transaction may or may
      not have been committed, and other invocations at any moment.
    - [DynamoLifecycle], [DynamoLifecycleProofs], [DynamoPort]: the lifecycle of a
      finalization in two rows, an implementation of the port of [Coordinator].
    - [VoteCipher]: security/voteSecretCipher.ts and, of runtime-config, the
      references a key is resolved from. AES-GCM is a class with its laws.
    - [DynamoVotes], [DynamoVotesProofs], [DynamoVoteWrites]: the rows of votes,
      the restoration of a record from them, and the writes of votes. [DynamoSamples]:
      a table in memory that keeps the laws, and the witnesses.

    The verifier (verification/src/verification)
    - [Checks]: the registry of the 22 checks. [Evidence]: what enters an
      evaluation. [Verifiers]: the inclusion, consistency and STH verifiers and
      the audit artifacts. [Engine]: one resolver per check
      (engine/evaluate-checks.ts). [Steps]: the list of checks and the four
      steps. [Summary]: the verdict. [LocalCast]: what the client checks alone.
      [FailClosed]: the downgrade of a claimed success. Their theorems are there
      and in [EngineProofs], [EngineErrors]; runs of the whole verifier in
      [EngineSamples] and [VerdictSample].
    - [Presentation]: verification-presentation-policy.ts, what is displayed;
      [PublicPolicy]: the re-evaluation of a published policy and its evidence.
      [Tamper]: tamperDetection.ts, finalization-tamper.ts, scenario-projection.ts.
      [AuditConsistency]: public-audit-artifact-consistency.ts.

    ** How the parts interact

    A board ([Bulletin]) owns a tree ([Rfc6962]). The policy of a session
    ([SessionVote]) rebuilds the board from the stored votes and stages new ones
    ([CtSession]); a store ([MockStore]) evaluates the policy on the records it
    holds and installs what the policy returns; the flow of a submission
    ([VoteFlow]) sees the store through the class [VoteStore] and reasons with
    the laws of the class [VoteStoreLaws], in which other invocations may move
    the session between any two calls. A finalization command goes through the
    transition policy ([FinTransition]), in the same store or through the
    coordinator ([Coordinator]) that retries over a port of revisioned lifecycles,
    which the DynamoDB store ([DynamoPort]) implements, and its record stops
    the votes. The use cases that run a finalization ([FinRun]) see the store through
    the class [FinalizationCommands]; their theorems use its laws only. The synchronous
    one ([FinalizeSync]) calls its services in turn: what the prover returns is
    admitted ([Journal]), its receipt normalized and bundled ([Bundle]), its bitmaps
    bound ([Bitmap]), its result built and committed, and the commit is admitted
    ([CommitAdmission]). The records
    are written and read back with codecs ([FinStorageProofs.StableCodec] is their
    interface). What is published is
    admitted ([Evidence], [PublicInput]), checked one check at a time ([Engine]
    calls [Verifiers], [Bitmap], [Contract], [Journal]), and the list of results
    becomes steps ([Steps]) and a verdict ([Summary]).

    ** What the theorems show

    - A verdict of "fully verified" implies that every required check was
      evaluated and passed on admitted evidence with a real proof
      ([fully_verified_end_to_end], [fully_verified_iff], [failed_check_not_hidden],
      [zk_checks_need_proof], [fail_closed_payload]); the label that is displayed and
      the evidence that is published with it say the same ([label_iff_earned],
      [full_evidence_sound], [published_policy_recomputed]).
    - A passed check means what its name says, up to a collision: the vote is in
      the log the receipt names ([recorded_as_cast_sound]), its bit is set in the
      committed bitmap ([my_vote_included_sound]), the commitment fixes the choice
      ([cast_commitment_binds_choice]), the input commitment fixes the input
      ([input_commitment_binding]).
    - Trees and bitmaps: roots are those of RFC 6962 whatever the caches hold,
      generated proofs verify, verified proofs are sound.
    - Votes: a reachable session has the vote of the user first, at most 63 bots,
      openings that match the commitments and proofs for every vote at every size
      ([session_votes_provable]); a repeated submission gets the first answer
      ([replay_returns_original]); another opening is refused; a completed
      submission has 64 votes whatever interleaves ([bot_voting_completes],
      [submission_receipt]); a recorded finalization freezes the log until the
      whole session is removed for being idle ([votes_frozen_after_finalization]).
    - Finalization: records stay coherent, attempts end once, retries change
      nothing, stored records are read back; an attempt that is open is ended by a
      cancellation and by a timeout, with the moment it started or without
      ([open_attempt_can_end]), and the handler of a cancellation sends such a
      command ([FinRun.cancellation_sent]). A session has a guest input of its
      votes, or one of four causes why it has none ([guest_input_of_session]);
      a complete one has one under every scenario
      ([finalization_prepared]), whose result the published contract admits
      ([scenario_result_admitted]).
    - Running a finalization: an accepted request is a recorded one whose job the
      queue took, or another state owns the session, and a refused one has its
      failure written ([accepted_request_recorded]); an update that claims a success without its
      proof ends as a failure ([unproved_success_is_failure]); a direct success
      commits the record the transition policy would write
      ([direct_success_is_applied]); reconciling ends only attempts whose own
      execution was observed to be over or missing, with the outcome that was
      observed ([reconciliation_conservative]). A synchronous run commits only what
      was proved by the expected image and, unless the executor is a mock, accepted
      by the verifier on the bundle of that execution; its answer is what was
      committed ([sync_commits_only_proved]); its result is the one that is rehydrated from its
      journal ([sync_result_is_rehydrated]), and its bitmaps are admitted exactly when
      they have one bit per vote ([sync_bitmap_admitted]).
    - What a finalization publishes: stored bits are those of the journal's root
      ([bitmap_evidence_bound], [bitmap_evidence_stored]); the receipt and the proof
      given to the voter verify ([user_artifacts_verify]); a verdict of the verifier
      service is believed only when its exit code, its report and its image agree
      ([service_protocol_agrees]), and the report that is published of it is
      admitted by the public contract, copies seven fields as they are (the
      version text among them), leaves out the paths and replaces every unknown
      error text ([published_result_admitted]); a normalized receipt states what the prover's
      holds ([normalized_receipt_faithful]); the files of a bundle agree with each
      other and are those the manifest requires ([published_bundle_consistent]); no private file is in a bundle
      ([bundle_policy_separates]); no duplicate goes unreported
      ([duplicates_reported]).
    - Concurrency: a command on a lifecycle is atomic, over any port
      ([coordination_linearizable]) and on DynamoDB ([dynamo_command_atomic],
      [lifecycle_write_keeps]); a vote is stored only over the session it was
      decided about ([vote_write_guarded], [vote_write_stores]).
    - Storage: what is restored from the rows of a session is in order whatever the
      rows hold ([restored_votes_in_order]), rows are read back as the record they
      were written for ([stored_votes_round_trip]), and secrets are stored only in
      a form this deployment can open ([vote_secrets_protected]).
    - Boundaries: parsers return what their types promise and are stable; numbers
      keep their width; the evaluator always returns, and a check passes only when
      its verifier answered yes: an exception of it fails the check or leaves it
      open ([evaluateChecks_returns]); malformed input is an error value, never a
      wrong answer.

    ** Conventions and bounds

    - An exception is [Err (Throw message)]; messages that print numbers are
      shortened to their text. Strings are ASCII. A promise is its value: calls are
      evaluated in the order the code awaits them.
    - [Date.now()], identifiers and random values are arguments, one reading per
      call of the source.
    - Fuel: ranges of a tree recurse on [range_fuel n], logarithmic in the size;
      audit paths and bitmap levels on the length of the path or the level, which
      every step shortens. The theorems that a function returns (for instance
      [verifyInclusionProof_total], [evaluateChecks_returns]) show that the fuel is
      never exhausted; other recursions are structural. The words of a seal are
      flattened with one unit of fuel per value ([flatten_spec] shows that it is
      enough); a number is printed with the fewest digits, at most 17, that read back
      as it, which 17 always do for a double.
    - The pages of a query are bounded by [query_limit], a conflict is retried
      [staleRetryLimit] or [MAX_CONDITIONAL_RETRIES] times, as in the code.
    - Of DynamoDB the theorems assume the class [DynamoLaws]; of one call
      ([DynamoCall]) that it is shorter than a time to live, and that other
      invocations keep the rows of lifecycles well formed and move them forward,
      as [lifecycle_write_keeps] shows of this store's own writes. A revision
      token is its parsed object. Texts that are encrypted are ASCII.
    - Objects that are shared in the code (the tree of a board, the records of a
      store) are states; a proof request changes only the caches of a tree.
    - Runs of 64 votes are evaluated with a checksum in place of SHA-256
      ([SessionSamples]); it keeps the laws of [NobleLaws].

    ** Not modelled

    - Fetching, files, processes and I/O (S3, HTTP, queues, the prover and the
      verifier processes), the web interface, logging, deployment: they hold no
      decision of the program beyond what their results are parsed into.
    - The Rust and Lean code, which reaches these packages as data.
    - Of both stores: verification results, receipts, bitmaps and delivery
      metadata; of the DynamoDB store also the deletion of expired rows, the scan
      that counts sessions and the observations. The laws of [VoteStoreLaws] are discharged for the store in
      memory only: a read of votes is several requests on DynamoDB, and the
      theorems about it are [vote_write_guarded] and [vote_write_stores].
    - The archive of a bundle and its upload, the OpenAPI export, the routes and
      schemas of the HTTP contract. *)
From Stdlib Require Import ZArith Lia.
From stdpp Require Export base gmap list strings sorting.
From Stdlib Require Export Ascii.
From Stdlib Require String.
#[global] Open Scope string_scope.
#[global] Open Scope list_scope.
#[global] Open Scope Z_scope.

#[global] Set Default Goal Selector "!".

(** ** Results of code that may throw *)

(** An exception value: [Throw msg] is [throw new Error(msg)]; [OutOfFuel] is
    not a behaviour of the code, it marks a recursion whose fuel ran out, and
    the theorems show that the fuel chosen is always enough. *)
Inductive err : Type :=
| Throw (msg : string)
| OutOfFuel.

Inductive result (A : Type) : Type :=
| Ok (a : A)
| Err (e : err).
Arguments Ok {A} a.
Arguments Err {A} e.

#[export] Instance result_ret : MRet result := fun _ a => Ok a.
#[export] Instance result_bind : MBind result := fun _ _ f m =>
  match m with Ok a => f a | Err e => Err e end.
#[export] Instance result_fmap : FMap result := fun _ _ f m =>
  match m with Ok a => Ok (f a) | Err e => Err e end.

Definition throw {A} (msg : string) : result A := Err (Throw msg).

Definition is_ok {A} (r : result A) : Prop :=
  match r with Ok _ => True | Err _ => False end.

(** [value !== undefined] *)
Definition is_some {A} (o : option A) : bool := match o with Some _ => true | None => false end.

Definition no_fuel_error {A} (r : result A) : Prop := r <> Err OutOfFuel.

(** ** State threaded through calls that may throw: the state survives a throw *)

Definition SM (S A : Type) : Type := S -> result A * S.

#[export] Instance SM_ret S : MRet (SM S) := fun _ a s => (Ok a, s).
#[export] Instance SM_bind S : MBind (SM S) := fun _ _ f m s =>
  match m s with
  | (Ok a, s') => f a s'
  | (Err e, s') => (Err e, s')
  end.

Definition sm_lift {S A} (r : result A) : SM S A := fun s => (r, s).
Definition sm_throw {S A} (msg : string) : SM S A := sm_lift (throw msg).
Definition sm_get {S} : SM S S := fun s => (Ok s, s).
Definition sm_modify {S} (f : S -> S) : SM S unit := fun s => (Ok tt, f s).

(** [try { m } catch (error) { h(error) }]; running out of fuel is not caught. *)
Definition sm_catch {S A} (m : SM S A) (h : string -> SM S A) : SM S A := fun s =>
  match m s with
  | (Err (Throw msg), s') => h msg s'
  | outcome => outcome
  end.

(** ** Indexing with a JavaScript number: out of range reads [undefined] *)

Definition znth {A} (l : list A) (i : Z) : option A :=
  if Z.ltb i 0 then None else l !! Z.to_nat i.

Definition zlength {A} (l : list A) : Z := Z.of_nat (length l).

Lemma znth_of_nat {A} (l : list A) (i : nat) : znth l (Z.of_nat i) = l !! i.
Proof.
  unfold znth. destruct (Z.ltb_spec (Z.of_nat i) 0) as [Hi | Hi]; [lia |].
  by rewrite Nat2Z.id.
Qed.

Lemma znth_Some_range {A} (l : list A) (i : Z) (x : A) :
  znth l i = Some x -> 0 <= i < zlength l.
Proof.
  unfold znth, zlength. destruct (Z.ltb_spec i 0); [done |].
  intros ?%lookup_lt_Some. lia.
Qed.

Lemma zlength_app {A} (l k : list A) : zlength (l ++ k) = zlength l + zlength k.
Proof. unfold zlength. rewrite length_app. lia. Qed.

Lemma zlength_single {A} (x : A) : zlength [x] = 1.
Proof. done. Qed.

Lemma zlength_nonneg {A} (l : list A) : 0 <= zlength l.
Proof. unfold zlength. lia. Qed.

(** ** Bytes: a [Uint8Array] is a list of integers in [0, 255] *)

Abbreviation bytes := (list Z).

Definition is_byte (b : Z) : Prop := 0 <= b < 256.
Definition is_bytes (bs : bytes) : Prop := Forall is_byte bs.

(** JavaScript's bitwise operators work on 32-bit signed integers. *)
Definition to_int32 (z : Z) : Z :=
  let m := z mod 2 ^ 32 in if Z.leb (2 ^ 31) m then m - 2 ^ 32 else m.

Definition js_and (a b : Z) : Z := to_int32 (Z.land (to_int32 a) (to_int32 b)).

Lemma to_int32_mod z : to_int32 z mod 2 ^ 32 = z mod 2 ^ 32.
Proof.
  unfold to_int32. case_match; [| apply Z.mod_mod; lia].
  replace (z mod 2 ^ 32 - 2 ^ 32) with (z mod 2 ^ 32 + (-1) * 2 ^ 32) by lia.
  rewrite Z.mod_add by lia. apply Z.mod_mod. lia.
Qed.

Lemma to_int32_eq_0 z : to_int32 z = 0 <-> z mod 2 ^ 32 = 0.
Proof.
  unfold to_int32. assert (Hm := Z.mod_pos_bound z (2 ^ 32)).
  destruct (Z.leb_spec (2 ^ 31) (z mod 2 ^ 32)); lia.
Qed.

Lemma js_and_eq_0 a b : js_and a b = 0 <-> Z.land a b mod 2 ^ 32 = 0.
Proof.
  unfold js_and. rewrite to_int32_eq_0.
  rewrite <- !Z.land_ones by lia.
  assert (Hd : forall x y, Z.land (Z.land x y) (Z.ones 32)
                = Z.land (Z.land x (Z.ones 32)) (Z.land y (Z.ones 32))).
  { intros x y. apply Z.bits_inj'. intros i Hi. rewrite !Z.land_spec.
    by destruct (Z.testbit x i), (Z.testbit y i), (Z.testbit (Z.ones 32) i). }
  rewrite (Hd (to_int32 a)), (Hd a), !Z.land_ones by lia.
  by rewrite !to_int32_mod.
Qed.

(** ** Strings *)

Definition char_code (c : ascii) : Z := Z.of_N (N_of_ascii c).

Definition code_between (lo hi : Z) (c : ascii) : bool :=
  Z.leb lo (char_code c) && Z.leb (char_code c) hi.

Fixpoint string_all (p : ascii -> bool) (s : string) : bool :=
  match s with
  | EmptyString => true
  | String c s' => p c && string_all p s'
  end.

Fixpoint string_map (f : ascii -> ascii) (s : string) : string :=
  match s with
  | EmptyString => EmptyString
  | String c s' => String (f c) (string_map f s')
  end.

(** [String.prototype.toLowerCase] on ASCII text. *)
Definition lower_char (c : ascii) : ascii :=
  if code_between 65 90 c then ascii_of_N (N_of_ascii c + 32) else c.

Definition to_lower (s : string) : string := string_map lower_char s.

(** JavaScript's truthiness of a string: every string but the empty one. *)
Definition str_truthy (s : string) : bool :=
  match s with EmptyString => false | String _ _ => true end.

Definition slen (s : string) : Z := Z.of_nat (String.length s).

Lemma string_all_map p f s :
  string_all p (string_map f s) = string_all (fun c => p (f c)) s.
Proof. induction s as [| c s IH]; simpl; [done |]. by rewrite IH. Qed.

Lemma string_all_impl (p q : ascii -> bool) s :
  (forall c, p c = true -> q c = true) -> string_all p s = true -> string_all q s = true.
Proof.
  intros Hpq. induction s as [| c s IH]; simpl; [done |].
  rewrite !andb_true_iff. intros [? ?]. auto.
Qed.

Lemma string_map_map f g s : string_map f (string_map g s) = string_map (fun c => f (g c)) s.
Proof. induction s as [| c s IH]; simpl; [done |]. by rewrite IH. Qed.

Lemma string_map_id_on (p : ascii -> bool) f s :
  (forall c, p c = true -> f c = c) -> string_all p s = true -> string_map f s = s.
Proof.
  intros Hf. induction s as [| c s IH]; simpl; [done |].
  rewrite andb_true_iff. intros [Hc Hs]. by rewrite Hf, IH.
Qed.

Lemma string_map_length f s : String.length (string_map f s) = String.length s.
Proof. induction s as [| c s IH]; simpl; [done |]. by rewrite IH. Qed.

(** A statement about every ASCII character is checked on the 256 of them. *)
Ltac all_chars c := destruct c as [[] [] [] [] [] [] [] []]; vm_compute; try done; try congruence.

Lemma lower_char_idemp c : lower_char (lower_char c) = lower_char c.
Proof. all_chars c. Qed.

Lemma to_lower_idemp s : to_lower (to_lower s) = to_lower s.
Proof.
  unfold to_lower. rewrite string_map_map. induction s as [| c s IH]; simpl; [done |].
  by rewrite IH, lower_char_idemp.
Qed.

(** ** Tactics *)

(** Case analysis on the head [match] or [if] of the goal, keeping the equation. *)
Ltac case_head :=
  match goal with
  | |- context [match ?x with _ => _ end] =>
      lazymatch x with context [match _ with _ => _ end] => fail | _ => destruct x eqn:? end
  end.

Ltac case_hyp H :=
  match type of H with
  | context [match ?x with _ => _ end] =>
      lazymatch x with context [match _ with _ => _ end] => fail | _ => destruct x eqn:? end
  end.

(** Turn boolean tests of hypotheses and goal into propositions. *)
Ltac bool_prop :=
  repeat match goal with
  | H : _ && _ = true |- _ => apply andb_true_iff in H; destruct H
  | H : _ || _ = false |- _ => apply orb_false_iff in H; destruct H
  | H : negb _ = true |- _ => apply negb_true_iff in H
  | H : negb _ = false |- _ => apply negb_false_iff in H
  | H : Z.ltb _ _ = true |- _ => apply Z.ltb_lt in H
  | H : Z.ltb _ _ = false |- _ => apply Z.ltb_ge in H
  | H : Z.leb _ _ = true |- _ => apply Z.leb_le in H
  | H : Z.leb _ _ = false |- _ => apply Z.leb_gt in H
  | H : Z.eqb _ _ = true |- _ => apply Z.eqb_eq in H
  | H : Z.eqb _ _ = false |- _ => apply Z.eqb_neq in H
  | H : String.eqb _ _ = true |- _ => apply String.eqb_eq in H
  | H : String.eqb _ _ = false |- _ => apply String.eqb_neq in H
  | H : Nat.eqb _ _ = true |- _ => apply Nat.eqb_eq in H
  | H : Nat.eqb _ _ = false |- _ => apply Nat.eqb_neq in H
  end.

(** Membership in, and inclusion of, lists built with [++] and [::]. *)
Ltac list_member :=
  repeat (rewrite ?elem_of_app, ?elem_of_cons, ?elem_of_nil in * ); tauto.

Ltac list_subset := let x := fresh "x" in intros x; list_member.

(** Inversion of a successful bind. *)
Lemma bind_Ok {A B} (m : result A) (f : A -> result B) (b : B) :
  m ≫= f = Ok b <-> exists a, m = Ok a /\ f a = Ok b.
Proof.
  destruct m as [a | e]; simpl; split; intros H.
  - by exists a.
  - by destruct H as (a' & [= <-] & ?).
  - done.
  - by destruct H as (a' & ? & _).
Qed.

Ltac bind_inv :=
  repeat match goal with
  | H : (_ ≫= _) = Ok _ |- _ =>
      apply bind_Ok in H; destruct H as (? & ? & H)
  end.

(** [try { m } catch (error) { h(error.message) }]; running out of fuel is not
    an exception of the code and is never caught. *)
Definition try_catch {A} (m : result A) (h : string -> result A) : result A :=
  match m with
  | Ok a => Ok a
  | Err (Throw msg) => h msg
  | Err OutOfFuel => Err OutOfFuel
  end.

(** ** Computations that cannot run out of fuel *)

Lemma no_fuel_ok {A} (a : A) : no_fuel_error (Ok a).
Proof. done. Qed.

Lemma no_fuel_throw {A} msg : no_fuel_error (@throw A msg).
Proof. done. Qed.

Lemma no_fuel_bind {A B} (m : result A) (f : A -> result B) :
  no_fuel_error m -> (forall a, no_fuel_error (f a)) -> no_fuel_error (m ≫= f).
Proof. destruct m as [a | e]; [intros _ Hf; apply Hf |]. intros Hm _ [= ->]. by apply Hm. Qed.

Lemma no_fuel_catch {A} (m : result A) h :
  no_fuel_error m -> (forall msg, no_fuel_error (h msg)) -> no_fuel_error (try_catch m h).
Proof. destruct m as [a | [msg |]]; simpl; [done | intros _ Hh; apply Hh | done]. Qed.

(** Caught: a computation whose exceptions are all handled returns. *)
Lemma try_catch_ok {A} (m : result A) h :
  no_fuel_error m -> (forall msg, is_ok (h msg)) -> is_ok (try_catch m h).
Proof. destruct m as [a | [msg |]]; simpl; [done | intros _ Hh; apply Hh | done]. Qed.

Create HintDb no_fuel.
#[export] Hint Resolve no_fuel_ok no_fuel_throw : no_fuel.

Ltac no_fuel :=
  repeat first
    [ solve [auto with no_fuel]
    | apply no_fuel_bind; [| intros ?]
    | apply no_fuel_catch; [| intros ?]
    | case_match ].
