(* ===== verification/Hex.v ===== *)
(** Hexadecimal strings and hashing at the boundary with [@noble/hashes]
    (packages/crypto-primitives/src): the library's three functions are the
    operations of the class [Noble], what their documentation promises is the
    class [NobleLaws], and the repository's own hex helpers are definitions on
    top of them. *)
From S2P Require Import Prelude.

(** ** The hashing library the code calls *)

Class Noble := {
  sha256 : bytes -> bytes;
  bytesToHex : bytes -> string;
  hexToBytes : string -> option bytes;   (* [None]: the library throws a RangeError *)
}.

Definition is_digit : ascii -> bool := code_between 48 57.
Definition is_lower_hex (c : ascii) : bool := is_digit c || code_between 97 102 c.
Definition is_hex (c : ascii) : bool := is_lower_hex c || code_between 65 70 c.

Class NobleLaws `{Noble} := {
  sha256_bytes m : is_bytes (sha256 m);
  sha256_length m : length (sha256 m) = 32%nat;
  bytesToHex_lower b : is_bytes b -> string_all is_lower_hex (bytesToHex b) = true;
  bytesToHex_length b : is_bytes b -> String.length (bytesToHex b) = (2 * length b)%nat;
  hexToBytes_bytesToHex b : is_bytes b -> hexToBytes (bytesToHex b) = Some b;
  bytesToHex_hexToBytes s b : hexToBytes s = Some b -> is_bytes b /\ bytesToHex b = to_lower s;
  hexToBytes_total s :
    string_all is_hex s = true -> Nat.even (String.length s) = true -> is_Some (hexToBytes s);
}.

(** ** packages/crypto-primitives/src/hex.ts and sha256.ts *)

Definition strip_hex_prefix (hex : string) : string :=
  match hex with
  | String "0" (String "x" rest) => rest
  | String "0" (String "X" rest) => rest
  | _ => hex
  end.

Definition normalizeHexString (hex : string) : string :=
  if negb (str_truthy hex) then ""%string else to_lower (strip_hex_prefix hex).

Definition addHexPrefix (hex : string) : string := ("0x" +:+ normalizeHexString hex)%string.

Definition isValidHexString (hex : string) (expectedLength : option Z) : bool :=
  if negb (str_truthy hex) then false
  else
    let withoutPrefix := normalizeHexString hex in
    if negb (string_all is_lower_hex withoutPrefix) then false
    else match expectedLength with
         | None => true
         | Some n => Z.eqb (slen withoutPrefix) (n * 2)
         end.

Section with_noble.
Context `{Noble}.

Definition hexToBytesStrict (hex : string) : result bytes :=
  let normalized := normalizeHexString hex in
  if negb (str_truthy normalized) then throw "Invalid hex string: empty"
  else match hexToBytes normalized with
       | Some b => Ok b
       | None =>
           if negb (Z.eqb (slen normalized mod 2) 0) then throw "Invalid hex string: odd length"
           else if negb (isValidHexString normalized None) then throw "Invalid hex string"
           else throw "RangeError"
       end.

Definition sha256Hex (chunks : list bytes) : string := bytesToHex (sha256 (mjoin chunks)).

End with_noble.

(** ** Lemmas on normalisation *)

Lemma is_lower_hex_lower c : is_lower_hex c = true -> lower_char c = c.
Proof. all_chars c. Qed.

Lemma is_lower_hex_is_hex c : is_lower_hex c = true -> is_hex c = true.
Proof. unfold is_hex. by intros ->. Qed.

Lemma is_lower_hex_of_lower c : is_lower_hex (lower_char c) = true -> is_hex c = true.
Proof. all_chars c. Qed.

Lemma is_hex_lower c : is_hex c = true -> is_lower_hex (lower_char c) = true.
Proof. all_chars c. Qed.

Lemma to_lower_lower_hex s : string_all is_lower_hex s = true -> to_lower s = s.
Proof. apply string_map_id_on, is_lower_hex_lower. Qed.

Lemma strip_hex_prefix_hex s :
  string_all is_hex s = true -> strip_hex_prefix s = s.
Proof.
  destruct s as [| c0 [| c1 s]]; simpl.
  - done.
  - intros _. all_chars c0.
  - rewrite !andb_true_iff. intros (_ & H1 & _).
    destruct c1 as [[] [] [] [] [] [] [] []]; try discriminate H1; all_chars c0.
Qed.

Lemma normalize_lower_hex s :
  string_all is_lower_hex s = true -> normalizeHexString s = s.
Proof.
  intros Hs. unfold normalizeHexString. destruct s as [| c s]; [done |].
  change (negb (str_truthy (String c s))) with false. cbv iota.
  rewrite strip_hex_prefix_hex.
  - by apply to_lower_lower_hex.
  - eapply string_all_impl; [apply is_lower_hex_is_hex | done].
Qed.

Lemma normalizeHexString_hex s :
  string_all is_hex s = true -> normalizeHexString s = to_lower s.
Proof.
  intros Hs. unfold normalizeHexString. destruct s as [| c s]; [done |].
  change (negb (str_truthy (String c s))) with false. cbv iota.
  by rewrite strip_hex_prefix_hex.
Qed.

Lemma to_lower_hex s : string_all is_hex s = true -> string_all is_lower_hex (to_lower s) = true.
Proof.
  intros Hs. unfold to_lower. rewrite string_all_map.
  eapply string_all_impl; [apply is_hex_lower | done].
Qed.

Lemma to_lower_truthy s : str_truthy (to_lower s) = str_truthy s.
Proof. by destruct s. Qed.

(** A validated 32-byte string normalises to 64 lower-case digits. *)
Lemma isValidHexString_spec s n :
  isValidHexString s (Some n) = true ->
  string_all is_lower_hex (normalizeHexString s) = true /\
  slen (normalizeHexString s) = n * 2.
Proof.
  unfold isValidHexString. destruct (str_truthy s); simpl; [| done].
  destruct (string_all is_lower_hex _) eqn:Hall; simpl; [| done].
  intros Hlen. bool_prop. done.
Qed.

Section laws.
Context `{NobleLaws}.

(** Decoding what the library encoded gives the bytes back. *)
Lemma hexToBytesStrict_bytesToHex b :
  is_bytes b -> b <> [] -> hexToBytesStrict (bytesToHex b) = Ok b.
Proof.
  intros Hb Hne. unfold hexToBytesStrict.
  rewrite normalize_lower_hex by (by apply bytesToHex_lower).
  assert (Hlen := bytesToHex_length b Hb).
  destruct (bytesToHex b) as [| c s] eqn:E; simpl.
  - destruct b; [done | simpl in Hlen; lia].
  - rewrite <- E, hexToBytes_bytesToHex by done. done.
Qed.

(** What [hexToBytesStrict] accepts, and what it returns. *)
Lemma hexToBytesStrict_Ok s b :
  hexToBytesStrict s = Ok b -> is_bytes b /\ bytesToHex b = normalizeHexString s /\ b <> [].
Proof.
  unfold hexToBytesStrict. destruct (str_truthy _) eqn:Ht; simpl; [| done].
  destruct (hexToBytes _) as [b' |] eqn:E; [| by repeat case_head].
  intros [= <-]. apply bytesToHex_hexToBytes in E as [Hb E].
  assert (E' : bytesToHex b' = normalizeHexString s).
  { rewrite E. unfold normalizeHexString in *. destruct (str_truthy s); simpl; [| done].
    apply to_lower_idemp. }
  split_and!; [done | done |]. intros ->.
  assert (Hl := bytesToHex_length [] Hb). rewrite E' in Hl.
  by destruct (normalizeHexString s).
Qed.

Lemma hexToBytesStrict_length s b :
  hexToBytesStrict s = Ok b -> slen (normalizeHexString s) = 2 * zlength b.
Proof.
  intros (Hb & <- & _)%hexToBytesStrict_Ok. unfold slen, zlength.
  rewrite bytesToHex_length by done. lia.
Qed.

(** Decoding succeeds exactly on non-empty, even-length hexadecimal text. *)
Lemma hexToBytesStrict_is_ok s :
  is_ok (hexToBytesStrict s) <->
  normalizeHexString s <> "" /\ string_all is_lower_hex (normalizeHexString s) = true /\
  slen (normalizeHexString s) mod 2 = 0.
Proof.
  split.
  - destruct (hexToBytesStrict s) as [b | e] eqn:E; [| done]. intros _.
    assert (Hlen := hexToBytesStrict_length s b E).
    apply hexToBytesStrict_Ok in E as (Hb & E & Hne). rewrite <- E. split_and!.
    + intros Hempty. rewrite E in Hempty. rewrite Hempty in Hlen.
      destruct b; [done |]. unfold slen, zlength in Hlen. simpl in Hlen. lia.
    + by apply bytesToHex_lower.
    + rewrite E, Hlen. rewrite Z.mul_comm. apply Z.mod_mul. lia.
  - intros (Hne & Hall & Hev). unfold hexToBytesStrict.
    destruct (normalizeHexString s) as [| c n] eqn:En; [done |].
    change (negb (str_truthy (String.String c n))) with false. cbv iota. rewrite <- En in *.
    destruct (hexToBytes_total (normalizeHexString s)) as [b ->].
    + eapply string_all_impl; [apply is_lower_hex_is_hex | done].
    + apply Nat.even_spec. exists (Z.to_nat (slen (normalizeHexString s) / 2)).
      unfold slen in *. assert (Hd := Z.div_mod (Z.of_nat (String.length (normalizeHexString s))) 2).
      lia.
    + done.
Qed.

End laws.
