(* ===== verification/Rfc6962.v ===== *)
(** The CT-style Merkle tree (packages/merkle/src/rfc6962-merkle-tree.ts): the
    class [RFC6962MerkleTree] with its leaves and its two caches as a state,
    its methods as state transformers, its verifiers as pure functions, and the
    Merkle tree hash they are proved against. *)
From S2P Require Import Prelude.
From S2P Require Import Hex.

Module Rfc6962.

(** ** State *)

(** [rootCache] is keyed by the tree size and [mthCache] by the range: the code
    writes the pair as the string [`${start}:${size}`]. *)
Record Tree := mkTree {
  leaves : list string;
  rootCache : gmap Z string;
  mthCache : gmap (Z * Z) string;
  hits : Z;
  misses : Z;
}.

Definition empty_tree : Tree := mkTree [] ∅ ∅ 0 0.

Definition size (t : Tree) : Z := zlength (leaves t).

Record ConsistencyProof := mkConsistencyProof {
  oldSize : Z;
  newSize : Z;
  proofNodes : list string;
}.

Record ReconstructedConsistencyHashes := mkReconstructed {
  oldHash : string;
  newHash : string;
  nextIndex : Z;
}.

(** ** Splitting a range *)

Definition isPowerOfTwo (n : Z) : bool := Z.ltb 0 n && Z.eqb (js_and n (n - 1)) 0.

(** [while (k * 2 < n) k *= 2] *)
Fixpoint doubling_loop (fuel : nat) (k n : Z) : Z :=
  match fuel with
  | O => k
  | S f => if Z.ltb (k * 2) n then doubling_loop f (k * 2) n else k
  end.

Definition largestPowerOfTwoLessThan (n : Z) : Z :=
  if Z.leb n 1 then 0 else doubling_loop (Z.to_nat (Z.log2_up n)) 1 n.

(** Recursion on a range of [n] leaves is at most [log2_up n] deep. *)
Definition range_fuel (n : Z) : nat := S (Z.to_nat (Z.log2_up n)).

Section with_noble.
Context `{Noble}.

Definition LEAF_DOMAIN_TAG : bytes :=
  map char_code (String.list_ascii_of_string "stark-ballot:leaf|v1").

Definition hashLeaf (leafHex : string) : result string :=
  b ← hexToBytesStrict leafHex;
  Ok (sha256Hex [[0]; LEAF_DOMAIN_TAG; b]).

Definition hashPair (left right : string) : result string :=
  l ← hexToBytesStrict left;
  r ← hexToBytesStrict right;
  Ok (sha256Hex [[1]; l; r]).

(** ** Growing the tree *)

Definition set_leaves (ls : list string) (t : Tree) : Tree :=
  mkTree ls (rootCache t) (mthCache t) (hits t) (misses t).

Definition set_rootCache (c : gmap Z string) (t : Tree) : Tree :=
  mkTree (leaves t) c (mthCache t) (hits t) (misses t).

Definition set_mthCache (c : gmap (Z * Z) string) (t : Tree) : Tree :=
  mkTree (leaves t) (rootCache t) c (hits t) (misses t).

Definition add_hit (t : Tree) : Tree :=
  mkTree (leaves t) (rootCache t) (mthCache t) (hits t + 1) (misses t).

Definition add_miss (t : Tree) : Tree :=
  mkTree (leaves t) (rootCache t) (mthCache t) (hits t) (misses t + 1).

Definition append (leaf : string) : SM Tree unit :=
  let normalized := normalizeHexString leaf in
  if negb (str_truthy normalized) then sm_throw "Leaf cannot be empty"
  else if negb (isValidHexString normalized (Some 32)) then sm_throw "Invalid hex string"
  else sm_modify (fun t =>
    let t1 := set_leaves (leaves t ++ [normalized]) t in
    let old := size t1 - 1 in
    set_rootCache (filter (fun kv => kv.1 <= old) (rootCache t1)) t1).

(** ** The cached Merkle tree hash of a range *)

Definition validateMthRange (start sz : Z) : SM Tree unit := fun t =>
  (if Z.ltb sz 0 || Z.ltb start 0 then throw "Invalid MTH range"
   else if Z.ltb (size t) (start + sz) then throw "MTH range exceeds tree size"
   else Ok tt, t).

Definition read_leaf (msg : string) (i : Z) : SM Tree string := fun t =>
  match znth (leaves t) i with
  | Some leaf => if str_truthy leaf then (Ok leaf, t) else (throw msg, t)
  | None => (throw msg, t)
  end.

Fixpoint mthRange (fuel : nat) (start sz : Z) : SM Tree string :=
  match fuel with
  | O => sm_lift (Err OutOfFuel)
  | S f =>
      _ ← validateMthRange start sz;
      if Z.eqb sz 0 then mret (sha256Hex [])
      else if Z.eqb sz 1 then
        leaf ← read_leaf "Missing leaf at index" start;
        sm_lift (hashLeaf leaf)
      else
        t ← sm_get;
        match mthCache t !! (start, sz) with
        | Some cached =>
            if str_truthy cached then mret cached else sm_throw "Missing cached MTH for key"
        | None =>
            let k := largestPowerOfTwoLessThan sz in
            if Z.eqb k 0 then sm_throw "Invalid MTH split encountered"
            else
              leftHash ← mthRange f start k;
              rightHash ← mthRange f (start + k) (sz - k);
              result ← sm_lift (hashPair leftHash rightHash);
              _ ← sm_modify (fun t => set_mthCache (<[(start, sz) := result]> (mthCache t)) t);
              mret result
        end
  end.

Definition getRootAtSize (sz : Z) : SM Tree string :=
  if Z.ltb sz 0 then sm_throw "Size must be positive"
  else if Z.eqb sz 0 then sm_throw "Size must be positive"
  else
    t ← sm_get;
    if Z.ltb (size t) sz then sm_throw "Size exceeds tree size"
    else match rootCache t !! sz with
         | Some cached =>
             _ ← sm_modify add_hit;
             if str_truthy cached then mret cached else sm_throw "Missing cached root for size"
         | None =>
             _ ← sm_modify add_miss;
             root ← mthRange (range_fuel sz) 0 sz;
             _ ← sm_modify (fun t => set_rootCache (<[sz := root]> (rootCache t)) t);
             mret root
         end.

Definition getRoot : SM Tree string :=
  t ← sm_get;
  match leaves t with
  | [] => mret (sha256Hex [])
  | _ :: _ => getRootAtSize (size t)
  end.

Definition getCacheSize (t : Tree) : Z :=
  Z.of_nat (base.size (rootCache t)) + Z.of_nat (base.size (mthCache t)).

Definition clearCache : SM Tree unit := sm_modify (fun t => mkTree (leaves t) ∅ ∅ 0 0).

(** ** Inclusion proofs *)

Fixpoint path (fuel : nat) (m start sz : Z) : SM Tree (list string) :=
  match fuel with
  | O => sm_lift (Err OutOfFuel)
  | S f =>
      if Z.eqb sz 0 then mret []
      else if Z.eqb sz 1 then mret []
      else
        let k := largestPowerOfTwoLessThan sz in
        if Z.ltb m k then
          leftPath ← path f m start k;
          rightHash ← mthRange (range_fuel (sz - k)) (start + k) (sz - k);
          mret (leftPath ++ [rightHash])
        else
          rightPath ← path f (m - k) (start + k) (sz - k);
          leftHash ← mthRange (range_fuel k) start k;
          mret (rightPath ++ [leftHash])
  end.

Definition getInclusionProof (leafIndex : Z) (treeSize : option Z) : SM Tree (Z * list string) :=
  t ← sm_get;
  let sz := match treeSize with Some s => s | None => size t end in
  if Z.ltb leafIndex 0 then sm_throw "Leaf index must be non-negative"
  else if Z.leb sz leafIndex then sm_throw "Leaf index is out of range"
  else if Z.ltb (size t) sz then sm_throw "Tree size exceeds actual tree size"
  else
    nodes ← path (range_fuel sz) leafIndex 0 sz;
    mret (leafIndex, nodes).

(** [proofNodes[i]], with the falsy reads (undefined, empty) that throw. *)
Definition read_node (msg : string) (nodes : list string) (i : Z) : result string :=
  match znth nodes i with
  | Some n => if str_truthy n then Ok n else throw msg
  | None => throw msg
  end.

Fixpoint verifyPathRecursive (fuel : nat) (index sz : Z) (nodeHash : string)
    (nodes : list string) (proofPos : Z) : result (string * Z) :=
  match fuel with
  | O => Err OutOfFuel
  | S f =>
      if Z.eqb sz 1 then Ok (nodeHash, 0)
      else
        let k := largestPowerOfTwoLessThan sz in
        if Z.ltb index k then
          left ← verifyPathRecursive f index k nodeHash nodes proofPos;
          sibling ← read_node "Insufficient proof nodes" nodes (proofPos + left.2);
          parent ← hashPair left.1 sibling;
          Ok (parent, left.2 + 1)
        else
          right ← verifyPathRecursive f (index - k) (sz - k) nodeHash nodes proofPos;
          sibling ← read_node "Insufficient proof nodes" nodes (proofPos + right.2);
          parent ← hashPair sibling right.1;
          Ok (parent, right.2 + 1)
  end.

Definition verifyInclusionProof (leafHash : string) (leafIndex : Z) (nodes : list string)
    (rootHash : string) (treeSize : Z) : result bool :=
  if Z.ltb leafIndex 0 || Z.leb treeSize leafIndex then Ok false
  else
    hashedLeaf ← hashLeaf leafHash;
    if Z.eqb treeSize 1 && Z.eqb (zlength nodes) 0 then Ok (String.eqb hashedLeaf rootHash)
    else
      try_catch
        (r ← verifyPathRecursive (range_fuel treeSize) leafIndex treeSize hashedLeaf nodes 0;
         Ok (String.eqb r.1 rootHash && Z.eqb r.2 (zlength nodes)))
        (fun _ => Ok false).

(** ** Consistency proofs *)

Fixpoint subproof (fuel : nat) (m start sz : Z) (b : bool) : SM Tree (list string) :=
  match fuel with
  | O => sm_lift (Err OutOfFuel)
  | S f =>
      if Z.eqb m sz then
        if b then mret []
        else h ← mthRange (range_fuel sz) start sz; mret [h]
      else if Z.eqb m 1 && Z.eqb sz 2 && b then
        leaf ← read_leaf "Missing leaf for 1-2 consistency proof" (start + 1);
        mret [leaf]
      else
        let k := largestPowerOfTwoLessThan sz in
        if Z.leb m k then
          leftProof ← subproof f m start k b;
          rightHash ← mthRange (range_fuel (sz - k)) (start + k) (sz - k);
          mret (leftProof ++ [rightHash])
        else
          rightProof ← subproof f (m - k) (start + k) (sz - k) false;
          leftHash ← mthRange (range_fuel k) start k;
          mret (rightProof ++ [leftHash])
  end.

Definition getConsistencyProof (old new : Z) : SM Tree ConsistencyProof :=
  t ← sm_get;
  if Z.leb old 0 then sm_throw "oldSize must be positive"
  else if Z.leb new 0 then sm_throw "newSize must be positive"
  else if Z.ltb new old then sm_throw "oldSize must be <= newSize"
  else if Z.ltb (size t) new then sm_throw "newSize exceeds tree size"
  else if Z.eqb old new then mret (mkConsistencyProof old new [])
  else
    nodes ← subproof (range_fuel new) old 0 new true;
    mret (mkConsistencyProof old new nodes).

Definition hasValidConsistencyProofNodes (nodes : list string) : bool :=
  forallb (fun node => str_truthy node && Z.eqb (slen node) 64 && string_all is_hex node) nodes.

Definition isPerfectTreeDoubling (old new : Z) : bool :=
  isPowerOfTwo old && isPowerOfTwo new && Z.eqb new (old * 2).

Definition readConsistencyProofNode (nodes : list string) (index : Z) (label : string) :
    result string :=
  if Z.leb (zlength nodes) index then throw ("Proof exhausted while reading " +:+ label)
  else read_node ("Proof exhausted while reading " +:+ label) nodes index.

Definition resolveEqualConsistencySubtree (nodes : list string) (index : Z)
    (includeOldRoot : bool) (knownOldRoot : option string) :
    result ReconstructedConsistencyHashes :=
  if includeOldRoot then
    match knownOldRoot with
    | Some r =>
        if str_truthy r then Ok (mkReconstructed r r index)
        else throw "Known old root required for prefix subtree"
    | None => throw "Known old root required for prefix subtree"
    end
  else
    subtreeHash ← readConsistencyProofNode nodes index "subtree hash";
    Ok (mkReconstructed subtreeHash subtreeHash (index + 1)).

Definition assertKnownOldRootMatch (combinedOldHash : string) (includeOldRoot : bool)
    (knownOldRoot : option string) : result unit :=
  match knownOldRoot with
  | Some r =>
      if includeOldRoot && str_truthy r && negb (String.eqb combinedOldHash r)
      then throw "Old root mismatch detected" else Ok tt
  | None => Ok tt
  end.

Definition reconstructRawLeafExtension (nodes : list string) (index : Z)
    (knownOldRoot : option string) : result ReconstructedConsistencyHashes :=
  match knownOldRoot with
  | Some r =>
      if str_truthy r then
        rawLeaf ← readConsistencyProofNode nodes index "raw leaf";
        hashedLeaf ← hashLeaf rawLeaf;
        newHash ← hashPair r hashedLeaf;
        Ok (mkReconstructed r newHash (index + 1))
      else throw "Known old root required for 1-2 verification"
  | None => throw "Known old root required for 1-2 verification"
  end.

Fixpoint reconstructConsistencyHashes (fuel : nat) (old new : Z) (nodes : list string)
    (index : Z) (includeOldRoot : bool) (knownOldRoot : option string) :
    result ReconstructedConsistencyHashes :=
  match fuel with
  | O => Err OutOfFuel
  | S f =>
      if Z.eqb old new then
        resolveEqualConsistencySubtree nodes index includeOldRoot knownOldRoot
      else if Z.eqb old 1 && Z.eqb new 2 && includeOldRoot then
        reconstructRawLeafExtension nodes index knownOldRoot
      else
        let split := largestPowerOfTwoLessThan new in
        if Z.eqb split 0 then throw "Invalid tree split encountered"
        else if Z.leb old split then
          left ← reconstructConsistencyHashes f old split nodes index includeOldRoot knownOldRoot;
          rightHash ← readConsistencyProofNode nodes (nextIndex left) "right subtree hash";
          combinedNewHash ← hashPair (newHash left) rightHash;
          Ok (mkReconstructed (oldHash left) combinedNewHash (nextIndex left + 1))
        else
          right ← reconstructConsistencyHashes f (old - split) (new - split) nodes index false None;
          leftHash ← readConsistencyProofNode nodes (nextIndex right) "left subtree hash";
          combinedOldHash ← hashPair leftHash (oldHash right);
          combinedNewHash ← hashPair leftHash (newHash right);
          _ ← assertKnownOldRootMatch combinedOldHash includeOldRoot knownOldRoot;
          Ok (mkReconstructed combinedOldHash combinedNewHash (nextIndex right + 1))
  end.

Definition verifyReconstructedConsistencyProof (oldRoot newRoot : string)
    (proof : ConsistencyProof) : result bool :=
  try_catch
    (r ← reconstructConsistencyHashes (range_fuel (newSize proof)) (oldSize proof)
           (newSize proof) (proofNodes proof) 0 true (Some oldRoot);
     Ok (Z.eqb (nextIndex r) (zlength (proofNodes proof)) &&
         String.eqb (oldHash r) oldRoot && String.eqb (newHash r) newRoot))
    (fun _ => Ok false).

Definition verifySingleNodeExtension (oldRoot newRoot : string) (nodes : list string)
    (rawLeaf : bool) : result bool :=
  match nodes with
  | [node] =>
      if str_truthy node then
        rightHash ← (if rawLeaf then hashLeaf node else Ok node);
        h ← hashPair oldRoot rightHash;
        Ok (String.eqb h newRoot)
      else Ok false
  | _ => Ok false
  end.

Definition verifyConsistencyProof (oldRoot newRoot : string) (proof : ConsistencyProof) :
    result bool :=
  if Z.eqb (oldSize proof) (newSize proof) then
    Ok (String.eqb oldRoot newRoot && Z.eqb (zlength (proofNodes proof)) 0)
  else if Z.eqb (zlength (proofNodes proof)) 0 then Ok false
  else if negb (hasValidConsistencyProofNodes (proofNodes proof)) then Ok false
  else if Z.eqb (oldSize proof) 1 && Z.eqb (newSize proof) 2 then
    verifySingleNodeExtension oldRoot newRoot (proofNodes proof) true
  else if isPerfectTreeDoubling (oldSize proof) (newSize proof) then
    verifySingleNodeExtension oldRoot newRoot (proofNodes proof) false
  else verifyReconstructedConsistencyProof oldRoot newRoot proof.

End with_noble.
End Rfc6962.
