(* ===== verification/MerkleSpec.v ===== *)
(** The Merkle tree hash of RFC 6962 over byte strings, as a recursive function
    on the list of leaves, with the lists of hash inputs it evaluates: the
    specification the tree of [Rfc6962] implements. A statement "or the hash
    collides" always names the finite list of inputs the colliding pair is in. *)
From S2P Require Import Prelude.
From S2P Require Import Hex.
From S2P Require Import Rfc6962.

#[global] Arguments Rfc6962.largestPowerOfTwoLessThan : simpl never.

(** ** The split point *)

(** The largest power of two strictly below [n], in closed form. *)
Definition split_of (n : Z) : Z := 2 ^ Z.log2 (n - 1).

Lemma split_of_spec n : 2 <= n -> 0 < split_of n /\ split_of n < n <= 2 * split_of n.
Proof.
  intros Hn. unfold split_of.
  destruct (Z.log2_spec (n - 1)) as [H1 H2]; [lia |].
  rewrite Z.pow_succ_r in H2 by apply Z.log2_nonneg. lia.
Qed.

Lemma split_of_unique n j : 0 <= j -> 2 ^ j < n <= 2 * 2 ^ j -> split_of n = 2 ^ j.
Proof.
  intros Hj Hn. unfold split_of. f_equal. apply Z.log2_unique; [done |].
  rewrite Z.pow_succ_r by done. lia.
Qed.

Lemma split_of_prefix n m : 2 <= n -> split_of n < m <= n -> split_of m = split_of n.
Proof.
  intros Hn Hm. unfold split_of at 2. apply split_of_unique; [apply Z.log2_nonneg |].
  destruct (split_of_spec n Hn) as [? ?]. unfold split_of in *. lia.
Qed.

Lemma doubling_loop_spec fuel i n :
  0 <= i -> 2 ^ i < n -> n <= 2 ^ (i + Z.of_nat fuel) ->
  Rfc6962.doubling_loop fuel (2 ^ i) n = split_of n.
Proof.
  revert i. induction fuel as [| f IH]; intros i Hi Hlt Hle; cbn [Rfc6962.doubling_loop].
  - rewrite Z.add_0_r in Hle. lia.
  - destruct (Z.ltb_spec (2 ^ i * 2) n) as [H2 | H2].
    + replace (2 ^ i * 2) with (2 ^ (i + 1)) in * by (rewrite Z.pow_add_r by lia; lia).
      apply IH; [lia | done |]. by replace (i + 1 + Z.of_nat f) with (i + Z.of_nat (S f)) by lia.
    + symmetry. apply split_of_unique; [done | lia].
Qed.

Lemma pow2_log2_up n : 1 <= n -> n <= 2 ^ Z.log2_up n.
Proof.
  intros Hn. destruct (Z.eq_dec n 1) as [-> | Hne]; [by vm_compute |].
  destruct (Z.log2_up_spec n) as [_ ?]; [lia | done].
Qed.

Lemma largestPowerOfTwoLessThan_split n :
  2 <= n -> Rfc6962.largestPowerOfTwoLessThan n = split_of n.
Proof.
  intros Hn. unfold Rfc6962.largestPowerOfTwoLessThan.
  destruct (Z.leb_spec n 1); [lia |].
  apply (doubling_loop_spec _ 0); [lia | simpl; lia |].
  rewrite Z.add_0_l, Z2Nat.id by apply Z.log2_up_nonneg. apply pow2_log2_up. lia.
Qed.

(** [largestPowerOfTwoLessThan] against the arithmetic it stands for. *)
Lemma largestPowerOfTwoLessThan_spec n :
  2 <= n ->
  (exists j, 0 <= j /\ Rfc6962.largestPowerOfTwoLessThan n = 2 ^ j) /\
  Rfc6962.largestPowerOfTwoLessThan n < n <= 2 * Rfc6962.largestPowerOfTwoLessThan n.
Proof.
  intros Hn. rewrite largestPowerOfTwoLessThan_split by done. split.
  - exists (Z.log2 (n - 1)). split; [apply Z.log2_nonneg | done].
  - by apply split_of_spec.
Qed.

(** A fuel argument: a range of at most [2 ^ f] leaves splits into two ranges
    of at most [2 ^ (f - 1)]. *)
Definition fits (n : Z) (f : nat) : Prop := n <= 2 ^ Z.of_nat f.

Lemma fits_0 n : fits n 0 -> n <= 1.
Proof. unfold fits. simpl. lia. Qed.

Lemma fits_split n f :
  2 <= n -> fits n (S f) -> fits (split_of n) f /\ fits (n - split_of n) f.
Proof.
  unfold fits. intros Hn Hf. destruct (split_of_spec n Hn) as [H0 [H1 H2]].
  assert (Hle : split_of n <= 2 ^ Z.of_nat f); [| lia].
  unfold split_of. apply Z.pow_le_mono_r; [lia |].
  apply Z.lt_succ_r, Z.log2_lt_pow2; [lia |].
  replace (Z.succ (Z.of_nat f)) with (Z.of_nat (S f)) by lia. lia.
Qed.

Lemma range_fuel_log n : Rfc6962.range_fuel n = S (Z.to_nat (Z.log2_up n)).
Proof. done. Qed.

Lemma fits_range_fuel n : exists f, Rfc6962.range_fuel n = S f /\ fits n f.
Proof.
  exists (Z.to_nat (Z.log2_up n)). split; [done |]. unfold fits.
  destruct (Z_le_gt_dec n 1) as [H1 | H1].
  - assert (0 < 2 ^ Z.of_nat (Z.to_nat (Z.log2_up n))) by (apply Z.pow_pos_nonneg; lia). lia.
  - rewrite Z2Nat.id by apply Z.log2_up_nonneg. apply pow2_log2_up. lia.
Qed.

(** ** The hash of a list of leaves *)

Section spec.
Context `{Noble}.

Definition leaf_input (b : bytes) : bytes := [0] ++ Rfc6962.LEAF_DOMAIN_TAG ++ b.
Definition node_input (l r : bytes) : bytes := [1] ++ l ++ r.
Definition leaf_hash (b : bytes) : bytes := sha256 (leaf_input b).
Definition node_hash (l r : bytes) : bytes := sha256 (node_input l r).

Definition split_nat {A} (l : list A) : nat := Z.to_nat (split_of (zlength l)).

Fixpoint mth_fuel (fuel : nat) (l : list bytes) : bytes :=
  match fuel, l with
  | _, [] => sha256 []
  | _, [x] => leaf_hash x
  | O, _ => sha256 []
  | S f, _ => node_hash (mth_fuel f (take (split_nat l) l)) (mth_fuel f (drop (split_nat l) l))
  end.

(** MTH of RFC 6962, section 2.1, with the application's leaf tag. *)
Definition MTH (l : list bytes) : bytes := mth_fuel (length l) l.

Fixpoint mth_inputs_fuel (fuel : nat) (l : list bytes) : list bytes :=
  match fuel, l with
  | _, [] => [[]]
  | _, [x] => [leaf_input x]
  | O, _ => [[]]
  | S f, _ =>
      let a := take (split_nat l) l in
      let b := drop (split_nat l) l in
      node_input (MTH a) (MTH b) :: mth_inputs_fuel f a ++ mth_inputs_fuel f b
  end.

(** Every input hashed while computing [MTH l]. *)
Definition mth_inputs (l : list bytes) : list bytes := mth_inputs_fuel (length l) l.

(** Two different inputs of [s] with the same hash. *)
Definition collision_in (s : list bytes) : Prop :=
  exists a b, a ∈ s /\ b ∈ s /\ a <> b /\ sha256 a = sha256 b.

Lemma collision_in_mono s t : (forall x, x ∈ s -> x ∈ t) -> collision_in s -> collision_in t.
Proof. intros Hst (a & b & Ha & Hb & ?). exists a, b. auto. Qed.

(** Equal hashes: equal inputs, or a collision between two known inputs. *)
Lemma same_hash s a b :
  a ∈ s -> b ∈ s -> sha256 a = sha256 b -> a = b \/ collision_in s.
Proof.
  intros Ha Hb Heq. destruct (decide (a = b)) as [| Hne]; [by left |].
  right. by exists a, b.
Qed.

Lemma list_len2 {A} (l : list A) : 2 <= zlength l -> exists x y k, l = x :: y :: k.
Proof.
  unfold zlength. destruct l as [| x [| y k]]; simpl; [lia | lia |]. intros _. by exists x, y, k.
Qed.

Lemma split_nat_range {A} (l : list A) :
  2 <= zlength l -> (0 < split_nat l < length l)%nat.
Proof.
  intros Hl. unfold split_nat. destruct (split_of_spec (zlength l) Hl) as [? [? ?]].
  unfold zlength in *. lia.
Qed.

Lemma split_lengths {A} (l : list A) :
  2 <= zlength l ->
  zlength (take (split_nat l) l) = split_of (zlength l) /\
  zlength (drop (split_nat l) l) = zlength l - split_of (zlength l).
Proof.
  intros Hl. assert (Hs := split_nat_range l Hl). unfold split_nat in *.
  destruct (split_of_spec (zlength l) Hl) as [? [? ?]].
  unfold zlength in *. rewrite length_take, length_drop. lia.
Qed.

Lemma mth_fuel_enough f1 f2 l :
  (length l <= f1)%nat -> (length l <= f2)%nat -> mth_fuel f1 l = mth_fuel f2 l.
Proof.
  revert f2 l. induction f1 as [| f1 IH]; intros f2 l H1 H2.
  - destruct l; [by destruct f2 | simpl in H1; lia].
  - destruct l as [| x [| y l']] eqn:El; [by destruct f2 | by destruct f2 |].
    rewrite <- El in *. assert (Hl : 2 <= zlength l) by (subst l; unfold zlength; simpl; lia).
    assert (Hs := split_nat_range l Hl).
    destruct f2 as [| f2]; [subst l; simpl in H2; lia |].
    assert (E : forall f, mth_fuel (S f) l =
      node_hash (mth_fuel f (take (split_nat l) l)) (mth_fuel f (drop (split_nat l) l)))
      by (subst l; done).
    rewrite !E. f_equal; apply IH; rewrite ?length_take, ?length_drop; lia.
Qed.

Lemma MTH_nil : MTH [] = sha256 [].
Proof. done. Qed.

Lemma MTH_one x : MTH [x] = leaf_hash x.
Proof. done. Qed.

Lemma MTH_split l :
  2 <= zlength l ->
  MTH l = node_hash (MTH (take (split_nat l) l)) (MTH (drop (split_nat l) l)).
Proof.
  intros Hl. assert (Hs := split_nat_range l Hl).
  destruct (list_len2 l Hl) as (x & y & k & El).
  unfold MTH at 1.
  assert (E : mth_fuel (length l) l =
    node_hash (mth_fuel (length l - 1) (take (split_nat l) l))
              (mth_fuel (length l - 1) (drop (split_nat l) l))).
  { subst l. simpl length. by rewrite Nat.sub_1_r. }
  rewrite E. unfold MTH. f_equal; apply mth_fuel_enough; rewrite ?length_take, ?length_drop; lia.
Qed.

Lemma mth_inputs_fuel_enough f1 f2 l :
  (length l <= f1)%nat -> (length l <= f2)%nat -> mth_inputs_fuel f1 l = mth_inputs_fuel f2 l.
Proof.
  revert f2 l. induction f1 as [| f1 IH]; intros f2 l H1 H2.
  - destruct l; [by destruct f2 | simpl in H1; lia].
  - destruct l as [| x [| y l']] eqn:El; [by destruct f2 | by destruct f2 |].
    rewrite <- El in *. assert (Hl : 2 <= zlength l) by (subst l; unfold zlength; simpl; lia).
    assert (Hs := split_nat_range l Hl).
    destruct f2 as [| f2]; [subst l; simpl in H2; lia |].
    assert (E : forall f, mth_inputs_fuel (S f) l =
      node_input (MTH (take (split_nat l) l)) (MTH (drop (split_nat l) l)) ::
      mth_inputs_fuel f (take (split_nat l) l) ++ mth_inputs_fuel f (drop (split_nat l) l))
      by (subst l; done).
    rewrite !E. do 2 f_equal; apply IH; rewrite ?length_take, ?length_drop; lia.
Qed.

Lemma mth_inputs_split l :
  2 <= zlength l ->
  mth_inputs l = node_input (MTH (take (split_nat l) l)) (MTH (drop (split_nat l) l)) ::
                 mth_inputs (take (split_nat l) l) ++ mth_inputs (drop (split_nat l) l).
Proof.
  intros Hl. assert (Hs := split_nat_range l Hl).
  destruct (list_len2 l Hl) as (x & y & k & El).
  unfold mth_inputs at 1.
  assert (E : mth_inputs_fuel (length l) l =
    node_input (MTH (take (split_nat l) l)) (MTH (drop (split_nat l) l)) ::
    mth_inputs_fuel (length l - 1) (take (split_nat l) l) ++
    mth_inputs_fuel (length l - 1) (drop (split_nat l) l)).
  { subst l. simpl length. by rewrite Nat.sub_1_r. }
  rewrite E. unfold mth_inputs.
  do 2 f_equal; apply mth_inputs_fuel_enough; rewrite ?length_take, ?length_drop; lia.
Qed.

(** ** Injectivity up to collisions *)

Lemma leaf_input_inj a b : leaf_input a = leaf_input b -> a = b.
Proof. unfold leaf_input. intros E. by apply app_inv_head, app_inv_head in E. Qed.

Lemma leaf_node_input a l r : leaf_input a <> node_input l r.
Proof. by intros [=]. Qed.

Lemma node_input_inj l1 r1 l2 r2 :
  length l1 = length l2 -> node_input l1 r1 = node_input l2 r2 -> l1 = l2 /\ r1 = r2.
Proof. intros Hlen [= E]. by apply app_inj_1 in E. Qed.

Lemma MTH_length `{!NobleLaws} l : length (MTH l) = 32%nat.
Proof.
  unfold MTH. destruct (length l), l as [| x [| y l]]; simpl; apply sha256_length.
Qed.

Lemma MTH_bytes `{!NobleLaws} l : is_bytes (MTH l).
Proof.
  unfold MTH. destruct (length l), l as [| x [| y l]]; simpl; apply sha256_bytes.
Qed.

(** The hash of the root is the hash of the first listed input. *)
Lemma MTH_head l : exists i, i ∈ mth_inputs l /\ MTH l = sha256 i.
Proof.
  destruct l as [| x [| y k]] eqn:E.
  - exists []. split; [by apply list_elem_of_here | done].
  - exists (leaf_input x). split; [by apply list_elem_of_here | done].
  - rewrite <- E in *. assert (Hl : 2 <= zlength l) by (subst; unfold zlength; simpl; lia).
    exists (node_input (MTH (take (split_nat l) l)) (MTH (drop (split_nat l) l))).
    rewrite (mth_inputs_split l), (MTH_split l) by done. split; [apply list_elem_of_here | done].
Qed.

#[local] Abbreviation mth_inputs_pair k l1 l2 :=
  (node_input (MTH (take k l1)) (MTH (drop k l1)) ::
   node_input (MTH (take k l2)) (MTH (drop k l2)) ::
   (mth_inputs (take k l1) ++ mth_inputs (drop k l1)) ++
   (mth_inputs (take k l2) ++ mth_inputs (drop k l2))).

(** Two lists of the same length with the same root are equal, unless two of
    the inputs hashed for their roots collide. *)
Lemma MTH_inj `{!NobleLaws} l1 l2 :
  length l1 = length l2 -> MTH l1 = MTH l2 ->
  l1 = l2 \/ collision_in (mth_inputs l1 ++ mth_inputs l2).
Proof.
  remember (length l1) as n eqn:Hn. revert l1 l2 Hn.
  induction n as [n IH] using (well_founded_induction lt_wf). intros l1 l2 Hn Hlen Heq.
  destruct (decide (2 <= zlength l1)) as [Hl1 | Hl1]; cycle 1.
  { destruct l1 as [| x [| ? ?]], l2 as [| y [| ? ?]]; unfold zlength in *; simpl in *; try lia.
    - by left.
    - rewrite !MTH_one in Heq.
      destruct (same_hash (mth_inputs [x] ++ mth_inputs [y]) _ _
                  (list_elem_of_here _ _) (list_elem_of_further _ _ _ (list_elem_of_here _ _)) Heq)
        as [E | Hc]; [| by right].
      left. by apply leaf_input_inj in E as ->. }
  assert (Hl2 : 2 <= zlength l2) by (unfold zlength in *; lia).
  assert (Hsplit : split_nat l1 = split_nat l2) by (unfold split_nat, zlength; congruence).
  assert (Hs := split_nat_range l1 Hl1).
  rewrite (mth_inputs_split l1), (mth_inputs_split l2) by done.
  rewrite (MTH_split l1), (MTH_split l2) in Heq by done. rewrite <- Hsplit in *.
  set (k := split_nat l1) in *.
  destruct (same_hash (mth_inputs_pair k l1 l2) _ _
              (list_elem_of_here _ _) (list_elem_of_further _ _ _ (list_elem_of_here _ _)) Heq)
    as [E | Hc]; cycle 1.
  { right. revert Hc. apply collision_in_mono. list_subset. }
  apply node_input_inj in E as [EL ER]; [| by rewrite !MTH_length].
  destruct (IH k) with (l1 := take k l1) (l2 := take k l2) as [EqL | Hc]; try done.
  - lia.
  - rewrite length_take. lia.
  - rewrite length_take. lia.
  - destruct (IH (n - k)%nat) with (l1 := drop k l1) (l2 := drop k l2) as [EqR | Hc]; try done.
    + lia.
    + rewrite length_drop. lia.
    + rewrite length_drop. lia.
    + left. rewrite <- (take_drop k l1), <- (take_drop k l2). congruence.
    + right. revert Hc. apply collision_in_mono. list_subset.
  - right. revert Hc. apply collision_in_mono. list_subset.
Qed.

(** A parent hash that equals the root of a list of at least two leaves was
    computed from the two subtree roots, unless the hash collides. *)
Lemma node_matches `{!NobleLaws} l bl br :
  2 <= zlength l -> length bl = 32%nat \/ length br = 32%nat -> node_hash bl br = MTH l ->
  (bl = MTH (take (split_nat l) l) /\ br = MTH (drop (split_nat l) l)) \/
  collision_in (mth_inputs l ++ [node_input bl br]).
Proof.
  intros Hl H32 E. rewrite (MTH_split l) in E by done.
  rewrite (mth_inputs_split l) by done.
  match goal with |- _ \/ collision_in ?s =>
    destruct (same_hash s _ _ ltac:(apply elem_of_app; right; apply list_elem_of_here)
                ltac:(apply elem_of_app; left; apply list_elem_of_here) E) as [Eq | Hc]
  end; [left | by right].
  destruct H32 as [H32 | H32].
  - apply node_input_inj in Eq; [done |]. by rewrite H32, MTH_length.
  - unfold node_input in Eq. injection Eq as Eq.
    apply app_inj_2 in Eq; [done |]. by rewrite H32, MTH_length.
Qed.

End spec.

#[global] Opaque Rfc6962.range_fuel.
