(* ===== verification/TreeFacts.v ===== *)
(** The cached methods of [RFC6962MerkleTree] refine the Merkle tree hash: on
    every tree that calls can build, whatever its caches hold, the range hash
    is [MTH] of the leaves of the range and the caches stay correct. *)
From S2P Require Import Prelude.
From S2P Require Import Hex.
From S2P Require Import Rfc6962.
From S2P Require Import MerkleSpec.
Import Rfc6962.

Section refinement.
Context `{NobleLaws}.

(** ** What the hex strings of the tree stand for *)

(** What [append] stores: text that normalises to 64 hexadecimal digits. *)
Definition valid_leaf (s : string) : Prop := isValidHexString s (Some 32) = true.

(** The text a caller means: exactly 64 lower-case digits, no prefix. *)
Definition canonical_leaf (s : string) : Prop :=
  string_all is_lower_hex s = true /\ slen s = 64.

Definition leaf_bytes (s : string) : bytes :=
  match hexToBytesStrict s with Ok b => b | Err _ => [] end.

Definition tree_bytes (t : Tree) : list bytes := leaf_bytes <$> leaves t.

Definition range (t : Tree) (start sz : Z) : list bytes :=
  take (Z.to_nat sz) (drop (Z.to_nat start) (tree_bytes t)).

Definition root_of (l : list bytes) : string := bytesToHex (MTH l).

Lemma hex32_decodes s :
  string_all is_hex s = true -> slen s = 64 ->
  exists b, hexToBytesStrict s = Ok b /\ length b = 32%nat /\ bytesToHex b = to_lower s.
Proof.
  intros Hh Hl.
  assert (Hn : normalizeHexString s = to_lower s) by (by apply normalizeHexString_hex).
  assert (Hlen : slen (to_lower s) = 64).
  { unfold slen, to_lower in *. by rewrite string_map_length. }
  destruct (hexToBytesStrict s) as [b | e] eqn:E.
  - exists b. split; [done |]. assert (Hb := hexToBytesStrict_length s b E).
    apply hexToBytesStrict_Ok in E as (_ & E & _). rewrite Hn in *.
    split; [| done]. unfold zlength in Hb. lia.
  - exfalso. assert (Hok : is_ok (hexToBytesStrict s)); [| by rewrite E in Hok].
    apply hexToBytesStrict_is_ok. rewrite Hn, Hlen. split_and!.
    + intros Hz. by rewrite Hz in Hlen.
    + by apply to_lower_hex.
    + done.
Qed.

Lemma canonical_valid_leaf s : canonical_leaf s -> valid_leaf s.
Proof.
  intros [Ha Hl]. unfold valid_leaf, isValidHexString. rewrite normalize_lower_hex by done.
  rewrite Ha, Hl. by destruct s.
Qed.

Lemma valid_leaf_normalize s : valid_leaf s -> canonical_leaf (normalizeHexString s).
Proof. intros [Ha Hl]%isValidHexString_spec. by split. Qed.

Lemma valid_leaf_decodes s :
  valid_leaf s ->
  hexToBytesStrict s = Ok (leaf_bytes s) /\ length (leaf_bytes s) = 32%nat /\
  bytesToHex (leaf_bytes s) = normalizeHexString s.
Proof.
  intros [Ha Hl]%isValidHexString_spec.
  destruct (hexToBytesStrict s) as [b | e] eqn:E.
  - unfold leaf_bytes. rewrite E. split; [done |].
    assert (Hb := hexToBytesStrict_length s b E).
    apply hexToBytesStrict_Ok in E as (_ & E & _). split; [| done].
    unfold zlength in Hb. lia.
  - exfalso. assert (Hok : is_ok (hexToBytesStrict s)); [| by rewrite E in Hok].
    apply hexToBytesStrict_is_ok. rewrite Hl. split_and!; [| done | done].
    intros Hz. by rewrite Hz in Hl.
Qed.

Lemma valid_leaf_truthy s : valid_leaf s -> str_truthy s = true.
Proof. by destruct s. Qed.

Lemma root_of_canonical l : canonical_leaf (root_of l).
Proof.
  split.
  - apply bytesToHex_lower, MTH_bytes.
  - unfold slen, root_of. rewrite bytesToHex_length by apply MTH_bytes.
    by rewrite MTH_length.
Qed.

Lemma root_of_valid l : valid_leaf (root_of l).
Proof. apply canonical_valid_leaf, root_of_canonical. Qed.

Lemma root_of_decodes l : hexToBytesStrict (root_of l) = Ok (MTH l).
Proof.
  apply hexToBytesStrict_bytesToHex; [apply MTH_bytes |].
  intros E. assert (Hl := MTH_length l). by rewrite E in Hl.
Qed.

Lemma root_of_inj l1 l2 : root_of l1 = root_of l2 -> MTH l1 = MTH l2.
Proof.
  intros E. assert (E1 := root_of_decodes l1). rewrite E, root_of_decodes in E1.
  by injection E1.
Qed.

Lemma hashLeaf_valid s b :
  hexToBytesStrict s = Ok b -> hashLeaf s = Ok (root_of [b]).
Proof.
  intros E. unfold hashLeaf. rewrite E. unfold root_of. rewrite MTH_one.
  unfold leaf_hash, leaf_input, sha256Hex. simpl. by rewrite app_nil_r.
Qed.

Lemma hashPair_bytes l r bl br :
  hexToBytesStrict l = Ok bl -> hexToBytesStrict r = Ok br ->
  hashPair l r = Ok (bytesToHex (node_hash bl br)).
Proof.
  intros El Er. unfold hashPair. rewrite El. simpl. rewrite Er. simpl.
  unfold node_hash, node_input, sha256Hex. simpl. by rewrite app_nil_r.
Qed.

Lemma hashPair_roots l :
  2 <= zlength l ->
  hashPair (root_of (take (split_nat l) l)) (root_of (drop (split_nat l) l)) = Ok (root_of l).
Proof.
  intros Hl. erewrite hashPair_bytes by apply root_of_decodes.
  by unfold root_of; rewrite (MTH_split l).
Qed.

(** ** The invariant of the state *)

Record tree_ok (t : Tree) : Prop := {
  ok_leaves : Forall valid_leaf (leaves t);
  ok_mth s n r : mthCache t !! (s, n) = Some r ->
    0 <= s /\ 2 <= n /\ s + n <= size t /\ r = root_of (range t s n);
  ok_root n r : rootCache t !! n = Some r ->
    1 <= n <= size t /\ r = root_of (range t 0 n);
}.

Lemma tree_ok_empty : tree_ok empty_tree.
Proof. by split. Qed.

Lemma tree_bytes_length t : zlength (tree_bytes t) = size t.
Proof. unfold tree_bytes, size, zlength. by rewrite length_fmap. Qed.

Lemma range_length t s n :
  0 <= s -> 0 <= n -> s + n <= size t -> zlength (range t s n) = n.
Proof.
  intros. rewrite <- (tree_bytes_length t) in *. unfold range, zlength in *.
  rewrite length_take, length_drop. lia.
Qed.

Lemma range_all t : range t 0 (size t) = tree_bytes t.
Proof.
  unfold range. rewrite drop_0. apply take_ge.
  assert (E := tree_bytes_length t). unfold zlength in *. lia.
Qed.

Lemma range_left t s n k : 0 <= k <= n -> take (Z.to_nat k) (range t s n) = range t s k.
Proof. intros Hk. unfold range. rewrite take_take. f_equal. lia. Qed.

Lemma range_right t s n k :
  0 <= s -> 0 <= k <= n -> drop (Z.to_nat k) (range t s n) = range t (s + k) (n - k).
Proof.
  intros Hs Hk. unfold range. rewrite skipn_firstn_comm, drop_drop. f_equal; [lia |].
  f_equal. lia.
Qed.

Lemma range_halves t s n :
  0 <= s -> 2 <= n -> s + n <= size t ->
  take (split_nat (range t s n)) (range t s n) = range t s (split_of n) /\
  drop (split_nat (range t s n)) (range t s n) = range t (s + split_of n) (n - split_of n).
Proof.
  intros Hs Hn Hsz. unfold split_nat. rewrite range_length by lia.
  destruct (split_of_spec n Hn) as [? [? ?]].
  rewrite range_left, range_right by lia. done.
Qed.

Lemma range_same_leaves t t' s n : leaves t' = leaves t -> range t' s n = range t s n.
Proof. intros E. unfold range, tree_bytes. by rewrite E. Qed.

Lemma size_same_leaves t t' : leaves t' = leaves t -> size t' = size t.
Proof. intros E. unfold size. by rewrite E. Qed.

Lemma range_one t i leaf :
  znth (leaves t) i = Some leaf -> range t i 1 = [leaf_bytes leaf].
Proof.
  intros Hi. assert (Hr := znth_Some_range _ _ _ Hi).
  unfold znth in Hi. destruct (Z.ltb_spec i 0); [lia |].
  unfold range. change (Z.to_nat 1) with 1%nat.
  assert (E : tree_bytes t !! Z.to_nat i = Some (leaf_bytes leaf)).
  { unfold tree_bytes. by rewrite list_lookup_fmap, Hi. }
  by rewrite (drop_S _ _ _ E).
Qed.

Lemma znth_in_range t i :
  tree_ok t -> 0 <= i < size t -> exists leaf, znth (leaves t) i = Some leaf /\ valid_leaf leaf.
Proof.
  intros Hok Hi. unfold size, zlength in Hi. unfold znth.
  destruct (Z.ltb_spec i 0); [lia |].
  destruct (lookup_lt_is_Some_2 (leaves t) (Z.to_nat i)) as [leaf Hl]; [lia |].
  exists leaf. split; [done |].
  eapply (Forall_lookup_1 valid_leaf); [apply (ok_leaves t Hok) | done].
Qed.

(** Changing only counters and correct cache entries keeps the invariant. *)
Lemma tree_ok_add_mth t s n r :
  tree_ok t -> 0 <= s -> 2 <= n -> s + n <= size t -> r = root_of (range t s n) ->
  tree_ok (set_mthCache (<[(s, n) := r]> (mthCache t)) t).
Proof.
  intros [Hl Hm Hr] Hs Hn Hsz ->. split; [done | | done].
  intros s' n' r'. simpl. rewrite lookup_insert. case_decide as E.
  - injection E as <- <-. intros [= <-]. done.
  - apply Hm.
Qed.

Lemma tree_ok_add_root t n r :
  tree_ok t -> 1 <= n <= size t -> r = root_of (range t 0 n) ->
  tree_ok (set_rootCache (<[n := r]> (rootCache t)) t).
Proof.
  intros [Hl Hm Hr] Hn ->. split; [done | done |].
  intros n' r'. simpl. rewrite lookup_insert. case_decide as E.
  - subst n'. intros [= <-]. done.
  - apply Hr.
Qed.

Lemma tree_ok_counters t : tree_ok t -> tree_ok (add_hit t) /\ tree_ok (add_miss t).
Proof. intros [Hl Hm Hr]. by split; split. Qed.

(** ** Calls that return a value and keep the leaves *)

Definition returns {A} (m : SM Tree A) (t : Tree) (a : A) : Prop :=
  exists t', m t = (Ok a, t') /\ leaves t' = leaves t /\ tree_ok t'.

Lemma returns_ret {A} (a : A) t : tree_ok t -> returns (mret a) t a.
Proof. intros Hok. by exists t. Qed.

Lemma returns_lift {A} (r : result A) t a : tree_ok t -> r = Ok a -> returns (sm_lift r) t a.
Proof. intros Hok ->. by exists t. Qed.

Lemma returns_get t : tree_ok t -> returns sm_get t t.
Proof. intros Hok. by exists t. Qed.

Lemma returns_modify f t :
  leaves (f t) = leaves t -> tree_ok (f t) -> returns (sm_modify f) t tt.
Proof. intros Hl Hok. by exists (f t). Qed.

Lemma returns_bind {A B} (m : SM Tree A) (f : A -> SM Tree B) t a b :
  returns m t a ->
  (forall t', leaves t' = leaves t -> tree_ok t' -> returns (f a) t' b) ->
  returns (m ≫= f) t b.
Proof.
  intros (t1 & E1 & L1 & O1) Hf. destruct (Hf t1 L1 O1) as (t2 & E2 & L2 & O2).
  exists t2. split_and!; [| congruence | done].
  unfold mbind, SM_bind. by rewrite E1.
Qed.

Lemma returns_bind_get {B} (f : Tree -> SM Tree B) t b :
  tree_ok t -> returns (f t) t b -> returns (sm_get ≫= f) t b.
Proof. done. Qed.

Lemma returns_validate t s n :
  tree_ok t -> 0 <= s -> 0 <= n -> s + n <= size t -> returns (validateMthRange s n) t tt.
Proof.
  intros Hok Hs Hn Hsz. exists t. unfold validateMthRange.
  destruct (Z.ltb_spec n 0); [lia |]. destruct (Z.ltb_spec s 0); [lia |]. simpl.
  destruct (Z.ltb_spec (size t) (s + n)); [lia | done].
Qed.

Lemma returns_read_leaf t msg i :
  tree_ok t -> 0 <= i < size t ->
  exists leaf, returns (read_leaf msg i) t leaf /\ znth (leaves t) i = Some leaf /\ valid_leaf leaf.
Proof.
  intros Hok Hi. destruct (znth_in_range t i Hok Hi) as (leaf & E & Hv).
  exists leaf. split_and!; [| done | done]. exists t. unfold read_leaf.
  by rewrite E, (valid_leaf_truthy leaf Hv).
Qed.

(** The cached range hash returns the Merkle tree hash of the range. *)
Lemma returns_mthRange f : forall s n t,
  tree_ok t -> 0 <= s -> 0 <= n -> s + n <= size t -> fits n f ->
  returns (mthRange (S f) s n) t (root_of (range t s n)).
Proof.
  induction f as [f IH] using (well_founded_induction lt_wf). intros s n t Hok Hs Hn Hsz Hf.
  cbn [mthRange]. eapply returns_bind; [by apply returns_validate |].
  clear Hok. intros t' L Hok. rewrite <- (range_same_leaves t t') by done.
  rewrite <- (size_same_leaves t t') in Hsz by done. clear t L. rename t' into t.
  destruct (Z.eqb_spec n 0) as [-> | Hn0].
  { by apply returns_ret. }
  destruct (Z.eqb_spec n 1) as [-> | Hn1].
  { destruct (returns_read_leaf t "Missing leaf at index" s) as (leaf & Hret & Hz & Hv); [done | lia |].
    eapply returns_bind; [done |]. intros t' L Hok'.
    apply returns_lift; [done |]. rewrite (range_one t s leaf) by done.
    apply hashLeaf_valid. by apply valid_leaf_decodes. }
  apply returns_bind_get; [done |].
  destruct (mthCache t !! (s, n)) as [cached |] eqn:Ec.
  { destruct (ok_mth t Hok s n cached Ec) as (_ & _ & _ & ->).
    rewrite (valid_leaf_truthy _ (root_of_valid _)). by apply returns_ret. }
  rewrite largestPowerOfTwoLessThan_split by lia.
  destruct (split_of_spec n) as [Hk0 [Hk1 Hk2]]; [lia |].
  destruct (Z.eqb_spec (split_of n) 0); [lia |].
  destruct f as [| f]; [apply fits_0 in Hf; lia |].
  destruct (fits_split n f) as [FL FR]; [lia | done |].
  eapply returns_bind; [apply (IH f); auto with lia |]. intros t1 L1 Hok1.
  assert (S1 := size_same_leaves t t1 L1).
  eapply returns_bind; [apply (IH f); auto with lia |]. intros t2 L2 Hok2.
  assert (S2 := size_same_leaves t1 t2 L2).
  assert (HP : hashPair (root_of (range t s (split_of n)))
                 (root_of (range t1 (s + split_of n) (n - split_of n)))
               = Ok (root_of (range t s n))).
  { rewrite (range_same_leaves t t1) by done.
    destruct (range_halves t s n) as [<- <-]; [lia | lia | done |].
    apply hashPair_roots. rewrite range_length; lia. }
  eapply returns_bind; [by apply returns_lift |]. intros t3 L3 Hok3.
  assert (S3 := size_same_leaves t2 t3 L3).
  eapply returns_bind; [apply returns_modify; [done |] | intros; by apply returns_ret].
  apply tree_ok_add_mth; [done | lia | lia | lia |].
  rewrite (range_same_leaves t t3); [done | congruence].
Qed.

Lemma returns_range_hash s n t :
  tree_ok t -> 0 <= s -> 0 <= n -> s + n <= size t ->
  returns (mthRange (range_fuel n) s n) t (root_of (range t s n)).
Proof.
  intros. destruct (fits_range_fuel n) as (f & -> & Hf). by apply returns_mthRange.
Qed.

Lemma returns_getRootAtSize n t :
  tree_ok t -> 1 <= n <= size t ->
  returns (getRootAtSize n) t (root_of (range t 0 n)).
Proof.
  intros Hok Hn. unfold getRootAtSize.
  destruct (Z.ltb_spec n 0); [lia |]. destruct (Z.eqb_spec n 0); [lia |].
  apply returns_bind_get; [done |].
  destruct (Z.ltb_spec (size t) n); [lia |].
  destruct (tree_ok_counters t Hok) as [Hhit Hmiss].
  destruct (rootCache t !! n) as [cached |] eqn:Ec.
  - destruct (ok_root t Hok n cached Ec) as (_ & ->).
    eapply returns_bind; [by apply returns_modify |]. intros t' L Hok'.
    rewrite (valid_leaf_truthy _ (root_of_valid _)). by apply returns_ret.
  - eapply returns_bind; [by apply returns_modify |]. intros t1 L1 Hok1.
    assert (S1 := size_same_leaves t t1 L1).
    eapply returns_bind; [apply returns_range_hash; auto with lia |]. intros t2 L2 Hok2.
    assert (S2 := size_same_leaves t1 t2 L2).
    rewrite (range_same_leaves t t1) by done.
    eapply returns_bind; [apply returns_modify; [done |] | intros; by apply returns_ret].
    apply tree_ok_add_root; [done | lia |]. rewrite (range_same_leaves t t2); [done | congruence].
Qed.

Lemma returns_getRoot t : tree_ok t -> returns getRoot t (root_of (tree_bytes t)).
Proof.
  intros Hok. unfold getRoot. apply returns_bind_get; [done |].
  destruct (leaves t) as [| x l] eqn:El.
  - unfold tree_bytes. rewrite El. by apply returns_ret.
  - rewrite <- range_all. apply returns_getRootAtSize; [done |].
    unfold size, zlength. rewrite El. simpl. lia.
Qed.

(** ** Reachable trees *)

Definition append_ok (leaf : string) : bool :=
  str_truthy (normalizeHexString leaf) && isValidHexString (normalizeHexString leaf) (Some 32).

Lemma append_shape leaf t :
  if append_ok leaf then
    exists t', append leaf t = (Ok tt, t') /\
      leaves t' = leaves t ++ [normalizeHexString leaf] /\ mthCache t' = mthCache t /\
      rootCache t' = filter (fun kv => kv.1 <= size t) (rootCache t)
  else exists e, append leaf t = (Err (Throw e), t).
Proof.
  unfold append, append_ok. set (n := normalizeHexString leaf).
  destruct (str_truthy n); simpl; [| by eexists].
  destruct (isValidHexString n (Some 32)); simpl; [| by eexists].
  eexists. split_and!; [done | done | done |]. simpl.
  unfold size. simpl. rewrite zlength_app. change (zlength [n]) with 1.
  by replace (zlength (leaves t) + 1 - 1) with (zlength (leaves t)) by lia.
Qed.

Lemma append_throws leaf t :
  append_ok leaf = false -> exists e, append leaf t = (Err (Throw e), t).
Proof. intros E. assert (Hs := append_shape leaf t). by rewrite E in Hs. Qed.

Lemma append_grows leaf t :
  append_ok leaf = true ->
  exists t', append leaf t = (Ok tt, t') /\
      leaves t' = leaves t ++ [normalizeHexString leaf] /\ mthCache t' = mthCache t /\
      rootCache t' = filter (fun kv => kv.1 <= size t) (rootCache t).
Proof. intros E. assert (Hs := append_shape leaf t). by rewrite E in Hs. Qed.

Lemma range_app t t' x s n :
  leaves t' = leaves t ++ [x] -> 0 <= s -> 0 <= n -> s + n <= size t ->
  range t' s n = range t s n.
Proof.
  intros E Hs Hn Hsz. unfold range, tree_bytes. rewrite E, fmap_app.
  unfold size, zlength in Hsz.
  rewrite drop_app_le by (rewrite length_fmap; lia).
  rewrite take_app_le; [done |]. rewrite length_drop, length_fmap. lia.
Qed.

(** Appending never invalidates an entry that stays in a cache: the range
    caches are keyed by ranges of old leaves, which do not change. *)
Lemma tree_ok_append leaf t : tree_ok t -> tree_ok (snd (append leaf t)).
Proof.
  intros Hok. destruct (append_ok leaf) eqn:Ha.
  2: { by destruct (append_throws leaf t Ha) as (e & ->). }
  destruct (append_grows leaf t Ha) as (t' & -> & L & M & R). simpl.
  assert (Hsz : size t' = size t + 1).
  { unfold size. rewrite L, zlength_app. done. }
  destruct Hok as [Hl Hm Hr]. split.
  - rewrite L. apply Forall_app. split; [done |]. apply Forall_singleton.
    unfold append_ok in Ha. by bool_prop.
  - intros s n r. rewrite M. intros E. destruct (Hm _ _ _ E) as (? & ? & ? & ->).
    rewrite (range_app t t' _ s n L) by lia. split_and!; done || lia.
  - intros n r. rewrite R, map_lookup_filter_Some. intros [E _].
    destruct (Hr _ _ E) as (? & ->). rewrite (range_app t t' _ 0 n L) by lia.
    split; done || lia.
Qed.

Lemma returns_tree_ok {A} (m : SM Tree A) t a :
  returns m t a -> tree_ok (snd (m t)) /\ leaves (snd (m t)) = leaves t.
Proof. by intros (t' & -> & ? & ?). Qed.

(** ** The proofs the tree generates *)

(** PATH of RFC 6962 on a list of leaves. *)
Fixpoint path_spec (f : nat) (m : Z) (l : list bytes) : list string :=
  match f with
  | O => []
  | S f =>
      if Z.leb (zlength l) 1 then []
      else if Z.ltb m (split_of (zlength l))
      then path_spec f m (take (split_nat l) l) ++ [root_of (drop (split_nat l) l)]
      else path_spec f (m - split_of (zlength l)) (drop (split_nat l) l)
           ++ [root_of (take (split_nat l) l)]
  end.

(** SUBPROOF of RFC 6962, with the raw second leaf the code sends for 1 to 2. *)
Fixpoint subproof_spec (f : nat) (m : Z) (l : list bytes) (raw : list string) (b : bool) :
    list string :=
  match f with
  | O => []
  | S f =>
      if Z.eqb m (zlength l) then if b then [] else [root_of l]
      else if Z.eqb m 1 && Z.eqb (zlength l) 2 && b then
        match raw !! 1%nat with Some leaf => [leaf] | None => [] end
      else if Z.leb m (split_of (zlength l))
      then subproof_spec f m (take (split_nat l) l) (take (split_nat l) raw) b
           ++ [root_of (drop (split_nat l) l)]
      else subproof_spec f (m - split_of (zlength l)) (drop (split_nat l) l)
             (drop (split_nat l) raw) false
           ++ [root_of (take (split_nat l) l)]
  end.

Lemma returns_path f : forall m s n t,
  tree_ok t -> 0 <= s -> 0 <= m < n -> s + n <= size t -> fits n f ->
  returns (path (S f) m s n) t (path_spec (S f) m (range t s n)).
Proof.
  induction f as [f IH] using (well_founded_induction lt_wf). intros m s n t Hok Hs Hm Hsz Hf.
  cbn [path path_spec]. rewrite !range_length by lia.
  destruct (Z.eqb_spec n 0); [lia |].
  destruct (Z.eqb_spec n 1), (Z.leb_spec n 1); try lia; [by apply returns_ret |].
  rewrite largestPowerOfTwoLessThan_split by lia.
  destruct (split_of_spec n) as [Hk0 [Hk1 Hk2]]; [lia |].
  destruct f as [| f]; [apply fits_0 in Hf; lia |].
  destruct (fits_split n f) as [FL FR]; [lia | done |].
  destruct (range_halves t s n) as [-> ->]; [lia | lia | done |].
  destruct (Z.ltb_spec m (split_of n)).
  - eapply returns_bind; [apply (IH f); auto with lia |]. intros t1 L1 Hok1.
    assert (S1 := size_same_leaves t t1 L1).
    eapply returns_bind; [apply returns_range_hash; auto with lia |]. intros t2 _ Hok2.
    rewrite (range_same_leaves t t1) by done. by apply returns_ret.
  - eapply returns_bind; [apply (IH f); auto with lia |]. intros t1 L1 Hok1.
    assert (S1 := size_same_leaves t t1 L1).
    eapply returns_bind; [apply returns_range_hash; auto with lia |]. intros t2 _ Hok2.
    rewrite (range_same_leaves t t1) by done. by apply returns_ret.
Qed.

(** The stored strings of a range. *)
Definition raw_range (t : Tree) (start sz : Z) : list string :=
  take (Z.to_nat sz) (drop (Z.to_nat start) (leaves t)).

Lemma raw_range_halves t s n :
  0 <= s -> 2 <= n -> s + n <= size t ->
  take (split_nat (range t s n)) (raw_range t s n) = raw_range t s (split_of n) /\
  drop (split_nat (range t s n)) (raw_range t s n) = raw_range t (s + split_of n) (n - split_of n).
Proof.
  intros Hs Hn Hsz. unfold split_nat. rewrite range_length by lia.
  destruct (split_of_spec n Hn) as [? [? ?]]. unfold raw_range. split.
  - rewrite take_take. f_equal. lia.
  - rewrite skipn_firstn_comm, drop_drop. f_equal; [lia |]. f_equal. lia.
Qed.

Lemma raw_range_lookup t s n i :
  0 <= s -> 0 <= i < n -> raw_range t s n !! Z.to_nat i = znth (leaves t) (s + i).
Proof.
  intros Hs Hi. unfold raw_range, znth. rewrite lookup_take_lt by lia.
  rewrite lookup_drop. destruct (Z.ltb_spec (s + i) 0); [lia |]. f_equal. lia.
Qed.

Lemma returns_subproof f : forall m s n b t,
  tree_ok t -> 0 <= s -> 1 <= m <= n -> s + n <= size t -> fits n f ->
  returns (subproof (S f) m s n b) t (subproof_spec (S f) m (range t s n) (raw_range t s n) b).
Proof.
  induction f as [f IH] using (well_founded_induction lt_wf).
  intros m s n b t Hok Hs Hm Hsz Hf.
  cbn [subproof subproof_spec]. rewrite !range_length by lia.
  destruct (Z.eqb_spec m n) as [-> | Hmn].
  { destruct b; [by apply returns_ret |].
    eapply returns_bind; [apply returns_range_hash; auto with lia |].
    intros t' _ Hok'. by apply returns_ret. }
  destruct (Z.eqb m 1 && Z.eqb n 2 && b) eqn:E12.
  { bool_prop. subst.
    destruct (returns_read_leaf t "Missing leaf for 1-2 consistency proof" (s + 1))
      as (leaf & Hret & Hz & _); [done | lia |].
    assert (Hraw := raw_range_lookup t s 2 1 Hs ltac:(lia)).
    change (Z.to_nat 1) with 1%nat in Hraw. rewrite Hraw, Hz.
    eapply returns_bind; [done |]. intros t' _ Hok'. by apply returns_ret. }
  rewrite largestPowerOfTwoLessThan_split by lia.
  destruct (split_of_spec n) as [Hk0 [Hk1 Hk2]]; [lia |].
  destruct f as [| f]; [apply fits_0 in Hf; lia |].
  destruct (fits_split n f) as [FL FR]; [lia | done |].
  destruct (range_halves t s n) as [-> ->]; [lia | lia | done |].
  destruct (raw_range_halves t s n) as [-> ->]; [lia | lia | done |].
  destruct (Z.leb_spec m (split_of n)).
  - eapply returns_bind; [apply (IH f); auto with lia |]. intros t1 L1 Hok1.
    assert (S1 := size_same_leaves t t1 L1).
    eapply returns_bind; [apply returns_range_hash; auto with lia |]. intros t2 _ Hok2.
    rewrite (range_same_leaves t t1) by done. by apply returns_ret.
  - eapply returns_bind; [apply (IH f); auto with lia |]. intros t1 L1 Hok1.
    assert (S1 := size_same_leaves t t1 L1).
    eapply returns_bind; [apply returns_range_hash; auto with lia |]. intros t2 _ Hok2.
    rewrite (range_same_leaves t t1) by done. by apply returns_ret.
Qed.

(** ** The public proof generators: value, or the code's error and no change *)

Lemma getRootAtSize_throws n t :
  ~ (1 <= n <= size t) -> exists e, getRootAtSize n t = (Err (Throw e), t).
Proof.
  intros Hn. unfold getRootAtSize.
  destruct (Z.ltb_spec n 0); [by eexists |]. destruct (Z.eqb_spec n 0); [by eexists |].
  unfold mbind, SM_bind, sm_get. destruct (Z.ltb_spec (size t) n); [by eexists | lia].
Qed.

Lemma returns_getInclusionProof i n t :
  tree_ok t -> 0 <= i < n -> n <= size t ->
  returns (getInclusionProof i (Some n)) t
    (i, path_spec (range_fuel n) i (range t 0 n)).
Proof.
  intros Hok Hi Hn. unfold getInclusionProof. apply returns_bind_get; [done |].
  destruct (Z.ltb_spec i 0); [lia |]. destruct (Z.leb_spec n i); [lia |].
  destruct (Z.ltb_spec (size t) n); [lia |].
  destruct (fits_range_fuel n) as (f & -> & Hf).
  eapply returns_bind; [apply returns_path; auto with lia |].
  intros t' _ Hok'. by apply returns_ret.
Qed.

Lemma getInclusionProof_throws i n t :
  ~ (0 <= i < n /\ n <= size t) ->
  exists e, getInclusionProof i (Some n) t = (Err (Throw e), t).
Proof.
  intros Hn. unfold getInclusionProof, mbind, SM_bind, sm_get.
  destruct (Z.ltb_spec i 0); [by eexists |]. destruct (Z.leb_spec n i); [by eexists |].
  destruct (Z.ltb_spec (size t) n); [by eexists | lia].
Qed.

Lemma returns_getConsistencyProof old new t :
  tree_ok t -> 1 <= old <= new -> new <= size t ->
  returns (getConsistencyProof old new) t
    (mkConsistencyProof old new
       (subproof_spec (range_fuel new) old (range t 0 new) (raw_range t 0 new) true)).
Proof.
  intros Hok Ho Hn. unfold getConsistencyProof. apply returns_bind_get; [done |].
  destruct (Z.leb_spec old 0); [lia |]. destruct (Z.leb_spec new 0); [lia |].
  destruct (Z.ltb_spec new old); [lia |]. destruct (Z.ltb_spec (size t) new); [lia |].
  destruct (fits_range_fuel new) as (f & -> & Hf).
  destruct (Z.eqb_spec old new) as [-> | Hne].
  - cbn [subproof_spec]. rewrite range_length by lia. rewrite Z.eqb_refl. by apply returns_ret.
  - eapply returns_bind; [apply returns_subproof; auto with lia |].
    intros t' _ Hok'. by apply returns_ret.
Qed.

Lemma getConsistencyProof_throws old new t :
  ~ (1 <= old <= new /\ new <= size t) ->
  exists e, getConsistencyProof old new t = (Err (Throw e), t).
Proof.
  intros Hn. unfold getConsistencyProof, mbind, SM_bind, sm_get.
  destruct (Z.leb_spec old 0); [by eexists |]. destruct (Z.leb_spec new 0); [by eexists |].
  destruct (Z.ltb_spec new old); [by eexists |].
  destruct (Z.ltb_spec (size t) new); [by eexists | lia].
Qed.

(** ** Every tree that calls of the public methods build *)

Inductive tree_call : Type :=
| CallAppend (leaf : string)
| CallGetRoot
| CallGetRootAtSize (n : Z)
| CallGetInclusionProof (i : Z) (n : option Z)
| CallGetConsistencyProof (old new : Z)
| CallClearCache.

Definition run_call (c : tree_call) (t : Tree) : Tree :=
  match c with
  | CallAppend leaf => snd (append leaf t)
  | CallGetRoot => snd (getRoot t)
  | CallGetRootAtSize n => snd (getRootAtSize n t)
  | CallGetInclusionProof i n => snd (getInclusionProof i n t)
  | CallGetConsistencyProof old new => snd (getConsistencyProof old new t)
  | CallClearCache => snd (clearCache t)
  end.

Inductive reachable : Tree -> Prop :=
| reachable_new : reachable empty_tree
| reachable_call c t : reachable t -> reachable (run_call c t).

Definition keeps_leaves (c : tree_call) : bool :=
  match c with CallAppend _ => false | _ => true end.

Lemma getInclusionProof_default i t :
  getInclusionProof i None t = getInclusionProof i (Some (size t)) t.
Proof. done. Qed.

Lemma run_call_reads c t :
  tree_ok t -> keeps_leaves c = true ->
  tree_ok (run_call c t) /\ leaves (run_call c t) = leaves t.
Proof.
  intros Hok Hc. destruct c as [leaf | | n | i n | old new |]; simpl in *; [done | | | | |].
  - by eapply returns_tree_ok, returns_getRoot.
  - destruct (decide (1 <= n <= size t)) as [Hn | Hn].
    + by eapply returns_tree_ok, returns_getRootAtSize.
    + by destruct (getRootAtSize_throws n t Hn) as (e & ->).
  - assert (Hgen : forall n, tree_ok (snd (getInclusionProof i (Some n) t)) /\
              leaves (snd (getInclusionProof i (Some n) t)) = leaves t).
    { intros n'. destruct (decide (0 <= i < n' /\ n' <= size t)) as [[? ?] | Hn].
      - by eapply returns_tree_ok, returns_getInclusionProof.
      - by destruct (getInclusionProof_throws i n' t Hn) as (e & ->). }
    destruct n as [n |]; [apply Hgen |]. rewrite getInclusionProof_default. apply Hgen.
  - destruct (decide (1 <= old <= new /\ new <= size t)) as [[? ?] | Hn].
    + by eapply returns_tree_ok, returns_getConsistencyProof.
    + by destruct (getConsistencyProof_throws old new t Hn) as (e & ->).
  - split; [| done]. destruct Hok as [Hl _ _]. by split.
Qed.

Lemma reachable_ok t : reachable t -> tree_ok t.
Proof.
  induction 1 as [| c t _ IH]; [apply tree_ok_empty |].
  destruct (keeps_leaves c) eqn:Ec.
  - by apply run_call_reads.
  - destruct c; try done. by apply tree_ok_append.
Qed.

End refinement.
