(* ===== verification/Reference.v ===== *)
(** A concrete hashing library for examples: the hexadecimal codec and SHA-256
    of FIPS 180-4 as functions on byte lists, with the proof that they satisfy
    [NobleLaws]. The theorems of the development hold for every instance; the
    witnesses use this one. *)
From S2P Require Import Prelude.
From S2P Require Import Hex.

Module Reference.

(** ** Hexadecimal *)

Definition hex_digit (n : Z) : ascii :=
  ascii_of_N (Z.to_N (if Z.ltb n 10 then 48 + n else 87 + n)).

Definition digit_value (c : ascii) : option Z :=
  let v := char_code c in
  if code_between 48 57 c then Some (v - 48)
  else if code_between 97 102 c then Some (v - 87)
  else if code_between 65 70 c then Some (v - 55)
  else None.

Fixpoint encode (b : bytes) : string :=
  match b with
  | [] => ""
  | x :: b' => String.String (hex_digit (x / 16)) (String.String (hex_digit (x mod 16)) (encode b'))
  end.

Fixpoint decode (s : string) : option bytes :=
  match s with
  | String.EmptyString => Some []
  | String.String c (String.String d s') =>
      match digit_value c, digit_value d, decode s' with
      | Some x, Some y, Some b => Some (x * 16 + y :: b)
      | _, _, _ => None
      end
  | String.String _ String.EmptyString => None
  end.

(** ** SHA-256 *)

Definition w32 (x : Z) : Z := Z.land x 4294967295.
Definition rotr (n x : Z) : Z := Z.lor (Z.shiftr x n) (w32 (Z.shiftl x (32 - n))).

(** FIPS 180-4 defines its constants as the first 32 bits of the fractional
    parts of the cube roots (round constants) and square roots (initial state)
    of the first primes: they are computed here, and the examples at the end
    of the file confirm the digests. *)
Definition primes : list Z :=
  filter (fun n => Z.eqb (Z.of_nat (length (filter (fun d => Z.eqb (n mod d) 0)
            (map Z.of_nat (seq 2 (Z.to_nat n - 1)))))) 1)
         (map Z.of_nat (seq 2 310)).

(** The integer cube root of [n], below [2 ^ b], bit by bit. *)
Fixpoint cube_root (b : nat) (acc n : Z) : Z :=
  match b with
  | O => acc
  | S b' =>
      let c := acc + 2 ^ Z.of_nat b' in
      if Z.leb (c * c * c) n then cube_root b' c n else cube_root b' acc n
  end.

Definition round_constants : list Z :=
  Eval vm_compute in map (fun p => cube_root 40 0 (p * 2 ^ 96) mod 2 ^ 32) (take 64 primes).

Definition initial_words : list Z :=
  Eval vm_compute in map (fun p => Z.sqrt (p * 2 ^ 64) mod 2 ^ 32) (take 8 primes).

Record words := mkWords { wa : Z; wb : Z; wc : Z; wd : Z; we : Z; wf : Z; wg : Z; wh : Z }.

Definition initial : words :=
  let h i := nth (Z.to_nat i) initial_words 0 in
  mkWords (h 0) (h 1) (h 2) (h 3) (h 4) (h 5) (h 6) (h 7).

Definition word_bytes (x : Z) : bytes :=
  [Z.shiftr x 24 mod 256; Z.shiftr x 16 mod 256; Z.shiftr x 8 mod 256; x mod 256].

Definition digest_bytes (s : words) : bytes :=
  word_bytes (wa s) ++ word_bytes (wb s) ++ word_bytes (wc s) ++ word_bytes (wd s) ++
  word_bytes (we s) ++ word_bytes (wf s) ++ word_bytes (wg s) ++ word_bytes (wh s).

Fixpoint bytes_words (fuel : nat) (b : bytes) : list Z :=
  match fuel, b with
  | S f, x :: y :: z :: t :: b' => (((x * 256 + y) * 256 + z) * 256 + t) :: bytes_words f b'
  | _, _ => []
  end.

(** The message schedule, latest word first. *)
Fixpoint schedule (n : nat) (rev_w : list Z) : list Z :=
  match n with
  | O => rev_w
  | S n =>
      let w i := nth i rev_w 0 in
      let x := w 14%nat in
      let y := w 1%nat in
      let s0 := Z.lxor (Z.lxor (rotr 7 x) (rotr 18 x)) (Z.shiftr x 3) in
      let s1 := Z.lxor (Z.lxor (rotr 17 y) (rotr 19 y)) (Z.shiftr y 10) in
      schedule n (w32 (w 15%nat + s0 + w 6%nat + s1) :: rev_w)
  end.

Definition round (s : words) (kw : Z * Z) : words :=
  let e := we s in
  let a := wa s in
  let s1 := Z.lxor (Z.lxor (rotr 6 e) (rotr 11 e)) (rotr 25 e) in
  let ch := Z.lxor (Z.land e (wf s)) (Z.land (Z.lxor e 4294967295) (wg s)) in
  let t1 := wh s + s1 + ch + kw.1 + kw.2 in
  let s0 := Z.lxor (Z.lxor (rotr 2 a) (rotr 13 a)) (rotr 22 a) in
  let maj := Z.lxor (Z.lxor (Z.land a (wb s)) (Z.land a (wc s))) (Z.land (wb s) (wc s)) in
  mkWords (w32 (t1 + s0 + maj)) a (wb s) (wc s) (w32 (wd s + t1)) e (wf s) (wg s).

Definition compress (s : words) (block : bytes) : words :=
  let w := rev (schedule 48 (rev (bytes_words 16 block))) in
  let r := fold_left round (zip round_constants w) s in
  mkWords (w32 (wa s + wa r)) (w32 (wb s + wb r)) (w32 (wc s + wc r)) (w32 (wd s + wd r))
          (w32 (we s + we r)) (w32 (wf s + wf r)) (w32 (wg s + wg r)) (w32 (wh s + wh r)).

Fixpoint blocks (fuel : nat) (s : words) (m : bytes) : words :=
  match fuel with
  | O => s
  | S f => blocks f (compress s (take 64 m)) (drop 64 m)
  end.

Definition pad (m : bytes) : bytes :=
  let len := zlength m in
  let zeros := (55 - len) mod 64 in
  m ++ [128] ++ repeat 0 (Z.to_nat zeros) ++
  word_bytes (Z.shiftr (len * 8) 32) ++ word_bytes (w32 (len * 8)).

Definition digest (m : bytes) : bytes :=
  let p := pad m in digest_bytes (blocks (Z.to_nat (zlength p / 64)) initial p).

#[export] Instance library : Noble := {|
  sha256 := digest;
  bytesToHex := encode;
  hexToBytes := decode;
|}.

(** ** The laws *)

Lemma word_bytes_ok x : is_bytes (word_bytes x).
Proof. repeat constructor; apply Z.mod_pos_bound; lia. Qed.

Lemma digest_ok m : is_bytes (digest m).
Proof. unfold digest, digest_bytes. repeat (apply Forall_app; split); apply word_bytes_ok. Qed.

Lemma byte_nibbles x : is_byte x -> 0 <= x / 16 < 16 /\ 0 <= x mod 16 < 16.
Proof.
  unfold is_byte. intros Hx. split; [| apply Z.mod_pos_bound; lia].
  split; [apply Z.div_pos; lia | apply Z.div_lt_upper_bound; lia].
Qed.

Lemma nibble_cases (P : Z -> Prop) :
  (forall i, In i (map Z.of_nat (seq 0 16)) -> P i) -> forall n, 0 <= n < 16 -> P n.
Proof.
  intros HP n Hn. apply HP, in_map_iff. exists (Z.to_nat n).
  split; [lia |]. apply in_seq. lia.
Qed.

Lemma hex_digit_lower n : 0 <= n < 16 -> is_lower_hex (hex_digit n) = true.
Proof. revert n. apply nibble_cases. intros i Hi. by repeat (destruct Hi as [<- | Hi]; [done |]). Qed.

Lemma hex_digit_value n : 0 <= n < 16 -> digit_value (hex_digit n) = Some n.
Proof. revert n. apply nibble_cases. intros i Hi. by repeat (destruct Hi as [<- | Hi]; [done |]). Qed.

Lemma digit_value_spec c :
  match digit_value c with
  | Some v => 0 <= v < 16 /\ hex_digit v = lower_char c /\ is_hex c = true
  | None => is_hex c = false
  end.
Proof. all_chars c. all: split_and!; congruence. Qed.

Lemma encode_lower b : is_bytes b -> string_all is_lower_hex (encode b) = true.
Proof.
  induction 1 as [| x b Hx Hb IH]; simpl; [done |].
  destruct (byte_nibbles x Hx). rewrite !hex_digit_lower by done. done.
Qed.

Lemma encode_length b : String.length (encode b) = (2 * length b)%nat.
Proof. induction b as [| x b IH]; simpl; [done |]. rewrite IH. lia. Qed.

Lemma decode_encode b : is_bytes b -> decode (encode b) = Some b.
Proof.
  induction 1 as [| x b Hx Hb IH]; simpl; [done |].
  destruct (byte_nibbles x Hx). rewrite !hex_digit_value by done. rewrite IH.
  do 2 f_equal. assert (Hd := Z.div_mod x 16). lia.
Qed.

Lemma string_pair_ind (P : string -> Prop) :
  P "" -> (forall c, P (String.String c "")) ->
  (forall c d s, P s -> P (String.String c (String.String d s))) -> forall s, P s.
Proof.
  intros H0 H1 H2. fix IH 1. intros [| c [| d s]]; [exact H0 | apply H1 | apply H2, IH].
Qed.

Lemma encode_decode s b : decode s = Some b -> is_bytes b /\ encode b = to_lower s.
Proof.
  revert b. induction s as [| c | c d s IH] using string_pair_ind; intros b; simpl.
  - intros [= <-]. split; [constructor | done].
  - done.
  - assert (Hc := digit_value_spec c). assert (Hd := digit_value_spec d).
    destruct (digit_value c) as [x |]; [| done]. destruct (digit_value d) as [y |]; [| done].
    destruct (decode s) as [b' |]; [| done]. intros [= <-].
    destruct (IH b' eq_refl) as [Hb E]. destruct Hc as (? & Ec & _). destruct Hd as (? & Ed & _).
    split; [constructor; [unfold is_byte; lia | done] |]. simpl.
    replace ((x * 16 + y) / 16) with x by (apply Z.div_unique with y; lia).
    replace ((x * 16 + y) mod 16) with y by (apply Z.mod_unique with x; lia).
    unfold to_lower in *. simpl. by rewrite Ec, Ed, E.
Qed.

Lemma decode_total s :
  string_all is_hex s = true -> Nat.even (String.length s) = true -> is_Some (decode s).
Proof.
  induction s as [| c | c d s IH] using string_pair_ind; simpl.
  - by eexists.
  - done.
  - rewrite !andb_true_iff. intros (Hc & Hd & Hs) Hev.
    destruct (IH Hs Hev) as [b ->].
    assert (Sc := digit_value_spec c). assert (Sd := digit_value_spec d).
    destruct (digit_value c); [| congruence]. destruct (digit_value d); [| congruence].
    by eexists.
Qed.

#[export] Instance laws : NobleLaws.
Proof.
  split.
  - apply digest_ok.
  - done.
  - apply encode_lower.
  - intros b _. apply encode_length.
  - apply decode_encode.
  - apply encode_decode.
  - apply decode_total.
Qed.

(** SHA-256 of the empty input and of "abc" (FIPS 180-4 examples). *)
Example digest_empty :
  encode (digest []) = "e3b0c44298fc1c149afbf4c8996fb92427ae41e4649b934ca495991b7852b855".
Proof. vm_compute. reflexivity. Qed.

Example digest_abc :
  encode (digest [97; 98; 99]) = "ba7816bf8f01cfea414140de5dae2223b00361a396177a9cb410ff61f20015ad".
Proof. vm_compute. reflexivity. Qed.

End Reference.
