(* ===== verification/Samples.v ===== *)
(** Concrete data the witnesses evaluate: three leaves, the tree that appending
    them builds, with the hashing library of [Reference]. *)
From S2P Require Import Prelude.
From S2P Require Import Hex.
From S2P Require Import Rfc6962.
From S2P Require Import MerkleSpec.
From S2P Require Import TreeFacts.
From S2P Require Import Reference.
Export Reference.
Export Rfc6962.

Fixpoint repeat_string (n : nat) (s : string) : string :=
  match n with O => ""%string | S n => (s +:+ repeat_string n s)%string end.

Definition leaf_a : string := repeat_string 32 "a1".
Definition leaf_b : string := repeat_string 32 "b2".
Definition leaf_c : string := repeat_string 32 "c3".

Definition sample_calls : list tree_call :=
  [CallAppend leaf_a; CallAppend leaf_b; CallAppend leaf_c].

Definition sample_tree : Tree :=
  fold_left (fun t c => run_call c t) sample_calls empty_tree.

Lemma reachable_calls cs t :
  reachable t -> reachable (fold_left (fun t c => run_call c t) cs t).
Proof.
  revert t. induction cs as [| c cs IH]; intros t Ht; simpl; [done |].
  apply IH. by apply reachable_call.
Qed.

Lemma sample_reachable : reachable sample_tree.
Proof. apply reachable_calls, reachable_new. Qed.
