(* ===== verification/Inclusion.v ===== *)
(** Inclusion proofs: the verifier accepts what the tree generates, and what it
    accepts against a root is the leaf at that index, unless the hash collides
    on inputs that were hashed. *)
From S2P Require Import Prelude.
From S2P Require Import Hex.
From S2P Require Import Rfc6962.
From S2P Require Import MerkleSpec.
From S2P Require Import TreeFacts.
From S2P Require Import Samples.
Import Rfc6962.

Section lemmas.
Context `{NobleLaws}.

(** A string that decodes to 32 bytes: the hashes a verifier handles. *)
Definition dec32 (s : string) : Prop := exists b, hexToBytesStrict s = Ok b /\ length b = 32%nat.

Lemma root_of_dec32 l : dec32 (root_of l).
Proof. exists (MTH l). split; [apply root_of_decodes | apply MTH_length]. Qed.

Lemma hashPair_Ok l r h :
  hashPair l r = Ok h ->
  exists bl br, hexToBytesStrict l = Ok bl /\ hexToBytesStrict r = Ok br /\
    hexToBytesStrict h = Ok (node_hash bl br) /\ h = bytesToHex (node_hash bl br).
Proof.
  unfold hashPair. intros E. bind_inv.
  match goal with
  | H1 : hexToBytesStrict l = Ok ?a, H2 : hexToBytesStrict r = Ok ?b |- _ => exists a, b
  end.
  injection E as <-. unfold node_hash, node_input, sha256Hex. simpl. rewrite app_nil_r.
  split_and!; [done | done | | done].
  apply hexToBytesStrict_bytesToHex; [apply sha256_bytes |].
  intros Hnil. assert (Hl := f_equal length Hnil). by rewrite sha256_length in Hl.
Qed.

Lemma hashPair_dec32 l r h : hashPair l r = Ok h -> dec32 h.
Proof.
  intros (bl & br & _ & _ & E & _)%hashPair_Ok. exists (node_hash bl br).
  split; [done |]. apply sha256_length.
Qed.

Lemma hashLeaf_Ok s h :
  hashLeaf s = Ok h ->
  exists b, hexToBytesStrict s = Ok b /\ hexToBytesStrict h = Ok (leaf_hash b) /\
            h = bytesToHex (leaf_hash b).
Proof.
  unfold hashLeaf. intros E. bind_inv. eexists. split; [done |].
  injection E as <-. unfold leaf_hash, leaf_input, sha256Hex. simpl. rewrite app_nil_r.
  split; [| done].
  apply hexToBytesStrict_bytesToHex; [apply sha256_bytes |].
  intros Hnil. assert (Hl := f_equal length Hnil). by rewrite sha256_length in Hl.
Qed.

Lemma hashLeaf_dec32 s h : hashLeaf s = Ok h -> dec32 h.
Proof.
  intros (b & _ & E & _)%hashLeaf_Ok. exists (leaf_hash b). split; [done |]. apply sha256_length.
Qed.

Lemma read_node_Ok msg nodes i n : read_node msg nodes i = Ok n -> znth nodes i = Some n.
Proof. unfold read_node. destruct (znth nodes i); [| done]. case_match; [by intros [= ->] | done]. Qed.

Lemma read_node_hit msg nodes i n :
  znth nodes i = Some n -> str_truthy n = true -> read_node msg nodes i = Ok n.
Proof. unfold read_node. by intros -> ->. Qed.

Lemma read_node_mid msg pre n post :
  str_truthy n = true -> read_node msg (pre ++ n :: post) (zlength pre) = Ok n.
Proof.
  intros Hn. apply read_node_hit; [| done]. unfold zlength. rewrite znth_of_nat.
  by rewrite list_lookup_middle.
Qed.

(** The inputs the path verifier hashes. *)
Definition pair_input (l r : result string) : list bytes :=
  match l ≫= hexToBytesStrict, r ≫= hexToBytesStrict with
  | Ok a, Ok b => [node_input a b]
  | _, _ => []
  end.

Fixpoint path_inputs (fuel : nat) (index sz : Z) (nodeHash : string)
    (nodes : list string) (pos : Z) : list bytes :=
  match fuel with
  | O => []
  | S f =>
      if Z.eqb sz 1 then []
      else
        let k := largestPowerOfTwoLessThan sz in
        if Z.ltb index k then
          let left := verifyPathRecursive f index k nodeHash nodes pos in
          let sibling := r ← left; read_node "" nodes (pos + r.2) in
          pair_input (fst <$> left) sibling ++ path_inputs f index k nodeHash nodes pos
        else
          let right := verifyPathRecursive f (index - k) (sz - k) nodeHash nodes pos in
          let sibling := r ← right; read_node "" nodes (pos + r.2) in
          pair_input sibling (fst <$> right) ++ path_inputs f (index - k) (sz - k) nodeHash nodes pos
  end.

Definition inclusion_inputs (leafHash : string) (leafIndex : Z) (nodes : list string)
    (treeSize : Z) : list bytes :=
  match hexToBytesStrict leafHash with Ok b => [leaf_input b] | Err _ => [] end ++
  match hashLeaf leafHash with
  | Ok h => path_inputs (range_fuel treeSize) leafIndex treeSize h nodes 0
  | Err _ => []
  end.

Lemma pair_input_Ok l r a b :
  hexToBytesStrict l = Ok a -> hexToBytesStrict r = Ok b ->
  pair_input (Ok l) (Ok r) = [node_input a b].
Proof. intros E1 E2. unfold pair_input. simpl. by rewrite E1, E2. Qed.

(** ** Completeness *)

Lemma verify_path_spec f : forall l i x pre post,
  fits (zlength l) f -> znth l i = Some x ->
  verifyPathRecursive (S f) i (zlength l) (root_of [x]) (pre ++ path_spec (S f) i l ++ post)
    (zlength pre)
  = Ok (root_of l, zlength (path_spec (S f) i l)).
Proof.
  induction f as [f IH] using (well_founded_induction lt_wf). intros l i x pre post Hf Hx.
  assert (Hi := znth_Some_range _ _ _ Hx).
  cbn [verifyPathRecursive path_spec].
  destruct (Z.eqb_spec (zlength l) 1) as [E1 | Hn1], (Z.leb_spec (zlength l) 1); try lia.
  { destruct l as [| y [| ? ?]]; unfold zlength in *; simpl in *; try lia.
    replace i with (Z.of_nat 0) in Hx by lia. rewrite znth_of_nat in Hx. simpl in Hx.
    by injection Hx as ->. }
  assert (Hl : 2 <= zlength l) by lia.
  rewrite largestPowerOfTwoLessThan_split by lia.
  destruct (split_of_spec (zlength l)) as [Hk0 [Hk1 Hk2]]; [lia |].
  destruct (split_lengths l Hl) as [LL LR].
  destruct f as [| f]; [apply fits_0 in Hf; lia |].
  destruct (fits_split (zlength l) f) as [FL FR]; [lia | done |].
  unfold znth in Hx. destruct (Z.ltb_spec i 0); [lia |].
  destruct (Z.ltb_spec i (split_of (zlength l))).
  - rewrite <- LL at 1.
    rewrite <- app_assoc. rewrite (IH f) with (x := x); [| lia | by rewrite LL |].
    2: { unfold znth. destruct (Z.ltb_spec i 0); [lia |].
         rewrite lookup_take_lt; [done |]. unfold split_nat. lia. }
    unfold mbind, result_bind. cbn [fst snd].
    rewrite app_assoc, <- zlength_app. rewrite <- app_assoc. cbn [app].
    rewrite app_assoc, read_node_mid by apply valid_leaf_truthy, root_of_valid.
    rewrite hashPair_roots by done. by rewrite zlength_app.
  - rewrite <- LR at 1.
    rewrite <- app_assoc. rewrite (IH f) with (x := x); [| lia | by rewrite LR |].
    2: { unfold znth. destruct (Z.ltb_spec (i - split_of (zlength l)) 0); [lia |].
         rewrite lookup_drop. rewrite <- Hx. f_equal. unfold split_nat. lia. }
    unfold mbind, result_bind. cbn [fst snd].
    rewrite app_assoc, <- zlength_app. rewrite <- app_assoc. cbn [app].
    rewrite app_assoc, read_node_mid by apply valid_leaf_truthy, root_of_valid.
    rewrite hashPair_roots by done. by rewrite zlength_app.
Qed.

(** ** Soundness *)

Lemma verify_path_dec32 f : forall i n h nodes pos r,
  dec32 h -> verifyPathRecursive f i n h nodes pos = Ok r -> dec32 r.1.
Proof.
  induction f as [| f IH]; intros i n h nodes pos r Hh E; simpl in E; [done |].
  destruct (Z.eqb n 1); [by injection E as <- |].
  destruct (Z.ltb i _); bind_inv; injection E as <-; simpl; by eapply hashPair_dec32.
Qed.

Lemma read_node_any msg msg' nodes i n :
  read_node msg nodes i = Ok n -> read_node msg' nodes i = Ok n.
Proof. unfold read_node. by repeat case_match. Qed.

Lemma znth_take {A} (l : list A) k i x : znth (take k l) i = Some x -> znth l i = Some x.
Proof. unfold znth. destruct (Z.ltb i 0); [done |]. by intros [? _]%lookup_take_Some. Qed.

Lemma znth_drop {A} (l : list A) k i x :
  0 <= i -> znth (drop k l) i = Some x -> znth l (i + Z.of_nat k) = Some x.
Proof.
  unfold znth. intros Hi. destruct (Z.ltb_spec i 0); [done |].
  destruct (Z.ltb_spec (i + Z.of_nat k) 0); [lia |].
  rewrite lookup_drop. intros <-. f_equal. lia.
Qed.

(** The two ways a step of the path verifier ends, with the inputs it hashed. *)
Lemma verify_path_step f i n h nodes pos r :
  n <> 1 -> verifyPathRecursive (S f) i n h nodes pos = Ok r ->
  let k := largestPowerOfTwoLessThan n in
  exists sub sib bl br,
    let args := if Z.ltb i k then (i, k, sub.1, sib) else (i - k, n - k, sib, sub.1) in
    let '(i', n', ls, rs) := args in
    verifyPathRecursive f i' n' h nodes pos = Ok sub /\
    hexToBytesStrict ls = Ok bl /\ hexToBytesStrict rs = Ok br /\
    hexToBytesStrict r.1 = Ok (node_hash bl br) /\
    path_inputs (S f) i n h nodes pos = node_input bl br :: path_inputs f i' n' h nodes pos.
Proof.
  intros Hn. cbn [verifyPathRecursive path_inputs].
  destruct (Z.eqb_spec n 1); [done |]. cbv zeta.
  destruct (Z.ltb i (largestPowerOfTwoLessThan n)).
  all: intros E; apply bind_Ok in E as (sub & Esub & E); apply bind_Ok in E as (sib & Esib & E);
    apply bind_Ok in E as (par & Epar & E); injection E as <-;
    destruct (hashPair_Ok _ _ _ Epar) as (bl & br & Ebl & Ebr & Epd & _);
    exists sub, sib, bl, br; rewrite Esub;
    assert (Esib0 : (r ← Ok sub; read_node "" nodes (pos + r.2)) = Ok sib)
      by (simpl; by eapply read_node_any);
    rewrite Esib0; change (fst <$> Ok sub) with (Ok (A := string) sub.1);
    rewrite (pair_input_Ok _ _ _ _ Ebl Ebr); done.
Qed.

Lemma verify_path_sound f : forall l i h hb nodes pos r,
  0 <= i < zlength l -> hexToBytesStrict h = Ok hb -> length hb = 32%nat ->
  verifyPathRecursive f i (zlength l) h nodes pos = Ok r ->
  hexToBytesStrict r.1 = Ok (MTH l) ->
  (exists x, znth l i = Some x /\ hb = leaf_hash x /\ leaf_input x ∈ mth_inputs l) \/
  collision_in (mth_inputs l ++ path_inputs f i (zlength l) h nodes pos).
Proof.
  induction f as [| f IH]; intros l i h hb nodes pos r Hi Eh Hb E Er; [done |].
  destruct (Z.eq_dec (zlength l) 1) as [E1 | Hn1].
  { cbn [verifyPathRecursive] in E. rewrite E1 in E. injection E as <-. simpl in Er.
    rewrite Eh in Er. injection Er as ->. left.
    destruct l as [| y [| ? ?]]; unfold zlength in *; simpl in *; try lia.
    exists y. replace i with (Z.of_nat 0) by lia. rewrite znth_of_nat.
    split_and!; [done | done |]. apply list_elem_of_here. }
  assert (Hl : 2 <= zlength l) by lia.
  destruct (verify_path_step f i _ h nodes pos r Hn1 E) as (sub & sib & bl & br & Hstep).
  rewrite largestPowerOfTwoLessThan_split in Hstep by lia.
  destruct (split_of_spec (zlength l)) as [Hk0 [Hk1 Hk2]]; [lia |].
  destruct (split_lengths l Hl) as [LL LR].
  assert (H32 : forall i' n', verifyPathRecursive f i' n' h nodes pos = Ok sub -> dec32 sub.1).
  { intros i' n'. apply verify_path_dec32. by exists hb. }
  destruct (Z.ltb_spec i (split_of (zlength l))) as [Hik | Hik];
    destruct Hstep as (EL & Ebl & Ebr & Epd & ->);
    rewrite Er in Epd; injection Epd as Epd; destruct (H32 _ _ EL) as (b32 & Eb32 & Hb32).
  - destruct (node_matches l bl br) as [[-> ->] | Hc];
      [done | left; congruence | done | |].
    2: { right. revert Hc. apply collision_in_mono. list_subset. }
    rewrite <- LL in EL |- *.
    destruct (IH (take (split_nat l) l) i h hb nodes pos sub) as [(x & Hx & Hhb & Hin) | Hc];
      [lia | done | done | done | done | |].
    + left. exists x. split_and!; [by eapply znth_take | done |].
      rewrite mth_inputs_split by done. list_member.
    + right. revert Hc. rewrite (mth_inputs_split l) by done. apply collision_in_mono. list_subset.
  - destruct (node_matches l bl br) as [[-> ->] | Hc];
      [done | right; congruence | done | |].
    2: { right. revert Hc. apply collision_in_mono. list_subset. }
    rewrite <- LR in EL |- *.
    destruct (IH (drop (split_nat l) l) (i - split_of (zlength l)) h hb nodes pos sub)
      as [(x & Hx & Hhb & Hin) | Hc]; [lia | done | done | done | done | |].
    + left. exists x. apply znth_drop in Hx; [| lia]. split_and!; [| done |].
      * rewrite <- Hx. f_equal. unfold split_nat. lia.
      * rewrite mth_inputs_split by done. list_member.
    + right. revert Hc. rewrite (mth_inputs_split l) by done. apply collision_in_mono. list_subset.
Qed.

(** ** Fuel and length *)

Lemma read_node_fuel msg nodes i : no_fuel_error (read_node msg nodes i).
Proof. unfold read_node. by repeat case_match. Qed.

Lemma hexToBytesStrict_fuel s : no_fuel_error (hexToBytesStrict s).
Proof. unfold hexToBytesStrict. by repeat case_match. Qed.

Lemma hashPair_fuel l r : no_fuel_error (hashPair l r).
Proof.
  unfold hashPair, no_fuel_error. assert (Hl := hexToBytesStrict_fuel l).
  assert (Hr := hexToBytesStrict_fuel r). unfold no_fuel_error in *.
  destruct (hexToBytesStrict l); simpl; [| congruence]. destruct (hexToBytesStrict r); simpl; congruence.
Qed.

Lemma hashLeaf_fuel s : no_fuel_error (hashLeaf s).
Proof.
  unfold hashLeaf, no_fuel_error. assert (Hs := hexToBytesStrict_fuel s).
  unfold no_fuel_error in *. destruct (hexToBytesStrict s); simpl; congruence.
Qed.

Lemma bind_fuel {A B} (m : result A) (f : A -> result B) :
  no_fuel_error m -> (forall a, m = Ok a -> no_fuel_error (f a)) -> no_fuel_error (m ≫= f).
Proof. unfold no_fuel_error. destruct m as [a | e]; simpl; [auto |]. congruence. Qed.

Lemma verify_path_fuel f : forall i n h nodes pos,
  1 <= n -> fits n f -> no_fuel_error (verifyPathRecursive (S f) i n h nodes pos).
Proof.
  induction f as [f IH] using (well_founded_induction lt_wf). intros i n h nodes pos Hn Hf.
  cbn [verifyPathRecursive]. destruct (Z.eqb_spec n 1); [done |].
  rewrite largestPowerOfTwoLessThan_split by lia.
  destruct (split_of_spec n) as [Hk0 [Hk1 Hk2]]; [lia |].
  destruct f as [| f]; [apply fits_0 in Hf; lia |].
  destruct (fits_split n f) as [FL FR]; [lia | done |].
  destruct (Z.ltb i (split_of n)).
  all: apply bind_fuel; [apply (IH f); auto with lia |]; intros r _;
    apply bind_fuel; [apply read_node_fuel |]; intros sib _;
    apply bind_fuel; [apply hashPair_fuel | done].
Qed.

Lemma path_spec_length f : forall m l,
  fits (zlength l) f -> (length (path_spec (S f) m l) <= f)%nat.
Proof.
  induction f as [f IH] using (well_founded_induction lt_wf). intros m l Hf.
  cbn [path_spec]. destruct (Z.leb_spec (zlength l) 1); [simpl; lia |].
  destruct f as [| f]; [apply fits_0 in Hf; lia |].
  destruct (fits_split (zlength l) f) as [FL FR]; [lia | done |].
  destruct (split_lengths l) as [LL LR]; [lia |].
  destruct (Z.ltb m (split_of (zlength l))).
  all: rewrite length_app; change (length [_]) with 1%nat;
    assert (IHf := fun m l => IH f (Nat.lt_succ_diag_r f) m l).
  - specialize (IHf m (take (split_nat l) l)). rewrite LL in IHf. specialize (IHf FL). lia.
  - specialize (IHf (m - split_of (zlength l)) (drop (split_nat l) l)).
    rewrite LR in IHf. specialize (IHf FR). lia.
Qed.

Lemma verifyInclusionProof_spec l i x s :
  znth l i = Some x -> hexToBytesStrict s = Ok x ->
  verifyInclusionProof s i (path_spec (range_fuel (zlength l)) i l) (root_of l) (zlength l) = Ok true.
Proof.
  intros Hx Hs. assert (Hi := znth_Some_range _ _ _ Hx). unfold verifyInclusionProof.
  destruct (Z.ltb_spec i 0); [lia |]. destruct (Z.leb_spec (zlength l) i); [lia |]. simpl.
  rewrite (hashLeaf_valid s x) by done. simpl.
  destruct (fits_range_fuel (zlength l)) as (f & -> & Hf).
  destruct (Z.eqb (zlength l) 1 && _) eqn:E1.
  - bool_prop. destruct l as [| y [| ? ?]]; unfold zlength in *; simpl in *; try lia.
    replace i with (Z.of_nat 0) in Hx by lia. rewrite znth_of_nat in Hx. injection Hx as ->.
    by rewrite String.eqb_refl.
  - assert (Hv := verify_path_spec f l i x [] [] Hf Hx). cbn [app] in Hv.
    rewrite app_nil_r in Hv. change (zlength []) with 0 in Hv. rewrite Hv. simpl.
    by rewrite String.eqb_refl, Z.eqb_refl.
Qed.

Lemma tree_bytes_znth t i leaf :
  znth (leaves t) i = Some leaf -> znth (tree_bytes t) i = Some (leaf_bytes leaf).
Proof.
  unfold znth, tree_bytes. destruct (Z.ltb i 0); [done |]. intros E. by rewrite list_lookup_fmap, E.
Qed.

Lemma znth_range t n i :
  0 <= i < n -> n <= size t -> znth (range t 0 n) i = znth (tree_bytes t) i.
Proof.
  intros Hi Hn. unfold range, znth. rewrite drop_0. destruct (Z.ltb_spec i 0); [done |].
  apply lookup_take_lt. lia.
Qed.

Lemma returns_eq {A} (m : SM Tree A) t a :
  returns m t a -> m t = (Ok a, snd (m t)) /\ leaves (snd (m t)) = leaves t /\ tree_ok (snd (m t)).
Proof. by intros (t' & -> & ? & ?). Qed.

(** ** The properties *)

(** C9: [getRootAtSize] refines the Merkle tree hash: on every tree any calls
    build, whatever its two caches hold, the root at size [n] is the hash of
    the first [n] leaves, the leaves do not change, and a size outside
    [1 .. size] is an error that changes nothing. *)
Theorem getRootAtSize_refines_MTH t n :
  reachable t ->
  (1 <= n <= size t ->
     fst (getRootAtSize n t) = Ok (bytesToHex (MTH (take (Z.to_nat n) (tree_bytes t)))) /\
     leaves (snd (getRootAtSize n t)) = leaves t) /\
  (~ (1 <= n <= size t) -> exists e, getRootAtSize n t = (Err (Throw e), t)).
Proof.
  intros Hok%reachable_ok. split; [| apply getRootAtSize_throws]. intros Hn.
  destruct (returns_eq _ _ _ (returns_getRootAtSize n t Hok Hn)) as (E & L & _).
  by rewrite E.
Qed.

Lemma run_call_keeps_prefix c t :
  tree_ok t -> tree_ok (run_call c t) /\ exists k, leaves (run_call c t) = leaves t ++ k.
Proof.
  intros Hok. destruct (keeps_leaves c) eqn:Ec.
  - destruct (run_call_reads c t Hok Ec) as [? ->]. split; [done |]. exists []. by rewrite app_nil_r.
  - destruct c as [leaf | | | | |]; try done. simpl. split; [by apply tree_ok_append |].
    destruct (append_ok leaf) eqn:Ha.
    + destruct (append_grows leaf t Ha) as (t' & -> & L & _). by eexists.
    + destruct (append_throws leaf t Ha) as (e & ->). exists []. by rewrite app_nil_r.
Qed.

Lemma run_calls_keep_prefix cs : forall t,
  tree_ok t -> tree_ok (fold_left (fun t c => run_call c t) cs t) /\
  exists k, leaves (fold_left (fun t c => run_call c t) cs t) = leaves t ++ k.
Proof.
  induction cs as [| c cs IH]; intros t Hok; simpl.
  - split; [done |]. exists []. by rewrite app_nil_r.
  - destruct (run_call_keeps_prefix c t Hok) as [Hok' [k1 L1]].
    destruct (IH _ Hok') as [Hok2 [k2 L2]]. split; [done |].
    exists (k1 ++ k2). by rewrite L2, L1, app_assoc.
Qed.

(** A published root never changes: after any further calls (appends,
    proofs, cache clearing), the root at an old size is the same value. *)
Theorem historical_root_stable t n cs :
  reachable t -> 1 <= n <= size t ->
  fst (getRootAtSize n (fold_left (fun t c => run_call c t) cs t)) = fst (getRootAtSize n t).
Proof.
  intros Hok%reachable_ok Hn. destruct (run_calls_keep_prefix cs t Hok) as [Hok' [k L]].
  set (t' := fold_left _ cs t) in *.
  assert (Hn' : 1 <= n <= size t').
  { unfold size in *. rewrite L, zlength_app. assert (Hk := zlength_nonneg k). lia. }
  destruct (returns_eq _ _ _ (returns_getRootAtSize n t Hok Hn)) as (E & _ & _).
  destruct (returns_eq _ _ _ (returns_getRootAtSize n t' Hok' Hn')) as (E' & _ & _).
  rewrite E, E'. simpl. do 2 f_equal. unfold range, tree_bytes. rewrite L, fmap_app, !drop_0.
  apply take_app_le. rewrite length_fmap. unfold size, zlength in Hn. lia.
Qed.

(** Every inclusion proof the tree generates, for any leaf and any
    historical size, is accepted by the verifier against the root of that
    size, and has at most [log2_up n] nodes. *)
Theorem inclusion_proof_complete t i n :
  reachable t -> 0 <= i < n -> n <= size t ->
  exists leaf nodes root,
    znth (leaves t) i = Some leaf /\
    fst (getInclusionProof i (Some n) t) = Ok (i, nodes) /\
    fst (getRootAtSize n (snd (getInclusionProof i (Some n) t))) = Ok root /\
    verifyInclusionProof leaf i nodes root n = Ok true /\
    zlength nodes <= Z.log2_up n.
Proof.
  intros Hok%reachable_ok Hi Hn.
  destruct (znth_in_range t i Hok) as (leaf & Hleaf & Hv); [lia |].
  destruct (returns_eq _ _ _ (returns_getInclusionProof i n t Hok Hi Hn)) as (E & L & Hok').
  set (t' := snd _) in *. assert (Hn' : 1 <= n <= size t') by (rewrite (size_same_leaves t t' L); lia).
  destruct (returns_eq _ _ _ (returns_getRootAtSize n t' Hok' Hn')) as (E' & _ & _).
  eexists leaf, _, _. rewrite E, E'. split_and!; [done | done | done | |].
  - rewrite (range_same_leaves t t' 0 n L).
    assert (EL : zlength (range t 0 n) = n) by (apply range_length; lia).
    assert (Hx : znth (range t 0 n) i = Some (leaf_bytes leaf)).
    { rewrite znth_range by lia. by apply tree_bytes_znth. }
    assert (Hv' := proj1 (valid_leaf_decodes leaf Hv)).
    revert EL Hx. generalize (range t 0 n). intros l <- Hx. by eapply verifyInclusionProof_spec.
  - destruct (fits_range_fuel n) as (f & Ef & Hf).
    assert (Hlen := path_spec_length f i (range t 0 n)). rewrite range_length in Hlen by lia.
    specialize (Hlen Hf). rewrite Ef. rewrite range_fuel_log in Ef. injection Ef as Ef.
    assert (Hlog := Z.log2_up_nonneg n). unfold zlength. lia.
Qed.

Lemma accepted_inclusion l s i nodes :
  verifyInclusionProof s i nodes (bytesToHex (MTH l)) (zlength l) = Ok true ->
  (exists x, znth l i = Some x /\ hexToBytesStrict s = Ok x) \/
  collision_in (mth_inputs l ++ inclusion_inputs s i nodes (zlength l)).
Proof.
  unfold verifyInclusionProof, inclusion_inputs. change (bytesToHex (MTH l)) with (root_of l).
  destruct (Z.ltb_spec i 0); [done |]. destruct (Z.leb_spec (zlength l) i); [done |]. simpl.
  destruct (hashLeaf s) as [h |] eqn:Eh; [| done]. simpl.
  destruct (hashLeaf_Ok s h Eh) as (b & Eb & Eh' & _). rewrite Eb.
  intros E.
  assert (Hr : exists r, verifyPathRecursive (range_fuel (zlength l)) i (zlength l) h nodes 0 = Ok r
                         /\ r.1 = root_of l).
  { destruct (Z.eqb (zlength l) 1 && _) eqn:E1.
    - bool_prop. exists (h, 0). injection E as E. bool_prop. split; [| done].
      destruct (fits_range_fuel (zlength l)) as (f & -> & _). cbn [verifyPathRecursive].
      by match goal with E : zlength l = 1 |- _ => rewrite E end.
    - destruct (verifyPathRecursive _ _ _ _ _ _) as [r | e]; simpl in E; [| by destruct e].
      exists r. injection E as E. by bool_prop. }
  destruct Hr as (r & Er & Er1).
  destruct (verify_path_sound (range_fuel (zlength l)) l i h (leaf_hash b) nodes 0 r) as [(x & Hx & Hbx & Hin) | Hc];
    [lia | done | apply sha256_length | done | rewrite Er1; apply root_of_decodes | |].
  - destruct (same_hash (mth_inputs l ++ [leaf_input b]) (leaf_input b) (leaf_input x))
      as [Eq | Hc]; [list_member | list_member | done | |].
    + left. exists x. apply leaf_input_inj in Eq. by subst.
    + right. revert Hc. apply collision_in_mono. list_subset.
  - right. revert Hc. apply collision_in_mono. list_subset.
Qed.

(** C8: an accepted inclusion proof is evidence of membership: if the verifier
    accepts a leaf at index [i] against the root of a list of leaves, with
    whatever proof nodes, that leaf is the [i]-th of the list, or two of the
    inputs hashed for the root and by the verifier collide. *)
Theorem inclusion_proof_sound l s i nodes :
  verifyInclusionProof s i nodes (bytesToHex (MTH l)) (zlength l) = Ok true ->
  (exists x, znth l i = Some x /\ hexToBytesStrict s = Ok x) \/
  collision_in (mth_inputs l ++ inclusion_inputs s i nodes (zlength l)).
Proof. apply accepted_inclusion. Qed.

Lemma verifyInclusionProof_returns s i nodes root n :
  match verifyInclusionProof s i nodes root n with
  | Ok _ => ~ (0 <= i < n) \/ is_ok (hexToBytesStrict s)
  | Err e => 0 <= i < n /\ hexToBytesStrict s = Err e /\ exists msg, e = Throw msg
  end.
Proof.
  unfold verifyInclusionProof.
  destruct (Z.ltb_spec i 0); simpl; [left; lia |]. destruct (Z.leb_spec n i); simpl; [left; lia |].
  assert (Hs := hexToBytesStrict_fuel s). unfold hashLeaf.
  destruct (hexToBytesStrict s) as [b | e]; simpl.
  2: { split_and!; [lia | lia | done |]. destruct e as [msg |]; [by exists msg | done]. }
  destruct (Z.eqb n 1 && Z.eqb (zlength nodes) 0); [by right |].
  destruct (fits_range_fuel n) as (f & -> & Hf).
  assert (Hfuel := verify_path_fuel f i n (sha256Hex [[0]; LEAF_DOMAIN_TAG; b]) nodes 0).
  destruct (verifyPathRecursive _ _ _ _ _ _) as [r | [msg |]]; simpl; [by right | by right |].
  by destruct Hfuel; [lia | done |].
Qed.

(** C40: the inclusion verifier always returns, and the only way it fails to
    return a boolean is the leaf text of an in-range index that does not
    decode: then it throws the decoding error; malformed proof nodes and
    missing nodes give [false]. *)
Theorem verifyInclusionProof_total s i nodes root n :
  match verifyInclusionProof s i nodes root n with
  | Ok _ => ~ (0 <= i < n) \/ is_ok (hexToBytesStrict s)
  | Err e => 0 <= i < n /\ hexToBytesStrict s = Err e /\ exists msg, e = Throw msg
  end.
Proof. apply verifyInclusionProof_returns. Qed.

End lemmas.

(** ** Witnesses *)

Definition sample_path : list string :=
  match fst (getInclusionProof 1 (Some 3) sample_tree) with Ok p => p.2 | Err _ => [] end.

Lemma getRootAtSize_refines_MTH_witness :
  fst (getRootAtSize 2 sample_tree)
  = Ok (bytesToHex (MTH (take 2 (tree_bytes sample_tree)))).
Proof.
  apply (getRootAtSize_refines_MTH sample_tree 2 sample_reachable).
  vm_compute. split; discriminate.
Defined.

Lemma historical_root_stable_witness :
  fst (getRootAtSize 2 (run_call (CallAppend leaf_a) (run_call CallGetRoot sample_tree)))
  = fst (getRootAtSize 2 sample_tree).
Proof.
  apply (historical_root_stable sample_tree 2 [CallGetRoot; CallAppend leaf_a] sample_reachable).
  vm_compute. split; discriminate.
Defined.

Lemma inclusion_proof_complete_witness :
  exists leaf nodes root,
    znth (leaves sample_tree) 1 = Some leaf /\
    fst (getInclusionProof 1 (Some 3) sample_tree) = Ok (1, nodes) /\
    fst (getRootAtSize 3 (snd (getInclusionProof 1 (Some 3) sample_tree))) = Ok root /\
    verifyInclusionProof leaf 1 nodes root 3 = Ok true /\ zlength nodes <= Z.log2_up 3.
Proof.
  apply (inclusion_proof_complete sample_tree 1 3 sample_reachable).
  - lia.
  - vm_compute. discriminate.
Defined.

Lemma inclusion_proof_sound_witness :
  (exists x, znth (tree_bytes sample_tree) 1 = Some x /\ hexToBytesStrict leaf_b = Ok x) \/
  collision_in (mth_inputs (tree_bytes sample_tree) ++ inclusion_inputs leaf_b 1 sample_path 3).
Proof.
  apply (inclusion_proof_sound (tree_bytes sample_tree) leaf_b 1 sample_path).
  vm_compute. reflexivity.
Defined.
