(* ===== verification/Consistency.v ===== *)
(** Consistency proofs: the verifier accepts what the tree generates, and what
    it accepts shows that the old list of leaves is a prefix of the new one,
    unless the hash collides on inputs that were hashed. *)
From S2P Require Import Prelude.
From S2P Require Import Hex.
From S2P Require Import Rfc6962.
From S2P Require Import MerkleSpec.
From S2P Require Import TreeFacts.
From S2P Require Import Samples.
From S2P Require Import Inclusion.
Import Rfc6962.

(** ** The 32-bit power-of-two test *)

Lemma land_pred_pow2 j : 0 <= j -> Z.land (2 ^ j) (2 ^ j - 1) = 0.
Proof.
  intros Hj. replace (2 ^ j - 1) with (Z.ones j) by (rewrite Z.ones_equiv; lia).
  rewrite Z.land_ones by done. apply Z.mod_same. assert (0 < 2 ^ j) by (apply Z.pow_pos_nonneg; lia). lia.
Qed.

Lemma land_pred_nonzero n :
  0 < n -> n <> 2 ^ Z.log2 n -> 2 ^ Z.log2 n <= Z.land n (n - 1) < 2 * 2 ^ Z.log2 n.
Proof.
  intros Hn Hne. destruct (Z.log2_spec n Hn) as [H1 H2].
  set (j := Z.log2 n) in *. assert (Hj : 0 <= j) by apply Z.log2_nonneg.
  rewrite Z.pow_succ_r in H2 by done.
  assert (Hlog : Z.log2 (Z.land n (n - 1)) = j).
  { apply Z.log2_bits_unique.
    - rewrite Z.land_spec. apply andb_true_iff. split; [by apply Z.bit_log2 |].
      assert (Z.log2 (n - 1) = j) as <- by (apply Z.log2_unique; [done |]; rewrite Z.pow_succ_r; lia).
      apply Z.bit_log2. lia.
    - intros i Hi. rewrite Z.land_spec, (Z.bits_above_log2 n) by lia. done. }
  assert (Hpos : 0 < Z.land n (n - 1)).
  { assert (0 <= Z.land n (n - 1)) by (apply Z.land_nonneg; lia).
    destruct (Z.eq_dec (Z.land n (n - 1)) 0) as [E0 |]; [| lia].
    exfalso. assert (Hb : Z.testbit (Z.land n (n - 1)) j = true); [| by rewrite E0, Z.bits_0 in Hb].
    rewrite Z.land_spec. apply andb_true_iff. split; [by apply Z.bit_log2 |].
    assert (Z.log2 (n - 1) = j) as <- by (apply Z.log2_unique; [done |]; rewrite Z.pow_succ_r; lia).
    apply Z.bit_log2. lia. }
  destruct (Z.log2_spec _ Hpos) as [H3 H4]. rewrite Hlog, Z.pow_succ_r in * by done. lia.
Qed.

Lemma isPowerOfTwo_iff n :
  n <= 2 ^ 32 -> isPowerOfTwo n = true <-> exists j, 0 <= j /\ n = 2 ^ j.
Proof.
  intros Hn. unfold isPowerOfTwo. rewrite andb_true_iff, Z.ltb_lt, Z.eqb_eq, js_and_eq_0. split.
  - intros [H0 Hz]. exists (Z.log2 n). split; [apply Z.log2_nonneg |].
    destruct (Z.eq_dec n (2 ^ Z.log2 n)) as [| Hne]; [done |]. exfalso.
    assert (Hl := land_pred_nonzero n H0 Hne).
    assert (0 < 2 ^ Z.log2 n) by (apply Z.pow_pos_nonneg; [lia | apply Z.log2_nonneg]).
    assert (Hlog : Z.log2 n < 32).
    { apply Z.log2_lt_pow2; [done |]. destruct (Z.eq_dec n (2 ^ 32)) as [-> |]; [| lia].
      by rewrite Z.log2_pow2 in Hne. }
    assert (2 ^ Z.log2 n <= 2 ^ 31) by (apply Z.pow_le_mono_r; lia).
    rewrite Z.mod_small in Hz; lia.
  - intros (j & Hj & ->). rewrite land_pred_pow2 by done.
    split; [apply Z.pow_pos_nonneg; lia | done].
Qed.

(** Beyond 32 bits the test accepts numbers that are not powers of two. *)
Lemma isPowerOfTwo_wraps : isPowerOfTwo (2 ^ 32 + 2) = true /\ isPowerOfTwo (2 ^ 33 + 4) = true.
Proof. by vm_compute. Qed.

Lemma isPerfectTreeDoubling_split m n :
  n <= 2 ^ 32 -> isPerfectTreeDoubling m n = true -> 1 <= m < n /\ split_of n = m.
Proof.
  unfold isPerfectTreeDoubling. intros Hn E. bool_prop. subst n.
  destruct (proj1 (isPowerOfTwo_iff m ltac:(lia)) ltac:(done)) as (j & Hj & ->).
  assert (0 < 2 ^ j) by (apply Z.pow_pos_nonneg; lia).
  split; [lia |]. apply split_of_unique; [done | lia].
Qed.

Section lemmas.
Context `{NobleLaws}.

Lemma readConsistencyProofNode_Ok nodes i label n :
  readConsistencyProofNode nodes i label = Ok n -> n ∈ nodes.
Proof.
  unfold readConsistencyProofNode. case_match; [done |]. intros E%read_node_Ok.
  unfold znth in E. destruct (Z.ltb i 0); [done |]. by eapply list_elem_of_lookup_2.
Qed.

Lemma readConsistencyProofNode_mid pre n post label :
  str_truthy n = true ->
  readConsistencyProofNode (pre ++ n :: post) (zlength pre) label = Ok n.
Proof.
  intros Hn. unfold readConsistencyProofNode. rewrite zlength_app.
  assert (0 < zlength (n :: post)) by (unfold zlength; simpl; lia).
  destruct (Z.leb_spec (zlength pre + zlength (n :: post)) (zlength pre)); [lia |].
  by apply read_node_mid.
Qed.

Lemma valid_nodes_dec32 nodes n :
  hasValidConsistencyProofNodes nodes = true -> n ∈ nodes -> dec32 n.
Proof.
  unfold hasValidConsistencyProofNodes. rewrite forallb_forall. intros Hall Hin.
  specialize (Hall n (proj1 (list_elem_of_In _ _) Hin)). bool_prop.
  destruct (hex32_decodes n) as (b & E & Hb & _); [done | done |]. by exists b.
Qed.

Lemma root_of_node_ok l :
  str_truthy (root_of l) && Z.eqb (slen (root_of l)) 64 && string_all is_hex (root_of l) = true.
Proof.
  destruct (root_of_canonical l) as [Ha Hl]. rewrite Hl, Z.eqb_refl.
  rewrite (string_all_impl is_lower_hex is_hex _ is_lower_hex_is_hex Ha).
  by rewrite (valid_leaf_truthy _ (root_of_valid l)).
Qed.

(** ** Completeness *)

(** A list of leaves and the strings they are stored as. *)
Definition stored (raw : list string) (l : list bytes) : Prop :=
  Forall2 (fun s b => canonical_leaf s /\ hexToBytesStrict s = Ok b) raw l.

Lemma stored_take k raw l : stored raw l -> stored (take k raw) (take k l).
Proof. apply Forall2_take. Qed.

Lemma stored_drop k raw l : stored raw l -> stored (drop k raw) (drop k l).
Proof. apply Forall2_drop. Qed.

Lemma take_zlength_all (l : list bytes) : take (Z.to_nat (zlength l)) l = l.
Proof. apply take_ge. unfold zlength. lia. Qed.

Lemma split_take (l : list bytes) m :
  2 <= zlength l -> split_of (zlength l) < m <= zlength l ->
  take (split_nat (take (Z.to_nat m) l)) (take (Z.to_nat m) l) = take (split_nat l) l /\
  drop (split_nat (take (Z.to_nat m) l)) (take (Z.to_nat m) l) =
    take (Z.to_nat (m - split_of (zlength l))) (drop (split_nat l) l) /\
  2 <= zlength (take (Z.to_nat m) l).
Proof.
  intros Hl Hm. destruct (split_of_spec (zlength l) Hl) as [? [? ?]].
  assert (EL : zlength (take (Z.to_nat m) l) = m).
  { unfold zlength in *. rewrite length_take. lia. }
  assert (ES : split_nat (take (Z.to_nat m) l) = split_nat l).
  { unfold split_nat. rewrite EL. by rewrite (split_of_prefix (zlength l)). }
  rewrite ES. unfold split_nat. split_and!; [| | lia].
  - rewrite take_take. f_equal. lia.
  - rewrite skipn_firstn_comm. f_equal. lia.
Qed.

Lemma hashPair_take_root l m :
  2 <= zlength l -> split_of (zlength l) < m <= zlength l ->
  hashPair (root_of (take (split_nat l) l))
    (root_of (take (Z.to_nat (m - split_of (zlength l))) (drop (split_nat l) l)))
  = Ok (root_of (take (Z.to_nat m) l)).
Proof.
  intros Hl Hm. destruct (split_take l m Hl Hm) as (<- & <- & H2). by apply hashPair_roots.
Qed.

Definition known_for (b : bool) (known : option string) (l : list bytes) (m : Z) : Prop :=
  b = true -> known = Some (root_of (take (Z.to_nat m) l)).

Lemma reconstruct_spec f : forall l raw m b known pre post,
  fits (zlength l) f -> stored raw l -> 1 <= m <= zlength l -> known_for b known l m ->
  reconstructConsistencyHashes (S f) m (zlength l)
    (pre ++ subproof_spec (S f) m l raw b ++ post) (zlength pre) b known
  = Ok (mkReconstructed (root_of (take (Z.to_nat m) l)) (root_of l)
          (zlength pre + zlength (subproof_spec (S f) m l raw b))).
Proof.
  induction f as [f IH] using (well_founded_induction lt_wf).
  intros l raw m b known pre post Hf Hraw Hm Hk.
  assert (Hroot : forall l, str_truthy (root_of l) = true) by (intros; apply valid_leaf_truthy, root_of_valid).
  cbn [reconstructConsistencyHashes subproof_spec].
  destruct (Z.eqb_spec m (zlength l)) as [-> | Hmn].
  { rewrite take_zlength_all in *. unfold resolveEqualConsistencySubtree. destruct b.
    - rewrite Hk, take_zlength_all by done. rewrite Hroot. by rewrite Z.add_0_r.
    - cbn [app]. rewrite readConsistencyProofNode_mid by done. done. }
  destruct (Z.eqb m 1 && Z.eqb (zlength l) 2 && b) eqn:E12.
  { bool_prop. subst. destruct l as [| x [| y [| ? ?]]]; unfold zlength in *; simpl in *; try lia.
    inversion Hraw as [| sx ? raw' ? Hsx Hraw' E1 E2]. subst.
    inversion Hraw' as [| sy ? raw'' ? Hsy Hraw'' E1 E2]. subst.
    destruct Hsy as [Hcy Edy]. unfold reconstructRawLeafExtension. rewrite Hk by done.
    rewrite Hroot. cbn [lookup list_lookup app].
    change (Z.of_nat (length pre)) with (zlength pre).
    rewrite readConsistencyProofNode_mid by (by apply valid_leaf_truthy, canonical_valid_leaf).
    cbn [mbind result_bind]. rewrite (hashLeaf_valid sy y) by done. cbn [mbind result_bind].
    assert (HP := hashPair_roots [x; y] ltac:(unfold zlength; simpl; lia)).
    change (take (split_nat [x; y]) [x; y]) with [x] in HP.
    change (drop (split_nat [x; y]) [x; y]) with [y] in HP.
    change (take (Z.to_nat 1) [x; y]) with [x]. by rewrite HP. }
  assert (Hl : 2 <= zlength l) by lia.
  rewrite largestPowerOfTwoLessThan_split by lia.
  destruct (split_of_spec (zlength l)) as [Hk0 [Hk1 Hk2]]; [lia |].
  destruct (split_lengths l Hl) as [LL LR].
  destruct f as [| f]; [apply fits_0 in Hf; lia |].
  destruct (fits_split (zlength l) f) as [FL FR]; [lia | done |].
  destruct (Z.eqb_spec (split_of (zlength l)) 0); [lia |].
  destruct (Z.leb_spec m (split_of (zlength l))).
  - assert (ET : take (Z.to_nat m) (take (split_nat l) l) = take (Z.to_nat m) l).
    { rewrite take_take. f_equal. unfold split_nat. lia. }
    rewrite <- LL at 1. rewrite <- app_assoc.
    rewrite (IH f) by (first [lia | by rewrite LL | rewrite LL; lia | by apply stored_take
      | unfold known_for; by rewrite ET]).
    cbn [mbind result_bind oldHash newHash nextIndex].
    rewrite app_assoc, <- zlength_app. cbn [app].
    rewrite readConsistencyProofNode_mid by done. cbn [mbind result_bind].
    rewrite hashPair_roots by done. cbn [mbind result_bind]. rewrite ET.
    do 2 f_equal. rewrite !zlength_app, zlength_single. lia.
  - rewrite <- LR at 1. rewrite <- app_assoc.
    rewrite (IH f) by (first [lia | done | by rewrite LR | rewrite LR; lia | by apply stored_drop]).
    cbn [mbind result_bind oldHash newHash nextIndex].
    rewrite app_assoc, <- zlength_app. cbn [app].
    rewrite readConsistencyProofNode_mid by done. cbn [mbind result_bind].
    rewrite hashPair_take_root by (done || lia). cbn [mbind result_bind].
    rewrite hashPair_roots by done. cbn [mbind result_bind].
    assert (HA : assertKnownOldRootMatch (root_of (take (Z.to_nat m) l)) b known = Ok tt).
    { unfold assertKnownOldRootMatch. destruct b; [| by destruct known].
      rewrite Hk by done. by rewrite String.eqb_refl, andb_false_r. }
    rewrite HA. cbn [mbind result_bind].
    do 2 f_equal. rewrite !zlength_app, zlength_single. lia.
Qed.

Lemma canonical_node_ok s :
  canonical_leaf s ->
  str_truthy s && Z.eqb (slen s) 64 && string_all is_hex s = true.
Proof.
  intros Hc. assert (Ht := valid_leaf_truthy _ (canonical_valid_leaf s Hc)).
  destruct Hc as [Ha ->]. rewrite Z.eqb_refl, Ht.
  by rewrite (string_all_impl is_lower_hex is_hex _ is_lower_hex_is_hex Ha).
Qed.

Lemma subproof_nodes_ok f : forall m l raw b,
  Forall canonical_leaf raw ->
  hasValidConsistencyProofNodes (subproof_spec f m l raw b) = true.
Proof.
  assert (Hone : forall l, hasValidConsistencyProofNodes [root_of l] = true).
  { intros l. unfold hasValidConsistencyProofNodes. simpl. by rewrite root_of_node_ok. }
  assert (Happ : forall a b, hasValidConsistencyProofNodes a = true ->
    hasValidConsistencyProofNodes b = true -> hasValidConsistencyProofNodes (a ++ b) = true).
  { intros a b. unfold hasValidConsistencyProofNodes. rewrite forallb_app. by intros -> ->. }
  induction f as [| f IH]; intros m l raw b Hraw; cbn [subproof_spec]; [done |].
  destruct (Z.eqb m (zlength l)); [destruct b; [done | apply Hone] |].
  destruct (Z.eqb m 1 && _ && _).
  { destruct (raw !! 1%nat) as [s |] eqn:Es; [| done].
    unfold hasValidConsistencyProofNodes. cbn [forallb]. rewrite canonical_node_ok; [done |].
    by eapply Forall_lookup_1. }
  destruct (Z.leb m _); (apply Happ; [apply IH | apply Hone]).
  - by apply Forall_take.
  - by apply Forall_drop.
Qed.

Lemma subproof_nonempty f m l raw :
  m < zlength l -> stored raw l -> 0 < zlength (subproof_spec (S f) m l raw true).
Proof.
  intros Hm Hraw. cbn [subproof_spec]. destruct (Z.eqb_spec m (zlength l)); [lia |].
  destruct (Z.eqb m 1 && Z.eqb (zlength l) 2 && true) eqn:E12.
  - bool_prop. apply Forall2_length in Hraw. unfold zlength in *.
    destruct (lookup_lt_is_Some_2 raw 1) as [x ->]; [lia |]. done.
  - destruct (Z.leb m _); rewrite zlength_app, zlength_single;
      match goal with |- 0 < zlength ?x + 1 => assert (Hx := zlength_nonneg x) end; lia.
Qed.

Lemma stored_canonical raw l : stored raw l -> Forall canonical_leaf raw.
Proof. induction 1 as [| s b raw l [? _] _ IH]; by constructor. Qed.

(** ** Completeness of the verifier on the proof of RFC 6962 *)

Lemma verifySingle_split old l node (rawLeaf : bool) m :
  2 <= zlength l -> split_of (zlength l) = m -> old = root_of (take (Z.to_nat m) l) ->
  str_truthy node = true ->
  (if rawLeaf then hashLeaf node else Ok node) = Ok (root_of (drop (Z.to_nat m) l)) ->
  verifySingleNodeExtension old (root_of l) [node] rawLeaf = Ok true.
Proof.
  intros Hl <- -> Hn E. unfold verifySingleNodeExtension. rewrite Hn, E. cbn [mbind result_bind].
  change (Z.to_nat (split_of (zlength l))) with (split_nat l).
  rewrite hashPair_roots by done. cbn [mbind result_bind]. by rewrite String.eqb_refl.
Qed.

Lemma verifyConsistencyProof_spec l raw m :
  stored raw l -> 1 <= m <= zlength l -> zlength l <= 2 ^ 32 ->
  verifyConsistencyProof (root_of (take (Z.to_nat m) l)) (root_of l)
    (mkConsistencyProof m (zlength l) (subproof_spec (range_fuel (zlength l)) m l raw true))
  = Ok true.
Proof.
  intros Hraw Hm H32. unfold verifyConsistencyProof. cbn [oldSize newSize proofNodes].
  destruct (fits_range_fuel (zlength l)) as (f & Ef & Hf). rewrite Ef.
  destruct (Z.eqb_spec m (zlength l)) as [-> | Hmn].
  { cbn [subproof_spec]. rewrite take_zlength_all, Z.eqb_refl. by rewrite String.eqb_refl. }
  assert (Hlt : m < zlength l) by lia. assert (Hne := subproof_nonempty f m l raw Hlt Hraw).
  destruct (Z.eqb_spec (zlength (subproof_spec (S f) m l raw true)) 0); [lia |].
  rewrite subproof_nodes_ok by (by eapply stored_canonical). cbn [negb].
  assert (Hl : 2 <= zlength l) by lia.
  assert (Hroot : forall l, str_truthy (root_of l) = true) by (intros; apply valid_leaf_truthy, root_of_valid).
  destruct (Z.eqb m 1 && Z.eqb (zlength l) 2) eqn:E12.
  { cbn [subproof_spec]. rewrite E12. bool_prop. subst m.
    destruct (Z.eqb_spec 1 (zlength l)); [done |]. cbn [andb].
    destruct l as [| x [| y [| ? ?]]]; unfold zlength in *; simpl in *; try lia.
    inversion Hraw as [| sx ? raw' ? Hsx Hraw' E1 E2]. subst.
    inversion Hraw' as [| sy ? raw'' ? Hsy Hraw'' E1 E2]. subst. destruct Hsy as [Hcy Edy].
    apply (verifySingle_split _ [x; y] sy true 1); try done.
    - by apply valid_leaf_truthy, canonical_valid_leaf.
    - by apply hashLeaf_valid. }
  destruct (isPerfectTreeDoubling m (zlength l)) eqn:Ep.
  { destruct (isPerfectTreeDoubling_split m (zlength l)) as [_ Es]; [done | done |].
    cbn [subproof_spec]. destruct (Z.eqb_spec m (zlength l)); [lia |]. rewrite E12.
    cbn [andb]. rewrite Es. destruct (Z.leb_spec m m); [| lia].
    destruct (split_lengths l Hl) as [LL _].
    assert (E0 : subproof_spec f m (take (split_nat l) l) (take (split_nat l) raw) true = []).
    { destruct f; [done |]. cbn [subproof_spec]. rewrite LL, Es, Z.eqb_refl. done. }
    rewrite E0. cbn [app].
    apply (verifySingle_split _ l _ false m); try done.
    unfold split_nat. by rewrite Es. }
  unfold verifyReconstructedConsistencyProof. cbn [oldSize newSize proofNodes]. rewrite Ef.
  assert (HR := reconstruct_spec f l raw m true (Some (root_of (take (Z.to_nat m) l))) [] []
                  Hf Hraw Hm (fun _ => eq_refl)).
  cbn [app] in HR. rewrite app_nil_r in HR. change (zlength []) with 0 in HR. rewrite HR.
  cbn [mbind result_bind oldHash newHash nextIndex try_catch].
  by rewrite !String.eqb_refl, Z.eqb_refl.
Qed.

(** ** Soundness *)

(** The inputs the verifier hashes on the way to the new root. *)
Fixpoint reconstruct_inputs (fuel : nat) (old new : Z) (nodes : list string) (index : Z)
    (b : bool) (known : option string) : list bytes :=
  match fuel with
  | O => []
  | S f =>
      if Z.eqb old new then []
      else if Z.eqb old 1 && Z.eqb new 2 && b then
        match known, readConsistencyProofNode nodes index "raw leaf" with
        | Some r, Ok rawLeaf => pair_input (Ok r) (hashLeaf rawLeaf)
        | _, _ => []
        end
      else
        let split := largestPowerOfTwoLessThan new in
        if Z.leb old split then
          let left := reconstructConsistencyHashes f old split nodes index b known in
          let right := l ← left; readConsistencyProofNode nodes (nextIndex l) "right subtree hash" in
          pair_input (newHash <$> left) right
          ++ reconstruct_inputs f old split nodes index b known
        else
          let right := reconstructConsistencyHashes f (old - split) (new - split) nodes index false None in
          let left := r ← right; readConsistencyProofNode nodes (nextIndex r) "left subtree hash" in
          pair_input left (newHash <$> right)
          ++ reconstruct_inputs f (old - split) (new - split) nodes index false None
  end.

Definition decodes (s : string) (b : bytes) : Prop := hexToBytesStrict s = Ok b.

Variant reconstruct_cases (f : nat) (m n : Z) (nodes : list string) (idx : Z) (b : bool)
    (known : option string) (r : ReconstructedConsistencyHashes) (inputs : list bytes) : Prop :=
| rc_equal :
    m = n -> newHash r = oldHash r -> reconstruct_cases f m n nodes idx b known r inputs
| rc_raw br bl :
    m = 1 -> n = 2 -> decodes (oldHash r) br ->
    decodes (newHash r) (node_hash br (leaf_hash bl)) ->
    inputs = [node_input br (leaf_hash bl)] -> reconstruct_cases f m n nodes idx b known r inputs
| rc_left k left node bl bn :
    k = largestPowerOfTwoLessThan n -> k <> 0 -> m <= k ->
    reconstructConsistencyHashes f m k nodes idx b known = Ok left ->
    node ∈ nodes -> decodes (newHash left) bl -> decodes node bn ->
    oldHash r = oldHash left -> decodes (newHash r) (node_hash bl bn) ->
    inputs = node_input bl bn :: reconstruct_inputs f m k nodes idx b known ->
    reconstruct_cases f m n nodes idx b known r inputs
| rc_right k right node bo bn br :
    k = largestPowerOfTwoLessThan n -> k <> 0 -> k < m ->
    reconstructConsistencyHashes f (m - k) (n - k) nodes idx false None = Ok right ->
    node ∈ nodes -> decodes node bn -> decodes (oldHash right) bo -> decodes (newHash right) br ->
    decodes (oldHash r) (node_hash bn bo) -> decodes (newHash r) (node_hash bn br) ->
    inputs = node_input bn br :: reconstruct_inputs f (m - k) (n - k) nodes idx false None ->
    reconstruct_cases f m n nodes idx b known r inputs.

Lemma resolveEqual_same nodes idx b known r :
  resolveEqualConsistencySubtree nodes idx b known = Ok r -> newHash r = oldHash r.
Proof.
  unfold resolveEqualConsistencySubtree. destruct b.
  - destruct known as [s |]; [| done]. case_match; [| done]. by intros [= <-].
  - intros E. bind_inv. by injection E as <-.
Qed.

Lemma reconstruct_raw_inv f nodes idx known r :
  reconstructRawLeafExtension nodes idx known = Ok r ->
  reconstruct_cases f 1 2 nodes idx true known r (reconstruct_inputs (S f) 1 2 nodes idx true known).
Proof.
  unfold reconstructRawLeafExtension. cbn [reconstruct_inputs]. simpl Z.eqb. cbn [andb].
  destruct known as [s |]; [| done]. destruct (str_truthy s); [| done].
  intros E. apply bind_Ok in E as (raw & Eraw & E). apply bind_Ok in E as (h & Eh & E).
  apply bind_Ok in E as (nh & Enh & E). injection E as <-. rewrite Eraw.
  destruct (hashLeaf_Ok _ _ Eh) as (bl & _ & Ebl & _).
  destruct (hashPair_Ok _ _ _ Enh) as (br & bl' & Ebr & Ebl' & Enew & _).
  rewrite Ebl in Ebl'. injection Ebl' as <-.
  eapply rc_raw; try done. rewrite Eh. by apply pair_input_Ok.
Qed.

Lemma reconstruct_step f m n nodes idx b known r :
  reconstructConsistencyHashes (S f) m n nodes idx b known = Ok r ->
  reconstruct_cases f m n nodes idx b known r (reconstruct_inputs (S f) m n nodes idx b known).
Proof.
  intros E. cbn [reconstructConsistencyHashes] in E.
  destruct (Z.eqb_spec m n) as [-> | Hmn].
  { apply rc_equal; [done |]. by eapply resolveEqual_same. }
  destruct (Z.eqb m 1 && Z.eqb n 2 && b) eqn:E12.
  { bool_prop. subst. by apply reconstruct_raw_inv. }
  cbn [reconstruct_inputs]. destruct (Z.eqb_spec m n); [done |]. rewrite E12. cbv zeta in *.
  destruct (Z.eqb_spec (largestPowerOfTwoLessThan n) 0); [done |].
  destruct (Z.leb_spec m (largestPowerOfTwoLessThan n)).
  - apply bind_Ok in E as (left & El & E). apply bind_Ok in E as (node & En & E).
    apply bind_Ok in E as (nh & Enh & E). injection E as <-. rewrite El.
    cbn [mbind result_bind]. rewrite En. change (newHash <$> Ok left) with (Ok (newHash left)).
    destruct (hashPair_Ok _ _ _ Enh) as (bl & bn & Ebl & Ebn & Enew & _).
    rewrite (pair_input_Ok _ _ _ _ Ebl Ebn).
    eapply rc_left with (left := left) (node := node) (bl := bl) (bn := bn); try done.
    by eapply readConsistencyProofNode_Ok.
  - apply bind_Ok in E as (right & Er & E). apply bind_Ok in E as (node & En & E).
    apply bind_Ok in E as (oh & Eoh & E). apply bind_Ok in E as (nh & Enh & E).
    apply bind_Ok in E as ([] & _ & E). injection E as <-. rewrite Er.
    cbn [mbind result_bind]. rewrite En. change (newHash <$> Ok right) with (Ok (newHash right)).
    destruct (hashPair_Ok _ _ _ Enh) as (bn & br & Ebn & Ebr & Enew & _).
    destruct (hashPair_Ok _ _ _ Eoh) as (bn' & bo & Ebn' & Ebo & Eold & _).
    rewrite Ebn in Ebn'. injection Ebn' as <-.
    rewrite (pair_input_Ok _ _ _ _ Ebn Ebr).
    eapply rc_right with (right := right) (node := node) (bn := bn) (br := br) (bo := bo); try done.
    by eapply readConsistencyProofNode_Ok.
Qed.

Lemma reconstruct_sizes f : forall m n nodes idx b known r,
  1 <= n -> reconstructConsistencyHashes f m n nodes idx b known = Ok r -> 1 <= m <= n.
Proof.
  induction f as [| f IH]; intros m n nodes idx b known r Hn E; [done |].
  assert (Hk : forall k, k = largestPowerOfTwoLessThan n -> k <> 0 -> 1 <= k < n).
  { intros k -> Hk0. destruct (Z_le_gt_dec n 1) as [H1 | H1].
    - unfold largestPowerOfTwoLessThan in Hk0. by destruct (Z.leb_spec n 1); [| lia].
    - rewrite largestPowerOfTwoLessThan_split in * by lia.
      destruct (split_of_spec n) as [? [? ?]]; lia. }
  apply reconstruct_step in E as [| | k ? ? ? ? Ek Hk0 ? Erec | k ? ? ? ? ? Ek Hk0 ? Erec];
    [lia | lia | |]; destruct (Hk _ Ek Hk0); apply IH in Erec; lia.
Qed.

Lemma reconstruct_sound f : forall l m nodes idx b known r,
  hasValidConsistencyProofNodes nodes = true -> 1 <= zlength l ->
  reconstructConsistencyHashes f m (zlength l) nodes idx b known = Ok r ->
  decodes (newHash r) (MTH l) ->
  decodes (oldHash r) (MTH (take (Z.to_nat m) l)) \/
  collision_in (mth_inputs l ++ reconstruct_inputs f m (zlength l) nodes idx b known).
Proof.
  induction f as [| f IH]; intros l m nodes idx b known r Hn Hl1 E Enew; [done |].
  destruct (reconstruct_sizes _ _ _ _ _ _ _ _ Hl1 E) as [Hm1 Hm2].
  apply reconstruct_step in E
    as [-> Eq | br bl -> Hl2 Eold En -> | k left node bl bn -> Hk0 Hmk Erec Hin El Ebn Eo En ->
        | k right node bo bn br -> Hk0 Hmk Erec Hin Ebn Ebo Ebr Eo En ->].
  - left. rewrite take_zlength_all. by rewrite <- Eq.
  - unfold decodes in *. rewrite Enew in En. injection En as En.
    destruct (node_matches l br (leaf_hash bl)) as [[-> _] | Hc];
      [lia | right; apply sha256_length | done | | by right].
    left. rewrite Eold. unfold split_nat. by rewrite Hl2.
  - unfold decodes in Enew, En, El. rewrite Enew in En. injection En as En.
    destruct (valid_nodes_dec32 _ _ Hn Hin) as (b32 & Eb32 & Hb32).
    unfold decodes in Ebn. rewrite Ebn in Eb32. injection Eb32 as <-.
    assert (Hl : 2 <= zlength l).
    { destruct (Z.eq_dec (zlength l) 1) as [E1 |]; [| lia]. by rewrite E1 in Hk0. }
    rewrite largestPowerOfTwoLessThan_split in * by lia.
    destruct (split_lengths l Hl) as [LL LR]. destruct (split_of_spec _ Hl) as [? [? ?]].
    destruct (node_matches l bl bn) as [[-> ->] | Hc]; [done | by right | done | |];
      [| right; revert Hc; apply collision_in_mono; list_subset].
    rewrite <- LL in Erec |- *.
    destruct (IH (take (split_nat l) l) m nodes idx b known left) as [Hd | Hc]; try done; [lia | |].
    + left. rewrite Eo. unfold decodes in *. rewrite take_take in Hd. rewrite Hd.
      do 3 f_equal. unfold split_nat. lia.
    + right. revert Hc. rewrite (mth_inputs_split l) by done. apply collision_in_mono. list_subset.
  - unfold decodes in Enew, En, Ebr. rewrite Enew in En. injection En as En.
    destruct (valid_nodes_dec32 _ _ Hn Hin) as (b32 & Eb32 & Hb32).
    unfold decodes in Ebn. rewrite Ebn in Eb32. injection Eb32 as <-.
    assert (Hl : 2 <= zlength l).
    { destruct (Z.eq_dec (zlength l) 1) as [E1 |]; [| lia]. by rewrite E1 in Hk0. }
    rewrite largestPowerOfTwoLessThan_split in * by lia.
    destruct (split_lengths l Hl) as [LL LR]. destruct (split_of_spec _ Hl) as [? [? ?]].
    destruct (node_matches l bn br) as [[-> ->] | Hc]; [done | by left | done | |];
      [| right; revert Hc; apply collision_in_mono; list_subset].
    rewrite <- LR in Erec |- *.
    destruct (IH (drop (split_nat l) l) (m - split_of (zlength l)) nodes idx false None right)
      as [Hd | Hc]; try done; [lia | |].
    + left. unfold decodes in *. rewrite Ebo in Hd. injection Hd as ->. rewrite Eo.
      destruct (split_take l m Hl) as (E1 & E2 & Hl2); [lia |].
      rewrite (MTH_split (take (Z.to_nat m) l)) by done. by rewrite E1, E2.
    + right. revert Hc. rewrite (mth_inputs_split l) by done. apply collision_in_mono. list_subset.
Qed.

(** ** The properties *)

(** The inputs [verifyConsistencyProof] hashes on the way to the new root. *)
Definition single_inputs (oldRoot : string) (nodes : list string) (rawLeaf : bool) : list bytes :=
  match nodes with
  | node :: _ => pair_input (Ok oldRoot) (if rawLeaf then hashLeaf node else Ok node)
  | [] => []
  end.

Definition consistency_inputs (oldRoot : string) (p : ConsistencyProof) : list bytes :=
  single_inputs oldRoot (proofNodes p) true ++ single_inputs oldRoot (proofNodes p) false ++
  reconstruct_inputs (range_fuel (newSize p)) (oldSize p) (newSize p) (proofNodes p) 0 true
    (Some oldRoot).

(** Two lists of leaves, the smaller one with the root of the prefix of the
    larger: it is that prefix, or two inputs collide. *)
Lemma prefix_of_root old new :
  zlength old <= zlength new -> MTH old = MTH (take (length old) new) ->
  old `prefix_of` new \/ collision_in (mth_inputs old ++ mth_inputs (take (length old) new)).
Proof.
  intros Hle Hr. destruct (MTH_inj old (take (length old) new)) as [E | Hc]; [| done | | by right].
  - rewrite length_take. unfold zlength in Hle. lia.
  - left. exists (drop (length old) new). rewrite E at 1. by rewrite take_drop.
Qed.

Lemma verifySingle_inv old new nodes (rawLeaf : bool) :
  verifySingleNodeExtension (root_of old) new nodes rawLeaf = Ok true ->
  exists br, decodes new (node_hash (MTH old) br) /\
    single_inputs (root_of old) nodes rawLeaf = [node_input (MTH old) br].
Proof.
  unfold verifySingleNodeExtension. destruct nodes as [| node [| ? ?]]; [done | | done].
  destruct (str_truthy node); [| done]. intros E.
  apply bind_Ok in E as (rh & Erh & E). apply bind_Ok in E as (h & Eh & E).
  injection E as E. apply String.eqb_eq in E as <-.
  destruct (hashPair_Ok _ _ _ Eh) as (bl & br & Ebl & Ebr & Eh' & _).
  rewrite root_of_decodes in Ebl. injection Ebl as <-. exists br. split; [done |].
  unfold single_inputs. rewrite Erh. apply pair_input_Ok; [apply root_of_decodes | done].
Qed.

Lemma single_sound old new nodes rawLeaf :
  2 <= zlength new -> split_of (zlength new) = zlength old ->
  verifySingleNodeExtension (root_of old) (root_of new) nodes rawLeaf = Ok true ->
  MTH old = MTH (take (length old) new) \/
  collision_in (mth_inputs new ++ single_inputs (root_of old) nodes rawLeaf).
Proof.
  intros Hl Hs Hv. destruct (verifySingle_inv _ _ _ _ Hv) as (br & Ed & ->).
  unfold decodes in Ed. rewrite root_of_decodes in Ed. injection Ed as Ed.
  destruct (node_matches new (MTH old) br) as [[E _] | Hc];
    [done | left; apply MTH_length | done | | by right].
  left. rewrite E. do 2 f_equal. unfold split_nat. rewrite Hs. unfold zlength. lia.
Qed.

Lemma accepted_consistency old new p :
  oldSize p = zlength old -> newSize p = zlength new -> zlength new <= 2 ^ 32 ->
  verifyConsistencyProof (bytesToHex (MTH old)) (bytesToHex (MTH new)) p = Ok true ->
  old `prefix_of` new \/
  collision_in (mth_inputs old ++ mth_inputs new ++ mth_inputs (take (length old) new)
                ++ consistency_inputs (bytesToHex (MTH old)) p).
Proof.
  intros Eo En H32. unfold consistency_inputs. change (bytesToHex (MTH ?l)) with (root_of l).
  destruct p as [m n nodes]. cbn [oldSize newSize proofNodes] in *. subst m n. intros Hv.
  assert (Hgoal : zlength old <= zlength new /\ (MTH old = MTH (take (length old) new) \/
    collision_in (mth_inputs new ++ single_inputs (root_of old) nodes true ++
      single_inputs (root_of old) nodes false ++
      reconstruct_inputs (range_fuel (zlength new)) (zlength old) (zlength new) nodes 0 true
        (Some (root_of old))))).
  2: { destruct Hgoal as [Hle [Hr | Hc]].
       - destruct (prefix_of_root old new Hle Hr) as [| Hc]; [by left | right; revert Hc].
         apply collision_in_mono. list_subset.
       - right. revert Hc. apply collision_in_mono. list_subset. }
  unfold verifyConsistencyProof in Hv. cbn [oldSize newSize proofNodes] in Hv.
  destruct (Z.eqb_spec (zlength old) (zlength new)) as [Eq | Hne].
  { injection Hv as Hv. bool_prop. split; [lia |]. left.
    rewrite take_ge by (unfold zlength in *; lia). by apply root_of_inj. }
  destruct (Z.eqb (zlength nodes) 0); [done |].
  destruct (hasValidConsistencyProofNodes nodes) eqn:Hn; [| done]. cbn [negb] in Hv.
  destruct (Z.eqb (zlength old) 1 && Z.eqb (zlength new) 2) eqn:E12.
  { bool_prop. split; [lia |].
    destruct (single_sound old new nodes true) as [| Hc]; [lia | | done | by left |].
    - match goal with E1 : zlength old = 1, E2 : zlength new = 2 |- _ => by rewrite E1, E2 end.
    - right. revert Hc. apply collision_in_mono. list_subset. }
  destruct (isPerfectTreeDoubling (zlength old) (zlength new)) eqn:Ep.
  { destruct (isPerfectTreeDoubling_split _ _ H32 Ep). split; [lia |].
    destruct (single_sound old new nodes false) as [| Hc]; [lia | done | done | by left |].
    right. revert Hc. apply collision_in_mono. list_subset. }
  unfold verifyReconstructedConsistencyProof in Hv. cbn [oldSize newSize proofNodes] in Hv.
  destruct (reconstructConsistencyHashes _ _ _ _ _ _ _) as [r | []] eqn:Er; [| done | done].
  injection Hv as Hv. bool_prop. assert (Hn1 : 1 <= zlength new).
  { destruct (Z.eq_dec (zlength new) 0) as [E0 |]; [| assert (Hz := zlength_nonneg new); lia].
    rewrite E0 in Er. rewrite range_fuel_log in Er. apply reconstruct_step in Er as []; try lia.
    all: subst; by match goal with Hk : largestPowerOfTwoLessThan 0 <> 0 |- _ => destruct Hk end. }
  destruct (reconstruct_sizes _ _ _ _ _ _ _ _ Hn1 Er). split; [lia |].
  destruct (reconstruct_sound _ new (zlength old) nodes 0 true (Some (root_of old)) r Hn Hn1 Er)
    as [Hd | Hc].
  - unfold decodes. match goal with E : newHash r = _ |- _ => rewrite E end. apply root_of_decodes.
  - left. unfold decodes in Hd. match goal with E : oldHash r = _ |- _ => rewrite E in Hd end.
    rewrite root_of_decodes in Hd. injection Hd as ->. unfold zlength. by rewrite Nat2Z.id.
  - right. revert Hc. apply collision_in_mono. list_subset.
Qed.

(** C7: an accepted consistency proof is evidence of an append-only history: if
    the verifier accepts a proof between the roots of an old and of a new list
    of leaves at their sizes, whatever the proof nodes, the old list is a
    prefix of the new one, or two of the inputs hashed for the roots and by
    the verifier collide. The size bound is the range of the 32-bit
    power-of-two test. *)
Theorem consistency_proof_sound old new p :
  oldSize p = zlength old -> newSize p = zlength new -> zlength new <= 2 ^ 32 ->
  verifyConsistencyProof (bytesToHex (MTH old)) (bytesToHex (MTH new)) p = Ok true ->
  old `prefix_of` new \/
  collision_in (mth_inputs old ++ mth_inputs new ++ mth_inputs (take (length old) new)
                ++ consistency_inputs (bytesToHex (MTH old)) p).
Proof. apply accepted_consistency. Qed.

Lemma stored_range t n :
  Forall canonical_leaf (take (Z.to_nat n) (leaves t)) -> tree_ok t ->
  stored (raw_range t 0 n) (range t 0 n).
Proof.
  intros Hc Hok. unfold stored, raw_range, range, tree_bytes. rewrite !drop_0, <- fmap_take.
  apply Forall2_fmap_r. apply Forall_Forall2_diag. eapply Forall_impl; [done |].
  intros s Hs. split; [done |]. by apply valid_leaf_decodes, canonical_valid_leaf.
Qed.

(** C10: every consistency proof the tree generates between two sizes, whatever
    its caches hold, is accepted by the verifier against the two roots of those
    sizes, when the leaves are stored without a prefix and the size is within
    the range of the 32-bit power-of-two test. *)
Theorem consistency_proof_complete t m n :
  reachable t -> Forall canonical_leaf (take (Z.to_nat n) (leaves t)) ->
  1 <= m <= n -> n <= size t -> n <= 2 ^ 32 ->
  exists old new p,
    fst (getRootAtSize m t) = Ok old /\
    fst (getRootAtSize n (snd (getRootAtSize m t))) = Ok new /\
    fst (getConsistencyProof m n (snd (getRootAtSize n (snd (getRootAtSize m t))))) = Ok p /\
    verifyConsistencyProof old new p = Ok true.
Proof.
  intros Hok%reachable_ok Hc Hm Hn H32.
  destruct (returns_eq _ _ _ (returns_getRootAtSize m t Hok ltac:(lia))) as (E1 & L1 & O1).
  set (t1 := snd (getRootAtSize m t)) in *. assert (S1 := size_same_leaves t t1 L1).
  destruct (returns_eq _ _ _ (returns_getRootAtSize n t1 O1 ltac:(lia))) as (E2 & L2 & O2).
  set (t2 := snd (getRootAtSize n t1)) in *. assert (S2 := size_same_leaves t1 t2 L2).
  destruct (returns_eq _ _ _ (returns_getConsistencyProof m n t2 O2 Hm ltac:(lia))) as (E3 & _ & _).
  eexists _, _, _. rewrite E1, E2, E3. split_and!; [done | done | done |].
  assert (HR : stored (raw_range t 0 n) (range t 0 n)) by (by apply stored_range).
  assert (EL : zlength (range t 0 n) = n) by (apply range_length; lia).
  rewrite !(range_same_leaves t t1) by done. rewrite (range_same_leaves t t2) by congruence.
  assert (ER : raw_range t2 0 n = raw_range t 0 n) by (unfold raw_range; congruence). rewrite ER.
  assert (EM : range t 0 m = take (Z.to_nat m) (range t 0 n)) by (by rewrite range_left by lia).
  rewrite EM. revert HR EL. generalize (raw_range t 0 n) (range t 0 n). intros raw l HR <-.
  by apply verifyConsistencyProof_spec.
Qed.

(** ** Totality *)

Lemma read_consistency_fuel nodes i label : no_fuel_error (readConsistencyProofNode nodes i label).
Proof. unfold readConsistencyProofNode. case_match; [done | apply read_node_fuel]. Qed.

Lemma reconstruct_fuel f : forall m n nodes idx b known,
  fits n f -> no_fuel_error (reconstructConsistencyHashes (S f) m n nodes idx b known).
Proof.
  induction f as [f IH] using (well_founded_induction lt_wf). intros m n nodes idx b known Hf.
  cbn [reconstructConsistencyHashes].
  destruct (Z.eqb m n).
  { unfold resolveEqualConsistencySubtree. destruct b; [by repeat case_match |].
    apply bind_fuel; [apply read_consistency_fuel | done]. }
  destruct (_ && _ && b).
  { unfold reconstructRawLeafExtension. destruct known; [| done]. case_match; [| done].
    apply bind_fuel; [apply read_consistency_fuel |]; intros raw _.
    apply bind_fuel; [apply hashLeaf_fuel |]; intros h _. apply bind_fuel; [apply hashPair_fuel | done]. }
  destruct (Z.eqb_spec (largestPowerOfTwoLessThan n) 0) as [| Hk]; [done |].
  assert (Hn : 2 <= n).
  { destruct (Z_le_gt_dec n 1) as [H1 |]; [| lia]. destruct Hk.
    unfold largestPowerOfTwoLessThan. by destruct (Z.leb_spec n 1); [| lia]. }
  rewrite largestPowerOfTwoLessThan_split by done.
  destruct f as [| f]; [apply fits_0 in Hf; lia |].
  destruct (fits_split n f) as [FL FR]; [done | done |].
  destruct (Z.leb m (split_of n)).
  - apply bind_fuel; [apply (IH f); auto with lia |]; intros l _.
    apply bind_fuel; [apply read_consistency_fuel |]; intros r _.
    apply bind_fuel; [apply hashPair_fuel | done].
  - apply bind_fuel; [apply (IH f); auto with lia |]; intros l _.
    apply bind_fuel; [apply read_consistency_fuel |]; intros r _.
    apply bind_fuel; [apply hashPair_fuel |]; intros o _.
    apply bind_fuel; [apply hashPair_fuel |]; intros o' _.
    apply bind_fuel; [| done]. unfold assertKnownOldRootMatch. by repeat case_match.
Qed.

Lemma verifySingle_total old new nodes (rawLeaf : bool) :
  hasValidConsistencyProofNodes nodes = true ->
  match verifySingleNodeExtension old new nodes rawLeaf with
  | Ok _ => True
  | Err e => hexToBytesStrict old = Err e
  end.
Proof.
  intros Hn. unfold verifySingleNodeExtension. destruct nodes as [| node [| ? ?]]; [done | | done].
  destruct (valid_nodes_dec32 _ node Hn) as (b & Eb & _); [apply list_elem_of_here |].
  destruct (str_truthy node); [| done].
  assert (Hr : exists rh rb, (if rawLeaf then hashLeaf node else Ok node) = Ok rh /\
                 hexToBytesStrict rh = Ok rb).
  { destruct rawLeaf; [| by eauto]. exists (root_of [b]), (MTH [b]).
    split; [by apply hashLeaf_valid | apply root_of_decodes]. }
  destruct Hr as (rh & rb & -> & Erb). cbn [mbind result_bind]. unfold hashPair.
  destruct (hexToBytesStrict old); cbn [mbind result_bind]; [| done].
  by rewrite Erb.
Qed.

(** The consistency verifier always returns; the only way it fails to
    return a boolean is an old root that does not decode (which the
    single-node extensions read outside the handler that gives [false]). *)
Theorem verifyConsistencyProof_total old new p :
  match verifyConsistencyProof old new p with
  | Ok _ => True
  | Err e => hexToBytesStrict old = Err e /\ exists msg, e = Throw msg
  end.
Proof.
  unfold verifyConsistencyProof. destruct (Z.eqb (oldSize p) (newSize p)); [done |].
  destruct (Z.eqb (zlength _) 0); [done |].
  destruct (hasValidConsistencyProofNodes (proofNodes p)) eqn:Hn; [| done]. cbn [negb].
  assert (Hs : forall rawLeaf, match verifySingleNodeExtension old new (proofNodes p) rawLeaf with
    | Ok _ => True | Err e => hexToBytesStrict old = Err e /\ exists msg, e = Throw msg end).
  { intros rawLeaf. assert (Hv := verifySingle_total old new _ rawLeaf Hn).
    destruct (verifySingleNodeExtension _ _ _ _) as [| [msg |]]; [done | by eauto |].
    by apply hexToBytesStrict_fuel in Hv. }
  destruct (_ && _); [apply Hs |]. destruct (isPerfectTreeDoubling _ _); [apply Hs |].
  unfold verifyReconstructedConsistencyProof.
  destruct (fits_range_fuel (newSize p)) as (f & -> & Hf).
  assert (Hr := reconstruct_fuel f (oldSize p) (newSize p) (proofNodes p) 0 true (Some old) Hf).
  destruct (reconstructConsistencyHashes _ _ _ _ _ _ _) as [r | [msg |]]; done.
Qed.

End lemmas.

(** ** Witnesses *)

Definition sample_consistency : ConsistencyProof :=
  match fst (getConsistencyProof 2 3 sample_tree) with Ok p => p | Err _ => mkConsistencyProof 0 0 [] end.

Lemma consistency_proof_sound_witness :
  take 2 (tree_bytes sample_tree) `prefix_of` tree_bytes sample_tree \/
  collision_in (mth_inputs (take 2 (tree_bytes sample_tree)) ++ mth_inputs (tree_bytes sample_tree)
    ++ mth_inputs (take 2 (tree_bytes sample_tree))
    ++ consistency_inputs (bytesToHex (MTH (take 2 (tree_bytes sample_tree)))) sample_consistency).
Proof.
  apply (consistency_proof_sound (take 2 (tree_bytes sample_tree)) (tree_bytes sample_tree)
           sample_consistency).
  - vm_compute. reflexivity.
  - vm_compute. reflexivity.
  - vm_compute. discriminate.
  - vm_compute. reflexivity.
Defined.

Lemma consistency_proof_complete_witness :
  exists old new p,
    fst (getRootAtSize 1 sample_tree) = Ok old /\
    fst (getRootAtSize 3 (snd (getRootAtSize 1 sample_tree))) = Ok new /\
    fst (getConsistencyProof 1 3 (snd (getRootAtSize 3 (snd (getRootAtSize 1 sample_tree))))) = Ok p /\
    verifyConsistencyProof old new p = Ok true.
Proof.
  apply (consistency_proof_complete sample_tree 1 3 sample_reachable).
  - repeat constructor.
  - lia.
  - vm_compute. discriminate.
  - vm_compute. discriminate.
Defined.

(** An old root that does not decode: a doubling throws, another size gives false. *)
Lemma verifyConsistencyProof_total_witness :
  verifyConsistencyProof "zz" (bytesToHex (MTH (tree_bytes sample_tree))) sample_consistency
    = Ok false /\
  match verifyConsistencyProof "zz" leaf_a (mkConsistencyProof 2 4 [leaf_b]) with
  | Ok _ => True
  | Err e => hexToBytesStrict "zz" = Err e /\ exists msg, e = Throw msg
  end.
Proof.
  split; [vm_compute; reflexivity |].
  apply (verifyConsistencyProof_total "zz" leaf_a (mkConsistencyProof 2 4 [leaf_b])).
Defined.

(** A leaf given with two prefixes is stored with one: the proof the tree then
    generates from size 1 to size 2 is rejected by its own verifier. *)
Definition prefixed_tree : Tree :=
  run_call (CallAppend ("0x0x" +:+ leaf_b)) (run_call (CallAppend leaf_a) empty_tree).

Lemma prefixed_leaf_rejected :
  size prefixed_tree = 2 /\ znth (leaves prefixed_tree) 1 = Some ("0x" +:+ leaf_b)%string /\
  match fst (getRootAtSize 1 prefixed_tree), fst (getRootAtSize 2 prefixed_tree),
        fst (getConsistencyProof 1 2 prefixed_tree) with
  | Ok old, Ok new, Ok p => verifyConsistencyProof old new p = Ok false
  | _, _, _ => False
  end.
Proof. split_and!; vm_compute; reflexivity. Qed.
