(* ===== verification/Checks.v ===== *)
(** The registry of verification checks
    (packages/verification/src/verification/verification-checks.ts): the
    closed set of check identifiers, their metadata, and the selection of the
    checks and inputs of a step. *)
From S2P Require Import Prelude.

Module Checks.

(** ** Data *)

Inductive VerificationStepStatus : Type :=
| st_pending | st_running | st_success | st_failed | st_not_run.

Inductive VerificationStepId : Type :=
| cast_as_intended | recorded_as_cast | counted_as_recorded | stark_verification.

Inductive VerificationEvidence : Type := ev_local | ev_public | ev_zk | ev_demo.

Inductive VerificationCheckRole : Type :=
| proof_verification | cast_receipt_integrity | recorded_inclusion | recorded_append_only
| tally_input_integrity | tally_completeness | user_inclusion | tally_consistency
| optional_external_audit.

Inductive VerificationCheckCriticality : Type := required | optional.

Inductive VerificationCheckNoteKey : Type :=
| note_notPresented | note_presentedButInvalid | note_excluded | note_missingReceipt
| note_proofUnavailable.

Inductive VerificationCheckId : Type :=
| cast_receipt_present | cast_choice_range | cast_random_format | cast_commitment_match
| recorded_commitment_in_bulletin | recorded_index_in_range | recorded_root_at_cast_consistent
| recorded_inclusion_proof | recorded_consistency_proof | recorded_sth_third_party
| counted_input_sanity | counted_unique_indices | counted_unique_commitments
| counted_tally_consistent | counted_missing_indices_zero | counted_expected_vs_tree_size
| counted_election_manifest_consistent | counted_close_statement_consistent
| counted_my_vote_included | counted_input_commitment_match
| stark_image_id_match | stark_receipt_verify.

#[export] Instance VerificationStepStatus_eq_dec : EqDecision VerificationStepStatus.
Proof. solve_decision. Defined.
#[export] Instance VerificationStepId_eq_dec : EqDecision VerificationStepId.
Proof. solve_decision. Defined.
#[export] Instance VerificationEvidence_eq_dec : EqDecision VerificationEvidence.
Proof. solve_decision. Defined.
#[export] Instance VerificationCheckRole_eq_dec : EqDecision VerificationCheckRole.
Proof. solve_decision. Defined.
#[export] Instance VerificationCheckCriticality_eq_dec : EqDecision VerificationCheckCriticality.
Proof. solve_decision. Defined.
#[export] Instance VerificationCheckNoteKey_eq_dec : EqDecision VerificationCheckNoteKey.
Proof. solve_decision. Defined.
#[export] Instance VerificationCheckId_eq_dec : EqDecision VerificationCheckId.
Proof. solve_decision. Defined.

Record VerificationCheckDefinition := mkDefinition {
  def_id : VerificationCheckId;
  category : VerificationStepId;
  def_evidence : VerificationEvidence;
  def_inputs : list string;
  role : VerificationCheckRole;
  criticality : VerificationCheckCriticality;
  def_derivedFrom : option VerificationCheckId;
}.

(** ** The registry *)

Definition VERIFICATION_CHECK_DEFINITIONS : list VerificationCheckDefinition := [
  mkDefinition cast_receipt_present cast_as_intended ev_local
    ["user.voteId"; "user.commitment"] cast_receipt_integrity required None;
  mkDefinition cast_choice_range cast_as_intended ev_local
    ["user.choice"] cast_receipt_integrity required None;
  mkDefinition cast_random_format cast_as_intended ev_local
    ["user.random"] cast_receipt_integrity required None;
  mkDefinition cast_commitment_match cast_as_intended ev_local
    ["electionId"; "user.choice"; "user.random"; "user.commitment"]
    cast_receipt_integrity required None;
  mkDefinition recorded_commitment_in_bulletin recorded_as_cast ev_public
    ["user.commitment"; "user.voteReceipt"; "user.merklePath"]
    recorded_inclusion optional (Some recorded_inclusion_proof);
  mkDefinition recorded_index_in_range recorded_as_cast ev_public
    ["user.voteReceipt"; "treeSize"] recorded_inclusion required None;
  mkDefinition recorded_root_at_cast_consistent recorded_as_cast ev_public
    ["user.voteReceipt"; "user.merklePath"; "bulletinRoot"; "treeSize"]
    recorded_append_only optional (Some recorded_consistency_proof);
  mkDefinition recorded_inclusion_proof recorded_as_cast ev_public
    ["user.commitment"; "user.voteReceipt"; "user.merklePath"] recorded_inclusion required None;
  mkDefinition recorded_consistency_proof recorded_as_cast ev_public
    ["user.voteReceipt"; "user.merklePath"; "bulletinRoot"; "treeSize"]
    recorded_append_only required None;
  mkDefinition recorded_sth_third_party recorded_as_cast ev_public
    ["sthDigest"] optional_external_audit optional None;
  mkDefinition counted_input_sanity counted_as_recorded ev_public
    ["proofBundleStatus"; "bulletinRoot"; "treeSize"] tally_input_integrity required None;
  mkDefinition counted_unique_indices counted_as_recorded ev_public
    ["proofBundleStatus"] tally_input_integrity required None;
  mkDefinition counted_unique_commitments counted_as_recorded ev_public
    ["proofBundleStatus"] tally_input_integrity required None;
  mkDefinition counted_tally_consistent counted_as_recorded ev_zk
    ["tally.counts"; "tally.totalVotes"] tally_consistency required None;
  mkDefinition counted_missing_indices_zero counted_as_recorded ev_zk
    ["missingSlots"; "invalidPresentedSlots"] tally_completeness required None;
  mkDefinition counted_expected_vs_tree_size counted_as_recorded ev_zk
    ["totalExpected"; "treeSize"] tally_input_integrity required None;
  mkDefinition counted_election_manifest_consistent counted_as_recorded ev_public
    ["electionManifest"; "electionId"; "electionConfigHash"; "proofBundleStatus"]
    tally_input_integrity required None;
  mkDefinition counted_close_statement_consistent counted_as_recorded ev_public
    ["closeStatement"; "logId"; "timestamp"; "sthDigest"; "bulletinRoot"; "treeSize"]
    tally_input_integrity required None;
  mkDefinition counted_my_vote_included counted_as_recorded ev_zk
    ["includedBitmapRoot"; "user.voteReceipt"] user_inclusion required None;
  mkDefinition counted_input_commitment_match counted_as_recorded ev_public
    ["proofBundleStatus"; "inputCommitment"] tally_input_integrity required None;
  mkDefinition stark_image_id_match stark_verification ev_zk
    ["imageId"] proof_verification required None;
  mkDefinition stark_receipt_verify stark_verification ev_zk
    ["proofBundleStatus"] proof_verification required None
]%string.

Definition VERIFICATION_CHECK_IDS : list VerificationCheckId :=
  map def_id VERIFICATION_CHECK_DEFINITIONS.

(** The identifier as the text it is in the code. *)
Definition check_id_string (id : VerificationCheckId) : string :=
  match id with
  | cast_receipt_present => "cast_receipt_present"
  | cast_choice_range => "cast_choice_range"
  | cast_random_format => "cast_random_format"
  | cast_commitment_match => "cast_commitment_match"
  | recorded_commitment_in_bulletin => "recorded_commitment_in_bulletin"
  | recorded_index_in_range => "recorded_index_in_range"
  | recorded_root_at_cast_consistent => "recorded_root_at_cast_consistent"
  | recorded_inclusion_proof => "recorded_inclusion_proof"
  | recorded_consistency_proof => "recorded_consistency_proof"
  | recorded_sth_third_party => "recorded_sth_third_party"
  | counted_input_sanity => "counted_input_sanity"
  | counted_unique_indices => "counted_unique_indices"
  | counted_unique_commitments => "counted_unique_commitments"
  | counted_tally_consistent => "counted_tally_consistent"
  | counted_missing_indices_zero => "counted_missing_indices_zero"
  | counted_expected_vs_tree_size => "counted_expected_vs_tree_size"
  | counted_election_manifest_consistent => "counted_election_manifest_consistent"
  | counted_close_statement_consistent => "counted_close_statement_consistent"
  | counted_my_vote_included => "counted_my_vote_included"
  | counted_input_commitment_match => "counted_input_commitment_match"
  | stark_image_id_match => "stark_image_id_match"
  | stark_receipt_verify => "stark_receipt_verify"
  end%string.

(** ** Selection *)

(** [context?.sthSourcesConfigured]: an absent context or flag is false. *)
Definition isVerificationCheckRequired (definition : VerificationCheckDefinition)
    (sthSourcesConfigured : bool) : bool :=
  if decide (criticality definition = required) then true
  else if decide (role definition = optional_external_audit) then sthSourcesConfigured
  else false.

Definition getVerificationAllCheckDefinitionsForStep (stepId : VerificationStepId) :
    list VerificationCheckDefinition :=
  List.filter (fun d => bool_decide (category d = stepId)) VERIFICATION_CHECK_DEFINITIONS.

Definition getVerificationRequiredCheckDefinitionsForStep (stepId : VerificationStepId)
    (sthSourcesConfigured : bool) : list VerificationCheckDefinition :=
  List.filter (fun d => isVerificationCheckRequired d sthSourcesConfigured)
    (getVerificationAllCheckDefinitionsForStep stepId).

Definition getVerificationRequiredCheckIdsForStep (stepId : VerificationStepId)
    (sthSourcesConfigured : bool) : list VerificationCheckId :=
  map def_id (getVerificationRequiredCheckDefinitionsForStep stepId sthSourcesConfigured).

(** The inner loop of [getVerificationStepInputs]: [inputs] without repeats, in
    the order of their first occurrence ([seen] holds what was pushed). *)
Definition push_inputs (acc : list string) (new : list string) : list string :=
  fold_left (fun inputs input => if bool_decide (input ∈ inputs) then inputs else inputs ++ [input])
    new acc.

Definition getVerificationStepInputs (stepId : VerificationStepId) : list string :=
  fold_left (fun acc d => push_inputs acc (def_inputs d))
    (getVerificationAllCheckDefinitionsForStep stepId) [].

(** ** Lemmas *)

Lemma check_id_string_inj i j : check_id_string i = check_id_string j -> i = j.
Proof. destruct i, j; try done; intros E; discriminate E. Qed.

Definition lookup_definition (id : VerificationCheckId) : option VerificationCheckDefinition :=
  find (fun d => bool_decide (def_id d = id)) VERIFICATION_CHECK_DEFINITIONS.

Lemma every_id_defined id :
  exists d, d ∈ VERIFICATION_CHECK_DEFINITIONS /\ def_id d = id.
Proof.
  assert (E : exists d, lookup_definition id = Some d) by (destruct id; by eexists).
  destruct E as [d E]. exists d. apply find_some in E as [Hin Hd].
  apply bool_decide_eq_true in Hd. split; [by apply list_elem_of_In | done].
Qed.

Lemma definitions_nodup : NoDup VERIFICATION_CHECK_IDS.
Proof. apply (bool_decide_unpack _). by vm_compute. Qed.

Lemma definition_unique d1 d2 :
  d1 ∈ VERIFICATION_CHECK_DEFINITIONS -> d2 ∈ VERIFICATION_CHECK_DEFINITIONS ->
  def_id d1 = def_id d2 -> d1 = d2.
Proof.
  intros [i Hi]%list_elem_of_lookup [j Hj]%list_elem_of_lookup E.
  assert (i = j); [| congruence].
  eapply (NoDup_lookup VERIFICATION_CHECK_IDS); [apply definitions_nodup | |];
    unfold VERIFICATION_CHECK_IDS; by rewrite list_lookup_fmap, ?Hi, ?Hj; simpl; rewrite ?E.
Qed.

(** A statement about every definition is checked on the twenty-two of them. *)
Lemma all_definitions (P : VerificationCheckDefinition -> bool) :
  forallb P VERIFICATION_CHECK_DEFINITIONS = true ->
  forall d, d ∈ VERIFICATION_CHECK_DEFINITIONS -> P d = true.
Proof. rewrite forallb_forall. intros HP d Hd. by apply HP, list_elem_of_In. Qed.

Lemma push_inputs_spec new : forall acc,
  NoDup acc -> NoDup (push_inputs acc new) /\
  forall x, x ∈ push_inputs acc new <-> x ∈ acc \/ x ∈ new.
Proof.
  induction new as [| y new IH]; intros acc Hacc; simpl.
  - split; [done |]. intros x. list_member.
  - destruct (IH (if bool_decide (y ∈ acc) then acc else acc ++ [y])) as [Hnd Hin].
    { case_bool_decide; [done |]. apply NoDup_app. split_and!; [done | | apply NoDup_singleton].
      intros x Hx ->%list_elem_of_singleton. done. }
    split; [done |]. intros x. rewrite Hin. case_bool_decide as Hy; [| list_member].
    rewrite elem_of_cons. split; [tauto |]. intros [? | [-> | ?]]; tauto.
Qed.

Lemma step_inputs_fold ds : forall acc,
  NoDup acc ->
  NoDup (fold_left (fun acc d => push_inputs acc (def_inputs d)) ds acc) /\
  forall x, x ∈ fold_left (fun acc d => push_inputs acc (def_inputs d)) ds acc <->
    x ∈ acc \/ exists d, d ∈ ds /\ x ∈ def_inputs d.
Proof.
  induction ds as [| d ds IH]; intros acc Hacc; simpl.
  - split; [done |]. intros x. split; [by left |]. intros [? | (d & ?%elem_of_nil & _)]; done.
  - destruct (push_inputs_spec (def_inputs d) acc Hacc) as [Hnd Hin].
    destruct (IH _ Hnd) as [Hnd' Hin']. split; [done |]. intros x. rewrite Hin', Hin. split.
    + intros [[? | ?] | (d' & ? & ?)]; [by left | right; exists d; list_member | right; exists d'; list_member].
    + intros [? | (d' & [-> | ?]%elem_of_cons & ?)]; [by left; left | by left; right |].
      right. by exists d'.
Qed.

(** ** The properties *)

(** The registry is coherent: identifiers are distinct and each has a
    definition; a derived check is optional and repeats a required, underived
    check of its own step and role; every step has a required check whatever the
    configuration; and a step's inputs are, without repeats, exactly the inputs
    of its checks. *)
Theorem registry_coherent :
  NoDup VERIFICATION_CHECK_IDS /\
  (forall id, exists d, d ∈ VERIFICATION_CHECK_DEFINITIONS /\ def_id d = id) /\
  (forall d src, d ∈ VERIFICATION_CHECK_DEFINITIONS -> def_derivedFrom d = Some src ->
     criticality d = optional /\
     exists e, e ∈ VERIFICATION_CHECK_DEFINITIONS /\ def_id e = src /\ criticality e = required /\
       def_derivedFrom e = None /\ category e = category d /\ role e = role d) /\
  (forall step b, getVerificationRequiredCheckIdsForStep step b <> []) /\
  (forall step, NoDup (getVerificationStepInputs step) /\
     forall x, x ∈ getVerificationStepInputs step <->
       exists d, d ∈ getVerificationAllCheckDefinitionsForStep step /\ x ∈ def_inputs d).
Proof.
  split_and!; [apply definitions_nodup | apply every_id_defined | | by intros [] [] |].
  - intros d src Hd Hsrc.
    assert (Hall := all_definitions (fun d => match def_derivedFrom d with
      | None => true
      | Some src => bool_decide (criticality d = optional) &&
          existsb (fun e => bool_decide (def_id e = src /\ criticality e = required /\
            def_derivedFrom e = None /\ category e = category d /\ role e = role d))
            VERIFICATION_CHECK_DEFINITIONS
      end) eq_refl d Hd). cbv beta in Hall. rewrite Hsrc in Hall.
    apply andb_true_iff in Hall as [Hc%bool_decide_eq_true Hex]. split; [done |].
    apply existsb_exists in Hex as (e & He & Hp%bool_decide_eq_true).
    exists e. split; [by apply list_elem_of_In | done].
  - intros step. unfold getVerificationStepInputs.
    destruct (step_inputs_fold (getVerificationAllCheckDefinitionsForStep step) [] (NoDup_nil_2))
      as [Hnd Hin]. split; [done |]. intros x. rewrite Hin. split.
    + by intros [?%elem_of_nil | ?].
    + by right.
Qed.

End Checks.
