(* ===== verification/JsNumber.v ===== *)
(** JavaScript numbers at the boundaries where the code does not know yet that
    a number is an integer: integer doubles, other finite doubles, the
    infinities and NaN, with the comparisons, the [Number] predicates and the
    addition the code uses; and the messages template literals build. *)
From Stdlib Require Import QArith Qreduction Qabs.
From S2P Require Import Prelude.
#[global] Open Scope Z_scope.

(** [NFrac q] is a finite double that is not an integer. *)
Inductive num : Type :=
| NInt (z : Z)
| NFrac (q : Q)
| NInf (negative : bool)
| NNaN.

Definition MAX_SAFE_INTEGER : Z := 2 ^ 53 - 1.

Definition safe_Z (z : Z) : bool := Z.leb (- MAX_SAFE_INTEGER) z && Z.leb z MAX_SAFE_INTEGER.

Definition isInteger (n : num) : bool := match n with NInt _ => true | _ => false end.
Definition isSafeInteger (n : num) : bool := match n with NInt z => safe_Z z | _ => false end.
Definition isFinite (n : num) : bool := match n with NInt _ | NFrac _ => true | _ => false end.

Definition finite_Q (n : num) : option Q :=
  match n with NInt z => Some (inject_Z z) | NFrac q => Some q | _ => None end.

(** [a === b] *)
Definition num_eqb (a b : num) : bool :=
  match a, b with
  | NInt x, NInt y => Z.eqb x y
  | NFrac p, NFrac q => Qeq_bool p q
  | NInf s, NInf t => Bool.eqb s t
  | _, _ => false
  end.

(** [a < b] *)
Definition num_ltb (a b : num) : bool :=
  match a, b with
  | NNaN, _ | _, NNaN => false
  | NInf true, NInf true => false
  | NInf true, _ => true
  | NInf false, _ => false
  | _, NInf neg => negb neg
  | NInt x, NInt y => Z.ltb x y
  | _, _ =>
      match finite_Q a, finite_Q b with
      | Some p, Some q => Qle_bool p q && negb (Qeq_bool p q)
      | _, _ => false
      end
  end.

(** [a <= b] *)
Definition num_leb (a b : num) : bool := num_ltb a b || num_eqb a b.

(** Rounding a rational to the nearest double, ties to even: integers up to
    [2 ^ 53] are exact; otherwise 53 significant bits are kept, or the
    multiple of [2 ^ -1074] for subnormal results. *)
Definition round_half_even (q : Q) : Z :=
  let f := Qnum q / Zpos (Qden q) in
  let r := 2 * (Qnum q mod Zpos (Qden q)) in
  if Z.ltb r (Zpos (Qden q)) then f
  else if Z.ltb (Zpos (Qden q)) r then f + 1
  else if Z.even f then f else f + 1.

Definition Q_of_integer_ratio (n : Z) (shift : Z) : Q :=
  if Z.leb 0 shift then inject_Z (n * 2 ^ shift) else Qmake n (Z.to_pos (2 ^ (- shift))).

Definition num_of_Q (q : Q) : num :=
  let r := Qred q in
  if Pos.eqb (Qden r) 1 then NInt (Qnum r) else NFrac r.

Definition round_Q (q : Q) : num :=
  let r := Qred q in
  if Pos.eqb (Qden r) 1 && Z.leb (Z.abs (Qnum r)) (2 ^ 53) then NInt (Qnum r)
  else
    let a := Z.abs (Qnum r) in
    let e0 := Z.log2 a - Z.log2 (Zpos (Qden r)) in
    (* 2 ^ e <= |r| < 2 ^ (e + 1) *)
    let e := if Qle_bool (Q_of_integer_ratio 1 e0) (Qabs.Qabs r) then e0 else e0 - 1 in
    let s := Z.max (e - 52) (-1074) in
    let m := round_half_even (Qmult r (Q_of_integer_ratio 1 (- s))) in
    if Z.leb (2 ^ 1024) (Z.abs m * 2 ^ (Z.max s 0)) then NInf (Z.ltb (Qnum r) 0)
    else num_of_Q (Q_of_integer_ratio m s).

(** [a + b] *)
Definition num_add (a b : num) : num :=
  match a, b with
  | NNaN, _ | _, NNaN => NNaN
  | NInf s, NInf t => if Bool.eqb s t then NInf s else NNaN
  | NInf s, _ | _, NInf s => NInf s
  | _, _ =>
      match finite_Q a, finite_Q b with
      | Some p, Some q => round_Q (Qplus p q)
      | _, _ => NNaN
      end
  end.

Definition num_sum (l : list num) : num := fold_left num_add l (NInt 0).

(** [Math.max(a, b)] *)
Definition num_max (a b : num) : num :=
  match a, b with
  | NNaN, _ | _, NNaN => NNaN
  | _, _ => if num_ltb a b then b else a
  end.

(** The value of a number that [Number.isInteger] accepted. *)
Definition num_Z (n : num) : Z := match n with NInt z => z | _ => 0 end.

#[export] Instance Q_eq_dec : EqDecision Q.
Proof. solve_decision. Defined.
#[export] Instance num_eq_dec : EqDecision num.
Proof. solve_decision. Defined.

(** ** Lemmas *)

Lemma num_eqb_int x y : num_eqb (NInt x) (NInt y) = true <-> x = y.
Proof. simpl. apply Z.eqb_eq. Qed.

Lemma num_eqb_int_l x n : num_eqb (NInt x) n = true <-> n = NInt x.
Proof.
  destruct n as [y | | |]; simpl; try done.
  rewrite Z.eqb_eq. split; [by intros -> | by intros [= ->]].
Qed.

Lemma num_eqb_int_r n x : num_eqb n (NInt x) = true <-> n = NInt x.
Proof.
  destruct n as [y | | |]; simpl; try done.
  rewrite Z.eqb_eq. split; [by intros -> | by intros [= ->]].
Qed.

Lemma isInteger_spec n : isInteger n = true <-> n = NInt (num_Z n).
Proof. by destruct n. Qed.

Lemma safe_Z_spec z : safe_Z z = true <-> - MAX_SAFE_INTEGER <= z <= MAX_SAFE_INTEGER.
Proof. unfold safe_Z. rewrite andb_true_iff, !Z.leb_le. done. Qed.

Lemma isSafeInteger_spec n :
  isSafeInteger n = true <-> exists z, n = NInt z /\ - MAX_SAFE_INTEGER <= z <= MAX_SAFE_INTEGER.
Proof.
  destruct n as [z | | |]; simpl; split; try done.
  - rewrite safe_Z_spec. by exists z.
  - intros (z' & [= ->] & ?). by apply safe_Z_spec.
  - by intros (? & ? & _).
  - by intros (? & ? & _).
  - by intros (? & ? & _).
Qed.

Lemma Qred_inject_Z z : Qred (inject_Z z) = inject_Z z.
Proof.
  unfold inject_Z, Qred. assert (Hg := Z.ggcd_gcd z 1). assert (Hd := Z.ggcd_correct_divisors z 1).
  destruct (Z.ggcd z 1) as [g [a b]]. simpl in *. rewrite Z.gcd_1_r in Hg. subst g.
  destruct Hd as [-> Hb]. rewrite !Z.mul_1_l in *. by subst b.
Qed.

(** Addition of integers is exact within the range of safe integers. *)
Lemma num_add_int a b : Z.abs (a + b) <= 2 ^ 53 -> num_add (NInt a) (NInt b) = NInt (a + b).
Proof.
  intros H. unfold num_add. cbn [finite_Q].
  assert (E : Qplus (inject_Z a) (inject_Z b) = inject_Z (a + b)).
  { unfold Qplus, inject_Z. simpl. f_equal. lia. }
  rewrite E. unfold round_Q. rewrite Qred_inject_Z. simpl Qden. simpl Qnum.
  destruct (Z.leb_spec (Z.abs (a + b)) (2 ^ 53)); [done | lia].
Qed.

Example num_add_tenths :
  num_eqb (num_add (round_Q (1 # 10)) (round_Q (2 # 10))) (round_Q (3 # 10)) = false.
Proof. vm_compute. reflexivity. Qed.

Example num_add_beyond_safe : num_add (NInt (2 ^ 53)) (NInt 1) = NInt (2 ^ 53).
Proof. vm_compute. reflexivity. Qed.

(** ** Messages: the parts of a template literal *)

Inductive part : Type :=
| T (text : string)
| N (value : num).

Definition message : Type := list part.

Definition part_nonempty (p : part) : bool := match p with T s => str_truthy s | N _ => true end.

(** Truthiness of a message: it is not the empty text. *)
Definition message_truthy (m : message) : bool := existsb part_nonempty m.

#[export] Instance part_eq_dec : EqDecision part.
Proof. solve_decision. Defined.
