(* ===== verification/JsValue.v ===== *)
(** Values of unknown type, and the guards that read them
    (packages/validation/src/unknown-value-guards.ts). An object is the list of
    its own enumerable properties in insertion order; reading a property that
    is not there gives [undefined]. [JBytes] is a [Uint8Array]. *)
From stdpp Require Import pretty.
From S2P Require Import Prelude.
From S2P Require Import JsNumber.

Module JsValue.

#[warnings="-register-all"]
Inductive jsval : Type :=
| JUndefined
| JNull
| JBool (b : bool)
| JNum (n : num)
| JStr (s : string)
| JArr (items : list jsval)
| JBytes (data : bytes)
| JObj (properties : list (string * jsval)).

Fixpoint own (properties : list (string * jsval)) (key : string) : option jsval :=
  match properties with
  | [] => None
  | (k, v) :: rest => if String.eqb k key then Some v else own rest key
  end.

(** [value[key]] for a named key of an object; arrays have none of the names
    the code reads. *)
Definition prop (value : jsval) (key : string) : jsval :=
  match value with
  | JObj properties => match own properties key with Some v => v | None => JUndefined end
  | _ => JUndefined
  end.

(** [Object.keys(value)] *)
Definition object_keys (value : jsval) : list string :=
  match value with
  | JObj properties => map fst properties
  | JArr items => map (fun i => pretty (Z.of_nat i)) (seq 0 (length items))
  | JBytes data => map (fun i => pretty (Z.of_nat i)) (seq 0 (length data))
  | _ => []
  end.

Definition is_undefined (v : jsval) : bool := match v with JUndefined => true | _ => false end.

Definition isNonNullObject (v : jsval) : bool :=
  match v with JObj _ | JArr _ | JBytes _ => true | _ => false end.

Definition isNonArrayObject (v : jsval) : bool :=
  match v with JObj _ | JBytes _ => true | _ => false end.

Definition isNumber (v : jsval) : option num :=
  match v with JNum n => if isFinite n then Some n else None | _ => None end.

(** [Array.isArray(value) && value.every(guard)], with the guarded values. *)
Fixpoint all_some {A B} (f : A -> option B) (l : list A) : option (list B) :=
  match l with
  | [] => Some []
  | x :: rest =>
      match f x, all_some f rest with
      | Some y, Some ys => Some (y :: ys)
      | _, _ => None
      end
  end.

Definition as_string (v : jsval) : option string := match v with JStr s => Some s | _ => None end.
Definition as_bool (v : jsval) : option bool := match v with JBool b => Some b | _ => None end.

Definition isNumberArray (v : jsval) : option (list num) :=
  match v with JArr l => all_some isNumber l | _ => None end.

Definition isStringArray (v : jsval) : option (list string) :=
  match v with JArr l => all_some as_string l | _ => None end.

Definition isBooleanArray (v : jsval) : option (list bool) :=
  match v with JArr l => all_some as_bool l | _ => None end.

Definition getStringProperty (value : jsval) (key : string) : option string := as_string (prop value key).
Definition getNumberProperty (value : jsval) (key : string) : option num := isNumber (prop value key).

Definition getObjectProperty (value : jsval) (key : string) : option jsval :=
  if isNonNullObject (prop value key) then Some (prop value key) else None.

Definition getArrayProperty (value : jsval) (key : string) : option (list jsval) :=
  match prop value key with JArr l => Some l | _ => None end.

Definition getStringArrayProperty (value : jsval) (key : string) : option (list string) :=
  isStringArray (prop value key).
Definition getNumberArrayProperty (value : jsval) (key : string) : option (list num) :=
  isNumberArray (prop value key).
Definition getBooleanArrayProperty (value : jsval) (key : string) : option (list bool) :=
  isBooleanArray (prop value key).

Definition hasExactOwnKeys (value : jsval) (expected : list string) : bool :=
  Z.eqb (zlength (object_keys value)) (zlength expected) &&
  forallb (fun key => bool_decide (key ∈ expected)) (object_keys value).

Definition hasOnlyAllowedKeys (value : jsval) (allowed : list string) : bool :=
  forallb (fun key => bool_decide (key ∈ allowed)) (object_keys value).

Definition isNonNegativeSafeInteger (n : num) : bool := isSafeInteger n && num_leb (NInt 0) n.
Definition isPositiveSafeInteger (n : num) : bool := isNonNegativeSafeInteger n && num_ltb (NInt 0) n.
Definition isNonNegativeInteger (n : num) : bool := isInteger n && num_leb (NInt 0) n.

(** ** Lemmas *)

Lemma all_some_Some {A B} (f : A -> option B) l ys :
  all_some f l = Some ys <-> Forall2 (fun x y => f x = Some y) l ys.
Proof.
  revert ys. induction l as [| x l IH]; intros ys; simpl.
  - split; [by intros [= <-] | by intros ->%Forall2_nil_inv_l].
  - destruct (f x) as [y |] eqn:Ex; [destruct (all_some f l) as [zs |] eqn:El |].
    + split; [intros [= <-]; constructor; [done | by apply IH] |].
      intros (y' & ys' & Ey & Hf & ->)%Forall2_cons_inv_l. apply IH in Hf. congruence.
    + split; [done |]. intros (y' & ys' & Ey & Hf & ->)%Forall2_cons_inv_l. apply IH in Hf. congruence.
    + split; [done |]. intros (y' & ys' & Ey & Hf & ->)%Forall2_cons_inv_l. congruence.
Qed.

Lemma isNonNegativeSafeInteger_spec n :
  isNonNegativeSafeInteger n = true <-> exists z, n = NInt z /\ 0 <= z <= MAX_SAFE_INTEGER.
Proof.
  unfold isNonNegativeSafeInteger. rewrite andb_true_iff, isSafeInteger_spec. split.
  - intros [(z & -> & Hz) Hn]. exists z. unfold num_leb in Hn. cbn [num_ltb num_eqb] in Hn.
    apply orb_true_iff in Hn as [?%Z.ltb_lt | ?%Z.eqb_eq]; (split; [done | lia]).
  - intros (z & -> & Hz). split; [exists z; split; [done | lia] |].
    unfold num_leb. cbn [num_ltb num_eqb]. apply orb_true_iff. rewrite Z.ltb_lt, Z.eqb_eq. lia.
Qed.

End JsValue.
