(* ===== verification/Bitmap.v ===== *)
(** Inclusion bitmaps (packages/zkvm-contract/src/zkvm/bitmap-core.ts,
    packages/verification/src/merkle/bitmap-merkle-tree.ts and
    packages/verification/src/verification/bitmap-verifier.ts): packing bits
    into 32-byte chunks, the level-by-level Merkle tree over the chunks, the
    proof of one bit and its verifier. *)
From S2P Require Import Prelude.
From S2P Require Import JsNumber.
From S2P Require Import Hex.
From S2P Require Import Rfc6962.

Module Bitmap.

(** ** bitmap-core.ts *)

Definition BITMAP_CHUNK_BYTES : Z := 32.
Definition BITMAP_CHUNK_BITS : Z := BITMAP_CHUNK_BYTES * 8.

(** [Math.ceil(a / b)] for a safe integer and a power of two: the division is exact. *)
Definition ceil_div (a b : Z) : Z := - (- a / b).

(** [bytes[byteIndex] = bytes[byteIndex] | (1 << offset)] *)
Definition set_bit (bs : bytes) (byteIndex offset : Z) : result bytes :=
  match znth bs byteIndex with
  | None => throw "Bitmap byte index out of range"
  | Some currentByte => Ok (<[Z.to_nat byteIndex := Z.lor currentByte (Z.shiftl 1 offset)]> bs)
  end.

Fixpoint pack_loop (bits : list bool) (index : Z) (bs : bytes) : result bytes :=
  match bits with
  | [] => Ok bs
  | bit :: bits' =>
      if bit then
        bs' ← set_bit bs (index / 8) (index mod 8);
        pack_loop bits' (index + 1) bs'
      else pack_loop bits' (index + 1) bs
  end.

Definition zeros (n : Z) : bytes := repeat 0 (Z.to_nat n).

Definition packBitmapBitsToBytes (bits : list bool) : result bytes :=
  pack_loop bits 0 (zeros (ceil_div (zlength bits) 8)).

(** [chunk.set(bytes.subarray(offset, min(offset + 32, length)))] on 32 zero bytes. *)
Definition chunk_at (bs : bytes) (offset : Z) : bytes :=
  let sub := take 32 (drop (Z.to_nat offset) bs) in
  sub ++ zeros (BITMAP_CHUNK_BYTES - zlength sub).

Fixpoint split_loop (fuel : nat) (bs : bytes) (offset : Z) : list bytes :=
  match fuel with
  | O => []
  | S f =>
      if Z.ltb offset (zlength bs)
      then chunk_at bs offset :: split_loop f bs (offset + BITMAP_CHUNK_BYTES)
      else []
  end.

Definition splitBitmapBytesIntoChunks (bs : bytes) : list bytes :=
  match split_loop (length bs) bs 0 with
  | [] => [zeros BITMAP_CHUNK_BYTES]
  | chunks => chunks
  end.

Definition calculateBitmapLeafIndex (bitIndex : Z) : Z := bitIndex / BITMAP_CHUNK_BITS.
Definition calculateBitmapBitOffset (bitIndex : Z) : Z := bitIndex mod BITMAP_CHUNK_BITS.

(** The loop from [startBit] to [endBit] over the bits of one chunk. *)
Fixpoint chunk_loop (bits : list bool) (bitOffset : Z) (chunk : bytes) : result bytes :=
  match bits with
  | [] => Ok chunk
  | bit :: bits' =>
      if bit then
        chunk' ← set_bit chunk (bitOffset / 8) (bitOffset mod 8);
        chunk_loop bits' (bitOffset + 1) chunk'
      else chunk_loop bits' (bitOffset + 1) chunk
  end.

Definition getBitmapLeafChunkBytes (bitmap : list bool) (leafIndex : Z) : result bytes :=
  let startBit := leafIndex * BITMAP_CHUNK_BITS in
  let endBit := Z.min (startBit + BITMAP_CHUNK_BITS) (zlength bitmap) in
  chunk_loop (take (Z.to_nat (endBit - startBit)) (drop (Z.to_nat startBit) bitmap)) 0
    (zeros BITMAP_CHUNK_BYTES).

Definition isBitmapChunkHex (chunkHex : string) : bool :=
  string_all is_hex chunkHex && Z.eqb (slen chunkHex) 64.

Definition extractBitFromBitmapChunkBytes (chunk : bytes) (bitOffset : Z) : result bool :=
  if Z.ltb bitOffset 0 || Z.leb BITMAP_CHUNK_BITS bitOffset
  then throw "Bit offset out of range: must be 0-255"
  else match znth chunk (bitOffset / 8) with
       | None => throw "Bit offset out of range: byte is missing"
       | Some byte => Ok (negb (Z.eqb (js_and byte (Z.shiftl 1 (bitOffset mod 8))) 0))
       end.

Section with_noble.
Context `{Noble}.

Definition BITMAP_LEAF_USAGE_TAG : bytes :=
  map char_code (String.list_ascii_of_string "stark-ballot:leaf|v1").

Definition hashBitmapLeafChunk (chunk : bytes) : bytes :=
  sha256 ([0] ++ BITMAP_LEAF_USAGE_TAG ++ chunk).

Definition hashBitmapInternalNode (l r : bytes) : bytes := sha256 ([1] ++ l ++ r).

(** One level from the one below: pairs are hashed, an unpaired last node is kept. *)
Fixpoint next_level (level : list bytes) : list bytes :=
  match level with
  | l :: r :: rest => hashBitmapInternalNode l r :: next_level rest
  | [l] => [l]
  | [] => []
  end.

Fixpoint levels_loop (fuel : nat) (currentLevel : list bytes) : list (list bytes) :=
  match fuel with
  | O => []
  | S f =>
      if Z.ltb 1 (zlength currentLevel)
      then next_level currentLevel :: levels_loop f (next_level currentLevel)
      else []
  end.

Definition buildBitmapMerkleTreeByteLevels (leaves : list bytes) : list (list bytes) :=
  match leaves with
  | [] => [[zeros BITMAP_CHUNK_BYTES]]
  | _ :: _ => leaves :: levels_loop (length leaves) leaves
  end.

Definition computeBitmapMerkleRootBytes (leaves : list bytes) : result bytes :=
  match last (buildBitmapMerkleTreeByteLevels leaves) ≫= head with
  | Some root => Ok root
  | None => throw "Merkle tree root is missing"
  end.

Definition computeIncludedBitmapRootHex (bitmap : list bool) : result string :=
  packed ← packBitmapBitsToBytes bitmap;
  root ← computeBitmapMerkleRootBytes (map hashBitmapLeafChunk (splitBitmapBytesIntoChunks packed));
  Ok ("0x" +:+ bytesToHex root)%string.

Definition getBitmapLeafChunkHex (bitmap : list bool) (leafIndex : Z) : result string :=
  bytesToHex <$> getBitmapLeafChunkBytes bitmap leafIndex.

(** [hexToBytes] of the library throws a RangeError on malformed text. *)
Definition lib_hexToBytes (hex : string) : result bytes :=
  match hexToBytes hex with Some b => Ok b | None => throw "RangeError" end.

Definition extractBitFromBitmapChunkHex (chunkHex : string) (bitOffset : Z) : result bool :=
  if negb (isBitmapChunkHex chunkHex)
  then throw "Invalid chunk format: must be 64 hex characters"
  else b ← lib_hexToBytes chunkHex; extractBitFromBitmapChunkBytes b bitOffset.

Definition hashBitmapLeafChunkHex (chunkHex : string) : result string :=
  if negb (isBitmapChunkHex chunkHex)
  then throw "Invalid chunk format: must be 64 hex characters"
  else b ← lib_hexToBytes chunkHex; Ok (bytesToHex (hashBitmapLeafChunk b)).

Definition hashBitmapInternalNodeHex (leftHex rightHex : string) : result string :=
  if negb (isBitmapChunkHex leftHex) || negb (isBitmapChunkHex rightHex)
  then throw "Invalid bitmap node format: must be 64 hex characters"
  else
    l ← lib_hexToBytes leftHex;
    r ← lib_hexToBytes rightHex;
    Ok (bytesToHex (hashBitmapInternalNode l r)).

Definition buildBitmapMerkleTreeHexLevels (bitmap : list bool) : result (list (list string)) :=
  packed ← packBitmapBitsToBytes bitmap;
  Ok (map (map bytesToHex)
        (buildBitmapMerkleTreeByteLevels
           (map hashBitmapLeafChunk (splitBitmapBytesIntoChunks packed)))).

(** ** bitmap-merkle-tree.ts *)

Inductive position : Type := left | right.

#[export] Instance position_eq_dec : EqDecision position.
Proof. solve_decision. Defined.

Record path_node := mkPathNode { node_hash_hex : string; node_position : position }.

Record BitmapMerkleProof := mkBitmapMerkleProof {
  leafChunk : string;
  auditPath : list path_node;
  proof_leafIndex : Z;
  proof_bitIndex : Z;
}.

(** The loop over every level but the last: a sibling that exists is pushed. *)
Fixpoint audit_loop (levels : list (list string)) (currentIndex : Z) : list path_node :=
  match levels with
  | [] | [_] => []
  | levelNodes :: ((_ :: _) as rest) =>
      let isLeft := Z.eqb (currentIndex mod 2) 0 in
      let siblingIndex := if isLeft then currentIndex + 1 else currentIndex - 1 in
      let tail := audit_loop rest (currentIndex / 2) in
      match znth levelNodes siblingIndex with
      | Some sibling =>
          if str_truthy sibling
          then mkPathNode sibling (if isLeft then right else left) :: tail else tail
      | None => tail
      end
  end.

Definition generateBitmapMerkleProof (bitmap : list bool) (bitIndex : Z) :
    result BitmapMerkleProof :=
  if Z.eqb (zlength bitmap) 0 then throw "Empty bitmap"
  else if Z.ltb bitIndex 0 || Z.leb (zlength bitmap) bitIndex then throw "Index out of range"
  else
    let leafIndex := calculateBitmapLeafIndex bitIndex in
    chunk ← getBitmapLeafChunkHex bitmap leafIndex;
    levels ← buildBitmapMerkleTreeHexLevels bitmap;
    Ok (mkBitmapMerkleProof chunk (audit_loop levels leafIndex) leafIndex bitIndex).

Record BitmapVerificationResult := mkBitmapResult {
  valid : bool;
  included : bool;
  leafIndex : Z;
  bitOffset : Z;
}.

Record AuthenticatedBitmapProofContext := mkContext {
  ctx_bitIndex : Z;
  ctx_treeSize : Z;
  ctx_expectedRoot : string;
}.

(** bitmap-proof-types.ts *)
Definition asBitmapBitIndex (value : num) : result Z :=
  if negb (isSafeInteger value) || num_ltb value (NInt 0)
  then throw "bitmap bit index must be a non-negative safe integer" else Ok (num_Z value).

Definition asAuthenticatedBitmapTreeSize (value : num) : result Z :=
  if negb (isSafeInteger value) || num_leb value (NInt 0)
  then throw "authenticated bitmap tree size must be a positive safe integer"
  else Ok (num_Z value).

Definition asBitmapLeafIndex (value : num) : result Z :=
  if negb (isSafeInteger value) || num_ltb value (NInt 0)
  then throw "bitmap leaf index must be a non-negative safe integer" else Ok (num_Z value).

Definition asBitmapBitOffset (value : num) : result Z :=
  if negb (isSafeInteger value) || num_ltb value (NInt 0) || num_leb (NInt 256) value
  then throw "bitmap bit offset must be a safe integer in [0, 255]" else Ok (num_Z value).

(** /^(0x)?[0-9a-fA-F]{64}$/ *)
Definition is_bitmap_root (value : string) : bool :=
  isBitmapChunkHex value ||
  match value with String "0" (String "x" rest) => isBitmapChunkHex rest | _ => false end.

Definition asBitmapRoot (value : string) : result string :=
  if negb (is_bitmap_root value) then throw "bitmap root must be a 32-byte hex string"
  else Ok value.

Definition buildAuthenticatedBitmapProofContext (bitIndex treeSize : num) (expectedRoot : string) :
    result AuthenticatedBitmapProofContext :=
  b ← asBitmapBitIndex bitIndex;
  t ← asAuthenticatedBitmapTreeSize treeSize;
  r ← asBitmapRoot expectedRoot;
  Ok (mkContext b t r).

Fixpoint positions_loop (fuel : nat) (currentIndex levelSize : Z) : list position :=
  match fuel with
  | O => []
  | S f =>
      if Z.ltb 1 levelSize then
        let siblingIndex :=
          if Z.eqb (currentIndex mod 2) 0 then currentIndex + 1 else currentIndex - 1 in
        let here := if Z.ltb siblingIndex levelSize
                    then [if Z.eqb (currentIndex mod 2) 0 then right else left] else [] in
        here ++ positions_loop f (currentIndex / 2) (ceil_div levelSize 2)
      else []
  end.

Definition deriveAuditPathPositions (leafIndex leafCount : Z) : list position :=
  positions_loop (Rfc6962.range_fuel leafCount) leafIndex leafCount.

Definition isValidAuthenticatedTreeShape (treeSize bitIndex leafIndex : Z)
    (path : list path_node) : bool :=
  if negb (safe_Z treeSize) || Z.leb treeSize 0 then false
  else if Z.leb treeSize bitIndex then false
  else
    let leafCount := ceil_div treeSize BITMAP_CHUNK_BITS in
    if Z.leb leafCount leafIndex then false
    else bool_decide (map node_position path = deriveAuditPathPositions leafIndex leafCount).

(** The bits from [bitOffset] to the end of the chunk are zero. *)
Fixpoint padding_loop (n : nat) (chunkHex : string) (bitOffset : Z) : result bool :=
  match n with
  | O => Ok true
  | S n' =>
      bit ← extractBitFromBitmapChunkHex chunkHex bitOffset;
      if (bit : bool) then Ok false else padding_loop n' chunkHex (bitOffset + 1)
  end.

Definition hasZeroUnusedPadding (chunkHex : string) (treeSize leafIndex : Z) : result bool :=
  let leafCount := ceil_div treeSize BITMAP_CHUNK_BITS in
  if negb (Z.eqb leafIndex (leafCount - 1)) then Ok true
  else
    let usedBitsInLeaf := treeSize mod BITMAP_CHUNK_BITS in
    if Z.eqb usedBitsInLeaf 0 then Ok true
    else padding_loop (Z.to_nat (BITMAP_CHUNK_BITS - usedBitsInLeaf)) chunkHex usedBitsInLeaf.

(** The loop over the audit path: [None] is the early return on a malformed node. *)
Fixpoint fold_path (path : list path_node) (currentHash : string) : result (option string) :=
  match path with
  | [] => Ok (Some currentHash)
  | pathNode :: rest =>
      if negb (isBitmapChunkHex (node_hash_hex pathNode)) then Ok None
      else
        h ← match node_position pathNode with
            | left => hashBitmapInternalNodeHex (node_hash_hex pathNode) currentHash
            | right => hashBitmapInternalNodeHex currentHash (node_hash_hex pathNode)
            end;
        fold_path rest h
  end.

Definition with_0x (s : string) : string :=
  match s with String "0" (String "x" _) => s | _ => ("0x" +:+ s)%string end.

Definition verifyBitmapMerkleProof (chunk : string) (path : list path_node)
    (context : AuthenticatedBitmapProofContext) : result BitmapVerificationResult :=
  let bitIndex := ctx_bitIndex context in
  leaf ← asBitmapLeafIndex (NInt (calculateBitmapLeafIndex bitIndex));
  offset ← asBitmapBitOffset (NInt (calculateBitmapBitOffset bitIndex));
  let invalid := mkBitmapResult false false leaf offset in
  if negb (isValidAuthenticatedTreeShape (ctx_treeSize context) bitIndex leaf path) then Ok invalid
  else if negb (isBitmapChunkHex chunk) then Ok invalid
  else
    padded ← hasZeroUnusedPadding chunk (ctx_treeSize context) leaf;
    if negb padded then Ok invalid
    else
      bit ← extractBitFromBitmapChunkHex chunk offset;
      start ← hashBitmapLeafChunkHex chunk;
      final ← fold_path path start;
      match final with
      | None => Ok (mkBitmapResult false bit leaf offset)
      | Some currentHash =>
          let computedRoot := ("0x" +:+ currentHash)%string in
          Ok (mkBitmapResult (String.eqb computedRoot (with_0x (ctx_expectedRoot context)))
                bit leaf offset)
      end.

(** ** bitmap-verifier.ts *)

Record BitmapProofResponse := mkProofResponse {
  response_leafChunk : string;
  response_auditPath : list path_node;
}.

Definition index_for_result (bitIndex : num) : Z :=
  if isSafeInteger bitIndex && num_leb (NInt 0) bitIndex then num_Z bitIndex else 0.

Definition safeLeafIndexForResult (bitIndex : num) : result Z :=
  asBitmapLeafIndex (NInt (calculateBitmapLeafIndex (index_for_result bitIndex))).

Definition safeBitOffsetForResult (bitIndex : num) : result Z :=
  asBitmapBitOffset (NInt (calculateBitmapBitOffset (index_for_result bitIndex))).

Definition verifyBitmapProof (proofResponse : BitmapProofResponse) (bitIndex : num)
    (expectedRoot : string) (treeSize : num) : result BitmapVerificationResult :=
  match buildAuthenticatedBitmapProofContext bitIndex treeSize expectedRoot with
  | Ok context =>
      verifyBitmapMerkleProof (response_leafChunk proofResponse)
        (response_auditPath proofResponse) context
  | Err _ =>
      l ← safeLeafIndexForResult bitIndex;
      o ← safeBitOffsetForResult bitIndex;
      Ok (mkBitmapResult false false l o)
  end.

Definition verifyAdmittedBitmapProof (myIndex : num) (expectedRoot : string)
    (proof : BitmapProofResponse) (treeSizeValue : num) : result BitmapVerificationResult :=
  bitIndex ← asBitmapBitIndex myIndex;
  treeSize ← asAuthenticatedBitmapTreeSize treeSizeValue;
  verifyBitmapProof proof (NInt bitIndex) expectedRoot (NInt treeSize).

(** [verifyMyVoteWasCounted] adds a fixed privacy notice to this result. *)
Definition verifyMyVoteWasCounted (myIndex : num) (includedBitmapRoot : string)
    (proof : BitmapProofResponse) (treeSize : num) : result BitmapVerificationResult :=
  verifyAdmittedBitmapProof myIndex includedBitmapRoot proof treeSize.

Inductive VoteInclusionStatus : Type :=
| counted | presented_but_invalid | not_presented | unknown_excluded.

Record ExplainedVoteInclusionResult := mkExplained {
  explained : BitmapVerificationResult;
  seen : option bool;
  statusDetail : VoteInclusionStatus;
}.

Definition explainVoteInclusionStatus (myIndex : num) (includedBitmapRoot : string)
    (seenBitmapRoot : option string) (includedProof : BitmapProofResponse)
    (seenProof : option BitmapProofResponse) (treeSize : num) :
    result ExplainedVoteInclusionResult :=
  includedResult ← verifyMyVoteWasCounted myIndex includedBitmapRoot includedProof treeSize;
  if negb (valid includedResult) then Ok (mkExplained includedResult None unknown_excluded)
  else if included includedResult then Ok (mkExplained includedResult (Some true) counted)
  else
    match seenBitmapRoot, seenProof with
    | Some root, Some proof =>
        if negb (str_truthy root) then Ok (mkExplained includedResult None unknown_excluded)
        else
          seenResult ← verifyAdmittedBitmapProof myIndex root proof treeSize;
          Ok (mkExplained includedResult
                (if valid seenResult then Some (included seenResult) else None)
                (if valid seenResult
                 then if included seenResult then presented_but_invalid else not_presented
                 else unknown_excluded))
    | _, _ => Ok (mkExplained includedResult None unknown_excluded)
    end.

End with_noble.
End Bitmap.
