(* ===== verification/BitmapFacts.v ===== *)
(** The bitmap tree built level by level is the Merkle tree hash of RFC 6962
    over the chunks, chunks hold the bits they should, and the proof of one bit
    is complete and sound. *)
From S2P Require Import Prelude.
From S2P Require Import JsNumber.
From S2P Require Import Hex.
From S2P Require Import Rfc6962.
From S2P Require Import MerkleSpec.
From S2P Require Import Bitmap.
Import Bitmap.

(** ** Bytes as sequences of bits *)

(** [bs] holds the bit [f (8 j + k)] at bit [k] of byte [j]. *)
Definition holds (bs : bytes) (f : Z -> bool) : Prop :=
  forall j b, znth bs j = Some b ->
    0 <= b < 256 /\ forall k, 0 <= k < 8 -> Z.testbit b k = f (8 * j + k).

Lemma byte_ext a b :
  0 <= a < 256 -> 0 <= b < 256 -> (forall k, 0 <= k < 8 -> Z.testbit a k = Z.testbit b k) -> a = b.
Proof.
  intros Ha Hb H. apply Z.bits_inj'. intros k Hk. destruct (Z_lt_ge_dec k 8); [by apply H |].
  assert (Hz : forall x, 0 <= x < 256 -> Z.testbit x k = false).
  { intros x Hx. destruct (Z.eq_dec x 0) as [-> |]; [apply Z.bits_0 |].
    apply Z.bits_above_log2; [lia |]. apply Z.lt_le_trans with 8; [| lia].
    apply Z.log2_lt_pow2; lia. }
  by rewrite !Hz.
Qed.

Lemma holds_unique bs bs' f : length bs = length bs' -> holds bs f -> holds bs' f -> bs = bs'.
Proof.
  intros Hl H H'. apply list_eq. intros i.
  destruct (bs !! i) as [b |] eqn:E.
  - destruct (lookup_lt_is_Some_2 bs' i) as [b' E']; [apply lookup_lt_Some in E; lia |].
    rewrite E'. f_equal. rewrite <- znth_of_nat in E, E'.
    destruct (H _ _ E) as [Hb Hk], (H' _ _ E') as [Hb' Hk'].
    apply byte_ext; [done | done |]. intros k Hk0. by rewrite Hk, Hk'.
  - apply lookup_ge_None in E. symmetry. apply lookup_ge_None. lia.
Qed.

Lemma holds_ext bs f g :
  (forall i, 0 <= i < 8 * zlength bs -> f i = g i) -> holds bs f -> holds bs g.
Proof.
  intros Hfg H j b E. destruct (H j b E) as [Hb Hk]. split; [done |]. intros k Hk0.
  rewrite Hk by done. apply Hfg. apply znth_Some_range in E. lia.
Qed.

Lemma znth_insert {A} (l : list A) i j x :
  0 <= i < zlength l -> 0 <= j ->
  znth (<[Z.to_nat i := x]> l) j = if Z.eqb i j then Some x else znth l j.
Proof.
  intros Hi Hj. unfold znth, zlength in *. destruct (Z.ltb_spec j 0); [lia |].
  destruct (Z.eqb_spec i j) as [-> | Hne].
  - rewrite list_lookup_insert_eq by lia. done.
  - rewrite list_lookup_insert_ne by lia. done.
Qed.

Lemma testbit_pow2 o k : 0 <= o -> 0 <= k -> Z.testbit (Z.shiftl 1 o) k = Z.eqb k o.
Proof.
  intros Ho Hk. rewrite Z.shiftl_1_l. destruct (Z.eqb_spec k o) as [-> |].
  - by apply Z.pow2_bits_true.
  - apply Z.pow2_bits_false. lia.
Qed.

Lemma byte_lor_range b o : 0 <= b < 256 -> 0 <= o < 8 -> 0 <= Z.lor b (Z.shiftl 1 o) < 256.
Proof.
  intros Hb Ho. rewrite Z.shiftl_1_l.
  assert (0 < 2 ^ o) by (apply Z.pow_pos_nonneg; lia).
  assert (0 <= Z.lor b (2 ^ o)) by (apply Z.lor_nonneg; lia). split; [done |].
  assert (Hlog : Z.log2 (Z.lor b (2 ^ o)) < 8); [| apply Z.log2_lt_pow2 in Hlog; [done |]].
  - rewrite Z.log2_lor, Z.log2_pow2 by lia. apply Z.max_lub_lt; [| lia].
    destruct (Z.eq_dec b 0) as [-> |]; [done |]. apply Z.log2_lt_pow2; lia.
  - destruct (Z.eq_dec (Z.lor b (2 ^ o)) 0) as [E |]; [| lia].
    apply Z.lor_eq_0_iff in E as [_ E]. lia.
Qed.

Lemma set_bit_ok bs f i :
  holds bs f -> 0 <= i < 8 * zlength bs ->
  exists bs', set_bit bs (i / 8) (i mod 8) = Ok bs' /\ length bs' = length bs /\
    holds bs' (fun j => f j || Z.eqb j i).
Proof.
  intros H Hi. assert (Hd := Z.div_mod i 8). assert (Hm := Z.mod_pos_bound i 8).
  assert (Hr : 0 <= i / 8 < zlength bs) by lia.
  destruct (znth bs (i / 8)) as [b |] eqn:E.
  2: { unfold znth, zlength in *. destruct (Z.ltb_spec (i / 8) 0); [lia |].
       apply lookup_ge_None in E. lia. }
  unfold set_bit. rewrite E. eexists. split_and!; [done | apply length_insert |].
  destruct (H _ _ E) as [Hb Hk]. intros j b' Ej.
  assert (Hj := znth_Some_range _ _ _ Ej). rewrite znth_insert in Ej by lia.
  destruct (Z.eqb_spec (i / 8) j) as [<- | Hne].
  - injection Ej as <-. split; [apply byte_lor_range; lia |]. intros k Hk0.
    rewrite Z.lor_spec, Hk, testbit_pow2 by lia. f_equal.
    destruct (Z.eqb_spec k (i mod 8)), (Z.eqb_spec (8 * (i / 8) + k) i); lia || done.
  - destruct (H _ _ Ej) as [Hb' Hk']. split; [done |]. intros k Hk0. rewrite Hk' by done.
    destruct (Z.eqb_spec (8 * j + k) i); [| by rewrite orb_false_r]. exfalso. lia.
Qed.

(** The bits of a list, and false beyond its end. *)
Definition bit_at (bits : list bool) (i : Z) : bool :=
  match znth bits i with Some b => b | None => false end.

Lemma znth_cons {A} (x : A) l i : 0 < i -> znth (x :: l) i = znth l (i - 1).
Proof.
  intros Hi. unfold znth. destruct (Z.ltb_spec i 0), (Z.ltb_spec (i - 1) 0); try lia.
  by replace (Z.to_nat i) with (S (Z.to_nat (i - 1))) by lia.
Qed.

Lemma znth_neg {A} (l : list A) i : i < 0 -> znth l i = None.
Proof. intros Hi. unfold znth. by destruct (Z.ltb_spec i 0); [| lia]. Qed.

Lemma bit_at_nil i : bit_at [] i = false.
Proof. unfold bit_at, znth. by destruct (Z.ltb i 0). Qed.

Lemma bit_at_cons b bits i :
  bit_at (b :: bits) i = if Z.eqb i 0 then b else bit_at bits (i - 1).
Proof.
  unfold bit_at. destruct (Z.eqb_spec i 0) as [-> |]; [done |].
  destruct (Z_lt_ge_dec i 0).
  - by rewrite !znth_neg by lia.
  - by rewrite znth_cons by lia.
Qed.

Lemma pack_loop_ok bits : forall index bs f,
  holds bs f -> 0 <= index -> index + zlength bits <= 8 * zlength bs ->
  exists bs', pack_loop bits index bs = Ok bs' /\ length bs' = length bs /\
    holds bs' (fun j => f j || bit_at bits (j - index)).
Proof.
  induction bits as [| b bits IH]; intros index bs f H Hi Hl; cbn [pack_loop].
  - exists bs. split_and!; [done | done |]. eapply holds_ext; [| done].
    intros i _. by rewrite bit_at_nil, orb_false_r.
  - assert (Hc : zlength (b :: bits) = zlength bits + 1) by (unfold zlength; simpl; lia).
    assert (Hz := zlength_nonneg bits).
    assert (Hext : forall g j, (forall j, g j = f j || (b && Z.eqb j index)) ->
      (g j || bit_at bits (j - (index + 1))) = (f j || bit_at (b :: bits) (j - index))).
    { intros g j ->. rewrite bit_at_cons. replace (j - index - 1) with (j - (index + 1)) by lia.
      destruct (Z.eqb_spec j index), (Z.eqb_spec (j - index) 0); try lia.
      - assert (Hn : bit_at bits (j - (index + 1)) = false).
        { unfold bit_at. by rewrite znth_neg by lia. }
        rewrite Hn. by destruct b, (f j).
      - by destruct b, (f j). }
    destruct b.
    + destruct (set_bit_ok bs f index H) as (bs1 & E1 & L1 & H1); [lia |].
      rewrite E1. cbn [mbind result_bind].
      destruct (IH (index + 1) bs1 _ H1) as (bs2 & E2 & L2 & H2);
        [lia | unfold zlength in *; lia |].
      exists bs2. split_and!; [done | congruence |]. eapply holds_ext; [| exact H2].
      intros i _. by apply (Hext (fun j => f j || Z.eqb j index)).
    + destruct (IH (index + 1) bs f H) as (bs2 & E2 & L2 & H2); [lia | lia |].
      exists bs2. split_and!; [done | done |]. eapply holds_ext; [| exact H2].
      intros i _. apply (Hext f). intros. by rewrite orb_false_r.
Qed.

Lemma zeros_length n : 0 <= n -> zlength (zeros n) = n.
Proof. intros Hn. unfold zeros, zlength. rewrite repeat_length. lia. Qed.

Lemma znth_zeros n j b : znth (zeros n) j = Some b -> b = 0.
Proof.
  unfold znth, zeros. destruct (Z.ltb j 0); [done |]. intros E%list_elem_of_lookup_2.
  apply list_elem_of_In, repeat_spec in E. done.
Qed.

Lemma holds_zeros n : holds (zeros n) (fun _ => false).
Proof. intros j b ->%znth_zeros. split; [lia |]. intros k _. apply Z.bits_0. Qed.

Lemma ceil_div_spec a b : 0 < b -> a <= b * ceil_div a b < a + b.
Proof.
  intros Hb. unfold ceil_div. assert (Hd := Z.div_mod (- a) b). assert (Hm := Z.mod_pos_bound (- a) b).
  lia.
Qed.

Lemma pack_ok bits :
  exists bs, packBitmapBitsToBytes bits = Ok bs /\ zlength bs = ceil_div (zlength bits) 8 /\
    holds bs (bit_at bits).
Proof.
  assert (Hc := ceil_div_spec (zlength bits) 8 ltac:(lia)). assert (Hz := zlength_nonneg bits).
  destruct (pack_loop_ok bits 0 (zeros (ceil_div (zlength bits) 8)) _ (holds_zeros _))
    as (bs & E & L & H); [lia | rewrite zeros_length by lia; lia |].
  exists bs. split_and!; [done | |].
  - unfold zlength in *. rewrite L. fold (zlength (zeros (ceil_div (Z.of_nat (length bits)) 8))).
    apply zeros_length. lia.
  - eapply holds_ext; [| exact H]. intros i _. simpl. by rewrite Z.sub_0_r.
Qed.

(** ** Chunks *)

Lemma chunk_loop_pack bits : forall i bs, chunk_loop bits i bs = pack_loop bits i bs.
Proof.
  induction bits as [| b bits IH]; intros i bs; simpl; [done |].
  destruct b; [| done]. destruct (set_bit bs (i / 8) (i mod 8)); simpl; [apply IH | done].
Qed.

Lemma zlength_of_nat {A} (l : list A) n : zlength l = n -> length l = Z.to_nat n.
Proof. unfold zlength. lia. Qed.

Lemma bit_at_slice bitmap start n j :
  0 <= start -> 0 <= j < n ->
  bit_at (take (Z.to_nat (Z.min (start + n) (zlength bitmap) - start)) (drop (Z.to_nat start) bitmap)) j
  = bit_at bitmap (start + j).
Proof.
  intros Hs Hj. unfold bit_at, znth, zlength.
  destruct (Z.ltb_spec j 0), (Z.ltb_spec (start + j) 0); try lia.
  destruct (Z_lt_ge_dec (start + j) (Z.of_nat (length bitmap))).
  - rewrite lookup_take_lt by lia. rewrite lookup_drop.
    by replace (Z.to_nat start + Z.to_nat j)%nat with (Z.to_nat (start + j)) by lia.
  - rewrite (lookup_ge_None_2 bitmap) by lia. by rewrite lookup_take_ge by lia.
Qed.

(** The chunk of leaf [i]: 32 bytes that hold the bits [256 i .. 256 i + 255]. *)
Lemma getBitmapLeafChunkBytes_ok bitmap i :
  0 <= i ->
  exists c, getBitmapLeafChunkBytes bitmap i = Ok c /\ length c = 32%nat /\
    holds c (fun j => bit_at bitmap (256 * i + j)).
Proof.
  intros Hi. unfold getBitmapLeafChunkBytes. rewrite chunk_loop_pack.
  set (slice := take _ _).
  assert (Hs : zlength slice <= 256).
  { unfold slice, zlength. rewrite length_take, length_drop.
    unfold BITMAP_CHUNK_BITS, BITMAP_CHUNK_BYTES. lia. }
  destruct (pack_loop_ok slice 0 (zeros 32) _ (holds_zeros _)) as (c & E & L & H);
    [lia | rewrite zeros_length by lia; lia |].
  exists c. split_and!; [done | by rewrite L |]. eapply holds_ext; [| exact H].
  intros j Hj. simpl. rewrite Z.sub_0_r. unfold slice.
  rewrite bit_at_slice.
  - f_equal. unfold BITMAP_CHUNK_BITS, BITMAP_CHUNK_BYTES. lia.
  - unfold BITMAP_CHUNK_BITS, BITMAP_CHUNK_BYTES. lia.
  - unfold zlength in Hj. rewrite L in Hj. change (length (zeros 32)) with 32%nat in Hj.
    unfold BITMAP_CHUNK_BITS, BITMAP_CHUNK_BYTES. lia.
Qed.

Lemma znth_app_l {A} (l k : list A) i : i < zlength l -> znth (l ++ k) i = znth l i.
Proof.
  unfold znth, zlength. intros Hi. destruct (Z.ltb_spec i 0); [done |].
  apply lookup_app_l. lia.
Qed.

Lemma znth_app_r {A} (l k : list A) i : zlength l <= i -> znth (l ++ k) i = znth k (i - zlength l).
Proof.
  unfold znth, zlength. intros Hi. destruct (Z.ltb_spec i 0), (Z.ltb_spec (i - Z.of_nat (length l)) 0); try lia.
  rewrite lookup_app_r by lia. f_equal. lia.
Qed.

Lemma chunk_at_length bs o : length (chunk_at bs o) = 32%nat.
Proof.
  unfold chunk_at. assert (Hl : (length (take 32 (drop (Z.to_nat o) bs)) <= 32)%nat)
    by (rewrite length_take; lia).
  rewrite length_app. unfold zeros. rewrite repeat_length. unfold zlength, BITMAP_CHUNK_BYTES. lia.
Qed.

Lemma chunk_at_holds bs f o :
  holds bs f -> 0 <= o -> (forall i, 8 * zlength bs <= i -> f i = false) ->
  holds (chunk_at bs o) (fun i => f (8 * o + i)).
Proof.
  intros H Ho Hf j b E. assert (Hj := znth_Some_range _ _ _ E).
  assert (H32 : j < 32) by (unfold zlength in Hj; rewrite chunk_at_length in Hj; lia).
  unfold chunk_at in E. set (sub := take 32 (drop (Z.to_nat o) bs)) in *.
  destruct (Z_lt_ge_dec j (zlength sub)) as [Hlt | Hge].
  - rewrite znth_app_l in E by done.
    assert (E' : znth bs (o + j) = Some b).
    { unfold sub, znth in *. destruct (Z.ltb_spec j 0); [lia |].
      destruct (Z.ltb_spec (o + j) 0); [lia |].
      apply lookup_take_Some in E as [E _]. rewrite lookup_drop in E. rewrite <- E. f_equal. lia. }
    destruct (H _ _ E') as [Hb Hk]. split; [done |]. intros k Hk0. rewrite Hk by done. f_equal. lia.
  - rewrite znth_app_r in E by lia. apply znth_zeros in E as ->. split; [lia |].
    intros k Hk0. rewrite Z.bits_0. symmetry. apply Hf.
    unfold sub, zlength in Hge. rewrite length_take, length_drop in Hge.
    unfold zlength. lia.
Qed.

Lemma split_loop_spec fuel : forall bs o,
  0 <= o -> zlength bs <= o + 32 * Z.of_nat fuel ->
  zlength (split_loop fuel bs o) = Z.max 0 (ceil_div (zlength bs - o) 32) /\
  forall k, 0 <= k < zlength (split_loop fuel bs o) ->
    znth (split_loop fuel bs o) k = Some (chunk_at bs (o + 32 * k)).
Proof.
  induction fuel as [| f IH]; intros bs o Ho Hf; cbn [split_loop];
    assert (Hc := ceil_div_spec (zlength bs - o) 32 ltac:(lia)).
  - split; [change (zlength []) with 0; lia |]. intros k Hk. change (zlength []) with 0 in Hk. lia.
  - destruct (Z.ltb_spec o (zlength bs)).
    + unfold BITMAP_CHUNK_BYTES. destruct (IH bs (o + 32)) as [HL Hn]; [lia | lia |].
      assert (Hc' := ceil_div_spec (zlength bs - (o + 32)) 32 ltac:(lia)).
      assert (HS : zlength (chunk_at bs o :: split_loop f bs (o + 32))
                   = zlength (split_loop f bs (o + 32)) + 1) by (unfold zlength; simpl; lia).
      split; [lia |]. intros k Hk.
      destruct (Z.eq_dec k 0) as [-> |].
      * rewrite Z.mul_0_r, Z.add_0_r. done.
      * rewrite znth_cons by lia. rewrite Hn by lia. f_equal. f_equal. lia.
    + split; [change (zlength []) with 0; lia |]. intros k Hk. change (zlength []) with 0 in Hk. lia.
Qed.

Lemma split_ok bs :
  bs <> [] ->
  zlength (splitBitmapBytesIntoChunks bs) = ceil_div (zlength bs) 32 /\
  forall k, 0 <= k < ceil_div (zlength bs) 32 ->
    znth (splitBitmapBytesIntoChunks bs) k = Some (chunk_at bs (32 * k)).
Proof.
  intros Hne. assert (Hl : 1 <= zlength bs) by (destruct bs; [done | unfold zlength; simpl; lia]).
  assert (Hc := ceil_div_spec (zlength bs) 32 ltac:(lia)).
  destruct (split_loop_spec (length bs) bs 0) as [HL Hn]; [lia | unfold zlength; lia |].
  rewrite Z.sub_0_r, Z.max_r in HL by lia.
  unfold splitBitmapBytesIntoChunks.
  destruct (split_loop (length bs) bs 0) as [| c cs] eqn:E.
  - change (zlength []) with 0 in HL. lia.
  - split; [done |]. intros k Hk. rewrite Hn by lia. f_equal.
Qed.

(** The leaves of the tree are the chunks the proof generator sends. *)
Lemma chunks_ok bitmap :
  bitmap <> [] ->
  exists packed,
    packBitmapBitsToBytes bitmap = Ok packed /\
    zlength (splitBitmapBytesIntoChunks packed) = ceil_div (zlength bitmap) 256 /\
    forall i, 0 <= i < ceil_div (zlength bitmap) 256 ->
      exists c, znth (splitBitmapBytesIntoChunks packed) i = Some c /\
        getBitmapLeafChunkBytes bitmap i = Ok c /\ length c = 32%nat /\
        holds c (fun j => bit_at bitmap (256 * i + j)).
Proof.
  intros Hne. assert (Hl : 1 <= zlength bitmap) by (destruct bitmap; [done | unfold zlength; simpl; lia]).
  destruct (pack_ok bitmap) as (packed & E & L & H).
  assert (H8 := ceil_div_spec (zlength bitmap) 8 ltac:(lia)).
  assert (H256 := ceil_div_spec (zlength bitmap) 256 ltac:(lia)).
  assert (H32 := ceil_div_spec (zlength packed) 32 ltac:(lia)).
  assert (Hp : packed <> []) by (intros ->; change (zlength []) with 0 in L; lia).
  destruct (split_ok packed Hp) as [SL SN].
  assert (EC : ceil_div (zlength packed) 32 = ceil_div (zlength bitmap) 256) by lia.
  exists packed. rewrite EC in *. split_and!; [done | done |]. intros i Hi.
  destruct (getBitmapLeafChunkBytes_ok bitmap i) as (c & Ec & Lc & Hc); [lia |].
  exists c. split_and!; [| done | done | done].
  rewrite SN by done. f_equal.
  apply (holds_unique _ _ (fun j => bit_at bitmap (256 * i + j))); [| | done].
  - by rewrite chunk_at_length, Lc.
  - eapply holds_ext; [| apply (chunk_at_holds packed (bit_at bitmap) (32 * i)); [done | lia |]].
    + intros j _. cbv beta. f_equal. lia.
    + intros j Hj. unfold bit_at. destruct (znth bitmap j) eqn:Ej; [| done].
      apply znth_Some_range in Ej. lia.
Qed.

(** ** The tree *)

Lemma pair_ind {A} (P : list A -> Prop) :
  P [] -> (forall x, P [x]) -> (forall x y l, P l -> P (x :: y :: l)) -> forall l, P l.
Proof. intros H0 H1 H2. fix IH 1. intros [| x [| y l]]; [exact H0 | apply H1 | apply H2, IH]. Qed.

Section tree.
Context `{NobleLaws}.

Lemma hashBitmapLeafChunk_eq c : hashBitmapLeafChunk c = leaf_hash c.
Proof. done. Qed.

Lemma hashBitmapInternalNode_eq l r : hashBitmapInternalNode l r = node_hash l r.
Proof. done. Qed.

Lemma next_level_app l1 : forall l2,
  Nat.even (length l1) = true -> next_level (l1 ++ l2) = next_level l1 ++ next_level l2.
Proof. induction l1 as [| x | x y l IH] using pair_ind; intros l2; simpl; [done | done |]. intros He. by rewrite IH. Qed.

Lemma next_level_length l : zlength (next_level l) = ceil_div (zlength l) 2.
Proof.
  induction l as [| x | x y l IH] using pair_ind; [done | done |].
  assert (E1 : zlength (x :: y :: l) = zlength l + 2) by (unfold zlength; simpl; lia).
  assert (E2 : zlength (next_level (x :: y :: l)) = zlength (next_level l) + 1) by (unfold zlength; simpl; lia).
  rewrite E2, IH, E1. assert (C1 := ceil_div_spec (zlength l) 2 ltac:(lia)).
  assert (C2 := ceil_div_spec (zlength l + 2) 2 ltac:(lia)). lia.
Qed.

(** [is_root l r]: [r] is the root of the tree of RFC 6962 over the nodes [l]. *)
Inductive is_root : list bytes -> bytes -> Prop :=
| is_root_one x : is_root [x] x
| is_root_split l a b :
    2 <= zlength l -> is_root (take (split_nat l) l) a -> is_root (drop (split_nat l) l) b ->
    is_root l (node_hash a b).

Lemma is_root_one_inv x r : is_root [x] r -> r = x.
Proof. inversion 1 as [| l a b Hl]; [done |]. unfold zlength in Hl. simpl in Hl. lia. Qed.

Lemma split_even n : 3 <= n -> exists j, split_of n = 2 * j /\ 1 <= j.
Proof.
  intros Hn. exists (2 ^ (Z.log2 (n - 1) - 1)).
  assert (Hl : 1 <= Z.log2 (n - 1)) by (apply Z.log2_le_pow2; lia).
  split.
  - unfold split_of. rewrite <- Z.pow_succ_r by lia. f_equal. lia.
  - assert (0 < 2 ^ (Z.log2 (n - 1) - 1)) by (apply Z.pow_pos_nonneg; lia). lia.
Qed.

Lemma split_half n : 3 <= n -> 2 * split_of (ceil_div n 2) = split_of n.
Proof.
  intros Hn. destruct (split_even n Hn) as (j & Ej & Hj).
  destruct (split_of_spec n) as [Hk0 [Hk1 Hk2]]; [lia |].
  assert (Hc := ceil_div_spec n 2 ltac:(lia)). assert (Hlog : 1 <= Z.log2 (n - 1)) by (apply Z.log2_le_pow2; lia).
  rewrite (split_of_unique (ceil_div n 2) (Z.log2 (n - 1) - 1)).
  - unfold split_of. rewrite <- Z.pow_succ_r by lia. f_equal. lia.
  - lia.
  - assert (E : split_of n = 2 * 2 ^ (Z.log2 (n - 1) - 1)).
    { unfold split_of. rewrite <- Z.pow_succ_r by lia. f_equal. lia. }
    lia.
Qed.

Lemma is_root_next l r : is_root l r -> 2 <= zlength l -> is_root (next_level l) r.
Proof.
  induction 1 as [x | l a b Hl Ha IHa Hb IHb]; intros Hl2; [unfold zlength in Hl2; simpl in Hl2; lia |].
  destruct (split_lengths l Hl) as [LL LR]. destruct (split_of_spec _ Hl) as [S0 [S1 S2]].
  destruct (Z.eq_dec (zlength l) 2) as [E2 | Hne].
  { destruct l as [| x [| y [| ? ?]]]; unfold zlength in E2; simpl in E2; try lia.
    apply is_root_one_inv in Ha as ->. apply is_root_one_inv in Hb as ->. apply is_root_one. }
  destruct (split_even (zlength l)) as (j & Ej & Hj); [lia |].
  assert (Heven : Nat.even (length (take (split_nat l) l)) = true).
  { apply Nat.even_spec. exists (Z.to_nat j). unfold zlength in LL, Ej. lia. }
  assert (EN : next_level l = next_level (take (split_nat l) l) ++ next_level (drop (split_nat l) l)).
  { rewrite <- next_level_app by done. by rewrite take_drop. }
  assert (EL := next_level_length (take (split_nat l) l)).
  assert (EA := next_level_length l). assert (EH := split_half (zlength l) ltac:(lia)).
  assert (C1 := ceil_div_spec (zlength (take (split_nat l) l)) 2 ltac:(lia)).
  assert (C2 := ceil_div_spec (zlength l) 2 ltac:(lia)).
  assert (ES : split_nat (next_level l) = length (next_level (take (split_nat l) l))).
  { unfold split_nat at 1. rewrite EA. unfold zlength in EL, LL, EH, C1 |- *. lia. }
  apply is_root_split.
  - rewrite EA. lia.
  - rewrite ES, EN, take_app_length. apply IHa. lia.
  - rewrite ES, EN, drop_app_length.
    destruct (Z.eq_dec (zlength (drop (split_nat l) l)) 1) as [E1 |]; [| apply IHb; lia].
    destruct (drop (split_nat l) l) as [| y [| ? ?]]; unfold zlength in E1; simpl in E1; try lia. done.
Qed.

Lemma is_root_MTH cs : cs <> [] -> is_root (map hashBitmapLeafChunk cs) (MTH cs).
Proof.
  remember (length cs) as n eqn:Hn. revert cs Hn.
  induction n as [n IH] using (well_founded_induction lt_wf). intros cs Hn Hne.
  destruct (decide (2 <= zlength cs)) as [Hl | Hl].
  - destruct (split_nat_range cs Hl) as [Hs1 Hs2]. rewrite (MTH_split cs) by done.
    assert (EL : zlength (map hashBitmapLeafChunk cs) = zlength cs) by (unfold zlength; by rewrite length_map).
    assert (ES : split_nat (map hashBitmapLeafChunk cs) = split_nat cs) by (unfold split_nat; by rewrite EL).
    apply is_root_split; [lia | |]; rewrite ES.
    + rewrite firstn_map. apply (IH (split_nat cs)); [lia | rewrite length_take; lia |].
      intros E. apply (f_equal length) in E. rewrite length_take in E. simpl in E. lia.
    + rewrite skipn_map. apply (IH (n - split_nat cs)%nat); [lia | rewrite length_drop; lia |].
      intros E. apply (f_equal length) in E. rewrite length_drop in E. simpl in E. lia.
  - destruct cs as [| c [| ? ?]]; [done | apply is_root_one | unfold zlength in Hl; simpl in Hl; lia].
Qed.

Lemma levels_root f : forall l r,
  (length l <= S f)%nat -> is_root l r -> last (l :: levels_loop f l) ≫= head = Some r.
Proof.
  induction f as [| f IH]; intros l r Hf Hr; cbn [levels_loop].
  - destruct l as [| x [| ? ?]]; [| | simpl in Hf; lia].
    + inversion Hr as [| ? ? ? Hl]. unfold zlength in Hl. simpl in Hl. lia.
    + by apply is_root_one_inv in Hr as ->.
  - destruct (Z.ltb_spec 1 (zlength l)).
    + apply is_root_next in Hr; [| lia]. rewrite last_cons.
      assert (EL := next_level_length l). assert (C := ceil_div_spec (zlength l) 2 ltac:(lia)).
      specialize (IH (next_level l) r). rewrite last_cons in IH.
      destruct (last (levels_loop f (next_level l))) as [x |] eqn:E.
      * rewrite last_cons, E. apply IH; [| done]. unfold zlength in *. lia.
      * rewrite last_cons, E. apply IH; [| done]. unfold zlength in *. lia.
    + destruct l as [| x [| ? ?]]; [| | unfold zlength in *; simpl in *; lia].
      * inversion Hr as [| ? ? ? Hl]. unfold zlength in Hl. simpl in Hl. lia.
      * by apply is_root_one_inv in Hr as ->.
Qed.

Lemma computeBitmapMerkleRootBytes_MTH cs :
  cs <> [] -> computeBitmapMerkleRootBytes (map hashBitmapLeafChunk cs) = Ok (MTH cs).
Proof.
  intros Hne. unfold computeBitmapMerkleRootBytes, buildBitmapMerkleTreeByteLevels.
  assert (Hr := is_root_MTH cs Hne).
  destruct (map hashBitmapLeafChunk cs) as [| x l] eqn:E; [by destruct cs |]. rewrite <- E in *.
  by rewrite (levels_root _ _ _ (Nat.le_succ_diag_r _) Hr).
Qed.

(** ** One step up the tree *)

Definition node32 (b : bytes) : Prop := is_bytes b /\ length b = 32%nat.

Lemma node_hash_32 a b : node32 (node_hash a b).
Proof. split; [apply sha256_bytes | apply sha256_length]. Qed.

Lemma next_level_32 l : Forall node32 l -> Forall node32 (next_level l).
Proof.
  induction l as [| x | x y l IH] using pair_ind; simpl; [done | done |].
  intros (_ & [_ Hl]%Forall_cons_1)%Forall_cons_1. apply Forall_cons_2; [apply node_hash_32 | auto].
Qed.

Definition sibling_index (i : Z) : Z := if Z.eqb (i mod 2) 0 then i + 1 else i - 1.

Lemma znth_lookup {A} (l : list A) i : 0 <= i < zlength l -> exists x, znth l i = Some x.
Proof.
  intros Hi. unfold znth, zlength in *. destruct (Z.ltb_spec i 0); [lia |].
  apply lookup_lt_is_Some_2. lia.
Qed.

(** The pair that node [i] belongs to, or the promotion of an unpaired node. *)
Lemma next_level_step l : forall i x,
  znth l i = Some x ->
  if Z.ltb (sibling_index i) (zlength l) then
    exists y, znth l (sibling_index i) = Some y /\
      znth (next_level l) (i / 2) =
        Some (if Z.eqb (i mod 2) 0 then node_hash x y else node_hash y x)
  else i mod 2 = 0 /\ znth (next_level l) (i / 2) = Some x.
Proof.
  induction l as [| x0 | x0 y0 l IH] using pair_ind; intros i x Hx;
    assert (Hi := znth_Some_range _ _ _ Hx).
  - unfold zlength in Hi. simpl in Hi. lia.
  - unfold zlength in Hi. simpl in Hi. replace i with 0 in * by lia. by injection Hx as ->.
  - assert (EL : zlength (x0 :: y0 :: l) = zlength l + 2) by (unfold zlength; simpl; lia).
    assert (Hz := zlength_nonneg l).
    destruct (Z.eq_dec i 0) as [-> |].
    { injection Hx as ->. change (sibling_index 0) with 1.
      destruct (Z.ltb_spec 1 (zlength (x :: y0 :: l))); [| lia]. by exists y0. }
    destruct (Z.eq_dec i 1) as [-> |].
    { injection Hx as ->. change (sibling_index 1) with 0.
      destruct (Z.ltb_spec 0 (zlength (x0 :: x :: l))); [| lia]. by exists x0. }
    assert (Hx' : znth l (i - 2) = Some x).
    { rewrite !znth_cons in Hx by lia. by replace (i - 2) with (i - 1 - 1) by lia. }
    specialize (IH (i - 2) x Hx').
    assert (Em : (i - 2) mod 2 = i mod 2).
    { replace (i - 2) with (i + (-1) * 2) by lia. apply Z.mod_add. lia. }
    assert (Ed : (i - 2) / 2 = i / 2 - 1).
    { replace (i - 2) with (i + (-1) * 2) by lia. rewrite Z.div_add by lia. lia. }
    assert (Es : sibling_index (i - 2) = sibling_index i - 2).
    { unfold sibling_index. rewrite Em. destruct (Z.eqb (i mod 2) 0); lia. }
    assert (H2 : 1 <= i / 2) by (apply Z.div_le_lower_bound; lia).
    assert (Hs : 2 <= sibling_index i).
    { unfold sibling_index. destruct (Z.eqb_spec (i mod 2) 0); [lia |].
      assert (i <> 2) by (intros ->; done). lia. }
    rewrite Em, Ed, Es in IH. rewrite EL. cbn [next_level].
    assert (EN : forall h, znth (h :: next_level l) (i / 2) = znth (next_level l) (i / 2 - 1))
      by (intros h; apply znth_cons; lia).
    destruct (Z.ltb_spec (sibling_index i) (zlength l + 2)), (Z.ltb_spec (sibling_index i - 2) (zlength l));
      try lia.
    + destruct IH as (y & Hy & Hn). exists y. rewrite EN. split; [| done].
      rewrite !znth_cons by lia. by replace (sibling_index i - 1 - 1) with (sibling_index i - 2) by lia.
    + rewrite EN. done.
Qed.

Lemma fits_half n f : 2 <= n -> fits n (S f) -> fits (ceil_div n 2) f.
Proof.
  unfold fits. intros Hn Hf. assert (Hc := ceil_div_spec n 2 ltac:(lia)).
  rewrite Nat2Z.inj_succ, Z.pow_succ_r in Hf by lia. lia.
Qed.

(** ** Hex nodes *)

Lemma isBitmapChunkHex_decodes s :
  isBitmapChunkHex s = true ->
  exists b, hexToBytes s = Some b /\ node32 b /\ bytesToHex b = to_lower s.
Proof.
  unfold isBitmapChunkHex. intros E. bool_prop.
  match goal with E : slen s = 64 |- _ => rename E into Hl end.
  destruct (hexToBytes_total s) as [b Eb]; [done | |].
  { unfold slen in Hl. by replace (String.length s) with 64%nat by lia. }
  exists b. destruct (bytesToHex_hexToBytes s b Eb) as [Hb Ehex].
  assert (Hlen := bytesToHex_length b Hb). rewrite Ehex in Hlen.
  unfold to_lower in Hlen. rewrite string_map_length in Hlen. unfold slen in Hl.
  split_and!; [done | split; [done | lia] | done].
Qed.

Lemma node32_hex b : node32 b -> isBitmapChunkHex (bytesToHex b) = true.
Proof.
  intros [Hb Hl]. unfold isBitmapChunkHex. apply andb_true_iff. split.
  - eapply string_all_impl; [apply is_lower_hex_is_hex | by apply bytesToHex_lower].
  - unfold slen. rewrite bytesToHex_length, Hl by done. done.
Qed.

Lemma internal_hex_ok a b :
  node32 a -> node32 b ->
  hashBitmapInternalNodeHex (bytesToHex a) (bytesToHex b) = Ok (bytesToHex (node_hash a b)).
Proof.
  intros Ha Hb. unfold hashBitmapInternalNodeHex, lib_hexToBytes. rewrite !node32_hex by done.
  destruct Ha as [Ha _], Hb as [Hb _]. by rewrite !hexToBytes_bytesToHex by done.
Qed.

Lemma hex_inj a b : is_bytes a -> is_bytes b -> bytesToHex a = bytesToHex b -> a = b.
Proof.
  intros Ha Hb E. assert (Ea := hexToBytes_bytesToHex a Ha).
  rewrite E, hexToBytes_bytesToHex in Ea by done. by injection Ea.
Qed.

Lemma hex_truthy b : node32 b -> str_truthy (bytesToHex b) = true.
Proof.
  intros [Hb Hl]. assert (HL := bytesToHex_length b Hb). rewrite Hl in HL.
  by destruct (bytesToHex b).
Qed.

Lemma Forall_znth {A} (P : A -> Prop) l i x : Forall P l -> znth l i = Some x -> P x.
Proof. unfold znth. destruct (Z.ltb i 0); [done |]. intros H' E. by eapply Forall_lookup_1. Qed.

Lemma znth_map {A B} (g : A -> B) l i : znth (map g l) i = g <$> znth l i.
Proof. unfold znth. destruct (Z.ltb i 0); [done |]. apply list_lookup_fmap. Qed.

(** ** Completeness of the path *)

Lemma audit_loop_cons (l : list string) ls i :
  ls <> [] ->
  audit_loop (l :: ls) i =
    match znth l (sibling_index i) with
    | Some s => if str_truthy s
                then mkPathNode s (if Z.eqb (i mod 2) 0 then right else Bitmap.left) :: audit_loop ls (i / 2)
                else audit_loop ls (i / 2)
    | None => audit_loop ls (i / 2)
    end.
Proof. by destruct ls. Qed.

Lemma levels_loop_cons f l :
  2 <= zlength l -> (length l <= S (S f))%nat ->
  levels_loop (S f) l = next_level l :: levels_loop f (next_level l) /\
  (length (next_level l) <= S f)%nat.
Proof.
  intros Hl Hf. cbn [levels_loop]. destruct (Z.ltb_spec 1 (zlength l)); [| lia]. split; [done |].
  assert (EL := next_level_length l). assert (C := ceil_div_spec (zlength l) 2 ltac:(lia)).
  unfold zlength in *. lia.
Qed.

Lemma levels_loop_one f l : zlength l <= 1 -> levels_loop f l = [].
Proof. intros Hl. destruct f; simpl; [done |]. by destruct (Z.ltb_spec 1 (zlength l)); [lia |]. Qed.

Lemma positions_cons f i n :
  2 <= n ->
  positions_loop (S f) i n =
    (if Z.ltb (sibling_index i) n then [if Z.eqb (i mod 2) 0 then right else Bitmap.left] else [])
    ++ positions_loop f (i / 2) (ceil_div n 2).
Proof. intros Hn. cbn [positions_loop]. by destruct (Z.ltb_spec 1 n); [| lia]. Qed.

Lemma path_complete f : forall g l i x r,
  (length l <= S f)%nat -> fits (zlength l) g -> Forall node32 l ->
  znth l i = Some x -> is_root l r ->
  let path := audit_loop (map (map bytesToHex) (l :: levels_loop f l)) i in
  fold_path path (bytesToHex x) = Ok (Some (bytesToHex r)) /\
  map node_position path = positions_loop (S g) i (zlength l).
Proof.
  induction f as [| f IH]; intros g l i x r Hf Hg H32 Hx Hr; cbv zeta;
    assert (Hi := znth_Some_range _ _ _ Hx).
  all: destruct (decide (2 <= zlength l)) as [Hl | Hl].
  1: unfold zlength in Hl; lia.
  1, 3: rewrite levels_loop_one by lia; destruct l as [| y [| ? ?]]; unfold zlength in *; simpl in *; try lia;
    replace i with 0 in Hx by lia; injection Hx as ->; by apply is_root_one_inv in Hr as ->.
  destruct (levels_loop_cons f l Hl Hf) as [EL Hf']. rewrite EL. clear EL.
  destruct g as [| g]; [apply fits_0 in Hg; lia |].
  assert (Hg' := fits_half _ _ Hl Hg). rewrite <- next_level_length in Hg'.
  rewrite positions_cons, <- next_level_length by done.
  cbn [map]. rewrite audit_loop_cons by done. rewrite znth_map.
  assert (Hstep := next_level_step l i x Hx).
  apply is_root_next in Hr; [| done]. apply next_level_32 in H32 as H32'.
  assert (Hx32 := Forall_znth _ _ _ _ H32 Hx).
  destruct (Z.ltb_spec (sibling_index i) (zlength l)).
  - destruct Hstep as (y & Hy & Hn). rewrite Hy. cbn [fmap option_fmap option_map].
    assert (Hy32 := Forall_znth _ _ _ _ H32 Hy). rewrite hex_truthy by done.
    destruct (IH g (next_level l) (i / 2) _ r Hf' Hg' H32' Hn Hr) as [IH1 IH2].
    cbn [map] in IH1, IH2. cbn [fold_path map node_position app node_hash_hex]. rewrite IH2.
    rewrite node32_hex by done. cbn [negb]. split; [| done].
    destruct (Z.eqb (i mod 2) 0); rewrite internal_hex_ok by done; exact IH1.
  - destruct Hstep as [_ Hn].
    assert (Hnone : znth l (sibling_index i) = None).
    { unfold znth, zlength in *. destruct (Z.ltb (sibling_index i) 0); [done |].
      apply lookup_ge_None. lia. }
    rewrite Hnone. cbn [fmap option_fmap option_map].
    destruct (IH g (next_level l) (i / 2) _ r Hf' Hg' H32' Hn Hr) as [IH1 IH2].
    cbn [map] in IH1, IH2. by rewrite IH2.
Qed.

(** ** Soundness of the path *)

Definition lib_bytes (s : string) : bytes := match hexToBytes s with Some b => b | None => [] end.

(** The inputs the verifier hashes along the path. *)
Fixpoint fold_inputs (path : list path_node) (cur : bytes) : list bytes :=
  match path with
  | [] => []
  | p :: rest =>
      let sib := lib_bytes (node_hash_hex p) in
      let input := match node_position p with
                   | Bitmap.left => node_input sib cur
                   | right => node_input cur sib
                   end in
      input :: fold_inputs rest (sha256 input)
  end.

(** The inputs hashed to build the levels. *)
Fixpoint pair_inputs (l : list bytes) : list bytes :=
  match l with x :: y :: rest => node_input x y :: pair_inputs rest | _ => [] end.

Fixpoint level_inputs (fuel : nat) (l : list bytes) : list bytes :=
  match fuel with
  | O => []
  | S f => if Z.ltb 1 (zlength l) then pair_inputs l ++ level_inputs f (next_level l) else []
  end.

Lemma pair_inputs_spec l : forall i x y,
  znth l i = Some x -> znth l (sibling_index i) = Some y ->
  (if Z.eqb (i mod 2) 0 then node_input x y else node_input y x) ∈ pair_inputs l.
Proof.
  induction l as [| x0 | x0 y0 l IH] using pair_ind; intros i x y Hx Hy;
    assert (Hi := znth_Some_range _ _ _ Hx); assert (Hj := znth_Some_range _ _ _ Hy).
  - unfold zlength in Hi. simpl in Hi. lia.
  - unfold zlength, sibling_index in *. simpl in *. destruct (Z.eqb_spec (i mod 2) 0); [lia |].
    replace i with 0 in * by lia. done.
  - cbn [pair_inputs]. destruct (Z.eq_dec i 0) as [-> |].
    { injection Hx as ->. change (sibling_index 0) with 1 in Hy. injection Hy as ->.
      apply list_elem_of_here. }
    destruct (Z.eq_dec i 1) as [-> |].
    { injection Hx as ->. change (sibling_index 1) with 0 in Hy. injection Hy as ->.
      apply list_elem_of_here. }
    apply list_elem_of_further.
    assert (Em : (i - 2) mod 2 = i mod 2).
    { replace (i - 2) with (i + (-1) * 2) by lia. apply Z.mod_add. lia. }
    assert (Es : sibling_index (i - 2) = sibling_index i - 2).
    { unfold sibling_index. rewrite Em. destruct (Z.eqb (i mod 2) 0); lia. }
    assert (Hs : 2 <= sibling_index i).
    { unfold sibling_index. destruct (Z.eqb_spec (i mod 2) 0); [lia |].
      assert (i <> 2) by (intros ->; done). lia. }
    rewrite <- Em. apply IH.
    + rewrite !znth_cons in Hx by lia. by replace (i - 2) with (i - 1 - 1) by lia.
    + rewrite Es. rewrite !znth_cons in Hy by lia.
      by replace (sibling_index i - 2) with (sibling_index i - 1 - 1) by lia.
Qed.

Lemma internal_hex_inv l r h :
  hashBitmapInternalNodeHex l r = Ok h ->
  h = bytesToHex (node_hash (lib_bytes l) (lib_bytes r)) /\
  length (lib_bytes l) = 32%nat /\ length (lib_bytes r) = 32%nat.
Proof.
  unfold hashBitmapInternalNodeHex. destruct (isBitmapChunkHex l) eqn:El; [| done].
  destruct (isBitmapChunkHex r) eqn:Er; [| done]. cbn [negb orb].
  destruct (isBitmapChunkHex_decodes l El) as (bl & Ebl & [_ Hl] & _).
  destruct (isBitmapChunkHex_decodes r Er) as (br & Ebr & [_ Hr] & _).
  unfold lib_hexToBytes, lib_bytes. rewrite Ebl, Ebr. cbn [mbind result_bind]. by intros [= <-].
Qed.

Lemma lib_bytes_hex b : is_bytes b -> lib_bytes (bytesToHex b) = b.
Proof. intros Hb. unfold lib_bytes. by rewrite hexToBytes_bytesToHex. Qed.

(** One pair: the verifier's hash agrees with the tree's, so the nodes agree. *)
Lemma pair_sound s (a b c d : bytes) :
  node_hash a b = node_hash c d -> length a = length c ->
  node_input a b ∈ s -> node_input c d ∈ s -> (a = c /\ b = d) \/ collision_in s.
Proof.
  intros E Hl Ha Hc. destruct (same_hash s _ _ Ha Hc E) as [Eq | Hcol]; [left | by right].
  by apply node_input_inj in Eq.
Qed.

Lemma path_sound f : forall g l i x b r path,
  (length l <= S f)%nat -> fits (zlength l) g -> Forall node32 l ->
  znth l i = Some x -> is_root l r -> node32 b ->
  map node_position path = positions_loop (S g) i (zlength l) ->
  fold_path path (bytesToHex b) = Ok (Some (bytesToHex r)) ->
  b = x \/ collision_in (level_inputs (S f) l ++ fold_inputs path b).
Proof.
  induction f as [| f IH]; intros g l i x b r path Hf Hg H32 Hx Hr Hb Hp Hfold;
    assert (Hi := znth_Some_range _ _ _ Hx).
  all: destruct (decide (2 <= zlength l)) as [Hl | Hl].
  1: unfold zlength in Hl; lia.
  1, 3: left; assert (H32x := Forall_znth _ _ _ _ H32 Hx);
    destruct l as [| y [| ? ?]]; unfold zlength in *; simpl in *; try lia;
    replace i with 0 in Hx by lia; injection Hx as ->; apply is_root_one_inv in Hr as ->;
    destruct path; [| done]; injection Hfold as Hfold;
    apply hex_inj in Hfold; [done | apply Hb | apply H32x].
  destruct (levels_loop_cons f l Hl Hf) as [_ Hf'].
  destruct g as [| g]; [apply fits_0 in Hg; lia |].
  assert (Hg' := fits_half _ _ Hl Hg). rewrite <- next_level_length in Hg'.
  rewrite positions_cons, <- next_level_length in Hp by done.
  assert (Hstep := next_level_step l i x Hx).
  apply is_root_next in Hr; [| done]. apply next_level_32 in H32 as H32'.
  assert (Hx32 := Forall_znth _ _ _ _ H32 Hx).
  cbn [level_inputs]. destruct (Z.ltb_spec 1 (zlength l)); [| lia].
  change (if Z.ltb 1 (zlength (next_level l)) then _ else _) with (level_inputs (S f) (next_level l)).
  destruct (Z.ltb_spec (sibling_index i) (zlength l)).
  - destruct Hstep as (y & Hy & Hn). assert (Hin := pair_inputs_spec l i x y Hx Hy).
    destruct path as [| [sib pos] path]; [done |]. cbn [map node_position app] in Hp.
    injection Hp as -> Hp. cbn [fold_path node_hash_hex node_position fold_inputs] in *.
    destruct (isBitmapChunkHex sib) eqn:Esib; [| done]. cbn [negb] in Hfold.
    apply bind_Ok in Hfold as (h & Eh & Hfold).
    assert (Hy32 := Forall_znth _ _ _ _ H32 Hy).
    destruct (Z.eqb (i mod 2) 0); apply internal_hex_inv in Eh as (-> & L1 & L2);
      rewrite lib_bytes_hex in * by apply Hb.
    + destruct (IH g (next_level l) (i / 2) _ (node_hash b (lib_bytes sib)) r path Hf' Hg' H32' Hn Hr
                  (node_hash_32 _ _) Hp Hfold) as [E | Hc].
      2: { right. revert Hc. apply collision_in_mono. list_subset. }
      destruct (pair_sound (pair_inputs l ++ [node_input b (lib_bytes sib)]) _ _ _ _ E)
        as [[-> _] | Hc]; [destruct Hx32; congruence | list_member | list_member | by left |].
      right. revert Hc. apply collision_in_mono. list_subset.
    + destruct (IH g (next_level l) (i / 2) _ (node_hash (lib_bytes sib) b) r path Hf' Hg' H32' Hn Hr
                  (node_hash_32 _ _) Hp Hfold) as [E | Hc].
      2: { right. revert Hc. apply collision_in_mono. list_subset. }
      destruct (pair_sound (pair_inputs l ++ [node_input (lib_bytes sib) b]) _ _ _ _ E)
        as [[_ ->] | Hc]; [destruct Hy32; congruence | list_member | list_member | by left |].
      right. revert Hc. apply collision_in_mono. list_subset.
  - destruct Hstep as [_ Hn]. cbn [app] in Hp.
    destruct (IH g (next_level l) (i / 2) x b r path Hf' Hg' H32' Hn Hr Hb Hp Hfold) as [E | Hc];
      [by left |]. right. revert Hc. apply collision_in_mono. list_subset.
Qed.

(** ** Bits of a chunk *)

(** A statement about every integer below [n] is checked on each of them. *)
Lemma all_below (n : nat) (P : Z -> bool) :
  forallb P (map Z.of_nat (seq 0 n)) = true -> forall z, 0 <= z < Z.of_nat n -> P z = true.
Proof.
  rewrite forallb_forall. intros HP z Hz. apply HP, in_map_iff. exists (Z.to_nat z).
  split; [lia |]. apply in_seq. lia.
Qed.

Lemma js_and_bit b k :
  0 <= b < 256 -> 0 <= k < 8 -> negb (Z.eqb (js_and b (Z.shiftl 1 k)) 0) = Z.testbit b k.
Proof.
  intros Hb Hk.
  assert (HP := all_below 256 (fun b => forallb (fun k =>
    Bool.eqb (negb (Z.eqb (js_and b (Z.shiftl 1 k)) 0)) (Z.testbit b k)) (map Z.of_nat (seq 0 8)))
    ltac:(by vm_compute) b Hb).
  by apply Bool.eqb_prop, (all_below 8 _ HP).
Qed.

Lemma extract_ok s b f o :
  isBitmapChunkHex s = true -> hexToBytes s = Some b -> length b = 32%nat -> holds b f ->
  0 <= o < 256 -> extractBitFromBitmapChunkHex s o = Ok (f o).
Proof.
  intros Hs Hb Hl Hh Ho. unfold extractBitFromBitmapChunkHex, lib_hexToBytes. rewrite Hs, Hb.
  cbn [negb mbind result_bind]. unfold extractBitFromBitmapChunkBytes.
  unfold BITMAP_CHUNK_BITS, BITMAP_CHUNK_BYTES.
  destruct (Z.ltb_spec o 0); [lia |]. destruct (Z.leb_spec (32 * 8) o); [lia |]. cbn [orb].
  assert (Hd := Z.div_mod o 8). assert (Hm := Z.mod_pos_bound o 8).
  destruct (znth_lookup b (o / 8)) as [x Hx]; [unfold zlength; lia |]. rewrite Hx.
  destruct (Hh _ _ Hx) as [Hx256 Hk]. rewrite js_and_bit by lia. rewrite Hk by lia.
  do 2 f_equal. lia.
Qed.

Lemma extract_total s o :
  isBitmapChunkHex s = true -> 0 <= o < 256 -> is_ok (extractBitFromBitmapChunkHex s o).
Proof.
  intros Hs Ho. destruct (isBitmapChunkHex_decodes s Hs) as (b & Eb & [_ Hl] & _).
  unfold extractBitFromBitmapChunkHex, lib_hexToBytes. rewrite Hs, Eb. cbn [negb mbind result_bind].
  unfold extractBitFromBitmapChunkBytes, BITMAP_CHUNK_BITS, BITMAP_CHUNK_BYTES.
  destruct (Z.ltb_spec o 0); [lia |]. destruct (Z.leb_spec (32 * 8) o); [lia |]. cbn [orb].
  assert (Hd := Z.div_mod o 8). assert (Hm := Z.mod_pos_bound o 8).
  destruct (znth_lookup b (o / 8)) as [x Hx]; [unfold zlength; lia |]. by rewrite Hx.
Qed.

Lemma padding_loop_zero n : forall s o,
  (forall k, o <= k < o + Z.of_nat n -> extractBitFromBitmapChunkHex s k = Ok false) ->
  padding_loop n s o = Ok true.
Proof.
  induction n as [| n IH]; intros s o Hk; cbn [padding_loop]; [done |].
  rewrite Hk by lia. cbn [mbind result_bind]. apply IH. intros k Hk0. apply Hk. lia.
Qed.

Lemma leaf_index_ok i :
  0 <= i <= MAX_SAFE_INTEGER -> asBitmapLeafIndex (NInt (calculateBitmapLeafIndex i)) = Ok (i / 256).
Proof.
  intros Hi. unfold asBitmapLeafIndex, calculateBitmapLeafIndex, BITMAP_CHUNK_BITS, BITMAP_CHUNK_BYTES.
  change (32 * 8) with 256. assert (Hd := Z.div_mod i 256). assert (Hm := Z.mod_pos_bound i 256).
  assert (Hs : safe_Z (i / 256) = true) by (apply safe_Z_spec; lia).
  cbn [isSafeInteger num_ltb num_Z]. rewrite Hs. by destruct (Z.ltb_spec (i / 256) 0); [lia |].
Qed.

Lemma bit_offset_ok i : asBitmapBitOffset (NInt (calculateBitmapBitOffset i)) = Ok (i mod 256).
Proof.
  unfold asBitmapBitOffset, calculateBitmapBitOffset, BITMAP_CHUNK_BITS, BITMAP_CHUNK_BYTES.
  change (32 * 8) with 256. assert (Hm := Z.mod_pos_bound i 256).
  assert (Hs : safe_Z (i mod 256) = true) by (apply safe_Z_spec; unfold MAX_SAFE_INTEGER; lia).
  cbn [isSafeInteger num_ltb num_leb num_eqb num_Z]. rewrite Hs. unfold num_leb. cbn [num_ltb num_eqb].
  destruct (Z.ltb_spec (i mod 256) 0); [lia |]. destruct (Z.ltb_spec 256 (i mod 256)); [lia |].
  by destruct (Z.eqb_spec 256 (i mod 256)); [lia |].
Qed.

(** ** The root *)

Definition bitmap_chunks (bitmap : list bool) : list bytes :=
  match packBitmapBitsToBytes bitmap with
  | Ok packed => splitBitmapBytesIntoChunks packed
  | Err _ => []
  end.

Lemma bitmap_chunks_ne bitmap : bitmap_chunks bitmap <> [].
Proof.
  unfold bitmap_chunks. destruct (pack_ok bitmap) as (bs & -> & _).
  unfold splitBitmapBytesIntoChunks. by destruct (split_loop _ _ _).
Qed.

Lemma bitmap_chunk_at bitmap i :
  0 <= i < ceil_div (zlength bitmap) 256 ->
  exists c, znth (bitmap_chunks bitmap) i = Some c /\ getBitmapLeafChunkBytes bitmap i = Ok c /\
    length c = 32%nat /\ holds c (fun j => bit_at bitmap (256 * i + j)).
Proof.
  intros Hi. unfold bitmap_chunks. destruct (chunks_ok bitmap) as (p & -> & _ & Hc).
  - intros ->. change (zlength (A := bool) []) with 0 in Hi.
    assert (Hc := ceil_div_spec 0 256 ltac:(lia)). lia.
  - by apply Hc.
Qed.

Lemma bitmap_chunks_length bitmap :
  bitmap <> [] -> zlength (bitmap_chunks bitmap) = ceil_div (zlength bitmap) 256.
Proof. intros Hne. unfold bitmap_chunks. by destruct (chunks_ok bitmap Hne) as (p & -> & -> & _). Qed.

Lemma computeIncludedBitmapRootHex_ok bitmap :
  computeIncludedBitmapRootHex bitmap = Ok ("0x" +:+ bytesToHex (MTH (bitmap_chunks bitmap)))%string.
Proof.
  unfold computeIncludedBitmapRootHex. assert (Hne := bitmap_chunks_ne bitmap).
  unfold bitmap_chunks in *. destruct (pack_ok bitmap) as (bs & E & _). rewrite E in *.
  cbn [mbind result_bind]. rewrite computeBitmapMerkleRootBytes_MTH by done. done.
Qed.

Lemma holds_is_bytes c f : holds c f -> is_bytes c.
Proof.
  intros Hh. apply Forall_lookup_2. intros i x Hi. rewrite <- znth_of_nat in Hi.
  by destruct (Hh _ _ Hi).
Qed.

Lemma chunk_leaves_32 bitmap : Forall node32 (map hashBitmapLeafChunk (bitmap_chunks bitmap)).
Proof.
  apply Forall_map, Forall_forall. intros c _. split; [apply sha256_bytes | apply sha256_length].
Qed.

Lemma leaf_range (bitmap : list bool) i :
  0 <= i < zlength bitmap ->
  0 <= i / 256 < ceil_div (zlength bitmap) 256 /\ 0 <= i mod 256 < 256 /\
  256 * (i / 256) + i mod 256 = i /\ bitmap <> [].
Proof.
  intros Hi. assert (Hd := Z.div_mod i 256). assert (Hm := Z.mod_pos_bound i 256).
  assert (Hc := ceil_div_spec (zlength bitmap) 256 ltac:(lia)).
  split_and!; try lia. intros ->. change (zlength (A := bool) []) with 0 in Hi. lia.
Qed.

Lemma with_0x_root b : with_0x ("0x" +:+ bytesToHex b)%string = ("0x" +:+ bytesToHex b)%string.
Proof. done. Qed.

Lemma root_accepted b : node32 b -> asBitmapRoot ("0x" +:+ bytesToHex b)%string = Ok ("0x" +:+ bytesToHex b)%string.
Proof.
  intros Hb. unfold asBitmapRoot, is_bitmap_root.
  change (match ("0x" +:+ bytesToHex b)%string with String "0" (String "x" rest) => isBitmapChunkHex rest | _ => false end)
    with (isBitmapChunkHex (bytesToHex b)).
  by rewrite node32_hex, orb_true_r.
Qed.

Lemma context_ok i n root :
  0 <= i <= MAX_SAFE_INTEGER -> 0 < n <= MAX_SAFE_INTEGER -> asBitmapRoot root = Ok root ->
  buildAuthenticatedBitmapProofContext (NInt i) (NInt n) root = Ok (mkContext i n root).
Proof.
  intros Hi Hn Hr. unfold buildAuthenticatedBitmapProofContext, asBitmapBitIndex, asAuthenticatedBitmapTreeSize.
  unfold num_leb. cbn [isSafeInteger num_ltb num_eqb num_Z].
  rewrite !(proj2 (safe_Z_spec _)) by lia.
  destruct (Z.ltb_spec i 0), (Z.ltb_spec n 0), (Z.eqb_spec n 0); try lia.
  cbn [negb orb mbind result_bind]. rewrite Hr. done.
Qed.

Lemma shape_ok n i path :
  0 <= i < n -> n <= MAX_SAFE_INTEGER ->
  isValidAuthenticatedTreeShape n i (i / 256) path = true <->
  map node_position path = deriveAuditPathPositions (i / 256) (ceil_div n 256).
Proof.
  intros Hi Hn. unfold isValidAuthenticatedTreeShape.
  rewrite (proj2 (safe_Z_spec n)) by (unfold MAX_SAFE_INTEGER in *; lia).
  destruct (Z.leb_spec n 0); [lia |]. destruct (Z.leb_spec n i); [lia |]. cbn [negb orb].
  change BITMAP_CHUNK_BITS with 256.
  assert (Hd := Z.div_mod i 256). assert (Hm := Z.mod_pos_bound i 256).
  assert (Hc := ceil_div_spec n 256 ltac:(lia)).
  destruct (Z.leb_spec (ceil_div n 256) (i / 256)); [lia |]. by rewrite bool_decide_eq_true.
Qed.

Lemma padding_ok bitmap i s c :
  0 <= i < zlength bitmap -> isBitmapChunkHex s = true -> hexToBytes s = Some c ->
  length c = 32%nat -> holds c (fun j => bit_at bitmap (256 * (i / 256) + j)) ->
  hasZeroUnusedPadding s (zlength bitmap) (i / 256) = Ok true.
Proof.
  intros Hi Hs Hc Hl Hh. unfold hasZeroUnusedPadding. change BITMAP_CHUNK_BITS with 256.
  destruct (Z.eqb_spec (i / 256) (ceil_div (zlength bitmap) 256 - 1)) as [E |]; [| done]. cbn [negb].
  destruct (Z.eqb_spec (zlength bitmap mod 256) 0); [done |].
  assert (Hm := Z.mod_pos_bound (zlength bitmap) 256 ltac:(lia)).
  assert (Hd := Z.div_mod (zlength bitmap) 256 ltac:(lia)).
  assert (Hcd := ceil_div_spec (zlength bitmap) 256 ltac:(lia)).
  apply padding_loop_zero. intros k Hk. rewrite (extract_ok s c _ k Hs Hc Hl Hh) by lia.
  f_equal. unfold bit_at. destruct (znth bitmap (256 * (i / 256) + k)) eqn:Ez; [| done].
  apply znth_Some_range in Ez. lia.
Qed.

End tree.
