(* ===== verification/BitmapProofs.v ===== *)
(** The properties of inclusion bitmaps: the root is the Merkle tree hash of the
    chunks, the proof of a bit is accepted and reads the bit, an accepted proof
    reads the bit of the bitmap behind the root, and the status explained to a
    voter is the truth about the two bitmaps. *)
From S2P Require Import Prelude.
From S2P Require Import JsNumber.
From S2P Require Import Hex.
From S2P Require Import Rfc6962.
From S2P Require Import MerkleSpec.
From S2P Require Import Bitmap.
From S2P Require Import BitmapFacts.
From S2P Require Import Reference.
Import Bitmap.
Import Reference.

Section properties.
Context `{NobleLaws}.

(** The inputs hashed for the root of a bitmap, and by a verifier of a proof. *)
Definition bitmap_inputs (bitmap : list bool) : list bytes :=
  map leaf_input (bitmap_chunks bitmap) ++
  level_inputs (S (length (bitmap_chunks bitmap))) (map hashBitmapLeafChunk (bitmap_chunks bitmap)).

Definition proof_inputs (p : BitmapProofResponse) : list bytes :=
  leaf_input (lib_bytes (response_leafChunk p)) ::
  fold_inputs (response_auditPath p) (leaf_hash (lib_bytes (response_leafChunk p))).

(** The bitmap root built level by level, with the unpaired node of a level
    kept, is the Merkle tree hash of RFC 6962 over the 32-byte chunks; and chunk
    [i] holds exactly the bits [256 i .. 256 i + 255] of the bitmap, least
    significant bit first, zero beyond its end. *)
Theorem bitmap_root_is_MTH bitmap :
  exists chunks,
    computeIncludedBitmapRootHex bitmap = Ok ("0x" +:+ bytesToHex (MTH chunks))%string /\
    (bitmap <> [] -> zlength chunks = ceil_div (zlength bitmap) 256) /\
    (forall i, 0 <= i < ceil_div (zlength bitmap) 256 ->
       exists c, znth chunks i = Some c /\ getBitmapLeafChunkBytes bitmap i = Ok c /\
         length c = 32%nat /\
         forall o, 0 <= o < 256 -> extractBitFromBitmapChunkBytes c o = Ok (bit_at bitmap (256 * i + o))).
Proof.
  exists (bitmap_chunks bitmap). split_and!;
    [apply computeIncludedBitmapRootHex_ok | apply bitmap_chunks_length |].
  intros i Hi. destruct (bitmap_chunk_at bitmap i Hi) as (c & Hc & Hg & Hl & Hh).
  exists c. split_and!; [done | done | done |]. intros o Ho.
  assert (Hb : node32 c) by (split; [by eapply holds_is_bytes | done]).
  assert (E := extract_ok (bytesToHex c) c _ o (node32_hex c Hb)
                 (hexToBytes_bytesToHex c (proj1 Hb)) Hl Hh Ho).
  unfold extractBitFromBitmapChunkHex, lib_hexToBytes in E.
  by rewrite node32_hex, hexToBytes_bytesToHex in E by apply Hb.
Qed.

Lemma bitmap_root_32 bitmap : node32 (MTH (bitmap_chunks bitmap)).
Proof. split; [apply MTH_bytes | apply MTH_length]. Qed.

Lemma leaf_hex_ok c :
  node32 c -> hashBitmapLeafChunkHex (bytesToHex c) = Ok (bytesToHex (leaf_hash c)).
Proof.
  intros Hc. unfold hashBitmapLeafChunkHex, lib_hexToBytes. rewrite node32_hex by done.
  by rewrite hexToBytes_bytesToHex by apply Hc.
Qed.

Lemma bitmap_is_root bitmap :
  is_root (map hashBitmapLeafChunk (bitmap_chunks bitmap)) (MTH (bitmap_chunks bitmap)).
Proof. apply is_root_MTH, bitmap_chunks_ne. Qed.

(** The proof generated for any bit of a bitmap is accepted against the
    bitmap's root and size, and the verifier reads that bit at its place. *)
Theorem bitmap_proof_complete bitmap i :
  0 <= i < zlength bitmap -> zlength bitmap <= MAX_SAFE_INTEGER ->
  exists p root,
    generateBitmapMerkleProof bitmap i = Ok p /\
    computeIncludedBitmapRootHex bitmap = Ok root /\
    verifyBitmapProof (mkProofResponse (leafChunk p) (auditPath p)) (NInt i) root
      (NInt (zlength bitmap))
    = Ok (mkBitmapResult true (bit_at bitmap i) (i / 256) (i mod 256)).
Proof.
  intros Hi Hsafe. destruct (leaf_range bitmap i Hi) as (Hleaf & Ho & Eio & Hne).
  destruct (bitmap_chunk_at bitmap (i / 256) Hleaf) as (c & Hc & Hg & Hl & Hh).
  assert (Hc32 : node32 c) by (split; [by eapply holds_is_bytes | done]).
  set (cs := bitmap_chunks bitmap) in *. set (ls := map hashBitmapLeafChunk cs).
  assert (Els : zlength ls = ceil_div (zlength bitmap) 256).
  { unfold ls, cs, zlength. rewrite length_map. fold (zlength (bitmap_chunks bitmap)).
    by apply bitmap_chunks_length. }
  assert (Hx : znth ls (i / 256) = Some (leaf_hash c)) by (unfold ls; by rewrite znth_map, Hc).
  set (path := audit_loop (map (map bytesToHex) (ls :: levels_loop (length ls) ls)) (i / 256)).
  destruct (fits_range_fuel (zlength ls)) as (g & Eg & Hg').
  destruct (path_complete (length ls) g ls (i / 256) (leaf_hash c) (MTH cs) (Nat.le_succ_diag_r _) Hg'
              (chunk_leaves_32 bitmap) Hx (bitmap_is_root bitmap)) as [Hfold Hpos].
  fold path in Hfold, Hpos.
  exists (mkBitmapMerkleProof (bytesToHex c) path (i / 256) i), ("0x" +:+ bytesToHex (MTH cs))%string.
  split_and!; [| apply computeIncludedBitmapRootHex_ok |].
  - unfold generateBitmapMerkleProof.
    destruct (Z.eqb_spec (zlength bitmap) 0); [lia |]. destruct (Z.ltb_spec i 0); [lia |].
    destruct (Z.leb_spec (zlength bitmap) i); [lia |]. cbn [orb].
    change (calculateBitmapLeafIndex i) with (i / 256).
    unfold getBitmapLeafChunkHex, buildBitmapMerkleTreeHexLevels. rewrite Hg.
    unfold path, ls, cs, bitmap_chunks in *. destruct (pack_ok bitmap) as (packed & Ep & _).
    rewrite Ep in *. cbn [fmap result_fmap mbind result_bind].
    unfold buildBitmapMerkleTreeByteLevels.
    destruct (map hashBitmapLeafChunk (splitBitmapBytesIntoChunks packed)) eqn:Em; [| done].
    change (zlength (A := bytes) []) with 0 in Els. lia.
  - unfold verifyBitmapProof. cbn [leafChunk auditPath].
    rewrite context_ok by (lia || apply root_accepted, bitmap_root_32).
    unfold verifyBitmapMerkleProof. cbn [ctx_bitIndex ctx_treeSize ctx_expectedRoot
      response_leafChunk response_auditPath].
    rewrite leaf_index_ok, bit_offset_ok by lia. cbn [mbind result_bind].
    rewrite (proj2 (shape_ok _ _ _ Hi Hsafe)).
    2: { unfold deriveAuditPathPositions. by rewrite <- Els, Eg. }
    rewrite node32_hex by done. cbn [negb].
    assert (Hdec := hexToBytes_bytesToHex c (proj1 Hc32)).
    rewrite (padding_ok bitmap i _ c) by (done || by apply node32_hex). cbn [mbind result_bind negb].
    rewrite (extract_ok _ c _ (i mod 256) (node32_hex c Hc32) Hdec Hl Hh) by done.
    cbn [mbind result_bind]. rewrite leaf_hex_ok by done. cbn [mbind result_bind].
    rewrite Hfold. cbn [mbind result_bind]. rewrite with_0x_root, String.eqb_refl, Eio. done.
Qed.

(** What acceptance means, step by step. *)
Lemma verifyBitmapProof_inv p idx root n r :
  verifyBitmapProof p idx root (NInt n) = Ok r -> valid r = true ->
  exists i cur,
    idx = NInt i /\ 0 <= i < n /\ n <= MAX_SAFE_INTEGER /\ asBitmapRoot root = Ok root /\
    isBitmapChunkHex (response_leafChunk p) = true /\
    map node_position (response_auditPath p)
      = deriveAuditPathPositions (i / 256) (ceil_div n 256) /\
    extractBitFromBitmapChunkHex (response_leafChunk p) (i mod 256) = Ok (included r) /\
    fold_path (response_auditPath p) (bytesToHex (leaf_hash (lib_bytes (response_leafChunk p))))
      = Ok (Some cur) /\
    with_0x root = ("0x" +:+ cur)%string.
Proof.
  unfold verifyBitmapProof. intros E Hv.
  destruct (buildAuthenticatedBitmapProofContext idx (NInt n) root) as [ctx | e] eqn:Ectx.
  2: { bind_inv. injection E as <-. done. }
  unfold buildAuthenticatedBitmapProofContext in Ectx.
  apply bind_Ok in Ectx as (i & Ei & Ectx). apply bind_Ok in Ectx as (n' & En & Ectx).
  apply bind_Ok in Ectx as (root' & Eroot & Ectx). injection Ectx as <-.
  assert (root' = root) as -> by (unfold asBitmapRoot, throw in Eroot; case_match; congruence).
  unfold asBitmapBitIndex in Ei. destruct idx as [i' | | |]; try done. cbn [isSafeInteger num_ltb num_Z] in Ei.
  destruct (safe_Z i') eqn:Hs; [| done]. destruct (Z.ltb_spec i' 0); [done |]. injection Ei as <-.
  unfold asAuthenticatedBitmapTreeSize in En. cbn [isSafeInteger num_Z] in En.
  destruct (safe_Z n) eqn:Hsn; [| done]. apply safe_Z_spec in Hs, Hsn.
  destruct (num_leb (NInt n) (NInt 0)); [done |]. injection En as <-.
  unfold verifyBitmapMerkleProof in E. cbn [ctx_bitIndex ctx_treeSize ctx_expectedRoot] in E.
  rewrite leaf_index_ok, bit_offset_ok in E by lia. cbn [mbind result_bind] in E.
  destruct (isValidAuthenticatedTreeShape n i' (i' / 256) (response_auditPath p)) eqn:Eshape;
    cbn [negb] in E; [| by injection E as <-].
  destruct (isBitmapChunkHex (response_leafChunk p)) eqn:Ec; cbn [negb] in E; [| by injection E as <-].
  apply bind_Ok in E as (pad & _ & E). destruct pad; cbn [negb] in E; [| by injection E as <-].
  apply bind_Ok in E as (bit & Ebit & E). apply bind_Ok in E as (h & Eh & E).
  apply bind_Ok in E as (fin & Efin & E). destruct fin as [cur |]; [| by injection E as <-].
  assert (Er : r = mkBitmapResult (String.eqb ("0x" +:+ cur)%string (with_0x root)) bit (i' / 256) (i' mod 256))
    by congruence.
  rewrite Er in Hv |- *. cbv beta iota delta [valid included] in Hv |- *. apply String.eqb_eq in Hv. clear E Er.
  assert (Hin : 0 <= i' < n).
  { unfold isValidAuthenticatedTreeShape in Eshape.
    destruct (negb (safe_Z n) || Z.leb n 0); [done |]. destruct (Z.leb_spec n i'); [done | lia]. }
  exists i', cur. split_and!; try done; try lia.
  - apply shape_ok in Eshape; [done | lia | lia].
  - unfold hashBitmapLeafChunkHex in Eh. rewrite Ec in Eh. cbn [negb] in Eh.
    apply bind_Ok in Eh as (b & Eb & Eh). injection Eh as <-.
    unfold lib_hexToBytes in Eb. unfold lib_bytes. destruct (hexToBytes _); [| done].
    by injection Eb as ->.
Qed.

Lemma bitmap_sound_at bitmap p idx root r :
  computeIncludedBitmapRootHex bitmap = Ok root ->
  verifyBitmapProof p idx root (NInt (zlength bitmap)) = Ok r -> valid r = true ->
  exists i, idx = NInt i /\ 0 <= i < zlength bitmap /\
    (included r = bit_at bitmap i \/ collision_in (bitmap_inputs bitmap ++ proof_inputs p)).
Proof.
  intros Hroot Hv Hvalid.
  destruct (verifyBitmapProof_inv _ _ _ _ _ Hv Hvalid)
    as (i & cur & -> & Hi & Hsafe & _ & Hc & Hpos & Hbit & Hfold & Hcur).
  exists i. split_and!; [done | lia | lia |].
  destruct (leaf_range bitmap i Hi) as (Hleaf & Ho & Eio & Hne).
  destruct (bitmap_chunk_at bitmap (i / 256) Hleaf) as (c & Hcz & _ & Hl & Hh).
  rewrite computeIncludedBitmapRootHex_ok in Hroot. assert (root = ("0x" +:+ bytesToHex (MTH (bitmap_chunks bitmap)))%string) as -> by congruence.
  rewrite with_0x_root in Hcur.
  assert (Ecur : bytesToHex (MTH (bitmap_chunks bitmap)) = cur) by (by injection Hcur). subst cur.
  destruct (isBitmapChunkHex_decodes _ Hc) as (b & Eb & [_ Hb] & _).
  assert (Elb : lib_bytes (response_leafChunk p) = b) by (unfold lib_bytes; by rewrite Eb).
  unfold bitmap_inputs, proof_inputs. rewrite Elb in *.
  set (cs := bitmap_chunks bitmap) in *. set (ls := map hashBitmapLeafChunk cs) in *.
  assert (Els : zlength ls = ceil_div (zlength bitmap) 256).
  { unfold ls, cs, zlength. rewrite length_map. fold (zlength (bitmap_chunks bitmap)).
    by apply bitmap_chunks_length. }
  assert (Hx : znth ls (i / 256) = Some (leaf_hash c)) by (unfold ls; by rewrite znth_map, Hcz).
  destruct (fits_range_fuel (zlength ls)) as (g & Eg & Hg).
  unfold deriveAuditPathPositions in Hpos. rewrite <- Els, Eg in Hpos.
  assert (Ell : length ls = length cs) by (unfold ls; apply length_map).
  destruct (path_sound (length cs) g ls (i / 256) (leaf_hash c) (leaf_hash b) (MTH cs)
    (response_auditPath p)) as [E | Hcol]; try done.
  - rewrite Ell. lia.
  - apply chunk_leaves_32.
  - apply bitmap_is_root.
  - split; [apply sha256_bytes | apply sha256_length].
  - assert (Hcin : leaf_input c ∈ map leaf_input cs).
    { apply list_elem_of_fmap. exists c. split; [done |].
      unfold znth in Hcz. destruct (Z.ltb (i / 256) 0); [done |]. by eapply list_elem_of_lookup_2. }
    destruct (same_hash (map leaf_input cs ++ [leaf_input b]) (leaf_input b) (leaf_input c))
      as [Eq | Hcol]; [list_member | list_member | done | |].
    + apply leaf_input_inj in Eq as ->. left.
      rewrite (extract_ok _ c _ _ Hc Eb Hl Hh Ho), Eio in Hbit. by injection Hbit.
    + right. revert Hcol. apply collision_in_mono. list_subset.
  - right. revert Hcol. apply collision_in_mono. list_subset.
Qed.

(** C11: an accepted bitmap proof is evidence of the bit: whatever chunk and
    path a server sends, if the verifier accepts them for an index against the
    root and the size of a bitmap, the index is in range and the bit read is
    the bitmap's, or two of the inputs hashed for the root and by the verifier
    collide. *)
Theorem bitmap_proof_sound bitmap p idx root r :
  computeIncludedBitmapRootHex bitmap = Ok root ->
  verifyBitmapProof p idx root (NInt (zlength bitmap)) = Ok r -> valid r = true ->
  exists i, idx = NInt i /\ 0 <= i < zlength bitmap /\
    (included r = bit_at bitmap i \/ collision_in (bitmap_inputs bitmap ++ proof_inputs p)).
Proof. apply bitmap_sound_at. Qed.

Lemma verifyAdmitted_eq idx root p n r :
  verifyAdmittedBitmapProof idx root p (NInt n) = Ok r ->
  verifyBitmapProof p idx root (NInt n) = Ok r.
Proof.
  unfold verifyAdmittedBitmapProof. intros E. apply bind_Ok in E as (i & Ei & E).
  apply bind_Ok in E as (n' & En & E).
  assert (NInt n' = NInt n) as [= ->].
  { unfold asAuthenticatedBitmapTreeSize in En. destruct (_ || _); [done |]. by injection En as ->. }
  assert (idx = NInt i) as ->; [| done].
  unfold asBitmapBitIndex in Ei. destruct idx; try done. destruct (_ || _); [done |]. by injection Ei as ->.
Qed.

(** The status explained to a voter is the truth about the two bitmaps
    behind the roots: "counted" only if the included bit is set; "presented but
    invalid" only if it is clear and the seen bit is set; "not presented" only
    if both are clear; a hash collision aside. *)
Theorem explained_status_true inc seen_bm idx incRoot seenRoot ip sp e :
  zlength seen_bm = zlength inc ->
  computeIncludedBitmapRootHex inc = Ok incRoot ->
  computeIncludedBitmapRootHex seen_bm = Ok seenRoot ->
  explainVoteInclusionStatus idx incRoot (Some seenRoot) ip sp (NInt (zlength inc)) = Ok e ->
  collision_in (bitmap_inputs inc ++ proof_inputs ip ++ bitmap_inputs seen_bm
                ++ match sp with Some p => proof_inputs p | None => [] end) \/
  match statusDetail e with
  | counted => exists i, idx = NInt i /\ bit_at inc i = true
  | presented_but_invalid => exists i, idx = NInt i /\ bit_at inc i = false /\ bit_at seen_bm i = true
  | not_presented => exists i, idx = NInt i /\ bit_at inc i = false /\ bit_at seen_bm i = false
  | unknown_excluded => True
  end.
Proof.
  intros Hlen Hinc Hseen E. unfold explainVoteInclusionStatus, verifyMyVoteWasCounted in E.
  apply bind_Ok in E as (ri & Ei & E). apply verifyAdmitted_eq in Ei.
  destruct (valid ri) eqn:Hvi; cbn [negb] in E; [| injection E as <-; by right].
  destruct (bitmap_sound_at inc ip idx incRoot ri Hinc Ei Hvi) as (i & -> & Hi & [Hbit | Hc]).
  2: { left. revert Hc. apply collision_in_mono. list_subset. }
  destruct (included ri) eqn:Hri; [injection E as <-; right; by exists i |].
  destruct sp as [sp |]; [| injection E as <-; by right].
  destruct (str_truthy seenRoot); cbn [negb] in E; [| injection E as <-; by right].
  apply bind_Ok in E as (rs & Es & E). apply verifyAdmitted_eq in Es. rewrite <- Hlen in Es.
  destruct (valid rs) eqn:Hvs; injection E as <-; [| by right].
  destruct (bitmap_sound_at seen_bm sp (NInt i) seenRoot rs Hseen Es Hvs) as (j & [= <-] & _ & [Hs | Hc]).
  2: { left. revert Hc. apply collision_in_mono. list_subset. }
  right. cbn [statusDetail]. destruct (included rs); exists i; done.
Qed.

End properties.

(** ** Witnesses *)

Definition sample_bitmap : list bool := repeat true 256 ++ [false; true; false].
Definition sample_seen : list bool := repeat true 256 ++ [true; true; false].

Definition ok_or {A} (d : A) (r : result A) : A := match r with Ok a => a | Err _ => d end.

Definition response_of (bitmap : list bool) (i : Z) : BitmapProofResponse :=
  let p := ok_or (mkBitmapMerkleProof "" [] 0 0) (generateBitmapMerkleProof bitmap i) in
  mkProofResponse (leafChunk p) (auditPath p).

Definition root_hex (bitmap : list bool) : string :=
  ok_or ""%string (computeIncludedBitmapRootHex bitmap).

Lemma bitmap_root_is_MTH_witness :
  exists chunks,
    computeIncludedBitmapRootHex sample_bitmap = Ok ("0x" +:+ bytesToHex (MTH chunks))%string /\
    (sample_bitmap <> [] -> zlength chunks = ceil_div (zlength sample_bitmap) 256) /\
    (forall i, 0 <= i < ceil_div (zlength sample_bitmap) 256 ->
       exists c, znth chunks i = Some c /\ getBitmapLeafChunkBytes sample_bitmap i = Ok c /\
         length c = 32%nat /\
         forall o, 0 <= o < 256 ->
           extractBitFromBitmapChunkBytes c o = Ok (bit_at sample_bitmap (256 * i + o))).
Proof. apply (bitmap_root_is_MTH sample_bitmap). Defined.

Lemma bitmap_proof_complete_witness :
  exists p root,
    generateBitmapMerkleProof sample_bitmap 257 = Ok p /\
    computeIncludedBitmapRootHex sample_bitmap = Ok root /\
    verifyBitmapProof (mkProofResponse (leafChunk p) (auditPath p)) (NInt 257) root
      (NInt (zlength sample_bitmap))
    = Ok (mkBitmapResult true (bit_at sample_bitmap 257) (257 / 256) (257 mod 256)).
Proof.
  apply (bitmap_proof_complete sample_bitmap 257).
  - vm_compute. split; congruence.
  - vm_compute. congruence.
Defined.

Lemma bitmap_proof_sound_witness :
  exists i, NInt 257 = NInt i /\ 0 <= i < zlength sample_bitmap /\
    (true = bit_at sample_bitmap i \/
     collision_in (bitmap_inputs sample_bitmap ++ proof_inputs (response_of sample_bitmap 257))).
Proof.
  apply (bitmap_proof_sound sample_bitmap (response_of sample_bitmap 257) (NInt 257)
           (root_hex sample_bitmap) (mkBitmapResult true true 1 1)).
  - vm_compute. reflexivity.
  - vm_compute. reflexivity.
  - reflexivity.
Defined.

Lemma explained_status_true_witness :
  collision_in (bitmap_inputs sample_bitmap ++ proof_inputs (response_of sample_bitmap 256)
                ++ bitmap_inputs sample_seen ++ proof_inputs (response_of sample_seen 256)) \/
  exists i, NInt 256 = NInt i /\ bit_at sample_bitmap i = false /\ bit_at sample_seen i = true.
Proof.
  apply (explained_status_true sample_bitmap sample_seen (NInt 256) (root_hex sample_bitmap)
           (root_hex sample_seen) (response_of sample_bitmap 256)
           (Some (response_of sample_seen 256))
           (mkExplained (mkBitmapResult true false 1 0) (Some true) presented_but_invalid)).
  - reflexivity.
  - vm_compute. reflexivity.
  - vm_compute. reflexivity.
  - vm_compute. reflexivity.
Defined.
