(* ===== verification/Summary.v ===== *)
(** The verdict of a verification
    (packages/verification/src/verification/verification-summary.ts): one
    status and tone derived from the list of check results. *)
From S2P Require Import Prelude.
From S2P Require Import JsNumber.
From S2P Require Import Checks.
Import Checks.

Module Summary.

(** A check result on the wire. The identifier is text: a list received from
    elsewhere may name a check the registry does not have. *)
Record VerificationCheck := mkCheck {
  check_id : string;
  status : VerificationStepStatus;
  evidence : VerificationEvidence;
  inputs : list string;
  derivedFrom : option VerificationCheckId;
  noteKey : option VerificationCheckNoteKey;
}.

Inductive VerificationSummaryStatus : Type :=
| fully_verified | demo_only | in_progress | missing_evidence | verified_with_limitations
| user_vote_excluded | votes_excluded | votes_excluded_unknown | recorded_integrity_failed
| published_tally_mismatch | counted_integrity_failed | cast_integrity_failed
| proof_verification_failed.

Inductive VerificationSummaryTone : Type := tone_verified | tone_demo | tone_warning | tone_failed.

Inductive ExclusionReason : Type := reason_missing | reason_invalid | reason_mixed | reason_unknown.

#[export] Instance VerificationSummaryStatus_eq_dec : EqDecision VerificationSummaryStatus.
Proof. solve_decision. Defined.
#[export] Instance VerificationSummaryTone_eq_dec : EqDecision VerificationSummaryTone.
Proof. solve_decision. Defined.

(** The flags are [Some true] when given and truthy. *)
Record VerificationSummaryContext := mkSummaryContext {
  missingSlots : option num;
  invalidPresentedSlots : option num;
  rejectedRecords : option num;
  excludedSlots : option num;
  sthSourcesConfigured : option bool;
  devModeEvidence : option bool;
}.

Record VerificationSummaryResult := mkResult {
  summary : VerificationSummaryStatus;
  tone : VerificationSummaryTone;
  messageKey : option string;
}.

Record ResolvedCheck := mkResolved {
  check : VerificationCheck;
  definition : VerificationCheckDefinition;
}.

Record SummaryEvidence := mkEvidence {
  resolved : list ResolvedCheck;
  hasUnknown : bool;
  requiredChecks : list ResolvedCheck;
  optionalChecks : list ResolvedCheck;
  missingRequiredChecks : list VerificationCheckDefinition;
}.

Definition flag (o : option bool) : bool := match o with Some b => b | None => false end.

Definition STATUS_PRIORITY (s : VerificationStepStatus) : Z :=
  match s with
  | st_success => 0 | st_not_run => 1 | st_pending => 2 | st_running => 3 | st_failed => 4
  end.

(** [CHECK_DEFINITION_BY_ID.get(check.id)] *)
Definition definition_by_id (id : string) : option VerificationCheckDefinition :=
  find (fun d => String.eqb (check_id_string (def_id d)) id) VERIFICATION_CHECK_DEFINITIONS.

Definition isRequiredCheck (d : VerificationCheckDefinition)
    (context : option VerificationSummaryContext) : bool :=
  isVerificationCheckRequired d (flag (context ≫= sthSourcesConfigured)).

Fixpoint resolveChecks (checks : list VerificationCheck) : list ResolvedCheck * bool :=
  match checks with
  | [] => ([], false)
  | c :: rest =>
      let (res, unknown) := resolveChecks rest in
      match definition_by_id (check_id c) with
      | None => (res, true)
      | Some d => (mkResolved c d :: res, unknown)
      end
  end.

Definition resolveSummaryEvidence (res : list ResolvedCheck) (unknown : bool)
    (context : option VerificationSummaryContext) : SummaryEvidence :=
  let requiredDefinitions :=
    List.filter (fun d => isRequiredCheck d context) VERIFICATION_CHECK_DEFINITIONS in
  let required := List.filter (fun e => isRequiredCheck (definition e) context) res in
  let optional := List.filter (fun e => negb (isRequiredCheck (definition e) context)) res in
  let resolvedIds := map (fun e => def_id (definition e)) res in
  let missing :=
    List.filter (fun d => negb (bool_decide (def_id d ∈ resolvedIds))) requiredDefinitions in
  mkEvidence res unknown required optional missing.

Definition isInProgress (s : VerificationStepStatus) : bool :=
  match s with st_pending | st_running => true | _ => false end.

(** [statuses.reduce(...)] without an initial value: the first status starts. *)
Definition resolveWorstStatus (first : VerificationStepStatus)
    (statuses : list VerificationStepStatus) : VerificationStepStatus :=
  fold_left (fun worst s => if Z.ltb (STATUS_PRIORITY worst) (STATUS_PRIORITY s) then s else worst)
    statuses first.

Definition resolveRoleStatus (checks : list ResolvedCheck) (r : VerificationCheckRole) :
    option VerificationStepStatus :=
  match map (fun e => status (check e))
          (List.filter (fun e => bool_decide (role (definition e) = r)) checks) with
  | [] => None
  | s :: rest => Some (resolveWorstStatus s rest)
  end.

Definition categoryFailed (checks : list ResolvedCheck) (c : VerificationStepId) : bool :=
  existsb (fun e => bool_decide (category (definition e) = c) &&
                    bool_decide (status (check e) = st_failed)) checks.

Definition categoryAllRequiredSucceeded (required : list ResolvedCheck)
    (missing : list VerificationCheckDefinition) (c : VerificationStepId) : bool :=
  if existsb (fun d => bool_decide (category d = c)) missing then false
  else
    match List.filter (fun e => bool_decide (category (definition e) = c)) required with
    | [] => false
    | cs => forallb (fun e => bool_decide (status (check e) = st_success)) cs
    end.

Definition hasDemoEvidence (checks : list ResolvedCheck) : bool :=
  existsb (fun e => bool_decide (evidence (check e) = ev_demo)) checks.

Definition toPositiveCount (value : option num) : option num :=
  match value with
  | Some n => if negb (isFinite n) then None else if num_ltb (NInt 0) n then Some n else None
  | None => None
  end.

Definition resolveExclusionReason (context : option VerificationSummaryContext) :
    option ExclusionReason :=
  let missing := is_some (toPositiveCount (context ≫= missingSlots)) in
  let invalid := is_some (toPositiveCount (context ≫= invalidPresentedSlots)) in
  let excluded := is_some (toPositiveCount (context ≫= excludedSlots)) in
  if negb missing && negb invalid then if excluded then Some reason_unknown else None
  else if missing && invalid then Some reason_mixed
  else if missing then Some reason_missing else Some reason_invalid.

Definition EXCLUSION_MESSAGE_KEYS (s : VerificationSummaryStatus) (missing : bool) : option string :=
  match s with
  | user_vote_excluded => Some (if missing then "pages.verify.resultSummary.userVoteMissingSub"
                                else "pages.verify.resultSummary.userVoteInvalidSub")
  | votes_excluded => Some (if missing then "pages.verify.resultSummary.votesMissingSub"
                            else "pages.verify.resultSummary.votesInvalidSub")
  | votes_excluded_unknown => Some (if missing then "pages.verify.resultSummary.votesMissingUnknownUserSub"
                                    else "pages.verify.resultSummary.votesInvalidUnknownUserSub")
  | _ => None
  end%string.

Definition resolveExclusionMessageKey (s : VerificationSummaryStatus)
    (reason : option ExclusionReason) : option string :=
  match reason with
  | None | Some reason_mixed | Some reason_unknown => None
  | Some reason_missing => EXCLUSION_MESSAGE_KEYS s true
  | Some reason_invalid => EXCLUSION_MESSAGE_KEYS s false
  end.

Definition deriveExclusionSummary (userInclusionStatus : option VerificationStepStatus)
    (context : option VerificationSummaryContext) : VerificationSummaryResult :=
  let s :=
    match userInclusionStatus with
    | Some st_failed => user_vote_excluded
    | Some st_success => votes_excluded
    | _ => votes_excluded_unknown
    end in
  mkResult s tone_failed (resolveExclusionMessageKey s (resolveExclusionReason context)).

Definition deriveBlockingSummary (e : SummaryEvidence)
    (context : option VerificationSummaryContext) : option VerificationSummaryResult :=
  if existsb (fun entry => isInProgress (status (check entry))) (requiredChecks e)
  then Some (mkResult in_progress tone_warning None)
  else if bool_decide (resolveRoleStatus (resolved e) proof_verification = Some st_failed)
  then Some (mkResult proof_verification_failed tone_failed None)
  else if bool_decide (resolveRoleStatus (resolved e) tally_completeness = Some st_failed)
  then Some (deriveExclusionSummary (resolveRoleStatus (resolved e) user_inclusion) context)
  else if categoryFailed (requiredChecks e) recorded_as_cast
  then Some (mkResult recorded_integrity_failed tone_failed None)
  else None.

Definition hasPublishedTallyMismatch (e : SummaryEvidence) (hasRequiredNotRun : bool) : bool :=
  let hasSuccessfulTallyEvidence :=
    forallb (fun r => bool_decide (resolveRoleStatus (resolved e) r = Some st_success))
      [proof_verification; tally_completeness; user_inclusion; tally_input_integrity] in
  bool_decide (resolveRoleStatus (resolved e) tally_consistency = Some st_failed) &&
  hasSuccessfulTallyEvidence &&
  categoryAllRequiredSucceeded (requiredChecks e) (missingRequiredChecks e) recorded_as_cast &&
  negb hasRequiredNotRun &&
  bool_decide (missingRequiredChecks e = []) && negb (hasUnknown e).

Definition deriveSuccessfulEvidenceSummary (e : SummaryEvidence)
    (context : option VerificationSummaryContext) : VerificationSummaryResult :=
  if flag (context ≫= devModeEvidence) || hasDemoEvidence (resolved e)
  then mkResult demo_only tone_demo None
  else if existsb (fun entry => bool_decide (status (check entry) = st_failed) ||
                                bool_decide (status (check entry) = st_not_run)) (optionalChecks e)
  then mkResult verified_with_limitations tone_warning None
  else mkResult fully_verified tone_verified None.

Definition deriveTerminalSummary (e : SummaryEvidence)
    (context : option VerificationSummaryContext) : VerificationSummaryResult :=
  let hasRequiredNotRun :=
    existsb (fun entry => bool_decide (status (check entry) = st_not_run)) (requiredChecks e) in
  if hasPublishedTallyMismatch e hasRequiredNotRun
  then mkResult published_tally_mismatch tone_failed None
  else if categoryFailed (requiredChecks e) counted_as_recorded
  then mkResult counted_integrity_failed tone_failed None
  else if categoryFailed (requiredChecks e) cast_as_intended
  then mkResult cast_integrity_failed tone_failed None
  else
    let hasMissingRequiredRoles :=
      negb (is_some (resolveRoleStatus (resolved e) tally_completeness)) ||
      negb (is_some (resolveRoleStatus (resolved e) user_inclusion)) in
    if hasRequiredNotRun || hasUnknown e || hasMissingRequiredRoles ||
       negb (bool_decide (missingRequiredChecks e = []))
    then mkResult missing_evidence tone_warning None
    else deriveSuccessfulEvidenceSummary e context.

(** [None] is [null]: an absent or empty list, or one with no known check. *)
Definition deriveVerificationSummary (checks : option (list VerificationCheck))
    (context : option VerificationSummaryContext) : option VerificationSummaryResult :=
  match checks with
  | None | Some [] => None
  | Some cs =>
      let (res, unknown) := resolveChecks cs in
      match res with
      | [] => None
      | _ :: _ =>
          let e := resolveSummaryEvidence res unknown context in
          Some (match deriveBlockingSummary e context with
                | Some r => r
                | None => deriveTerminalSummary e context
                end)
      end
  end.

End Summary.

(** * What the verdict means *)

(** What the verdict of a verification means: when it is "fully verified", that
    a failed check is never hidden, and that only the set of results matters. *)
Import Checks Summary.

(** ** Existential tests and the set of the elements *)

Definition same {A} (l k : list A) : Prop := forall x, x ∈ l <-> x ∈ k.

#[export] Instance same_equivalence {A} : Equivalence (@same A).
Proof.
  split.
  - by intros l x.
  - intros l k H x. by rewrite (H x).
  - intros l k m H1 H2 x. by rewrite (H1 x).
Qed.

Lemma existsb_spec {A} (p : A -> bool) l : existsb p l = true <-> exists x, x ∈ l /\ p x = true.
Proof.
  rewrite existsb_exists. split; intros (x & Hx & Hp); exists x; (split; [| done]);
    by apply list_elem_of_In.
Qed.

Lemma existsb_none {A} (p : A -> bool) l : existsb p l = false <-> forall x, x ∈ l -> p x = false.
Proof.
  rewrite <- not_true_iff_false, existsb_spec. split.
  - intros Hn x Hx. apply not_true_iff_false. intros Hp. apply Hn. by exists x.
  - intros Hall (x & Hx & Hp). by rewrite Hall in Hp.
Qed.

Lemma forallb_spec {A} (p : A -> bool) l : forallb p l = true <-> forall x, x ∈ l -> p x = true.
Proof.
  rewrite forallb_forall. split; intros H x Hx; apply H; by apply list_elem_of_In.
Qed.

Lemma filter_spec {A} (p : A -> bool) l x : x ∈ List.filter p l <-> x ∈ l /\ p x = true.
Proof. rewrite !list_elem_of_In. apply filter_In. Qed.

Lemma map_spec {A B} (f : A -> B) l y : y ∈ map f l <-> exists x, x ∈ l /\ y = f x.
Proof.
  rewrite list_elem_of_In, in_map_iff. split; intros (x & Hx & Hy); exists x;
    [rewrite list_elem_of_In | rewrite <- list_elem_of_In]; done.
Qed.

Lemma same_existsb {A} (p : A -> bool) l k : same l k -> existsb p l = existsb p k.
Proof.
  intros H. apply eq_true_iff_eq. rewrite !existsb_spec. split; intros (x & Hx & ?); exists x;
    (split; [by apply H | done]).
Qed.

Lemma same_forallb {A} (p : A -> bool) l k : same l k -> forallb p l = forallb p k.
Proof.
  intros H. apply eq_true_iff_eq. rewrite !forallb_spec. split; intros Hp x Hx; by apply Hp, H.
Qed.

Lemma same_filter {A} (p : A -> bool) l k : same l k -> same (List.filter p l) (List.filter p k).
Proof. intros H x. by rewrite !filter_spec, (H x). Qed.

Lemma same_map {A B} (f : A -> B) l k : same l k -> same (map f l) (map f k).
Proof. intros H y. rewrite !map_spec. split; intros (x & Hx & ?); exists x; (split; [by apply H | done]). Qed.

Lemma same_nil {A} (l k : list A) : same l k -> l = [] -> k = [].
Proof. intros H ->. destruct k as [| x k]; [done |]. assert (Hx := proj2 (H x) (list_elem_of_here _ _)). by apply elem_of_nil in Hx. Qed.

(** ** The worst status *)

Lemma STATUS_PRIORITY_inj s t : STATUS_PRIORITY s = STATUS_PRIORITY t -> s = t.
Proof. by destruct s, t. Qed.

Lemma worst_spec l : forall s,
  resolveWorstStatus s l ∈ s :: l /\
  forall t, t ∈ s :: l -> STATUS_PRIORITY t <= STATUS_PRIORITY (resolveWorstStatus s l).
Proof.
  unfold resolveWorstStatus. induction l as [| x l IH]; intros s; cbn [fold_left].
  - split; [apply list_elem_of_here |]. by intros t ->%list_elem_of_singleton.
  - destruct (Z.ltb_spec (STATUS_PRIORITY s) (STATUS_PRIORITY x)).
    + destruct (IH x) as [Hin Hmax]. split; [by apply list_elem_of_further |].
      intros t [-> | Ht]%elem_of_cons; [| by apply Hmax].
      specialize (Hmax x (list_elem_of_here _ _)). lia.
    + destruct (IH s) as [Hin Hmax]. split; [list_member |].
      intros t [-> | [-> | Ht]%elem_of_cons]%elem_of_cons.
      * apply Hmax, list_elem_of_here.
      * specialize (Hmax s (list_elem_of_here _ _)). lia.
      * apply Hmax. by apply list_elem_of_further.
Qed.

Definition role_statuses (res : list ResolvedCheck) (r : VerificationCheckRole) :
    list VerificationStepStatus :=
  map (fun e => status (check e)) (List.filter (fun e => bool_decide (role (definition e) = r)) res).

Lemma role_statuses_spec res r s :
  s ∈ role_statuses res r <-> exists e, e ∈ res /\ role (definition e) = r /\ status (check e) = s.
Proof.
  unfold role_statuses. rewrite map_spec. split.
  - intros (e & [He Hr%bool_decide_eq_true]%filter_spec & ->). by exists e.
  - intros (e & He & Hr & <-). exists e. split; [| done]. apply filter_spec.
    by rewrite bool_decide_eq_true.
Qed.

Lemma resolveRoleStatus_spec res r :
  match resolveRoleStatus res r with
  | None => role_statuses res r = []
  | Some w => w ∈ role_statuses res r /\
      forall t, t ∈ role_statuses res r -> STATUS_PRIORITY t <= STATUS_PRIORITY w
  end.
Proof.
  unfold resolveRoleStatus. fold (role_statuses res r).
  destruct (role_statuses res r) as [| s l]; [done | apply worst_spec].
Qed.

Lemma resolveRoleStatus_failed res r :
  resolveRoleStatus res r = Some st_failed <-> st_failed ∈ role_statuses res r.
Proof.
  assert (H := resolveRoleStatus_spec res r). destruct (resolveRoleStatus res r) as [w |].
  - destruct H as [Hin Hmax]. split; [by intros [= ->] |]. intros Hf. f_equal.
    specialize (Hmax _ Hf). by destruct w.
  - rewrite H. split; [done |]. by intros []%elem_of_nil.
Qed.

Lemma resolveRoleStatus_success res r :
  resolveRoleStatus res r = Some st_success <->
  role_statuses res r <> [] /\ forall t, t ∈ role_statuses res r -> t = st_success.
Proof.
  assert (H := resolveRoleStatus_spec res r). destruct (resolveRoleStatus res r) as [w |].
  - destruct H as [Hin Hmax]. split.
    + intros [= ->]. split; [by intros E; rewrite E in Hin; apply elem_of_nil in Hin |].
      intros t Ht. specialize (Hmax t Ht). by destruct t.
    + intros [_ Hall]. f_equal. by apply Hall.
  - rewrite H. split; [done |]. by intros [? _].
Qed.

Lemma same_role_status res res' r :
  same res res' -> resolveRoleStatus res r = resolveRoleStatus res' r.
Proof.
  intros Hs. assert (HS : same (role_statuses res r) (role_statuses res' r)).
  { by apply same_map, same_filter. }
  assert (H := resolveRoleStatus_spec res r). assert (H' := resolveRoleStatus_spec res' r).
  destruct (resolveRoleStatus res r) as [w |], (resolveRoleStatus res' r) as [w' |].
  - f_equal. destruct H as [Hin Hmax], H' as [Hin' Hmax']. apply STATUS_PRIORITY_inj.
    apply HS in Hin as H1. apply HS in Hin' as H2. specialize (Hmax _ H2). specialize (Hmax' _ H1). lia.
  - destruct H as [Hin _]. apply HS in Hin. rewrite H' in Hin. by apply elem_of_nil in Hin.
  - destruct H' as [Hin _]. apply HS in Hin. rewrite H in Hin. by apply elem_of_nil in Hin.
  - done.
Qed.

(** ** Resolution of the identifiers *)

Lemma definition_by_id_spec id d :
  definition_by_id id = Some d <->
  d ∈ VERIFICATION_CHECK_DEFINITIONS /\ check_id_string (def_id d) = id.
Proof.
  unfold definition_by_id. split.
  - intros [Hin E]%find_some. apply String.eqb_eq in E. split; [by apply list_elem_of_In | done].
  - intros [Hin <-].
    destruct (find _ _) as [d' |] eqn:E.
    + apply find_some in E as [Hin' E]. apply String.eqb_eq, check_id_string_inj in E.
      f_equal. apply definition_unique; [by apply list_elem_of_In | done | done].
    + apply list_elem_of_In in Hin. apply (find_none _ _ E) in Hin.
      by rewrite String.eqb_refl in Hin.
Qed.

Lemma resolveChecks_resolved cs e :
  e ∈ (resolveChecks cs).1 <-> check e ∈ cs /\ definition_by_id (check_id (check e)) = Some (definition e).
Proof.
  induction cs as [| c cs IH]; cbn [resolveChecks].
  - split; [by intros ?%elem_of_nil | by intros [?%elem_of_nil _]].
  - destruct (resolveChecks cs) as [res u] eqn:E. cbn [fst] in IH.
    destruct (definition_by_id (check_id c)) as [d |] eqn:Ed; cbn [fst]; rewrite ?elem_of_cons, IH.
    + split.
      * intros [-> | [? ?]]; [by split; [left |] | by split; [right |]].
      * destruct e as [c' d']. simpl. intros [[-> | ?] He]; [left; congruence | by right].
    + split; [intros [? ?]; by split; [right |] |]. intros [[-> | ?] He]; [congruence | done].
Qed.

Lemma resolveChecks_unknown cs :
  (resolveChecks cs).2 = true <-> exists c, c ∈ cs /\ definition_by_id (check_id c) = None.
Proof.
  induction cs as [| c cs IH]; cbn [resolveChecks].
  - simpl. split; [done |]. by intros (? & []%elem_of_nil & _).
  - destruct (resolveChecks cs) as [res u] eqn:E. cbn [snd] in IH.
    destruct (definition_by_id (check_id c)) as [d |] eqn:Ed; cbn [snd].
    + rewrite IH. split; intros (c' & Hc & Hd); exists c'; [split; [list_member | done] |].
      apply elem_of_cons in Hc as [-> | ?]; [congruence | done].
    + split; [| done]. intros _. exists c. split; [apply list_elem_of_here | done].
Qed.

Lemma same_resolveChecks cs cs' :
  same cs cs' -> same (resolveChecks cs).1 (resolveChecks cs').1 /\
  (resolveChecks cs).2 = (resolveChecks cs').2.
Proof.
  intros H. split.
  - intros e. by rewrite !resolveChecks_resolved, (H (check e)).
  - apply eq_true_iff_eq. rewrite !resolveChecks_unknown.
    split; intros (c & Hc & ?); exists c; (split; [by apply H | done]).
Qed.

(** ** The properties *)

Definition resolve (cs : list VerificationCheck) (ctx : option VerificationSummaryContext) :
    SummaryEvidence :=
  resolveSummaryEvidence (resolveChecks cs).1 (resolveChecks cs).2 ctx.

Lemma derive_unfold cs ctx :
  deriveVerificationSummary (Some cs) ctx =
    match (resolveChecks cs).1 with
    | [] => None
    | _ :: _ => Some (match deriveBlockingSummary (resolve cs ctx) ctx with
                      | Some r => r
                      | None => deriveTerminalSummary (resolve cs ctx) ctx
                      end)
    end.
Proof.
  unfold deriveVerificationSummary, resolve. destruct cs as [| c cs]; [done |].
  by destruct (resolveChecks (c :: cs)).
Qed.

Lemma required_spec cs ctx e :
  e ∈ requiredChecks (resolve cs ctx) <->
  e ∈ (resolveChecks cs).1 /\ isRequiredCheck (definition e) ctx = true.
Proof. unfold resolve, resolveSummaryEvidence. cbn [requiredChecks]. by rewrite filter_spec. Qed.

Lemma optional_spec cs ctx e :
  e ∈ optionalChecks (resolve cs ctx) <->
  e ∈ (resolveChecks cs).1 /\ isRequiredCheck (definition e) ctx = false.
Proof. unfold resolve, resolveSummaryEvidence. cbn [optionalChecks]. by rewrite filter_spec, negb_true_iff. Qed.

Lemma missing_nil cs ctx :
  missingRequiredChecks (resolve cs ctx) = [] <->
  forall d, d ∈ VERIFICATION_CHECK_DEFINITIONS -> isRequiredCheck d ctx = true ->
    exists e, e ∈ (resolveChecks cs).1 /\ definition e = d.
Proof.
  unfold resolve, resolveSummaryEvidence. cbn [missingRequiredChecks]. split.
  - intros E d Hd Hr. destruct (decide (def_id d ∈ map (fun e => def_id (definition e)) (resolveChecks cs).1))
      as [Hin | Hnot].
    + apply map_spec in Hin as (e & He & Eid). exists e. split; [done |].
      apply resolveChecks_resolved in He as [_ [Hdef _]%definition_by_id_spec].
      by apply definition_unique.
    + exfalso. assert (Hx : d ∈ ([] : list VerificationCheckDefinition)); [| by apply elem_of_nil in Hx].
      rewrite <- E. apply filter_spec. split; [by apply filter_spec |].
      by rewrite negb_true_iff, bool_decide_eq_false.
  - intros Hall. destruct (List.filter _ _) as [| d l] eqn:E; [done |]. exfalso.
    assert (Hd : d ∈ d :: l) by apply list_elem_of_here. rewrite <- E in Hd.
    apply filter_spec in Hd as [[Hd Hr]%filter_spec Hn]. apply negb_true_iff, bool_decide_eq_false in Hn.
    apply Hn. destruct (Hall d Hd Hr) as (e & He & <-). apply map_spec. by exists e.
Qed.

(** The verdict depends only on the set of results. *)
Lemma same_resolve cs cs' ctx :
  same cs cs' ->
  deriveBlockingSummary (resolve cs ctx) ctx = deriveBlockingSummary (resolve cs' ctx) ctx /\
  deriveTerminalSummary (resolve cs ctx) ctx = deriveTerminalSummary (resolve cs' ctx) ctx.
Proof.
  intros Hs. destruct (same_resolveChecks cs cs' Hs) as [HR HU].
  assert (HRq : same (requiredChecks (resolve cs ctx)) (requiredChecks (resolve cs' ctx)))
    by (by apply same_filter).
  assert (HOp : same (optionalChecks (resolve cs ctx)) (optionalChecks (resolve cs' ctx)))
    by (by apply same_filter).
  assert (HM : missingRequiredChecks (resolve cs ctx) = missingRequiredChecks (resolve cs' ctx)).
  { unfold resolve, resolveSummaryEvidence. cbn [missingRequiredChecks]. apply List.filter_ext.
    intros d. f_equal. apply bool_decide_ext. apply same_map. done. }
  assert (HRole : forall r, resolveRoleStatus (resolved (resolve cs ctx)) r
                            = resolveRoleStatus (resolved (resolve cs' ctx)) r)
    by (intros r; by apply same_role_status).
  assert (HCat : forall c, categoryFailed (requiredChecks (resolve cs ctx)) c
                           = categoryFailed (requiredChecks (resolve cs' ctx)) c)
    by (intros c; by apply same_existsb).
  assert (HAll : forall m c, categoryAllRequiredSucceeded (requiredChecks (resolve cs ctx)) m c
                 = categoryAllRequiredSucceeded (requiredChecks (resolve cs' ctx)) m c).
  { intros m c. unfold categoryAllRequiredSucceeded. destruct (existsb _ m); [done |].
    assert (HF := same_filter (fun e => bool_decide (category (definition e) = c)) _ _ HRq).
    destruct (List.filter _ (requiredChecks (resolve cs ctx))) as [| x l] eqn:E1,
      (List.filter _ (requiredChecks (resolve cs' ctx))) as [| y k] eqn:E2; [done | | |].
    - by apply same_nil in HF.
    - symmetry in HF. by apply same_nil in HF.
    - by apply same_forallb. }
  assert (HD : forall p, existsb p (requiredChecks (resolve cs ctx)) = existsb p (requiredChecks (resolve cs' ctx)))
    by (intros p; by apply same_existsb).
  split.
  - unfold deriveBlockingSummary. by rewrite HD, !HRole, HCat.
  - unfold deriveTerminalSummary, hasPublishedTallyMismatch, deriveSuccessfulEvidenceSummary.
    cbn [forallb]. rewrite !HD, !HRole, !HCat, !HM, HAll.
    change (hasUnknown (resolve cs ctx)) with (resolveChecks cs).2. rewrite HU.
    rewrite (same_existsb _ _ _ HOp). unfold hasDemoEvidence.
    by rewrite (same_existsb _ (resolved (resolve cs ctx)) (resolved (resolve cs' ctx))).
Qed.

(** The verdict is a function of the set of check results: neither their
    order nor repeated entries change the status, the tone or the message. *)
Theorem summary_depends_on_set cs cs' ctx :
  (forall c, c ∈ cs <-> c ∈ cs') ->
  deriveVerificationSummary (Some cs) ctx = deriveVerificationSummary (Some cs') ctx.
Proof.
  intros Hs. rewrite !derive_unfold. destruct (same_resolveChecks cs cs' Hs) as [HR _].
  destruct (same_resolve cs cs' ctx Hs) as [-> ->].
  destruct (resolveChecks cs).1 as [| x l] eqn:E1, (resolveChecks cs').1 as [| y k] eqn:E2; try done.
  - assert (Hy := proj2 (HR y) (list_elem_of_here _ _)). by apply elem_of_nil in Hy.
  - assert (Hx := proj1 (HR x) (list_elem_of_here _ _)). by apply elem_of_nil in Hx.
Qed.

(** A failed required check fails the role or the category the verdict reads. *)
Lemma stark_is_proof d :
  d ∈ VERIFICATION_CHECK_DEFINITIONS -> category d = stark_verification -> role d = proof_verification.
Proof.
  intros Hd Hc.
  assert (H := all_definitions (fun d => bool_decide (category d = stark_verification -> role d = proof_verification))
    ltac:(by vm_compute) d Hd). by apply bool_decide_eq_true in H; apply H.
Qed.

Lemma role_failed_intro res e :
  e ∈ res -> status (check e) = st_failed -> resolveRoleStatus res (role (definition e)) = Some st_failed.
Proof. intros He Hs. apply resolveRoleStatus_failed, role_statuses_spec. by exists e. Qed.

Lemma categoryFailed_spec l c :
  categoryFailed l c = true <->
  exists e, e ∈ l /\ category (definition e) = c /\ status (check e) = st_failed.
Proof.
  unfold categoryFailed. rewrite existsb_spec. split; intros (e & He & Hp); exists e;
    rewrite andb_true_iff, !bool_decide_eq_true in *; tauto.
Qed.

Lemma resolved_entry cs c d :
  c ∈ cs -> d ∈ VERIFICATION_CHECK_DEFINITIONS -> check_id_string (def_id d) = check_id c ->
  mkResolved c d ∈ (resolveChecks cs).1.
Proof. intros Hc Hd He. apply resolveChecks_resolved. split; [done |]. by apply definition_by_id_spec. Qed.

Lemma progress_spec cs ctx :
  existsb (fun e => isInProgress (status (check e))) (requiredChecks (resolve cs ctx)) = false <->
  forall c d, c ∈ cs -> definition_by_id (check_id c) = Some d -> isRequiredCheck d ctx = true ->
    isInProgress (status c) = false.
Proof.
  rewrite existsb_none. split.
  - intros H c d Hc Hd Hr. apply (H (mkResolved c d)). apply required_spec.
    split; [by apply resolveChecks_resolved | done].
  - intros H [c d] [[Hc Hd]%resolveChecks_resolved Hr]%required_spec. by eapply H.
Qed.

(** A failed check is never hidden: if a required check of the list failed
    and no required check is still in progress, the verdict's tone is "failed",
    whatever the other results, the context and the evidence labels. *)
Theorem failed_check_not_hidden cs ctx c d :
  c ∈ cs -> definition_by_id (check_id c) = Some d -> isRequiredCheck d ctx = true ->
  status c = st_failed ->
  (forall c' d', c' ∈ cs -> definition_by_id (check_id c') = Some d' ->
     isRequiredCheck d' ctx = true -> isInProgress (status c') = false) ->
  exists r, deriveVerificationSummary (Some cs) ctx = Some r /\ tone r = tone_failed.
Proof.
  intros Hc Hd Hr Hf Hprog. apply progress_spec in Hprog. rewrite derive_unfold.
  assert (He : mkResolved c d ∈ (resolveChecks cs).1) by (by apply resolveChecks_resolved).
  apply definition_by_id_spec in Hd as [Hdef _].
  destruct (resolveChecks cs).1 as [| x l] eqn:E; [by apply elem_of_nil in He |]. rewrite <- E in *. clear E x l.
  assert (Hreq : mkResolved c d ∈ requiredChecks (resolve cs ctx)) by (by apply required_spec).
  assert (Hcat : categoryFailed (requiredChecks (resolve cs ctx)) (category d) = true)
    by (apply categoryFailed_spec; by exists (mkResolved c d)).
  eexists. split; [done |]. unfold deriveBlockingSummary. rewrite Hprog.
  case_bool_decide as Hproof; [done |]. case_bool_decide as Hcompl; [done |].
  destruct (categoryFailed (requiredChecks (resolve cs ctx)) recorded_as_cast) eqn:Erec; [done |].
  unfold deriveTerminalSummary. destruct (hasPublishedTallyMismatch _ _); [done |].
  destruct (category d) eqn:Ecat.
  - destruct (categoryFailed _ counted_as_recorded); [done |]. by rewrite Hcat.
  - congruence.
  - by rewrite Hcat.
  - exfalso. apply Hproof. rewrite <- (stark_is_proof d Hdef Ecat).
    by apply (role_failed_intro (resolved (resolve cs ctx)) (mkResolved c d)).
Qed.

(** What a list of results must be for the verdict "fully verified". *)
Definition fully_verified_results (cs : list VerificationCheck)
    (ctx : option VerificationSummaryContext) : Prop :=
  flag (ctx ≫= devModeEvidence) = false /\
  (forall d, d ∈ VERIFICATION_CHECK_DEFINITIONS -> isRequiredCheck d ctx = true ->
     exists c, c ∈ cs /\ check_id c = check_id_string (def_id d)) /\
  (forall c, c ∈ cs -> exists d, definition_by_id (check_id c) = Some d /\ evidence c <> ev_demo /\
     if isRequiredCheck d ctx then status c = st_success
     else status c <> st_failed /\ status c <> st_not_run).

Lemma blocking_not_fully e ctx r :
  deriveBlockingSummary e ctx = Some r -> summary r <> fully_verified.
Proof.
  unfold deriveBlockingSummary. repeat case_match; intros [= <-]; try done.
  unfold deriveExclusionSummary. by repeat case_match.
Qed.

Lemma required_lookup id d ctx :
  lookup_definition id = Some d -> criticality d = required ->
  d ∈ VERIFICATION_CHECK_DEFINITIONS /\ isRequiredCheck d ctx = true.
Proof.
  intros [Hin _]%find_some Hc. split; [by apply list_elem_of_In |].
  unfold isRequiredCheck, isVerificationCheckRequired. by destruct (decide (criticality d = required)).
Qed.

Lemma required_role (r : VerificationCheckRole) ctx :
  r = tally_completeness \/ r = user_inclusion ->
  exists d, d ∈ VERIFICATION_CHECK_DEFINITIONS /\ isRequiredCheck d ctx = true /\ role d = r.
Proof.
  intros [-> | ->].
  - destruct (required_lookup counted_missing_indices_zero _ ctx eq_refl eq_refl) as [Hin Hr].
    eexists. split; [exact Hin | by split].
  - destruct (required_lookup counted_my_vote_included _ ctx eq_refl eq_refl) as [Hin Hr].
    eexists. split; [exact Hin | by split].
Qed.

Lemma no_required_status cs ctx s :
  existsb (fun e => bool_decide (status (check e) = s)) (requiredChecks (resolve cs ctx)) = false ->
  forall c d, c ∈ cs -> definition_by_id (check_id c) = Some d -> isRequiredCheck d ctx = true ->
    status c <> s.
Proof.
  rewrite existsb_none. intros H c d Hc Hd Hr Hs.
  specialize (H (mkResolved c d)). rewrite bool_decide_eq_false in H. apply H; [| done].
  apply required_spec. split; [by apply resolveChecks_resolved | done].
Qed.

Lemma fully_verified_sound cs ctx r :
  deriveVerificationSummary (Some cs) ctx = Some r -> summary r = fully_verified ->
  fully_verified_results cs ctx.
Proof.
  rewrite derive_unfold. intros E Hr.
  destruct (resolveChecks cs).1 as [| x l] eqn:Ec; [done |]. clear Ec x l. injection E as <-.
  destruct (deriveBlockingSummary (resolve cs ctx) ctx) as [b |] eqn:Eb; [by apply blocking_not_fully in Eb |].
  revert Eb Hr. unfold deriveBlockingSummary.
  destruct (existsb _ (requiredChecks (resolve cs ctx))) eqn:Hprog; [done |].
  case_bool_decide as Hproof; [done |]. case_bool_decide as Hcompl; [done |].
  destruct (categoryFailed _ recorded_as_cast) eqn:Hrec; [done |]. intros _.
  unfold deriveTerminalSummary. cbv zeta.
  destruct (existsb (fun e => bool_decide (status (check e) = st_not_run)) _) eqn:Hnot;
    (destruct (hasPublishedTallyMismatch _ _); [done |]);
    (destruct (categoryFailed _ counted_as_recorded) eqn:Hcnt; [done |]);
    (destruct (categoryFailed _ cast_as_intended) eqn:Hcast; [done |]); [done |].
  destruct (hasUnknown (resolve cs ctx)) eqn:Hunk; [done |]. cbn [orb].
  destruct (negb (is_some _) || _) eqn:Hroles; [done |]. cbn [orb].
  case_bool_decide as Hmiss; [| done]. cbn [negb].
  unfold deriveSuccessfulEvidenceSummary.
  destruct (flag _ || hasDemoEvidence _) eqn:Hdemo; [done |]. apply orb_false_iff in Hdemo as [Hdev Hdemo].
  destruct (existsb _ (optionalChecks (resolve cs ctx))) eqn:Hopt; [done |]. intros _.
  split_and!; [done | |].
  - intros d Hd Hreq. destruct (proj1 (missing_nil cs ctx) Hmiss d Hd Hreq) as (e & He & <-).
    apply resolveChecks_resolved in He as [Hc [_ Hid]%definition_by_id_spec]. by exists (check e).
  - intros c Hc. destruct (definition_by_id (check_id c)) as [d |] eqn:Ed.
    2: { change (hasUnknown (resolve cs ctx)) with (resolveChecks cs).2 in Hunk.
         rewrite (proj2 (resolveChecks_unknown cs)) in Hunk; [done |]. by exists c. }
    exists d. split; [done |].
    assert (He : mkResolved c d ∈ (resolveChecks cs).1) by (by apply resolveChecks_resolved).
    split.
    { unfold hasDemoEvidence in Hdemo. rewrite existsb_none in Hdemo.
      by apply (Hdemo (mkResolved c d)), bool_decide_eq_false in He. }
    destruct (isRequiredCheck d ctx) eqn:Hreq.
    + assert (H1 := proj1 (progress_spec cs ctx) Hprog c d Hc Ed Hreq).
      assert (H2 := no_required_status cs ctx st_not_run Hnot c d Hc Ed Hreq).
      assert (Hq : mkResolved c d ∈ requiredChecks (resolve cs ctx)) by (by apply required_spec).
      destruct (status c) eqn:Es; try done. exfalso.
      apply definition_by_id_spec in Ed as [Hdef _].
      assert (Hcf : categoryFailed (requiredChecks (resolve cs ctx)) (category d) = true)
        by (apply categoryFailed_spec; by exists (mkResolved c d)).
      destruct (category d) eqn:Ecat; try congruence.
      apply Hproof. rewrite <- (stark_is_proof d Hdef Ecat).
      by apply (role_failed_intro (resolved (resolve cs ctx)) (mkResolved c d)).
    + rewrite existsb_none in Hopt. specialize (Hopt (mkResolved c d)).
      rewrite orb_false_iff, !bool_decide_eq_false in Hopt. apply Hopt. by apply optional_spec.
Qed.

Lemma fully_required_success cs ctx e :
  fully_verified_results cs ctx -> e ∈ requiredChecks (resolve cs ctx) -> status (check e) = st_success.
Proof.
  intros (_ & _ & Hall) [[Hc Hd]%resolveChecks_resolved Hreq]%required_spec.
  destruct (Hall _ Hc) as (d & Hd' & _ & Hs). rewrite Hd in Hd'. injection Hd' as <-.
  by rewrite Hreq in Hs.
Qed.

Lemma fully_verified_complete cs ctx :
  fully_verified_results cs ctx ->
  deriveVerificationSummary (Some cs) ctx = Some (mkResult fully_verified tone_verified None).
Proof.
  intros HF. assert (Hok := fun e => fully_required_success cs ctx e HF).
  destruct HF as (Hdev & Hpres & Hall).
  assert (Hmiss : missingRequiredChecks (resolve cs ctx) = []).
  { apply missing_nil. intros d Hd Hr. destruct (Hpres d Hd Hr) as (c & Hc & Hid).
    exists (mkResolved c d). split; [by apply resolved_entry | done]. }
  assert (Hrole : forall r, r = tally_completeness \/ r = user_inclusion ->
    exists w, resolveRoleStatus (resolved (resolve cs ctx)) r = Some w).
  { intros r Hr. destruct (required_role r ctx Hr) as (d & Hd & Hreq & Erole).
    destruct (proj1 (missing_nil cs ctx) Hmiss d Hd Hreq) as (e & He & Ed).
    assert (H := resolveRoleStatus_spec (resolved (resolve cs ctx)) r).
    destruct (resolveRoleStatus _ r) as [w |]; [by exists w |]. exfalso.
    assert (Hs : status (check e) ∈ role_statuses (resolved (resolve cs ctx)) r)
      by (apply role_statuses_spec; exists e; by rewrite Ed).
    rewrite H in Hs. by apply elem_of_nil in Hs. }
  assert (Hno : forall s, s <> st_success ->
    existsb (fun e => bool_decide (status (check e) = s)) (requiredChecks (resolve cs ctx)) = false).
  { intros s Hs. apply existsb_none. intros e He. apply bool_decide_eq_false. by rewrite Hok. }
  assert (Hcat : forall c, categoryFailed (requiredChecks (resolve cs ctx)) c = false).
  { intros c. apply existsb_none. intros e He. by rewrite (Hok e He), andb_false_r. }
  assert (Hnf : forall r, (forall d, d ∈ VERIFICATION_CHECK_DEFINITIONS -> role d = r ->
      criticality d = required) -> resolveRoleStatus (resolved (resolve cs ctx)) r <> Some st_failed).
  { intros r Hcrit [e (He & Hr & Hs)]%resolveRoleStatus_failed%role_statuses_spec.
    assert (He' := He). apply resolveChecks_resolved in He' as [_ [Hdef _]%definition_by_id_spec].
    assert (Hreq : e ∈ requiredChecks (resolve cs ctx)); [| by rewrite (Hok e Hreq) in Hs].
    apply required_spec. split; [done |]. unfold isRequiredCheck, isVerificationCheckRequired.
    destruct (decide (criticality (definition e) = required)) as [| Hne]; [done |]. by destruct Hne; apply Hcrit. }
  rewrite derive_unfold. destruct (resolveChecks cs).1 as [| x l] eqn:Ec.
  { destruct (Hrole user_inclusion ltac:(by right)) as (w & Hw).
    change (resolved (resolve cs ctx)) with (resolveChecks cs).1 in Hw. by rewrite Ec in Hw. }
  clear Ec x l. f_equal.
  assert (Eb : deriveBlockingSummary (resolve cs ctx) ctx = None).
  { unfold deriveBlockingSummary. rewrite (proj2 (existsb_none _ _)).
    2: { intros e He. by rewrite (Hok e He). }
    rewrite !bool_decide_eq_false_2; [by rewrite Hcat | |];
      apply Hnf; intros d Hd Hr; revert d Hd Hr.
    - intros d Hd Hr. assert (H := all_definitions (fun d => bool_decide (role d = tally_completeness ->
        criticality d = required)) ltac:(by vm_compute) d Hd). by apply bool_decide_eq_true in H; apply H.
    - intros d Hd Hr. assert (H := all_definitions (fun d => bool_decide (role d = proof_verification ->
        criticality d = required)) ltac:(by vm_compute) d Hd). by apply bool_decide_eq_true in H; apply H. }
  rewrite Eb. unfold deriveTerminalSummary. rewrite Hno by done.
  assert (Hpm : hasPublishedTallyMismatch (resolve cs ctx) false = false).
  { unfold hasPublishedTallyMismatch. rewrite (bool_decide_eq_false_2 (resolveRoleStatus _ tally_consistency = _)); [done |].
    apply Hnf. intros d Hd Hr. assert (H := all_definitions (fun d => bool_decide (role d = tally_consistency ->
        criticality d = required)) ltac:(by vm_compute) d Hd). by apply bool_decide_eq_true in H; apply H. }
  rewrite Hpm, !Hcat.
  destruct (Hrole tally_completeness ltac:(by left)) as (w1 & ->).
  destruct (Hrole user_inclusion ltac:(by right)) as (w2 & ->).
  assert (Hunk : hasUnknown (resolve cs ctx) = false).
  { apply not_true_iff_false. intros (c & Hc & Hd)%resolveChecks_unknown.
    destruct (Hall c Hc) as (d & Hd' & _). congruence. }
  rewrite Hunk, (bool_decide_eq_true_2 _ Hmiss). cbn [orb negb is_some].
  unfold deriveSuccessfulEvidenceSummary. rewrite Hdev.
  assert (Hdemo : hasDemoEvidence (resolved (resolve cs ctx)) = false).
  { apply existsb_none. intros e [Hc Hd]%resolveChecks_resolved. apply bool_decide_eq_false.
    by destruct (Hall _ Hc) as (d & _ & He & _). }
  rewrite Hdemo. cbn [orb]. rewrite (proj2 (existsb_none _ _)); [done |].
  intros e [[Hc Hd]%resolveChecks_resolved Hreq]%optional_spec.
  destruct (Hall _ Hc) as (d & Hd' & _ & Hs). rewrite Hd in Hd'. injection Hd' as <-. rewrite Hreq in Hs.
  by rewrite !bool_decide_eq_false_2 by apply Hs.
Qed.

(** C4: "fully verified" characterised: it is the verdict exactly when the
    development mode is off, every required check is present, every entry names
    a known check without demonstration evidence, every required entry
    succeeded, and no optional entry failed or was not run. *)
Theorem fully_verified_iff cs ctx :
  (exists r, deriveVerificationSummary (Some cs) ctx = Some r /\ summary r = fully_verified) <->
  fully_verified_results cs ctx.
Proof.
  split.
  - intros (r & E & Hr). by eapply fully_verified_sound.
  - intros HF. eexists. split; [by apply fully_verified_complete | done].
Qed.

(** ** Witnesses *)

Definition check_of (s : VerificationStepStatus) (d : VerificationCheckDefinition) : VerificationCheck :=
  mkCheck (check_id_string (def_id d)) s (def_evidence d) (def_inputs d) (def_derivedFrom d) None.

Definition all_success : list VerificationCheck := map (check_of st_success) VERIFICATION_CHECK_DEFINITIONS.

Definition tally_failed : list VerificationCheck :=
  map (fun d => check_of (if decide (def_id d = counted_tally_consistent) then st_failed else st_success) d)
    VERIFICATION_CHECK_DEFINITIONS.

Example all_success_verdict :
  deriveVerificationSummary (Some all_success) None = Some (mkResult fully_verified tone_verified None).
Proof. vm_compute. reflexivity. Qed.

Example tally_failed_verdict :
  deriveVerificationSummary (Some tally_failed) None
  = Some (mkResult published_tally_mismatch tone_failed None).
Proof. vm_compute. reflexivity. Qed.

Lemma summary_depends_on_set_witness :
  deriveVerificationSummary (Some (rev tally_failed)) None
  = deriveVerificationSummary (Some tally_failed) None.
Proof.
  apply (summary_depends_on_set (rev tally_failed) tally_failed None).
  intros c. rewrite !list_elem_of_In, <- in_rev. done.
Defined.

Lemma failed_check_not_hidden_witness :
  exists r, deriveVerificationSummary (Some tally_failed) None = Some r /\ tone r = tone_failed.
Proof.
  destruct (lookup_definition counted_tally_consistent) as [d |] eqn:Ed; [| discriminate Ed].
  apply (failed_check_not_hidden tally_failed None (check_of st_failed d) d).
  - apply map_spec. exists d. injection Ed as <-. split; [| reflexivity].
    apply list_elem_of_In. do 13 right. left. reflexivity.
  - injection Ed as <-. vm_compute. reflexivity.
  - injection Ed as <-. reflexivity.
  - reflexivity.
  - intros c' d' Hc _ _. apply list_elem_of_In in Hc.
    repeat destruct Hc as [<- | Hc]; try reflexivity. destruct Hc.
Defined.
