(* ===== verification/Contract.v ===== *)
(** The hashing contract shared with the zkVM guest
    (packages/zkvm-contract/src/zkvm: types.ts, hex.ts, election-config.ts,
    work-budget.ts): vote commitments, the canonical encoding behind the input
    commitment, the STH digest, the election configuration hash and the work
    budget of the guest. *)
From stdpp Require Import pretty.
From S2P Require Import Prelude.
From S2P Require Import JsNumber.
From S2P Require Import Hex.

Module Contract.

(** ** Constants (semantic-contract.generated.ts, types.ts) *)

Definition CURRENT_METHOD_VERSION : Z := 14.
Definition INPUT_COMMITMENT_FORMAT_VERSION : Z := 10.
Definition VERIFIED_TALLY_WIDTH : Z := 5.
Definition UINT8_MAX : Z := 255.
Definition UINT16_MAX : Z := 65535.
Definition UINT32_MAX : Z := 4294967295.
Definition TS_SAFE_UINT64_MAX : Z := MAX_SAFE_INTEGER.

Definition utf8ToBytes (s : string) : bytes := map char_code (String.list_ascii_of_string s).

Definition COMMIT_DOMAIN_TAG : bytes := utf8ToBytes "stark-ballot:commit|v1.0".
Definition INPUT_DOMAIN_TAG : bytes := utf8ToBytes "stark-ballot:input|v1.0".

(** ** Data *)

Record VoteWithProof := mkVoteWithProof {
  vote_commitment : string;
  vote_choice : num;
  vote_random : string;
  vote_index : num;
  vote_merklePath : list string;
}.

Record ZkVMInput := mkZkVMInput {
  in_electionId : string;
  in_bulletinRoot : string;
  in_treeSize : num;
  in_logId : string;
  in_timestamp : num;
  in_totalExpected : num;
  in_electionConfigHash : string;
  in_votes : list VoteWithProof;
}.

Record InputCommitmentVote := mkICVote {
  ic_index : num;
  ic_commitment : string;
  ic_merklePath : list string;
}.

Record PublicInput := mkPublicInput {
  pi_electionId : string;
  pi_bulletinRoot : string;
  pi_treeSize : num;
  pi_totalExpected : num;
  pi_votes : list InputCommitmentVote;
}.

Record NormalizedInputCommitmentVote := mkNVote {
  n_index : num;
  n_commitmentBytes : bytes;
  n_merklePathBytes : list bytes;
}.

(** ** Integers and bytes *)

Definition assertUnsignedIntegerInRange (value : num) (max : Z) (fieldName : string) : result unit :=
  if negb (isSafeInteger value) || num_ltb value (NInt 0) || num_ltb (NInt max) value
  then throw (fieldName +:+ " must be an unsigned integer <= " +:+ pretty max)%string
  else Ok tt.

Definition asTreeSize (value : num) : result Z :=
  _ ← assertUnsignedIntegerInRange value UINT32_MAX "treeSize"; Ok (num_Z value).

Definition asTotalExpected (value : num) : result Z :=
  _ ← assertUnsignedIntegerInRange value UINT32_MAX "totalExpected"; Ok (num_Z value).

Definition asUnixTimestampMillis (value : num) : result Z :=
  _ ← assertUnsignedIntegerInRange value TS_SAFE_UINT64_MAX "timestamp";
  if num_leb value (NInt 0) then throw "timestamp must be positive" else Ok (num_Z value).

Definition asVoteCount (value : num) : result Z :=
  _ ← assertUnsignedIntegerInRange value UINT32_MAX "vote count"; Ok (num_Z value).

Definition asBulletinIndex (value : num) : result Z :=
  _ ← assertUnsignedIntegerInRange value UINT32_MAX "bulletin index"; Ok (num_Z value).

Definition asVoteChoiceByte (value : num) : result Z :=
  _ ← assertUnsignedIntegerInRange value UINT8_MAX "choice"; Ok (num_Z value).

(** [n] bytes of [z], least significant first, as [DataView] writes them. *)
Fixpoint little_endian (n : nat) (z : Z) : bytes :=
  match n with O => [] | S n => z mod 256 :: little_endian n (z / 256) end.

Definition uint16LE (value : num) : result bytes :=
  _ ← assertUnsignedIntegerInRange value UINT16_MAX "uint16 value"; Ok (little_endian 2 (num_Z value)).

Definition uint32LE (value : num) : result bytes :=
  _ ← assertUnsignedIntegerInRange value UINT32_MAX "uint32 value"; Ok (little_endian 4 (num_Z value)).

Definition uint64LE (value : Z) : bytes := little_endian 8 value.

Section with_noble.
Context `{Noble}.

(** hex.ts of this package: the checks come before the library is called. *)
Definition hexToBytesStrict (hex : string) : result bytes :=
  let normalized := normalizeHexString hex in
  if negb (str_truthy normalized) then throw "Invalid hex string: empty"
  else if negb (Z.eqb (slen normalized mod 2) 0) then throw "Invalid hex string: odd length"
  else if negb (string_all is_lower_hex normalized) then throw "Invalid hex string"
  else match hexToBytes normalized with Some b => Ok b | None => throw "RangeError" end.

Fixpoint remove_dashes (s : string) : string :=
  match s with
  | EmptyString => EmptyString
  | String c s' => if Ascii.eqb c "-" then remove_dashes s' else String c (remove_dashes s')
  end.

Definition toUuidBytes (uuid : string) : result bytes := hexToBytesStrict (remove_dashes uuid).

(** ** Canonical order of the votes *)

Fixpoint compareUint8Arrays (l r : bytes) : Z :=
  match l, r with
  | a :: l', b :: r' => if Z.eqb a b then compareUint8Arrays l' r' else a - b
  | _, _ => zlength l - zlength r
  end.

Fixpoint compareMerklePaths (l r : list bytes) : Z :=
  match l, r with
  | a :: l', b :: r' =>
      let comparison := compareUint8Arrays a b in
      if Z.eqb comparison 0 then compareMerklePaths l' r' else comparison
  | _, _ => zlength l - zlength r
  end.

(** The sign of [a - b]: [sort] reads only the sign, and NaN as zero. *)
Definition difference_sign (a b : num) : Z :=
  if num_ltb a b then -1 else if num_ltb b a then 1 else 0.

Definition compareInputCommitmentVotes (l r : NormalizedInputCommitmentVote) : Z :=
  if negb (num_eqb (n_index l) (n_index r)) then difference_sign (n_index l) (n_index r)
  else
    let commitmentComparison := compareUint8Arrays (n_commitmentBytes l) (n_commitmentBytes r) in
    if negb (Z.eqb commitmentComparison 0) then commitmentComparison
    else compareMerklePaths (n_merklePathBytes l) (n_merklePathBytes r).

(** [Array.prototype.sort]: the stable sort by a comparison. *)
Fixpoint sort_insert {A} (cmp : A -> A -> Z) (x : A) (l : list A) : list A :=
  match l with
  | [] => [x]
  | y :: l' => if Z.leb (cmp x y) 0 then x :: y :: l' else y :: sort_insert cmp x l'
  end.

Fixpoint js_sort {A} (cmp : A -> A -> Z) (l : list A) : list A :=
  match l with [] => [] | x :: l' => sort_insert cmp x (js_sort cmp l') end.

(** [array.map(f)] where [f] may throw. *)
Fixpoint map_result {A B} (f : A -> result B) (l : list A) : result (list B) :=
  match l with
  | [] => Ok []
  | x :: l' => y ← f x; ys ← map_result f l'; Ok (y :: ys)
  end.

Definition normalizeInputCommitmentVote (vote : InputCommitmentVote) :
    result NormalizedInputCommitmentVote :=
  c ← hexToBytesStrict (ic_commitment vote);
  p ← map_result hexToBytesStrict (ic_merklePath vote);
  Ok (mkNVote (ic_index vote) c p).

Definition toCanonicalInputCommitmentVote (vote : NormalizedInputCommitmentVote) :
    InputCommitmentVote :=
  mkICVote (n_index vote) ("0x" +:+ bytesToHex (n_commitmentBytes vote))%string
    (map (fun node => "0x" +:+ bytesToHex node)%string (n_merklePathBytes vote)).

Definition canonicalizeInputCommitmentVotesForEncoding (votes : list InputCommitmentVote) :
    result (list InputCommitmentVote) :=
  ns ← map_result normalizeInputCommitmentVote votes;
  Ok (map toCanonicalInputCommitmentVote (js_sort compareInputCommitmentVotes ns)).

(** ** The preimage of the input commitment *)

Definition validateInputCommitmentPublicFields (input : PublicInput) : result unit :=
  e ← toUuidBytes (pi_electionId input);
  if negb (Z.eqb (zlength e) 16) then throw "electionId must encode exactly 16 bytes"
  else
    r ← hexToBytesStrict (pi_bulletinRoot input);
    if negb (Z.eqb (zlength r) 32) then throw "bulletinRoot must encode exactly 32 bytes"
    else
      _ ← assertUnsignedIntegerInRange (pi_treeSize input) UINT32_MAX "treeSize";
      _ ← assertUnsignedIntegerInRange (pi_totalExpected input) UINT32_MAX "totalExpected";
      assertUnsignedIntegerInRange (NInt (zlength (pi_votes input))) UINT32_MAX "vote count".

Fixpoint push_nodes (nodes : list bytes) : result bytes :=
  match nodes with
  | [] => Ok []
  | node :: rest =>
      if negb (Z.eqb (zlength node) 32)
      then throw "vote merklePath node must encode exactly 32 bytes"
      else tail ← push_nodes rest; Ok (node ++ tail)
  end.

Definition encode_vote (vote : NormalizedInputCommitmentVote) : result bytes :=
  _ ← assertUnsignedIntegerInRange (n_index vote) UINT32_MAX "vote index";
  if negb (Z.eqb (zlength (n_commitmentBytes vote)) 32)
  then throw "vote commitment must encode exactly 32 bytes"
  else
    _ ← assertUnsignedIntegerInRange (NInt (zlength (n_merklePathBytes vote))) UINT16_MAX
          "vote merklePath length";
    index ← uint32LE (n_index vote);
    width ← uint16LE (NInt 32);
    count ← uint16LE (NInt (zlength (n_merklePathBytes vote)));
    nodes ← push_nodes (n_merklePathBytes vote);
    Ok (index ++ width ++ n_commitmentBytes vote ++ count ++ nodes).

Fixpoint encode_votes (votes : list NormalizedInputCommitmentVote) : result bytes :=
  match votes with
  | [] => Ok []
  | vote :: rest => b ← encode_vote vote; tail ← encode_votes rest; Ok (b ++ tail)
  end.

Definition encodeInputCommitmentPreimage (input : PublicInput) : result bytes :=
  _ ← validateInputCommitmentPublicFields input;
  ns ← map_result normalizeInputCommitmentVote (pi_votes input);
  let sortedVotes := js_sort compareInputCommitmentVotes ns in
  version ← uint32LE (NInt INPUT_COMMITMENT_FORMAT_VERSION);
  e ← toUuidBytes (pi_electionId input);
  r ← hexToBytesStrict (pi_bulletinRoot input);
  t ← uint32LE (pi_treeSize input);
  x ← uint32LE (pi_totalExpected input);
  c ← uint32LE (NInt (zlength sortedVotes));
  votes ← encode_votes sortedVotes;
  Ok (INPUT_DOMAIN_TAG ++ version ++ e ++ r ++ t ++ x ++ c ++ votes).

(** [asInputCommitment] (identifiers.ts) only brands the digest. *)
Definition computeInputCommitmentFromPublicInput (input : PublicInput) : result string :=
  preimage ← encodeInputCommitmentPreimage input;
  Ok ("0x" +:+ bytesToHex (sha256 preimage))%string.

Definition computeInputCommitment (input : ZkVMInput) : result string :=
  computeInputCommitmentFromPublicInput
    (mkPublicInput (in_electionId input) (in_bulletinRoot input) (in_treeSize input)
       (in_totalExpected input)
       (map (fun v => mkICVote (vote_index v) (vote_commitment v) (vote_merklePath v))
          (in_votes input))).

(** [Uint8Array.of(choice)] keeps the integer part modulo 256. *)
Definition computeCommitment (electionId : string) (choice : Z) (random : string) : result string :=
  e ← toUuidBytes electionId;
  r ← hexToBytesStrict random;
  Ok ("0x" +:+ bytesToHex (sha256 (COMMIT_DOMAIN_TAG ++ e ++ [choice mod 256] ++ r)))%string.

Definition computeSTHDigest (logId : string) (treeSize : num) (timestamp : Z) (bulletinRoot : string) :
    result string :=
  l ← hexToBytesStrict logId;
  t ← uint32LE treeSize;
  r ← hexToBytesStrict bulletinRoot;
  Ok ("0x" +:+ bytesToHex (sha256 (l ++ t ++ uint64LE timestamp ++ r)))%string.

(** ** election-config.ts *)

Record ElectionConfig := mkElectionConfig {
  cfg_totalExpected : Z;
  cfg_choices : list string;
  cfg_version : string;
  cfg_botCount : Z;
  cfg_merkleTreeDepth : Z;
}.

Definition VOTE_CHOICES : list string := ["A"; "B"; "C"; "D"; "E"]%string.
Definition BOT_COUNT : Z := 63.
Definition MERKLE_TREE_DEPTH : Z := 6.

Definition buildDefaultElectionConfig : ElectionConfig :=
  mkElectionConfig (BOT_COUNT + 1) VOTE_CHOICES "v1.0" BOT_COUNT MERKLE_TREE_DEPTH.

Definition cloneElectionConfig (c : ElectionConfig) : ElectionConfig :=
  mkElectionConfig (cfg_totalExpected c) (cfg_choices c) (cfg_version c) (cfg_botCount c)
    (cfg_merkleTreeDepth c).

(** [JSON.stringify] of ASCII text. *)
Definition quote : ascii := ascii_of_nat 34.
Definition backslash : ascii := ascii_of_nat 92.

Definition hex_digit_of (n : Z) : ascii :=
  ascii_of_N (Z.to_N (if Z.ltb n 10 then 48 + n else 87 + n)).

Definition escape_char (c : ascii) : string :=
  let n := char_code c in
  if Z.eqb n 34 then String backslash (String quote EmptyString)
  else if Z.eqb n 92 then String backslash (String backslash EmptyString)
  else if Z.eqb n 8 then String backslash "b"
  else if Z.eqb n 12 then String backslash "f"
  else if Z.eqb n 10 then String backslash "n"
  else if Z.eqb n 13 then String backslash "r"
  else if Z.eqb n 9 then String backslash "t"
  else if Z.ltb n 32 then
    String backslash ("u00" +:+ String (hex_digit_of (n / 16)) (String (hex_digit_of (n mod 16)) EmptyString))
  else String c EmptyString.

Fixpoint escape (s : string) : string :=
  match s with EmptyString => EmptyString | String c s' => (escape_char c +:+ escape s')%string end.

Definition json_string (s : string) : string :=
  (String quote EmptyString +:+ escape s +:+ String quote EmptyString)%string.

Fixpoint join (sep : string) (l : list string) : string :=
  match l with
  | [] => EmptyString
  | [x] => x
  | x :: l' => (x +:+ sep +:+ join sep l')%string
  end.

Definition json_field (key value : string) : string := (json_string key +:+ ":" +:+ value)%string.

Definition canonicalConfig (c : ElectionConfig) : string :=
  ("{" +:+ join ","
     [json_field "totalExpected" (pretty (cfg_totalExpected c));
      json_field "choices" ("[" +:+ join "," (map json_string (cfg_choices c)) +:+ "]");
      json_field "version" (json_string (cfg_version c));
      json_field "botCount" (pretty (cfg_botCount c));
      json_field "merkleTreeDepth" (pretty (cfg_merkleTreeDepth c))] +:+ "}")%string.

Definition hashElectionConfig (c : ElectionConfig) : string :=
  ("0x" +:+ bytesToHex (sha256 (utf8ToBytes (canonicalConfig c))))%string.

Definition getDefaultElectionConfigHash : string := hashElectionConfig buildDefaultElectionConfig.

Definition hasMatchingElectionConfigHash (c : ElectionConfig) (hash : string) : bool :=
  String.eqb (normalizeHexString (hashElectionConfig c)) (normalizeHexString hash).

End with_noble.

(** ** work-budget.ts: the bounds are those of the semantic contract *)

Definition MAX_GUEST_TREE_SIZE : Z := 1000000.
Definition MAX_GUEST_TOTAL_EXPECTED : Z := 1000000.
Definition MAX_GUEST_VOTE_COUNT : Z := 1000000.
Definition MAX_GUEST_MERKLE_PATH_NODES_PER_RECORD : Z := 65535.
Definition MAX_GUEST_TOTAL_PATH_NODES : Z := 1000000.
Definition MAX_GUEST_SERIALIZED_INPUT_BYTES : Z := 67108864.

Definition FIXED_INPUT_BYTES : Z := 16 + 32 + 4 + 32 + 8 + 4 + 32.
Definition VOTE_FIXED_BYTES : Z := 32 + 1 + 32 + 4.
Definition VEC_LEN_BYTES : Z := 8.
Definition MERKLE_PATH_NODE_BYTES : Z := 32.

Record GuestWorkBudget := mkBudget {
  totalPathNodes : Z;
  structuralInputBytes : Z;
  serializedInputBytes : option Z;
}.

Definition asStructuralInputBytes (value : Z) : result Z :=
  if negb (safe_Z value) || Z.ltb value 0
  then throw "structural input bytes must be a non-negative safe integer" else Ok value.

Definition asSerializedInputBytes (value : num) : result Z :=
  if negb (isSafeInteger value) || num_ltb value (NInt 0)
  then throw "serialized input bytes must be a non-negative safe integer" else Ok (num_Z value).

Fixpoint path_nodes_loop (votes : list VoteWithProof) (total : Z) : result Z :=
  match votes with
  | [] => Ok total
  | vote :: rest =>
      let pathLength := zlength (vote_merklePath vote) in
      if Z.ltb MAX_GUEST_MERKLE_PATH_NODES_PER_RECORD pathLength
      then throw "zkVM input Merkle path length exceeds per-record budget"
      else if negb (safe_Z (total + pathLength))
      then throw "total Merkle path nodes exceed JavaScript safe integer range"
      else path_nodes_loop rest (total + pathLength)
  end.

Definition calculateTotalPathNodes (votes : list VoteWithProof) : result Z := path_nodes_loop votes 0.

Definition calculateStructuralInputBytes (votes : list VoteWithProof) : result Z :=
  nodes ← calculateTotalPathNodes votes;
  asStructuralInputBytes (FIXED_INPUT_BYTES + VEC_LEN_BYTES +
    zlength votes * (VOTE_FIXED_BYTES + VEC_LEN_BYTES) + nodes * MERKLE_PATH_NODE_BYTES).

Definition validateGuestWorkBudget (input : ZkVMInput) (serialized : option num) :
    result GuestWorkBudget :=
  if num_ltb (in_treeSize input) (NInt 1) || num_ltb (NInt MAX_GUEST_TREE_SIZE) (in_treeSize input)
  then throw "zkVM input treeSize exceeds guest contract bounds"
  else if num_ltb (NInt MAX_GUEST_TOTAL_EXPECTED) (in_totalExpected input)
  then throw "zkVM input totalExpected exceeds guest contract bound"
  else if Z.ltb MAX_GUEST_VOTE_COUNT (zlength (in_votes input))
  then throw "zkVM input vote count exceeds guest contract bound"
  else
    nodes ← calculateTotalPathNodes (in_votes input);
    if Z.ltb MAX_GUEST_TOTAL_PATH_NODES nodes
    then throw "zkVM input exceeds total Merkle path node budget"
    else
      structural ← calculateStructuralInputBytes (in_votes input);
      if Z.ltb MAX_GUEST_SERIALIZED_INPUT_BYTES structural
      then throw "zkVM input exceeds structural byte budget"
      else
        serializedBytes ← match serialized with
                          | None => Ok None
                          | Some v => b ← asSerializedInputBytes v; Ok (Some b)
                          end;
        match serializedBytes with
        | Some b =>
            if Z.ltb MAX_GUEST_SERIALIZED_INPUT_BYTES b
            then throw "zkVM input exceeds serialized byte budget"
            else if Z.ltb b structural
            then throw "zkVM serialized JSON byte count must dominate structural byte estimate"
            else Ok (mkBudget nodes structural (Some b))
        | None => Ok (mkBudget nodes structural None)
        end.

End Contract.
