(* ===== verification/ContractFacts.v ===== *)
(** Order, encoding and bounds lemmas of the hashing contract. *)
From S2P Require Import Prelude.
From S2P Require Import JsNumber.
From S2P Require Import Hex.
From S2P Require Import MerkleSpec.
From S2P Require Import Contract.
Import Contract.

(** ** Lexicographic comparison *)

Record comparison_ok {A} (e : A -> A -> Z) : Prop := {
  cmp_eq a b : e a b = 0 <-> a = b;
  cmp_opp a b : e a b < 0 <-> 0 < e b a;
  cmp_trans a b c : e a b <= 0 -> e b c <= 0 -> e a c <= 0;
}.

Fixpoint lex {A} (e : A -> A -> Z) (l r : list A) : Z :=
  match l, r with
  | a :: l', b :: r' => if Z.eqb (e a b) 0 then lex e l' r' else e a b
  | _, _ => zlength l - zlength r
  end.

Section lex.
Context {A} (e : A -> A -> Z) (He : comparison_ok e).

Lemma cmp_refl a : e a a = 0.
Proof. by apply (cmp_eq e He). Qed.

Lemma lex_eq l : forall r, lex e l r = 0 <-> l = r.
Proof.
  induction l as [| a l IH]; intros [| b r]; simpl.
  - done.
  - unfold zlength. simpl. split; [lia | done].
  - unfold zlength. simpl. split; [lia | done].
  - destruct (Z.eqb_spec (e a b) 0) as [E | E].
    + rewrite IH. apply (cmp_eq e He) in E as ->. split; [by intros -> | by intros [= ->]].
    + split; [done |]. intros [= -> ->]. by rewrite cmp_refl in E.
Qed.

Lemma lex_opp l : forall r, lex e l r < 0 <-> 0 < lex e r l.
Proof.
  induction l as [| a l IH]; intros [| b r]; simpl; try (unfold zlength; simpl; lia).
  destruct (Z.eqb_spec (e a b) 0) as [E | E], (Z.eqb_spec (e b a) 0) as [E' | E'].
  - apply IH.
  - apply (cmp_eq e He) in E as ->. by rewrite cmp_refl in E'.
  - apply (cmp_eq e He) in E' as ->. by rewrite cmp_refl in E.
  - apply (cmp_opp e He).
Qed.

Lemma cmp_strict_trans a b c : e a b < 0 -> e b c <= 0 -> e a c < 0.
Proof.
  intros H1 H2. assert (H3 := cmp_trans e He a b c ltac:(lia) H2).
  destruct (Z.eq_dec (e a c) 0) as [E |]; [| lia].
  apply (cmp_eq e He) in E as ->. apply (cmp_opp e He) in H1. lia.
Qed.

Lemma cmp_strict_trans' a b c : e a b <= 0 -> e b c < 0 -> e a c < 0.
Proof.
  intros H1 H2. assert (H3 := cmp_trans e He a b c H1 ltac:(lia)).
  destruct (Z.eq_dec (e a c) 0) as [E |]; [| lia].
  apply (cmp_eq e He) in E as ->. apply (cmp_opp e He) in H2. lia.
Qed.

Lemma lex_trans l : forall r s, lex e l r <= 0 -> lex e r s <= 0 -> lex e l s <= 0.
Proof.
  induction l as [| a l IH]; intros [| b r] [| c s]; simpl; try (unfold zlength; simpl; lia).
  destruct (Z.eqb_spec (e a b) 0) as [E1 | E1].
  - apply (cmp_eq e He) in E1 as ->. destruct (Z.eqb_spec (e b c) 0); [apply IH | done].
  - destruct (Z.eqb_spec (e b c) 0) as [E2 | E2].
    + apply (cmp_eq e He) in E2 as ->. destruct (Z.eqb_spec (e a c) 0); [done | lia].
    + intros H1 H2. assert (H3 := cmp_strict_trans a b c ltac:(lia) H2).
      destruct (Z.eqb_spec (e a c) 0); lia.
Qed.

Lemma lex_ok : comparison_ok (lex e).
Proof.
  split.
  - intros a b. apply lex_eq.
  - intros a b. apply lex_opp.
  - intros a b c. apply lex_trans.
Qed.

End lex.

Lemma Z_sub_ok : comparison_ok Z.sub.
Proof. split; intros; lia. Qed.

Lemma compareUint8Arrays_lex l : forall r, compareUint8Arrays l r = lex Z.sub l r.
Proof.
  induction l as [| a l IH]; intros [| b r]; simpl; try done.
  destruct (Z.eqb_spec a b), (Z.eqb_spec (a - b) 0); try lia. apply IH.
Qed.

Lemma compareUint8Arrays_ok : comparison_ok compareUint8Arrays.
Proof.
  destruct (lex_ok _ Z_sub_ok) as [Heq Hopp Htr].
  split; intros; rewrite !compareUint8Arrays_lex in *; eauto.
Qed.

Lemma compareMerklePaths_lex l : forall r, compareMerklePaths l r = lex compareUint8Arrays l r.
Proof. induction l as [| a l IH]; intros [| b r]; simpl; try done. by rewrite IH. Qed.

Lemma compareMerklePaths_ok : comparison_ok compareMerklePaths.
Proof.
  destruct (lex_ok _ compareUint8Arrays_ok) as [Heq Hopp Htr].
  split; intros; rewrite !compareMerklePaths_lex in *; eauto.
Qed.

(** ** The order of the votes *)

Definition int_vote (v : NormalizedInputCommitmentVote) : Prop := isInteger (n_index v) = true.

Definition vote_leb (a b : NormalizedInputCommitmentVote) : Prop := compareInputCommitmentVotes a b <= 0.

(** On votes with integer indices: indices first, then commitments, then paths. *)
Lemma compare_votes_int a b :
  int_vote a -> int_vote b ->
  compareInputCommitmentVotes a b =
    (if Z.ltb (num_Z (n_index a)) (num_Z (n_index b)) then -1
     else if Z.ltb (num_Z (n_index b)) (num_Z (n_index a)) then 1
     else if Z.eqb (compareUint8Arrays (n_commitmentBytes a) (n_commitmentBytes b)) 0
     then compareMerklePaths (n_merklePathBytes a) (n_merklePathBytes b)
     else compareUint8Arrays (n_commitmentBytes a) (n_commitmentBytes b)).
Proof.
  unfold int_vote, compareInputCommitmentVotes, difference_sign.
  destruct (n_index a) as [x | | |], (n_index b) as [y | | |]; try done. intros _ _.
  cbn [num_eqb num_ltb num_Z].
  destruct (Z.eqb_spec x y), (Z.ltb_spec x y), (Z.ltb_spec y x); try lia; try done. cbn [negb].
  by destruct (Z.eqb _ 0).
Qed.

Lemma vote_total a b : int_vote a -> int_vote b -> vote_leb a b \/ vote_leb b a.
Proof.
  intros Ha Hb. unfold vote_leb. rewrite !compare_votes_int by done.
  destruct (Z.ltb_spec (num_Z (n_index a)) (num_Z (n_index b))); [left; lia |].
  destruct (Z.ltb_spec (num_Z (n_index b)) (num_Z (n_index a))); [right; lia |].
  assert (Hc := cmp_opp _ compareUint8Arrays_ok (n_commitmentBytes a) (n_commitmentBytes b)).
  assert (Hc' := cmp_opp _ compareUint8Arrays_ok (n_commitmentBytes b) (n_commitmentBytes a)).
  assert (Hp := cmp_opp _ compareMerklePaths_ok (n_merklePathBytes a) (n_merklePathBytes b)).
  assert (Hp' := cmp_opp _ compareMerklePaths_ok (n_merklePathBytes b) (n_merklePathBytes a)).
  destruct (Z.eqb_spec (compareUint8Arrays (n_commitmentBytes a) (n_commitmentBytes b)) 0),
    (Z.eqb_spec (compareUint8Arrays (n_commitmentBytes b) (n_commitmentBytes a)) 0); lia.
Qed.

Lemma vote_antisym a b : int_vote a -> int_vote b -> vote_leb a b -> vote_leb b a -> a = b.
Proof.
  intros Ha Hb. unfold vote_leb. rewrite !compare_votes_int by done.
  destruct (Z.ltb_spec (num_Z (n_index a)) (num_Z (n_index b))),
    (Z.ltb_spec (num_Z (n_index b)) (num_Z (n_index a))); try lia.
  assert (Hc := cmp_opp _ compareUint8Arrays_ok (n_commitmentBytes a) (n_commitmentBytes b)).
  assert (Hc' := cmp_opp _ compareUint8Arrays_ok (n_commitmentBytes b) (n_commitmentBytes a)).
  assert (Hp := cmp_opp _ compareMerklePaths_ok (n_merklePathBytes a) (n_merklePathBytes b)).
  assert (Hp' := cmp_opp _ compareMerklePaths_ok (n_merklePathBytes b) (n_merklePathBytes a)).
  destruct (Z.eqb_spec (compareUint8Arrays (n_commitmentBytes a) (n_commitmentBytes b)) 0) as [Ec |],
    (Z.eqb_spec (compareUint8Arrays (n_commitmentBytes b) (n_commitmentBytes a)) 0) as [Ec' |];
    intros H1 H2; try lia.
  assert (Ep : compareMerklePaths (n_merklePathBytes a) (n_merklePathBytes b) = 0) by lia.
  apply (cmp_eq _ compareUint8Arrays_ok) in Ec. apply (cmp_eq _ compareMerklePaths_ok) in Ep.
  apply isInteger_spec in Ha, Hb. destruct a as [ia ca pa], b as [ib cb pb]. simpl in *.
  f_equal; [| done | done]. rewrite Ha, Hb. f_equal. lia.
Qed.

Lemma vote_trans a b c :
  int_vote a -> int_vote b -> int_vote c -> vote_leb a b -> vote_leb b c -> vote_leb a c.
Proof.
  intros Ha Hb Hc. unfold vote_leb. rewrite !compare_votes_int by done.
  set (x := num_Z (n_index a)). set (y := num_Z (n_index b)). set (z := num_Z (n_index c)).
  destruct (Z.ltb_spec x y), (Z.ltb_spec y x), (Z.ltb_spec y z), (Z.ltb_spec z y),
    (Z.ltb_spec x z), (Z.ltb_spec z x); try lia.
  assert (HT := cmp_trans _ compareUint8Arrays_ok
                  (n_commitmentBytes a) (n_commitmentBytes b) (n_commitmentBytes c)).
  assert (HS := cmp_strict_trans _ compareUint8Arrays_ok
                  (n_commitmentBytes a) (n_commitmentBytes b) (n_commitmentBytes c)).
  assert (HS' := cmp_strict_trans' _ compareUint8Arrays_ok
                  (n_commitmentBytes a) (n_commitmentBytes b) (n_commitmentBytes c)).
  assert (HP := cmp_trans _ compareMerklePaths_ok
                  (n_merklePathBytes a) (n_merklePathBytes b) (n_merklePathBytes c)).
  destruct (Z.eqb_spec (compareUint8Arrays (n_commitmentBytes a) (n_commitmentBytes b)) 0),
    (Z.eqb_spec (compareUint8Arrays (n_commitmentBytes b) (n_commitmentBytes c)) 0),
    (Z.eqb_spec (compareUint8Arrays (n_commitmentBytes a) (n_commitmentBytes c)) 0); intros; try lia.
  all: try (apply HP; lia).
Qed.

(** ** Sorting *)

Lemma sort_insert_perm {A} cmp (x : A) l : sort_insert cmp x l ≡ₚ x :: l.
Proof.
  induction l as [| y l IH]; simpl; [done |]. destruct (Z.leb _ _); [done |].
  rewrite IH. apply Permutation_swap.
Qed.

Lemma js_sort_perm {A} cmp (l : list A) : js_sort cmp l ≡ₚ l.
Proof. induction l as [| x l IH]; simpl; [done |]. by rewrite sort_insert_perm, IH. Qed.

Lemma sort_insert_sorted x l :
  int_vote x -> Forall int_vote l -> StronglySorted vote_leb l ->
  StronglySorted vote_leb (sort_insert compareInputCommitmentVotes x l).
Proof.
  intros Hx. induction l as [| y l IH]; simpl; intros Hl Hs.
  - repeat constructor.
  - apply Forall_cons in Hl as [Hy Hl]. apply StronglySorted_inv in Hs as [Hs Hall].
    destruct (Z.leb_spec (compareInputCommitmentVotes x y) 0) as [Hxy | Hxy].
    + constructor; [by constructor |]. constructor; [done |].
      apply Forall_forall. intros z Hz. rewrite Forall_forall in Hall, Hl.
      eapply (vote_trans x y z); [done | done | by apply Hl | done | by apply Hall].
    + constructor; [by apply IH |]. apply Forall_forall. intros z Hz.
      rewrite sort_insert_perm in Hz. apply elem_of_cons in Hz as [-> | Hz].
      * destruct (vote_total x y Hx Hy) as [H |]; [unfold vote_leb in H; lia | done].
      * rewrite Forall_forall in Hall. by apply Hall.
Qed.

Lemma js_sort_sorted l :
  Forall int_vote l -> StronglySorted vote_leb (js_sort compareInputCommitmentVotes l).
Proof.
  induction l as [| x l IH]; intros Hl; simpl; [constructor |].
  apply Forall_cons in Hl as [Hx Hl]. apply sort_insert_sorted; [done | | by apply IH].
  by rewrite js_sort_perm.
Qed.

(** The canonical order does not depend on the order the votes come in. *)
Lemma js_sort_canonical l k :
  l ≡ₚ k -> Forall int_vote l ->
  js_sort compareInputCommitmentVotes l = js_sort compareInputCommitmentVotes k.
Proof.
  intros Hp Hl. assert (Hk : Forall int_vote k) by (by rewrite <- Hp).
  apply (StronglySorted_unique_strong vote_leb).
  - intros x y Hx Hy. rewrite js_sort_perm in Hx, Hy. rewrite Forall_forall in Hl, Hk.
    apply vote_antisym; [by apply Hl | by apply Hk].
  - by apply js_sort_sorted.
  - by apply js_sort_sorted.
  - by rewrite !js_sort_perm.
Qed.
