(* ===== verification/ContractProofs.v ===== *)
(** What the hashing contract promises: the preimages are injective encodings,
    so the commitments bind their inputs up to an explicit collision; the input
    commitment does not depend on the order or the spelling of the votes; an
    admitted input is within the guest's budget. *)
From S2P Require Import Prelude.
From S2P Require Import JsNumber.
From S2P Require Import Hex.
From S2P Require Import MerkleSpec.
From S2P Require Import Contract.
From S2P Require Import ContractFacts.
From S2P Require Import Reference.
Import Contract.

(** ** Fixed-width integers *)

Lemma little_endian_length n : forall z, length (little_endian n z) = n.
Proof. induction n as [| n IH]; intros z; simpl; [done |]. by rewrite IH. Qed.

Lemma little_endian_inj n : forall a b,
  0 <= a < 256 ^ Z.of_nat n -> 0 <= b < 256 ^ Z.of_nat n ->
  little_endian n a = little_endian n b -> a = b.
Proof.
  induction n as [| n IH]; intros a b Ha Hb; [simpl in *; lia |].
  rewrite Nat2Z.inj_succ, Z.pow_succ_r in * by lia. cbn [little_endian]. intros [= Em Ed].
  assert (Hq : a / 256 = b / 256).
  { apply IH; [| | done]; (split; [apply Z.div_pos; lia | apply Z.div_lt_upper_bound; lia]). }
  rewrite (Z.div_mod a 256), (Z.div_mod b 256), Hq, Em by lia. done.
Qed.

Lemma assert_range_Ok v max f u :
  assertUnsignedIntegerInRange v max f = Ok u -> exists z, v = NInt z /\ 0 <= z <= max.
Proof.
  unfold assertUnsignedIntegerInRange.
  destruct v as [z | q | s |]; try done. simpl.
  destruct (safe_Z z); simpl; [| done].
  destruct (Z.ltb_spec z 0); simpl; [done |]. destruct (Z.ltb_spec max z); [done |].
  intros _. by exists z.
Qed.

Lemma assert_range_int z max f :
  0 <= z <= max -> max <= MAX_SAFE_INTEGER -> assertUnsignedIntegerInRange (NInt z) max f = Ok tt.
Proof.
  intros Hz Hm. unfold assertUnsignedIntegerInRange. cbn [isSafeInteger num_ltb].
  assert (Hs : safe_Z z = true) by (apply safe_Z_spec; unfold MAX_SAFE_INTEGER in *; lia).
  rewrite Hs. destruct (Z.ltb_spec z 0); [lia |]. destruct (Z.ltb_spec max z); [lia | done].
Qed.

Lemma uint32LE_Ok v b :
  uint32LE v = Ok b -> exists z, v = NInt z /\ 0 <= z < 256 ^ 4 /\ b = little_endian 4 z.
Proof.
  unfold uint32LE. intros H. bind_inv. apply assert_range_Ok in H0 as (z & -> & Hz).
  injection H as <-. exists z. unfold UINT32_MAX in *. split_and!; [done | lia | lia | done].
Qed.

Lemma uint16LE_Ok v b :
  uint16LE v = Ok b -> exists z, v = NInt z /\ 0 <= z < 256 ^ 2 /\ b = little_endian 2 z.
Proof.
  unfold uint16LE. intros H. bind_inv. apply assert_range_Ok in H0 as (z & -> & Hz).
  injection H as <-. exists z. unfold UINT16_MAX in *. split_and!; [done | lia | lia | done].
Qed.

(** ** One vote, and a list of votes *)

Definition is32 (b : bytes) : Prop := length b = 32%nat.

Lemma push_nodes_Ok ns b : push_nodes ns = Ok b -> Forall is32 ns /\ b = mjoin ns.
Proof.
  revert b. induction ns as [| n ns IH]; intros b; simpl; [by intros [= <-] |].
  destruct (Z.eqb_spec (zlength n) 32) as [E |]; simpl; [| done]. intros H. bind_inv.
  injection H as <-. destruct (IH _ H0) as [? ->]. split; [| done].
  constructor; [unfold is32, zlength in *; lia | done].
Qed.

Lemma join32_inj a : forall b s t,
  Forall is32 a -> Forall is32 b -> length a = length b ->
  mjoin a ++ s = mjoin b ++ t -> a = b /\ s = t.
Proof.
  induction a as [| x a IH]; intros [| y b] s t Ha Hb Hl E; simpl in *; try done.
  apply Forall_cons in Ha as [Hx Ha], Hb as [Hy Hb]. rewrite <- !(assoc_L (++)) in E.
  apply app_inj_1 in E as [-> E]; [| unfold is32 in *; congruence].
  by destruct (IH b s t Ha Hb ltac:(lia) E) as [-> ->].
Qed.

(** The fields of an encoded vote, in the order they are written. *)
Definition vote_fields (v : NormalizedInputCommitmentVote) (z : Z) (b : bytes) : Prop :=
  n_index v = NInt z /\ 0 <= z < 256 ^ 4 /\ is32 (n_commitmentBytes v) /\
  Forall is32 (n_merklePathBytes v) /\ zlength (n_merklePathBytes v) < 256 ^ 2 /\
  b = little_endian 4 z ++ little_endian 2 32 ++ n_commitmentBytes v ++
      little_endian 2 (zlength (n_merklePathBytes v)) ++ mjoin (n_merklePathBytes v).

Lemma encode_vote_Ok v b : encode_vote v = Ok b -> exists z, vote_fields v z b.
Proof.
  unfold encode_vote. intros H. bind_inv.
  destruct (Z.eqb_spec (zlength (n_commitmentBytes v)) 32) as [E |]; cbn [negb] in H; [| done].
  bind_inv. injection H as <-.
  match goal with E : uint32LE _ = Ok _ |- _ => apply uint32LE_Ok in E as (z & Hi & Hz & ->) end.
  match goal with E : uint16LE (NInt 32) = Ok _ |- _ => apply uint16LE_Ok in E as (w & [= <-] & _ & ->) end.
  match goal with E : uint16LE _ = Ok _ |- _ => apply uint16LE_Ok in E as (c & [= <-] & Hc & ->) end.
  match goal with E : push_nodes _ = Ok _ |- _ => apply push_nodes_Ok in E as [Hp ->] end.
  exists z.
  unfold vote_fields, is32, zlength in *. split_and!; try done; lia.
Qed.

Lemma encode_vote_prefix v w a b s t :
  encode_vote v = Ok a -> encode_vote w = Ok b -> a ++ s = b ++ t -> v = w /\ s = t.
Proof.
  intros (y & Hi & Hy & Hc & Hp & Hl & ->)%encode_vote_Ok (z & Hi' & Hz & Hc' & Hp' & Hl' & ->)%encode_vote_Ok.
  rewrite <- !(assoc_L (++)). intros E.
  apply app_inj_1 in E as [E1 E]; [| by rewrite !little_endian_length].
  apply app_inj_1 in E as [_ E]; [| done].
  apply app_inj_1 in E as [E2 E]; [| unfold is32 in *; congruence].
  apply app_inj_1 in E as [E3 E]; [| by rewrite !little_endian_length].
  apply little_endian_inj in E1 as ->; [| done | done].
  apply little_endian_inj in E3; [| split; [apply zlength_nonneg | done] ..].
  apply join32_inj in E as [E4 ->]; [| done | done | unfold zlength in *; lia].
  destruct v, w. simpl in *. by subst.
Qed.

Lemma encode_votes_inj l : forall k b,
  length l = length k -> encode_votes l = Ok b -> encode_votes k = Ok b -> l = k.
Proof.
  assert (G : forall k a b s t, length l = length k -> encode_votes l = Ok a ->
    encode_votes k = Ok b -> a ++ s = b ++ t -> l = k).
  { induction l as [| v l IH]; intros [| w k] a b s t Hl Ha Hb E; try done.
    simpl in Ha, Hb. bind_inv. injection Ha as <-. injection Hb as <-.
    rewrite <- !(assoc_L (++)) in E.
    eapply encode_vote_prefix in E as [-> E']; [| eassumption | eassumption].
    simpl in Hl. f_equal. eapply IH; [lia | eassumption | eassumption | exact E']. }
  intros k b Hl Ha Hb. by apply (G k b b [] []).
Qed.

Lemma encode_votes_int l b : encode_votes l = Ok b -> Forall int_vote l.
Proof.
  revert b. induction l as [| v l IH]; intros b; simpl; [constructor |]. intros H. bind_inv.
  constructor; [| by eapply IH]. apply encode_vote_Ok in H0 as (z & E & _).
  unfold int_vote. by rewrite E.
Qed.

(** ** The input commitment *)

Section commitments.
Context `{NobleLaws}.

(** Same public data: what the texts decode to, the two counts, and the votes
    as a multiset. *)
Definition same_public_input (i j : PublicInput) : Prop :=
  toUuidBytes (pi_electionId i) = toUuidBytes (pi_electionId j) /\
  hexToBytesStrict (pi_bulletinRoot i) = hexToBytesStrict (pi_bulletinRoot j) /\
  pi_treeSize i = pi_treeSize j /\ pi_totalExpected i = pi_totalExpected j /\
  exists ns ms, map_result normalizeInputCommitmentVote (pi_votes i) = Ok ns /\
                map_result normalizeInputCommitmentVote (pi_votes j) = Ok ms /\ ns ≡ₚ ms.

(** The inputs hashed for the commitment of [i]. *)
Definition commitment_inputs (i : PublicInput) : list bytes :=
  match encodeInputCommitmentPreimage i with Ok p => [p] | Err _ => [] end.

(** This package's [hexToBytesStrict] accepts what the other one accepts. *)
Lemma hexToBytesStrict_Hex s b : hexToBytesStrict s = Ok b -> Hex.hexToBytesStrict s = Ok b.
Proof.
  unfold hexToBytesStrict, Hex.hexToBytesStrict. destruct (str_truthy _); simpl; [| done].
  destruct (Z.eqb _ _); simpl; [| done]. destruct (string_all _ _); simpl; [| done].
  by destruct (hexToBytes _).
Qed.

Lemma hexToBytesStrict_length' s b : hexToBytesStrict s = Ok b -> slen (normalizeHexString s) = 2 * zlength b.
Proof. intros E%hexToBytesStrict_Hex. by apply hexToBytesStrict_length. Qed.

Lemma digest_text_inj a b s :
  Ok ("0x" +:+ bytesToHex (sha256 a))%string = Ok s ->
  Ok ("0x" +:+ bytesToHex (sha256 b))%string = Ok s -> sha256 a = sha256 b.
Proof.
  intros E1 E2. assert (E : ("0x" +:+ bytesToHex (sha256 a))%string = ("0x" +:+ bytesToHex (sha256 b))%string)
    by congruence. clear E1 E2. revert E.
  intros E. assert (E' : bytesToHex (sha256 a) = bytesToHex (sha256 b)) by (by injection E).
  clear E. apply (f_equal hexToBytes) in E'.
  rewrite !hexToBytes_bytesToHex in E' by apply sha256_bytes. by injection E'.
Qed.

Lemma map_result_length {A B} (f : A -> result B) l ys :
  map_result f l = Ok ys -> length ys = length l.
Proof.
  revert ys. induction l as [| x l IH]; intros ys; simpl; [by intros [= <-] |].
  intros E. bind_inv. injection E as <-. simpl. f_equal. by apply IH.
Qed.

Lemma validate_Ok i u :
  validateInputCommitmentPublicFields i = Ok u ->
  exists e r t x,
    toUuidBytes (pi_electionId i) = Ok e /\ length e = 16%nat /\
    hexToBytesStrict (pi_bulletinRoot i) = Ok r /\ length r = 32%nat /\
    pi_treeSize i = NInt t /\ 0 <= t <= UINT32_MAX /\
    pi_totalExpected i = NInt x /\ 0 <= x <= UINT32_MAX /\
    0 <= zlength (pi_votes i) <= UINT32_MAX.
Proof.
  unfold validateInputCommitmentPublicFields. intros E. bind_inv.
  destruct (Z.eqb_spec (zlength x) 16) as [L16 |]; simpl in E; [| done]. bind_inv.
  destruct (Z.eqb_spec (zlength x0) 32) as [L32 |]; simpl in E; [| done]. bind_inv.
  repeat match goal with A : assertUnsignedIntegerInRange _ _ _ = Ok _ |- _ =>
    apply assert_range_Ok in A as (? & ? & ?) end.
  unfold zlength in L16, L32.
  do 4 eexists. split_and!; try eassumption; try lia; try (unfold zlength in *; congruence).
  all: match goal with A : NInt _ = NInt _ |- _ => injection A as A; lia end.
Qed.

(** The fields of an encoded input, in the order they are written. *)
Definition preimage_fields (i : PublicInput) (p : bytes) : Prop :=
  exists e r t x ns votes,
    toUuidBytes (pi_electionId i) = Ok e /\ length e = 16%nat /\
    hexToBytesStrict (pi_bulletinRoot i) = Ok r /\ length r = 32%nat /\
    pi_treeSize i = NInt t /\ 0 <= t <= UINT32_MAX /\
    pi_totalExpected i = NInt x /\ 0 <= x <= UINT32_MAX /\
    map_result normalizeInputCommitmentVote (pi_votes i) = Ok ns /\
    zlength ns <= UINT32_MAX /\
    encode_votes (js_sort compareInputCommitmentVotes ns) = Ok votes /\
    p = INPUT_DOMAIN_TAG ++ little_endian 4 INPUT_COMMITMENT_FORMAT_VERSION ++ e ++ r ++
        little_endian 4 t ++ little_endian 4 x ++ little_endian 4 (zlength ns) ++ votes.

Lemma sort_zlength ns : zlength (js_sort compareInputCommitmentVotes ns) = zlength ns.
Proof. unfold zlength. by rewrite (Permutation_length (js_sort_perm _ ns)). Qed.

Lemma assert_u32 z f : 0 <= z <= UINT32_MAX -> assertUnsignedIntegerInRange (NInt z) UINT32_MAX f = Ok tt.
Proof. intros Hz. by apply assert_range_int. Qed.

Lemma uint32LE_int z : 0 <= z <= UINT32_MAX -> uint32LE (NInt z) = Ok (little_endian 4 z).
Proof. intros Hz. unfold uint32LE. by rewrite assert_u32. Qed.

Lemma preimage_iff i p : encodeInputCommitmentPreimage i = Ok p <-> preimage_fields i p.
Proof.
  unfold encodeInputCommitmentPreimage. split.
  - intros E. bind_inv.
    match goal with V : validateInputCommitmentPublicFields _ = Ok _ |- _ =>
      apply validate_Ok in V as (e & r & t & n & He & Le & Hr & Lr & Ht & Rt & Hx & Rx & Hl) end.
    injection E as <-. rewrite He, Hr, Ht, Hx, sort_zlength in *.
    match goal with M : map_result _ _ = Ok _ |- _ => assert (L := map_result_length _ _ _ M) end.
    assert (Hn : 0 <= zlength x0 <= UINT32_MAX) by (unfold zlength in *; lia).
    rewrite !uint32LE_int in * by (assumption || done).
    repeat match goal with A : Ok _ = Ok _ |- _ => injection A as <- end.
    exists e, r, t, n, x0, x7. split_and!; try done; lia.
  - intros (e & r & t & x & ns & votes & He & Le & Hr & Lr & Ht & Rt & Hx & Rx & M & Hn & V & ->).
    assert (L := map_result_length _ _ _ M). assert (Hp := zlength_nonneg ns).
    assert (Hv : validateInputCommitmentPublicFields i = Ok tt).
    { unfold validateInputCommitmentPublicFields. rewrite He. cbn [mbind result_bind].
      unfold zlength at 1. rewrite Le. cbn [Z.of_nat Z.eqb negb]. simpl. rewrite Hr. simpl.
      unfold zlength at 1. rewrite Lr. cbn [Z.of_nat Z.eqb negb]. rewrite Ht, Hx, (assert_u32 t), (assert_u32 x) by done.
      apply assert_u32. unfold zlength in *. lia. }
    rewrite Hv, M. cbn [mbind result_bind]. rewrite He, Hr, Ht, Hx, sort_zlength, V.
    by rewrite !uint32LE_int by (done || (unfold UINT32_MAX in *; lia)).
Qed.

Lemma same_public_input_preimage i j p :
  same_public_input i j -> encodeInputCommitmentPreimage i = Ok p ->
  encodeInputCommitmentPreimage j = Ok p.
Proof.
  intros (Ee & Er & Et & Ex & ns & ms & Hi & Hj & Hp).
  rewrite !preimage_iff. intros (e & r & t & x & ns' & votes & Hf). exists e, r, t, x, ms, votes.
  rewrite <- Ee, <- Er, <- Et, <- Ex. destruct_and! Hf.
  assert (ns' = ns) as -> by congruence.
  assert (L : zlength ms = zlength ns) by (unfold zlength; by rewrite Hp).
  rewrite <- (js_sort_canonical ns ms) by
    (done || (rewrite <- (js_sort_perm compareInputCommitmentVotes ns); by eapply encode_votes_int)).
  rewrite L. by split_and!.
Qed.

Lemma preimage_same_public_input i j p :
  encodeInputCommitmentPreimage i = Ok p -> encodeInputCommitmentPreimage j = Ok p ->
  same_public_input i j.
Proof.
  rewrite !preimage_iff.
  intros (e & r & t & x & ns & vs & He & Le & Hr & Lr & Ht & Rt & Hx & Rx & M & Hn & V & ->)
         (e' & r' & t' & x' & ms & ws & He' & Le' & Hr' & Lr' & Ht' & Rt' & Hx' & Rx' & M' & Hm & W & E).
  apply app_inv_head in E. apply app_inv_head in E.
  apply app_inj_1 in E as [-> E]; [| congruence].
  apply app_inj_1 in E as [-> E]; [| congruence].
  apply app_inj_1 in E as [E1 E]; [| by rewrite !little_endian_length].
  apply app_inj_1 in E as [E2 E]; [| by rewrite !little_endian_length].
  apply app_inj_1 in E as [E3 ->]; [| by rewrite !little_endian_length].
  assert (Hn' := zlength_nonneg ns). assert (Hm' := zlength_nonneg ms). unfold UINT32_MAX in *.
  apply little_endian_inj in E1 as ->; [| lia ..]. apply little_endian_inj in E2 as ->; [| lia ..].
  apply little_endian_inj in E3; [| lia ..].
  assert (Es : js_sort compareInputCommitmentVotes ns = js_sort compareInputCommitmentVotes ms).
  { eapply encode_votes_inj; [| done | done]. rewrite !js_sort_perm. unfold zlength in E3. lia. }
  unfold same_public_input. split_and!; try congruence. exists ns, ms. split_and!; [done | done |].
  by rewrite <- (js_sort_perm compareInputCommitmentVotes ns), Es, js_sort_perm.
Qed.

(** The input commitment is canonical: two public inputs whose texts decode
    to the same bytes, with the same counts and the same votes in any order,
    have the same commitment. *)
Theorem input_commitment_canonical i j s :
  same_public_input i j ->
  computeInputCommitmentFromPublicInput i = Ok s -> computeInputCommitmentFromPublicInput j = Ok s.
Proof.
  unfold computeInputCommitmentFromPublicInput. intros Hs E. bind_inv.
  by rewrite (same_public_input_preimage i j x).
Qed.

(** C12: The input commitment is binding: public inputs with the same commitment
    agree on the election, the bulletin root, both counts and the multiset of
    votes, or their two preimages are a SHA-256 collision. *)
Theorem input_commitment_binding i j s :
  computeInputCommitmentFromPublicInput i = Ok s -> computeInputCommitmentFromPublicInput j = Ok s ->
  same_public_input i j \/ collision_in (commitment_inputs i ++ commitment_inputs j).
Proof.
  unfold computeInputCommitmentFromPublicInput, commitment_inputs. intros Ei Ej. bind_inv.
  match goal with A : _ i = Ok ?p, B : _ j = Ok ?q |- _ =>
    rewrite A, B; destruct (same_hash [p; q] p q) as [-> | C]; [list_member .. | | |] end.
  - by eapply digest_text_inj.
  - left. by eapply preimage_same_public_input.
  - right. exact C.
Qed.

(** ** Vote commitments and STH digests *)

Lemma app3_inj (a b a' b' : bytes) x x' :
  length a = length a' -> a ++ [x] ++ b = a' ++ [x'] ++ b' -> a = a' /\ x = x' /\ b = b'.
Proof. intros L E. apply app_inj_1 in E as [-> E]; [| done]. by injection E as -> ->. Qed.

(** The bytes hashed for a vote commitment. *)
Definition vote_preimage (electionId : string) (choice : Z) (random : string) : list bytes :=
  match toUuidBytes electionId, hexToBytesStrict random with
  | Ok e, Ok r => [COMMIT_DOMAIN_TAG ++ e ++ [choice mod 256] ++ r]
  | _, _ => []
  end.

(** Two openings of one commitment: equal, or a collision of the two preimages. *)
Lemma commitment_openings eid eid' choice choice' random random' e e' c :
  toUuidBytes eid = Ok e -> toUuidBytes eid' = Ok e' -> length e = length e' ->
  computeCommitment eid choice random = Ok c -> computeCommitment eid' choice' random' = Ok c ->
  (e = e' /\ choice mod 256 = choice' mod 256 /\
   exists r, hexToBytesStrict random = Ok r /\ hexToBytesStrict random' = Ok r) \/
  collision_in (vote_preimage eid choice random ++ vote_preimage eid' choice' random').
Proof.
  intros He He' L. unfold computeCommitment, vote_preimage. rewrite He, He'. cbn [mbind result_bind].
  intros E E'. bind_inv.
  match goal with A : _ random = Ok ?a, B : _ random' = Ok ?b |- _ =>
    rewrite A, B; rename a into r, b into r' end.
  set (p := COMMIT_DOMAIN_TAG ++ e ++ [choice mod 256] ++ r) in *.
  set (q := COMMIT_DOMAIN_TAG ++ e' ++ [choice' mod 256] ++ r') in *.
  destruct (same_hash [p; q] p q) as [Ep | C]; [list_member .. | | |].
  - by eapply digest_text_inj.
  - left. apply app_inv_head in Ep. apply app3_inj in Ep as (-> & -> & ->); [| done].
    split_and!; [done | done | by exists r'].
  - right. exact C.
Qed.

(** A vote commitment is binding: openings of the same commitment with
    16-byte election ids have the same election, the same choice modulo 256
    and the same randomness, or are a SHA-256 collision; a choice is thus
    bound exactly on the byte range 0..255. *)
Theorem vote_commitment_binding eid eid' choice choice' random random' e e' c :
  toUuidBytes eid = Ok e -> toUuidBytes eid' = Ok e' -> length e = 16%nat -> length e' = 16%nat ->
  computeCommitment eid choice random = Ok c -> computeCommitment eid' choice' random' = Ok c ->
  (toUuidBytes eid = toUuidBytes eid' /\ choice mod 256 = choice' mod 256 /\
   hexToBytesStrict random = hexToBytesStrict random') \/
  collision_in (vote_preimage eid choice random ++ vote_preimage eid' choice' random').
Proof.
  intros He He' L L' E E'.
  destruct (commitment_openings eid eid' choice choice' random random' e e' c)
    as [(-> & Ec & r & Er & Er') | C]; [done .. | congruence | done | done | left | by right].
  split_and!; congruence.
Qed.

(** The bytes hashed for a signed tree head. *)
Definition sth_preimage (logId : string) (treeSize : num) (timestamp : Z) (root : string) : list bytes :=
  match hexToBytesStrict logId, uint32LE treeSize, hexToBytesStrict root with
  | Ok l, Ok t, Ok r => [l ++ t ++ uint64LE timestamp ++ r]
  | _, _, _ => []
  end.

(** An STH digest is binding: signed tree heads of logs with identifiers of
    the same length and with the same digest have the same log, tree size,
    timestamp and root, or are a SHA-256 collision. *)
Theorem sth_digest_binding log log' n n' ts ts' root root' d :
  0 <= ts < 2 ^ 64 -> 0 <= ts' < 2 ^ 64 ->
  slen (normalizeHexString log) = slen (normalizeHexString log') ->
  computeSTHDigest log n ts root = Ok d -> computeSTHDigest log' n' ts' root' = Ok d ->
  (hexToBytesStrict log = hexToBytesStrict log' /\ n = n' /\ ts = ts' /\
   hexToBytesStrict root = hexToBytesStrict root') \/
  collision_in (sth_preimage log n ts root ++ sth_preimage log' n' ts' root').
Proof.
  intros Ht Ht' Hlog. unfold computeSTHDigest, sth_preimage, uint64LE. intros E E'. bind_inv.
  repeat match goal with
  | A : uint32LE ?v = Ok _ |- _ =>
      rewrite A; let z := fresh "z" in apply uint32LE_Ok in A as (z & -> & ? & ->)
  end.
  match goal with A : hexToBytesStrict log = Ok ?a, B : hexToBytesStrict log' = Ok ?b,
                  C : hexToBytesStrict root = Ok ?c, D : hexToBytesStrict root' = Ok ?d |- _ =>
    rewrite A, B, C, D; rename a into l, b into l', c into r, d into r'; rename A into Hl, B into Hl' end.
  match goal with |- context [collision_in ([?p] ++ [?q])] =>
    destruct (same_hash [p; q] p q) as [Ep | C]; [list_member .. | | |] end.
  - by eapply digest_text_inj.
  - left. assert (L : length l = length l').
    { apply hexToBytesStrict_length' in Hl, Hl'. unfold zlength in *. lia. }
    apply app_inj_1 in Ep as [-> Ep]; [| done].
    apply app_inj_1 in Ep as [E1 Ep]; [| by rewrite !little_endian_length].
    apply app_inj_1 in Ep as [E2 ->]; [| by rewrite !little_endian_length].
    apply little_endian_inj in E1 as ->; [| done ..].
    apply little_endian_inj in E2 as ->; [| done ..]. done.
  - right. exact C.
Qed.

End commitments.

(** ** The work budget *)

Definition sum_nodes (votes : list VoteWithProof) : Z :=
  foldr Z.add 0 (map (fun v => zlength (vote_merklePath v)) votes).

Lemma sum_nodes_nonneg votes : 0 <= sum_nodes votes.
Proof.
  unfold sum_nodes. induction votes as [| w votes IH]; simpl; [lia |].
  assert (Hw := zlength_nonneg (vote_merklePath w)). lia.
Qed.

Lemma path_nodes_loop_Ok votes : forall total nodes,
  path_nodes_loop votes total = Ok nodes ->
  nodes = total + sum_nodes votes /\
  Forall (fun v => zlength (vote_merklePath v) <= MAX_GUEST_MERKLE_PATH_NODES_PER_RECORD) votes.
Proof.
  unfold sum_nodes. induction votes as [| v votes IH]; intros total nodes; simpl.
  - intros [= ->]. split; [lia | constructor].
  - destruct (Z.ltb_spec MAX_GUEST_MERKLE_PATH_NODES_PER_RECORD (zlength (vote_merklePath v))); [done |].
    destruct (safe_Z _); simpl; [| done]. intros (-> & Hf)%IH. split; [lia | by constructor].
Qed.

Lemma path_nodes_loop_complete votes : forall total,
  0 <= total ->
  total + sum_nodes votes <= MAX_SAFE_INTEGER ->
  Forall (fun v => zlength (vote_merklePath v) <= MAX_GUEST_MERKLE_PATH_NODES_PER_RECORD) votes ->
  is_ok (path_nodes_loop votes total).
Proof.
  unfold sum_nodes. induction votes as [| v votes IH]; intros total Ht Hs Hf; simpl in *; [done |].
  apply Forall_cons in Hf as [Hv Hf].
  assert (Hv0 := zlength_nonneg (vote_merklePath v)).
  assert (H0 := sum_nodes_nonneg votes). unfold sum_nodes in H0.
  destruct (Z.ltb_spec MAX_GUEST_MERKLE_PATH_NODES_PER_RECORD (zlength (vote_merklePath v))); [lia |].
  assert (safe_Z (total + zlength (vote_merklePath v)) = true) as ->.
  { apply safe_Z_spec. unfold MAX_SAFE_INTEGER in *. lia. }
  cbn [negb]. apply IH; [lia | lia | done].
Qed.

Lemma structural_Ok votes :
  path_nodes_loop votes 0 = Ok (sum_nodes votes) ->
  zlength votes <= 1000000 -> sum_nodes votes <= 1000000 ->
  calculateStructuralInputBytes votes = Ok (136 + 77 * zlength votes + 32 * sum_nodes votes).
Proof.
  intros E Hv Hs. assert (Hp := sum_nodes_nonneg votes). assert (Hl := zlength_nonneg votes).
  unfold calculateStructuralInputBytes, calculateTotalPathNodes. rewrite E.
  cbn [mbind result_bind]. unfold asStructuralInputBytes, FIXED_INPUT_BYTES, VEC_LEN_BYTES,
    VOTE_FIXED_BYTES, MERKLE_PATH_NODE_BYTES.
  replace (16 + 32 + 4 + 32 + 8 + 4 + 32 + 8 + zlength votes * (32 + 1 + 32 + 4 + 8) + sum_nodes votes * 32)
    with (136 + 77 * zlength votes + 32 * sum_nodes votes) by lia.
  assert (safe_Z (136 + 77 * zlength votes + 32 * sum_nodes votes) = true) as ->.
  { apply safe_Z_spec. unfold MAX_SAFE_INTEGER. lia. }
  destruct (Z.ltb_spec (136 + 77 * zlength votes + 32 * sum_nodes votes) 0); [lia | done].
Qed.

Lemma asSerializedInputBytes_iff v z :
  asSerializedInputBytes v = Ok z <-> v = NInt z /\ 0 <= z <= MAX_SAFE_INTEGER.
Proof.
  unfold asSerializedInputBytes. destruct v as [y | | |]; simpl; [| by split; [| intros [? _]] ..].
  destruct (safe_Z y) eqn:Es; simpl.
  - apply safe_Z_spec in Es. destruct (Z.ltb_spec y 0).
    + split; [done |]. intros [[= ->] ?]. lia.
    + split; [intros [= <-]; split; [done | lia] | by intros [[= ->] _]].
  - split; [done |]. intros [[= ->] Hz]. exfalso.
    enough (safe_Z z = true) by congruence. apply safe_Z_spec. unfold MAX_SAFE_INTEGER in *. lia.
Qed.

(** The part of the check on the byte count of the serialised input. *)
Lemma serialized_iff serialized nodes size b :
  0 <= size ->
  (serializedBytes ← match serialized with
                     | None => Ok None
                     | Some v => b ← asSerializedInputBytes v; Ok (Some b)
                     end;
   match serializedBytes with
   | Some b =>
       if Z.ltb 67108864 b
       then throw "zkVM input exceeds serialized byte budget"
       else if Z.ltb b size
       then throw "zkVM serialized JSON byte count must dominate structural byte estimate"
       else Ok (mkBudget nodes size (Some b))
   | None => Ok (mkBudget nodes size None)
   end) = Ok b <->
  totalPathNodes b = nodes /\ structuralInputBytes b = size /\
  match serialized with
  | None => serializedInputBytes b = None
  | Some v => exists z, v = NInt z /\ structuralInputBytes b <= z <= 67108864 /\
                        serializedInputBytes b = Some z
  end.
Proof.
  intros Hsize. destruct b as [bn bs bz], serialized as [v |]; simpl.
  2: { split; [by intros [= -> -> ->] | by intros (-> & -> & ->)]. }
  destruct (asSerializedInputBytes v) as [z | e] eqn:Ev; simpl.
  - apply asSerializedInputBytes_iff in Ev as [-> Hz].
    destruct (Z.ltb_spec 67108864 z); [split; [done |]; intros (_ & _ & y & [= <-] & ? & _); lia |].
    destruct (Z.ltb_spec z size); [split; [done |]; intros (_ & -> & y & [= <-] & ? & _); lia |].
    split; [intros [= -> -> <-]; split_and!; [done | done | by exists z] |].
    by intros (-> & -> & y & [= <-] & _ & ->).
  - split; [done |]. intros (_ & -> & y & -> & ? & _). exfalso.
    assert (asSerializedInputBytes (NInt y) = Ok y); [| congruence].
    apply asSerializedInputBytes_iff. split; [done |]. unfold MAX_SAFE_INTEGER. lia.
Qed.

(** The sizes an admitted input may have. *)
Definition within_budget (input : ZkVMInput) (serialized : option num) (b : GuestWorkBudget) : Prop :=
  let votes := in_votes input in
  let nodes := sum_nodes votes in
  num_ltb (in_treeSize input) (NInt 1) = false /\
  num_ltb (NInt 1000000) (in_treeSize input) = false /\
  num_ltb (NInt 1000000) (in_totalExpected input) = false /\
  zlength votes <= 1000000 /\
  Forall (fun v => zlength (vote_merklePath v) <= 65535) votes /\
  nodes <= 1000000 /\
  136 + 77 * zlength votes + 32 * nodes <= 67108864 /\
  totalPathNodes b = nodes /\ structuralInputBytes b = 136 + 77 * zlength votes + 32 * nodes /\
  match serialized with
  | None => serializedInputBytes b = None
  | Some v => exists z, v = NInt z /\ structuralInputBytes b <= z <= 67108864 /\
                        serializedInputBytes b = Some z
  end.

(** C13: The guest budget check admits exactly the inputs whose tree size,
    counts, paths and byte estimates are within the contract's bounds, and
    reports the true number of path nodes and the true structural size. *)
Theorem validateGuestWorkBudget_iff input serialized b :
  validateGuestWorkBudget input serialized = Ok b <-> within_budget input serialized b.
Proof.
  unfold validateGuestWorkBudget, within_budget.
  destruct (num_ltb (in_treeSize input) (NInt 1)); [split; [done | by intros; destruct_and?] |].
  unfold MAX_GUEST_TREE_SIZE, MAX_GUEST_TOTAL_EXPECTED, MAX_GUEST_VOTE_COUNT.
  destruct (num_ltb (NInt 1000000) (in_treeSize input)); [split; [done | by intros; destruct_and?] |].
  destruct (num_ltb (NInt 1000000) (in_totalExpected input)); [split; [done | by intros; destruct_and?] |].
  destruct (Z.ltb_spec 1000000 (zlength (in_votes input))); [split; [done | lia] |].
  cbn [orb]. unfold calculateTotalPathNodes.
  destruct (path_nodes_loop (in_votes input) 0) as [nodes | e] eqn:En; cbn [mbind result_bind].
  2: { split; [done |]. intros (_ & _ & _ & _ & Hf & Hs & _). exfalso.
       assert (Ho := path_nodes_loop_complete (in_votes input) 0 ltac:(lia)).
       rewrite En in Ho. apply Ho; [unfold MAX_SAFE_INTEGER; lia | done]. }
  assert (Ep := path_nodes_loop_Ok _ _ _ En). rewrite Z.add_0_l in Ep. destruct Ep as [-> Hf].
  unfold MAX_GUEST_TOTAL_PATH_NODES.
  destruct (Z.ltb_spec 1000000 (sum_nodes (in_votes input))); [split; [done | lia] |].
  rewrite (structural_Ok _ En) by lia. set (size := 136 + _ + _). cbn [mbind result_bind].
  unfold MAX_GUEST_SERIALIZED_INPUT_BYTES.
  destruct (Z.ltb_spec 67108864 size); [split; [done | lia] |].
  assert (Hp := sum_nodes_nonneg (in_votes input)). assert (Hv := zlength_nonneg (in_votes input)).
  rewrite (serialized_iff serialized (sum_nodes (in_votes input)) size b) by lia. tauto.
Qed.

(** ** Concrete inputs, with the library of [Reference] *)

Import Reference.

Definition hex32 (s : string) : string := Nat.iter 32 (fun acc => (s +:+ acc)%string) ""%string.

Definition sample_vote (i : Z) (c p : string) : InputCommitmentVote :=
  mkICVote (NInt i) (hex32 c) [("0x" +:+ hex32 p)%string].

Definition sample_input (votes : list InputCommitmentVote) : PublicInput :=
  mkPublicInput "550e8400-e29b-41d4-a716-446655440000" (hex32 "ab") (NInt 2) (NInt 3) votes.

Definition sample_i : PublicInput := sample_input [sample_vote 0 "c1" "d1"; sample_vote 1 "c2" "d2"].

(** The same votes in the other order, one written in upper case. *)
Definition sample_j : PublicInput := sample_input [sample_vote 1 "C2" "d2"; sample_vote 0 "c1" "d1"].

Definition commitment_text (i : PublicInput) : string :=
  match computeInputCommitmentFromPublicInput i with Ok s => s | Err _ => ""%string end.

Lemma sample_same : same_public_input sample_i sample_j.
Proof.
  unfold same_public_input. split_and!; [done .. |].
  eexists _, _. split_and!; [vm_compute; reflexivity | vm_compute; reflexivity |].
  apply Permutation_swap.
Qed.

Lemma input_commitment_canonical_witness :
  commitment_text sample_i <> ""%string /\
  computeInputCommitmentFromPublicInput sample_j = Ok (commitment_text sample_i).
Proof.
  split; [vm_compute; discriminate |].
  apply (input_commitment_canonical sample_i sample_j); [apply sample_same |].
  vm_compute. reflexivity.
Defined.

Lemma input_commitment_binding_witness :
  same_public_input sample_i sample_j \/
  collision_in (commitment_inputs sample_i ++ commitment_inputs sample_j).
Proof.
  apply (input_commitment_binding sample_i sample_j (commitment_text sample_i));
    vm_compute; reflexivity.
Defined.

Definition sample_uuid : string := "550e8400-e29b-41d4-a716-446655440000".

Definition sample_commitment : string :=
  match computeCommitment sample_uuid 2 (hex32 "7f") with Ok s => s | Err _ => ""%string end.

Lemma vote_commitment_binding_witness :
  let e := match toUuidBytes sample_uuid with Ok b => b | Err _ => [] end in
  (toUuidBytes sample_uuid = toUuidBytes sample_uuid /\ 2 mod 256 = 258 mod 256 /\
   hexToBytesStrict (hex32 "7f") = hexToBytesStrict (hex32 "7F")) \/
  collision_in (vote_preimage sample_uuid 2 (hex32 "7f") ++ vote_preimage sample_uuid 258 (hex32 "7F")).
Proof.
  intros e.
  apply (vote_commitment_binding sample_uuid sample_uuid 2 258 (hex32 "7f") (hex32 "7F") e e
           sample_commitment); vm_compute; reflexivity.
Defined.

Definition sample_digest : string :=
  match computeSTHDigest (hex32 "11") (NInt 64) 1700000000000 (hex32 "ab") with
  | Ok s => s | Err _ => ""%string end.

Lemma sth_digest_binding_witness :
  (hexToBytesStrict (hex32 "11") = hexToBytesStrict ("0x" +:+ hex32 "11")%string /\ NInt 64 = NInt 64 /\
   1700000000000 = 1700000000000 /\ hexToBytesStrict (hex32 "ab") = hexToBytesStrict (hex32 "AB")) \/
  collision_in (sth_preimage (hex32 "11") (NInt 64) 1700000000000 (hex32 "ab") ++
                sth_preimage ("0x" +:+ hex32 "11")%string (NInt 64) 1700000000000 (hex32 "AB")).
Proof.
  apply (sth_digest_binding (hex32 "11") ("0x" +:+ hex32 "11")%string (NInt 64) (NInt 64)
           1700000000000 1700000000000 (hex32 "ab") (hex32 "AB") sample_digest);
    try (vm_compute; reflexivity); lia.
Defined.
