(* ===== verification/LocalCast.v ===== *)
(** The checks a voter's own client can make on the cast step
    (packages/verification/src/verification/local-cast-checks.ts), and their
    overlay on the list of checks a server sent. *)
From S2P Require Import Prelude.
From S2P Require Import JsNumber.
From S2P Require Import Hex.
From S2P Require Import Contract.
From S2P Require Import Checks.
From S2P Require Import Summary.
From S2P Require Import MerkleSpec.
From S2P Require Import ContractProofs.
From S2P Require Import Reference.
Import Checks.
Import Summary.

Module LocalCast.

(** shared/types.ts *)
Record VoteReceipt := mkReceipt {
  vr_voteId : string;
  vr_commitment : string;
  vr_bulletinIndex : num;
  vr_bulletinRootAtCast : string;
  vr_inputCommitment : option string;
  vr_timestamp : num;
  vr_signature : option string;
}.

(** The fields of a [Partial<VoteReceipt>] these checks read. *)
Record PartialReceipt := mkPartialReceipt {
  pr_voteId : option string;
  pr_commitment : option string;
}.

Definition partial_receipt (r : VoteReceipt) : PartialReceipt :=
  mkPartialReceipt (Some (vr_voteId r)) (Some (vr_commitment r)).

Inductive LocalCastCheckId : Type :=
| local_receipt_present | local_choice_range | local_random_format | local_commitment_match.

Definition local_check_id (i : LocalCastCheckId) : VerificationCheckId :=
  match i with
  | local_receipt_present => cast_receipt_present
  | local_choice_range => cast_choice_range
  | local_random_format => cast_random_format
  | local_commitment_match => cast_commitment_match
  end.

Definition LOCAL_CAST_CHECK_IDS : list LocalCastCheckId :=
  [local_receipt_present; local_choice_range; local_random_format; local_commitment_match].

Inductive LocalCastCheckResult : Type :=
| LocalSuccess
| LocalNotRun
| LocalFailed (error : string).

Definition local_status (r : LocalCastCheckResult) : VerificationStepStatus :=
  match r with LocalSuccess => st_success | LocalNotRun => st_not_run | LocalFailed _ => st_failed end.

Record LocalCastCheckInput := mkLocalInput {
  li_electionId : option string;
  li_voteReceipt : option PartialReceipt;
  li_choice : option string;
  li_random : option string;
}.

(** [value] when it is given and not the empty text. *)
Definition nonempty (o : option string) : option string :=
  match o with Some s => if str_truthy s then Some s else None | None => None end.

Definition VOTE_CHOICES : list string := ["A"; "B"; "C"; "D"; "E"]%string.

(** [VOTE_CHOICES.indexOf(choice)] *)
Fixpoint index_of (l : list string) (x : string) : Z :=
  match l with
  | [] => -1
  | y :: rest => if String.eqb y x then 0 else
      let i := index_of rest x in if Z.eqb i (-1) then -1 else i + 1
  end.

Definition unknown_choice (choice : string) : string :=
  ("Unknown vote choice " +:+ String (ascii_of_nat 34) choice +:+ String (ascii_of_nat 34) ".")%string.

Definition resolveCastReceiptPresent (voteReceipt : option PartialReceipt) : LocalCastCheckResult :=
  match voteReceipt with
  | None => LocalNotRun
  | Some r =>
      match nonempty (pr_voteId r), nonempty (pr_commitment r) with
      | Some _, Some _ => LocalSuccess
      | _, _ => LocalFailed "Invalid receipt: missing commitment or voteId"
      end
  end.

Definition resolveCastChoiceRange (choice : option string) : LocalCastCheckResult :=
  match nonempty choice with
  | None => LocalNotRun
  | Some c => if bool_decide (c ∈ VOTE_CHOICES) then LocalSuccess else LocalFailed (unknown_choice c)
  end.

Definition resolveCastRandomFormat (random : option string) : LocalCastCheckResult :=
  match nonempty random with
  | None => LocalNotRun
  | Some r =>
      if isValidHexString r (Some 32) then LocalSuccess
      else LocalFailed "Random value must be a 32-byte hex string."
  end.

Section with_noble.
Context `{Noble}.

Definition compareRecomputedCommitment (electionId : string) (choiceIndex : Z) (random : string)
    (normalizedCommitment : string) : LocalCastCheckResult :=
  match Contract.computeCommitment electionId choiceIndex random with
  | Ok recomputed =>
      if negb (String.eqb normalizedCommitment (normalizeHexString recomputed))
      then LocalFailed "Commitment mismatch between receipt and recomputed value."
      else LocalSuccess
  | Err (Throw m) => LocalFailed ("Failed to recompute commitment: " +:+ m)
  | Err OutOfFuel => LocalFailed ""
  end.

Definition resolveCastCommitmentMatch (input : LocalCastCheckInput) : LocalCastCheckResult :=
  match nonempty (li_electionId input), nonempty (li_voteReceipt input ≫= pr_commitment),
        nonempty (li_choice input), nonempty (li_random input) with
  | Some electionId, Some commitment, Some choice, Some random =>
      let normalizedCommitment := normalizeHexString commitment in
      if negb (str_truthy normalizedCommitment) then LocalFailed "Receipt commitment is malformed."
      else
        let choiceIndex := index_of VOTE_CHOICES choice in
        if Z.eqb choiceIndex (-1) then LocalFailed (unknown_choice choice)
        else compareRecomputedCommitment electionId choiceIndex random normalizedCommitment
  | _, _, _, _ => LocalNotRun
  end.

Definition LocalCastCheckResults : Type := LocalCastCheckId -> LocalCastCheckResult.

Definition evaluateLocalCastChecks (input : LocalCastCheckInput) : LocalCastCheckResults := fun i =>
  match i with
  | local_receipt_present => resolveCastReceiptPresent (li_voteReceipt input)
  | local_choice_range => resolveCastChoiceRange (li_choice input)
  | local_random_format => resolveCastRandomFormat (li_random input)
  | local_commitment_match => resolveCastCommitmentMatch input
  end.

End with_noble.

(** [LOCAL_CAST_CHECK_ID_SET.has(id)], with the local identifier. *)
Definition local_id_of (id : string) : option LocalCastCheckId :=
  find (fun i => String.eqb (check_id_string (local_check_id i)) id) LOCAL_CAST_CHECK_IDS.

(** The loop that stops at an unknown or repeated identifier. *)
Fixpoint overlay_scan (checks : list VerificationCheck) (seen : list string) : option (list string) :=
  match checks with
  | [] => Some seen
  | c :: rest =>
      match definition_by_id (check_id c) with
      | None => None
      | Some _ =>
          if bool_decide (check_id c ∈ seen) then None else overlay_scan rest (check_id c :: seen)
      end
  end.

Definition overlay_check (localResults : LocalCastCheckResults) (c : VerificationCheck) :
    result VerificationCheck :=
  match local_id_of (check_id c) with
  | None => Ok c
  | Some i =>
      match definition_by_id (check_id c) with
      | None => throw ("Missing local cast check definition: " +:+ check_id c)
      | Some d =>
          Ok (mkCheck (check_id c) (local_status (localResults i)) (def_evidence d) (def_inputs d)
                (def_derivedFrom d) None)
      end
  end.

Definition overlayLocalCastChecks (serverChecks : list VerificationCheck)
    (localResults : LocalCastCheckResults) : result (option (list VerificationCheck)) :=
  if negb (Z.eqb (zlength serverChecks) (zlength VERIFICATION_CHECK_DEFINITIONS)) then Ok None
  else
    match overlay_scan serverChecks [] with
    | None => Ok None
    | Some seen =>
        if negb (Z.eqb (zlength seen) (zlength VERIFICATION_CHECK_DEFINITIONS)) then Ok None
        else checks ← Contract.map_result (overlay_check localResults) serverChecks; Ok (Some checks)
    end.

Definition projectLocalCastStatuses (results : LocalCastCheckResults) :
    LocalCastCheckId -> VerificationStepStatus := fun i => local_status (results i).

End LocalCast.

(** * What the local cast checks establish: a matching receipt opens to one
    choice only, an honest receipt matches, and the overlay replaces the four
    cast checks of a complete list and nothing else. *)
Import LocalCast.

Lemma nonempty_Some o s : nonempty o = Some s <-> o = Some s /\ s <> ""%string.
Proof.
  destruct o as [[| c t] |]; simpl; split; try done.
  - by intros [[= <-] ?].
  - by intros [= <-].
  - by intros [[= <-] _].
  - by intros [? _].
Qed.

Lemma index_of_range l x : -1 <= index_of l x < zlength l.
Proof.
  induction l as [| y l IH]; simpl; [done |].
  change (zlength (y :: l)) with (Z.of_nat (S (length l))). unfold zlength in *.
  destruct (String.eqb y x); [lia |]. destruct (Z.eqb_spec (index_of l x) (-1)); lia.
Qed.

Lemma index_of_inj l x y : index_of l x = index_of l y -> index_of l x <> -1 -> x = y.
Proof.
  induction l as [| z l IH]; simpl; [done |].
  assert (Hx := index_of_range l x). assert (Hy := index_of_range l y).
  destruct (String.eqb_spec z x), (String.eqb_spec z y); subst; try done;
    destruct (Z.eqb_spec (index_of l x) (-1)), (Z.eqb_spec (index_of l y) (-1)); try lia.
  intros E _. apply IH; lia.
Qed.

Lemma index_of_in l x : x ∈ l -> index_of l x <> -1.
Proof.
  induction l as [| y l IH]; simpl; [by intros ?%elem_of_nil |].
  assert (Hx := index_of_range l x).
  destruct (String.eqb_spec y x) as [-> | Hne]; [done |]. intros [-> | Hin]%elem_of_cons; [done |].
  specialize (IH Hin). destruct (Z.eqb_spec (index_of l x) (-1)); lia.
Qed.

Section with_laws.
Context `{NobleLaws}.

(** ** The commitment check *)

Lemma computeCommitment_text e i r c :
  Contract.computeCommitment e i r = Ok c -> exists b, is_bytes b /\ c = ("0x" +:+ bytesToHex b)%string.
Proof.
  unfold Contract.computeCommitment. intros E. bind_inv. injection E as <-.
  eexists. split; [apply sha256_bytes | done].
Qed.

Lemma normalize_0x b : is_bytes b -> normalizeHexString ("0x" +:+ bytesToHex b)%string = bytesToHex b.
Proof.
  intros Hb. change (normalizeHexString _) with (to_lower (bytesToHex b)).
  by apply to_lower_lower_hex, bytesToHex_lower.
Qed.

(** What the check compares when it succeeds. *)
Lemma commitment_match_success input :
  resolveCastCommitmentMatch input = LocalSuccess ->
  exists eid r choice random c,
    li_electionId input = Some eid /\ li_voteReceipt input = Some r /\ li_choice input = Some choice /\
    li_random input = Some random /\ index_of VOTE_CHOICES choice <> -1 /\
    Contract.computeCommitment eid (index_of VOTE_CHOICES choice) random = Ok c /\
    (normalizeHexString <$> pr_commitment r) = Some (normalizeHexString c).
Proof.
  unfold resolveCastCommitmentMatch.
  destruct (nonempty (li_electionId input)) as [eid |] eqn:E1; [| done].
  destruct (nonempty (li_voteReceipt input ≫= pr_commitment)) as [cm |] eqn:E2; [| done].
  destruct (nonempty (li_choice input)) as [choice |] eqn:E3; [| done].
  destruct (nonempty (li_random input)) as [random |] eqn:E4; [| done].
  apply nonempty_Some in E1 as [E1 _], E2 as [E2 _], E3 as [E3 _], E4 as [E4 _].
  destruct (str_truthy _); cbn [negb]; [| done].
  destruct (Z.eqb_spec (index_of VOTE_CHOICES choice) (-1)); [done |].
  unfold compareRecomputedCommitment.
  destruct (Contract.computeCommitment eid _ random) as [c | [m |]] eqn:Ec; [| done | done].
  destruct (String.eqb_spec (normalizeHexString cm) (normalizeHexString c)) as [En |]; [| done].
  intros _. destruct (li_voteReceipt input) as [r |] eqn:Er; [| done]. simpl in E2.
  exists eid, r, choice, random, c. rewrite E2. simpl. rewrite En. done.
Qed.

(** The inputs hashed for the commitment a check recomputes. *)
Definition match_inputs (input : LocalCastCheckInput) : list bytes :=
  match li_electionId input, li_choice input, li_random input with
  | Some eid, Some choice, Some random => vote_preimage eid (index_of VOTE_CHOICES choice) random
  | _, _, _ => []
  end.

(** A receipt cannot be opened to two votes: when the cast commitment check
    succeeds for two choices and random values against the same receipt and
    election, the choices are the same and the random values decode to the same
    bytes, or the two recomputed commitments are a SHA-256 collision. *)
Theorem cast_commitment_binds_choice i j :
  li_electionId i = li_electionId j -> li_voteReceipt i = li_voteReceipt j ->
  evaluateLocalCastChecks i local_commitment_match = LocalSuccess ->
  evaluateLocalCastChecks j local_commitment_match = LocalSuccess ->
  (li_choice i = li_choice j /\
   exists ri rj r, li_random i = Some ri /\ li_random j = Some rj /\
     Contract.hexToBytesStrict ri = Ok r /\ Contract.hexToBytesStrict rj = Ok r) \/
  collision_in (match_inputs i ++ match_inputs j).
Proof.
  intros Ee Er Hi%commitment_match_success Hj%commitment_match_success.
  destruct Hi as (eid & r & ch & ra & c & Hi1 & Hi2 & Hi3 & Hi4 & Hi5 & Hi6 & Hi7).
  destruct Hj as (eid' & r' & ch' & ra' & c' & Hj1 & Hj2 & Hj3 & Hj4 & Hj5 & Hj6 & Hj7).
  assert (eid' = eid) as -> by congruence. assert (r' = r) as -> by congruence.
  assert (c' = c) as ->.
  { destruct (computeCommitment_text _ _ _ _ Hi6) as (b & Hb & ->).
    destruct (computeCommitment_text _ _ _ _ Hj6) as (b' & Hb' & ->).
    rewrite Hi7 in Hj7. injection Hj7 as E. rewrite !normalize_0x in E by done. by rewrite E. }
  unfold match_inputs. rewrite Hi1, Hj1, Hi3, Hj3, Hi4, Hj4.
  assert (Hu : exists e, Contract.toUuidBytes eid = Ok e).
  { unfold Contract.computeCommitment in Hi6. bind_inv. by eexists. }
  destruct Hu as [e Hu].
  destruct (commitment_openings eid eid _ _ ra ra' e e c Hu Hu eq_refl Hi6 Hj6)
    as [(_ & Em & b & Eb & Eb') | C]; [left | by right].
  split; [| by exists ra, ra', b]. f_equal.
  assert (Ri := index_of_range VOTE_CHOICES ch). assert (Rj := index_of_range VOTE_CHOICES ch').
  change (zlength VOTE_CHOICES) with 5 in *. rewrite !Z.mod_small in Em by lia.
  by apply (index_of_inj VOTE_CHOICES).
Qed.

(** The receipt of an honest vote passes: when the commitment was computed
    by the contract for one of the five choices, the check succeeds whatever
    prefix and case the receipt writes it with. *)
Theorem cast_commitment_complete eid r choice random c cm :
  choice ∈ VOTE_CHOICES -> eid <> ""%string -> random <> ""%string ->
  Contract.computeCommitment eid (index_of VOTE_CHOICES choice) random = Ok c ->
  pr_commitment r = Some cm -> normalizeHexString cm = normalizeHexString c ->
  evaluateLocalCastChecks (mkLocalInput (Some eid) (Some r) (Some choice) (Some random))
    local_commitment_match = LocalSuccess.
Proof.
  intros Hc He Hr Ec Ecm En. unfold evaluateLocalCastChecks, resolveCastCommitmentMatch.
  cbn [li_electionId li_voteReceipt li_choice li_random mbind option_bind]. rewrite Ecm.
  destruct (computeCommitment_text _ _ _ _ Ec) as (b & Hb & Etxt).
  assert (Hlen : String.length (bytesToHex b) = 64%nat).
  { unfold Contract.computeCommitment in Ec. bind_inv. injection Ec as E. rewrite <- E in Etxt.
    assert (E' : bytesToHex (sha256 _) = bytesToHex b) by (by injection Etxt).
    rewrite <- E', bytesToHex_length, sha256_length by apply sha256_bytes. done. }
  assert (Hcm : str_truthy (normalizeHexString cm) = true).
  { rewrite En, Etxt, normalize_0x by done. by destruct (bytesToHex b). }
  assert (nonempty (Some cm) = Some cm) as ->.
  { apply nonempty_Some. split; [done |]. by intros ->. }
  assert (nonempty (Some eid) = Some eid) as -> by (by apply nonempty_Some).
  assert (nonempty (Some random) = Some random) as -> by (by apply nonempty_Some).
  assert (nonempty (Some choice) = Some choice) as ->.
  { apply nonempty_Some. split; [done |]. intros ->.
    by apply (bool_decide_eq_true_2 _) in Hc. }
  rewrite Hcm. cbn [negb]. destruct (Z.eqb_spec (index_of VOTE_CHOICES choice) (-1)) as [Ei |].
  { by apply index_of_in in Hc. }
  unfold compareRecomputedCommitment. by rewrite Ec, En, String.eqb_refl.
Qed.

End with_laws.

(** ** The overlay *)

Definition registry_ids : list string := map check_id_string VERIFICATION_CHECK_IDS.

Lemma registry_ids_nodup : NoDup registry_ids.
Proof. apply NoDup_fmap_2_strong; [| apply definitions_nodup]. intros x y _ _. apply check_id_string_inj. Qed.

Lemma definition_by_id_registry id : is_Some (definition_by_id id) <-> id ∈ registry_ids.
Proof.
  unfold registry_ids, VERIFICATION_CHECK_IDS. rewrite list_elem_of_fmap. split.
  - intros [d [Hd Hid]%definition_by_id_spec]. exists (def_id d). split; [done |].
    by apply list_elem_of_fmap_2.
  - intros (i & -> & (d & -> & Hd)%list_elem_of_fmap). exists d. by apply definition_by_id_spec.
Qed.

Lemma overlay_scan_Some cs : forall seen out,
  overlay_scan cs seen = Some out ->
  (NoDup seen -> NoDup out) /\ zlength out = zlength cs + zlength seen /\
  forall x, x ∈ out <-> x ∈ seen \/ (x ∈ map check_id cs /\ x ∈ registry_ids).
Proof.
  induction cs as [| c cs IH]; intros seen out; simpl.
  - intros [= <-]. split_and!; [done | done |]. intros x. split; [by left |].
    by intros [? | [?%elem_of_nil _]].
  - destruct (definition_by_id (check_id c)) as [d |] eqn:Ed; [| done].
    assert (Hr : check_id c ∈ registry_ids) by (apply definition_by_id_registry; by exists d).
    case_bool_decide as Hs; [done |]. intros (Hnd & Hlen & Hin)%IH. split_and!.
    + intros Hseen. apply Hnd. by constructor.
    + rewrite Hlen. unfold zlength. simpl. lia.
    + intros x. rewrite Hin, !elem_of_cons.
      split; [intros [[-> |] | []] | intros [| [[-> |] ?]]]; tauto.
Qed.

Lemma overlay_scan_complete cs : forall seen,
  Forall (fun c => check_id c ∈ registry_ids) cs -> NoDup (map check_id cs) ->
  (forall x, x ∈ seen -> x ∉ map check_id cs) -> is_Some (overlay_scan cs seen).
Proof.
  induction cs as [| c cs IH]; intros seen Hall Hnd Hdis; simpl; [by eexists |].
  apply Forall_cons in Hall as [Hc Hall]. apply NoDup_cons in Hnd as [Hn Hnd].
  apply definition_by_id_registry in Hc as [d ->].
  rewrite bool_decide_eq_false_2 by (intros Hs; apply (Hdis _ Hs), elem_of_cons; by left).
  apply IH; [done | done |]. intros x [-> | Hx]%elem_of_cons; [done |].
  intros Hx'. apply (Hdis x Hx), elem_of_cons. by right.
Qed.

(** The scan accepts exactly the lists that name every check once. *)
Lemma overlay_scan_registry cs :
  (exists seen, zlength cs = zlength VERIFICATION_CHECK_DEFINITIONS /\ overlay_scan cs [] = Some seen) <->
  map check_id cs ≡ₚ registry_ids.
Proof.
  split.
  - intros (seen & Hlen & E). destruct (overlay_scan_Some _ _ _ E) as (Hnd & Hl & Hin).
    assert (Hs : seen ≡ₚ registry_ids).
    { apply submseteq_length_Permutation.
      - apply NoDup_submseteq; [by apply Hnd, NoDup_nil_2 |]. intros x [?%elem_of_nil | [_ ?]]%Hin; done.
      - unfold zlength in *. change (length registry_ids) with (length VERIFICATION_CHECK_DEFINITIONS).
        simpl length in *. lia. }
    assert (Hsub : seen ⊆+ map check_id cs).
    { apply NoDup_submseteq; [by apply Hnd, NoDup_nil_2 |]. intros x [?%elem_of_nil | [? _]]%Hin; done. }
    rewrite <- Hs. symmetry. apply submseteq_length_Permutation; [done |].
    rewrite length_map. unfold zlength in *. simpl in Hl. lia.
  - intros Hp. assert (Hnd : NoDup (map check_id cs)) by (rewrite Hp; apply registry_ids_nodup).
    destruct (overlay_scan_complete cs []) as [seen E].
    + apply Forall_forall. intros c Hc. rewrite <- Hp. by apply list_elem_of_fmap_2.
    + done.
    + by intros x ?%elem_of_nil.
    + exists seen. split; [| done]. apply Permutation_length in Hp. rewrite length_map in Hp.
      unfold zlength. by rewrite Hp.
Qed.

(** What the overlay does to one check of the list. *)
Definition overlaid (results : LocalCastCheckResults) (c out : VerificationCheck) : Prop :=
  check_id out = check_id c /\
  match local_id_of (check_id c) with
  | None => out = c
  | Some i =>
      status out = local_status (results i) /\ noteKey out = None /\
      exists d, definition_by_id (check_id c) = Some d /\ evidence out = def_evidence d /\
        inputs out = def_inputs d /\ derivedFrom out = def_derivedFrom d
  end.

Lemma overlay_map results cs :
  Forall (fun c => check_id c ∈ registry_ids) cs ->
  exists out, Contract.map_result (overlay_check results) cs = Ok out /\ Forall2 (overlaid results) cs out.
Proof.
  induction cs as [| c cs IH]; intros Hall; simpl; [by exists [] |].
  apply Forall_cons in Hall as [Hc (out & -> & Hf)%IH].
  apply definition_by_id_registry in Hc as [d Hd]. unfold overlay_check.
  assert (Ho : exists c', match local_id_of (check_id c) with
    | None => Ok c
    | Some i => match definition_by_id (check_id c) with
                | None => throw ("Missing local cast check definition: " +:+ check_id c)
                | Some d => Ok (mkCheck (check_id c) (local_status (results i)) (def_evidence d)
                                  (def_inputs d) (def_derivedFrom d) None)
                end
    end = Ok c' /\ overlaid results c c').
  { unfold overlaid. destruct (local_id_of (check_id c)) as [i |]; [| by exists c].
    rewrite Hd. eexists. split; [done |]. simpl. split_and!; [done .. | by exists d]. }
  destruct Ho as (c' & -> & Ho). exists (c' :: out). split; [done | by constructor].
Qed.

(** The overlay of the client's cast checks never throws. It accepts a list
    exactly when the list names every check of the registry once; the result
    then has the same checks in the same order, the four cast checks carry the
    locally computed status with the registry's metadata and no note, and every
    other check is unchanged. *)
Theorem overlay_replaces_cast_checks cs results :
  match overlayLocalCastChecks cs results with
  | Ok (Some out) => map check_id cs ≡ₚ registry_ids /\ Forall2 (overlaid results) cs out
  | Ok None => ~ map check_id cs ≡ₚ registry_ids
  | Err _ => False
  end.
Proof.
  unfold overlayLocalCastChecks.
  destruct (Z.eqb_spec (zlength cs) (zlength VERIFICATION_CHECK_DEFINITIONS)) as [El | El]; cbn [negb].
  2: { intros (seen' & ? & ?)%overlay_scan_registry. congruence. }
  destruct (overlay_scan cs []) as [seen |] eqn:E.
  2: { intros (seen' & ? & ?)%overlay_scan_registry. congruence. }
  assert (Hp : map check_id cs ≡ₚ registry_ids) by (apply overlay_scan_registry; by exists seen).
  destruct (overlay_scan_Some _ _ _ E) as (_ & Hl & _).
  destruct (Z.eqb_spec (zlength seen) (zlength VERIFICATION_CHECK_DEFINITIONS)); cbn [negb].
  2: { unfold zlength in *. simpl in Hl. lia. }
  destruct (overlay_map results cs) as (out & -> & Hf); [| done].
  apply Forall_forall. intros c Hc. rewrite <- Hp. by apply list_elem_of_fmap_2.
Qed.

(** ** Witnesses *)

Import Reference.

Definition sample_uuid : string := "550e8400-e29b-41d4-a716-446655440000".
Definition sample_random : string := hex32 "7f".
Definition sample_commitment : string :=
  match Contract.computeCommitment sample_uuid 2 sample_random with Ok s => s | Err _ => ""%string end.
Definition sample_receipt : PartialReceipt := mkPartialReceipt (Some "v1"%string) (Some sample_commitment).

Definition sample_cast (random : string) : LocalCastCheckInput :=
  mkLocalInput (Some sample_uuid) (Some sample_receipt) (Some "C"%string) (Some random).

Lemma cast_commitment_binds_choice_witness :
  (li_choice (sample_cast sample_random) = li_choice (sample_cast (hex32 "7F")) /\
   exists ri rj r, li_random (sample_cast sample_random) = Some ri /\
     li_random (sample_cast (hex32 "7F")) = Some rj /\
     Contract.hexToBytesStrict ri = Ok r /\ Contract.hexToBytesStrict rj = Ok r) \/
  collision_in (match_inputs (sample_cast sample_random) ++ match_inputs (sample_cast (hex32 "7F"))).
Proof.
  apply (cast_commitment_binds_choice (sample_cast sample_random) (sample_cast (hex32 "7F")));
    vm_compute; reflexivity.
Defined.

Lemma cast_commitment_complete_witness :
  evaluateLocalCastChecks (sample_cast sample_random) local_commitment_match = LocalSuccess.
Proof.
  apply (cast_commitment_complete sample_uuid sample_receipt "C"%string sample_random sample_commitment
           sample_commitment); [| done | done | vm_compute; reflexivity | done | done].
  apply (bool_decide_unpack _). vm_compute. exact I.
Defined.
