(* ===== verification/Evidence.v ===== *)
(** The evidence a verification evaluates
    (packages/verification/src/verification/engine: types.ts, admit-evidence.ts):
    the input with its optional fields, the admitted form with an explicit
    availability, and the admission of a verifier outcome of unknown shape. *)
From S2P Require Import Prelude.
From S2P Require Import JsNumber.
From S2P Require Import JsValue.
From S2P Require Import Rfc6962.
From S2P Require Import Bitmap.
From S2P Require Import Contract.
From S2P Require Import Checks.
From S2P Require Import LocalCast.
Import JsValue.
Import Checks.
Import LocalCast.

Module Evidence.

(** ** Verifier outcomes (shared/types.ts, engine/types.ts) *)

Inductive VerificationStatus : Type :=
| vs_success | vs_failed | vs_dev_mode | vs_not_run | vs_running.

Inductive VerificationFailureCategory : Type :=
| fc_none | fc_verifier_crash | fc_corrupt_bundle | fc_s3_denied | fc_s3_missing | fc_timeout | fc_unknown.

#[export] Instance VerificationStatus_eq_dec : EqDecision VerificationStatus.
Proof. solve_decision. Defined.
#[export] Instance VerificationFailureCategory_eq_dec : EqDecision VerificationFailureCategory.
Proof. solve_decision. Defined.

Definition VERIFICATION_STATUS_VALUES : list (string * VerificationStatus) :=
  [("success", vs_success); ("failed", vs_failed); ("dev_mode", vs_dev_mode);
   ("not_run", vs_not_run); ("running", vs_running)]%string.

Definition TERMINAL_VERIFICATION_STATUS_VALUES : list VerificationStatus :=
  [vs_success; vs_failed; vs_dev_mode].

Definition VERIFICATION_FAILURE_CATEGORY_VALUES : list (string * VerificationFailureCategory) :=
  [("none", fc_none); ("verifier_crash", fc_verifier_crash); ("corrupt_bundle", fc_corrupt_bundle);
   ("s3_denied", fc_s3_denied); ("s3_missing", fc_s3_missing); ("timeout", fc_timeout);
   ("unknown", fc_unknown)]%string.

(** [receipt_image_id?: string | null]: absent, null or text. *)
Inductive receipt_id : Type := rid_absent | rid_null | rid_text (s : string).

Inductive VerificationReportEvidence : Type :=
| SuccessReport (expected_image_id receipt_image_id : option string)
| DevModeReport (expected_image_id : option string) (receipt_image_id : receipt_id)
| FailedReport (expected_image_id : option string) (receipt_image_id : receipt_id) (dev_mode_receipt : bool)
| ComparisonReport (expected_image_id : string) (receipt_image_id : option string).

Definition report_status (r : VerificationReportEvidence) : option VerificationStatus :=
  match r with
  | SuccessReport _ _ => Some vs_success
  | DevModeReport _ _ => Some vs_dev_mode
  | FailedReport _ _ _ => Some vs_failed
  | ComparisonReport _ _ => None
  end.

Definition report_expected (r : VerificationReportEvidence) : option string :=
  match r with
  | SuccessReport e _ | DevModeReport e _ | FailedReport e _ _ => e
  | ComparisonReport e _ => Some e
  end.

Definition report_receipt (r : VerificationReportEvidence) : receipt_id :=
  match r with
  | SuccessReport _ (Some s) => rid_text s
  | SuccessReport _ None => rid_absent
  | DevModeReport _ i | FailedReport _ i _ => i
  | ComparisonReport _ (Some s) => rid_text s
  | ComparisonReport _ None => rid_null
  end.

Definition report_dev_mode (r : VerificationReportEvidence) : option bool :=
  match r with
  | SuccessReport _ _ => Some false
  | DevModeReport _ _ => Some true
  | FailedReport _ _ b => Some b
  | ComparisonReport _ _ => None
  end.

Inductive VerificationOutcomeInput : Type :=
| OutNotRun
| OutRunning
| OutSuccess (report : option VerificationReportEvidence)
| OutDevMode (report : option VerificationReportEvidence)
| OutFailed (report : option VerificationReportEvidence) (failureCategory : option VerificationFailureCategory).

(** ** The remaining evidence *)

Inductive EvidenceAcquisition (A : Type) : Type :=
| Acquired (value : A)
| AcqUnavailable (message : option string)
| AcqMalformed (message : option string)
| AcqTransportFailed (message : option string).
Arguments Acquired {A}. Arguments AcqUnavailable {A}.
Arguments AcqMalformed {A}. Arguments AcqTransportFailed {A}.

(** A proof as a client sends it. [pc_hasProofMode]: the object has an own
    property of that name; an entry of the path that is not text is [None]. *)
Record ProofCandidate := mkCandidate {
  pc_hasProofMode : bool;
  pc_leafIndex : option num;
  pc_treeSize : option num;
  pc_merklePath : option (list (option string));
  pc_bulletinRootAtCast : option string;
}.

Record UserVoteInput := mkUserVote {
  uv_vote : option string;
  uv_random : option string;
  uv_commitment : option string;
  uv_voteId : option string;
  uv_proof : option ProofCandidate;
}.

Record ZkVMJournal := mkJournal {
  j_electionId : string;
  j_electionConfigHash : string;
  j_bulletinRoot : string;
  j_treeSize : num;
  j_totalExpected : num;
  j_sthDigest : string;
  j_verifiedTally : list num;
  j_totalVotes : num;
  j_validVotes : num;
  j_invalidVotes : num;
  j_seenIndicesCount : num;
  j_missingSlots : num;
  j_invalidPresentedSlots : num;
  j_rejectedRecords : num;
  j_seenBitmapRoot : option string;
  j_includedBitmapRoot : string;
  j_excludedSlots : num;
  j_inputCommitment : string;
  j_methodVersion : num;
  j_imageId : option string;
}.

(** public-audit-artifacts.ts: the numbers of a manifest are integers by its schema. *)
Record ElectionManifest := mkManifest {
  em_electionId : string;
  em_config : Contract.ElectionConfig;
  em_electionConfigHash : string;
}.

Record CloseStatement := mkCloseStatement {
  cs_logId : string;
  cs_treeSize : num;
  cs_timestamp : num;
  cs_bulletinRoot : string;
  cs_sthDigest : string;
}.

Record SthVerificationResult := mkSthResult {
  sth_verified : bool;
  sth_consensus : bool;
  sth_sourcesChecked : num;
  sth_matchingSources : Z;
  sth_errors : list message;
}.

(** public-input-contract.ts, [PublicInputAuthority]; [source] and the keys of
    its provenance are not read by any check. *)
Record PublicInputAuthority := mkAuthority {
  pa_electionId : string;
  pa_electionConfigHash : string;
  pa_methodVersion : num;
  pa_bulletinRoot : string;
  pa_treeSize : num;
  pa_totalExpected : num;
  pa_votesCount : num;
  pa_uniqueIndices : bool;
  pa_uniqueCommitments : bool;
  pa_logId : string;
  pa_timestamp : num;
  pa_recomputedInputCommitment : string;
}.

Inductive BitmapProofSource : Type := source_mock | source_real.

(** consistency-proof-types.ts: the sizes are integers once admitted. *)
Record AdmittedConsistencyProof := mkAdmittedConsistency {
  cp_fromTreeSize : Z;
  cp_toTreeSize : Z;
  cp_rootAtFromTreeSize : string;
  cp_rootAtToTreeSize : string;
  cp_proofNodes : list string;
}.

Record PublishedTally := mkTally {
  tally_counts : option (gmap string num);
  tally_totalVotes : option num;
}.

(** ** Fields: [F] is [option] in the input and [AdmittedEvidence] once admitted *)

Inductive AdmittedEvidence (A : Type) : Type := Unavailable | Available (value : A).
Arguments Unavailable {A}. Arguments Available {A}.

Record VerificationIdentity (F : Type -> Type) := mkIdentity {
  f_electionId : F string;
  f_electionConfigHash : F string;
  f_logId : F string;
  f_sthSourcesConfigured : F bool;
  f_claimedImageId : F string;
  f_comparisonImageId : F string;
  f_allowDevModeVerification : F bool;
}.

Record VerificationUserReceipt (F : Type -> Type) := mkUserReceipt {
  f_voteReceipt : F VoteReceipt;
  f_userVote : F UserVoteInput;
}.

(** [G] is the type of the three acquired proofs, which have their own states. *)
Record VerificationArtifacts (F G : Type -> Type) := mkArtifacts {
  f_journal : F ZkVMJournal;
  f_electionManifest : F ElectionManifest;
  f_closeStatement : F CloseStatement;
  f_sthDigest : F string;
  f_sthVerification : F SthVerificationResult;
  f_bulletinRoot : F string;
  f_treeSize : F num;
  f_publicInputAuthority : F PublicInputAuthority;
  f_seenBitmapRoot : F string;
  f_includedBitmapRoot : F string;
  f_bitmapProofSource : F BitmapProofSource;
  f_consistencyProof : G AdmittedConsistencyProof;
  f_includedBitmapProof : G Bitmap.BitmapProofResponse;
  f_seenBitmapProof : G Bitmap.BitmapProofResponse;
}.

Record VerificationTally (F : Type -> Type) := mkTallyFields {
  f_missingSlots : F num;
  f_invalidPresentedSlots : F num;
  f_rejectedRecords : F num;
  f_excludedSlots : F num;
  f_tally : F PublishedTally;
  f_verifiedTally : F (list num);
  f_totalExpected : F num;
  f_inputCommitment : F string;
}.

Arguments mkIdentity {F}. Arguments mkUserReceipt {F}. Arguments mkArtifacts {F G}.
Arguments mkTallyFields {F}.
Arguments f_electionId {F}. Arguments f_electionConfigHash {F}. Arguments f_logId {F}.
Arguments f_sthSourcesConfigured {F}. Arguments f_claimedImageId {F}.
Arguments f_comparisonImageId {F}. Arguments f_allowDevModeVerification {F}.
Arguments f_voteReceipt {F}. Arguments f_userVote {F}.
Arguments f_journal {F G}. Arguments f_electionManifest {F G}. Arguments f_closeStatement {F G}.
Arguments f_sthDigest {F G}. Arguments f_sthVerification {F G}. Arguments f_bulletinRoot {F G}.
Arguments f_treeSize {F G}. Arguments f_publicInputAuthority {F G}. Arguments f_seenBitmapRoot {F G}.
Arguments f_includedBitmapRoot {F G}. Arguments f_bitmapProofSource {F G}.
Arguments f_consistencyProof {F G}. Arguments f_includedBitmapProof {F G}.
Arguments f_seenBitmapProof {F G}.
Arguments f_missingSlots {F}. Arguments f_invalidPresentedSlots {F}. Arguments f_rejectedRecords {F}.
Arguments f_excludedSlots {F}. Arguments f_tally {F}. Arguments f_verifiedTally {F}.
Arguments f_totalExpected {F}. Arguments f_inputCommitment {F}.

Definition optional_acquisition (A : Type) : Type := option (EvidenceAcquisition A).

Record VerificationEvaluationInput := mkInput {
  in_identity : VerificationIdentity option;
  in_userReceipt : VerificationUserReceipt option;
  in_artifacts : VerificationArtifacts option optional_acquisition;
  in_tally : VerificationTally option;
  in_verifierOutcome : option VerificationOutcomeInput;
}.

Inductive AdmittedVerifierOutcome : Type :=
| AdmNotRun
| AdmRunning
| AdmSuccess (report : AdmittedEvidence VerificationReportEvidence)
| AdmDevMode (report : AdmittedEvidence VerificationReportEvidence)
| AdmFailed (report : AdmittedEvidence VerificationReportEvidence)
    (failureCategory : VerificationFailureCategory).

Record AdmittedVerificationEvidence := mkAdmitted {
  identity : VerificationIdentity AdmittedEvidence;
  userReceipt : VerificationUserReceipt AdmittedEvidence;
  artifacts : VerificationArtifacts AdmittedEvidence EvidenceAcquisition;
  tally : VerificationTally AdmittedEvidence;
  verifierOutcome : AdmittedVerifierOutcome;
}.

(** ** admit-evidence.ts *)

Definition evidenceValue {A} (e : AdmittedEvidence A) : option A :=
  match e with Available v => Some v | Unavailable => None end.

Definition toAdmittedEvidence {A} (v : option A) : AdmittedEvidence A :=
  match v with None => Unavailable | Some v => Available v end.

Definition normalizeVerifierOutcome (input : VerificationOutcomeInput) : AdmittedVerifierOutcome :=
  match input with
  | OutNotRun => AdmNotRun
  | OutRunning => AdmRunning
  | OutSuccess report => AdmSuccess (toAdmittedEvidence report)
  | OutDevMode report => AdmDevMode (toAdmittedEvidence report)
  | OutFailed report category =>
      AdmFailed (toAdmittedEvidence report) (match category with Some c => c | None => fc_unknown end)
  end.

(** [input ?? { kind: 'unavailable' }] *)
Definition or_unavailable {A} (o : option (EvidenceAcquisition A)) : EvidenceAcquisition A :=
  match o with Some a => a | None => AcqUnavailable None end.

Definition admitVerificationEvidence (input : VerificationEvaluationInput) :
    AdmittedVerificationEvidence :=
  let i := in_identity input in
  let u := in_userReceipt input in
  let a := in_artifacts input in
  let t := in_tally input in
  mkAdmitted
    (mkIdentity (toAdmittedEvidence (f_electionId i)) (toAdmittedEvidence (f_electionConfigHash i))
       (toAdmittedEvidence (f_logId i)) (toAdmittedEvidence (f_sthSourcesConfigured i))
       (toAdmittedEvidence (f_claimedImageId i)) (toAdmittedEvidence (f_comparisonImageId i))
       (toAdmittedEvidence (f_allowDevModeVerification i)))
    (mkUserReceipt (toAdmittedEvidence (f_voteReceipt u)) (toAdmittedEvidence (f_userVote u)))
    (mkArtifacts (toAdmittedEvidence (f_journal a)) (toAdmittedEvidence (f_electionManifest a))
       (toAdmittedEvidence (f_closeStatement a)) (toAdmittedEvidence (f_sthDigest a))
       (toAdmittedEvidence (f_sthVerification a)) (toAdmittedEvidence (f_bulletinRoot a))
       (toAdmittedEvidence (f_treeSize a)) (toAdmittedEvidence (f_publicInputAuthority a))
       (toAdmittedEvidence (f_seenBitmapRoot a)) (toAdmittedEvidence (f_includedBitmapRoot a))
       (toAdmittedEvidence (f_bitmapProofSource a)) (or_unavailable (f_consistencyProof a))
       (or_unavailable (f_includedBitmapProof a)) (or_unavailable (f_seenBitmapProof a)))
    (mkTallyFields (toAdmittedEvidence (f_missingSlots t)) (toAdmittedEvidence (f_invalidPresentedSlots t))
       (toAdmittedEvidence (f_rejectedRecords t)) (toAdmittedEvidence (f_excludedSlots t))
       (toAdmittedEvidence (f_tally t)) (toAdmittedEvidence (f_verifiedTally t))
       (toAdmittedEvidence (f_totalExpected t)) (toAdmittedEvidence (f_inputCommitment t)))
    (normalizeVerifierOutcome (match in_verifierOutcome input with Some o => o | None => OutNotRun end)).

(** ** Admission of a verifier outcome of unknown shape *)

Fixpoint assoc {A} (l : list (string * A)) (k : string) : option A :=
  match l with [] => None | (k', v) :: rest => if String.eqb k' k then Some v else assoc rest k end.

Definition admitVerificationStatus (value : jsval) : option VerificationStatus :=
  as_string value ≫= assoc VERIFICATION_STATUS_VALUES.

Definition admitFailureCategory (value : jsval) : option VerificationFailureCategory :=
  as_string value ≫= assoc VERIFICATION_FAILURE_CATEGORY_VALUES.

Definition admitComparisonReport (expectedImageId : option string) (receiptImageId : receipt_id)
    (devModeReceipt : jsval) : option VerificationReportEvidence :=
  match expectedImageId, receiptImageId with
  | Some e, rid_text r => if is_undefined devModeReceipt then Some (ComparisonReport e (Some r)) else None
  | Some e, rid_null => if is_undefined devModeReceipt then Some (ComparisonReport e None) else None
  | _, _ => None
  end.

Definition admitSuccessReport (expectedImageId : option string) (receiptImageId : receipt_id) :
    option VerificationReportEvidence :=
  match receiptImageId with
  | rid_null => None
  | rid_absent => Some (SuccessReport expectedImageId None)
  | rid_text r => Some (SuccessReport expectedImageId (Some r))
  end.

Definition is_text (v : jsval) (s : string) : bool :=
  match v with JStr t => String.eqb t s | _ => false end.

Definition is_bool (v : jsval) (b : bool) : bool :=
  match v with JBool c => Bool.eqb c b | _ => false end.

Definition admitStatusBearingReport (input : jsval) (expectedImageId : option string)
    (receiptImageId : receipt_id) : option VerificationReportEvidence :=
  let status := prop input "status" in
  let devModeReceipt := prop input "dev_mode_receipt" in
  if is_undefined status then admitComparisonReport expectedImageId receiptImageId devModeReceipt
  else if is_text status "success" && is_bool devModeReceipt false
  then admitSuccessReport expectedImageId receiptImageId
  else if is_text status "dev_mode" && is_bool devModeReceipt true
  then Some (DevModeReport expectedImageId receiptImageId)
  else if is_text status "failed"
  then match devModeReceipt with
       | JBool b => Some (FailedReport expectedImageId receiptImageId b)
       | _ => None
       end
  else None.

Definition admitReportEvidence (input : jsval) : option VerificationReportEvidence :=
  if negb (isNonNullObject input) then None
  else
    match prop input "expected_image_id", prop input "receipt_image_id" with
    | JUndefined, JUndefined => admitStatusBearingReport input None rid_absent
    | JUndefined, JNull => admitStatusBearingReport input None rid_null
    | JUndefined, JStr r => admitStatusBearingReport input None (rid_text r)
    | JStr e, JUndefined => admitStatusBearingReport input (Some e) rid_absent
    | JStr e, JNull => admitStatusBearingReport input (Some e) rid_null
    | JStr e, JStr r => admitStatusBearingReport input (Some e) (rid_text r)
    | _, _ => None
    end.

(** More than one distinct value. *)
Fixpoint all_same {A} `{EqDecision A} (l : list A) : bool :=
  match l with
  | x :: ((y :: _) as rest) => bool_decide (x = y) && all_same rest
  | _ => true
  end.

Definition opt_list {A} (o : option A) : list A := match o with Some x => [x] | None => [] end.

Definition resolveCoherentVerifierStatus (verificationStatus reportStatus : option VerificationStatus)
    (report : option VerificationReportEvidence) :
    option (VerificationStatus * option VerificationReportEvidence) :=
  let statuses := opt_list verificationStatus ++ opt_list reportStatus ++
                  opt_list (report ≫= report_status) in
  if negb (all_same statuses) then None
  else
    let status := match statuses with s :: _ => s | [] => vs_not_run end in
    match status, report with
    | (vs_not_run | vs_running), Some _ => None
    | _, _ => Some (status, report)
    end.

Definition admitVerifierStatusEvidence (input : jsval) :
    option (VerificationStatus * option VerificationReportEvidence) :=
  let rawStatus := prop input "verificationStatus" in
  let rawReportStatus := prop input "verificationReportStatus" in
  let rawReport := prop input "verificationReport" in
  let verificationStatus := admitVerificationStatus rawStatus in
  if negb (is_undefined rawStatus) && bool_decide (verificationStatus = None) then None
  else
    let reportStatus := admitVerificationStatus rawReportStatus in
    if negb (is_undefined rawReportStatus) &&
       match reportStatus with
       | None => true
       | Some s => negb (bool_decide (s ∈ TERMINAL_VERIFICATION_STATUS_VALUES))
       end
    then None
    else
      let report := if is_undefined rawReport then None else admitReportEvidence rawReport in
      match is_undefined rawReport, report with
      | false, None => None
      | _, _ => resolveCoherentVerifierStatus verificationStatus reportStatus report
      end.

(** [asSuccessOrComparisonReport] and its two siblings: throw on another status. *)
Definition as_report (expected : VerificationStatus) (text : string)
    (report : VerificationReportEvidence) : result VerificationReportEvidence :=
  match report_status report with
  | None => Ok report
  | Some s => if bool_decide (s = expected) then Ok report else throw text
  end.

Definition asSuccessOrComparisonReport :=
  as_report vs_success "Expected success or comparison-only report evidence".
Definition asDevModeOrComparisonReport :=
  as_report vs_dev_mode "Expected development or comparison-only report evidence".
Definition asFailedOrComparisonReport :=
  as_report vs_failed "Expected failed or comparison-only report evidence".

Definition option_result {A B} (f : A -> result B) (o : option A) : result (option B) :=
  match o with None => Ok None | Some a => b ← f a; Ok (Some b) end.

Definition buildFailedVerifierOutcome (report : option VerificationReportEvidence)
    (failureCategory : option VerificationFailureCategory) : result (option VerificationOutcomeInput) :=
  match failureCategory with
  | Some fc_none => Ok None
  | _ =>
      r ← option_result asFailedOrComparisonReport report;
      Ok (Some (OutFailed r (Some (match failureCategory with Some c => c | None => fc_unknown end))))
  end.

Definition buildVerifierOutcome (status : VerificationStatus)
    (report : option VerificationReportEvidence)
    (failureCategory : option VerificationFailureCategory) : result (option VerificationOutcomeInput) :=
  match status with
  | vs_not_run => Ok (Some OutNotRun)
  | vs_running => Ok (Some OutRunning)
  | vs_success => r ← option_result asSuccessOrComparisonReport report; Ok (Some (OutSuccess r))
  | vs_dev_mode => r ← option_result asDevModeOrComparisonReport report; Ok (Some (OutDevMode r))
  | vs_failed => buildFailedVerifierOutcome report failureCategory
  end.

Definition admitVerifierOutcome (input : jsval) : result (option VerificationOutcomeInput) :=
  if negb (isNonNullObject input) then Ok None
  else
    match admitVerifierStatusEvidence input with
    | None => Ok None
    | Some (status, report) =>
        let raw := prop input "failureCategory" in
        let failureCategory := admitFailureCategory raw in
        if negb (is_undefined raw) && bool_decide (failureCategory = None) then Ok None
        else if negb (bool_decide (status = vs_failed)) &&
                match failureCategory with
                | None | Some fc_none => false
                | Some _ => true
                end
        then Ok None
        else buildVerifierOutcome status report failureCategory
    end.

End Evidence.
