(* ===== verification/Verifiers.v ===== *)
(** The verifiers the checks call (packages/verification/src/verification:
    index-identifiers.ts, excluded-count.ts, merkle.ts, consistency-verifier.ts,
    sth-verifier.ts, public-audit-artifacts.ts; packages/merkle/src:
    rfc6962-proof.ts). *)
From S2P Require Import Prelude.
From S2P Require Import JsNumber.
From S2P Require Import Hex.
From S2P Require Import Rfc6962.
From S2P Require Import Contract.
From S2P Require Import Evidence.
Import Evidence.

Module Verifiers.

(** ** index-identifiers.ts *)

Definition assertNonNegativeSafeInteger (value : num) (label : string) : result unit :=
  if negb (isSafeInteger value) || num_ltb value (NInt 0)
  then throw (label +:+ " must be a non-negative safe integer") else Ok tt.

Definition asBulletinIndex (value : num) : result Z :=
  _ ← assertNonNegativeSafeInteger value "bulletinIndex"; Ok (num_Z value).

Definition asLeafIndex (value : num) : result Z :=
  _ ← assertNonNegativeSafeInteger value "leafIndex"; Ok (num_Z value).

(** ** excluded-count.ts *)

Record ExcludedCountInput := mkExcludedInput {
  ec_journal : option (option num);        (* the journal's [excludedSlots] *)
  ec_missingSlots : option num;
  ec_invalidPresentedSlots : option num;
  ec_excludedSlots : option num;
  ec_fallbackToZero : bool;
}.

Definition or_zero (o : option num) : num := match o with Some n => n | None => NInt 0 end.

Definition resolveExcludedCount (input : ExcludedCountInput) : option num :=
  match ec_journal input with
  | Some excluded => excluded
  | None =>
      match ec_excludedSlots input with
      | Some n => Some n
      | None =>
          match ec_missingSlots input, ec_invalidPresentedSlots input with
          | Some m, Some i => Some (num_add m i)
          | m, i => if ec_fallbackToZero input then Some (num_add (or_zero m) (or_zero i)) else None
          end
      end
  end.

(** ** rfc6962-proof.ts *)

Record CanonicalRfc6962Proof := mkCanonicalProof {
  rp_leafIndex : num;
  rp_treeSize : num;
  rp_merklePath : list string;
  rp_bulletinRootAtCast : string;
}.

Fixpoint text_entries (l : list (option string)) : list string :=
  match l with
  | [] => []
  | Some s :: rest => s :: text_entries rest
  | None :: rest => text_entries rest
  end.

Definition toCanonicalRfc6962Proof (proof : option ProofCandidate) : option CanonicalRfc6962Proof :=
  match proof with
  | None => None
  | Some p =>
      if pc_hasProofMode p then None
      else
        match pc_leafIndex p, pc_treeSize p, pc_merklePath p, pc_bulletinRootAtCast p with
        | Some leafIndex, Some treeSize, Some path, Some root =>
            if negb (Z.eqb (zlength (text_entries path)) (zlength path)) then None
            else Some (mkCanonicalProof leafIndex treeSize (text_entries path) root)
        | _, _, _, _ => None
        end
  end.

Section with_noble.
Context `{Noble}.

(** ** merkle.ts *)

Definition verifyCTMerkleInclusion (commitment : string) (path : list string) (leafIndex : Z)
    (root : string) (treeSize : Z) : result bool :=
  if Z.leb treeSize 0 then throw "Invalid tree size for CT inclusion proof"
  else
    Rfc6962.verifyInclusionProof (normalizeHexString commitment) leafIndex
      (map normalizeHexString path) (normalizeHexString root) treeSize.

(** ** consistency-verifier.ts *)

Inductive consistency_failure : Type := split_view_attack | proof_invalid.

Record ConsistencyDetails := mkDetails {
  cd_type : option consistency_failure;
  cd_proof : option AdmittedConsistencyProof;   (* the roots and nodes of the proof *)
}.

Record ConsistencyVerificationResult := mkConsistencyResult {
  cv_isValid : bool;
  cv_error : option message;
  cv_details : ConsistencyDetails;
}.

Record ConsistencyProofExpectation := mkExpectation {
  ex_fromTreeSize : Z;
  ex_toTreeSize : Z;
  ex_rootAtFromTreeSize : string;
  ex_rootAtToTreeSize : string;
}.

Definition size_mismatch_message (p : AdmittedConsistencyProof) (e : ConsistencyProofExpectation) :
    message :=
  [T "Consistency proof tree-size range mismatch. Expected "; N (NInt (ex_fromTreeSize e));
   T " -> "; N (NInt (ex_toTreeSize e)); T ", got "; N (NInt (cp_fromTreeSize p)); T " -> ";
   N (NInt (cp_toTreeSize p)); T "."].

Definition root_mismatch_message (expectedOld gotOld expectedNew gotNew : string) : message :=
  [T ("Root mismatch detected - potential split-view attack. Old root: expected " +:+ expectedOld +:+
      ", got " +:+ gotOld +:+ ". New root: expected " +:+ expectedNew +:+ ", got " +:+ gotNew +:+ ".")%string].

Definition verifyConsistencyProof (proof : AdmittedConsistencyProof)
    (expectation : ConsistencyProofExpectation) : ConsistencyVerificationResult :=
  if negb (Z.eqb (cp_fromTreeSize proof) (ex_fromTreeSize expectation)) ||
     negb (Z.eqb (cp_toTreeSize proof) (ex_toTreeSize expectation))
  then mkConsistencyResult false (Some (size_mismatch_message proof expectation))
         (mkDetails (Some proof_invalid) (Some proof))
  else
    let proofOld := normalizeHexString (cp_rootAtFromTreeSize proof) in
    let proofNew := normalizeHexString (cp_rootAtToTreeSize proof) in
    let expectedOld := normalizeHexString (ex_rootAtFromTreeSize expectation) in
    let expectedNew := normalizeHexString (ex_rootAtToTreeSize expectation) in
    if negb (String.eqb proofOld expectedOld) || negb (String.eqb proofNew expectedNew)
    then mkConsistencyResult false
           (Some (root_mismatch_message expectedOld proofOld expectedNew proofNew))
           (mkDetails (Some split_view_attack) (Some proof))
    else
      match Rfc6962.verifyConsistencyProof proofOld proofNew
              (Rfc6962.mkConsistencyProof (cp_fromTreeSize proof) (cp_toTreeSize proof)
                 (map normalizeHexString (cp_proofNodes proof))) with
      | Ok false =>
          mkConsistencyResult false (Some [T "Consistency proof failed cryptographic verification."])
            (mkDetails (Some proof_invalid) (Some proof))
      | Ok true => mkConsistencyResult true None (mkDetails None (Some proof))
      | Err (Throw m) =>
          mkConsistencyResult false (Some [T ("Consistency proof verification failed: " +:+ m)%string])
            (mkDetails (Some proof_invalid) None)
      | Err OutOfFuel => mkConsistencyResult false None (mkDetails None None)
      end.

(** ** public-audit-artifacts.ts *)

Definition normalizeHex32 (value label : string) : result string :=
  if negb (isValidHexString value (Some 32))
  then throw ("Invalid " +:+ label +:+ ": expected 32-byte hex string")%string
  else Ok (addHexPrefix (normalizeHexString value)).

Definition recomputeElectionManifestHash (manifest : ElectionManifest) : string :=
  Contract.hashElectionConfig (em_config manifest).

Definition resolveElectionConfigForManifest (electionConfig : option Contract.ElectionConfig)
    (electionConfigHash : string) (totalExpected : Z) : result Contract.ElectionConfig :=
  match electionConfig with
  | None => throw "Authoritative election config unavailable for manifest generation"
  | Some c =>
      let candidate := Contract.cloneElectionConfig c in
      if negb (Z.eqb (Contract.cfg_totalExpected candidate) totalExpected)
      then throw "Authoritative election config totalExpected does not match zkVM input"
      else if negb (Contract.hasMatchingElectionConfigHash candidate electionConfigHash)
      then throw "Authoritative election config hash does not match zkVM input"
      else Ok candidate
  end.

Definition buildElectionManifest (electionId : string) (electionConfig : Contract.ElectionConfig) :
    ElectionManifest :=
  let manifest := mkManifest electionId (Contract.cloneElectionConfig electionConfig) "" in
  mkManifest electionId (em_config manifest) (recomputeElectionManifestHash manifest).

Definition buildCloseStatement (logId : string) (treeSize timestamp : num) (bulletinRoot : string) :
    result CloseStatement :=
  log ← normalizeHex32 logId "logId";
  root ← normalizeHex32 bulletinRoot "bulletinRoot";
  ts ← Contract.asUnixTimestampMillis timestamp;
  digest ← Contract.computeSTHDigest log treeSize ts root;
  Ok (mkCloseStatement log treeSize timestamp root digest).

End with_noble.

(** ** sth-verifier.ts *)

Record AdmittedSthRecord := mkSthRecord {
  sr_source : option string;
  sr_sthDigest : string;
  sr_treeSize : option num;
  sr_bulletinRoot : option string;
}.

Record SthConsensusOptions := mkSthOptions {
  so_minMatchingSources : option num;
  so_errors : list message;
  so_sourcesChecked : option num;
}.

Definition resolveMinMatches (value : option num) : num :=
  match value with
  | Some v => if isInteger v && num_leb (NInt 1) v then v else NInt 2
  | None => NInt 2
  end.

Definition sthMismatchReasons (record : AdmittedSthRecord) (expectedDigest expectedRoot : string)
    (expectedTreeSize : num) : list string :=
  let digestMatches := String.eqb (normalizeHexString (sr_sthDigest record)) expectedDigest in
  let rootMatches :=
    match sr_bulletinRoot record with
    | Some r => if str_truthy r
                then if str_truthy (normalizeHexString r)
                     then String.eqb (normalizeHexString r) expectedRoot else true
                else true
    | None => true
    end in
  let treeSizeMatches :=
    match sr_treeSize record with Some t => num_eqb t expectedTreeSize | None => true end in
  (if digestMatches then [] else ["digest mismatch"]) ++
  (if rootMatches then [] else ["root mismatch"]) ++
  (if treeSizeMatches then [] else ["tree size mismatch"]).

Definition or_unknown (o : option string) : string :=
  match o with Some s => s | None => "unknown source"%string end.

(** The loop over the records: matching sources, and the errors of the others. *)
Fixpoint sth_loop (records : list AdmittedSthRecord) (expectedDigest expectedRoot : string)
    (expectedTreeSize : num) (matching : Z) (errors : list message) : Z * list message :=
  match records with
  | [] => (matching, errors)
  | r :: rest =>
      match sthMismatchReasons r expectedDigest expectedRoot expectedTreeSize with
      | [] => sth_loop rest expectedDigest expectedRoot expectedTreeSize (matching + 1) errors
      | reasons =>
          sth_loop rest expectedDigest expectedRoot expectedTreeSize matching
            (errors ++ [[T ("STH mismatch from " +:+ or_unknown (sr_source r) +:+ " (" +:+
                            Contract.join ", " reasons +:+ ")")%string]])
      end
  end.

Definition verifySthConsensus (sthDigest bulletinRoot : string) (treeSize : num)
    (records : list AdmittedSthRecord) (options : SthConsensusOptions) : SthVerificationResult :=
  let sourcesChecked :=
    match so_sourcesChecked options with Some n => n | None => NInt (zlength records) end in
  if negb (str_truthy sthDigest) || negb (str_truthy (normalizeHexString sthDigest))
  then mkSthResult false false sourcesChecked 0
         (so_errors options ++ [[T "Journal is missing sthDigest field"]])
  else
    let '(matchingSources, errors) :=
      sth_loop records (normalizeHexString sthDigest) (normalizeHexString bulletinRoot) treeSize 0
        (so_errors options) in
    let minMatches := resolveMinMatches (so_minMatchingSources options) in
    let consensus := Z.ltb 0 (zlength records) && Z.eqb matchingSources (zlength records) in
    let enough := num_leb minMatches (NInt matchingSources) in
    let verified := enough && consensus in
    mkSthResult verified consensus sourcesChecked matchingSources
      (if negb verified && negb enough
       then errors ++ [[T "Insufficient matching STH sources (expected at least "; N minMatches;
                        T ", got "; N (NInt matchingSources); T ")."]]
       else errors).

End Verifiers.
