(* ===== verification/Engine.v ===== *)
(** The evaluation of the verification checks
    (packages/verification/src/verification/engine/evaluate-checks.ts): one
    resolver per check over the admitted evidence, the gate of the zkVM proof,
    and the shared cache of results. *)
From S2P Require Import Prelude.
From S2P Require Import JsNumber.
From S2P Require Import Hex.
From S2P Require Import Rfc6962.
From S2P Require Import Bitmap.
From S2P Require Import Contract.
From S2P Require Import Checks.
From S2P Require Import LocalCast.
From S2P Require Import Evidence.
From S2P Require Import Verifiers.
Import Checks.
Import LocalCast.
Import Evidence.
Import Verifiers.

Module Engine.

(** ** Results *)

Inductive CheckResult : Type :=
| CSuccess
| CPending
| CRunning
| CNotRun (noteKey : option VerificationCheckNoteKey)
| CFailed (error : option message) (noteKey : option VerificationCheckNoteKey).

Definition result_status (r : CheckResult) : VerificationStepStatus :=
  match r with
  | CSuccess => st_success | CPending => st_pending | CRunning => st_running
  | CNotRun _ => st_not_run | CFailed _ _ => st_failed
  end.

(** [{ status }] *)
Definition of_status (s : VerificationStepStatus) : CheckResult :=
  match s with
  | st_success => CSuccess | st_pending => CPending | st_running => CRunning
  | st_not_run => CNotRun None | st_failed => CFailed None None
  end.

Definition failed_with (text : string) : CheckResult := CFailed (Some [T text]) None.
Definition not_run : CheckResult := CNotRun None.

(** [ZK_GATE_CONTROLLED_CHECK_IDS] *)
Definition ZK_GATE_CONTROLLED_CHECK_IDS : list VerificationCheckId :=
  [counted_tally_consistent; counted_expected_vs_tree_size; counted_election_manifest_consistent;
   counted_close_statement_consistent; counted_my_vote_included; counted_input_commitment_match].

Definition isCheckStatusZkGateControlled (id : VerificationCheckId) : bool :=
  bool_decide (id ∈ ZK_GATE_CONTROLLED_CHECK_IDS).

Definition isValidCount (value : num) : bool := isInteger value && num_leb (NInt 0) value.

Definition isPositiveTreeSize (value : num) : bool := isInteger value && num_ltb (NInt 0) value.

(** [a ?? b] *)
Definition coalesce {A} (a b : option A) : option A := match a with Some x => Some x | None => b end.

(** The non-empty texts among optional texts. *)
Definition texts (l : list (option string)) : list string :=
  flat_map (fun o => opt_list (nonempty o)) l.

Section with_noble.
Context `{Noble}.

(** ** Recorded as cast *)

Definition resolveRecordedInclusionProof (voteReceipt : option VoteReceipt)
    (userVote : option UserVoteInput) : result CheckResult :=
  match toCanonicalRfc6962Proof (userVote ≫= uv_proof), voteReceipt,
        nonempty (userVote ≫= uv_commitment) with
  | Some proof, Some receipt, Some commitment =>
      if negb (isValidCount (vr_bulletinIndex receipt)) then Ok not_run
      else
        match asBulletinIndex (vr_bulletinIndex receipt), asLeafIndex (rp_leafIndex proof) with
        | Ok receiptBulletinIndex, Ok proofLeafIndex =>
            if negb (Z.eqb proofLeafIndex receiptBulletinIndex)
            then Ok (failed_with "Inclusion proof leaf index does not match receipt bulletin index.")
            else if negb (isInteger (rp_treeSize proof)) || num_leb (rp_treeSize proof) (NInt 0)
            then Ok (failed_with "Inclusion proof tree size is invalid.")
            else if negb (num_eqb (rp_treeSize proof) (NInt (receiptBulletinIndex + 1)))
            then Ok (failed_with "Inclusion proof tree size does not match the cast snapshot.")
            else if negb (String.eqb (normalizeHexString (rp_bulletinRootAtCast proof))
                            (normalizeHexString (vr_bulletinRootAtCast receipt)))
            then Ok (failed_with "Inclusion proof root does not match receipt root at cast.")
            else
              try_catch
                (included ← verifyCTMerkleInclusion commitment (rp_merklePath proof)
                   (num_Z (rp_leafIndex proof)) (rp_bulletinRootAtCast proof)
                   (num_Z (rp_treeSize proof));
                 Ok (if (included : bool) then CSuccess
                     else failed_with "Inclusion proof verification failed."))
                (fun m => Ok (failed_with m))
        | _, _ => Ok (failed_with "Inclusion proof leaf index is invalid.")
        end
  | _, _, _ => Ok not_run
  end.

Definition resolveRecordedIndexInRange (voteReceipt : option VoteReceipt) (treeSize : option num) :
    CheckResult :=
  match voteReceipt, treeSize with
  | Some receipt, Some size =>
      if negb (isInteger (vr_bulletinIndex receipt)) || negb (isInteger size) then not_run
      else
        match asBulletinIndex (vr_bulletinIndex receipt) with
        | Err _ => failed_with "Invalid bulletin index"
        | Ok index =>
            if num_ltb (NInt index) size then CSuccess else failed_with "Invalid bulletin index"
        end
  | _, _ => not_run
  end.

(** [None]: no error. The index of the receipt may throw. *)
Definition validateConsistencySnapshot (proof : CanonicalRfc6962Proof) (receipt : VoteReceipt)
    (newSize : num) : result (option CheckResult) :=
  if negb (isInteger (rp_leafIndex proof)) || num_ltb (rp_leafIndex proof) (NInt 0)
  then Ok (Some (failed_with "Consistency proof leaf index is invalid."))
  else
    receiptBulletinIndex ← asBulletinIndex (vr_bulletinIndex receipt);
    proofLeafIndex ← asLeafIndex (rp_leafIndex proof);
    if negb (Z.eqb proofLeafIndex receiptBulletinIndex)
    then Ok (Some (failed_with "Consistency proof leaf index does not match receipt bulletin index."))
    else if negb (isInteger (rp_treeSize proof)) || num_leb (rp_treeSize proof) (NInt 0)
    then Ok (Some (failed_with "Consistency proof tree size is invalid."))
    else if negb (num_eqb (rp_treeSize proof) (NInt (receiptBulletinIndex + 1)))
    then Ok (Some (failed_with "Consistency proof tree size does not match the cast snapshot."))
    else if negb (String.eqb (normalizeHexString (rp_bulletinRootAtCast proof))
                    (normalizeHexString (vr_bulletinRootAtCast receipt)))
    then Ok (Some (failed_with "Root mismatch: receipt and inclusion proof disagree"))
    else if num_ltb newSize (rp_treeSize proof)
    then Ok (Some (failed_with "Consistency proof tree size exceeds final bulletin size."))
    else Ok None.

Definition or_text (o : option string) (text : string) : string :=
  match o with Some s => s | None => text end.

Definition verifyAdmittedConsistencyProof (proof : EvidenceAcquisition AdmittedConsistencyProof)
    (snapshot : ConsistencyProofExpectation) : CheckResult :=
  match proof with
  | AcqUnavailable _ => not_run
  | AcqMalformed m | AcqTransportFailed m =>
      failed_with (or_text m "Consistency proof evidence could not be admitted.")
  | Acquired p =>
      let r := verifyConsistencyProof p snapshot in
      if cv_isValid r then CSuccess
      else CFailed (Some (match cv_error r with
                          | Some e => e
                          | None => [T "Consistency proof verification failed."]
                          end)) None
  end.

Definition resolveRecordedConsistencyProof (voteReceipt : option VoteReceipt)
    (userVote : option UserVoteInput) (bulletinRoot : option string) (treeSize : option num)
    (consistencyProof : EvidenceAcquisition AdmittedConsistencyProof) : result CheckResult :=
  match voteReceipt, nonempty bulletinRoot, treeSize with
  | Some receipt, Some root, Some newSize =>
      if negb (str_truthy (vr_bulletinRootAtCast receipt)) then Ok not_run
      else if negb (isPositiveTreeSize newSize) then Ok not_run
      else
        match toCanonicalRfc6962Proof (userVote ≫= uv_proof) with
        | None => Ok not_run
        | Some proof =>
            if negb (isValidCount (vr_bulletinIndex receipt)) then Ok not_run
            else
              snapshotError ← validateConsistencySnapshot proof receipt newSize;
              match snapshotError with
              | Some error => Ok error
              | None =>
                  Ok (verifyAdmittedConsistencyProof consistencyProof
                        (mkExpectation (num_Z (rp_treeSize proof)) (num_Z newSize)
                           (vr_bulletinRootAtCast receipt) root))
              end
        end
  | _, _, _ => Ok not_run
  end.

Definition hasPublicSthEvidence (journal : option ZkVMJournal) (sthDigest bulletinRoot : option string)
    (treeSize : option num) : bool :=
  match nonempty (coalesce (j_sthDigest <$> journal) sthDigest),
        nonempty (coalesce (j_bulletinRoot <$> journal) bulletinRoot),
        coalesce (j_treeSize <$> journal) treeSize with
  | Some _, Some _, Some _ => true
  | _, _, _ => false
  end.

Definition resolveRecordedSthThirdParty (journal : option ZkVMJournal)
    (sthDigest bulletinRoot : option string) (treeSize : option num)
    (sthSourcesConfigured : option bool) (sthVerification : option SthVerificationResult) : CheckResult :=
  if negb (hasPublicSthEvidence journal sthDigest bulletinRoot treeSize) then not_run
  else
    match sthSourcesConfigured, sthVerification with
    | Some true, Some r => if sth_verified r then CSuccess else CFailed None None
    | _, _ => not_run
    end.

(** ** Counted as recorded *)

Definition zero_root : string := Nat.iter 64 (String "0") EmptyString.

Definition resolveCountedInputSanity (publicInput : option PublicInputAuthority) : CheckResult :=
  match publicInput with
  | None => not_run
  | Some p =>
      if negb (isInteger (pa_treeSize p)) || num_leb (pa_treeSize p) (NInt 0) then CFailed None None
      else if num_ltb (pa_treeSize p) (pa_votesCount p) then CFailed None None
      else if negb (isValidHexString (pa_bulletinRoot p) (Some 32)) then CFailed None None
      else if String.eqb (normalizeHexString (pa_bulletinRoot p)) zero_root then CFailed None None
      else CSuccess
  end.

Definition resolveCountedUniqueIndices (publicInput : option PublicInputAuthority) : CheckResult :=
  match publicInput with
  | None => not_run
  | Some p => if pa_uniqueIndices p then CSuccess else CFailed None None
  end.

Definition resolveCountedUniqueCommitments (publicInput : option PublicInputAuthority) : CheckResult :=
  match publicInput with
  | None => not_run
  | Some p => if pa_uniqueCommitments p then CSuccess else CFailed None None
  end.

(** [counts[choice]] for the five choices; [None] when one is not a number. *)
Definition counts_array (counts : gmap string num) : option (list num) :=
  JsValue.JsValue.all_some (fun c => counts !! c) VOTE_CHOICES.

Definition comparePublishedTally (counts : gmap string num) (totalVotes : num)
    (verifiedTally : list num) : CheckResult :=
  match counts_array counts with
  | None => not_run
  | Some countsArray =>
      if Z.ltb (zlength verifiedTally) (zlength countsArray) then not_run
      else
        let normalizedVerified := take (length countsArray) verifiedTally in
        let tallyMatches := forallb (fun p => num_eqb p.1 p.2) (zip countsArray normalizedVerified) in
        if tallyMatches && num_eqb (num_sum normalizedVerified) totalVotes
        then CSuccess else CFailed None None
  end.

Definition validateJournalTally (journal : option ZkVMJournal) : CheckResult :=
  match journal with
  | None => not_run
  | Some j =>
      let tallySum := num_sum (j_verifiedTally j) in
      if negb (num_eqb tallySum (j_validVotes j))
      then CFailed (Some [T "Tally sum ("; N tallySum; T ") does not match valid votes (";
                          N (j_validVotes j); T ")"]) None
      else CSuccess
  end.

Definition resolveCountedTallyConsistent (journal : option ZkVMJournal) (tally : option PublishedTally)
    (verifiedTally : option (list num)) (zkGateStatus : option VerificationStepStatus) : CheckResult :=
  match zkGateStatus with
  | Some s => of_status s
  | None =>
      if match journal with Some j => num_eqb (j_totalVotes j) (NInt 0) | None => false end
      then failed_with "No votes processed by zkVM"
      else
        match tally ≫= tally_counts, tally ≫= tally_totalVotes, verifiedTally with
        | Some counts, Some totalVotes, Some verified => comparePublishedTally counts totalVotes verified
        | _, _, _ => validateJournalTally journal
        end
  end.

Definition resolveInvalidJournalCounts (journal : option ZkVMJournal) : option CheckResult :=
  match journal with
  | None => None
  | Some j =>
      let invalid :=
        (if isValidCount (j_excludedSlots j) then [] else ["excludedSlots"%string]) ++
        (if isValidCount (j_missingSlots j) then [] else ["missingSlots"%string]) ++
        (if isValidCount (j_invalidPresentedSlots j) then [] else ["invalidPresentedSlots"%string]) ++
        (if isValidCount (j_validVotes j) then [] else ["validVotes"%string]) in
      match invalid with
      | [] => None
      | _ => Some (failed_with ("Invalid zkVM journal: " +:+ Contract.join ", " invalid +:+
                                " is missing or invalid.")%string)
      end
  end.

Definition excluded_input (journal : option ZkVMJournal) (missing invalid excluded : option num) :
    ExcludedCountInput :=
  mkExcludedInput ((fun j => Some (j_excludedSlots j)) <$> journal) missing invalid excluded false.

Definition resolveCountedMissingIndicesZero (journal : option ZkVMJournal)
    (missingSlots invalidPresentedSlots excludedSlots : option num)
    (zkGateStatus : option VerificationStepStatus) : CheckResult :=
  match resolveInvalidJournalCounts journal with
  | Some error => error
  | None =>
      match resolveExcludedCount (excluded_input journal missingSlots invalidPresentedSlots excludedSlots) with
      | None => not_run
      | Some n =>
          if num_ltb (NInt 0) n then CFailed (Some [T "excludedSlots="; N n]) None
          else match zkGateStatus with Some s => of_status s | None => CSuccess end
      end
  end.

Definition resolveCountedExpectedVsTreeSize (journal : option ZkVMJournal)
    (totalExpected treeSize : option num) (zkGateStatus : option VerificationStepStatus) : CheckResult :=
  match zkGateStatus with
  | Some s => of_status s
  | None =>
      match coalesce totalExpected (j_totalExpected <$> journal), coalesce treeSize (j_treeSize <$> journal) with
      | Some expected, Some size =>
          if negb (isInteger expected) || negb (isInteger size) then not_run
          else if num_eqb expected size then CSuccess else CFailed None None
      | _, _ => not_run
      end
  end.

Definition resolveCountedInputCommitmentMatch (journal : option ZkVMJournal)
    (inputCommitment : option string) (publicInput : option PublicInputAuthority)
    (zkGateStatus : option VerificationStepStatus) : CheckResult :=
  match zkGateStatus with
  | Some s => of_status s
  | None =>
      match publicInput with
      | None => not_run
      | Some p =>
          match nonempty (coalesce (j_inputCommitment <$> journal) inputCommitment),
                nonempty (Some (pa_recomputedInputCommitment p)) with
          | Some resolved, Some recomputed =>
              if String.eqb (normalizeHexString recomputed) (normalizeHexString resolved)
              then CSuccess else CFailed None None
          | _, _ => not_run
          end
      end
  end.

Definition compareElectionManifestInputs (electionId electionConfigHash : option string)
    (publicInput : option PublicInputAuthority) (journal : option ZkVMJournal)
    (manifest : ElectionManifest) (recomputedHash : string) : CheckResult :=
  let candidateElectionIds :=
    texts [Some (em_electionId manifest); electionId; pa_electionId <$> publicInput;
           j_electionId <$> journal] in
  if negb (all_same candidateElectionIds)
  then failed_with "Election manifest electionId does not match verification inputs."
  else
    let candidateHashes :=
      texts [Some (em_electionConfigHash manifest); electionConfigHash;
             pa_electionConfigHash <$> publicInput; j_electionConfigHash <$> journal] in
    if existsb (fun v => negb (String.eqb (normalizeHexString v) (normalizeHexString recomputedHash)))
         candidateHashes
    then failed_with "Election config hash mismatch between manifest and verification inputs."
    else CSuccess.

Definition resolveCountedElectionManifestConsistent (electionManifest : option ElectionManifest)
    (electionId electionConfigHash : option string) (publicInput : option PublicInputAuthority)
    (journal : option ZkVMJournal) (zkGateStatus : option VerificationStepStatus) : CheckResult :=
  match zkGateStatus with
  | Some s => of_status s
  | None =>
      match electionManifest with
      | None => not_run
      | Some manifest =>
          let recomputedHash := recomputeElectionManifestHash manifest in
          if negb (String.eqb (normalizeHexString recomputedHash)
                     (normalizeHexString (em_electionConfigHash manifest)))
          then failed_with "Election manifest hash does not match its declared configuration."
          else compareElectionManifestInputs electionId electionConfigHash publicInput journal manifest
                 recomputedHash
      end
  end.

Definition validateCloseStatementArtifact (closeStatement : CloseStatement) :
    result (option CheckResult) :=
  try_catch
    (recomputed ← buildCloseStatement (cs_logId closeStatement) (cs_treeSize closeStatement)
       (cs_timestamp closeStatement) (cs_bulletinRoot closeStatement);
     Ok (if negb (String.eqb (normalizeHexString (cs_sthDigest recomputed))
                    (normalizeHexString (cs_sthDigest closeStatement)))
         then Some (failed_with "Close statement digest does not match its declared snapshot.")
         else None))
    (fun m => Ok (Some (failed_with m))).

Definition compareCloseStatementInputs (logId : option string) (treeSize : option num)
    (journal : option ZkVMJournal) (bulletinRoot sthDigest : option string)
    (closeStatement : CloseStatement) (admittedDigest : string) : CheckResult :=
  let candidateLogIds := texts [Some (cs_logId closeStatement); logId] in
  if negb (all_same (map normalizeHexString candidateLogIds))
  then failed_with "Close statement logId does not match verification inputs."
  else
    let candidateTreeSizes :=
      List.filter isInteger
        (flat_map opt_list [Some (cs_treeSize closeStatement); treeSize; j_treeSize <$> journal]) in
    if negb (all_same candidateTreeSizes)
    then failed_with "Close statement treeSize does not match verification inputs."
    else
      let candidateRoots :=
        texts [Some (cs_bulletinRoot closeStatement); bulletinRoot; j_bulletinRoot <$> journal] in
      if negb (all_same (map normalizeHexString candidateRoots))
      then failed_with "Close statement bulletinRoot does not match verification inputs."
      else
        let candidateDigests :=
          texts [Some (cs_sthDigest closeStatement); sthDigest; j_sthDigest <$> journal] in
        if existsb (fun v => negb (String.eqb (normalizeHexString v) (normalizeHexString admittedDigest)))
             candidateDigests
        then failed_with "Close statement STH digest does not match verification inputs."
        else CSuccess.

Definition resolveCountedCloseStatementConsistent (closeStatement : option CloseStatement)
    (publicInput : option PublicInputAuthority) (logId : option string) (treeSize : option num)
    (journal : option ZkVMJournal) (bulletinRoot sthDigest : option string)
    (zkGateStatus : option VerificationStepStatus) : result CheckResult :=
  match zkGateStatus with
  | Some s => Ok (of_status s)
  | None =>
      match closeStatement, pa_timestamp <$> publicInput with
      | Some statement, Some publicInputTimestamp =>
          if negb (isInteger publicInputTimestamp) then Ok not_run
          else
            artifactError ← validateCloseStatementArtifact statement;
            match artifactError with
            | Some error => Ok error
            | None =>
                if negb (num_eqb (cs_timestamp statement) publicInputTimestamp)
                then Ok (failed_with "Close statement timestamp does not match public input.")
                else Ok (compareCloseStatementInputs logId treeSize journal bulletinRoot sthDigest
                           statement (cs_sthDigest statement))
            end
      | _, _ => Ok not_run
      end
  end.

(** ** Inclusion of the voter's vote in the counted bitmap *)

(** The evidence this check reads. *)
Record MyVoteContext := mkMyVote {
  mv_journal : option ZkVMJournal;
  mv_includedBitmapRoot : option string;
  mv_seenBitmapRoot : option string;
  mv_treeSize : option num;
  mv_voteReceipt : option VoteReceipt;
  mv_bitmapProofSource : option BitmapProofSource;
  mv_includedBitmapProof : EvidenceAcquisition Bitmap.BitmapProofResponse;
  mv_seenBitmapProof : EvidenceAcquisition Bitmap.BitmapProofResponse;
  mv_missingSlots : option num;
  mv_invalidPresentedSlots : option num;
  mv_excludedSlots : option num;
}.

Definition hasBitmapReceiptPosition (index : option num) : option num :=
  match index with Some i => if isInteger i then Some i else None | None => None end.

Definition admitBitmapTreeSize (treeSizeCandidate : option num) : option Z :=
  match treeSizeCandidate with
  | None => None
  | Some t => match Bitmap.asAuthenticatedBitmapTreeSize t with Ok z => Some z | Err _ => None end
  end.

Definition hasAdmittedBitmapProofSource (input : MyVoteContext) : bool :=
  match mv_bitmapProofSource input with Some _ => true | None => false end.

(** [resolveBitmapProofAuthority]: included root, seen root, tree size. *)
Definition resolveBitmapProofAuthority (input : MyVoteContext) :
    option string * option string * option num :=
  (coalesce (j_includedBitmapRoot <$> mv_journal input) (mv_includedBitmapRoot input),
   coalesce (mv_journal input ≫= j_seenBitmapRoot) (mv_seenBitmapRoot input),
   coalesce (j_treeSize <$> mv_journal input) (mv_treeSize input)).

Definition resolveCountedMyVoteIncludedNoteKey (input : MyVoteContext) :
    option VerificationCheckNoteKey :=
  let excluded :=
    resolveExcludedCount (excluded_input (mv_journal input) (mv_missingSlots input)
                            (mv_invalidPresentedSlots input) (mv_excludedSlots input)) in
  if match excluded with Some n => num_ltb (NInt 0) n | None => false end then Some note_excluded
  else
    match nonempty (coalesce (j_includedBitmapRoot <$> mv_journal input) (mv_includedBitmapRoot input)),
          hasBitmapReceiptPosition (vr_bulletinIndex <$> mv_voteReceipt input) with
    | Some _, Some _ =>
        if negb (hasAdmittedBitmapProofSource input) then Some note_proofUnavailable else None
    | _, _ => Some note_missingReceipt
    end.

Definition unresolvedMyVoteCheck (input : MyVoteContext) : CheckResult :=
  CNotRun (resolveCountedMyVoteIncludedNoteKey input).

(** [projectMyVoteProofResult]; [detail] is present on an explained result. *)
Definition projectMyVoteProofResult (r : Bitmap.BitmapVerificationResult)
    (detail : option Bitmap.VoteInclusionStatus) : CheckResult :=
  if negb (Bitmap.valid r) then CFailed None None
  else if Bitmap.included r then CSuccess
  else
    CFailed None
      match detail with
      | Some Bitmap.not_presented => Some note_notPresented
      | Some Bitmap.presented_but_invalid => Some note_presentedButInvalid
      | Some Bitmap.unknown_excluded => Some note_excluded
      | _ => None
      end.

Definition acquired {A} (e : EvidenceAcquisition A) : option A :=
  match e with Acquired v => Some v | _ => None end.

Definition evaluateMyVoteBitmapProof (input : MyVoteContext) (bulletinIndex : num)
    (includedBitmapRoot : string) (seenBitmapRoot : option string) (authenticatedTreeSize : Z)
    (includedProof : Bitmap.BitmapProofResponse) : result CheckResult :=
  try_catch
    (match nonempty seenBitmapRoot with
     | Some root =>
         r ← Bitmap.explainVoteInclusionStatus bulletinIndex includedBitmapRoot (Some root) includedProof
               (acquired (mv_seenBitmapProof input)) (NInt authenticatedTreeSize);
         Ok (projectMyVoteProofResult (Bitmap.explained r) (Some (Bitmap.statusDetail r)))
     | None =>
         r ← Bitmap.verifyMyVoteWasCounted bulletinIndex includedBitmapRoot includedProof
               (NInt authenticatedTreeSize);
         Ok (projectMyVoteProofResult r None)
     end)
    (fun _ => Ok (unresolvedMyVoteCheck input)).

Definition resolveCountedMyVoteIncluded (input : MyVoteContext)
    (zkGateStatus : option VerificationStepStatus) : result CheckResult :=
  match zkGateStatus with
  | Some s => Ok (of_status s)
  | None =>
      let '(includedBitmapRoot, seenBitmapRoot, treeSizeCandidate) := resolveBitmapProofAuthority input in
      match nonempty includedBitmapRoot,
            hasBitmapReceiptPosition (vr_bulletinIndex <$> mv_voteReceipt input),
            admitBitmapTreeSize treeSizeCandidate with
      | Some root, Some bulletinIndex, Some authenticatedTreeSize =>
          if negb (hasAdmittedBitmapProofSource input) then Ok (unresolvedMyVoteCheck input)
          else
            match mv_includedBitmapProof input with
            | Acquired includedProof =>
                evaluateMyVoteBitmapProof input bulletinIndex root seenBitmapRoot authenticatedTreeSize
                  includedProof
            | _ => Ok (unresolvedMyVoteCheck input)
            end
      | _, _, _ => Ok (unresolvedMyVoteCheck input)
      end
  end.

(** ** STARK verification *)

Definition isValidImageId (value : string) : bool := isValidHexString value (Some 32).

Definition valid_if_present (value : option string) : bool :=
  match value with Some v => isValidImageId v | None => true end.

Definition hasValidImageIdEvidence (claimedImageId comparisonImageId : option string)
    (report : option VerificationReportEvidence) : bool :=
  valid_if_present claimedImageId && valid_if_present comparisonImageId &&
  valid_if_present (report ≫= report_expected) &&
  match report with
  | None => true
  | Some r => match report_receipt r with rid_text s => isValidImageId s | _ => true end
  end.

Definition differs (a : option string) (normalized : string) : bool :=
  match nonempty a with
  | Some s => negb (String.eqb (normalizeHexString s) normalized)
  | None => false
  end.

Definition compareConfirmedReceiptImageId (expected_image_id receipt_image_id : string)
    (claimedImageId comparisonImageId : option string) : CheckResult :=
  let expected := normalizeHexString expected_image_id in
  let receipt := normalizeHexString receipt_image_id in
  if negb (String.eqb expected receipt) then CFailed None None
  else if differs claimedImageId receipt
  then failed_with "Claimed ImageID does not match verifier-confirmed receipt ImageID."
  else if differs comparisonImageId receipt
  then failed_with "Comparison-only journal ImageID does not match verifier-confirmed receipt ImageID."
  else CSuccess.

Definition compareVerifierImageIds (claimedImageId comparisonImageId : option string)
    (report : option VerificationReportEvidence) : CheckResult :=
  match report with
  | None => not_run
  | Some r =>
      match nonempty (report_expected r), report_receipt r with
      | None, _ | _, rid_absent => not_run
      | Some _, rid_null => CFailed None None
      | Some expected, rid_text receipt =>
          if negb (str_truthy receipt) then CFailed None None
          else compareConfirmedReceiptImageId expected receipt claimedImageId comparisonImageId
      end
  end.

Definition resolveStarkImageIdMatch (claimedImageId comparisonImageId : option string)
    (report : option VerificationReportEvidence) (status : VerificationStepStatus) : CheckResult :=
  match status with
  | st_running | st_not_run | st_failed => of_status status
  | _ =>
      if negb (hasValidImageIdEvidence claimedImageId comparisonImageId report)
      then failed_with "ImageID evidence must be a 32-byte hexadecimal value."
      else
        match nonempty claimedImageId, nonempty comparisonImageId with
        | Some claimed, Some comparison =>
            if negb (String.eqb (normalizeHexString claimed) (normalizeHexString comparison))
            then failed_with "Claimed ImageID does not match comparison evidence."
            else compareVerifierImageIds claimedImageId comparisonImageId report
        | _, _ => compareVerifierImageIds claimedImageId comparisonImageId report
        end
  end.

Definition outcome_report (o : AdmittedVerifierOutcome) : option VerificationReportEvidence :=
  match o with
  | AdmNotRun | AdmRunning => None
  | AdmSuccess r | AdmDevMode r | AdmFailed r _ => evidenceValue r
  end.

Definition resolveStarkStatus (outcome : AdmittedVerifierOutcome)
    (allowDevModeVerification : option bool) : VerificationStepStatus :=
  match outcome with
  | AdmDevMode _ => match allowDevModeVerification with Some true => st_success | _ => st_not_run end
  | AdmNotRun => st_not_run
  | AdmRunning => st_running
  | AdmSuccess _ => st_success
  | AdmFailed _ _ => st_failed
  end.

Definition resolveZkGateStatus (starkStatus : VerificationStepStatus) : option VerificationStepStatus :=
  match starkStatus with
  | st_running => Some st_pending
  | st_not_run => Some st_not_run
  | st_failed => Some st_failed
  | _ => None
  end.

(** ** The evaluation *)

Record EvaluationRuntime := mkRuntime {
  starkStatus : VerificationStepStatus;
  zkGateStatus : option VerificationStepStatus;
  localCastResults : LocalCastCheckResults;
}.

(** The promises of the results computed so far, latest first. *)
Definition Cache : Type := list (VerificationCheckId * result CheckResult).

Fixpoint cache_get (cache : Cache) (id : VerificationCheckId) : option (result CheckResult) :=
  match cache with
  | [] => None
  | (i, r) :: rest => if bool_decide (i = id) then Some r else cache_get rest id
  end.

Definition of_local (r : LocalCastCheckResult) : CheckResult :=
  match r with
  | LocalSuccess => CSuccess
  | LocalNotRun => not_run
  | LocalFailed e => failed_with e
  end.

(** [CHECK_EVALUATORS[id](CHECK_CONTEXT_SELECTORS[id](evidence), runtime, helpers)]:
    [evaluate] is [helpers.evaluate], the rest reads only selected evidence. *)
Definition evaluateSelectedCheck (evaluate : VerificationCheckId -> Cache -> result CheckResult * Cache)
    (id : VerificationCheckId) (evidence : AdmittedVerificationEvidence) (runtime : EvaluationRuntime)
    (cache : Cache) : result CheckResult * Cache :=
  let receipt := evidenceValue (f_voteReceipt (userReceipt evidence)) in
  let userVote := evidenceValue (f_userVote (userReceipt evidence)) in
  let a := artifacts evidence in
  let t := tally evidence in
  let journal := evidenceValue (f_journal a) in
  let treeSize := evidenceValue (f_treeSize a) in
  let bulletinRoot := evidenceValue (f_bulletinRoot a) in
  let sthDigest := evidenceValue (f_sthDigest a) in
  let publicInput := evidenceValue (f_publicInputAuthority a) in
  let missing := evidenceValue (f_missingSlots t) in
  let invalid := evidenceValue (f_invalidPresentedSlots t) in
  let excluded := evidenceValue (f_excludedSlots t) in
  let gate := zkGateStatus runtime in
  match id with
  | cast_receipt_present => (Ok (of_local (localCastResults runtime local_receipt_present)), cache)
  | cast_choice_range => (Ok (of_local (localCastResults runtime local_choice_range)), cache)
  | cast_random_format => (Ok (of_local (localCastResults runtime local_random_format)), cache)
  | cast_commitment_match => (Ok (of_local (localCastResults runtime local_commitment_match)), cache)
  | recorded_commitment_in_bulletin => evaluate recorded_inclusion_proof cache
  | recorded_index_in_range => (Ok (resolveRecordedIndexInRange receipt treeSize), cache)
  | recorded_root_at_cast_consistent => evaluate recorded_consistency_proof cache
  | recorded_inclusion_proof => (resolveRecordedInclusionProof receipt userVote, cache)
  | recorded_consistency_proof =>
      (resolveRecordedConsistencyProof receipt userVote bulletinRoot treeSize (f_consistencyProof a), cache)
  | recorded_sth_third_party =>
      (Ok (resolveRecordedSthThirdParty journal sthDigest bulletinRoot treeSize
             (evidenceValue (f_sthSourcesConfigured (identity evidence)))
             (evidenceValue (f_sthVerification a))), cache)
  | counted_input_sanity => (Ok (resolveCountedInputSanity publicInput), cache)
  | counted_unique_indices => (Ok (resolveCountedUniqueIndices publicInput), cache)
  | counted_unique_commitments => (Ok (resolveCountedUniqueCommitments publicInput), cache)
  | counted_tally_consistent =>
      (Ok (resolveCountedTallyConsistent journal (evidenceValue (f_tally t))
             (evidenceValue (f_verifiedTally t)) gate), cache)
  | counted_missing_indices_zero =>
      (Ok (resolveCountedMissingIndicesZero journal missing invalid excluded gate), cache)
  | counted_expected_vs_tree_size =>
      (Ok (resolveCountedExpectedVsTreeSize journal (evidenceValue (f_totalExpected t)) treeSize gate), cache)
  | counted_election_manifest_consistent =>
      (Ok (resolveCountedElectionManifestConsistent (evidenceValue (f_electionManifest a))
             (evidenceValue (f_electionId (identity evidence)))
             (evidenceValue (f_electionConfigHash (identity evidence))) publicInput journal gate), cache)
  | counted_close_statement_consistent =>
      (resolveCountedCloseStatementConsistent (evidenceValue (f_closeStatement a)) publicInput
         (evidenceValue (f_logId (identity evidence))) treeSize journal bulletinRoot sthDigest gate, cache)
  | counted_my_vote_included =>
      (resolveCountedMyVoteIncluded
         (mkMyVote journal (evidenceValue (f_includedBitmapRoot a)) (evidenceValue (f_seenBitmapRoot a))
            treeSize receipt (evidenceValue (f_bitmapProofSource a)) (f_includedBitmapProof a)
            (f_seenBitmapProof a) missing invalid excluded) gate, cache)
  | counted_input_commitment_match =>
      (Ok (resolveCountedInputCommitmentMatch journal (evidenceValue (f_inputCommitment t)) publicInput
             gate), cache)
  | stark_image_id_match =>
      (Ok (resolveStarkImageIdMatch (evidenceValue (f_claimedImageId (identity evidence)))
             (evidenceValue (f_comparisonImageId (identity evidence)))
             (outcome_report (verifierOutcome evidence)) (starkStatus runtime)), cache)
  | stark_receipt_verify => (Ok (of_status (starkStatus runtime)), cache)
  end.

(** [helpers.evaluate]: the cached result, or the evaluation, then cached. The
    fuel bounds the chain of derived checks; two levels exist. *)
Fixpoint evaluate (fuel : nat) (evidence : AdmittedVerificationEvidence) (runtime : EvaluationRuntime)
    (id : VerificationCheckId) (cache : Cache) : result CheckResult * Cache :=
  match fuel with
  | O => (Err OutOfFuel, cache)
  | S f =>
      match cache_get cache id with
      | Some r => (r, cache)
      | None =>
          let '(r, cache') :=
            evaluateSelectedCheck (evaluate f evidence runtime) id evidence runtime cache in
          (r, (id, r) :: cache')
      end
  end.

Definition EVALUATE_FUEL : nat := 2.

Definition build_runtime (evidence : AdmittedVerificationEvidence) (applyZkGate : bool) : EvaluationRuntime :=
  let stark := resolveStarkStatus (verifierOutcome evidence)
                 (evidenceValue (f_allowDevModeVerification (identity evidence))) in
  let receipt := evidenceValue (f_voteReceipt (userReceipt evidence)) in
  let userVote := evidenceValue (f_userVote (userReceipt evidence)) in
  mkRuntime stark (if applyZkGate then resolveZkGateStatus stark else None)
    (evaluateLocalCastChecks
       (mkLocalInput (evidenceValue (f_electionId (identity evidence))) (partial_receipt <$> receipt)
          (userVote ≫= uv_vote) (userVote ≫= uv_random))).

(** The entries in the order of [checkIds]; the first rejection rejects all. *)
Fixpoint evaluate_ids (evidence : AdmittedVerificationEvidence) (runtime : EvaluationRuntime)
    (checkIds : list VerificationCheckId) (cache : Cache) :
    result (list (VerificationCheckId * CheckResult)) :=
  match checkIds with
  | [] => Ok []
  | id :: rest =>
      let '(r, cache') := evaluate EVALUATE_FUEL evidence runtime id cache in
      x ← r; tail ← evaluate_ids evidence runtime rest cache'; Ok ((id, x) :: tail)
  end.

Definition evaluateChecks (input : VerificationEvaluationInput) (checkIds : list VerificationCheckId)
    (applyZkGate : option bool) : result (list (VerificationCheckId * CheckResult)) :=
  let evidence := admitVerificationEvidence input in
  let gate := match applyZkGate with Some b => b | None => true end in
  evaluate_ids evidence (build_runtime evidence gate) checkIds [].

Definition evaluateAllChecks (input : VerificationEvaluationInput) (applyZkGate : option bool) :
    result (list (VerificationCheckId * CheckResult)) :=
  evaluateChecks input VERIFICATION_CHECK_IDS applyZkGate.

(** [checks.get(id)] on the resulting map. *)
Fixpoint checks_get (checks : list (VerificationCheckId * CheckResult)) (id : VerificationCheckId) :
    option CheckResult :=
  match checks with
  | [] => None
  | (i, r) :: rest => if bool_decide (i = id) then Some r else checks_get rest id
  end.

End with_noble.
End Engine.
