(* ===== verification/EngineProofs.v ===== *)
(** What the evaluation of the checks guarantees: the shared cache does not
    change results, the zkVM gate keeps proof-dependent checks from succeeding,
    and the checks that succeed establish the facts they stand for. *)
From S2P Require Import Prelude.
From S2P Require Import JsNumber.
From S2P Require Import JsValue.
From S2P Require Import Hex.
From S2P Require Import Rfc6962.
From S2P Require Import MerkleSpec.
From S2P Require Import TreeFacts.
From S2P Require Import Inclusion.
From S2P Require Import Consistency.
From S2P Require Import Bitmap.
From S2P Require Import BitmapFacts.
From S2P Require Import BitmapProofs.
From S2P Require Import Contract.
From S2P Require Import Checks.
From S2P Require Import LocalCast.
From S2P Require Import Evidence.
From S2P Require Import Verifiers.
From S2P Require Import Engine.
Import Checks.
Import LocalCast.
Import Evidence.
Import Verifiers.
Import Engine.

Section cache.
Context `{Noble}.

(** The source of a derived check, or the check itself. *)
Definition source_of (id : VerificationCheckId) : VerificationCheckId :=
  match lookup_definition id ≫= def_derivedFrom with Some s => s | None => id end.

(** The result of a check evaluated on its own, without a cache. *)
Definition check_result (evidence : AdmittedVerificationEvidence) (runtime : EvaluationRuntime)
    (id : VerificationCheckId) : result CheckResult :=
  (evaluateSelectedCheck (fun _ c => (Err OutOfFuel, c)) (source_of id) evidence runtime []).1.

Definition cache_ok (evidence : AdmittedVerificationEvidence) (runtime : EvaluationRuntime)
    (cache : Cache) : Prop :=
  forall id r, cache_get cache id = Some r -> r = check_result evidence runtime id.

Lemma cache_ok_cons e rt id cache :
  cache_ok e rt cache -> cache_ok e rt ((id, check_result e rt id) :: cache).
Proof. intros Hc i r. simpl. case_bool_decide; [by intros [= <-]; subst | apply Hc]. Qed.

(** A check that is not derived reads neither the cache nor another check. *)
Lemma selected_source ev id e rt cache :
  source_of id = id -> evaluateSelectedCheck ev id e rt cache = (check_result e rt id, cache).
Proof. unfold check_result. intros E. rewrite E. by destruct id. Qed.

Lemma evaluate_S f e rt id cache :
  evaluate (S f) e rt id cache =
    match cache_get cache id with
    | Some r => (r, cache)
    | None =>
        let '(r, cache') := evaluateSelectedCheck (evaluate f e rt) id e rt cache in
        (r, (id, r) :: cache')
    end.
Proof. done. Qed.

Lemma evaluate_source f id e rt cache :
  source_of id = id -> cache_ok e rt cache ->
  exists cache', evaluate (S f) e rt id cache = (check_result e rt id, cache') /\ cache_ok e rt cache'.
Proof.
  intros Hs Hc. rewrite evaluate_S. destruct (cache_get cache id) as [r |] eqn:E.
  - apply Hc in E as ->. by exists cache.
  - rewrite selected_source by done. eexists. split; [done | by apply cache_ok_cons].
Qed.

Lemma evaluate_ok id e rt cache :
  cache_ok e rt cache ->
  exists cache', evaluate EVALUATE_FUEL e rt id cache = (check_result e rt id, cache') /\ cache_ok e rt cache'.
Proof.
  intros Hc. destruct (decide (source_of id = id)) as [Hs | Hs]; [by apply (evaluate_source 1) |].
  change EVALUATE_FUEL with 2%nat. rewrite evaluate_S.
  destruct (cache_get cache id) as [r |] eqn:E; [apply Hc in E as ->; by exists cache |].
  assert (Hd : forall ev, evaluateSelectedCheck ev id e rt cache = ev (source_of id) cache)
    by (destruct id; done).
  rewrite Hd.
  destruct (evaluate_source 0 (source_of id) e rt cache) as (cache' & -> & Hc'); [by destruct id | done |].
  assert (Hr : check_result e rt (source_of id) = check_result e rt id) by (destruct id; done).
  rewrite Hr. eexists. split; [done | by apply cache_ok_cons].
Qed.

Lemma evaluate_ids_spec e rt ids : forall cache,
  cache_ok e rt cache ->
  evaluate_ids e rt ids cache =
    Contract.map_result (fun id => x ← check_result e rt id; Ok (id, x)) ids.
Proof.
  induction ids as [| id ids IH]; intros cache Hc; cbn [evaluate_ids Contract.map_result]; [done |].
  destruct (evaluate_ok id e rt cache Hc) as (cache' & -> & Hc').
  destruct (check_result e rt id); [| done]. simpl. by rewrite (IH _ Hc').
Qed.

(** The runtime of an evaluation. *)
Definition runtime_of (input : VerificationEvaluationInput) (applyZkGate : option bool) :
    EvaluationRuntime :=
  build_runtime (admitVerificationEvidence input) (match applyZkGate with Some b => b | None => true end).

(** The promise cache is transparent: evaluating any list of checks, in any
    order and with repetitions, gives for each of them the result it has on its
    own, a derived check the result of its source; and the evaluation fails
    only if one of these results is a thrown error. *)
Theorem evaluateChecks_transparent input ids gate :
  evaluateChecks input ids gate =
    Contract.map_result
      (fun id => x ← check_result (admitVerificationEvidence input) (runtime_of input gate) id; Ok (id, x))
      ids.
Proof. apply evaluate_ids_spec. by intros id r. Qed.

(** The results of a successful evaluation, looked up by identifier. *)
Lemma evaluateChecks_get input ids gate checks :
  evaluateChecks input ids gate = Ok checks ->
  forall id, checks_get checks id = None /\ id ∉ ids \/
    exists r, id ∈ ids /\ checks_get checks id = Some r /\
      check_result (admitVerificationEvidence input) (runtime_of input gate) id = Ok r.
Proof.
  unfold evaluateChecks. rewrite evaluate_ids_spec by (by intros ? ?).
  fold (runtime_of input gate). revert checks.
  induction ids as [| i ids IH]; intros checks E id; cbn [Contract.map_result] in E.
  - injection E as <-. left. split; [done | by intros ?%elem_of_nil].
  - destruct (check_result _ _ i) as [x |] eqn:Ei; [| done]. cbn [mbind result_bind] in E.
    destruct (Contract.map_result _ ids) as [rest |]; [| done]. injection E as <-.
    cbn [checks_get]. case_bool_decide as Hi.
    + subst i. right. exists x. split_and!; [apply elem_of_cons; by left | done | done].
    + destruct (IH rest eq_refl id) as [[-> Hn] | (r & Hin & -> & Er)].
      * left. split; [done |]. intros [-> | ?]%elem_of_cons; done.
      * right. exists r. split_and!; [apply elem_of_cons; by right | done | done].
Qed.

End cache.

Lemma nonempty_value o s : nonempty o = Some s -> o = Some s.
Proof. destruct o as [[| c t] |]; simpl; [done | by intros [= <-] | done]. Qed.

Lemma safe_index v label u :
  assertNonNegativeSafeInteger v label = Ok u -> exists z, v = NInt z /\ 0 <= z <= MAX_SAFE_INTEGER.
Proof.
  unfold assertNonNegativeSafeInteger. destruct v as [z | | |]; try done. cbn [isSafeInteger num_ltb].
  destruct (safe_Z z) eqn:Hs; [| done]. apply safe_Z_spec in Hs.
  destruct (Z.ltb_spec z 0); [done |]. intros _. exists z. split; [done | lia].
Qed.

Lemma asBulletinIndex_Ok v z : asBulletinIndex v = Ok z -> v = NInt z /\ 0 <= z <= MAX_SAFE_INTEGER.
Proof.
  unfold asBulletinIndex. intros E. bind_inv.
  match goal with A : assertNonNegativeSafeInteger _ _ = Ok _ |- _ => apply safe_index in A as (y & -> & Hy) end.
  by injection E as <-.
Qed.

Lemma asLeafIndex_Ok v z : asLeafIndex v = Ok z -> v = NInt z /\ 0 <= z <= MAX_SAFE_INTEGER.
Proof.
  unfold asLeafIndex. intros E. bind_inv.
  match goal with A : assertNonNegativeSafeInteger _ _ = Ok _ |- _ => apply safe_index in A as (y & -> & Hy) end.
  by injection E as <-.
Qed.

Lemma value_of_admitted {A} (o : option A) : evidenceValue (toAdmittedEvidence o) = o.
Proof. by destruct o. Qed.

Section recorded.
Context `{NobleLaws}.

(** What a successful inclusion check has established. *)
Record inclusion_facts (vr : option VoteReceipt) (uv : option UserVoteInput) (receipt : VoteReceipt)
    (c : string) (i : Z) (nodes : list string) : Prop := {
  inc_receipt : vr = Some receipt;
  inc_commitment : (uv ≫= uv_commitment) = Some c;
  inc_index : vr_bulletinIndex receipt = NInt i;
  inc_nonneg : 0 <= i;
  inc_accepted :
    Rfc6962.verifyInclusionProof (normalizeHexString c) i nodes
      (normalizeHexString (vr_bulletinRootAtCast receipt)) (i + 1) = Ok true;
}.

Lemma inclusion_success vr uv :
  resolveRecordedInclusionProof vr uv = Ok CSuccess ->
  exists receipt c i nodes, inclusion_facts vr uv receipt c i nodes.
Proof.
  unfold resolveRecordedInclusionProof.
  destruct (toCanonicalRfc6962Proof _) as [proof |]; [| done].
  destruct vr as [receipt |]; [| done].
  destruct (nonempty (uv ≫= uv_commitment)) as [c |] eqn:Ec; [| done]. apply nonempty_value in Ec.
  destruct (isValidCount _); cbn [negb]; [| done].
  destruct (asBulletinIndex (vr_bulletinIndex receipt)) as [i |] eqn:Ei; [| done].
  destruct (asLeafIndex (rp_leafIndex proof)) as [li |] eqn:El; [| done].
  apply asBulletinIndex_Ok in Ei as [Ei Hi]. apply asLeafIndex_Ok in El as [El _].
  destruct (Z.eqb_spec li i) as [-> |]; cbn [negb]; [| done].
  destruct (negb (isInteger _) || _); [done |].
  destruct (num_eqb (rp_treeSize proof) (NInt (i + 1))) eqn:Et; cbn [negb]; [| done].
  apply num_eqb_int_r in Et.
  destruct (String.eqb_spec (normalizeHexString (rp_bulletinRootAtCast proof))
              (normalizeHexString (vr_bulletinRootAtCast receipt))) as [Er |]; cbn [negb]; [| done].
  rewrite El, Et. cbn [num_Z]. unfold verifyCTMerkleInclusion.
  destruct (Z.leb_spec (i + 1) 0); [lia |]. rewrite Er.
  destruct (Rfc6962.verifyInclusionProof _ _ _ _ _) as [[] | [m |]] eqn:Ev; try done. intros _.
  exists receipt, c, i, (map normalizeHexString (rp_merklePath proof)). split; [done .. | lia | done].
Qed.

(** What a successful consistency check has established. *)
Record consistency_facts (vr : option VoteReceipt) (root : option string) (size : option num)
    (receipt : VoteReceipt) (i : Z) (finalRoot : string) (n : Z) (nodes : list string) : Prop := {
  con_receipt : vr = Some receipt;
  con_index : vr_bulletinIndex receipt = NInt i;
  con_root : root = Some finalRoot;
  con_size : size = Some (NInt n);
  con_accepted :
    Rfc6962.verifyConsistencyProof (normalizeHexString (vr_bulletinRootAtCast receipt))
      (normalizeHexString finalRoot) (Rfc6962.mkConsistencyProof (i + 1) n nodes) = Ok true;
}.

Lemma accepted_consistency_proof cp snapshot :
  verifyAdmittedConsistencyProof cp snapshot = CSuccess ->
  exists nodes,
    Rfc6962.verifyConsistencyProof (normalizeHexString (ex_rootAtFromTreeSize snapshot))
      (normalizeHexString (ex_rootAtToTreeSize snapshot))
      (Rfc6962.mkConsistencyProof (ex_fromTreeSize snapshot) (ex_toTreeSize snapshot) nodes) = Ok true.
Proof.
  destruct cp as [p | | |]; try done. simpl. unfold verifyConsistencyProof.
  destruct (Z.eqb_spec (cp_fromTreeSize p) (ex_fromTreeSize snapshot)) as [Ef |]; [| done].
  destruct (Z.eqb_spec (cp_toTreeSize p) (ex_toTreeSize snapshot)) as [Et |]; [| done].
  cbn [negb orb].
  destruct (String.eqb_spec (normalizeHexString (cp_rootAtFromTreeSize p))
              (normalizeHexString (ex_rootAtFromTreeSize snapshot))) as [Er |]; [| done].
  destruct (String.eqb_spec (normalizeHexString (cp_rootAtToTreeSize p))
              (normalizeHexString (ex_rootAtToTreeSize snapshot))) as [Er' |]; [| done].
  cbn [negb orb]. rewrite Ef, Et, Er, Er'.
  destruct (Rfc6962.verifyConsistencyProof _ _ _) as [[] | [m |]] eqn:Ev; try done. intros _.
  by exists (map normalizeHexString (cp_proofNodes p)).
Qed.

Lemma consistency_success vr uv root size cp :
  resolveRecordedConsistencyProof vr uv root size cp = Ok CSuccess ->
  exists receipt i finalRoot n nodes, consistency_facts vr root size receipt i finalRoot n nodes.
Proof.
  unfold resolveRecordedConsistencyProof.
  destruct vr as [receipt |]; [| done].
  destruct (nonempty root) as [finalRoot |] eqn:Er; [| done]. apply nonempty_value in Er as ->.
  destruct size as [newSize |]; [| done].
  destruct (str_truthy _); cbn [negb]; [| done].
  destruct (isPositiveTreeSize newSize) eqn:Hn; cbn [negb]; [| done].
  assert (exists n, newSize = NInt n) as [n ->].
  { unfold isPositiveTreeSize in Hn. destruct newSize as [n | | |]; try done. by exists n. }
  destruct (toCanonicalRfc6962Proof _) as [proof |]; [| done].
  destruct (isValidCount _); cbn [negb]; [| done].
  intros E. bind_inv. unfold validateConsistencySnapshot in *.
  match goal with A : (if _ then _ else _) = Ok ?x |- _ => rename A into Hs, x into err end.
  destruct (_ || _) in Hs; [by injection Hs as <- |]. bind_inv.
  match goal with A : asBulletinIndex _ = Ok ?x |- _ => rename x into i; apply asBulletinIndex_Ok in A as [Ei _] end.
  destruct (negb (Z.eqb _ _)) in Hs; [by injection Hs as <- |].
  destruct (_ || _) in Hs; [by injection Hs as <- |].
  destruct (num_eqb (rp_treeSize proof) (NInt (i + 1))) eqn:Et; cbn [negb] in Hs; [| by injection Hs as <-].
  apply num_eqb_int_r in Et.
  destruct (negb (String.eqb _ _)) in Hs; [by injection Hs as <- |].
  destruct (num_ltb _ _) in Hs; [by injection Hs as <- |]. injection Hs as <-.
  injection E as E. apply accepted_consistency_proof in E as [nodes E].
  cbn [ex_fromTreeSize ex_toTreeSize ex_rootAtFromTreeSize ex_rootAtToTreeSize] in E.
  rewrite Et in E. cbn [num_Z] in E. exists receipt, i, finalRoot, n, nodes. by split.
Qed.

(** The hash inputs a collision would be among. *)
Definition recorded_inputs (c : string) (i : Z) (path nodes : list string) (old new : list bytes) :
    list bytes :=
  mth_inputs old ++ mth_inputs new ++ mth_inputs (take (length old) new) ++
  inclusion_inputs (normalizeHexString c) i path (i + 1) ++
  consistency_inputs (bytesToHex (MTH old)) (Rfc6962.mkConsistencyProof (i + 1) (zlength new) nodes).

(** C2: Recorded as cast, end to end: when the inclusion and the consistency
    checks of an evaluation succeed, then, for any bulletin board whose state
    when the vote was cast has the root of the receipt and whose final state has
    the final root and size, the voter's commitment is on the final board at the
    receipt's index, or the inputs hashed by the verifiers and the board contain
    a collision. *)
Theorem recorded_as_cast_sound input ids gate checks :
  evaluateChecks input ids gate = Ok checks ->
  checks_get checks recorded_inclusion_proof = Some CSuccess ->
  checks_get checks recorded_consistency_proof = Some CSuccess ->
  exists receipt c i path finalRoot n nodes,
    f_voteReceipt (in_userReceipt input) = Some receipt /\
    ((f_userVote (in_userReceipt input) : option UserVoteInput) ≫= uv_commitment) = Some c /\
    vr_bulletinIndex receipt = NInt i /\
    f_bulletinRoot (in_artifacts input) = Some finalRoot /\
    f_treeSize (in_artifacts input) = Some (NInt n) /\
    forall old new,
      zlength old = i + 1 -> zlength new = n -> n <= 2 ^ 32 ->
      normalizeHexString (vr_bulletinRootAtCast receipt) = bytesToHex (MTH old) ->
      normalizeHexString finalRoot = bytesToHex (MTH new) ->
      (exists x, znth new i = Some x /\ hexToBytesStrict (normalizeHexString c) = Ok x) \/
      collision_in (recorded_inputs c i path nodes old new).
Proof.
  intros E Hinc Hcon.
  destruct (evaluateChecks_get _ _ _ _ E recorded_inclusion_proof) as [[? _] | (r & _ & Er & Ei)]; [congruence |].
  assert (r = CSuccess) as -> by congruence.
  destruct (evaluateChecks_get _ _ _ _ E recorded_consistency_proof) as [[? _] | (r & _ & Er' & Ec)]; [congruence |].
  assert (r = CSuccess) as -> by congruence.
  apply inclusion_success in Ei as (receipt & c & i & path & [Hr Hc Hx Hi Hv]).
  apply consistency_success in Ec as (receipt' & i' & root & n & nodes & [Hr' Hx' Hroot Hsize Hv']).
  assert (receipt' = receipt) as -> by congruence. assert (i' = i) as -> by congruence.
  exists receipt, c, i, path, root, n, nodes.
  cbn in Hr, Hc, Hroot, Hsize. rewrite value_of_admitted in Hr.
  rewrite value_of_admitted in Hc. rewrite value_of_admitted in Hroot. rewrite value_of_admitted in Hsize.
  split_and!; try done. intros old new Lo Ln Hb Ho Hn.
  rewrite Ho in Hv, Hv'. rewrite Hn in Hv'. rewrite <- Lo in Hv. unfold recorded_inputs.
  destruct (accepted_inclusion old _ i path Hv) as [(x & Hx1 & Hx2) | C].
  2: { right. revert C. rewrite Lo. apply collision_in_mono. list_subset. }
  destruct (accepted_consistency old new (Rfc6962.mkConsistencyProof (i + 1) n nodes)) as [[k ->] | C];
    [by simpl | by simpl | lia | done | |].
  - left. exists x. split; [| done]. unfold znth in *. destruct (Z.ltb i 0); [done |].
    by apply lookup_app_l_Some.
  - right. revert C. rewrite <- Ln. apply collision_in_mono. list_subset.
Qed.

End recorded.

(** ** The gate of the zkVM proof *)

Section gate.
Context `{Noble}.

(** The verifier accepted the proof, or a development receipt where allowed. *)
Definition proof_accepted (input : VerificationEvaluationInput) : Prop :=
  match in_verifierOutcome input with
  | Some (OutSuccess _) => True
  | Some (OutDevMode _) => f_allowDevModeVerification (in_identity input) = Some true
  | _ => False
  end.

(** The checks that rest on the zkVM proof. *)
Definition needs_proof (id : VerificationCheckId) : Prop :=
  isCheckStatusZkGateControlled id = true \/
  exists d, d ∈ VERIFICATION_CHECK_DEFINITIONS /\ def_id d = id /\ def_evidence d = ev_zk.

Lemma needs_proof_cases id :
  needs_proof id ->
  id ∈ [counted_tally_consistent; counted_missing_indices_zero; counted_expected_vs_tree_size;
        counted_election_manifest_consistent; counted_close_statement_consistent;
        counted_my_vote_included; counted_input_commitment_match; stark_image_id_match;
        stark_receipt_verify].
Proof.
  intros [Hz | (d & Hd & <- & He)].
  - unfold isCheckStatusZkGateControlled in Hz. apply bool_decide_eq_true in Hz.
    unfold ZK_GATE_CONTROLLED_CHECK_IDS in Hz. list_member.
  - assert (Hall := all_definitions (fun d => implb (bool_decide (def_evidence d = ev_zk))
      (bool_decide (def_id d ∈ [counted_tally_consistent; counted_missing_indices_zero;
        counted_expected_vs_tree_size; counted_election_manifest_consistent;
        counted_close_statement_consistent; counted_my_vote_included; counted_input_commitment_match;
        stark_image_id_match; stark_receipt_verify]))) eq_refl d Hd).
    cbv beta in Hall. rewrite (bool_decide_eq_true_2 _ He) in Hall. by apply bool_decide_eq_true in Hall.
Qed.

Lemma stark_status_accepted input :
  resolveStarkStatus (verifierOutcome (admitVerificationEvidence input))
    (evidenceValue (f_allowDevModeVerification (identity (admitVerificationEvidence input)))) = st_success ->
  proof_accepted input.
Proof.
  simpl. rewrite value_of_admitted. unfold proof_accepted.
  destruct (in_verifierOutcome input) as [[] |]; simpl; try done.
  by destruct (f_allowDevModeVerification (in_identity input)) as [[] |].
Qed.

Lemma stark_status_cases o allow :
  resolveStarkStatus o allow = st_success \/ resolveStarkStatus o allow = st_not_run \/
  resolveStarkStatus o allow = st_running \/ resolveStarkStatus o allow = st_failed.
Proof. destruct o; simpl; try tauto. destruct allow as [[] |]; tauto. Qed.

Lemma invalid_counts_failed j r : resolveInvalidJournalCounts j = Some r -> result_status r = st_failed.
Proof.
  unfold resolveInvalidJournalCounts. destruct j as [j |]; [| done].
  destruct (_ ++ _); [done |]. by intros [= <-].
Qed.

Lemma missing_slots_gate journal m i e s :
  resolveCountedMissingIndicesZero journal m i e (Some s) = CSuccess -> s = st_success.
Proof.
  unfold resolveCountedMissingIndicesZero.
  destruct (resolveInvalidJournalCounts journal) as [r |] eqn:Er.
  { by intros ->; apply invalid_counts_failed in Er. }
  destruct (resolveExcludedCount _); [| done]. destruct (num_ltb _ _); [done |]. by destruct s.
Qed.

Lemma accepted_of_success input ids checks id :
  evaluateChecks input ids None = Ok checks ->
  needs_proof id -> checks_get checks id = Some CSuccess -> proof_accepted input.
Proof.
  intros E Hid%needs_proof_cases Hs.
  destruct (evaluateChecks_get _ _ _ _ E id) as [[? _] | (r & _ & Er & Ei)]; [congruence |].
  assert (r = CSuccess) as -> by congruence.
  apply stark_status_accepted. unfold runtime_of, build_runtime in Ei.
  destruct (stark_status_cases (verifierOutcome (admitVerificationEvidence input))
    (evidenceValue (f_allowDevModeVerification (identity (admitVerificationEvidence input)))))
    as [Hst | [Hst | [Hst | Hst]]]; [done | exfalso ..].
  all: rewrite Hst in Ei; cbn [resolveZkGateStatus] in Ei.
  all: repeat (apply elem_of_cons in Hid as [-> | Hid]; [revert Ei; cbn; try done |]);
    try by apply elem_of_nil in Hid.
  all: intros [= Ex]; by apply missing_slots_gate in Ex.
Qed.

(** No claim about the count succeeds without the proof: in a gated
    evaluation, a check that the gate controls, or whose evidence is the zkVM
    proof, succeeds only if the verifier accepted the proof, a development
    receipt counting only where the caller allows it. *)
Theorem zk_checks_need_proof input ids checks id :
  evaluateChecks input ids None = Ok checks ->
  needs_proof id -> checks_get checks id = Some CSuccess -> proof_accepted input.
Proof. apply accepted_of_success. Qed.

End gate.

(** ** The voter's vote in the counted bitmap *)

Section my_vote.
Context `{NobleLaws}.

Lemma explained_included idx root seen ip sp n e :
  Bitmap.explainVoteInclusionStatus idx root seen ip sp n = Ok e ->
  Bitmap.verifyMyVoteWasCounted idx root ip n = Ok (Bitmap.explained e).
Proof.
  unfold Bitmap.explainVoteInclusionStatus. intros E. apply bind_Ok in E as (r & -> & E). f_equal.
  destruct (Bitmap.valid r); cbn [negb] in E; [| by injection E as <-].
  destruct (Bitmap.included r); [by injection E as <- |].
  destruct seen as [sr |]; [| by injection E as <-]. destruct sp as [p |]; [| by injection E as <-].
  destruct (str_truthy sr); cbn [negb] in E; [| by injection E as <-].
  apply bind_Ok in E as (s & _ & E). by injection E as <-.
Qed.

Lemma project_success r detail :
  projectMyVoteProofResult r detail = CSuccess -> Bitmap.valid r = true /\ Bitmap.included r = true.
Proof. unfold projectMyVoteProofResult. destruct (Bitmap.valid r), (Bitmap.included r); done. Qed.

Lemma evaluateMyVote_success ctx idx root seen n p :
  evaluateMyVoteBitmapProof ctx idx root seen n p = Ok CSuccess ->
  exists r, Bitmap.verifyMyVoteWasCounted idx root p (NInt n) = Ok r /\
            Bitmap.valid r = true /\ Bitmap.included r = true.
Proof.
  unfold evaluateMyVoteBitmapProof, unresolvedMyVoteCheck.
  destruct (nonempty seen) as [sr |].
  - destruct (Bitmap.explainVoteInclusionStatus _ _ _ _ _ _) as [e | [m |]] eqn:Ee; [| done | done].
    apply explained_included in Ee. intros [= Es]. apply project_success in Es as [? ?].
    by exists (Bitmap.explained e).
  - destruct (Bitmap.verifyMyVoteWasCounted _ _ _ _) as [r | [m |]]; [| done | done].
    intros [= Es]. apply project_success in Es as [? ?]. by exists r.
Qed.

Lemma my_vote_success ctx gate :
  gate <> Some st_success ->
  resolveCountedMyVoteIncluded ctx gate = Ok CSuccess ->
  exists receipt root p idx n r,
    mv_voteReceipt ctx = Some receipt /\ vr_bulletinIndex receipt = idx /\
    coalesce (j_includedBitmapRoot <$> mv_journal ctx) (mv_includedBitmapRoot ctx) = Some root /\
    coalesce (j_treeSize <$> mv_journal ctx) (mv_treeSize ctx) = Some (NInt n) /\
    mv_includedBitmapProof ctx = Acquired p /\
    Bitmap.verifyMyVoteWasCounted idx root p (NInt n) = Ok r /\
    Bitmap.valid r = true /\ Bitmap.included r = true.
Proof.
  intros Hg. unfold resolveCountedMyVoteIncluded, resolveBitmapProofAuthority, unresolvedMyVoteCheck.
  destruct gate as [s |]; [by destruct s |].
  destruct (nonempty _) as [root |] eqn:Er; [| done]. apply nonempty_value in Er.
  destruct (mv_voteReceipt ctx) as [receipt |]; [| done]. cbn [fmap option_fmap option_map].
  unfold hasBitmapReceiptPosition. destruct (isInteger (vr_bulletinIndex receipt)); [| done].
  destruct (admitBitmapTreeSize _) as [n |] eqn:En; [| done].
  destruct (hasAdmittedBitmapProofSource ctx); cbn [negb]; [| done].
  destruct (mv_includedBitmapProof ctx) as [p | | |] eqn:Ep; try done.
  intros (r & Hr & Hv & Hi)%evaluateMyVote_success.
  assert (Hn : coalesce (j_treeSize <$> mv_journal ctx) (mv_treeSize ctx) = Some (NInt n)).
  { unfold admitBitmapTreeSize, Bitmap.asAuthenticatedBitmapTreeSize in En.
    destruct (coalesce (j_treeSize <$> mv_journal ctx) (mv_treeSize ctx)) as [[z | | |] |]; try done.
    destruct (_ || _); [done |]. by injection En as ->. }
  by exists receipt, root, p, (vr_bulletinIndex receipt), n, r.
Qed.

Lemma gate_not_success input gate : zkGateStatus (runtime_of input gate) <> Some st_success.
Proof.
  unfold runtime_of, build_runtime. cbn [zkGateStatus].
  destruct (match gate with Some b => b | None => true end); [| done].
  by destruct (resolveStarkStatus _ _).
Qed.

Lemma admitted_index idx root p n r :
  Bitmap.verifyMyVoteWasCounted idx root p n = Ok r -> exists i, idx = NInt i.
Proof.
  unfold Bitmap.verifyMyVoteWasCounted, Bitmap.verifyAdmittedBitmapProof. intros E. bind_inv.
  destruct idx as [i | | |]; [by exists i | done ..].
Qed.

(** The bitmap root and the tree size a check compares against: the journal's
    when there is one. *)
Definition included_authority (input : VerificationEvaluationInput) : option string * option num :=
  let a := in_artifacts input in
  (coalesce (j_includedBitmapRoot <$> f_journal a) (f_includedBitmapRoot a),
   coalesce (j_treeSize <$> f_journal a) (f_treeSize a)).

(** C3: Counted as recorded, for the voter: when the inclusion check of an
    evaluation succeeds, then, for any bitmap of counted votes with the
    authenticated root and size, the bit at the receipt's index is set, or the
    inputs hashed for the root and by the verifier contain a collision. *)
Theorem my_vote_included_sound input ids gate checks :
  evaluateChecks input ids gate = Ok checks ->
  checks_get checks counted_my_vote_included = Some CSuccess ->
  exists receipt root i n p,
    f_voteReceipt (in_userReceipt input) = Some receipt /\ vr_bulletinIndex receipt = NInt i /\
    included_authority input = (Some root, Some (NInt n)) /\
    f_includedBitmapProof (in_artifacts input) = Some (Acquired p) /\
    forall bitmap, zlength bitmap = n -> Bitmap.computeIncludedBitmapRootHex bitmap = Ok root ->
      bit_at bitmap i = true \/ collision_in (bitmap_inputs bitmap ++ proof_inputs p).
Proof.
  intros E Hs.
  destruct (evaluateChecks_get _ _ _ _ E counted_my_vote_included) as [[? _] | (r & _ & Er & Ei)]; [congruence |].
  assert (r = CSuccess) as -> by congruence.
  apply my_vote_success in Ei as (receipt & root & p & idx & n & r & Hr & Hi & Hroot & Hn & Hp & Hv & Hvalid & Hinc);
    [| apply gate_not_success].
  cbn in Hr, Hroot, Hn, Hp. rewrite !value_of_admitted in Hr. rewrite !value_of_admitted in Hroot.
  rewrite !value_of_admitted in Hn.
  assert (exists i, idx = NInt i) as [i ->] by (by eapply admitted_index).
  exists receipt, root, i, n, p. unfold included_authority. rewrite Hroot, Hn.
  split_and!; [done | done | done | |].
  - destruct (f_includedBitmapProof (in_artifacts input)); [by f_equal | done].
  - intros bitmap Hl Hbm. apply verifyAdmitted_eq in Hv. subst n.
    destruct (bitmap_sound_at bitmap p (NInt i) root r Hbm Hv Hvalid) as (j & [= <-] & _ & [Hb | C]);
      [left | by right]. by rewrite <- Hb.
Qed.

End my_vote.
