(* ===== verification/EngineErrors.v ===== *)
(** Errors of the evaluation: a verifier outcome of any shape is admitted to a
    coherent state or refused, never thrown on; and the evaluation returns
    whenever the receipt's index and the proof's leaf index are safe integers, with
    an exception of a verifier never taken for a success. *)
From S2P Require Import Prelude.
From S2P Require Import JsNumber.
From S2P Require Import JsValue.
From S2P Require Import Hex.
From S2P Require Import Rfc6962.
From S2P Require Import Inclusion.
From S2P Require Import Bitmap.
From S2P Require Import Contract.
From S2P Require Import Checks.
From S2P Require Import LocalCast.
From S2P Require Import Evidence.
From S2P Require Import Verifiers.
From S2P Require Import Engine.
From S2P Require Import EngineProofs.
From S2P Require Import Reference.
Import JsValue.
Import Checks.
Import LocalCast.
Import Evidence.
Import Verifiers.
Import Engine.

(** ** Admission of the verifier outcome *)

Definition outcome_status (o : VerificationOutcomeInput) : VerificationStatus :=
  match o with
  | OutNotRun => vs_not_run | OutRunning => vs_running | OutSuccess _ => vs_success
  | OutDevMode _ => vs_dev_mode | OutFailed _ _ => vs_failed
  end.

(** A field of the value is absent, or is the text of the status [s]. *)
Definition states (v : jsval) (s : VerificationStatus) : Prop :=
  v = JUndefined \/ exists t, v = JStr t /\ assoc VERIFICATION_STATUS_VALUES t = Some s.

(** The report of an outcome of status [s]: absent, or admitted with that
    status or with none (comparison only). *)
Definition reports (v : jsval) (s : VerificationStatus) (r : option VerificationReportEvidence) : Prop :=
  v = JUndefined /\ r = None \/
  exists e, r = Some e /\ admitReportEvidence v = Some e /\
    s ∈ TERMINAL_VERIFICATION_STATUS_VALUES /\ (report_status e = None \/ report_status e = Some s).

Lemma all_same_spec {A} `{EqDecision A} (l : list A) x y :
  all_same l = true -> x ∈ l -> y ∈ l -> x = y.
Proof.
  assert (Hh : forall (l : list A) (a : A), all_same (a :: l) = true -> forall z : A, z ∈ a :: l -> z = a).
  { clear. induction l as [| b l IH]; intros a Hs z Hz.
    - by apply list_elem_of_singleton in Hz.
    - change (bool_decide (a = b) && all_same (b :: l) = true) in Hs.
      apply andb_true_iff in Hs as [->%bool_decide_eq_true Hs].
      apply elem_of_cons in Hz as [-> | Hz]; [done | by apply IH]. }
  intros Hs Hx Hy. destruct l as [| a l]; [by apply elem_of_nil in Hx |].
  by rewrite (Hh l a Hs x Hx), (Hh l a Hs y Hy).
Qed.

Lemma admit_status_states v s :
  admitVerificationStatus v = Some s -> exists t, v = JStr t /\ assoc VERIFICATION_STATUS_VALUES t = Some s.
Proof. unfold admitVerificationStatus. destruct v; try done. simpl. intros E. by eexists. Qed.

(** A status read from the value, once the reader has refused malformed ones. *)
Lemma states_of v s :
  negb (is_undefined v) && bool_decide (admitVerificationStatus v = None) = false ->
  (forall s', admitVerificationStatus v = Some s' -> s' = s) -> states v s.
Proof.
  intros Hn Hs. destruct (admitVerificationStatus v) as [s' |] eqn:E.
  - right. rewrite <- (Hs s' eq_refl). by apply admit_status_states.
  - left. by destruct v.
Qed.

Lemma coherent_status vs rs report s r :
  resolveCoherentVerifierStatus vs rs report = Some (s, r) ->
  r = report /\ (forall x, vs = Some x -> x = s) /\ (forall x, rs = Some x -> x = s) /\
  (forall e, report = Some e -> s ∈ TERMINAL_VERIFICATION_STATUS_VALUES /\
     (report_status e = None \/ report_status e = Some s)).
Proof.
  unfold resolveCoherentVerifierStatus.
  set (l := opt_list vs ++ opt_list rs ++ opt_list (report ≫= report_status)).
  destruct (all_same l) eqn:Hall; cbn [negb]; [| done].
  set (s0 := match l with s :: _ => s | [] => vs_not_run end).
  assert (Hl : forall x, x ∈ l -> x = s0).
  { intros x Hx. subst s0. destruct l as [| a l']; [by apply elem_of_nil in Hx |].
    apply (all_same_spec _ x a Hall Hx). apply elem_of_cons. by left. }
  assert (Hin : forall o : option VerificationStatus, (forall x, x ∈ opt_list o -> x ∈ l) ->
    forall x, o = Some x -> x = s0).
  { intros o Ho x ->. apply Hl, Ho. by apply list_elem_of_singleton. }
  assert (Hvs := Hin vs ltac:(subst l; intros; list_member)).
  assert (Hrs := Hin rs ltac:(subst l; intros; list_member)).
  assert (Hre := Hin (report ≫= report_status) ltac:(subst l; intros; list_member)).
  intros E. assert (Hr : r = report /\ s = s0 /\ (report = None \/ s0 ∈ TERMINAL_VERIFICATION_STATUS_VALUES)).
  { destruct s0, report; try done; injection E as <- <-; (split_and!; [done | done |]);
      try (by left); right; by apply (bool_decide_unpack _). }
  destruct Hr as (-> & -> & Ht). split_and!; [done | done | done |]. intros e ->.
  destruct Ht as [? | Ht]; [done |]. split; [done |]. simpl in Hre.
  destruct (report_status e) as [x |]; [right | by left]. by rewrite (Hre x).
Qed.

Lemma as_report_ok s text e :
  report_status e = None \/ report_status e = Some s -> as_report s text e = Ok e.
Proof. unfold as_report. intros [-> | ->]; [done |]. by rewrite bool_decide_eq_true_2. Qed.

(** The report carried by an outcome. *)
Definition outcome_carried (o : VerificationOutcomeInput) : option VerificationReportEvidence :=
  match o with OutSuccess r | OutDevMode r | OutFailed r _ => r | _ => None end.

(** Building the outcome does not throw when the report fits the status. *)
Lemma build_outcome s report category :
  (forall e, report = Some e -> s ∈ TERMINAL_VERIFICATION_STATUS_VALUES /\
     (report_status e = None \/ report_status e = Some s)) ->
  exists o, buildVerifierOutcome s report category = Ok o /\
    forall out, o = Some out ->
      outcome_status out = s /\ outcome_carried out = report /\
      match out with OutFailed _ c => exists k, c = Some k /\ k <> fc_none | _ => True end.
Proof.
  intros Hre.
  assert (Hopt : forall text, option_result (as_report s text) report = Ok report).
  { intros text. destruct report as [e |]; [| done]. simpl.
    by rewrite as_report_ok by (by apply Hre). }
  assert (Hnone : s ∉ TERMINAL_VERIFICATION_STATUS_VALUES -> report = None).
  { intros Hs. destruct report as [e |]; [| done]. by destruct (Hre e eq_refl). }
  unfold buildVerifierOutcome, buildFailedVerifierOutcome, asSuccessOrComparisonReport,
    asDevModeOrComparisonReport, asFailedOrComparisonReport.
  destruct s; rewrite ?Hopt; cbn [mbind result_bind].
  - eexists. split; [done |]. by intros out [= <-].
  - destruct category as [[] |]; eexists; (split; [done |]); try done;
      intros out [= <-]; (split_and!; [done | done | by eexists]).
  - eexists. split; [done |]. by intros out [= <-].
  - eexists. split; [done |]. intros out [= <-]. split_and!; [done | | done].
    symmetry. apply Hnone. by apply (bool_decide_unpack _).
  - eexists. split; [done |]. intros out [= <-]. split_and!; [done | | done].
    symmetry. apply Hnone. by apply (bool_decide_unpack _).
Qed.

(** Admission of a verifier outcome of unknown shape never throws; an
    admitted outcome has one status with which every status the value states
    agrees, a report only of a finished run and with that status (or a
    comparison report with none), and a failure category, different from
    "none", exactly on failures. *)
Theorem admitVerifierOutcome_coherent v :
  exists o, admitVerifierOutcome v = Ok o /\
    forall out, o = Some out ->
      states (prop v "verificationStatus") (outcome_status out) /\
      states (prop v "verificationReportStatus") (outcome_status out) /\
      reports (prop v "verificationReport") (outcome_status out)
        (outcome_carried out) /\
      match out with OutFailed _ c => exists k, c = Some k /\ k <> fc_none | _ => True end.
Proof.
  unfold admitVerifierOutcome. destruct (isNonNullObject v); cbn [negb]; [| by exists None].
  unfold admitVerifierStatusEvidence.
  destruct (negb (is_undefined (prop v "verificationStatus")) && _) eqn:E1; [by exists None |].
  destruct (negb (is_undefined (prop v "verificationReportStatus")) && _) eqn:E2; [by exists None |].
  set (raw := prop v "verificationReport").
  set (report := if is_undefined raw then None else admitReportEvidence raw).
  assert (Hr : is_undefined raw = false /\ report = None \/
               (raw = JUndefined /\ report = None \/ exists e, report = Some e /\ admitReportEvidence raw = Some e)).
  { subst report. destruct (is_undefined raw) eqn:Eu; [right; left; by destruct raw |].
    destruct (admitReportEvidence raw) as [e |]; [right; right; by exists e | by left]. }
  destruct Hr as [[-> ->] | Hr]; [by exists None |].
  assert (Em : match is_undefined raw, report with
               | false, None => None
               | _, _ => resolveCoherentVerifierStatus (admitVerificationStatus (prop v "verificationStatus"))
                           (admitVerificationStatus (prop v "verificationReportStatus")) report
               end = resolveCoherentVerifierStatus (admitVerificationStatus (prop v "verificationStatus"))
                       (admitVerificationStatus (prop v "verificationReportStatus")) report).
  { destruct Hr as [[-> _] | (e & -> & _)]; [done | by destruct (is_undefined raw)]. }
  rewrite Em. destruct (resolveCoherentVerifierStatus _ _ report) as [[s r] |] eqn:Ec; [| by exists None].
  apply coherent_status in Ec as (-> & Hvs & Hrs & Hre).
  assert (Hs1 : states (prop v "verificationStatus") s) by (by apply states_of).
  assert (Hs2 : states (prop v "verificationReportStatus") s).
  { apply states_of; [| done]. destruct (is_undefined (prop v "verificationReportStatus")); [done |].
    cbn [negb andb] in *. by destruct (admitVerificationStatus (prop v "verificationReportStatus")). }
  assert (Hs3 : reports raw s report).
  { destruct Hr as [[-> ->] | (e & -> & He)]; [by left | right]. exists e.
    destruct (Hre e eq_refl). by split_and!. }
  destruct (negb (is_undefined (prop v "failureCategory")) && _); [by exists None |].
  destruct (negb (bool_decide (s = vs_failed)) && _); [by exists None |].
  destruct (build_outcome s report (admitFailureCategory (prop v "failureCategory")))
    as (o & Eo & Ho); [done |]. exists o. split; [exact Eo |]. intros out ->.
  destruct (Ho out eq_refl) as (<- & Er & Hk). rewrite Er. by split_and!.
Qed.

(** ** The evaluation returns *)

Section returns.
Context `{NobleLaws}.

Lemma nf_hexToBytesStrict s : no_fuel_error (Hex.hexToBytesStrict s).
Proof. apply hexToBytesStrict_fuel. Qed.

Lemma nf_contract_hex s : no_fuel_error (Contract.hexToBytesStrict s).
Proof. unfold Contract.hexToBytesStrict. cbv zeta. no_fuel. Qed.

Lemma nf_assert v m f : no_fuel_error (Contract.assertUnsignedIntegerInRange v m f).
Proof. unfold Contract.assertUnsignedIntegerInRange. no_fuel. Qed.

Lemma nf_inclusion s i nodes root n : no_fuel_error (Rfc6962.verifyInclusionProof s i nodes root n).
Proof.
  assert (Hr := verifyInclusionProof_returns s i nodes root n).
  destruct (Rfc6962.verifyInclusionProof s i nodes root n) as [b | e]; [done |].
  destruct Hr as (_ & _ & msg & ->). done.
Qed.

#[local] Hint Resolve nf_hexToBytesStrict nf_contract_hex nf_assert nf_inclusion : no_fuel.

Lemma nf_closeStatement l t ts r : no_fuel_error (buildCloseStatement l t ts r).
Proof.
  unfold buildCloseStatement, normalizeHex32, Contract.asUnixTimestampMillis, Contract.computeSTHDigest,
    Contract.uint32LE. no_fuel.
Qed.

Lemma nf_lib_hex s : no_fuel_error (Bitmap.lib_hexToBytes s).
Proof. unfold Bitmap.lib_hexToBytes. no_fuel. Qed.

#[local] Hint Resolve nf_closeStatement nf_lib_hex : no_fuel.

Lemma nf_extract c o : no_fuel_error (Bitmap.extractBitFromBitmapChunkHex c o).
Proof.
  unfold Bitmap.extractBitFromBitmapChunkHex, Bitmap.extractBitFromBitmapChunkBytes. no_fuel.
Qed.

#[local] Hint Resolve nf_extract : no_fuel.

Lemma nf_padding n c o : no_fuel_error (Bitmap.padding_loop n c o).
Proof. revert o. induction n as [| n IH]; intros o; cbn [Bitmap.padding_loop]; no_fuel. Qed.

Lemma nf_fold path h : no_fuel_error (Bitmap.fold_path path h).
Proof.
  revert h. induction path as [| p path IH]; intros h; cbn [Bitmap.fold_path]; [no_fuel |].
  unfold Bitmap.hashBitmapInternalNodeHex. no_fuel.
Qed.

#[local] Hint Resolve nf_padding nf_fold : no_fuel.

Lemma nf_leafIndex v : no_fuel_error (Bitmap.asBitmapLeafIndex v).
Proof. unfold Bitmap.asBitmapLeafIndex. no_fuel. Qed.

Lemma nf_bitOffset v : no_fuel_error (Bitmap.asBitmapBitOffset v).
Proof. unfold Bitmap.asBitmapBitOffset. no_fuel. Qed.

#[local] Hint Resolve nf_leafIndex nf_bitOffset : no_fuel.

Lemma nf_verifyAdmitted idx root p n : no_fuel_error (Bitmap.verifyAdmittedBitmapProof idx root p n).
Proof.
  unfold Bitmap.verifyAdmittedBitmapProof, Bitmap.verifyBitmapProof, Bitmap.verifyBitmapMerkleProof,
    Bitmap.asBitmapBitIndex, Bitmap.asAuthenticatedBitmapTreeSize, Bitmap.safeLeafIndexForResult,
    Bitmap.safeBitOffsetForResult, Bitmap.hasZeroUnusedPadding, Bitmap.hashBitmapLeafChunkHex.
  cbv zeta.
  no_fuel.
Qed.

#[local] Hint Resolve nf_verifyAdmitted : no_fuel.

Lemma nf_explain idx root seen p sp n : no_fuel_error (Bitmap.explainVoteInclusionStatus idx root seen p sp n).
Proof. unfold Bitmap.explainVoteInclusionStatus, Bitmap.verifyMyVoteWasCounted. no_fuel. Qed.

#[local] Hint Resolve nf_explain : no_fuel.

(** ** Each check returns *)

Lemma inclusion_returns vr uv : is_ok (resolveRecordedInclusionProof vr uv).
Proof.
  unfold resolveRecordedInclusionProof.
  destruct (toCanonicalRfc6962Proof _) as [proof |]; [| done].
  destruct vr as [receipt |]; [| done]. destruct (nonempty _) as [c |]; [| done].
  repeat (case_match; try done). apply try_catch_ok; [| done].
  unfold verifyCTMerkleInclusion. no_fuel.
Qed.

Lemma close_statement_returns cs pi l t j b d g :
  is_ok (resolveCountedCloseStatementConsistent cs pi l t j b d g).
Proof.
  unfold resolveCountedCloseStatementConsistent. destruct g; [done |].
  destruct cs as [cs |]; [| done]. destruct (pa_timestamp <$> pi); [| done].
  destruct (negb _); [done |].
  assert (Hv : is_ok (validateCloseStatementArtifact cs)) by (apply try_catch_ok; [no_fuel | done]).
  destruct (validateCloseStatementArtifact cs) as [[r |] | e]; [done | | done].
  simpl. by destruct (negb _).
Qed.

Lemma my_vote_returns ctx g : is_ok (resolveCountedMyVoteIncluded ctx g).
Proof.
  unfold resolveCountedMyVoteIncluded. destruct g; [done |].
  destruct (resolveBitmapProofAuthority ctx) as [[root seen] size].
  repeat (case_match; try done). apply try_catch_ok; [| done].
  unfold Bitmap.verifyMyVoteWasCounted. no_fuel.
Qed.

(** The indices of the receipt and of the proof fit the safe integers, when
    they are integers at all. *)
Definition indices_safe (vr : option VoteReceipt) (uv : option UserVoteInput) : Prop :=
  (forall r, vr = Some r -> isInteger (vr_bulletinIndex r) = true ->
     isSafeInteger (vr_bulletinIndex r) = true) /\
  (forall p leaf, (uv ≫= uv_proof) = Some p -> pc_leafIndex p = Some leaf ->
     isInteger leaf = true -> isSafeInteger leaf = true).

Lemma assert_index_ok v label :
  isSafeInteger v = true -> num_ltb v (NInt 0) = false -> assertNonNegativeSafeInteger v label = Ok tt.
Proof. unfold assertNonNegativeSafeInteger. by intros -> ->. Qed.

Lemma count_nonneg v : isValidCount v = true -> isInteger v = true /\ num_ltb v (NInt 0) = false.
Proof.
  unfold isValidCount. destruct v as [z | | |]; try done. cbn [isInteger num_leb num_ltb num_eqb].
  unfold num_leb. cbn [num_ltb num_eqb]. intros Hz. split; [done |].
  apply Z.ltb_ge. apply andb_true_iff in Hz as [_ [?%Z.ltb_lt | ?%Z.eqb_eq]%orb_true_iff]; lia.
Qed.

Lemma canonical_leaf_index p proof :
  toCanonicalRfc6962Proof (Some p) = Some proof -> pc_leafIndex p = Some (rp_leafIndex proof).
Proof.
  unfold toCanonicalRfc6962Proof. destruct (pc_hasProofMode p); [done |].
  destruct (pc_leafIndex p), (pc_treeSize p), (pc_merklePath p), (pc_bulletinRootAtCast p); try done.
  destruct (negb _); [done |]. by intros [= <-].
Qed.

Lemma consistency_returns vr uv root size cp :
  indices_safe vr uv -> is_ok (resolveRecordedConsistencyProof vr uv root size cp).
Proof.
  intros [Hr Hp]. unfold resolveRecordedConsistencyProof.
  destruct vr as [receipt |]; [| done]. destruct (nonempty root); [| done].
  destruct size as [size |]; [| done]. destruct (negb (str_truthy _)); [done |].
  destruct (negb (isPositiveTreeSize _)); [done |].
  destruct (uv ≫= uv_proof) as [p |] eqn:Ep; [| done].
  destruct (toCanonicalRfc6962Proof (Some p)) as [proof |] eqn:Ec; [| done].
  apply canonical_leaf_index in Ec.
  destruct (isValidCount (vr_bulletinIndex receipt)) eqn:Hv; cbn [negb]; [| done].
  apply count_nonneg in Hv as [Hi Hneg].
  enough (is_ok (validateConsistencySnapshot proof receipt size)) as Hok.
  { destruct (validateConsistencySnapshot proof receipt size) as [[|] |]; done. }
  unfold validateConsistencySnapshot.
  destruct (negb (isInteger (rp_leafIndex proof)) || num_ltb (rp_leafIndex proof) (NInt 0)) eqn:El; [done |].
  apply orb_false_iff in El as [El%negb_false_iff Hl].
  unfold asBulletinIndex, asLeafIndex.
  rewrite !assert_index_ok by (done || by (apply (Hr receipt); [done | done]) || by eapply Hp).
  cbn [mbind result_bind]. repeat (case_match; try done).
Qed.

Lemma evaluation_returns input ids gate :
  indices_safe (f_voteReceipt (in_userReceipt input)) (f_userVote (in_userReceipt input)) ->
  exists checks, evaluateChecks input ids gate = Ok checks /\ map fst checks = ids /\
    forall id r, (id, r) ∈ checks -> check_result (admitVerificationEvidence input) (runtime_of input gate) id = Ok r.
Proof.
  intros Hs. unfold evaluateChecks. rewrite evaluate_ids_spec by (by intros ? ?). fold (runtime_of input gate).
  assert (Hall : forall id, is_ok (check_result (admitVerificationEvidence input) (runtime_of input gate) id)).
  { intros id. unfold check_result.
    destruct id; first
      [ exact I | exact (inclusion_returns _ _) | exact (my_vote_returns _ _)
      | exact (close_statement_returns _ _ _ _ _ _ _ _)
      | refine (consistency_returns _ _ _ _ _ _); cbn; by rewrite !value_of_admitted ]. }
  induction ids as [| id ids IH]; cbn [Contract.map_result]; [by exists []; split_and!; [.. | intros ? ? ?%elem_of_nil] |].
  specialize (Hall id) as Hid. destruct (check_result _ _ id) as [r |] eqn:Er; [| done].
  destruct IH as (checks & E & Em & Hin). cbn [mbind result_bind]. rewrite E.
  exists ((id, r) :: checks). split; [done |]. split; [simpl; by rewrite Em |].
  intros i x [[= -> ->] | Hx]%elem_of_cons; [done | by apply Hin].
Qed.

(** ** What the verifiers answered *)

(** The answer of the verifier that a check rests on, on the evidence of the
    input; [None]: the check calls no verifier, or its evidence is missing. *)
Definition verifier_answer (input : VerificationEvaluationInput) (id : VerificationCheckId) : option (result bool) :=
  let a := in_artifacts input in
  let userVote : option UserVoteInput := f_userVote (in_userReceipt input) in
  match source_of id with
  | recorded_inclusion_proof =>
      match toCanonicalRfc6962Proof (userVote ≫= uv_proof), nonempty (userVote ≫= uv_commitment) with
      | Some p, Some c => Some (verifyCTMerkleInclusion c (rp_merklePath p) (num_Z (rp_leafIndex p))
                                  (rp_bulletinRootAtCast p) (num_Z (rp_treeSize p)))
      | _, _ => None
      end
  | recorded_consistency_proof =>
      match f_consistencyProof a with
      | Some (Acquired p) =>
          Some (Rfc6962.verifyConsistencyProof (normalizeHexString (cp_rootAtFromTreeSize p))
                  (normalizeHexString (cp_rootAtToTreeSize p))
                  (Rfc6962.mkConsistencyProof (cp_fromTreeSize p) (cp_toTreeSize p)
                     (map normalizeHexString (cp_proofNodes p))))
      | _ => None
      end
  | counted_close_statement_consistent =>
      (fun cs =>
         recomputed ← buildCloseStatement (cs_logId cs) (cs_treeSize cs) (cs_timestamp cs) (cs_bulletinRoot cs);
         Ok (String.eqb (normalizeHexString (cs_sthDigest recomputed)) (normalizeHexString (cs_sthDigest cs))))
        <$> f_closeStatement a
  | counted_my_vote_included =>
      match included_authority input, f_voteReceipt (in_userReceipt input), f_includedBitmapProof a with
      | (Some root, Some size), Some receipt, Some (Acquired p) =>
          Some (r ← match nonempty (coalesce (f_journal a ≫= j_seenBitmapRoot) (f_seenBitmapRoot a)) with
                    | Some seen =>
                        e ← Bitmap.explainVoteInclusionStatus (vr_bulletinIndex receipt) root (Some seen) p
                              (f_seenBitmapProof a ≫= acquired) size;
                        Ok (Bitmap.explained e)
                    | None => Bitmap.verifyMyVoteWasCounted (vr_bulletinIndex receipt) root p size
                    end;
                Ok (Bitmap.valid r && Bitmap.included r))
      | _, _, _ => None
      end
  | _ => None
  end.

(** The checks that rest on the answer of a verifier, or are derived from one. *)
Definition calls_verifier (id : VerificationCheckId) : bool :=
  bool_decide (source_of id ∈ [recorded_inclusion_proof; recorded_consistency_proof;
                               counted_close_statement_consistent; counted_my_vote_included]).

Definition settled (r : CheckResult) : Prop :=
  r = CSuccess \/ result_status r = st_failed \/ result_status r = st_not_run.

(** A result that only a positive answer makes a success. *)
Definition rests_on (answer : option (result bool)) (r : CheckResult) : Prop :=
  settled r /\ (r = CSuccess -> answer = Some (Ok true)).

Lemma rests_failed answer error note : rests_on answer (CFailed error note).
Proof. split; [by right; left | done]. Qed.

Lemma rests_not_run answer note : rests_on answer (CNotRun note).
Proof. split; [by right; right | done]. Qed.

Ltac rested := let E := fresh in intros E; injection E as <-; first [apply rests_failed | apply rests_not_run].
Ltac branches :=
  repeat match goal with |- (if ?b then _ else _) = Ok _ -> _ => destruct b; [rested |] end.

Lemma inclusion_rests vr uv r : resolveRecordedInclusionProof vr uv = Ok r ->
  rests_on (match toCanonicalRfc6962Proof (uv ≫= uv_proof), nonempty (uv ≫= uv_commitment) with
            | Some p, Some c => Some (verifyCTMerkleInclusion c (rp_merklePath p) (num_Z (rp_leafIndex p))
                                        (rp_bulletinRootAtCast p) (num_Z (rp_treeSize p)))
            | _, _ => None
            end) r.
Proof.
  unfold resolveRecordedInclusionProof, not_run, failed_with.
  destruct (toCanonicalRfc6962Proof _) as [p |]; [| rested].
  destruct vr as [receipt |]; [| rested]. destruct (nonempty (uv ≫= uv_commitment)) as [c |]; [| rested]. branches.
  destruct (asBulletinIndex (vr_bulletinIndex receipt)) as [bi |]; [| rested].
  destruct (asLeafIndex (rp_leafIndex p)) as [li |]; [| rested]. branches.
  destruct (verifyCTMerkleInclusion _ _ _ _ _) as [[] | [m |]]; cbn; try done; [| rested | rested].
  intros [= <-]. split; [by left | done].
Qed.

Lemma consistency_rests vr uv root size cp r : resolveRecordedConsistencyProof vr uv root size cp = Ok r ->
  rests_on (match cp with
            | Acquired p => Some (Rfc6962.verifyConsistencyProof (normalizeHexString (cp_rootAtFromTreeSize p))
                  (normalizeHexString (cp_rootAtToTreeSize p))
                  (Rfc6962.mkConsistencyProof (cp_fromTreeSize p) (cp_toTreeSize p)
                     (map normalizeHexString (cp_proofNodes p))))
            | _ => None
            end) r.
Proof.
  unfold resolveRecordedConsistencyProof, not_run.
  destruct vr as [receipt |]; [| rested]. destruct (nonempty root) as [final |]; [| rested].
  destruct size as [n |]; [| rested]. branches. destruct (toCanonicalRfc6962Proof _) as [proof |]; [| rested]. branches.
  intros E. apply bind_Ok in E as (error & He & E). destruct error as [error |]; injection E as <-.
  - assert (error = CFailed (match error with CFailed e _ => e | _ => None end) None) as ->; [| apply rests_failed].
    unfold validateConsistencySnapshot, failed_with in He. destruct (_ || _) in He; [by injection He as <- |].
    apply bind_Ok in He as (bi & _ & He). apply bind_Ok in He as (li & _ & He).
    repeat (match type of He with (if ?b then _ else _) = _ => destruct b; [by injection He as <- |] end). done.
  - destruct cp as [p | | |]; try apply rests_failed; try apply rests_not_run. cbn [verifyAdmittedConsistencyProof].
    unfold verifyConsistencyProof. destruct (_ || _); [apply rests_failed |]. destruct (_ || _); [apply rests_failed |].
    destruct (Rfc6962.verifyConsistencyProof _ _ _) as [[] | [m |]]; cbn [cv_isValid]; try apply rests_failed.
    split; [by left | done].
Qed.

Lemma close_rests cs pi l t j b d r : resolveCountedCloseStatementConsistent cs pi l t j b d None = Ok r ->
  rests_on ((fun cs =>
     recomputed ← buildCloseStatement (cs_logId cs) (cs_treeSize cs) (cs_timestamp cs) (cs_bulletinRoot cs);
     Ok (String.eqb (normalizeHexString (cs_sthDigest recomputed)) (normalizeHexString (cs_sthDigest cs)))) <$> cs) r.
Proof.
  unfold resolveCountedCloseStatementConsistent, not_run, failed_with. destruct cs as [cs |]; [| rested].
  destruct (pa_timestamp <$> pi); [| rested]. branches. unfold validateCloseStatementArtifact, failed_with. cbn [fmap option_fmap option_map].
  destruct (buildCloseStatement _ _ _ _) as [recomputed | [m |]]; cbn [try_catch mbind result_bind]; [| rested | done].
  destruct (String.eqb _ _); cbn [negb]; [| rested]. branches. intros [= <-]. unfold compareCloseStatementInputs, failed_with.
  repeat match goal with |- rests_on _ (if ?b then _ else _) => destruct b; [apply rests_failed |] end.
  split; [by left | done].
Qed.

Lemma project_rests v detail answer : answer = Some (Ok (Bitmap.valid v && Bitmap.included v)) ->
  rests_on answer (projectMyVoteProofResult v detail).
Proof.
  intros ->. unfold projectMyVoteProofResult. destruct (Bitmap.valid v); cbn [negb andb]; [| apply rests_failed].
  destruct (Bitmap.included v); [by split; [left |] | apply rests_failed].
Qed.

Lemma my_vote_rests ctx r : resolveCountedMyVoteIncluded ctx None = Ok r ->
  rests_on (match resolveBitmapProofAuthority ctx, mv_voteReceipt ctx, mv_includedBitmapProof ctx with
            | (Some root, seen, Some size), Some receipt, Acquired p =>
                Some (v ← match nonempty seen with
                          | Some seen =>
                              e ← Bitmap.explainVoteInclusionStatus (vr_bulletinIndex receipt) root (Some seen) p
                                    (acquired (mv_seenBitmapProof ctx)) size;
                              Ok (Bitmap.explained e)
                          | None => Bitmap.verifyMyVoteWasCounted (vr_bulletinIndex receipt) root p size
                          end;
                      Ok (Bitmap.valid v && Bitmap.included v))
            | _, _, _ => None
            end) r.
Proof.
  unfold resolveCountedMyVoteIncluded, unresolvedMyVoteCheck.
  destruct (resolveBitmapProofAuthority ctx) as [[root seen] size].
  destruct (nonempty root) as [included |] eqn:Er; [| rested]. apply nonempty_value in Er as ->.
  destruct (mv_voteReceipt ctx) as [receipt |]; [| rested]. cbn [fmap option_fmap option_map].
  unfold hasBitmapReceiptPosition. destruct (isInteger (vr_bulletinIndex receipt)); [| rested].
  destruct (admitBitmapTreeSize size) as [n |] eqn:En; [| rested]. branches.
  assert (size = Some (NInt n)) as ->.
  { unfold admitBitmapTreeSize, Bitmap.asAuthenticatedBitmapTreeSize in En. destruct size as [[z | | |] |]; try done.
    destruct (_ || _); [done |]. by injection En as ->. }
  destruct (mv_includedBitmapProof ctx) as [p | | |]; try rested.
  unfold evaluateMyVoteBitmapProof, unresolvedMyVoteCheck. destruct (nonempty seen) as [sr |].
  - destruct (Bitmap.explainVoteInclusionStatus _ _ _ _ _ _) as [e | [m |]]; cbn [try_catch mbind result_bind]; [| rested | done].
    intros [= <-]. by apply project_rests.
  - destruct (Bitmap.verifyMyVoteWasCounted _ _ _ _) as [v | [m |]]; cbn [try_catch mbind result_bind]; [| rested | done].
    intros [= <-]. by apply project_rests.
Qed.

(** The gate answers for a check of the count while the proof is not accepted. *)
Lemma gate_cases input gate :
  zkGateStatus (runtime_of input gate) = None \/
  zkGateStatus (runtime_of input gate) = Some st_not_run \/ zkGateStatus (runtime_of input gate) = Some st_failed \/
  zkGateStatus (runtime_of input gate) = Some st_pending /\ in_verifierOutcome input = Some OutRunning.
Proof.
  unfold runtime_of, build_runtime. cbn [zkGateStatus]. destruct (match gate with Some b => b | None => true end); [| by left].
  simpl. rewrite value_of_admitted. destruct (in_verifierOutcome input) as [[] |]; simpl; try tauto.
  destruct (f_allowDevModeVerification (in_identity input)) as [[] |]; tauto.
Qed.

Lemma check_rests input gate id r : calls_verifier id = true ->
  check_result (admitVerificationEvidence input) (runtime_of input gate) id = Ok r ->
  rests_on (verifier_answer input id) r \/ r = CPending /\ in_verifierOutcome input = Some OutRunning.
Proof.
  intros Hc%bool_decide_eq_true. unfold check_result, verifier_answer.
  assert (Hg := gate_cases input gate).
  repeat (apply elem_of_cons in Hc as [Hc | Hc]; [rewrite Hc; cbn [evaluateSelectedCheck fst] |]); [.. | by apply elem_of_nil in Hc].
  - intros E%inclusion_rests. left. cbn in E. by rewrite !value_of_admitted in E.
  - intros E%consistency_rests. left. cbn in E. by destruct (f_consistencyProof (in_artifacts input)) as [[] |].
  - destruct Hg as [-> | [-> | [-> | [-> Hr]]]]; [| intros [= <-] ..]; [| left; apply rests_not_run | left; apply rests_failed | by right].
    intros E%close_rests. left. cbn in E. by rewrite !value_of_admitted in E.
  - destruct Hg as [-> | [-> | [-> | [-> Hr]]]]; [| intros [= <-] ..]; [| left; apply rests_not_run | left; apply rests_failed | by right].
    intros E%my_vote_rests. left. revert E. unfold included_authority, resolveBitmapProofAuthority. cbn. rewrite !value_of_admitted.
    assert (Hs : forall o : option (EvidenceAcquisition Bitmap.BitmapProofResponse), acquired (or_unavailable o) = o ≫= acquired)
      by (by intros [[] |]).
    rewrite Hs. destruct (coalesce _ (f_includedBitmapRoot _)) as [root |]; [| done].
    destruct (coalesce _ (f_treeSize _)) as [size |]; [| done]. destruct (f_voteReceipt _) as [receipt |]; [| done].
    by destruct (f_includedBitmapProof _) as [[] |].
Qed.

(** C14: The evaluation fails closed. When the index of the receipt and the leaf
    index of the proof are within the safe integers, or not integers at all,
    evaluating any checks on any evidence returns a result for each of them. A
    check that rests on a verifier (the inclusion and the consistency proof, the
    digest of the close statement, the bitmap proof of the vote) succeeds only if
    that verifier was called on the evidence and accepted it; when the verifier
    throws, the check is failed or not run, or still pending while the gate waits
    for a running proof. *)
Theorem evaluateChecks_returns input ids gate :
  indices_safe (f_voteReceipt (in_userReceipt input)) (f_userVote (in_userReceipt input)) ->
  exists checks, evaluateChecks input ids gate = Ok checks /\ map fst checks = ids /\
    forall id r, (id, r) ∈ checks -> calls_verifier id = true ->
      (r = CSuccess -> verifier_answer input id = Some (Ok true)) /\
      forall e, verifier_answer input id = Some (Err e) ->
        result_status r = st_failed \/ result_status r = st_not_run \/
        r = CPending /\ in_verifierOutcome input = Some OutRunning.
Proof.
  intros Hs. destruct (evaluation_returns input ids gate Hs) as (checks & E & Em & Hall).
  exists checks. split; [done |]. split; [done |]. intros id r Hr%Hall Hc.
  destruct (check_rests _ _ _ _ Hc Hr) as [[Hset Hsucc] | [-> Hrun]].
  - split; [done |]. intros e He. destruct Hset as [-> | [? | ?]]; [| by left | by right; left].
    rewrite Hsucc in He by done. done.
  - split; [done |]. intros _ _. by right; right.
Qed.

End returns.
