(* ===== verification/EngineSamples.v ===== *)
(** A concrete evaluation: the second of three votes on the sample board, with
    the proofs its tree and bitmap generate. *)
From S2P Require Import Prelude.
From S2P Require Import JsNumber.
From S2P Require Import JsValue.
From S2P Require Import Hex.
From S2P Require Import Rfc6962.
From S2P Require Import Samples.
From S2P Require Import Bitmap.
From S2P Require Import Contract.
From S2P Require Import Checks.
From S2P Require Import LocalCast.
From S2P Require Import Evidence.
From S2P Require Import Verifiers.
From S2P Require Import Engine.
From S2P Require Import EngineProofs.
From S2P Require Import EngineErrors.
Import JsValue.
Import Checks.
Import LocalCast.
Import Evidence.
Import Verifiers.
Import Engine.

Definition or_default {A} (d : A) (r : result A) : A := match r with Ok a => a | Err _ => d end.

Definition root_at (n : Z) : string := or_default ""%string (fst (getRootAtSize n sample_tree)).

Definition sample_proof : ProofCandidate :=
  mkCandidate false (Some (NInt 1)) (Some (NInt 2))
    (Some (map Some (or_default (0, []) (fst (getInclusionProof 1 (Some 2) sample_tree))).2))
    (Some (root_at 2)).

Definition sample_vote_receipt (index : Z) : VoteReceipt :=
  mkReceipt "v-1" leaf_b (NInt index) (root_at 2) None (NInt 1) None.

Definition sample_user_vote : UserVoteInput :=
  mkUserVote (Some "A"%string) None (Some leaf_b) (Some "v-1"%string) (Some sample_proof).

Definition sample_consistency : AdmittedConsistencyProof :=
  mkAdmittedConsistency 2 3 (root_at 2) (root_at 3)
    (Rfc6962.proofNodes (or_default (Rfc6962.mkConsistencyProof 0 0 [])
       (fst (getConsistencyProof 2 3 sample_tree)))).

Definition counted_bitmap : list bool := [true; true; true].

Definition counted_root : string := or_default ""%string (Bitmap.computeIncludedBitmapRootHex counted_bitmap).

Definition counted_proof : Bitmap.BitmapProofResponse :=
  match Bitmap.generateBitmapMerkleProof counted_bitmap 1 with
  | Ok p => Bitmap.mkProofResponse (Bitmap.leafChunk p) (Bitmap.auditPath p)
  | Err _ => Bitmap.mkProofResponse "" []
  end.

Definition sample_evaluation (index : Z) : VerificationEvaluationInput :=
  mkInput
    (mkIdentity None None None None None None None)
    (mkUserReceipt (Some (sample_vote_receipt index)) (Some sample_user_vote))
    (mkArtifacts None None None None None (Some (root_at 3)) (Some (NInt 3)) None None
       (Some counted_root) (Some source_real) (Some (Acquired sample_consistency))
       (Some (Acquired counted_proof)) None)
    (mkTallyFields None None None None None None None None)
    (Some (OutSuccess None)).

Definition sample_ids : list VerificationCheckId :=
  [recorded_commitment_in_bulletin; recorded_inclusion_proof; recorded_consistency_proof;
   counted_my_vote_included].

Definition sample_results : list (VerificationCheckId * CheckResult) :=
  or_default [] (evaluateChecks (sample_evaluation 1) sample_ids None).

Example sample_results_success :
  evaluateChecks (sample_evaluation 1) sample_ids None =
  Ok [(recorded_commitment_in_bulletin, CSuccess); (recorded_inclusion_proof, CSuccess);
      (recorded_consistency_proof, CSuccess); (counted_my_vote_included, CSuccess)].
Proof. vm_compute. reflexivity. Qed.

Lemma recorded_as_cast_sound_witness :
  exists receipt c i path finalRoot n nodes,
    f_voteReceipt (in_userReceipt (sample_evaluation 1)) = Some receipt /\
    ((f_userVote (in_userReceipt (sample_evaluation 1)) : option UserVoteInput) ≫= uv_commitment) = Some c /\
    vr_bulletinIndex receipt = NInt i /\
    f_bulletinRoot (in_artifacts (sample_evaluation 1)) = Some finalRoot /\
    f_treeSize (in_artifacts (sample_evaluation 1)) = Some (NInt n) /\
    forall old new,
      zlength old = i + 1 -> zlength new = n -> n <= 2 ^ 32 ->
      normalizeHexString (vr_bulletinRootAtCast receipt) = bytesToHex (MerkleSpec.MTH old) ->
      normalizeHexString finalRoot = bytesToHex (MerkleSpec.MTH new) ->
      (exists x, znth new i = Some x /\ hexToBytesStrict (normalizeHexString c) = Ok x) \/
      MerkleSpec.collision_in (recorded_inputs c i path nodes old new).
Proof.
  apply (recorded_as_cast_sound (sample_evaluation 1) sample_ids None sample_results);
    vm_compute; reflexivity.
Defined.

Lemma zk_checks_need_proof_witness : proof_accepted (sample_evaluation 1).
Proof.
  apply (zk_checks_need_proof (sample_evaluation 1) sample_ids sample_results counted_my_vote_included).
  - vm_compute. reflexivity.
  - left. vm_compute. reflexivity.
  - vm_compute. reflexivity.
Defined.

Lemma my_vote_included_sound_witness :
  exists receipt root i n p,
    f_voteReceipt (in_userReceipt (sample_evaluation 1)) = Some receipt /\ vr_bulletinIndex receipt = NInt i /\
    included_authority (sample_evaluation 1) = (Some root, Some (NInt n)) /\
    f_includedBitmapProof (in_artifacts (sample_evaluation 1)) = Some (Acquired p) /\
    forall bitmap, zlength bitmap = n -> Bitmap.computeIncludedBitmapRootHex bitmap = Ok root ->
      BitmapFacts.bit_at bitmap i = true \/
      MerkleSpec.collision_in (BitmapProofs.bitmap_inputs bitmap ++ BitmapProofs.proof_inputs p).
Proof.
  apply (my_vote_included_sound (sample_evaluation 1) sample_ids None sample_results);
    vm_compute; reflexivity.
Defined.

(** Every check of the sample that rests on a verifier succeeds, so its verifier accepted. *)
Lemma evaluateChecks_returns_witness :
  exists checks, evaluateChecks (sample_evaluation 1) sample_ids None = Ok checks /\ map fst checks = sample_ids /\
    checks = sample_results /\ forall id, id ∈ sample_ids -> verifier_answer (sample_evaluation 1) id = Some (Ok true).
Proof.
  destruct (evaluateChecks_returns (sample_evaluation 1) sample_ids None) as (checks & E & Em & Hall).
  - split.
    + intros r [= <-] _. vm_compute. reflexivity.
    + intros p leaf [= <-] [= <-] _. vm_compute. reflexivity.
  - exists checks. assert (E' := E). rewrite sample_results_success in E. injection E as <-.
    refine (conj E' (conj Em (conj _ _))); [vm_compute; reflexivity |].
    assert (Hget : forall id, (id, CSuccess) ∈ [(recorded_commitment_in_bulletin, CSuccess); (recorded_inclusion_proof, CSuccess);
      (recorded_consistency_proof, CSuccess); (counted_my_vote_included, CSuccess)] -> calls_verifier id = true ->
      verifier_answer (sample_evaluation 1) id = Some (Ok true)).
    { intros id Hin Hc. exact (proj1 (Hall id CSuccess Hin Hc) eq_refl). }
    intros id Hid. unfold sample_ids in Hid. repeat rewrite elem_of_cons in Hid. rewrite elem_of_nil in Hid.
    destruct Hid as [-> | [-> | [-> | [-> | []]]]]; apply Hget; (repeat first [apply list_elem_of_here | apply list_elem_of_further]) || reflexivity.
Defined.

(** A path node that is no hexadecimal text: the verifier throws and the check fails. *)
Example thrown_verifier_fails :
  let bad := mkCandidate false (Some (NInt 1)) (Some (NInt 2)) (Some [Some "zz"%string]) (Some (root_at 2)) in
  let vote := mkUserVote (Some "A"%string) None (Some "xy"%string) (Some "v-1"%string) (Some bad) in
  match resolveRecordedInclusionProof (Some (sample_vote_receipt 1)) (Some vote) with
  | Ok r => result_status r = st_failed | Err _ => False end.
Proof. vm_compute. reflexivity. Qed.

(** A receipt whose index is an integer beyond the safe range: the inclusion
    check reports a failure, the consistency check throws, and the whole
    evaluation is rejected. *)
Theorem unsafe_index_rejects_evaluation :
  evaluateChecks (sample_evaluation (2 ^ 53)) [recorded_inclusion_proof] None =
    Ok [(recorded_inclusion_proof, failed_with "Inclusion proof leaf index is invalid.")] /\
  evaluateChecks (sample_evaluation (2 ^ 53)) [recorded_inclusion_proof; recorded_consistency_proof] None =
    throw "bulletinIndex must be a non-negative safe integer".
Proof. split; vm_compute; reflexivity. Qed.
