(* ===== verification/Steps.v ===== *)
(** From check results to the verification resource
    (packages/verification/src/verification: engine/derive-stages.ts,
    build-verification-checks.ts, build-verification-steps.ts): the status of a
    step with its guards, the projected checks, the four steps. *)
From S2P Require Import Prelude.
From S2P Require Import JsNumber.
From S2P Require Import Hex.
From S2P Require Import Checks.
From S2P Require Import Summary.
From S2P Require Import LocalCast.
From S2P Require Import Evidence.
From S2P Require Import Engine.
From S2P Require Import JsValue.
From S2P Require Import EngineProofs.
From S2P Require Import Samples.
From S2P Require Import EngineSamples.
Import Checks.
Import Evidence.
Import Engine.

Module Steps.

(** The map of results of one evaluation. *)
Definition Results : Type := list (VerificationCheckId * CheckResult).

Definition status_of (checks : Results) (id : VerificationCheckId) : VerificationStepStatus :=
  match checks_get checks id with Some r => result_status r | None => st_not_run end.

(** ** derive-stages.ts *)

Definition includes (statuses : list VerificationStepStatus) (s : VerificationStepStatus) : bool :=
  bool_decide (s ∈ statuses).

Definition deriveStageStatusFromChecks (checks : Results) (checkIds : list VerificationCheckId) :
    VerificationStepStatus :=
  let statuses := map (status_of checks) checkIds in
  if includes statuses st_failed then st_failed
  else if includes statuses st_running then st_running
  else if includes statuses st_pending then st_pending
  else if forallb (fun s => bool_decide (s = st_success)) statuses then st_success
  else st_not_run.

Fixpoint pickStageError (checks : Results) (checkIds : list VerificationCheckId) : option message :=
  match checkIds with
  | [] => None
  | id :: rest =>
      match checks_get checks id with
      | Some (CFailed (Some error) _) =>
          if message_truthy error then Some error else pickStageError checks rest
      | _ => pickStageError checks rest
      end
  end.

(** The context: is there a journal, and the tree size of the user's proof. *)
Record StageDerivationContext := mkStageContext {
  sc_journal : bool;
  sc_proofTreeSize : option num;
}.

Definition applyStepGuards (stepId : VerificationStepId) (status : VerificationStepStatus)
    (ctx : option StageDerivationContext) : VerificationStepStatus :=
  match ctx with
  | None => status
  | Some c =>
      if bool_decide (stepId = counted_as_recorded) && negb (sc_journal c) &&
         negb (bool_decide (status = st_failed)) then st_not_run
      else if bool_decide (stepId = recorded_as_cast) && bool_decide (sc_proofTreeSize c = None)
      then st_not_run
      else status
  end.

Definition deriveStepStatusFromChecks (stepId : VerificationStepId)
    (checkIds : list VerificationCheckId) (checks : Results) (ctx : option StageDerivationContext) :
    VerificationStepStatus * option message :=
  let status := deriveStageStatusFromChecks checks checkIds in
  let error := if bool_decide (status = st_failed) then pickStageError checks checkIds else None in
  let guarded := applyStepGuards stepId status ctx in
  if negb (bool_decide (guarded = status)) then (guarded, None)
  else (status, match error with Some e => if message_truthy e then Some e else None | None => None end).

(** ** build-verification-checks.ts *)

Inductive CastSource : Type := cast_server | cast_client.

#[export] Instance CastSource_eq_dec : EqDecision CastSource.
Proof. solve_decision. Defined.

Definition cast_source (o : option CastSource) : CastSource :=
  match o with Some s => s | None => cast_client end.

(** [Array.from(new Set(ids))] *)
Definition unique_ids (ids : list VerificationCheckId) : list VerificationCheckId :=
  fold_left (fun acc id => if bool_decide (id ∈ acc) then acc else acc ++ [id]) ids [].

Definition with_source (d : VerificationCheckDefinition) : list VerificationCheckId :=
  match def_derivedFrom d with Some s => [def_id d; s] | None => [def_id d] end.

Definition CHECK_IDS_ALL : list VerificationCheckId :=
  unique_ids (flat_map with_source VERIFICATION_CHECK_DEFINITIONS).

Definition CHECK_IDS_WITHOUT_CAST : list VerificationCheckId :=
  unique_ids (flat_map with_source
    (List.filter (fun d => negb (bool_decide (category d = cast_as_intended)))
       VERIFICATION_CHECK_DEFINITIONS)).

Section with_noble.
Context `{Noble}.

Definition evaluateVerificationCheckResults (input : VerificationEvaluationInput)
    (castSource : option CastSource) (applyZkGate : option bool) : result Results :=
  let ids := match cast_source castSource with
             | cast_client => CHECK_IDS_WITHOUT_CAST
             | cast_server => CHECK_IDS_ALL
             end in
  evaluateChecks input ids applyZkGate.

End with_noble.

Definition resolveCheckNote (r : option CheckResult) : option VerificationCheckNoteKey :=
  match r with
  | Some (CNotRun note) => note
  | Some (CFailed _ note) => note
  | _ => None
  end.

Definition projectEvaluatedVerificationCheck (d : VerificationCheckDefinition) (checks : Results)
    (evidence : VerificationEvidence) : Summary.VerificationCheck :=
  let derivedResult := match def_derivedFrom d with Some s => checks_get checks s | None => None end in
  let r := coalesce derivedResult (checks_get checks (def_id d)) in
  let noteKey := resolveCheckNote (checks_get checks (def_id d)) in
  let status := match r with Some r => result_status r | None => st_not_run end in
  let note := match status with st_not_run | st_failed => noteKey | _ => None end in
  Summary.mkCheck (check_id_string (def_id d)) status evidence (def_inputs d) (def_derivedFrom d) note.

Definition projectVerificationCheck (d : VerificationCheckDefinition) (checks : Results)
    (castSource : CastSource) (usesDevModeEvidence : bool) : Summary.VerificationCheck :=
  let evidence :=
    if usesDevModeEvidence && bool_decide (def_evidence d = ev_zk) then ev_demo else def_evidence d in
  if bool_decide (castSource = cast_client) && bool_decide (category d = cast_as_intended)
  then Summary.mkCheck (check_id_string (def_id d)) st_not_run evidence (def_inputs d) None None
  else projectEvaluatedVerificationCheck d checks evidence.

Definition outcome_input_report (o : VerificationOutcomeInput) : option VerificationReportEvidence :=
  match o with
  | OutNotRun | OutRunning => None
  | OutSuccess r | OutDevMode r | OutFailed r _ => r
  end.

Definition uses_dev_mode_evidence (input : VerificationEvaluationInput) : bool :=
  match in_verifierOutcome input with
  | None => false
  | Some o =>
      match o with OutDevMode _ => true | _ => false end ||
      bool_decide (outcome_input_report o ≫= report_dev_mode = Some true)
  end.

Definition buildVerificationChecksFromResults (input : VerificationEvaluationInput)
    (castSource : option CastSource) (checks : Results) : list Summary.VerificationCheck :=
  map (fun d => projectVerificationCheck d checks (cast_source castSource) (uses_dev_mode_evidence input))
    VERIFICATION_CHECK_DEFINITIONS.

(** ** build-verification-steps.ts *)

Record VerificationStep := mkStep {
  step_id : VerificationStepId;
  step_status : VerificationStepStatus;
  step_inputs : list string;
  step_error : option message;
}.

Definition VERIFICATION_STEP_IDS : list VerificationStepId :=
  [cast_as_intended; recorded_as_cast; counted_as_recorded; stark_verification].

(** [text.trim().length > 0] on ASCII text; a printed number is not blank. *)
Definition is_space (c : ascii) : bool := code_between 9 13 c || code_between 32 32 c.

Definition part_not_blank (p : part) : bool :=
  match p with T s => negb (string_all is_space s) | N _ => true end.

Definition not_blank (m : message) : bool := existsb part_not_blank m.

Fixpoint list_eqb (l k : list string) : bool :=
  match l, k with
  | [], [] => true
  | x :: l', y :: k' => String.eqb x y && list_eqb l' k'
  | _, _ => false
  end.

Fixpoint canonical_steps (ids : list VerificationStepId) (steps : list VerificationStep) : bool :=
  match ids, steps with
  | [], _ => true
  | id :: ids', step :: steps' =>
      bool_decide (step_id step = id) &&
      list_eqb (step_inputs step) (getVerificationStepInputs id) &&
      match step_error step with
      | None => true
      | Some e => bool_decide (step_status step = st_failed) && not_blank e
      end && canonical_steps ids' steps'
  | _ :: _, [] => false
  end.

Definition hasCanonicalVerificationSteps (steps : list VerificationStep) : bool :=
  Z.eqb (zlength steps) (zlength VERIFICATION_STEP_IDS) && canonical_steps VERIFICATION_STEP_IDS steps.

Definition createStep (id : VerificationStepId) (status : VerificationStepStatus)
    (error : option message) : VerificationStep :=
  mkStep id status (getVerificationStepInputs id)
    (match error with Some e => if message_truthy e then Some e else None | None => None end).

Definition stage_context (input : VerificationEvaluationInput) : StageDerivationContext :=
  mkStageContext (match f_journal (in_artifacts input) with Some _ => true | None => false end)
    (((f_userVote (in_userReceipt input) : option UserVoteInput) ≫= uv_proof) ≫= pc_treeSize).

Definition resolveRequirementContext (input : VerificationEvaluationInput) : bool :=
  bool_decide (f_sthSourcesConfigured (in_identity input) = Some true).

Definition buildStepFromChecks (stepId : VerificationStepId) (checks : Results)
    (input : VerificationEvaluationInput) (sthSourcesConfigured : bool) : VerificationStep :=
  let checkIds := getVerificationRequiredCheckIdsForStep stepId sthSourcesConfigured in
  let '(status, error) :=
    deriveStepStatusFromChecks stepId checkIds checks (Some (stage_context input)) in
  createStep stepId status error.

Section with_noble.
Context `{Noble}.

Definition buildVerificationChecks (input : VerificationEvaluationInput)
    (castSource : option CastSource) : result (list Summary.VerificationCheck) :=
  checks ← evaluateVerificationCheckResults input castSource None;
  Ok (buildVerificationChecksFromResults input castSource checks).

Definition buildVerificationSteps (input : VerificationEvaluationInput)
    (castSource : option CastSource) (checkResults : option Results) : result (list VerificationStep) :=
  let requirement := resolveRequirementContext input in
  checks ← match checkResults with
           | Some r => Ok r
           | None => evaluateVerificationCheckResults input castSource None
           end;
  let castStep :=
    match cast_source castSource with
    | cast_client => createStep cast_as_intended st_not_run None
    | cast_server => buildStepFromChecks cast_as_intended checks input requirement
    end in
  Ok [castStep; buildStepFromChecks recorded_as_cast checks input requirement;
      buildStepFromChecks counted_as_recorded checks input requirement;
      buildStepFromChecks stark_verification checks input requirement].

End with_noble.
End Steps.

(** * What the steps promise *)

(** From results to resource: the status of a step, the canonical form of the
    built steps, the projection of the checks, and what a "fully verified"
    verdict on them implies. *)
Import Checks.
Import Evidence.
Import Engine.
Import Steps.

(** ** The status of a step *)

Lemma includes_spec l s : includes l s = true <-> s ∈ l.
Proof. unfold includes. by rewrite bool_decide_eq_true. Qed.

Lemma includes_none l s : includes l s = false <-> s ∉ l.
Proof. unfold includes. by rewrite bool_decide_eq_false. Qed.

Lemma in_statuses checks ids s :
  s ∈ map (status_of checks) ids <-> exists id, id ∈ ids /\ status_of checks id = s.
Proof.
  rewrite list_elem_of_fmap. split.
  - intros (id & -> & Hid). by exists id.
  - intros (id & Hid & <-). by exists id.
Qed.

(** A required check with this status. *)
Definition some_check (checks : Results) (ids : list VerificationCheckId)
    (s : VerificationStepStatus) : Prop := exists id, id ∈ ids /\ status_of checks id = s.

Lemma stage_cases checks ids :
  match deriveStageStatusFromChecks checks ids with
  | st_failed => some_check checks ids st_failed
  | st_running => some_check checks ids st_running /\ ~ some_check checks ids st_failed
  | st_pending => some_check checks ids st_pending /\ ~ some_check checks ids st_running /\
                  ~ some_check checks ids st_failed
  | st_success => forall id, id ∈ ids -> status_of checks id = st_success
  | st_not_run => some_check checks ids st_not_run /\ ~ some_check checks ids st_pending /\
                  ~ some_check checks ids st_running /\ ~ some_check checks ids st_failed
  end.
Proof.
  unfold deriveStageStatusFromChecks. set (l := map (status_of checks) ids).
  destruct (includes l st_failed) eqn:Ef.
  { by apply includes_spec, in_statuses in Ef. }
  apply includes_none in Ef. subst l. rewrite in_statuses in Ef. set (l := map (status_of checks) ids).
  destruct (includes l st_running) eqn:Er.
  { apply includes_spec, in_statuses in Er. by split. }
  apply includes_none in Er. subst l. rewrite in_statuses in Er. set (l := map (status_of checks) ids).
  destruct (includes l st_pending) eqn:Ep.
  { apply includes_spec, in_statuses in Ep. by split_and!. }
  apply includes_none in Ep. subst l. rewrite in_statuses in Ep.
  destruct (forallb _ _) eqn:Es.
  - rewrite forallb_forall in Es. intros id Hid. eapply bool_decide_eq_true, Es.
    apply list_elem_of_In, in_statuses. by exists id.
  - split_and!; [| done ..]. destruct (decide (Exists (fun id => status_of checks id = st_not_run) ids)) as [Hn | Hn].
    { apply Exists_exists in Hn as (id & ? & ?). by exists id. }
    exfalso. rewrite (proj2 (forallb_forall _ _)) in Es; [done |].
    intros s (id & Hid & <-)%list_elem_of_In%in_statuses. apply bool_decide_eq_true.
    destruct (status_of checks id) eqn:Es'; try done; exfalso.
    + apply Ep. by exists id.
    + apply Er. by exists id.
    + apply Ef. by exists id.
    + apply Hn, Exists_exists. by exists id.
Qed.

(** The guard of a step: a journal for the counted step, the tree size of the
    voter's proof for the recorded step. *)
Definition guard_met (step : VerificationStepId) (c : StageDerivationContext) : Prop :=
  (step = counted_as_recorded -> sc_journal c = true) /\
  (step = recorded_as_cast -> sc_proofTreeSize c <> None).

Lemma guards_met step s c : guard_met step c -> applyStepGuards step s (Some c) = s.
Proof.
  intros [Hj Hp]. unfold applyStepGuards. destruct step; cbn; try done.
  - destruct (sc_proofTreeSize c); [done | by destruct Hp].
  - by rewrite Hj.
Qed.

Lemma guards_result step s c :
  applyStepGuards step s (Some c) = s \/ applyStepGuards step s (Some c) = st_not_run.
Proof. unfold applyStepGuards. repeat case_match; tauto. Qed.

Lemma step_status_eq step ids checks c :
  (deriveStepStatusFromChecks step ids checks (Some c)).1 =
    applyStepGuards step (deriveStageStatusFromChecks checks ids) (Some c).
Proof.
  unfold deriveStepStatusFromChecks. destruct (bool_decide_reflect
    (applyStepGuards step (deriveStageStatusFromChecks checks ids) (Some c) =
     deriveStageStatusFromChecks checks ids)) as [E | E]; cbn [negb fst]; congruence.
Qed.

(** A step succeeds exactly when every check it requires succeeded and its
    guard holds: the counted step needs a journal, the recorded step a proof
    with a tree size. It fails exactly when a required check failed, with the
    same proviso on the recorded step only: a failed recorded check is reported
    as not run when the proof has no tree size. *)
Theorem step_status_iff step ids checks c :
  ((deriveStepStatusFromChecks step ids checks (Some c)).1 = st_success <->
     (forall id, id ∈ ids -> status_of checks id = st_success) /\ guard_met step c) /\
  ((deriveStepStatusFromChecks step ids checks (Some c)).1 = st_failed <->
     some_check checks ids st_failed /\ (step = recorded_as_cast -> sc_proofTreeSize c <> None)).
Proof.
  rewrite step_status_eq. assert (Hs := stage_cases checks ids).
  assert (Hno : (forall id, id ∈ ids -> status_of checks id = st_success) ->
    forall s, some_check checks ids s -> s = st_success).
  { intros Hall s (id & Hid & <-). by apply Hall. }
  split; split.
  - intros E. destruct (guards_result step (deriveStageStatusFromChecks checks ids) c) as [G | G];
      [| congruence]. rewrite G in E. rewrite E in Hs, G. split; [done |].
    split; intros ->; revert G; unfold applyStepGuards; cbn.
    + by destruct (sc_journal c).
    + by destruct (sc_proofTreeSize c).
  - intros [Hall Hg]. rewrite guards_met by done.
    destruct (deriveStageStatusFromChecks checks ids); try done;
      (destruct_and? Hs || idtac); match goal with H : some_check _ _ _ |- _ => by apply (Hno Hall) in H end.
  - intros E. destruct (guards_result step (deriveStageStatusFromChecks checks ids) c) as [G | G];
      [| congruence]. rewrite G in E. rewrite E in Hs, G. split; [done |].
    intros -> Hp. revert G. unfold applyStepGuards. cbn. by rewrite Hp.
  - intros [Hf Hp]. assert (deriveStageStatusFromChecks checks ids = st_failed) as ->.
    { destruct (deriveStageStatusFromChecks checks ids); try done; try (by destruct_and? Hs).
      destruct Hf as (id & Hid & Hid'). rewrite Hs in Hid' by done. done. }
    unfold applyStepGuards. destruct step; cbn; try done; [| by rewrite andb_false_r].
    destruct (sc_proofTreeSize c); [done | by destruct Hp].
Qed.

(** ** The built steps *)

Lemma list_eqb_refl l : list_eqb l l = true.
Proof. induction l as [| x l IH]; simpl; [done |]. by rewrite String.eqb_refl. Qed.

Definition error_not_blank (s : VerificationStep) : bool :=
  match step_error s with None => true | Some e => not_blank e end.

(** A step made by [buildStepFromChecks] or [createStep]: its inputs, and an
    error only when it failed. *)
Definition well_made (id : VerificationStepId) (s : VerificationStep) : Prop :=
  step_id s = id /\ step_inputs s = getVerificationStepInputs id /\
  (step_error s <> None -> step_status s = st_failed).

Lemma createStep_made id status error :
  (error <> None -> status = st_failed) -> well_made id (createStep id status error).
Proof.
  intros He. split_and!; [done | done |]. cbn. destruct error as [e |]; [| done].
  intros _. by apply He.
Qed.

Lemma built_made id checks input b : well_made id (buildStepFromChecks id checks input b).
Proof.
  unfold buildStepFromChecks, deriveStepStatusFromChecks. cbv zeta.
  set (status := deriveStageStatusFromChecks checks _).
  destruct (negb _); [by apply createStep_made |]. apply createStep_made.
  case_bool_decide; [done |]. by intros.
Qed.

Lemma canonical_made ids : forall steps,
  Forall2 well_made ids steps -> canonical_steps ids steps = forallb error_not_blank steps.
Proof.
  induction ids as [| id ids IH]; intros steps Hf.
  - by apply Forall2_nil_inv_l in Hf as ->.
  - apply Forall2_cons_inv_l in Hf as (s & rest & (Hid & Hin & He) & Hf & ->).
    cbn [canonical_steps forallb]. rewrite Hid, Hin, list_eqb_refl, (IH rest Hf), bool_decide_eq_true_2 by done.
    unfold error_not_blank at 2. destruct (step_error s); [| done].
    by rewrite bool_decide_eq_true_2 by (by apply He).
Qed.

Section with_noble.
Context `{Noble}.

(** The steps built are the four steps in order with their registered
    inputs, an error only on a failed step: they satisfy the canonical form the
    readers of the resource demand, provided no step carries a blank error. *)
Theorem built_steps_canonical input src results steps :
  buildVerificationSteps input src results = Ok steps ->
  map step_id steps = VERIFICATION_STEP_IDS /\
  hasCanonicalVerificationSteps steps = forallb error_not_blank steps.
Proof.
  unfold buildVerificationSteps. intros E. apply bind_Ok in E as (checks & _ & E). injection E as <-.
  set (cast := match cast_source src with cast_server => _ | cast_client => _ end).
  assert (Hc : well_made cast_as_intended cast).
  { subst cast. destruct (cast_source src); [apply built_made | by apply createStep_made]. }
  assert (Hall : Forall2 well_made VERIFICATION_STEP_IDS
    [cast; buildStepFromChecks recorded_as_cast checks input (resolveRequirementContext input);
     buildStepFromChecks counted_as_recorded checks input (resolveRequirementContext input);
     buildStepFromChecks stark_verification checks input (resolveRequirementContext input)]).
  { repeat constructor; [apply Hc | apply Hc | apply Hc | apply built_made ..]. }
  split; [| by apply canonical_made in Hall].
  symmetry. clear -Hall. revert Hall. generalize VERIFICATION_STEP_IDS. intros ids.
  generalize [cast; buildStepFromChecks recorded_as_cast checks input (resolveRequirementContext input);
     buildStepFromChecks counted_as_recorded checks input (resolveRequirementContext input);
     buildStepFromChecks stark_verification checks input (resolveRequirementContext input)].
  induction ids as [| id ids IH]; intros l Hf.
  - by apply Forall2_nil_inv_l in Hf as ->.
  - apply Forall2_cons_inv_l in Hf as (s & rest & (Hid & _) & Hf & ->). simpl. f_equal; [done | by apply IH].
Qed.

End with_noble.

(** ** The verdict on the built checks *)

Lemma built_check_in input src checks d :
  d ∈ VERIFICATION_CHECK_DEFINITIONS ->
  projectVerificationCheck d checks (cast_source src) (uses_dev_mode_evidence input) ∈
    buildVerificationChecksFromResults input src checks.
Proof. intros Hd. apply list_elem_of_fmap. by exists d. Qed.

Lemma projected_id d checks src dev :
  Summary.check_id (projectVerificationCheck d checks src dev) = check_id_string (def_id d).
Proof. unfold projectVerificationCheck. by destruct (_ && bool_decide (category d = _)). Qed.

Lemma definition_by_own_id d :
  d ∈ VERIFICATION_CHECK_DEFINITIONS -> Summary.definition_by_id (check_id_string (def_id d)) = Some d.
Proof. intros Hd. by apply definition_by_id_spec. Qed.

(** The context of a verdict asks for the checks required whatever the sources. *)
Lemma required_always d ctx :
  criticality d = required -> Summary.isRequiredCheck d ctx = true.
Proof.
  intros Hc. unfold Summary.isRequiredCheck, isVerificationCheckRequired.
  by destruct (decide (criticality d = required)).
Qed.

(** A required check is not derived, so its projection is its own result. *)
Lemma required_own_result d checks src dev :
  d ∈ VERIFICATION_CHECK_DEFINITIONS -> criticality d = required ->
  Summary.status (projectVerificationCheck d checks src dev) = st_success ->
  checks_get checks (def_id d) = Some CSuccess /\
  (src = cast_client -> category d <> cast_as_intended).
Proof.
  intros Hd Hc. unfold projectVerificationCheck.
  destruct (bool_decide_reflect (src = cast_client)) as [Hs |], (bool_decide_reflect (category d = cast_as_intended));
    cbn [andb]; try done; unfold projectEvaluatedVerificationCheck; cbn [Summary.status].
  all: assert (Hn : def_derivedFrom d = None) by
    (assert (Hall := all_definitions (fun d => implb (bool_decide (criticality d = required))
       (bool_decide (def_derivedFrom d = None))) eq_refl d Hd); cbv beta in Hall;
     rewrite (bool_decide_eq_true_2 _ Hc) in Hall; by apply bool_decide_eq_true in Hall).
  all: rewrite Hn; cbn [coalesce]; destruct (checks_get checks (def_id d)) as [[] |]; cbn; try done.
Qed.

Lemma definition_of id :
  exists d, d ∈ VERIFICATION_CHECK_DEFINITIONS /\ def_id d = id /\ lookup_definition id = Some d.
Proof.
  destruct (lookup_definition id) as [d |] eqn:E; [| by destruct id].
  exists d. apply find_some in E as [Hin Hd]. apply bool_decide_eq_true in Hd.
  split_and!; [by apply list_elem_of_In | done | done].
Qed.

Section verdict.
Context `{Noble}.

(** C1: What "fully verified" means for an evaluation: when the checks built
    from a gated evaluation get that verdict, the verifier accepted a real
    proof, not a development receipt; the cast step was evaluated by the server
    side; and every check required in any configuration succeeded. *)
Theorem fully_verified_end_to_end input src checks ctx r :
  evaluateVerificationCheckResults input src None = Ok checks ->
  Summary.deriveVerificationSummary (Some (buildVerificationChecksFromResults input src checks)) ctx = Some r ->
  Summary.summary r = Summary.fully_verified ->
  (exists report, in_verifierOutcome input = Some (OutSuccess report)) /\
  cast_source src = cast_server /\
  forall d, d ∈ VERIFICATION_CHECK_DEFINITIONS -> criticality d = required ->
    checks_get checks (def_id d) = Some CSuccess.
Proof.
  intros Ev Es Hr.
  assert (HF : fully_verified_results (buildVerificationChecksFromResults input src checks) ctx)
    by (by eapply fully_verified_sound).
  destruct HF as (_ & _ & Hall).
  assert (Hproj : forall d, d ∈ VERIFICATION_CHECK_DEFINITIONS ->
    let c := projectVerificationCheck d checks (cast_source src) (uses_dev_mode_evidence input) in
    Summary.evidence c <> ev_demo /\ (criticality d = required -> Summary.status c = st_success)).
  { intros d Hd c. destruct (Hall c (built_check_in _ _ _ _ Hd)) as (d' & Hd' & He & Hst).
    subst c. rewrite projected_id, definition_by_own_id in Hd' by done. injection Hd' as <-.
    split; [done |]. intros Hc. by rewrite (required_always d ctx Hc) in Hst. }
  assert (Hreq : forall d, d ∈ VERIFICATION_CHECK_DEFINITIONS -> criticality d = required ->
    checks_get checks (def_id d) = Some CSuccess /\
    (cast_source src = cast_client -> category d <> cast_as_intended)).
  { intros d Hd Hc. eapply required_own_result; [done | done |]. by apply Hproj. }
  split_and!; [| | by intros; apply Hreq].
  - destruct (definition_of stark_receipt_verify) as (d & Hd & Hid & Hl). injection Hl as Hl.
    destruct (Hreq d Hd) as [Hs _]; [by rewrite <- Hl |]. rewrite Hid in Hs.
    assert (Ha : proof_accepted input).
    { apply (accepted_of_success input _ checks stark_receipt_verify Ev); [| exact Hs].
      right. exists d. split_and!; [exact Hd | exact Hid | by rewrite <- Hl]. }
    assert (Hdev : uses_dev_mode_evidence input = false).
    { destruct (uses_dev_mode_evidence input) eqn:Eu; [| done]. exfalso.
      apply (proj1 (Hproj d Hd)). rewrite <- Hl. by destruct (cast_source src). }
    unfold proof_accepted in Ha. unfold uses_dev_mode_evidence in Hdev.
    destruct (in_verifierOutcome input) as [[] |]; try done. by eexists.
  - destruct (definition_of cast_receipt_present) as (d & Hd & Hid & Hl). injection Hl as Hl.
    destruct (Hreq d Hd) as [_ Hs]; [by rewrite <- Hl |].
    destruct (cast_source src); [done |]. exfalso. apply (Hs eq_refl). by rewrite <- Hl.
Qed.

End verdict.
