(* ===== verification/VerdictSample.v ===== *)
(** A complete evaluation: every check of an election with three votes succeeds
    and the verdict is "fully verified". *)
From S2P Require Import Prelude.
From S2P Require Import JsNumber.
From S2P Require Import JsValue.
From S2P Require Import Hex.
From S2P Require Import Rfc6962.
From S2P Require Import TreeFacts.
From S2P Require Import Samples.
From S2P Require Import Bitmap.
From S2P Require Import Contract.
From S2P Require Import Checks.
From S2P Require Import Summary.
From S2P Require Import LocalCast.
From S2P Require Import Evidence.
From S2P Require Import Verifiers.
From S2P Require Import Engine.
From S2P Require Import Steps.
From S2P Require Import EngineSamples.
Import Checks.
Import LocalCast.
Import Evidence.
Import Verifiers.
Import Engine.
Import Steps.

Definition uuid : string := "550e8400-e29b-41d4-a716-446655440000".
Definition hex_of (s : string) : string := repeat_string 32 s.

Definition my_commitment : string :=
  or_default ""%string (Contract.computeCommitment uuid 1 (hex_of "7f")).

Definition board : Tree :=
  fold_left (fun t c => run_call c t)
    [CallAppend leaf_a; CallAppend my_commitment; CallAppend leaf_c] empty_tree.

Definition board_root (n : Z) : string := or_default ""%string (fst (getRootAtSize n board)).

Definition my_receipt : VoteReceipt :=
  mkReceipt "v-1" my_commitment (NInt 1) (board_root 2) None (NInt 1) None.

Definition my_vote : UserVoteInput :=
  mkUserVote (Some "B"%string) (Some (hex_of "7f")) (Some my_commitment) (Some "v-1"%string)
    (Some (mkCandidate false (Some (NInt 1)) (Some (NInt 2))
       (Some (map Some (or_default (0, []) (fst (getInclusionProof 1 (Some 2) board))).2))
       (Some (board_root 2)))).

Definition my_consistency : AdmittedConsistencyProof :=
  mkAdmittedConsistency 2 3 (board_root 2) (board_root 3)
    (Rfc6962.proofNodes (or_default (Rfc6962.mkConsistencyProof 0 0 [])
       (fst (getConsistencyProof 2 3 board)))).

Definition config_hash : string := Contract.getDefaultElectionConfigHash.
Definition input_hash : string := ("0x" +:+ hex_of "5e")%string.
Definition image : string := hex_of "1d".

Definition close : CloseStatement :=
  or_default (mkCloseStatement "" NNaN NNaN "" "")
    (buildCloseStatement (hex_of "10") (NInt 3) (NInt 1700000000000) (board_root 3)).

Definition count_journal : ZkVMJournal :=
  mkJournal uuid config_hash (board_root 3) (NInt 3) (NInt 3) (cs_sthDigest close)
    [NInt 2; NInt 1; NInt 0; NInt 0; NInt 0] (NInt 3) (NInt 3) (NInt 0) (NInt 3) (NInt 0) (NInt 0)
    (NInt 0) None counted_root (NInt 0) input_hash (NInt 14) (Some image).

Definition authority : PublicInputAuthority :=
  mkAuthority uuid config_hash (NInt 14) (board_root 3) (NInt 3) (NInt 3) (NInt 3) true true (hex_of "10")
    (NInt 1700000000000) input_hash.

Definition full_evaluation : VerificationEvaluationInput :=
  mkInput
    (mkIdentity (Some uuid) (Some config_hash) (Some (hex_of "10")) (Some true) (Some image) (Some image) None)
    (mkUserReceipt (Some my_receipt) (Some my_vote))
    (mkArtifacts (Some count_journal)
       (Some (buildElectionManifest uuid Contract.buildDefaultElectionConfig)) (Some close)
       (Some (cs_sthDigest close))
       (Some (verifySthConsensus (cs_sthDigest close) (board_root 3) (NInt 3)
          [mkSthRecord None (cs_sthDigest close) None None; mkSthRecord None (cs_sthDigest close) (Some (NInt 3)) None]
          (mkSthOptions None [] None)))
       (Some (board_root 3)) (Some (NInt 3)) (Some authority) None (Some counted_root) (Some source_real)
       (Some (Acquired my_consistency)) (Some (Acquired counted_proof)) None)
    (mkTallyFields None None None None
       (Some (mkTally (Some (list_to_map [("A"%string, NInt 2); ("B"%string, NInt 1); ("C"%string, NInt 0);
          ("D"%string, NInt 0); ("E"%string, NInt 0)])) (Some (NInt 3))))
       (Some [NInt 2; NInt 1; NInt 0; NInt 0; NInt 0]) (Some (NInt 3)) None)
    (Some (OutSuccess (Some (SuccessReport (Some image) (Some image))))).

Definition full_results : Results :=
  or_default [] (evaluateVerificationCheckResults full_evaluation (Some cast_server) None).

Example full_results_success : forallb (fun p => bool_decide (result_status p.2 = st_success)) full_results = true.
Proof. vm_compute. reflexivity. Qed.

Lemma fully_verified_end_to_end_witness :
  (exists report, in_verifierOutcome full_evaluation = Some (OutSuccess report)) /\
  cast_source (Some cast_server) = cast_server /\
  forall d, d ∈ VERIFICATION_CHECK_DEFINITIONS -> criticality d = required ->
    checks_get full_results (def_id d) = Some CSuccess.
Proof.
  apply (fully_verified_end_to_end full_evaluation (Some cast_server) full_results None
    (Summary.mkResult Summary.fully_verified Summary.tone_verified None)); vm_compute; reflexivity.
Defined.

Lemma built_steps_canonical_witness :
  map step_id (or_default [] (buildVerificationSteps full_evaluation (Some cast_server) None)) =
    VERIFICATION_STEP_IDS /\
  hasCanonicalVerificationSteps (or_default [] (buildVerificationSteps full_evaluation (Some cast_server) None)) =
    forallb error_not_blank (or_default [] (buildVerificationSteps full_evaluation (Some cast_server) None)).
Proof.
  apply (built_steps_canonical full_evaluation (Some cast_server) None). vm_compute. reflexivity.
Defined.
