(* ===== verification/Journal.v ===== *)
(** The journal of the zkVM guest at its boundaries
    (packages/zkvm-contract/src/zkvm: journal-guards.ts, public-journal.ts,
    identifiers.ts, wire-numeric-preflight.ts, validated-domain.ts): the guard
    that admits a parsed journal, the arithmetic a current journal satisfies,
    the branded identifiers and the validated input. *)
From stdpp Require Import pretty.
From S2P Require Import Prelude.
From S2P Require Import JsNumber.
From S2P Require Import JsValue.
From S2P Require Import Hex.
From S2P Require Import Contract.
From S2P Require Import LocalCast.
From S2P Require Import Evidence.
Import JsValue.
Import LocalCast.
Import Evidence.

Module Journal.

(** ** Regular expressions: a class of characters per position *)

Fixpoint matches (classes : list (ascii -> bool)) (s : string) : bool :=
  match classes, s with
  | [], EmptyString => true
  | p :: classes', String c s' => p c && matches classes' s'
  | _, _ => false
  end.

Definition dash : ascii -> bool := fun c => Ascii.eqb c "-".
Definition digit_1_5 : ascii -> bool := code_between 49 53.
(** [[89ab]] under the flag [i] *)
Definition variant_digit (c : ascii) : bool :=
  code_between 56 57 c || code_between 97 98 c || code_between 65 66 c.

Definition uuid_classes (version variant : ascii -> bool) : list (ascii -> bool) :=
  repeat is_hex 8 ++ [dash] ++ repeat is_hex 4 ++ [dash] ++ [version] ++ repeat is_hex 3 ++
  [dash] ++ [variant] ++ repeat is_hex 3 ++ [dash] ++ repeat is_hex 12.

Definition UUID_PATTERN (s : string) : bool := matches (uuid_classes digit_1_5 variant_digit) s.

Definition hex32_pattern (s : string) : bool :=
  match s with
  | String "0" (String c rest) => (Ascii.eqb c "x" || Ascii.eqb c "X") && matches (repeat is_hex 64) rest
  | _ => false
  end.

(** ** journal-guards.ts *)

Definition HASH_BYTE_LENGTH : Z := 32.
Definition IMAGE_ID_BYTE_LENGTH : Z := 32.

Definition LEGACY_JOURNAL_COUNT_KEYS : list string :=
  ["missingIndices"; "invalidIndices"; "countedIndices"; "excludedCount"]%string.

Definition OPTIONAL_CURRENT_JOURNAL_KEYS : list string := ["imageId"%string].

Definition CURRENT_JOURNAL_KEYS : list string :=
  ["electionId"; "electionConfigHash"; "bulletinRoot"; "treeSize"; "totalExpected"; "sthDigest";
   "verifiedTally"; "totalVotes"; "validVotes"; "invalidVotes"; "seenIndicesCount"; "missingSlots";
   "invalidPresentedSlots"; "rejectedRecords"; "seenBitmapRoot"; "includedBitmapRoot";
   "excludedSlots"; "inputCommitment"; "methodVersion"; "imageId"]%string.

Definition CURRENT_JOURNAL_REQUIRED_KEYS : list string :=
  List.filter (fun key => negb (bool_decide (key ∈ OPTIONAL_CURRENT_JOURNAL_KEYS))) CURRENT_JOURNAL_KEYS.

Definition isSupportedJournalMethodVersion (value : option num) : bool :=
  match value with
  | Some n => isInteger n && num_eqb n (NInt Contract.CURRENT_METHOD_VERSION)
  | None => false
  end.

(** [hasOwnProperty] for the named keys the code asks for. *)
Definition hasOwn (value : jsval) (key : string) : bool :=
  match value with JObj properties => is_some (own properties key) | _ => false end.

Definition hasExactCurrentJournalKeys (value : jsval) : bool :=
  forallb (fun key => bool_decide (key ∈ CURRENT_JOURNAL_KEYS)) (object_keys value) &&
  forallb (hasOwn value) CURRENT_JOURNAL_REQUIRED_KEYS.

Definition hasLegacyJournalCountAliases (value : jsval) : bool :=
  isNonNullObject value && existsb (hasOwn value) LEGACY_JOURNAL_COUNT_KEYS.

Record ZkVMVoteSlotPartitionEvidence := mkPartition {
  p_verifiedTally : option (list num);
  p_treeSize : option num;
  p_seenIndicesCount : option num;
  p_missingSlots : option num;
  p_invalidPresentedSlots : option num;
  p_rejectedRecords : option num;
  p_excludedSlots : option num;
  p_seenBitmapRoot : option string;
  p_includedBitmapRoot : option string;
}.

Record CurrentZkVMJournalSemanticEvidence := mkSemanticEvidence {
  e_partition : ZkVMVoteSlotPartitionEvidence;
  e_totalExpected : option num;
  e_totalVotes : option num;
  e_validVotes : option num;
  e_invalidVotes : option num;
}.

Definition addSafeIntegers (left right : num) : option num :=
  let sum := num_add left right in
  if isSafeInteger sum then Some sum else None.

(** [addSafeIntegers(a, b) === c] *)
Definition sum_is (a b c : num) : bool :=
  match addSafeIntegers a b with Some s => num_eqb s c | None => false end.

(** [tally.reduce((sum, count) => addSafeIntegers(sum, count) ?? NaN, 0)] *)
Definition tally_total (tally : list num) : num :=
  fold_left (fun sum count => match addSafeIntegers sum count with Some s => s | None => NNaN end)
    tally (NInt 0).

Definition isCurrentJournalUint32 (value : option num) : bool :=
  match value with
  | Some n => isSafeInteger n && num_leb (NInt 0) n && num_leb n (NInt Contract.UINT32_MAX)
  | None => false
  end.

Definition isCurrentJournalPositiveUint32 (value : option num) : bool :=
  isCurrentJournalUint32 value &&
  match value with Some n => num_ltb (NInt 0) n | None => false end.

(** The comparisons of [hasCoherentZkVMVoteSlotPartition], past its guard. *)
Definition partition_sums (tally : list num) (treeSize seen missing invalid rejected excluded : num)
    (seenRoot includedRoot : string) : bool :=
  let tallyTotal := tally_total tally in
  isSafeInteger tallyTotal && sum_is tallyTotal invalid seen && sum_is seen missing treeSize &&
  num_leb invalid rejected && sum_is missing invalid excluded &&
  (negb (num_eqb invalid (NInt 0)) ||
   String.eqb (normalizeHexString seenRoot) (normalizeHexString includedRoot)).

Definition hasCoherentZkVMVoteSlotPartition (p : ZkVMVoteSlotPartitionEvidence) : bool :=
  match p_verifiedTally p, p_treeSize p, p_seenIndicesCount p, p_missingSlots p,
        p_invalidPresentedSlots p, p_rejectedRecords p, p_excludedSlots p,
        p_seenBitmapRoot p, p_includedBitmapRoot p with
  | Some tally, Some treeSize, Some seen, Some missing, Some invalid, Some rejected, Some excluded,
    Some seenRoot, Some includedRoot =>
      if negb (Z.eqb (zlength tally) (zlength VOTE_CHOICES)) ||
         negb (forallb (fun n => isCurrentJournalUint32 (Some n)) tally) ||
         negb (isCurrentJournalPositiveUint32 (Some treeSize)) ||
         negb (isCurrentJournalUint32 (Some seen)) || negb (isCurrentJournalUint32 (Some missing)) ||
         negb (isCurrentJournalUint32 (Some invalid)) || negb (isCurrentJournalUint32 (Some rejected)) ||
         negb (isCurrentJournalUint32 (Some excluded)) ||
         negb (str_truthy seenRoot) || negb (str_truthy includedRoot)
      then false
      else partition_sums tally treeSize seen missing invalid rejected excluded seenRoot includedRoot
  | _, _, _, _, _, _, _, _, _ => false
  end.

Definition hasCoherentCurrentZkVMJournalSemantics (j : CurrentZkVMJournalSemanticEvidence) : bool :=
  if negb (hasCoherentZkVMVoteSlotPartition (e_partition j)) ||
     negb (isCurrentJournalUint32 (e_totalExpected j)) || negb (isCurrentJournalUint32 (e_totalVotes j)) ||
     negb (isCurrentJournalUint32 (e_validVotes j)) || negb (isCurrentJournalUint32 (e_invalidVotes j))
  then false
  else
    match p_verifiedTally (e_partition j), e_validVotes j, e_invalidVotes j, e_totalVotes j,
          p_rejectedRecords (e_partition j) with
    | Some tally, Some valid, Some invalid, Some total, Some rejected =>
        num_eqb (tally_total tally) valid && sum_is valid invalid total && num_eqb rejected invalid
    | _, _, _, _, _ => false
    end.

Definition isCurrentJournalRecord (value : jsval) : bool :=
  isNonNullObject value && hasExactCurrentJournalKeys value && negb (hasLegacyJournalCountAliases value).

Definition isJournalHash (value : option string) : bool :=
  match value with
  | Some s => str_truthy s && isValidHexString s (Some HASH_BYTE_LENGTH)
  | None => false
  end.

Definition semantic_evidence (value : jsval) : CurrentZkVMJournalSemanticEvidence :=
  mkSemanticEvidence
    (mkPartition (getNumberArrayProperty value "verifiedTally") (getNumberProperty value "treeSize")
       (getNumberProperty value "seenIndicesCount") (getNumberProperty value "missingSlots")
       (getNumberProperty value "invalidPresentedSlots") (getNumberProperty value "rejectedRecords")
       (getNumberProperty value "excludedSlots") (getStringProperty value "seenBitmapRoot")
       (getStringProperty value "includedBitmapRoot"))
    (getNumberProperty value "totalExpected") (getNumberProperty value "totalVotes")
    (getNumberProperty value "validVotes") (getNumberProperty value "invalidVotes").

Definition JOURNAL_HASH_KEYS : list string :=
  ["electionConfigHash"; "bulletinRoot"; "sthDigest"; "includedBitmapRoot"; "inputCommitment";
   "seenBitmapRoot"]%string.

Definition isSupportedZkVMJournal (value : jsval) : bool :=
  if negb (isCurrentJournalRecord value) then false
  else if negb (match getStringProperty value "electionId" with
                | Some electionId => str_truthy electionId && UUID_PATTERN electionId
                | None => false
                end) then false
  else if negb (forallb (fun key => isJournalHash (getStringProperty value key)) JOURNAL_HASH_KEYS)
  then false
  else if match getStringProperty value "imageId" with
          | Some imageId => negb (isValidHexString imageId (Some IMAGE_ID_BYTE_LENGTH))
          | None => false
          end then false
  else if negb (hasCoherentCurrentZkVMJournalSemantics (semantic_evidence value)) then false
  else isSupportedJournalMethodVersion (getNumberProperty value "methodVersion").

(** A value the guard admitted, as a journal: its properties by name. *)
Definition text_at (v : jsval) (key : string) : string := default ""%string (getStringProperty v key).
Definition number_at (v : jsval) (key : string) : num := default NNaN (getNumberProperty v key).

Definition read_journal (v : jsval) : ZkVMJournal :=
  mkJournal (text_at v "electionId") (text_at v "electionConfigHash") (text_at v "bulletinRoot")
    (number_at v "treeSize") (number_at v "totalExpected") (text_at v "sthDigest")
    (default [] (getNumberArrayProperty v "verifiedTally")) (number_at v "totalVotes")
    (number_at v "validVotes") (number_at v "invalidVotes") (number_at v "seenIndicesCount")
    (number_at v "missingSlots") (number_at v "invalidPresentedSlots") (number_at v "rejectedRecords")
    (getStringProperty v "seenBitmapRoot") (text_at v "includedBitmapRoot") (number_at v "excludedSlots")
    (text_at v "inputCommitment") (number_at v "methodVersion") (getStringProperty v "imageId").

(** A journal record as the object it is. *)
Definition optional (key : string) (v : option jsval) : list (string * jsval) :=
  match v with Some x => [(key, x)] | None => [] end.

Definition journal_value (j : ZkVMJournal) : jsval :=
  JObj ([("electionId", JStr (j_electionId j));
     ("electionConfigHash", JStr (j_electionConfigHash j));
     ("bulletinRoot", JStr (j_bulletinRoot j));
     ("treeSize", JNum (j_treeSize j));
     ("totalExpected", JNum (j_totalExpected j));
     ("sthDigest", JStr (j_sthDigest j));
     ("verifiedTally", JArr (map JNum (j_verifiedTally j)));
     ("totalVotes", JNum (j_totalVotes j));
     ("validVotes", JNum (j_validVotes j));
     ("invalidVotes", JNum (j_invalidVotes j));
     ("seenIndicesCount", JNum (j_seenIndicesCount j));
     ("missingSlots", JNum (j_missingSlots j));
     ("invalidPresentedSlots", JNum (j_invalidPresentedSlots j));
     ("rejectedRecords", JNum (j_rejectedRecords j))]%string
   ++ optional "seenBitmapRoot" (JStr <$> j_seenBitmapRoot j)
   ++ [("includedBitmapRoot", JStr (j_includedBitmapRoot j));
     ("excludedSlots", JNum (j_excludedSlots j));
     ("inputCommitment", JStr (j_inputCommitment j));
     ("methodVersion", JNum (j_methodVersion j))]%string
   ++ optional "imageId" (JStr <$> j_imageId j)).

(** ** public-journal.ts *)

(** [tally[i]]; the type of the tally is a tuple of five numbers. *)
Definition tally_at (tally : list num) (i : nat) : num := List.nth i tally NNaN.

Definition toPublicZkvmJournal (j : ZkVMJournal) : result ZkVMJournal :=
  if hasLegacyJournalCountAliases (journal_value j)
  then throw "Current zkVM journal contains unsupported legacy count aliases"
  else if negb (num_eqb (j_methodVersion j) (NInt Contract.CURRENT_METHOD_VERSION)) ||
          negb (is_some (j_seenBitmapRoot j))
  then throw "Current zkVM journal is missing seenBitmapRoot"
  else
    Ok (mkJournal (j_electionId j) (j_electionConfigHash j) (j_bulletinRoot j) (j_treeSize j)
          (j_totalExpected j) (j_sthDigest j)
          [tally_at (j_verifiedTally j) 0; tally_at (j_verifiedTally j) 1; tally_at (j_verifiedTally j) 2;
           tally_at (j_verifiedTally j) 3; tally_at (j_verifiedTally j) 4]
          (j_totalVotes j) (j_validVotes j) (j_invalidVotes j) (j_seenIndicesCount j) (j_missingSlots j)
          (j_invalidPresentedSlots j) (j_rejectedRecords j) (j_seenBitmapRoot j) (j_includedBitmapRoot j)
          (j_excludedSlots j) (j_inputCommitment j) (NInt Contract.CURRENT_METHOD_VERSION) (j_imageId j)).

(** ** identifiers.ts: the brands are strings *)

Definition asHex32Identifier (value fieldName : string) : result string :=
  if negb (hex32_pattern value) then throw (fieldName +:+ " must be a 32-byte hex string")%string
  else Ok value.

Definition asElectionId (value : string) : result string :=
  if negb (UUID_PATTERN value) then throw "electionId must be a UUID" else Ok value.

Definition asLogId (value : string) : result string := asHex32Identifier value "logId".
Definition asImageId (value : string) : result string := asHex32Identifier value "imageId".
Definition asInputCommitment (value : string) : result string := asHex32Identifier value "inputCommitment".
Definition asVoteCommitment (value : string) : result string := asHex32Identifier value "commitment".
Definition asRandomness32 (value : string) : result string := asHex32Identifier value "random".

(** [/^0x0{64}$/i] *)
Definition is_zero_root (s : string) : bool :=
  hex32_pattern s && match s with
                     | String _ (String _ rest) => string_all (fun c => Ascii.eqb c "0") rest
                     | _ => false
                     end.

Definition asBulletinRoot (value : string) : result string :=
  root ← asHex32Identifier value "bulletinRoot";
  if is_zero_root root then throw "bulletinRoot must be non-zero" else Ok root.

Definition asElectionConfigHash (value : string) : result string :=
  asHex32Identifier value "electionConfigHash".
Definition asSthDigest (value : string) : result string := asHex32Identifier value "sthDigest".
Definition asSeenBitmapRoot (value : string) : result string := asHex32Identifier value "seenBitmapRoot".
Definition asIncludedBitmapRoot (value : string) : result string :=
  asHex32Identifier value "includedBitmapRoot".
Definition asMerkleNodeHash (value : string) : result string := asHex32Identifier value "merklePath node".

(** ** wire-numeric-preflight.ts *)

Definition assertRustWireNumber (value : num) (fieldName : string) (max : Z) : result unit :=
  if negb (isFinite value) then throw (fieldName +:+ " must be finite")%string
  else if negb (isInteger value) then throw (fieldName +:+ " must be an integer")%string
  else if negb (isSafeInteger value) then throw (fieldName +:+ " must be a JavaScript safe integer")%string
  else if num_ltb value (NInt 0) then throw (fieldName +:+ " must be non-negative")%string
  else if num_ltb (NInt max) value
  then throw (fieldName +:+ " exceeds Rust wire maximum " +:+ pretty max)%string
  else Ok tt.

Definition assertVoteWireNumbers (vote : Contract.VoteWithProof) (votePosition : Z) : result unit :=
  _ ← assertRustWireNumber (Contract.vote_choice vote)
        ("votes[" +:+ pretty votePosition +:+ "].choice")%string Contract.UINT8_MAX;
  assertRustWireNumber (Contract.vote_index vote)
    ("votes[" +:+ pretty votePosition +:+ "].index")%string Contract.UINT32_MAX.

(** [votes.forEach(assertVoteWireNumbers)] *)
Fixpoint assert_votes (votes : list Contract.VoteWithProof) (position : Z) : result unit :=
  match votes with
  | [] => Ok tt
  | vote :: rest => _ ← assertVoteWireNumbers vote position; assert_votes rest (position + 1)
  end.

Definition assertZkvmWireNumericPreflight (input : Contract.ZkVMInput) : result unit :=
  _ ← assertRustWireNumber (Contract.in_treeSize input) "treeSize" Contract.UINT32_MAX;
  _ ← assertRustWireNumber (Contract.in_totalExpected input) "totalExpected" Contract.UINT32_MAX;
  _ ← assertRustWireNumber (Contract.in_timestamp input) "timestamp" Contract.TS_SAFE_UINT64_MAX;
  if num_eqb (Contract.in_timestamp input) (NInt 0)
  then throw "timestamp must be positive Unix timestamp milliseconds"
  else assert_votes (Contract.in_votes input) 0.

(** ** validated-domain.ts *)

Definition validateVoteWithProof (vote : Contract.VoteWithProof) : result Contract.VoteWithProof :=
  commitment ← asVoteCommitment (Contract.vote_commitment vote);
  choice ← Contract.asVoteChoiceByte (Contract.vote_choice vote);
  random ← asRandomness32 (Contract.vote_random vote);
  index ← Contract.asBulletinIndex (Contract.vote_index vote);
  merklePath ← Contract.map_result asMerkleNodeHash (Contract.vote_merklePath vote);
  Ok (Contract.mkVoteWithProof commitment (NInt choice) random (NInt index) merklePath).

Definition toValidatedZkVMInput (input : Contract.ZkVMInput) : result Contract.ZkVMInput :=
  _ ← assertZkvmWireNumericPreflight input;
  electionId ← asElectionId (Contract.in_electionId input);
  bulletinRoot ← asBulletinRoot (Contract.in_bulletinRoot input);
  treeSize ← Contract.asTreeSize (Contract.in_treeSize input);
  logId ← asLogId (Contract.in_logId input);
  timestamp ← Contract.asUnixTimestampMillis (Contract.in_timestamp input);
  totalExpected ← Contract.asTotalExpected (Contract.in_totalExpected input);
  electionConfigHash ← asElectionConfigHash (Contract.in_electionConfigHash input);
  votes ← Contract.map_result validateVoteWithProof (Contract.in_votes input);
  Ok (Contract.mkZkVMInput electionId bulletinRoot (NInt treeSize) logId (NInt timestamp)
        (NInt totalExpected) electionConfigHash votes).

Definition count (value : num) : result num := z ← Contract.asVoteCount value; Ok (NInt z).

Definition validated_tally (tally : list num) : result (list num) :=
  Contract.map_result count
    [tally_at tally 0; tally_at tally 1; tally_at tally 2; tally_at tally 3; tally_at tally 4].

(** [asSeenBitmapRoot(journal.seenBitmapRoot)]: a text by the guard before it. *)
Definition validated_seen_root (root : option string) : result (option string) :=
  match root with
  | Some r => s ← asSeenBitmapRoot r; Ok (Some s)
  | None => throw "seenBitmapRoot must be a 32-byte hex string"
  end.

Definition validated_image_id (imageId : option string) : result (option string) :=
  match imageId with
  | Some i => if str_truthy i then s ← asImageId i; Ok (Some s) else Ok None
  | None => Ok None
  end.

Definition toValidatedCurrentZkVMJournal (j : ZkVMJournal) : result ZkVMJournal :=
  if negb (isSupportedZkVMJournal (journal_value j))
  then throw "zkVM journal does not satisfy the current journal contract"
  else
    electionId ← asElectionId (j_electionId j);
    configHash ← asElectionConfigHash (j_electionConfigHash j);
    bulletinRoot ← asBulletinRoot (j_bulletinRoot j);
    treeSize ← Contract.asTreeSize (j_treeSize j);
    totalExpected ← Contract.asTotalExpected (j_totalExpected j);
    sthDigest ← asSthDigest (j_sthDigest j);
    tally ← validated_tally (j_verifiedTally j);
    totalVotes ← count (j_totalVotes j);
    validVotes ← count (j_validVotes j);
    invalidVotes ← count (j_invalidVotes j);
    seenIndicesCount ← count (j_seenIndicesCount j);
    missingSlots ← count (j_missingSlots j);
    invalidPresentedSlots ← count (j_invalidPresentedSlots j);
    rejectedRecords ← count (j_rejectedRecords j);
    seenRoot ← validated_seen_root (j_seenBitmapRoot j);
    includedRoot ← asIncludedBitmapRoot (j_includedBitmapRoot j);
    excludedSlots ← count (j_excludedSlots j);
    inputCommitment ← asInputCommitment (j_inputCommitment j);
    imageId ← validated_image_id (j_imageId j);
    Ok (mkJournal electionId configHash bulletinRoot (NInt treeSize) (NInt totalExpected) sthDigest
          tally totalVotes validVotes invalidVotes seenIndicesCount missingSlots invalidPresentedSlots
          rejectedRecords seenRoot includedRoot excludedSlots inputCommitment
          (NInt Contract.CURRENT_METHOD_VERSION) imageId).

End Journal.

(** * What the guards promise *)

(** What the guards of the journal admit: the arithmetic of a coherent journal
    as equations of integers, the journals read from the prover host, and the
    input written to it. *)
Import JsValue.
Import LocalCast.
Import Evidence.
Import Journal.

(** A property of each element of a given list. *)
Ltac forall_list := repeat (apply Forall_cons_2; [done |]); apply Forall_nil_2.

(** ** Unsigned 32-bit counts *)

Definition u32 (z : Z) : Prop := 0 <= z <= Contract.UINT32_MAX.

Definition sumZ (l : list Z) : Z := fold_right Z.add 0 l.

Lemma num_leb_int a b : num_leb (NInt a) (NInt b) = true <-> a <= b.
Proof. unfold num_leb. cbn [num_ltb num_eqb]. rewrite orb_true_iff, Z.ltb_lt, Z.eqb_eq. lia. Qed.

Lemma uint32_spec n : isCurrentJournalUint32 (Some n) = true <-> exists z, n = NInt z /\ u32 z.
Proof.
  unfold isCurrentJournalUint32. rewrite !andb_true_iff, isSafeInteger_spec. split.
  - intros [[(z & -> & _) H0] H1]. rewrite num_leb_int in H0, H1. by exists z.
  - intros (z & -> & Hz). rewrite !num_leb_int. unfold u32, Contract.UINT32_MAX in *.
    split_and!; [| lia | lia]. exists z. unfold MAX_SAFE_INTEGER. split; [done | lia].
Qed.

Lemma positive_uint32_spec n :
  isCurrentJournalPositiveUint32 (Some n) = true <-> exists z, n = NInt z /\ 1 <= z <= Contract.UINT32_MAX.
Proof.
  unfold isCurrentJournalPositiveUint32. rewrite andb_true_iff, uint32_spec. split.
  - intros [(z & -> & Hz) H]. cbn [num_ltb] in H. apply Z.ltb_lt in H. exists z.
    unfold u32 in Hz. split; [done | lia].
  - intros (z & -> & Hz). cbn [num_ltb]. rewrite Z.ltb_lt. split; [| lia].
    exists z. unfold u32. split; [done | lia].
Qed.

Lemma addSafe_int a b : 0 <= a -> 0 <= b -> a + b <= MAX_SAFE_INTEGER ->
  addSafeIntegers (NInt a) (NInt b) = Some (NInt (a + b)).
Proof.
  intros Ha Hb H. unfold addSafeIntegers. rewrite num_add_int by (unfold MAX_SAFE_INTEGER in H; lia).
  cbn [isSafeInteger]. assert (safe_Z (a + b) = true) as ->; [| done].
  apply safe_Z_spec. lia.
Qed.

Lemma sum_is_int a b c : 0 <= a -> 0 <= b -> a + b <= MAX_SAFE_INTEGER ->
  sum_is (NInt a) (NInt b) (NInt c) = true <-> a + b = c.
Proof. intros. unfold sum_is. rewrite addSafe_int by done. apply num_eqb_int. Qed.

Lemma sumZ_bound l : Forall u32 l -> 0 <= sumZ l <= zlength l * Contract.UINT32_MAX.
Proof.
  induction 1 as [| z l Hz Hl IH]; [done |]. unfold zlength in *. cbn [sumZ fold_right length].
  fold (sumZ l). unfold u32 in Hz. lia.
Qed.

Lemma tally_total_int l : Forall u32 l -> zlength l * Contract.UINT32_MAX <= MAX_SAFE_INTEGER ->
  tally_total (map NInt l) = NInt (sumZ l).
Proof.
  intros Hl Hb. unfold tally_total.
  enough (H : forall acc, 0 <= acc -> acc + sumZ l <= MAX_SAFE_INTEGER ->
    fold_left (fun sum count => match addSafeIntegers sum count with Some s => s | None => NNaN end)
      (map NInt l) (NInt acc) = NInt (acc + sumZ l)).
  { apply (H 0); [lia |]. assert (Hs := sumZ_bound l Hl). lia. }
  clear Hb. induction Hl as [| z l Hz Hl IH]; intros acc H0 H; [simpl; f_equal; lia |].
  cbn [map fold_left]. assert (Hs := sumZ_bound l Hl). unfold u32, zlength in *.
  cbn [sumZ fold_right] in *. fold (sumZ l) in *.
  rewrite addSafe_int by nia. rewrite IH by nia. f_equal. lia.
Qed.

Lemma tally_ints tally :
  forallb (fun n => isCurrentJournalUint32 (Some n)) tally = true <->
  exists l, tally = map NInt l /\ Forall u32 l.
Proof.
  induction tally as [| n tally IH]; cbn [forallb].
  - split; [intros _; by exists [] | done].
  - rewrite andb_true_iff, uint32_spec, IH. split.
    + intros [(z & -> & Hz) (l & -> & Hl)]. exists (z :: l). split; [done | by constructor].
    + intros ([| z l] & [= -> ->] & Hl). inversion_clear Hl. split; [by exists z | by exists l].
Qed.

(** ** The slot partition and the semantics of a current journal *)

(** The partition of the vote slots, as equations: the slots seen are the
    counted and the invalid ones, the slots of the tree are the seen and the
    missing ones, and the excluded slots are the missing and the invalid ones. *)
Record slot_partition (tally : list Z) (treeSize seen missing invalid rejected excluded : Z)
    (seenRoot includedRoot : string) : Prop := {
  part_width : zlength tally = Contract.VERIFIED_TALLY_WIDTH;
  part_tally : Forall u32 tally;
  part_treeSize : 1 <= treeSize <= Contract.UINT32_MAX;
  part_counts : Forall u32 [seen; missing; invalid; rejected; excluded];
  part_roots : seenRoot <> ""%string /\ includedRoot <> ""%string;
  part_seen : sumZ tally + invalid = seen;
  part_tree : seen + missing = treeSize;
  part_rejected : invalid <= rejected;
  part_excluded : missing + invalid = excluded;
  part_all_counted : invalid = 0 -> normalizeHexString seenRoot = normalizeHexString includedRoot;
}.

Definition partition_of (tally : list Z) (treeSize seen missing invalid rejected excluded : Z)
    (seenRoot includedRoot : string) : ZkVMVoteSlotPartitionEvidence :=
  mkPartition (Some (map NInt tally)) (Some (NInt treeSize)) (Some (NInt seen)) (Some (NInt missing))
    (Some (NInt invalid)) (Some (NInt rejected)) (Some (NInt excluded)) (Some seenRoot) (Some includedRoot).

Lemma partition_sums_int tally treeSize seen missing invalid rejected excluded sr ir :
  zlength tally = Contract.VERIFIED_TALLY_WIDTH -> Forall u32 tally ->
  Forall u32 [seen; missing; invalid] ->
  partition_sums (map NInt tally) (NInt treeSize) (NInt seen) (NInt missing) (NInt invalid)
    (NInt rejected) (NInt excluded) sr ir = true <->
  sumZ tally + invalid = seen /\ seen + missing = treeSize /\ invalid <= rejected /\
  missing + invalid = excluded /\ (invalid = 0 -> normalizeHexString sr = normalizeHexString ir).
Proof.
  intros Hw Ht Hc. assert (Hs := sumZ_bound tally Ht). rewrite Hw in Hs.
  rewrite !Forall_cons in Hc. destruct Hc as (H1 & H2 & H3 & _). unfold u32 in *.
  unfold Contract.VERIFIED_TALLY_WIDTH, Contract.UINT32_MAX in *.
  assert (Hb : forall a, a <= 30000000000 -> a <= MAX_SAFE_INTEGER) by (unfold MAX_SAFE_INTEGER; lia).
  unfold partition_sums. rewrite tally_total_int by
    (try done; rewrite Hw; unfold Contract.VERIFIED_TALLY_WIDTH, Contract.UINT32_MAX; apply Hb; lia).
  assert (isSafeInteger (NInt (sumZ tally)) = true) as ->.
  { apply isSafeInteger_spec. exists (sumZ tally). split; [done |]. specialize (Hb (sumZ tally)).
    unfold MAX_SAFE_INTEGER in *. lia. }
  cbn [andb]. rewrite !andb_true_iff, orb_true_iff, !sum_is_int, num_leb_int, String.eqb_eq, negb_true_iff
    by (try (apply Hb); lia).
  rewrite <- not_true_iff_false, num_eqb_int. destruct (decide (invalid = 0)); intuition.
Qed.

Lemma partition_iff p :
  hasCoherentZkVMVoteSlotPartition p = true <->
  exists tally treeSize seen missing invalid rejected excluded sr ir,
    p = partition_of tally treeSize seen missing invalid rejected excluded sr ir /\
    slot_partition tally treeSize seen missing invalid rejected excluded sr ir.
Proof.
  split.
  - destruct p as [[tally |] [t |] [s |] [m |] [i |] [r |] [e |] [sr |] [ir |]]; try done.
    cbn -[zlength Z.eqb VOTE_CHOICES isCurrentJournalUint32 isCurrentJournalPositiveUint32 partition_sums].
    destruct (_ || _) eqn:Eg; [done |]. rewrite !orb_false_iff, !negb_false_iff in Eg.
    destruct Eg as [[[[[[[[[Hw Ht] Htr] Hs] Hm] Hi] Hr] He] Hsr] Hir].
    apply Z.eqb_eq in Hw. apply tally_ints in Ht as (l & -> & Hl).
    apply positive_uint32_spec in Htr as (zt & -> & Hzt).
    apply uint32_spec in Hs as (zs & -> & Hs), Hm as (zm & -> & Hm), Hi as (zi & -> & Hi),
      Hr as (zr & -> & Hr), He as (ze & -> & He).
    unfold zlength in Hw. rewrite length_map in Hw.
    rewrite partition_sums_int by (done || forall_list). intros (?&?&?&?&?).
    exists l, zt, zs, zm, zi, zr, ze, sr, ir. split; [done |].
    constructor; try done; [forall_list | by split; intros ->].
  - intros (l & t & s & m & i & r & e & sr & ir & -> & [Hw Hl Ht Hc [Hsr Hir] ? ? ? ? ?]).
    unfold partition_of.
    cbn -[zlength Z.eqb VOTE_CHOICES isCurrentJournalUint32 isCurrentJournalPositiveUint32 partition_sums].
    rewrite !Forall_cons in Hc. destruct Hc as (Hs & Hm & Hi & Hr & He & _).
    assert (U : forall z, u32 z -> isCurrentJournalUint32 (Some (NInt z)) = true)
      by (intros z Hz; apply uint32_spec; by exists z).
    rewrite !U by done. rewrite (proj2 (tally_ints (map NInt l))) by (by exists l).
    rewrite (proj2 (positive_uint32_spec (NInt t))) by (by exists t).
    assert (zlength (map NInt l) = zlength VOTE_CHOICES) as ->
      by (unfold zlength in *; by rewrite length_map).
    rewrite Z.eqb_refl. destruct sr; [done |]. destruct ir; [done |]. cbn [negb orb str_truthy].
    by apply partition_sums_int; [| | forall_list |].
Qed.

(** The totals of a current journal: the counted votes are the tally's, the
    votes processed are the valid and the invalid ones, and each invalid vote
    is a rejected record. *)
Record journal_totals (tally : list Z) (rejected totalExpected totalVotes validVotes invalidVotes : Z) : Prop := {
  tot_counts : Forall u32 [totalExpected; totalVotes; validVotes; invalidVotes];
  tot_tally : sumZ tally = validVotes;
  tot_votes : validVotes + invalidVotes = totalVotes;
  tot_rejected : rejected = invalidVotes;
}.

Lemma journal_semantics_spec e :
  hasCoherentCurrentZkVMJournalSemantics e = true <->
  exists tally treeSize seen missing invalid rejected excluded sr ir te tv vv iv,
    e = mkSemanticEvidence (partition_of tally treeSize seen missing invalid rejected excluded sr ir)
          (Some (NInt te)) (Some (NInt tv)) (Some (NInt vv)) (Some (NInt iv)) /\
    slot_partition tally treeSize seen missing invalid rejected excluded sr ir /\
    journal_totals tally rejected te tv vv iv.
Proof.
  assert (Hsafe : forall a b, u32 a -> u32 b -> a + b <= MAX_SAFE_INTEGER)
    by (unfold u32, Contract.UINT32_MAX, MAX_SAFE_INTEGER; lia).
  split.
  - unfold hasCoherentCurrentZkVMJournalSemantics. destruct e as [p te tv vv iv].
    cbn [e_partition e_totalExpected e_totalVotes e_validVotes e_invalidVotes].
    destruct (_ || _) eqn:Eg; [done |]. rewrite !orb_false_iff, !negb_false_iff in Eg.
    destruct Eg as [[[[Hp Hte] Htv] Hvv] Hiv].
    apply partition_iff in Hp as (l & t & s & m & i & r & ex & sr & ir & -> & Hp).
    destruct te as [te |], tv as [tv |], vv as [vv |], iv as [iv |]; try done.
    apply uint32_spec in Hte as (zte & -> & Hte), Htv as (ztv & -> & Htv), Hvv as (zvv & -> & Hvv),
      Hiv as (ziv & -> & Hiv).
    cbn [partition_of p_verifiedTally p_rejectedRecords]. destruct (Hp) as [Hw Hl].
    rewrite tally_total_int by (done || (rewrite Hw; done)).
    rewrite !andb_true_iff, !num_eqb_int, sum_is_int by (unfold u32 in *; auto || lia).
    intros [[Ht Hv] Hr]. exists l, t, s, m, i, r, ex, sr, ir, zte, ztv, zvv, ziv.
    split_and!; [done | done |]. constructor; try done. forall_list.
  - intros (l & t & s & m & i & r & ex & sr & ir & te & tv & vv & iv & -> & Hp & [Hc Ht Hv Hr]).
    rewrite !Forall_cons in Hc. destruct Hc as (Hte & Htv & Hvv & Hiv & _).
    unfold hasCoherentCurrentZkVMJournalSemantics.
    cbn [e_partition e_totalExpected e_totalVotes e_validVotes e_invalidVotes].
    assert (U : forall z, u32 z -> isCurrentJournalUint32 (Some (NInt z)) = true)
      by (intros z Hz; apply uint32_spec; by exists z).
    rewrite !U by done. rewrite (proj2 (partition_iff _)) by (by exists l, t, s, m, i, r, ex, sr, ir).
    cbn [negb orb partition_of p_verifiedTally p_rejectedRecords]. destruct (Hp) as [Hw Hl].
    rewrite tally_total_int by (done || (rewrite Hw; done)).
    rewrite !andb_true_iff, !num_eqb_int, sum_is_int by (unfold u32 in *; auto || lia). done.
Qed.

(** The guard on the numbers of a journal is exactly the arithmetic of a
    coherent journal: it accepts a journal if and only if every count is an
    unsigned 32-bit integer, the tally has five entries, and the equations of
    the slot partition and of the totals hold. In particular no sum wraps or
    loses precision on the way. *)
Theorem journal_semantics_iff e :
  hasCoherentCurrentZkVMJournalSemantics e = true <->
  exists tally treeSize seen missing invalid rejected excluded sr ir te tv vv iv,
    e = mkSemanticEvidence (partition_of tally treeSize seen missing invalid rejected excluded sr ir)
          (Some (NInt te)) (Some (NInt tv)) (Some (NInt vv)) (Some (NInt iv)) /\
    slot_partition tally treeSize seen missing invalid rejected excluded sr ir /\
    journal_totals tally rejected te tv vv iv.
Proof. apply journal_semantics_spec. Qed.

(** ** Admitted journals *)

Definition journal_evidence (j : ZkVMJournal) : CurrentZkVMJournalSemanticEvidence :=
  mkSemanticEvidence
    (mkPartition (Some (j_verifiedTally j)) (Some (j_treeSize j)) (Some (j_seenIndicesCount j))
       (Some (j_missingSlots j)) (Some (j_invalidPresentedSlots j)) (Some (j_rejectedRecords j))
       (Some (j_excludedSlots j)) (j_seenBitmapRoot j) (Some (j_includedBitmapRoot j)))
    (Some (j_totalExpected j)) (Some (j_totalVotes j)) (Some (j_validVotes j)) (Some (j_invalidVotes j)).

(** The properties of [v] are the fields of [j], each with the type of the
    interface [CurrentZkVMJournal]. *)
Record reads_journal (v : jsval) (j : ZkVMJournal) : Prop := {
  r_texts : Forall (fun kv => prop v kv.1 = JStr kv.2)
    [("electionId", j_electionId j); ("electionConfigHash", j_electionConfigHash j);
     ("bulletinRoot", j_bulletinRoot j); ("sthDigest", j_sthDigest j);
     ("includedBitmapRoot", j_includedBitmapRoot j); ("inputCommitment", j_inputCommitment j)]%string;
  r_numbers : Forall (fun kv => prop v kv.1 = JNum kv.2 /\ isFinite kv.2 = true)
    [("treeSize", j_treeSize j); ("totalExpected", j_totalExpected j); ("totalVotes", j_totalVotes j);
     ("validVotes", j_validVotes j); ("invalidVotes", j_invalidVotes j);
     ("seenIndicesCount", j_seenIndicesCount j); ("missingSlots", j_missingSlots j);
     ("invalidPresentedSlots", j_invalidPresentedSlots j); ("rejectedRecords", j_rejectedRecords j);
     ("excludedSlots", j_excludedSlots j); ("methodVersion", j_methodVersion j)]%string;
  r_tally : prop v "verifiedTally" = JArr (map JNum (j_verifiedTally j)) /\
            Forall (fun n => isFinite n = true) (j_verifiedTally j);
  r_seen : as_string (prop v "seenBitmapRoot") = j_seenBitmapRoot j;
  r_image : as_string (prop v "imageId") = j_imageId j;
}.

(** A journal of the current contract: what the guard promises to its callers. *)
Record current_journal (j : ZkVMJournal) : Prop := {
  cur_uuid : UUID_PATTERN (j_electionId j) = true;
  cur_hashes : Forall (fun s => isValidHexString s (Some HASH_BYTE_LENGTH) = true)
    [j_electionConfigHash j; j_bulletinRoot j; j_sthDigest j; j_includedBitmapRoot j; j_inputCommitment j];
  cur_seen : exists sr, j_seenBitmapRoot j = Some sr /\ isValidHexString sr (Some HASH_BYTE_LENGTH) = true;
  cur_image : match j_imageId j with
              | Some i => isValidHexString i (Some IMAGE_ID_BYTE_LENGTH) = true
              | None => True
              end;
  cur_numbers : hasCoherentCurrentZkVMJournalSemantics (journal_evidence j) = true;
  cur_version : j_methodVersion j = NInt Contract.CURRENT_METHOD_VERSION;
}.

Lemma isJournalHash_Some o : isJournalHash o = true <->
  exists s, o = Some s /\ isValidHexString s (Some HASH_BYTE_LENGTH) = true.
Proof.
  destruct o as [s |]; cbn [isJournalHash]; [| split; [done | by intros (? & ? & _)]].
  rewrite andb_true_iff. split.
  - intros [_ H]. by exists s.
  - intros (? & [= <-] & H). split; [| done]. unfold isValidHexString in H. by destruct (str_truthy s).
Qed.

Lemma string_property v key s : getStringProperty v key = Some s <-> prop v key = JStr s.
Proof. unfold getStringProperty. destruct (prop v key); simpl; split; congruence. Qed.

Lemma number_property v key n :
  getNumberProperty v key = Some n <-> prop v key = JNum n /\ isFinite n = true.
Proof.
  unfold getNumberProperty, isNumber. destruct (prop v key) as [| | | m | | | |]; simpl;
    try (split; [done | by intros [? _]]).
  destruct (isFinite m) eqn:E; split; try done; [by intros [= <-] | by intros [[= <-] _] |].
  intros [[= <-] ?]. congruence.
Qed.

Lemma numbers_all_some l ns :
  all_some isNumber l = Some ns <-> l = map JNum ns /\ Forall (fun n => isFinite n = true) ns.
Proof.
  rewrite all_some_Some. split.
  - induction 1 as [| v n l ns Hv Hf [-> Hfin]]; [done |].
    unfold isNumber in Hv. destruct v as [| | | m | | | |]; try done.
    destruct (isFinite m) eqn:Em; [| done]. injection Hv as ->. split; [done | by constructor].
  - intros [-> Hf]. induction Hf as [| n ns Hn Hf IH]; constructor; [| done].
    unfold isNumber. by rewrite Hn.
Qed.

Lemma tally_property v key ns : getNumberArrayProperty v key = Some ns <->
  prop v key = JArr (map JNum ns) /\ Forall (fun n => isFinite n = true) ns.
Proof.
  unfold getNumberArrayProperty, isNumberArray. destruct (prop v key) as [| | | | | l | |];
    try (split; [done | by intros [? _]]).
  rewrite numbers_all_some. split; intros [H ?]; (split; [| done]); congruence.
Qed.

Lemma semantic_fields v : hasCoherentCurrentZkVMJournalSemantics (semantic_evidence v) = true ->
  is_Some (getNumberArrayProperty v "verifiedTally") /\
  Forall (fun key => is_Some (getNumberProperty v key))
    ["treeSize"; "seenIndicesCount"; "missingSlots"; "invalidPresentedSlots"; "rejectedRecords";
     "excludedSlots"; "totalExpected"; "totalVotes"; "validVotes"; "invalidVotes"]%string.
Proof.
  intros (l & t & s & m & i & r & ex & sr & ir & te & tv & vv & iv & E & _)%journal_semantics_spec.
  unfold semantic_evidence, partition_of in E. injection E as ?????????????.
  split; [by eexists |]. repeat (apply Forall_cons_2; [eexists; eassumption |]). apply Forall_nil_2.
Qed.

Lemma all_keys (P : string -> Prop) (keys : list string) :
  Forall P keys -> forall key, bool_decide (key ∈ keys) = true -> P key.
Proof. intros H key Hk%bool_decide_eq_true. by apply (proj1 (Forall_forall P keys)). Qed.

Lemma read_text v key : is_Some (getStringProperty v key) -> prop v key = JStr (text_at v key).
Proof. intros [s E]. unfold text_at. rewrite E. by apply string_property. Qed.

Lemma text_value v key s : getStringProperty v key = Some s -> text_at v key = s.
Proof. unfold text_at. by intros ->. Qed.

Lemma read_number v key : is_Some (getNumberProperty v key) ->
  prop v key = JNum (number_at v key) /\ isFinite (number_at v key) = true.
Proof. intros [n E]. unfold number_at. rewrite E. by apply number_property. Qed.

Lemma supported_parts v :
  isSupportedZkVMJournal v = true <->
  isCurrentJournalRecord v = true /\
  (exists e, getStringProperty v "electionId" = Some e /\ str_truthy e = true /\ UUID_PATTERN e = true) /\
  Forall (fun key => exists s, getStringProperty v key = Some s /\
            isValidHexString s (Some HASH_BYTE_LENGTH) = true) JOURNAL_HASH_KEYS /\
  match getStringProperty v "imageId" with
  | Some i => isValidHexString i (Some IMAGE_ID_BYTE_LENGTH) = true
  | None => True
  end /\
  hasCoherentCurrentZkVMJournalSemantics (semantic_evidence v) = true /\
  getNumberProperty v "methodVersion" = Some (NInt Contract.CURRENT_METHOD_VERSION).
Proof.
  assert (Hh : forallb (fun key => isJournalHash (getStringProperty v key)) JOURNAL_HASH_KEYS = true <->
    Forall (fun key => exists s, getStringProperty v key = Some s /\
            isValidHexString s (Some HASH_BYTE_LENGTH) = true) JOURNAL_HASH_KEYS).
  { rewrite forallb_forall, Forall_forall. setoid_rewrite list_elem_of_In. by setoid_rewrite isJournalHash_Some. }
  assert (Hv : isSupportedJournalMethodVersion (getNumberProperty v "methodVersion") = true <->
    getNumberProperty v "methodVersion" = Some (NInt Contract.CURRENT_METHOD_VERSION)).
  { destruct (getNumberProperty v "methodVersion") as [n |]; cbn [isSupportedJournalMethodVersion]; [| done].
    rewrite andb_true_iff, num_eqb_int_r. split; [intros [_ ->]; done | intros [= ->]; done]. }
  rewrite <- Hh, <- Hv. unfold isSupportedZkVMJournal.
  destruct (isCurrentJournalRecord v); cbn [negb]; [| by split; [| intros (? & _)]].
  destruct (getStringProperty v "electionId") as [e |]; cbn [negb];
    [| by split; [| intros (_ & (? & ? & _) & _)]].
  destruct (str_truthy e && UUID_PATTERN e) eqn:Ee; cbn [negb];
    [| split; [done |]; intros (_ & (? & [= <-] & H1 & H2) & _); by rewrite H1, H2 in Ee].
  apply andb_true_iff in Ee as [E1 E2].
  destruct (forallb _ JOURNAL_HASH_KEYS); cbn [negb]; [| split; [done |]; by intros (_ & _ & ? & _)].
  destruct (getStringProperty v "imageId") as [i |].
  - destruct (isValidHexString i _); cbn [negb]; [| split; [done |]; by intros (_ & _ & _ & ? & _)].
    destruct (hasCoherentCurrentZkVMJournalSemantics _); cbn [negb];
      [| split; [done |]; by intros (_ & _ & _ & _ & ? & _)].
    split; [intros H; split_and!; try done; by exists e | by intros (_ & _ & _ & _ & _ & ?)].
  - destruct (hasCoherentCurrentZkVMJournalSemantics _); cbn [negb];
      [| split; [done |]; by intros (_ & _ & _ & _ & ? & _)].
    split; [intros H; split_and!; try done; by exists e | by intros (_ & _ & _ & _ & _ & ?)].
Qed.

Lemma read_evidence v :
  hasCoherentCurrentZkVMJournalSemantics (semantic_evidence v) = true ->
  is_Some (getStringProperty v "includedBitmapRoot") ->
  journal_evidence (read_journal v) = semantic_evidence v.
Proof.
  intros [[tally Ht] Hn]%semantic_fields [ir Hir]. rewrite !Forall_cons in Hn.
  destruct Hn as ([? E1] & [? E2] & [? E3] & [? E4] & [? E5] & [? E6] & [? E7] & [? E8] & [? E9] & [? E10] & _).
  unfold journal_evidence, semantic_evidence, read_journal, number_at, text_at. cbn.
  by rewrite Ht, Hir, E1, E2, E3, E4, E5, E6, E7, E8, E9, E10.
Qed.

Lemma supported_reads v :
  isSupportedZkVMJournal v = true -> reads_journal v (read_journal v) /\ current_journal (read_journal v).
Proof.
  intros (Hr & (e & He & _ & Hu) & Hh & Hi & Hs & Hv)%supported_parts.
  unfold JOURNAL_HASH_KEYS in Hh. rewrite !Forall_cons in Hh.
  destruct Hh as ((h1 & A1 & B1) & (h2 & A2 & B2) & (h3 & A3 & B3) & (h4 & A4 & B4) & (h5 & A5 & B5) & (h6 & A6 & B6) & _).
  assert (Hev := read_evidence v Hs (ex_intro _ _ A4)).
  destruct (semantic_fields v Hs) as [[tally Ht] Hn]. rewrite !Forall_cons in Hn.
  destruct Hn as (N1 & N2 & N3 & N4 & N5 & N6 & N7 & N8 & N9 & N10 & _).
  split; constructor.
  - repeat (apply Forall_cons_2; [apply read_text; by eexists |]). apply Forall_nil_2.
  - repeat (apply Forall_cons_2; [apply read_number; first [done | by eexists] |]). apply Forall_nil_2.
  - apply tally_property. change (getNumberArrayProperty v "verifiedTally" =
      Some (default [] (getNumberArrayProperty v "verifiedTally"))). by rewrite Ht.
  - done.
  - done.
  - change (UUID_PATTERN (text_at v "electionId") = true). by rewrite (text_value _ _ _ He).
  - change (Forall (fun s => isValidHexString s (Some HASH_BYTE_LENGTH) = true)
      (map (text_at v) ["electionConfigHash"; "bulletinRoot"; "sthDigest"; "includedBitmapRoot";
                        "inputCommitment"]%string)).
    cbn [map]. rewrite (text_value _ _ _ A1), (text_value _ _ _ A2), (text_value _ _ _ A3),
      (text_value _ _ _ A4), (text_value _ _ _ A5). forall_list.
  - by exists h6.
  - done.
  - by rewrite Hev.
  - change (number_at v "methodVersion" = NInt Contract.CURRENT_METHOD_VERSION). unfold number_at. by rewrite Hv.
Qed.

(** The counts of a current journal, as integers that balance. *)
Lemma current_counts j : current_journal j ->
  exists treeSize valid excluded total rejected expected,
    j_treeSize j = NInt treeSize /\ j_validVotes j = NInt valid /\ j_excludedSlots j = NInt excluded /\
    j_totalVotes j = NInt total /\ j_rejectedRecords j = NInt rejected /\ j_totalExpected j = NInt expected /\
    Forall u32 [treeSize; valid; excluded; total; rejected] /\ 0 < treeSize /\
    valid + excluded = treeSize /\ valid + rejected = total.
Proof.
  intros Hc. destruct (proj1 (journal_semantics_spec _) (cur_numbers _ Hc)) as
    (l & t & s & m & i & r & ex & sr & ir & te & tv & vv & iv & E & Hp & Ht).
  unfold journal_evidence, partition_of in E. injection E as ?????????????.
  exists t, vv, ex, tv, r, te. destruct Hp as [_ _ Ht1 Hpc _ Hseen Htree _ Hex _]. destruct Ht as [Htc Htt Htv Htr].
  rewrite !Forall_cons in Hpc. rewrite !Forall_cons in Htc.
  destruct Hpc as (_ & _ & _ & ? & ? & _), Htc as (_ & ? & ? & _ & _).
  split_and!; try done; [| lia | lia | lia]. unfold u32 in *.
  repeat (apply Forall_cons_2; [lia |]). apply Forall_nil_2.
Qed.

(** C15: An admitted journal is the journal it claims to be: when the guard
    accepts a value of unknown shape, every field of the current journal is
    there with its type, the identifiers are well formed, the version is the
    current one, and the counts balance: each slot of the tree is counted or
    excluded, each vote processed is valid or rejected. *)
Theorem supported_journal_balances v :
  isSupportedZkVMJournal v = true ->
  reads_journal v (read_journal v) /\ current_journal (read_journal v) /\
  exists treeSize valid excluded total rejected,
    j_treeSize (read_journal v) = NInt treeSize /\ j_validVotes (read_journal v) = NInt valid /\
    j_excludedSlots (read_journal v) = NInt excluded /\ j_totalVotes (read_journal v) = NInt total /\
    j_rejectedRecords (read_journal v) = NInt rejected /\
    Forall u32 [treeSize; valid; excluded; total; rejected] /\ 0 < treeSize /\
    valid + excluded = treeSize /\ valid + rejected = total.
Proof.
  intros H. destruct (supported_reads v H) as [Hr Hc]. split_and!; [done | done |].
  destruct (current_counts _ Hc) as (t & vv & ex & tv & r & te & ? & ? & ? & ? & ? & _ & ?). by exists t, vv, ex, tv, r.
Qed.
