(* ===== verification/HostIo.v ===== *)
(** The JSON boundary with the prover host
    (packages/zkvm-contract/src/zkvm: host-io.ts, bitmap-artifacts.ts): the
    input written for the Rust host, the output read back from it, and the
    bitmap artifacts published beside the journal. *)
From stdpp Require Import pretty.
From S2P Require Import Prelude.
From S2P Require Import JsNumber.
From S2P Require Import JsValue.
From S2P Require Import Hex.
From S2P Require Import Bitmap.
From S2P Require Import Contract.
From S2P Require Import Evidence.
From S2P Require Import Journal.
Import JsValue.
Import Evidence.
Import Journal.

Module HostIo.

(** ** Node's [Buffer] *)

Definition hex_char (n : Z) : ascii :=
  if Z.ltb n 10 then ascii_of_nat (Z.to_nat (48 + n)) else ascii_of_nat (Z.to_nat (87 + n)).

(** [Buffer.from(bytes).toString('hex')] *)
Fixpoint buffer_to_hex (data : bytes) : string :=
  match data with
  | [] => EmptyString
  | b :: rest => String (hex_char (b / 16)) (String (hex_char (b mod 16)) (buffer_to_hex rest))
  end.

Definition hex_value (c : ascii) : option Z :=
  let n := char_code c in
  if code_between 48 57 c then Some (n - 48)
  else if code_between 97 102 c then Some (n - 87)
  else if code_between 65 70 c then Some (n - 55)
  else None.

(** [Array.from(Buffer.from(text, 'hex'))]: the pairs up to the first that is
    not two digits. *)
Fixpoint buffer_from_hex (s : string) : bytes :=
  match s with
  | String a (String b rest) =>
      match hex_value a, hex_value b with
      | Some x, Some y => (16 * x + y) :: buffer_from_hex rest
      | _, _ => []
      end
  | _ => []
  end.

(** ** The input of the host *)

Record AggregatorVoteJson := mkAggregatorVote {
  av_commitment : bytes;
  av_choice : num;
  av_random : bytes;
  av_index : num;
  av_merkle_path : list bytes;
}.

Record AggregatorInputJson := mkAggregatorInput {
  ai_election_id : bytes;
  ai_bulletin_root : bytes;
  ai_tree_size : num;
  ai_log_id : bytes;
  ai_timestamp : num;
  ai_total_expected : num;
  ai_election_config_hash : bytes;
  ai_votes : list AggregatorVoteJson;
}.

(** [text.padStart(n, '0')] *)
Fixpoint zero_text (n : nat) : string := match n with O => EmptyString | S n => String "0" (zero_text n) end.

Definition padStart (s : string) (n : Z) : string := (zero_text (Z.to_nat (n - slen s)) +:+ s)%string.

Definition hexToBytes (value : string) (expectedBytes : Z) : result bytes :=
  let clean := normalizeHexString value in
  if Z.ltb (expectedBytes * 2) (slen clean)
  then throw ("Hex value " +:+ value +:+ " exceeds " +:+ pretty expectedBytes +:+ " bytes")%string
  else Ok (buffer_from_hex (padStart clean (expectedBytes * 2))).

Definition uuidToBytes (uuid : string) : result bytes :=
  let clean := Contract.remove_dashes uuid in
  if negb (Z.eqb (slen clean) 32)
  then throw ("ElectionId must be a UUID v4 string, received " +:+ uuid)%string
  else Ok (buffer_from_hex clean).

Definition serialize_vote (vote : Contract.VoteWithProof) : result AggregatorVoteJson :=
  commitment ← hexToBytes (Contract.vote_commitment vote) 32;
  random ← hexToBytes (Contract.vote_random vote) 32;
  path ← Contract.map_result (fun node => hexToBytes node 32) (Contract.vote_merklePath vote);
  Ok (mkAggregatorVote commitment (Contract.vote_choice vote) random (Contract.vote_index vote) path).

Definition serializeZkvmAggregatorInput (input : Contract.ZkVMInput) : result AggregatorInputJson :=
  validated ← toValidatedZkVMInput input;
  election_id ← uuidToBytes (Contract.in_electionId validated);
  bulletin_root ← hexToBytes (Contract.in_bulletinRoot validated) 32;
  log_id ← hexToBytes (Contract.in_logId validated) 32;
  config_hash ← hexToBytes (Contract.in_electionConfigHash validated) 32;
  votes ← Contract.map_result serialize_vote (Contract.in_votes validated);
  Ok (mkAggregatorInput election_id bulletin_root (Contract.in_treeSize validated) log_id
        (Contract.in_timestamp validated) (Contract.in_totalExpected validated) config_hash votes).

(** ** The output of the host *)

Definition missing {A} (fieldName : string) : result A :=
  throw ("Current zkVM host output missing " +:+ fieldName)%string.
Definition invalid {A} (fieldName : string) : result A :=
  throw ("Current zkVM host output invalid " +:+ fieldName)%string.

(** [Number.isInteger(entry) && entry >= 0 && entry <= 255] *)
Definition as_byte (v : jsval) : option Z :=
  match v with
  | JNum (NInt z) => if Z.leb 0 z && Z.leb z 255 then Some z else None
  | _ => None
  end.

Definition byte_array (v : jsval) : option bytes :=
  match v with
  | JBytes data => Some data
  | JArr items => all_some as_byte items
  | _ => None
  end.

Definition parseHexField (value : jsval) : option string :=
  match value with
  | JStr s => if Z.eqb (slen s) 0 then None else Some (addHexPrefix (normalizeHexString s))
  | _ => (fun data => addHexPrefix (buffer_to_hex data)) <$> byte_array value
  end.

Definition getRequiredHexField (record : jsval) (fieldName : string) (expectedBytes : Z) : result string :=
  match prop record fieldName with
  | JUndefined => missing fieldName
  | value =>
      match parseHexField value with
      | Some parsed =>
          if str_truthy parsed && isValidHexString parsed (Some expectedBytes) then Ok parsed
          else invalid fieldName
      | None => invalid fieldName
      end
  end.

Definition compactToUuid (compactHex : string) : string :=
  let hex := to_lower compactHex in
  (String.substring 0 8 hex +:+ "-" +:+ String.substring 8 4 hex +:+ "-" +:+
   String.substring 12 4 hex +:+ "-" +:+ String.substring 16 4 hex +:+ "-" +:+
   String.substring 20 12 hex)%string.

Definition formatUuidField (value : jsval) : option string :=
  match value with
  | JStr s =>
      let compact := Contract.remove_dashes s in
      if matches (repeat is_hex 32) compact then Some (compactToUuid compact) else None
  | _ =>
      match byte_array value with
      | Some data => if Z.eqb (zlength data) 16 then Some (compactToUuid (buffer_to_hex data)) else None
      | None => None
      end
  end.

(** The pattern of this file leaves version and variant open. *)
Definition host_uuid_pattern (s : string) : bool := matches (uuid_classes is_hex is_hex) s.

Definition getRequiredUuidField (record : jsval) (fieldName : string) : result string :=
  match prop record fieldName with
  | JUndefined => missing fieldName
  | raw =>
      match formatUuidField raw with
      | Some value => if str_truthy value && host_uuid_pattern value then Ok value else invalid fieldName
      | None => invalid fieldName
      end
  end.

Definition getRequiredNumberField (record : jsval) (fieldName : string) : result num :=
  match getNumberProperty record fieldName with Some n => Ok n | None => missing fieldName end.

Definition getRequiredNumberArrayField (record : jsval) (fieldName : string) (expectedLength : Z) :
    result (list num) :=
  match getNumberArrayProperty record fieldName with
  | None => missing fieldName
  | Some value =>
      if negb (Z.eqb (zlength value) expectedLength) ||
         negb (forallb (fun entry => isInteger entry && num_leb (NInt 0) entry) value)
      then invalid fieldName
      else match value with
           | first :: second :: third :: fourth :: fifth :: _ => Ok [first; second; third; fourth; fifth]
           | _ => invalid fieldName
           end
  end.

Definition normalizeImageId (value : option string) : option string :=
  match value with
  | Some s => if Z.eqb (slen s) 0 then None else Some (addHexPrefix (normalizeHexString s))
  | None => None
  end.

Definition getRequiredImageIdField (record : jsval) (fieldName : string) : result string :=
  match normalizeImageId (getStringProperty record fieldName) with
  | None => missing fieldName
  | Some normalized =>
      if negb (isValidHexString normalized (Some IMAGE_ID_BYTE_LENGTH)) then invalid fieldName
      else Ok normalized
  end.

(** [{ ...journal, imageId }] *)
Definition set_image_id (j : ZkVMJournal) (imageId : string) : ZkVMJournal :=
  mkJournal (j_electionId j) (j_electionConfigHash j) (j_bulletinRoot j) (j_treeSize j)
    (j_totalExpected j) (j_sthDigest j) (j_verifiedTally j) (j_totalVotes j) (j_validVotes j)
    (j_invalidVotes j) (j_seenIndicesCount j) (j_missingSlots j) (j_invalidPresentedSlots j)
    (j_rejectedRecords j) (j_seenBitmapRoot j) (j_includedBitmapRoot j) (j_excludedSlots j)
    (j_inputCommitment j) (j_methodVersion j)
    (if str_truthy imageId then Some imageId else j_imageId j).

(** The literal [journalCandidate]: the fields of the journal, in order. *)
Definition journal_candidate (output : jsval) : result ZkVMJournal :=
  electionId ← getRequiredUuidField output "electionId";
  electionConfigHash ← getRequiredHexField output "electionConfigHash" HASH_BYTE_LENGTH;
  bulletinRoot ← getRequiredHexField output "bulletinRoot" HASH_BYTE_LENGTH;
  treeSize ← getRequiredNumberField output "treeSize";
  totalExpected ← getRequiredNumberField output "totalExpected";
  sthDigest ← getRequiredHexField output "sthDigest" HASH_BYTE_LENGTH;
  verifiedTally ← getRequiredNumberArrayField output "verifiedTally" Contract.VERIFIED_TALLY_WIDTH;
  totalVotes ← getRequiredNumberField output "totalVotes";
  validVotes ← getRequiredNumberField output "validVotes";
  invalidVotes ← getRequiredNumberField output "invalidVotes";
  seenIndicesCount ← getRequiredNumberField output "seenIndicesCount";
  missingSlots ← getRequiredNumberField output "missingSlots";
  invalidPresentedSlots ← getRequiredNumberField output "invalidPresentedSlots";
  rejectedRecords ← getRequiredNumberField output "rejectedRecords";
  seenBitmapRoot ← getRequiredHexField output "seenBitmapRoot" HASH_BYTE_LENGTH;
  includedBitmapRoot ← getRequiredHexField output "includedBitmapRoot" HASH_BYTE_LENGTH;
  excludedSlots ← getRequiredNumberField output "excludedSlots";
  inputCommitment ← getRequiredHexField output "inputCommitment" HASH_BYTE_LENGTH;
  Ok (mkJournal electionId electionConfigHash bulletinRoot treeSize totalExpected sthDigest
        verifiedTally totalVotes validVotes invalidVotes seenIndicesCount missingSlots
        invalidPresentedSlots rejectedRecords (Some seenBitmapRoot) includedBitmapRoot excludedSlots
        inputCommitment (NInt Contract.CURRENT_METHOD_VERSION) None).

(** A number printed in the text of an exception is left out. *)
Definition parseCurrentHostExecutionResult (output : jsval) : result ZkVMJournal :=
  if negb (Z.eqb (zlength (object_keys output)) (zlength CURRENT_JOURNAL_KEYS)) ||
     existsb (fun key => negb (bool_decide (key ∈ CURRENT_JOURNAL_KEYS))) (object_keys output)
  then throw "Current zkVM host output must contain the exact current fields"
  else
    methodVersion ← getRequiredNumberField output "methodVersion";
    if negb (num_eqb methodVersion (NInt Contract.CURRENT_METHOD_VERSION))
    then throw "Unsupported zkVM host output methodVersion"
    else
      candidate ← journal_candidate output;
      journal ← toValidatedCurrentZkVMJournal candidate;
      imageId ← getRequiredImageIdField output "imageId";
      Ok (set_image_id journal imageId).

Definition parseHostZkVMOutput (output : jsval) : result ZkVMJournal :=
  if negb (isNonNullObject output) then throw "Current zkVM host output must be an object"
  else parseCurrentHostExecutionResult output.

(** ** bitmap-artifacts.ts: the included and the seen bitmap differ in names *)

Inductive BitmapArtifactKind : Type := included_bitmap | seen_bitmap.

Definition kind_label (k : BitmapArtifactKind) : string :=
  match k with included_bitmap => "included" | seen_bitmap => "seen" end.

Definition artifact_schema (k : BitmapArtifactKind) : string :=
  ("stark-ballot." +:+ kind_label k +:+ "_bitmap")%string.
Definition artifact_version : string := "1.0".
Definition root_key (k : BitmapArtifactKind) : string := (kind_label k +:+ "BitmapRoot")%string.
Definition bitmap_key (k : BitmapArtifactKind) : string := (kind_label k +:+ "Bitmap")%string.

Definition artifact_keys (k : BitmapArtifactKind) : list string :=
  ["schema"; "version"; "treeSize"; root_key k; bitmap_key k]%string.

(** [IncludedBitmapArtifact] and [SeenBitmapArtifact]; schema and version are
    constants of the kind. *)
Record BitmapArtifact := mkArtifact {
  artifact_treeSize : num;
  artifact_root : string;
  artifact_bitmap : list bool;
}.

Definition normalizeBitmapRoot (root : string) : string := ("0x" +:+ normalizeHexString root)%string.

Section with_noble.
Context `{Noble}.

Definition validateBitmapArtifact (bitmap : list bool) (root : string) (treeSize : num)
    (label : string) : result string :=
  if negb (isSafeInteger treeSize) || num_ltb treeSize (NInt 0)
  then throw ("Invalid treeSize for " +:+ label +:+ " bitmap artifact")%string
  else if negb (num_eqb (NInt (zlength bitmap)) treeSize)
  then throw (label +:+ " bitmap length must match treeSize")%string
  else
    let normalizedRoot := normalizeBitmapRoot root in
    if negb (isValidHexString normalizedRoot (Some 32))
    then throw ("Invalid " +:+ label +:+ "BitmapRoot for " +:+ label +:+ " bitmap artifact")%string
    else
      computedRoot ← Bitmap.computeIncludedBitmapRootHex bitmap;
      if negb (String.eqb (normalizeHexString computedRoot) (normalizeHexString normalizedRoot))
      then throw (label +:+ " bitmap root mismatch")%string
      else Ok normalizedRoot.

(** [createIncludedBitmapArtifact], [createSeenBitmapArtifact] *)
Definition createBitmapArtifact (k : BitmapArtifactKind) (bitmap : list bool) (root : string)
    (treeSize : num) : result BitmapArtifact :=
  normalizedRoot ← validateBitmapArtifact bitmap root treeSize (kind_label k);
  Ok (mkArtifact treeSize normalizedRoot bitmap).

Definition has_text (v : jsval) (text : string) : bool :=
  match v with JStr s => String.eqb s text | _ => false end.

(** [parseIncludedBitmapArtifact], [parseSeenBitmapArtifact]; [None] is [null]. *)
Definition parseBitmapArtifact (k : BitmapArtifactKind) (value : jsval) : result (option BitmapArtifact) :=
  if negb (isNonNullObject value) || negb (hasExactOwnKeys value (artifact_keys k)) then Ok None
  else if negb (has_text (prop value "schema") (artifact_schema k)) ||
          negb (has_text (prop value "version") artifact_version) then Ok None
  else
    match prop value "treeSize", prop value (root_key k), isBooleanArray (prop value (bitmap_key k)) with
    | JNum treeSize, JStr root, Some bitmap =>
        try_catch
          (normalizedRoot ← validateBitmapArtifact bitmap root treeSize (kind_label k);
           artifact ← createBitmapArtifact k bitmap normalizedRoot treeSize;
           Ok (Some artifact))
          (fun _ => Ok None)
    | _, _, _ => Ok None
    end.

End with_noble.

Definition artifact_value (k : BitmapArtifactKind) (a : BitmapArtifact) : jsval :=
  JObj [("schema"%string, JStr (artifact_schema k)); ("version"%string, JStr artifact_version);
        ("treeSize"%string, JNum (artifact_treeSize a)); (root_key k, JStr (artifact_root a));
        (bitmap_key k, JArr (map JBool (artifact_bitmap a)))].

End HostIo.
