(* ===== verification/HostIoProofs.v ===== *)
(** The boundary with the prover host: what is read back from it is an admitted
    journal, what is written to it fits the types of the Rust side, and the
    bitmap artifacts survive being written and read. *)
From S2P Require Import Prelude.
From S2P Require Import JsNumber.
From S2P Require Import JsValue.
From S2P Require Import Hex.
From S2P Require Import MerkleSpec.
From S2P Require Import Bitmap.
From S2P Require Import BitmapFacts.
From S2P Require Import BitmapProofs.
From S2P Require Import Contract.
From S2P Require Import ContractProofs.
From S2P Require Import LocalCast.
From S2P Require Import Evidence.
From S2P Require Import Journal.
From S2P Require Import HostIo.
Import JsValue.
Import Evidence.
Import Journal.
Import HostIo.

(** ** The fields of a journal record, read as a value *)

Lemma value_texts j :
  Forall (fun kv => getStringProperty (journal_value j) kv.1 = Some kv.2)
    [("electionId", j_electionId j); ("electionConfigHash", j_electionConfigHash j);
     ("bulletinRoot", j_bulletinRoot j); ("sthDigest", j_sthDigest j);
     ("includedBitmapRoot", j_includedBitmapRoot j); ("inputCommitment", j_inputCommitment j)]%string.
Proof.
  destruct j as [? ? ? ? ? ? ? ? ? ? ? ? ? ? [] ? ? ? ? []];
    repeat (apply Forall_cons_2; [reflexivity |]); apply Forall_nil_2.
Qed.

Lemma value_seen j : getStringProperty (journal_value j) "seenBitmapRoot" = j_seenBitmapRoot j.
Proof. by destruct j as [? ? ? ? ? ? ? ? ? ? ? ? ? ? [] ? ? ? ? []]. Qed.

Lemma value_image j : getStringProperty (journal_value j) "imageId" = j_imageId j.
Proof. by destruct j as [? ? ? ? ? ? ? ? ? ? ? ? ? ? [] ? ? ? ? []]. Qed.

Lemma value_version j : getNumberProperty (journal_value j) "methodVersion" = isNumber (JNum (j_methodVersion j)).
Proof. by destruct j as [? ? ? ? ? ? ? ? ? ? ? ? ? ? [] ? ? ? ? []]. Qed.

Lemma value_record j : isCurrentJournalRecord (journal_value j) = is_some (j_seenBitmapRoot j).
Proof. destruct j as [? ? ? ? ? ? ? ? ? ? ? ? ? ? [] ? ? ? ? []]; vm_compute; reflexivity. Qed.

Lemma value_numbers j :
  Forall (fun kv => prop (journal_value j) kv.1 = JNum kv.2)
    [("treeSize", j_treeSize j); ("seenIndicesCount", j_seenIndicesCount j);
     ("missingSlots", j_missingSlots j); ("invalidPresentedSlots", j_invalidPresentedSlots j);
     ("rejectedRecords", j_rejectedRecords j); ("excludedSlots", j_excludedSlots j);
     ("totalExpected", j_totalExpected j); ("totalVotes", j_totalVotes j);
     ("validVotes", j_validVotes j); ("invalidVotes", j_invalidVotes j)]%string.
Proof.
  destruct j as [? ? ? ? ? ? ? ? ? ? ? ? ? ? [] ? ? ? ? []];
    repeat (apply Forall_cons_2; [reflexivity |]); apply Forall_nil_2.
Qed.

Lemma value_tally j : prop (journal_value j) "verifiedTally" = JArr (map JNum (j_verifiedTally j)).
Proof. by destruct j as [? ? ? ? ? ? ? ? ? ? ? ? ? ? [] ? ? ? ? []]. Qed.

Lemma map_JNum_inj l k : map JNum l = map JNum k -> l = k.
Proof.
  revert k. induction l as [| x l IH]; intros [| y k]; try done. intros [= -> H]. f_equal. by apply IH.
Qed.

Lemma known_number v key n :
  prop v key = JNum n -> is_Some (getNumberProperty v key) -> getNumberProperty v key = Some n.
Proof. intros Hp [m Hm]. assert (H := Hm). apply number_property in H as [H _]. congruence. Qed.

Lemma value_evidence j : hasCoherentCurrentZkVMJournalSemantics (semantic_evidence (journal_value j)) = true ->
  semantic_evidence (journal_value j) = journal_evidence j.
Proof.
  intros H. assert (Hs := semantic_fields _ H). destruct Hs as [[tally Ht] Hn].
  assert (Hv := value_numbers j). rewrite !Forall_cons in Hn. rewrite !Forall_cons in Hv.
  destruct Hn as (N1 & N2 & N3 & N4 & N5 & N6 & N7 & N8 & N9 & N10 & _).
  destruct Hv as (V1 & V2 & V3 & V4 & V5 & V6 & V7 & V8 & V9 & V10 & _).
  assert (Hi := value_texts j). rewrite !Forall_cons in Hi. destruct Hi as (_ & _ & _ & _ & Hi & _).
  unfold semantic_evidence, journal_evidence. rewrite value_seen.
  cbn [fst snd] in *. rewrite Hi, Ht.
  rewrite (known_number _ _ _ V1 N1), (known_number _ _ _ V2 N2), (known_number _ _ _ V3 N3),
    (known_number _ _ _ V4 N4), (known_number _ _ _ V5 N5), (known_number _ _ _ V6 N6),
    (known_number _ _ _ V7 N7), (known_number _ _ _ V8 N8), (known_number _ _ _ V9 N9),
    (known_number _ _ _ V10 N10).
  apply tally_property in Ht as [Ht _]. rewrite value_tally in Ht. injection Ht as Ht.
  by apply map_JNum_inj in Ht as ->.
Qed.

Lemma isNumber_int z : isNumber (JNum (NInt z)) = Some (NInt z).
Proof. done. Qed.

(** The guard on the value of a journal record, field by field. *)
Lemma supported_value j :
  isSupportedZkVMJournal (journal_value j) = true -> current_journal j.
Proof.
  intros (_ & (e & He & _ & Hu) & Hh & Hi & Hs & Hv)%supported_parts.
  assert (Ht := value_texts j). rewrite !Forall_cons in Ht. destruct Ht as (T1 & T2 & T3 & T4 & T5 & T6 & _).
  unfold JOURNAL_HASH_KEYS in Hh. rewrite !Forall_cons in Hh. cbn [fst snd] in *.
  rewrite T2, T3, T4, T5, T6, value_seen in Hh.
  destruct Hh as ((h1 & [= <-] & B1) & (h2 & [= <-] & B2) & (h3 & [= <-] & B3) & (h4 & [= <-] & B4) &
    (h5 & [= <-] & B5) & (h6 & A6 & B6) & _).
  rewrite value_image in Hi. rewrite T1 in He. injection He as <-.
  constructor; try done.
  - forall_list.
  - by exists h6.
  - by rewrite <- value_evidence.
  - rewrite value_version in Hv. unfold isNumber in Hv. destruct (isFinite _); [| done]. by injection Hv.
Qed.

Lemma evidence_finite j : hasCoherentCurrentZkVMJournalSemantics (journal_evidence j) = true ->
  semantic_evidence (journal_value j) = journal_evidence j.
Proof.
  intros (l & t & s & m & i & r & ex & sr & ir & te & tv & vv & iv & E & _)%journal_semantics_spec.
  rewrite E. unfold journal_evidence, partition_of in E. injection E as E1 E2 E3 E4 E5 E6 E7 E8 E9 E10 E11 E12 E13.
  assert (Hv := value_numbers j). rewrite !Forall_cons in Hv. cbn [fst snd] in Hv.
  rewrite E2, E3, E4, E5, E6, E7, E10, E11, E12, E13 in Hv.
  destruct Hv as (V1 & V2 & V3 & V4 & V5 & V6 & V7 & V8 & V9 & V10 & _).
  assert (Ht := value_tally j). rewrite E1 in Ht.
  assert (Hi := value_texts j). rewrite !Forall_cons in Hi. destruct Hi as (_ & _ & _ & _ & Hi & _).
  unfold semantic_evidence, partition_of, getNumberProperty. rewrite value_seen.
  cbn [fst snd] in Hi. rewrite Hi, V1, V2, V3, V4, V5, V6, V7, V8, V9, V10, !isNumber_int, E8, E9.
  rewrite (proj2 (tally_property (journal_value j) "verifiedTally" (map NInt l))); [done |].
  split; [done |]. apply Forall_forall. by intros n (z & -> & _)%list_elem_of_fmap.
Qed.

(** A current journal is admitted from its own value. *)
Lemma value_supported j : current_journal j -> isSupportedZkVMJournal (journal_value j) = true.
Proof.
  intros [Hu Hh (sr & Hsr & Hsv) Hi Hs Hv].
  assert (Ht := value_texts j). rewrite !Forall_cons in Ht. destruct Ht as (T1 & T2 & T3 & T4 & T5 & T6 & _).
  rewrite !Forall_cons in Hh. destruct Hh as (B1 & B2 & B3 & B4 & B5 & _).
  cbn [fst snd] in *. apply supported_parts. split_and!.
  - rewrite value_record. by rewrite Hsr.
  - eexists. split_and!; [exact T1 | | done]. by destruct (j_electionId j).
  - unfold JOURNAL_HASH_KEYS. rewrite !Forall_cons, T2, T3, T4, T5, T6, value_seen.
    split_and!; try (eexists; split; [reflexivity | done]); [by exists sr | apply Forall_nil_2].
  - by rewrite value_image.
  - by rewrite evidence_finite.
  - by rewrite value_version, Hv.
Qed.

(** ** The validated journal is the candidate itself *)

Lemma hex32_Ok v f s : asHex32Identifier v f = Ok s -> s = v /\ hex32_pattern v = true.
Proof. unfold asHex32Identifier. destruct (hex32_pattern v); cbn [negb]; [by intros [= <-] | done]. Qed.

Lemma bulletinRoot_Ok v s : asBulletinRoot v = Ok s -> s = v /\ hex32_pattern v = true.
Proof.
  unfold asBulletinRoot. intros H. bind_inv. apply hex32_Ok in H0 as [-> ?].
  destruct (is_zero_root v); [done |]. by injection H as <-.
Qed.

Lemma range_Ok n max f u : Contract.assertUnsignedIntegerInRange n max f = Ok u ->
  n = NInt (num_Z n) /\ 0 <= num_Z n <= max.
Proof. intros H. apply assert_range_Ok in H as (z & -> & Hz). done. Qed.

Lemma count_Ok n m : count n = Ok m -> m = n.
Proof.
  unfold count, Contract.asVoteCount. intros H. bind_inv. injection H0 as <-. injection H as <-.
  by apply range_Ok in H1 as [-> _].
Qed.

Lemma treeSize_Ok n z : Contract.asTreeSize n = Ok z -> NInt z = n.
Proof. unfold Contract.asTreeSize. intros (u & Hu & H)%bind_Ok. injection H as <-. by apply range_Ok in Hu as [-> _]. Qed.

Lemma totalExpected_Ok n z : Contract.asTotalExpected n = Ok z -> NInt z = n.
Proof. unfold Contract.asTotalExpected. intros (u & Hu & H)%bind_Ok. injection H as <-. by apply range_Ok in Hu as [-> _]. Qed.

Lemma electionId_Ok v s : asElectionId v = Ok s -> s = v.
Proof. unfold asElectionId. destruct (UUID_PATTERN v); cbn [negb]; [by intros [= <-] | done]. Qed.

Lemma map_count_Ok l m : Contract.map_result count l = Ok m -> m = l.
Proof.
  revert m. induction l as [| n l IH]; intros m; cbn [Contract.map_result]; [by intros [= <-] |].
  intros (x & Hx & (y & Hy & [= <-])%bind_Ok)%bind_Ok. f_equal; [by apply count_Ok | by apply IH].
Qed.

Lemma five_entries (l : list num) : zlength l = Contract.VERIFIED_TALLY_WIDTH ->
  [tally_at l 0; tally_at l 1; tally_at l 2; tally_at l 3; tally_at l 4] = l.
Proof. destruct l as [| ? [| ? [| ? [| ? [| ? []]]]]]; unfold zlength, Contract.VERIFIED_TALLY_WIDTH; cbn [length]; [lia.. | done | lia]. Qed.

Lemma current_tally j : current_journal j -> zlength (j_verifiedTally j) = Contract.VERIFIED_TALLY_WIDTH.
Proof.
  intros [_ _ _ _ Hs _].
  apply journal_semantics_spec in Hs as (l & t & s & m & i & r & ex & sr & ir & te & tv & vv & iv & E & [Hw] & _).
  unfold journal_evidence, partition_of in E. injection E as -> _ _ _ _ _ _ _ _ _ _ _ _.
  unfold zlength in *. by rewrite length_map.
Qed.

(** The texts a validated journal carries in the strict form [0x] + 64 digits. *)
Definition strict_texts (j : ZkVMJournal) : Prop :=
  Forall (fun s => hex32_pattern s = true)
    [j_electionConfigHash j; j_bulletinRoot j; j_sthDigest j; j_includedBitmapRoot j; j_inputCommitment j] /\
  exists sr, j_seenBitmapRoot j = Some sr /\ hex32_pattern sr = true.

Lemma toValidated_Ok j j' :
  toValidatedCurrentZkVMJournal j = Ok j' -> j' = j /\ current_journal j /\ strict_texts j.
Proof.
  unfold toValidatedCurrentZkVMJournal.
  destruct (isSupportedZkVMJournal _) eqn:Es; cbn [negb]; [| done].
  apply supported_value in Es as Hc. assert (H5 := five_entries _ (current_tally j Hc)).
  assert (Hi := cur_image j Hc).
  assert (Hv := cur_version j Hc).
  intros (? & ->%electionId_Ok & H)%bind_Ok. revert H.
  intros (? & [-> P1]%hex32_Ok & H)%bind_Ok. revert H. intros (? & [-> P2]%bulletinRoot_Ok & H)%bind_Ok.
  revert H. intros (? & E1%treeSize_Ok & H)%bind_Ok. revert H. intros (? & E2%totalExpected_Ok & H)%bind_Ok.
  revert H. intros (? & [-> P3]%hex32_Ok & H)%bind_Ok. revert H. intros (? & Et%map_count_Ok & H)%bind_Ok.
  rewrite H5 in Et. subst.
  do 7 (revert H; intros (? & ->%count_Ok & H)%bind_Ok). revert H. intros (? & Er & H)%bind_Ok.
  revert H. intros (? & [-> P4]%hex32_Ok & H)%bind_Ok. revert H. intros (? & ->%count_Ok & H)%bind_Ok.
  revert H. intros (? & [-> P5]%hex32_Ok & H)%bind_Ok. revert H. intros (? & Eimg & H)%bind_Ok.
  injection H as <-.
  assert (exists sr, j_seenBitmapRoot j = Some sr /\ hex32_pattern sr = true /\ x1 = Some sr) as (sr & Hsr & Hp & ->).
  { unfold validated_seen_root in Er. destruct (j_seenBitmapRoot j) as [r |]; [| done].
    apply bind_Ok in Er as (s & [-> ?]%hex32_Ok & [= <-]). by exists r. }
  assert (x2 = j_imageId j) as ->.
  { unfold validated_image_id in Eimg. destruct (j_imageId j) as [i |]; [| by injection Eimg].
    destruct (str_truthy i) eqn:Ei; [| unfold isValidHexString in Hi; by rewrite Ei in Hi].
    by apply bind_Ok in Eimg as (s & [-> ?]%hex32_Ok & [= <-]). }
  split_and!; [| done | split; [forall_list | by exists sr]].
  rewrite E1, E2, <- Hv, <- Hsr. by destruct j.
Qed.

(** ** The fields of the host's output *)

(** A required field read from [v] is read again, unchanged, from its own text. *)
Lemma hexField_Ok v key n s : getRequiredHexField v key n = Ok s ->
  isValidHexString s (Some n) = true /\
  forall w, prop w key = JStr s -> getRequiredHexField w key n = Ok s.
Proof.
  unfold getRequiredHexField. intros H.
  assert (exists x, s = addHexPrefix x /\ isValidHexString s (Some n) = true /\ str_truthy s = true) as (x & -> & Hv & Hs).
  { destruct (prop v key) as [| | | | t | l | d | o] eqn:Ep; try done.
    all: destruct (parseHexField _) as [p |] eqn:E; [| done];
      destruct (str_truthy p) eqn:Et; [| done]; destruct (isValidHexString p (Some n)) eqn:Ev; [| done];
      injection H as <-; cbn [parseHexField] in E.
    all: try (destruct (Z.eqb _ _); [done |]; injection E as <-; by eexists).
    all: apply fmap_Some in E as (d' & _ & ->); by eexists. }
  split; [done |]. intros w ->. cbn [parseHexField].
  change (addHexPrefix x) with (String.String "0" (String.String "x" (normalizeHexString x))) in *.
  assert (Hn : normalizeHexString (String.String "0" (String.String "x" (normalizeHexString x))) =
               to_lower (normalizeHexString x)) by done.
  destruct (isValidHexString_spec _ _ Hv) as [Hall _]. rewrite Hn in Hall.
  assert (Hl : to_lower (normalizeHexString x) = normalizeHexString x).
  { unfold normalizeHexString. destruct (str_truthy x); [apply to_lower_idemp | done]. }
  rewrite Hl in *. destruct (Z.eqb_spec (slen (String.String "0" (String.String "x" (normalizeHexString x)))) 0) as [E |].
  { unfold slen in E. cbn [String.length] in E. lia. }
  rewrite Hn. unfold addHexPrefix at 1 2 3. rewrite normalize_lower_hex by done.
  change ("0x" +:+ normalizeHexString x)%string with (String.String "0" (String.String "x" (normalizeHexString x))).
  by rewrite Hv.
Qed.

Lemma numberField_Ok v key n : getRequiredNumberField v key = Ok n ->
  isFinite n = true /\ forall w, prop w key = JNum n -> getRequiredNumberField w key = Ok n.
Proof.
  unfold getRequiredNumberField. destruct (getNumberProperty v key) as [m |] eqn:E; [| done].
  intros [= ->]. apply number_property in E as [_ Hf]. split; [done |]. intros w Hw.
  by rewrite (proj2 (number_property w key n)).
Qed.

Lemma tallyField_Ok v key l : getRequiredNumberArrayField v key Contract.VERIFIED_TALLY_WIDTH = Ok l ->
  forall w, prop w key = JArr (map JNum l) ->
    getRequiredNumberArrayField w key Contract.VERIFIED_TALLY_WIDTH = Ok l.
Proof.
  unfold getRequiredNumberArrayField. destruct (getNumberArrayProperty v key) as [m |] eqn:E; [| done].
  apply tally_property in E as [_ Hf]. destruct (_ || _) eqn:Eg; [done |].
  assert (Hm : zlength m = Contract.VERIFIED_TALLY_WIDTH).
  { apply orb_false_iff in Eg as [Eg _]. rewrite negb_false_iff in Eg. by apply Z.eqb_eq. }
  intros H. assert (l = m) as ->.
  { rewrite <- (five_entries m Hm). by destruct m as [| ? [| ? [| ? [| ? [| ? ?]]]]]; try done; injection H as <-. }
  intros w Hw. rewrite (proj2 (tally_property w key m)) by done. by rewrite Eg.
Qed.

Lemma imageField_Ok v key i : getRequiredImageIdField v key = Ok i ->
  isValidHexString i (Some IMAGE_ID_BYTE_LENGTH) = true /\ str_truthy i = true /\
  forall w, prop w key = JStr i -> getRequiredImageIdField w key = Ok i.
Proof.
  intros H. assert (Hx : getRequiredHexField v key IMAGE_ID_BYTE_LENGTH = Ok i).
  { unfold getRequiredImageIdField, getStringProperty in H. unfold getRequiredHexField.
    destruct (prop v key) as [| | | | s | | |]; try done. cbn [as_string normalizeImageId] in H.
    cbn [parseHexField]. destruct (Z.eqb _ _); [done |].
    destruct (isValidHexString _ _) eqn:Ev; cbn [negb] in H; [| done]. by injection H as <-. }
  apply hexField_Ok in Hx as [Hv Hw]. split; [done |].
  assert (Ht : str_truthy i = true) by (by destruct i). split; [done |].
  intros w Ew. specialize (Hw w Ew). unfold getRequiredHexField in Hw.
  unfold getRequiredImageIdField, getStringProperty. rewrite Ew in *. cbn [as_string normalizeImageId].
  cbn [parseHexField] in Hw. destruct (Z.eqb _ _); [done |].
  destruct (str_truthy (addHexPrefix _)); [| done]. cbn [andb] in Hw.
  destruct (isValidHexString (addHexPrefix _) _) eqn:E; [| done]. injection Hw as Hw. rewrite Hw in *. done.
Qed.

(** ** The election identifier *)

Lemma matches_repeat p n s : matches (repeat p n) s = true <-> String.length s = n /\ string_all p s = true.
Proof.
  revert s. induction n as [| n IH]; intros [| c s]; cbn [repeat matches String.length string_all].
  - done.
  - split; [done | by intros [? _]].
  - split; [done | by intros [? _]].
  - rewrite !andb_true_iff, IH. split; [intros (? & <- & ?); done | by intros ([= ->] & ? & ?)].
Qed.

Lemma matches_app l k a b : String.length a = length l ->
  matches (l ++ k) (a +:+ b)%string = matches l a && matches k b.
Proof.
  revert a. induction l as [| p l IH]; intros [| c a]; try done. cbn [String.length length]. intros [= Hl].
  change (p c && matches (l ++ k) (a +:+ b)%string = p c && matches l a && matches k b).
  by rewrite IH, andb_assoc.
Qed.

Lemma remove_dashes_app a b :
  Contract.remove_dashes (a +:+ b)%string = (Contract.remove_dashes a +:+ Contract.remove_dashes b)%string.
Proof.
  induction a as [| c a IH]; [done |]. cbn [Contract.remove_dashes].
  change ((String.String c a +:+ b)%string) with (String.String c (a +:+ b)%string). cbn [Contract.remove_dashes].
  rewrite IH. by destruct (Ascii.eqb c "-").
Qed.

Lemma hex_not_dash c : is_hex c = true -> Ascii.eqb c "-" = false.
Proof. all_chars c. Qed.

Lemma remove_dashes_hex s : string_all is_hex s = true -> Contract.remove_dashes s = s.
Proof.
  induction s as [| c s IH]; [done |]. cbn [string_all Contract.remove_dashes].
  intros [Hc Hs]%andb_true_iff. by rewrite hex_not_dash, IH.
Qed.

Lemma string_app_nil_r (s : string) : (s +:+ "")%string = s.
Proof. induction s as [| c s IH]; [done |]. change (String.String c (s +:+ "")%string = String.String c s). by rewrite IH. Qed.

Lemma substring_past n m k a b : String.length a = n ->
  String.substring (n + m) k (a +:+ b)%string = String.substring m k b.
Proof. intros <-. induction a as [| c a IH]; [done | exact IH]. Qed.

Lemma substring_here n a b : String.length a = n -> String.substring 0 n (a +:+ b)%string = a.
Proof.
  intros <-. induction a as [| c a IH]; cbn [String.length].
  - by destruct b.
  - change (String.String c (String.substring 0 (String.length a) (a +:+ b)%string) = String.String c a). by rewrite IH.
Qed.

Lemma string_cut n m h : String.length h = (n + m)%nat ->
  exists a b, h = (a +:+ b)%string /\ String.length a = n /\ String.length b = m.
Proof.
  revert h. induction n as [| n IH]; intros h Hl; [by exists ""%string, h |].
  destruct h as [| c h]; [done |]. destruct (IH h) as (a & b & -> & <- & <-).
  { cbn [String.length] in Hl. lia. }
  by exists (String.String c a), b.
Qed.

(** The groups of a text of 32 digits. *)
Lemma uuid_groups h : String.length h = 32%nat ->
  exists a b c d e, h = (a +:+ (b +:+ (c +:+ (d +:+ e))))%string /\
    String.length a = 8%nat /\ String.length b = 4%nat /\ String.length c = 4%nat /\
    String.length d = 4%nat /\ String.length e = 12%nat /\
    (String.substring 0 8 h +:+ "-" +:+ String.substring 8 4 h +:+ "-" +:+ String.substring 12 4 h +:+ "-" +:+
     String.substring 16 4 h +:+ "-" +:+ String.substring 20 12 h)%string =
    (a +:+ "-" +:+ b +:+ "-" +:+ c +:+ "-" +:+ d +:+ "-" +:+ e)%string.
Proof.
  intros (a & h1 & -> & Ha & (b & h2 & -> & Hb & (c & h3 & -> & Hc & (d & e & -> & Hd & He)%(string_cut 4 12)
    )%(string_cut 4 16))%(string_cut 4 20))%(string_cut 8 24).
  exists a, b, c, d, e. split_and!; try done.
  rewrite (substring_here 8 a) by done.
  rewrite (substring_past 8 0 4 a), (substring_past 8 4 4 a), (substring_past 8 8 4 a), (substring_past 8 12 12 a) by done.
  rewrite (substring_here 4 b), (substring_past 4 0 4 b), (substring_past 4 4 4 b), (substring_past 4 8 12 b) by done.
  rewrite (substring_here 4 c), (substring_past 4 0 4 c), (substring_past 4 4 12 c) by done.
  rewrite (substring_here 4 d), (substring_past 4 0 12 d) by done.
  assert (String.substring 0 12 e = e) as ->; [| done].
  rewrite <- (string_app_nil_r e) at 1. by rewrite substring_here.
Qed.

Lemma buffer_to_hex_length d : String.length (buffer_to_hex d) = (2 * length d)%nat.
Proof. induction d as [| x d IH]; [done |]. cbn [buffer_to_hex String.length length]. rewrite IH. lia. Qed.

Lemma string_all_app p a b : string_all p (a +:+ b)%string = string_all p a && string_all p b.
Proof.
  induction a as [| c a IH]; [done |].
  change (p c && string_all p (a +:+ b)%string = p c && string_all p a && string_all p b). by rewrite IH, andb_assoc.
Qed.

Lemma host_classes :
  uuid_classes is_hex is_hex =
  repeat is_hex 8 ++ [dash] ++ repeat is_hex 4 ++ [dash] ++ repeat is_hex 4 ++ [dash] ++
  repeat is_hex 4 ++ [dash] ++ repeat is_hex 12.
Proof. done. Qed.

Lemma compact_stable x : String.length x = 32%nat -> host_uuid_pattern (compactToUuid x) = true ->
  Contract.remove_dashes (compactToUuid x) = to_lower x /\ string_all is_hex (to_lower x) = true.
Proof.
  intros Hl. assert (Hl' : String.length (to_lower x) = 32%nat) by (unfold to_lower; by rewrite string_map_length).
  unfold compactToUuid. destruct (uuid_groups _ Hl') as (a & b & c & d & e & Eh & La & Lb & Lc & Ld & Le & ->).
  unfold host_uuid_pattern. rewrite host_classes.
  rewrite matches_app by done. rewrite (matches_app [dash] _ "-") by done. rewrite (matches_app _ _ b) by done.
  rewrite (matches_app [dash] _ "-") by done. rewrite (matches_app _ _ c) by done.
  rewrite (matches_app [dash] _ "-") by done. rewrite (matches_app _ _ d) by done.
  rewrite (matches_app [dash] _ "-") by done.
  rewrite !andb_true_iff, !matches_repeat.
  intros ([_ Ha] & _ & [_ Hb] & _ & [_ Hc] & _ & [_ Hd] & _ & _ & He).
  rewrite Eh, !remove_dashes_app, (remove_dashes_hex a), (remove_dashes_hex b), (remove_dashes_hex c),
    (remove_dashes_hex d), (remove_dashes_hex e) by done.
  split; [done |]. rewrite !string_all_app. by rewrite Ha, Hb, Hc, Hd, He.
Qed.

Lemma uuidField_Ok v key e : getRequiredUuidField v key = Ok e ->
  forall w, prop w key = JStr e -> getRequiredUuidField w key = Ok e.
Proof.
  unfold getRequiredUuidField. intros H w ->.
  assert (exists x, e = compactToUuid x /\ String.length x = 32%nat /\ host_uuid_pattern e = true) as (x & -> & Hl & Hp).
  { destruct (prop v key) as [| | | | t | l | d | o]; try done.
    all: destruct (formatUuidField _) as [p |] eqn:E; [| done]; destruct (str_truthy p && _) eqn:Ep; [| done];
      injection H as <-; apply andb_true_iff in Ep as [_ Hp]; unfold formatUuidField in E.
    all: try (destruct (matches _ _) eqn:Em; [| done]; injection E as <-; apply matches_repeat in Em as [? _];
              by eexists).
    all: destruct (byte_array _) as [data |]; [| done]; destruct (Z.eqb_spec (zlength data) 16) as [Hz |]; [| done];
      injection E as <-; eexists; split_and!; [done | | done]; rewrite buffer_to_hex_length; unfold zlength in Hz; lia. }
  destruct (compact_stable x Hl Hp) as [Er Hh]. cbn [formatUuidField]. rewrite Er.
  assert (String.length (to_lower x) = 32%nat) as Hl' by (unfold to_lower; by rewrite string_map_length).
  rewrite (proj2 (matches_repeat is_hex 32 (to_lower x))) by done.
  assert (compactToUuid (to_lower x) = compactToUuid x) as ->.
  { unfold compactToUuid. by rewrite to_lower_idemp. }
  rewrite Hp, andb_true_r. by destruct (compactToUuid x).
Qed.

(** ** What the host's output becomes *)

Lemma value_keys j sr i : j_seenBitmapRoot j = Some sr -> j_imageId j = Some i ->
  object_keys (journal_value j) = CURRENT_JOURNAL_KEYS.
Proof. destruct j; cbn. by intros -> ->. Qed.

Lemma current_keys_ok :
  negb (Z.eqb (zlength CURRENT_JOURNAL_KEYS) (zlength CURRENT_JOURNAL_KEYS)) ||
  existsb (fun key => negb (bool_decide (key ∈ CURRENT_JOURNAL_KEYS))) CURRENT_JOURNAL_KEYS = false.
Proof. vm_compute. reflexivity. Qed.

Lemma current_with_image j i : current_journal j ->
  isValidHexString i (Some IMAGE_ID_BYTE_LENGTH) = true -> str_truthy i = true ->
  current_journal (set_image_id j i) /\ j_imageId (set_image_id j i) = Some i.
Proof.
  intros [Hu Hh Hs Hi Hn Hv] H Ht. assert (Hi' : j_imageId (set_image_id j i) = Some i).
  { unfold set_image_id. by rewrite Ht. }
  split; [| done]. constructor; try done. by rewrite Hi'.
Qed.

(** A current journal with an image identifier is published as it is. *)
Lemma current_public j : current_journal j -> toPublicZkvmJournal j = Ok j.
Proof.
  intros Hc. assert (H5 := five_entries _ (current_tally j Hc)).
  destruct Hc as [_ _ (sr & Hsr & _) _ _ Hv]. unfold toPublicZkvmJournal.
  assert (hasLegacyJournalCountAliases (journal_value j) = false) as ->.
  { destruct j as [? ? ? ? ? ? ? ? ? ? ? ? ? ? [] ? ? ? ? []]; vm_compute; reflexivity. }
  rewrite H5, Hv, Hsr. change (NInt 14) with (NInt Contract.CURRENT_METHOD_VERSION) in *.
  destruct j; cbn in *. by subst.
Qed.

Lemma text_prop j key s : getStringProperty (journal_value j) key = Some s -> prop (journal_value j) key = JStr s.
Proof. apply string_property. Qed.

Lemma bind_step {A B} (m : result A) (f : A -> result B) a : m = Ok a -> m ≫= f = f a.
Proof. by intros ->. Qed.

(** The candidate read from [v] is read again from the value of any record with
    its fields. *)
Lemma candidate_stable v c im : journal_candidate v = Ok c ->
  c = mkJournal (j_electionId c) (j_electionConfigHash c) (j_bulletinRoot c) (j_treeSize c)
        (j_totalExpected c) (j_sthDigest c) (j_verifiedTally c) (j_totalVotes c) (j_validVotes c)
        (j_invalidVotes c) (j_seenIndicesCount c) (j_missingSlots c) (j_invalidPresentedSlots c)
        (j_rejectedRecords c) (j_seenBitmapRoot c) (j_includedBitmapRoot c) (j_excludedSlots c)
        (j_inputCommitment c) (NInt Contract.CURRENT_METHOD_VERSION) None /\
  journal_candidate (journal_value (set_image_id c im)) = Ok c.
Proof.
  intros H. unfold journal_candidate in H. revert H.
  intros (eid & He & H)%bind_Ok. revert H. intros (ch & [_ Hch]%hexField_Ok & H)%bind_Ok.
  revert H. intros (br & [_ Hbr]%hexField_Ok & H)%bind_Ok. revert H. intros (ts & [_ Hts]%numberField_Ok & H)%bind_Ok.
  revert H. intros (te & [_ Hte]%numberField_Ok & H)%bind_Ok. revert H. intros (sd & [_ Hsd]%hexField_Ok & H)%bind_Ok.
  revert H. intros (vt & Hvt & H)%bind_Ok. revert H. intros (tv & [_ Htv]%numberField_Ok & H)%bind_Ok.
  revert H. intros (vv & [_ Hvv]%numberField_Ok & H)%bind_Ok. revert H. intros (iv & [_ Hiv]%numberField_Ok & H)%bind_Ok.
  revert H. intros (si & [_ Hsi]%numberField_Ok & H)%bind_Ok. revert H. intros (ms & [_ Hms]%numberField_Ok & H)%bind_Ok.
  revert H. intros (ip & [_ Hip]%numberField_Ok & H)%bind_Ok. revert H. intros (rr & [_ Hrr]%numberField_Ok & H)%bind_Ok.
  revert H. intros (sr & [_ Hsr]%hexField_Ok & H)%bind_Ok. revert H. intros (ir & [_ Hir]%hexField_Ok & H)%bind_Ok.
  revert H. intros (ex & [_ Hex]%numberField_Ok & H)%bind_Ok. revert H. intros (ic & [_ Hic]%hexField_Ok & H)%bind_Ok.
  injection H as <-. split; [done |]. set (j' := set_image_id _ im).
  assert (Ht := value_texts j'). rewrite !Forall_cons in Ht. destruct Ht as (T1 & T2 & T3 & T4 & T5 & T6 & _).
  assert (Hn := value_numbers j'). rewrite !Forall_cons in Hn.
  destruct Hn as (N1 & N2 & N3 & N4 & N5 & N6 & N7 & N8 & N9 & N10 & _). cbn [fst snd] in *.
  apply string_property in T1, T2, T3, T4, T5, T6.
  assert (Hs : getStringProperty (journal_value j') "seenBitmapRoot" = Some sr) by (by rewrite value_seen).
  apply string_property in Hs. unfold journal_candidate.
  rewrite (bind_step _ _ _ (uuidField_Ok _ _ _ He _ T1)), (bind_step _ _ _ (Hch _ T2)), (bind_step _ _ _ (Hbr _ T3)),
    (bind_step _ _ _ (Hts _ N1)), (bind_step _ _ _ (Hte _ N7)), (bind_step _ _ _ (Hsd _ T4)),
    (bind_step _ _ _ (tallyField_Ok _ _ _ Hvt _ (value_tally j'))), (bind_step _ _ _ (Htv _ N8)),
    (bind_step _ _ _ (Hvv _ N9)), (bind_step _ _ _ (Hiv _ N10)), (bind_step _ _ _ (Hsi _ N2)),
    (bind_step _ _ _ (Hms _ N3)), (bind_step _ _ _ (Hip _ N4)), (bind_step _ _ _ (Hrr _ N5)),
    (bind_step _ _ _ (Hsr _ Hs)), (bind_step _ _ _ (Hir _ T5)), (bind_step _ _ _ (Hex _ N6)),
    (bind_step _ _ _ (Hic _ T6)). done.
Qed.

Lemma parse_stable v j : parseCurrentHostExecutionResult v = Ok j ->
  current_journal j /\ parseCurrentHostExecutionResult (journal_value j) = Ok j.
Proof.
  unfold parseCurrentHostExecutionResult at 1. destruct (_ || _); [done |].
  intros (mv & Hmv & H)%bind_Ok. destruct (negb _); [done |]. revert H.
  intros (c & Hcand & H)%bind_Ok. revert H. intros (J & HJ & H)%bind_Ok. revert H.
  intros (im & (Him1 & Him2 & Him)%imageField_Ok & H)%bind_Ok. injection H as <-.
  assert (HJ' := HJ). apply toValidated_Ok in HJ' as (-> & Hc & _).
  destruct (current_with_image c im Hc Him1 Him2) as [Hc' Hi']. split; [done |].
  destruct (candidate_stable v c im Hcand) as [_ Hcand']. set (j' := set_image_id c im) in *.
  destruct (Hc') as [_ _ (sr & Hsr & _) _ _ Hv'].
  assert (Hg := value_image j'). rewrite Hi' in Hg. apply string_property in Hg.
  unfold parseCurrentHostExecutionResult. rewrite (value_keys j' sr im), current_keys_ok by done.
  assert (Hver : getRequiredNumberField (journal_value j') "methodVersion" = Ok (NInt Contract.CURRENT_METHOD_VERSION)).
  { unfold getRequiredNumberField. by rewrite value_version, Hv'. }
  rewrite (bind_step _ _ _ Hver). change (negb (num_eqb _ _)) with false. cbv iota.
  by rewrite (bind_step _ _ _ Hcand'), (bind_step _ _ _ HJ), (bind_step _ _ _ (Him _ Hg)).
Qed.

(** What the prover host emits is admitted once and for all: a journal
    parsed from the host's output is a current journal with balanced counts,
    the guard of the readers accepts its published form, publishing it changes
    nothing, and parsing the published form again gives the same journal. *)
Theorem host_output_stable v j :
  parseHostZkVMOutput v = Ok j ->
  current_journal j /\ isSupportedZkVMJournal (journal_value j) = true /\
  toPublicZkvmJournal j = Ok j /\ parseHostZkVMOutput (journal_value j) = Ok j.
Proof.
  unfold parseHostZkVMOutput. destruct (isNonNullObject v); cbn [negb]; [| done].
  intros [Hc Hp]%parse_stable. split_and!; [done | by apply value_supported | by apply current_public | done].
Qed.

(** ** The bytes written for the host *)

(** The digit of a character, tested on every character. *)
Definition digit_fits (c : ascii) : bool :=
  match hex_value c with
  | Some x => Z.leb 0 x && Z.ltb x 16 && Ascii.eqb (hex_char x) (lower_char c)
  | None => negb (is_hex c)
  end.

Lemma digit_fits_all c : digit_fits c = true.
Proof. all_chars c. Qed.

Lemma hex_value_spec c : is_hex c = true ->
  exists x, hex_value c = Some x /\ 0 <= x < 16 /\ hex_char x = lower_char c.
Proof.
  intros Hc. assert (H := digit_fits_all c). unfold digit_fits in H.
  destruct (hex_value c) as [x |]; [| by rewrite Hc in H].
  rewrite !andb_true_iff, Z.leb_le, Z.ltb_lt, Ascii.eqb_eq in H. exists x. split; [done | tauto].
Qed.

Lemma hex_pair a b : is_hex a = true -> is_hex b = true ->
  exists x y, hex_value a = Some x /\ hex_value b = Some y /\ is_byte (16 * x + y) /\
    hex_char ((16 * x + y) / 16) = lower_char a /\ hex_char ((16 * x + y) mod 16) = lower_char b.
Proof.
  intros (x & Ex & Hx & Hcx)%hex_value_spec (y & Ey & Hy & Hcy)%hex_value_spec. exists x, y.
  assert (Hd : (16 * x + y) / 16 = x).
  { rewrite Z.add_comm, Z.mul_comm, Z.div_add by lia. rewrite Z.div_small by lia. lia. }
  assert (Hm : (16 * x + y) mod 16 = y).
  { rewrite Z.add_comm, Z.mul_comm, Z.mod_add by lia. by apply Z.mod_small. }
  rewrite Hd, Hm. unfold is_byte. split_and!; try done; lia.
Qed.

(** Decoding [2 n] digits gives [n] bytes, and encoding them the digits again. *)
Lemma from_hex_ok n s : String.length s = (2 * n)%nat -> string_all is_hex s = true ->
  length (buffer_from_hex s) = n /\ is_bytes (buffer_from_hex s) /\
  buffer_to_hex (buffer_from_hex s) = to_lower s.
Proof.
  revert s. induction n as [| n IH]; intros s Hl Hs.
  - destruct s; [| done]. split_and!; [done | constructor | done].
  - destruct s as [| a [| b s]]; cbn [String.length] in Hl; [lia | lia |]. cbn [string_all] in Hs.
    rewrite !andb_true_iff in Hs. destruct Hs as (Ha & Hb & Hs).
    destruct (hex_pair a b Ha Hb) as (x & y & Ex & Ey & Hxy & Ed & Em). cbn [buffer_from_hex]. rewrite Ex, Ey.
    destruct (IH s) as (H1 & H2 & H3); [lia | done |].
    split_and!; [cbn [length]; by rewrite H1 | by constructor |].
    cbn [buffer_to_hex]. by rewrite Ed, Em, H3.
Qed.

Lemma hex32_text v : hex32_pattern v = true ->
  String.length (normalizeHexString v) = 64%nat /\ string_all is_lower_hex (normalizeHexString v) = true.
Proof.
  unfold hex32_pattern. destruct v as [| c0 v]; [done |].
  intros H. assert (exists c1 rest, String.String c0 v = String.String "0" (String.String c1 rest) /\
    (c1 = "x" \/ c1 = "X")%char /\ matches (repeat is_hex 64) rest = true) as (c1 & rest & -> & Hc & [Hl Hm]%matches_repeat).
  { destruct c0 as [[] [] [] [] [] [] [] []]; try done. destruct v as [| c1 rest]; [done |].
    apply andb_true_iff in H as [[->%Ascii.eqb_eq | ->%Ascii.eqb_eq]%orb_true_iff Hm]; repeat eexists; auto. }
  assert (normalizeHexString (String.String "0" (String.String c1 rest)) = to_lower rest) as ->
    by (by destruct Hc as [-> | ->]).
  split; [unfold to_lower; by rewrite string_map_length | by apply to_lower_hex].
Qed.

(** [b] is the 32 bytes that [text] shows. *)
Definition shows32 (text : string) (b : bytes) : Prop :=
  length b = 32%nat /\ is_bytes b /\ buffer_to_hex b = normalizeHexString text.

Lemma hexToBytes_32 v b : hex32_pattern v = true -> hexToBytes v 32 = Ok b -> shows32 v b.
Proof.
  intros [Hl Ha]%hex32_text. unfold hexToBytes.
  assert (slen (normalizeHexString v) = 64) as Hs by (unfold slen; by rewrite Hl).
  rewrite Hs. change (Z.ltb (32 * 2) 64) with false. cbv iota. intros [= <-].
  unfold padStart. rewrite Hs. change (Z.to_nat (32 * 2 - 64)) with 0%nat.
  change (zero_text 0 +:+ normalizeHexString v)%string with (normalizeHexString v).
  destruct (from_hex_ok 32 (normalizeHexString v)) as (H1 & H2 & H3); [by rewrite Hl | |].
  { eapply string_all_impl; [apply is_lower_hex_is_hex | done]. }
  split_and!; [done | done |]. rewrite H3. by apply to_lower_lower_hex.
Qed.

Lemma string_length_app a b : String.length (a +:+ b)%string = (String.length a + String.length b)%nat.
Proof.
  induction a as [| c a IH]; [done |].
  change (S (String.length (a +:+ b)%string) = S (String.length a + String.length b)). by rewrite IH.
Qed.

Lemma matches_cut l k s : matches (l ++ k) s = true ->
  exists a b, s = (a +:+ b)%string /\ matches l a = true /\ matches k b = true.
Proof.
  revert s. induction l as [| p l IH]; intros s H; [by exists ""%string, s |].
  destruct s as [| c s]; cbn [matches app] in H; [done |]. apply andb_true_iff in H as [Hc H].
  destruct (IH s H) as (a & b & -> & Ha & Hb). exists (String.String c a), b. cbn [matches]. by rewrite Hc.
Qed.

Lemma matches_weaken l k s :
  Forall2 (fun p q => forall c : ascii, p c = true -> q c = true) l k -> matches l s = true -> matches k s = true.
Proof.
  intros H. revert s. induction H as [| p q l k Hpq H IH]; intros [| c s]; cbn [matches]; try done.
  rewrite !andb_true_iff. intros [Hc Hs]. split; [by apply Hpq | by apply IH].
Qed.

Lemma uuid_host s : UUID_PATTERN s = true -> host_uuid_pattern s = true.
Proof.
  assert (Hd : forall c, digit_1_5 c = true -> is_hex c = true) by (intros c; all_chars c).
  assert (Hv : forall c, variant_digit c = true -> is_hex c = true) by (intros c; all_chars c).
  apply matches_weaken. unfold uuid_classes.
  cbn [repeat app]. repeat (constructor; [by auto |]). constructor.
Qed.

Lemma uuid_digits s : host_uuid_pattern s = true ->
  String.length (Contract.remove_dashes s) = 32%nat /\ string_all is_hex (Contract.remove_dashes s) = true.
Proof.
  unfold host_uuid_pattern. rewrite host_classes.
  intros (a & s1 & -> & [La Ha]%matches_repeat & (x1 & s2 & -> & H1 & H)%matches_cut)%matches_cut. revert H.
  intros (b & s3 & -> & [Lb Hb]%matches_repeat & (x2 & s4 & -> & H2 & H)%matches_cut)%matches_cut. revert H.
  intros (c & s5 & -> & [Lc Hc]%matches_repeat & (x3 & s6 & -> & H3 & H)%matches_cut)%matches_cut. revert H.
  intros (d & s7 & -> & [Ld Hd]%matches_repeat & (x4 & e & -> & H4 & [Le He]%matches_repeat)%matches_cut)%matches_cut.
  assert (D : forall x, matches [dash] x = true -> x = "-"%string).
  { intros [| y [| ? ?]]; cbn [matches]; rewrite ?andb_false_r; try done. rewrite andb_true_r. by intros ->%Ascii.eqb_eq. }
  apply D in H1 as ->, H2 as ->, H3 as ->, H4 as ->.
  rewrite !remove_dashes_app, (remove_dashes_hex a), (remove_dashes_hex b), (remove_dashes_hex c),
    (remove_dashes_hex d), (remove_dashes_hex e) by done.
  change (Contract.remove_dashes "-") with ""%string. rewrite !string_all_app.
  split; [| by rewrite Ha, Hb, Hc, Hd, He].
  rewrite !string_length_app, La, Lb, Lc, Ld, Le. done.
Qed.

(** ** The wire form of an input *)

Definition number_in (n : num) (lo hi : Z) : Prop := exists z, n = NInt z /\ lo <= z <= hi.

Record wire_vote (v : Contract.VoteWithProof) (w : AggregatorVoteJson) : Prop := {
  wv_commitment : shows32 (Contract.vote_commitment v) (av_commitment w);
  wv_random : shows32 (Contract.vote_random v) (av_random w);
  wv_path : Forall2 shows32 (Contract.vote_merklePath v) (av_merkle_path w);
  wv_choice : av_choice w = Contract.vote_choice v /\ number_in (av_choice w) 0 Contract.UINT8_MAX;
  wv_index : av_index w = Contract.vote_index v /\ number_in (av_index w) 0 Contract.UINT32_MAX;
}.

(** The wire form fits the Rust types ([[u8; 16]], [[u8; 32]], [u8], [u32],
    [u64]) and shows the input's own values. *)
Record wire_input (i : Contract.ZkVMInput) (w : AggregatorInputJson) : Prop := {
  wi_election : length (ai_election_id w) = 16%nat /\ is_bytes (ai_election_id w) /\
    buffer_to_hex (ai_election_id w) = to_lower (Contract.remove_dashes (Contract.in_electionId i));
  wi_root : shows32 (Contract.in_bulletinRoot i) (ai_bulletin_root w);
  wi_log : shows32 (Contract.in_logId i) (ai_log_id w);
  wi_config : shows32 (Contract.in_electionConfigHash i) (ai_election_config_hash w);
  wi_size : ai_tree_size w = Contract.in_treeSize i /\ number_in (ai_tree_size w) 0 Contract.UINT32_MAX;
  wi_expected : ai_total_expected w = Contract.in_totalExpected i /\
                number_in (ai_total_expected w) 0 Contract.UINT32_MAX;
  wi_timestamp : ai_timestamp w = Contract.in_timestamp i /\ number_in (ai_timestamp w) 1 MAX_SAFE_INTEGER;
  wi_votes : Forall2 wire_vote (Contract.in_votes i) (ai_votes w);
}.

Lemma map_result_Forall2 {A B} (f : A -> result B) l m :
  Contract.map_result f l = Ok m -> Forall2 (fun x y => f x = Ok y) l m.
Proof.
  revert m. induction l as [| x l IH]; intros m; cbn [Contract.map_result]; [by intros [= <-] |].
  intros (y & Hy & (ys & Hys & [= <-])%bind_Ok)%bind_Ok. constructor; [done | by apply IH].
Qed.

Lemma map_result_total {A B} (f : A -> result B) l :
  Forall (fun x => is_ok (f x)) l -> is_ok (Contract.map_result f l).
Proof.
  induction 1 as [| x l Hx Hl IH]; [done |]. cbn [Contract.map_result].
  destruct (f x) as [y |]; [| done]. by destruct (Contract.map_result f l).
Qed.

(** A vote that passed validation is unchanged and well formed. *)
Record checked_vote (v : Contract.VoteWithProof) : Prop := {
  cv_commitment : hex32_pattern (Contract.vote_commitment v) = true;
  cv_random : hex32_pattern (Contract.vote_random v) = true;
  cv_path : Forall (fun s => hex32_pattern s = true) (Contract.vote_merklePath v);
  cv_choice : number_in (Contract.vote_choice v) 0 Contract.UINT8_MAX;
  cv_index : number_in (Contract.vote_index v) 0 Contract.UINT32_MAX;
}.

Lemma map_same {A} (f : A -> result A) (P : A -> Prop) l m :
  (forall x y, f x = Ok y -> y = x /\ P x) -> Contract.map_result f l = Ok m -> m = l /\ Forall P l.
Proof.
  intros Hf H%map_result_Forall2. induction H as [| x y l m Hxy H [-> IH]]; [done |].
  destruct (Hf x y Hxy) as [-> Hx]. split; [done | by constructor].
Qed.

Lemma byte_Ok n z : Contract.asVoteChoiceByte n = Ok z -> NInt z = n /\ number_in n 0 Contract.UINT8_MAX.
Proof.
  unfold Contract.asVoteChoiceByte. intros (u & [Hn Hz]%range_Ok & [= <-])%bind_Ok.
  split; [done | by exists (num_Z n)].
Qed.

Lemma index_Ok n z : Contract.asBulletinIndex n = Ok z -> NInt z = n /\ number_in n 0 Contract.UINT32_MAX.
Proof.
  unfold Contract.asBulletinIndex. intros (u & [Hn Hz]%range_Ok & [= <-])%bind_Ok.
  split; [done | by exists (num_Z n)].
Qed.

Lemma validateVote_Ok v v' : validateVoteWithProof v = Ok v' -> v' = v /\ checked_vote v.
Proof.
  unfold validateVoteWithProof.
  intros (c & [-> H1]%hex32_Ok & (ch & [Ec H2]%byte_Ok & (r & [-> H3]%hex32_Ok &
    (i & [Ei H4]%index_Ok & (p & Hp & [= <-])%bind_Ok)%bind_Ok)%bind_Ok)%bind_Ok)%bind_Ok.
  apply (map_same _ (fun s => hex32_pattern s = true)) in Hp as [-> Hp]; [| intros x y; apply hex32_Ok].
  rewrite Ec, Ei. split; [by destruct v | done].
Qed.

Record checked_input (i : Contract.ZkVMInput) : Prop := {
  ci_election : UUID_PATTERN (Contract.in_electionId i) = true;
  ci_root : hex32_pattern (Contract.in_bulletinRoot i) = true;
  ci_log : hex32_pattern (Contract.in_logId i) = true;
  ci_config : hex32_pattern (Contract.in_electionConfigHash i) = true;
  ci_size : number_in (Contract.in_treeSize i) 0 Contract.UINT32_MAX;
  ci_expected : number_in (Contract.in_totalExpected i) 0 Contract.UINT32_MAX;
  ci_timestamp : number_in (Contract.in_timestamp i) 1 MAX_SAFE_INTEGER;
  ci_votes : Forall checked_vote (Contract.in_votes i);
}.

Lemma timestamp_Ok n z : Contract.asUnixTimestampMillis n = Ok z ->
  NInt z = n /\ number_in n 1 MAX_SAFE_INTEGER.
Proof.
  unfold Contract.asUnixTimestampMillis. intros (u & [Hn Hz]%range_Ok & H)%bind_Ok. revert H.
  destruct (num_leb n (NInt 0)) eqn:E; [done |]. intros [= <-]. split; [done |].
  exists (num_Z n). split; [done |]. rewrite Hn in E. apply not_true_iff_false in E. rewrite num_leb_int in E.
  unfold Contract.TS_SAFE_UINT64_MAX in Hz. lia.
Qed.

Lemma validated_input_Ok i i' : toValidatedZkVMInput i = Ok i' -> i' = i /\ checked_input i.
Proof.
  assert (Hnum : forall (f : num -> result Z) n z, f n = Ok z ->
    (forall m y, f m = Ok y -> NInt y = m) -> NInt z = n) by (intros f n z Hf Hall; by apply Hall).
  assert (Hrange : forall n z (f : string), Contract.assertUnsignedIntegerInRange n Contract.UINT32_MAX f = Ok z ->
    number_in n 0 Contract.UINT32_MAX) by (intros n z f [Hn Hz]%range_Ok; by exists (num_Z n)).
  unfold toValidatedZkVMInput.
  intros (u & _ & (e & He & (r & [-> H1]%bulletinRoot_Ok & (t & Ht & (l & [-> H2]%hex32_Ok &
    (ts & [Ets Hts]%timestamp_Ok & (te & Hte & (c & [-> H3]%hex32_Ok &
    (vs & Hvs & [= <-])%bind_Ok)%bind_Ok)%bind_Ok)%bind_Ok)%bind_Ok)%bind_Ok)%bind_Ok)%bind_Ok)%bind_Ok.
  assert (Hu : UUID_PATTERN (Contract.in_electionId i) = true).
  { unfold asElectionId in He. by destruct (UUID_PATTERN _). }
  apply electionId_Ok in He as ->. assert (Et := treeSize_Ok _ _ Ht). assert (Ee := totalExpected_Ok _ _ Hte).
  apply (map_same _ checked_vote) in Hvs as [-> Hvs]; [| apply validateVote_Ok].
  apply bind_Ok in Ht as (? & Ht & _), Hte as (? & Hte & _).
  rewrite Ets, Et, Ee. split; [by destruct i |]. constructor; eauto.
Qed.

Lemma hexToBytes_total v : hex32_pattern v = true -> is_ok (hexToBytes v 32).
Proof.
  intros [Hl _]%hex32_text. unfold hexToBytes. unfold slen. by rewrite Hl.
Qed.

Lemma uuidToBytes_Ok e : UUID_PATTERN e = true ->
  exists b, uuidToBytes e = Ok b /\ length b = 16%nat /\ is_bytes b /\
    buffer_to_hex b = to_lower (Contract.remove_dashes e).
Proof.
  intros [Hl Ha]%uuid_host%uuid_digits. unfold uuidToBytes, slen. rewrite Hl.
  exists (buffer_from_hex (Contract.remove_dashes e)). split; [done |]. by apply from_hex_ok.
Qed.

Lemma serialize_vote_wire v w : checked_vote v -> serialize_vote v = Ok w -> wire_vote v w.
Proof.
  intros [H1 H2 H3 H4 H5] (c & Hc & (r & Hr & (p & Hp & [= <-])%bind_Ok)%bind_Ok)%bind_Ok.
  constructor; try done; [by apply hexToBytes_32 | by apply hexToBytes_32 |].
  apply map_result_Forall2 in Hp. cbn [av_merkle_path]. induction Hp as [| s b l m Hs Hp IH]; [constructor |].
  inversion_clear H3. constructor; [by apply hexToBytes_32 | by apply IH].
Qed.

Lemma serialize_vote_total v : checked_vote v -> is_ok (serialize_vote v).
Proof.
  intros [H1 H2 H3 _ _]. unfold serialize_vote. apply hexToBytes_total in H1, H2.
  destruct (hexToBytes (Contract.vote_commitment v) 32); [| done].
  destruct (hexToBytes (Contract.vote_random v) 32); [| done]. cbn.
  assert (Hp : is_ok (Contract.map_result (fun node => hexToBytes node 32) (Contract.vote_merklePath v))).
  { apply map_result_total. eapply Forall_impl; [exact H3 | apply hexToBytes_total]. }
  by destruct (Contract.map_result _ _).
Qed.

(** What is written for the Rust host fits its types and loses nothing: the
    identifiers and hashes become exactly 16 and 32 bytes that show the input's
    text, the numbers are those of the input within [u8], [u32] and the safe
    part of [u64], and no vote is dropped or reordered. Writing fails only where
    the validation of the input does: never in the middle of the conversion. *)
Theorem wire_input_faithful input :
  (forall out, serializeZkvmAggregatorInput input = Ok out -> wire_input input out) /\
  (is_ok (serializeZkvmAggregatorInput input) <-> is_ok (toValidatedZkVMInput input)).
Proof.
  unfold serializeZkvmAggregatorInput.
  destruct (toValidatedZkVMInput input) as [i |] eqn:E; [| by split].
  apply validated_input_Ok in E as [-> [H1 H2 H3 H4 H5 H6 H7 H8]]. cbn [mbind result_bind].
  destruct (uuidToBytes_Ok _ H1) as (e & -> & He). cbn [mbind result_bind].
  assert (T2 := hexToBytes_total _ H2). assert (T3 := hexToBytes_total _ H3). assert (T4 := hexToBytes_total _ H4).
  destruct (hexToBytes (Contract.in_bulletinRoot input) 32) as [r |] eqn:Er; [| done].
  destruct (hexToBytes (Contract.in_logId input) 32) as [l |] eqn:El; [| done].
  destruct (hexToBytes (Contract.in_electionConfigHash input) 32) as [c |] eqn:Ec; [| done].
  assert (Tv : is_ok (Contract.map_result serialize_vote (Contract.in_votes input))).
  { apply map_result_total. eapply Forall_impl; [exact H8 | apply serialize_vote_total]. }
  cbn [mbind result_bind]. destruct (Contract.map_result _ _) as [vs |] eqn:Ev; [| done]. split; [| done].
  intros out [= <-]. constructor; try done; [by apply hexToBytes_32 .. |].
  apply map_result_Forall2 in Ev. cbn [ai_votes]. clear -Ev H8. induction Ev as [| v w vs ws Hvw Ev IH]; [done |].
  inversion_clear H8. constructor; [by apply serialize_vote_wire | by apply IH].
Qed.

(** ** Bitmap artifacts *)

Section artifacts.
Context `{NobleLaws}.

Lemma normalizeBitmapRoot_idemp root : isValidHexString (normalizeBitmapRoot root) (Some 32) = true ->
  normalizeBitmapRoot (normalizeBitmapRoot root) = normalizeBitmapRoot root.
Proof.
  intros [Ha _]%isValidHexString_spec. unfold normalizeBitmapRoot in *.
  change (normalizeHexString ("0x" +:+ normalizeHexString root)) with (to_lower (normalizeHexString root)) in *.
  f_equal. unfold normalizeHexString. destruct (str_truthy root); [apply to_lower_idemp | done].
Qed.

Lemma validateArtifact_Ok bitmap root n label r : validateBitmapArtifact bitmap root n label = Ok r ->
  r = normalizeBitmapRoot root /\ n = NInt (zlength bitmap) /\ isSafeInteger n = true /\
  isValidHexString r (Some 32) = true /\ normalizeHexString r = bytesToHex (MTH (bitmap_chunks bitmap)).
Proof.
  unfold validateBitmapArtifact. destruct (_ || _) eqn:Eg; [done |].
  destruct (num_eqb _ _) eqn:En; cbn [negb]; [| done]. apply num_eqb_int_l in En as ->.
  destruct (isValidHexString _ _) eqn:Ev; cbn [negb]; [| done].
  rewrite computeIncludedBitmapRootHex_ok. cbn [mbind result_bind].
  destruct (String.eqb_spec (normalizeHexString ("0x" +:+ bytesToHex (MTH (bitmap_chunks bitmap)))%string)
              (normalizeHexString (normalizeBitmapRoot root))) as [E |]; cbn [negb]; [| done].
  intros [= <-]. apply orb_false_iff in Eg as [Eg _]. rewrite negb_false_iff in Eg. split_and!; try done.
  rewrite <- E. change (normalizeHexString _) with (to_lower (bytesToHex (MTH (bitmap_chunks bitmap)))).
  apply to_lower_lower_hex, bytesToHex_lower, MTH_bytes.
Qed.

Lemma bools_read l : isBooleanArray (JArr (map JBool l)) = Some l.
Proof. unfold isBooleanArray. rewrite all_some_Some. induction l; constructor; done. Qed.

Lemma artifact_value_reads k a :
  isNonNullObject (artifact_value k a) = true /\ hasExactOwnKeys (artifact_value k a) (artifact_keys k) = true /\
  has_text (prop (artifact_value k a) "schema") (artifact_schema k) = true /\
  has_text (prop (artifact_value k a) "version") artifact_version = true /\
  prop (artifact_value k a) "treeSize" = JNum (artifact_treeSize a) /\
  prop (artifact_value k a) (root_key k) = JStr (artifact_root a) /\
  prop (artifact_value k a) (bitmap_key k) = JArr (map JBool (artifact_bitmap a)).
Proof. destruct k; split_and!; try done; vm_compute; reflexivity. Qed.

(** The artifact [create] returns passes its own validation again. *)
Lemma validate_again bitmap root n label r : validateBitmapArtifact bitmap root n label = Ok r ->
  validateBitmapArtifact bitmap r n label = Ok r.
Proof.
  intros Hv. assert (Ho := Hv). apply validateArtifact_Ok in Ho as (-> & _ & _ & Hx & _).
  revert Hv. unfold validateBitmapArtifact. by rewrite normalizeBitmapRoot_idemp.
Qed.

Lemma parse_created k bitmap root n a : createBitmapArtifact k bitmap root n = Ok a ->
  parseBitmapArtifact k (artifact_value k a) = Ok (Some a).
Proof.
  unfold createBitmapArtifact. intros (r & Hr & [= <-])%bind_Ok.
  destruct (artifact_value_reads k (mkArtifact n r bitmap)) as (R1 & R2 & R3 & R4 & R5 & R6 & R7).
  unfold parseBitmapArtifact. rewrite R1, R2, R3, R4, R5, R6, R7. cbn [negb orb artifact_treeSize artifact_root artifact_bitmap].
  rewrite bools_read. assert (Hr' := validate_again _ _ _ _ _ Hr). unfold createBitmapArtifact.
  by rewrite Hr'; cbn [mbind result_bind]; rewrite Hr'.
Qed.

Lemma parse_artifact_Ok k v a : parseBitmapArtifact k v = Ok (Some a) ->
  exists label, validateBitmapArtifact (artifact_bitmap a) (artifact_root a) (artifact_treeSize a) label =
    Ok (artifact_root a).
Proof.
  unfold parseBitmapArtifact. destruct (_ || _); [done |]. destruct (_ || _); [done |].
  destruct (prop v "treeSize") as [| | | n | | | |]; try done.
  destruct (prop v (root_key k)) as [| | | | root | | |]; try done.
  destruct (isBooleanArray _) as [bitmap |]; [| done]. intros Ha.
  exists (kind_label k). unfold try_catch in Ha.
  destruct (validateBitmapArtifact bitmap root n (kind_label k)) as [r | e] eqn:Er;
    [| cbn in Ha; by destruct e].
  unfold createBitmapArtifact in Ha. cbn [mbind result_bind] in Ha.
  assert (Hr := validate_again _ _ _ _ _ Er). rewrite Hr in Ha. cbn [mbind result_bind] in Ha.
  injection Ha as <-. done.
Qed.

Lemma chunks_bits a b i : bitmap_chunks a = bitmap_chunks b ->
  zlength a = zlength b -> 0 <= i < zlength a -> bit_at a i = bit_at b i.
Proof.
  intros E Hl Hi. destruct (leaf_range a i Hi) as (Hleaf & Ho & Eio & _).
  destruct (bitmap_chunk_at a (i / 256) Hleaf) as (c & Hc & _ & Hlen & Hh).
  destruct (bitmap_chunk_at b (i / 256)) as (c' & Hc' & _ & _ & Hh'); [by rewrite <- Hl |].
  rewrite E in Hc. assert (c' = c) as -> by congruence.
  assert (N : node32 c) by (split; [by eapply holds_is_bytes | done]).
  assert (Ea := extract_ok _ c _ _ (node32_hex c N) (hexToBytes_bytesToHex c (proj1 N)) Hlen Hh Ho).
  assert (Eb := extract_ok _ c _ _ (node32_hex c N) (hexToBytes_bytesToHex c (proj1 N)) Hlen Hh' Ho).
  rewrite Ea in Eb. injection Eb as Eb. by rewrite Eio in Eb.
Qed.

Lemma bit_at_ext (a b : list bool) : zlength a = zlength b ->
  (forall i, 0 <= i < zlength a -> bit_at a i = bit_at b i) -> a = b.
Proof.
  intros Hl HE. apply list_eq. intros i. unfold zlength in Hl.
  destruct (a !! i) as [x |] eqn:Ea.
  - assert (Hi := lookup_lt_Some _ _ _ Ea). specialize (HE (Z.of_nat i)). unfold bit_at in HE.
    rewrite !znth_of_nat, Ea in HE. destruct (lookup_lt_is_Some_2 b i) as [y Eb]; [lia |].
    rewrite Eb in *. rewrite HE; [done |]. unfold zlength. lia.
  - apply lookup_ge_None in Ea. symmetry. apply lookup_ge_None. lia.
Qed.

Lemma bitmap_of_root a b : zlength a = zlength b -> MTH (bitmap_chunks a) = MTH (bitmap_chunks b) ->
  a = b \/ collision_in (mth_inputs (bitmap_chunks a) ++ mth_inputs (bitmap_chunks b)).
Proof.
  intros Hl Hm. destruct (decide (a = [])) as [-> | Ha].
  { left. destruct b; [done |]. unfold zlength in Hl. cbn [length] in Hl. lia. }
  assert (Hb : b <> []).
  { intros ->. destruct a; [done |]. unfold zlength in Hl. cbn [length] in Hl. lia. }
  assert (Hc : length (bitmap_chunks a) = length (bitmap_chunks b)).
  { assert (H1 := bitmap_chunks_length a Ha). assert (H2 := bitmap_chunks_length b Hb).
    rewrite Hl in H1. unfold zlength in *. lia. }
  destruct (MTH_inj _ _ Hc Hm) as [E |]; [left | by right].
  apply bit_at_ext; [done |]. intros i Hi. by apply chunks_bits.
Qed.

(** A bitmap artifact is its root: whatever documents are published, two
    that are admitted for the same root and tree size carry the same bitmap, or
    the hashed inputs collide; and the artifact the prover side creates is read
    back by the admission exactly as it was written. *)
Theorem bitmap_artifact_binding k :
  (forall v1 v2 a1 a2,
     parseBitmapArtifact k v1 = Ok (Some a1) -> parseBitmapArtifact k v2 = Ok (Some a2) ->
     artifact_root a1 = artifact_root a2 -> artifact_treeSize a1 = artifact_treeSize a2 ->
     artifact_bitmap a1 = artifact_bitmap a2 \/
     collision_in (mth_inputs (bitmap_chunks (artifact_bitmap a1)) ++
                   mth_inputs (bitmap_chunks (artifact_bitmap a2)))) /\
  (forall bitmap root n a,
     createBitmapArtifact k bitmap root n = Ok a -> parseBitmapArtifact k (artifact_value k a) = Ok (Some a)).
Proof.
  split; [| apply parse_created].
  intros v1 v2 a1 a2 (l1 & (_ & H1 & _ & _ & R1)%validateArtifact_Ok)%parse_artifact_Ok
         (l2 & (_ & H2 & _ & _ & R2)%validateArtifact_Ok)%parse_artifact_Ok Er En.
  rewrite En in H1. rewrite H1 in H2. injection H2 as Hl.
  apply bitmap_of_root; [done |]. rewrite Er, R2 in R1. by apply hex_inj in R1; [| apply MTH_bytes ..].
Qed.
End artifacts.
