(* ===== verification/JsText.v ===== *)
(** Texts of the language, on ASCII text: [Number(text)], [text.trim()] and
    [text.padStart(n, c)]; the decimal text of a number, [JSON.stringify] and what
    [JSON.parse] makes of its text again; the base64 text of bytes. *)
From Stdlib Require Import QArith Qround.
From stdpp Require Import pretty.
From S2P Require Import Prelude.
From S2P Require Import JsNumber.
From S2P Require Import JsValue.
#[global] Open Scope Z_scope.

Module JsText.

Definition is_space (c : ascii) : bool := code_between 9 13 c || Ascii.eqb c " ".

Fixpoint trim_start (s : string) : string :=
  match s with
  | String c rest => if is_space c then trim_start rest else s
  | EmptyString => EmptyString
  end.

(** A suffix of spaces is dropped. *)
Fixpoint trim_end (s : string) : string :=
  match s with
  | EmptyString => EmptyString
  | String c rest =>
      match trim_end rest with
      | EmptyString => if is_space c then EmptyString else String c EmptyString
      | kept => String c kept
      end
  end.

Definition trim (s : string) : string := trim_end (trim_start s).

Definition digit_value (c : ascii) : Z :=
  if code_between 48 57 c then char_code c - 48
  else if code_between 97 122 c then char_code c - 87
  else if code_between 65 90 c then char_code c - 55
  else 36.

(** The digits of base [base] at the head of the text: their value, continuing
    [acc], how many they are, continuing [n], and the rest. *)
Fixpoint read_digits (base : Z) (s : string) (acc n : Z) : Z * Z * string :=
  match s with
  | EmptyString => (acc, n, EmptyString)
  | String c rest =>
      if Z.ltb (digit_value c) base then read_digits base rest (acc * base + digit_value c) (n + 1)
      else (acc, n, s)
  end.

Definition read_sign (s : string) : bool * string :=
  match s with
  | String "-" rest => (true, rest)
  | String "+" rest => (false, rest)
  | _ => (false, s)
  end.

Definition signed (negative : bool) (z : Z) : Z := if negative then - z else z.

(** What may follow the digits: nothing, or [e] and an integer. *)
Definition read_exponent (s : string) : option Z :=
  match s with
  | EmptyString => Some 0
  | String c rest =>
      if Ascii.eqb c "e" || Ascii.eqb c "E" then
        let '(negative, digits) := read_sign rest in
        match read_digits 10 digits 0 0 with
        | (v, n, EmptyString) => if Z.ltb 0 n then Some (signed negative v) else None
        | _ => None
        end
      else None
  end.

(** [v * 10 ^ e] *)
Definition scaled (v e : Z) : Q :=
  if Z.leb 0 e then inject_Z (v * 10 ^ e) else Qmake v (Z.to_pos (10 ^ (- e))).

Definition read_decimal (s : string) : option Q :=
  let '(i, n, rest) := read_digits 10 s 0 0 in
  let '(v, m, rest') := match rest with
                        | String "." fraction => read_digits 10 fraction i 0
                        | _ => (i, 0, rest)
                        end in
  if Z.eqb (n + m) 0 then None
  else match read_exponent rest' with Some e => Some (scaled v (e - m)) | None => None end.

Definition read_radix (base : Z) (digits : string) : num :=
  match read_digits base digits 0 0 with
  | (v, n, EmptyString) => if Z.ltb 0 n then round_Q (inject_Z v) else NNaN
  | _ => NNaN
  end.

Definition number_of_text (text : string) : num :=
  match trim text with
  | EmptyString => NInt 0
  | String "0" (String c digits) as s =>
      if Ascii.eqb c "x" || Ascii.eqb c "X" then read_radix 16 digits
      else if Ascii.eqb c "o" || Ascii.eqb c "O" then read_radix 8 digits
      else if Ascii.eqb c "b" || Ascii.eqb c "B" then read_radix 2 digits
      else match read_decimal s with Some q => round_Q q | None => NNaN end
  | s =>
      let '(negative, rest) := read_sign s in
      if String.eqb rest "Infinity" then NInf negative
      else match read_decimal rest with
           | Some q => round_Q (if negative then Qopp q else q)
           | None => NNaN
           end
  end.

Fixpoint repeat_char (n : nat) (c : ascii) : string :=
  match n with O => EmptyString | S n => String c (repeat_char n c) end.

Definition pad_start (s : string) (n : Z) (c : ascii) : string :=
  (repeat_char (Z.to_nat (n - slen s)) c +:+ s)%string.

(** [text.includes(part)] *)
Fixpoint text_includes (s part : string) : bool :=
  String.prefix part s ||
  match s with EmptyString => false | String _ rest => text_includes rest part end.

(** [text.slice(n)] *)
Fixpoint text_slice (n : nat) (s : string) : string :=
  match n, s with
  | S n, String _ rest => text_slice n rest
  | _, _ => s
  end.

Example number_samples :
  map number_of_text [" 12 "; "1e3"; "0x10"; "-.5"; "5."; "."; "1_0"; ""; "Infinity"; "9007199254740993";
                      "1.00000000000000000000001"; "0b"]%string
  = [NInt 12; NInt 1000; NInt 16; NFrac (-1 # 2); NInt 5; NNaN; NNaN; NInt 0; NInf false;
     NInt 9007199254740992; NInt 1; NNaN].
Proof. vm_compute. reflexivity. Qed.

End JsText.

Module JsonText.
Import JsText.
Import JsValue.

(** ** Numbers *)

(** The exponent [n] of a positive rational: the least one with [q < 10 ^ n]. *)
Definition decimal_exponent (q : Q) : Z :=
  let n := slen (pretty (Qnum q)) - slen (pretty (Zpos (Qden q))) in
  if negb (Qle_bool (scaled 1 n) q) then n else n + 1.

(** The [k] digits of a text that is read as [q]: of those the nearest to it. *)
Definition digits_of_length (q : Q) (n k : Z) : option Z :=
  let u := Qmult q (scaled 1 (k - n)) in
  List.find (fun s => num_eqb (round_Q (scaled s (n - k))) (num_of_Q q)) [round_half_even u; Qfloor u; Qfloor u + 1].

(** The fewest digits, from [k] on; 17 are enough for a double. *)
Fixpoint shortest_digits (more : nat) (q : Q) (n k : Z) : Z * Z :=
  match digits_of_length q n k, more with
  | Some s, _ => (s, k)
  | None, S more => shortest_digits more q n (k + 1)
  | None, O => (Qfloor (Qmult q (scaled 1 (k - n))), k)
  end.

Definition split_text (n : Z) (s : string) : string * string :=
  (String.substring 0 (Z.to_nat n) s, text_slice (Z.to_nat n) s).

(** The digits [ds] of a number with exponent [n]. *)
Definition decimal_text (ds : string) (n : Z) : string :=
  let k := slen ds in
  if Z.leb k n && Z.leb n 21 then (ds +:+ repeat_char (Z.to_nat (n - k)) "0")%string
  else if Z.ltb 0 n && Z.leb n 21 then let '(whole, fraction) := split_text n ds in (whole +:+ "." +:+ fraction)%string
  else if Z.ltb (-6) n && Z.leb n 0 then ("0." +:+ repeat_char (Z.to_nat (- n)) "0" +:+ ds)%string
  else
    let e := ("e" +:+ (if Z.ltb 0 (n - 1) then "+" else "-") +:+ pretty (Z.abs (n - 1)))%string in
    let '(first, others) := split_text 1 ds in
    if Z.eqb k 1 then (ds +:+ e)%string else (first +:+ "." +:+ others +:+ e)%string.

(** A power of ten above [q] that is read as [q] has one digit and the next exponent. *)
Definition positive_text (q : Q) : string :=
  let n := decimal_exponent q in
  let '(s, k) := shortest_digits 16 q n 1 in
  if Z.eqb s (10 ^ k) then decimal_text "1" (n + 1) else decimal_text (pretty s) n.

(** [String(n)] of a finite number *)
Definition number_text (n : num) : string :=
  match finite_Q n with
  | None => "NaN"
  | Some q =>
      if Qeq_bool q 0 then "0"
      else if Qle_bool 0 q then positive_text q else ("-" +:+ positive_text (Qopp q))%string
  end.

(** ** Values *)

Definition hex_digit (z : Z) : ascii := ascii_of_N (Z.to_N (if Z.ltb z 10 then 48 + z else 87 + z)).

Definition escaped (c : ascii) : string :=
  let v := char_code c in
  if Z.eqb v 34 then String "\" (String c EmptyString)
  else if Z.eqb v 92 then "\\"
  else if Z.eqb v 8 then "\b"
  else if Z.eqb v 12 then "\f"
  else if Z.eqb v 10 then "\n"
  else if Z.eqb v 13 then "\r"
  else if Z.eqb v 9 then "\t"
  else if Z.ltb v 32 then ("\u00" +:+ String (hex_digit (v / 16)) (String (hex_digit (v mod 16)) EmptyString))%string
  else String c EmptyString.

Definition quote_mark : string := String (ascii_of_N 34) EmptyString.

Fixpoint escaped_text (s : string) : string :=
  match s with EmptyString => EmptyString | String c rest => (escaped c +:+ escaped_text rest)%string end.

Definition quoted (s : string) : string := (quote_mark +:+ escaped_text s +:+ quote_mark)%string.

Fixpoint joined (l : list string) : string :=
  match l with [] => "" | [s] => s | s :: rest => (s +:+ "," +:+ joined rest)%string end.

Definition member_text (e : string * string) : string := (quoted e.1 +:+ ":" +:+ e.2)%string.

(** [JSON.stringify(value)]: [None] is [undefined]. A property without a text is
    left out, an element without one is [null]. *)
Fixpoint json_text (value : jsval) : option string :=
  match value with
  | JUndefined => None
  | JNull => Some "null"
  | JBool b => Some (if b then "true" else "false")
  | JNum n => Some (if isFinite n then number_text n else "null")
  | JStr s => Some (quoted s)
  | JArr items => Some ("[" +:+ joined (map (fun x => default "null" (json_text x)) items) +:+ "]")
  | JBytes data =>
      Some ("{" +:+ joined (imap (fun i b => member_text (pretty (Z.of_nat i), pretty b)) data) +:+ "}")
  | JObj properties =>
      Some ("{" +:+ joined ((fix members (properties : list (string * jsval)) : list string :=
                               match properties with
                               | [] => []
                               | (key, x) :: rest =>
                                   match json_text x with
                                   | Some text => member_text (key, text) :: members rest
                                   | None => members rest
                                   end
                               end) properties) +:+ "}")
  end%string.

(** [JSON.parse(JSON.stringify(value))]: the text of a finite number is read as the
    number, so that a value comes back without what the text leaves out. *)
Fixpoint json_clone (value : jsval) : option jsval :=
  match value with
  | JUndefined => None
  | JNum n => Some (if isFinite n then value else JNull)
  | JArr items => Some (JArr (map (fun x => default JNull (json_clone x)) items))
  | JBytes data => Some (JObj (imap (fun i b => (pretty (Z.of_nat i), JNum (NInt b))) data))
  | JObj properties =>
      Some (JObj ((fix members (properties : list (string * jsval)) : list (string * jsval) :=
                     match properties with
                     | [] => []
                     | (key, x) :: rest =>
                         match json_clone x with
                         | Some y => (key, y) :: members rest
                         | None => members rest
                         end
                     end) properties))
  | _ => Some value
  end.

Definition clone_members (properties : list (string * jsval)) : list (string * jsval) :=
  omap (fun e => (fun y => (e.1, y)) <$> json_clone e.2) properties.

(** ** Base64 *)

Definition base64_char (v : Z) : ascii :=
  ascii_of_N (Z.to_N (if Z.ltb v 26 then v + 65 else if Z.ltb v 52 then v + 71 else if Z.ltb v 62 then v - 4
                      else if Z.eqb v 62 then 43 else 47)).

(** [buffer.toString('base64')] *)
Fixpoint base64_text (b : bytes) : string :=
  match b with
  | [] => EmptyString
  | [x] => String (base64_char (x / 4)) (String (base64_char ((x mod 4) * 16)) "==")
  | [x; y] =>
      String (base64_char (x / 4)) (String (base64_char ((x mod 4) * 16 + y / 16))
        (String (base64_char ((y mod 16) * 4)) "="))
  | x :: y :: z :: rest =>
      String (base64_char (x / 4)) (String (base64_char ((x mod 4) * 16 + y / 16))
        (String (base64_char ((y mod 16) * 4 + z / 64)) (String (base64_char (z mod 64)) (base64_text rest))))
  end.

End JsonText.

(** ** Runs *)

Example number_texts :
  map JsonText.number_text [NInt 0; NInt (-42); NInt (10 ^ 20); NInt (10 ^ 21); NInt (2 ^ 60); round_Q (1 # 10);
                   round_Q (1 # 3); round_Q (-15 # 10); round_Q (1 # 1000000); round_Q (1 # 10000000);
                   round_Q (12345 # 100000000000); NInt (2 ^ 53 + 2)] =
  ["0"; "-42"; "100000000000000000000"; "1e+21"; "1152921504606847000"; "0.1"; "0.3333333333333333"; "-1.5";
   "0.000001"; "1e-7"; "1.2345e-7"; "9007199254740994"]%string.
Proof. vm_compute. reflexivity. Qed.

(** The doubles below and above 2 ^ -44 are not equally far. *)
Example number_text_uneven : JsonText.number_text (round_Q (1 # (2 ^ 44))) = "5.684341886080802e-14"%string /\
  JsonText.number_text (round_Q (JsText.scaled 1 23)) = "1e+23"%string.
Proof. vm_compute. done. Qed.
