(* ===== verification/Bulletin.v ===== *)
(** The bulletin board of a session (packages/domain/src/lib/bulletin): an
    append-only log of vote commitments over the RFC 6962 tree, as a state with
    the class's methods as state transformers. [Date.now()] is an argument of
    the methods that read it. *)
From S2P Require Import Prelude.
From S2P Require Import Hex.
From S2P Require Import Rfc6962.
From S2P Require Import JsNumber.
From S2P Require Import JsText.
From S2P Require Import JsValue.
From S2P Require Import Journal.
From S2P Require Import MerkleSpec.
From S2P Require Import TreeFacts.
From S2P Require Import Inclusion.
From S2P Require Import Reference.
Import Rfc6962.
Import JsText.

Module Bulletin.

(** ** Identifiers (domain/types/identifiers.ts, validation/vote-id.ts) *)

Definition assertNonNegativeSafeInteger (value : num) (label : string) : result unit :=
  if negb (isSafeInteger value) || num_ltb value (NInt 0)
  then throw (label +:+ " must be a non-negative safe integer")%string else Ok tt.

Definition asVoteIndex (value : num) : result Z :=
  _ ← assertNonNegativeSafeInteger value "voteIndex"; Ok (num_Z value).
Definition asBulletinIndex (value : num) : result Z :=
  _ ← assertNonNegativeSafeInteger value "bulletinIndex"; Ok (num_Z value).
Definition asLeafIndex (value : num) : result Z :=
  _ ← assertNonNegativeSafeInteger value "leafIndex"; Ok (num_Z value).

Definition uuidV4Regex (s : string) : bool :=
  Journal.matches (Journal.uuid_classes (fun c => Ascii.eqb c "4") Journal.variant_digit) s.

Definition isValidVoteId (voteId : string) : bool :=
  if text_includes voteId ".." || text_includes voteId "/" || text_includes voteId "\" then false
  else uuidV4Regex voteId.

(** ** Hex text of a fixed length (domain/lib/utils/hex.ts) *)

Record NormalizeHexOptions := mkHexOptions {
  ho_length : option Z;
  ho_prefix : option bool;
  ho_allowEmpty : option bool;
  ho_allowOddLength : option bool;
}.

Definition no_options : NormalizeHexOptions := mkHexOptions None None None None.
Definition allow_empty : NormalizeHexOptions := mkHexOptions None None (Some true) None.

Definition zeroHex (length : Z) (prefix : bool) : string :=
  let zeros := repeat_char (Z.to_nat length) "0" in
  if prefix then ("0x" +:+ zeros)%string else zeros.

Definition normalizeHex (value : string) (options : NormalizeHexOptions) : result string :=
  let length := default 64 (ho_length options) in
  let prefix := default true (ho_prefix options) in
  let allowEmpty := default false (ho_allowEmpty options) in
  let allowOddLength := default true (ho_allowOddLength options) in
  let clean := strip_hex_prefix value in
  if Z.eqb (slen clean) 0 then
    if negb allowEmpty then throw ("Invalid hex value: " +:+ value)%string
    else Ok (zeroHex length prefix)
  else if negb (string_all is_hex clean) then throw ("Invalid hex value: " +:+ value)%string
  else if negb allowOddLength && negb (Z.eqb (slen clean mod 2) 0)
  then throw ("Invalid hex value: " +:+ value)%string
  else
    let padded := if Z.leb length (slen clean) then clean else pad_start clean length "0" in
    let normalized := to_lower padded in
    Ok (if prefix then ("0x" +:+ normalized)%string else normalized).

Definition normalizeHexOrZero (value : option string) (options : NormalizeHexOptions) : result string :=
  match value with
  | None | Some EmptyString => Ok (zeroHex (default 64 (ho_length options)) (default true (ho_prefix options)))
  | Some value => normalizeHex value options
  end.

(** ** The board (simple-bulletin-board.ts) *)

Record VoteEntry := mkEntry {
  ve_voteId : string;
  ve_commitment : string;
  ve_index : Z;
  ve_timestamp : Z;
  ve_rootAtAppend : string;
}.

Record AppendResult := mkAppend {
  ar_index : Z;
  ar_rootAtAppend : string;
  ar_timestamp : Z;
}.

Record RootSnapshot := mkSnapshot {
  rs_timestamp : Z;
  rs_treeSize : Z;
  rs_root : string;
  rs_signature : option string;
}.

Record InclusionProof := mkInclusion {
  ip_leafIndex : Z;
  ip_proofNodes : list string;
  ip_treeSize : Z;
  ip_rootHash : string;
}.

(** [voteEntries] lists the entries of the map in insertion order. *)
Record SimpleBulletinBoard := mkBoard {
  tree : Tree;
  voteEntries : list (string * VoteEntry);
  commitmentSet : gset string;
  commitments : list string;
  rootHistory : list RootSnapshot;
  logId : string;
}.

Fixpoint map_get {A} (entries : list (string * A)) (key : string) : option A :=
  match entries with
  | [] => None
  | (k, v) :: rest => if String.eqb k key then Some v else map_get rest key
  end.

Definition with_tree (t : Tree) (b : SimpleBulletinBoard) : SimpleBulletinBoard :=
  mkBoard t (voteEntries b) (commitmentSet b) (commitments b) (rootHistory b) (logId b).

(** A method of the tree, called on the board's tree. *)
Definition on_tree {A} (m : SM Tree A) : SM SimpleBulletinBoard A := fun b =>
  let '(r, t) := m (tree b) in (r, with_tree t b).

Definition record_entry (entry : VoteEntry) : SM SimpleBulletinBoard unit := sm_modify (fun b =>
  mkBoard (tree b) (voteEntries b ++ [(ve_voteId entry, entry)]) ({[ve_commitment entry]} ∪ commitmentSet b)
    (commitments b ++ [ve_commitment entry])
    (rootHistory b ++ [mkSnapshot (ve_timestamp entry) (size (tree b)) (ve_rootAtAppend entry) None]) (logId b)).

Section with_noble.
Context `{Noble}.

Definition generateBulletinLogId (seed : string) : string :=
  ("0x" +:+ sha256Hex [map char_code (String.list_ascii_of_string "stark-ballot:bulletin-log|v1.0");
                        map char_code (String.list_ascii_of_string seed)])%string.

Definition new_board (logId : option string) : SimpleBulletinBoard :=
  mkBoard empty_tree [] ∅ [] []
    (match logId with Some id => id | None => generateBulletinLogId "simple-bulletin-board" end).

Definition appendVote (voteId commitment : string) (now : Z) : SM SimpleBulletinBoard AppendResult :=
  if negb (isValidVoteId voteId) then sm_throw "Invalid vote ID format"
  else
    b ← sm_get;
    if is_some (map_get (voteEntries b) voteId) then sm_throw "Vote ID already exists"
    else
      let normalizedCommitment := normalizeHexString commitment in
      if negb (str_truthy normalizedCommitment) then sm_throw "Commitment cannot be empty"
      else if negb (isValidHexString normalizedCommitment (Some 32)) then sm_throw "Invalid commitment format"
      else if bool_decide (normalizedCommitment ∈ commitmentSet b) then sm_throw "Commitment already exists"
      else
        index ← sm_lift (asBulletinIndex (NInt (zlength (commitments b))));
        _ ← on_tree (append normalizedCommitment);
        rootAtAppend ← on_tree getRoot;
        _ ← record_entry (mkEntry voteId normalizedCommitment index now rootAtAppend);
        mret (mkAppend index rootAtAppend now).

Definition getCurrentRoot : SM SimpleBulletinBoard string := on_tree getRoot.
Definition getSize (b : SimpleBulletinBoard) : Z := size (tree b).
Definition getCommitments (b : SimpleBulletinBoard) : list string := commitments b.
Definition getVoteById (b : SimpleBulletinBoard) (voteId : string) : option VoteEntry :=
  map_get (voteEntries b) voteId.

Definition getVoteByIndex (b : SimpleBulletinBoard) (index : num) : option VoteEntry :=
  match asBulletinIndex index with
  | Err _ => None
  | Ok bulletinIndex =>
      if Z.leb (zlength (commitments b)) bulletinIndex then None
      else List.find (fun entry => Z.eqb (ve_index entry) bulletinIndex) (map snd (voteEntries b))
  end.

Definition getRootHistory (b : SimpleBulletinBoard) : list RootSnapshot := rootHistory b.
Definition getLogId (b : SimpleBulletinBoard) : string := logId b.

Definition board_getRootAtSize (size : Z) : SM SimpleBulletinBoard string := on_tree (getRootAtSize size).

Definition board_getConsistencyProof (oldSize newSize : Z) : SM SimpleBulletinBoard ConsistencyProof :=
  on_tree (Rfc6962.getConsistencyProof oldSize newSize).

Definition verifyConsistency (oldRoot newRoot : string) (proof : ConsistencyProof) : result bool :=
  Rfc6962.verifyConsistencyProof oldRoot newRoot proof.

Definition board_getInclusionProof (voteId : string) (treeSize : option Z) :
    SM SimpleBulletinBoard (option InclusionProof) :=
  b ← sm_get;
  match map_get (voteEntries b) voteId with
  | None => mret None
  | Some entry =>
      let sz := match treeSize with Some s => s | None => size (tree b) end in
      if Z.leb sz 0 then sm_throw "Tree size must be positive"
      else if Z.ltb (size (tree b)) sz then sm_throw "Tree size exceeds current tree size"
      else if Z.leb sz (ve_index entry) then sm_throw "Leaf index is out of range for tree size"
      else
        proof ← on_tree (Rfc6962.getInclusionProof (ve_index entry) (Some sz));
        leafIndex ← sm_lift (asLeafIndex (NInt proof.1));
        rootHash ← on_tree (getRootAtSize sz);
        mret (Some (mkInclusion leafIndex proof.2 sz rootHash))
  end.

Definition board_verifyInclusionProof (leafHash : string) (leafIndex : num) (proofNodes : list string)
    (rootHash : string) (treeSize : Z) : result bool :=
  i ← asLeafIndex leafIndex;
  Rfc6962.verifyInclusionProof leafHash i proofNodes rootHash treeSize.

Definition clear : SM SimpleBulletinBoard unit := sm_modify (fun b => mkBoard empty_tree [] ∅ [] [] (logId b)).

End with_noble.
End Bulletin.

(** * What the board promises *)

(** The board keeps its invariant on every sequence of calls: positions,
    identifiers, commitments and root history agree with one another and with
    the Merkle tree hash; what it proves of an entry, the client's verifier
    accepts. *)
Import Rfc6962.
Import Bulletin.

(** ** Maps listed in insertion order *)

Lemma map_get_None {A} (l : list (string * A)) key : map_get l key = None <-> key ∉ map fst l.
Proof.
  induction l as [| [k v] l IH]; cbn [map_get map fst]; [by split; [intros _ ?%elem_of_nil |] |].
  destruct (String.eqb_spec k key) as [-> | Hne].
  - split; [done |]. intros Hn. exfalso. apply Hn. by left.
  - rewrite IH, elem_of_cons. split; [intros Hl [<- | ?]; done | tauto].
Qed.

Lemma map_get_lookup {A} (l : list (string * A)) k key v :
  NoDup (map fst l) -> l !! k = Some (key, v) -> map_get l key = Some v.
Proof.
  revert k. induction l as [| [k0 v0] l IH]; intros k Hn Hk; [done |].
  cbn [map fst] in Hn. apply NoDup_cons in Hn as [Hk0 Hn]. cbn [map_get].
  destruct k as [| k]; cbn in Hk.
  - injection Hk as -> ->. by rewrite String.eqb_refl.
  - destruct (String.eqb_spec k0 key) as [-> |]; [| by eapply IH].
    exfalso. apply Hk0. apply list_elem_of_In, in_map_iff. exists (key, v). split; [done |].
    apply list_elem_of_In. by eapply list_elem_of_lookup_2.
Qed.

Lemma map_get_Some {A} (l : list (string * A)) key v : map_get l key = Some v -> exists k, l !! k = Some (key, v).
Proof.
  induction l as [| [k0 v0] l IH]; cbn [map_get]; [done |].
  destruct (String.eqb_spec k0 key) as [-> |]; [intros [= ->]; by exists 0%nat |].
  intros [k Hk]%IH. by exists (S k).
Qed.

Section board.
Context `{NobleLaws}.

(** ** The invariant *)

Definition board_bytes (b : SimpleBulletinBoard) : list bytes := leaf_bytes <$> commitments b.

(** The root when the entry of position [k] had been appended. *)
Definition root_at (b : SimpleBulletinBoard) (k : nat) : string := root_of (take (S k) (board_bytes b)).

Definition snapshot_of (k : nat) (e : string * VoteEntry) : RootSnapshot :=
  mkSnapshot (ve_timestamp e.2) (Z.of_nat (S k)) (ve_rootAtAppend e.2) None.

Record board_ok (b : SimpleBulletinBoard) : Prop := {
  bo_tree : tree_ok (tree b);
  bo_leaves : leaves (tree b) = map normalizeHexString (commitments b);
  bo_valid : Forall valid_leaf (commitments b);
  bo_nodup : NoDup (commitments b);
  bo_set : commitmentSet b = list_to_set (commitments b);
  bo_ids : NoDup (map fst (voteEntries b));
  bo_length : length (voteEntries b) = length (commitments b);
  bo_safe : zlength (commitments b) <= MAX_SAFE_INTEGER + 1;
  bo_entries k id e : voteEntries b !! k = Some (id, e) ->
    isValidVoteId id = true /\ ve_voteId e = id /\ commitments b !! k = Some (ve_commitment e) /\
    ve_index e = Z.of_nat k /\ ve_rootAtAppend e = root_at b k;
  bo_history : rootHistory b = imap snapshot_of (voteEntries b);
}.

Lemma board_ok_new log : board_ok (new_board log).
Proof. split; try done; try constructor. Qed.

Lemma leaf_bytes_normalize s : valid_leaf s -> leaf_bytes (normalizeHexString s) = leaf_bytes s.
Proof.
  intros Hs. destruct (valid_leaf_normalize s Hs) as [Hl _]. unfold leaf_bytes, hexToBytesStrict.
  by rewrite (normalize_lower_hex (normalizeHexString s)).
Qed.

Lemma board_tree_bytes b : board_ok b -> tree_bytes (tree b) = board_bytes b.
Proof.
  intros Hb. unfold tree_bytes, board_bytes. rewrite (bo_leaves b Hb).
  assert (Hv := bo_valid b Hb). induction Hv as [| s l Hs _ IH]; [done |]. cbn [map fmap list_fmap].
  rewrite leaf_bytes_normalize by done. f_equal. apply IH.
Qed.

Lemma board_size b : board_ok b -> size (tree b) = zlength (commitments b).
Proof. intros Hb. unfold size, zlength. by rewrite (bo_leaves b Hb), length_map. Qed.

(** A method of the tree that only reads leaves the board as it was. *)
Definition same_board (b b' : SimpleBulletinBoard) : Prop :=
  b' = with_tree (tree b') b /\ leaves (tree b') = leaves (tree b) /\ tree_ok (tree b').

Lemma same_board_ok b b' : board_ok b -> same_board b b' -> board_ok b'.
Proof. intros [] (-> & L & Hok). cbn in L, Hok. by split; cbn; try done; congruence. Qed.

Lemma same_board_refl b : board_ok b -> same_board b b.
Proof. intros Hb. split_and!; [by destruct b | done | apply Hb]. Qed.

Lemma same_board_trans b1 b2 b3 : same_board b1 b2 -> same_board b2 b3 -> same_board b1 b3.
Proof.
  intros (E1 & L1 & _) (E2 & L2 & O2). split_and!; [| congruence | done].
  rewrite E2, E1 at 1. by destruct b1.
Qed.

Lemma on_tree_returns {A} (m : SM Tree A) b a :
  returns m (tree b) a -> exists b', on_tree m b = (Ok a, b') /\ same_board b b'.
Proof. intros (t' & E & L & Hok). exists (with_tree t' b). unfold on_tree. by rewrite E. Qed.

Lemma on_tree_error {A} (m : SM Tree A) b e :
  m (tree b) = (Err e, tree b) -> on_tree m b = (Err e, b).
Proof. unfold on_tree. intros ->. by destruct b. Qed.

(** ** Appending *)

Definition accepts (b : SimpleBulletinBoard) (voteId commitment : string) : bool :=
  let n := normalizeHexString commitment in
  isValidVoteId voteId && negb (is_some (map_get (voteEntries b) voteId)) &&
  isValidHexString n (Some 32) && negb (bool_decide (n ∈ commitments b)) &&
  Z.leb (zlength (commitments b)) MAX_SAFE_INTEGER.

Definition entry_of (b : SimpleBulletinBoard) (voteId commitment : string) (now : Z) : VoteEntry :=
  let n := normalizeHexString commitment in
  mkEntry voteId n (zlength (commitments b)) now (root_of (board_bytes b ++ [leaf_bytes n])).

(** What an accepted vote adds. *)
Record grown (b b' : SimpleBulletinBoard) (e : VoteEntry) : Prop := {
  gr_ok : board_ok b';
  gr_commitments : commitments b' = commitments b ++ [ve_commitment e];
  gr_entries : voteEntries b' = voteEntries b ++ [(ve_voteId e, e)];
  gr_log : logId b' = logId b;
}.

Lemma index_check z : 0 <= z ->
  asBulletinIndex (NInt z) = if Z.leb z MAX_SAFE_INTEGER then Ok z
                             else throw "bulletinIndex must be a non-negative safe integer".
Proof.
  intros Hz. unfold asBulletinIndex, assertNonNegativeSafeInteger. cbn [isSafeInteger num_ltb].
  destruct (Z.ltb_spec z 0); [lia |]. unfold safe_Z. destruct (Z.leb_spec (- MAX_SAFE_INTEGER) z).
  - destruct (Z.leb z MAX_SAFE_INTEGER); done.
  - exfalso. unfold MAX_SAFE_INTEGER in *. lia.
Qed.

Lemma leaf_check z : 0 <= z <= MAX_SAFE_INTEGER -> asLeafIndex (NInt z) = Ok z.
Proof.
  intros Hz. unfold asLeafIndex, assertNonNegativeSafeInteger. cbn [isSafeInteger num_ltb].
  destruct (Z.ltb_spec z 0); [lia |].
  assert (safe_Z z = true) as -> by (apply safe_Z_spec; unfold MAX_SAFE_INTEGER in *; lia). done.
Qed.

Lemma append_normalized b n : board_ok b -> isValidHexString n (Some 32) = true ->
  exists b', on_tree (append n) b = (Ok tt, b') /\ b' = with_tree (tree b') b /\ tree_ok (tree b') /\
    leaves (tree b') = leaves (tree b) ++ [normalizeHexString n].
Proof.
  intros Hb Hn. destruct (valid_leaf_normalize n Hn) as [Hl Hs].
  assert (Ha : append_ok n = true).
  { unfold append_ok. assert (canonical_valid_leaf : valid_leaf (normalizeHexString n))
      by (by apply canonical_valid_leaf). unfold valid_leaf in *. rewrite canonical_valid_leaf.
    by destruct (normalizeHexString n). }
  destruct (append_grows n (tree b) Ha) as (t' & E & L & _).
  exists (with_tree t' b). unfold on_tree. rewrite E. split_and!; [done | done | | done].
  assert (Hok := tree_ok_append n (tree b) (bo_tree b Hb)). by rewrite E in Hok.
Qed.

Lemma tree_bytes_append b n t' : board_ok b -> valid_leaf n ->
  leaves t' = leaves (tree b) ++ [normalizeHexString n] -> tree_bytes t' = board_bytes b ++ [leaf_bytes n].
Proof.
  intros Hb Hn L. rewrite <- board_tree_bytes by done. unfold tree_bytes. rewrite L, fmap_app. cbn.
  by rewrite leaf_bytes_normalize.
Qed.

Lemma imap_snoc {A B} (f : nat -> A -> B) l x : imap f (l ++ [x]) = imap f l ++ [f (length l) x].
Proof. rewrite imap_app. cbn. by rewrite Nat.add_0_r. Qed.

Lemma recorded_ok b t' e : board_ok b -> tree_ok t' ->
  leaves t' = leaves (tree b) ++ [normalizeHexString (ve_commitment e)] ->
  isValidVoteId (ve_voteId e) = true -> ve_voteId e ∉ map fst (voteEntries b) ->
  valid_leaf (ve_commitment e) -> ve_commitment e ∉ commitments b ->
  zlength (commitments b) <= MAX_SAFE_INTEGER -> ve_index e = zlength (commitments b) ->
  ve_rootAtAppend e = root_of (board_bytes b ++ [leaf_bytes (ve_commitment e)]) ->
  exists b', record_entry e (with_tree t' b) = (Ok tt, b') /\ grown b b' e.
Proof.
  intros Hb Ht L Hid Hnew Hv Hc Hz Hi Hr. eexists. split; [done |]. split; [| done ..].
  assert (Hlen := bo_length b Hb). split; cbn.
  - done.
  - by rewrite map_app, L, (bo_leaves b Hb).
  - apply Forall_app. split; [apply Hb | by apply Forall_singleton].
  - apply NoDup_app. split_and!; [apply Hb | | apply NoDup_singleton].
    intros x Hx ->%list_elem_of_singleton. done.
  - by rewrite (bo_set b Hb), list_to_set_app_L, list_to_set_singleton_L, (comm_L (∪)).
  - rewrite map_app. cbn. apply NoDup_app. split_and!; [apply Hb | | apply NoDup_singleton].
    intros x Hx ->%list_elem_of_singleton. done.
  - rewrite !length_app. cbn. lia.
  - rewrite zlength_app, zlength_single. lia.
  - assert (Hat : forall k, (k < length (commitments b))%nat ->
      take (S k) (board_bytes b ++ [leaf_bytes (ve_commitment e)]) = take (S k) (board_bytes b)).
    { intros k Hk. apply take_app_le. unfold board_bytes. rewrite length_fmap. lia. }
    intros k id e' Hk. unfold root_at, board_bytes. cbn. rewrite fmap_app. cbn.
    change (leaf_bytes <$> commitments b) with (board_bytes b).
    apply lookup_app_Some in Hk as [Hk | [Hge Hk]].
    + assert (Hlt := lookup_lt_Some _ _ _ Hk). rewrite Hat by lia.
      destruct (bo_entries b Hb k id e' Hk) as (? & ? & ? & ? & ?). split_and!; try done.
      by apply lookup_app_l_Some.
    + apply list_lookup_singleton_Some in Hk as [Hk0 [= <- <-]].
      assert (k = length (commitments b)) as -> by lia. split_and!; try done.
      * by rewrite lookup_app_r, Nat.sub_diag by done.
      * rewrite Hr. f_equal. symmetry. apply take_ge.
        rewrite length_app. unfold board_bytes. rewrite length_fmap. cbn. lia.
  - rewrite imap_snoc, (bo_history b Hb). do 2 f_equal. unfold snapshot_of. cbn. f_equal.
    unfold size, zlength. rewrite L, (bo_leaves b Hb), length_app, length_map. cbn. lia.
Qed.

Lemma appendVote_spec voteId commitment now b : board_ok b ->
  let e := entry_of b voteId commitment now in
  if accepts b voteId commitment then
    exists b', appendVote voteId commitment now b = (Ok (mkAppend (ve_index e) (ve_rootAtAppend e) now), b') /\
      grown b b' e
  else exists msg, appendVote voteId commitment now b = (Err (Throw msg), b).
Proof.
  intros Hb e. unfold appendVote, accepts.
  set (n := normalizeHexString commitment) in *.
  destruct (isValidVoteId voteId) eqn:Eid; cbn [negb andb]; [| by eexists].
  change ((sm_get ≫= ?f) b) with (f b b). cbv beta.
  destruct (map_get (voteEntries b) voteId) eqn:Eg; cbn [is_some negb andb]; [by eexists |].
  destruct (isValidHexString n (Some 32)) eqn:Ev; cbn [negb andb]; cycle 1.
  { destruct (str_truthy n); by eexists. }
  rewrite (valid_leaf_truthy n Ev). cbn [negb].
  assert (Hset : bool_decide (n ∈ commitmentSet b) = bool_decide (n ∈ commitments b)).
  { apply bool_decide_ext. rewrite (bo_set b Hb). apply elem_of_list_to_set. }
  rewrite Hset. destruct (bool_decide (n ∈ commitments b)) eqn:Ed; cbn [negb andb]; [by eexists |].
  apply bool_decide_eq_false_1 in Ed.
  unfold mbind, SM_bind, sm_lift. rewrite index_check by apply zlength_nonneg.
  destruct (Z.leb_spec (zlength (commitments b)) MAX_SAFE_INTEGER) as [Hz |]; [| by eexists].
  destruct (append_normalized b n Hb Ev) as (b1 & -> & E1 & O1 & L1).
  destruct (on_tree_returns getRoot b1 _ (returns_getRoot _ O1)) as (b2 & -> & E2 & L2 & O2).
  rewrite (tree_bytes_append b n (tree b1)) by done.
  assert (Hb2 : b2 = with_tree (tree b2) b) by (rewrite E2, E1 at 1; by destruct b).
  rewrite Hb2.
  destruct (recorded_ok b (tree b2) e) as (b3 & E3 & G); try done.
  - by rewrite L2, L1.
  - by apply map_get_None.
  - change (mkEntry _ _ _ _ _) with e. rewrite E3. by exists b3.
Qed.

(** ** Sequences of calls *)

Inductive board_call : Type :=
| BAppend (voteId commitment : string) (now : Z)
| BCurrentRoot
| BRootAtSize (size : Z)
| BInclusion (voteId : string) (treeSize : option Z)
| BConsistency (oldSize newSize : Z)
| BClear.

Definition run_board_call (c : board_call) (b : SimpleBulletinBoard) : SimpleBulletinBoard :=
  match c with
  | BAppend voteId commitment now => snd (appendVote voteId commitment now b)
  | BCurrentRoot => snd (getCurrentRoot b)
  | BRootAtSize size => snd (board_getRootAtSize size b)
  | BInclusion voteId treeSize => snd (board_getInclusionProof voteId treeSize b)
  | BConsistency oldSize newSize => snd (board_getConsistencyProof oldSize newSize b)
  | BClear => snd (clear b)
  end.

Inductive board_reachable : SimpleBulletinBoard -> Prop :=
| board_new log : board_reachable (new_board log)
| board_step c b : board_reachable b -> board_reachable (run_board_call c b).

Definition only_reads (c : board_call) : bool :=
  match c with BAppend _ _ _ | BClear => false | _ => true end.

Lemma read_if {A} (m : SM Tree A) b (P : Prop) `{!Decision P} a :
  (P -> returns m (tree b) a) -> (~ P -> exists e, m (tree b) = (Err e, tree b)) ->
  board_ok b -> same_board b (snd (on_tree m b)).
Proof.
  intros Hret Herr Hb. destruct (decide P) as [HP | HP].
  - by destruct (on_tree_returns m b a (Hret HP)) as (b' & -> & Hs).
  - destruct (Herr HP) as [e E]. rewrite (on_tree_error m b e E). by apply same_board_refl.
Qed.

Lemma read_root n b : board_ok b -> same_board b (snd (board_getRootAtSize n b)).
Proof.
  intros Hb. unfold board_getRootAtSize. eapply (read_if _ _ (1 <= n <= size (tree b))); [| | done].
  - apply returns_getRootAtSize. apply Hb.
  - intros Hn. destruct (getRootAtSize_throws n (tree b) Hn) as [e E]. by exists (Throw e).
Qed.

(** The proof of an entry at a size that holds it, and the errors otherwise. *)
Definition issued (b : SimpleBulletinBoard) (k : nat) (n : Z) : InclusionProof :=
  mkInclusion (Z.of_nat k) (path_spec (range_fuel n) (Z.of_nat k) (take (Z.to_nat n) (board_bytes b))) n
    (root_of (take (Z.to_nat n) (board_bytes b))).

Lemma issue_proof b k id e n : board_ok b -> voteEntries b !! k = Some (id, e) ->
  Z.of_nat k < n <= zlength (commitments b) ->
  exists b', board_getInclusionProof id (Some n) b = (Ok (Some (issued b k n)), b') /\ same_board b b'.
Proof.
  intros Hb Hk Hn. destruct (bo_entries b Hb k id e Hk) as (_ & _ & _ & Hi & _).
  unfold board_getInclusionProof. change ((sm_get ≫= ?f) b) with (f b b). cbv beta.
  rewrite (map_get_lookup _ k id e) by (done || apply Hb). rewrite Hi, board_size by done.
  destruct (Z.leb_spec n 0); [lia |]. destruct (Z.ltb_spec (zlength (commitments b)) n); [lia |].
  destruct (Z.leb_spec n (Z.of_nat k)); [lia |].
  assert (Hr : range (tree b) 0 n = take (Z.to_nat n) (board_bytes b))
    by (unfold range; by rewrite drop_0, board_tree_bytes).
  destruct (on_tree_returns (Rfc6962.getInclusionProof (Z.of_nat k) (Some n)) b _
    (returns_getInclusionProof (Z.of_nat k) n (tree b) (bo_tree b Hb) ltac:(lia) ltac:(rewrite board_size; [lia | done])))
    as (b1 & E1 & S1).
  unfold mbind, SM_bind, sm_lift. rewrite E1. cbn [fst snd].
  assert (Hsafe := bo_safe b Hb). rewrite leaf_check by lia.
  destruct S1 as (E & L1 & O1).
  assert (Hn1 : 1 <= n <= size (tree b1)) by (rewrite (size_same_leaves (tree b)), board_size by done; lia).
  destruct (on_tree_returns (getRootAtSize n) b1 _ (returns_getRootAtSize n (tree b1) O1 Hn1)) as (b2 & E2 & S2).
  rewrite E2, (range_same_leaves (tree b) (tree b1)), Hr by done. exists b2. split; [done |].
  by eapply same_board_trans.
Qed.

Lemma board_range b n : board_ok b -> range (tree b) 0 n = take (Z.to_nat n) (board_bytes b).
Proof. intros Hb. unfold range. by rewrite drop_0, board_tree_bytes. Qed.

Lemma read_inclusion id n b : board_ok b -> same_board b (snd (board_getInclusionProof id n b)).
Proof.
  intros Hb. unfold board_getInclusionProof. change ((sm_get ≫= ?f) b) with (f b b). cbv beta.
  destruct (map_get (voteEntries b) id) as [e |] eqn:Eg; [| by apply same_board_refl].
  apply map_get_Some in Eg as [k Hk]. set (sz := match n with Some s => s | None => size (tree b) end).
  assert (Hi : ve_index e = Z.of_nat k) by (by destruct (bo_entries b Hb k id e Hk) as (_ & _ & _ & ? & _)).
  destruct (Z.leb_spec sz 0) as [| H1]; [by apply same_board_refl |].
  destruct (Z.ltb_spec (size (tree b)) sz) as [| H2]; [by apply same_board_refl |].
  destruct (Z.leb_spec sz (ve_index e)) as [| H3]; [by apply same_board_refl |].
  rewrite board_size in H2 by done.
  destruct (issue_proof b k id e sz Hb Hk) as (b' & E & Hs); [lia |].
  unfold board_getInclusionProof in E. change ((sm_get ≫= ?f) b) with (f b b) in E. cbv beta in E.
  rewrite (map_get_lookup _ k id e) in E by (done || apply Hb).
  rewrite board_size in E by done. destruct (Z.leb_spec sz 0); [lia |].
  destruct (Z.ltb_spec (zlength (commitments b)) sz); [lia |].
  destruct (Z.leb_spec sz (ve_index e)); [lia |]. by rewrite E.
Qed.

Lemma read_board_call c b : board_ok b -> only_reads c = true -> same_board b (run_board_call c b).
Proof.
  intros Hb Hc. destruct c as [| | n | id n | old new |]; try done; cbn [run_board_call].
  - unfold getCurrentRoot. by destruct (on_tree_returns getRoot b _ (returns_getRoot _ (bo_tree b Hb))) as (b' & -> & Hs).
  - by apply read_root.
  - by apply read_inclusion.
  - eapply (read_if _ _ (1 <= old <= new /\ new <= size (tree b))); [| | done].
    + intros [H1 H2]. apply returns_getConsistencyProof; [apply Hb | done | done].
    + intros Hn. destruct (getConsistencyProof_throws old new (tree b)) as [e E]; [lia |]. by exists (Throw e).
Qed.

Lemma board_call_ok c b : board_ok b -> board_ok (run_board_call c b).
Proof.
  intros Hb. destruct (only_reads c) eqn:Ec; [by eapply same_board_ok, read_board_call |].
  destruct c as [voteId commitment now | | | | |]; try done; cbn [run_board_call].
  - assert (Hs := appendVote_spec voteId commitment now b Hb). cbv zeta in Hs.
    destruct (accepts b voteId commitment); destruct Hs as [? Hs]; [| by rewrite Hs].
    destruct Hs as [-> G]. apply G.
  - exact (board_ok_new (Some (logId b))).
Qed.

Lemma board_reachable_ok b : board_reachable b -> board_ok b.
Proof. induction 1; [apply board_ok_new | by apply board_call_ok]. Qed.

Lemma lookup_by_index b k id e : board_ok b -> voteEntries b !! k = Some (id, e) ->
  getVoteByIndex b (NInt (Z.of_nat k)) = Some e.
Proof.
  intros Hb Hk. assert (Hlt := lookup_lt_Some _ _ _ Hk). assert (Hs := bo_safe b Hb).
  assert (Hl := bo_length b Hb). unfold getVoteByIndex, zlength in *. rewrite index_check by lia.
  destruct (Z.leb_spec (Z.of_nat k) MAX_SAFE_INTEGER); [| lia].
  destruct (Z.leb_spec (Z.of_nat (length (commitments b))) (Z.of_nat k)); [lia |].
  assert (He := fun j id e Hj => proj1 (proj2 (proj2 (proj2 (bo_entries b Hb j id e Hj))))).
  clear -He Hk. assert (Hgen : forall l off, (forall j x, l !! j = Some x -> ve_index x.2 = Z.of_nat (off + j)) ->
    forall i, l !! i = Some (id, e) ->
    List.find (fun x => Z.eqb (ve_index x) (Z.of_nat (off + i))) (map snd l) = Some e).
  { induction l as [| x l IH]; intros off Hl i Hi; [done |]. cbn [map List.find].
    rewrite (Hl 0%nat x eq_refl). destruct i as [| i].
    - injection Hi as ->. by rewrite Z.eqb_refl.
    - destruct (Z.eqb_spec (Z.of_nat (off + 0)) (Z.of_nat (off + S i))); [lia |].
      replace (off + S i)%nat with (S off + i)%nat by lia. apply IH; [| done].
      intros j y Hj. rewrite (Hl (S j) y Hj). lia. }
  apply (Hgen (voteEntries b) 0%nat); [| done]. intros j [id' e'] Hj. by apply (He j id' e').
Qed.

Lemma call_extends c b : board_ok b -> c <> BClear ->
  voteEntries b `prefix_of` voteEntries (run_board_call c b) /\
  commitments b `prefix_of` commitments (run_board_call c b) /\ logId (run_board_call c b) = logId b.
Proof.
  intros Hb Hc. destruct (only_reads c) eqn:Ec.
  { destruct (read_board_call c b Hb Ec) as (-> & _). done. }
  destruct c as [voteId commitment now | | | | |]; try done. cbn [run_board_call].
  assert (Hs := appendVote_spec voteId commitment now b Hb). cbv zeta in Hs.
  destruct (accepts b voteId commitment); destruct Hs as [? Hs]; [| by rewrite Hs].
  destruct Hs as [-> [_ Hcs Hes Hl]]. cbn [snd]. rewrite Hcs, Hes. split_and!; [by eexists | by eexists | done].
Qed.

Lemma calls_extend cs : forall b, board_ok b -> Forall (fun c => c <> BClear) cs ->
  let b' := fold_left (fun b c => run_board_call c b) cs b in
  board_ok b' /\ voteEntries b `prefix_of` voteEntries b' /\ commitments b `prefix_of` commitments b' /\
  logId b' = logId b.
Proof.
  induction cs as [| c cs IH]; intros b Hb Hcs; cbn [fold_left]; [done |].
  apply Forall_cons in Hcs as [Hc Hcs]. destruct (call_extends c b Hb Hc) as (H1 & H2 & H3).
  destruct (IH (run_board_call c b) (board_call_ok c b Hb) Hcs) as (Hb' & H4 & H5 & H6).
  split_and!; [done | by etrans | by etrans | congruence].
Qed.

Lemma issued_verifies b k id e n : board_ok b -> voteEntries b !! k = Some (id, e) ->
  Z.of_nat k < n <= zlength (commitments b) ->
  board_verifyInclusionProof (ve_commitment e) (NInt (Z.of_nat k)) (ip_proofNodes (issued b k n))
    (ip_rootHash (issued b k n)) n = Ok true.
Proof.
  intros Hb Hk Hn. destruct (bo_entries b Hb k id e Hk) as (_ & _ & Hc & _ & _).
  assert (Hv : valid_leaf (ve_commitment e)) by (eapply Forall_lookup_1; [apply (bo_valid b Hb) | done]).
  assert (Hs := bo_safe b Hb). unfold board_verifyInclusionProof. rewrite leaf_check by lia.
  cbn [mbind result_bind]. cbn [issued ip_proofNodes ip_rootHash].
  set (l := take (Z.to_nat n) (board_bytes b)).
  assert (Hl : zlength l = n).
  { unfold l, zlength, board_bytes in *. rewrite length_take, length_fmap. lia. }
  rewrite <- Hl at 1 2. apply (verifyInclusionProof_spec l _ (leaf_bytes (ve_commitment e))).
  - rewrite znth_of_nat. unfold l, board_bytes. rewrite lookup_take_lt by lia. by rewrite list_lookup_fmap, Hc.
  - by apply valid_leaf_decodes.
Qed.

(** ** The properties *)

(** The board is consistent with itself after any sequence of its calls,
    failed ones included: identifiers and commitments are pairwise distinct,
    the entry of position [k] has index [k], the [k]-th commitment and the
    Merkle root of the first [k + 1] of them, the root history has one snapshot
    per entry, with its time, its size and its root, and both lookups find
    the entry. *)
Theorem bulletin_board_invariant b :
  board_reachable b ->
  NoDup (map fst (voteEntries b)) /\ NoDup (commitments b) /\
  length (rootHistory b) = length (voteEntries b) /\ getSize b = zlength (voteEntries b) /\
  forall k id e, voteEntries b !! k = Some (id, e) ->
    isValidVoteId id = true /\ ve_index e = Z.of_nat k /\ commitments b !! k = Some (ve_commitment e) /\
    isValidHexString (ve_commitment e) (Some 32) = true /\
    ve_rootAtAppend e = bytesToHex (MTH (take (S k) (board_bytes b))) /\
    rootHistory b !! k = Some (mkSnapshot (ve_timestamp e) (Z.of_nat (S k)) (ve_rootAtAppend e) None) /\
    getVoteById b id = Some e /\ getVoteByIndex b (NInt (Z.of_nat k)) = Some e.
Proof.
  intros Hb%board_reachable_ok. split_and!; [apply Hb | apply Hb | | |].
  - by rewrite (bo_history b Hb), length_imap.
  - unfold getSize. rewrite board_size by done. unfold zlength. by rewrite (bo_length b Hb).
  - intros k id e Hk. destruct (bo_entries b Hb k id e Hk) as (Hid & _ & Hc & Hi & Hr).
    split_and!; try done.
    + apply (Forall_lookup_1 valid_leaf (commitments b) k); [apply Hb | done].
    + by rewrite (bo_history b Hb), list_lookup_imap, Hk.
    + eapply map_get_lookup; [apply Hb | done].
    + by eapply lookup_by_index.
Qed.

(** The board is append-only: whatever calls follow, short of clearing it,
    what it holds is a prefix of what it will hold, entries, commitments and
    root history alike, and its log keeps its identifier. *)
Theorem bulletin_append_only b cs :
  board_reachable b -> Forall (fun c => c <> BClear) cs ->
  let b' := fold_left (fun b c => run_board_call c b) cs b in
  voteEntries b `prefix_of` voteEntries b' /\ commitments b `prefix_of` commitments b' /\
  rootHistory b `prefix_of` rootHistory b' /\ logId b' = logId b.
Proof.
  intros Hb%board_reachable_ok Hcs b'. destruct (calls_extend cs b Hb Hcs) as (Hb' & He & Hc & Hl).
  fold b' in Hb', He, Hc, Hl. split_and!; try done.
  rewrite (bo_history b Hb), (bo_history b' Hb'). destruct He as [more ->].
  rewrite imap_app. by eexists.
Qed.

(** Every entry of the board, at every size that holds it, has a proof that
    the verifier of the client accepts for its commitment, against the root
    the board gives for that size; at the size of its own append this is the
    root that was published with the vote. Asking for it changes no entry. *)
Theorem board_proofs_verify b k id e n :
  board_reachable b -> voteEntries b !! k = Some (id, e) -> Z.of_nat k < n <= getSize b ->
  exists p b', board_getInclusionProof id (Some n) b = (Ok (Some p), b') /\
    voteEntries b' = voteEntries b /\ rootHistory b' = rootHistory b /\
    ip_leafIndex p = ve_index e /\ ip_treeSize p = n /\
    fst (board_getRootAtSize n b) = Ok (ip_rootHash p) /\
    board_verifyInclusionProof (ve_commitment e) (NInt (ip_leafIndex p)) (ip_proofNodes p) (ip_rootHash p) n = Ok true /\
    (n = ve_index e + 1 -> ip_rootHash p = ve_rootAtAppend e).
Proof.
  intros Hb%board_reachable_ok Hk Hn. unfold getSize in Hn. rewrite board_size in Hn by done.
  destruct (bo_entries b Hb k id e Hk) as (_ & _ & Hc & Hi & Hr).
  destruct (issue_proof b k id e n Hb Hk Hn) as (b' & E & (Eb & _ & _)).
  exists (issued b k n), b'. split_and!; [done | by rewrite Eb | by rewrite Eb | done | done | | |].
  - destruct (on_tree_returns (getRootAtSize n) b _ (returns_getRootAtSize n (tree b) (bo_tree b Hb)
      ltac:(rewrite board_size by done; lia))) as (b2 & E2 & _).
    unfold board_getRootAtSize. by rewrite E2, board_range.
  - by eapply issued_verifies.
  - intros ->. rewrite Hr, Hi. unfold root_at. cbn. do 2 f_equal. lia.
Qed.

End board.
