(* ===== verification/CtSession.v ===== *)
(** The canonical log of a voting record (packages/domain/src/lib/bulletin/
    ctSessionState.ts) and the staging of new votes (stagedCtVoteWrite.ts): a
    board is rebuilt from the stored votes, whatever the record says of it.
    [Date.now()] is an argument: [now k] is its reading when the vote of index
    [k] is appended. *)
From S2P Require Import Prelude.
From S2P Require Import Hex.
From S2P Require Import Rfc6962.
From S2P Require Import JsNumber.
From S2P Require Import JsText.
From S2P Require Import JsValue.
From S2P Require Import Contract.
From S2P Require Import Bulletin.
Import Rfc6962.
Import JsText.
Import JsValue.
Import Contract.
Import Bulletin.

Module CtSession.

(** ** Records of the session *)

(** [sv_voteId] and [sv_timestamp] may be missing from a stored record. *)
Record StoredVoteRecord := mkStored {
  sv_voteId : option string;
  sv_timestamp : option num;
  sv_vote : string;
  sv_rand : string;
  sv_commit : string;
  sv_rootAtCast : string;
}.

Record PreparedVote := mkPrepared {
  pv_voteId : string;
  pv_timestamp : Z;
  pv_vote : string;
  pv_rand : string;
  pv_commit : string;
}.

Inductive UserParticipation : Type :=
| not_cast
| cast (voteIndex : num).

(** [votes] lists the map in insertion order; [bulletin] is [None] for what is
    not an instance of the class. *)
Record SessionVotingRecord := mkVoting {
  votes : list (num * StoredVoteRecord);
  bulletin : option SimpleBulletinBoard;
  bulletinRootHistory : jsval;
  userParticipation : UserParticipation;
}.

Record CanonicalCtSessionProjection := mkProjection {
  cp_bulletin : SimpleBulletinBoard;
  cp_bulletinRootHistory : list RootSnapshot;
  cp_botCount : Z;
  cp_userParticipation : UserParticipation;
  cp_nextIndex : Z;
}.

Definition USER_VOTE_REQUIRED_BEFORE_BOT_VOTES : string := "USER_VOTE_REQUIRED_BEFORE_BOT_VOTES".
Definition NON_CANONICAL_CT_VOTE_INDICES : string := "NON_CANONICAL_CT_VOTE_INDICES".

(** ** Indices *)

Definition sort_indices (indices : list num) : list num := js_sort difference_sign indices.

Definition sort_entries {A} (entries : list (num * A)) : list (num * A) :=
  js_sort (fun a b => difference_sign a.1 b.1) entries.

Fixpoint canonical_from (expectedIndex : Z) (sortedIndices : list num) : bool :=
  match sortedIndices with
  | [] => true
  | actualIndex :: rest =>
      negb (negb (isSafeInteger actualIndex) || num_ltb actualIndex (NInt 0) ||
            negb (num_eqb actualIndex (NInt expectedIndex))) &&
      canonical_from (expectedIndex + 1) rest
  end.

Definition assertCanonicalCtVoteIndices (indices : list num) : result Z :=
  let sortedIndices := sort_indices indices in
  if negb (canonical_from 0 sortedIndices) then throw NON_CANONICAL_CT_VOTE_INDICES
  else asVoteIndex (NInt (zlength sortedIndices)).

(** [votes.has(index)] for an index that is a safe integer *)
Definition has_index {A} (entries : list (num * A)) (index : num) : bool :=
  existsb (fun e => num_eqb e.1 index) entries.

Definition resolveCanonicalUserVoteIndex {A} (entries : list (num * A)) (explicitUserVoteIndex : option num) :
    option Z :=
  match explicitUserVoteIndex with
  | Some index =>
      if isSafeInteger index && num_leb (NInt 0) index && has_index entries index then Some (num_Z index) else None
  | None => None
  end.

Definition assertCanonicalUserVoteIndexForBotVotes {A} (entries : list (num * A))
    (explicitUserVoteIndex : option num) : result Z :=
  match resolveCanonicalUserVoteIndex entries explicitUserVoteIndex with
  | Some 0 => Ok 0
  | _ => throw USER_VOTE_REQUIRED_BEFORE_BOT_VOTES
  end.

Definition deriveBotCountFromVotes {A} (entries : list (num * A)) (explicitUserVoteIndex : option num) :
    result Z :=
  _ ← assertCanonicalCtVoteIndices (map fst entries);
  if Z.eqb (zlength entries) 0 then Ok 0
  else match resolveCanonicalUserVoteIndex entries explicitUserVoteIndex with
       | Some userVoteIndex =>
           Ok (zlength (List.filter (fun e => negb (num_eqb e.1 (NInt userVoteIndex))) entries))
       | None => Ok (Z.max (zlength entries - 1) 0)
       end.

Definition getNextVoteIndex {A} (entries : list (num * A)) : result Z :=
  assertCanonicalCtVoteIndices (map fst entries).

(** ** The persisted history *)

Definition positive_integer (n : num) : option Z :=
  if isInteger n && num_ltb (NInt 0) n then Some (num_Z n) else None.

Definition toPositiveInteger (value : jsval) : option Z :=
  match value with
  | JNum n => positive_integer n
  | JStr s => if Z.ltb 0 (slen (trim s)) then positive_integer (number_of_text s) else None
  | _ => None
  end.

Definition cloneRootSnapshot (snapshot : RootSnapshot) : RootSnapshot :=
  mkSnapshot (rs_timestamp snapshot) (rs_treeSize snapshot) (rs_root snapshot) (rs_signature snapshot).

Definition normalizePersistedRootSnapshot (value : jsval) : option RootSnapshot :=
  if negb (isNonNullObject value) then None
  else
    match as_string (prop value "root"), toPositiveInteger (prop value "treeSize"),
          toPositiveInteger (prop value "timestamp") with
    | Some root, Some treeSize, Some timestamp =>
        if negb (str_truthy root) then None
        else match normalizeHex root allow_empty with
             | Ok normalized => Some (mkSnapshot timestamp treeSize normalized (as_string (prop value "signature")))
             | Err _ => None
             end
    | _, _, _ => None
    end.

Definition resolveSnapshotTimestamp (vote : StoredVoteRecord) (fallbackTimestamp : Z) : Z :=
  match sv_timestamp vote ≫= positive_integer with Some t => t | None => fallbackTimestamp end.

Definition parsePersistedRootHistory (value : jsval) : option (list RootSnapshot) :=
  match value with
  | JArr items => all_some normalizePersistedRootSnapshot items
  | _ => None
  end.

(** The persisted snapshot of each position has the size and the root rebuilt for it. *)
Fixpoint persisted_agrees (reconstructed persisted : list RootSnapshot) : bool :=
  match reconstructed, persisted with
  | [], [] => true
  | r :: rs, p :: ps =>
      Z.eqb (rs_treeSize p) (rs_treeSize r) && String.eqb (rs_root p) (rs_root r) && persisted_agrees rs ps
  | _, _ => false
  end.

Definition merge_snapshot (snapshot persistedSnapshot : RootSnapshot) : RootSnapshot :=
  mkSnapshot (rs_timestamp persistedSnapshot) (rs_treeSize snapshot) (rs_root snapshot)
    (match rs_signature persistedSnapshot with Some s => Some s | None => rs_signature snapshot end).

Definition mergePersistedRootHistory (reconstructedHistory : list RootSnapshot)
    (persistedHistory : option (list RootSnapshot)) : list RootSnapshot :=
  match reconstructedHistory, persistedHistory with
  | [], _ => []
  | _, None => map cloneRootSnapshot reconstructedHistory
  | _, Some persisted =>
      if persisted_agrees reconstructedHistory persisted
      then zip_with merge_snapshot reconstructedHistory persisted
      else map cloneRootSnapshot reconstructedHistory
  end.

(** ** Rebuilding the log *)

Section with_noble.
Context `{Noble}.

Fixpoint rebuild_loop (now : Z -> Z) (sortedVotes : list (num * StoredVoteRecord)) :
    SM SimpleBulletinBoard (list RootSnapshot) :=
  match sortedVotes with
  | [] => mret []
  | (_, vote) :: rest =>
      match sv_voteId vote with
      | None | Some EmptyString => rebuild_loop now rest
      | Some voteId =>
          b ← sm_get;
          appendResult ← appendVote voteId (text_slice 2 (sv_commit vote)) (now (zlength (commitments b)));
          root ← sm_lift (normalizeHex (ar_rootAtAppend appendResult) allow_empty);
          history ← rebuild_loop now rest;
          mret (mkSnapshot (resolveSnapshotTimestamp vote (ar_timestamp appendResult))
                  (ar_index appendResult + 1) root None :: history)
      end
  end.

(** The record's board only gives its log identifier. *)
Definition rebuildCanonicalBulletinFromVotes (now : Z -> Z) (voting : SessionVotingRecord) :
    result (SimpleBulletinBoard * list RootSnapshot) :=
  _ ← assertCanonicalCtVoteIndices (map fst (votes voting));
  match bulletin voting with
  | None => throw "TypeError"
  | Some board =>
      match rebuild_loop now (sort_entries (votes voting)) (new_board (Some (getLogId board))) with
      | (Ok history, rebuilt) => Ok (rebuilt, history)
      | (Err e, _) => Err e
      end
  end.

Fixpoint history_loop (fallbackTimestamp : Z) (sortedVotes : list (num * StoredVoteRecord)) :
    SM Tree (list RootSnapshot) :=
  match sortedVotes with
  | [] => mret []
  | (_, vote) :: rest =>
      _ ← append (sv_commit vote);
      root ← getRoot;
      normalized ← sm_lift (normalizeHex root allow_empty);
      t ← sm_get;
      history ← history_loop fallbackTimestamp rest;
      mret (mkSnapshot (resolveSnapshotTimestamp vote fallbackTimestamp) (size t) normalized None :: history)
  end.

Definition rebuildCanonicalHistoryFromVotes (fallbackTimestamp : Z) (entries : list (num * StoredVoteRecord)) :
    result (list RootSnapshot) :=
  _ ← assertCanonicalCtVoteIndices (map fst entries);
  fst (history_loop fallbackTimestamp (sort_entries entries) empty_tree).

Definition getCanonicalBulletinRootHistory (fallbackTimestamp : Z) (voting : SessionVotingRecord) :
    result (list RootSnapshot) :=
  reconstructedHistory ← rebuildCanonicalHistoryFromVotes fallbackTimestamp (votes voting);
  Ok (mergePersistedRootHistory reconstructedHistory (parsePersistedRootHistory (bulletinRootHistory voting))).

Definition getLatestCanonicalBulletinSnapshot (fallbackTimestamp : Z) (voting : SessionVotingRecord) :
    result (option RootSnapshot) :=
  rootHistory ← getCanonicalBulletinRootHistory fallbackTimestamp voting;
  Ok (last rootHistory).

Definition explicit_index (p : UserParticipation) : option num :=
  match p with cast voteIndex => Some voteIndex | not_cast => None end.

Definition buildCanonicalCtSessionProjection (now : Z -> Z) (fallbackTimestamp : Z)
    (voting : SessionVotingRecord) : result CanonicalCtSessionProjection :=
  rebuilt ← rebuildCanonicalBulletinFromVotes now voting;
  history ← getCanonicalBulletinRootHistory fallbackTimestamp voting;
  let explicitUserVoteIndex := explicit_index (userParticipation voting) in
  let userVoteIndex := resolveCanonicalUserVoteIndex (votes voting) explicitUserVoteIndex in
  botCount ← deriveBotCountFromVotes (votes voting) explicitUserVoteIndex;
  nextIndex ← getNextVoteIndex (votes voting);
  Ok (mkProjection rebuilt.1 history botCount
        (match userVoteIndex with None => not_cast | Some index => cast (NInt index) end) nextIndex).

(** ** Staging writes (stagedCtVoteWrite.ts) *)

Record IndexedVoteWrite := mkWrite {
  iw_index : num;
  iw_vote : PreparedVote;
}.

Record StagedVoteWrite := mkStagedVote {
  st_index : num;
  st_voteId : string;
  st_storedVote : StoredVoteRecord;
}.

Record StagedCtWriteResult := mkStaged {
  sr_bulletin : SimpleBulletinBoard;
  sr_bulletinRootHistory : list RootSnapshot;
  sr_votes : list StagedVoteWrite;
}.

Fixpoint append_existing (now : Z -> Z) (existingVotes : list (num * StoredVoteRecord)) :
    SM SimpleBulletinBoard unit :=
  match existingVotes with
  | [] => mret tt
  | (_, existingVote) :: rest =>
      match sv_voteId existingVote with
      | None | Some EmptyString => sm_throw "CT_PROOF_UNAVAILABLE"
      | Some existingVoteId =>
          b ← sm_get;
          _ ← appendVote existingVoteId (text_slice 2 (sv_commit existingVote)) (now (zlength (commitments b)));
          append_existing now rest
      end
  end.

(** Membership of a [Set] of numbers: [NaN] is equal to itself. *)
Definition same_value (a b : num) : bool :=
  num_eqb a b || match a, b with NNaN, NNaN => true | _, _ => false end.

Fixpoint has_duplicate (seen : list num) (orderedWrites : list IndexedVoteWrite) : bool :=
  match orderedWrites with
  | [] => false
  | w :: rest => existsb (same_value (iw_index w)) seen || has_duplicate (iw_index w :: seen) rest
  end.

Fixpoint stage_loop (now : Z -> Z) (expected : Z) (orderedWrites : list IndexedVoteWrite) :
    SM SimpleBulletinBoard (list RootSnapshot * list StagedVoteWrite) :=
  match orderedWrites with
  | [] => mret ([], [])
  | w :: rest =>
      if negb (num_eqb (iw_index w) (NInt expected)) then sm_throw NON_CANONICAL_CT_VOTE_INDICES
      else
        let vote := iw_vote w in
        b ← sm_get;
        appendResult ← appendVote (pv_voteId vote) (text_slice 2 (pv_commit vote)) (now (zlength (commitments b)));
        b' ← sm_get;
        rootAtCast ← sm_lift (normalizeHex (ar_rootAtAppend appendResult) allow_empty);
        staged ← stage_loop now (expected + 1) rest;
        mret (mkSnapshot (ar_timestamp appendResult) (getSize b') (ar_rootAtAppend appendResult) None :: staged.1,
              mkStagedVote (iw_index w) (pv_voteId vote)
                (mkStored (Some (pv_voteId vote)) (Some (NInt (ar_timestamp appendResult))) (pv_vote vote)
                   (pv_rand vote) (pv_commit vote) rootAtCast) :: staged.2)
  end.

Definition stageCtVoteWrites (now : Z -> Z) (fallbackTimestamp : Z) (authority : SessionVotingRecord)
    (writes : list IndexedVoteWrite) : result StagedCtWriteResult :=
  match bulletin authority with
  | None => throw "CT_PROOF_UNAVAILABLE"
  | Some board =>
      let existingVotes := sort_entries (votes authority) in
      nextIndex ← assertCanonicalCtVoteIndices (map fst (votes authority));
      match append_existing now existingVotes (new_board (Some (getLogId board))) with
      | (Err e, _) => Err e
      | (Ok _, stagedBulletin) =>
          history ← getCanonicalBulletinRootHistory fallbackTimestamp authority;
          let kept := map cloneRootSnapshot (take (length existingVotes) history) in
          let orderedWrites := js_sort (fun a b => difference_sign (iw_index a) (iw_index b)) writes in
          if has_duplicate [] orderedWrites then throw "Duplicate staged vote index"
          else match stage_loop now nextIndex orderedWrites stagedBulletin with
               | (Ok staged, final) => Ok (mkStaged final (kept ++ staged.1) staged.2)
               | (Err e, _) => Err e
               end
      end
  end.

End with_noble.
End CtSession.
