(* ===== verification/CtSessionProofs.v ===== *)
(** What the canonical log of a voting record promises: the history it returns
    is the one of the votes, whatever was persisted; a staged write continues
    the log of the stored votes and every new vote can be proved against the
    root returned with it. *)
From S2P Require Import Prelude.
From S2P Require Import Hex.
From S2P Require Import Rfc6962.
From S2P Require Import MerkleSpec.
From S2P Require Import TreeFacts.
From S2P Require Import Inclusion.
From S2P Require Import JsNumber.
From S2P Require Import JsText.
From S2P Require Import JsValue.
From S2P Require Import Contract.
From S2P Require Import ContractFacts.
From S2P Require Import Bulletin.
From S2P Require Import CtSession.
From S2P Require Import Reference.
Import Rfc6962.
Import JsText.
Import JsValue.
Import Contract.
Import Bulletin.
Import CtSession.

(** ** Indices *)

Lemma sort_insert_fst {A} (e : num * A) l :
  map fst (sort_insert (fun a b => difference_sign a.1 b.1) e l) = sort_insert difference_sign e.1 (map fst l).
Proof.
  induction l as [| x l IH]; [done |]. cbn [sort_insert map]. destruct (Z.leb _ 0); [done |].
  cbn [map]. by rewrite IH.
Qed.

Lemma sort_entries_fst {A} (l : list (num * A)) : map fst (sort_entries l) = sort_indices (map fst l).
Proof.
  induction l as [| e l IH]; [done |]. unfold sort_entries, sort_indices in *. cbn [js_sort map].
  by rewrite sort_insert_fst, IH.
Qed.

(** [from], [from + 1], ... *)
Fixpoint count_from (from : Z) (n : nat) : list num :=
  match n with O => [] | S n => NInt from :: count_from (from + 1) n end.

Lemma canonical_from_spec l : forall from, canonical_from from l = true -> l = count_from from (length l).
Proof.
  induction l as [| x l IH]; intros from; [done |]. cbn [canonical_from length count_from].
  intros Hc. apply andb_true_iff in Hc as [Hx Hl]. apply negb_true_iff in Hx.
  apply orb_false_iff in Hx as [_ Hx]. apply negb_false_iff, num_eqb_int_r in Hx. subst x.
  f_equal. by apply IH.
Qed.

Lemma canonical_from_count n : forall from, 0 <= from -> from + Z.of_nat n <= MAX_SAFE_INTEGER + 1 ->
  canonical_from from (count_from from n) = true.
Proof.
  induction n as [| n IH]; intros from Hf Hn; [done |]. cbn [count_from canonical_from].
  rewrite IH by lia. cbn [isSafeInteger num_ltb num_eqb]. rewrite Z.eqb_refl.
  destruct (Z.ltb_spec from 0); [lia |].
  assert (safe_Z from = true) as -> by (apply safe_Z_spec; unfold MAX_SAFE_INTEGER in *; lia). done.
Qed.

Lemma count_from_lookup n : forall from k, (k < n)%nat -> count_from from n !! k = Some (NInt (from + Z.of_nat k)).
Proof.
  induction n as [| n IH]; intros from k Hk; [lia |]. destruct k as [| k]; cbn.
  - do 2 f_equal. lia.
  - rewrite IH by lia. do 2 f_equal. lia.
Qed.

Lemma canonical_indices l n : assertCanonicalCtVoteIndices l = Ok n ->
  n = zlength l /\ sort_indices l = count_from 0 (length l) /\ zlength l <= MAX_SAFE_INTEGER.
Proof.
  unfold assertCanonicalCtVoteIndices. destruct (canonical_from 0 (sort_indices l)) eqn:E; [| done].
  cbn [negb]. apply canonical_from_spec in E.
  assert (Hl : length (sort_indices l) = length l) by (apply Permutation_length, js_sort_perm).
  unfold asVoteIndex, assertNonNegativeSafeInteger, zlength. rewrite Hl. cbn [isSafeInteger num_ltb].
  destruct (safe_Z (Z.of_nat (length l))) eqn:Es; [| done]. cbn [negb orb].
  destruct (Z.ltb_spec (Z.of_nat (length l)) 0); [lia |]. intros [= <-]. apply safe_Z_spec in Es.
  split_and!; [done | by rewrite <- Hl | lia].
Qed.

(** ** Text of a commit *)

Definition has_prefix (s : string) : bool :=
  match s with
  | String c0 (String c1 _) => Ascii.eqb c0 "0" && (Ascii.eqb c1 "x" || Ascii.eqb c1 "X")
  | _ => false
  end.

Lemma strip_if s : strip_hex_prefix s = if has_prefix s then text_slice 2 s else s.
Proof.
  destruct s as [| c0 [| c1 s]]; [done | by all_chars c0 |].
  cbn [has_prefix text_slice]. destruct (Ascii.eqb_spec c0 "0") as [-> | Hn]; cbn [andb].
  - destruct (Ascii.eqb_spec c1 "x") as [-> | Hx]; [done |]. destruct (Ascii.eqb_spec c1 "X") as [-> | HX]; [done |].
    cbn [orb]. destruct c1 as [[] [] [] [] [] [] [] []]; try done; congruence.
  - destruct c0 as [[] [] [] [] [] [] [] []]; try done; congruence.
Qed.

Lemma lower_zero c : Ascii.eqb (lower_char c) "0" = Ascii.eqb c "0".
Proof. all_chars c. Qed.

Lemma lower_x c : Ascii.eqb (lower_char c) "x" || Ascii.eqb (lower_char c) "X" = Ascii.eqb c "x" || Ascii.eqb c "X".
Proof. all_chars c. Qed.

Lemma strip_lower s : strip_hex_prefix (to_lower s) = to_lower (strip_hex_prefix s).
Proof.
  rewrite !strip_if. assert (has_prefix (to_lower s) = has_prefix s) as ->.
  { destruct s as [| c0 [| c1 s]]; [done | done |]. cbn. by rewrite lower_zero, lower_x. }
  destruct (has_prefix s); [| done]. by destruct s as [| c0 [| c1 s]].
Qed.

Lemma normalize_eq s : normalizeHexString s = to_lower (strip_hex_prefix s).
Proof. by destruct s. Qed.

Lemma strip_length s : (String.length (strip_hex_prefix s) <= String.length s)%nat.
Proof.
  rewrite strip_if. destruct (has_prefix s); [| done]. destruct s as [| c0 [| c1 s]]; cbn; lia.
Qed.

Lemma slice_length n s : String.length (text_slice n s) = (String.length s - n)%nat.
Proof. revert s. induction n as [| n IH]; intros [| c s]; try done. cbn. apply IH. Qed.

Lemma hex_of_lower s : string_all is_lower_hex (to_lower s) = true -> string_all is_hex s = true.
Proof.
  unfold to_lower. rewrite string_all_map. apply string_all_impl, is_lower_hex_of_lower.
Qed.

Section log.
Context `{NobleLaws}.

(** ** Text of a root *)

Definition prefixed (root : string) : string := ("0x" +:+ root)%string.

Lemma normalize_stripped v l : strip_hex_prefix v = root_of l ->
  normalizeHex v allow_empty = Ok (prefixed (root_of l)).
Proof.
  intros Hv. destruct (root_of_canonical l) as [Hl Hs]. unfold normalizeHex. rewrite Hv.
  assert (Hh : string_all is_hex (root_of l) = true)
    by (eapply string_all_impl; [apply is_lower_hex_is_hex | done]).
  rewrite Hs, Hh. cbn. by rewrite to_lower_lower_hex.
Qed.

Lemma normalize_root l : normalizeHex (root_of l) allow_empty = Ok (prefixed (root_of l)).
Proof.
  apply normalize_stripped, strip_hex_prefix_hex.
  eapply string_all_impl; [apply is_lower_hex_is_hex | apply root_of_canonical].
Qed.

(** ** Appending many votes *)

Lemma appendVote_Ok voteId commitment now b a b' : board_ok b ->
  appendVote voteId commitment now b = (Ok a, b') ->
  let e := entry_of b voteId commitment now in
  a = mkAppend (ve_index e) (ve_rootAtAppend e) now /\ grown b b' e.
Proof.
  intros Hb E e. assert (Hs := appendVote_spec voteId commitment now b Hb). cbv zeta in Hs. fold e in Hs.
  destruct (accepts b voteId commitment); destruct Hs as [x Hs].
  - destruct Hs as [Hs G]. rewrite Hs in E. by injection E as <- <-.
  - by rewrite Hs in E.
Qed.

Lemma appendVote_reachable voteId commitment now b a b' : board_reachable b ->
  appendVote voteId commitment now b = (a, b') -> board_reachable b'.
Proof. intros Hb E. assert (Hs := board_step (BAppend voteId commitment now) b Hb). cbn in Hs. by rewrite E in Hs. Qed.

(** The commitment under which a stored commit is appended. *)
Definition appended (commit : string) : string := normalizeHexString (text_slice 2 commit).

Lemma append_existing_Ok now l : forall b b', board_reachable b -> append_existing now l b = (Ok tt, b') ->
  board_reachable b' /\ commitments b' = commitments b ++ map (fun v => appended (sv_commit v.2)) l /\
  logId b' = logId b /\
  map (fun e => Some e.1) (voteEntries b') = map (fun e => Some e.1) (voteEntries b) ++ map (fun v => sv_voteId v.2) l.
Proof.
  induction l as [| [i v] l IH]; intros b b' Hb; cbn [append_existing].
  - intros [= <-]. cbn. by rewrite !app_nil_r.
  - destruct (sv_voteId v) as [[| c id] |] eqn:Eid; try done.
    change ((sm_get ≫= ?f) b) with (f b b). cbv beta. unfold mbind, SM_bind.
    destruct (appendVote _ _ _ b) as [[a | e] b1] eqn:E; [| done]. intros Hl.
    destruct (appendVote_Ok _ _ _ _ _ _ (board_reachable_ok b Hb) E) as [_ G].
    destruct (IH b1 b') as (H1 & H2 & H3 & H4); [by eapply appendVote_reachable | done |].
    split_and!; [done | | by rewrite H3, (gr_log _ _ _ G) |].
    + rewrite H2, (gr_commitments _ _ _ G), <- app_assoc. done.
    + rewrite H4, (gr_entries _ _ _ G), map_app, <- app_assoc. cbn. by rewrite Eid.
Qed.

(** What staging a write leaves: the entry, the record and the snapshot. *)
Definition staged_as (b' : SimpleBulletinBoard) (k : nat) (w : IndexedVoteWrite) (v : StagedVoteWrite)
    (s : RootSnapshot) : Prop :=
  exists e, voteEntries b' !! k = Some (pv_voteId (iw_vote w), e) /\
    ve_commitment e = appended (pv_commit (iw_vote w)) /\ iw_index w = NInt (Z.of_nat k) /\
    v = mkStagedVote (iw_index w) (pv_voteId (iw_vote w))
          (mkStored (Some (pv_voteId (iw_vote w))) (Some (NInt (ve_timestamp e))) (pv_vote (iw_vote w))
             (pv_rand (iw_vote w)) (pv_commit (iw_vote w)) (prefixed (ve_rootAtAppend e))) /\
    s = mkSnapshot (ve_timestamp e) (Z.of_nat (S k)) (ve_rootAtAppend e) None.

Lemma stage_loop_Ok now l : forall b res b', board_reachable b ->
  stage_loop now (zlength (voteEntries b)) l b = (Ok res, b') ->
  board_reachable b' /\ voteEntries b `prefix_of` voteEntries b' /\ logId b' = logId b /\
  length (voteEntries b') = (length (voteEntries b) + length l)%nat /\
  length res.1 = length l /\ length res.2 = length l /\
  forall j w, l !! j = Some w -> exists v s, res.2 !! j = Some v /\ res.1 !! j = Some s /\
    staged_as b' (length (voteEntries b) + j) w v s.
Proof.
  induction l as [| w l IH]; intros b res b' Hb; cbn [stage_loop].
  { intros [= <- <-]. cbn. split_and!; done || lia. }
  destruct (num_eqb (iw_index w) (NInt (zlength (voteEntries b)))) eqn:Ei; [| done]. cbn [negb].
  apply num_eqb_int_r in Ei. assert (Hok := board_reachable_ok b Hb).
  change ((sm_get ≫= ?f) b) with (f b b). cbv beta. unfold mbind at 1, SM_bind at 1.
  destruct (appendVote _ _ _ b) as [[a | e] b1] eqn:E; [| done].
  destruct (appendVote_Ok _ _ _ _ _ _ Hok E) as [-> [Hok1 Hc1 He1 Hl1]]. cbn [ar_rootAtAppend ar_timestamp].
  set (e := entry_of b _ _ _) in *. change ((sm_get ≫= ?f) b1) with (f b1 b1). cbv beta.
  unfold mbind, SM_bind, sm_lift.
  assert (Hr : normalizeHex (ve_rootAtAppend e) allow_empty = Ok (prefixed (ve_rootAtAppend e)))
    by apply normalize_root.
  rewrite Hr.
  assert (Hz : zlength (voteEntries b1) = zlength (voteEntries b) + 1)
    by (by rewrite He1, zlength_app, zlength_single).
  rewrite <- Hz. assert (Hb1 := appendVote_reachable _ _ _ _ _ _ Hb E).
  destruct (stage_loop now _ l b1) as [[staged | err] b2] eqn:El; [| done].
  intros [= <- <-]. destruct (IH b1 staged b2 Hb1 El) as (H1 & H2 & H3 & H4 & H5 & H6 & H7).
  rewrite He1, length_app in H4. cbn [length] in H4.
  split_and!; [done | | congruence | cbn; lia | cbn; lia | cbn; lia |].
  { etrans; [| done]. rewrite He1. by eexists. }
  intros j w' Hj. destruct j as [| j]; cbn in Hj.
  - injection Hj as <-. eexists _, _. split_and!; [done | done |]. exists e.
    rewrite Nat.add_0_r. split_and!; try done.
    + destruct H2 as [more ->]. rewrite He1, <- app_assoc. by rewrite lookup_app_r, Nat.sub_diag by done.
    + unfold getSize. rewrite board_size by done. rewrite Hc1, zlength_app, zlength_single. unfold e. cbn.
      f_equal. unfold zlength. rewrite (bo_length b Hok). lia.
  - destruct (H7 j w' Hj) as (v & s & Hv & Hs & Hst). exists v, s. split_and!; [done | done |].
    rewrite He1, length_app in Hst. cbn [length] in Hst.
    by replace (length (voteEntries b) + S j)%nat with (length (voteEntries b) + 1 + j)%nat by lia.
Qed.

(** ** The two readings of a stored commit *)

Definition commit_bytes (commit : string) : bytes := leaf_bytes (normalizeHexString commit).

Lemma same_normal_bytes a b : normalizeHexString a = normalizeHexString b -> leaf_bytes a = leaf_bytes b.
Proof. unfold leaf_bytes, Hex.hexToBytesStrict. by intros ->. Qed.

(** A commit the history accepted is appended under the same bytes to the board. *)
Lemma commit_bytes_agree c : append_ok c = true -> valid_leaf (appended c) ->
  commit_bytes c = leaf_bytes (appended c).
Proof.
  intros Ha Hv. unfold appended in *. apply same_normal_bytes.
  unfold append_ok in Ha. apply andb_true_iff in Ha as [Hc Ha].
  apply isValidHexString_spec in Ha as [Hl Hs]. rewrite !normalize_eq in *. rewrite !strip_lower in *.
  rewrite !to_lower_idemp in *. rewrite (strip_if c) in *. destruct (has_prefix c) eqn:Ep.
  - f_equal. rewrite (strip_if (text_slice 2 c)) in *. destruct (has_prefix (text_slice 2 c)) eqn:Ep2; [| by rewrite strip_if, Ep2].
    symmetry. apply strip_hex_prefix_hex. by apply hex_of_lower.
  - exfalso. apply isValidHexString_spec in Hv as [_ Hv]. rewrite !normalize_eq, strip_lower, to_lower_idemp in Hv.
    rewrite (strip_if c), Ep in Hs. unfold slen, to_lower in Hs, Hv. rewrite string_map_length in Hs, Hv.
    assert (H1 := strip_length (strip_hex_prefix (text_slice 2 c))). assert (H2 := strip_length (text_slice 2 c)).
    assert (H3 := slice_length 2 c). lia.
Qed.

(** ** The history of the votes *)

Definition commits_of (entries : list (num * StoredVoteRecord)) : list string :=
  map (fun e => sv_commit e.2) (sort_entries entries).

Lemma history_loop_Ok fb l : forall t h t', tree_ok t -> history_loop fb l t = (Ok h, t') ->
  length h = length l /\ Forall (fun v => append_ok (sv_commit v.2) = true) l /\
  forall k s, h !! k = Some s ->
    rs_treeSize s = size t + Z.of_nat (S k) /\
    rs_root s = prefixed (root_of (tree_bytes t ++ take (S k) (map (fun v => commit_bytes (sv_commit v.2)) l))).
Proof.
  induction l as [| [i v] l IH]; intros t h t' Ht; cbn [history_loop].
  { by intros [= <- <-]. }
  unfold mbind, SM_bind, sm_lift. destruct (append_ok (sv_commit v)) eqn:Ha; cycle 1.
  { destruct (append_throws (sv_commit v) t Ha) as [e ->]. done. }
  destruct (append_grows (sv_commit v) t Ha) as (t1 & E1 & L1 & _).
  assert (Ht1 : tree_ok t1) by (assert (Hok := tree_ok_append (sv_commit v) t Ht); by rewrite E1 in Hok).
  rewrite E1. destruct (returns_eq _ _ _ (returns_getRoot t1 Ht1)) as (ER & L2 & Ht2).
  set (t2 := snd (getRoot t1)) in *. rewrite ER, normalize_root. cbn [sm_get].
  destruct (history_loop fb l t2) as [[rest | e] t3] eqn:El; [| done]. intros [= <- <-].
  destruct (IH t2 rest t3 Ht2 El) as (Hlen & Hall & Hs).
  assert (B1 : tree_bytes t1 = tree_bytes t ++ [commit_bytes (sv_commit v)])
    by (unfold tree_bytes; by rewrite L1, fmap_app).
  assert (B2 : tree_bytes t2 = tree_bytes t1) by (unfold tree_bytes; by rewrite L2).
  assert (Z1 : size t2 = size t + 1).
  { rewrite (size_same_leaves t1) by done. unfold size. by rewrite L1, zlength_app. }
  split_and!; [cbn; lia | by constructor |]. intros k s Hk. destruct k as [| k]; cbn in Hk.
  - injection Hk as <-. cbn [rs_treeSize rs_root]. rewrite Z1, B1. split; [lia |]. done.
  - destruct (Hs k s Hk) as [-> ->]. rewrite Z1, B2, B1, <- app_assoc. split; [lia | done].
Qed.

Lemma persisted_agrees_length r : forall p, persisted_agrees r p = true -> length p = length r.
Proof.
  induction r as [| a r IH]; intros [| b p]; cbn; try done.
  intros Hp. apply andb_true_iff in Hp as [_ Hp]. by rewrite (IH p).
Qed.

(** Merging takes nothing from what was persisted but times and signatures. *)
Lemma merge_keeps r p : map rs_root (mergePersistedRootHistory r p) = map rs_root r /\
  map rs_treeSize (mergePersistedRootHistory r p) = map rs_treeSize r.
Proof.
  assert (Hc : map rs_root (map cloneRootSnapshot r) = map rs_root r /\
               map rs_treeSize (map cloneRootSnapshot r) = map rs_treeSize r) by (by rewrite !map_map).
  destruct r as [| a r']; [by destruct p |]. destruct p as [p |]; [| exact Hc].
  unfold mergePersistedRootHistory. destruct (persisted_agrees (a :: r') p) eqn:E; [| exact Hc].
  apply persisted_agrees_length in E. clear Hc. revert p E. generalize (a :: r') as r. intros r.
  induction r as [| x r IH]; intros [| y p] E; try done. cbn. injection E as E.
  destruct (IH p E) as [-> ->]. done.
Qed.

Lemma canonical_history fb voting h : getCanonicalBulletinRootHistory fb voting = Ok h ->
  length h = length (votes voting) /\
  Forall (fun c => append_ok c = true) (commits_of (votes voting)) /\
  forall k s, h !! k = Some s ->
    rs_treeSize s = Z.of_nat (S k) /\
    rs_root s = prefixed (root_of (take (S k) (map commit_bytes (commits_of (votes voting))))).
Proof.
  unfold getCanonicalBulletinRootHistory, rebuildCanonicalHistoryFromVotes. intros E. bind_inv.
  injection E as <-. match goal with Hr : fst (history_loop _ _ _) = Ok ?r0 |- _ => rename Hr into Hl, r0 into r end.
  destruct (history_loop fb _ empty_tree) as [res t'] eqn:Eh. cbn in Hl. subst res.
  destruct (history_loop_Ok fb _ _ _ _ tree_ok_empty Eh) as (Hlen & Hall & Hs).
  destruct (merge_keeps r (parsePersistedRootHistory (bulletinRootHistory voting))) as [Hroot Hsize].
  set (m := mergePersistedRootHistory _ _) in *.
  assert (Hm : length m = length r) by (by rewrite <- (length_map rs_root), Hroot, length_map).
  split_and!.
  - rewrite Hm, Hlen. apply Permutation_length, js_sort_perm.
  - unfold commits_of. by apply Forall_map.
  - intros k s Hk. assert (Hlt := lookup_lt_Some _ _ _ Hk).
    destruct (lookup_lt_is_Some_2 r k) as [s0 Hk0]; [lia |].
    destruct (Hs k s0 Hk0) as [Hz0 Hr0].
    assert (Er : rs_root s = rs_root s0).
    { assert (Hx := f_equal (lookup k) Hroot). change (@map) with (@list_fmap) in Hx.
      rewrite !list_lookup_fmap, Hk, Hk0 in Hx. by injection Hx. }
    assert (Ez : rs_treeSize s = rs_treeSize s0).
    { assert (Hx := f_equal (lookup k) Hsize). change (@map) with (@list_fmap) in Hx.
      rewrite !list_lookup_fmap, Hk, Hk0 in Hx. by injection Hx. }
    rewrite Er, Ez, Hz0, Hr0. split; [by unfold size |]. unfold commits_of. by rewrite map_map.
Qed.

(** The root history of a voting record is the one of its votes: it has one
    snapshot per vote, the [k]-th one of size [k + 1] with the Merkle root of
    the first [k + 1] stored commitments in the order of their indices, and
    those indices are exactly [0 .. n - 1]. Whatever was persisted beside the
    votes can change neither a size nor a root. *)
Theorem canonical_history_of_votes fb voting h :
  getCanonicalBulletinRootHistory fb voting = Ok h ->
  map fst (sort_entries (votes voting)) = count_from 0 (length (votes voting)) /\
  length h = length (votes voting) /\
  forall k s, h !! k = Some s ->
    rs_treeSize s = Z.of_nat (S k) /\
    rs_root s = prefixed (bytesToHex (MTH (take (S k) (map commit_bytes (commits_of (votes voting)))))).
Proof.
  intros E. destruct (canonical_history fb voting h E) as (Hl & _ & Hs). split_and!; [| done | done].
  unfold getCanonicalBulletinRootHistory, rebuildCanonicalHistoryFromVotes in E. bind_inv.
  match goal with Hi : assertCanonicalCtVoteIndices _ = Ok _ |- _ => apply canonical_indices in Hi as (_ & Hi & _) end.
  rewrite sort_entries_fst. by rewrite length_map in *.
Qed.

(** ** Staged writes *)

Definition sorted_writes (writes : list IndexedVoteWrite) : list IndexedVoteWrite :=
  js_sort (fun a b => difference_sign (iw_index a) (iw_index b)) writes.

(** The parts of a successful staging: the rebuilt board, the kept history and
    the result of the loop over the writes. *)
Lemma stage_parts now fb authority writes r : stageCtVoteWrites now fb authority writes = Ok r ->
  exists board b0 h staged, bulletin authority = Some board /\
    append_existing now (sort_entries (votes authority)) (new_board (Some (getLogId board))) = (Ok tt, b0) /\
    getCanonicalBulletinRootHistory fb authority = Ok h /\
    stage_loop now (zlength (votes authority)) (sorted_writes writes) b0 = (Ok staged, sr_bulletin r) /\
    sr_bulletinRootHistory r = map cloneRootSnapshot (take (length (sort_entries (votes authority))) h) ++ staged.1 /\
    sr_votes r = staged.2.
Proof.
  unfold stageCtVoteWrites. destruct (bulletin authority) as [board |]; [| done]. intros E.
  apply bind_Ok in E as (n & Hn & E). apply canonical_indices in Hn as (-> & _ & _).
  unfold zlength at 1 in E. rewrite length_map in E. fold (zlength (votes authority)) in E.
  destruct (append_existing _ _ _) as [[[] | e] b0] eqn:Eb; [| done].
  apply bind_Ok in E as (h & Hh & E). fold (sorted_writes writes) in E.
  destruct (has_duplicate [] (sorted_writes writes)); [done |].
  destruct (stage_loop _ _ _ _) as [[staged | e] final] eqn:Es; [| done]. injection E as <-.
  by exists board, b0, h, staged.
Qed.

Lemma normalize_prefixed l : normalizeHex (prefixed (root_of l)) allow_empty = Ok (prefixed (root_of l)).
Proof. by apply normalize_stripped. Qed.

(** The state after staging, in terms of the final board. *)
Lemma staged_board now fb authority writes r : stageCtVoteWrites now fb authority writes = Ok r ->
  let n := length (votes authority) in
  let b := sr_bulletin r in
  board_reachable b /\ (getLogId <$> bulletin authority) = Some (getLogId b) /\
  map appended (commits_of (votes authority)) `prefix_of` commitments b /\
  length (commitments b) = (n + length writes)%nat /\ length (sr_votes r) = length writes /\
  exists h fresh, getCanonicalBulletinRootHistory fb authority = Ok h /\
    sr_bulletinRootHistory r = map cloneRootSnapshot h ++ fresh /\ length fresh = length writes /\
    forall j w, sorted_writes writes !! j = Some w -> exists v s, sr_votes r !! j = Some v /\
      fresh !! j = Some s /\ staged_as b (n + j) w v s.
Proof.
  intros E n b. destruct (stage_parts _ _ _ _ _ E) as (board & b0 & h & staged & Eb & Ea & Eh & Es & Er & Ev).
  destruct (append_existing_Ok _ _ _ _ (board_new _) Ea) as (Hb0 & Hc0 & Hl0 & _). cbn in Hc0, Hl0.
  assert (Hsort : length (sort_entries (votes authority)) = n) by apply Permutation_length, js_sort_perm.
  assert (Hwr : length (sorted_writes writes) = length writes) by apply Permutation_length, js_sort_perm.
  assert (Hn : length (voteEntries b0) = n).
  { rewrite (bo_length _ (board_reachable_ok b0 Hb0)), Hc0, length_map. done. }
  assert (Hz : zlength (votes authority) = zlength (voteEntries b0)) by (unfold zlength; by rewrite Hn).
  rewrite Hz in Es. destruct (stage_loop_Ok _ _ _ _ _ Hb0 Es) as (Hb & Hpre & Hl & Hlen & Hl1 & Hl2 & Hj).
  fold b in Hb, Hpre, Hl, Hlen, Hj. rewrite Hwr in *.
  assert (Hlast : commitments b0 `prefix_of` commitments b).
  { assert (Hcm : forall x, board_ok x -> commitments x = map (fun e => ve_commitment e.2) (voteEntries x)).
    { intros x Hx. apply list_eq. intros k. change (@map) with (@list_fmap). rewrite list_lookup_fmap.
      destruct (voteEntries x !! k) as [[id e] |] eqn:Ek; cbn.
      - by destruct (bo_entries x Hx k id e Ek) as (_ & _ & ? & _).
      - apply lookup_ge_None. rewrite <- (bo_length x Hx). by apply lookup_ge_None. }
    rewrite (Hcm b0), (Hcm b) by (by apply board_reachable_ok). destruct Hpre as [more ->].
    rewrite map_app. by eexists. }
  split_and!; [done | | | | by rewrite Ev |].
  - rewrite Eb. cbn. unfold getLogId in *. congruence.
  - unfold commits_of. rewrite map_map. by rewrite Hc0 in Hlast.
  - rewrite <- (bo_length b (board_reachable_ok b Hb)), Hlen. lia.
  - destruct (canonical_history fb authority h Eh) as (Hh & _ & _).
    exists h, staged.1. rewrite Er, take_ge by lia. split_and!; [done | done | done |].
    intros j w Hw. rewrite Ev, <- Hn. by apply Hj.
Qed.

(** The stored part of the history names the roots of the staged board. *)
Lemma kept_roots now fb authority writes r h k s : stageCtVoteWrites now fb authority writes = Ok r ->
  getCanonicalBulletinRootHistory fb authority = Ok h -> h !! k = Some s ->
  rs_treeSize s = Z.of_nat (S k) /\ rs_root s = prefixed (root_at (sr_bulletin r) k).
Proof.
  intros E Eh Hk. destruct (canonical_history fb authority h Eh) as (Hl & Hall & Hs).
  destruct (staged_board _ _ _ _ _ E) as (Hb & _ & [more Hc] & _).
  destruct (Hs k s Hk) as [-> ->]. split; [done |]. unfold root_at, board_bytes. do 2 f_equal. rewrite Hc.
  assert (Hv := bo_valid _ (board_reachable_ok _ Hb)). rewrite Hc in Hv. apply Forall_app in Hv as [Hv _].
  set (cs := commits_of (votes authority)) in *.
  assert (Hcs : length cs = length h).
  { unfold cs, commits_of. rewrite length_map, Hl. apply Permutation_length, js_sort_perm. }
  assert (Hlt := lookup_lt_Some _ _ _ Hk).
  rewrite fmap_app, take_app_le by (rewrite length_fmap, length_map; lia). f_equal.
  clear -Hall Hv. induction cs as [| c cs IH]; [done |]. cbn.
  apply Forall_cons in Hall as [Ha Hall]. cbn in Hv. apply Forall_cons in Hv as [Hc Hv].
  by rewrite commit_bytes_agree, IH.
Qed.

(** The staged votes are the sorted writes. *)
Lemma staged_requests b n ws vs : length vs = length ws ->
  (forall j w, ws !! j = Some w -> exists v s, vs !! j = Some v /\ staged_as b (n + j) w v s) ->
  map (fun v => (st_index v, st_voteId v, sv_commit (st_storedVote v))) vs
    ≡ₚ map (fun w => (iw_index w, pv_voteId (iw_vote w), pv_commit (iw_vote w))) ws.
Proof.
  intros Hl Hj. apply reflexive_eq, list_eq. intros j. change (@map) with (@list_fmap).
  rewrite !list_lookup_fmap. destruct (ws !! j) as [w |] eqn:Ew.
  - destruct (Hj j w Ew) as (v & s & -> & e & _ & _ & _ & -> & _). done.
  - apply lookup_ge_None in Ew. by rewrite (proj2 (lookup_ge_None vs j)) by lia.
Qed.

(** The identifiers of the board after staging. *)
Lemma staged_ids now fb authority writes r : stageCtVoteWrites now fb authority writes = Ok r ->
  map (fun e => Some e.1) (voteEntries (sr_bulletin r)) =
  map (fun v => sv_voteId v.2) (sort_entries (votes authority)) ++
  map (fun w => Some (pv_voteId (iw_vote w))) (sorted_writes writes).
Proof.
  intros E. destruct (stage_parts _ _ _ _ _ E) as (board & b0 & h & staged & Eb & Ea & Eh & Es & Er & Ev).
  destruct (append_existing_Ok _ _ _ _ (board_new _) Ea) as (Hb0 & Hc0 & Hl0 & Hi0). cbn in Hi0.
  assert (Hn : length (voteEntries b0) = length (votes authority)).
  { rewrite <- (length_map (fun e => Some e.1)), Hi0, length_map. apply Permutation_length, js_sort_perm. }
  assert (Hz : zlength (votes authority) = zlength (voteEntries b0)) by (unfold zlength; by rewrite Hn).
  rewrite Hz in Es. destruct (stage_loop_Ok _ _ _ _ _ Hb0 Es) as (_ & [more Hpre] & _ & Hlen & _ & _ & Hj).
  rewrite Hpre, map_app, Hi0. f_equal. rewrite Hpre, length_app in Hlen.
  apply list_eq. intros j. change (@map) with (@list_fmap). rewrite !list_lookup_fmap.
  destruct (sorted_writes writes !! j) as [w |] eqn:Ew.
  - destruct (Hj j w Ew) as (v & s & _ & _ & e & He & _). rewrite Hpre, lookup_app_r in He by lia.
    replace (length (voteEntries b0) + j - length (voteEntries b0))%nat with j in He by lia. by rewrite He.
  - apply lookup_ge_None in Ew. by rewrite (proj2 (lookup_ge_None more j)) by lia.
Qed.

(** The history after staging names the root of the board at every size. *)
Lemma staged_history now fb authority writes r : stageCtVoteWrites now fb authority writes = Ok r ->
  length (sr_bulletinRootHistory r) = (length (votes authority) + length writes)%nat /\
  forall k s, sr_bulletinRootHistory r !! k = Some s ->
    rs_treeSize s = Z.of_nat (S k) /\
    (rs_root s = root_at (sr_bulletin r) k \/ rs_root s = prefixed (root_at (sr_bulletin r) k)).
Proof.
  intros E. destruct (staged_board _ _ _ _ _ E) as (Hb & _ & _ & _ & _ & h & fresh & Eh & Er & Hf & Hj).
  assert (Hw : length (sorted_writes writes) = length writes) by apply Permutation_length, js_sort_perm.
  destruct (canonical_history fb authority h Eh) as (Hh & _ & _).
  split; [rewrite Er, length_app, length_map; lia |].
  intros k s Hk. rewrite Er in Hk. apply lookup_app_Some in Hk as [Hk | [Hge Hk]].
  - change (@map) with (@list_fmap) in Hk. rewrite list_lookup_fmap in Hk.
    destruct (h !! k) as [s0 |] eqn:Ek; [| done]. injection Hk as <-.
    destruct (kept_roots _ _ _ _ _ _ _ _ E Eh Ek) as [Hz Hr]. cbn. rewrite Hz, Hr. split; [done | by right].
  - rewrite length_map in *. destruct (lookup_lt_is_Some_2 (sorted_writes writes) (k - length h)) as [w Hjw].
    { apply lookup_lt_Some in Hk. lia. }
    destruct (Hj _ w Hjw) as (v & s' & _ & Hs' & e & He & _ & _ & _ & Hse).
    assert (s' = s) as -> by congruence. rewrite Hse. cbn.
    replace (length (votes authority) + (k - length h))%nat with k in * by lia.
    split; [done |]. left. by destruct (bo_entries _ (board_reachable_ok _ Hb) _ _ _ He) as (_ & _ & _ & _ & ->).
Qed.

(** Staging votes continues the log of the record and nothing else: the
    result is a board of the same log that calls of [appendVote] built, whose
    first commitments are those of the stored votes in the order of their
    indices; the staged votes are the requested ones, at the next consecutive
    indices; the history names, for every position, the root of the board at
    that size; and every staged vote has an inclusion proof that the client's
    verifier accepts against the root stored with it. *)
Theorem staged_votes_provable now fb authority writes r :
  stageCtVoteWrites now fb authority writes = Ok r ->
  let n := length (votes authority) in
  let b := sr_bulletin r in
  board_reachable b /\ (getLogId <$> bulletin authority) = Some (getLogId b) /\
  map appended (commits_of (votes authority)) `prefix_of` commitments b /\
  length (commitments b) = (n + length writes)%nat /\
  map (fun v => (st_index v, st_voteId v, sv_commit (st_storedVote v))) (sr_votes r)
    ≡ₚ map (fun w => (iw_index w, pv_voteId (iw_vote w), pv_commit (iw_vote w))) writes /\
  length (sr_bulletinRootHistory r) = (n + length writes)%nat /\
  (forall k s, sr_bulletinRootHistory r !! k = Some s ->
     rs_treeSize s = Z.of_nat (S k) /\ normalizeHex (rs_root s) allow_empty = Ok (prefixed (root_at b k))) /\
  (forall j v, sr_votes r !! j = Some v ->
     st_index v = NInt (Z.of_nat (n + j)) /\
     exists p b', board_getInclusionProof (st_voteId v) (Some (Z.of_nat (n + j) + 1)) b = (Ok (Some p), b') /\
       prefixed (ip_rootHash p) = sv_rootAtCast (st_storedVote v) /\
       board_verifyInclusionProof (appended (sv_commit (st_storedVote v))) (NInt (Z.of_nat (n + j)))
         (ip_proofNodes p) (ip_rootHash p) (Z.of_nat (n + j) + 1) = Ok true).
Proof.
  intros E n b. destruct (staged_board _ _ _ _ _ E) as (Hb & Hlog & Hc & Hlen & Hv & h & fresh & Eh & Er & Hf & Hj).
  fold n in Hj, Hlen. fold b in Hb, Hlog, Hc, Hlen, Hj.
  assert (Hw : length (sorted_writes writes) = length writes) by apply Permutation_length, js_sort_perm.
  destruct (canonical_history fb authority h Eh) as (Hh & _ & _). fold n in Hh.
  split_and!; try done.
  - rewrite <- (js_sort_perm (fun a b => difference_sign (iw_index a) (iw_index b)) writes).
    fold (sorted_writes writes). apply (staged_requests b n); [congruence |].
    intros j w Hjw. destruct (Hj j w Hjw) as (v & s & Hjv & _ & Hst). by exists v, s.
  - apply (staged_history _ _ _ _ _ E).
  - intros k s Hk. destruct (staged_history _ _ _ _ _ E) as [_ Hr]. destruct (Hr k s Hk) as [Hz [-> | ->]];
      (split; [done |]); [apply normalize_root | apply normalize_prefixed].
  - intros j v Hjv. destruct (lookup_lt_is_Some_2 (sorted_writes writes) j) as [w Hjw].
    { apply lookup_lt_Some in Hjv. lia. }
    destruct (Hj j w Hjw) as (v' & s & Hv' & _ & e & He & Hce & Hi & Hvv & _).
    assert (v' = v) as -> by congruence. rewrite Hvv. cbn. split; [done |].
    assert (Hok := board_reachable_ok b Hb). assert (Hlt := lookup_lt_Some _ _ _ He).
    rewrite (bo_length b Hok) in Hlt.
    destruct (issue_proof b (n + j) _ e (Z.of_nat (n + j) + 1) Hok He) as (b' & Ep & _);
      [unfold zlength; lia |].
    eexists _, b'. split_and!; [done | |].
    + destruct (bo_entries b Hok _ _ _ He) as (_ & _ & _ & _ & ->). unfold root_at. cbn.
      do 2 f_equal. f_equal. lia.
    + rewrite <- Hce. eapply issued_verifies; [done | done |]. unfold zlength. lia.
Qed.

End log.
