(* ===== verification/BulletinSamples.v ===== *)
(** Concrete boards and voting records, and the witnesses of the properties of
    the bulletin board. *)
From S2P Require Import Prelude.
From S2P Require Import Hex.
From S2P Require Import Rfc6962.
From S2P Require Import MerkleSpec.
From S2P Require Import TreeFacts.
From S2P Require Import JsNumber.
From S2P Require Import JsValue.
From S2P Require Import Bulletin.
From S2P Require Import CtSession.
From S2P Require Import CtSessionProofs.
From S2P Require Import Reference.
From S2P Require Import Samples.
Import JsValue.
Import Bulletin.
Import CtSession.

Definition id_a : string := "01234567-89ab-4def-8123-456789abcdef".
Definition id_b : string := "11234567-89ab-4def-9123-456789abcdef".
Definition id_c : string := "21234567-89AB-4def-A123-456789abcdef".

Definition sample_board : SimpleBulletinBoard :=
  fold_left (fun b c => run_board_call c b)
    [BAppend id_a leaf_a 10; BAppend id_b leaf_a 11; BAppend id_b ("0x" +:+ leaf_b)%string 12; BRootAtSize 1]
    (new_board (Some "log")).

Lemma board_reachable_calls cs : forall b, board_reachable b ->
  board_reachable (fold_left (fun b c => run_board_call c b) cs b).
Proof. induction cs as [| c cs IH]; intros b Hb; cbn; [done |]. by apply IH, board_step. Qed.

Lemma sample_board_reachable : board_reachable sample_board.
Proof. apply board_reachable_calls, board_new. Qed.

(** The second call was refused: the commitment was there. *)
Example sample_board_ids : map fst (voteEntries sample_board) = [id_a; id_b].
Proof. vm_compute. reflexivity. Qed.

Lemma bulletin_board_invariant_witness : length (rootHistory sample_board) = length (voteEntries sample_board).
Proof.
  destruct (bulletin_board_invariant sample_board sample_board_reachable) as (_ & _ & Hl & _). exact Hl.
Defined.

Lemma bulletin_append_only_witness :
  voteEntries sample_board `prefix_of`
  voteEntries (fold_left (fun b c => run_board_call c b) [BAppend id_c leaf_c 13] sample_board).
Proof.
  destruct (bulletin_append_only sample_board [BAppend id_c leaf_c 13] sample_board_reachable) as [Hp _].
  - by repeat constructor.
  - exact Hp.
Defined.

Lemma board_proofs_verify_witness :
  fst (board_getRootAtSize 2 sample_board) = Ok (root_of (map leaf_bytes [leaf_a; leaf_b])) /\
  exists p b', board_getInclusionProof id_a (Some 2) sample_board = (Ok (Some p), b') /\
    fst (board_getRootAtSize 2 sample_board) = Ok (ip_rootHash p).
Proof.
  split; [vm_compute; reflexivity |].
  assert (Hk : exists e, voteEntries sample_board !! 0%nat = Some (id_a, e)) by (vm_compute; by eexists).
  destruct Hk as [e Hk].
  destruct (board_proofs_verify sample_board 0 id_a e 2 sample_board_reachable Hk) as (p & b' & E & _ & _ & _ & _ & Er & _).
  { vm_compute. split; congruence. }
  exists p, b'. split; [exact E | exact Er].
Defined.

(** A prefix that only [isValidHexString] removes hides a repeated leaf: the two
    entries have the same leaf in the tree. *)
Example repeated_leaf_accepted :
  let b := fold_left (fun b c => run_board_call c b)
             [BAppend id_a leaf_a 10; BAppend id_b ("0x0x" +:+ leaf_a)%string 11] (new_board (Some "log")) in
  leaves (tree b) = [leaf_a; leaf_a] /\ map fst (voteEntries b) = [id_a; id_b].
Proof. split; vm_compute; reflexivity. Qed.

(** ** A voting record *)

Definition stored (id commit : string) (t : num) : StoredVoteRecord :=
  mkStored (Some id) (Some t) "A" "r" commit "".

(** The votes of the map are not in the order of their indices, and the
    persisted history claims another root. *)
Definition sample_voting : SessionVotingRecord :=
  mkVoting [(NInt 1, stored id_b ("0x" +:+ leaf_b)%string (NInt 21)); (NInt 0, stored id_a ("0x" +:+ leaf_a)%string (NInt 20))]
    (Some (new_board (Some "log")))
    (JArr [JObj [("root", JStr "0x"); ("treeSize", JStr "1"); ("timestamp", JNum (NInt 5))];
           JObj [("root", JStr leaf_a); ("treeSize", JNum (NInt 2)); ("timestamp", JStr "1e3")]]%string)
    not_cast.

Definition sample_write : IndexedVoteWrite :=
  mkWrite (NInt 2) (mkPrepared id_c 0 "B" "s" ("0x" +:+ leaf_c)%string).

Definition sample_clock (k : Z) : Z := 100 + k.

Lemma canonical_history_of_votes_witness :
  exists h, getCanonicalBulletinRootHistory 7 sample_voting = Ok h /\ length h = 2%nat.
Proof.
  assert (Hok : is_ok (getCanonicalBulletinRootHistory 7 sample_voting)) by (vm_compute; exact I).
  destruct (getCanonicalBulletinRootHistory 7 sample_voting) as [h | e] eqn:E; [| destruct Hok].
  exists h. split; [exact eq_refl |]. destruct (canonical_history_of_votes 7 sample_voting h E) as (_ & Hl & _). exact Hl.
Defined.

Lemma staged_votes_provable_witness :
  exists r, stageCtVoteWrites sample_clock 7 sample_voting [sample_write] = Ok r /\
    length (sr_bulletinRootHistory r) = 3%nat.
Proof.
  assert (Hok : is_ok (stageCtVoteWrites sample_clock 7 sample_voting [sample_write])) by (vm_compute; exact I).
  destruct (stageCtVoteWrites sample_clock 7 sample_voting [sample_write]) as [r | e] eqn:E; [| destruct Hok].
  exists r. split; [exact eq_refl |].
  destruct (staged_votes_provable sample_clock 7 sample_voting [sample_write] r E) as (_ & _ & _ & _ & _ & Hl & _).
  exact Hl.
Defined.

(** The history after staging spells its roots in two ways: with a prefix for
    the stored votes, without one for the staged votes. *)
Example staged_roots_spelled :
  match stageCtVoteWrites sample_clock 7 sample_voting [sample_write] with
  | Ok r => map (fun s => slen (rs_root s)) (sr_bulletinRootHistory r) = [66; 66; 64]
  | Err _ => False
  end.
Proof. vm_compute. reflexivity. Qed.
