(* ===== verification/Schema.v ===== *)
(** The schema library of the repository (packages/validation/src/schema.ts): a
    schema is a tree, [parseInternal] its interpreter, with the issues it
    reports and the value it returns. The predicates of [refine] and the
    functions of [transform] are part of the schema; they do not throw. *)
From stdpp Require Import pretty.
From S2P Require Import Prelude.
From S2P Require Import JsNumber.
From S2P Require Import JsValue.
From S2P Require Import Journal.
Import JsValue.

Module Schema.

(** ** Issues and results *)

Inductive path_item : Type :=
| key (name : string)
| index (i : Z).

Record SchemaIssue := mkIssue {
  issue_path : list path_item;
  issue_message : message;
}.

Inductive ParseResult : Type :=
| Success (data : jsval)
| Failure (issues : list SchemaIssue).

Definition fail (text : message) (path : list path_item) : ParseResult := Failure [mkIssue path text].

(** [issues.length === 0 ? ok(data) : failIssues(issues)] *)
Definition unless_issues (issues : list SchemaIssue) (data : jsval) : ParseResult :=
  match issues with [] => Success data | _ => Failure issues end.

Definition mergeIssues (failures : list (list SchemaIssue)) : list SchemaIssue := mjoin failures.

(** ** Rules *)

(** A pattern keeps its source and is tested as the engine does. *)
Inductive StringConstraint : Type :=
| minLength (value : Z)
| maxLength (value : Z)
| pattern (source : string) (test : string -> bool)
| format_uuid.

Inductive NumberConstraint : Type :=
| integer
| minimum (value : num) (exclusive : bool)
| maximum (value : num) (exclusive : bool).

Inductive ArrayConstraint : Type :=
| minItems (value : Z)
| maxItems (value : Z)
| exactLength (value : Z).

Definition matchesStringRule (value : string) (rule : StringConstraint) : bool :=
  match rule with
  | minLength n => Z.leb n (slen value)
  | maxLength n => Z.leb (slen value) n
  | pattern _ test => test value
  | format_uuid => Journal.UUID_PATTERN value
  end.

Definition matchesNumberRule (value : num) (rule : NumberConstraint) : bool :=
  match rule with
  | integer => isInteger value
  | minimum n exclusive => if exclusive then num_ltb n value else num_leb n value
  | maximum n exclusive => if exclusive then num_ltb value n else num_leb value n
  end.

Definition matchesArrayRule (value : list jsval) (rule : ArrayConstraint) : bool :=
  match rule with
  | minItems n => Z.leb n (zlength value)
  | maxItems n => Z.leb (zlength value) n
  | exactLength n => Z.eqb (zlength value) n
  end.

Definition collectRuleIssues {A R} (value : A) (rules : list (R * message)) (matches : A -> R -> bool)
    (path : list path_item) : list SchemaIssue :=
  map (fun rule => mkIssue path rule.2) (List.filter (fun rule => negb (matches value rule.1)) rules).

(** ** Schemas *)

Inductive UnknownKeyPolicy : Type := strip | strict | passthrough.

#[warnings="-register-all"]
Inductive Schema : Type :=
| NeverSchema
| StringSchema (rules : list (StringConstraint * message)) (requiredError : option message)
| NumberSchema (rules : list (NumberConstraint * message))
| BooleanSchema
| UnknownSchema
| UndefinedSchema
| LiteralSchema (value : jsval)
| EnumSchema (values : list string)
| OptionalSchema (inner : Schema)
| NullableSchema (inner : Schema)
| TransformSchema (inner : Schema) (transform : jsval -> jsval)
| RefinementSchema (inner : Schema) (refine : jsval -> list path_item -> list SchemaIssue)
| ArraySchema (item : Schema) (rules : list (ArrayConstraint * message))
| TupleSchema (items : list Schema)
| ObjectSchema (shape : list (string * Schema)) (unknownKeys : UnknownKeyPolicy) (catchall : Schema)
| UnionSchema (options : list Schema).

(** ** Values and results *)

(** The own properties of a value that is not an array. *)
Definition own_entries (value : jsval) : list (string * jsval) :=
  match value with
  | JObj properties => properties
  | JBytes data => imap (fun i b => (pretty (Z.of_nat i), JNum (NInt b))) data
  | _ => []
  end.

(** [value[key]] *)
Definition get (value : jsval) (k : string) : jsval :=
  match own (own_entries value) k with Some v => v | None => JUndefined end.

Definition has_own (value : jsval) (k : string) : bool := is_some (own (own_entries value) k).

Definition isPlainRecord (value : jsval) : bool := isNonArrayObject value.

(** [a === b] for a primitive [b] *)
Definition strict_equal (a b : jsval) : bool :=
  match a, b with
  | JUndefined, JUndefined | JNull, JNull => true
  | JBool x, JBool y => Bool.eqb x y
  | JNum x, JNum y => num_eqb x y
  | JStr x, JStr y => String.eqb x y
  | _, _ => false
  end.

(** [String(value)] of a primitive *)
Definition primitive_text (value : jsval) : message :=
  match value with
  | JUndefined => [T "undefined"] | JNull => [T "null"]
  | JBool b => [T (if b then "true" else "false")%string]
  | JNum n => [N n] | JStr s => [T s] | _ => []
  end.

Definition is_never (s : Schema) : bool := match s with NeverSchema => true | _ => false end.
Definition is_shape_key {A} (shape : list (string * A)) (k : string) : bool :=
  existsb (fun e => String.eqb e.1 k) shape.

(** [appendParsedItem] over a list of results *)
Fixpoint parsed_items (results : list ParseResult) : list jsval :=
  match results with
  | [] => []
  | Success data :: rest => data :: parsed_items rest
  | Failure _ :: rest => parsed_items rest
  end.

Fixpoint item_issues (results : list ParseResult) : list SchemaIssue :=
  match results with
  | [] => []
  | Success _ :: rest => item_issues rest
  | Failure issues :: rest => issues ++ item_issues rest
  end.

(** The property that parsing a known key writes. *)
Definition written (value : jsval) (k : string) (r : ParseResult) : list (string * jsval) :=
  match r with
  | Success data => if negb (is_undefined data) || has_own value k then [(k, data)] else []
  | Failure _ => []
  end.

Definition result_issues (r : ParseResult) : list SchemaIssue :=
  match r with Success _ => [] | Failure issues => issues end.

(** The first option that succeeds, or the issues of all of them. *)
Fixpoint union_result (results : list ParseResult) (failures : list (list SchemaIssue))
    (path : list path_item) : ParseResult :=
  match results with
  | [] => match mergeIssues failures with
          | [] => fail [T "Invalid union"] path
          | issues => Failure issues
          end
  | Success data :: _ => Success data
  | Failure issues :: rest => union_result rest (failures ++ [issues]) path
  end.

(** The keys that the shape does not name: what they write and report. *)
Definition unknown_result (parseCatchall : jsval -> list path_item -> ParseResult) (never : bool)
    (policy : UnknownKeyPolicy) (value : jsval) (path : list path_item) (k : string) :
    list (string * jsval) * list SchemaIssue :=
  if negb never then
    match parseCatchall (get value k) (path ++ [key k]) with
    | Success data => ([(k, data)], [])
    | Failure issues => ([], issues)
    end
  else match policy with
       | strict => ([], [mkIssue (path ++ [key k]) [T "Unrecognized key"]])
       | passthrough => ([(k, get value k)], [])
       | strip => ([], [])
       end.

(** ** The interpreters of the leaf schemas *)

Definition parseString (rules : list (StringConstraint * message)) (requiredError : option message)
    (input : jsval) (path : list path_item) : ParseResult :=
  match input with
  | JUndefined => fail (match requiredError with Some m => m | None => [T "Expected string"] end) path
  | JStr text => unless_issues (collectRuleIssues text rules matchesStringRule path) input
  | _ => fail [T "Expected string"] path
  end.

Definition parseNumber (rules : list (NumberConstraint * message)) (input : jsval) (path : list path_item) :
    ParseResult :=
  match input with
  | JNum n =>
      if negb (isFinite n) then fail [T "Expected number"] path
      else unless_issues (collectRuleIssues n rules matchesNumberRule path) input
  | _ => fail [T "Expected number"] path
  end.

Definition parseBoolean (input : jsval) (path : list path_item) : ParseResult :=
  match input with JBool _ => Success input | _ => fail [T "Expected boolean"] path end.

Definition parseUndefined (input : jsval) (path : list path_item) : ParseResult :=
  if is_undefined input then Success JUndefined else fail [T "Expected undefined"] path.

Definition parseLiteral (value input : jsval) (path : list path_item) : ParseResult :=
  if strict_equal input value then Success value else fail (T "Expected literal " :: primitive_text value) path.

Definition parseEnum (values : list string) (input : jsval) (path : list path_item) : ParseResult :=
  match input with
  | JStr text =>
      if existsb (String.eqb text) values then Success input
      else fail [T ("Expected one of: " +:+ Contract.Contract.join ", " values)%string] path
  | _ => fail [T ("Expected one of: " +:+ Contract.Contract.join ", " values)%string] path
  end.

(** The effects of [EffectsSchema], on the result of the inner schema. *)
Definition parseTransform (transform : jsval -> jsval) (inner : ParseResult) : ParseResult :=
  match inner with
  | Success data => Success (transform data)
  | Failure issues => Failure issues
  end.

Definition parseRefinement (refine : jsval -> list path_item -> list SchemaIssue) (inner : ParseResult)
    (path : list path_item) : ParseResult :=
  match inner with
  | Success data => unless_issues (refine data path) data
  | Failure issues => Failure issues
  end.

Definition parseArray (parseItem : jsval -> list path_item -> ParseResult)
    (rules : list (ArrayConstraint * message)) (input : jsval) (path : list path_item) : ParseResult :=
  match input with
  | JArr items =>
      let results := imap (fun i x => parseItem x (path ++ [index (Z.of_nat i)])) items in
      unless_issues (collectRuleIssues items rules matchesArrayRule path ++ item_issues results)
        (JArr (parsed_items results))
  | _ => fail [T "Expected array"] path
  end.

(** ** The interpreter *)

Fixpoint parseInternal (s : Schema) (input : jsval) (path : list path_item) {struct s} : ParseResult :=
  match s with
  | NeverSchema => fail [T "Expected never"] path
  | StringSchema rules requiredError => parseString rules requiredError input path
  | NumberSchema rules => parseNumber rules input path
  | BooleanSchema => parseBoolean input path
  | UnknownSchema => Success input
  | UndefinedSchema => parseUndefined input path
  | LiteralSchema value => parseLiteral value input path
  | EnumSchema values => parseEnum values input path
  | OptionalSchema inner => if is_undefined input then Success JUndefined else parseInternal inner input path
  | NullableSchema inner =>
      match input with JNull => Success JNull | _ => parseInternal inner input path end
  | TransformSchema inner transform => parseTransform transform (parseInternal inner input path)
  | RefinementSchema inner refine => parseRefinement refine (parseInternal inner input path) path
  | ArraySchema item rules => parseArray (parseInternal item) rules input path
  | TupleSchema schemas =>
      match input with
      | JArr items =>
          if negb (Nat.eqb (length items) (length schemas))
          then fail [T "Tuple must contain exactly "; N (NInt (zlength schemas)); T " element(s)"] path
          else
            let results :=
              (fix go (l : list Schema) (i : nat) : list ParseResult :=
                 match l with
                 | [] => []
                 | schema :: rest =>
                     parseInternal schema (default JUndefined (items !! i)) (path ++ [index (Z.of_nat i)])
                     :: go rest (S i)
                 end) schemas 0%nat in
            unless_issues (item_issues results) (JArr (parsed_items results))
      | _ => fail [T "Expected tuple"] path
      end
  | ObjectSchema shape unknownKeys catchall =>
      if negb (isPlainRecord input) then fail [T "Expected object"] path
      else
        let known :=
          (fix go (l : list (string * Schema)) : list (string * jsval) * list SchemaIssue :=
             match l with
             | [] => ([], [])
             | (k, schema) :: rest =>
                 let r := parseInternal schema (get input k) (path ++ [key k]) in
                 let tail := go rest in
                 (written input k r ++ tail.1, result_issues r ++ tail.2)
             end) shape in
        let unknown :=
          map (unknown_result (parseInternal catchall) (is_never catchall) unknownKeys input path)
            (List.filter (fun k => negb (is_shape_key shape k)) (map fst (own_entries input))) in
        unless_issues (known.2 ++ mjoin (map snd unknown)) (JObj (known.1 ++ mjoin (map fst unknown)))
  | UnionSchema options =>
      union_result
        ((fix go (l : list Schema) : list ParseResult :=
            match l with [] => [] | option :: rest => parseInternal option input path :: go rest end) options)
        [] path
  end.

(** ** The public interface *)

Definition safeParse (s : Schema) (input : jsval) : ParseResult := parseInternal s input [].
Definition parses (s : Schema) (input : jsval) : bool :=
  match safeParse s input with Success _ => true | Failure _ => false end.

Record FlattenedSchemaError := mkFlattened {
  formErrors : list message;
  fieldErrors : list (string * list message);
}.

Definition path_text (p : path_item) : string := match p with key k => k | index i => pretty i end.

Fixpoint add_field_error (errors : list (string * list message)) (field : string) (m : message) :
    list (string * list message) :=
  match errors with
  | [] => [(field, [m])]
  | (k, ms) :: rest => if String.eqb k field then (k, ms ++ [m]) :: rest else (k, ms) :: add_field_error rest field m
  end.

Definition flatten (issues : list SchemaIssue) : FlattenedSchemaError :=
  fold_left (fun acc issue =>
      match issue_path issue with
      | [] => mkFlattened (formErrors acc ++ [issue_message issue]) (fieldErrors acc)
      | p :: _ => mkFlattened (formErrors acc) (add_field_error (fieldErrors acc) (path_text p) (issue_message issue))
      end) issues (mkFlattened [] []).

(** ** Building schemas *)

Definition or_message (m : option message) (text : message) : message := default text m.

Definition s_string : Schema := StringSchema [] None.
Definition s_number : Schema := NumberSchema [].
Definition s_object (shape : list (string * Schema)) : Schema := ObjectSchema shape strip NeverSchema.
Definition s_array (item : Schema) : Schema := ArraySchema item [].

Definition string_rule (c : StringConstraint) (m : message) (s : Schema) : Schema :=
  match s with StringSchema rules required => StringSchema (rules ++ [(c, m)]) required | _ => s end.
Definition string_min (n : Z) (m : option message) : Schema -> Schema :=
  string_rule (minLength n) (or_message m [T "String must contain at least "; N (NInt n); T " character(s)"]).
Definition string_max (n : Z) (m : option message) : Schema -> Schema :=
  string_rule (maxLength n) (or_message m [T "String must contain at most "; N (NInt n); T " character(s)"]).
Definition string_regex (source : string) (test : string -> bool) (m : option message) : Schema -> Schema :=
  string_rule (pattern source test) (or_message m [T "Invalid string"]).
Definition string_uuid (m : option message) : Schema -> Schema :=
  string_rule format_uuid (or_message m [T "Invalid UUID"]).

Definition number_rule (c : NumberConstraint) (m : message) (s : Schema) : Schema :=
  match s with NumberSchema rules => NumberSchema (rules ++ [(c, m)]) | _ => s end.
Definition number_int (m : option message) : Schema -> Schema :=
  number_rule integer (or_message m [T "Expected integer"]).
Definition number_min (n : num) (m : option message) : Schema -> Schema :=
  number_rule (minimum n false) (or_message m [T "Number must be greater than or equal to "; N n]).
Definition number_nonnegative (m : option message) : Schema -> Schema :=
  number_min (NInt 0) (Some (or_message m [T "Expected non-negative number"])).
Definition number_positive (m : option message) : Schema -> Schema :=
  number_rule (minimum (NInt 0) true) (or_message m [T "Expected positive number"]).
Definition number_max (n : num) (m : option message) : Schema -> Schema :=
  number_rule (maximum n false) (or_message m [T "Number must be less than or equal to "; N n]).

Definition array_rule (c : ArrayConstraint) (m : message) (s : Schema) : Schema :=
  match s with ArraySchema item rules => ArraySchema item (rules ++ [(c, m)]) | _ => s end.
Definition array_min (n : Z) (m : option message) : Schema -> Schema :=
  array_rule (minItems n) (or_message m [T "Array must contain at least "; N (NInt n); T " element(s)"]).
Definition array_length (n : Z) (m : option message) : Schema -> Schema :=
  array_rule (exactLength n) (or_message m [T "Array must contain exactly "; N (NInt n); T " element(s)"]).

(** [schema.refine(predicate, { message })] *)
Definition refine (predicate : jsval -> bool) (m : option message) (s : Schema) : Schema :=
  RefinementSchema s (fun value path =>
    if predicate value then [] else [mkIssue path (or_message m [T "Invalid input"])]).

Definition superRefine (issues : jsval -> list path_item -> list SchemaIssue) (s : Schema) : Schema :=
  RefinementSchema s issues.

Definition s_strict (s : Schema) : Schema :=
  match s with ObjectSchema shape _ catchall => ObjectSchema shape strict catchall | _ => s end.
Definition s_passthrough (s : Schema) : Schema :=
  match s with ObjectSchema shape _ catchall => ObjectSchema shape passthrough catchall | _ => s end.
Definition s_catchall (next : Schema) (s : Schema) : Schema :=
  match s with ObjectSchema shape unknownKeys _ => ObjectSchema shape unknownKeys next | _ => s end.

(** [{ ...shape, ...extension }]: a key that exists keeps its place. *)
Fixpoint set_shape (shape : list (string * Schema)) (k : string) (schema : Schema) : list (string * Schema) :=
  match shape with
  | [] => [(k, schema)]
  | (k0, s0) :: rest => if String.eqb k0 k then (k0, schema) :: rest else (k0, s0) :: set_shape rest k schema
  end.

Definition s_extend (extension : list (string * Schema)) (s : Schema) : Schema :=
  match s with
  | ObjectSchema shape unknownKeys catchall =>
      ObjectSchema (fold_left (fun shape e => set_shape shape e.1 e.2) extension shape) unknownKeys catchall
  | _ => s
  end.

End Schema.
