(* ===== verification/SchemaProofs.v ===== *)
(** What a schema promises: a failure names its issues, each inside the value
    that was parsed; a success returns a value of the schema's type; and a
    value that was returned once is returned unchanged. *)
From Stdlib Require QArith_base.
From S2P Require Import Prelude.
From S2P Require Import JsNumber.
From S2P Require Import JsValue.
From S2P Require Import Journal.
From S2P Require Import Schema.
Import JsValue.
Import Schema.

(** The equation of the interpreter at a schema, its leaves unfolded. *)
Ltac expand_parse :=
  cbn [parseInternal];
  unfold parseString, parseNumber, parseBoolean, parseUndefined, parseLiteral, parseEnum, parseTransform,
    parseRefinement, parseArray.

(** ** Predicates and induction on schemas *)

Definition all_of {A} (P : A -> Prop) : list A -> Prop :=
  fix go l := match l with [] => True | x :: rest => P x /\ go rest end.

Definition some_of {A} (P : A -> Prop) : list A -> Prop :=
  fix go l := match l with [] => False | x :: rest => P x \/ go rest end.

Lemma all_of_Forall {A} (P : A -> Prop) l : all_of P l <-> Forall P l.
Proof.
  induction l as [| x l IH]; cbn; [split; [constructor | done] |]. by rewrite IH, Forall_cons.
Qed.

Lemma some_of_Exists {A} (P : A -> Prop) l : some_of P l <-> Exists P l.
Proof.
  induction l as [| x l IH]; cbn; [by rewrite Exists_nil |]. by rewrite IH, Exists_cons.
Qed.

Section induction.
Variable P : Schema -> Prop.
Hypothesis Hnever : P NeverSchema.
Hypothesis Hstring : forall rules required, P (StringSchema rules required).
Hypothesis Hnumber : forall rules, P (NumberSchema rules).
Hypothesis Hboolean : P BooleanSchema.
Hypothesis Hunknown : P UnknownSchema.
Hypothesis Hundefined : P UndefinedSchema.
Hypothesis Hliteral : forall value, P (LiteralSchema value).
Hypothesis Henum : forall values, P (EnumSchema values).
Hypothesis Hoptional : forall inner, P inner -> P (OptionalSchema inner).
Hypothesis Hnullable : forall inner, P inner -> P (NullableSchema inner).
Hypothesis Htransform : forall inner f, P inner -> P (TransformSchema inner f).
Hypothesis Hrefinement : forall inner f, P inner -> P (RefinementSchema inner f).
Hypothesis Harray : forall item rules, P item -> P (ArraySchema item rules).
Hypothesis Htuple : forall items, Forall P items -> P (TupleSchema items).
Hypothesis Hobject : forall shape policy catchall,
  Forall (fun e => P e.2) shape -> P catchall -> P (ObjectSchema shape policy catchall).
Hypothesis Hunion : forall options, Forall P options -> P (UnionSchema options).

Fixpoint schema_nested_ind (s : Schema) : P s :=
  match s with
  | NeverSchema => Hnever
  | StringSchema rules required => Hstring rules required
  | NumberSchema rules => Hnumber rules
  | BooleanSchema => Hboolean
  | UnknownSchema => Hunknown
  | UndefinedSchema => Hundefined
  | LiteralSchema value => Hliteral value
  | EnumSchema values => Henum values
  | OptionalSchema inner => Hoptional inner (schema_nested_ind inner)
  | NullableSchema inner => Hnullable inner (schema_nested_ind inner)
  | TransformSchema inner f => Htransform inner f (schema_nested_ind inner)
  | RefinementSchema inner f => Hrefinement inner f (schema_nested_ind inner)
  | ArraySchema item rules => Harray item rules (schema_nested_ind item)
  | TupleSchema items =>
      Htuple items ((fix go l : Forall P l :=
        match l with [] => @List.Forall_nil _ _ | x :: r => @List.Forall_cons _ _ x r (schema_nested_ind x) (go r) end) items)
  | ObjectSchema shape policy catchall =>
      Hobject shape policy catchall ((fix go l : Forall (fun e => P e.2) l :=
        match l with [] => @List.Forall_nil _ _ | x :: r => @List.Forall_cons _ _ x r (schema_nested_ind x.2) (go r) end) shape)
        (schema_nested_ind catchall)
  | UnionSchema options =>
      Hunion options ((fix go l : Forall P l :=
        match l with [] => @List.Forall_nil _ _ | x :: r => @List.Forall_cons _ _ x r (schema_nested_ind x) (go r) end) options)
  end.
End induction.

(** The keys of a shape are those of an object: distinct. A refinement reports
    issues inside the value it is given, and accepts it wherever it stands. *)
Fixpoint well_formed (s : Schema) : Prop :=
  match s with
  | OptionalSchema inner | NullableSchema inner | TransformSchema inner _ => well_formed inner
  | RefinementSchema inner refine =>
      well_formed inner /\
      (forall v p, Forall (fun i => p `prefix_of` issue_path i) (refine v p)) /\
      (forall v p q, refine v p = [] -> refine v q = [])
  | ArraySchema item _ => well_formed item
  | TupleSchema items => all_of well_formed items
  | ObjectSchema shape _ catchall =>
      NoDup (map fst shape) /\ all_of (fun e => well_formed e.2) shape /\ well_formed catchall
  | UnionSchema options => all_of well_formed options
  | _ => True
  end.

(** ** The equations of the interpreter *)

Lemma unless_Success issues d w : unless_issues issues d = Success w <-> issues = [] /\ w = d.
Proof. destruct issues; cbn; split; intros E; try done; [by injection E | by destruct E as [_ ->] | by destruct E]. Qed.

Lemma unless_Failure issues d l : unless_issues issues d = Failure l <-> issues = l /\ l <> [].
Proof.
  destruct issues; cbn; split; intros E; try done.
  - by destruct E as [<- []].
  - injection E as <-. done.
  - by destruct E as [<- _].
Qed.

Definition tuple_results (items : list jsval) (path : list path_item) (schemas : list Schema) : list ParseResult :=
  imap (fun i s => parseInternal s (default JUndefined (items !! i)) (path ++ [index (Z.of_nat i)])) schemas.

Lemma parse_tuple schemas items path : parseInternal (TupleSchema schemas) (JArr items) path =
  if negb (Nat.eqb (length items) (length schemas))
  then fail [T "Tuple must contain exactly "; N (NInt (zlength schemas)); T " element(s)"] path
  else unless_issues (item_issues (tuple_results items path schemas))
         (JArr (parsed_items (tuple_results items path schemas))).
Proof.
  expand_parse. destruct (negb _); [done |].
  match goal with |- context [item_issues ?x] => set (go := x) end.
  enough (go = tuple_results items path schemas) as -> by done. subst go. unfold tuple_results.
  assert (Hgen : forall l i,
    (fix go (l : list Schema) (i : nat) : list ParseResult :=
       match l with
       | [] => []
       | schema :: rest => parseInternal schema (default JUndefined (items !! i)) (path ++ [index (Z.of_nat i)])
                           :: go rest (S i)
       end) l i = imap (fun j s => parseInternal s (default JUndefined (items !! (i + j)%nat))
                                     (path ++ [index (Z.of_nat (i + j))])) l).
  { induction l as [| s l IH]; intros i; [done |]. cbn [imap]. rewrite IH. rewrite Nat.add_0_r. f_equal.
    apply imap_ext. intros j x _. cbn. by replace (i + S j)%nat with (S i + j)%nat by lia. }
  apply (Hgen schemas 0%nat).
Qed.

Definition known_results (input : jsval) (path : list path_item) (shape : list (string * Schema)) :
    list (string * ParseResult) :=
  map (fun e => (e.1, parseInternal e.2 (get input e.1) (path ++ [key e.1]))) shape.

Definition unknown_keys (input : jsval) (shape : list (string * Schema)) : list string :=
  List.filter (fun k => negb (is_shape_key shape k)) (map fst (own_entries input)).

Definition unknown_results (input : jsval) (path : list path_item) (shape : list (string * Schema))
    (policy : UnknownKeyPolicy) (catchall : Schema) : list (list (string * jsval) * list SchemaIssue) :=
  map (unknown_result (parseInternal catchall) (is_never catchall) policy input path) (unknown_keys input shape).

Lemma parse_object shape policy catchall input path :
  parseInternal (ObjectSchema shape policy catchall) input path =
  if negb (isPlainRecord input) then fail [T "Expected object"] path
  else unless_issues
         (mjoin (map (fun r => result_issues r.2) (known_results input path shape)) ++
          mjoin (map snd (unknown_results input path shape policy catchall)))
         (JObj (mjoin (map (fun r => written input r.1 r.2) (known_results input path shape)) ++
                mjoin (map fst (unknown_results input path shape policy catchall)))).
Proof.
  expand_parse. destruct (negb _); [done |]. cbv zeta.
  match goal with |- unless_issues (fst ?x ++ _) _ = _ => idtac | |- unless_issues (snd ?x ++ _) _ = _ => set (known := x) end.
  assert (known = (mjoin (map (fun r => written input r.1 r.2) (known_results input path shape)),
                   mjoin (map (fun r => result_issues r.2) (known_results input path shape)))) as ->; [| done].
  subst known. induction shape as [| [k s] shape IH]; [done |]. cbn in IH |- *. by rewrite IH.
Qed.

Lemma parse_union options input path : parseInternal (UnionSchema options) input path =
  union_result (map (fun s => parseInternal s input path) options) [] path.
Proof.
  reflexivity.
Qed.

Lemma union_Success rs : forall fs p w, union_result rs fs p = Success w -> Success w ∈ rs.
Proof.
  induction rs as [| r rs IH]; intros fs p w; cbn.
  - destruct (mergeIssues fs); done.
  - destruct r as [d | l]; [intros [= ->]; by left |]. intros E. right. by eapply IH.
Qed.

Lemma union_Failure rs : forall fs p l, union_result rs fs p = Failure l ->
  l <> [] /\ (l = [mkIssue p [T "Invalid union"]] \/
    forall i, i ∈ l -> (exists f, f ∈ fs /\ i ∈ f) \/ exists f, Failure f ∈ rs /\ i ∈ f).
Proof.
  induction rs as [| r rs IH]; intros fs p l; cbn.
  - destruct (mergeIssues fs) as [| i0 rest] eqn:E; intros [= <-]; (split; [done |]); [by left | right].
    intros x Hx. left. rewrite <- E in Hx. unfold mergeIssues in Hx. apply list_elem_of_join in Hx as (f & ? & ?).
    by exists f.
  - destruct r as [d | f]; [done |]. intros E. destruct (IH _ _ _ E) as [Hne [-> | Hi]]; (split; [done |]); [by left |].
    right. intros x Hx. destruct (Hi x Hx) as [(g & Hg & Hxg) | (g & Hg & Hxg)].
    + apply elem_of_app in Hg as [Hg | ->%list_elem_of_singleton]; [left; by exists g |].
      right. exists f. split; [by left | done].
    + right. exists g. split; [by right | done].
Qed.

(** ** A failure names issues inside the value *)

Definition inside (path : list path_item) (issues : list SchemaIssue) : Prop :=
  Forall (fun i => path `prefix_of` issue_path i) issues.

Lemma inside_at path m : inside path [mkIssue path m].
Proof. by repeat constructor. Qed.

Lemma inside_below path step issues : inside (path ++ step) issues -> inside path issues.
Proof.
  unfold inside. intros Hi. eapply Forall_impl; [exact Hi |]. intros i Hp. etrans; [| exact Hp]. by eexists.
Qed.

Lemma inside_rules {A R} (v : A) (rules : list (R * message)) f path : inside path (collectRuleIssues v rules f path).
Proof. apply Forall_forall. intros i Hi. apply list_elem_of_fmap in Hi as (r & -> & _). done. Qed.

Lemma inside_items path rs :
  (forall f, Failure f ∈ rs -> inside path f) -> inside path (item_issues rs).
Proof.
  induction rs as [| [d | f] rs IH]; cbn; intros Hf; [constructor | |].
  - apply IH. intros f Hf'. apply Hf. by right.
  - apply Forall_app. split; [apply Hf; by left | apply IH; intros g Hg; apply Hf; by right].
Qed.

Lemma inside_join path (ls : list (list SchemaIssue)) : Forall (inside path) ls -> inside path (mjoin ls).
Proof. induction 1; cbn; [constructor | by apply Forall_app]. Qed.

Definition failure_ok (s : Schema) : Prop := forall input path issues,
  parseInternal s input path = Failure issues -> issues <> [] /\ inside path issues.

Lemma fail_ok m path issues : fail m path = Failure issues -> issues <> [] /\ inside path issues.
Proof. intros [= <-]. split; [done | apply inside_at]. Qed.

Lemma unless_ok issues d path l : inside path issues ->
  unless_issues issues d = Failure l -> l <> [] /\ inside path l.
Proof. by intros Hi [<- Hne]%unless_Failure. Qed.


Lemma parse_failure_inside s : well_formed s -> failure_ok s.
Proof.
  induction s as [| rules required | rules | | | | value | values | inner IH | inner IH | inner f IH | inner f IH
                 | item rules IH | items IH | shape policy catchall IHs IHc | options IH]
    using schema_nested_ind; intros Hwf input path issues; cbn [well_formed] in Hwf.
  - apply fail_ok.
  - expand_parse. destruct input; try apply fail_ok. apply unless_ok, inside_rules.
  - expand_parse. destruct input; try apply fail_ok. destruct (negb _); [apply fail_ok |].
    apply unless_ok, inside_rules.
  - expand_parse. destruct input; (done || apply fail_ok).
  - done.
  - expand_parse. destruct (is_undefined input); [done | apply fail_ok].
  - expand_parse. destruct (strict_equal input value); [done | apply fail_ok].
  - expand_parse. destruct input; try apply fail_ok. destruct (existsb _ _); [done | apply fail_ok].
  - expand_parse. destruct (is_undefined input); [done | by apply IH].
  - expand_parse. destruct input; (done || by apply IH).
  - expand_parse. destruct (parseInternal inner input path) eqn:E; [done |]. intros [= <-]. by apply (IH Hwf input).
  - destruct Hwf as (Hin & Hloc & _). expand_parse.
    destruct (parseInternal inner input path) eqn:E; [apply unless_ok, Hloc |].
    intros [= <-]. by apply (IH Hin input).
  - expand_parse. destruct input as [| | | | | l | |]; try apply fail_ok. apply unless_ok, Forall_app.
    split; [apply inside_rules |]. apply inside_items. intros f Hf.
    apply list_elem_of_lookup in Hf as [i Hi]. rewrite list_lookup_imap in Hi.
    destruct (l !! i) as [x |]; [| done]. injection Hi as Hi. eapply inside_below. by eapply IH.
  - destruct input as [| | | | | l | |]; try (expand_parse; apply fail_ok). rewrite parse_tuple.
    destruct (negb _); [apply fail_ok |]. apply unless_ok, inside_items. intros f Hf.
    apply all_of_Forall in Hwf. apply list_elem_of_lookup in Hf as [i Hi]. unfold tuple_results in Hi.
    rewrite list_lookup_imap in Hi. destruct (items !! i) as [s |] eqn:Es; [| done]. injection Hi as Hi.
    eapply inside_below. rewrite Forall_forall in IH, Hwf. apply list_elem_of_lookup_2 in Es.
    by eapply (IH s Es (Hwf s Es)).
  - destruct Hwf as (_ & Hs & Hc). rewrite parse_object. destruct (negb _); [apply fail_ok |].
    apply unless_ok, Forall_app. apply all_of_Forall in Hs. split; apply inside_join, Forall_forall.
    + intros f Hf. apply list_elem_of_fmap in Hf as (r & -> & Hr). apply list_elem_of_fmap in Hr as (e & -> & He).
      cbn [fst snd]. rewrite Forall_forall in IHs, Hs.
      destruct (parseInternal e.2 _ _) eqn:E; [constructor |]. cbn [result_issues].
      eapply inside_below. by eapply (IHs e He (Hs e He)).
    + intros f Hf. apply list_elem_of_fmap in Hf as (r & -> & Hr). apply list_elem_of_fmap in Hr as (k & -> & _).
      unfold unknown_result. destruct (negb _).
      * destruct (parseInternal catchall _ _) eqn:E; [constructor |]. cbn. eapply inside_below. by eapply IHc.
      * destruct policy; cbn; [constructor | | constructor]. eapply inside_below, inside_at.
  - rewrite parse_union. intros E. apply all_of_Forall in Hwf. apply union_Failure in E as [Hne Hi].
    split; [done |]. destruct Hi as [-> | Hi]; [apply inside_at |]. apply Forall_forall. intros i Hin.
    destruct (Hi i Hin) as [(f & Hf & _) | (f & Hf & Hif)]; [by apply elem_of_nil in Hf |].
    apply list_elem_of_fmap in Hf as (s & Hf & Hs). rewrite Forall_forall in IH, Hwf.
    destruct (IH s Hs (Hwf s Hs) input path f) as [_ Hall]; [done |].
    unfold inside in Hall. rewrite Forall_forall in Hall. by apply Hall.
Qed.

(** A failure has an issue, of whatever schema. *)
Lemma failure_nonempty s : forall input path issues,
  parseInternal s input path = Failure issues -> issues <> [].
Proof.
  induction s as [| rules required | rules | | | | value | values | inner IH | inner IH | inner f IH | inner f IH
                 | item rules IH | items IH | shape policy catchall IHs IHc | options IH]
    using schema_nested_ind; intros input path issues.
  15: { rewrite parse_object. destruct (negb _); [by intros [= <-] | by intros [_ ?]%unless_Failure]. }
  15: { rewrite parse_union. by intros [? _]%union_Failure. }
  14: { destruct input; try (by intros [= <-]). rewrite parse_tuple.
        destruct (negb _); [by intros [= <-] | by intros [_ ?]%unless_Failure]. }
  all: expand_parse.
  - by intros [= <-].
  - destruct input; try (by intros [= <-]). by intros [_ ?]%unless_Failure.
  - destruct input; try (by intros [= <-]). destruct (negb _); [by intros [= <-] | by intros [_ ?]%unless_Failure].
  - destruct input; by intros [= <-].
  - done.
  - destruct (is_undefined input); by intros [= <-].
  - destruct (strict_equal input value); by intros [= <-].
  - destruct input; try (by intros [= <-]). destruct (existsb _ _); by intros [= <-].
  - destruct (is_undefined input); [done | by apply IH].
  - destruct input; (done || by apply IH).
  - destruct (parseInternal inner input path) eqn:E; [done |]. intros [= <-]. by eapply IH.
  - destruct (parseInternal inner input path) eqn:E; [by intros [_ ?]%unless_Failure |]. intros [= <-]. by eapply IH.
  - destruct input; try (by intros [= <-]). by intros [_ ?]%unless_Failure.
Qed.

(** ** The object that a success returns *)

Definition data_of (r : ParseResult) : jsval := match r with Success d => d | Failure _ => JUndefined end.

Lemma own_app (a b : list (string * jsval)) k :
  own (a ++ b) k = match own a k with Some v => Some v | None => own b k end.
Proof. induction a as [| [k0 v] a IH]; [done |]. cbn. by destruct (String.eqb k0 k). Qed.

Lemma filter_none {A} (f : A -> bool) l : (forall x, x ∈ l -> f x = false) -> List.filter f l = [].
Proof.
  induction l as [| x l IH]; intros Hf; [done |]. cbn. rewrite (Hf x) by (by left).
  apply IH. intros y Hy. apply Hf. by right.
Qed.

Lemma own_missing (l : list (string * jsval)) k : k ∉ map fst l -> own l k = None.
Proof.
  induction l as [| [k0 v] l IH]; [done |]. cbn. rewrite elem_of_cons. intros Hk.
  destruct (String.eqb_spec k0 k) as [-> |]; [exfalso; apply Hk; by left |]. apply IH. tauto.
Qed.

(** Entries written item by item, each under the name of its item. *)
Lemma own_join {A} (name : A -> string) (f : A -> list (string * jsval)) l k r :
  (forall y k', k' ∈ map fst (f y) -> k' = name y) ->
  (forall y, y ∈ l -> name y = k -> own (f y) k = r) ->
  (r = None \/ exists y, y ∈ l /\ name y = k) -> own (mjoin (map f l)) k = r.
Proof.
  intros Hf. induction l as [| y l IH]; intros Hr Hex; cbn.
  - destruct Hex as [-> | (y & Hy & _)]; [done | by apply elem_of_nil in Hy].
  - rewrite own_app. destruct (decide (name y = k)) as [Hn | Hn].
    + rewrite (Hr y) by (done || by left). destruct r as [v |]; [done |].
      apply IH; [intros; apply Hr; [by right | done] | by left].
    + rewrite own_missing by (by intros ->%Hf). apply IH; [intros; apply Hr; [by right | done] |].
      destruct Hex as [-> | (z & Hz & Hnz)]; [by left |]. right. exists z. split; [| done].
      apply elem_of_cons in Hz as [-> |]; done.
Qed.

Section object.
Variables (shape : list (string * Schema)) (policy : UnknownKeyPolicy) (catchall : Schema).
Variables (input : jsval) (path : list path_item).

Definition known_value (e : string * Schema) : jsval :=
  data_of (parseInternal e.2 (get input e.1) (path ++ [key e.1])).
Definition known_entry (e : string * Schema) : list (string * jsval) := written input e.1 (Success (known_value e)).

Definition keeps_unknown : bool :=
  negb (is_never catchall) || match policy with passthrough => true | _ => false end.
Definition unknown_value (k : string) : jsval :=
  if is_never catchall then get input k else data_of (parseInternal catchall (get input k) (path ++ [key k])).
Definition unknown_entry (k : string) : list (string * jsval) :=
  if keeps_unknown then [(k, unknown_value k)] else [].

Definition output_known : list (string * jsval) := mjoin (map known_entry shape).
Definition output_unknown : list (string * jsval) := mjoin (map unknown_entry (unknown_keys input shape)).
Definition output : jsval := JObj (output_known ++ output_unknown).

Lemma join_nil {A} (ls : list (list A)) : mjoin ls = [] -> Forall (fun l => l = []) ls.
Proof.
  induction ls as [| l ls IH]; intros E; [constructor |]. cbn in E. apply app_eq_nil in E as [-> E].
  constructor; [done | by apply IH].
Qed.

Lemma join_all_nil {A} (ls : list (list A)) : (forall l, l ∈ ls -> l = []) -> mjoin ls = [].
Proof.
  induction ls as [| l ls IH]; intros Hl; [done |]. cbn. rewrite (Hl l) by (by left). apply IH.
  intros x Hx. apply Hl. by right.
Qed.

Lemma object_success w : parseInternal (ObjectSchema shape policy catchall) input path = Success w ->
  isPlainRecord input = true /\ w = output /\
  (forall e, e ∈ shape -> parseInternal e.2 (get input e.1) (path ++ [key e.1]) = Success (known_value e)) /\
  (forall k, k ∈ unknown_keys input shape ->
     if is_never catchall then policy <> strict
     else parseInternal catchall (get input k) (path ++ [key k]) = Success (unknown_value k)).
Proof.
  rewrite parse_object. destruct (isPlainRecord input); [| done]. cbn [negb].
  intros [Hiss ->]%unless_Success. split; [done |]. apply app_eq_nil in Hiss as [Hk Hu].
  apply join_nil in Hk, Hu. rewrite Forall_forall in Hk, Hu.
  assert (Hks : forall e, e ∈ shape ->
    parseInternal e.2 (get input e.1) (path ++ [key e.1]) = Success (known_value e)).
  { intros e He. unfold known_value.
    specialize (Hk (result_issues (parseInternal e.2 (get input e.1) (path ++ [key e.1])))).
    destruct (parseInternal e.2 _ _) as [d | l] eqn:E; [done |]. exfalso. cbn in Hk.
    assert (l = []) as -> by (apply Hk; apply list_elem_of_fmap; exists (e.1, Failure l); split; [done |];
      apply list_elem_of_fmap; exists e; by rewrite E).
    by destruct (failure_nonempty e.2 _ _ _ E). }
  assert (Hus : forall k, k ∈ unknown_keys input shape ->
    (unknown_result (parseInternal catchall) (is_never catchall) policy input path k).2 = []).
  { intros k Hin. apply Hu. apply list_elem_of_fmap.
    exists (unknown_result (parseInternal catchall) (is_never catchall) policy input path k). split; [done |].
    apply list_elem_of_fmap. by exists k. }
  assert (Hue : forall k, k ∈ unknown_keys input shape ->
    (unknown_result (parseInternal catchall) (is_never catchall) policy input path k).1 = unknown_entry k /\
    if is_never catchall then policy <> strict
    else parseInternal catchall (get input k) (path ++ [key k]) = Success (unknown_value k)).
  { intros k Hin. specialize (Hus k Hin). unfold unknown_result, unknown_entry, unknown_value, keeps_unknown in *.
    destruct (is_never catchall); cbn [negb orb] in *; [by destruct policy |].
    destruct (parseInternal catchall _ _) as [d | l] eqn:E; [done |]. exfalso. cbn in Hus. subst l.
    by destruct (failure_nonempty catchall _ _ _ E). }
  split_and!; [| done | intros k Hin; by apply Hue].
  unfold output, output_known, output_unknown. do 2 f_equal.
  - unfold known_results. rewrite map_map. f_equal. apply map_ext_in. intros e He.
    apply list_elem_of_In in He. cbn. unfold known_entry. by rewrite (Hks e He).
  - unfold unknown_results. rewrite map_map. f_equal. apply map_ext_in. intros k Hin.
    apply list_elem_of_In in Hin. by apply Hue.
Qed.
(** What reading the output gives. *)
Hypothesis Hnodup : NoDup (map fst shape).

Lemma shape_key k : is_shape_key shape k = true <-> k ∈ map fst shape.
Proof.
  unfold is_shape_key. rewrite existsb_exists, list_elem_of_In, in_map_iff.
  split; intros (e & H1 & H2); exists e; [apply String.eqb_eq in H2 | rewrite String.eqb_eq]; done.
Qed.

Lemma shape_names e e' : e ∈ shape -> e' ∈ shape -> e.1 = e'.1 -> e = e'.
Proof.
  intros He He' E. apply list_elem_of_lookup in He as [i Hi], He' as [j Hj].
  assert (i = j) as ->; [| congruence]. eapply (NoDup_lookup (map fst shape) i j e.1 Hnodup).
  - change (@map) with (@list_fmap). by rewrite list_lookup_fmap, Hi.
  - change (@map) with (@list_fmap). by rewrite list_lookup_fmap, Hj, E.
Qed.

Lemma known_keys y k : k ∈ map fst (known_entry y) -> k = y.1.
Proof.
  unfold known_entry, written. destruct (_ || _); cbn; [by intros ->%list_elem_of_singleton | by intros ?%elem_of_nil].
Qed.

Lemma unknown_entry_keys y k : k ∈ map fst (unknown_entry y) -> k = id y.
Proof.
  unfold unknown_entry. destruct keeps_unknown; cbn; [by intros ->%list_elem_of_singleton | by intros ?%elem_of_nil].
Qed.

Lemma unknown_not_shape k : k ∈ unknown_keys input shape -> k ∉ map fst shape.
Proof.
  unfold unknown_keys. intros Hk%list_elem_of_In%filter_In. destruct Hk as [_ Hk].
  apply negb_true_iff in Hk. rewrite <- shape_key. congruence.
Qed.

Lemma output_known_own e : e ∈ shape -> own output_known e.1 = own (known_entry e) e.1.
Proof.
  intros He. apply (own_join fst known_entry); [apply known_keys | | right; by exists e].
  intros y Hy E. by rewrite (shape_names y e).
Qed.

Lemma output_known_none k : k ∉ map fst shape -> own output_known k = None.
Proof.
  intros Hk. apply (own_join fst known_entry); [apply known_keys | | by left].
  intros y Hy <-. exfalso. apply Hk. apply list_elem_of_In, in_map, list_elem_of_In, Hy.
Qed.

Lemma output_unknown_none k : k ∈ map fst shape -> own output_unknown k = None.
Proof.
  intros Hk. apply (own_join id unknown_entry); [apply unknown_entry_keys | | by left].
  intros y Hy <-. by apply unknown_not_shape in Hy.
Qed.

Lemma get_known e : e ∈ shape -> get output e.1 = known_value e /\
  (has_own output e.1 = negb (is_undefined (known_value e)) || has_own input e.1).
Proof.
  intros He. assert (Hin : e.1 ∈ map fst shape) by (apply list_elem_of_In, in_map, list_elem_of_In, He).
  assert (Ho : own (own_entries output) e.1 = own (known_entry e) e.1).
  { cbn [output own_entries]. rewrite own_app, output_known_own, output_unknown_none by done. by case_match. }
  unfold get, has_own at 1. rewrite Ho. unfold known_entry, written.
  destruct (negb (is_undefined (known_value e)) || has_own input e.1) eqn:E; cbn.
  - by rewrite String.eqb_refl.
  - apply orb_false_iff in E as [E _]. apply negb_false_iff in E. split; [| done].
    destruct (known_value e); (done || discriminate E).
Qed.

Lemma get_unknown k : k ∈ unknown_keys input shape -> keeps_unknown = true -> get output k = unknown_value k.
Proof.
  intros Hk Hkeep. unfold get, output. cbn [own_entries].
  rewrite own_app, output_known_none by (by apply unknown_not_shape).
  assert (own output_unknown k = Some (unknown_value k)) as ->; [| done].
  apply (own_join id unknown_entry); [apply unknown_entry_keys | | right; by exists k].
  intros y _ E. unfold id in E. subst y. unfold unknown_entry. rewrite Hkeep. cbn. by rewrite String.eqb_refl.
Qed.

Lemma output_unknown_keys : unknown_keys output shape = if keeps_unknown then unknown_keys input shape else [].
Proof.
  unfold unknown_keys at 1. unfold output. cbn [own_entries]. rewrite map_app, List.filter_app.
  assert (List.filter (fun k => negb (is_shape_key shape k)) (map fst output_known) = []) as ->.
  { apply filter_none. intros k Hk. apply negb_false_iff, shape_key.
    apply list_elem_of_fmap in Hk as (e & -> & Hj). apply list_elem_of_join in Hj as (l & He & Hl).
    apply list_elem_of_fmap in Hl as (y & -> & Hy).
    assert (e.1 = y.1) as ->; [| apply list_elem_of_In, in_map, list_elem_of_In, Hy].
    apply known_keys. apply list_elem_of_In, in_map, list_elem_of_In, He. }
  cbn. unfold output_unknown, unknown_entry. destruct keeps_unknown; cycle 1.
  { induction (unknown_keys input shape) as [| k ks IH]; [done |]. exact IH. }
  assert (map fst (mjoin (map (fun k => [(k, unknown_value k)]) (unknown_keys input shape))) = unknown_keys input shape)
    as ->.
  { induction (unknown_keys input shape) as [| k ks IH]; [done |]. cbn. f_equal. exact IH. }
  unfold unknown_keys. induction (map fst (own_entries input)) as [| k ks IH]; [done |]. cbn.
  destruct (negb (is_shape_key shape k)) eqn:E; [cbn; by rewrite E, IH | done].
Qed.

End object.

(** ** The type of a schema *)

(** Rules that all hold. *)
Definition obeys {A R} (value : A) (rules : list (R * message)) (matches : A -> R -> bool) : Prop :=
  Forall (fun rule => matches value rule.1 = true) rules.

Lemma rules_none {A R} (v : A) (rules : list (R * message)) f path :
  collectRuleIssues v rules f path = [] <-> obeys v rules f.
Proof.
  unfold collectRuleIssues, obeys. induction rules as [| r rules IH]; cbn; [by rewrite Forall_nil |].
  rewrite Forall_cons, <- IH. destruct (f v r.1); cbn; [tauto |]. split; [done | by intros [? _]].
Qed.

(** The values a schema describes, without its interpreter. *)
Fixpoint conforms (s : Schema) (w : jsval) : Prop :=
  match s with
  | NeverSchema => False
  | StringSchema rules _ => exists text, w = JStr text /\ obeys text rules matchesStringRule
  | NumberSchema rules => exists n, w = JNum n /\ isFinite n = true /\ obeys n rules matchesNumberRule
  | BooleanSchema => exists b, w = JBool b
  | UnknownSchema => True
  | UndefinedSchema => w = JUndefined
  | LiteralSchema value => w = value
  | EnumSchema values => exists text, w = JStr text /\ text ∈ values
  | OptionalSchema inner => w = JUndefined \/ conforms inner w
  | NullableSchema inner => w = JNull \/ conforms inner w
  | TransformSchema inner f => exists v, conforms inner v /\ w = f v
  | RefinementSchema inner refine => conforms inner w /\ refine w [] = []
  | ArraySchema item rules =>
      exists items, w = JArr items /\ obeys items rules matchesArrayRule /\ forall x, x ∈ items -> conforms item x
  | TupleSchema schemas =>
      exists items, w = JArr items /\
        (fix go (ss : list Schema) (xs : list jsval) : Prop :=
           match ss, xs with
           | [], [] => True
           | s :: ss, x :: xs => conforms s x /\ go ss xs
           | _, _ => False
           end) schemas items
  | ObjectSchema shape policy catchall =>
      exists properties, w = JObj properties /\
        all_of (fun e => conforms e.2 (get w e.1)) shape /\
        forall k, k ∈ map fst properties -> k ∉ map fst shape ->
          if is_never catchall then policy = passthrough else conforms catchall (get w k)
  | UnionSchema options => some_of (fun s => conforms s w) options
  end.

Lemma all_success rs : item_issues rs = [] -> (forall f, Failure f ∈ rs -> f <> []) ->
  Forall2 (fun r d => r = Success d) rs (parsed_items rs).
Proof.
  induction rs as [| [d | f] rs IH]; cbn; intros Hi Hf; [constructor | |].
  - constructor; [done |]. apply IH; [done |]. intros g Hg. apply Hf. by right.
  - apply app_eq_nil in Hi as [-> _]. exfalso. apply (Hf []); [by left | done].
Qed.

(** The items of an array or a tuple that was accepted. *)
Lemma array_success item rules items path w :
  parseInternal (ArraySchema item rules) (JArr items) path = Success w ->
  exists data, w = JArr data /\ obeys items rules matchesArrayRule /\ length data = length items /\
    forall i x d, items !! i = Some x -> data !! i = Some d ->
      parseInternal item x (path ++ [index (Z.of_nat i)]) = Success d.
Proof.
  expand_parse. intros [Hi ->]%unless_Success. apply app_eq_nil in Hi as [Hr Hi].
  set (rs := imap _ items) in *. eexists. split; [done |]. split; [by eapply rules_none |].
  assert (Hall : Forall2 (fun r d => r = Success d) rs (parsed_items rs)).
  { apply all_success; [done |]. intros f Hf. apply list_elem_of_lookup in Hf as [i Hf]. unfold rs in Hf.
    rewrite list_lookup_imap in Hf. destruct (items !! i); [| done]. injection Hf as Hf. by eapply failure_nonempty. }
  split; [rewrite <- (Forall2_length _ _ _ Hall); apply length_imap |].
  intros i x d Hx Hd. destruct (Forall2_lookup_r _ _ _ i d Hall Hd) as (r & Hrs & ->).
  unfold rs in Hrs. rewrite list_lookup_imap, Hx in Hrs. by injection Hrs.
Qed.

Lemma tuple_success schemas items path w :
  parseInternal (TupleSchema schemas) (JArr items) path = Success w ->
  exists data, w = JArr data /\ length items = length schemas /\ length data = length schemas /\
    forall i s d, schemas !! i = Some s -> data !! i = Some d ->
      exists x, items !! i = Some x /\ parseInternal s x (path ++ [index (Z.of_nat i)]) = Success d.
Proof.
  rewrite parse_tuple. destruct (Nat.eqb_spec (length items) (length schemas)) as [Hl |]; [| done]. cbn [negb].
  intros [Hi ->]%unless_Success. set (rs := tuple_results items path schemas) in *.
  eexists. split; [done |]. split; [done |].
  assert (Hall : Forall2 (fun r d => r = Success d) rs (parsed_items rs)).
  { apply all_success; [done |]. intros f Hf. apply list_elem_of_lookup in Hf as [i Hf]. unfold rs, tuple_results in Hf.
    rewrite list_lookup_imap in Hf. destruct (schemas !! i); [| done]. injection Hf as Hf. by eapply failure_nonempty. }
  split; [rewrite <- (Forall2_length _ _ _ Hall); apply length_imap |].
  intros i s d Hs Hd. destruct (Forall2_lookup_r _ _ _ i d Hall Hd) as (r & Hrs & ->).
  unfold rs, tuple_results in Hrs. rewrite list_lookup_imap, Hs in Hrs. cbn in Hrs.
  destruct (lookup_lt_is_Some_2 items i) as [x Hx]; [apply lookup_lt_Some in Hs; lia |].
  exists x. rewrite Hx in Hrs. split; [done |]. by injection Hrs.
Qed.

Lemma obeys_length (a b : list jsval) rules : length a = length b ->
  obeys a rules matchesArrayRule -> obeys b rules matchesArrayRule.
Proof.
  intros Hl. unfold obeys. intros Ha. eapply Forall_impl; [exact Ha |]. intros [[n | n | n] m]; cbn; unfold zlength; by rewrite Hl.
Qed.

Lemma strict_equal_Success a b : strict_equal a b = true -> strict_equal b b = true.
Proof.
  destruct a as [| | x | n | s | | |], b as [| | y | m | t | | |]; cbn; try done.
  - by destruct y.
  - destruct n, m as [zm | r | neg |]; cbn; try done; intros _.
    + apply Z.eqb_refl.
    + apply QArith_base.Qeq_bool_refl.
    + by destruct neg.
  - intros _. apply String.eqb_refl.
Qed.

(** What parsing returns has the type of the schema. *)
Lemma parse_conforms s : well_formed s -> forall input path w,
  parseInternal s input path = Success w -> conforms s w.
Proof.
  induction s as [| rules required | rules | | | | value | values | inner IH | inner IH | inner f IH | inner f IH
                 | item rules IH | schemas IH | shape policy catchall IHs IHc | options IH]
    using schema_nested_ind; intros Hwf input path w; cbn [well_formed] in Hwf.
  - done.
  - expand_parse. destruct input as [| | | | t | | |]; try done. intros [Hi ->]%unless_Success.
    exists t. split; [done | by eapply rules_none].
  - expand_parse. destruct input as [| | | n | | | |]; try done. destruct (isFinite n) eqn:Ef; [| done].
    cbn [negb]. intros [Hi ->]%unless_Success. exists n. split_and!; [done | done | by eapply rules_none].
  - expand_parse. destruct input as [| | b | | | | |]; try done. intros [= <-]. by exists b.
  - done.
  - expand_parse. destruct (is_undefined input); [by intros [= <-] | done].
  - expand_parse. destruct (strict_equal input value); [by intros [= <-] | done].
  - expand_parse. destruct input as [| | | | t | | |]; try done.
    destruct (existsb (String.eqb t) values) eqn:E; [| done]. intros [= <-]. exists t. split; [done |].
    apply existsb_exists in E as (u & Hu & ->%String.eqb_eq). by apply list_elem_of_In.
  - cbn [parseInternal conforms]. destruct (is_undefined input); [intros [= <-]; by left |]. intros E. right. by eapply IH.
  - cbn [parseInternal conforms]. destruct input; try (intros E; right; by eapply IH). intros [= <-]. by left.
  - cbn [parseInternal conforms]. destruct (parseInternal inner input path) as [v |] eqn:E; [| done]. intros [= <-].
    exists v. split; [by eapply IH | done].
  - destruct Hwf as (Hin & _ & Hu). cbn [parseInternal conforms].
    destruct (parseInternal inner input path) as [v |] eqn:E; [| done]. intros [Hi ->]%unless_Success.
    split; [by eapply IH | by eapply Hu].
  - destruct input as [| | | | | l | |]; try done. intros E. apply array_success in E as (data & -> & Hr & Hl & Hd).
    cbn [conforms]. exists data. split_and!; [done | by eapply (obeys_length l) |].
    intros x Hx. apply list_elem_of_lookup in Hx as [i Hx].
    destruct (lookup_lt_is_Some_2 l i) as [y Hy]; [apply lookup_lt_Some in Hx; lia |]. by eapply IH, Hd.
  - destruct input as [| | | | | l | |]; try done. intros E. apply tuple_success in E as (data & -> & _ & Hl & Hd).
    cbn [conforms]. exists data. split; [done |]. apply all_of_Forall in Hwf.
    assert (Hc : forall i s d, schemas !! i = Some s -> data !! i = Some d -> conforms s d).
    { intros i s d Hs Hx. destruct (Hd i s d Hs Hx) as (x & _ & Hp). rewrite Forall_forall in IH, Hwf.
      apply list_elem_of_lookup_2 in Hs. by eapply (IH s Hs (Hwf s Hs)). }
    clear -Hc Hl. revert data Hc Hl. induction schemas as [| s ss IHl]; intros [| d ds] Hc Hl; try done. split.
    + by apply (Hc 0%nat).
    + apply IHl; [| by injection Hl]. intros i. apply (Hc (S i)).
  - destruct Hwf as (Hn & Hs & Hc). intros E. apply object_success in E as (_ & -> & Hk & Hu).
    apply all_of_Forall in Hs. cbn [conforms]. eexists. split; [done |]. split.
    + apply all_of_Forall, Forall_forall. intros e He. rewrite Forall_forall in IHs, Hs.
      destruct (get_known shape policy catchall input path Hn e He) as [-> _]. by eapply (IHs e He (Hs e He)), Hk.
    + intros k Hin Hnot.
      assert (Huk : k ∈ unknown_keys (output shape policy catchall input path) shape).
      { unfold unknown_keys. apply list_elem_of_In, filter_In. split; [by apply list_elem_of_In |].
        apply negb_true_iff. destruct (is_shape_key shape k) eqn:Es; [| done]. by apply shape_key in Es. }
      rewrite output_unknown_keys in Huk by done. destruct (keeps_unknown policy catchall) eqn:Ekeep; cycle 1.
      { by apply elem_of_nil in Huk. }
      specialize (Hu k Huk). change (JObj _) with (output shape policy catchall input path).
      rewrite get_unknown by done. unfold keeps_unknown in Ekeep.
      destruct (is_never catchall); [by destruct policy | by eapply IHc].
  - rewrite parse_union. intros E. apply union_Success in E. apply list_elem_of_fmap in E as (s & E & Hs).
    apply all_of_Forall in Hwf. rewrite Forall_forall in IH, Hwf. cbn [conforms].
    apply some_of_Exists, Exists_exists. exists s. split; [done |]. by eapply (IH s Hs (Hwf s Hs)).
Qed.

(** ** Values returned once *)

(** No transform, no union: the two that may read a returned value otherwise. *)
Fixpoint stable (s : Schema) : Prop :=
  match s with
  | TransformSchema _ _ | UnionSchema _ => False
  | OptionalSchema inner | NullableSchema inner | RefinementSchema inner _ | ArraySchema inner _ => stable inner
  | TupleSchema items => all_of stable items
  | ObjectSchema shape _ catchall => all_of (fun e => stable e.2) shape /\ stable catchall
  | _ => True
  end.

Lemma success_items rs data : Forall2 (fun r d => r = Success d) rs data ->
  item_issues rs = [] /\ parsed_items rs = data.
Proof. induction 1 as [| r d rs data -> _ [IH1 IH2]]; cbn; [done |]. by rewrite IH1, IH2. Qed.

Lemma reparse_array item rules data q l : obeys l rules matchesArrayRule -> length data = length l ->
  (forall i d, data !! i = Some d -> parseInternal item d (q ++ [index (Z.of_nat i)]) = Success d) ->
  parseInternal (ArraySchema item rules) (JArr data) q = Success (JArr data).
Proof.
  intros Hr Hl Hd. expand_parse. set (rs := imap _ data).
  assert (Hall : Forall2 (fun r d => r = Success d) rs data).
  { apply Forall2_same_length_lookup_2; [apply length_imap |]. intros i r d Hri Hdi. unfold rs in Hri.
    rewrite list_lookup_imap, Hdi in Hri. injection Hri as <-. by apply Hd. }
  destruct (success_items _ _ Hall) as [-> ->]. apply unless_Success. split; [| done].
  rewrite app_nil_r. by eapply rules_none, obeys_length.
Qed.

Lemma reparse_tuple schemas data q : length data = length schemas ->
  (forall i s d, schemas !! i = Some s -> data !! i = Some d ->
     parseInternal s d (q ++ [index (Z.of_nat i)]) = Success d) ->
  parseInternal (TupleSchema schemas) (JArr data) q = Success (JArr data).
Proof.
  intros Hl Hd. rewrite parse_tuple, Hl, Nat.eqb_refl. cbn [negb]. set (rs := tuple_results data q schemas).
  assert (Hall : Forall2 (fun r d => r = Success d) rs data).
  { apply Forall2_same_length_lookup_2; [unfold rs, tuple_results; by rewrite length_imap |].
    intros i r d Hri Hdi. unfold rs, tuple_results in Hri. rewrite list_lookup_imap in Hri.
    destruct (schemas !! i) as [s |] eqn:Es; [| done]. injection Hri as <-. rewrite Hdi. by eapply Hd. }
  by destruct (success_items _ _ Hall) as [-> ->].
Qed.

Lemma reparse_object shape policy catchall input path q :
  let w := output shape policy catchall input path in
  NoDup (map fst shape) ->
  (forall k, k ∈ unknown_keys input shape -> is_never catchall = true -> policy <> strict) ->
  (forall e, e ∈ shape -> parseInternal e.2 (known_value input path e) (q ++ [key e.1]) =
                          Success (known_value input path e)) ->
  (forall k, k ∈ unknown_keys input shape -> is_never catchall = false ->
     parseInternal catchall (unknown_value catchall input path k) (q ++ [key k]) =
     Success (unknown_value catchall input path k)) ->
  parseInternal (ObjectSchema shape policy catchall) w q = Success w.
Proof.
  intros w Hn Hstrict Hk Hu. rewrite parse_object. cbn [isPlainRecord isNonArrayObject w output negb].
  fold (output shape policy catchall input path). fold w. apply unless_Success.
  assert (Ek : known_results w q shape = map (fun e => (e.1, Success (known_value input path e))) shape).
  { unfold known_results. apply map_ext_in. intros e He%list_elem_of_In.
    destruct (get_known shape policy catchall input path Hn e He) as [Hg _]. fold w in Hg. by rewrite Hg, Hk. }
  assert (Eu : unknown_results w q shape policy catchall =
               map (fun k => (unknown_entry policy catchall input path k, [])) (unknown_keys w shape)).
  { unfold unknown_results. apply map_ext_in. intros k Hin%list_elem_of_In. unfold w in Hin.
    rewrite output_unknown_keys in Hin by done. unfold unknown_entry.
    destruct (keeps_unknown policy catchall) eqn:Ekeep; [| by apply elem_of_nil in Hin].
    assert (Hg := get_unknown shape policy catchall input path k Hin Ekeep). fold w in Hg.
    unfold unknown_result. rewrite Hg.
    unfold keeps_unknown in Ekeep. destruct (is_never catchall) eqn:En; cbn [negb orb] in *.
    - by destruct policy.
    - by rewrite Hu. }
  rewrite Ek, Eu. split.
  - rewrite !map_map, (join_all_nil (map _ shape)), (join_all_nil (map _ (unknown_keys w shape))); [done | |];
      intros l Hl; apply list_elem_of_fmap in Hl as (x & -> & _); done.
  - unfold w at 1, output. do 2 f_equal.
    + unfold output_known. rewrite map_map. f_equal. apply map_ext_in. intros e He%list_elem_of_In.
      unfold known_entry, written. cbn [fst snd].
      destruct (get_known shape policy catchall input path Hn e He) as [_ Ho]. fold w in Ho. rewrite Ho.
      by destruct (negb (is_undefined (known_value input path e))).
    + unfold output_unknown, w. rewrite map_map, output_unknown_keys by done. cbn.
      unfold unknown_entry. destruct (keeps_unknown policy catchall); [done |]. symmetry.
      symmetry. apply join_all_nil. intros l Hl. by apply list_elem_of_fmap in Hl as (x & -> & _).
Qed.

Lemma stable_reparse s : well_formed s -> stable s -> forall input path w q,
  parseInternal s input path = Success w -> parseInternal s w q = Success w.
Proof.
  induction s as [| rules required | rules | | | | value | values | inner IH | inner IH | inner f IH | inner f IH
                 | item rules IH | schemas IH | shape policy catchall IHs IHc | options IH]
    using schema_nested_ind; intros Hwf Hst input path w q; cbn [well_formed stable] in Hwf, Hst; try done.
  - expand_parse. destruct input as [| | | | t | | |]; try done. intros [Hi ->]%unless_Success.
    expand_parse. apply unless_Success. split; [| done]. by eapply rules_none, rules_none.
  - expand_parse. destruct input as [| | | n | | | |]; try done. destruct (isFinite n) eqn:Ef; [| done].
    cbn [negb]. intros [Hi ->]%unless_Success. expand_parse. rewrite Ef. cbn [negb].
    apply unless_Success. split; [| done]. by eapply rules_none, rules_none.
  - expand_parse. by destruct input; try done; intros [= <-].
  - expand_parse. destruct (is_undefined input); [by intros [= <-] | done].
  - expand_parse. destruct (strict_equal input value) eqn:E; [| done]. intros [= <-].
    by rewrite (strict_equal_Success input value).
  - expand_parse. destruct input as [| | | | t | | |]; try done.
    destruct (existsb (String.eqb t) values) eqn:E; [| done]. intros [= <-]. by rewrite E.
  - expand_parse. destruct (is_undefined input); [by intros [= <-] |]. intros E.
    destruct (is_undefined w) eqn:Ew; [by destruct w |]. by eapply IH.
  - expand_parse. assert (Hgen : forall v, parseInternal inner v path = Success w ->
      match w with JNull => Success JNull | _ => parseInternal inner w q end = Success w)
      by (intros v E; destruct w; try done; by eapply IH).
    destruct input; try (intros E; by eapply Hgen). by intros [= <-].
  - destruct Hwf as (Hin & _ & Hu). expand_parse.
    destruct (parseInternal inner input path) as [v |] eqn:E; [| done]. intros [Hi ->]%unless_Success.
    rewrite (IH Hin Hst input path v q E). apply unless_Success. split; [by eapply Hu | done].
  - destruct input as [| | | | | l | |]; try done. intros E. apply array_success in E as (data & -> & Hr & Hl & Hd).
    eapply reparse_array; [done | done |]. intros i d Hi.
    destruct (lookup_lt_is_Some_2 l i) as [x Hx]; [apply lookup_lt_Some in Hi; lia |]. by eapply IH, Hd.
  - destruct input as [| | | | | l | |]; try done. intros E. apply tuple_success in E as (data & -> & _ & Hl & Hd).
    apply reparse_tuple; [done |]. intros i s d Hs Hx. destruct (Hd i s d Hs Hx) as (x & _ & Hp).
    apply all_of_Forall in Hwf, Hst. rewrite Forall_forall in IH, Hwf, Hst. apply list_elem_of_lookup_2 in Hs.
    by eapply (IH s Hs (Hwf s Hs) (Hst s Hs)).
  - destruct Hwf as (Hn & Hs & Hc), Hst as [Hss Hsc]. intros E. apply object_success in E as (_ & -> & Hk & Hu).
    apply all_of_Forall in Hs, Hss. rewrite Forall_forall in IHs, Hs, Hss. apply reparse_object; [done | | |].
    + intros k Huk En. specialize (Hu k Huk). by rewrite En in Hu.
    + intros e He. eapply (IHs e He (Hs e He) (Hss e He)). by apply Hk.
    + intros k Huk En. specialize (Hu k Huk). rewrite En in Hu. by eapply IHc.
Qed.

(** ** The properties *)

(** Parsing with a schema either returns a value of the schema's type, read
    off the schema without its interpreter, or reports at least one issue, and
    every issue lies inside the value that was parsed. *)
Theorem schema_parse_sound s input path : well_formed s ->
  match parseInternal s input path with
  | Success w => conforms s w
  | Failure issues => issues <> [] /\ Forall (fun i => path `prefix_of` issue_path i) issues
  end.
Proof.
  intros Hwf. destruct (parseInternal s input path) as [w | issues] eqn:E.
  - by eapply parse_conforms.
  - by eapply parse_failure_inside.
Qed.

(** Parsing is stable: for a schema without transforms and unions, the
    value that a success returns is accepted again, anywhere, and returned
    unchanged. *)
Theorem schema_parse_stable s input path w q : well_formed s -> stable s ->
  parseInternal s input path = Success w -> parseInternal s w q = Success w.
Proof. intros Hwf Hst. by apply stable_reparse. Qed.

(** A union may read the value it returned with an earlier option. *)
Definition shrinking_union : Schema :=
  UnionSchema [s_object [("y", OptionalSchema s_string)]; s_object [("x", s_number)]]%string.

Example union_reparse_differs :
  let v := JObj [("x", JNum (NInt 1)); ("y", JNum (NInt 5))]%string in
  parseInternal shrinking_union v [] = Success (JObj [("x"%string, JNum (NInt 1))]) /\
  parseInternal shrinking_union (JObj [("x"%string, JNum (NInt 1))]) [] = Success (JObj []).
Proof. split; vm_compute; reflexivity. Qed.
