(* ===== verification/PublicInput.v ===== *)
(** The public input of a verification: the document a bundle publishes and the
    authority derived from it (packages/verification/src/verification/
    public-input-contract.ts), and the schemas of the other public audit
    artifacts (public-audit-artifacts.ts). The errors a parse pushes are the
    list it returns, in order. *)
From S2P Require Import Prelude.
From S2P Require Import JsNumber.
From S2P Require Import JsValue.
From S2P Require Import Hex.
From S2P Require Import Contract.
From S2P Require Import LocalCast.
From S2P Require Import Evidence.
From S2P Require Import Journal.
From S2P Require Import Schema.
From S2P Require Import SchemaProofs.
Import JsValue.
Import Evidence.

Module PublicInput.

(** ** Schemas of the audit artifacts; [documentOpenApiRefinement] returns its schema *)

Import Schema.

Definition hex32_text (v : jsval) : bool :=
  match v with JStr s => isValidHexString s (Some 32) | _ => false end.

Definition publicAuditHex32Schema : Schema := refine hex32_text (Some [T "Expected 32-byte hex string"]) s_string.
Definition publicAuditUint32Schema : Schema :=
  number_max (NInt Contract.UINT32_MAX) None (number_nonnegative None (number_int None s_number)).
Definition publicAuditPositiveUint32Schema : Schema := number_min (NInt 1) None publicAuditUint32Schema.

Definition electionManifestArtifactSchema : Schema :=
  s_strict (s_object
    [("electionId", string_uuid None s_string); ("totalExpected", publicAuditUint32Schema);
     ("choices", array_min 1 None (s_array (string_min 1 None s_string)));
     ("version", string_min 1 None s_string); ("botCount", publicAuditUint32Schema);
     ("merkleTreeDepth", publicAuditPositiveUint32Schema); ("electionConfigHash", publicAuditHex32Schema)]%string).

Definition closeStatementArtifactSchema : Schema :=
  s_strict (s_object
    [("logId", publicAuditHex32Schema); ("treeSize", publicAuditPositiveUint32Schema);
     ("timestamp", number_max (NInt MAX_SAFE_INTEGER) None (number_nonnegative None (number_int None s_number)));
     ("bulletinRoot", publicAuditHex32Schema); ("sthDigest", publicAuditHex32Schema)]%string).

Definition isElectionManifest (value : jsval) : bool := parses electionManifestArtifactSchema value.
Definition isCloseStatement (value : jsval) : bool := parses closeStatementArtifactSchema value.

(** ** The document *)

Definition PUBLIC_INPUT_SCHEMA : string := "stark-ballot.public_input".
Definition PUBLIC_INPUT_VERSION : string := "1.1".

Inductive PublicInputArtifactSource : Type := bundle | generated.

(** A partial provenance may miss its source. *)
Record PublicInputArtifactProvenance := mkProvenance {
  pr_source : option PublicInputArtifactSource;
  pr_finalizationId : option string;
  pr_bundleKey : option string;
}.

Record PublicInputArtifactRecord := mkArtifactRecord {
  ar_electionId : string;
  ar_electionConfigHash : string;
  ar_bulletinRoot : string;
  ar_treeSize : num;
  ar_totalExpected : num;
  ar_logId : string;
  ar_timestamp : num;
  ar_methodVersion : num;
  ar_votes : list Contract.InputCommitmentVote;
}.

Record PublicInputArtifactFormat := mkFormat {
  pf_schema : option string;
  pf_version : option string;
}.

Record PublicInputObservedFields := mkObserved {
  ob_electionId : option string;
  ob_electionConfigHash : option string;
  ob_votesCount : Z;
  ob_treeSize : num;
  ob_totalExpected : option num;
  ob_bulletinRoot : string;
  ob_logId : option string;
  ob_timestamp : option num;
  ob_methodVersion : option num;
  ob_uniqueIndices : bool;
  ob_uniqueCommitments : bool;
  ob_recomputedInputCommitment : option string;
}.

(** [format] is the one supported pair of schema and version. *)
Record SupportedPublicInputArtifact := mkSupported {
  sp_source : PublicInputArtifactSource;
  sp_finalizationId : option string;
  sp_bundleKey : option string;
  sp_typedAuthority : PublicInputAuthority;
}.

Record ParsedPublicInputArtifact := mkParsed {
  pp_format : PublicInputArtifactFormat;
  pp_provenance : PublicInputArtifactProvenance;
  pp_observed : PublicInputObservedFields;
  pp_typedAuthority : option PublicInputAuthority;
  pp_valid : bool;
  pp_errors : list string;
}.

Fixpoint repeat_zero (n : nat) : string :=
  match n with O => EmptyString | S n => String "0" (repeat_zero n) end.
Definition EMPTY_HEX_32 : string := ("0x" +:+ repeat_zero 64)%string.

Definition PUBLIC_INPUT_KEYS : list string :=
  ["schema"; "version"; "electionId"; "electionConfigHash"; "bulletinRoot"; "treeSize"; "totalExpected"; "logId";
   "timestamp"; "methodVersion"; "votes"]%string.
Definition PUBLIC_INPUT_VOTE_KEYS : list string := ["index"; "commitment"; "merklePath"]%string.
Definition STORED_PUBLIC_INPUT_KEYS : list string := ["format"; "provenance"; "typedAuthority"]%string.
Definition PUBLIC_INPUT_FORMAT_KEYS : list string := ["schema"; "version"]%string.
Definition PUBLIC_INPUT_PROVENANCE_KEYS : list string := ["source"; "finalizationId"; "bundleKey"]%string.
Definition PUBLIC_INPUT_AUTHORITY_KEYS : list string :=
  ["electionId"; "electionConfigHash"; "methodVersion"; "bulletinRoot"; "treeSize"; "totalExpected"; "votesCount";
   "uniqueIndices"; "uniqueCommitments"; "logId"; "timestamp"; "recomputedInputCommitment"]%string.

Definition unexpectedKeys (value : jsval) (allowed : list string) : list string :=
  map (fun key => ("unexpected_key:" +:+ key)%string)
    (List.filter (fun key => negb (bool_decide (key ∈ allowed))) (object_keys value)).

Definition buildPublicInputArtifactFromZkvmInput (input : Contract.ZkVMInput) (methodVersion : num) :
    PublicInputArtifactRecord :=
  mkArtifactRecord (Contract.in_electionId input) (Contract.in_electionConfigHash input)
    (Contract.in_bulletinRoot input) (Contract.in_treeSize input) (Contract.in_totalExpected input)
    (Contract.in_logId input) (Contract.in_timestamp input) methodVersion
    (map (fun v => Contract.mkICVote (Contract.vote_index v) (Contract.vote_commitment v)
                     (Contract.vote_merklePath v)) (Contract.in_votes input)).

(** The record as the object it is. *)
Definition vote_value (v : Contract.InputCommitmentVote) : jsval :=
  JObj [("index", JNum (Contract.ic_index v)); ("commitment", JStr (Contract.ic_commitment v));
        ("merklePath", JArr (map JStr (Contract.ic_merklePath v)))]%string.

Definition record_value (r : PublicInputArtifactRecord) : jsval :=
  JObj [("schema", JStr PUBLIC_INPUT_SCHEMA); ("version", JStr PUBLIC_INPUT_VERSION);
        ("electionId", JStr (ar_electionId r)); ("electionConfigHash", JStr (ar_electionConfigHash r));
        ("bulletinRoot", JStr (ar_bulletinRoot r)); ("treeSize", JNum (ar_treeSize r));
        ("totalExpected", JNum (ar_totalExpected r)); ("logId", JStr (ar_logId r));
        ("timestamp", JNum (ar_timestamp r)); ("methodVersion", JNum (ar_methodVersion r));
        ("votes", JArr (map vote_value (ar_votes r)))]%string.

(** ** Observing the fields *)

(** [errors.push(label)] unless the field is admitted. *)
Definition error_unless {A} (o : option A) (label : string) : list string :=
  if is_some o then [] else [label].

Definition observePublicInputFormat (raw : jsval) : PublicInputArtifactFormat * list string :=
  let truthy o := match o with Some s => if str_truthy s then Some s else None | None => None end in
  let schema := getStringProperty raw "schema" in
  let version := getStringProperty raw "version" in
  (mkFormat (truthy schema) (truthy version),
   (if bool_decide (schema = Some PUBLIC_INPUT_SCHEMA) then [] else ["schema"%string]) ++
   (if bool_decide (version = Some PUBLIC_INPUT_VERSION) then [] else ["version"%string])).

Definition observeElectionId (raw : jsval) : option string := LocalCast.nonempty (getStringProperty raw "electionId").

Definition isPublicInputHash (value : option string) : bool :=
  match value with Some s => Z.ltb 0 (slen s) && isValidHexString s (Some 32) | None => false end.
Definition isPublicInputInteger (value : option num) : bool :=
  match value with Some n => isInteger n | None => false end.

Definition observePublicInputHash (raw : jsval) (field : string) : option string :=
  let value := getStringProperty raw field in
  if isPublicInputHash value then (fun s => addHexPrefix (normalizeHexString s)) <$> value else None.

Definition observePublicInputInteger (raw : jsval) (field : string) : option num :=
  let value := getNumberProperty raw field in if isPublicInputInteger value then value else None.

(** ** Votes *)

Definition admitPublicInputVotePath (voteEntry : jsval) : list string * option (list string) :=
  match getArrayProperty voteEntry "merklePath" ≫= all_some as_string with
  | None => (["vote_merkle_path"%string], None)
  | Some merklePath =>
      if forallb (fun node => isValidHexString node (Some 32)) merklePath then ([], Some merklePath)
      else (["vote_merkle_path_hex"%string], None)
  end.

Definition admitPublicInputVote (voteEntry : jsval) : list string * option Contract.InputCommitmentVote :=
  if negb (isNonNullObject voteEntry) then (["vote_record"%string], None)
  else
    let unexpected := unexpectedKeys voteEntry PUBLIC_INPUT_VOTE_KEYS in
    match getNumberProperty voteEntry "index" with
    | Some voteIndex =>
        if negb (isInteger voteIndex) || num_ltb voteIndex (NInt 0) then (unexpected ++ ["vote_index"%string], None)
        else
          match getStringProperty voteEntry "commitment" with
          | Some commitment =>
              if negb (str_truthy commitment) || negb (isValidHexString commitment (Some 32))
              then (unexpected ++ ["vote_commitment"%string], None)
              else let '(errors, path) := admitPublicInputVotePath voteEntry in
                   (unexpected ++ errors, Contract.mkICVote voteIndex commitment <$> path)
          | None => (unexpected ++ ["vote_commitment"%string], None)
          end
    | None => (unexpected ++ ["vote_index"%string], None)
    end.

(** The votes that were admitted, in order, with the errors pushed. *)
Fixpoint admit_votes (votes : list jsval) : list string * list Contract.InputCommitmentVote :=
  match votes with
  | [] => ([], [])
  | voteEntry :: rest =>
      let '(errors, vote) := admitPublicInputVote voteEntry in
      let '(more, parsed) := admit_votes rest in
      (errors ++ more, match vote with Some v => v :: parsed | None => parsed end)
  end.

(** A [Set] of the values seen so far. *)
Fixpoint all_distinct {A} `{EqDecision A} (seen : list A) (l : list A) : bool :=
  match l with
  | [] => true
  | x :: rest => if bool_decide (x ∈ seen) then false else all_distinct (x :: seen) rest
  end.

Definition observed_unique_indices (parsed : list Contract.InputCommitmentVote) : bool :=
  all_distinct [] (map Contract.ic_index parsed).
Definition observed_unique_commitments (parsed : list Contract.InputCommitmentVote) : bool :=
  all_distinct [] (map (fun v => normalizeHexString (Contract.ic_commitment v)) parsed).

Section with_noble.
Context `{Noble}.

(** The recomputed commitment, and the error of its [catch]. *)
Definition observePublicInputCommitment (observed : PublicInputObservedFields) (errors : list string)
    (parsedVotes : list Contract.InputCommitmentVote) (votesCount : Z) (electionId : option string) :
    option string * list string :=
  match errors, electionId, ob_totalExpected observed with
  | [], Some e, Some totalExpected =>
      if Z.eqb (zlength parsedVotes) votesCount && str_truthy e then
        match Contract.computeInputCommitmentFromPublicInput
                (Contract.mkPublicInput e (ob_bulletinRoot observed) (ob_treeSize observed) totalExpected parsedVotes) with
        | Ok commitment => (Some commitment, [])
        | Err _ => (None, ["input_commitment"%string])
        end
      else (None, [])
  | _, _, _ => (None, [])
  end.

Definition derivePublicInputAuthority (o : PublicInputObservedFields) (errors : list string) :
    option PublicInputAuthority :=
  match errors, LocalCast.nonempty (ob_electionId o), LocalCast.nonempty (ob_electionConfigHash o),
        ob_totalExpected o, LocalCast.nonempty (ob_logId o), ob_timestamp o, ob_methodVersion o,
        LocalCast.nonempty (ob_recomputedInputCommitment o) with
  | [], Some electionId, Some electionConfigHash, Some totalExpected, Some logId, Some timestamp,
    Some methodVersion, Some recomputed =>
      Some (mkAuthority electionId electionConfigHash methodVersion (ob_bulletinRoot o) (ob_treeSize o) totalExpected
              (NInt (ob_votesCount o)) (ob_uniqueIndices o) (ob_uniqueCommitments o) logId timestamp recomputed)
  | _, _, _, _, _, _, _, _ => None
  end.

Definition finalizeParsedPublicInput (format : PublicInputArtifactFormat)
    (provenance : PublicInputArtifactProvenance) (observed : PublicInputObservedFields)
    (typedAuthority : option PublicInputAuthority) (errors : list string) : ParsedPublicInputArtifact :=
  mkParsed format provenance observed typedAuthority (Z.eqb (zlength errors) 0) errors.

Definition initial_observed : PublicInputObservedFields :=
  mkObserved None None 0 (NInt 0) None EMPTY_HEX_32 None None None true true None.

(** The fields before the votes. *)
Definition observed_fields (raw : jsval) : PublicInputObservedFields :=
  mkObserved (observeElectionId raw) (observePublicInputHash raw "electionConfigHash") 0
    (default (NInt 0) (observePublicInputInteger raw "treeSize")) (observePublicInputInteger raw "totalExpected")
    (default EMPTY_HEX_32 (observePublicInputHash raw "bulletinRoot")) (observePublicInputHash raw "logId")
    (observePublicInputInteger raw "timestamp") (observePublicInputInteger raw "methodVersion") true true None.

Definition field_errors (raw : jsval) : list string :=
  unexpectedKeys raw PUBLIC_INPUT_KEYS ++ snd (observePublicInputFormat raw) ++
  error_unless (observeElectionId raw) "electionId" ++
  error_unless (observePublicInputHash raw "electionConfigHash") "electionConfigHash" ++
  error_unless (observePublicInputHash raw "bulletinRoot") "bulletinRoot" ++
  error_unless (observePublicInputInteger raw "treeSize") "treeSize" ++
  error_unless (observePublicInputInteger raw "totalExpected") "totalExpected" ++
  error_unless (observePublicInputHash raw "logId") "logId" ++
  error_unless (observePublicInputInteger raw "timestamp") "timestamp" ++
  error_unless (observePublicInputInteger raw "methodVersion") "methodVersion".

Definition observed_votes (o : PublicInputObservedFields) (count : Z)
    (parsed : list Contract.InputCommitmentVote) (recomputed : option string) : PublicInputObservedFields :=
  mkObserved (ob_electionId o) (ob_electionConfigHash o) count (ob_treeSize o) (ob_totalExpected o)
    (ob_bulletinRoot o) (ob_logId o) (ob_timestamp o) (ob_methodVersion o) (observed_unique_indices parsed)
    (observed_unique_commitments parsed) recomputed.

Definition parsePublicInputArtifact (raw : jsval) (options : PublicInputArtifactProvenance) :
    ParsedPublicInputArtifact :=
  if negb (isNonNullObject raw)
  then finalizeParsedPublicInput (mkFormat None None) options initial_observed None ["public_input_not_record"%string]
  else
    let format := fst (observePublicInputFormat raw) in
    let observed := observed_fields raw in
    match getArrayProperty raw "votes" with
    | None => finalizeParsedPublicInput format options observed None (field_errors raw ++ ["votes"%string])
    | Some votes =>
        let '(voteErrors, parsedVotes) := admit_votes votes in
        let errors := field_errors raw ++ voteErrors in
        let '(recomputed, more) :=
          observePublicInputCommitment observed errors parsedVotes (zlength votes) (observeElectionId raw) in
        let final := observed_votes observed (zlength votes) parsedVotes recomputed in
        finalizeParsedPublicInput format options final (derivePublicInputAuthority final (errors ++ more))
          (errors ++ more)
    end.

Definition toSupportedPublicInputArtifact (parsed : ParsedPublicInputArtifact) :
    option SupportedPublicInputArtifact :=
  match pp_typedAuthority parsed, pr_source (pp_provenance parsed) with
  | Some typedAuthority, Some source =>
      if negb (pp_valid parsed) || negb (bool_decide (pf_schema (pp_format parsed) = Some PUBLIC_INPUT_SCHEMA)) ||
         negb (bool_decide (pf_version (pp_format parsed) = Some PUBLIC_INPUT_VERSION))
      then None
      else Some (mkSupported source (pr_finalizationId (pp_provenance parsed)) (pr_bundleKey (pp_provenance parsed))
                   typedAuthority)
  | _, _ => None
  end.

(** The list of errors in the message of the exception is left out. *)
Definition buildSupportedPublicInputArtifactFromZkvmInput (input : Contract.ZkVMInput) (methodVersion : num)
    (finalizationId bundleKey : option string) : result SupportedPublicInputArtifact :=
  match toSupportedPublicInputArtifact
          (parsePublicInputArtifact (record_value (buildPublicInputArtifactFromZkvmInput input methodVersion))
             (mkProvenance (Some generated) finalizationId bundleKey)) with
  | Some supported => Ok supported
  | None => throw "Generated public-input contract was invalid"
  end.

Definition parseSupportedPublicInputArtifact (raw : jsval) (options : PublicInputArtifactProvenance) :
    option SupportedPublicInputArtifact :=
  toSupportedPublicInputArtifact (parsePublicInputArtifact raw options).

End with_noble.

(** ** The stored artifact *)

Definition admitStoredInputRecord (value : option jsval) (allowedKeys : list string) : option jsval :=
  match value with
  | Some v => if isNonArrayObject v && Z.eqb (zlength (unexpectedKeys v allowedKeys)) 0 then Some v else None
  | None => None
  end.

Definition hasCurrentPublicInputFormat (format : jsval) : bool :=
  bool_decide (getStringProperty format "schema" = Some PUBLIC_INPUT_SCHEMA) &&
  bool_decide (getStringProperty format "version" = Some PUBLIC_INPUT_VERSION).

Definition source_of_text (s : string) : option PublicInputArtifactSource :=
  if String.eqb s "bundle" then Some bundle else if String.eqb s "generated" then Some generated else None.
Definition source_text (s : PublicInputArtifactSource) : string :=
  match s with bundle => "bundle" | generated => "generated" end.

Definition admitStoredInputIdentity (record : jsval) : option (string * string * num) :=
  match LocalCast.nonempty (getStringProperty record "electionId"), getStringProperty record "electionConfigHash",
        getNumberProperty record "methodVersion" with
  | Some electionId, Some hash, Some methodVersion =>
      if isPublicInputHash (Some hash) && isPublicInputInteger (Some methodVersion)
      then Some (electionId, addHexPrefix (normalizeHexString hash), methodVersion) else None
  | _, _, _ => None
  end.

Definition admitStoredInputSnapshot (record : jsval) : option (string * num * num * string * num) :=
  match getStringProperty record "bulletinRoot", getNumberProperty record "treeSize",
        getNumberProperty record "totalExpected", getStringProperty record "logId",
        getNumberProperty record "timestamp" with
  | Some root, Some treeSize, Some totalExpected, Some logId, Some timestamp =>
      if isPublicInputHash (Some root) && isPublicInputInteger (Some treeSize) &&
         isPublicInputInteger (Some totalExpected) && isPublicInputHash (Some logId) &&
         isPublicInputInteger (Some timestamp)
      then Some (addHexPrefix (normalizeHexString root), treeSize, totalExpected,
                 addHexPrefix (normalizeHexString logId), timestamp)
      else None
  | _, _, _, _, _ => None
  end.

Definition admitStoredInputVoteFacts (record : jsval) : option (num * bool * bool * string) :=
  match getNumberProperty record "votesCount", prop record "uniqueIndices", prop record "uniqueCommitments",
        getStringProperty record "recomputedInputCommitment" with
  | Some votesCount, JBool uniqueIndices, JBool uniqueCommitments, Some recomputed =>
      if isPublicInputInteger (Some votesCount) && isPublicInputHash (Some recomputed)
      then Some (votesCount, uniqueIndices, uniqueCommitments, addHexPrefix (normalizeHexString recomputed))
      else None
  | _, _, _, _ => None
  end.

Definition admitStoredPublicInputAuthority (record : jsval) : option PublicInputAuthority :=
  match admitStoredInputIdentity record, admitStoredInputSnapshot record, admitStoredInputVoteFacts record with
  | Some (electionId, electionConfigHash, methodVersion), Some (bulletinRoot, treeSize, totalExpected, logId, timestamp),
    Some (votesCount, uniqueIndices, uniqueCommitments, recomputed) =>
      Some (mkAuthority electionId electionConfigHash methodVersion bulletinRoot treeSize totalExpected votesCount
              uniqueIndices uniqueCommitments logId timestamp recomputed)
  | _, _, _ => None
  end.

(** [projectStoredPublicInputProvenance]: an empty text is dropped. *)
Definition projectStoredPublicInputProvenance (provenance : jsval) : option string * option string :=
  (LocalCast.nonempty (getStringProperty provenance "finalizationId"),
   LocalCast.nonempty (getStringProperty provenance "bundleKey")).

Definition parseStoredPublicInputArtifact (value : jsval) : option SupportedPublicInputArtifact :=
  match admitStoredInputRecord (Some value) STORED_PUBLIC_INPUT_KEYS with
  | None => None
  | Some record =>
      match admitStoredInputRecord (getObjectProperty record "format") PUBLIC_INPUT_FORMAT_KEYS,
            admitStoredInputRecord (getObjectProperty record "provenance") PUBLIC_INPUT_PROVENANCE_KEYS,
            admitStoredInputRecord (getObjectProperty record "typedAuthority") PUBLIC_INPUT_AUTHORITY_KEYS with
      | Some format, Some provenance, Some authorityRecord =>
          if negb (hasCurrentPublicInputFormat format) then None
          else
            match getStringProperty provenance "source" ≫= source_of_text,
                  admitStoredPublicInputAuthority authorityRecord with
            | Some source, Some typedAuthority =>
                let '(finalizationId, bundleKey) := projectStoredPublicInputProvenance provenance in
                Some (mkSupported source finalizationId bundleKey typedAuthority)
            | _, _ => None
            end
      | _, _, _ => None
      end
  end.

(** The stored artifact as the object it is. *)
Definition authority_value (a : PublicInputAuthority) : jsval :=
  JObj [("electionId", JStr (pa_electionId a)); ("electionConfigHash", JStr (pa_electionConfigHash a));
        ("methodVersion", JNum (pa_methodVersion a)); ("bulletinRoot", JStr (pa_bulletinRoot a));
        ("treeSize", JNum (pa_treeSize a)); ("totalExpected", JNum (pa_totalExpected a));
        ("votesCount", JNum (pa_votesCount a)); ("uniqueIndices", JBool (pa_uniqueIndices a));
        ("uniqueCommitments", JBool (pa_uniqueCommitments a)); ("logId", JStr (pa_logId a));
        ("timestamp", JNum (pa_timestamp a));
        ("recomputedInputCommitment", JStr (pa_recomputedInputCommitment a))]%string.

Definition provenance_value (s : SupportedPublicInputArtifact) : jsval :=
  JObj ([("source"%string, JStr (source_text (sp_source s)))] ++
        Journal.optional "finalizationId" (JStr <$> sp_finalizationId s) ++
        Journal.optional "bundleKey" (JStr <$> sp_bundleKey s)).

Definition supported_value (s : SupportedPublicInputArtifact) : jsval :=
  JObj [("format", JObj [("schema", JStr PUBLIC_INPUT_SCHEMA); ("version", JStr PUBLIC_INPUT_VERSION)]);
        ("provenance", provenance_value s); ("typedAuthority", authority_value (sp_typedAuthority s))]%string.

End PublicInput.

(** * What the public input promises *)

(** What the public input promises: a supported artifact commits to the votes of
    the document it was read from, the artifact generated for a guest input
    commits to that input, and the stored artifact is read back unchanged. *)
Import JsValue.
Import Evidence.
Import PublicInput.

(** ** The schemas of the audit artifacts *)

Lemma refine_well_formed predicate m s : well_formed s -> well_formed (Schema.refine predicate m s).
Proof.
  intros Hs. cbn [Schema.refine well_formed]. split_and!; [done | |].
  - intros v p. destruct (predicate v); by repeat constructor.
  - intros v p q. by destruct (predicate v).
Qed.

Lemma publicAuditHex32_ok : well_formed publicAuditHex32Schema.
Proof. apply refine_well_formed. exact I. Qed.

Ltac closed_NoDup := apply (bool_decide_unpack _); vm_compute; exact I.
Ltac closed_schema :=
  cbn [Schema.s_strict Schema.s_object well_formed all_of snd];
  split; [closed_NoDup | repeat split; first [exact I | apply publicAuditHex32_ok]].

Lemma manifest_schema_ok : well_formed electionManifestArtifactSchema.
Proof. unfold electionManifestArtifactSchema. closed_schema. Qed.

Lemma close_schema_ok : well_formed closeStatementArtifactSchema.
Proof. unfold closeStatementArtifactSchema. closed_schema. Qed.

(** ** Hexadecimal fields *)

Lemma normalize_idemp s : to_lower (normalizeHexString s) = normalizeHexString s.
Proof. unfold normalizeHexString. destruct (str_truthy s); [apply to_lower_idemp | done]. Qed.

Lemma normalize_added s : normalizeHexString (addHexPrefix s) = normalizeHexString s.
Proof. change (normalizeHexString (addHexPrefix s)) with (to_lower (normalizeHexString s)). apply normalize_idemp. Qed.

Lemma added_again s : addHexPrefix (normalizeHexString (addHexPrefix s)) = addHexPrefix (normalizeHexString s).
Proof. by rewrite normalize_added. Qed.

Lemma hash_again s : isPublicInputHash (Some s) = true -> isPublicInputHash (Some (addHexPrefix (normalizeHexString s))) = true /\
  addHexPrefix (normalizeHexString (addHexPrefix (normalizeHexString s))) = addHexPrefix (normalizeHexString s).
Proof.
  intros Hs. apply andb_true_iff in Hs as [_ Hs]. apply isValidHexString_spec in Hs as [Hl Hz].
  assert (En : normalizeHexString (normalizeHexString s) = normalizeHexString s) by (by apply normalize_lower_hex).
  split; [| by rewrite normalize_added, !En].
  unfold isPublicInputHash. apply andb_true_iff. split; [done |].
  unfold isValidHexString. rewrite normalize_added, En, Hl, Hz. done.
Qed.

Lemma normalize_normal s : isPublicInputHash (Some s) = true ->
  normalizeHexString (normalizeHexString s) = normalizeHexString s.
Proof.
  intros Hs. apply andb_true_iff in Hs as [_ Hs]. apply isValidHexString_spec in Hs as [Hl _].
  by apply normalize_lower_hex.
Qed.

(** ** Sets of values seen *)

Lemma all_distinct_spec {A} `{EqDecision A} (l : list A) : forall seen,
  all_distinct seen l = true <-> NoDup l /\ forall x, x ∈ l -> x ∉ seen.
Proof.
  induction l as [| x l IH]; intros seen; cbn [all_distinct].
  - split; [split; [constructor | by intros y ?%elem_of_nil] | done].
  - rewrite NoDup_cons. case_bool_decide as Hx.
    + split; [done |]. intros [_ Hs]. exfalso. by apply (Hs x); [left |].
    + rewrite IH. setoid_rewrite elem_of_cons. split.
      * intros [Hn Hs]. split_and!; [| done |].
        { intros Hin. apply (Hs x Hin). by left. }
        { intros y [-> | Hy]; [done |]. intros Hy'. apply (Hs y Hy). by right. }
      * intros [[Hnot Hn] Hs]. split; [done |]. intros y Hy [-> | Hy']; [done |]. by apply (Hs y); [right |].
Qed.

Lemma distinct_iff {A} `{EqDecision A} (l : list A) : all_distinct [] l = true <-> NoDup l.
Proof. rewrite all_distinct_spec. split; [by intros [? _] |]. intros Hn. split; [done |]. intros x _ ?%elem_of_nil. done. Qed.

Section derived.
Context `{Noble}.

(** The votes of a document, all admitted. *)
Definition admitted_votes (votes : list jsval) (parsed : list Contract.InputCommitmentVote) : Prop :=
  Forall2 (fun v p => admitPublicInputVote v = ([], Some p)) votes parsed.

Lemma admit_votes_ok votes : forall parsed, admit_votes votes = ([], parsed) -> zlength parsed = zlength votes ->
  admitted_votes votes parsed.
Proof.
  assert (Hle : forall vs, (length (admit_votes vs).2 <= length vs)%nat).
  { induction vs as [| v vs IH]; cbn [admit_votes]; [done |]. destruct (admitPublicInputVote v) as [e o].
    destruct (admit_votes vs) as [m p]. cbn in *. destruct o; cbn; lia. }
  induction votes as [| v votes IH]; intros parsed; cbn [admit_votes].
  - intros [= <-] _. constructor.
  - destruct (admitPublicInputVote v) as [errors vote] eqn:Ev.
    specialize (Hle votes). destruct (admit_votes votes) as [more rest] eqn:Er. intros E Hl. cbn in Hle.
    injection E as E <-. apply app_eq_nil in E as [-> ->].
    destruct vote as [p |].
    + constructor; [done |]. apply IH; [done |]. unfold zlength in *. cbn in Hl. lia.
    + unfold zlength in Hl. cbn in Hl. lia.
Qed.

Definition public_input_of (a : PublicInputAuthority) (parsed : list Contract.InputCommitmentVote) :
    Contract.PublicInput :=
  Contract.mkPublicInput (pa_electionId a) (pa_bulletinRoot a) (pa_treeSize a) (pa_totalExpected a) parsed.

(** The fields of an authority come from the document. *)
Record document_fields (raw : jsval) (a : PublicInputAuthority) : Prop := {
  df_keys : unexpectedKeys raw PUBLIC_INPUT_KEYS = [];
  df_schema : getStringProperty raw "schema" = Some PUBLIC_INPUT_SCHEMA;
  df_version : getStringProperty raw "version" = Some PUBLIC_INPUT_VERSION;
  df_electionId : getStringProperty raw "electionId" = Some (pa_electionId a);
  df_configHash : observePublicInputHash raw "electionConfigHash" = Some (pa_electionConfigHash a);
  df_bulletinRoot : observePublicInputHash raw "bulletinRoot" = Some (pa_bulletinRoot a);
  df_treeSize : observePublicInputInteger raw "treeSize" = Some (pa_treeSize a);
  df_totalExpected : observePublicInputInteger raw "totalExpected" = Some (pa_totalExpected a);
  df_logId : observePublicInputHash raw "logId" = Some (pa_logId a);
  df_timestamp : observePublicInputInteger raw "timestamp" = Some (pa_timestamp a);
  df_methodVersion : observePublicInputInteger raw "methodVersion" = Some (pa_methodVersion a);
}.

Lemma error_unless_nil {A} (o : option A) label : error_unless o label = [] -> exists x, o = Some x.
Proof. unfold error_unless. destruct o as [x |]; [by exists x | done]. Qed.

Lemma nonempty_text o s : LocalCast.nonempty o = Some s -> o = Some s.
Proof. by intros [-> _]%nonempty_Some. Qed.

Lemma field_errors_nil raw : field_errors raw = [] ->
  unexpectedKeys raw PUBLIC_INPUT_KEYS = [] /\ getStringProperty raw "schema" = Some PUBLIC_INPUT_SCHEMA /\
  getStringProperty raw "version" = Some PUBLIC_INPUT_VERSION /\
  exists t r, observePublicInputInteger raw "treeSize" = Some t /\
              observePublicInputHash raw "bulletinRoot" = Some r.
Proof.
  unfold field_errors. rewrite !app_nil. intros (Hk & Hf & _ & _ & Hr & Ht & _).
  unfold observePublicInputFormat in Hf. cbn [snd] in Hf. apply app_eq_nil in Hf as [Hs Hv].
  case_bool_decide as Es; [| done]. case_bool_decide as Ev; [| done].
  apply error_unless_nil in Hr as [r Hr], Ht as [t Ht]. split_and!; try done. by exists t, r.
Qed.

Lemma commitment_observed o errors parsed count eid c more :
  observePublicInputCommitment o errors parsed count eid = (Some c, more) ->
  errors = [] /\ more = [] /\ zlength parsed = count /\ exists e x, eid = Some e /\ ob_totalExpected o = Some x /\
    Contract.computeInputCommitmentFromPublicInput
      (Contract.mkPublicInput e (ob_bulletinRoot o) (ob_treeSize o) x parsed) = Ok c.
Proof.
  unfold observePublicInputCommitment. destruct errors; [| done]. destruct eid as [e |]; [| done].
  destruct (ob_totalExpected o) as [x |]; [| done].
  destruct (Z.eqb_spec (zlength parsed) count); cbn [andb]; [| done]. destruct (str_truthy e); [| done].
  destruct (Contract.computeInputCommitmentFromPublicInput _) as [c' |] eqn:E; intros Heq; [| done].
  injection Heq as -> <-. split_and!; [done | done | done |]. by exists e, x.
Qed.

Lemma derive_authority o errors a : derivePublicInputAuthority o errors = Some a ->
  errors = [] /\ ob_electionId o = Some (pa_electionId a) /\ ob_electionConfigHash o = Some (pa_electionConfigHash a) /\
  ob_totalExpected o = Some (pa_totalExpected a) /\ ob_logId o = Some (pa_logId a) /\
  ob_timestamp o = Some (pa_timestamp a) /\ ob_methodVersion o = Some (pa_methodVersion a) /\
  ob_recomputedInputCommitment o = Some (pa_recomputedInputCommitment a) /\
  pa_bulletinRoot a = ob_bulletinRoot o /\ pa_treeSize a = ob_treeSize o /\
  pa_votesCount a = NInt (ob_votesCount o) /\ pa_uniqueIndices a = ob_uniqueIndices o /\
  pa_uniqueCommitments a = ob_uniqueCommitments o.
Proof.
  unfold derivePublicInputAuthority. destruct errors; [| done].
  destruct (LocalCast.nonempty (ob_electionId o)) as [e |] eqn:E1; [| done].
  destruct (LocalCast.nonempty (ob_electionConfigHash o)) as [ch |] eqn:E2; [| done].
  destruct (ob_totalExpected o) as [x |]; [| done].
  destruct (LocalCast.nonempty (ob_logId o)) as [l |] eqn:E3; [| done].
  destruct (ob_timestamp o) as [t |]; [| done]. destruct (ob_methodVersion o) as [mv |]; [| done].
  destruct (LocalCast.nonempty (ob_recomputedInputCommitment o)) as [c |] eqn:E4; [| done].
  apply nonempty_text in E1, E2, E3, E4. intros [= <-]. by split_and!.
Qed.

(** An authority is derived from a document without errors. *)
Lemma parsed_authority raw options a : pp_typedAuthority (parsePublicInputArtifact raw options) = Some a ->
  document_fields raw a /\
  exists votes parsed, getArrayProperty raw "votes" = Some votes /\ admitted_votes votes parsed /\
    Contract.computeInputCommitmentFromPublicInput (public_input_of a parsed) = Ok (pa_recomputedInputCommitment a) /\
    pa_votesCount a = NInt (zlength parsed) /\ pa_uniqueIndices a = observed_unique_indices parsed /\
    pa_uniqueCommitments a = observed_unique_commitments parsed.
Proof.
  unfold parsePublicInputArtifact. destruct (negb (isNonNullObject raw)); [done |].
  destruct (getArrayProperty raw "votes") as [votes |] eqn:Ev; [| done].
  destruct (admit_votes votes) as [voteErrors parsed] eqn:Ea.
  destruct (observePublicInputCommitment _ _ _ _ _) as [recomputed more] eqn:Ec. cbn [finalizeParsedPublicInput pp_typedAuthority].
  intros Hd. apply derive_authority in Hd as (He & H1 & H2 & H3 & H4 & H5 & H6 & H7 & H8 & H9 & H10 & H11 & H12).
  cbn in H1, H2, H3, H4, H5, H6, H7, H8, H9, H10, H11, H12. subst recomputed.
  apply commitment_observed in Ec as (_ & _ & Hl & e & x & Hee & Hx & Hc). cbn in Hee, Hx, Hc.
  apply app_eq_nil in He as [He _]. apply app_eq_nil in He as [Hf ->].
  destruct (field_errors_nil raw Hf) as (Hk & Hs & Hv & t & r & Ht & Hr). rewrite Ht in *. rewrite Hr in *.
  cbn [default from_option id] in *. split.
  - split; try done; [by apply nonempty_text | by rewrite H8 | by rewrite H9].
  - exists votes, parsed. split_and!; [done | by apply admit_votes_ok | | by rewrite H10, Hl | done | done].
    unfold public_input_of. rewrite H8, H9. assert (e = pa_electionId a) as <- by congruence.
    by assert (x = pa_totalExpected a) as <- by congruence.
Qed.

Lemma supported_parsed raw options s : parseSupportedPublicInputArtifact raw options = Some s ->
  pp_typedAuthority (parsePublicInputArtifact raw options) = Some (sp_typedAuthority s) /\
  pr_finalizationId options = sp_finalizationId s /\ pr_bundleKey options = sp_bundleKey s /\
  pr_source options = Some (sp_source s).
Proof.
  unfold parseSupportedPublicInputArtifact, toSupportedPublicInputArtifact.
  destruct (pp_typedAuthority (parsePublicInputArtifact raw options)) as [a |] eqn:Ea; [| done].
  assert (Ep : pp_provenance (parsePublicInputArtifact raw options) = options).
  { unfold parsePublicInputArtifact. destruct (negb _); [done |]. destruct (getArrayProperty raw "votes"); [| done].
    destruct (admit_votes _) as [ve p]. by destruct (observePublicInputCommitment _ _ _ _ _). }
  rewrite Ep. destruct (pr_source options) as [src |]; [| done]. destruct (_ || _); [done |]. intros [= <-]. done.
Qed.

(** A supported public input commits to exactly the votes of the document
    it was read from: the document has no other keys, its votes were all
    admitted, the commitment of the authority is the input commitment of the
    document's fields and votes, the count is theirs, and the two uniqueness
    facts say whether their indices and their commitments are distinct. *)
Theorem supported_authority_commits raw options s :
  parseSupportedPublicInputArtifact raw options = Some s ->
  let a := sp_typedAuthority s in
  document_fields raw a /\
  exists votes parsed, getArrayProperty raw "votes" = Some votes /\ admitted_votes votes parsed /\
    Contract.computeInputCommitmentFromPublicInput (public_input_of a parsed) = Ok (pa_recomputedInputCommitment a) /\
    pa_votesCount a = NInt (zlength parsed) /\
    (pa_uniqueIndices a = true <-> NoDup (map Contract.ic_index parsed)) /\
    (pa_uniqueCommitments a = true <->
       NoDup (map (fun v => normalizeHexString (Contract.ic_commitment v)) parsed)).
Proof.
  intros Hs a. destruct (supported_parsed _ _ _ Hs) as (Ha & _).
  destruct (parsed_authority raw options a Ha) as (Hd & votes & parsed & Hv & Hp & Hc & Hn & Hi & Hu).
  split; [done |]. exists votes, parsed. rewrite Hi, Hu. split_and!; try done; apply distinct_iff.
Qed.

(** ** The artifact generated for a guest input *)

Lemma commitment_root e r r' t x votes : normalizeHexString r = normalizeHexString r' ->
  Contract.computeInputCommitmentFromPublicInput (Contract.mkPublicInput e r t x votes) =
  Contract.computeInputCommitmentFromPublicInput (Contract.mkPublicInput e r' t x votes).
Proof.
  intros Hr. assert (Hb : Contract.hexToBytesStrict r = Contract.hexToBytesStrict r').
  { unfold Contract.hexToBytesStrict. by rewrite Hr. }
  unfold Contract.computeInputCommitmentFromPublicInput, Contract.encodeInputCommitmentPreimage,
    Contract.validateInputCommitmentPublicFields. cbn. by rewrite Hb.
Qed.

Lemma vote_value_admitted v p : admitPublicInputVote (vote_value v) = ([], Some p) -> p = v.
Proof.
  unfold admitPublicInputVote. assert (Hk : unexpectedKeys (vote_value v) PUBLIC_INPUT_VOTE_KEYS = []) by (vm_compute; reflexivity).
  rewrite Hk. change (negb (isNonNullObject (vote_value v))) with false. cbv iota.
  change (getStringProperty (vote_value v) "commitment") with (Some (Contract.ic_commitment v)).
  assert (Hi : forall n, getNumberProperty (vote_value v) "index" = Some n -> n = Contract.ic_index v).
  { intros n. cbn. by destruct (isFinite _); intros [= <-]. }
  destruct (getNumberProperty (vote_value v) "index") as [n |]; [| done]. rewrite (Hi n eq_refl).
  destruct (_ || _); [done |]. destruct (_ || _); [done |].
  unfold admitPublicInputVotePath.
  change (getArrayProperty (vote_value v) "merklePath") with (Some (map JStr (Contract.ic_merklePath v))).
  assert (Hp : all_some as_string (map JStr (Contract.ic_merklePath v)) = Some (Contract.ic_merklePath v)).
  { induction (Contract.ic_merklePath v) as [| x l IH]; [done |]. cbn. by rewrite IH. }
  cbn [mbind option_bind]. rewrite Hp.
  destruct (forallb _ _); intros E; [| done]. injection E as <-. by destruct v.
Qed.

(** The public input generated for a guest input is the public form of that
    input: when the builder returns, the commitment it publishes is the input
    commitment that the guest input has, and its sizes, its election and its
    count of votes are those of the input. *)
Theorem generated_input_commits input methodVersion finalizationId bundleKey s :
  buildSupportedPublicInputArtifactFromZkvmInput input methodVersion finalizationId bundleKey = Ok s ->
  let a := sp_typedAuthority s in
  Contract.computeInputCommitment input = Ok (pa_recomputedInputCommitment a) /\
  pa_electionId a = Contract.in_electionId input /\ pa_treeSize a = Contract.in_treeSize input /\
  pa_totalExpected a = Contract.in_totalExpected input /\ pa_methodVersion a = methodVersion /\
  pa_votesCount a = NInt (zlength (Contract.in_votes input)) /\
  pa_bulletinRoot a = addHexPrefix (normalizeHexString (Contract.in_bulletinRoot input)).
Proof.
  intros E a. unfold buildSupportedPublicInputArtifactFromZkvmInput in E.
  set (r := buildPublicInputArtifactFromZkvmInput input methodVersion) in *.
  destruct (toSupportedPublicInputArtifact _) as [s' |] eqn:Es in E; [| done]. injection E as ->.
  change (parseSupportedPublicInputArtifact (record_value r) (mkProvenance (Some generated) finalizationId bundleKey) = Some s) in Es.
  destruct (supported_parsed _ _ _ Es) as (Ha & _). fold a in Ha.
  destruct (parsed_authority _ _ a Ha) as (Hd & votes & parsed & Hv & Hp & Hc & Hn & _ & _).
  destruct Hd as [_ _ _ He _ Hr Ht Hx _ _ Hm].
  assert (Hvotes : votes = map vote_value (ar_votes r)) by (cbn in Hv; by injection Hv).
  assert (Hparsed : parsed = ar_votes r).
  { rewrite Hvotes in Hp. clear -Hp. revert parsed Hp. induction (ar_votes r) as [| v l IH]; intros parsed Hp.
    - by apply Forall2_nil_inv_l in Hp.
    - apply Forall2_cons_inv_l in Hp as (p & ps & Hv & Hp & ->). f_equal; [by apply vote_value_admitted | by apply IH]. }
  unfold observePublicInputHash, observePublicInputInteger in *.
  assert (Ee : pa_electionId a = Contract.in_electionId input) by (cbn in He; by injection He).
  assert (Hint : forall n m, (if isPublicInputInteger (isNumber (JNum n)) then isNumber (JNum n) else None) = Some m -> m = n).
  { intros n m. cbn. destruct (isFinite n); cbn; [destruct (isInteger n); congruence | done]. }
  assert (Et := Hint _ _ Ht). assert (Ex := Hint _ _ Hx). assert (Em := Hint _ _ Hm). cbn in Et, Ex, Em.
  assert (Eb : pa_bulletinRoot a = addHexPrefix (normalizeHexString (Contract.in_bulletinRoot input))).
  { change (getStringProperty (record_value r) "bulletinRoot") with (Some (Contract.in_bulletinRoot input)) in Hr.
    destruct (isPublicInputHash _); [| done]. cbn in Hr. by injection Hr. }
  split_and!; try done.
  - rewrite <- Hc. unfold public_input_of, Contract.computeInputCommitment. rewrite Ee, Et, Ex, Hparsed, Eb.
    cbn [r ar_votes buildPublicInputArtifactFromZkvmInput]. apply commitment_root.
    rewrite normalize_added. symmetry. apply normalize_normal.
    change (getStringProperty (record_value r) "bulletinRoot") with (Some (Contract.in_bulletinRoot input)) in Hr.
    by destruct (isPublicInputHash (Some (Contract.in_bulletinRoot input))) eqn:Eh.
  - rewrite Hn, Hparsed. unfold zlength. cbn. by rewrite length_map.
Qed.

End derived.

(** ** The stored artifact is read back *)

Definition canonical_hash (x : string) : Prop :=
  isPublicInputHash (Some x) = true /\ addHexPrefix (normalizeHexString x) = x.

Lemma observed_hash_canonical raw field x : observePublicInputHash raw field = Some x -> canonical_hash x.
Proof.
  unfold observePublicInputHash. destruct (getStringProperty raw field) as [s |]; [| done].
  destruct (isPublicInputHash (Some s)) eqn:E; [| done]. intros [= <-]. by apply hash_again.
Qed.

Lemma observed_integer raw field n : observePublicInputInteger raw field = Some n ->
  isNumber (JNum n) = Some n /\ isInteger n = true.
Proof.
  unfold observePublicInputInteger, getNumberProperty. destruct (prop raw field) as [| | | x | | | |]; try done. cbn.
  destruct (isFinite x) eqn:Ef; [| done]. cbn. destruct (isInteger x) eqn:Ei; [| done]. intros [= <-].
  by rewrite Ef.
Qed.

(** What a stored authority needs to be read back. *)
Record storable (a : PublicInputAuthority) : Prop := {
  st_electionId : str_truthy (pa_electionId a) = true;
  st_hashes : Forall canonical_hash [pa_electionConfigHash a; pa_bulletinRoot a; pa_logId a;
                                     pa_recomputedInputCommitment a];
  st_numbers : Forall (fun n => isNumber (JNum n) = Some n /\ isInteger n = true)
                 [pa_methodVersion a; pa_treeSize a; pa_totalExpected a; pa_votesCount a; pa_timestamp a];
}.

Lemma nonempty_truthy s : str_truthy s = true -> LocalCast.nonempty (Some s) = Some s.
Proof. cbn. by intros ->. Qed.

Lemma stored_authority a : storable a -> admitStoredPublicInputAuthority (authority_value a) = Some a.
Proof.
  intros [He Hh Hn]. rewrite !Forall_cons in Hh. rewrite !Forall_cons in Hn.
  destruct Hh as ((Hc & Ec) & (Hb & Eb) & (Hl & El) & (Hr & Er) & _).
  destruct Hn as ((Nm & Im) & (Nt & It) & (Nx & Ix) & (Nv & Iv) & (Ns & Is) & _).
  assert (E1 : admitStoredInputIdentity (authority_value a) =
               Some (pa_electionId a, pa_electionConfigHash a, pa_methodVersion a)).
  { unfold admitStoredInputIdentity, getNumberProperty, getStringProperty.
    cbn [authority_value prop own String.eqb Ascii.eqb Bool.eqb]. unfold as_string.
    rewrite nonempty_truthy, Nm, Hc by done. unfold isPublicInputInteger. by rewrite Im, Ec. }
  assert (E2 : admitStoredInputSnapshot (authority_value a) =
               Some (pa_bulletinRoot a, pa_treeSize a, pa_totalExpected a, pa_logId a, pa_timestamp a)).
  { unfold admitStoredInputSnapshot, getNumberProperty, getStringProperty.
    cbn [authority_value prop own String.eqb Ascii.eqb Bool.eqb]. unfold as_string.
    rewrite Nt, Nx, Ns, Hb, Hl. unfold isPublicInputInteger. by rewrite It, Ix, Is, Eb, El. }
  assert (E3 : admitStoredInputVoteFacts (authority_value a) =
               Some (pa_votesCount a, pa_uniqueIndices a, pa_uniqueCommitments a, pa_recomputedInputCommitment a)).
  { unfold admitStoredInputVoteFacts, getNumberProperty, getStringProperty.
    cbn [authority_value prop own String.eqb Ascii.eqb Bool.eqb]. unfold as_string.
    rewrite Nv, Hr. unfold isPublicInputInteger. by rewrite Iv, Er. }
  unfold admitStoredPublicInputAuthority. rewrite E1, E2, E3. by destruct a.
Qed.

Definition provenance_text (o : option string) : Prop := LocalCast.nonempty o = o.

Lemma stored_supported s : storable (sp_typedAuthority s) -> provenance_text (sp_finalizationId s) ->
  provenance_text (sp_bundleKey s) -> parseStoredPublicInputArtifact (supported_value s) = Some s.
Proof.
  destruct s as [source fid bk a]. cbn [sp_typedAuthority sp_finalizationId sp_bundleKey]. intros Ha Hf Hb.
  unfold parseStoredPublicInputArtifact.
  set (v := supported_value _). set (pv := provenance_value (mkSupported source fid bk a)).
  assert (Ev : admitStoredInputRecord (Some v) STORED_PUBLIC_INPUT_KEYS = Some v) by (vm_compute; reflexivity).
  assert (Ea : admitStoredInputRecord (Some (authority_value a)) PUBLIC_INPUT_AUTHORITY_KEYS = Some (authority_value a))
    by (vm_compute; reflexivity).
  assert (Ep : admitStoredInputRecord (Some pv) PUBLIC_INPUT_PROVENANCE_KEYS = Some pv)
    by (subst pv; destruct fid, bk; vm_compute; reflexivity).
  rewrite Ev.
  change (getObjectProperty v "provenance") with (Some pv).
  change (getObjectProperty v "typedAuthority") with (Some (authority_value a)).
  rewrite Ep, Ea. cbn [getObjectProperty]. 
  change (getObjectProperty v "format") with
    (Some (JObj [("schema", JStr PUBLIC_INPUT_SCHEMA); ("version", JStr PUBLIC_INPUT_VERSION)]%string)).
  set (fv := JObj [("schema", JStr PUBLIC_INPUT_SCHEMA); ("version", JStr PUBLIC_INPUT_VERSION)]%string).
  assert (Ef : admitStoredInputRecord (Some fv) PUBLIC_INPUT_FORMAT_KEYS = Some fv) by (vm_compute; reflexivity).
  rewrite Ef. assert (Ec : hasCurrentPublicInputFormat fv = true) by (vm_compute; reflexivity). rewrite Ec. cbn [negb].
  rewrite stored_authority by done.
  assert (Es : getStringProperty pv "source" = Some (source_text source)) by done. rewrite Es.
  assert (Ex : source_of_text (source_text source) = Some source) by (by destruct source).
  cbn [mbind option_bind]. rewrite Ex. unfold projectStoredPublicInputProvenance.
  assert (E1 : getStringProperty pv "finalizationId" = fid) by (subst pv; by destruct fid, bk).
  assert (E2 : getStringProperty pv "bundleKey" = bk) by (subst pv; by destruct fid, bk).
  by rewrite E1, E2, Hf, Hb.
Qed.

Section stored.
Context `{NobleLaws}.

Lemma prefixed_hash b : is_bytes b -> length b = 32%nat -> canonical_hash ("0x" +:+ bytesToHex b)%string.
Proof.
  intros Hb Hl. assert (En := normalize_0x b Hb). assert (Hlow := bytesToHex_lower b Hb).
  split; [| rewrite En; unfold addHexPrefix; by rewrite normalize_lower_hex].
  unfold isPublicInputHash. apply andb_true_iff. split; [done |].
  unfold isValidHexString. rewrite En, Hlow. change (negb (str_truthy _)) with false. cbn [negb]. unfold slen.
  by rewrite bytesToHex_length, Hl.
Qed.

Lemma input_commitment_hash i c : Contract.computeInputCommitmentFromPublicInput i = Ok c -> canonical_hash c.
Proof.
  unfold Contract.computeInputCommitmentFromPublicInput. intros E. bind_inv. injection E as <-.
  apply prefixed_hash; [apply sha256_bytes | apply sha256_length].
Qed.

Lemma election_truthy raw options a : pp_typedAuthority (parsePublicInputArtifact raw options) = Some a ->
  str_truthy (pa_electionId a) = true.
Proof.
  unfold parsePublicInputArtifact. destruct (negb _); [done |].
  destruct (getArrayProperty raw "votes"); [| done]. destruct (admit_votes _) as [ve p].
  destruct (observePublicInputCommitment _ _ _ _ _) as [rc more].
  cbn [finalizeParsedPublicInput pp_typedAuthority]. intros Hd. apply derive_authority in Hd as (_ & He & _).
  cbn in He. unfold observeElectionId, LocalCast.nonempty in He. destruct (getStringProperty raw "electionId"); [| done].
  destruct (str_truthy s) eqn:E; [| done]. by injection He as <-.
Qed.

Lemma supported_storable raw options s : parseSupportedPublicInputArtifact raw options = Some s ->
  storable (sp_typedAuthority s).
Proof.
  intros Hs. destruct (supported_parsed _ _ _ Hs) as (Ha & _). set (a := sp_typedAuthority s) in *.
  assert (He := election_truthy _ _ _ Ha).
  destruct (parsed_authority raw options a Ha) as ([] & votes & parsed & _ & _ & Hc & Hn & _).
  split; [done | |].
  - repeat (apply Forall_cons; split; [first [by eapply observed_hash_canonical | by eapply input_commitment_hash] |]).
    apply Forall_nil; exact I.
  - repeat (apply Forall_cons; split; [first [by eapply observed_integer | by rewrite Hn] |]).
    apply Forall_nil; exact I.
Qed.

(** A supported artifact is stored without loss: the object written for it
    is read back as the same artifact, whatever document it was parsed from,
    provided that its provenance has no empty texts, which the reader drops. *)
Theorem stored_public_input_round_trip raw options s :
  provenance_text (pr_finalizationId options) -> provenance_text (pr_bundleKey options) ->
  parseSupportedPublicInputArtifact raw options = Some s ->
  parseStoredPublicInputArtifact (supported_value s) = Some s.
Proof.
  intros Hf Hb Hs. assert (Hst := supported_storable _ _ _ Hs).
  destruct (supported_parsed _ _ _ Hs) as (_ & E1 & E2 & _). apply stored_supported; congruence.
Qed.

End stored.
