(* ===== verification/VerifierReport.v ===== *)
(** The report of the verifier service and what is published of it
    (packages/verification/src/verification: verifier-service-report.ts,
    public-verification-result.ts): the exit code and the report of a run, the
    report without its paths, the result a response carries. Reports are values
    of the schemas; the text of a schema error is shortened. *)
From S2P Require Import Prelude.
From S2P Require Import JsNumber.
From S2P Require Import JsText.
From S2P Require Import JsValue.
From S2P Require Import Hex.
From S2P Require Import Journal.
From S2P Require Import Schema.
From S2P Require Import SchemaProofs.
From S2P Require Import PublicInput.
Import JsText.
Import JsValue.
Import Schema.

Module VerifierReport.

(** ** Timestamps *)

Definition isLeapYear (year : Z) : bool :=
  Z.eqb (year mod 4) 0 && (negb (Z.eqb (year mod 100) 0) || Z.eqb (year mod 400) 0).

(** Exactly [n] digits: their value, and the rest of the text. *)
Fixpoint take_digits (n : nat) (s : string) (acc : Z) : option (Z * string) :=
  match n with
  | O => Some (acc, s)
  | S n =>
      match s with
      | String c rest => if code_between 48 57 c then take_digits n rest (acc * 10 + (char_code c - 48)) else None
      | EmptyString => None
      end
  end.

Definition skip_char (c : ascii) (s : string) : option string :=
  match s with String d rest => if Ascii.eqb c d then Some rest else None | EmptyString => None end.

(** At most [max] digits: how many, and the rest of the text. *)
Fixpoint skip_digits (max : nat) (s : string) : nat * string :=
  match max, s with
  | S max, String c rest =>
      if code_between 48 57 c then let skipped := skip_digits max rest in (S skipped.1, skipped.2) else (0%nat, s)
  | _, _ => (0%nat, s)
  end.

(** [(?:\.\d{1,9})?] *)
Definition skip_fraction (s : string) : option string :=
  match s with
  | String "." rest => match skip_digits 9 rest with (O, _) => None | (_, rest) => Some rest end
  | _ => Some s
  end.

Record TimestampMatch := mkMatch {
  tm_year : Z;
  tm_month : Z;
  tm_day : Z;
  tm_hour : Z;
  tm_minute : Z;
  tm_second : Z;
  tm_offset : option (Z * Z);
}.

(** [(Z|[+-](\d{2}):(\d{2}))$]; [Some None] is [Z]. *)
Definition read_zone (s : string) : option (option (Z * Z)) :=
  match s with
  | String "Z" EmptyString => Some None
  | String c rest =>
      if Ascii.eqb c "+" || Ascii.eqb c "-" then
        hour ← take_digits 2 rest 0;
        rest ← skip_char ":" hour.2;
        minute ← take_digits 2 rest 0;
        if String.eqb minute.2 EmptyString then Some (Some (hour.1, minute.1)) else None
      else None
  | EmptyString => None
  end.

Definition RFC3339_PATTERN (value : string) : option TimestampMatch :=
  year ← take_digits 4 value 0; s ← skip_char "-" year.2;
  month ← take_digits 2 s 0; s ← skip_char "-" month.2;
  day ← take_digits 2 s 0; s ← skip_char "T" day.2;
  hour ← take_digits 2 s 0; s ← skip_char ":" hour.2;
  minute ← take_digits 2 s 0; s ← skip_char ":" minute.2;
  second ← take_digits 2 s 0;
  s ← skip_fraction second.2;
  offset ← read_zone s;
  Some (mkMatch year.1 month.1 day.1 hour.1 minute.1 second.1 offset).

Definition isValidCalendarDate (year month day : Z) : bool :=
  let daysByMonth := [31; if isLeapYear year then 29 else 28; 31; 30; 31; 30; 31; 31; 30; 31; 30; 31] in
  match znth daysByMonth (month - 1) with
  | Some maximumDay => Z.leb 1 day && Z.leb day maximumDay
  | None => false
  end.

Definition hasValidTimestampOffset (m : TimestampMatch) : bool :=
  match tm_offset m with None => true | Some (hour, minute) => Z.leb hour 23 && Z.leb minute 59 end.

Definition isRfc3339Timestamp (value : string) : bool :=
  match RFC3339_PATTERN value with
  | None => false
  | Some m =>
      isValidCalendarDate (tm_year m) (tm_month m) (tm_day m) && Z.leb (tm_hour m) 23 && Z.leb (tm_minute m) 59 &&
      Z.leb (tm_second m) 59 && hasValidTimestampOffset m
  end.

Definition isBasenameOnlyPath (value : string) : bool :=
  negb (String.eqb value "") && negb (String.eqb value ".") && negb (String.eqb value "..") &&
  negb (text_includes value "/") && negb (text_includes value "\") &&
  negb (text_includes value (String (ascii_of_N 0) EmptyString)) &&
  negb (text_includes value (String (ascii_of_N 13) EmptyString)) &&
  negb (text_includes value (String (ascii_of_N 10) EmptyString)).

(** ** Schemas of a report *)

Definition on_text (p : string -> bool) (v : jsval) : bool := match v with JStr s => p s | _ => false end.

Definition IMAGE_ID_PATTERN (s : string) : bool :=
  match s with String "0" (String "x" rest) => Journal.matches (repeat is_lower_hex 64) rest | _ => false end.

Definition verifierReportImageIdSchema : Schema :=
  string_regex "^0x[0-9a-f]{64}$" IMAGE_ID_PATTERN (Some [T "Expected a normalized ImageID"]) s_string.
Definition verifierReportTimestampSchema : Schema :=
  refine (on_text isRfc3339Timestamp) (Some [T "Expected an RFC3339 timestamp"]) s_string.
Definition verifierReportDurationMsSchema : Schema :=
  number_max (NInt MAX_SAFE_INTEGER) (Some [T "Expected duration_ms within the JavaScript safe-integer range"])
    (number_nonnegative (Some [T "Expected a non-negative duration_ms"])
       (number_int (Some [T "Expected an integer duration_ms"]) s_number)).
Definition basenamePathSchema : Schema :=
  refine (on_text isBasenameOnlyPath) (Some [T "Expected a basename-only path"]) s_string.
Definition errorsSchema : Schema :=
  array_min 1 None (s_array (string_min 1 (Some [T "Expected a nonempty verifier error"]) s_string)).

Definition literal_text (s : string) : Schema := LiteralSchema (JStr s).

Definition commonReportShape : list (string * Schema) :=
  [("verifier_version", string_min 1 None s_string); ("verified_at", verifierReportTimestampSchema);
   ("duration_ms", verifierReportDurationMsSchema); ("expected_image_id", verifierReportImageIdSchema)]%string.

Definition commonWireShape : list (string * Schema) :=
  commonReportShape ++ [("bundle_path", basenamePathSchema); ("receipt_path", basenamePathSchema)]%string.

Definition successReceiptShape : list (string * Schema) :=
  [("receipt_image_id", verifierReportImageIdSchema); ("dev_mode_receipt", LiteralSchema (JBool false))]%string.
Definition devModeReceiptShape : list (string * Schema) :=
  [("receipt_image_id", NullableSchema verifierReportImageIdSchema); ("dev_mode_receipt", LiteralSchema (JBool true));
   ("errors", OptionalSchema errorsSchema)]%string.
Definition failedReceiptShape : list (string * Schema) :=
  [("receipt_image_id", NullableSchema verifierReportImageIdSchema); ("dev_mode_receipt", BooleanSchema);
   ("errors", errorsSchema)]%string.

Definition image_ids_differ (report : jsval) : bool :=
  negb (strict_equal (get report "receipt_image_id") (get report "expected_image_id")).

Definition requireSuccessfulReceiptImageId (report : jsval) (path : list path_item) : list SchemaIssue :=
  if image_ids_differ report
  then [mkIssue path [T "Successful report receipt ImageID must match the expected ImageID"]] else [].

Definition requireDevelopmentReceiptImageId (report : jsval) (path : list path_item) : list SchemaIssue :=
  if negb (strict_equal (get report "receipt_image_id") JNull) && image_ids_differ report
  then [mkIssue path [T "Dev-mode report receipt ImageID must match the expected ImageID when present"]] else [].

Definition status_field (status : string) : list (string * Schema) := [("status"%string, literal_text status)].

Definition success_shape (common : list (string * Schema)) := status_field "success" ++ common ++ successReceiptShape.
Definition dev_mode_shape (common : list (string * Schema)) := status_field "dev_mode" ++ common ++ devModeReceiptShape.
Definition failed_shape (common : list (string * Schema)) := status_field "failed" ++ common ++ failedReceiptShape.

Definition verifierServiceSuccessWireReportSchema : Schema :=
  superRefine requireSuccessfulReceiptImageId (s_strict (s_object (success_shape commonWireShape))).
Definition verifierServiceDevModeWireReportSchema : Schema :=
  superRefine requireDevelopmentReceiptImageId (s_strict (s_object (dev_mode_shape commonWireShape))).
Definition verifierServiceFailedWireReportSchema : Schema := s_strict (s_object (failed_shape commonWireShape)).

Definition verifierServiceWireReportSchema : Schema :=
  UnionSchema [verifierServiceSuccessWireReportSchema; verifierServiceDevModeWireReportSchema;
               verifierServiceFailedWireReportSchema].

Definition verifierServiceSuccessReportSchema : Schema :=
  superRefine requireSuccessfulReceiptImageId (s_strict (s_object (success_shape commonReportShape))).
Definition verifierServiceDevModeReportSchema : Schema :=
  superRefine requireDevelopmentReceiptImageId (s_strict (s_object (dev_mode_shape commonReportShape))).
Definition verifierServiceFailedReportSchema : Schema := s_strict (s_object (failed_shape commonReportShape)).

Definition verifierServiceReportSchema : Schema :=
  UnionSchema [verifierServiceSuccessReportSchema; verifierServiceDevModeReportSchema; verifierServiceFailedReportSchema].

(** [schema.parse(value)] *)
Definition parse (schema : Schema) (input : jsval) : result jsval :=
  match safeParse schema input with Success data => Ok data | Failure _ => throw "Invalid input" end.

Definition parseVerifierServiceWireReport (input : jsval) : result jsval := parse verifierServiceWireReportSchema input.
Definition parseVerifierServiceReport (input : jsval) : result jsval := parse verifierServiceReportSchema input.

(** ** Projections *)

Definition projectVerifierReportMetadata (report : jsval) : list (string * jsval) :=
  map (fun k => (k, get report k)) ["verifier_version"; "verified_at"; "duration_ms"; "expected_image_id"]%string.

Definition has_status (report : jsval) (status : string) : bool := strict_equal (get report "status") (JStr status).

Definition received (report : jsval) : list (string * jsval) := [("receipt_image_id"%string, get report "receipt_image_id")].

Definition projectVerifierServiceWireReport (report : jsval) : jsval :=
  let common := projectVerifierReportMetadata report in
  if has_status report "success"
  then JObj ([("status", JStr "success")]%string ++ common ++ received report ++ [("dev_mode_receipt", JBool false)]%string)
  else if has_status report "dev_mode"
  then JObj ([("status", JStr "dev_mode")]%string ++ common ++ received report ++ [("dev_mode_receipt", JBool true)]%string ++
             match get report "errors" with JArr errors => [("errors"%string, JArr errors)] | _ => [] end)
  else if has_status report "failed"
  then JObj ([("status", JStr "failed")]%string ++ common ++ received report ++
             [("dev_mode_receipt", get report "dev_mode_receipt"); ("errors", get report "errors")]%string)
  else JUndefined.

Definition parseVerifierServiceExitCode (input : jsval) : result Z :=
  if strict_equal input (JNum (NInt 0)) then Ok 0
  else if strict_equal input (JNum (NInt 2)) then Ok 2
  else if strict_equal input (JNum (NInt 3)) then Ok 3
  else throw "verifier-service exit code is unsupported".

Record VerifierServiceProtocolResult := mkProtocolResult {
  pr_exitCode : Z;
  pr_status : string;
  pr_wireReport : jsval;
  pr_report : jsval;
}.

Definition status_of_exit (exitCode : Z) : string :=
  if Z.eqb exitCode 0 then "success" else if Z.eqb exitCode 2 then "dev_mode" else "failed".

Definition parseVerifierServiceProtocol (exitCodeInput reportInput : jsval) : result VerifierServiceProtocolResult :=
  exitCode ← parseVerifierServiceExitCode exitCodeInput;
  wireReport ← parseVerifierServiceWireReport reportInput;
  let status := status_of_exit exitCode in
  if negb (has_status wireReport status) then throw "verifier-service exit code does not match report status"
  else Ok (mkProtocolResult exitCode status wireReport (projectVerifierServiceWireReport wireReport)).

(** ** What is published (public-verification-result.ts) *)

Definition PUBLIC_VERIFICATION_ERROR_MESSAGES : list string :=
  ["ImageID mismatch"; "Receipt does not contain ImageID"; "Invalid proof"; "Failed to download bundle";
   "Verification failed"]%string.
Definition GENERIC_PUBLIC_VERIFICATION_ERROR : string := "Verification failed".
Definition publicVerificationErrorSchema : Schema := EnumSchema PUBLIC_VERIFICATION_ERROR_MESSAGES.

Definition publicErrorsSchema : Schema := array_min 1 None (s_array publicVerificationErrorSchema).

Definition public_success_refinement (report : jsval) (path : list path_item) : list SchemaIssue :=
  if image_ids_differ report
  then [mkIssue path [T "Successful public report receipt ImageID must match the expected ImageID"]] else [].
Definition public_dev_mode_refinement (report : jsval) (path : list path_item) : list SchemaIssue :=
  if negb (strict_equal (get report "receipt_image_id") JNull) && image_ids_differ report
  then [mkIssue path [T "Dev-mode public report receipt ImageID must match the expected ImageID"]] else [].

(** The common shape is the one of the service's reports. *)
Definition public_dev_mode_shape : list (string * Schema) :=
  status_field "dev_mode" ++ commonReportShape ++
  [("receipt_image_id", NullableSchema verifierReportImageIdSchema); ("dev_mode_receipt", LiteralSchema (JBool true));
   ("errors", OptionalSchema publicErrorsSchema)]%string.
Definition public_failed_shape : list (string * Schema) :=
  status_field "failed" ++ commonReportShape ++
  [("receipt_image_id", NullableSchema verifierReportImageIdSchema); ("dev_mode_receipt", BooleanSchema);
   ("errors", publicErrorsSchema)]%string.

Definition publicVerificationSuccessReportSchema : Schema :=
  superRefine public_success_refinement (s_strict (s_object (success_shape commonReportShape))).
Definition publicVerificationDevModeReportSchema : Schema :=
  superRefine public_dev_mode_refinement (s_strict (s_object public_dev_mode_shape)).
Definition publicVerificationFailedReportSchema : Schema := s_strict (s_object public_failed_shape).

Definition publicVerificationReportSchema : Schema :=
  UnionSchema [publicVerificationSuccessReportSchema; publicVerificationDevModeReportSchema;
               publicVerificationFailedReportSchema].

Definition result_shape (status : string) (report : Schema) : list (string * Schema) :=
  status_field status ++ [("report"%string, OptionalSchema report)].

Definition publicVerificationResultSchema : Schema :=
  UnionSchema
    [s_strict (s_object [("status", EnumSchema ["not_run"; "running"]); ("report", OptionalSchema UndefinedSchema)]%string);
     s_strict (s_object (result_shape "success" publicVerificationSuccessReportSchema));
     s_strict (s_object (result_shape "dev_mode" publicVerificationDevModeReportSchema));
     s_strict (s_object (result_shape "failed" publicVerificationFailedReportSchema))].

Definition isPublicVerificationErrorMessage (value : string) : bool :=
  existsb (String.eqb value) PUBLIC_VERIFICATION_ERROR_MESSAGES.

Definition sanitizeVerificationError (entry : jsval) : option string :=
  match entry with
  | JStr entry =>
      let trimmed := trim entry in
      if negb (str_truthy trimmed) then None
      else Some (if isPublicVerificationErrorMessage trimmed then trimmed else GENERIC_PUBLIC_VERIFICATION_ERROR)
  | _ => None
  end.

Fixpoint sanitize_loop (entries : list jsval) (sanitizedErrors : list string) : list string :=
  match entries with
  | [] => sanitizedErrors
  | entry :: rest =>
      if Z.leb 20 (zlength sanitizedErrors) then sanitizedErrors
      else match sanitizeVerificationError entry with
           | Some publicError =>
               if existsb (String.eqb publicError) sanitizedErrors then sanitize_loop rest sanitizedErrors
               else sanitize_loop rest (sanitizedErrors ++ [publicError])
           | None => sanitize_loop rest sanitizedErrors
           end
  end.

Definition sanitizePublicVerificationErrors (errors : jsval) : list string :=
  match errors with JArr entries => sanitize_loop entries [] | _ => [] end.

Definition texts (l : list string) : jsval := JArr (map JStr l).

Definition sanitizeVerificationReportForPublicResponse (report : jsval) : jsval :=
  if is_undefined report then JUndefined
  else
    let sanitizedErrors := sanitizePublicVerificationErrors (get report "errors") in
    let common := projectVerifierReportMetadata report in
    if has_status report "success"
    then JObj ([("status", JStr "success")]%string ++ common ++ received report ++ [("dev_mode_receipt", JBool false)]%string)
    else if has_status report "dev_mode"
    then JObj ([("status", JStr "dev_mode")]%string ++ common ++ received report ++ [("dev_mode_receipt", JBool true)]%string ++
               match sanitizedErrors with [] => [] | errors => [("errors"%string, texts errors)] end)
    else if has_status report "failed"
    then JObj ([("status", JStr "failed")]%string ++ common ++ received report ++
               [("dev_mode_receipt", get report "dev_mode_receipt");
                ("errors", texts (match sanitizedErrors with [] => [GENERIC_PUBLIC_VERIFICATION_ERROR] | errors => errors end))]%string)
    else JUndefined.

Definition parsed (r : ParseResult) : option jsval := match r with Success data => Some data | Failure _ => None end.

Definition parsePublicVerificationReport (value : jsval) : option jsval := parsed (safeParse publicVerificationReportSchema value).
Definition parsePublicVerificationResult (value : jsval) : option jsval := parsed (safeParse publicVerificationResultSchema value).

Definition terminal_status (input : jsval) : option string :=
  if has_status input "success" then Some "success"%string
  else if has_status input "dev_mode" then Some "dev_mode"%string
  else if has_status input "failed" then Some "failed"%string else None.

(** A report of a result is an object or missing. *)
Definition projectVerificationResultForPublicResponse (input : jsval) : jsval :=
  match terminal_status input with
  | Some status =>
      if has_own input "verifier_version"
      then JObj [("status", JStr status); ("report", sanitizeVerificationReportForPublicResponse input)]%string
      else JObj ([("status", JStr status)]%string ++
                 (if is_undefined (get input "report") then []
                  else [("report"%string, sanitizeVerificationReportForPublicResponse (get input "report"))]))
  | None =>
      if has_status input "not_run" || has_status input "running" then JObj [("status"%string, get input "status")]
      else JUndefined
  end.

End VerifierReport.
Import VerifierReport.

(** * What the reports promise: the exit code and the report agree, and what is
    published is admitted by its own schema and says nothing of the service. *)

(** ** Strict objects *)

(** Every field has a value that its schema returns unchanged. *)
Definition fields_ok (w : jsval) (shape : list (string * Schema)) : Prop :=
  Forall (fun e => forall q, parseInternal e.2 (get w e.1) q = Success (get w e.1)) shape.

Definition plain (shape : list (string * Schema)) : Prop :=
  NoDup (map fst shape) /\ all_of (fun e => well_formed e.2) shape /\ all_of (fun e => stable e.2) shape.

Lemma strict_fields shape v path w : plain shape ->
  parseInternal (s_strict (s_object shape)) v path = Success w -> fields_ok w shape.
Proof.
  intros (Hn & Hw & Hs) E. apply object_success in E as (_ & -> & Hk & _).
  apply all_of_Forall in Hw, Hs. rewrite Forall_forall in Hw, Hs. apply Forall_forall. intros e He q.
  destruct (get_known shape strict NeverSchema v path Hn e He) as [-> _].
  eapply stable_reparse; [by apply Hw | by apply Hs | by apply Hk].
Qed.

(** An object with the fields of a strict schema, in their order. *)
Lemma strict_accepts shape l path : NoDup (map fst shape) -> fields_ok (JObj l) shape ->
  (forall k, k ∈ map fst l -> k ∈ map fst shape) ->
  mjoin (map (fun e => written (JObj l) e.1 (Success (get (JObj l) e.1))) shape) = l ->
  parseInternal (s_strict (s_object shape)) (JObj l) path = Success (JObj l).
Proof.
  intros Hn Hf Hk Hl. cbn [s_strict s_object]. rewrite parse_object. cbn [isPlainRecord isNonArrayObject negb].
  unfold fields_ok in Hf. rewrite Forall_forall in Hf.
  assert (Ek : known_results (JObj l) path shape = map (fun e => (e.1, Success (get (JObj l) e.1))) shape).
  { unfold known_results. apply map_ext_in. intros e He%list_elem_of_In. by rewrite (Hf e He). }
  assert (Eu : unknown_keys (JObj l) shape = []).
  { apply filter_none. intros k Hin. apply negb_false_iff, shape_key. by apply Hk. }
  unfold unknown_results. rewrite Ek, Eu, !map_map. apply unless_Success. split.
  - rewrite app_nil_r. apply join_all_nil. intros x Hx. by apply list_elem_of_fmap in Hx as (e & -> & _).
  - f_equal. transitivity (l ++ []); [by rewrite app_nil_r |]. f_equal. symmetry. exact Hl.
Qed.

(** ** Options that are told apart by their status *)

Lemma literal_success value v q w : parseInternal (LiteralSchema value) v q = Success w -> w = value /\ strict_equal v value = true.
Proof. cbn. unfold parseLiteral. destruct (strict_equal v value) eqn:E; [by intros [= <-] | done]. Qed.

Lemma wrong_status status shape v path : get v "status" <> JStr status ->
  exists issues, parseInternal (s_strict (s_object (status_field status ++ shape))) v path = Failure issues.
Proof.
  intros Hne. destruct (parseInternal _ v path) as [w |] eqn:E; [| by eexists]. exfalso. apply Hne.
  apply object_success in E as (_ & _ & Hk & _). specialize (Hk ("status"%string, literal_text status)).
  apply literal_success in Hk as [_ He]; [| by left]. cbn [fst] in He. revert He.
  destruct (get v "status"); try done. cbn. by intros ->%String.eqb_eq.
Qed.

Lemma refined_failure refine s v path issues : parseInternal s v path = Failure issues ->
  parseInternal (superRefine refine s) v path = Failure issues.
Proof. intros E. cbn [superRefine parseInternal]. by rewrite E. Qed.

Lemma refined_success refine s v path w : parseInternal (superRefine refine s) v path = Success w <->
  parseInternal s v path = Success w /\ refine w path = [].
Proof.
  cbn [superRefine parseInternal]. unfold parseRefinement. destruct (parseInternal s v path) as [d |]; [| by split; [| intros [? _]]].
  rewrite unless_Success. split; [by intros [? ->] | by intros [[= ->] ?]].
Qed.

Lemma union_pick pre s post v path w :
  Forall (fun o => exists issues, parseInternal o v path = Failure issues) pre -> parseInternal s v path = Success w ->
  parseInternal (UnionSchema (pre ++ s :: post)) v path = Success w.
Proof.
  intros Hpre Hs. rewrite parse_union. generalize (@nil (list SchemaIssue)) as failures.
  induction Hpre as [| o pre [issues Ho] _ IH]; intros failures; cbn.
  - by rewrite Hs.
  - rewrite Ho. apply IH.
Qed.

Lemma union_of a b c v path w : parseInternal (UnionSchema [a; b; c]) v path = Success w ->
  parseInternal a v path = Success w \/ parseInternal b v path = Success w \/ parseInternal c v path = Success w.
Proof.
  rewrite parse_union. intros E%union_Success. cbn [map] in E. rewrite !elem_of_cons, elem_of_nil in E.
  destruct E as [E | [E | [E | []]]]; eauto.
Qed.

(** ** The shapes *)

Ltac plain_shape :=
  split; [closed_NoDup | split]; cbn; repeat split; try exact I;
  intros v p; (first [by destruct (on_text _ v); repeat constructor | intros q; by destruct (on_text _ v)]).

Lemma success_plain : plain (success_shape commonWireShape) /\ plain (success_shape commonReportShape).
Proof. split; plain_shape. Qed.
Lemma dev_mode_plain : plain (dev_mode_shape commonWireShape) /\ plain (dev_mode_shape commonReportShape).
Proof. split; plain_shape. Qed.
Lemma failed_plain : plain (failed_shape commonWireShape) /\ plain (failed_shape commonReportShape).
Proof. split; plain_shape. Qed.

(** ** The reports that are admitted *)

(** The fields of a report, and what its refinement adds. *)
Definition success_ok (w : jsval) : Prop := fields_ok w (success_shape commonReportShape) /\ image_ids_differ w = false.
Definition dev_mode_ok (w : jsval) : Prop :=
  fields_ok w (dev_mode_shape commonReportShape) /\ requireDevelopmentReceiptImageId w [] = [].
Definition failed_ok (w : jsval) : Prop := fields_ok w (failed_shape commonReportShape).

Lemma without_paths w tag receipt :
  fields_ok w (tag ++ commonWireShape ++ receipt) -> fields_ok w (tag ++ commonReportShape ++ receipt).
Proof. unfold fields_ok, commonWireShape. rewrite !Forall_app. tauto. Qed.

Lemma success_refined w path : requireSuccessfulReceiptImageId w path = [] -> image_ids_differ w = false.
Proof. unfold requireSuccessfulReceiptImageId. by destruct (image_ids_differ w). Qed.

Lemma dev_mode_refined w path q : requireDevelopmentReceiptImageId w path = [] -> requireDevelopmentReceiptImageId w q = [].
Proof. unfold requireDevelopmentReceiptImageId. by destruct (_ && _). Qed.

Lemma wire_report_ok v path w : parseInternal verifierServiceWireReportSchema v path = Success w ->
  success_ok w \/ dev_mode_ok w \/ failed_ok w.
Proof.
  intros [E | [E | E]]%union_of.
  - apply refined_success in E as [E Hr]. apply strict_fields in E; [| apply success_plain].
    left. split; [by apply without_paths | by eapply success_refined].
  - apply refined_success in E as [E Hr]. apply strict_fields in E; [| apply dev_mode_plain].
    right; left. split; [by apply without_paths | by eapply dev_mode_refined].
  - apply strict_fields in E; [| apply failed_plain]. right; right. by apply without_paths.
Qed.

Lemma report_ok v path w : parseInternal verifierServiceReportSchema v path = Success w ->
  success_ok w \/ dev_mode_ok w \/ failed_ok w.
Proof.
  intros [E | [E | E]]%union_of.
  - apply refined_success in E as [E Hr]. apply strict_fields in E; [| apply success_plain].
    left. split; [done | by eapply success_refined].
  - apply refined_success in E as [E Hr]. apply strict_fields in E; [| apply dev_mode_plain].
    right; left. split; [done | by eapply dev_mode_refined].
  - apply strict_fields in E; [| apply failed_plain]. by right; right.
Qed.

Lemma field w shape k schema : fields_ok w shape -> (k, schema) ∈ shape -> forall q,
  parseInternal schema (get w k) q = Success (get w k).
Proof. intros Hf He. unfold fields_ok in Hf. rewrite Forall_forall in Hf. by apply (Hf (k, schema)). Qed.

Lemma tagged w status shape : fields_ok w (status_field status ++ shape) -> get w "status" = JStr status.
Proof. intros Hf. by apply (literal_success (JStr status) (get w "status") []), (field _ _ _ _ Hf); left. Qed.

Lemma array_shape item rules v q : parseInternal (ArraySchema item rules) v q = Success v -> exists l, v = JArr l.
Proof. destruct v as [| | | | | l | |]; try done. by exists l. Qed.

(** The options of a union of reports are told apart by the status. *)
Lemma pick_status a b c v w status : get v "status" = JStr status ->
  let union := UnionSchema [superRefine a (s_strict (s_object (status_field "success" ++ b.1)));
                            superRefine c (s_strict (s_object (status_field "dev_mode" ++ b.2)));
                            w] in
  (status = "success"%string -> forall x, parseInternal (superRefine a (s_strict (s_object (status_field "success" ++ b.1)))) v [] = Success x ->
     parseInternal union v [] = Success x) /\
  (status = "dev_mode"%string -> forall x, parseInternal (superRefine c (s_strict (s_object (status_field "dev_mode" ++ b.2)))) v [] = Success x ->
     parseInternal union v [] = Success x) /\
  (status = "failed"%string -> forall x, parseInternal w v [] = Success x -> parseInternal union v [] = Success x).
Proof.
  intros Hv union. split_and!; intros -> x Hx.
  - by apply (union_pick []).
  - apply (union_pick [_] _ [w]); [| done]. constructor; [| constructor].
    destruct (wrong_status "success" b.1 v []) as [issues E]; [by rewrite Hv |]. exists issues. by apply refined_failure.
  - apply (union_pick [_; _] w []); [| done]. repeat constructor.
    + destruct (wrong_status "success" b.1 v []) as [issues E]; [by rewrite Hv |]. exists issues. by apply refined_failure.
    + destruct (wrong_status "dev_mode" b.2 v []) as [issues E]; [by rewrite Hv |]. exists issues. by apply refined_failure.
Qed.

(** The fields of a projection are fields of the report, or literals. *)
Ltac open_shapes :=
  unfold fields_ok, success_shape, dev_mode_shape, failed_shape, public_dev_mode_shape, public_failed_shape, status_field,
    commonReportShape, successReceiptShape, devModeReceiptShape, failedReceiptShape in *; cbn [app] in *.
Ltac projected_fields H :=
  open_shapes; repeat setoid_rewrite Forall_cons in H; cbn [fst snd] in H; destruct_and? H;
  repeat first [apply List.Forall_nil
               | apply List.Forall_cons; [intro; first [reflexivity | match goal with F : forall _, _ = _ |- _ => apply F end] |]].

Lemma success_projected w : success_ok w ->
  let p := JObj ([("status", JStr "success")]%string ++ projectVerifierReportMetadata w ++ received w ++
                 [("dev_mode_receipt", JBool false)]%string) in
  projectVerifierServiceWireReport w = p /\ sanitizeVerificationReportForPublicResponse w = p /\
  forall refine q, (forall v, image_ids_differ v = false -> refine v q = []) ->
    parseInternal (superRefine refine (s_strict (s_object (success_shape commonReportShape)))) p q = Success p.
Proof.
  intros [Hf Hd] p. assert (Ht := tagged _ _ _ Hf).
  assert (Hw : is_undefined w = false) by (destruct w; try done; discriminate Ht).
  unfold projectVerifierServiceWireReport, sanitizeVerificationReportForPublicResponse, has_status. rewrite Ht, Hw.
  split; [done |]. split; [done |]. intros refine q Hr. apply refined_success. split; [| apply Hr; exact Hd].
  apply strict_accepts; [apply success_plain | projected_fields Hf | done | cbn; rewrite ?orb_true_r; reflexivity].
Qed.

(** ** Errors *)

Lemma errors_array w shape : fields_ok w shape -> ("errors"%string, errorsSchema) ∈ shape -> exists l, get w "errors" = JArr l.
Proof. intros Hf He. eapply (array_shape _ _ _ []). exact (field w shape _ _ Hf He []). Qed.

Lemma optional_array w shape : fields_ok w shape -> ("errors"%string, OptionalSchema errorsSchema) ∈ shape ->
  get w "errors" = JUndefined \/ exists l, get w "errors" = JArr l.
Proof.
  intros Hf He. assert (E := field w shape _ _ Hf He []). change (parseInternal (OptionalSchema errorsSchema) ?v ?q)
    with (if is_undefined v then Success JUndefined else parseInternal errorsSchema v q) in E.
  destruct (is_undefined (get w "errors")) eqn:Eu; [left; by injection E |].
  right. eapply (array_shape _ _ _ []). exact E.
Qed.

(** The messages that are published. *)
Definition public_messages (l : list string) : Prop :=
  NoDup l /\ forall m, m ∈ l -> m ∈ PUBLIC_VERIFICATION_ERROR_MESSAGES.

Lemma sanitized_message entry m : sanitizeVerificationError entry = Some m -> m ∈ PUBLIC_VERIFICATION_ERROR_MESSAGES.
Proof.
  destruct entry; try done. cbn [sanitizeVerificationError]. destruct (negb _); [done |]. intros [= <-].
  destruct (isPublicVerificationErrorMessage _) eqn:E; [| by do 4 right; left].
  apply existsb_exists in E as (x & Hx & ->%String.eqb_eq). by apply list_elem_of_In.
Qed.

Lemma sanitize_loop_ok entries : forall l, public_messages l -> public_messages (sanitize_loop entries l).
Proof.
  induction entries as [| entry entries IH]; intros l Hl; cbn [sanitize_loop]; [done |].
  destruct (Z.leb 20 (zlength l)); [done |]. destruct (sanitizeVerificationError entry) as [m |] eqn:Em; [| by apply IH].
  destruct (existsb (String.eqb m) l) eqn:E; apply IH; [done |]. destruct Hl as [Hn Hl]. split.
  - apply NoDup_app. split_and!; [done | | apply NoDup_singleton].
    intros x Hx ->%list_elem_of_singleton. apply not_true_iff_false in E. apply E, existsb_exists.
    exists m. split; [by apply list_elem_of_In | apply String.eqb_refl].
  - intros x [Hx | ->%list_elem_of_singleton]%elem_of_app; [by apply Hl | by eapply sanitized_message].
Qed.

Lemma sanitized_ok errors : public_messages (sanitizePublicVerificationErrors errors).
Proof. destruct errors; try (split; [constructor | by intros m ?%elem_of_nil]). apply sanitize_loop_ok. split; [constructor | by intros m ?%elem_of_nil]. Qed.

Lemma public_errors_parse m l q : public_messages (m :: l) ->
  parseInternal publicErrorsSchema (texts (m :: l)) q = Success (texts (m :: l)).
Proof.
  intros [_ Hm]. apply (reparse_array _ _ _ _ (map JStr (m :: l))); [| done |].
  - repeat constructor. cbn. unfold zlength. cbn [length]. apply Z.leb_le. lia.
  - intros i d Hd. change (@map) with (@list_fmap) in Hd. rewrite list_lookup_fmap in Hd.
    destruct ((m :: l) !! i) as [x |] eqn:Ex; [| done]. injection Hd as <-.
    change (parseInternal publicVerificationErrorSchema (JStr x) ?p) with (parseEnum PUBLIC_VERIFICATION_ERROR_MESSAGES (JStr x) p).
    unfold parseEnum. assert (existsb (String.eqb x) PUBLIC_VERIFICATION_ERROR_MESSAGES = true) as ->; [| done].
    apply existsb_exists. exists x. split; [| apply String.eqb_refl].
    apply list_elem_of_In, Hm. by eapply list_elem_of_lookup_2.
Qed.

(** ** Projections that are not a success *)

Definition dev_mode_report (w : jsval) (errors : option (list jsval)) : jsval :=
  JObj ([("status", JStr "dev_mode")]%string ++ projectVerifierReportMetadata w ++ received w ++
        [("dev_mode_receipt", JBool true)]%string ++
        match errors with Some l => [("errors"%string, JArr l)] | None => [] end).

Definition failed_report (w : jsval) (errors : list jsval) : jsval :=
  JObj ([("status", JStr "failed")]%string ++ projectVerifierReportMetadata w ++ received w ++
        [("dev_mode_receipt", get w "dev_mode_receipt"); ("errors", JArr errors)]%string).

Lemma dev_mode_accepts w errors messages refine q : dev_mode_ok w ->
  (forall l, errors = Some l -> forall q, parseInternal messages (JArr l) q = Success (JArr l)) ->
  (forall v, requireDevelopmentReceiptImageId v [] = [] -> refine v q = []) ->
  let p := dev_mode_report w errors in
  parseInternal (superRefine refine (s_strict (s_object (status_field "dev_mode" ++ commonReportShape ++
    [("receipt_image_id", NullableSchema verifierReportImageIdSchema); ("dev_mode_receipt", LiteralSchema (JBool true));
     ("errors", OptionalSchema messages)]%string)))) p q = Success p.
Proof.
  intros [Hf Hd] He Hr p. apply refined_success. split; [| apply Hr; exact Hd].
  assert (He' : forall q, parseInternal (OptionalSchema messages) (get p "errors") q = Success (get p "errors")).
  { intros q'. destruct errors as [l |]; [exact (He l eq_refl q') | done]. }
  unfold p, dev_mode_report. apply strict_accepts; [closed_NoDup | | | by destruct errors; cbn; rewrite ?orb_true_r].
  - unfold p, dev_mode_report in He'. by destruct errors; projected_fields Hf.
  - intros k Hk. destruct errors; [exact Hk |]. exact (proj2 (elem_of_app _ ["errors"%string] k) (or_introl Hk)).
Qed.

Lemma failed_accepts w errors messages q : failed_ok w ->
  (forall q', parseInternal messages (JArr errors) q' = Success (JArr errors)) ->
  let p := failed_report w errors in
  parseInternal (s_strict (s_object (status_field "failed" ++ commonReportShape ++
    [("receipt_image_id", NullableSchema verifierReportImageIdSchema); ("dev_mode_receipt", BooleanSchema);
     ("errors", messages)]%string))) p q = Success p.
Proof.
  intros Hf He p. apply strict_accepts; [closed_NoDup | | done | by cbn; rewrite ?orb_true_r].
  unfold failed_ok in Hf. projected_fields Hf.
Qed.

Lemma dev_mode_projected w : dev_mode_ok w ->
  exists errors, (forall l, errors = Some l -> forall q, parseInternal errorsSchema (JArr l) q = Success (JArr l)) /\
    projectVerifierServiceWireReport w = dev_mode_report w errors.
Proof.
  intros [Hf _]. assert (Ht := tagged _ _ _ Hf). unfold projectVerifierServiceWireReport, has_status. rewrite Ht.
  assert (He : ("errors"%string, OptionalSchema errorsSchema) ∈ dev_mode_shape commonReportShape) by (by do 7 right; left).
  destruct (optional_array w _ Hf He) as [E | [l E]]; rewrite E; [by exists None |]. exists (Some l).
  split; [| done]. intros l' [= <-] q. assert (Hq := field _ _ _ _ Hf He q). by rewrite E in Hq.
Qed.

Lemma failed_projected w : failed_ok w ->
  exists errors, (forall q, parseInternal errorsSchema (JArr errors) q = Success (JArr errors)) /\
    projectVerifierServiceWireReport w = failed_report w errors.
Proof.
  intros Hf. assert (Ht := tagged _ _ _ Hf). unfold projectVerifierServiceWireReport, has_status. rewrite Ht.
  assert (He : ("errors"%string, errorsSchema) ∈ failed_shape commonReportShape) by (by do 7 right; left).
  destruct (errors_array w _ Hf He) as [l E]. rewrite E. exists l. split; [| done]. intros q. assert (Hq := field _ _ _ _ Hf He q).
  by rewrite E in Hq.
Qed.

(** The errors of a published report. *)
Definition published_errors (errors : list string) : Prop := errors <> [] /\ public_messages errors.

Lemma published_parse errors q : published_errors errors ->
  parseInternal publicErrorsSchema (JArr (map JStr errors)) q = Success (JArr (map JStr errors)).
Proof. intros [Hne Hm]. destruct errors; [done |]. by apply public_errors_parse. Qed.

Lemma dev_mode_published w : dev_mode_ok w ->
  exists errors, sanitizeVerificationReportForPublicResponse w = dev_mode_report w (map JStr <$> errors) /\
    (forall l, errors = Some l -> published_errors l).
Proof.
  intros [Hf _]. assert (Ht := tagged _ _ _ Hf). assert (Hw : is_undefined w = false) by (destruct w; try done; discriminate Ht).
  unfold sanitizeVerificationReportForPublicResponse, has_status. rewrite Ht, Hw.
  assert (Hs := sanitized_ok (get w "errors")). destruct (sanitizePublicVerificationErrors _) as [| m l].
  - by exists None.
  - exists (Some (m :: l)). split; [done |]. by intros l' [= <-].
Qed.

Lemma failed_published w : failed_ok w ->
  exists errors, sanitizeVerificationReportForPublicResponse w = failed_report w (map JStr errors) /\ published_errors errors.
Proof.
  intros Hf. assert (Ht := tagged _ _ _ Hf). assert (Hw : is_undefined w = false) by (destruct w; try done; discriminate Ht).
  unfold sanitizeVerificationReportForPublicResponse, has_status. rewrite Ht, Hw.
  assert (Hs := sanitized_ok (get w "errors")). destruct (sanitizePublicVerificationErrors _) as [| m l].
  - exists [GENERIC_PUBLIC_VERIFICATION_ERROR]. split; [done |]. split; [done |]. split; [apply NoDup_singleton |].
    intros m ->%list_elem_of_singleton. by do 4 right; left.
  - by exists (m :: l).
Qed.

(** ** What the protocol and the publication promise *)

Lemma exit_code_spec input code : parseVerifierServiceExitCode input = Ok code ->
  input = JNum (NInt code) /\ code ∈ [0; 2; 3].
Proof.
  unfold parseVerifierServiceExitCode. intros E.
  assert (Hn : forall z, strict_equal input (JNum (NInt z)) = true -> input = JNum (NInt z)).
  { intros z. destruct input; try done. cbn. intros ->%num_eqb_int_r. done. }
  repeat match type of E with context [strict_equal input ?x] => destruct (strict_equal input x) eqn:?; [injection E as <- |] end;
    try done; (split; [by apply Hn | set_solver]).
Qed.

Lemma reports_pick p status : get p "status" = JStr status -> status <> "success"%string ->
  parseInternal (if String.eqb status "dev_mode" then verifierServiceDevModeReportSchema else verifierServiceFailedReportSchema) p []
    = Success p ->
  status = "dev_mode"%string \/ status = "failed"%string ->
  parseInternal verifierServiceReportSchema p [] = Success p.
Proof.
  intros Hp Hne Hs Hst.
  destruct (pick_status requireSuccessfulReceiptImageId (commonReportShape ++ successReceiptShape, commonReportShape ++ devModeReceiptShape)
    requireDevelopmentReceiptImageId p verifierServiceFailedReportSchema status Hp) as (_ & Hd & Hf).
  destruct Hst as [-> | ->]; [exact (Hd eq_refl _ Hs) | exact (Hf eq_refl _ Hs)].
Qed.

(** The report of the service, without its paths, is a report again. *)
Lemma projected_report w : success_ok w \/ dev_mode_ok w \/ failed_ok w ->
  let p := projectVerifierServiceWireReport w in
  parseInternal verifierServiceReportSchema p [] = Success p /\ get p "status" = get w "status" /\
  get p "receipt_image_id" = get w "receipt_image_id" /\ get p "expected_image_id" = get w "expected_image_id".
Proof.
  intros Hw p. unfold p. destruct Hw as [Hw | [Hw | Hw]].
  - destruct (success_projected w Hw) as (E & _ & Ha). assert (Ht := tagged _ _ _ (proj1 Hw)). rewrite E, Ht.
    split_and!; try done. apply (union_pick []); [done |]. apply Ha. intros v Hv. unfold requireSuccessfulReceiptImageId. by rewrite Hv.
  - destruct (dev_mode_projected w Hw) as (errors & He & E). assert (Ht := tagged _ _ _ (proj1 Hw)). rewrite E, Ht.
    split_and!; try done. apply (reports_pick (dev_mode_report w errors) "dev_mode"); [done | done | by apply dev_mode_accepts | by left].
  - destruct (failed_projected w Hw) as (errors & He & E). assert (Ht := tagged _ _ _ Hw). rewrite E, Ht.
    split_and!; try done. apply (reports_pick (failed_report w errors) "failed"); [done | done | by apply failed_accepts | by right].
Qed.

(** C35: The exit code of the verifier service and its report have to agree. A run
    is admitted only with one of the three exit codes and a report of its status;
    the report that is kept has no path of the service and is itself a report of
    the contract; and a success means exit code 0, no development receipt, and
    an image identifier of the receipt that is normalized and equal to the one
    that was expected. *)
Theorem service_protocol_agrees exitCodeInput reportInput r :
  parseVerifierServiceProtocol exitCodeInput reportInput = Ok r ->
  exitCodeInput = JNum (NInt (pr_exitCode r)) /\ pr_exitCode r ∈ [0; 2; 3] /\
  get (pr_report r) "status" = JStr (status_of_exit (pr_exitCode r)) /\
  parseVerifierServiceReport (pr_report r) = Ok (pr_report r) /\
  has_own (pr_report r) "bundle_path" = false /\ has_own (pr_report r) "receipt_path" = false /\
  (pr_exitCode r = 0 -> exists id, IMAGE_ID_PATTERN id = true /\
     get (pr_report r) "receipt_image_id" = JStr id /\ get (pr_report r) "expected_image_id" = JStr id /\
     get (pr_report r) "dev_mode_receipt" = JBool false).
Proof.
  unfold parseVerifierServiceProtocol, parseVerifierServiceWireReport, parse, safeParse. intros E.
  apply bind_Ok in E as (code & Hcode & E). apply exit_code_spec in Hcode as [-> Hcode].
  destruct (parseInternal verifierServiceWireReportSchema reportInput []) as [w |] eqn:Ew; [| done].
  cbn [mbind result_bind] in E. apply wire_report_ok in Ew. destruct (has_status w _) eqn:Hst; [| done]. injection E as <-.
  cbn [pr_exitCode pr_report]. destruct (projected_report w Ew) as (Hp & Hs & Hr & Hx).
  assert (Hws : get w "status" = JStr (status_of_exit code)).
  { unfold has_status in Hst. destruct (get w "status"); try done. cbn in Hst. by apply String.eqb_eq in Hst as ->. }
  unfold parseVerifierServiceReport, parse, safeParse. rewrite Hp, Hs, Hr, Hx.
  split_and!; [done | done | done | done | | |].
  - destruct Ew as [Hw | [Hw | Hw]]; [destruct (success_projected w Hw) as (-> & _) | destruct (dev_mode_projected w Hw) as ([] & _ & ->) |
      destruct (failed_projected w Hw) as (? & _ & ->)]; done.
  - destruct Ew as [Hw | [Hw | Hw]]; [destruct (success_projected w Hw) as (-> & _) | destruct (dev_mode_projected w Hw) as ([] & _ & ->) |
      destruct (failed_projected w Hw) as (? & _ & ->)]; done.
  - intros ->. change (status_of_exit 0) with "success"%string in Hws.
    destruct Ew as [Hw | [Hw | Hw]]; [| by rewrite (tagged _ _ _ (proj1 Hw)) in Hws | by rewrite (tagged _ _ _ Hw) in Hws].
    assert (Hid := field _ _ _ _ (proj1 Hw) ltac:(by do 5 right; left) [] : parseInternal verifierReportImageIdSchema (get w "receipt_image_id") [] = _).
    destruct (success_projected w Hw) as (-> & _). destruct Hw as [_ Hd]. unfold image_ids_differ in Hd. apply negb_false_iff in Hd.
    cbn in Hid. destruct (get w "receipt_image_id") as [| | | | id | | |] eqn:Er; try done. exists id.
    destruct (get w "expected_image_id") as [| | | | id' | | |] eqn:Ex; try done. cbn in Hd. apply String.eqb_eq in Hd as ->.
    split_and!; [| done | done | done]. cbn in Hid. destruct (IMAGE_ID_PATTERN id'); done.
Qed.

(** ** Published results *)

Lemma result_accepts status schema p : is_undefined p = false -> (forall q, parseInternal schema p q = Success p) -> forall q,
  let r := JObj [("status", JStr status); ("report", p)]%string in
  parseInternal (s_strict (s_object (result_shape status schema))) r q = Success r.
Proof.
  intros Hu Hp q r. apply strict_accepts; [closed_NoDup | | done |].
  - apply List.Forall_cons; [intros q'; cbn; unfold parseLiteral; cbn; by rewrite String.eqb_refl |].
    apply List.Forall_cons; [| apply List.Forall_nil]. intros q'.
    change (parseInternal (OptionalSchema schema) p q' = Success p). cbn [parseInternal]. by rewrite Hu.
  - cbn. by rewrite orb_true_r.
Qed.

Lemma not_open status v path : get v "status" = JStr status -> status ∉ ["not_run"; "running"]%string ->
  exists issues, parseInternal (s_strict (s_object [("status", EnumSchema ["not_run"; "running"]);
    ("report", OptionalSchema UndefinedSchema)]%string)) v path = Failure issues.
Proof.
  intros Hv Hne. destruct (parseInternal _ v path) as [w |] eqn:E; [| by eexists]. exfalso. apply Hne.
  apply object_success in E as (_ & _ & Hk & _). specialize (Hk ("status", EnumSchema ["not_run"; "running"])%string ltac:(by left)).
  cbn [fst snd] in Hk. rewrite Hv in Hk. cbn [parseInternal] in Hk. unfold parseEnum in Hk. destruct (existsb _ _) eqn:Ee; [| done].
  apply existsb_exists in Ee as (x & Hx & ->%String.eqb_eq). by apply list_elem_of_In.
Qed.

Definition terminal_schemas : list (string * Schema) :=
  [("success", publicVerificationSuccessReportSchema); ("dev_mode", publicVerificationDevModeReportSchema);
   ("failed", publicVerificationFailedReportSchema)]%string.

(** The result that carries a report of a terminal status. *)
Lemma pick_result status schema p : 
  (status, schema) ∈ terminal_schemas ->
  is_undefined p = false -> (forall q, parseInternal schema p q = Success p) ->
  let r := JObj [("status", JStr status); ("report", p)]%string in
  parseInternal publicVerificationResultSchema r [] = Success r.
Proof.
  intros Hin Hu Hp r. assert (Hok := result_accepts status schema p Hu Hp []). fold r in Hok.
  assert (Hv : get r "status" = JStr status) by done.
  assert (Hw : forall s shape, s <> status -> exists issues, parseInternal (s_strict (s_object (status_field s ++ shape))) r [] = Failure issues)
    by (intros s shape Hs; apply wrong_status; rewrite Hv; congruence).
  unfold terminal_schemas in Hin. rewrite !elem_of_cons, elem_of_nil in Hin.
  assert (Ho : status ∉ ["not_run"; "running"]%string)
    by (rewrite !elem_of_cons, elem_of_nil; destruct Hin as [[= -> _] | [[= -> _] | [[= -> _] | []]]]; by intros [? | [? | []]]).
  assert (He := not_open status r [] Hv Ho).
  destruct Hin as [[= -> ->] | [[= -> ->] | [[= -> ->] | []]]].
  - apply (union_pick [_]); [| exact Hok]. by constructor.
  - apply (union_pick [_; _]); [| exact Hok]. repeat (constructor; [first [exact He | by apply Hw] |]). constructor.
  - apply (union_pick [_; _; _]); [| exact Hok]. repeat (constructor; [first [exact He | by apply Hw] |]). constructor.
Qed.

(** The properties a published report can have. *)
Definition PUBLIC_REPORT_KEYS : list string :=
  ["status"; "verifier_version"; "verified_at"; "duration_ms"; "expected_image_id"; "receipt_image_id";
   "dev_mode_receipt"; "errors"]%string.

(** Of these, all but the errors are those of the report. *)
Definition copied_fields (w p : jsval) : Prop := exists properties, p = JObj properties /\
  forall key value, (key, value) ∈ properties -> key ∈ PUBLIC_REPORT_KEYS /\ (key <> "errors"%string -> value = get w key).

Lemma copied_of w properties :
  Forall (fun e => e.1 ∈ PUBLIC_REPORT_KEYS /\ (e.1 <> "errors"%string -> e.2 = get w e.1)) properties ->
  copied_fields w (JObj properties).
Proof. intros Hf. exists properties. split; [done |]. intros key value Hin. rewrite Forall_forall in Hf. exact (Hf _ Hin). Qed.

Ltac public_keys := unfold PUBLIC_REPORT_KEYS; rewrite !elem_of_cons; tauto.
Ltac copied H := apply copied_of; unfold projectVerifierReportMetadata, received; cbn [app map fmap option_fmap option_map];
  repeat first [apply List.Forall_nil
               | apply List.Forall_cons; [split; [cbn [fst]; public_keys | cbn [fst snd]; intros Hne; first [done | congruence]] |]].

Lemma receipt_flag w shape flag : fields_ok w shape -> ("dev_mode_receipt"%string, LiteralSchema (JBool flag)) ∈ shape ->
  get w "dev_mode_receipt" = JBool flag.
Proof. intros Hf Hin. by apply (literal_success (JBool flag) (get w "dev_mode_receipt") []), (field _ _ _ _ Hf). Qed.

Ltac flag_field := open_shapes; repeat first [left; reflexivity | right].

(** What is published of a report. *)
Record published (w p : jsval) (status : string) (schema : Schema) : Prop := {
  pb_status : get w "status" = JStr status;
  pb_schema : (status, schema) ∈
    terminal_schemas;
  pb_object : is_undefined p = false;
  pb_same : get p "status" = JStr status;
  pb_parse : forall q, parseInternal schema p q = Success p;
  pb_union : parseInternal publicVerificationReportSchema p [] = Success p;
  pb_errors : get p "errors" = JUndefined \/ exists errors, get p "errors" = texts errors /\ published_errors errors;
  pb_fields : copied_fields w p;
}.

Lemma public_pick p status schema : get p "status" = JStr status ->
  (status, schema) ∈ terminal_schemas ->
  parseInternal schema p [] = Success p -> parseInternal publicVerificationReportSchema p [] = Success p.
Proof.
  intros Hp Hin Hs.
  destruct (pick_status public_success_refinement
    (commonReportShape ++ successReceiptShape,
     commonReportShape ++ [("receipt_image_id", NullableSchema verifierReportImageIdSchema); ("dev_mode_receipt", LiteralSchema (JBool true));
                           ("errors", OptionalSchema publicErrorsSchema)]%string)
    public_dev_mode_refinement p publicVerificationFailedReportSchema status Hp) as (Ha & Hd & Hf).
  unfold terminal_schemas in Hin. rewrite !elem_of_cons, elem_of_nil in Hin. destruct Hin as [[= -> ->] | [[= -> ->] | [[= -> ->] | []]]].
  - exact (Ha eq_refl _ Hs).
  - exact (Hd eq_refl _ Hs).
  - exact (Hf eq_refl _ Hs).
Qed.

Lemma report_published w : success_ok w \/ dev_mode_ok w \/ failed_ok w ->
  exists status schema, published w (sanitizeVerificationReportForPublicResponse w) status schema.
Proof.
  assert (Hgen : forall status schema p, get w "status" = JStr status ->
    (status, schema) ∈ terminal_schemas ->
    get p "status" = JStr status -> (forall q, parseInternal schema p q = Success p) ->
    (get p "errors" = JUndefined \/ exists errors, get p "errors" = texts errors /\ published_errors errors) ->
    copied_fields w p -> published w p status schema).
  { intros status schema p Hw Hin Hp Hs He Hc. split; try done; [destruct p; try done; discriminate Hp | by eapply public_pick]. }
  intros [Hw | [Hw | Hw]].
  - exists "success"%string, publicVerificationSuccessReportSchema. assert (Ht := tagged _ _ _ (proj1 Hw)).
    assert (Hd := receipt_flag w _ false (proj1 Hw) ltac:(flag_field)).
    destruct (success_projected w Hw) as (_ & -> & Ha). apply Hgen; [done | by left | done | | by left |].
    + intros q. apply Ha. intros v Hv. unfold public_success_refinement. by rewrite Hv.
    + copied Hd.
  - exists "dev_mode"%string, publicVerificationDevModeReportSchema. assert (Ht := tagged _ _ _ (proj1 Hw)).
    assert (Hd := receipt_flag w _ true (proj1 Hw) ltac:(flag_field)).
    destruct (dev_mode_published w Hw) as (errors & -> & He). apply Hgen; [done | by right; left | done | | |].
    + intros q. apply dev_mode_accepts; [done | | ].
      * intros l Hl q'. destruct errors as [errors |]; [| done]. injection Hl as <-. by apply published_parse, He.
      * intros v. unfold requireDevelopmentReceiptImageId, public_dev_mode_refinement. by destruct (_ && _).
    + destruct errors as [errors |]; [right; exists errors; split; [done | by apply He] | by left].
    + unfold dev_mode_report. destruct errors as [errors |]; copied Hd.
  - exists "failed"%string, publicVerificationFailedReportSchema. assert (Ht := tagged _ _ _ Hw).
    destruct (failed_published w Hw) as (errors & -> & He). apply Hgen; [done | by right; right; left | done | | |].
    + intros q. apply failed_accepts; [done |]. intros q'. by apply published_parse.
    + right. by exists errors.
    + unfold failed_report. copied Ht.
Qed.

Lemma has_version w : success_ok w \/ dev_mode_ok w \/ failed_ok w -> has_own w "verifier_version" = true.
Proof.
  assert (Hgen : (forall q, parseInternal (string_min 1 None s_string) (get w "verifier_version") q = Success (get w "verifier_version")) ->
    has_own w "verifier_version" = true).
  { intros Hp. specialize (Hp []). unfold has_own. unfold get in Hp. by destruct (own _ _). }
  intros [Hw | [Hw | Hw]]; apply Hgen; [apply (field _ _ _ _ (proj1 Hw)) | apply (field _ _ _ _ (proj1 Hw)) | apply (field _ _ _ _ Hw)];
    by right; left.
Qed.

(** C36: What is published of a report of the verifier service is what its readers
    admit: the response and the report in it are parsed to themselves and have
    the status of the report, and the stored result that carries the report is
    published the same. The published report has only public fields, each but the
    errors with the value the service gave it (so the version of the service, which
    is text of its own, is published as it is; its paths and all else are left out);
    of the errors only messages of the fixed public list appear, each once. *)
Theorem published_result_admitted reportInput w : parseVerifierServiceReport reportInput = Ok w ->
  let p := projectVerificationResultForPublicResponse w in
  let report := get p "report" in
  parsePublicVerificationResult p = Some p /\ parsePublicVerificationReport report = Some report /\
  get p "status" = get w "status" /\ get report "status" = get w "status" /\
  projectVerificationResultForPublicResponse (JObj [("status", get w "status"); ("report", w)]%string) = p /\
  copied_fields w report /\
  (get report "errors" = JUndefined \/
   exists messages, get report "errors" = texts messages /\ messages <> [] /\ NoDup messages /\
     forall m, m ∈ messages -> m ∈ PUBLIC_VERIFICATION_ERROR_MESSAGES).
Proof.
  intros E p report. unfold parseVerifierServiceReport, parse, safeParse in E.
  destruct (parseInternal verifierServiceReportSchema reportInput []) as [w' |] eqn:Ew; [| done]. injection E as ->.
  apply report_ok in Ew. destruct (report_published w Ew) as (status & schema & Hp). assert (Hv := has_version w Ew).
  assert (Hu : is_undefined w = false) by (destruct w; try done; discriminate Hv).
  assert (Ht : terminal_status w = Some status /\ forall l, terminal_status (JObj (("status"%string, JStr status) :: l)) = Some status).
  { unfold terminal_status, has_status. rewrite (pb_status _ _ _ _ Hp). change (get (JObj (("status"%string, JStr status) :: ?l)) "status") with (JStr status).
    assert (Hin := pb_schema _ _ _ _ Hp). unfold terminal_schemas in Hin. rewrite !elem_of_cons, elem_of_nil in Hin.
    by destruct Hin as [[= -> _] | [[= -> _] | [[= -> _] | []]]]. }
  destruct Ht as [Ht Ht'].
  assert (Ep : p = JObj [("status", JStr status); ("report", sanitizeVerificationReportForPublicResponse w)]%string).
  { unfold p, projectVerificationResultForPublicResponse. by rewrite Ht, Hv. }
  assert (Er : report = sanitizeVerificationReportForPublicResponse w) by (unfold report; by rewrite Ep).
  unfold parsePublicVerificationResult, parsePublicVerificationReport, safeParse. rewrite Er, Ep, (pb_status _ _ _ _ Hp).
  rewrite (pick_result _ _ _ (pb_schema _ _ _ _ Hp) (pb_object _ _ _ _ Hp) (pb_parse _ _ _ _ Hp)), (pb_union _ _ _ _ Hp).
  split_and!; [done | done | done | apply Hp | | apply Hp |].
  - unfold projectVerificationResultForPublicResponse. rewrite Ht'. cbn -[sanitizeVerificationReportForPublicResponse]. by rewrite Hu.
  - destruct (pb_errors _ _ _ _ Hp) as [-> | (errors & -> & Hne & Hn & Hm)]; [by left | right]. by exists errors.
Qed.

(** ** Runs of the service *)

Example leap_day : isRfc3339Timestamp "2024-02-29T23:59:59.123456789+23:59" = true /\
  isRfc3339Timestamp "2023-02-29T00:00:00Z" = false /\ isRfc3339Timestamp "2024-02-29T24:00:00Z" = false /\
  isRfc3339Timestamp "2024-02-29T00:00:00.1234567890Z" = false.
Proof. vm_compute. done. Qed.

Definition sample_image : string :=
  "0x0123456789abcdef0123456789abcdef0123456789abcdef0123456789abcdef".

Definition service_run (status : string) (receipt : list (string * jsval)) : jsval :=
  JObj ([("status", JStr status); ("verifier_version", JStr "1.0.0"); ("verified_at", JStr "2024-02-29T23:59:59Z");
         ("duration_ms", JNum (NInt 1200)); ("expected_image_id", JStr sample_image);
         ("bundle_path", JStr "bundle.zip"); ("receipt_path", JStr "receipt.json")]%string ++ receipt).

Definition sample_success : jsval :=
  service_run "success" [("receipt_image_id", JStr sample_image); ("dev_mode_receipt", JBool false)]%string.

Definition sample_failure : jsval :=
  service_run "failed" [("receipt_image_id", JNull); ("dev_mode_receipt", JBool false);
                       ("errors", texts ["cannot open /var/task/receipt.json"; " Invalid proof "; "exit 101"])]%string.

Lemma service_protocol_agrees_witness :
  exists r, parseVerifierServiceProtocol (JNum (NInt 0)) sample_success = Ok r /\
    exists id, IMAGE_ID_PATTERN id = true /\ get (pr_report r) "receipt_image_id" = JStr id.
Proof.
  destruct (parseVerifierServiceProtocol (JNum (NInt 0)) sample_success) as [r |] eqn:E; [| vm_compute in E; discriminate E].
  exists r. split; [reflexivity |]. destruct (service_protocol_agrees _ _ _ E) as (Hc & _ & _ & _ & _ & _ & Hs).
  assert (Hz : pr_exitCode r = 0) by (injection Hc as Hc; exact (eq_sym Hc)).
  destruct (Hs Hz) as (id & Hid & Hr & _). exact (ex_intro _ id (conj Hid Hr)).
Defined.

Example mismatched_exit : parseVerifierServiceProtocol (JNum (NInt 0)) sample_failure =
  throw "verifier-service exit code does not match report status".
Proof. vm_compute. reflexivity. Qed.

Definition failure_report : jsval := projectVerifierServiceWireReport sample_failure.

(** Of three errors two messages are published. *)
Example failure_published :
  get (get (projectVerificationResultForPublicResponse failure_report) "report") "errors" =
  texts ["Verification failed"; "Invalid proof"]%string.
Proof. vm_compute. reflexivity. Qed.

Lemma published_result_admitted_witness :
  parsePublicVerificationResult (projectVerificationResultForPublicResponse failure_report) =
  Some (projectVerificationResultForPublicResponse failure_report).
Proof.
  assert (E : parseVerifierServiceReport failure_report = Ok failure_report) by (vm_compute; reflexivity).
  exact (proj1 (published_result_admitted failure_report failure_report E)).
Defined.
