(* ===== verification/PublicBundle.v ===== *)
(** Which members of a proof bundle are public
    (packages/verification/src/verification/public-bundle-manifest.ts and its
    .json): the admission of the manifest and the policy read off it. Labels of
    error messages keep their fixed part. *)
From S2P Require Import Prelude.
From S2P Require Import JsValue.
From S2P Require Import Hex.
From S2P Require Import Contract.
From S2P Require Import ContractFacts.
Import JsValue.

Module PublicBundle.

Inductive PublicBundleMode : Type := sync | async.

Record PublicBundleModeManifest := mkModeManifest {
  required : list string;
  optional : list string;
}.

Record PublicBundleManifest := mkManifest {
  requiredInAllModes : list string;
  mode_sync : PublicBundleModeManifest;
  mode_async : PublicBundleModeManifest;
  neverPublic : list string;
}.

Record PublicBundlePolicy := mkPolicy {
  policy_mode : PublicBundleMode;
  requiredMembers : list string;
  optionalMembers : list string;
  knownPublicMembers : list string;
  neverPublicMembers : list string;
}.

Definition MANIFEST_KEYS : list string := ["requiredInAllModes"; "modes"; "neverPublic"]%string.
Definition MODE_KEYS : list string := ["sync"; "async"]%string.
Definition MODE_MANIFEST_KEYS : list string := ["required"; "optional"]%string.

Definition member_char (c : ascii) : bool := code_between 97 122 c || code_between 48 57 c.

Fixpoint member_rest (s : string) : bool :=
  match s with
  | String "." _ => String.eqb s ".json"
  | String c rest => (member_char c || Ascii.eqb c "-") && member_rest rest
  | EmptyString => false
  end.

(** [/^[a-z0-9][a-z0-9-]*\.json$/] *)
Definition CANONICAL_MEMBER_PATTERN (s : string) : bool :=
  match s with String c rest => member_char c && member_rest rest | EmptyString => false end.

Definition failManifest {A} (reason : string) : result A := throw ("Invalid public bundle manifest: " +:+ reason)%string.

(** The default order of [sort]: by character codes. *)
Definition sort_keys (keys : list string) : list string :=
  Contract.js_sort (fun a b => if String.leb a b then -1 else 1) keys.

Definition assertExactKeys (record : jsval) (expectedKeys : list string) (label : string) : result unit :=
  let actualKeys := sort_keys (object_keys record) in
  let expected := sort_keys expectedKeys in
  if negb (Nat.eqb (length actualKeys) (length expected)) || negb (bool_decide (actualKeys = expected))
  then failManifest (label +:+ " must contain exactly " +:+ Contract.join ", " expected)%string else Ok tt.

Definition parseMember (label : string) (member : jsval) : result string :=
  match member with
  | JStr s =>
      if CANONICAL_MEMBER_PATTERN s then Ok s else failManifest (label +:+ " must be a canonical root JSON filename")%string
  | _ => failManifest (label +:+ " must be a canonical root JSON filename")%string
  end.

Definition parseMembers (value : jsval) (label : string) : result (list string) :=
  match value with
  | JArr members => Contract.map_result (parseMember label) members
  | _ => failManifest (label +:+ " must be an array")%string
  end.

Definition parseModeManifest (value : jsval) (mode : string) : result PublicBundleModeManifest :=
  if negb (isNonArrayObject value) then failManifest ("modes." +:+ mode +:+ " must be an object")%string
  else
    _ ← assertExactKeys value MODE_MANIFEST_KEYS ("modes." +:+ mode)%string;
    r ← parseMembers (prop value "required") ("modes." +:+ mode +:+ ".required")%string;
    o ← parseMembers (prop value "optional") ("modes." +:+ mode +:+ ".optional")%string;
    Ok (mkModeManifest r o).

Definition collectKnownPublicMembers (manifest : PublicBundleManifest) : list string :=
  requiredInAllModes manifest ++ required (mode_sync manifest) ++ optional (mode_sync manifest) ++
  required (mode_async manifest) ++ optional (mode_async manifest).

Fixpoint unique_public (members : list string) (publicMembersByCase : list string) : result (list string) :=
  match members with
  | [] => Ok publicMembersByCase
  | member :: rest =>
      let caseKey := to_lower member in
      if existsb (String.eqb caseKey) publicMembersByCase
      then failManifest ("public member is duplicated or case-conflicting: " +:+ member)%string
      else unique_public rest (publicMembersByCase ++ [caseKey])
  end.

Fixpoint unique_private (members publicMembersByCase privateMembersByCase : list string) : result unit :=
  match members with
  | [] => Ok tt
  | member :: rest =>
      let caseKey := to_lower member in
      if existsb (String.eqb caseKey) privateMembersByCase
      then failManifest ("never-public member is duplicated or case-conflicting: " +:+ member)%string
      else if existsb (String.eqb caseKey) publicMembersByCase
      then failManifest ("member cannot be both public and never-public: " +:+ member)%string
      else unique_private rest publicMembersByCase (privateMembersByCase ++ [caseKey])
  end.

Definition assertUniqueMembership (manifest : PublicBundleManifest) : result unit :=
  publicMembersByCase ← unique_public (collectKnownPublicMembers manifest) [];
  unique_private (neverPublic manifest) publicMembersByCase [].

Definition parsePublicBundleManifest (value : jsval) : result PublicBundleManifest :=
  if negb (isNonArrayObject value) then failManifest "root must be an object"
  else
    _ ← assertExactKeys value MANIFEST_KEYS "root";
    let modesValue := prop value "modes" in
    if negb (isNonArrayObject modesValue) then failManifest "modes must be an object"
    else
      _ ← assertExactKeys modesValue MODE_KEYS "modes";
      all ← parseMembers (prop value "requiredInAllModes") "requiredInAllModes";
      s ← parseModeManifest (prop modesValue "sync") "sync";
      a ← parseModeManifest (prop modesValue "async") "async";
      never ← parseMembers (prop value "neverPublic") "neverPublic";
      let manifest := mkManifest all s a never in
      _ ← assertUniqueMembership manifest;
      Ok manifest.

Definition mode_of (manifest : PublicBundleManifest) (mode : PublicBundleMode) : PublicBundleModeManifest :=
  match mode with sync => mode_sync manifest | async => mode_async manifest end.

Definition resolvePublicBundlePolicy (manifest : PublicBundleManifest) (mode : PublicBundleMode) : PublicBundlePolicy :=
  let modeManifest := mode_of manifest mode in
  mkPolicy mode (requiredInAllModes manifest ++ required modeManifest) (optional modeManifest)
    (collectKnownPublicMembers manifest) (neverPublic manifest).

(** public-bundle-manifest.json *)
Definition publicBundleManifestJson : jsval :=
  let files := fun l => JArr (map JStr l) in
  JObj [("requiredInAllModes", files ["public-input.json"; "election-manifest.json"; "close-statement.json"; "receipt.json";
                                      "journal.json"]);
        ("modes", JObj [("sync", JObj [("required", files ["metadata.json"]);
                                       ("optional", files ["sth.json"; "consistency-proof.json"])]);
                        ("async", JObj [("required", files []); ("optional", files [])])]);
        ("neverPublic", files ["input.json"; "verification.json"; "included-bitmap.json"; "seen-bitmap.json"])]%string.

Definition PUBLIC_BUNDLE_MANIFEST : result PublicBundleManifest := parsePublicBundleManifest publicBundleManifestJson.

End PublicBundle.

(** * What an admitted manifest promises *)
Import PublicBundle.

Lemma member_char_lower c : member_char c = true -> lower_char c = c.
Proof. destruct c as [[] [] [] [] [] [] [] []]; vm_compute; done. Qed.

Lemma member_rest_lower s : member_rest s = true -> to_lower s = s.
Proof.
  induction s as [| c s IH]; [done |]. intros Hs. cbn [member_rest] in Hs.
  assert (Hd : c = "."%char \/ c <> "."%char) by (destruct (ascii_dec c "."); tauto). destruct Hd as [-> | Hne].
  - apply String.eqb_eq in Hs as ->. reflexivity.
  - assert (Hc : (member_char c || Ascii.eqb c "-") && member_rest s = true).
    { destruct c as [[] [] [] [] [] [] [] []]; try exact Hs. by destruct Hne. }
    apply andb_true_iff in Hc as [Hc Hr]. change (String (lower_char c) (to_lower s) = String c s). f_equal; [| by apply IH].
    apply orb_true_iff in Hc as [Hc | ->%Ascii.eqb_eq]; [by apply member_char_lower | reflexivity].
Qed.

Lemma canonical_lower s : CANONICAL_MEMBER_PATTERN s = true -> to_lower s = s.
Proof.
  destruct s as [| c s]; [done |]. cbn [CANONICAL_MEMBER_PATTERN]. intros [Hc Hs]%andb_true_iff.
  change (String (lower_char c) (to_lower s) = String c s). f_equal; [by apply member_char_lower | by apply member_rest_lower].
Qed.

Lemma in_keys k l : existsb (String.eqb k) l = true <-> k ∈ l.
Proof.
  rewrite existsb_exists. split.
  - intros (x & Hx & ->%String.eqb_eq). by apply list_elem_of_In.
  - intros Hk. exists k. split; [by apply list_elem_of_In | apply String.eqb_refl].
Qed.

Lemma unique_public_Ok members : forall seen all, NoDup seen -> unique_public members seen = Ok all ->
  all = seen ++ map to_lower members /\ NoDup all.
Proof.
  induction members as [| m members IH]; intros seen all Hn; cbn [unique_public map].
  - intros [= <-]. by rewrite app_nil_r.
  - destruct (existsb _ seen) eqn:E; [done |]. intros Hu. apply IH in Hu as [-> Hd]; [by rewrite <- app_assoc in * |].
    apply NoDup_app. split_and!; [done | | apply NoDup_singleton]. intros x Hx ->%list_elem_of_singleton.
    by rewrite (proj2 (in_keys _ _) Hx) in E.
Qed.

Lemma unique_private_Ok members known : forall seen, NoDup seen -> unique_private members known seen = Ok tt ->
  NoDup (seen ++ map to_lower members) /\ forall m, m ∈ members -> to_lower m ∉ known.
Proof.
  induction members as [| m members IH]; intros seen Hn; cbn [unique_private map].
  - intros _. rewrite app_nil_r. split; [done | by intros m ?%elem_of_nil].
  - destruct (existsb _ seen) eqn:Es; [done |]. destruct (existsb _ known) eqn:Ek; [done |]. intros Hu.
    apply IH in Hu as [Hd Hm].
    + rewrite <- app_assoc in Hd. split; [done |]. intros x [-> | Hx]%elem_of_cons; [| by apply Hm].
      intros Hx. by rewrite (proj2 (in_keys _ _) Hx) in Ek.
    + apply NoDup_app. split_and!; [done | | apply NoDup_singleton]. intros x Hx ->%list_elem_of_singleton.
      by rewrite (proj2 (in_keys _ _) Hx) in Es.
Qed.

Lemma members_Ok value label l : parseMembers value label = Ok l -> Forall (fun m => CANONICAL_MEMBER_PATTERN m = true) l.
Proof.
  destruct value as [| | | | | items | |]; try done. cbn [parseMembers]. revert l.
  induction items as [| v items IH]; intros l E; cbn [Contract.map_result] in E; [by injection E as <- |].
  apply bind_Ok in E as (m & Em & E). apply bind_Ok in E as (rest & Er & E). injection E as <-.
  constructor; [| by apply IH]. unfold parseMember in Em. destruct v; try done.
  destruct (CANONICAL_MEMBER_PATTERN _) eqn:Ec; [by injection Em as <- | done].
Qed.

Lemma mode_Ok value mode m : parseModeManifest value mode = Ok m ->
  Forall (fun m => CANONICAL_MEMBER_PATTERN m = true) (required m ++ optional m).
Proof.
  unfold parseModeManifest. destruct (negb _); [done |]. intros E. bind_inv. injection E as <-. cbn.
  apply Forall_app. split; by eapply members_Ok.
Qed.

Lemma canonical_map l : Forall (fun m => CANONICAL_MEMBER_PATTERN m = true) l -> map to_lower l = l.
Proof. induction 1 as [| m l Hm _ IH]; [done |]. cbn. by rewrite IH, canonical_lower. Qed.

Lemma manifest_Ok value manifest : parsePublicBundleManifest value = Ok manifest ->
  Forall (fun m => CANONICAL_MEMBER_PATTERN m = true) (collectKnownPublicMembers manifest ++ neverPublic manifest) /\
  assertUniqueMembership manifest = Ok tt.
Proof.
  unfold parsePublicBundleManifest. destruct (negb _); [done |]. intros E. apply bind_Ok in E as (? & _ & E).
  cbv zeta in E. destruct (negb _) in E; [done |]. apply bind_Ok in E as (? & _ & E).
  apply bind_Ok in E as (all & Ha & E). apply bind_Ok in E as (s & Hs & E). apply bind_Ok in E as (a & Has & E).
  apply bind_Ok in E as (never & Hn & E). apply bind_Ok in E as ([] & Hu & E). injection E as <-. split; [| done].
  apply members_Ok in Ha, Hn. apply mode_Ok in Hs, Has. cbn. rewrite !Forall_app in *. tauto.
Qed.

(** An admitted manifest keeps what is private private: every member it names is
    a lower-case file name at the root, no member is named twice, and whatever
    the mode, what is required or optional is public and nothing of it is never
    to be public. *)
Theorem bundle_policy_separates value manifest mode : parsePublicBundleManifest value = Ok manifest ->
  let policy := resolvePublicBundlePolicy manifest mode in
  NoDup (knownPublicMembers policy ++ neverPublicMembers policy) /\
  Forall (fun m => CANONICAL_MEMBER_PATTERN m = true) (knownPublicMembers policy ++ neverPublicMembers policy) /\
  NoDup (requiredMembers policy ++ optionalMembers policy) /\
  (forall m, m ∈ requiredMembers policy ++ optionalMembers policy -> m ∈ knownPublicMembers policy) /\
  forall m, m ∈ neverPublicMembers policy -> m ∉ requiredMembers policy ++ optionalMembers policy.
Proof.
  intros [Hc Hu]%manifest_Ok policy. unfold assertUniqueMembership in Hu. apply bind_Ok in Hu as (known & Hk & Hp).
  apply unique_public_Ok in Hk as [-> Hn]; [| constructor]. apply unique_private_Ok in Hp as [Hp Hd]; [| constructor].
  assert (Hc' := Hc). apply Forall_app in Hc' as [Hck Hcn]. cbn [app] in *. rewrite canonical_map in * by done.
  change (knownPublicMembers policy) with (collectKnownPublicMembers manifest).
  change (neverPublicMembers policy) with (neverPublic manifest).
  assert (Hd' : forall m, m ∈ neverPublic manifest -> m ∉ collectKnownPublicMembers manifest).
  { intros m Hm. specialize (Hd m Hm). rewrite Forall_forall in Hcn. by rewrite canonical_lower in Hd by (by apply Hcn). }
  assert (Hsub : forall m, m ∈ requiredMembers policy ++ optionalMembers policy -> m ∈ collectKnownPublicMembers manifest).
  { intros m. unfold policy, resolvePublicBundlePolicy, collectKnownPublicMembers. destruct mode; cbn; rewrite !elem_of_app; tauto. }
  split_and!; [| done | | exact Hsub | intros m Hm Hin; exact (Hd' m Hm (Hsub m Hin))].
  - apply NoDup_app. split_and!; [done | | done]. intros m Hk Hm. exact (Hd' m Hm Hk).
  - eapply sublist_NoDup; [exact Hn |]. unfold collectKnownPublicMembers, policy, resolvePublicBundlePolicy.
    destruct mode; cbn; rewrite <- app_assoc; apply sublist_app; [done | | done |].
    + by apply sublist_app, sublist_inserts_r.
    + by apply sublist_inserts_l, sublist_inserts_l.
Qed.

Example manifest_admitted : exists manifest, PUBLIC_BUNDLE_MANIFEST = Ok manifest /\
  requiredMembers (resolvePublicBundlePolicy manifest async) =
    ["public-input.json"; "election-manifest.json"; "close-statement.json"; "receipt.json"; "journal.json"]%string.
Proof. eexists. split; [vm_compute; reflexivity | reflexivity]. Qed.

Lemma bundle_policy_separates_witness :
  exists manifest, PUBLIC_BUNDLE_MANIFEST = Ok manifest /\
    "verification.json"%string ∉ requiredMembers (resolvePublicBundlePolicy manifest sync) ++
                                 optionalMembers (resolvePublicBundlePolicy manifest sync).
Proof.
  destruct PUBLIC_BUNDLE_MANIFEST as [manifest |] eqn:E; [| vm_compute in E; discriminate E]. exists manifest.
  split; [reflexivity |]. apply (bundle_policy_separates publicBundleManifestJson manifest sync E).
  vm_compute in E. injection E as <-. right; left.
Defined.
