(* ===== verification/Duplicates.v ===== *)
(** The duplicate detector (packages/validation/src/duplicate-detector.ts): the
    sets of what was seen and the counters of what was seen again, and what its
    answers mean for the sequence of votes it was asked about. *)
From Stdlib Require Import QArith.
From S2P Require Import Prelude.
From S2P Require Import JsNumber.
#[global] Open Scope Z_scope.

Module DuplicateDetector.

Inductive DuplicateType : Type := dup_voteId | dup_commitment.

(** [None] is a vote that is no duplicate. *)
Definition DuplicateCheckResult : Type := option DuplicateType.

Record BatchCheckResult := mkBatchResult {
  uniqueCount : Z;
  duplicateCount : Z;
  duplicates : list (string * DuplicateType);
}.

Record DuplicateStatistics := mkStatistics {
  st_totalChecks : Z;
  st_uniqueVoteIds : Z;
  st_uniqueCommitments : Z;
  st_duplicateVoteIds : Z;
  st_duplicateCommitments : Z;
  st_duplicateRate : option num;
}.

Record DetectorState := mkDetectorState {
  ds_voteIds : list string;
  ds_commitments : list string;
}.

(** A set of the language keeps the order of insertion. *)
Record Detector := mkDetector {
  voteIdSet : list string;
  commitmentSet : list string;
  totalChecks : Z;
  duplicateVoteIdCount : Z;
  duplicateCommitmentCount : Z;
}.

Definition new : Detector := mkDetector [] [] 0 0 0.

Definition set_has (set : list string) (value : string) : bool := existsb (String.eqb value) set.
Definition set_add (set : list string) (value : string) : list string :=
  if set_has set value then set else set ++ [value].

Definition checkDuplicate (voteId commitment : string) (d : Detector) : DuplicateCheckResult * Detector :=
  let checks := totalChecks d + 1 in
  let voteIdExists := set_has (voteIdSet d) voteId in
  let commitmentExists := set_has (commitmentSet d) commitment in
  if voteIdExists then
    (Some dup_voteId,
     mkDetector (voteIdSet d) (if negb commitmentExists then set_add (commitmentSet d) commitment else commitmentSet d)
       checks (duplicateVoteIdCount d + 1) (duplicateCommitmentCount d))
  else if commitmentExists then
    (Some dup_commitment,
     mkDetector (set_add (voteIdSet d) voteId) (commitmentSet d) checks (duplicateVoteIdCount d)
       (duplicateCommitmentCount d + 1))
  else
    (None, mkDetector (set_add (voteIdSet d) voteId) (set_add (commitmentSet d) commitment) checks
             (duplicateVoteIdCount d) (duplicateCommitmentCount d)).

Fixpoint batch_loop (votes : list (string * string)) (found : list (string * DuplicateType)) (d : Detector) :
    list (string * DuplicateType) * Detector :=
  match votes with
  | [] => (found, d)
  | vote :: rest =>
      let checked := checkDuplicate vote.1 vote.2 d in
      batch_loop rest (match checked.1 with Some type => found ++ [(vote.1, type)] | None => found end) checked.2
  end.

Definition checkBatch (votes : list (string * string)) (d : Detector) : BatchCheckResult * Detector :=
  let found := batch_loop votes [] d in
  (mkBatchResult (zlength votes - zlength found.1) (zlength found.1) found.1, found.2).

(** [(dups / checks) * 100], each operation rounded *)
Definition rate (dups checks : Z) : num :=
  match finite_Q (round_Q (Qmake dups (Z.to_pos checks))) with
  | Some q => round_Q (Qmult q (Qmake 100 1))
  | None => NNaN
  end.

Definition getStatistics (d : Detector) : DuplicateStatistics :=
  mkStatistics (totalChecks d) (zlength (voteIdSet d)) (zlength (commitmentSet d)) (duplicateVoteIdCount d)
    (duplicateCommitmentCount d)
    (if Z.ltb 0 (totalChecks d)
     then Some (rate (duplicateVoteIdCount d + duplicateCommitmentCount d) (totalChecks d)) else None).

Definition clear (d : Detector) : Detector := new.

Definition exportState (d : Detector) : DetectorState := mkDetectorState (voteIdSet d) (commitmentSet d).

Definition importState (state : DetectorState) (d : Detector) : Detector :=
  let cleared := clear d in
  mkDetector (fold_left set_add (ds_voteIds state) (voteIdSet cleared))
    (fold_left set_add (ds_commitments state) (commitmentSet cleared))
    (totalChecks cleared) (duplicateVoteIdCount cleared) (duplicateCommitmentCount cleared).

End DuplicateDetector.

(** * The detector against the sequence of votes *)
Import DuplicateDetector.

(** ** Sets *)

Lemma set_has_spec set value : set_has set value = true <-> value ∈ set.
Proof.
  unfold set_has. rewrite existsb_exists. split.
  - intros (x & Hx & ->%String.eqb_eq). by apply list_elem_of_In.
  - intros Hv. exists value. split; [by apply list_elem_of_In | apply String.eqb_refl].
Qed.

Lemma set_add_elem set value x : x ∈ set_add set value <-> x ∈ set \/ x = value.
Proof.
  unfold set_add. destruct (set_has set value) eqn:E; [apply set_has_spec in E; split; [by left | by intros [? | ->]] |].
  by rewrite elem_of_app, list_elem_of_singleton.
Qed.

Lemma set_add_NoDup set value : NoDup set -> NoDup (set_add set value).
Proof.
  intros Hn. unfold set_add. destruct (set_has set value) eqn:E; [done |]. apply NoDup_app.
  split_and!; [done | | apply NoDup_singleton]. intros x Hx ->%list_elem_of_singleton.
  by rewrite (proj2 (set_has_spec set value)) in E.
Qed.

Lemma set_add_length set value : zlength (set_add set value) = zlength set + (if set_has set value then 0 else 1).
Proof. unfold set_add. destruct (set_has set value); [lia |]. by rewrite zlength_app, zlength_single. Qed.

Lemma import_same l : forall set, NoDup (set ++ l) -> fold_left set_add l set = set ++ l.
Proof.
  induction l as [| x l IH]; intros set Hn; cbn [fold_left]; [by rewrite app_nil_r |].
  assert (Hx : set_has set x = false).
  { apply not_true_iff_false. rewrite set_has_spec. intros Hx. apply NoDup_app in Hn as (_ & Hd & _). apply (Hd x Hx). by left. }
  unfold set_add at 2. rewrite Hx, IH, <- app_assoc; [done |]. by rewrite <- app_assoc.
Qed.

(** ** The reference *)

(** What is a duplicate after the votes [before]. *)
Definition repeats (before : list (string * string)) (vote : string * string) : DuplicateCheckResult :=
  if bool_decide (vote.1 ∈ map fst before) then Some dup_voteId
  else if bool_decide (vote.2 ∈ map snd before) then Some dup_commitment else None.

(** The answers for a sequence of votes. *)
Fixpoint answers (before votes : list (string * string)) : list DuplicateCheckResult :=
  match votes with
  | [] => []
  | vote :: rest => repeats before vote :: answers (before ++ [vote]) rest
  end.

(** The answers that report a duplicate, with the identifier of the vote. *)
Definition reported (votes : list (string * string)) (found : list DuplicateCheckResult) : list (string * DuplicateType) :=
  mjoin (zip_with (fun vote answer => match answer with Some type => [(vote.1, type)] | None => [] end) votes found).

Definition count_of (type : DuplicateType) (found : list (string * DuplicateType)) : Z :=
  zlength (List.filter (fun e => match e.2, type with
                                 | dup_voteId, dup_voteId | dup_commitment, dup_commitment => true | _, _ => false end) found).

(** The sets hold what was seen, each once. *)
Record seen (d : Detector) (before : list (string * string)) : Prop := {
  sn_ids : forall x, x ∈ voteIdSet d <-> x ∈ map fst before;
  sn_commitments : forall x, x ∈ commitmentSet d <-> x ∈ map snd before;
  sn_ids_once : NoDup (voteIdSet d);
  sn_commitments_once : NoDup (commitmentSet d);
}.

Lemma seen_new : seen new [].
Proof. split; try done; constructor. Qed.

Lemma has_seen (set l : list string) value : (forall x, x ∈ set <-> x ∈ l) -> set_has set value = bool_decide (value ∈ l).
Proof. intros Hs. apply eq_true_iff_eq. by rewrite set_has_spec, bool_decide_eq_true. Qed.

Lemma add_seen (set : list string) before (f : string * string -> string) vote : (forall x, x ∈ set <-> x ∈ map f before) ->
  forall x, x ∈ set_add set (f vote) <-> x ∈ map f (before ++ [vote]).
Proof. intros Hs x. rewrite set_add_elem, Hs, map_app, elem_of_app. cbn [map]. by rewrite list_elem_of_singleton. Qed.

Lemma known_seen (set : list string) before (f : string * string -> string) vote : (forall x, x ∈ set <-> x ∈ map f before) ->
  f vote ∈ map f before -> forall x, x ∈ set <-> x ∈ map f (before ++ [vote]).
Proof. intros Hs Hv x. rewrite Hs, map_app, elem_of_app. cbn [map]. rewrite list_elem_of_singleton. split; [by left | by intros [? | ->]]. Qed.

Lemma check_spec d before vote : seen d before ->
  (checkDuplicate vote.1 vote.2 d).1 = repeats before vote /\ seen (checkDuplicate vote.1 vote.2 d).2 (before ++ [vote]).
Proof.
  intros [Hi Hc Hni Hnc]. unfold checkDuplicate, repeats.
  rewrite (has_seen _ _ vote.1 Hi), (has_seen _ _ vote.2 Hc).
  destruct (bool_decide (vote.1 ∈ map fst before)) eqn:Ei.
  - apply bool_decide_eq_true in Ei. split; [done |]. split; cbn; [by apply known_seen | | done |].
    + destruct (bool_decide (vote.2 ∈ map snd before)) eqn:Ec; cbn; [apply bool_decide_eq_true in Ec; by apply known_seen | by apply add_seen].
    + destruct (negb _); [by apply set_add_NoDup | done].
  - destruct (bool_decide (vote.2 ∈ map snd before)) eqn:Ec; (split; [done |]); split; cbn;
      try (by apply add_seen); try (by apply set_add_NoDup); try done.
    apply bool_decide_eq_true in Ec. by apply known_seen.
Qed.

Lemma batch_spec votes : forall before found d, seen d before ->
  (batch_loop votes found d).1 = found ++ reported votes (answers before votes) /\
  seen (batch_loop votes found d).2 (before ++ votes).
Proof.
  induction votes as [| vote votes IH]; intros before found d Hd; cbn [batch_loop answers].
  - by rewrite !app_nil_r.
  - destruct (check_spec d before vote Hd) as [-> Hs].
    destruct (IH (before ++ [vote]) (match repeats before vote with Some type => found ++ [(vote.1, type)] | None => found end) _ Hs)
      as [-> Hs'].
    rewrite <- app_assoc in Hs'. split; [| exact Hs']. unfold reported. cbn.
    destruct (repeats before vote); by rewrite <- ?app_assoc.
Qed.

(** The counters. *)
Record counted (d : Detector) (checks : Z) (found : list (string * DuplicateType)) : Prop := {
  ct_checks : totalChecks d = checks;
  ct_ids : duplicateVoteIdCount d = count_of dup_voteId found;
  ct_commitments : duplicateCommitmentCount d = count_of dup_commitment found;
  ct_unique : zlength (voteIdSet d) + duplicateVoteIdCount d = checks;
}.

Lemma counted_new : counted new 0 [].
Proof. by split. Qed.

Lemma count_app type found more : count_of type (found ++ more) = count_of type found + count_of type more.
Proof. unfold count_of. by rewrite List.filter_app, zlength_app. Qed.

Lemma count_one type x type' : count_of type [(x, type')] =
  match type', type with dup_voteId, dup_voteId | dup_commitment, dup_commitment => 1 | _, _ => 0 end.
Proof. by destruct type, type'. Qed.

Lemma count_check d checks found vote : counted d checks found ->
  counted (checkDuplicate vote.1 vote.2 d).2 (checks + 1)
    (match (checkDuplicate vote.1 vote.2 d).1 with Some type => found ++ [(vote.1, type)] | None => found end).
Proof.
  intros [Ht Hi Hc Hu]. unfold checkDuplicate. destruct (set_has (voteIdSet d) vote.1) eqn:Ei;
    [| destruct (set_has (commitmentSet d) vote.2)];
    split; cbn [fst snd totalChecks duplicateVoteIdCount duplicateCommitmentCount voteIdSet];
    rewrite ?count_app, ?count_one, ?set_add_length, ?Ei; lia.
Qed.

Lemma count_batch votes : forall found d checks, counted d checks found ->
  counted (batch_loop votes found d).2 (checks + zlength votes) (batch_loop votes found d).1.
Proof.
  induction votes as [| vote votes IH]; intros found d checks Hd; cbn [batch_loop].
  - unfold zlength. cbn [length]. by rewrite Z.add_0_r.
  - replace (checks + zlength (vote :: votes)) with (checks + 1 + zlength votes) by (unfold zlength; cbn [length]; lia).
    by apply IH, count_check.
Qed.

Lemma count_from before found d checks : counted d checks before ->
  forall votes, exists more, (batch_loop votes found d).1 = found ++ more /\
    counted (batch_loop votes found d).2 (checks + zlength votes) (before ++ more).
Proof.
  intros Hd votes. revert found d before checks Hd. induction votes as [| vote votes IH]; intros found d before checks Hd.
  - exists []. rewrite !app_nil_r. unfold zlength. cbn [length batch_loop]. by rewrite Z.add_0_r.
  - cbn [batch_loop]. assert (Hc := count_check d checks before vote Hd).
    destruct (checkDuplicate vote.1 vote.2 d) as [[type |] d'] eqn:E; cbn [fst snd] in *;
      destruct (IH (match (checkDuplicate vote.1 vote.2 d).1 with Some t => found ++ [(vote.1, t)] | None => found end) d' _ _ Hc)
        as (more & E1 & E2); rewrite E in E1, E2; cbn [fst] in E1, E2; rewrite E1.
    + exists ((vote.1, type) :: more). rewrite <- !app_assoc in *. split; [done |].
      by replace (checks + zlength (vote :: votes)) with (checks + 1 + zlength votes) by (unfold zlength; cbn [length]; lia).
    + exists more. split; [done |].
      by replace (checks + zlength (vote :: votes)) with (checks + 1 + zlength votes) by (unfold zlength; cbn [length]; lia).
Qed.

(** The detector reports exactly the votes whose identifier, or else whose
    commitment, came before, in this batch or in an earlier one; its counters
    add up; and a detector that is exported and imported elsewhere gives the
    same answers to every later batch. *)
Theorem duplicates_reported before votes other :
  let d := (checkBatch before new).2 in
  let checked := checkBatch votes d in
  let stats := getStatistics checked.2 in
  duplicates checked.1 = reported votes (answers before votes) /\
  uniqueCount checked.1 + duplicateCount checked.1 = zlength votes /\
  st_totalChecks stats = zlength before + zlength votes /\
  st_uniqueVoteIds stats + st_duplicateVoteIds stats = st_totalChecks stats /\
  st_duplicateVoteIds stats + st_duplicateCommitments stats =
    zlength (reported before (answers [] before)) + duplicateCount checked.1 /\
  (checkBatch votes (importState (exportState d) other)).1 = checked.1.
Proof.
  intros d checked stats. destruct (batch_spec before [] [] new seen_new) as [Eb Hb]. cbn [app] in Eb, Hb.
  assert (Hd : seen d before) by exact Hb. destruct (batch_spec votes before [] d Hd) as [Ev _]. cbn [app] in Ev.
  assert (Hcb := count_batch before [] new 0 counted_new). rewrite Eb, Z.add_0_l in Hcb.
  destruct (count_from _ [] d _ Hcb votes) as (more & Em & [Ht Hi Hc Hu]). cbn [app] in Em.
  assert (Ec : (batch_loop votes [] d).1 = more) by exact Em.
  split; [exact Ev |]. split; [cbn; lia |]. split; [exact Ht |]. split; [exact (eq_trans Hu (eq_sym Ht)) |].
  split.
  - cbn [getStatistics st_duplicateVoteIds st_duplicateCommitments]. unfold stats, checked, checkBatch.
    cbn [fst snd duplicateCount getStatistics st_duplicateVoteIds st_duplicateCommitments]. rewrite Hi, Hc, Ec, !count_app.
    assert (Hsum : forall l : list (string * DuplicateType), count_of dup_voteId l + count_of dup_commitment l = zlength l).
    { unfold count_of, zlength. induction l as [| [x []] l IH]; cbn; lia. }
    specialize (Hsum (reported before (answers [] before))) as H1. specialize (Hsum more) as H2. lia.
  - assert (Hs : seen (importState (exportState d) other) before).
    { destruct Hd as [H1 H2 H3 H4]. split; cbn; rewrite import_same by done; done. }
    destruct (batch_spec votes before [] _ Hs) as [Es _]. unfold checked, checkBatch. cbn [fst]. by rewrite Es, Ev.
Qed.

(** ** Witness data *)

Example repeated_votes :
  duplicates (checkBatch [("a", "1"); ("b", "1"); ("b", "2"); ("c", "2")]%string new).1 =
  [("b", dup_commitment); ("b", dup_voteId); ("c", dup_commitment)]%string.
Proof. reflexivity. Qed.
