(* ===== verification/HostSamples.v ===== *)
(** Sample journals, inputs and bitmap artifacts: the hypotheses of the theorems
    of Journal.v, HostIoProofs.v, SchemaProofs.v and PublicInput.v hold on them. *)
From S2P Require Import Prelude.
From S2P Require Import JsNumber.
From S2P Require Import JsValue.
From S2P Require Import Hex.
From S2P Require Import MerkleSpec.
From S2P Require Import Reference.
From S2P Require Import Bitmap.
From S2P Require Import BitmapFacts.
From S2P Require Import Contract.
From S2P Require Import Evidence.
From S2P Require Import Journal.
From S2P Require Import HostIo.
From S2P Require Import HostIoProofs.
From S2P Require Import Schema.
From S2P Require Import SchemaProofs.
From S2P Require Import PublicInput.
Import JsValue.
Import Evidence.
Import Journal.
Import HostIo.
Import Reference.

Definition hash_text (digits : string) : string := ("0x" +:+ digits +:+ digits +:+ digits +:+ digits)%string.

(** Three slots: two votes counted, one presented and rejected. *)
Definition sample_journal : ZkVMJournal :=
  mkJournal "01234567-89ab-4def-8123-456789abcdef" (hash_text "0123456789abcdef")
    (hash_text "1123456789abcdef") (NInt 3) (NInt 3) (hash_text "2123456789abcdef")
    (map NInt [1; 0; 1; 0; 0]) (NInt 3) (NInt 2) (NInt 1) (NInt 3) (NInt 0) (NInt 1) (NInt 1)
    (Some (hash_text "3123456789abcdef")) (hash_text "4123456789abcdef") (NInt 1)
    (hash_text "5123456789abcdef") (NInt 14) (Some (hash_text "6123456789abcdef")).

(** The same journal as the host prints it: no prefixes, upper-case digits. *)
Definition host_text (digits : string) : jsval := JStr (digits +:+ digits +:+ digits +:+ digits)%string.

Definition sample_output : jsval :=
  JObj [("electionId", JStr "0123456789AB4DEF8123456789ABCDEF");
        ("electionConfigHash", host_text "0123456789ABCDEF"); ("bulletinRoot", host_text "1123456789abcdef");
        ("treeSize", JNum (NInt 3)); ("totalExpected", JNum (NInt 3));
        ("sthDigest", host_text "2123456789abcdef");
        ("verifiedTally", JArr (map (fun z => JNum (NInt z)) [1; 0; 1; 0; 0]));
        ("totalVotes", JNum (NInt 3)); ("validVotes", JNum (NInt 2)); ("invalidVotes", JNum (NInt 1));
        ("seenIndicesCount", JNum (NInt 3)); ("missingSlots", JNum (NInt 0));
        ("invalidPresentedSlots", JNum (NInt 1)); ("rejectedRecords", JNum (NInt 1));
        ("seenBitmapRoot", host_text "3123456789abcdef"); ("includedBitmapRoot", host_text "4123456789abcdef");
        ("excludedSlots", JNum (NInt 1)); ("inputCommitment", host_text "5123456789abcdef");
        ("methodVersion", JNum (NInt 14)); ("imageId", host_text "6123456789abcdef")]%string.

Example sample_output_parsed : parseHostZkVMOutput sample_output = Ok sample_journal.
Proof. vm_compute. reflexivity. Qed.

Lemma supported_journal_balances_witness :
  reads_journal (journal_value sample_journal) (read_journal (journal_value sample_journal)).
Proof. apply (supported_journal_balances (journal_value sample_journal)). vm_compute. reflexivity. Defined.

Lemma host_output_stable_witness : toPublicZkvmJournal sample_journal = Ok sample_journal.
Proof. apply (host_output_stable sample_output). vm_compute. reflexivity. Defined.

(** An unbalanced journal is refused: one slot is neither counted nor excluded. *)
Example unbalanced_journal_refused :
  isSupportedZkVMJournal
    (match journal_value sample_journal with
     | JObj l => JObj (map (fun kv => if String.eqb kv.1 "treeSize" then (kv.1, JNum (NInt 4)) else kv) l)
     | v => v
     end) = false.
Proof. vm_compute. reflexivity. Qed.

Definition sample_vote : Contract.VoteWithProof :=
  Contract.mkVoteWithProof (hash_text "a123456789abcdef") (NInt 7) (hash_text "b123456789abcdef") (NInt 0)
    [hash_text "c123456789abcdef"].

Definition sample_input : Contract.ZkVMInput :=
  Contract.mkZkVMInput "01234567-89ab-4def-8123-456789abcdef" (hash_text "1123456789abcdef") (NInt 1)
    (hash_text "d123456789abcdef") (NInt 1700000000000) (NInt 1) (hash_text "0123456789abcdef") [sample_vote].

(** A choice outside the ballot fits the wire: the guest decides about it. *)
Example sample_input_written : is_ok (serializeZkvmAggregatorInput sample_input).
Proof. vm_compute. exact I. Qed.

Definition sample_bits : list bool := [true; false; true].

Definition sample_artifact : BitmapArtifact :=
  mkArtifact (NInt 3) ("0x" +:+ bytesToHex (MTH (bitmap_chunks sample_bits)))%string sample_bits.

Lemma bitmap_artifact_binding_witness :
  parseBitmapArtifact included_bitmap (artifact_value included_bitmap sample_artifact) =
  Ok (Some sample_artifact).
Proof.
  apply (proj2 (bitmap_artifact_binding included_bitmap) sample_bits (artifact_root sample_artifact) (NInt 3)).
  vm_compute. reflexivity.
Defined.

(** * Public inputs *)

(** Sample public inputs and schemas: the hypotheses of the theorems of
    SchemaProofs.v and PublicInput.v hold on them. *)
Import JsValue.
Import Evidence.
Import PublicInput.
Import Reference.

(** ** A close statement, with a key that its schema does not name *)

Definition sample_close : jsval :=
  JObj [("logId", JStr (hash_text "0123456789abcdef")); ("treeSize", JNum (NInt 3));
        ("timestamp", JNum (NInt 1700000000000)); ("bulletinRoot", JStr (hash_text "1123456789abcdef"));
        ("sthDigest", JStr (hash_text "2123456789abcdef"))]%string.

Definition sample_close_extra : jsval :=
  match sample_close with JObj l => JObj (l ++ [("comment"%string, JStr "none")]) | v => v end.

Lemma schema_parse_sound_witness :
  conforms closeStatementArtifactSchema sample_close /\
  match Schema.parseInternal closeStatementArtifactSchema sample_close_extra [] with
  | Schema.Success w => False
  | Schema.Failure issues => issues <> [] /\ Forall (fun i => [] `prefix_of` Schema.issue_path i) issues
  end.
Proof.
  split.
  - assert (Hs := schema_parse_sound closeStatementArtifactSchema sample_close [] close_schema_ok).
    destruct (Schema.parseInternal _ _ _) as [w |] eqn:E in Hs; [| vm_compute in E; discriminate E].
    assert (Hw : Schema.parseInternal closeStatementArtifactSchema sample_close [] = Schema.Success sample_close)
      by (vm_compute; reflexivity).
    assert (Ew : w = sample_close) by congruence. rewrite Ew in Hs. exact Hs.
  - assert (Hs := schema_parse_sound closeStatementArtifactSchema sample_close_extra [] close_schema_ok).
    destruct (Schema.parseInternal _ _ _) as [w | issues] eqn:E in Hs |- *; [vm_compute in E; discriminate E | exact Hs].
Defined.

Lemma schema_parse_stable_witness :
  Schema.parseInternal closeStatementArtifactSchema sample_close [Schema.key "closeStatement"] =
  Schema.Success sample_close.
Proof.
  apply (schema_parse_stable closeStatementArtifactSchema sample_close [] sample_close).
  - exact close_schema_ok.
  - repeat split; exact I.
  - vm_compute. reflexivity.
Defined.

(** ** A guest input with two votes *)

Definition sample_guest_vote (i : Z) (c p : string) : Contract.VoteWithProof :=
  Contract.mkVoteWithProof (hash_text c) (NInt 1) (hash_text "7123456789abcdef") (NInt i) [hash_text p].

Definition sample_guest_input : Contract.ZkVMInput :=
  Contract.mkZkVMInput "01234567-89ab-4def-8123-456789abcdef" (hash_text "ABCDEF0123456789") (NInt 2)
    (hash_text "0123456789abcdef") (NInt 1700000000000) (NInt 3) (hash_text "6123456789abcdef")
    [sample_guest_vote 0 "1123456789abcdef" "2123456789abcdef"; sample_guest_vote 1 "3123456789abcdef" "4123456789abcdef"].

Definition sample_document : jsval := record_value (buildPublicInputArtifactFromZkvmInput sample_guest_input (NInt 14)).
Definition sample_provenance : PublicInputArtifactProvenance := mkProvenance (Some bundle) (Some "f-1"%string) None.

Definition sample_supported : option SupportedPublicInputArtifact :=
  parseSupportedPublicInputArtifact sample_document sample_provenance.

Example sample_supported_ok : is_some sample_supported = true.
Proof. vm_compute. reflexivity. Qed.

Lemma supported_authority_commits_witness :
  exists s, sample_supported = Some s /\
    document_fields sample_document (sp_typedAuthority s) /\
    exists votes parsed, getArrayProperty sample_document "votes" = Some votes /\ admitted_votes votes parsed /\
      Contract.computeInputCommitmentFromPublicInput (public_input_of (sp_typedAuthority s) parsed) =
        Ok (pa_recomputedInputCommitment (sp_typedAuthority s)).
Proof.
  assert (Hok : is_some sample_supported = true) by (vm_compute; reflexivity).
  destruct sample_supported as [s |] eqn:E; [| discriminate Hok].
  destruct (supported_authority_commits sample_document sample_provenance s E) as (Hd & votes & parsed & Hv & Hp & Hc & _).
  exact (ex_intro _ s (conj eq_refl (conj Hd (ex_intro _ votes (ex_intro _ parsed (conj Hv (conj Hp Hc))))))).
Defined.

Lemma generated_input_commits_witness :
  exists s, buildSupportedPublicInputArtifactFromZkvmInput sample_guest_input (NInt 14) None None = Ok s /\
    Contract.computeInputCommitment sample_guest_input = Ok (pa_recomputedInputCommitment (sp_typedAuthority s)).
Proof.
  assert (Hok : is_ok (buildSupportedPublicInputArtifactFromZkvmInput sample_guest_input (NInt 14) None None))
    by (vm_compute; exact I).
  destruct (buildSupportedPublicInputArtifactFromZkvmInput sample_guest_input (NInt 14) None None) as [s |] eqn:E;
    [| destruct Hok].
  destruct (generated_input_commits sample_guest_input (NInt 14) None None s E) as (Hc & _).
  exact (ex_intro _ s (conj eq_refl Hc)).
Defined.

Lemma stored_public_input_round_trip_witness :
  exists s, sample_supported = Some s /\ parseStoredPublicInputArtifact (supported_value s) = Some s.
Proof.
  assert (Hok : is_some sample_supported = true) by (vm_compute; reflexivity).
  destruct sample_supported as [s |] eqn:E; [| discriminate Hok].
  assert (H := stored_public_input_round_trip sample_document sample_provenance s eq_refl eq_refl E).
  exact (ex_intro _ s (conj eq_refl H)).
Defined.
