(* ===== verification/FailClosed.v ===== *)
(** The status a verification may still claim
    (packages/verification/src/verification/fail-closed-status.ts): a terminal
    success is downgraded when the counts, the tree size or the image
    identifiers contradict it, on a typed result and on a payload of unknown
    shape. *)
From S2P Require Import Prelude.
From S2P Require Import JsNumber.
From S2P Require Import JsValue.
From S2P Require Import Hex.
From S2P Require Import Contract.
From S2P Require Import LocalCast.
From S2P Require Import Evidence.
From S2P Require Import Verifiers.
From S2P Require Import Journal.
From S2P Require Import HostSamples.
Import JsValue.
Import LocalCast.
Import Evidence.
Import Verifiers.
Import Journal.

Module FailClosed.

(** [counts] in the order of [VOTE_CHOICES]. *)
Record FinalizationTallyStatusCarrier := mkTallyCarrier {
  tc_counts : list num;
  tc_totalVotes : num;
  tc_tamperedCount : num;
}.

(** The two fields of a report that are compared. *)
Record ReportImageIds := mkReportIds {
  ri_expected_image_id : option string;
  ri_receipt_image_id : receipt_id;
}.

Record FailClosedVerificationStatusInput := mkFailClosed {
  fc_currentStatus : option VerificationStatus;
  fc_tally : option FinalizationTallyStatusCarrier;
  fc_verifiedTally : option (list num);
  fc_journal : option ZkVMJournal;
  fc_missingSlots : option num;
  fc_invalidPresentedSlots : option num;
  fc_excludedSlots : option num;
  fc_totalExpected : option num;
  fc_treeSize : option num;
  fc_journalHasLegacyCountAliases : bool;
  fc_journalAdmissionFailed : bool;
  fc_claimedImageId : option string;
  fc_comparisonImageId : option string;
  fc_verificationReport : option ReportImageIds;
}.

Definition TERMINAL_SUCCESS_STATUSES : list VerificationStatus := [vs_success; vs_dev_mode].

Fixpoint assoc_text {A} (l : list (string * A)) (key : string) : option A :=
  match l with
  | [] => None
  | (k, v) :: rest => if String.eqb k key then Some v else assoc_text rest key
  end.

Definition toVerificationStatus (value : option string) : option VerificationStatus :=
  match value with Some s => assoc_text VERIFICATION_STATUS_VALUES s | None => None end.

Definition hasCountedExclusions (input : FailClosedVerificationStatusInput) : bool :=
  if fc_journalHasLegacyCountAliases input || fc_journalAdmissionFailed input then true
  else
    match resolveExcludedCount
            (mkExcludedInput ((fun j => Some (j_excludedSlots j)) <$> fc_journal input) (fc_missingSlots input)
               (fc_invalidPresentedSlots input) (fc_excludedSlots input) false) with
    | Some n => num_ltb (NInt 0) n
    | None => false
    end.

Definition hasTreeSizeMismatch (input : FailClosedVerificationStatusInput) : bool :=
  let totalExpected := match fc_journal input with
                       | Some j => Some (j_totalExpected j) | None => fc_totalExpected input end in
  let treeSize := match fc_journal input with Some j => Some (j_treeSize j) | None => fc_treeSize input end in
  match totalExpected, treeSize with
  | Some e, Some s => isInteger e && isInteger s && negb (num_eqb e s)
  | _, _ => false
  end.

Definition nonemptyImageId (value : option string) : option string := nonempty value.

(** [claimed && normalizeHexString(claimed) !== receipt] *)
Definition differs (value : option string) (normalizedReceipt : string) : bool :=
  match value with
  | Some s => str_truthy s && negb (String.eqb (normalizeHexString s) normalizedReceipt)
  | None => false
  end.

Definition hasClaimedOrComparisonMismatch (normalizedReceipt : string)
    (claimedImageId comparisonImageId : option string) : bool :=
  differs claimedImageId normalizedReceipt || differs comparisonImageId normalizedReceipt.

Definition hasReportImageIdMismatch (report : option ReportImageIds)
    (claimedImageId comparisonImageId : option string) : bool :=
  match report ≫= ri_expected_image_id, ri_receipt_image_id <$> report with
  | Some expected, Some rid_null => true
  | Some expected, Some (rid_text receipt) =>
      if negb (str_truthy receipt) then true
      else
        let normalizedReceipt := normalizeHexString receipt in
        if negb (String.eqb (normalizeHexString expected) normalizedReceipt) then true
        else hasClaimedOrComparisonMismatch normalizedReceipt claimedImageId comparisonImageId
  | _, _ => false
  end.

Definition hasImageIdMismatch (input : FailClosedVerificationStatusInput) : bool :=
  let claimedImageId := nonemptyImageId (fc_claimedImageId input) in
  let comparisonImageId := nonemptyImageId (fc_comparisonImageId input) in
  match claimedImageId, comparisonImageId with
  | Some claimed, Some comparison =>
      if negb (String.eqb (normalizeHexString claimed) (normalizeHexString comparison)) then true
      else hasReportImageIdMismatch (fc_verificationReport input) claimedImageId comparisonImageId
  | _, _ => hasReportImageIdMismatch (fc_verificationReport input) claimedImageId comparisonImageId
  end.

(** Counted exclusions, tree size mismatch, image identifier mismatch. *)
Definition resolveFailClosedReasons (input : FailClosedVerificationStatusInput) : bool * bool * bool :=
  (hasCountedExclusions input, hasTreeSizeMismatch input, hasImageIdMismatch input).

Definition resolveFailClosedVerificationStatus (input : FailClosedVerificationStatusInput) :
    option VerificationStatus :=
  match fc_currentStatus input with
  | None => None
  | Some currentStatus =>
      if negb (bool_decide (currentStatus ∈ TERMINAL_SUCCESS_STATUSES)) then Some currentStatus
      else
        let '(countedExclusions, treeSizeMismatch, imageIdMismatch) := resolveFailClosedReasons input in
        if countedExclusions || treeSizeMismatch || imageIdMismatch then Some vs_failed
        else Some currentStatus
  end.

(** ** A typed finalization result *)

Record VerificationResult := mkVerificationResult {
  vres_status : VerificationStatus;
  vres_report : option VerificationReportEvidence;
  vres_failureCategory : option VerificationFailureCategory;
}.

(** [c_journalKeys]: the own properties the journal object has beside those of
    its type. *)
Record FinalizationResultStatusCarrier := mkCarrier {
  c_tally : FinalizationTallyStatusCarrier;
  c_imageId : string;
  c_journal : ZkVMJournal;
  c_journalKeys : list string;
  c_verificationResult : option VerificationResult;
  c_verifiedTally : option (list num);
  c_missingSlots : option num;
  c_invalidPresentedSlots : option num;
  c_excludedSlots : option num;
  c_totalExpected : option num;
  c_treeSize : option num;
}.

Definition journal_object (j : ZkVMJournal) (extra : list string) : jsval :=
  match journal_value j with
  | JObj properties => JObj (properties ++ map (fun key => (key, JUndefined)) extra)
  | v => v
  end.

Definition report_ids (r : VerificationReportEvidence) : ReportImageIds :=
  mkReportIds (report_expected r) (report_receipt r).

Definition result_status_input (r : FinalizationResultStatusCarrier) (v : VerificationResult) :
    FailClosedVerificationStatusInput :=
  mkFailClosed (Some (vres_status v)) (Some (c_tally r)) (c_verifiedTally r) (Some (c_journal r))
    (c_missingSlots r) (c_invalidPresentedSlots r) (c_excludedSlots r) (c_totalExpected r) (c_treeSize r)
    (hasLegacyJournalCountAliases (journal_object (c_journal r) (c_journalKeys r))) false
    (Some (c_imageId r)) (j_imageId (c_journal r)) (report_ids <$> vres_report v).

Definition set_verification_result (r : FinalizationResultStatusCarrier) (v : VerificationResult) :
    FinalizationResultStatusCarrier :=
  mkCarrier (c_tally r) (c_imageId r) (c_journal r) (c_journalKeys r) (Some v) (c_verifiedTally r)
    (c_missingSlots r) (c_invalidPresentedSlots r) (c_excludedSlots r) (c_totalExpected r) (c_treeSize r).

Definition sanitizeFinalizationResultVerificationStatus (result : option FinalizationResultStatusCarrier) :
    option FinalizationResultStatusCarrier :=
  match result with
  | None => None
  | Some r =>
      match c_verificationResult r with
      | None => Some r
      | Some v =>
          match resolveFailClosedVerificationStatus (result_status_input r v) with
          | None => Some r
          | Some nextStatus =>
              if bool_decide (vres_status v = nextStatus) then Some r
              else Some (set_verification_result r (mkVerificationResult vs_failed None None))
          end
      end
  end.

(** ** A payload of unknown shape *)

(** [{ ...value, [key]: v }]: a property that exists keeps its place. *)
Fixpoint set_own (properties : list (string * jsval)) (key : string) (v : jsval) : list (string * jsval) :=
  match properties with
  | [] => [(key, v)]
  | (k, w) :: rest => if String.eqb k key then (k, v) :: rest else (k, w) :: set_own rest key v
  end.

Definition set_prop (value : jsval) (key : string) (v : jsval) : jsval :=
  match value with JObj properties => JObj (set_own properties key v) | _ => value end.

Definition parseTallyFromRecord (payload : jsval) : option FinalizationTallyStatusCarrier :=
  match getObjectProperty payload "tally" with
  | None => None
  | Some tally =>
      match getObjectProperty tally "counts" with
      | None => None
      | Some counts =>
          match getNumberProperty tally "totalVotes", getNumberProperty tally "tamperedCount" with
          | Some totalVotes, Some tamperedCount =>
              Some (mkTallyCarrier
                      (map (fun choice => default (NInt 0) (getNumberProperty counts choice)) VOTE_CHOICES)
                      totalVotes tamperedCount)
          | _, _ => None
          end
      end
  end.

(** [nestedReport ?? topLevelReport]; a missing [verificationResult] has no report. *)
Definition parseVerificationReportFromRecord (payload : jsval) (verificationResult : option jsval) :
    option ReportImageIds :=
  let nestedReport := verificationResult ≫= fun v => getObjectProperty v "report" in
  match match nestedReport with Some r => Some r | None => getObjectProperty payload "verificationReport" end with
  | None => None
  | Some report =>
      Some (mkReportIds (getStringProperty report "expected_image_id")
              (match prop report "receipt_image_id" with
               | JNull => rid_null
               | JStr s => rid_text s
               | _ => rid_absent
               end))
  end.

Definition status_text (s : VerificationStatus) : string :=
  match s with
  | vs_success => "success" | vs_failed => "failed" | vs_dev_mode => "dev_mode"
  | vs_not_run => "not_run" | vs_running => "running"
  end.

(** The input of the decision, read from the payload. *)
Definition payload_status_input (payload : jsval) (currentStatus : VerificationStatus) :
    FailClosedVerificationStatusInput :=
  let verificationResult := getObjectProperty payload "verificationResult" in
  let journalCandidate := getObjectProperty payload "journal" in
  let journal := match journalCandidate with
                 | Some v => if isSupportedZkVMJournal v then Some (read_journal v) else None
                 | None => None
                 end in
  mkFailClosed (Some currentStatus) (parseTallyFromRecord payload)
    (getNumberArrayProperty payload "verifiedTally") journal
    (getNumberProperty payload "missingSlots") (getNumberProperty payload "invalidPresentedSlots")
    (getNumberProperty payload "excludedSlots") (getNumberProperty payload "totalExpected")
    (getNumberProperty payload "treeSize")
    (match journalCandidate with Some v => hasLegacyJournalCountAliases v | None => false end)
    (is_some journalCandidate && negb (is_some journal))
    (getStringProperty payload "imageId") (journal ≫= j_imageId)
    (parseVerificationReportFromRecord payload verificationResult).

Definition top_status (payload : jsval) : option VerificationStatus :=
  toVerificationStatus (getStringProperty payload "verificationStatus").
Definition nested_status (payload : jsval) : option VerificationStatus :=
  toVerificationStatus (getObjectProperty payload "verificationResult" ≫= fun v => getStringProperty v "status").

Definition current_status (payload : jsval) : option VerificationStatus :=
  match top_status payload with Some s => Some s | None => nested_status payload end.

(** [current && current !== next] *)
Definition must_change (current : option VerificationStatus) (nextStatus : VerificationStatus) : bool :=
  match current with Some s => negb (bool_decide (s = nextStatus)) | None => false end.

Definition sanitizeFinalizationPayloadVerificationStatus (payload : jsval) : jsval :=
  match current_status payload with
  | None => payload
  | Some currentStatus =>
      match resolveFailClosedVerificationStatus (payload_status_input payload currentStatus) with
      | None => payload
      | Some nextStatus =>
          let next := if must_change (top_status payload) nextStatus
                      then set_prop payload "verificationStatus" (JStr (status_text nextStatus)) else payload in
          match getObjectProperty payload "verificationResult" with
          | Some verificationResult =>
              if must_change (nested_status payload) nextStatus
              then set_prop next "verificationResult"
                     (set_prop verificationResult "status" (JStr (status_text nextStatus)))
              else next
          | None => next
          end
      end
  end.

End FailClosed.

(** * A verification only keeps its success when nothing contradicts it. *)
Import FailClosed.

(** ** The decision *)

Definition no_reason (input : FailClosedVerificationStatusInput) : Prop :=
  resolveFailClosedReasons input = (false, false, false).

Lemma resolve_success input s : s ∈ TERMINAL_SUCCESS_STATUSES ->
  resolveFailClosedVerificationStatus input = Some s -> fc_currentStatus input = Some s /\ no_reason input.
Proof.
  assert (Hf : vs_failed ∉ TERMINAL_SUCCESS_STATUSES) by (by apply (bool_decide_eq_false_1 _)).
  unfold resolveFailClosedVerificationStatus, no_reason. intros Hs.
  destruct (fc_currentStatus input) as [c |]; [| done].
  case_bool_decide as Hc; cbn [negb]; [| intros [= ->]; done].
  destruct (resolveFailClosedReasons input) as [[[] []] []]; cbn [orb]; intros [= <-]; done.
Qed.

Lemma resolve_cases input c : fc_currentStatus input = Some c ->
  resolveFailClosedVerificationStatus input = Some c \/
  resolveFailClosedVerificationStatus input = Some vs_failed.
Proof.
  unfold resolveFailClosedVerificationStatus. intros ->. case_bool_decide; cbn [negb]; [| by left].
  destruct (resolveFailClosedReasons input) as [[a b] d]. destruct (a || b || d); [by right | by left].
Qed.

Lemma resolve_failed_stays input : fc_currentStatus input = Some vs_failed ->
  resolveFailClosedVerificationStatus input = Some vs_failed.
Proof. intros H. destruct (resolve_cases _ _ H); done. Qed.

(** ** Reading a payload after it was written *)

Lemma own_set properties key v k :
  own (set_own properties key v) k = if String.eqb key k then Some v else own properties k.
Proof.
  induction properties as [| [k0 w] rest IH]; cbn [set_own own].
  - done.
  - destruct (String.eqb_spec k0 key) as [-> |]; cbn [own].
    + by destruct (String.eqb key k).
    + rewrite IH. destruct (String.eqb_spec k0 k) as [-> |]; [| done].
      destruct (String.eqb_spec key k); congruence.
Qed.

Definition is_obj (v : jsval) : bool := match v with JObj _ => true | _ => false end.

Lemma prop_set v key w k : is_obj v = true ->
  prop (set_prop v key w) k = if String.eqb key k then w else prop v k.
Proof.
  destruct v as [| | | | | | | properties]; try done. intros _. cbn [set_prop prop]. rewrite own_set.
  by destruct (String.eqb key k).
Qed.

Lemma set_is_obj v key w : is_obj (set_prop v key w) = is_obj v.
Proof. by destruct v. Qed.

Lemma own_set_same properties key v : own properties key = Some v -> set_own properties key v = properties.
Proof.
  induction properties as [| [k w] rest IH]; cbn [own set_own]; [done |].
  destruct (String.eqb_spec k key) as [-> |]; [by intros [= ->] |]. intros H. by rewrite IH.
Qed.

Lemma set_other_prop v key w k : is_obj v = true -> key <> k -> prop (set_prop v key w) k = prop v k.
Proof. intros Hv Hk. rewrite prop_set by done. by destruct (String.eqb_spec key k). Qed.

Lemma set_same_prop v key w : is_obj v = true -> prop (set_prop v key w) key = w.
Proof. intros Hv. rewrite prop_set by done. by rewrite String.eqb_refl. Qed.

Lemma status_text_read s : toVerificationStatus (Some (status_text s)) = Some s.
Proof. by destruct s. Qed.

Lemma text_is_obj v key s : getStringProperty v key = Some s -> is_obj v = true.
Proof. by destruct v. Qed.

Lemma top_is_obj v s : top_status v = Some s -> is_obj v = true.
Proof.
  unfold top_status. destruct (getStringProperty v "verificationStatus") eqn:E; [| done].
  intros _. by eapply text_is_obj.
Qed.

Lemma nested_is_obj v s : nested_status v = Some s ->
  exists r, getObjectProperty v "verificationResult" = Some r /\ is_obj r = true /\ is_obj v = true.
Proof.
  unfold nested_status. destruct (getObjectProperty v "verificationResult") as [r |] eqn:E; [| done].
  cbn [mbind option_bind]. destruct (getStringProperty r "status") eqn:Er; [| done]. intros _.
  exists r. split_and!; [done | by eapply text_is_obj |]. by destruct v.
Qed.

(** The fields the decision reads, beside the statuses themselves. *)
Definition same_evidence (v w : jsval) : Prop :=
  (forall key, key <> "verificationStatus"%string -> key <> "verificationResult"%string -> prop w key = prop v key) /\
  (getObjectProperty w "verificationResult" ≫= fun r => getObjectProperty r "report") =
  (getObjectProperty v "verificationResult" ≫= fun r => getObjectProperty r "report").

Lemma same_evidence_input v w s : same_evidence v w -> payload_status_input w s = payload_status_input v s.
Proof.
  intros [Hp Hr]. unfold payload_status_input, parseTallyFromRecord, parseVerificationReportFromRecord.
  rewrite Hr. unfold getObjectProperty, getNumberArrayProperty, getNumberProperty, getStringProperty.
  by rewrite !Hp by done.
Qed.

Lemma set_top_status v s : is_obj v = true ->
  let w := set_prop v "verificationStatus" (JStr (status_text s)) in
  is_obj w = true /\ same_evidence v w /\ top_status w = Some s /\
  prop w "verificationResult" = prop v "verificationResult".
Proof.
  intros Hv w. subst w. split_and!; [by rewrite set_is_obj | | |].
  - split; [intros key ? ?; by apply set_other_prop |].
    assert (getObjectProperty (set_prop v "verificationStatus" (JStr (status_text s))) "verificationResult" =
            getObjectProperty v "verificationResult") as ->; [| done].
    unfold getObjectProperty. by rewrite !set_other_prop by done.
  - unfold top_status, getStringProperty. rewrite set_same_prop by done. apply status_text_read.
  - by apply set_other_prop.
Qed.

Lemma set_nested_status v r s : is_obj v = true -> prop v "verificationResult" = r -> is_obj r = true ->
  let w := set_prop v "verificationResult" (set_prop r "status" (JStr (status_text s))) in
  is_obj w = true /\ same_evidence v w /\ nested_status w = Some s /\ top_status w = top_status v.
Proof.
  intros Hv Hp Hr w. assert (Hw : prop w "verificationResult" = set_prop r "status" (JStr (status_text s)))
    by (by apply set_same_prop).
  assert (Ho : getObjectProperty w "verificationResult" = Some (set_prop r "status" (JStr (status_text s)))).
  { unfold getObjectProperty. rewrite Hw. destruct r; done. }
  assert (Hv' : getObjectProperty v "verificationResult" = Some r).
  { unfold getObjectProperty. rewrite Hp. by destruct r. }
  split_and!.
  - unfold w. by rewrite set_is_obj.
  - split; [intros key ? ?; by apply set_other_prop |]. rewrite Ho, Hv'. cbn [mbind option_bind].
    unfold getObjectProperty. by rewrite set_other_prop by done.
  - unfold nested_status. rewrite Ho. cbn [mbind option_bind]. unfold getStringProperty.
    rewrite set_same_prop by done. apply status_text_read.
  - unfold top_status, getStringProperty, w. by rewrite set_other_prop by done.
Qed.

(** ** The payload after its sanitisation *)

(** The statuses a payload still shows agree with the decision. *)
Definition shows (v : jsval) (s : VerificationStatus) : Prop :=
  (top_status v = None \/ top_status v = Some s) /\ (nested_status v = None \/ nested_status v = Some s).

Lemma sanitize_result p : 
  let q := sanitizeFinalizationPayloadVerificationStatus p in
  same_evidence p q /\
  match current_status p with
  | None => q = p
  | Some c =>
      exists s, resolveFailClosedVerificationStatus (payload_status_input p c) = Some s /\
        shows q s /\ current_status q = Some s
  end.
Proof.
  unfold sanitizeFinalizationPayloadVerificationStatus.
  destruct (current_status p) as [c |] eqn:Ec; [| by split].
  destruct (resolveFailClosedVerificationStatus (payload_status_input p c)) as [s |] eqn:Es; cycle 1.
  { exfalso. destruct (resolve_cases (payload_status_input p c) c); [done | congruence ..]. }
  assert (Hobj : is_obj p = true).
  { unfold current_status in Ec. destruct (top_status p) eqn:Et; [by eapply top_is_obj |].
    by apply nested_is_obj in Ec as (? & _ & _ & ?). }
  set (next := if must_change (top_status p) s then _ else p).
  assert (Hnext : is_obj next = true /\ same_evidence p next /\
    (top_status next = None \/ top_status next = Some s) /\ (top_status p <> None -> top_status next = Some s) /\
    (top_status p = None -> next = p) /\
    prop next "verificationResult" = prop p "verificationResult").
  { subst next. destruct (top_status p) as [t |] eqn:Et; cbn [must_change].
    - case_bool_decide as Hts; cbn [negb].
      + subst t. by split_and!; [| split | right | | |].
      + destruct (set_top_status p s Hobj) as (H1 & H2 & H3 & H4). split_and!; try done; by right.
    - by split_and!; [| split | left | | |]. }
  destruct Hnext as (Hn & Hsame & Htop & Htop' & Hnone & Hres).
  assert (Hnr : getObjectProperty next "verificationResult" = getObjectProperty p "verificationResult")
    by (unfold getObjectProperty; by rewrite Hres).
  assert (Hnn : nested_status next = nested_status p) by (unfold nested_status; by rewrite Hnr).
  destruct (getObjectProperty p "verificationResult") as [r |] eqn:Er.
  - destruct (must_change (nested_status p) s) eqn:Em.
    + assert (Hno : exists n, nested_status p = Some n) by (destruct (nested_status p); [by eexists | done]).
      destruct Hno as [n Hno]. destruct (nested_is_obj _ _ Hno) as (r' & Er' & Hr' & _).
      assert (r' = r) as -> by congruence.
      assert (Hpr : prop next "verificationResult" = r).
      { rewrite Hres. unfold getObjectProperty in Er. destruct (isNonNullObject _); congruence. }
      destruct (set_nested_status next r s Hn Hpr Hr') as (H1 & H2 & H3 & H4). split.
      * destruct Hsame as [A1 A2], H2 as [B1 B2]. split; [| congruence].
        intros key K1 K2. rewrite B1, A1 by done. done.
      * exists s. split_and!; [done | split; [by rewrite H4 | by right] |].
        unfold current_status. rewrite H4, H3. destruct Htop as [-> | ->]; done.
    + split; [done |]. exists s. split_and!; [done | split; [done |] |].
      * rewrite Hnn. destruct (nested_status p) as [n |]; [right | by left]. cbn [must_change] in Em.
        apply negb_false_iff, bool_decide_eq_true in Em. by subst.
      * unfold current_status in *. rewrite Hnn. destruct (top_status p) eqn:Et; [by rewrite Htop' |].
        rewrite (Hnone eq_refl), Et, Ec. f_equal. rewrite Ec in Em. cbn [must_change] in Em.
        apply negb_false_iff, bool_decide_eq_true in Em. done.
  - assert (Hn0 : nested_status p = None) by (unfold nested_status; by rewrite Er).
    split; [done |]. exists s. rewrite Hn0 in *. split_and!; [done | split; [done | by left] |].
    unfold current_status in *. destruct (top_status p) eqn:Et; [by rewrite Htop' | by rewrite Hn0 in Ec].
Qed.

Lemma payload_journal p c v : getObjectProperty p "journal" = Some v ->
  let i := payload_status_input p c in
  fc_journal i = (if isSupportedZkVMJournal v then Some (read_journal v) else None) /\
  fc_journalAdmissionFailed i = negb (isSupportedZkVMJournal v) /\
  fc_claimedImageId i = getStringProperty p "imageId" /\ fc_comparisonImageId i = (fc_journal i ≫= j_imageId).
Proof.
  intros Hv i. subst i. unfold payload_status_input. rewrite Hv.
  by destruct (isSupportedZkVMJournal v).
Qed.

Lemma no_reason_journal p c v : no_reason (payload_status_input p c) ->
  getObjectProperty p "journal" = Some v ->
  isSupportedZkVMJournal v = true /\
  exists n, j_treeSize (read_journal v) = NInt n /\ j_totalExpected (read_journal v) = NInt n /\
    j_validVotes (read_journal v) = NInt n /\ j_excludedSlots (read_journal v) = NInt 0.
Proof.
  intros Hn Hv. destruct (payload_journal p c v Hv) as (Hj & Hf & _).
  unfold no_reason, resolveFailClosedReasons in Hn. injection Hn as H1 H2 _.
  unfold hasCountedExclusions in H1. unfold hasTreeSizeMismatch in H2. rewrite Hj in *. rewrite Hf in H1.
  destruct (isSupportedZkVMJournal v) eqn:Es; cbn [negb] in *; [| by rewrite orb_true_r in H1].
  split; [done |]. destruct (supported_reads v Es) as [_ Hc].
  destruct (current_counts _ Hc) as (t & vv & ex & tv & r & te & Et & Ev & Ee & _ & _ & Ete & Hu & _ & Hs & _).
  exists t. destruct (fc_journalHasLegacyCountAliases _); [done |]. cbn [orb] in H1.
  change (resolveExcludedCount _) with (Some (j_excludedSlots (read_journal v))) in H1.
  rewrite Ee in H1. cbn [num_ltb] in H1. apply Z.ltb_ge in H1.
  rewrite !Forall_cons in Hu. destruct Hu as (_ & _ & Hex & _). unfold u32 in Hex.
  assert (ex = 0) as -> by lia. rewrite Et, Ete in *. cbn [isInteger num_eqb andb] in H2.
  apply negb_false_iff, Z.eqb_eq in H2. assert (vv = t) as -> by lia. by rewrite Ev, Ee, H2.
Qed.

Lemma no_reason_images p c v a b : no_reason (payload_status_input p c) ->
  getObjectProperty p "journal" = Some v -> isSupportedZkVMJournal v = true ->
  getStringProperty p "imageId" = Some a -> a <> ""%string -> j_imageId (read_journal v) = Some b -> b <> ""%string ->
  normalizeHexString a = normalizeHexString b.
Proof.
  intros Hn Hv Hs Ha Ha0 Hb Hb0. destruct (payload_journal p c v Hv) as (Hj & _ & Hcl & Hco).
  unfold no_reason, resolveFailClosedReasons in Hn. injection Hn as _ _ H3.
  unfold hasImageIdMismatch in H3. rewrite Hco, Hcl, Hj, Hs, Ha in H3. cbn [mbind option_bind] in H3.
  rewrite Hb in H3. unfold nonemptyImageId in H3.
  destruct a as [| ca a]; [done |]. destruct b as [| cb b]; [done |].
  change (LocalCast.nonempty (Some (String.String ca a))) with (Some (String.String ca a)) in H3.
  change (LocalCast.nonempty (Some (String.String cb b))) with (Some (String.String cb b)) in H3. cbv iota beta in H3.
  destruct (String.eqb_spec (normalizeHexString (String.String ca a)) (normalizeHexString (String.String cb b))); [done |].
  done.
Qed.

(** C16: Fail closed: when a sanitised payload still shows a success, in either
    place, then every status it shows is that success, the payload claimed it
    before, and the journal it carries, if any, is an admitted one that counted
    every slot of the tree and every expected vote, for the image that was
    claimed. Nothing of a journal that was not admitted can stand behind a
    success. *)
Theorem fail_closed_payload p s :
  let q := sanitizeFinalizationPayloadVerificationStatus p in
  s ∈ TERMINAL_SUCCESS_STATUSES -> top_status q = Some s \/ nested_status q = Some s ->
  shows q s /\ current_status p = Some s /\
  (forall v, getObjectProperty p "journal" = Some v ->
     isSupportedZkVMJournal v = true /\
     exists n, j_treeSize (read_journal v) = NInt n /\ j_totalExpected (read_journal v) = NInt n /\
       j_validVotes (read_journal v) = NInt n /\ j_excludedSlots (read_journal v) = NInt 0) /\
  (forall v a b, getObjectProperty p "journal" = Some v ->
     getStringProperty p "imageId" = Some a -> a <> ""%string ->
     j_imageId (read_journal v) = Some b -> b <> ""%string -> normalizeHexString a = normalizeHexString b).
Proof.
  intros q Hs Hq. destruct (sanitize_result p) as [_ Hr]. fold q in Hr.
  destruct (current_status p) as [c |] eqn:Ec; cycle 1.
  { exfalso. rewrite Hr in Hq. unfold current_status in Ec.
    destruct (top_status p); [done |]. destruct Hq; congruence. }
  destruct Hr as (s' & Hres & Hshow & Hcur). assert (s' = s) as ->.
  { destruct Hshow as [H1 H2]. destruct Hq as [Hq | Hq]; [destruct H1 | destruct H2]; congruence. }
  destruct (resolve_success _ _ Hs Hres) as [Hc Hno]. injection Hc as ->.
  split_and!; [done | done | by intros v; eapply no_reason_journal |].
  intros v a b Hv. eapply no_reason_images; [done | done |]. by eapply no_reason_journal.
Qed.

(** Sanitising twice changes nothing more: the first pass already reached a
    payload whose statuses agree with the evidence. *)
Theorem sanitize_idempotent p :
  sanitizeFinalizationPayloadVerificationStatus (sanitizeFinalizationPayloadVerificationStatus p) =
  sanitizeFinalizationPayloadVerificationStatus p.
Proof.
  destruct (sanitize_result p) as [Hsame Hr]. set (q := sanitizeFinalizationPayloadVerificationStatus p) in *.
  destruct (current_status p) as [c |] eqn:Ec; [| by rewrite !Hr].
  destruct Hr as (s & Hres & [Htop Hnest] & Hcur).
  assert (Hagain : resolveFailClosedVerificationStatus (payload_status_input q s) = Some s).
  { rewrite (same_evidence_input p q s Hsame).
    destruct (resolve_cases (payload_status_input p c) c eq_refl) as [E | E].
    - assert (c = s) as -> by congruence. done.
    - assert (s = vs_failed) as -> by congruence. by apply resolve_failed_stays. }
  unfold sanitizeFinalizationPayloadVerificationStatus at 1. rewrite Hcur, Hagain.
  assert (must_change (top_status q) s = false) as ->.
  { destruct Htop as [-> | ->]; [done |]. cbn [must_change]. by rewrite bool_decide_eq_true_2. }
  assert (must_change (nested_status q) s = false) as ->; [| by destruct (getObjectProperty q "verificationResult")].
  destruct Hnest as [-> | ->]; [done |]. cbn [must_change]. by rewrite bool_decide_eq_true_2.
Qed.

(** The same for a typed result: what keeps a success is returned unchanged and
    no exclusion, size or image contradicts it. *)
Lemma fail_closed_result r r' v :
  sanitizeFinalizationResultVerificationStatus (Some r) = Some r' ->
  c_verificationResult r' = Some v -> vres_status v ∈ TERMINAL_SUCCESS_STATUSES ->
  r' = r /\ no_reason (result_status_input r v).
Proof.
  cbn [sanitizeFinalizationResultVerificationStatus]. destruct (c_verificationResult r) as [v0 |] eqn:Ev; cycle 1.
  { intros [= <-]. congruence. }
  assert (Hf : vs_failed ∉ TERMINAL_SUCCESS_STATUSES) by (by apply (bool_decide_eq_false_1 _)).
  destruct (resolve_cases (result_status_input r v0) _ eq_refl) as [E | E]; rewrite E.
  - rewrite bool_decide_eq_true_2 by done. intros [= <-] Hv Hs. assert (v0 = v) as -> by congruence.
    split; [done |]. by apply (resolve_success _ (vres_status v)).
  - case_bool_decide as Hc; intros [= <-] Hv Hs.
    + assert (v0 = v) as -> by congruence. by rewrite Hc in Hs.
    + cbn in Hv. by injection Hv as <-.
Qed.

(** A failed verification nested in the payload does not survive a success at
    its top: the two statuses are made to agree with the one at the top. *)
Example nested_failure_overwritten :
  let p := JObj [("verificationStatus", JStr "success");
                 ("verificationResult", JObj [("status", JStr "failed")])]%string in
  nested_status p = Some vs_failed /\
  nested_status (sanitizeFinalizationPayloadVerificationStatus p) = Some vs_success.
Proof. split; vm_compute; reflexivity. Qed.

(** A journal that counted its three slots, and a payload that claims it. *)
Definition complete_journal : ZkVMJournal :=
  mkJournal "01234567-89ab-4def-8123-456789abcdef" (hash_text "0123456789abcdef")
    (hash_text "1123456789abcdef") (NInt 3) (NInt 3) (hash_text "2123456789abcdef")
    (map NInt [1; 0; 1; 0; 1]) (NInt 3) (NInt 3) (NInt 0) (NInt 3) (NInt 0) (NInt 0) (NInt 0)
    (Some (hash_text "3123456789abcdef")) (hash_text "3123456789abcdef") (NInt 0)
    (hash_text "5123456789abcdef") (NInt 14) (Some (hash_text "6123456789abcdef")).

Definition sample_payload : jsval :=
  JObj [("verificationStatus", JStr "success"); ("imageId", JStr (hash_text "6123456789ABCDEF"));
        ("journal", journal_value complete_journal)]%string.

Lemma fail_closed_payload_witness : current_status sample_payload = Some vs_success.
Proof.
  apply (fail_closed_payload sample_payload vs_success).
  - by apply (bool_decide_eq_true_1 _).
  - left. vm_compute. reflexivity.
Defined.

(** With the journal of one rejected slot, the same claim is refused. *)
Example excluded_slot_fails :
  top_status (sanitizeFinalizationPayloadVerificationStatus
    (set_prop sample_payload "journal" (journal_value sample_journal))) = Some vs_failed.
Proof. vm_compute. reflexivity. Qed.
