(* ===== verification/FinStorage.v ===== *)
(** The stored shape of a finalization (packages/application/src/finalize/
    finalization-storage.ts, finalization-id.ts and finalization-types.ts): the
    documents are read from values of unknown shape and written back. A
    manifest, a close statement and the error of a failed attempt are kept as
    the values they are. [parseVerificationResult] is left out. *)
From stdpp Require Import pretty.
From S2P Require Import Prelude.
From S2P Require Import JsNumber.
From S2P Require Import JsValue.
From S2P Require Import Hex.
From S2P Require Import Contract.
From S2P Require Import Evidence.
From S2P Require Import Journal.
From S2P Require Import PublicInput.
Import JsValue.
Import Contract.
Import Evidence.
Import Journal.

Module FinStorage.

(** ** Identifiers *)

Definition is_segment_char (c : ascii) : bool :=
  code_between 65 90 c || code_between 97 122 c || code_between 48 57 c || Ascii.eqb c "-".

Definition isSafeVerifierSegment (value : string) : bool := str_truthy value && string_all is_segment_char value.

Definition parseFinalizationId (value : jsval) : option string :=
  match value with JStr s => if isSafeVerifierSegment s then Some s else None | _ => None end.

(** [asSessionIdOrUndefined] of a string: the pattern of the domain package is the same. *)
Definition parseSessionId (value : jsval) : option string :=
  match value with JStr s => if isSafeVerifierSegment s then Some s else None | _ => None end.

(** ** Types *)

Inductive ScenarioTamperMode : Type := tamper_none | tamper_input | tamper_claim.

Inductive ReceiptJournal : Type :=
| journal_text (text : string)
| journal_bytes (bytes : list num).

Record ReceiptWithImageId := mkReceipt {
  rc_seal : string;
  rc_journal : ReceiptJournal;
  rc_imageId : option string;
  rc_metadata : option jsval;
}.

(** [counts] in the order of [VOTE_CHOICES]. *)
Record FinalizationTally := mkTally {
  ta_counts : list num;
  ta_totalVotes : num;
  ta_tamperedCount : num;
}.

Record FinalizationReceiptPublication := mkPublication {
  rp_receiptHash : string;
  rp_boardIndex : num;
  rp_timestamp : option num;
}.

(** A seen bitmap comes with its root. *)
Record FinalizationBitmapData := mkBitmapData {
  bd_includedBitmap : list bool;
  bd_includedBitmapRoot : string;
  bd_seen : option (list bool * string);
  bd_treeSize : num;
  bd_finalizedAtMs : num;
}.

Record FinalizationTamperSummary := mkTamperSummary {
  ts_ignoredVotes : num;
  ts_recountedVotes : num;
  ts_userRecountedTo : option string;
  ts_affectedBotIds : option (list num);
}.

Record PublicAuditArtifacts := mkPublicAudit {
  au_publicInputArtifact : PublicInput.SupportedPublicInputArtifact;
  au_electionManifest : jsval;
  au_closeStatement : jsval;
}.

(** [None] is an artifact whose [availability] is ['unavailable']. *)
Record FinalizationArtifactAvailability := mkArtifacts {
  fa_receipt : option ReceiptWithImageId;
  fa_receiptPublication : option FinalizationReceiptPublication;
  fa_publicAudit : option PublicAuditArtifacts;
  fa_bitmap : option (BitmapProofSource * FinalizationBitmapData);
}.

Record FinalizationResultAuthority := mkResultAuthority {
  ra_tally : FinalizationTally;
  ra_imageId : string;
  ra_journal : ZkVMJournal;
  ra_tamperDetected : option bool;
  ra_scenarios : option (list string);
  ra_tamperSummary : option FinalizationTamperSummary;
  ra_artifacts : FinalizationArtifactAvailability;
}.

Record FinalizationScenarioContext := mkScenario {
  sc_scenarios : list string;
  sc_tamperMode : ScenarioTamperMode;
  sc_claimedCounts : list num;
  sc_claimedTotalVotes : num;
  sc_ignoredCount : num;
  sc_recountedCount : num;
  sc_userRecountChoice : option string;
  sc_affectedBotIds : option (list num);
}.

Inductive FinalizationState : Type :=
| pending (finalizationId : string) (queuedAtMs : num)
| running (finalizationId : string) (queuedAtMs startedAtMs : num)
| succeeded (finalizationId : string) (queuedAtMs startedAtMs completedAtMs : num)
| failed (finalizationId : string) (queuedAtMs : num) (startedAtMs : option num) (failedAtMs : num) (error : jsval)
| timeout (finalizationId : string) (queuedAtMs : num) (startedAtMs : option num) (timeoutAtMs : num).

Definition createUnavailableFinalizationArtifacts : FinalizationArtifactAvailability := mkArtifacts None None None None.

(** ** Guards *)

Definition isIntegerArray (value : list num) : bool := forallb isInteger value.

Definition admit_count (o : option num) : option num :=
  match o with Some n => if isNonNegativeInteger n then Some n else None | None => None end.

Definition admit_safe_count (o : option num) : option num :=
  match o with Some n => if isNonNegativeSafeInteger n then Some n else None | None => None end.

(** An optional count: [None] when the property is there and is not one. *)
Definition optional_count (value : jsval) (key : string) : option (option num) :=
  if hasOwn value key && negb (is_some (admit_count (getNumberProperty value key))) then None
  else Some (getNumberProperty value key).

(** [{ ...value }] of an object: its own properties. *)
Definition spread (value : jsval) : jsval :=
  match value with
  | JObj properties => JObj properties
  | JArr items => JObj (imap (fun i x => (pretty (Z.of_nat i), x)) items)
  | JBytes data => JObj (imap (fun i b => (pretty (Z.of_nat i), JNum (NInt b))) data)
  | _ => JObj []
  end.

Definition parseCountRecord (value : jsval) : option (list num) :=
  if negb (isNonNullObject value) || negb (Z.eqb (zlength (object_keys value)) (zlength VOTE_CHOICES)) then None
  else all_some (fun choice => admit_count (getNumberProperty value choice)) VOTE_CHOICES.

Definition FINALIZATION_TALLY_KEYS : list string := ["counts"; "totalVotes"; "tamperedCount"]%string.

Definition parseFinalizationTally (value : jsval) : option FinalizationTally :=
  if negb (isNonNullObject value) || negb (hasOnlyAllowedKeys value FINALIZATION_TALLY_KEYS) then None
  else
    match parseCountRecord (prop value "counts"), admit_count (getNumberProperty value "totalVotes"),
          admit_count (getNumberProperty value "tamperedCount") with
    | Some counts, Some totalVotes, Some tamperedCount => Some (mkTally counts totalVotes tamperedCount)
    | _, _, _ => None
    end.

Definition RECEIPT_JOURNAL_KEYS : list string := ["bytes"%string].
Definition RECEIPT_KEYS : list string := ["seal"; "journal"; "imageId"; "metadata"]%string.
Definition RECEIPT_PUBLICATION_KEYS : list string := ["receiptHash"; "boardIndex"; "timestamp"]%string.

Definition parseReceiptJournal (value : jsval) : option ReceiptJournal :=
  match value with
  | JStr s => Some (journal_text s)
  | _ =>
      if negb (isNonNullObject value) || negb (hasOnlyAllowedKeys value RECEIPT_JOURNAL_KEYS) then None
      else match getNumberArrayProperty value "bytes" with
           | Some bytes => if isIntegerArray bytes then Some (journal_bytes bytes) else None
           | None => None
           end
  end.

(** The empty text is a falsy journal. *)
Definition truthy_journal (o : option ReceiptJournal) : option ReceiptJournal :=
  match o with
  | Some (journal_text s) => if str_truthy s then o else None
  | _ => o
  end.

Definition parseReceiptWithImageId (value : jsval) : option ReceiptWithImageId :=
  if negb (isNonNullObject value) || negb (hasOnlyAllowedKeys value RECEIPT_KEYS) then None
  else
    match getStringProperty value "seal", truthy_journal (parseReceiptJournal (prop value "journal")) with
    | Some seal, Some journal =>
        Some (mkReceipt seal journal
                (match getStringProperty value "imageId" with
                 | Some imageId => if str_truthy imageId then Some imageId else None
                 | None => None
                 end)
                (spread <$> getObjectProperty value "metadata"))
    | _, _ => None
    end.

Definition parseReceiptPublication (value : jsval) : option FinalizationReceiptPublication :=
  if negb (isNonNullObject value) || negb (hasOnlyAllowedKeys value RECEIPT_PUBLICATION_KEYS) then None
  else
    match getStringProperty value "receiptHash", admit_count (getNumberProperty value "boardIndex"),
          optional_count value "timestamp" with
    | Some receiptHash, Some boardIndex, Some timestamp => Some (mkPublication receiptHash boardIndex timestamp)
    | _, _, _ => None
    end.

(** ** Bitmaps *)

Definition BITMAP_DATA_KEYS : list string :=
  ["includedBitmap"; "includedBitmapRoot"; "seenBitmap"; "seenBitmapRoot"; "treeSize"; "finalizedAtMs"]%string.

Definition BITMAP_ROOT_PATTERN (s : string) : bool :=
  matches (repeat is_lower_hex 64) s ||
  match s with
  | String "0" (String "x" rest) => matches (repeat is_lower_hex 64) rest
  | _ => false
  end.

Definition bitmap_root (o : option string) : option string :=
  match o with Some s => if BITMAP_ROOT_PATTERN s then Some s else None | None => None end.

Definition parseStoredSeenBitmap (value : jsval) : option (option (list bool * string)) :=
  let seenBitmap := getBooleanArrayProperty value "seenBitmap" in
  let seenBitmapRoot := bitmap_root (getStringProperty value "seenBitmapRoot") in
  let hasSeenBitmap := hasOwn value "seenBitmap" in
  let hasSeenBitmapRoot := hasOwn value "seenBitmapRoot" in
  if negb (Bool.eqb hasSeenBitmap hasSeenBitmapRoot) then None
  else if hasSeenBitmap && negb (is_some seenBitmap) then None
  else if hasSeenBitmapRoot && negb (is_some seenBitmapRoot) then None
  else match seenBitmap, seenBitmapRoot with
       | Some bits, Some root => Some (Some (bits, root))
       | _, _ => Some None
       end.

Definition parseFinalizationBitmapData (value : jsval) : option FinalizationBitmapData :=
  if negb (isNonNullObject value) || negb (hasOnlyAllowedKeys value BITMAP_DATA_KEYS) then None
  else
    match getBooleanArrayProperty value "includedBitmap", bitmap_root (getStringProperty value "includedBitmapRoot"),
          admit_safe_count (getNumberProperty value "treeSize"),
          admit_safe_count (getNumberProperty value "finalizedAtMs"), parseStoredSeenBitmap value with
    | Some includedBitmap, Some includedBitmapRoot, Some treeSize, Some finalizedAtMs, Some seen =>
        Some (mkBitmapData includedBitmap includedBitmapRoot seen treeSize finalizedAtMs)
    | _, _, _, _, _ => None
    end.

Definition encodeFinalizationBitmapData (data : FinalizationBitmapData) : jsval :=
  JObj ([("includedBitmap", JArr (map JBool (bd_includedBitmap data)));
         ("includedBitmapRoot", JStr (bd_includedBitmapRoot data))]%string ++
        match bd_seen data with
        | Some (bits, root) => [("seenBitmap", JArr (map JBool bits)); ("seenBitmapRoot", JStr root)]%string
        | None => []
        end ++
        [("treeSize", JNum (bd_treeSize data)); ("finalizedAtMs", JNum (bd_finalizedAtMs data))]%string).

(** ** The tampering summary *)

Definition TAMPER_SUMMARY_KEYS : list string :=
  ["ignoredVotes"; "recountedVotes"; "userRecountedTo"; "affectedBotIds"]%string.

(** [value === null], or one of the choices. *)
Definition isNullableVoteChoice (value : jsval) : option (option string) :=
  match value with
  | JNull => Some None
  | JStr s => if existsb (String.eqb s) VOTE_CHOICES then Some (Some s) else None
  | _ => None
  end.

(** [None] is the [null] of the code: the property is there and is malformed. *)
Definition parseAffectedBotIds (value : jsval) : option (option (list num)) :=
  let affectedBotIds := getNumberArrayProperty value "affectedBotIds" in
  if hasOwn value "affectedBotIds" &&
     negb (match affectedBotIds with Some ids => isIntegerArray ids | None => false end)
  then None else Some affectedBotIds.

Definition parseTamperSummary (value : jsval) : option FinalizationTamperSummary :=
  if negb (isNonNullObject value) || negb (hasOnlyAllowedKeys value TAMPER_SUMMARY_KEYS) then None
  else
    match admit_count (getNumberProperty value "ignoredVotes"), admit_count (getNumberProperty value "recountedVotes"),
          isNullableVoteChoice (prop value "userRecountedTo"), parseAffectedBotIds value with
    | Some ignoredVotes, Some recountedVotes, Some userRecountedTo, Some affectedBotIds =>
        Some (mkTamperSummary ignoredVotes recountedVotes userRecountedTo affectedBotIds)
    | _, _, _, _ => None
    end.

(** ** Artifacts of a result *)

(** Of an optional property: [Some None] when it is missing, [None] when it is
    there and malformed. *)
Definition own_property {A} (parse : jsval -> option A) (value : jsval) (key : string) : option (option A) :=
  if hasOwn value key then Some <$> parse (prop value key) else Some None.

(** The same for a property whose value may also be [undefined]. *)
Definition defined_property {A} (parse : jsval -> option A) (value : jsval) (key : string) : option (option A) :=
  if is_undefined (prop value key) then Some None else Some <$> parse (prop value key).

Definition parseStoredReceiptArtifacts (value : jsval) :
    option (option ReceiptWithImageId * option FinalizationReceiptPublication) :=
  match own_property parseReceiptWithImageId value "receipt",
        own_property parseReceiptPublication value "receiptPublication" with
  | Some receipt, Some publication => Some (receipt, publication)
  | _, _ => None
  end.

Definition ELECTION_MANIFEST_KEYS : list string :=
  ["electionId"; "totalExpected"; "choices"; "version"; "botCount"; "merkleTreeDepth"; "electionConfigHash"]%string.
Definition CLOSE_STATEMENT_KEYS : list string := ["logId"; "treeSize"; "timestamp"; "bulletinRoot"; "sthDigest"]%string.

Definition parseStoredElectionManifest (value : jsval) : option jsval :=
  if isNonNullObject value && hasOnlyAllowedKeys value ELECTION_MANIFEST_KEYS && PublicInput.isElectionManifest value
  then Some value else None.

Definition parseStoredCloseStatement (value : jsval) : option jsval :=
  if isNonNullObject value && hasOnlyAllowedKeys value CLOSE_STATEMENT_KEYS && PublicInput.isCloseStatement value
  then Some value else None.

Definition PUBLIC_AUDIT_KEYS : list string := ["publicInputArtifact"; "electionManifest"; "closeStatement"]%string.

Definition parseStoredPublicAuditArtifacts (value : jsval) : option (option PublicAuditArtifacts) :=
  let presence := map (hasOwn value) PUBLIC_AUDIT_KEYS in
  if forallb negb presence then Some None
  else if negb (forallb id presence) then None
  else
    match PublicInput.parseStoredPublicInputArtifact (prop value "publicInputArtifact"),
          parseStoredElectionManifest (prop value "electionManifest"),
          parseStoredCloseStatement (prop value "closeStatement") with
    | Some publicInputArtifact, Some electionManifest, Some closeStatement =>
        Some (Some (mkPublicAudit publicInputArtifact electionManifest closeStatement))
    | _, _, _ => None
    end.

Definition bitmap_source (value : jsval) : option BitmapProofSource :=
  match value with
  | JStr s => if String.eqb s "mock" then Some source_mock else if String.eqb s "real" then Some source_real else None
  | _ => None
  end.

Definition parseStoredBitmapArtifact (value : jsval) : option (option (BitmapProofSource * FinalizationBitmapData)) :=
  let hasSource := hasOwn value "bitmapProofSource" in
  let hasData := hasOwn value "bitmapData" in
  if negb hasSource && negb hasData then Some None
  else if negb (Bool.eqb hasSource hasData) then None
  else
    match bitmap_source (prop value "bitmapProofSource"), parseFinalizationBitmapData (prop value "bitmapData") with
    | Some proofSource, Some data => Some (Some (proofSource, data))
    | _, _ => None
    end.

Definition parseStoredScenarioPresentation (value : jsval) :
    option (option bool * option (list string) * option FinalizationTamperSummary) :=
  match own_property as_bool value "tamperDetected", defined_property isStringArray value "scenarios",
        defined_property parseTamperSummary value "tamperSummary" with
  | Some tamperDetected, Some scenarios, Some tamperSummary => Some (tamperDetected, scenarios, tamperSummary)
  | _, _, _ => None
  end.

(** ** The result *)

Definition FINALIZATION_RESULT_AUTHORITY_KEYS : list string :=
  ["tally"; "receipt"; "receiptPublication"; "imageId"; "tamperDetected"; "scenarios"; "journal";
   "publicInputArtifact"; "electionManifest"; "closeStatement"; "bitmapProofSource"; "bitmapData";
   "tamperSummary"]%string.

Definition JOURNAL_KEYS : list string :=
  ["electionId"; "electionConfigHash"; "bulletinRoot"; "treeSize"; "totalExpected"; "sthDigest"; "verifiedTally";
   "totalVotes"; "validVotes"; "invalidVotes"; "seenIndicesCount"; "missingSlots"; "invalidPresentedSlots";
   "rejectedRecords"; "seenBitmapRoot"; "includedBitmapRoot"; "excludedSlots"; "inputCommitment"; "methodVersion";
   "imageId"]%string.

(** [toPublicZkvmJournal] does not throw on a journal that the guard admitted
    (FinStorageProofs.admitted_journal_public). *)
Definition parseStoredJournal (value : jsval) : option ZkVMJournal :=
  if isNonNullObject value && hasOnlyAllowedKeys value JOURNAL_KEYS && isSupportedZkVMJournal value then
    match toPublicZkvmJournal (read_journal value) with Ok journal => Some journal | Err _ => None end
  else None.

Definition parseFinalizationResultAuthority (value : jsval) : option FinalizationResultAuthority :=
  if negb (isNonNullObject value) || negb (hasOnlyAllowedKeys value FINALIZATION_RESULT_AUTHORITY_KEYS) then None
  else
    match parseFinalizationTally (prop value "tally"), getStringProperty value "imageId",
          parseStoredJournal (prop value "journal") with
    | Some tally, Some imageId, Some journal =>
        match parseStoredScenarioPresentation value, parseStoredReceiptArtifacts value,
              parseStoredPublicAuditArtifacts value, parseStoredBitmapArtifact value with
        | Some (tamperDetected, scenarios, tamperSummary), Some (receipt, receiptPublication), Some publicAudit,
          Some bitmap =>
            Some (mkResultAuthority tally imageId journal tamperDetected scenarios tamperSummary
                    (mkArtifacts receipt receiptPublication publicAudit bitmap))
        | _, _, _, _ => None
        end
    | _, _, _ => None
    end.

(** ** The documents as the objects they are *)

Definition counts_value (counts : list num) : jsval := JObj (zip VOTE_CHOICES (map JNum counts)).

Definition tally_value (t : FinalizationTally) : jsval :=
  JObj [("counts", counts_value (ta_counts t)); ("totalVotes", JNum (ta_totalVotes t));
        ("tamperedCount", JNum (ta_tamperedCount t))]%string.

Definition receipt_journal_value (j : ReceiptJournal) : jsval :=
  match j with
  | journal_text s => JStr s
  | journal_bytes b => JObj [("bytes"%string, JArr (map JNum b))]
  end.

Definition receipt_value (r : ReceiptWithImageId) : jsval :=
  JObj ([("seal", JStr (rc_seal r)); ("journal", receipt_journal_value (rc_journal r))]%string ++
        optional "imageId" (JStr <$> rc_imageId r) ++ optional "metadata" (rc_metadata r)).

Definition publication_value (p : FinalizationReceiptPublication) : jsval :=
  JObj ([("receiptHash", JStr (rp_receiptHash p)); ("boardIndex", JNum (rp_boardIndex p))]%string ++
        optional "timestamp" (JNum <$> rp_timestamp p)).

Definition choice_value (o : option string) : jsval := match o with Some s => JStr s | None => JNull end.

Definition ids_value (ids : list num) : jsval := JArr (map JNum ids).

Definition tamper_summary_value (s : FinalizationTamperSummary) : jsval :=
  JObj ([("ignoredVotes", JNum (ts_ignoredVotes s)); ("recountedVotes", JNum (ts_recountedVotes s));
         ("userRecountedTo", choice_value (ts_userRecountedTo s))]%string ++
        optional "affectedBotIds" (ids_value <$> ts_affectedBotIds s)).

Definition source_value (s : BitmapProofSource) : jsval :=
  JStr (match s with source_mock => "mock" | source_real => "real" end)%string.

(** The properties of a result besides its artifacts. *)
Definition common_properties (a : FinalizationResultAuthority) : list (string * jsval) :=
  [("tally", tally_value (ra_tally a)); ("imageId", JStr (ra_imageId a)); ("journal", journal_value (ra_journal a))]%string ++
  optional "tamperDetected" (JBool <$> ra_tamperDetected a) ++
  optional "scenarios" ((fun l => JArr (map JStr l)) <$> ra_scenarios a) ++
  optional "tamperSummary" (tamper_summary_value <$> ra_tamperSummary a).

Definition public_audit_properties (p : PublicAuditArtifacts) : list (string * jsval) :=
  [("publicInputArtifact", PublicInput.supported_value (au_publicInputArtifact p));
   ("electionManifest", au_electionManifest p); ("closeStatement", au_closeStatement p)]%string.

Definition encodeFinalizationResultAuthority (a : FinalizationResultAuthority) : list (string * jsval) :=
  let artifacts := ra_artifacts a in
  common_properties a ++
  optional "receipt" (receipt_value <$> fa_receipt artifacts) ++
  optional "receiptPublication" (publication_value <$> fa_receiptPublication artifacts) ++
  match fa_publicAudit artifacts with Some p => public_audit_properties p | None => [] end ++
  match fa_bitmap artifacts with
  | Some (source, data) => [("bitmapProofSource", source_value source);
                            ("bitmapData", encodeFinalizationBitmapData data)]%string
  | None => []
  end.

(** ** Admission of a nested result *)

Definition ADMITTED_FINALIZATION_RESULT_AUTHORITY_KEYS : list string :=
  ["tally"; "imageId"; "tamperDetected"; "scenarios"; "journal"; "artifacts"; "tamperSummary"]%string.
Definition FINALIZATION_ARTIFACT_AVAILABILITY_KEYS : list string :=
  ["publicAudit"; "receipt"; "receiptPublication"; "bitmap"]%string.

Definition is_available (value : jsval) : bool :=
  match prop value "availability" with JStr s => String.eqb s "available" | _ => false end.
Definition is_unavailable (value : jsval) : bool :=
  match prop value "availability" with JStr s => String.eqb s "unavailable" | _ => false end.

Definition hasExactAvailabilityKeys (value : jsval) (availableKeys : list string) : bool :=
  isNonNullObject value && (is_available value || is_unavailable value) &&
  hasExactOwnKeys value ("availability"%string :: if is_available value then availableKeys else []).

Definition when_own (value : jsval) (key : string) : list (string * jsval) :=
  if hasOwn value key then [(key, prop value key)] else [].
Definition when_available (value : jsval) (properties : list (string * jsval)) : list (string * jsval) :=
  if is_available value then properties else [].

Definition admitFinalizationResultAuthority (value : jsval) : option FinalizationResultAuthority :=
  if negb (isNonNullObject value) || negb (hasOnlyAllowedKeys value ADMITTED_FINALIZATION_RESULT_AUTHORITY_KEYS)
  then None
  else
    let artifacts := prop value "artifacts" in
    if negb (isNonNullObject artifacts) || negb (hasExactOwnKeys artifacts FINALIZATION_ARTIFACT_AVAILABILITY_KEYS)
    then None
    else
      let publicAudit := prop artifacts "publicAudit" in
      let receipt := prop artifacts "receipt" in
      let receiptPublication := prop artifacts "receiptPublication" in
      let bitmap := prop artifacts "bitmap" in
      if negb (hasExactAvailabilityKeys publicAudit PUBLIC_AUDIT_KEYS) ||
         negb (hasExactAvailabilityKeys receipt ["receipt"%string]) ||
         negb (hasExactAvailabilityKeys receiptPublication ["publication"%string]) ||
         negb (hasExactAvailabilityKeys bitmap ["proofSource"; "data"]%string)
      then None
      else
        parseFinalizationResultAuthority (JObj (
          [("tally", prop value "tally"); ("imageId", prop value "imageId"); ("journal", prop value "journal")]%string ++
          when_own value "tamperDetected" ++ when_own value "scenarios" ++ when_own value "tamperSummary" ++
          when_available receipt [("receipt"%string, prop receipt "receipt")] ++
          when_available receiptPublication [("receiptPublication"%string, prop receiptPublication "publication")] ++
          when_available publicAudit
            [("publicInputArtifact", prop publicAudit "publicInputArtifact");
             ("electionManifest", prop publicAudit "electionManifest");
             ("closeStatement", prop publicAudit "closeStatement")]%string ++
          when_available bitmap
            [("bitmapProofSource", prop bitmap "proofSource"); ("bitmapData", prop bitmap "data")]%string)).

(** A result with its artifacts nested, as the application holds it. *)
Definition availability_value (properties : option (list (string * jsval))) : jsval :=
  match properties with
  | Some l => JObj (("availability", JStr "available") :: l)%string
  | None => JObj [("availability", JStr "unavailable")]%string
  end.

Definition artifacts_value (a : FinalizationArtifactAvailability) : jsval :=
  JObj [("receipt", availability_value ((fun r => [("receipt"%string, receipt_value r)]) <$> fa_receipt a));
        ("receiptPublication",
           availability_value ((fun p => [("publication"%string, publication_value p)]) <$> fa_receiptPublication a));
        ("publicAudit", availability_value (public_audit_properties <$> fa_publicAudit a));
        ("bitmap", availability_value ((fun b => [("proofSource", source_value b.1);
                                                  ("data", encodeFinalizationBitmapData b.2)]%string) <$> fa_bitmap a))]%string.

Definition result_authority_value (a : FinalizationResultAuthority) : list (string * jsval) :=
  common_properties a ++ [("artifacts"%string, artifacts_value (ra_artifacts a))].

(** ** The state of an attempt *)

Definition FINALIZATION_FAILURE_CATEGORIES : list string :=
  ["configuration"; "input"; "prover_execution"; "infrastructure_interruption"; "image_signature"; "capacity";
   "artifact"; "upload"; "timeout"; "unknown"]%string.
Definition FINALIZATION_ERROR_KEYS : list string := ["code"; "message"; "category"; "details"]%string.

(** [None] is the [null] of the code. *)
Definition parseFinalizationErrorCategory (value : jsval) : option (option string) :=
  let category := getStringProperty value "category" in
  if hasOwn value "category" &&
     negb (match category with Some c => existsb (String.eqb c) FINALIZATION_FAILURE_CATEGORIES | None => false end)
  then None else Some category.

Definition parseFinalizationError (value : jsval) : option jsval :=
  if negb (isNonNullObject value) || negb (hasOnlyAllowedKeys value FINALIZATION_ERROR_KEYS) then None
  else
    match getStringProperty value "code", getStringProperty value "message", parseFinalizationErrorCategory value with
    | Some code, Some message, Some category =>
        Some (JObj ([("code", JStr code); ("message", JStr message)]%string ++
                    optional "category" (JStr <$> category) ++
                    when_own value "details"))
    | _, _, _ => None
    end.

Definition state_keys (status : string) : option (list string) :=
  if String.eqb status "pending" then Some ["status"; "finalizationId"; "queuedAtMs"]%string
  else if String.eqb status "running" then Some ["status"; "finalizationId"; "queuedAtMs"; "startedAtMs"]%string
  else if String.eqb status "succeeded"
  then Some ["status"; "finalizationId"; "queuedAtMs"; "startedAtMs"; "completedAtMs"]%string
  else if String.eqb status "failed"
  then Some ["status"; "finalizationId"; "queuedAtMs"; "startedAtMs"; "failedAtMs"; "error"]%string
  else if String.eqb status "timeout"
  then Some ["status"; "finalizationId"; "queuedAtMs"; "startedAtMs"; "timeoutAtMs"]%string
  else None.

Definition parseFailedFinalization (value : jsval) (finalizationId : string) (queuedAtMs : num)
    (startedAtMs : option num) : option FinalizationState :=
  match admit_count (getNumberProperty value "failedAtMs"), parseFinalizationError (prop value "error") with
  | Some failedAtMs, Some error => Some (failed finalizationId queuedAtMs startedAtMs failedAtMs error)
  | _, _ => None
  end.

Definition parseCompletedFinalization (value : jsval) (finalizationId : string) (queuedAtMs : num)
    (startedAtMs : option num) : option FinalizationState :=
  match admit_count startedAtMs, admit_count (getNumberProperty value "completedAtMs") with
  | Some started, Some completedAtMs => Some (succeeded finalizationId queuedAtMs started completedAtMs)
  | _, _ => None
  end.

Definition parseFinalizationProgress (status : string) (value : jsval) (finalizationId : string) (queuedAtMs : num)
    (startedAtMs : option num) : option FinalizationState :=
  if String.eqb status "pending" then Some (pending finalizationId queuedAtMs)
  else if String.eqb status "running" then running finalizationId queuedAtMs <$> admit_count startedAtMs
  else if String.eqb status "succeeded" then parseCompletedFinalization value finalizationId queuedAtMs startedAtMs
  else if String.eqb status "failed" then parseFailedFinalization value finalizationId queuedAtMs startedAtMs
  else timeout finalizationId queuedAtMs startedAtMs <$> admit_count (getNumberProperty value "timeoutAtMs").

Definition parseFinalizationState (value : jsval) : option FinalizationState :=
  if negb (isNonNullObject value) then None
  else
    match getStringProperty value "status" with
    | None => None
    | Some status =>
        match state_keys status with
        | None => None
        | Some keys =>
            if negb (hasOnlyAllowedKeys value keys) then None
            else
              match parseFinalizationId (prop value "finalizationId"),
                    admit_count (getNumberProperty value "queuedAtMs"), optional_count value "startedAtMs" with
              | Some finalizationId, Some queuedAtMs, Some startedAtMs =>
                  parseFinalizationProgress status value finalizationId queuedAtMs startedAtMs
              | _, _, _ => None
              end
        end
    end.

Definition state_value (s : FinalizationState) : jsval :=
  let timing status id queued started :=
    [("status", JStr status); ("finalizationId", JStr id); ("queuedAtMs", JNum queued)]%string ++
    optional "startedAtMs" (JNum <$> started) in
  JObj match s with
  | pending id queued => timing "pending"%string id queued None
  | running id queued started => timing "running"%string id queued (Some started)
  | succeeded id queued started completed =>
      timing "succeeded"%string id queued (Some started) ++ [("completedAtMs"%string, JNum completed)]
  | failed id queued started failedAt error =>
      timing "failed"%string id queued started ++ [("failedAtMs", JNum failedAt); ("error", error)]%string
  | timeout id queued started timeoutAt =>
      timing "timeout"%string id queued started ++ [("timeoutAtMs"%string, JNum timeoutAt)]
  end.

(** ** The scenario *)

Definition FINALIZATION_SCENARIO_CONTEXT_KEYS : list string :=
  ["scenarios"; "tamperMode"; "claimedCounts"; "claimedTotalVotes"; "summary"]%string.
Definition FINALIZATION_SCENARIO_SUMMARY_KEYS : list string :=
  ["ignoredCount"; "recountedCount"; "userRecountChoice"; "affectedBotIds"]%string.

Definition tamper_mode_of_text (s : string) : option ScenarioTamperMode :=
  if String.eqb s "none" then Some tamper_none
  else if String.eqb s "input" then Some tamper_input
  else if String.eqb s "claim" then Some tamper_claim else None.
Definition tamper_mode_text (m : ScenarioTamperMode) : string :=
  match m with tamper_none => "none" | tamper_input => "input" | tamper_claim => "claim" end.

Definition parseFinalizationScenarioContext (value : jsval) : option FinalizationScenarioContext :=
  if negb (isNonNullObject value) || negb (hasOnlyAllowedKeys value FINALIZATION_SCENARIO_CONTEXT_KEYS) then None
  else
    match getStringArrayProperty value "scenarios", getStringProperty value "tamperMode" ≫= tamper_mode_of_text,
          parseCountRecord (prop value "claimedCounts"), admit_count (getNumberProperty value "claimedTotalVotes"),
          getObjectProperty value "summary" with
    | Some scenarios, Some tamperMode, Some claimedCounts, Some claimedTotalVotes, Some summary =>
        if negb (hasOnlyAllowedKeys summary FINALIZATION_SCENARIO_SUMMARY_KEYS) then None
        else
          match admit_count (getNumberProperty summary "ignoredCount"),
                admit_count (getNumberProperty summary "recountedCount"),
                isNullableVoteChoice (prop summary "userRecountChoice"), parseAffectedBotIds summary with
          | Some ignoredCount, Some recountedCount, Some userRecountChoice, Some affectedBotIds =>
              Some (mkScenario scenarios tamperMode claimedCounts claimedTotalVotes ignoredCount recountedCount
                      userRecountChoice affectedBotIds)
          | _, _, _, _ => None
          end
    | _, _, _, _, _ => None
    end.

Definition scenario_value (c : FinalizationScenarioContext) : jsval :=
  JObj [("scenarios", JArr (map JStr (sc_scenarios c))); ("tamperMode", JStr (tamper_mode_text (sc_tamperMode c)));
        ("claimedCounts", counts_value (sc_claimedCounts c)); ("claimedTotalVotes", JNum (sc_claimedTotalVotes c));
        ("summary", JObj ([("ignoredCount", JNum (sc_ignoredCount c)); ("recountedCount", JNum (sc_recountedCount c));
                           ("userRecountChoice", choice_value (sc_userRecountChoice c))]%string ++
                          optional "affectedBotIds" (ids_value <$> sc_affectedBotIds c)))]%string.

End FinStorage.
