(* ===== verification/FinStorageProofs.v ===== *)
(** The stored documents of a finalization are stable: what a reader returned is
    read back unchanged from what the writer makes of it, and a result is the
    same result in its flat and in its nested form. *)
From S2P Require Import Prelude.
From S2P Require Import JsNumber.
From S2P Require Import JsValue.
From S2P Require Import Hex.
From S2P Require Import Contract.
From S2P Require Import LocalCast.
From S2P Require Import Evidence.
From S2P Require Import Journal.
From S2P Require Import HostIo.
From S2P Require Import HostIoProofs.
From S2P Require Import Schema.
From S2P Require Import SchemaProofs.
From S2P Require Import PublicInput.
From S2P Require Import FinStorage.
Import JsValue.
Import Contract.
Import Evidence.
Import Journal.
Import FinStorage.

(** What a reader and a writer of one kind of document promise to each other. *)
Class StableCodec {A} (decode : jsval -> option A) (encode : A -> jsval) : Prop :=
  decode_encode : forall v a, decode v = Some a -> decode (encode a) = Some a.

Ltac decode_inv E :=
  repeat match type of E with
    | (if ?b then _ else _) = Some _ => let H := fresh "Hb" in destruct b eqn:H; [discriminate E |]
    | (if ?b then _ else _) = Some _ => let H := fresh "Hb" in destruct b eqn:H; [| discriminate E]
    | match ?o with Some _ => _ | None => _ end = Some _ =>
        let H := fresh "Ho" in destruct o eqn:H; [| discriminate E]
    | (let '(_, _) := ?p in _) = Some _ => destruct p
    | Some _ = Some _ => injection E as E; subst
    end.

(** Reading a key of a written object. *)
Lemma own_optional key (o : option jsval) k : own (optional key o) k = if String.eqb key k then o else None.
Proof. destruct o as [v |]; cbn; by destruct (String.eqb key k). Qed.

Ltac read_own := cbn [prop hasOwn]; rewrite ?own_app, ?own_optional; cbn [own String.eqb Ascii.eqb Bool.eqb].
Ltac closed_keys := vm_compute; reflexivity.

(** ** Fields *)

Definition is_count (n : num) : Prop := admit_count (isNumber (JNum n)) = Some n.

Lemma admit_count_ok v k n : admit_count (getNumberProperty v k) = Some n -> is_count n.
Proof.
  unfold is_count, getNumberProperty, isNumber. destruct (prop v k) as [| | | m | | | |]; try done.
  destruct (isFinite m) eqn:Ef; [| done]. cbn. destruct (isNonNegativeInteger m) eqn:Ei; [| done].
  intros [= <-]. rewrite Ef. cbn. by rewrite Ei.
Qed.

Lemma admit_safe_ok v k n : admit_safe_count (getNumberProperty v k) = Some n -> admit_safe_count (isNumber (JNum n)) = Some n.
Proof.
  unfold getNumberProperty, isNumber. destruct (prop v k) as [| | | m | | | |]; try done.
  destruct (isFinite m) eqn:Ef; [| done]. cbn. destruct (isNonNegativeSafeInteger m) eqn:Ei; [| done].
  intros [= <-]. rewrite Ef. cbn. by rewrite Ei.
Qed.

Lemma count_number n : is_count n -> isNumber (JNum n) = Some n /\ isNonNegativeInteger n = true.
Proof.
  unfold is_count, admit_count. destruct (isNumber (JNum n)) as [m |] eqn:E; [| done].
  destruct (isNonNegativeInteger m) eqn:Ei; [| done]. by intros [= ->].
Qed.

Definition optional_is_count (o : option num) : Prop := match o with Some n => is_count n | None => True end.

Lemma optional_count_ok v k o : optional_count v k = Some o -> optional_is_count o.
Proof.
  unfold optional_count. destruct (hasOwn v k) eqn:Eh; cbn [andb].
  - destruct (admit_count (getNumberProperty v k)) as [n |] eqn:E; [| done]. cbn. intros [= <-].
    assert (Hc := admit_count_ok _ _ _ E). unfold admit_count in E.
    destruct (getNumberProperty v k) as [m |]; [| done]. destruct (isNonNegativeInteger m); [| done].
    by injection E as ->.
  - intros [= <-]. unfold getNumberProperty, prop, hasOwn in *. destruct v; try done. by destruct (own _ _).
Qed.

Lemma optional_count_read l k o : own l k = JNum <$> o -> optional_is_count o -> optional_count (JObj l) k = Some o.
Proof.
  intros E Ho. unfold optional_count, getNumberProperty. cbn [hasOwn prop]. rewrite E.
  destruct o as [n |]; [| done]. cbn [fmap option_fmap option_map is_some andb].
  destruct (count_number n Ho) as [Hn Hi]. rewrite Hn. cbn. by rewrite Hi.
Qed.

Lemma numbers_all (ns : list num) : Forall (fun n => isNumber (JNum n) = Some n) ns ->
  isNumberArray (JArr (map JNum ns)) = Some ns.
Proof. intros H. cbn. apply all_some_Some. induction H; constructor; done. Qed.

Lemma number_array_ok v k ns : getNumberArrayProperty v k = Some ns -> isNumberArray (JArr (map JNum ns)) = Some ns.
Proof.
  unfold getNumberArrayProperty, isNumberArray at 1. destruct (prop v k) as [| | | | | l | |]; try done.
  intros E%all_some_Some. apply numbers_all. induction E as [| x n l ns Hx _ IH]; constructor; [| done].
  unfold isNumber in Hx |- *. destruct x; try done. destruct (isFinite _) eqn:Ef; [| done]. injection Hx as ->.
  by rewrite Ef.
Qed.

Lemma string_array_all l : isStringArray (JArr (map JStr l)) = Some l.
Proof. cbn. induction l as [| x l IH]; [done |]. cbn. by rewrite IH. Qed.

Lemma boolean_array_all l : isBooleanArray (JArr (map JBool l)) = Some l.
Proof. cbn. induction l as [| x l IH]; [done |]. cbn. by rewrite IH. Qed.

(** ** Properties that may be missing *)

Lemma own_property_obj {A} (parse : jsval -> option A) l k :
  own_property parse (JObj l) k = match own l k with Some v => Some <$> parse v | None => Some None end.
Proof. unfold own_property. cbn [hasOwn prop]. by destruct (own l k). Qed.

Lemma own_property_stable {A} parse encode `{Hs : @StableCodec A parse encode} v k o l :
  own_property parse v k = Some o -> own l k = encode <$> o -> own_property parse (JObj l) k = Some o.
Proof.
  unfold own_property at 1. rewrite own_property_obj. destruct (hasOwn v k).
  - destruct (parse (prop v k)) as [a |] eqn:E; [| done]. intros [= <-] ->. cbn.
    by rewrite (decode_encode _ _ E).
  - by intros [= <-] ->.
Qed.

Lemma defined_property_stable {A} parse encode `{Hs : @StableCodec A parse encode} v k o l :
  (forall a, is_undefined (encode a) = false) ->
  defined_property parse v k = Some o -> own l k = encode <$> o -> defined_property parse (JObj l) k = Some o.
Proof.
  intros Hu. unfold defined_property. cbn [prop]. destruct (is_undefined (prop v k)).
  - by intros [= <-] ->.
  - destruct (parse (prop v k)) as [a |] eqn:E; [| done]. intros [= <-] ->. cbn. rewrite Hu.
    by rewrite (decode_encode _ _ E).
Qed.

(** ** The small documents *)

Lemma counts_stable v counts : parseCountRecord v = Some counts ->
  parseCountRecord (counts_value counts) = Some counts.
Proof.
  unfold parseCountRecord at 1. intros E. decode_inv E. apply all_some_Some in E. unfold VOTE_CHOICES in E.
  repeat (apply Forall2_cons_inv_l in E as (? & ? & ?%admit_count_ok & E & ->)). apply Forall2_nil_inv_l in E as ->.
  unfold parseCountRecord. change (negb _ || negb _) with false. cbv iota.
  cbn [VOTE_CHOICES all_some]. unfold getNumberProperty, counts_value. cbn [VOTE_CHOICES zip zip_with map].
  cbn [prop own String.eqb Ascii.eqb Bool.eqb]. unfold is_count in *.
  repeat match goal with H : admit_count (isNumber (JNum ?n)) = Some ?n |- _ => rewrite H; clear H end. done.
Qed.

#[export] Instance tally_codec : StableCodec parseFinalizationTally tally_value.
Proof.
  intros v t E. unfold parseFinalizationTally in E. decode_inv E.
  apply counts_stable in Ho. apply admit_count_ok in Ho0, Ho1. unfold parseFinalizationTally.
  change (negb _ || negb _) with false. cbv iota. unfold getNumberProperty, tally_value.
  cbn [prop own String.eqb Ascii.eqb Bool.eqb ta_counts ta_totalVotes ta_tamperedCount].
  by rewrite Ho, Ho0, Ho1.
Qed.

#[export] Instance publication_codec : StableCodec parseReceiptPublication publication_value.
Proof.
  intros v p E. unfold parseReceiptPublication in E. decode_inv E.
  apply admit_count_ok in Ho0. apply optional_count_ok in Ho1. unfold parseReceiptPublication.
  assert (Hk : negb (isNonNullObject (publication_value (mkPublication s n o))) ||
               negb (hasOnlyAllowedKeys (publication_value (mkPublication s n o)) RECEIPT_PUBLICATION_KEYS) = false)
    by (destruct o; closed_keys).
  rewrite Hk. unfold publication_value, getStringProperty, getNumberProperty.
  cbn [rp_receiptHash rp_boardIndex rp_timestamp]. rewrite (optional_count_read _ "timestamp" o); [| | done].
  - read_own. cbn [as_string]. by rewrite Ho0.
  - read_own. by destruct o.
Qed.

Lemma receipt_journal_stable v j : truthy_journal (parseReceiptJournal v) = Some j ->
  truthy_journal (parseReceiptJournal (receipt_journal_value j)) = Some j.
Proof.
  intros E. assert (Hp : parseReceiptJournal v = Some j).
  { unfold truthy_journal in E. destruct (parseReceiptJournal v) as [[s | b] |]; [by destruct (str_truthy s) | done | done]. }
  rewrite Hp in E. destruct j as [s | b]; [done |].
  unfold parseReceiptJournal in Hp.
  assert (Hb : exists ns, getNumberArrayProperty v "bytes" = Some ns /\ isIntegerArray ns = true /\ ns = b).
  { destruct v; try done; destruct (_ || _); try done; destruct (getNumberArrayProperty _ _) as [ns |]; try done;
      destruct (isIntegerArray ns) eqn:Ei; try done; injection Hp as ->; by eexists. }
  destruct Hb as (ns & Hn & Hi & ->). apply number_array_ok in Hn.
  cbn [receipt_journal_value]. unfold parseReceiptJournal.
  change (negb _ || negb _) with false. cbv iota. unfold getNumberArrayProperty.
  cbn [prop own String.eqb Ascii.eqb Bool.eqb]. by rewrite Hn, Hi.
Qed.

Lemma metadata_spread v k m : spread <$> getObjectProperty v k = Some m -> exists l, m = JObj l.
Proof.
  unfold getObjectProperty. destruct (isNonNullObject (prop v k)) eqn:E; [| done]. cbn. intros [= <-].
  destruct (prop v k); try done; by eexists.
Qed.

#[export] Instance receipt_codec : StableCodec parseReceiptWithImageId receipt_value.
Proof.
  intros v r E. unfold parseReceiptWithImageId in E. decode_inv E. apply receipt_journal_stable in Ho0.
  set (image := match getStringProperty v "imageId" with Some i => if str_truthy i then Some i else None | None => None end).
  set (metadata := spread <$> getObjectProperty v "metadata").
  assert (Hi : match image with Some i => str_truthy i = true | None => True end).
  { subst image. destruct (getStringProperty v "imageId") as [i |]; [| done]. by destruct (str_truthy i) eqn:Et. }
  assert (Hm : forall m, metadata = Some m -> exists l, m = JObj l) by apply metadata_spread.
  clearbody image metadata. clear Hb Ho. unfold parseReceiptWithImageId.
  assert (Hk : negb (isNonNullObject (receipt_value (mkReceipt s r0 image metadata))) ||
               negb (hasOnlyAllowedKeys (receipt_value (mkReceipt s r0 image metadata)) RECEIPT_KEYS) = false)
    by (destruct image, metadata; closed_keys).
  rewrite Hk. unfold receipt_value, getStringProperty, getObjectProperty.
  cbn [rc_seal rc_journal rc_imageId rc_metadata].
  assert (E1 : forall o : option jsval, match o with Some x => Some x | None => None end = o) by (by intros []).
  read_own. rewrite Ho0. cbn [as_string].
  destruct image as [i |], metadata as [m |]; cbn [fmap option_fmap option_map as_string];
    rewrite ?Hi; try done; destruct (Hm m eq_refl) as [l ->]; done.
Qed.

Lemma bitmap_root_ok o r : bitmap_root o = Some r -> bitmap_root (Some r) = Some r /\ o = Some r.
Proof.
  destruct o as [s |]; [| done]. cbn. destruct (BITMAP_ROOT_PATTERN s) eqn:E; [| done]. intros [= <-]. by rewrite E.
Qed.

Lemma seen_bitmap_ok v seen : parseStoredSeenBitmap v = Some seen ->
  match seen with Some (_, root) => bitmap_root (Some root) = Some root | None => True end.
Proof.
  unfold parseStoredSeenBitmap. intros E. decode_inv E. destruct (getBooleanArrayProperty v "seenBitmap") as [bits |].
  - destruct (bitmap_root (getStringProperty v "seenBitmapRoot")) as [root |] eqn:Er; injection E as <-; [| done].
    by apply bitmap_root_ok in Er as [? _].
  - by injection E as <-.
Qed.

(** Bitmap data as they are read: texts of roots and counts in their ranges. *)
Record bitmap_data_ok (d : FinalizationBitmapData) : Prop := {
  bo_root : bitmap_root (Some (bd_includedBitmapRoot d)) = Some (bd_includedBitmapRoot d);
  bo_size : admit_safe_count (isNumber (JNum (bd_treeSize d))) = Some (bd_treeSize d);
  bo_time : admit_safe_count (isNumber (JNum (bd_finalizedAtMs d))) = Some (bd_finalizedAtMs d);
  bo_seen : match bd_seen d with Some (_, root) => bitmap_root (Some root) = Some root | None => True end;
}.

Lemma bitmap_data_read v d : parseFinalizationBitmapData v = Some d -> bitmap_data_ok d.
Proof.
  unfold parseFinalizationBitmapData. intros E. decode_inv E.
  apply bitmap_root_ok in Ho0 as [Hr _]. apply admit_safe_ok in Ho1, Ho2. apply seen_bitmap_ok in Ho3. by split.
Qed.

Lemma bitmap_data_back d : bitmap_data_ok d -> parseFinalizationBitmapData (encodeFinalizationBitmapData d) = Some d.
Proof.
  destruct d as [l s o n n0]. intros [Hr Ho1 Ho2 Ho3]. cbn [bd_includedBitmapRoot bd_treeSize bd_finalizedAtMs bd_seen] in *.
  unfold parseFinalizationBitmapData.
  set (data := encodeFinalizationBitmapData _).
  assert (Hk : negb (isNonNullObject data) || negb (hasOnlyAllowedKeys data BITMAP_DATA_KEYS) = false)
    by (subst data; destruct o as [[] |]; closed_keys).
  rewrite Hk. assert (Hb : forall k, prop data k = match own (match data with JObj l => l | _ => [] end) k with
                                                 | Some x => x | None => JUndefined end) by done.
  assert (E1 : getBooleanArrayProperty data "includedBitmap" = Some l) by apply boolean_array_all.
  assert (E2 : getStringProperty data "includedBitmapRoot" = Some s) by done.
  assert (E3 : getNumberProperty data "treeSize" = isNumber (JNum n)) by (subst data; by destruct o as [[] |]).
  assert (E4 : getNumberProperty data "finalizedAtMs" = isNumber (JNum n0)) by (subst data; by destruct o as [[] |]).
  rewrite E1, E2, E3, E4, Hr, Ho1, Ho2.
  assert (E5 : parseStoredSeenBitmap data = Some o); [| by rewrite E5].
  subst data. destruct o as [[bits root] |]; [| done]. unfold parseStoredSeenBitmap, getBooleanArrayProperty, getStringProperty.
  cbn [encodeFinalizationBitmapData bd_includedBitmap bd_includedBitmapRoot bd_seen app prop hasOwn own String.eqb
       Ascii.eqb Bool.eqb is_some negb]. rewrite boolean_array_all. unfold as_string. by rewrite Ho3.
Qed.

#[export] Instance bitmap_data_codec : StableCodec parseFinalizationBitmapData encodeFinalizationBitmapData.
Proof. intros v d E. by eapply bitmap_data_back, bitmap_data_read. Qed.

(** ** Choices and affected bots *)

Lemma choice_ok v o : isNullableVoteChoice v = Some o -> isNullableVoteChoice (choice_value o) = Some o.
Proof.
  destruct v; try done; cbn [isNullableVoteChoice]; [by intros [= <-] |].
  destruct (existsb _ _) eqn:E; [| done]. intros [= <-]. cbn [choice_value isNullableVoteChoice]. by rewrite E.
Qed.

Definition bots_ok (o : option (list num)) : Prop :=
  match o with
  | Some ids => isNumberArray (JArr (map JNum ids)) = Some ids /\ isIntegerArray ids = true
  | None => True
  end.

Lemma affected_bots_ok v o : parseAffectedBotIds v = Some o -> bots_ok o.
Proof.
  unfold parseAffectedBotIds. destruct (hasOwn v "affectedBotIds") eqn:Eh; cbn [andb].
  - destruct (getNumberArrayProperty v "affectedBotIds") as [ids |] eqn:En; [| done].
    destruct (isIntegerArray ids) eqn:Ei; [| done]. intros [= <-]. split; [by eapply number_array_ok | done].
  - intros [= <-]. unfold getNumberArrayProperty, prop, hasOwn in *. destruct v; try done. by destruct (own _ _).
Qed.

Lemma affected_bots_read l o : own l "affectedBotIds" = ids_value <$> o -> bots_ok o ->
  parseAffectedBotIds (JObj l) = Some o.
Proof.
  intros E Ho. unfold parseAffectedBotIds, getNumberArrayProperty. cbn [hasOwn prop]. rewrite E.
  destruct o as [ids |]; [| done]. destruct Ho as [Hn Hi]. unfold ids_value. cbn [fmap option_fmap option_map is_some andb].
  by rewrite Hn, Hi.
Qed.

#[export] Instance tamper_summary_codec : StableCodec parseTamperSummary tamper_summary_value.
Proof.
  intros v t E. unfold parseTamperSummary in E. decode_inv E.
  apply admit_count_ok in Ho, Ho0. apply choice_ok in Ho1. apply affected_bots_ok in Ho2. clear Hb.
  unfold parseTamperSummary.
  assert (Hk : forall w, w = tamper_summary_value (mkTamperSummary n n0 o o0) ->
    negb (isNonNullObject w) || negb (hasOnlyAllowedKeys w TAMPER_SUMMARY_KEYS) = false)
    by (intros w ->; destruct o0; closed_keys).
  rewrite (Hk _ eq_refl). unfold tamper_summary_value, getNumberProperty.
  cbn [ts_ignoredVotes ts_recountedVotes ts_userRecountedTo ts_affectedBotIds].
  rewrite (affected_bots_read _ o0); [| read_own; by destruct o0 | done].
  read_own. by rewrite Ho, Ho0, Ho1.
Qed.

#[export] Instance scenario_codec : StableCodec parseFinalizationScenarioContext scenario_value.
Proof.
  intros v c E. unfold parseFinalizationScenarioContext in E. decode_inv E.
  assert (Hmode : tamper_mode_of_text (tamper_mode_text s) = Some s) by (by destruct s).
  apply counts_stable in Ho1. apply admit_count_ok in Ho2, Ho4, Ho5. apply choice_ok in Ho6.
  apply affected_bots_ok in Ho7. clear -Hmode Ho1 Ho2 Ho4 Ho5 Ho6 Ho7.
  unfold parseFinalizationScenarioContext. change (negb _ || negb _) with false. cbv iota.
  unfold getNumberProperty, getStringArrayProperty, getStringProperty, getObjectProperty, scenario_value.
  cbn [sc_scenarios sc_tamperMode sc_claimedCounts sc_claimedTotalVotes sc_ignoredCount sc_recountedCount
       sc_userRecountChoice sc_affectedBotIds].
  set (summary := JObj (_ ++ optional "affectedBotIds" _)).
  cbn [prop own String.eqb Ascii.eqb Bool.eqb]. rewrite string_array_all, Ho1, Ho2.
  cbn [as_string mbind option_bind]. rewrite Hmode.
  change (isNonNullObject summary) with true. cbv iota.
  assert (Hk : negb (hasOnlyAllowedKeys summary FINALIZATION_SCENARIO_SUMMARY_KEYS) = false)
    by (subst summary; destruct o0; closed_keys).
  rewrite Hk. subst summary. rewrite (affected_bots_read _ o0); [| read_own; by destruct o0 | done].
  read_own. by rewrite Ho4, Ho5, Ho6.
Qed.

(** ** The state of an attempt *)

Lemma category_ok v c : parseFinalizationErrorCategory v = Some c ->
  match c with Some s => existsb (String.eqb s) FINALIZATION_FAILURE_CATEGORIES = true | None => True end.
Proof.
  unfold parseFinalizationErrorCategory. destruct (hasOwn v "category") eqn:Eh; cbn [andb].
  - destruct (getStringProperty v "category") as [s |]; [| done].
    destruct (existsb _ _) eqn:E; [| done]. by intros [= <-].
  - intros [= <-]. unfold getStringProperty, prop, hasOwn in *. destruct v; try done. by destruct (own _ _).
Qed.

Lemma error_stable v e : parseFinalizationError v = Some e -> parseFinalizationError e = Some e.
Proof.
  unfold parseFinalizationError at 1. intros E. decode_inv E. apply category_ok in Ho1. clear Hb Ho Ho0.
  set (details := when_own v "details").
  assert (Hd : details = [] \/ exists d, details = [("details"%string, d)])
    by (subst details; unfold when_own; destruct (hasOwn v "details"); [right; by eexists | by left]).
  clearbody details. unfold parseFinalizationError.
  set (w := JObj _). assert (Hk : negb (isNonNullObject w) || negb (hasOnlyAllowedKeys w FINALIZATION_ERROR_KEYS) = false)
    by (subst w; destruct o, Hd as [-> | [d ->]]; closed_keys).
  rewrite Hk. change (getStringProperty w "code") with (Some s). change (getStringProperty w "message") with (Some s0).
  assert (Hc : parseFinalizationErrorCategory w = Some o).
  { subst w. unfold parseFinalizationErrorCategory, getStringProperty.
    destruct o as [c |], Hd as [-> | [d ->]]; cbn [fmap option_fmap option_map optional app hasOwn prop own String.eqb
      Ascii.eqb Bool.eqb is_some andb as_string]; rewrite ?Ho1; done. }
  rewrite Hc. subst w. unfold when_own.
  destruct o as [c |], Hd as [-> | [d ->]]; done.
Qed.

Lemma segment_ok v s : parseFinalizationId v = Some s -> parseFinalizationId (JStr s) = Some s.
Proof. destruct v; try done. cbn. destruct (isSafeVerifierSegment s0) eqn:E; [| done]. intros [= <-]. by rewrite E. Qed.

(** What a state holds once it was read. *)
Definition state_ok (s : FinalizationState) : Prop :=
  match s with
  | pending i q => parseFinalizationId (JStr i) = Some i /\ is_count q
  | running i q st => parseFinalizationId (JStr i) = Some i /\ is_count q /\ is_count st
  | succeeded i q st c => parseFinalizationId (JStr i) = Some i /\ is_count q /\ is_count st /\ is_count c
  | failed i q st f e => parseFinalizationId (JStr i) = Some i /\ is_count q /\ optional_is_count st /\ is_count f /\
                         parseFinalizationError e = Some e
  | timeout i q st t => parseFinalizationId (JStr i) = Some i /\ is_count q /\ optional_is_count st /\ is_count t
  end.

Lemma count_again o n : optional_is_count o -> admit_count o = Some n -> is_count n.
Proof.
  destruct o as [m |]; [| done]. cbn. intros Hm. destruct (isNonNegativeInteger m); [| done]. by intros [= <-].
Qed.

Lemma count_admitted n : is_count n -> admit_count (Some n) = Some n.
Proof. intros [_ Hi]%count_number. cbn. by rewrite Hi. Qed.

Lemma state_read v s : parseFinalizationState v = Some s -> state_ok s.
Proof.
  unfold parseFinalizationState. intros E. decode_inv E.
  apply segment_ok in Ho1. apply admit_count_ok in Ho2. apply optional_count_ok in Ho3.
  unfold parseFinalizationProgress in E. destruct (String.eqb s0 "pending"); [by injection E as <- |].
  destruct (String.eqb s0 "running").
  { destruct (admit_count o) as [st |] eqn:Es; [| done]. injection E as <-. split_and!; try done. by eapply count_again. }
  destruct (String.eqb s0 "succeeded").
  { unfold parseCompletedFinalization in E. decode_inv E. apply admit_count_ok in Ho5.
    split_and!; try done. by eapply count_again. }
  destruct (String.eqb s0 "failed").
  { unfold parseFailedFinalization in E. decode_inv E. apply admit_count_ok in Ho4. apply error_stable in Ho5. done. }
  destruct (admit_count (getNumberProperty v "timeoutAtMs")) as [t |] eqn:Et; [| done]. injection E as <-.
  apply admit_count_ok in Et. done.
Qed.

Lemma read_count l k n : own l k = Some (JNum n) -> is_count n -> admit_count (getNumberProperty (JObj l) k) = Some n.
Proof. intros E Hn. unfold getNumberProperty. cbn [prop]. by rewrite E. Qed.

Definition state_started (s : FinalizationState) : option num :=
  match s with
  | pending _ _ => None
  | running _ _ st | succeeded _ _ st _ => Some st
  | failed _ _ st _ _ | timeout _ _ st _ => st
  end.

Lemma state_keys_ok s status : getStringProperty (state_value s) "status" = Some status -> exists keys,
  state_keys status = Some keys /\ hasOnlyAllowedKeys (state_value s) keys = true.
Proof.
  destruct s as [| | | i q [] f e | i q [] t]; intros [= <-]; eexists; (split; [vm_compute; reflexivity | closed_keys]).
Qed.

Lemma state_write s : state_ok s -> parseFinalizationState (state_value s) = Some s.
Proof.
  intros Hs. assert (Hkeys := state_keys_ok s). unfold parseFinalizationState.
  change (negb (isNonNullObject (state_value s))) with false. cbv iota.
  destruct (getStringProperty (state_value s) "status") as [status |] eqn:Est; [| by destruct s].
  destruct (Hkeys status eq_refl) as (keys & -> & ->). cbn [negb].
  assert (Hst : optional_count (state_value s) "startedAtMs" = Some (state_started s)).
  { destruct s; cbn [state_ok state_started] in *; apply optional_count_read; (try by read_own); try (by apply Hs);
      read_own; by case_match. }
  rewrite Hst. destruct s as [i q | i q st | i q st c | i q st f e | i q st t]; cbn [state_ok] in Hs;
    injection Est as <-; destruct_and! Hs; unfold state_value; rewrite (read_count _ "queuedAtMs" q) by done;
    read_own; match goal with H : parseFinalizationId _ = Some _ |- _ => rewrite H end;
    unfold parseFinalizationProgress, parseCompletedFinalization, parseFailedFinalization;
    cbn [String.eqb Ascii.eqb Bool.eqb state_started]; rewrite ?count_admitted by done; try done.
  - rewrite (read_count _ "completedAtMs" c) by done. done.
  - rewrite (read_count _ "failedAtMs" f); [| read_own; by destruct st | done]. read_own.
    match goal with H : parseFinalizationError e = _ |- _ => by rewrite H end.
  - rewrite (read_count _ "timeoutAtMs" t); [done | read_own; by destruct st | done].
Qed.

#[export] Instance state_codec : StableCodec parseFinalizationState state_value.
Proof. intros v s E. apply state_write. by eapply state_read. Qed.

(** ** The journal and the public audit *)

(** A journal that the guard admitted is projected without an exception. *)
Lemma admitted_journal_public v : isSupportedZkVMJournal v = true ->
  toPublicZkvmJournal (read_journal v) = Ok (read_journal v).
Proof. intros [_ Hc]%supported_reads. by apply current_public. Qed.

Lemma read_value j : current_journal j -> read_journal (journal_value j) = j.
Proof.
  intros Hc. assert (Hs := value_supported j Hc). assert (Hev := evidence_finite j (cur_numbers j Hc)).
  assert (Hv := cur_version j Hc).
  unfold semantic_evidence, journal_evidence in Hev. injection Hev as E1 E2 E3 E4 E5 E6 E7 E8 E9 E10 E11 E12 E13.
  unfold read_journal, number_at. rewrite E1, E2, E3, E4, E5, E6, E7, E10, E11, E12, E13, value_seen, value_image, value_version, Hv.
  destruct j as [? ? ? ? ? ? ? ? ? ? ? ? ? ? [] ? ? ? ? []]; cbn in Hv |- *; by rewrite Hv.
Qed.

#[export] Instance journal_codec : StableCodec parseStoredJournal journal_value.
Proof.
  intros v j. unfold parseStoredJournal at 1. destruct (_ && isSupportedZkVMJournal v) eqn:E; [| done].
  apply andb_true_iff in E as [_ E]. rewrite (admitted_journal_public v E). intros [= <-].
  destruct (supported_reads v E) as [_ Hc]. unfold parseStoredJournal. rewrite value_supported by done.
  assert (Hk : isNonNullObject (journal_value (read_journal v)) &&
               hasOnlyAllowedKeys (journal_value (read_journal v)) JOURNAL_KEYS = true).
  { destruct (read_journal v) as [? ? ? ? ? ? ? ? ? ? ? ? ? ? [] ? ? ? ? []]; closed_keys. }
  rewrite Hk. cbn [andb]. rewrite admitted_journal_public by (by apply value_supported). by rewrite read_value.
Qed.

Lemma hash_admitted x : PublicInput.isPublicInputHash (Some x) = true -> canonical_hash (addHexPrefix (normalizeHexString x)).
Proof. apply hash_again. Qed.

Lemma integer_admitted v k n : getNumberProperty v k = Some n -> PublicInput.isPublicInputInteger (Some n) = true ->
  isNumber (JNum n) = Some n /\ isInteger n = true.
Proof. intros (_ & Hf)%number_property Hi. unfold isNumber. by rewrite Hf. Qed.

Lemma stored_storable v a : PublicInput.admitStoredPublicInputAuthority v = Some a -> storable a.
Proof.
  unfold PublicInput.admitStoredPublicInputAuthority, PublicInput.admitStoredInputIdentity,
    PublicInput.admitStoredInputSnapshot, PublicInput.admitStoredInputVoteFacts. intros E.
  destruct (LocalCast.nonempty (getStringProperty v "electionId")) as [e |] eqn:H1; [| done].
  destruct (getStringProperty v "electionConfigHash") as [h |]; [| done].
  destruct (getNumberProperty v "methodVersion") as [m |] eqn:H2; [| done].
  destruct (_ && _) eqn:Hb1 in E; [| done].
  destruct (getStringProperty v "bulletinRoot") as [r |]; [| done].
  destruct (getNumberProperty v "treeSize") as [t |] eqn:H3; [| done].
  destruct (getNumberProperty v "totalExpected") as [x |] eqn:H4; [| done].
  destruct (getStringProperty v "logId") as [l |]; [| done].
  destruct (getNumberProperty v "timestamp") as [ts |] eqn:H5; [| done].
  destruct (_ && _ && _ && _ && _) eqn:Hb2 in E; [| done].
  destruct (getNumberProperty v "votesCount") as [c |] eqn:H6; [| done].
  destruct (prop v "uniqueIndices"); try done. destruct (prop v "uniqueCommitments"); try done.
  destruct (getStringProperty v "recomputedInputCommitment") as [rc |]; [| done].
  destruct (_ && _) eqn:Hb3 in E; [| done]. injection E as <-.
  rewrite !andb_true_iff in Hb1. rewrite !andb_true_iff in Hb2. rewrite !andb_true_iff in Hb3.
  destruct Hb1, Hb2 as [[[[]]]], Hb3. apply nonempty_Some in H1 as [_ H1]. split.
  - cbn. by destruct e.
  - repeat (apply Forall_cons; split; [by apply hash_admitted |]). by apply Forall_nil.
  - repeat (apply Forall_cons; split; [by eapply integer_admitted |]). by apply Forall_nil.
Qed.

#[export] Instance stored_public_input_codec :
  StableCodec PublicInput.parseStoredPublicInputArtifact PublicInput.supported_value.
Proof.
  intros v s. unfold PublicInput.parseStoredPublicInputArtifact at 1.
  destruct (PublicInput.admitStoredInputRecord (Some v) _) as [record |]; [| done].
  destruct (PublicInput.admitStoredInputRecord _ _) as [format |]; [| done].
  destruct (PublicInput.admitStoredInputRecord _ _) as [provenance |]; [| done].
  destruct (PublicInput.admitStoredInputRecord _ _) as [authority |]; [| done].
  destruct (negb _); [done |]. destruct (_ ≫= _) as [source |]; [| done].
  destruct (PublicInput.admitStoredPublicInputAuthority authority) as [a |] eqn:Ea; [| done].
  destruct (PublicInput.projectStoredPublicInputProvenance provenance) as [fid bk] eqn:Ep. intros [= <-].
  unfold PublicInput.projectStoredPublicInputProvenance in Ep. injection Ep as Ef Eb.
  assert (Hne : forall o, provenance_text (LocalCast.nonempty o)).
  { intros [x |]; [| done]. unfold provenance_text. cbn. destruct (str_truthy x) eqn:E; cbn; by rewrite ?E. }
  apply stored_supported; [by eapply stored_storable | |]; [rewrite <- Ef | rewrite <- Eb]; apply Hne.
Qed.

#[export] Instance bool_codec : StableCodec as_bool JBool.
Proof. intros v b _. done. Qed.

#[export] Instance texts_codec : StableCodec isStringArray (fun l => JArr (map JStr l)).
Proof. intros v l _. apply string_array_all. Qed.

(** ** Results *)

Definition readable {A} (decode : jsval -> option A) (encode : A -> jsval) (o : option A) : Prop :=
  match o with Some a => decode (encode a) = Some a | None => True end.

Lemma own_readable {A} decode encode `{@StableCodec A decode encode} v k o :
  own_property decode v k = Some o -> readable decode encode o.
Proof.
  unfold own_property. destruct (hasOwn v k); [| by intros [= <-]].
  destruct (decode (prop v k)) as [a |] eqn:E; [| done]. intros [= <-]. by eapply decode_encode.
Qed.

Lemma defined_readable {A} decode encode `{@StableCodec A decode encode} v k o :
  defined_property decode v k = Some o -> readable decode encode o.
Proof.
  unfold defined_property. destruct (is_undefined _); [by intros [= <-] |].
  destruct (decode (prop v k)) as [a |] eqn:E; [| done]. intros [= <-]. by eapply decode_encode.
Qed.

Lemma read_own_property {A} (decode : jsval -> option A) encode l k o :
  own l k = encode <$> o -> readable decode encode o -> own_property decode (JObj l) k = Some o.
Proof. intros E Ho. rewrite own_property_obj, E. destruct o as [a |]; [| done]. cbn. by rewrite Ho. Qed.

Lemma read_defined_property {A} (decode : jsval -> option A) encode l k o :
  (forall a, is_undefined (encode a) = false) ->
  own l k = encode <$> o -> readable decode encode o -> defined_property decode (JObj l) k = Some o.
Proof.
  intros Hu E Ho. unfold defined_property. cbn [prop]. rewrite E. destruct o as [a |]; [| done].
  cbn. by rewrite Hu, Ho.
Qed.

Definition audit_ok (p : PublicAuditArtifacts) : Prop :=
  PublicInput.parseStoredPublicInputArtifact (PublicInput.supported_value (au_publicInputArtifact p)) =
    Some (au_publicInputArtifact p) /\
  parseStoredElectionManifest (au_electionManifest p) = Some (au_electionManifest p) /\
  parseStoredCloseStatement (au_closeStatement p) = Some (au_closeStatement p).

(** A result whose documents are all readable. *)
Record authority_ok (a : FinalizationResultAuthority) : Prop := {
  ok_tally : parseFinalizationTally (tally_value (ra_tally a)) = Some (ra_tally a);
  ok_journal : parseStoredJournal (journal_value (ra_journal a)) = Some (ra_journal a);
  ok_summary : readable parseTamperSummary tamper_summary_value (ra_tamperSummary a);
  ok_receipt : readable parseReceiptWithImageId receipt_value (fa_receipt (ra_artifacts a));
  ok_publication : readable parseReceiptPublication publication_value (fa_receiptPublication (ra_artifacts a));
  ok_audit : match fa_publicAudit (ra_artifacts a) with Some p => audit_ok p | None => True end;
  ok_bitmap : match fa_bitmap (ra_artifacts a) with
              | Some (_, d) => parseFinalizationBitmapData (encodeFinalizationBitmapData d) = Some d
              | None => True
              end;
}.

(** The properties of an object are those of a flat result. *)
Record shows (l : list (string * jsval)) (a : FinalizationResultAuthority) : Prop := {
  sh_keys : hasOnlyAllowedKeys (JObj l) FINALIZATION_RESULT_AUTHORITY_KEYS = true;
  sh_tally : own l "tally" = Some (tally_value (ra_tally a));
  sh_imageId : own l "imageId" = Some (JStr (ra_imageId a));
  sh_journal : own l "journal" = Some (journal_value (ra_journal a));
  sh_detected : own l "tamperDetected" = JBool <$> ra_tamperDetected a;
  sh_scenarios : own l "scenarios" = (fun x => JArr (map JStr x)) <$> ra_scenarios a;
  sh_summary : own l "tamperSummary" = tamper_summary_value <$> ra_tamperSummary a;
  sh_receipt : own l "receipt" = receipt_value <$> fa_receipt (ra_artifacts a);
  sh_publication : own l "receiptPublication" = publication_value <$> fa_receiptPublication (ra_artifacts a);
  sh_input : own l "publicInputArtifact" =
    (fun p => PublicInput.supported_value (au_publicInputArtifact p)) <$> fa_publicAudit (ra_artifacts a);
  sh_manifest : own l "electionManifest" = au_electionManifest <$> fa_publicAudit (ra_artifacts a);
  sh_close : own l "closeStatement" = au_closeStatement <$> fa_publicAudit (ra_artifacts a);
  sh_source : own l "bitmapProofSource" = (fun b => source_value b.1) <$> fa_bitmap (ra_artifacts a);
  sh_data : own l "bitmapData" = (fun b => encodeFinalizationBitmapData b.2) <$> fa_bitmap (ra_artifacts a);
}.

Lemma audit_read v o : parseStoredPublicAuditArtifacts v = Some o -> match o with Some p => audit_ok p | None => True end.
Proof.
  unfold parseStoredPublicAuditArtifacts. intros E. destruct (forallb negb _); [by injection E as <- |]. decode_inv E.
  split_and!; cbn.
  - by eapply decode_encode.
  - unfold parseStoredElectionManifest in Ho0. destruct (_ && _ && _) eqn:Ek in Ho0; [| done]. injection Ho0 as <-.
    unfold parseStoredElectionManifest. by rewrite Ek.
  - unfold parseStoredCloseStatement in Ho1. destruct (_ && _ && _) eqn:Ek in Ho1; [| done]. injection Ho1 as <-.
    unfold parseStoredCloseStatement. by rewrite Ek.
Qed.

Lemma audit_write l a : shows l a ->
  match fa_publicAudit (ra_artifacts a) with Some p => audit_ok p | None => True end ->
  parseStoredPublicAuditArtifacts (JObj l) = Some (fa_publicAudit (ra_artifacts a)).
Proof.
  intros Hl. unfold parseStoredPublicAuditArtifacts, PUBLIC_AUDIT_KEYS. cbn [map hasOwn prop].
  rewrite (sh_input l a Hl), (sh_manifest l a Hl), (sh_close l a Hl).
  destruct (fa_publicAudit (ra_artifacts a)) as [p |]; [| done]. intros (H1 & H2 & H3).
  cbn [fmap option_fmap option_map is_some forallb negb andb id]. rewrite H1, H2, H3. by destruct p.
Qed.

Lemma bitmap_read v o : parseStoredBitmapArtifact v = Some o ->
  match o with Some (_, d) => parseFinalizationBitmapData (encodeFinalizationBitmapData d) = Some d | None => True end.
Proof.
  unfold parseStoredBitmapArtifact. intros E. destruct (_ && _); [by injection E as <- |]. decode_inv E.
  by eapply decode_encode.
Qed.

Lemma bitmap_write l a : shows l a ->
  match fa_bitmap (ra_artifacts a) with
  | Some (_, d) => parseFinalizationBitmapData (encodeFinalizationBitmapData d) = Some d
  | None => True
  end ->
  parseStoredBitmapArtifact (JObj l) = Some (fa_bitmap (ra_artifacts a)).
Proof.
  intros Hl. unfold parseStoredBitmapArtifact. cbn [hasOwn prop]. rewrite (sh_source l a Hl), (sh_data l a Hl).
  destruct (fa_bitmap (ra_artifacts a)) as [[source d] |]; [| done]. intros Hd.
  cbn [fmap option_fmap option_map is_some negb andb Bool.eqb fst snd]. rewrite Hd. by destruct source.
Qed.

Lemma authority_read v a : parseFinalizationResultAuthority v = Some a -> authority_ok a.
Proof.
  unfold parseFinalizationResultAuthority. intros E.
  destruct (_ || _); [done |].
  destruct (parseFinalizationTally _) as [tally |] eqn:Et; [| done].
  destruct (getStringProperty v "imageId") as [imageId |]; [| done].
  destruct (parseStoredJournal _) as [journal |] eqn:Ej; [| done].
  destruct (parseStoredScenarioPresentation v) as [[[detected scenarios] summary] |] eqn:Ep; [| done].
  destruct (parseStoredReceiptArtifacts v) as [[receipt publication] |] eqn:Er; [| done].
  destruct (parseStoredPublicAuditArtifacts v) as [audit |] eqn:Ea; [| done].
  destruct (parseStoredBitmapArtifact v) as [bitmap |] eqn:Eb; [| done]. injection E as <-.
  unfold parseStoredScenarioPresentation in Ep. unfold parseStoredReceiptArtifacts in Er.
  destruct (own_property as_bool _ _); [| done]. destruct (defined_property isStringArray _ _); [| done].
  destruct (defined_property parseTamperSummary _ _) eqn:Es; [| done]. injection Ep as -> -> ->.
  destruct (own_property parseReceiptWithImageId _ _) eqn:Er1; [| done].
  destruct (own_property parseReceiptPublication _ _) eqn:Er2; [| done]. injection Er as -> ->.
  split; cbn.
  - by eapply decode_encode.
  - by eapply decode_encode.
  - by eapply defined_readable; [apply tamper_summary_codec |].
  - by eapply own_readable; [apply receipt_codec |].
  - by eapply own_readable; [apply publication_codec |].
  - by eapply audit_read.
  - by eapply bitmap_read.
Qed.

(** An object that shows a readable result is read as that result. *)
Lemma authority_from l a : authority_ok a -> shows l a -> parseFinalizationResultAuthority (JObj l) = Some a.
Proof.
  intros Ha Hl. assert (Hau := audit_write l a Hl (ok_audit a Ha)). assert (Hbm := bitmap_write l a Hl (ok_bitmap a Ha)).
  unfold parseFinalizationResultAuthority. rewrite (sh_keys l a Hl). cbn [isNonNullObject negb orb].
  unfold getStringProperty. cbn [prop]. rewrite (sh_tally l a Hl), (sh_imageId l a Hl), (sh_journal l a Hl).
  rewrite (ok_tally a Ha), (ok_journal a Ha), Hau, Hbm. cbn [as_string].
  unfold parseStoredScenarioPresentation, parseStoredReceiptArtifacts.
  rewrite (read_own_property as_bool JBool l _ (ra_tamperDetected a));
    [| apply (sh_detected l a Hl) | by destruct (ra_tamperDetected a)].
  rewrite (read_defined_property isStringArray (fun x => JArr (map JStr x)) l _ (ra_scenarios a));
    [| done | apply (sh_scenarios l a Hl) | destruct (ra_scenarios a); [apply string_array_all | done]].
  rewrite (read_defined_property parseTamperSummary tamper_summary_value l _ (ra_tamperSummary a));
    [| done | apply (sh_summary l a Hl) | apply (ok_summary a Ha)].
  rewrite (read_own_property parseReceiptWithImageId receipt_value l _ (fa_receipt (ra_artifacts a)));
    [| apply (sh_receipt l a Hl) | apply (ok_receipt a Ha)].
  rewrite (read_own_property parseReceiptPublication publication_value l _ (fa_receiptPublication (ra_artifacts a)));
    [| apply (sh_publication l a Hl) | apply (ok_publication a Ha)].
  by destruct a as [? ? ? ? ? ? []].
Qed.

Lemma encode_shows a : shows (encodeFinalizationResultAuthority a) a.
Proof.
  destruct a as [tally imageId journal detected scenarios summary [receipt publication audit bitmap]].
  unfold encodeFinalizationResultAuthority, common_properties.
  cbn [ra_tally ra_imageId ra_journal ra_tamperDetected ra_scenarios ra_tamperSummary ra_artifacts fa_receipt
       fa_receiptPublication fa_publicAudit fa_bitmap].
  split; cbn [ra_tally ra_imageId ra_journal ra_tamperDetected ra_scenarios ra_tamperSummary ra_artifacts fa_receipt
       fa_receiptPublication fa_publicAudit fa_bitmap].
  1: by destruct detected, scenarios, summary, receipt, publication, audit, bitmap as [[]|]; closed_keys.
  all: destruct audit as [p |], bitmap as [[] |]; read_own; by repeat case_match.
Qed.

#[export] Instance result_codec : StableCodec parseFinalizationResultAuthority (fun a => JObj (encodeFinalizationResultAuthority a)).
Proof. intros v a E. apply authority_from; [by eapply authority_read | apply encode_shows]. Qed.

(** ** The nested form *)

(** The object that [admitFinalizationResultAuthority] reads. *)
Definition flattened (value : jsval) : list (string * jsval) :=
  let artifacts := prop value "artifacts" in
  [("tally", prop value "tally"); ("imageId", prop value "imageId"); ("journal", prop value "journal")]%string ++
  when_own value "tamperDetected" ++ when_own value "scenarios" ++ when_own value "tamperSummary" ++
  when_available (prop artifacts "receipt") [("receipt"%string, prop (prop artifacts "receipt") "receipt")] ++
  when_available (prop artifacts "receiptPublication")
    [("receiptPublication"%string, prop (prop artifacts "receiptPublication") "publication")] ++
  when_available (prop artifacts "publicAudit")
    [("publicInputArtifact", prop (prop artifacts "publicAudit") "publicInputArtifact");
     ("electionManifest", prop (prop artifacts "publicAudit") "electionManifest");
     ("closeStatement", prop (prop artifacts "publicAudit") "closeStatement")]%string ++
  when_available (prop artifacts "bitmap")
    [("bitmapProofSource", prop (prop artifacts "bitmap") "proofSource");
     ("bitmapData", prop (prop artifacts "bitmap") "data")]%string.

Lemma admit_flattens v a : admitFinalizationResultAuthority v = Some a ->
  parseFinalizationResultAuthority (JObj (flattened v)) = Some a.
Proof.
  unfold admitFinalizationResultAuthority. destruct (_ || _); [done |]. destruct (_ || _); [done |].
  by destruct (_ || _ || _ || _).
Qed.

Lemma nested_admitted a : hasOnlyAllowedKeys (JObj (result_authority_value a)) ADMITTED_FINALIZATION_RESULT_AUTHORITY_KEYS = true.
Proof. destruct a as [? ? ? [] [] [] ?]; closed_keys. Qed.

Lemma nested_artifacts a : prop (JObj (result_authority_value a)) "artifacts" = artifacts_value (ra_artifacts a).
Proof. unfold result_authority_value, common_properties. read_own. by destruct (ra_tamperDetected a), (ra_scenarios a), (ra_tamperSummary a). Qed.

Lemma nested_shows a : shows (flattened (JObj (result_authority_value a))) a.
Proof.
  unfold flattened. rewrite nested_artifacts.
  destruct a as [tally imageId journal detected scenarios summary [receipt publication audit bitmap]].
  destruct detected, scenarios, summary, receipt, publication, audit, bitmap as [[]|];
    (split; [closed_keys | reflexivity ..]).
Qed.

Lemma nested_read a : authority_ok a -> admitFinalizationResultAuthority (JObj (result_authority_value a)) = Some a.
Proof.
  intros E. unfold admitFinalizationResultAuthority.
  rewrite nested_admitted, nested_artifacts. cbn [isNonNullObject negb orb].
  assert (Ea : hasExactOwnKeys (artifacts_value (ra_artifacts a)) FINALIZATION_ARTIFACT_AVAILABILITY_KEYS = true)
    by closed_keys.
  rewrite Ea. cbn [isNonNullObject artifacts_value negb orb].
  assert (Ek : negb (hasExactAvailabilityKeys (prop (artifacts_value (ra_artifacts a)) "publicAudit") PUBLIC_AUDIT_KEYS)
    || negb (hasExactAvailabilityKeys (prop (artifacts_value (ra_artifacts a)) "receipt") ["receipt"%string])
    || negb (hasExactAvailabilityKeys (prop (artifacts_value (ra_artifacts a)) "receiptPublication") ["publication"%string])
    || negb (hasExactAvailabilityKeys (prop (artifacts_value (ra_artifacts a)) "bitmap") ["proofSource"; "data"]%string) = false).
  { destruct (ra_artifacts a) as [[] [] [] []]; closed_keys. }
  rewrite Ek. assert (H := authority_from _ a E (nested_shows a)). unfold flattened in H. by rewrite nested_artifacts in H.
Qed.

#[export] Instance admitted_codec :
  StableCodec admitFinalizationResultAuthority (fun a => JObj (result_authority_value a)).
Proof. intros v a E%admit_flattens%authority_read. by apply nested_read. Qed.

(** The two forms hold the same results. *)
Lemma admitted_stored v a : admitFinalizationResultAuthority v = Some a ->
  parseFinalizationResultAuthority (JObj (encodeFinalizationResultAuthority a)) = Some a.
Proof. intros E%admit_flattens. by eapply (decode_encode (encode := fun a => JObj (encodeFinalizationResultAuthority a))). Qed.
