(* ===== verification/FinTransition.v ===== *)
(** The record of a finalization (packages/application/src/finalize/
    finalization-record.ts) and the policy that moves it
    (finalization-transition-policy.ts): one command is evaluated against the
    current record, without clock or storage. *)
From S2P Require Import Prelude.
From S2P Require Import JsNumber.
From S2P Require Import JsText.
From S2P Require Import JsValue.
From S2P Require Import Journal.
From S2P Require Import FinStorage.
Import JsText.
Import JsValue.
Import Journal.
Import FinStorage.

Module FinTransition.

(** ** Records *)

Record FinalizationResultRecord := mkResultRecord {
  rr_finalizationId : string;
  rr_authority : FinalizationResultAuthority;
}.

(** A record that succeeded has a result, by the types of the code. *)
Record FinalizationRecord := mkRecord {
  fr_sessionId : string;
  fr_finalizationId : string;
  fr_scenarioContext : FinalizationScenarioContext;
  fr_state : FinalizationState;
  fr_result : option FinalizationResultRecord;
}.

Definition state_id (s : FinalizationState) : string :=
  match s with pending i _ | running i _ _ | succeeded i _ _ _ | failed i _ _ _ _ | timeout i _ _ _ => i end.

Definition state_status (s : FinalizationState) : string :=
  match s with
  | pending _ _ => "pending" | running _ _ _ => "running" | succeeded _ _ _ _ => "succeeded"
  | failed _ _ _ _ _ => "failed" | timeout _ _ _ _ => "timeout"
  end.

Definition is_succeeded (s : FinalizationState) : bool := match s with succeeded _ _ _ _ => true | _ => false end.

Definition FINALIZATION_RECORD_KEYS : list string := ["sessionId"; "finalizationId"; "scenarioContext"; "state"]%string.
Definition SUCCEEDED_FINALIZATION_RECORD_KEYS : list string :=
  ["sessionId"; "finalizationId"; "scenarioContext"; "state"; "finalizationResult"]%string.

(** [delete value[key]] on a copy of the value *)
Definition without_key (value : jsval) (key : string) : jsval :=
  match value with
  | JObj properties => JObj (List.filter (fun e => negb (String.eqb e.1 key)) properties)
  | _ => value
  end.

Definition parseResultRecordWith (parseAuthority : jsval -> option FinalizationResultAuthority) (value : jsval) :
    option FinalizationResultRecord :=
  if negb (isNonArrayObject value) then None
  else
    match parseFinalizationId (prop value "finalizationId") with
    | Some finalizationId => mkResultRecord finalizationId <$> parseAuthority (without_key value "finalizationId")
    | None => None
    end.

Definition parseFinalizationResultRecord := parseResultRecordWith parseFinalizationResultAuthority.
Definition admitFinalizationResultRecord := parseResultRecordWith admitFinalizationResultAuthority.

Definition parseFinalizationRecordIdentity (value : jsval) :
    option (string * string * FinalizationState * FinalizationScenarioContext) :=
  match parseSessionId (prop value "sessionId"), parseFinalizationId (prop value "finalizationId"),
        parseFinalizationState (prop value "state"), parseFinalizationScenarioContext (prop value "scenarioContext") with
  | Some sessionId, Some finalizationId, Some state, Some scenarioContext =>
      if String.eqb (state_id state) finalizationId then Some (sessionId, finalizationId, state, scenarioContext)
      else None
  | _, _, _, _ => None
  end.

Definition parseRecordWith (parseResult : jsval -> option FinalizationResultRecord) (value : jsval) :
    option FinalizationRecord :=
  if negb (isNonArrayObject value) then None
  else
    match parseFinalizationRecordIdentity value with
    | None => None
    | Some (sessionId, finalizationId, state, scenarioContext) =>
        if is_succeeded state then
          if negb (hasExactOwnKeys value SUCCEEDED_FINALIZATION_RECORD_KEYS) then None
          else
            match parseResult (prop value "finalizationResult") with
            | Some finalizationResult =>
                if String.eqb (rr_finalizationId finalizationResult) finalizationId
                then Some (mkRecord sessionId finalizationId scenarioContext state (Some finalizationResult))
                else None
            | None => None
            end
        else if negb (hasExactOwnKeys value FINALIZATION_RECORD_KEYS) then None
        else Some (mkRecord sessionId finalizationId scenarioContext state None)
    end.

Definition decodeFinalizationRecord : jsval -> option FinalizationRecord :=
  parseRecordWith parseFinalizationResultRecord.
Definition admitFinalizationRecord : jsval -> option FinalizationRecord :=
  parseRecordWith admitFinalizationResultRecord.

Definition record_properties (r : FinalizationRecord) : list (string * jsval) :=
  [("sessionId", JStr (fr_sessionId r)); ("finalizationId", JStr (fr_finalizationId r));
   ("scenarioContext", scenario_value (fr_scenarioContext r)); ("state", state_value (fr_state r))]%string.

Definition result_record_value (encode : FinalizationResultAuthority -> list (string * jsval))
    (r : FinalizationResultRecord) : jsval :=
  JObj (("finalizationId"%string, JStr (rr_finalizationId r)) :: encode (rr_authority r)).

Definition encodeFinalizationRecord (r : FinalizationRecord) : result jsval :=
  if negb (is_succeeded (fr_state r)) then Ok (JObj (record_properties r))
  else
    match fr_result r with
    | None => throw "Succeeded finalization record is missing its result authority"
    | Some finalizationResult =>
        Ok (JObj (record_properties r ++
                  [("finalizationResult"%string, result_record_value encodeFinalizationResultAuthority finalizationResult)]))
    end.

(** ** Commands *)

Definition FINALIZATION_REASONS : list string :=
  ["FINALIZE_REQUESTED"; "PROVER_INPUT_PERSISTENCE_UNAVAILABLE"; "PROVER_INPUT_UPLOAD_FAILED"; "SQS_PUBLISH_FAILED";
   "DISPATCH_REQUESTED"; "STEP_FUNCTIONS_EXECUTION_CLOSED"; "STEP_FUNCTIONS_DISPATCH"; "RUNTIME_UPDATE_RECEIVED";
   "FINALIZATION_RESULT_INVALID"; "FINALIZATION_DISPATCH_TIMEOUT"; "FINALIZATION_OUTCOME_UNRECORDED";
   "EXECUTION_TIMED_OUT"; "USER_CANCELLED"; "FINALIZATION_NOT_CANCELLABLE"; "STATE_PERSISTED"; "IDEMPOTENT_RETRY";
   "EXECUTION_MISMATCH"; "TERMINAL_STATE_STICKY"; "INVALID_FINALIZATION_ARTIFACT"; "CONDITIONAL_WRITE_CONFLICT";
   "FINALIZATION_FAILED"; "FINALIZATION_BUNDLE_KEY_MISSING"; "FINALIZATION_BUNDLE_RESTORE_FAILED";
   "PROVER_TASK_FAILED"; "PROVER_IMAGE_SIGNATURE_FAILED"; "PROVER_CAPACITY_WAIT_TIMEOUT";
   "PROVER_EXECUTION_ABORTED"; "PROVER_EXECUTION_FAILED"]%string.

Definition isFinalizationEventReason (value : string) : bool := existsb (String.eqb value) FINALIZATION_REASONS.

(** What a command asks for. A result and an error have an unknown shape. *)
Inductive CommandKind : Type :=
| queue
| start (startedAtMs : num)
| succeed (startedAtMs completedAtMs : num) (finalizationResult : jsval)
| fail (startedAtMs : option num) (failedAtMs : num) (error : jsval)
| time_out (startedAtMs : option num) (timeoutAtMs : num)
| cancel (startedAtMs : option num) (failedAtMs : num) (message : string).

(** [cmd_scenarioContext] is [JUndefined] when the command has none. *)
Record FinalizationTransitionCommand := mkCommand {
  cmd_kind : CommandKind;
  cmd_sessionId : string;
  cmd_finalizationId : string;
  cmd_queuedAtMs : num;
  cmd_scenarioContext : jsval;
  cmd_reason : option string;
}.

Inductive InvalidFinalizationTransitionReason : Type :=
| invalid_evaluation_time | invalid_session_id | invalid_finalization_id | invalid_timestamp | invalid_reason
| invalid_error | invalid_finalization_result | invalid_scenario_context.

Inductive FinalizationTransitionOutcome : Type :=
| applied (state : FinalizationState) (reason : string) (nextRecord : FinalizationRecord)
| idempotent (state : FinalizationState)
| rejected (state : option FinalizationState) (reason : string)
| invalid (state : option FinalizationState) (reason : InvalidFinalizationTransitionReason).

(** [ad_successfulResult] of a success is [None] when its result is invalid. *)
Record AdmittedFinalizationCommand := mkAdmitted {
  ad_sessionId : string;
  ad_finalizationId : string;
  ad_state : FinalizationState;
  ad_reason : string;
  ad_scenarioContext : option FinalizationScenarioContext;
  ad_successfulResult : option FinalizationResultAuthority;
  ad_invalidSuccessfulResult : bool;
}.

(** ** Admission of a command *)

Definition resolveDefaultReason (kind : CommandKind) : string :=
  match kind with
  | queue => "FINALIZE_REQUESTED"
  | start _ | succeed _ _ _ => "RUNTIME_UPDATE_RECEIVED"
  | fail _ _ error =>
      match getStringProperty error "code" with
      | Some code => if isFinalizationEventReason code then code else "FINALIZATION_FAILED"
      | None => "FINALIZATION_FAILED"
      end
  | time_out _ _ => "EXECUTION_TIMED_OUT"
  | cancel _ _ _ => "USER_CANCELLED"
  end.

Definition hasValidBase (command : FinalizationTransitionCommand) : option InvalidFinalizationTransitionReason :=
  if negb (isSafeVerifierSegment (cmd_sessionId command)) then Some invalid_session_id
  else if negb (isSafeVerifierSegment (cmd_finalizationId command)) then Some invalid_finalization_id
  else if negb (isNonNegativeSafeInteger (cmd_queuedAtMs command)) then Some invalid_timestamp
  else match cmd_reason command with
       | Some reason => if negb (isFinalizationEventReason reason) then Some invalid_reason else None
       | None => None
       end.

Definition hasValidStartedAt (queuedAtMs startedAtMs : num) : bool :=
  isNonNegativeSafeInteger startedAtMs && num_leb queuedAtMs startedAtMs.

Definition hasValidOptionalStartedAt (queuedAtMs : num) (startedAtMs : option num) : bool :=
  match startedAtMs with None => true | Some s => hasValidStartedAt queuedAtMs s end.

Definition hasValidTerminalAt (earliestAtMs terminalAtMs : num) : bool :=
  isNonNegativeSafeInteger terminalAtMs && num_leb earliestAtMs terminalAtMs.

Definition hasValidFailureError (value : jsval) : bool :=
  isNonArrayObject value && is_some (getStringProperty value "code") && is_some (getStringProperty value "message") &&
  match prop value "category" with
  | JUndefined => true
  | JStr category => existsb (String.eqb category) FINALIZATION_FAILURE_CATEGORIES
  | _ => false
  end.

Definition admitScenarioContext (value : jsval) : option FinalizationScenarioContext :=
  if is_undefined value then None else parseFinalizationScenarioContext value.

Definition hasRequiredScenarioContext (command : FinalizationTransitionCommand)
    (context : option FinalizationScenarioContext) : bool :=
  is_some context ||
  (is_undefined (cmd_scenarioContext command) && match cmd_kind command with queue => false | _ => true end).

(** The outcome of an admission: the command, or why it was refused. *)
Definition CommandAdmission : Type := AdmittedFinalizationCommand + InvalidFinalizationTransitionReason.

(** The state that a command asks for, with the result of a success. *)
Definition admitCommandState (command : FinalizationTransitionCommand) (finalizationId : string) :
    (FinalizationState * option FinalizationResultAuthority * bool) + InvalidFinalizationTransitionReason :=
  let queuedAtMs := cmd_queuedAtMs command in
  match cmd_kind command with
  | queue => inl (pending finalizationId queuedAtMs, None, false)
  | start startedAtMs =>
      if negb (hasValidStartedAt queuedAtMs startedAtMs) then inr invalid_timestamp
      else inl (running finalizationId queuedAtMs startedAtMs, None, false)
  | succeed startedAtMs completedAtMs finalizationResult =>
      if negb (hasValidStartedAt queuedAtMs startedAtMs) || negb (hasValidTerminalAt startedAtMs completedAtMs)
      then inr invalid_timestamp
      else
        let successfulResult := admitFinalizationResultAuthority finalizationResult in
        inl (succeeded finalizationId queuedAtMs startedAtMs completedAtMs, successfulResult,
             negb (is_some successfulResult))
  | fail startedAtMs failedAtMs error =>
      if negb (hasValidOptionalStartedAt queuedAtMs startedAtMs) ||
         negb (hasValidTerminalAt (default queuedAtMs startedAtMs) failedAtMs)
      then inr invalid_timestamp
      else inl (failed finalizationId queuedAtMs startedAtMs failedAtMs error, None, false)
  | time_out startedAtMs timeoutAtMs =>
      if negb (hasValidOptionalStartedAt queuedAtMs startedAtMs) ||
         negb (hasValidTerminalAt (default queuedAtMs startedAtMs) timeoutAtMs)
      then inr invalid_timestamp
      else inl (timeout finalizationId queuedAtMs startedAtMs timeoutAtMs, None, false)
  | cancel startedAtMs failedAtMs message =>
      if negb (hasValidOptionalStartedAt queuedAtMs startedAtMs) ||
         negb (hasValidTerminalAt (default queuedAtMs startedAtMs) failedAtMs) || negb (str_truthy (trim message))
      then inr invalid_error
      else inl (failed finalizationId queuedAtMs startedAtMs failedAtMs
                  (JObj [("code", JStr "USER_CANCELLED"); ("message", JStr message)]%string), None, false)
  end.

Definition admitCommand (command : FinalizationTransitionCommand) : CommandAdmission :=
  match hasValidBase command with
  | Some reason => inr reason
  | None =>
      match parseFinalizationId (JStr (cmd_finalizationId command)) with
      | None => inr invalid_finalization_id
      | Some finalizationId =>
          if match cmd_kind command with fail _ _ error => negb (hasValidFailureError error) | _ => false end
          then inr invalid_error
          else
            let scenarioContext := admitScenarioContext (cmd_scenarioContext command) in
            if negb (hasRequiredScenarioContext command scenarioContext) then inr invalid_scenario_context
            else
              let reason := default (resolveDefaultReason (cmd_kind command)) (cmd_reason command) in
              match admitCommandState command finalizationId with
              | inr refusal => inr refusal
              | inl (state, successfulResult, invalidResult) =>
                  inl (mkAdmitted (cmd_sessionId command) finalizationId state reason scenarioContext
                         successfulResult invalidResult)
              end
      end
  end.

(** ** The policy *)

Definition isTerminalState (state : FinalizationState) : bool :=
  match state with succeeded _ _ _ _ | failed _ _ _ _ _ | timeout _ _ _ _ => true | _ => false end.

Definition resolveTerminalRejectionReason (state : FinalizationState) : string :=
  match state with
  | failed _ _ _ _ error =>
      match getStringProperty error "code" with
      | Some code => if isFinalizationEventReason code then code else "TERMINAL_STATE_STICKY"
      | None => "TERMINAL_STATE_STICKY"
      end
  | _ => "TERMINAL_STATE_STICKY"
  end.

Definition haveSameNonterminalState (left right : FinalizationState) : bool :=
  match left, right with
  | pending i q, pending i' q' => String.eqb i i' && num_eqb q q'
  | running i q s, running i' q' s' => String.eqb i i' && num_eqb q q' && num_eqb s s'
  | _, _ => false
  end.

(** [JSON.stringify] writes different texts for different contexts: their
    fields are written in one order, their numbers are integers. *)
#[global] Instance num_eq_dec : EqDecision num.
Proof. solve_decision. Defined.
#[global] Instance ScenarioTamperMode_eq_dec : EqDecision ScenarioTamperMode.
Proof. solve_decision. Defined.
#[global] Instance FinalizationScenarioContext_eq_dec : EqDecision FinalizationScenarioContext.
Proof. solve_decision. Defined.

Definition haveSameScenarioContext (left right : FinalizationScenarioContext) : bool := bool_decide (left = right).

Definition buildNextRecord (currentRecord : option FinalizationRecord) (admitted : AdmittedFinalizationCommand) :
    option FinalizationRecord :=
  let context := match ad_scenarioContext admitted with
                 | Some c => Some c
                 | None => fr_scenarioContext <$> currentRecord
                 end in
  match context with
  | None => None
  | Some scenarioContext =>
      let next := mkRecord (ad_sessionId admitted) (ad_finalizationId admitted) scenarioContext (ad_state admitted) in
      if negb (is_succeeded (ad_state admitted)) then Some (next None)
      else match ad_successfulResult admitted with
           | None => None
           | Some authority => Some (next (Some (mkResultRecord (ad_finalizationId admitted) authority)))
           end
  end.

Definition isCurrentCancellableState (state : option FinalizationState) (finalizationId : string) : bool :=
  match state with
  | Some s => String.eqb (state_id s) finalizationId && negb (isTerminalState s)
  | None => false
  end.

Definition is_cancel (kind : CommandKind) : bool := match kind with cancel _ _ _ => true | _ => false end.

Definition evaluatePriorFinalizationState (kind : CommandKind) (nextState : FinalizationState)
    (state : option FinalizationState) : option FinalizationTransitionOutcome :=
  if is_cancel kind && negb (isCurrentCancellableState state (state_id nextState))
  then Some (rejected state "FINALIZATION_NOT_CANCELLABLE")
  else
    match state with
    | None => None
    | Some s =>
        if negb (is_cancel kind) && String.eqb (state_id s) (state_id nextState) && isTerminalState s then
          if String.eqb (state_status s) (state_status nextState) then Some (idempotent s)
          else Some (rejected state (resolveTerminalRejectionReason s))
        else if negb (String.eqb (state_id s) (state_id nextState)) then Some (rejected state "EXECUTION_MISMATCH")
        else None
    end.

Definition evaluateFinalizationTransition (currentRecord : option FinalizationRecord)
    (command : FinalizationTransitionCommand) (evaluatedAtMs : num) : FinalizationTransitionOutcome :=
  let state := fr_state <$> currentRecord in
  if negb (isNonNegativeSafeInteger evaluatedAtMs) then invalid state invalid_evaluation_time
  else
    match admitCommand command with
    | inr reason => invalid state reason
    | inl admitted =>
        if match currentRecord with
           | Some record => negb (String.eqb (fr_sessionId record) (ad_sessionId admitted))
           | None => false
           end
        then invalid state invalid_session_id
        else
          match evaluatePriorFinalizationState (cmd_kind command) (ad_state admitted) state with
          | Some outcome => outcome
          | None =>
              if ad_invalidSuccessfulResult admitted then invalid state invalid_finalization_result
              else
                match buildNextRecord currentRecord admitted with
                | None => invalid state invalid_scenario_context
                | Some nextRecord =>
                    match currentRecord with
                    | Some record =>
                        if haveSameNonterminalState (fr_state record) (ad_state admitted) &&
                           haveSameScenarioContext (fr_scenarioContext record) (fr_scenarioContext nextRecord)
                        then idempotent (fr_state record)
                        else applied (ad_state admitted) (ad_reason admitted) nextRecord
                    | None => applied (ad_state admitted) (ad_reason admitted) nextRecord
                    end
                end
          end
    end.

End FinTransition.
