(* ===== verification/FinTransitionProofs.v ===== *)
(** What the transition policy promises of a finalization: the records it writes
    are coherent and can be stored and read back, an attempt keeps its identity,
    its end is final, a command may be repeated, and every open attempt can be
    ended. *)
From S2P Require Import Prelude.
From S2P Require Import JsNumber.
From S2P Require Import JsText.
From S2P Require Import JsValue.
From S2P Require Import Journal.
From S2P Require Import FinStorage.
From S2P Require Import FinStorageProofs.
From S2P Require Import FinTransition.
Import JsText.
Import JsValue.
Import Journal.
Import FinStorage.
Import FinTransition.

(** ** Moments of a state *)

Definition moments (s : FinalizationState) : list num :=
  match s with
  | pending _ q => [q]
  | running _ q st => [q; st]
  | succeeded _ q st c => [q; st; c]
  | failed _ q st f _ => q :: option_list st ++ [f]
  | timeout _ q st t => q :: option_list st ++ [t]
  end.

(** The moments of a state are safe integers, in order. *)
Definition in_order (s : FinalizationState) : Prop :=
  exists zs, moments s = map NInt zs /\ Forall (fun z => 0 <= z <= MAX_SAFE_INTEGER) zs /\ Sorted Z.le zs.

Lemma safe_moment n : isNonNegativeSafeInteger n = true -> exists z, n = NInt z /\ 0 <= z <= MAX_SAFE_INTEGER.
Proof. apply isNonNegativeSafeInteger_spec. Qed.

Lemma num_leb_Z a b : num_leb (NInt a) (NInt b) = true -> a <= b.
Proof. unfold num_leb. cbn. rewrite orb_true_iff, Z.ltb_lt, Z.eqb_eq. lia. Qed.

Lemma after_moment a n : isNonNegativeSafeInteger n && num_leb (NInt a) n = true ->
  exists z, n = NInt z /\ 0 <= z <= MAX_SAFE_INTEGER /\ a <= z.
Proof.
  intros [Hn Hl]%andb_true_iff. apply safe_moment in Hn as (z & -> & Hz). apply num_leb_Z in Hl. by exists z.
Qed.

Lemma count_of_Z z : 0 <= z -> is_count (NInt z).
Proof.
  intros Hz. unfold is_count, admit_count. cbn [isNumber isFinite].
  assert (Hn : isNonNegativeInteger (NInt z) = true); [| by rewrite Hn].
  unfold isNonNegativeInteger, num_leb. cbn [isInteger num_ltb num_eqb andb].
  apply orb_true_iff. rewrite Z.ltb_lt, Z.eqb_eq. lia.
Qed.

Ltac sorted_moments zs := exists zs; split_and!; [done | by repeat (constructor; [lia |]) | by repeat constructor; lia].

(** ** The admission of a command *)

Lemma option_segment s : isSafeVerifierSegment s = true -> parseFinalizationId (JStr s) = Some s.
Proof. intros H. cbn. by rewrite H. Qed.

(** The state of an admitted command, and what came with it. *)
Record admitted_state (command : FinalizationTransitionCommand) (a : AdmittedFinalizationCommand) : Prop := {
  as_session : ad_sessionId a = cmd_sessionId command;
  as_id : ad_finalizationId a = cmd_finalizationId command;
  as_safe_session : isSafeVerifierSegment (ad_sessionId a) = true;
  as_safe_id : isSafeVerifierSegment (ad_finalizationId a) = true;
  as_state_id : state_id (ad_state a) = ad_finalizationId a;
  as_order : in_order (ad_state a);
  as_context : forall c, ad_scenarioContext a = Some c -> parseFinalizationScenarioContext (scenario_value c) = Some c;
  as_result : forall r, ad_successfulResult a = Some r -> authority_ok r;
  as_invalid : is_succeeded (ad_state a) = true -> ad_invalidSuccessfulResult a = negb (is_some (ad_successfulResult a));
}.

Lemma base_valid command : hasValidBase command = None ->
  isSafeVerifierSegment (cmd_sessionId command) = true /\ isSafeVerifierSegment (cmd_finalizationId command) = true /\
  isNonNegativeSafeInteger (cmd_queuedAtMs command) = true.
Proof.
  unfold hasValidBase. destruct (isSafeVerifierSegment (cmd_sessionId command)); [| done].
  destruct (isSafeVerifierSegment (cmd_finalizationId command)); [| done].
  by destruct (isNonNegativeSafeInteger (cmd_queuedAtMs command)).
Qed.

(** The moments of the three ends of an attempt that may not have started. *)
Lemma optional_moments q st f : 0 <= q <= MAX_SAFE_INTEGER -> hasValidOptionalStartedAt (NInt q) st = true ->
  hasValidTerminalAt (default (NInt q) st) f = true ->
  exists zs, NInt q :: option_list st ++ [f] = map NInt zs /\
    Forall (fun z => 0 <= z <= MAX_SAFE_INTEGER) zs /\ Sorted Z.le zs.
Proof.
  intros Hq Hs Hf. destruct st as [st |].
  - apply after_moment in Hs as (s & -> & Hs & Hqs). apply after_moment in Hf as (t & -> & Ht & Hst).
    sorted_moments [q; s; t].
  - apply after_moment in Hf as (t & -> & Ht & Hqt). sorted_moments [q; t].
Qed.

Lemma command_state command id s r inv q : cmd_queuedAtMs command = NInt q -> 0 <= q <= MAX_SAFE_INTEGER ->
  admitCommandState command id = inl (s, r, inv) ->
  state_id s = id /\ in_order s /\ (forall a, r = Some a -> authority_ok a) /\
  (is_succeeded s = true -> inv = negb (is_some r)).
Proof.
  intros Eq Hq. unfold admitCommandState. rewrite Eq.
  destruct (cmd_kind command) as [| st | st c v | st f e | st t | st f m]; intros E.
  - injection E as <- <- <-. split_and!; try done. sorted_moments [q].
  - destruct (hasValidStartedAt (NInt q) st) eqn:Hs; [| done]. injection E as <- <- <-.
    apply after_moment in Hs as (z & -> & Hz & Hqz). split_and!; try done. sorted_moments [q; z].
  - destruct (hasValidStartedAt (NInt q) st) eqn:Hs; [| done]. destruct (hasValidTerminalAt st c) eqn:Hc; [| done].
    injection E as <- <- <-. apply after_moment in Hs as (z & -> & Hz & Hqz).
    apply after_moment in Hc as (w & -> & Hw & Hzw). split_and!; try done.
    + sorted_moments [q; z; w].
    + intros a Ha%admit_flattens. by eapply authority_read.
  - destruct (hasValidOptionalStartedAt (NInt q) st) eqn:Hs; [| done].
    destruct (hasValidTerminalAt _ f) eqn:Hf; [| done]. injection E as <- <- <-.
    split_and!; try done. by apply optional_moments.
  - destruct (hasValidOptionalStartedAt (NInt q) st) eqn:Hs; [| done].
    destruct (hasValidTerminalAt _ t) eqn:Hf; [| done]. injection E as <- <- <-.
    split_and!; try done. by apply optional_moments.
  - destruct (hasValidOptionalStartedAt (NInt q) st) eqn:Hs; [| done].
    destruct (hasValidTerminalAt _ f) eqn:Hf; [| done]. destruct (negb (str_truthy _)); [done |]. injection E as <- <- <-.
    split_and!; try done. by apply optional_moments.
Qed.

Lemma admit_spec command a : admitCommand command = inl a -> admitted_state command a.
Proof.
  unfold admitCommand. destruct (hasValidBase command) eqn:Hb; [done |]. apply base_valid in Hb as (H1 & H2 & H3).
  apply safe_moment in H3 as (q & Eq & Hq). rewrite option_segment by done.
  destruct (match cmd_kind command with fail _ _ _ => _ | _ => _ end); [done |].
  destruct (negb (hasRequiredScenarioContext _ _)); [done |].
  destruct (admitCommandState command _) as [[[s r] inv] |] eqn:Es; [| done]. intros [= <-].
  destruct (command_state _ _ _ _ _ _ Eq Hq Es) as (Hid & Ho & Hr & Hi).
  split; cbn; try done. unfold admitScenarioContext. destruct (is_undefined _); [done |].
  intros c Hc. by eapply (decode_encode (encode := scenario_value)).
Qed.

(** ** Applied commands *)

Lemma evaluate_applied cur command now s reason n :
  evaluateFinalizationTransition cur command now = applied s reason n ->
  exists a, admitCommand command = inl a /\ s = ad_state a /\
    match cur with Some r => fr_sessionId r = ad_sessionId a | None => True end /\
    evaluatePriorFinalizationState (cmd_kind command) (ad_state a) (fr_state <$> cur) = None /\
    ad_invalidSuccessfulResult a = false /\ buildNextRecord cur a = Some n.
Proof.
  unfold evaluateFinalizationTransition. destruct (negb _); [done |].
  destruct (admitCommand command) as [a |]; [| done].
  destruct (match cur with Some _ => _ | None => _ end) eqn:Hs; [done |].
  destruct (evaluatePriorFinalizationState _ _ _) as [o |] eqn:Hp.
  { intros ->. unfold evaluatePriorFinalizationState in Hp.
    repeat (case_match; try done). }
  destruct (ad_invalidSuccessfulResult a) eqn:Hi; [done |].
  destruct (buildNextRecord cur a) as [next |] eqn:Hn; [| done]. intros E.
  assert (Ea : applied (ad_state a) (ad_reason a) next = applied s reason n).
  { destruct cur as [r |]; [| done]. by destruct (_ && _). }
  injection Ea as <- _ <-. exists a. split_and!; try done. destruct cur as [r |]; [| done].
  apply negb_false_iff in Hs. by apply String.eqb_eq in Hs.
Qed.

(** ** Coherent records *)

Record record_coherent (r : FinalizationRecord) : Prop := {
  rc_session : isSafeVerifierSegment (fr_sessionId r) = true;
  rc_id : isSafeVerifierSegment (fr_finalizationId r) = true;
  rc_state_id : state_id (fr_state r) = fr_finalizationId r;
  rc_order : in_order (fr_state r);
  rc_context : parseFinalizationScenarioContext (scenario_value (fr_scenarioContext r)) = Some (fr_scenarioContext r);
  rc_result : if is_succeeded (fr_state r)
              then exists a, fr_result r = Some (mkResultRecord (fr_finalizationId r) a) /\ authority_ok a
              else fr_result r = None;
}.

Lemma built_record cur a n :
  buildNextRecord cur a = Some n ->
  fr_sessionId n = ad_sessionId a /\ fr_finalizationId n = ad_finalizationId a /\ fr_state n = ad_state a /\
  (ad_scenarioContext a = Some (fr_scenarioContext n) \/
   ad_scenarioContext a = None /\ exists r, cur = Some r /\ fr_scenarioContext n = fr_scenarioContext r) /\
  (if is_succeeded (ad_state a)
   then exists res, ad_successfulResult a = Some res /\ fr_result n = Some (mkResultRecord (ad_finalizationId a) res)
   else fr_result n = None).
Proof.
  unfold buildNextRecord. destruct (ad_scenarioContext a) as [c |].
  - destruct (is_succeeded (ad_state a)); cbn [negb].
    + destruct (ad_successfulResult a) as [res |]; [| done]. intros [= <-]. split_and!; try done; [by left | by exists res].
    + intros [= <-]. split_and!; try done. by left.
  - destruct cur as [r |]; [| done]. cbn [fmap option_fmap option_map]. destruct (is_succeeded (ad_state a)); cbn [negb].
    + destruct (ad_successfulResult a) as [res |]; [| done]. intros [= <-].
      split_and!; try done; [right; split; [done | by exists r] | by exists res].
    + intros [= <-]. split_and!; try done. right. split; [done | by exists r].
Qed.

Lemma applied_coherent cur command now s reason n :
  match cur with Some r => record_coherent r | None => True end ->
  evaluateFinalizationTransition cur command now = applied s reason n -> record_coherent n /\ s = fr_state n.
Proof.
  intros Hcur E. apply evaluate_applied in E as (a & Ha & -> & _ & _ & _ & Hn).
  apply admit_spec in Ha as []. apply built_record in Hn as (E1 & E2 & E3 & Hc & Hr). split; [| done]. split.
  - by rewrite E1.
  - by rewrite E2.
  - by rewrite E3, E2.
  - by rewrite E3.
  - destruct Hc as [Hc | [_ (r & -> & ->)]]; [by apply as_context0 | by apply rc_context].
  - rewrite E3, E2. destruct (is_succeeded (ad_state a)); [| done]. destruct Hr as (res & Hr & ->).
    exists res. split; [done | by apply as_result0].
Qed.

(** ** Runs of the policy *)

(** What the store holds after a command was evaluated. *)
Definition next_record (cur : option FinalizationRecord) (o : FinalizationTransitionOutcome) :
    option FinalizationRecord :=
  match o with applied _ _ n => Some n | _ => cur end.

Inductive step : option FinalizationRecord -> option FinalizationRecord -> Prop :=
| step_command cur command now : step cur (next_record cur (evaluateFinalizationTransition cur command now)).

Inductive reachable : option FinalizationRecord -> Prop :=
| reach_start : reachable None
| reach_step cur next : reachable cur -> step cur next -> reachable next.

Definition coherent (cur : option FinalizationRecord) : Prop :=
  match cur with Some r => record_coherent r | None => True end.

Lemma step_coherent cur next : step cur next -> coherent cur -> coherent next.
Proof.
  intros [c command now] Hc. unfold next_record. destruct (evaluateFinalizationTransition c command now) eqn:E; try done.
  by eapply applied_coherent.
Qed.

Lemma reachable_coherent cur : reachable cur -> coherent cur.
Proof. induction 1; [done | by eapply step_coherent]. Qed.

(** ** Stored records *)

(** The error of a failed attempt has the current shape. *)
Definition error_current (s : FinalizationState) : Prop :=
  match s with failed _ _ _ _ e => parseFinalizationError e = Some e | _ => True end.

Lemma in_order_counts s : in_order s -> Forall is_count (moments s).
Proof.
  intros (zs & -> & Hz & _). induction Hz as [| z zs Hz _ IH]; constructor; [apply count_of_Z; lia | done].
Qed.

Lemma ordered_state_ok s : isSafeVerifierSegment (state_id s) = true -> in_order s -> error_current s -> state_ok s.
Proof.
  intros Hi Ho%in_order_counts He. apply option_segment in Hi.
  destruct s as [i q | i q st | i q st c | i q st f e | i q st t]; cbn [moments state_id] in *.
  all: try destruct st; cbn in Ho; rewrite !Forall_cons in Ho; cbn; destruct_and? Ho; by split_and!.
Qed.

(** What a record holds once it was read. *)
Record record_ok (r : FinalizationRecord) : Prop := {
  ro_session : isSafeVerifierSegment (fr_sessionId r) = true;
  ro_id : isSafeVerifierSegment (fr_finalizationId r) = true;
  ro_state_id : state_id (fr_state r) = fr_finalizationId r;
  ro_state : state_ok (fr_state r);
  ro_context : parseFinalizationScenarioContext (scenario_value (fr_scenarioContext r)) = Some (fr_scenarioContext r);
  ro_result : if is_succeeded (fr_state r)
              then exists a, fr_result r = Some (mkResultRecord (fr_finalizationId r) a) /\ authority_ok a
              else fr_result r = None;
}.

Lemma coherent_ok r : record_coherent r -> error_current (fr_state r) -> record_ok r.
Proof. intros [H1 H2 H3 H4 H5 H6] He. split; try done. apply ordered_state_ok; [by rewrite H3 | done | done]. Qed.

Lemma segment_text v s : parseFinalizationId v = Some s -> isSafeVerifierSegment s = true.
Proof. destruct v; try done. cbn. destruct (isSafeVerifierSegment s0) eqn:E; [| done]. by intros [= <-]. Qed.

Lemma parsed_ok parseAuthority v r :
  (forall x a, parseAuthority x = Some a -> authority_ok a) ->
  parseRecordWith (parseResultRecordWith parseAuthority) v = Some r -> record_ok r.
Proof.
  intros Hp. unfold parseRecordWith, parseFinalizationRecordIdentity. destruct (negb (isNonArrayObject v)); [done |].
  destruct (parseSessionId (prop v "sessionId")) as [sid |] eqn:Es; [| done].
  destruct (parseFinalizationId (prop v "finalizationId")) as [fid |] eqn:Ef; [| done].
  destruct (parseFinalizationState (prop v "state")) as [st |] eqn:Et; [| done].
  destruct (parseFinalizationScenarioContext (prop v "scenarioContext")) as [c |] eqn:Ec; [| done].
  destruct (String.eqb_spec (state_id st) fid) as [Ei |]; [| done].
  apply segment_text in Es, Ef. apply state_read in Et. apply (decode_encode (encode := scenario_value)) in Ec.
  destruct (is_succeeded st) eqn:Eb; destruct (negb (hasExactOwnKeys v _)); try done.
  - destruct (parseResultRecordWith parseAuthority (prop v "finalizationResult")) as [x |] eqn:Ex; [| done].
    destruct (String.eqb_spec (rr_finalizationId x) fid) as [Er |]; [| done]. intros [= <-].
    split; cbn; try done. rewrite Eb. unfold parseResultRecordWith in Ex. destruct (negb _); [done |].
    destruct (parseFinalizationId _); [| done].
    destruct (parseAuthority _) as [a |] eqn:Ea; [| done]. injection Ex as <-. cbn in Er. subst.
    exists a. split; [done | by eapply Hp].
  - intros [= <-]. split; cbn; try done. by rewrite Eb.
Qed.

Lemma decoded_ok v r : decodeFinalizationRecord v = Some r -> record_ok r.
Proof. apply parsed_ok. intros x a. apply authority_read. Qed.

Lemma admitted_ok v r : admitFinalizationRecord v = Some r -> record_ok r.
Proof. apply parsed_ok. intros x a Ha%admit_flattens. by eapply authority_read. Qed.

Lemma without_own l k : k ∉ map fst l -> without_key (JObj l) k = JObj l.
Proof.
  intros Hk. cbn. f_equal. induction l as [| [k0 v] l IH]; [done |]. cbn in Hk |- *.
  apply not_elem_of_cons in Hk as [Hn Hk]. destruct (String.eqb_spec k0 k) as [-> |]; [done |]. cbn. by rewrite IH.
Qed.

Lemma allowed_keys l allowed k : hasOnlyAllowedKeys (JObj l) allowed = true -> k ∉ allowed -> k ∉ map fst l.
Proof.
  unfold hasOnlyAllowedKeys. cbn [object_keys]. rewrite forallb_forall. intros H Hk Hin%list_elem_of_In.
  by apply H, bool_decide_eq_true in Hin.
Qed.

Section record_codec.
Variable parse : jsval -> option FinalizationResultAuthority.
Variable encode : FinalizationResultAuthority -> list (string * jsval).
Variable keys : list string.
Hypothesis Hparse : forall a, authority_ok a -> parse (JObj (encode a)) = Some a.
Hypothesis Hkeys : forall a, hasOnlyAllowedKeys (JObj (encode a)) keys = true.
Hypothesis Hid : "finalizationId"%string ∉ keys.

Lemma result_record_read r : isSafeVerifierSegment (rr_finalizationId r) = true -> authority_ok (rr_authority r) ->
  parseResultRecordWith parse (result_record_value encode r) = Some r.
Proof.
  intros Hs Ha. unfold parseResultRecordWith, result_record_value. cbn [isNonArrayObject negb].
  change (prop _ "finalizationId") with (JStr (rr_finalizationId r)). rewrite option_segment by done.
  assert (E : without_key (JObj (("finalizationId"%string, JStr (rr_finalizationId r)) :: encode (rr_authority r)))
                "finalizationId" = JObj (encode (rr_authority r))).
  { rewrite <- (without_own (encode (rr_authority r)) "finalizationId"); [done |]. by eapply allowed_keys. }
  rewrite E, Hparse by done. by destruct r.
Qed.

Definition record_object (r : FinalizationRecord) : jsval :=
  JObj (record_properties r ++
        match fr_result r with Some x => [("finalizationResult"%string, result_record_value encode x)] | None => [] end).

Lemma record_read r : record_ok r -> parseRecordWith (parseResultRecordWith parse) (record_object r) = Some r.
Proof.
  intros [H1 H2 H3 H4 H5 H6]. assert (Hs := state_write _ H4).
  unfold parseRecordWith. change (negb (isNonArrayObject (record_object r))) with false. cbv iota.
  assert (Hi : parseFinalizationRecordIdentity (record_object r) =
    Some (fr_sessionId r, fr_finalizationId r, fr_state r, fr_scenarioContext r)).
  { unfold parseFinalizationRecordIdentity.
    change (prop (record_object r) "sessionId") with (JStr (fr_sessionId r)).
    change (prop (record_object r) "finalizationId") with (JStr (fr_finalizationId r)).
    change (prop (record_object r) "state") with (state_value (fr_state r)).
    change (prop (record_object r) "scenarioContext") with (scenario_value (fr_scenarioContext r)).
    rewrite Hs, H5. cbn [parseSessionId]. rewrite H1, option_segment by done. by rewrite H3, String.eqb_refl. }
  rewrite Hi. destruct (is_succeeded (fr_state r)).
  - destruct H6 as (a & Hr & Ha). unfold record_object. rewrite Hr.
    change (hasExactOwnKeys _ _) with true. cbn [negb].
    change (prop _ "finalizationResult") with (result_record_value encode (mkResultRecord (fr_finalizationId r) a)).
    rewrite result_record_read by done. cbn [rr_finalizationId]. rewrite String.eqb_refl. destruct r; cbn in *. by subst.
  - unfold record_object. rewrite H6. change (hasExactOwnKeys _ _) with true. cbn [negb]. destruct r; cbn in *. by subst.
Qed.
End record_codec.

Lemma encode_record r : record_ok r ->
  encodeFinalizationRecord r = Ok (record_object encodeFinalizationResultAuthority r).
Proof.
  intros [_ _ _ _ _ H]. unfold encodeFinalizationRecord, record_object. destruct (is_succeeded (fr_state r)).
  - destruct H as (a & -> & _). done.
  - rewrite H. cbn [negb]. by rewrite app_nil_r.
Qed.

Lemma flat_keys a : hasOnlyAllowedKeys (JObj (encodeFinalizationResultAuthority a)) FINALIZATION_RESULT_AUTHORITY_KEYS = true.
Proof. apply (sh_keys _ a), encode_shows. Qed.

Ltac closed_not_in := intros H%(bool_decide_pack _); vm_compute in H; destruct H.

Lemma record_stored r : record_ok r ->
  exists v, encodeFinalizationRecord r = Ok v /\ decodeFinalizationRecord v = Some r.
Proof.
  intros Hr. exists (record_object encodeFinalizationResultAuthority r). split; [by apply encode_record |].
  eapply record_read; [| apply flat_keys | closed_not_in | done].
  intros a Ha. apply authority_from; [done | apply encode_shows].
Qed.

(** ** The properties *)

(** C38: Every record that the policy writes, in any run of commands from an
    empty store, is coherent: its state carries the identifier of the record,
    the moments of the state are safe integers in order (queued, started,
    ended), and it has a result exactly when the attempt succeeded, with the
    same identifier and readable documents. *)
Theorem reachable_records_coherent cur : reachable cur ->
  match cur with
  | None => True
  | Some r =>
      state_id (fr_state r) = fr_finalizationId r /\ in_order (fr_state r) /\
      (is_succeeded (fr_state r) = true <-> is_some (fr_result r) = true) /\
      (forall x, fr_result r = Some x ->
         rr_finalizationId x = fr_finalizationId r /\
         parseFinalizationResultAuthority (JObj (encodeFinalizationResultAuthority (rr_authority x))) = Some (rr_authority x))
  end.
Proof.
  intros Hr%reachable_coherent. destruct cur as [r |]; [| done]. destruct Hr as [_ _ H1 H2 _ H3].
  split_and!; [done | done | |].
  - destruct (is_succeeded (fr_state r)); [destruct H3 as (a & -> & _) | rewrite H3]; done.
  - intros x E. destruct (is_succeeded (fr_state r)); [| by rewrite H3 in E].
    destruct H3 as (a & Ha & Hok). rewrite E in Ha. injection Ha as ->. split; [done |].
    apply authority_from; [done | apply encode_shows].
Qed.

(** Every record that the policy writes can be stored and read back: the
    writer does not throw, and the reader returns the same record, provided
    that the error of a failed attempt has the current shape. *)
Theorem reachable_record_round_trip r : reachable (Some r) -> error_current (fr_state r) ->
  exists v, encodeFinalizationRecord r = Ok v /\ decodeFinalizationRecord v = Some r.
Proof. intros Hr%reachable_coherent He. by apply record_stored, coherent_ok. Qed.

(** ** Attempts *)

Lemma prior_none kind next s : evaluatePriorFinalizationState kind next (Some s) = None ->
  state_id s = state_id next /\ isTerminalState s = false.
Proof.
  unfold evaluatePriorFinalizationState, isCurrentCancellableState.
  destruct (String.eqb_spec (state_id s) (state_id next)) as [-> | Hn].
  - destruct (is_cancel kind), (isTerminalState s); cbn; try done. by destruct (String.eqb _ _).
  - by destruct (is_cancel kind).
Qed.

Lemma applied_same_attempt r command now s reason n : record_coherent r ->
  evaluateFinalizationTransition (Some r) command now = applied s reason n ->
  fr_sessionId n = fr_sessionId r /\ fr_finalizationId n = fr_finalizationId r /\ isTerminalState (fr_state r) = false.
Proof.
  intros Hr E. apply evaluate_applied in E as (a & Ha & -> & Hs & Hp & _ & Hn).
  apply prior_none in Hp as [Hi Ht]. apply admit_spec in Ha as []. apply built_record in Hn as (E1 & E2 & _).
  split_and!; [by rewrite E1 | | done]. rewrite E2, <- as_state_id0, <- Hi. apply (rc_state_id r Hr).
Qed.

(** The record after a list of commands, each evaluated at its time. *)
Definition run (cur : option FinalizationRecord) (commands : list (FinalizationTransitionCommand * num)) :
    option FinalizationRecord :=
  fold_left (fun cur c => next_record cur (evaluateFinalizationTransition cur c.1 c.2)) commands cur.

Lemma run_same_attempt commands : forall r, record_coherent r -> exists r',
  run (Some r) commands = Some r' /\ fr_sessionId r' = fr_sessionId r /\
  fr_finalizationId r' = fr_finalizationId r /\ (isTerminalState (fr_state r) = true -> r' = r).
Proof.
  induction commands as [| [command now] commands IH]; intros r Hr; [by exists r |].
  unfold run. cbn [fold_left fst snd].
  destruct (evaluateFinalizationTransition (Some r) command now) as [s reason n | | |] eqn:E; cbn [next_record];
    try (by apply IH).
  destruct (applied_same_attempt _ _ _ _ _ _ Hr E) as (E1 & E2 & Ht). destruct (applied_coherent (Some r) _ _ _ _ _ Hr E) as [Hn _].
  destruct (IH n Hn) as (r' & Hrun & H1 & H2 & _). exists r'. split_and!; [done | congruence | congruence |].
  by rewrite Ht.
Qed.

(** An attempt keeps its identity and its end is final: whatever commands
    are evaluated after it, in whatever order and at whatever times, the record
    keeps its session and its finalization identifier, and a record that
    succeeded, failed or timed out stays as it is. *)
Theorem attempt_is_sticky r commands : reachable (Some r) -> exists r',
  run (Some r) commands = Some r' /\ fr_sessionId r' = fr_sessionId r /\
  fr_finalizationId r' = fr_finalizationId r /\ (isTerminalState (fr_state r) = true -> r' = r).
Proof. intros Hr%reachable_coherent. by apply run_same_attempt. Qed.

(** ** Repeated commands *)

Lemma num_eqb_Z z : num_eqb (NInt z) (NInt z) = true.
Proof. apply Z.eqb_refl. Qed.

Lemma same_state_refl s : in_order s -> isTerminalState s = false -> haveSameNonterminalState s s = true.
Proof.
  intros (zs & Hz & _) Ht. destruct s as [i q | i q st | | |]; try done; cbn in Hz |- *.
  - destruct zs as [| z [|]]; [done | | done]. injection Hz as ->. by rewrite String.eqb_refl, num_eqb_Z.
  - destruct zs as [| z [| w [|]]]; [done | done | | done]. injection Hz as -> ->.
    by rewrite String.eqb_refl, !num_eqb_Z.
Qed.

Lemma prior_again kind s : evaluatePriorFinalizationState kind s (Some s) =
  if is_cancel kind then if isTerminalState s then Some (rejected (Some s) "FINALIZATION_NOT_CANCELLABLE") else None
  else if isTerminalState s then Some (idempotent s) else None.
Proof.
  unfold evaluatePriorFinalizationState, isCurrentCancellableState. rewrite String.eqb_refl.
  destruct (is_cancel kind), (isTerminalState s); cbn; try done. by rewrite String.eqb_refl.
Qed.

Lemma cancel_terminal command a : admitCommand command = inl a -> is_cancel (cmd_kind command) = true ->
  isTerminalState (ad_state a) = true.
Proof.
  unfold admitCommand. destruct (hasValidBase command); [done |]. destruct (parseFinalizationId _) as [id |]; [| done].
  destruct (match cmd_kind command with fail _ _ _ => _ | _ => _ end); [done |].
  destruct (negb (hasRequiredScenarioContext _ _)); [done |].
  destruct (admitCommandState command id) as [[[s r] inv] |] eqn:Es; [| done]. intros [= <-] Hc.
  unfold admitCommandState in Es. destruct (cmd_kind command); try done.
  destruct (_ || _ || _); [done |]. by injection Es as <- _ _.
Qed.

(** A command may be sent again: once it was applied, the same command is
    answered with the state it led to, without a change, at any later
    evaluation; only a cancellation is refused the second time, because the
    attempt has ended. *)
Theorem retry_is_idempotent cur command now later s reason n : reachable cur ->
  isNonNegativeSafeInteger later = true ->
  evaluateFinalizationTransition cur command now = applied s reason n ->
  evaluateFinalizationTransition (Some n) command later =
    if is_cancel (cmd_kind command) then rejected (Some s) "FINALIZATION_NOT_CANCELLABLE" else idempotent s.
Proof.
  intros Hc%reachable_coherent Hl E. assert (E' := E). apply applied_coherent in E' as [Hn ->]; [| done].
  apply evaluate_applied in E as (a & Ha & Es & _ & _ & Hi & Hb).
  assert (Had := admit_spec _ _ Ha). apply built_record in Hb as (E1 & _ & E3 & Hctx & _).
  unfold evaluateFinalizationTransition. rewrite Hl. cbn [negb]. rewrite Ha, E1, String.eqb_refl. cbn [negb].
  cbn [fmap option_fmap option_map]. rewrite <- E3, prior_again.
  destruct (isTerminalState (fr_state n)) eqn:Ht; [by destruct (is_cancel _) |].
  destruct (is_cancel (cmd_kind command)) eqn:Ek.
  { assert (H := cancel_terminal _ _ Ha Ek). rewrite <- E3, Ht in H. done. }
  rewrite Hi. assert (Hnot : is_succeeded (ad_state a) = false) by (rewrite <- E3; by destruct (fr_state n)).
  unfold buildNextRecord. rewrite Hnot. cbn [negb].
  assert (Hx : match ad_scenarioContext a with Some c => Some c | None => fr_scenarioContext <$> Some n end =
               Some (fr_scenarioContext n)).
  { destruct Hctx as [-> | [-> _]]; done. }
  rewrite Hx. cbn [fr_scenarioContext]. rewrite same_state_refl by (done || apply (rc_order n Hn)).
  unfold haveSameScenarioContext. by rewrite bool_decide_eq_true_2.
Qed.

(** ** Ending an attempt *)

Lemma safe_of_Z z : 0 <= z <= MAX_SAFE_INTEGER -> isNonNegativeSafeInteger (NInt z) = true.
Proof. intros Hz. apply isNonNegativeSafeInteger_spec. by exists z. Qed.

Definition state_queued (s : FinalizationState) : num :=
  match s with pending _ q | running _ q _ | succeeded _ q _ _ | failed _ q _ _ _ | timeout _ q _ _ => q end.

Lemma queued_moment s : in_order s -> exists q, state_queued s = NInt q /\ 0 <= q <= MAX_SAFE_INTEGER.
Proof.
  intros (zs & Hz & Hf & _). destruct Hf as [| z zs Hz0 _]; destruct s; try done; cbn in Hz |- *; injection Hz as -> _; by exists z.
Qed.

(** A command that ends the attempt of a record, without a scenario of its own. *)
Definition ending_command (r : FinalizationRecord) (kind : CommandKind) (reason : option string) :
    FinalizationTransitionCommand :=
  mkCommand kind (fr_sessionId r) (fr_finalizationId r) (state_queued (fr_state r)) JUndefined reason.

(** The record that such a command leaves. *)
Definition ended (r : FinalizationRecord) (s : FinalizationState) : FinalizationRecord :=
  mkRecord (fr_sessionId r) (fr_finalizationId r) (fr_scenarioContext r) s None.

Definition ends (kind : CommandKind) : Prop := match kind with cancel _ _ _ | time_out _ _ => True | _ => False end.

Section ending.
Variables (r : FinalizationRecord) (kind : CommandKind) (reason : option string) (now : num).
Hypotheses (Hr : record_coherent r) (Ht : isTerminalState (fr_state r) = false)
  (Hnow : isNonNegativeSafeInteger now = true) (Hk : ends kind)
  (Hreason : forall text, reason = Some text -> isFinalizationEventReason text = true).

Lemma ending_admission : admitCommand (ending_command r kind reason) =
  match admitCommandState (ending_command r kind reason) (fr_finalizationId r) with
  | inr refusal => inr refusal
  | inl (state, successfulResult, invalidResult) =>
      inl (mkAdmitted (fr_sessionId r) (fr_finalizationId r) state (default (resolveDefaultReason kind) reason) None
             successfulResult invalidResult)
  end.
Proof.
  destruct (queued_moment _ (rc_order r Hr)) as (q & Eq & Hq).
  assert (Hbase : hasValidBase (ending_command r kind reason) = None).
  { unfold hasValidBase, ending_command. cbn [cmd_sessionId cmd_finalizationId cmd_queuedAtMs cmd_reason].
    rewrite (rc_session r Hr), (rc_id r Hr), Eq. rewrite (safe_of_Z q) by done. cbn [negb].
    destruct reason as [text |]; [by rewrite (Hreason text) | done]. }
  unfold admitCommand. rewrite Hbase. change (cmd_finalizationId (ending_command r kind reason)) with (fr_finalizationId r).
  rewrite option_segment by apply (rc_id r Hr). change (cmd_kind (ending_command r kind reason)) with kind.
  assert (Hf : match kind with fail _ _ e => negb (hasValidFailureError e) | _ => false end = false) by (by destruct kind).
  assert (Hc : hasRequiredScenarioContext (ending_command r kind reason) None = true) by (by destruct kind).
  rewrite Hf. change (admitScenarioContext _) with (@None FinalizationScenarioContext). rewrite Hc. cbn [negb]. done.
Qed.

Lemma ending_applied s : admitCommandState (ending_command r kind reason) (fr_finalizationId r) = inl (s, None, false) ->
  is_succeeded s = false -> isTerminalState s = true -> state_id s = fr_finalizationId r ->
  evaluateFinalizationTransition (Some r) (ending_command r kind reason) now =
    applied s (default (resolveDefaultReason kind) reason) (ended r s).
Proof.
  intros Hs Hsucc Hterm Hid. assert (Ha := ending_admission). rewrite Hs in Ha.
  unfold evaluateFinalizationTransition. rewrite Hnow, Ha. cbn [negb ad_sessionId]. rewrite String.eqb_refl. cbn [negb].
  change (cmd_kind (ending_command r kind reason)) with kind. cbn [ad_state fmap option_fmap option_map].
  assert (Hp : evaluatePriorFinalizationState kind s (Some (fr_state r)) = None).
  { unfold evaluatePriorFinalizationState, isCurrentCancellableState. rewrite Hid, (rc_state_id r Hr), String.eqb_refl, Ht.
    cbn. rewrite andb_false_r. cbn. rewrite andb_true_r, andb_false_r. done. }
  rewrite Hp. cbn [ad_invalidSuccessfulResult]. unfold buildNextRecord.
  cbn [ad_scenarioContext ad_state ad_sessionId ad_finalizationId fmap option_fmap option_map]. rewrite Hsucc. cbn [negb].
  assert (Hd : haveSameNonterminalState (fr_state r) s = false) by (by destruct (fr_state r), s).
  by rewrite Hd.
Qed.

Lemma ending_refused refusal : admitCommandState (ending_command r kind reason) (fr_finalizationId r) = inr refusal ->
  evaluateFinalizationTransition (Some r) (ending_command r kind reason) now = invalid (Some (fr_state r)) refusal.
Proof.
  intros Hs. assert (Ha := ending_admission). rewrite Hs in Ha. unfold evaluateFinalizationTransition. by rewrite Hnow, Ha.
Qed.
End ending.

(** The moment an attempt started is a valid one for a command that ends it. *)
Lemma own_start s started : in_order s -> started = None \/ started = state_started s ->
  hasValidOptionalStartedAt (state_queued s) started = true.
Proof.
  intros (zs & Hz & Hf & Hs) [-> | ->]; [done |].
  assert (Hgen : forall q st rest, moments s = q :: st :: rest -> hasValidStartedAt q st = true).
  { intros q st rest Em. rewrite Em in Hz. destruct zs as [| a [| b zs]]; try discriminate Hz. injection Hz as -> -> _.
    apply Forall_cons in Hf as [_ Hf]. apply Forall_cons in Hf as [Hb _]. unfold hasValidStartedAt. rewrite safe_of_Z by done.
    apply Sorted_inv in Hs as [_ Hs]. apply HdRel_inv in Hs. unfold num_leb. cbn. apply orb_true_iff.
    rewrite Z.ltb_lt, Z.eqb_eq. lia. }
  destruct s as [| | | id q [st |] f e | id q [st |] t]; cbn [state_started state_queued hasValidOptionalStartedAt]; try done;
    by eapply Hgen.
Qed.

(** C39: No attempt is stuck: a record that is still pending or running is ended by a
    cancellation of the user and by a timeout, whether the command carries the moment
    the attempt started, as the cancellation and the reconciliation do, or none; each is
    applied at every moment that is not before the one it carries (the queueing, when
    it carries none), with these moments and the identifiers and the scenario of the
    record. At an earlier moment (a clock that was set back) both are refused and the
    record stays. *)
Theorem open_attempt_can_end r started t now message reason : reachable (Some r) -> isTerminalState (fr_state r) = false ->
  isNonNegativeSafeInteger now = true -> isNonNegativeSafeInteger t = true -> str_truthy (trim message) = true ->
  started = None \/ started = state_started (fr_state r) ->
  (forall text, reason = Some text -> isFinalizationEventReason text = true) ->
  let queuedAtMs := state_queued (fr_state r) in
  let cancelled := failed (fr_finalizationId r) queuedAtMs started t
                     (JObj [("code", JStr "USER_CANCELLED"); ("message", JStr message)]%string) in
  let timed_out := timeout (fr_finalizationId r) queuedAtMs started t in
  let cancellation := evaluateFinalizationTransition (Some r) (ending_command r (cancel started t message) reason) now in
  let expiry := evaluateFinalizationTransition (Some r) (ending_command r (time_out started t) reason) now in
  if num_leb (default queuedAtMs started) t
  then cancellation = applied cancelled (default "USER_CANCELLED"%string reason) (ended r cancelled) /\
       expiry = applied timed_out (default "EXECUTION_TIMED_OUT"%string reason) (ended r timed_out)
  else cancellation = invalid (Some (fr_state r)) invalid_error /\ expiry = invalid (Some (fr_state r)) invalid_timestamp.
Proof.
  intros Hr%reachable_coherent Ht Hnow Hsafe Hm Hst Hreason queuedAtMs cancelled timed_out cancellation expiry.
  assert (Hown := own_start _ _ (rc_order r Hr) Hst).
  assert (Hterm : hasValidTerminalAt (default queuedAtMs started) t = num_leb (default queuedAtMs started) t)
    by (unfold hasValidTerminalAt; by rewrite Hsafe).
  destruct (num_leb (default queuedAtMs started) t); split.
  1, 2: apply ending_applied; try done.
  3, 4: apply ending_refused; try done.
  all: unfold admitCommandState, ending_command; cbn [cmd_kind cmd_queuedAtMs]; fold queuedAtMs in Hown |- *;
    by rewrite Hown, Hterm, ?Hm.
Qed.
