(* ===== verification/FinSamples.v ===== *)
(** A sample finalization: queued, started, ended. The hypotheses of the
    theorems of FinTransitionProofs.v hold on it. *)
From S2P Require Import Prelude.
From S2P Require Import JsNumber.
From S2P Require Import JsText.
From S2P Require Import JsValue.
From S2P Require Import Journal.
From S2P Require Import HostSamples.
From S2P Require Import FinStorage.
From S2P Require Import FinTransition.
From S2P Require Import FinStorageProofs.
From S2P Require Import FinTransitionProofs.
Import JsText.
Import JsValue.
Import Journal.
Import FinStorage.
Import FinTransition.

Definition sample_scenario : FinalizationScenarioContext :=
  mkScenario ["none"%string] tamper_none (map NInt [1; 0; 1; 0; 0]) (NInt 2) (NInt 0) (NInt 0) None None.

Definition sample_result : FinalizationResultAuthority :=
  mkResultAuthority (mkTally (map NInt [1; 0; 1; 0; 0]) (NInt 3) (NInt 0)) (hash_text "6123456789abcdef") sample_journal
    None (Some ["none"%string]) None createUnavailableFinalizationArtifacts.

Definition sample_command (kind : CommandKind) : FinalizationTransitionCommand :=
  mkCommand kind "session-1" "01HZX" (NInt 1000) (scenario_value sample_scenario) None.

Definition sample_end : CommandKind := succeed (NInt 1200) (NInt 1900) (JObj (result_authority_value sample_result)).

Definition sample_run (kinds : list CommandKind) : option FinalizationRecord :=
  run None (map (fun kind => (sample_command kind, NInt 2000)) kinds).

Lemma run_reachable commands : forall cur, reachable cur -> reachable (run cur commands).
Proof.
  induction commands as [| [command now] commands IH]; intros cur Hc; [done |].
  apply IH. eapply reach_step; [exact Hc | apply step_command].
Qed.

Definition status_after (kinds : list CommandKind) : option string :=
  (fun r => state_status (fr_state r)) <$> sample_run kinds.

(** The policy on the table of states and commands. *)
Example queued_then_started : status_after [queue; start (NInt 1200)] = Some "running"%string.
Proof. vm_compute. reflexivity. Qed.
Example running_then_queued : status_after [queue; start (NInt 1200); queue] = Some "pending"%string.
Proof. vm_compute. reflexivity. Qed.
Example succeeded_stays : status_after [queue; sample_end; time_out None (NInt 1950)] = Some "succeeded"%string.
Proof. vm_compute. reflexivity. Qed.

(** The policy admits an error with a property that the reader of records does
    not know: the record is written, and it is not read back. *)
Definition annotated_error : jsval :=
  JObj [("code", JStr "PROVER_TASK_FAILED"); ("message", JStr "exit 1"); ("task", JStr "t-1")]%string.

Example annotated_error_not_read_back :
  match sample_run [queue; fail None (NInt 1500) annotated_error] with
  | Some r => match encodeFinalizationRecord r with Ok v => decodeFinalizationRecord v = None | Err _ => False end
  | None => False
  end.
Proof. vm_compute. reflexivity. Qed.

(** ** Witnesses *)

Lemma reachable_records_coherent_witness :
  exists r, sample_run [queue; start (NInt 1200); sample_end] = Some r /\ in_order (fr_state r) /\
    is_succeeded (fr_state r) = true /\ is_some (fr_result r) = true.
Proof.
  assert (Hok : is_some (sample_run [queue; start (NInt 1200); sample_end]) = true) by (vm_compute; reflexivity).
  destruct (sample_run [queue; start (NInt 1200); sample_end]) as [r |] eqn:E; [| discriminate Hok].
  assert (Hr : reachable (Some r)).
  { rewrite <- E. apply run_reachable, reach_start. }
  destruct (reachable_records_coherent (Some r) Hr) as (_ & Ho & Hs & _).
  assert (Hsucc : is_succeeded (fr_state r) = true) by (vm_compute in E; injection E as <-; reflexivity).
  exact (ex_intro _ r (conj eq_refl (conj Ho (conj Hsucc (proj1 Hs Hsucc))))).
Defined.

Lemma reachable_record_round_trip_witness :
  exists r v, sample_run [queue; start (NInt 1200); sample_end] = Some r /\
    encodeFinalizationRecord r = Ok v /\ decodeFinalizationRecord v = Some r.
Proof.
  assert (Hok : is_some (sample_run [queue; start (NInt 1200); sample_end]) = true) by (vm_compute; reflexivity).
  destruct (sample_run [queue; start (NInt 1200); sample_end]) as [r |] eqn:E; [| discriminate Hok].
  assert (Hr : reachable (Some r)).
  { rewrite <- E. apply run_reachable, reach_start. }
  assert (He : error_current (fr_state r)) by (vm_compute in E; injection E as <-; exact I).
  destruct (reachable_record_round_trip r Hr He) as (v & H1 & H2).
  exact (ex_intro _ r (ex_intro _ v (conj eq_refl (conj H1 H2)))).
Defined.

Lemma attempt_is_sticky_witness :
  exists r, sample_run [queue; sample_end] = Some r /\
    run (Some r) [(sample_command queue, NInt 2000); (sample_command (time_out None (NInt 1950)), NInt 2000)] = Some r.
Proof.
  assert (Hok : is_some (sample_run [queue; sample_end]) = true) by (vm_compute; reflexivity).
  destruct (sample_run [queue; sample_end]) as [r |] eqn:E; [| discriminate Hok].
  assert (Hr : reachable (Some r)).
  { rewrite <- E. apply run_reachable, reach_start. }
  assert (Ht : isTerminalState (fr_state r) = true) by (vm_compute in E; injection E as <-; reflexivity).
  destruct (attempt_is_sticky r [(sample_command queue, NInt 2000); (sample_command (time_out None (NInt 1950)), NInt 2000)] Hr)
    as (r' & Hrun & _ & _ & Hsame).
  assert (Er : r' = r) by exact (Hsame Ht). rewrite Er in Hrun. exact (ex_intro _ r (conj eq_refl Hrun)).
Defined.

Lemma retry_is_idempotent_witness :
  exists s n, evaluateFinalizationTransition None (sample_command (start (NInt 1200))) (NInt 2000) =
                applied s "RUNTIME_UPDATE_RECEIVED" n /\
    evaluateFinalizationTransition (Some n) (sample_command (start (NInt 1200))) (NInt 2001) = idempotent s.
Proof.
  destruct (evaluateFinalizationTransition None (sample_command (start (NInt 1200))) (NInt 2000)) as [s reason n | | |] eqn:E;
    try (vm_compute in E; discriminate E).
  assert (Hr : reason = "RUNTIME_UPDATE_RECEIVED"%string) by (vm_compute in E; injection E as _ <- _; reflexivity).
  subst reason. exists s, n. split; [reflexivity |].
  exact (retry_is_idempotent None _ (NInt 2000) (NInt 2001) s _ n reach_start eq_refl E).
Defined.

(** The cancellation of a running attempt, with its start, at 1500 and, with a clock that
    went back, at 1100. *)
Lemma open_attempt_can_end_witness :
  exists r, sample_run [queue; start (NInt 1200)] = Some r /\
    (exists s n, evaluateFinalizationTransition (Some r)
       (ending_command r (cancel (Some (NInt 1200)) (NInt 1500) "stop") (Some "USER_CANCELLED"%string)) (NInt 2000) =
       applied s "USER_CANCELLED" n) /\
    evaluateFinalizationTransition (Some r)
      (ending_command r (cancel (Some (NInt 1200)) (NInt 1100) "stop") (Some "USER_CANCELLED"%string)) (NInt 2000) =
      invalid (Some (fr_state r)) invalid_error.
Proof.
  assert (Hok : is_some (sample_run [queue; start (NInt 1200)]) = true) by (vm_compute; reflexivity).
  destruct (sample_run [queue; start (NInt 1200)]) as [r |] eqn:E; [| discriminate Hok].
  assert (Hr : reachable (Some r)).
  { rewrite <- E. apply run_reachable, reach_start. }
  assert (Hopen : isTerminalState (fr_state r) = false) by (vm_compute in E; injection E as <-; reflexivity).
  assert (Hown : Some (NInt 1200) = state_started (fr_state r)) by (vm_compute in E; injection E as <-; reflexivity).
  assert (Hreason : forall text, Some "USER_CANCELLED"%string = Some text -> isFinalizationEventReason text = true)
    by (intros text [= <-]; vm_compute; reflexivity).
  assert (Hlate := open_attempt_can_end r (Some (NInt 1200)) (NInt 1500) (NInt 2000) "stop" (Some "USER_CANCELLED"%string)
    Hr Hopen eq_refl eq_refl eq_refl (or_intror Hown) Hreason).
  assert (Hearly := open_attempt_can_end r (Some (NInt 1200)) (NInt 1100) (NInt 2000) "stop" (Some "USER_CANCELLED"%string)
    Hr Hopen eq_refl eq_refl eq_refl (or_intror Hown) Hreason).
  cbv zeta in Hlate, Hearly. change (num_leb _ (NInt 1500)) with true in Hlate. change (num_leb _ (NInt 1100)) with false in Hearly.
  exists r. split; [reflexivity |]. split; [| exact (proj1 Hearly)].
  exact (ex_intro _ _ (ex_intro _ _ (proj1 Hlate))).
Defined.
