(* ===== verification/SessionVote.v ===== *)
(** Votes of a session (packages/application/src/session: session-mutation-policy.ts,
    user-vote-replay.ts, submit-vote.ts): the records of a new session and the
    policy that admits the vote of the user, the votes of the bots and the
    repetition of a vote already stored. The vote identifiers, the clock and
    the readings of [Date.now()] inside the log are arguments. *)
From S2P Require Import Prelude.
From S2P Require Import Hex.
From S2P Require Import Rfc6962.
From S2P Require Import JsNumber.
From S2P Require Import JsValue.
From S2P Require Import Contract.
From S2P Require Import Bulletin.
From S2P Require Import CtSession.
Import JsValue.
Import Contract.
Import Bulletin.
Import CtSession.

Module SessionVote.

(** ** Records (domain/types/sessionRecords.ts) *)

Record SessionIdentityRecord := mkIdentity {
  id_sessionId : string;
  id_electionId : string;
  id_electionConfigHash : string;
  id_electionConfig : ElectionConfig;
  id_logId : string;
  id_createdAtMs : Z;
}.

(** The voting record; [vr_votes] lists the map in insertion order. *)
Record VotingRecord := mkVotingRecord {
  vr_sessionId : string;
  vr_votes : list (num * StoredVoteRecord);
  vr_bulletin : SimpleBulletinBoard;
  vr_bulletinRootHistory : list RootSnapshot;
  vr_botCount : Z;
  vr_userParticipation : UserParticipation;
  vr_lastActivityMs : Z;
}.

Record BotVoteCommand := mkBotVote { bv_vote : string; bv_rand : string }.

Record UserVoteCommand := mkUserVote {
  uv_voteId : string;
  uv_timestamp : Z;
  uv_vote : string;
  uv_rand : string;
}.

Record AddVoteResult := mkAddResult {
  av_leafIndex : Z;
  av_merklePath : list string;
  av_bulletinRootAtCast : string;
}.

(** [F] is the type of finalization records: only their presence is read. *)
Record SessionVoteAuthority (F : Type) := mkAuthority {
  sa_identity : SessionIdentityRecord;
  sa_voting : VotingRecord;
  sa_finalization : option F;
}.
Arguments mkAuthority {F} _ _ _.
Arguments sa_identity {F} _.
Arguments sa_voting {F} _.
Arguments sa_finalization {F} _.

Inductive SessionVoteCommand : Type :=
| append_user_vote (vote : UserVoteCommand)
| append_bot_votes (votes : list BotVoteCommand).

Record VoteIndexIntent := mkIntent { vi_voteId : string; vi_index : num }.

Inductive SessionVoteMutation : Type :=
| user_vote_appended (nextVoting : VotingRecord) (indexIntents : list VoteIndexIntent) (castResult : AddVoteResult)
| user_vote_replayed (castResult : AddVoteResult)
| bot_votes_appended (nextVoting : VotingRecord) (indexIntents : list VoteIndexIntent).

(** Expected errors; the details of [DUPLICATE_VOTE] are its argument. *)
Inductive VoteError : Type :=
| ALREADY_VOTED
| SESSION_FINALIZED
| DUPLICATE_VOTE (duplicateKind : string)
| USER_NOT_VOTED
| INVALID_COMMITMENT.

(** [Result<T, E>] of the application layer. *)
Inductive Outcome (A : Type) : Type :=
| Accepted (value : A)
| Refused (error : VoteError).
Arguments Accepted {A} _.
Arguments Refused {A} _.

(** What one evaluation reads of its surroundings: the votes of a batch are
    prepared in order, so their identifiers are numbered. *)
Record Environment := mkEnvironment {
  generateVoteId : nat -> string;
  nowMs : nat -> Z;
  clock_rebuild : Z -> Z;
  clock_stage : Z -> Z;
  clock_fallback : Z;
}.

Inductive UserVoteReplay : Type :=
| replay_not_cast
| replay_conflict
| replay_found (vote : StoredVoteRecord) (index : Z).

(** ** The record as the log reads it *)

Definition snapshot_value (s : RootSnapshot) : jsval :=
  JObj (app [("timestamp", JNum (NInt (rs_timestamp s))); ("treeSize", JNum (NInt (rs_treeSize s)));
             ("root", JStr (rs_root s))]
        (match rs_signature s with Some sig => [("signature", JStr sig)] | None => [] end))%string.

Definition snapshots_value (history : list RootSnapshot) : jsval := JArr (map snapshot_value history).

Definition ct_record (v : VotingRecord) : SessionVotingRecord :=
  mkVoting (vr_votes v) (Some (vr_bulletin v)) (snapshots_value (vr_bulletinRootHistory v)) (vr_userParticipation v).

(** [votes.get(index)] and [votes.set(index, vote)] *)
Definition votes_get {A} (entries : list (num * A)) (index : num) : option A :=
  snd <$> List.find (fun e => same_value e.1 index) entries.

Fixpoint votes_set {A} (entries : list (num * A)) (index : num) (vote : A) : list (num * A) :=
  match entries with
  | [] => [(index, vote)]
  | e :: rest => if same_value e.1 index then (e.1, vote) :: rest else e :: votes_set rest index vote
  end.

Definition currentUserVoteIndex (voting : VotingRecord) : option num :=
  explicit_index (vr_userParticipation voting).

Definition buildNextVoting (voting : VotingRecord) (stagedVotes : list StagedVoteWrite)
    (next_bulletin : SimpleBulletinBoard) (next_history : list RootSnapshot) (next_botCount : Z)
    (next_userVoteIndex : option num) (next_lastActivityMs : Z) : VotingRecord :=
  mkVotingRecord (vr_sessionId voting)
    (fold_left (fun entries s => votes_set entries (st_index s) (st_storedVote s)) stagedVotes (vr_votes voting))
    next_bulletin next_history next_botCount
    (match next_userVoteIndex with None => not_cast | Some index => cast index end) next_lastActivityMs.

Definition toIndexIntents (stagedVotes : list StagedVoteWrite) : list VoteIndexIntent :=
  map (fun s => mkIntent (st_voteId s) (st_index s)) stagedVotes.

(** [choice.charCodeAt(0) - 'A'.charCodeAt(0)]; of the empty text it is [NaN],
    which the encoding of the commitment stores as the byte 0. *)
Definition choice_code (choice : string) : Z :=
  match choice with String c _ => char_code c - 65 | EmptyString => 0 end.

(** domain/crypto/sha256Commitment.ts; the comparison of one-character texts is
    that of their codes. *)
Definition choiceToNumber (choice : string) : result Z :=
  match choice with
  | String c EmptyString =>
      if Z.ltb (char_code c) 65 || Z.ltb 69 (char_code c) then throw "Invalid choice: must be A-E"
      else Ok (char_code c - 65)
  | _ => throw "Invalid choice: must be A-E"
  end.

Section with_noble.
Context `{Noble}.
Context {F : Type}.

(** ** Preparing a vote *)

Definition prepareVote (identity : SessionIdentityRecord) (vote : BotVoteCommand) (voteId : string)
    (timestamp : Z) : result PreparedVote :=
  normalizedRandom ← normalizeHex (bv_rand vote) allow_empty;
  commit ← computeCommitment (id_electionId identity) (choice_code (bv_vote vote)) normalizedRandom;
  Ok (mkPrepared voteId timestamp (bv_vote vote) normalizedRandom commit).

Fixpoint prepareVotes (env : Environment) (identity : SessionIdentityRecord) (nextIndex : Z) (offset : nat)
    (votes : list BotVoteCommand) : result (list IndexedVoteWrite) :=
  match votes with
  | [] => Ok []
  | vote :: rest =>
      prepared ← prepareVote identity vote (generateVoteId env offset) (nowMs env offset);
      writes ← prepareVotes env identity nextIndex (S offset) rest;
      Ok (mkWrite (NInt (nextIndex + Z.of_nat offset)) prepared :: writes)
  end.

(** ** The vote of the user *)

(** An exception of the proof and a missing proof are the same error. *)
Definition proof_or_unavailable (m : result (option InclusionProof)) : result InclusionProof :=
  match m with
  | Ok (Some proof) => Ok proof
  | Ok None => throw "CT_PROOF_UNAVAILABLE"
  | Err (Throw _) => throw "CT_PROOF_UNAVAILABLE"
  | Err OutOfFuel => Err OutOfFuel
  end.

Fixpoint normalize_nodes (options : NormalizeHexOptions) (nodes : list string) : result (list string) :=
  match nodes with
  | [] => Ok []
  | node :: rest =>
      n ← normalizeHex node options;
      ns ← normalize_nodes options rest;
      Ok (n :: ns)
  end.

Definition evaluateUserVoteMutation (env : Environment) (authority : SessionVoteAuthority F)
    (vote : UserVoteCommand) : result SessionVoteMutation :=
  let voting := sa_voting authority in
  preparedVote ← prepareVote (sa_identity authority) (mkBotVote (uv_vote vote) (uv_rand vote)) (uv_voteId vote)
                   (uv_timestamp vote);
  let voteId := pv_voteId preparedVote in
  let index := zlength (vr_votes voting) in
  staged ← stageCtVoteWrites (clock_stage env) (clock_fallback env) (ct_record voting)
             [mkWrite (NInt index) preparedVote];
  match sr_votes staged with
  | [] => throw "Finalization state invariant violated"
  | stagedVote :: _ =>
      let '(answer, bulletin) := board_getInclusionProof voteId (Some (index + 1)) (sr_bulletin staged) in
      inclusionProof ← proof_or_unavailable answer;
      let bulletinRootAtCast := sv_rootAtCast (st_storedVote stagedVote) in
      if negb (str_truthy bulletinRootAtCast) then throw "CT_PROOF_UNAVAILABLE"
      else
        merklePath ← normalize_nodes allow_empty (ip_proofNodes inclusionProof);
        Ok (user_vote_appended
              (buildNextVoting voting (sr_votes staged) bulletin (sr_bulletinRootHistory staged)
                 (vr_botCount voting) (Some (NInt index)) (nowMs env 0))
              (toIndexIntents (sr_votes staged)) (mkAddResult index merklePath bulletinRootAtCast))
  end.

(** ** The votes of the bots *)

Definition evaluateBotVoteMutation (env : Environment) (authority : SessionVoteAuthority F)
    (votes : list BotVoteCommand) : result SessionVoteMutation :=
  let voting := sa_voting authority in
  _ ← assertCanonicalUserVoteIndexForBotVotes (vr_votes voting) (currentUserVoteIndex voting);
  projection ← buildCanonicalCtSessionProjection (clock_rebuild env) (clock_fallback env) (ct_record voting);
  if negb (Z.eqb (cp_botCount projection) (vr_botCount voting))
  then throw "Session voting record bot count is inconsistent"
  else
    let projectedUserVoteIndex := explicit_index (cp_userParticipation projection) in
    _ ← assertCanonicalUserVoteIndexForBotVotes (vr_votes voting) projectedUserVoteIndex;
    writes ← prepareVotes env (sa_identity authority) (cp_nextIndex projection) 0 votes;
    staged ← stageCtVoteWrites (clock_stage env) (clock_fallback env)
               (mkVoting (vr_votes voting) (Some (cp_bulletin projection))
                  (snapshots_value (cp_bulletinRootHistory projection)) (vr_userParticipation voting)) writes;
    Ok (bot_votes_appended
          (buildNextVoting voting (sr_votes staged) (sr_bulletin staged) (sr_bulletinRootHistory staged)
             (cp_botCount projection + zlength (sr_votes staged)) projectedUserVoteIndex (nowMs env (length votes)))
          (toIndexIntents (sr_votes staged))).

(** ** Records of a new session *)

Definition buildSessionRecords (identity : SessionIdentityRecord) (lastActivityMs : Z) :
    SessionIdentityRecord * VotingRecord :=
  (identity,
   mkVotingRecord (id_sessionId identity) [] (new_board (Some (id_logId identity))) [] 0 not_cast lastActivityMs).

(** ** Replays (user-vote-replay.ts) *)

Definition first_root (history : list RootSnapshot) : string :=
  match history with s :: _ => rs_root s | [] => "" end.

(** The comparison of the roots is made only when the commitments agree. *)
Definition resolveUserVoteReplay (identity : SessionIdentityRecord) (voting : VotingRecord)
    (requested_vote requested_rand : string) : result UserVoteReplay :=
  match vr_userParticipation voting with
  | not_cast => Ok replay_not_cast
  | cast voteIndex =>
      match votes_get (vr_votes voting) voteIndex with
      | None => throw "Invalid stored user vote authority"
      | Some stored =>
          if negb (num_eqb voteIndex (NInt 0)) then throw "Invalid stored user vote authority"
          else
            choice ← choiceToNumber (sv_vote stored);
            commitment ← computeCommitment (id_electionId identity) choice (sv_rand stored);
            storedCommit ← normalizeHex (sv_commit stored) no_options;
            if negb (String.eqb storedCommit commitment) then throw "Invalid stored user vote evidence"
            else
              root ← normalizeHex (sv_rootAtCast stored) no_options;
              first ← normalizeHex (first_root (vr_bulletinRootHistory voting)) no_options;
              if negb (String.eqb root first) then throw "Invalid stored user vote evidence"
              else if negb (String.eqb (sv_vote stored) requested_vote) then Ok replay_conflict
              else
                storedRand ← normalizeHex (sv_rand stored) no_options;
                rand ← normalizeHex requested_rand no_options;
                if negb (String.eqb storedRand rand) then Ok replay_conflict
                else Ok (replay_found stored 0)
      end
  end.

(** [bulletin.getInclusionProof(vote.voteId, size)]; the entry of a missing
    identifier is not found. *)
Definition stored_proof (b : SimpleBulletinBoard) (voteId : option string) (treeSize : Z) :
    result (option InclusionProof) :=
  match voteId with
  | None => Ok None
  | Some id => fst (board_getInclusionProof id (Some treeSize) b)
  end.

(** ** The policy *)

Definition admitNewUserVote (env : Environment) (authority : SessionVoteAuthority F) (vote : UserVoteCommand) :
    result (Outcome SessionVoteMutation) :=
  let voting := sa_voting authority in
  if existsb (fun e => match sv_voteId e.2 with Some id => String.eqb id (uv_voteId vote) | None => false end)
       (vr_votes voting)
  then Ok (Refused (DUPLICATE_VOTE "voteId"))
  else
    let already := match vr_userParticipation voting with cast _ => true | not_cast => false end in
    if already || Z.ltb 0 (zlength (vr_votes voting)) then Ok (Refused ALREADY_VOTED)
    else Accepted <$> evaluateUserVoteMutation env authority vote.

Definition replayed (voting : VotingRecord) (vote : StoredVoteRecord) (index : Z) :
    result (Outcome SessionVoteMutation) :=
  proof ← stored_proof (vr_bulletin voting) (sv_voteId vote) (index + 1);
  match proof with
  | None => throw "CT_PROOF_UNAVAILABLE"
  | Some p =>
      merklePath ← normalize_nodes no_options (ip_proofNodes p);
      Ok (Accepted (user_vote_replayed (mkAddResult index merklePath (sv_rootAtCast vote))))
  end.

Definition evaluateSessionVoteMutation (env : Environment) (authority : SessionVoteAuthority F)
    (command : SessionVoteCommand) : result (Outcome SessionVoteMutation) :=
  let voting := sa_voting authority in
  replay ← match command with
           | append_user_vote vote =>
               resolveUserVoteReplay (sa_identity authority) voting (uv_vote vote) (uv_rand vote)
           | append_bot_votes _ => Ok replay_not_cast
           end;
  match replay with
  | replay_found vote index => replayed voting vote index
  | _ =>
      if is_some (sa_finalization authority) then Ok (Refused SESSION_FINALIZED)
      else
        match command with
        | append_user_vote vote => admitNewUserVote env authority vote
        | append_bot_votes votes =>
            match vr_userParticipation voting with
            | not_cast => Ok (Refused USER_NOT_VOTED)
            | cast _ =>
                if Z.ltb BOT_COUNT (vr_botCount voting + zlength votes) then Ok (Refused ALREADY_VOTED)
                else Accepted <$> evaluateBotVoteMutation env authority votes
            end
        end
  end.

(** ** Submitting a vote (submit-vote.ts) *)

Record PreparedUserVoteSubmission := mkSubmission {
  ps_commitment : string;
  ps_command : UserVoteCommand;
}.

Definition prepareUserVoteSubmission (authority : SessionVoteAuthority F) (input : UserVoteCommand)
    (commitment : string) : result (Outcome PreparedUserVoteSubmission) :=
  normalizedRandom ← normalizeHex (uv_rand input) no_options;
  normalizedCommitment ← normalizeHex commitment no_options;
  choice ← choiceToNumber (uv_vote input);
  expectedCommitment ← computeCommitment (id_electionId (sa_identity authority)) choice normalizedRandom;
  if negb (String.eqb expectedCommitment normalizedCommitment) then Ok (Refused INVALID_COMMITMENT)
  else
    replay ← resolveUserVoteReplay (sa_identity authority) (sa_voting authority) (uv_vote input) (uv_rand input);
    match replay with
    | replay_conflict => Ok (Refused ALREADY_VOTED)
    | replay_not_cast =>
        if is_some (sa_finalization authority) then Ok (Refused SESSION_FINALIZED)
        else Ok (Accepted (mkSubmission normalizedCommitment
               (mkUserVote (uv_voteId input) (uv_timestamp input) (uv_vote input) normalizedRandom)))
    | replay_found _ _ =>
        Ok (Accepted (mkSubmission normalizedCommitment
               (mkUserVote (uv_voteId input) (uv_timestamp input) (uv_vote input) normalizedRandom)))
    end.

End with_noble.
End SessionVote.
