(* ===== verification/SessionVoteProofs.v ===== *)
(** What the voting policy of a session promises: the records it can reach are
    canonical and provable, a repeated vote gets the answer of the first one,
    and no second opening is ever admitted. *)
From S2P Require Import Prelude.
From S2P Require Import Hex.
From S2P Require Import Rfc6962.
From S2P Require Import MerkleSpec.
From S2P Require Import TreeFacts.
From S2P Require Import JsNumber.
From S2P Require Import JsText.
From S2P Require Import JsValue.
From S2P Require Import Contract.
From S2P Require Import ContractFacts.
From S2P Require Import Bulletin.
From S2P Require Import CtSession.
From S2P Require Import CtSessionProofs.
From S2P Require Import LocalCast.
From S2P Require Import SessionVote.
Import Rfc6962.
Import JsText.
Import JsValue.
Import Contract.
Import Bulletin.
Import CtSession.
Import SessionVote.

(** ** Sorted lists stay as they are *)

Lemma sort_canonical {A} (key : A -> num) l : forall from, map key l = count_from from (length l) ->
  js_sort (fun a b => difference_sign (key a) (key b)) l = l.
Proof.
  induction l as [| x l IH]; intros from Hl; [done |]. cbn [js_sort]. injection Hl as Hx Hl.
  rewrite (IH _ Hl). destruct l as [| y l]; [done |]. cbn in Hl. injection Hl as Hy _.
  cbn [sort_insert]. rewrite Hx, Hy.
  unfold difference_sign. cbn [num_ltb]. destruct (Z.ltb_spec from (from + 1)); [done | lia].
Qed.

Lemma sort_entries_canonical {A} (l : list (num * A)) : map fst l = count_from 0 (length l) -> sort_entries l = l.
Proof. intros Hl. by eapply (sort_canonical fst). Qed.

Lemma sorted_writes_canonical from ws : map iw_index ws = count_from from (length ws) -> sorted_writes ws = ws.
Proof. by apply (sort_canonical iw_index). Qed.

Lemma count_from_app n m : forall from, count_from from (n + m) = count_from from n ++ count_from (from + Z.of_nat n) m.
Proof.
  induction n as [| n IH]; intros from; cbn.
  - by rewrite Z.add_0_r.
  - rewrite IH. f_equal. f_equal. f_equal. lia.
Qed.

Lemma count_from_length n : forall from, length (count_from from n) = n.
Proof. induction n as [| n IH]; intros from; cbn; [done |]. by rewrite IH. Qed.

(** ** The map of votes *)

Lemma same_value_int i j : same_value (NInt i) (NInt j) = Z.eqb i j.
Proof. unfold same_value. by rewrite orb_false_r. Qed.

Lemma fresh_index {A} (entries : list (num * A)) e : forall from n,
  map fst entries = count_from from n -> In e entries -> exists i, e.1 = NInt i /\ from <= i < from + Z.of_nat n.
Proof.
  induction entries as [| x entries IH]; intros from n Hn Hin; [done |]. destruct n as [| n]; [done |].
  injection Hn as Hx Hn. destruct Hin as [-> | Hin]; [exists from; split; [done | lia] |].
  destruct (IH _ _ Hn Hin) as (i & Hi & Hr). exists i. split; [done | lia].
Qed.

Lemma votes_set_fresh {A} (entries : list (num * A)) index vote :
  Forall (fun e => same_value e.1 index = false) entries ->
  votes_set entries index vote = entries ++ [(index, vote)].
Proof. induction 1 as [| e l He _ IH]; [done |]. cbn [votes_set]. by rewrite He, IH. Qed.

Lemma votes_set_canonical {A} (entries : list (num * A)) vote : map fst entries = count_from 0 (length entries) ->
  votes_set entries (NInt (zlength entries)) vote = entries ++ [(NInt (zlength entries), vote)].
Proof.
  intros Hk. apply votes_set_fresh, Forall_forall. intros e He. apply list_elem_of_In in He.
  destruct (fresh_index _ _ _ _ Hk He) as (i & -> & Hi). rewrite same_value_int. apply Z.eqb_neq.
  unfold zlength. lia.
Qed.

(** Setting the staged votes of the next indices appends them. *)
Lemma votes_set_all staged : forall entries : list (num * StoredVoteRecord),
  map fst entries = count_from 0 (length entries) ->
  map st_index staged = count_from (zlength entries) (length staged) ->
  fold_left (fun entries s => votes_set entries (st_index s) (st_storedVote s)) staged entries =
  entries ++ map (fun s => (st_index s, st_storedVote s)) staged.
Proof.
  induction staged as [| s staged IH]; intros entries Hk Hs; cbn [fold_left map]; [by rewrite app_nil_r |].
  injection Hs as Hi Hs. rewrite Hi, votes_set_canonical by done. rewrite IH; [by rewrite <- app_assoc | |].
  - rewrite map_app, length_app, count_from_app, Hk. done.
  - rewrite Hs, zlength_app, zlength_single. done.
Qed.

Lemma votes_get_first {A} (entries : list (num * A)) i v rest : entries = (i, v) :: rest -> i = NInt 0 ->
  votes_get entries (NInt 0) = Some v.
Proof. by intros -> ->. Qed.

(** ** Sessions *)

Definition command_typed (command : SessionVoteCommand) : Prop :=
  match command with
  | append_user_vote vote => uv_vote vote ∈ VOTE_CHOICES
  | append_bot_votes votes => Forall (fun vote => bv_vote vote ∈ VOTE_CHOICES) votes
  end.

Definition next_voting (voting : VotingRecord) (m : SessionVoteMutation) : VotingRecord :=
  match m with
  | user_vote_appended next _ _ | bot_votes_appended next _ => next
  | user_vote_replayed _ => voting
  end.

Section sessions.
Context `{NobleLaws}.
Context {F : Type}.

(** One accepted command, typed as the source types it, whatever the
    finalization record says when it arrives. *)
Definition voting_step (identity : SessionIdentityRecord) (v v' : VotingRecord) : Prop :=
  exists (finalization : option F) env command m,
    command_typed command /\
    evaluateSessionVoteMutation env (mkAuthority identity v finalization) command = Ok (Accepted m) /\
    v' = next_voting v m.

(** The voting records of a session. *)
Definition voting_reachable (identity : SessionIdentityRecord) (v : VotingRecord) : Prop :=
  exists t, rtc (voting_step identity) (snd (buildSessionRecords identity t)) v.

(** A stored vote whose commitment opens to its choice and its random value. *)
Record vote_opens (identity : SessionIdentityRecord) (vote : StoredVoteRecord) : Prop := {
  op_choice : sv_vote vote ∈ VOTE_CHOICES;
  op_rand : normalizeHex (sv_rand vote) no_options = Ok (sv_rand vote);
  op_commit : computeCommitment (id_electionId identity) (choice_code (sv_vote vote)) (sv_rand vote) =
              Ok (sv_commit vote);
}.

(** The votes, the board and the history agree. *)
Record log_ok (identity : SessionIdentityRecord) (entries : list (num * StoredVoteRecord))
    (b : SimpleBulletinBoard) (history : list RootSnapshot) : Prop := {
  lo_keys : map fst entries = count_from 0 (length entries);
  lo_board : board_reachable b;
  lo_log : getLogId b = id_logId identity;
  lo_commitments : commitments b = map (fun e => appended (sv_commit e.2)) entries;
  lo_ids : map (fun e => Some e.1) (voteEntries b) = map (fun e => sv_voteId e.2) entries;
  lo_history : length history = length entries;
  lo_roots k s : history !! k = Some s ->
    rs_treeSize s = Z.of_nat (S k) /\ (rs_root s = root_at b k \/ rs_root s = prefixed (root_at b k));
  lo_votes k i vote : entries !! k = Some (i, vote) ->
    sv_rootAtCast vote = prefixed (root_at b k) /\ vote_opens identity vote;
}.

Record session_ok (identity : SessionIdentityRecord) (v : VotingRecord) : Prop := {
  so_log : log_ok identity (vr_votes v) (vr_bulletin v) (vr_bulletinRootHistory v);
  so_user : match vr_userParticipation v with
            | not_cast => vr_votes v = [] /\ vr_botCount v = 0
            | cast i => i = NInt 0 /\ zlength (vr_votes v) = vr_botCount v + 1
            end;
  so_count : 0 <= vr_botCount v <= BOT_COUNT;
}.

Lemma session_new identity t : session_ok identity (snd (buildSessionRecords identity t)).
Proof.
  split; cbn; [| done | unfold BOT_COUNT; lia]. split; try done. apply board_new.
Qed.

(** ** Normal hexadecimal text *)

Definition normal (s : string) : Prop :=
  exists d, s = ("0x" +:+ d)%string /\ 64 <= slen d /\ string_all is_lower_hex d = true.

Lemma repeat_zero_hex n : string_all is_lower_hex (repeat_char n "0") = true.
Proof. by induction n as [| n IH]. Qed.

Lemma repeat_length n c : slen (repeat_char n c) = Z.of_nat n.
Proof. unfold slen. f_equal. induction n as [| n IH]; cbn; [done |]. by rewrite IH. Qed.

Lemma string_all_append p a b : string_all p (a +:+ b)%string = string_all p a && string_all p b.
Proof. induction a as [| c a IH]; [done |]. change (String c a +:+ b)%string with (String c (a +:+ b)%string). cbn. by rewrite IH, andb_assoc. Qed.

Lemma lower_of_hex s : string_all is_hex s = true -> string_all is_lower_hex (to_lower s) = true.
Proof. unfold to_lower. rewrite string_all_map. apply string_all_impl, is_hex_lower. Qed.

Lemma to_lower_length s : slen (to_lower s) = slen s.
Proof. unfold slen, to_lower. by rewrite string_map_length. Qed.

Lemma slen_append a b : slen (a +:+ b)%string = slen a + slen b.
Proof.
  unfold slen. induction a as [| c a IH]; [done |].
  change (String c a +:+ b)%string with (String c (a +:+ b)%string). cbn [String.length]. lia.
Qed.

Definition plain_options (options : NormalizeHexOptions) : Prop :=
  options = allow_empty \/ options = no_options.

Lemma normal_of_normalize value options n : plain_options options -> normalizeHex value options = Ok n -> normal n.
Proof.
  intros Ho E. unfold normalizeHex in E. destruct Ho as [-> | ->]; cbn [ho_length ho_prefix ho_allowEmpty ho_allowOddLength allow_empty no_options default negb andb] in E.
  all: destruct (Z.eqb (slen (strip_hex_prefix value)) 0).
  2, 4: destruct (string_all is_hex (strip_hex_prefix value)) eqn:Eh; [| done]; cbn [negb] in E; injection E as <-;
    eexists; split; [done |]; rewrite to_lower_length; split;
    [destruct (Z.leb_spec 64 (slen (strip_hex_prefix value))); [done |]; unfold pad_start; rewrite slen_append, repeat_length; lia
    |apply lower_of_hex; destruct (Z.leb 64 _); [done |]; unfold pad_start; rewrite string_all_append, Eh;
     eapply andb_true_iff; split; [| done]; eapply string_all_impl; [apply is_lower_hex_is_hex | apply repeat_zero_hex]].
  - injection E as <-. eexists. split; [reflexivity |]. by split.
  - done.
Qed.

Lemma normalize_digits value d options : plain_options options -> strip_hex_prefix value = d -> 64 <= slen d ->
  string_all is_lower_hex d = true -> normalizeHex value options = Ok ("0x" +:+ d)%string.
Proof.
  intros Ho Es Hl Hd. unfold normalizeHex. rewrite Es.
  assert (Hx : string_all is_hex d = true) by (eapply string_all_impl; [apply is_lower_hex_is_hex | done]).
  destruct (Z.eqb_spec (slen d) 0); [lia |]. rewrite Hx.
  destruct Ho as [-> | ->]; cbn [ho_length ho_prefix ho_allowEmpty ho_allowOddLength allow_empty no_options default negb andb];
    (destruct (Z.leb_spec 64 (slen d)); [| lia]); by rewrite to_lower_lower_hex.
Qed.

Lemma normal_again n options : plain_options options -> normal n -> normalizeHex n options = Ok n.
Proof. intros Ho (d & -> & Hl & Hd). by apply normalize_digits. Qed.

(** ** A staged batch *)

Record write_opens (identity : SessionIdentityRecord) (w : PreparedVote) : Prop := {
  wo_choice : pv_vote w ∈ VOTE_CHOICES;
  wo_rand : normal (pv_rand w);
  wo_commit : computeCommitment (id_electionId identity) (choice_code (pv_vote w)) (pv_rand w) = Ok (pv_commit w);
}.

Lemma prepareVote_Ok identity vote id t w : prepareVote identity vote id t = Ok w -> bv_vote vote ∈ VOTE_CHOICES ->
  pv_voteId w = id /\ pv_vote w = bv_vote vote /\ normalizeHex (bv_rand vote) allow_empty = Ok (pv_rand w) /\
  write_opens identity w.
Proof.
  unfold prepareVote. intros E Hc. bind_inv. injection E as <-. cbn. split_and!; [done | done | done |].
  split; cbn; [done | | done]. eapply normal_of_normalize; [by left | done].
Qed.

Lemma root_at_prefix b b' k : commitments b `prefix_of` commitments b' -> (k < length (commitments b))%nat ->
  root_at b' k = root_at b k.
Proof.
  intros [more Hm] Hk. unfold root_at, board_bytes. rewrite Hm, fmap_app, take_app_le; [done |].
  rewrite length_fmap. lia.
Qed.

Lemma log_same identity entries b b' history : log_ok identity entries b history -> same_board b b' ->
  board_reachable b' -> log_ok identity entries b' history.
Proof. intros [] (-> & _) Hb'. by split. Qed.

Section batch.
Context (identity : SessionIdentityRecord) (entries : list (num * StoredVoteRecord)).
Context (b : SimpleBulletinBoard) (history : list RootSnapshot).
Context (now : Z -> Z) (fb : Z) (authority : SessionVotingRecord) (writes : list IndexedVoteWrite).
Context (r : StagedCtWriteResult).
Hypothesis Hlog : log_ok identity entries b history.
Hypothesis Hvotes : votes authority = entries.
Hypothesis Hid : (getLogId <$> bulletin authority) = Some (id_logId identity).
Hypothesis Hindex : map iw_index writes = count_from (zlength entries) (length writes).
Hypothesis Hopen : Forall (fun w => write_opens identity (iw_vote w)) writes.
Hypothesis Hstaged : stageCtVoteWrites now fb authority writes = Ok r.

Let fresh := map (fun s => (st_index s, st_storedVote s)) (sr_votes r).

Lemma entries_sorted : sort_entries entries = entries.
Proof. apply sort_entries_canonical, (lo_keys _ _ _ _ Hlog). Qed.

(** The [j]-th staged vote is the [j]-th write. *)
Lemma batch_vote j w : writes !! j = Some w ->
  exists e, voteEntries (sr_bulletin r) !! (length entries + j)%nat = Some (pv_voteId (iw_vote w), e) /\
    ve_commitment e = appended (pv_commit (iw_vote w)) /\
    sr_votes r !! j = Some (mkStagedVote (NInt (Z.of_nat (length entries + j))) (pv_voteId (iw_vote w))
      (mkStored (Some (pv_voteId (iw_vote w))) (Some (NInt (ve_timestamp e))) (pv_vote (iw_vote w))
         (pv_rand (iw_vote w)) (pv_commit (iw_vote w)) (prefixed (root_at (sr_bulletin r) (length entries + j))))).
Proof.
  intros Hw. destruct (staged_board _ _ _ _ _ Hstaged) as (Hb & _ & _ & _ & _ & h & f & _ & _ & _ & Hj).
  rewrite Hvotes in Hj. rewrite (sorted_writes_canonical _ _ Hindex) in Hj.
  destruct (Hj j w Hw) as (v & s & Hv & _ & e & He & Hc & Hi & Hvv & _). exists e. split_and!; [done | done |].
  rewrite Hv, Hvv, Hi. destruct (bo_entries _ (board_reachable_ok _ Hb) _ _ _ He) as (_ & _ & _ & _ & ->). done.
Qed.

Lemma batch_length : length (sr_votes r) = length writes.
Proof. by destruct (staged_board _ _ _ _ _ Hstaged) as (_ & _ & _ & _ & ? & _). Qed.

Lemma batch_lookup j v : sr_votes r !! j = Some v -> exists w, writes !! j = Some w.
Proof. intros Hj. apply lookup_lt_is_Some_2. rewrite <- batch_length. by eapply lookup_lt_Some. Qed.

Lemma batch_indices : map st_index (sr_votes r) = count_from (zlength entries) (length (sr_votes r)).
Proof.
  apply list_eq. intros j. change (@map) with (@list_fmap). rewrite list_lookup_fmap.
  destruct (sr_votes r !! j) as [v |] eqn:Ev; cbn.
  - assert (Hlt := lookup_lt_Some _ _ _ Ev). destruct (batch_lookup j v Ev) as [w Hw].
    destruct (batch_vote j w Hw) as (e & _ & _ & Ev'). rewrite Ev' in Ev. injection Ev as <-.
    rewrite count_from_lookup by done. cbn. do 2 f_equal. unfold zlength. lia.
  - symmetry. apply lookup_ge_None. rewrite count_from_length. by apply lookup_ge_None.
Qed.

Lemma batch_fresh j i vote : fresh !! j = Some (i, vote) -> exists w e, writes !! j = Some w /\
  voteEntries (sr_bulletin r) !! (length entries + j)%nat = Some (pv_voteId (iw_vote w), e) /\
  ve_commitment e = appended (sv_commit vote) /\ i = NInt (Z.of_nat (length entries + j)) /\
  vote = mkStored (Some (pv_voteId (iw_vote w))) (Some (NInt (ve_timestamp e))) (pv_vote (iw_vote w))
         (pv_rand (iw_vote w)) (pv_commit (iw_vote w)) (prefixed (root_at (sr_bulletin r) (length entries + j))).
Proof.
  unfold fresh. change (@map) with (@list_fmap). rewrite list_lookup_fmap.
  destruct (sr_votes r !! j) as [v |] eqn:Ev; [| done]. cbn. intros [= <- <-].
  destruct (batch_lookup j v Ev) as [w Hw]. destruct (batch_vote j w Hw) as (e & He & Hc & Ev').
  rewrite Ev' in Ev. injection Ev as <-. exists w, e. by cbn.
Qed.

Lemma fresh_length : length fresh = length writes.
Proof. unfold fresh. by rewrite length_map, batch_length. Qed.

Lemma batch_commitments : commitments (sr_bulletin r) = map (fun e => appended (sv_commit e.2)) (entries ++ fresh).
Proof.
  destruct (staged_board _ _ _ _ _ Hstaged) as (Hb & _ & [more Hm] & Hlen & _).
  rewrite Hvotes in *. unfold commits_of in Hm. rewrite entries_sorted, map_map in Hm.
  rewrite map_app, Hm. f_equal. rewrite Hm, length_app, length_map in Hlen.
  apply list_eq. intros j. change (@map) with (@list_fmap). rewrite list_lookup_fmap.
  destruct (fresh !! j) as [[i vote] |] eqn:Ej; cbn.
  - destruct (batch_fresh j i vote Ej) as (w & e & _ & He & Hc & _).
    destruct (bo_entries _ (board_reachable_ok _ Hb) _ _ _ He) as (_ & _ & Hk & _).
    rewrite Hm, lookup_app_r in Hk by (rewrite length_map; lia). rewrite length_map in Hk.
    replace (length entries + j - length entries)%nat with j in Hk by lia. by rewrite Hk, Hc.
  - apply lookup_ge_None. apply lookup_ge_None in Ej. rewrite fresh_length in Ej. lia.
Qed.

Lemma batch_ids : map (fun e => Some e.1) (voteEntries (sr_bulletin r)) = map (fun e => sv_voteId e.2) (entries ++ fresh).
Proof.
  rewrite (staged_ids _ _ _ _ _ Hstaged), Hvotes, entries_sorted, map_app, (sorted_writes_canonical _ _ Hindex).
  f_equal. apply list_eq. intros j. change (@map) with (@list_fmap). rewrite !list_lookup_fmap.
  destruct (fresh !! j) as [[i vote] |] eqn:Ej; cbn.
  - destruct (batch_fresh j i vote Ej) as (w & e & -> & _ & _ & _ & ->). done.
  - apply lookup_ge_None in Ej. rewrite fresh_length in Ej. by rewrite (proj2 (lookup_ge_None writes j)).
Qed.

(** Staging keeps the log of the record in agreement. *)
Lemma batch_log : log_ok identity (entries ++ fresh) (sr_bulletin r) (sr_bulletinRootHistory r).
Proof.
  destruct (staged_board _ _ _ _ _ Hstaged) as (Hb & Hl & Hpre & Hlen & _).
  rewrite Hvotes in *. unfold commits_of in Hpre. rewrite entries_sorted, map_map in Hpre.
  rewrite <- (lo_commitments _ _ _ _ Hlog) in Hpre.
  destruct (staged_history _ _ _ _ _ Hstaged) as [Hh Hr]. rewrite Hvotes in Hh.
  split; [| done | | apply batch_commitments | apply batch_ids | | done |].
  - rewrite map_app, length_app, count_from_app, <- (lo_keys _ _ _ _ Hlog). f_equal. unfold fresh.
    rewrite map_map, length_map. exact batch_indices.
  - congruence.
  - rewrite length_app, fresh_length. done.
  - intros k i vote Hk. apply lookup_app_Some in Hk as [Hk | [Hge Hk]].
    + destruct (lo_votes _ _ _ _ Hlog k i vote Hk) as [Hroot Ho]. split; [| done].
      rewrite Hroot. f_equal. symmetry. apply root_at_prefix; [done |].
      rewrite (lo_commitments _ _ _ _ Hlog), length_map. by eapply lookup_lt_Some.
    + destruct (batch_fresh _ i vote Hk) as (w & e & Hw & _ & _ & _ & ->). cbn.
      replace (length entries + (k - length entries))%nat with k by lia. split; [done |].
      assert (Ho := proj1 (Forall_lookup _ _) Hopen _ _ Hw). destruct Ho as [Hc Hn Ho].
      split; [done | | done]. apply normal_again; [by right | done].
Qed.

End batch.
(** ** The steps of a session *)

(** The parts of an accepted vote of the user. *)
Lemma user_parts env identity v (finalization : option F) vote m :
  evaluateUserVoteMutation env (mkAuthority identity v finalization) vote = Ok m ->
  exists pv staged s rest p b' path,
    prepareVote identity (mkBotVote (uv_vote vote) (uv_rand vote)) (uv_voteId vote) (uv_timestamp vote) = Ok pv /\
    stageCtVoteWrites (clock_stage env) (clock_fallback env) (ct_record v)
      [mkWrite (NInt (zlength (vr_votes v))) pv] = Ok staged /\
    sr_votes staged = s :: rest /\
    board_getInclusionProof (pv_voteId pv) (Some (zlength (vr_votes v) + 1)) (sr_bulletin staged) = (Ok (Some p), b') /\
    normalize_nodes allow_empty (ip_proofNodes p) = Ok path /\
    m = user_vote_appended
          (buildNextVoting v (sr_votes staged) b' (sr_bulletinRootHistory staged) (vr_botCount v)
             (Some (NInt (zlength (vr_votes v)))) (nowMs env 0))
          (toIndexIntents (sr_votes staged)) (mkAddResult (zlength (vr_votes v)) path (sv_rootAtCast (st_storedVote s))).
Proof.
  unfold evaluateUserVoteMutation. cbn [sa_identity sa_voting]. intros E.
  apply bind_Ok in E as (pv & Hpv & E). apply bind_Ok in E as (staged & Hst & E).
  destruct (sr_votes staged) as [| s rest] eqn:Es; [done |].
  destruct (board_getInclusionProof _ _ _) as [answer b'] eqn:Ep.
  apply bind_Ok in E as (p & Hp & E). destruct answer as [[p' |] | [msg |]]; try done. injection Hp as ->.
  destruct (str_truthy _); [| done]. cbn [negb] in E. apply bind_Ok in E as (path & Hpath & E).
  injection E as <-. exists pv, staged, s, rest, p, b', path. by rewrite Es.
Qed.

(** The parts of an accepted batch of the bots. *)
Lemma bot_parts env identity v (finalization : option F) votes m :
  evaluateBotVoteMutation env (mkAuthority identity v finalization) votes = Ok m ->
  exists projection writes staged,
    buildCanonicalCtSessionProjection (clock_rebuild env) (clock_fallback env) (ct_record v) = Ok projection /\
    cp_botCount projection = vr_botCount v /\
    assertCanonicalUserVoteIndexForBotVotes (vr_votes v) (explicit_index (cp_userParticipation projection)) = Ok 0 /\
    prepareVotes env identity (cp_nextIndex projection) 0 votes = Ok writes /\
    stageCtVoteWrites (clock_stage env) (clock_fallback env)
      (mkVoting (vr_votes v) (Some (cp_bulletin projection)) (snapshots_value (cp_bulletinRootHistory projection))
         (vr_userParticipation v)) writes = Ok staged /\
    m = bot_votes_appended
          (buildNextVoting v (sr_votes staged) (sr_bulletin staged) (sr_bulletinRootHistory staged)
             (cp_botCount projection + zlength (sr_votes staged)) (explicit_index (cp_userParticipation projection))
             (nowMs env (length votes)))
          (toIndexIntents (sr_votes staged)).
Proof.
  unfold evaluateBotVoteMutation. cbn [sa_identity sa_voting]. intros E.
  apply bind_Ok in E as (u & _ & E). apply bind_Ok in E as (projection & Hp & E).
  destruct (Z.eqb_spec (cp_botCount projection) (vr_botCount v)) as [Hc |]; [| done]. cbn [negb] in E.
  apply bind_Ok in E as (u' & Hu & E). apply bind_Ok in E as (writes & Hw & E).
  apply bind_Ok in E as (staged & Hst & E). injection E as <-. exists projection, writes, staged.
  split_and!; try done. unfold assertCanonicalUserVoteIndexForBotVotes in *.
  destruct (resolveCanonicalUserVoteIndex _ _) as [[| |] |]; done.
Qed.

Lemma prepareVotes_Ok env identity next votes : Forall (fun vote => bv_vote vote ∈ VOTE_CHOICES) votes ->
  forall offset writes, prepareVotes env identity next offset votes = Ok writes ->
  length writes = length votes /\
  map iw_index writes = count_from (next + Z.of_nat offset) (length votes) /\
  Forall (fun w => write_opens identity (iw_vote w)) writes.
Proof.
  induction 1 as [| vote votes Hc _ IH]; intros offset writes; cbn [prepareVotes]; [by intros [= <-] |].
  intros E. apply bind_Ok in E as (pv & Hpv & E). apply bind_Ok in E as (ws & Hws & E). injection E as <-.
  destruct (IH _ _ Hws) as (H1 & H2 & H3). cbn. split_and!; [by rewrite H1 | |].
  - rewrite H2. f_equal. f_equal. lia.
  - constructor; [| done]. by destruct (prepareVote_Ok _ _ _ _ _ Hpv Hc) as (_ & _ & _ & ?).
Qed.

Lemma rebuild_log now l : forall b r b', board_ok b -> rebuild_loop now l b = (Ok r, b') -> logId b' = logId b.
Proof.
  induction l as [| [i vote] l IH]; intros b r b' Hb; cbn [rebuild_loop]; [by intros [= _ <-] |].
  destruct (sv_voteId vote) as [[| c id] |]; try (by apply IH).
  change ((sm_get ≫= ?f) b) with (f b b). cbv beta. unfold mbind, SM_bind, sm_lift.
  destruct (appendVote _ _ _ b) as [[a | e] b2] eqn:E; [| done].
  destruct (appendVote_Ok _ _ _ _ _ _ Hb E) as [_ G].
  destruct (normalizeHex _ _); [| done]. destruct (rebuild_loop now l b2) as [[h |] b3] eqn:El; [| done].
  intros [= _ <-]. rewrite (IH _ _ _ (gr_ok _ _ _ G) El). apply G.
Qed.

Lemma projection_parts now fb voting projection : buildCanonicalCtSessionProjection now fb voting = Ok projection ->
  (getLogId <$> bulletin voting) = Some (getLogId (cp_bulletin projection)) /\
  cp_nextIndex projection = zlength (votes voting) /\
  cp_userParticipation projection =
    match resolveCanonicalUserVoteIndex (votes voting) (explicit_index (userParticipation voting)) with
    | None => not_cast
    | Some index => cast (NInt index)
    end.
Proof.
  unfold buildCanonicalCtSessionProjection. intros E. bind_inv. injection E as <-. cbn. split_and!; [| | done].
  - match goal with Hr : rebuildCanonicalBulletinFromVotes _ _ = Ok ?x |- _ => rename Hr into Hr0, x into rebuilt end.
    unfold rebuildCanonicalBulletinFromVotes in Hr0. bind_inv. destruct (bulletin voting) as [board |]; [| done].
    destruct (rebuild_loop _ _ _) as [[h |] b'] eqn:El; [| done]. injection Hr0 as <-. cbn. f_equal.
    unfold getLogId. by rewrite (rebuild_log _ _ _ _ _ (board_ok_new _) El).
  - match goal with Hn : getNextVoteIndex _ = Ok _ |- _ => apply canonical_indices in Hn as (-> & _) end.
    unfold zlength. by rewrite length_map.
Qed.

(** The log and the votes after [buildNextVoting] on staged votes. *)
Lemma next_votes identity v writes now fb authority r b' h n u t :
  session_ok identity v -> votes authority = vr_votes v ->
  (getLogId <$> bulletin authority) = Some (id_logId identity) ->
  map iw_index writes = count_from (zlength (vr_votes v)) (length writes) ->
  Forall (fun w => write_opens identity (iw_vote w)) writes ->
  stageCtVoteWrites now fb authority writes = Ok r -> same_board (sr_bulletin r) b' -> board_reachable b' ->
  let v' := buildNextVoting v (sr_votes r) b' h n u t in
  vr_votes v' = vr_votes v ++ map (fun s => (st_index s, st_storedVote s)) (sr_votes r) /\
  zlength (sr_votes r) = zlength writes /\
  (h = sr_bulletinRootHistory r -> log_ok identity (vr_votes v') b' h).
Proof.
  intros Hv Hvotes Hid Hindex Hopen Hst Hsame Hb' v'.
  assert (Hn : vr_votes v' = vr_votes v ++ map (fun s => (st_index s, st_storedVote s)) (sr_votes r)).
  { apply votes_set_all; [apply (so_log _ _ Hv) |]. eapply batch_indices; [| | exact Hst]; done. }
  split_and!; [done | |].
  - unfold zlength. f_equal. by eapply batch_length.
  - intros ->. rewrite Hn. eapply log_same; [| done | done].
    eapply batch_log; [apply (so_log _ _ Hv) | ..]; done.
Qed.

(** A step leads to a session in order that keeps the votes it had. *)
Definition advances (identity : SessionIdentityRecord) (v v' : VotingRecord) : Prop :=
  session_ok identity v' /\ vr_votes v `prefix_of` vr_votes v'.

Lemma user_step env identity v (finalization : option F) vote m :
  session_ok identity v -> uv_vote vote ∈ VOTE_CHOICES -> vr_votes v = [] -> vr_userParticipation v = not_cast ->
  evaluateUserVoteMutation env (mkAuthority identity v finalization) vote = Ok m ->
  advances identity v (next_voting v m).
Proof.
  intros Hv Hc Hempty Hnot E. destruct (user_parts _ _ _ _ _ _ E) as (pv & r & s & rest & p & b' & path & Hpv & Hst & Hs & Hp & _ & ->).
  destruct (prepareVote_Ok _ _ _ _ _ Hpv Hc) as (_ & _ & _ & Hw). cbn [next_voting].
  assert (Hr : board_reachable (sr_bulletin r)) by apply (staged_board _ _ _ _ _ Hst).
  set (n := zlength (vr_votes v)) in *.
  assert (Hsame : same_board (sr_bulletin r) b') by
    (assert (Hx := read_inclusion (pv_voteId pv) (Some (n + 1)) _ (board_reachable_ok _ Hr)); by rewrite Hp in Hx).
  assert (Hb' : board_reachable b') by
    (assert (Hx := board_step (BInclusion (pv_voteId pv) (Some (n + 1))) _ Hr); cbn in Hx; by rewrite Hp in Hx).
  destruct (next_votes identity v [mkWrite (NInt n) pv] (clock_stage env) (clock_fallback env) (ct_record v) r b'
              (sr_bulletinRootHistory r) (vr_botCount v) (Some (NInt n)) (nowMs env 0) Hv eq_refl)
    as (Hn & Hl & Hlog); [| | | done | done | done |].
  - cbn. by rewrite (lo_log _ _ _ _ (so_log _ _ Hv)).
  - done.
  - constructor; [exact Hw | constructor].
  - assert (Hu := so_user _ _ Hv). rewrite Hnot in Hu. destruct Hu as [_ Hu].
    split; [| rewrite Hn; by eexists]. split; [by apply Hlog | | apply Hv]. cbn [vr_userParticipation vr_botCount buildNextVoting].
    split; [unfold n; by rewrite Hempty |]. rewrite Hn, zlength_app, Hempty, Hu.
    unfold zlength in Hl |- *. rewrite length_map, Hl. done.
Qed.

Lemma bot_step env identity v (finalization : option F) votes m i :
  session_ok identity v -> Forall (fun vote => bv_vote vote ∈ VOTE_CHOICES) votes ->
  vr_userParticipation v = cast i -> vr_botCount v + zlength votes <= BOT_COUNT ->
  evaluateBotVoteMutation env (mkAuthority identity v finalization) votes = Ok m ->
  advances identity v (next_voting v m).
Proof.
  intros Hv Hc Hcast Hmax E.
  destruct (bot_parts _ _ _ _ _ _ E) as (projection & writes & r & Hp & Hbots & Hu & Hw & Hst & ->).
  destruct (projection_parts _ _ _ _ Hp) as (Hlogid & Hnext & Hpart). cbn in Hlogid, Hnext.
  destruct (prepareVotes_Ok _ _ _ _ Hc _ _ Hw) as (Hlen & Hindex & Hopen).
  rewrite Hnext, Z.add_0_r, <- Hlen in Hindex. cbn [next_voting].
  assert (Hr : board_reachable (sr_bulletin r)) by apply (staged_board _ _ _ _ _ Hst).
  destruct (next_votes identity v writes (clock_stage env) (clock_fallback env)
              (mkVoting (vr_votes v) (Some (cp_bulletin projection)) (snapshots_value (cp_bulletinRootHistory projection))
                 (vr_userParticipation v)) r (sr_bulletin r) (sr_bulletinRootHistory r)
              (cp_botCount projection + zlength (sr_votes r)) (explicit_index (cp_userParticipation projection))
              (nowMs env (length votes)) Hv eq_refl)
    as (Hn & Hl & Hlog); [| done | done | done | by apply same_board_refl, board_reachable_ok | done |].
  - cbn. rewrite <- Hlogid. f_equal. apply (so_log _ _ Hv).
  - assert (Hcount := so_user _ _ Hv). rewrite Hcast in Hcount. destruct Hcount as [_ Hcount].
    assert (Hz : zlength writes = zlength votes) by (unfold zlength; by rewrite Hlen).
    split; [| rewrite Hn; by eexists]. split; [by apply Hlog | |].
    + cbn [vr_userParticipation vr_botCount buildNextVoting].
      assert (Hx : explicit_index (cp_userParticipation projection) = Some (NInt 0)).
      { revert Hu. rewrite Hpart. destruct (resolveCanonicalUserVoteIndex _ _) as [k |]; [| done].
        cbn [explicit_index]. unfold assertCanonicalUserVoteIndexForBotVotes, resolveCanonicalUserVoteIndex.
        destruct (_ && _); [| done]. cbn [num_Z]. by destruct k. }
      assert (Hz' := Hn). cbn [vr_votes buildNextVoting] in Hz'. rewrite Hx in *. split; [done |].
      cbn [vr_votes buildNextVoting]. rewrite Hz', zlength_app, Hcount, Hbots. unfold zlength at 1. rewrite length_map.
      fold (zlength (sr_votes r)). lia.
    + cbn. rewrite Hbots, Hl, Hz. assert (H1 := so_count _ _ Hv).
      assert (0 <= zlength votes) by (unfold zlength; lia). lia.
Qed.

(** Every step keeps the session in order. *)
Lemma session_step env identity v (finalization : option F) command m :
  session_ok identity v -> command_typed command ->
  evaluateSessionVoteMutation env (mkAuthority identity v finalization) command = Ok (Accepted m) ->
  advances identity v (next_voting v m).
Proof.
  intros Hv Hc. unfold evaluateSessionVoteMutation. cbn [sa_identity sa_voting sa_finalization]. intros E.
  apply bind_Ok in E as (replay & Hr & E).
  assert (Hadmit : forall vote, uv_vote vote ∈ VOTE_CHOICES ->
    admitNewUserVote env (mkAuthority identity v finalization) vote = Ok (Accepted m) ->
    advances identity v (next_voting v m)).
  { intros vote Hvote. unfold admitNewUserVote. cbn [sa_voting]. destruct (existsb _ _); [done |].
    destruct (vr_userParticipation v) as [| i] eqn:Eu; [| done]. cbn [orb].
    assert (Hu := so_user _ _ Hv). rewrite Eu in Hu. destruct Hu as [Hempty _].
    destruct (Z.ltb 0 _); [done |]. intros Ha. destruct (evaluateUserVoteMutation _ _ _) as [m' |] eqn:Em; [| done].
    injection Ha as ->. by eapply user_step. }
  destruct replay as [| | vote i].
  3: { unfold replayed in E. bind_inv. destruct_or?; repeat case_match; try done. bind_inv. injection E as <-. by split. }
  all: destruct (is_some finalization); [done |]; destruct command as [vote | votes]; [by eapply Hadmit |];
    destruct (vr_userParticipation v) as [| i] eqn:Eu; [done |];
    destruct (Z.ltb_spec BOT_COUNT (vr_botCount v + zlength votes)); [done |];
    destruct (evaluateBotVoteMutation _ _ _) as [m' |] eqn:Em; [| done];
    injection E as ->; by eapply bot_step.
Qed.

Lemma steps_advance identity v v' : session_ok identity v -> rtc (voting_step identity) v v' -> advances identity v v'.
Proof.
  intros Hv. induction 1 as [v | v v1 v' (fin & env & command & m & Hc & E & ->) _ IH]; [by split |].
  destruct (session_step _ _ _ _ _ _ Hv Hc E) as [H1 H2]. destruct (IH H1) as [H3 H4].
  split; [done | by etrans].
Qed.

Lemma voting_reachable_ok identity v : voting_reachable identity v -> session_ok identity v.
Proof. intros [t Ht]. by eapply steps_advance; [apply (session_new identity t) |]. Qed.

(** ** Proofs and replays in a session in order *)

Lemma normal_root l : normal (prefixed (root_of l)).
Proof.
  destruct (root_of_canonical l) as [Hl Hs]. exists (root_of l). split_and!; [done | | done]. lia.
Qed.

(** The entry of the log of a vote. *)
Lemma log_entry identity entries b history k i vote : log_ok identity entries b history -> entries !! k = Some (i, vote) ->
  i = NInt (Z.of_nat k) /\ exists id e, sv_voteId vote = Some id /\ voteEntries b !! k = Some (id, e) /\
    ve_commitment e = appended (sv_commit vote).
Proof.
  intros [Hkeys Hb _ Hc Hids _ _ _] Hk. assert (Hlt := lookup_lt_Some _ _ _ Hk). split.
  { assert (Hx := f_equal (lookup k) Hkeys). rewrite count_from_lookup in Hx by done.
    change (@map) with (@list_fmap) in Hx. rewrite list_lookup_fmap, Hk in Hx. by injection Hx. }
  assert (Hx := f_equal (lookup k) Hids). change (@map) with (@list_fmap) in Hx.
  rewrite !list_lookup_fmap, Hk in Hx. destruct (voteEntries b !! k) as [[id e] |] eqn:He; [| done].
  injection Hx as Hx. exists id, e. split_and!; [done | done |].
  destruct (bo_entries _ (board_reachable_ok _ Hb) _ _ _ He) as (_ & _ & Hce & _).
  rewrite Hc in Hce. change (@map) with (@list_fmap) in Hce. rewrite list_lookup_fmap, Hk in Hce. by injection Hce.
Qed.

Lemma entry_found identity v k i vote : session_ok identity v -> vr_votes v !! k = Some (i, vote) ->
  i = NInt (Z.of_nat k) /\ exists id e, sv_voteId vote = Some id /\ voteEntries (vr_bulletin v) !! k = Some (id, e) /\
    ve_commitment e = appended (sv_commit vote).
Proof. intros Hv. apply (log_entry _ _ _ _ _ _ _ (so_log _ _ Hv)). Qed.

Lemma votes_board_size identity v : session_ok identity v -> zlength (commitments (vr_bulletin v)) = zlength (vr_votes v).
Proof. intros Hv. unfold zlength. by rewrite (lo_commitments _ _ _ _ (so_log _ _ Hv)), length_map. Qed.

Lemma choice_of_typed choice : choice ∈ VOTE_CHOICES -> choiceToNumber choice = Ok (choice_code choice).
Proof. unfold VOTE_CHOICES. rewrite !elem_of_cons, elem_of_nil. intros Hc. destruct_or? Hc; by subst. Qed.

Lemma commitment_normal e c r commit : computeCommitment e c r = Ok commit -> normal commit.
Proof.
  unfold computeCommitment. intros E. bind_inv. injection E as <-. eexists. split; [reflexivity |].
  split; [| apply bytesToHex_lower, sha256_bytes].
  unfold slen. rewrite bytesToHex_length by apply sha256_bytes. rewrite sha256_length. lia.
Qed.

(** The vote a session in order stores for its user. *)
Lemma user_vote_stored identity v i : session_ok identity v -> vr_userParticipation v = cast i ->
  i = NInt 0 /\ exists stored rest, vr_votes v = (NInt 0, stored) :: rest.
Proof.
  intros Hv Hi. assert (Hu := so_user _ _ Hv). rewrite Hi in Hu. destruct Hu as [-> Hz]. split; [done |].
  assert (Hcount := so_count _ _ Hv). destruct (vr_votes v) as [| [k stored] rest] eqn:Ev; [unfold zlength in Hz; cbn [length] in Hz; lia |].
  destruct (entry_found identity v 0 k stored Hv) as [-> _]; [by rewrite Ev |]. by exists stored, rest.
Qed.

Lemma first_root_normal identity v stored rest : session_ok identity v -> vr_votes v = (NInt 0, stored) :: rest ->
  normalizeHex (sv_rootAtCast stored) no_options = Ok (prefixed (root_at (vr_bulletin v) 0)) /\
  normalizeHex (first_root (vr_bulletinRootHistory v)) no_options = Ok (prefixed (root_at (vr_bulletin v) 0)).
Proof.
  intros Hv Ev. destruct (lo_votes _ _ _ _ (so_log _ _ Hv) 0 (NInt 0) stored) as [-> _]; [by rewrite Ev |].
  split; [apply normal_again; [by right | apply normal_root] |].
  assert (Hl := lo_history _ _ _ _ (so_log _ _ Hv)). rewrite Ev in Hl.
  destruct (vr_bulletinRootHistory v) as [| s h] eqn:Eh; [done |]. cbn [first_root].
  destruct (lo_roots _ _ _ _ (so_log _ _ Hv) 0 s) as [_ Hs]; [by rewrite Eh |].
  destruct Hs as [-> | ->]; [| apply normal_again; [by right | apply normal_root]].
  destruct (root_of_canonical (take 1 (board_bytes (vr_bulletin v)))) as [Hlen Hlow].
  apply normalize_digits; [by right | | unfold root_at; lia | done].
  apply strip_hex_prefix_hex. eapply string_all_impl; [apply is_lower_hex_is_hex | done].
Qed.

(** How a session in order answers a request to replay. *)
Lemma resolve_stored identity v stored rest vote rand : session_ok identity v ->
  vr_userParticipation v = cast (NInt 0) -> vr_votes v = (NInt 0, stored) :: rest ->
  resolveUserVoteReplay identity v vote rand =
  if String.eqb (sv_vote stored) vote then
    rand' ← normalizeHex rand no_options;
    Ok (if String.eqb (sv_rand stored) rand' then replay_found stored 0 else replay_conflict)
  else Ok replay_conflict.
Proof.
  intros Hv Hu Ev. destruct (first_root_normal _ _ _ _ Hv Ev) as [H1 H2].
  destruct (lo_votes _ _ _ _ (so_log _ _ Hv) 0 (NInt 0) stored) as [_ [Hc Hr Ho]]; [by rewrite Ev |].
  unfold resolveUserVoteReplay. rewrite Hu, Ev.
  assert (votes_get ((NInt 0, stored) :: rest) (NInt 0) = Some stored) as -> by done. cbn [num_eqb negb Z.eqb].
  rewrite (choice_of_typed _ Hc). cbn [mbind result_bind]. rewrite Ho. cbn [mbind result_bind].
  rewrite (normal_again (sv_commit stored) no_options (or_intror eq_refl) (commitment_normal _ _ _ _ Ho)).
  cbn [mbind result_bind]. rewrite String.eqb_refl. cbn [negb]. rewrite H1, H2. cbn [mbind result_bind].
  rewrite String.eqb_refl. cbn [negb]. destruct (String.eqb (sv_vote stored) vote); [| done]. cbn [negb].
  rewrite Hr. cbn [mbind result_bind]. destruct (normalizeHex rand no_options) as [rand' |]; [| done].
  cbn [mbind result_bind]. by destruct (String.eqb (sv_rand stored) rand').
Qed.

(** The proof of the first vote at size 1 has no node. *)
Lemma first_proof b id e : board_reachable b -> voteEntries b !! 0%nat = Some (id, e) ->
  exists p b', board_getInclusionProof id (Some 1) b = (Ok (Some p), b') /\ ip_proofNodes p = [].
Proof.
  intros Hb He. assert (Hok := board_reachable_ok _ Hb). assert (Hlt := lookup_lt_Some _ _ _ He).
  rewrite (bo_length b Hok) in Hlt.
  destruct (issue_proof b 0 id e 1 Hok He) as (b' & Ep & _); [unfold zlength; lia |].
  exists (issued b 0 1), b'. split; [done |]. unfold issued. cbn [ip_proofNodes].
  assert (Hl : length (take (Z.to_nat 1) (board_bytes b)) = 1%nat)
    by (rewrite length_take; unfold board_bytes; rewrite length_fmap; lia).
  destruct (take (Z.to_nat 1) _) as [| x [| y l]]; done.
Qed.

Lemma stored_first_proof identity v stored rest : session_ok identity v -> vr_votes v = (NInt 0, stored) :: rest ->
  exists p, stored_proof (vr_bulletin v) (sv_voteId stored) 1 = Ok (Some p) /\ ip_proofNodes p = [].
Proof.
  intros Hv Ev. destruct (entry_found identity v 0 (NInt 0) stored Hv) as (_ & id & e & Hid & He & _); [by rewrite Ev |].
  destruct (first_proof _ _ _ (lo_board _ _ _ _ (so_log _ _ Hv)) He) as (p & b' & Ep & Hp).
  exists p. split; [| done]. rewrite Hid. cbn. by rewrite Ep.
Qed.

(** The vote of the user, once accepted, and the answer given for it. *)
Lemma user_accepted identity v (finalization : option F) env vote next intents res :
  session_ok identity v -> uv_vote vote ∈ VOTE_CHOICES ->
  evaluateSessionVoteMutation env (mkAuthority identity v finalization) (append_user_vote vote) =
    Ok (Accepted (user_vote_appended next intents res)) ->
  finalization = None /\ vr_votes v = [] /\ vr_userParticipation next = cast (NInt 0) /\
  exists stored, vr_votes next = [(NInt 0, stored)] /\ sv_voteId stored = Some (uv_voteId vote) /\
    sv_vote stored = uv_vote vote /\ normalizeHex (uv_rand vote) allow_empty = Ok (sv_rand stored) /\
    res = mkAddResult 0 [] (sv_rootAtCast stored).
Proof.
  intros Hv Hc E. destruct (session_step _ _ _ _ (append_user_vote vote) _ Hv Hc E) as [Hnext _]. cbn [next_voting] in Hnext.
  unfold evaluateSessionVoteMutation in E. cbn [sa_identity sa_voting sa_finalization] in E.
  apply bind_Ok in E as (replay & _ & E).
  assert (Ha : finalization = None /\ admitNewUserVote env (mkAuthority identity v finalization) vote =
                 Ok (Accepted (user_vote_appended next intents res))).
  { destruct replay as [| | s i].
    3: { unfold replayed in E. bind_inv. repeat case_match; try done. bind_inv. done. }
    all: destruct finalization; [done |]; by split. }
  destruct Ha as [-> Ha]. split; [done |]. unfold admitNewUserVote in Ha. cbn [sa_voting] in Ha.
  destruct (existsb _ _); [done |]. destruct (vr_userParticipation v) as [| i] eqn:Eu; [| done]. cbn [orb] in Ha.
  assert (Hu := so_user _ _ Hv). rewrite Eu in Hu. destruct Hu as [Hempty _]. split; [done |].
  destruct (Z.ltb 0 _); [done |]. destruct (evaluateUserVoteMutation _ _ _) as [m |] eqn:Em; [| done].
  injection Ha as ->.
  destruct (user_parts _ _ _ _ _ _ Em) as (pv & r & s & rest & p & b' & path & Hpv & Hst & Hs & Hp & Hpath & [= -> -> ->]).
  destruct (prepareVote_Ok _ _ _ _ _ Hpv Hc) as (Hid & Hvote & Hrand & Hw).
  rewrite Hempty in *. change (zlength []) with 0 in *.
  assert (Hlog : votes (ct_record v) = []) by done.
  destruct (batch_vote [] _ _ _ [mkWrite (NInt 0) pv] r Hlog eq_refl Hst 0 _ eq_refl) as (e & He & _ & Hv0).
  assert (Hl := batch_length _ _ _ _ _ Hst). rewrite Hs in Hv0, Hl. injection Hv0 as ->.
  destruct rest; [| done].
  destruct (first_proof (sr_bulletin r) _ _ (proj1 (staged_board _ _ _ _ _ Hst)) He) as (p' & b'' & Ep & Hnil).
  cbn [iw_vote] in Ep. change (0 + 1) with 1 in Hp. rewrite Ep in Hp. injection Hp as -> _. rewrite Hnil in Hpath. injection Hpath as <-.
  split; [done |]. cbn [bv_vote bv_rand] in Hvote, Hrand.
  exists (mkStored (Some (pv_voteId pv)) (Some (NInt (ve_timestamp e))) (pv_vote pv) (pv_rand pv) (pv_commit pv)
            (prefixed (root_at (sr_bulletin r) 0))).
  unfold buildNextVoting. rewrite Hs, Hempty. cbn. split_and!; first [done | congruence].
Qed.

(** ** What the policy promises *)

(** C17: Every voting record a session can reach is canonical and provable: either
    nothing was cast, or the vote of the user is the first one and the bots
    cast the rest, at most 63; every stored commitment is the one of the stored
    choice and random value; and at every size of the log the board issues for
    every stored vote an inclusion proof that the client's verifier accepts,
    whose root at the size of the cast is the root stored with the vote. *)
Theorem session_votes_provable identity v :
  voting_reachable identity v ->
  (vr_userParticipation v = not_cast /\ vr_votes v = [] \/
   vr_userParticipation v = cast (NInt 0) /\ zlength (vr_votes v) = vr_botCount v + 1) /\
  0 <= vr_botCount v <= BOT_COUNT /\ getLogId (vr_bulletin v) = id_logId identity /\
  forall k i vote, vr_votes v !! k = Some (i, vote) ->
    i = NInt (Z.of_nat k) /\
    computeCommitment (id_electionId identity) (choice_code (sv_vote vote)) (sv_rand vote) = Ok (sv_commit vote) /\
    exists id, sv_voteId vote = Some id /\
      forall n, Z.of_nat k < n <= zlength (vr_votes v) ->
        exists p b', board_getInclusionProof id (Some n) (vr_bulletin v) = (Ok (Some p), b') /\
          (n = Z.of_nat k + 1 -> prefixed (ip_rootHash p) = sv_rootAtCast vote) /\
          board_verifyInclusionProof (appended (sv_commit vote)) (NInt (Z.of_nat k)) (ip_proofNodes p)
            (ip_rootHash p) n = Ok true.
Proof.
  intros Hv%voting_reachable_ok. split_and!; [| apply Hv | apply Hv | apply Hv |].
  { assert (Hu := so_user _ _ Hv). destruct (vr_userParticipation v) as [| i]; [by left; destruct Hu |].
    destruct Hu as [-> Hu]. by right. }
  intros k i vote Hk. destruct (lo_votes _ _ _ _ (so_log _ _ Hv) k i vote Hk) as [Hroot [_ _ Ho]].
  destruct (entry_found _ _ _ _ _ Hv Hk) as (-> & id & e & Hid & He & Hc). split_and!; [done | done |].
  exists id. split; [done |]. intros n Hn. assert (Hok := board_reachable_ok _ (lo_board _ _ _ _ (so_log _ _ Hv))).
  rewrite <- (votes_board_size _ _ Hv) in Hn.
  destruct (issue_proof _ k id e n Hok He Hn) as (b' & Ep & _). eexists _, b'. split_and!; [done | |].
  - intros ->. rewrite Hroot. unfold root_at. cbn. do 3 f_equal. lia.
  - rewrite <- Hc. by eapply issued_verifies.
Qed.

(** A vote repeated with the same choice and the same random value gets the
    answer the first request got, whatever identifier the repetition carries,
    however many votes the bots cast meanwhile and whether or not the session
    was finalized, and changes nothing. *)
Theorem replay_returns_original identity v (fin fin' : option F) env env' vote next intents res v' again :
  voting_reachable identity v -> uv_vote vote ∈ VOTE_CHOICES ->
  evaluateSessionVoteMutation env (mkAuthority identity v fin) (append_user_vote vote) =
    Ok (Accepted (user_vote_appended next intents res)) ->
  rtc (voting_step identity) next v' ->
  uv_vote again = uv_vote vote ->
  normalizeHex (uv_rand again) no_options = normalizeHex (uv_rand vote) allow_empty ->
  evaluateSessionVoteMutation env' (mkAuthority identity v' fin') (append_user_vote again) =
    Ok (Accepted (user_vote_replayed res)).
Proof.
  intros Hv%voting_reachable_ok Hc E Hsteps Hsame Hrand.
  destruct (user_accepted _ _ _ _ _ _ _ _ Hv Hc E) as (_ & _ & Hcast & stored & Ev & _ & Hvote & Hr & ->).
  destruct (session_step _ _ _ _ (append_user_vote vote) _ Hv Hc E) as [Hnext _]. cbn [next_voting] in Hnext.
  destruct (steps_advance _ _ _ Hnext Hsteps) as [Hv' [more Hmore]]. rewrite Ev in Hmore. cbn in Hmore.
  assert (Hu : vr_userParticipation v' = cast (NInt 0)).
  { assert (Hu := so_user _ _ Hv'). rewrite Hmore in Hu. destruct (vr_userParticipation v'); destruct Hu; congruence. }
  unfold evaluateSessionVoteMutation. cbn [sa_identity sa_voting sa_finalization].
  rewrite (resolve_stored _ _ _ _ _ _ Hv' Hu Hmore), Hsame, Hvote, String.eqb_refl, Hrand, Hr.
  cbn [mbind result_bind]. rewrite String.eqb_refl. unfold replayed.
  destruct (stored_first_proof _ _ _ _ Hv' Hmore) as (p & Hp & Hnil). change (0 + 1) with 1. rewrite Hp.
  cbn [mbind result_bind]. rewrite Hnil. done.
Qed.

(** Once a vote is cast no other opening is admitted: a request for another
    choice or another random value is refused, with the reason the code
    reports first. *)
Theorem second_opening_refused identity v (fin : option F) env vote rand :
  voting_reachable identity v -> vr_userParticipation v <> not_cast ->
  normalizeHex (uv_rand vote) no_options = Ok rand ->
  Forall (fun e => e.1 = NInt 0 -> sv_vote e.2 <> uv_vote vote \/ sv_rand e.2 <> rand) (vr_votes v) ->
  evaluateSessionVoteMutation env (mkAuthority identity v fin) (append_user_vote vote) =
  Ok (Refused (if is_some fin then SESSION_FINALIZED
               else if bool_decide (Some (uv_voteId vote) ∈ map (fun e => sv_voteId e.2) (vr_votes v))
                    then DUPLICATE_VOTE "voteId" else ALREADY_VOTED)).
Proof.
  intros Hv%voting_reachable_ok Hcast Hrand Hother.
  destruct (vr_userParticipation v) as [| i] eqn:Hu; [done |].
  destruct (user_vote_stored _ _ _ Hv Hu) as (-> & stored & rest & Ev).
  assert (Hne : sv_vote stored <> uv_vote vote \/ sv_rand stored <> rand).
  { rewrite Ev in Hother. apply Forall_cons in Hother as [Hs _]. by apply Hs. }
  unfold evaluateSessionVoteMutation. cbn [sa_identity sa_voting sa_finalization].
  rewrite (resolve_stored _ _ _ _ _ _ Hv Hu Ev), Hrand.
  assert (Hc : (if String.eqb (sv_vote stored) (uv_vote vote)
                then rand' ← Ok rand;
                     Ok (if String.eqb (sv_rand stored) rand' then replay_found stored 0 else replay_conflict)
                else Ok replay_conflict) = Ok replay_conflict).
  { destruct (String.eqb_spec (sv_vote stored) (uv_vote vote)); [| done]. cbn [mbind result_bind].
    destruct (String.eqb_spec (sv_rand stored) rand); [| done]. tauto. }
  rewrite Hc. cbn [mbind result_bind]. destruct fin; [done |]. cbn [is_some]. unfold admitNewUserVote.
  cbn [sa_voting]. rewrite Hu. cbn [orb].
  assert (Hex : existsb (fun e => match sv_voteId e.2 with Some id => String.eqb id (uv_voteId vote) | None => false end)
                  (vr_votes v) = bool_decide (Some (uv_voteId vote) ∈ map (fun e => sv_voteId e.2) (vr_votes v))).
  { apply eq_true_iff_eq. rewrite existsb_exists, bool_decide_eq_true. change (@map) with (@list_fmap).
    rewrite list_elem_of_fmap. split.
    - intros (e & He & Hid). exists e. split; [| by apply list_elem_of_In].
      destruct (sv_voteId e.2); [| done]. by apply String.eqb_eq in Hid as ->.
    - intros (e & Hid & He). exists e. split; [by apply list_elem_of_In |]. rewrite <- Hid. apply String.eqb_refl. }
  rewrite Hex. by destruct (bool_decide _).
Qed.

(** A submission is stored under the commitment the client sent: when the
    checks before storage accept a choice, a random value and a commitment and
    the prepared command is then appended, the stored vote has that choice and
    that commitment, which is the one of the opening. *)
Theorem submission_stored identity v (fin : option F) env input commitment sub next intents res :
  voting_reachable identity v -> uv_vote input ∈ VOTE_CHOICES ->
  prepareUserVoteSubmission (mkAuthority identity v fin) input commitment = Ok (Accepted sub) ->
  evaluateSessionVoteMutation env (mkAuthority identity v fin) (append_user_vote (ps_command sub)) =
    Ok (Accepted (user_vote_appended next intents res)) ->
  normalizeHex commitment no_options = Ok (ps_commitment sub) /\
  exists stored, vr_votes next = [(NInt 0, stored)] /\ sv_voteId stored = Some (uv_voteId input) /\
    sv_vote stored = uv_vote input /\ normalizeHex (uv_rand input) no_options = Ok (sv_rand stored) /\
    sv_commit stored = ps_commitment sub /\ av_bulletinRootAtCast res = sv_rootAtCast stored.
Proof.
  intros Hv%voting_reachable_ok Hc Hp E. unfold prepareUserVoteSubmission in Hp. cbn [sa_identity sa_voting sa_finalization] in Hp.
  apply bind_Ok in Hp as (rand & Hrand & Hp). apply bind_Ok in Hp as (norm & Hnorm & Hp).
  apply bind_Ok in Hp as (choice & Hch & Hp). apply bind_Ok in Hp as (expected & Hexp & Hp).
  destruct (String.eqb_spec expected norm) as [-> |]; [| done]. cbn [negb] in Hp.
  apply bind_Ok in Hp as (replay & _ & Hp).
  assert (Hsub : sub = mkSubmission norm (mkUserVote (uv_voteId input) (uv_timestamp input) (uv_vote input) rand))
    by (destruct replay; [destruct (is_some fin) | |]; try done; by injection Hp as <-).
  subst sub. cbn [ps_command ps_commitment] in *. split; [done |].
  destruct (user_accepted _ _ _ _ (mkUserVote (uv_voteId input) (uv_timestamp input) (uv_vote input) rand) _ _ _ Hv Hc E)
    as (_ & _ & _ & stored & Ev & Hid & Hvote & Hr & ->).
  cbn [uv_voteId uv_vote uv_rand] in *.
  assert (Hs : rand = sv_rand stored).
  { rewrite (normal_again rand allow_empty) in Hr; [by injection Hr | by left |].
    eapply normal_of_normalize; [by right | done]. }
  exists stored. split_and!; [done | done | done | congruence | | done].
  destruct (session_step _ _ _ _ (append_user_vote (mkUserVote (uv_voteId input) (uv_timestamp input) (uv_vote input) rand)) _ Hv Hc E) as [Hnext _]. cbn [next_voting] in Hnext.
  destruct (lo_votes _ _ _ _ (so_log _ _ Hnext) 0 (NInt 0) stored) as [_ [_ _ Ho]]; [by rewrite Ev |].
  rewrite (choice_of_typed _ Hc) in Hch. injection Hch as <-. rewrite Hvote, <- Hs in Ho. congruence.
Qed.

End sessions.
