(* ===== verification/GuestInput.v ===== *)
(** The guest input of a session (packages/application/src/zkvm-input:
    input-builder.ts, private-input-contract.ts): the tree head that is claimed,
    the votes with their openings and their audit paths, and the validation of
    the canonical shape. [now] is the reading of [Date.now()]. *)
From S2P Require Import Prelude.
From S2P Require Import Hex.
From S2P Require Import Rfc6962.
From S2P Require Import JsNumber.
From S2P Require Import JsValue.
From S2P Require Import Contract.
From S2P Require Import Journal.
From S2P Require Import Bulletin.
From S2P Require Import CtSession.
From S2P Require Import SessionVote.
From S2P Require Import MerkleSpec.
From S2P Require Import TreeFacts.
From S2P Require Import Inclusion.
From S2P Require Import JsText.
From S2P Require Import ContractFacts.
From S2P Require Import CtSessionProofs.
From S2P Require Import LocalCast.
From S2P Require Import SessionVoteProofs.
Import JsValue.
Import Contract.
Import Bulletin.
Import CtSession.
Import SessionVote.
Import Journal.

Module GuestInput.

(** [{ root, treeSize, timestamp }] *)
Record SthSnapshot := mkSth {
  sth_root : string;
  sth_treeSize : Z;
  sth_timestamp : Z;
}.

Definition sth_of (s : RootSnapshot) : SthSnapshot := mkSth (rs_root s) (rs_treeSize s) (rs_timestamp s).

(** [BuildZkVMInputOptions] *)
Record BuildZkVMInputOptions := mkBuildOptions { allowSparseVoteIndices : bool }.

(** The entry of the table; what is not a choice is undefined, which both the
    commitment and the comparisons treat as a number that is none. *)
Definition choice_number (choice : string) : num :=
  match List.find (fun e => String.eqb e.1 choice)
          [("A", 0); ("B", 1); ("C", 2); ("D", 3); ("E", 4)]%string with
  | Some e => NInt e.2
  | None => NNaN
  end.

(** A value computed inside [try], [None] when it throws. *)
Definition attempt {A} (m : result A) : result (option A) :=
  match m with
  | Ok a => Ok (Some a)
  | Err (Throw _) => Ok None
  | Err OutOfFuel => Err OutOfFuel
  end.

Definition getLatestVoteTimestamp (entries : list (num * StoredVoteRecord)) : option Z :=
  fold_left (fun latest e =>
    match sv_timestamp e.2 ≫= positive_integer with
    | Some t => match latest with None => Some t | Some l => Some (Z.max l t) end
    | None => latest
    end) entries None.

Section with_noble.
Context `{Noble}.

(** ** The tree head *)

Definition live_root (b : SimpleBulletinBoard) : result string :=
  root ← fst (getCurrentRoot b);
  normalizeHexOrZero (Some root) no_options.

Definition getLiveBulletinSnapshot (now : Z) (voting : VotingRecord) : result (option SthSnapshot) :=
  let treeSize := getSize (vr_bulletin voting) in
  if Z.leb treeSize 0 then Ok None
  else
    root ← attempt (live_root (vr_bulletin voting));
    Ok (match root with
        | Some root => Some (mkSth root treeSize (default now (getLatestVoteTimestamp (vr_votes voting))))
        | None => None
        end).

Definition resolvePersistedBulletinSnapshot (b : SimpleBulletinBoard) (latestSnapshot : SthSnapshot) :
    result (option SthSnapshot) :=
  let bulletinSize := getSize b in
  if Z.leb bulletinSize 0 then Ok (Some latestSnapshot)
  else
    agrees ← attempt (bulletinRoot ← live_root b;
                      if negb (Z.eqb bulletinSize (sth_treeSize latestSnapshot)) then Ok false
                      else
                        root ← normalizeHexOrZero (Some (sth_root latestSnapshot)) no_options;
                        Ok (String.eqb bulletinRoot root));
    Ok (match agrees with Some true => Some latestSnapshot | _ => None end).

Definition getLatestPersistedSTHSnapshot (voting : VotingRecord) : result (option SthSnapshot) :=
  match parsePersistedRootHistory (snapshots_value (vr_bulletinRootHistory voting)) ≫= last with
  | None => Ok None
  | Some latestSnapshot => resolvePersistedBulletinSnapshot (vr_bulletin voting) (sth_of latestSnapshot)
  end.

Definition getLatestSTHSnapshot (now : Z) (voting : VotingRecord) (options : BuildZkVMInputOptions) :
    result SthSnapshot :=
  persistedSnapshot ← getLatestPersistedSTHSnapshot voting;
  match persistedSnapshot with
  | Some snapshot => Ok snapshot
  | None =>
      liveBulletinSnapshot ← (if allowSparseVoteIndices options then getLiveBulletinSnapshot now voting else Ok None);
      match liveBulletinSnapshot with
      | Some snapshot => Ok snapshot
      | None =>
          latestSnapshot ← getLatestCanonicalBulletinSnapshot now (ct_record voting);
          match latestSnapshot with
          | Some snapshot => Ok (sth_of snapshot)
          | None => throw "Missing STH snapshot data"
          end
      end
  end.

(** ** The votes *)

Fixpoint as_vote_indices (indices : list num) : result (list Z) :=
  match indices with
  | [] => Ok []
  | index :: rest => i ← asVoteIndex index; tail ← as_vote_indices rest; Ok (i :: tail)
  end.

Definition resolveInputVoteIndices (entries : list (num * StoredVoteRecord)) (options : BuildZkVMInputOptions) :
    result (list Z) :=
  let sortedIndices := sort_indices (map fst entries) in
  if negb (allowSparseVoteIndices options) then
    _ ← assertCanonicalCtVoteIndices sortedIndices;
    as_vote_indices sortedIndices
  else try_catch (as_vote_indices sortedIndices) (fun _ => throw NON_CANONICAL_CT_VOTE_INDICES).

Definition CT_PROOF_UNAVAILABLE_FOR_INDEX : string := "CT proof unavailable for vote index".

Fixpoint normalize_path (nodes : list string) : result (list string) :=
  match nodes with
  | [] => Ok []
  | node :: rest =>
      n ← normalizeHexOrZero (Some node) no_options;
      ns ← normalize_path rest;
      Ok (n :: ns)
  end.

(** [None] when the board gives no proof. *)
Definition resolvePathFromBulletin (voting : VotingRecord) (index : Z) (voteData : StoredVoteRecord) (treeSize : Z) :
    result (option (list string * Z)) :=
  answer ← attempt (stored_proof (vr_bulletin voting) (sv_voteId voteData) treeSize);
  match answer with
  | None | Some None => Ok None
  | Some (Some proof) =>
      leaf ← attempt (asLeafIndex (NInt (ip_leafIndex proof)));
      match leaf with
      | None => Ok None
      | Some proofLeafIndex =>
          if negb (Z.eqb proofLeafIndex index) then throw CT_PROOF_UNAVAILABLE_FOR_INDEX
          else if negb (Z.eqb (ip_treeSize proof) treeSize) then throw CT_PROOF_UNAVAILABLE_FOR_INDEX
          else
            path ← attempt (normalize_path (ip_proofNodes proof));
            Ok (match path with Some path => Some (path, ip_treeSize proof) | None => None end)
      end
  end.

Definition resolveMerklePath (voting : VotingRecord) (index : Z) (voteData : StoredVoteRecord) (treeSize : Z) :
    result (list string) :=
  bulletinProof ← resolvePathFromBulletin voting index voteData treeSize;
  match bulletinProof with
  | Some (path, size) =>
      if Z.ltb 0 (zlength path) || Z.leb size 1 then Ok path else throw CT_PROOF_UNAVAILABLE_FOR_INDEX
  | None => throw CT_PROOF_UNAVAILABLE_FOR_INDEX
  end.

Definition vote_with_proof (voting : VotingRecord) (electionId : string) (treeSize index : Z) : result VoteWithProof :=
  match votes_get (vr_votes voting) (NInt index) with
  | None => throw "Vote data not found for index"
  | Some voteData =>
      let choice := choice_number (sv_vote voteData) in
      random ← normalizeHexOrZero (Some (sv_rand voteData)) no_options;
      commitment ← computeCommitment electionId (match choice with NInt c => c | _ => 0 end) random;
      merklePath ← resolveMerklePath voting index voteData treeSize;
      Ok (mkVoteWithProof commitment choice random (NInt index) merklePath)
  end.

Fixpoint votes_with_proofs (voting : VotingRecord) (electionId : string) (treeSize : Z) (indices : list Z) :
    result (list VoteWithProof) :=
  match indices with
  | [] => Ok []
  | index :: rest =>
      vote ← vote_with_proof voting electionId treeSize index;
      votes ← votes_with_proofs voting electionId treeSize rest;
      Ok (vote :: votes)
  end.

Definition buildVotesWithProofs (voting : VotingRecord) (electionId : string) (treeSize : Z)
    (options : BuildZkVMInputOptions) : result (list VoteWithProof) :=
  indices ← resolveInputVoteIndices (vr_votes voting) options;
  votes_with_proofs voting electionId treeSize indices.

(** ** The input *)

Definition buildZkVMInputFromSession (now : Z) (identityRecord : SessionIdentityRecord) (voting : VotingRecord)
    (options : BuildZkVMInputOptions) : result ZkVMInput :=
  if negb (String.eqb (id_sessionId identityRecord) (vr_sessionId voting))
  then throw "Session identity and voting records do not match"
  else if negb (hasMatchingElectionConfigHash (id_electionConfig identityRecord) (id_electionConfigHash identityRecord))
  then throw "Session electionConfig does not match electionConfigHash"
  else if negb (str_truthy (id_logId identityRecord)) then throw "Missing logId for session"
  else
    sthSnapshot ← getLatestSTHSnapshot now voting options;
    bulletinRoot ← normalizeHexOrZero (Some (sth_root sthSnapshot)) no_options;
    let treeSize := sth_treeSize sthSnapshot in
    logId ← normalizeHexOrZero (Some (id_logId identityRecord)) no_options;
    votesWithProofs ← buildVotesWithProofs voting (id_electionId identityRecord) treeSize options;
    Ok (mkZkVMInput (id_electionId identityRecord) bulletinRoot (NInt treeSize) logId (NInt (sth_timestamp sthSnapshot))
          (NInt (cfg_totalExpected (id_electionConfig identityRecord))) (id_electionConfigHash identityRecord)
          votesWithProofs).

End with_noble.

(** ** The canonical shape *)

(** [/^(0x)?[0-9a-f]+$/i] *)
Definition hex_text_pattern (s : string) : bool :=
  let digits := strip_hex_prefix s in str_truthy digits && string_all is_hex digits.

Definition report (wrong : bool) (message : string) : list string := if wrong then [message] else [].

(** The indices seen so far, and the errors of an index. *)
Definition observeCanonicalVoteIndex (vote : VoteWithProof) (seenIndices : list Z) : list Z * list string :=
  match asVoteIndex (vote_index vote) with
  | Ok voteIndex =>
      if bool_decide (voteIndex ∈ seenIndices) then (seenIndices, ["Duplicate vote index"%string])
      else (voteIndex :: seenIndices, [])
  | Err _ => (seenIndices, ["Invalid vote.index: must be non-negative"%string])
  end.

Fixpoint validate_votes (seenIndices : list Z) (votes : list VoteWithProof) : list string :=
  match votes with
  | [] => []
  | vote :: rest =>
      let observed := observeCanonicalVoteIndex vote seenIndices in
      report (negb (hex32_pattern (vote_commitment vote))) "Invalid vote.commitment: must be 32 bytes hex" ++
      report (num_ltb (vote_choice vote) (NInt 0) || num_ltb (NInt 4) (vote_choice vote))
        "Invalid vote.choice: must be 0-4" ++
      report (negb (hex32_pattern (vote_random vote))) "Invalid vote.random: must be 32 bytes hex" ++
      observed.2 ++ validate_votes observed.1 rest
  end.

Definition validateCanonicalZkVMInput (input : ZkVMInput) : bool * list string :=
  let errors :=
    report (negb (Z.eqb (slen (in_electionId input)) 36)) "Invalid electionId: must be a UUID v4" ++
    report (negb (hex32_pattern (in_electionConfigHash input))) "Invalid electionConfigHash: must be 32 bytes hex" ++
    report (negb (hex_text_pattern (in_bulletinRoot input))) "Invalid bulletinRoot: must be hex string" ++
    report (num_leb (in_treeSize input) (NInt 0) || num_ltb (NInt 1000000) (in_treeSize input))
      "Invalid treeSize: must be between 1 and 1000000" ++
    report (num_leb (in_totalExpected input) (NInt 0) || num_ltb (NInt 1000000) (in_totalExpected input))
      "Invalid totalExpected: must be between 1 and 1000000" ++
    report (negb (hex32_pattern (in_logId input))) "Invalid logId: must be 32 bytes hex" ++
    report (num_leb (in_timestamp input) (NInt 0)) "Invalid timestamp: must be positive" ++
    validate_votes [] (in_votes input) in
  (match errors with [] => true | _ => false end, errors).

Definition buildCanonicalZkVMInputFromSession `{Noble} (now : Z) (identityRecord : SessionIdentityRecord)
    (voting : VotingRecord) : result ZkVMInput :=
  zkVMInput ← buildZkVMInputFromSession now identityRecord voting (mkBuildOptions false);
  if negb (fst (validateCanonicalZkVMInput zkVMInput)) then throw "Invalid zkVM input structure" else Ok zkVMInput.

End GuestInput.

(** * What the guest input of a session promises: for every session the policy can
    reach the input is built, its tree head is the one of the log, its votes are
    those of the session with their openings, and every audit path leads to the
    claimed root. *)
Import Rfc6962.
Import GuestInput.

Lemma vote_check z : 0 <= z <= MAX_SAFE_INTEGER -> asVoteIndex (NInt z) = Ok z.
Proof.
  intros Hz. unfold asVoteIndex, assertNonNegativeSafeInteger. cbn [isSafeInteger num_ltb].
  destruct (Z.ltb_spec z 0); [lia |]. by assert (safe_Z z = true) as -> by (apply safe_Z_spec; lia).
Qed.

Section guest.
Context `{NobleLaws}.
Context {F : Type}.

(** ** Text of roots *)

Lemma root_text l : normalizeHexOrZero (Some (root_of l)) no_options = Ok (prefixed (root_of l)).
Proof.
  destruct (root_of_canonical l) as [Hlen Hlow]. unfold normalizeHexOrZero.
  assert (Hn : normalizeHex (root_of l) no_options = Ok (prefixed (root_of l))).
  { apply normalize_digits; [by right | | unfold slen in *; lia | done].
    apply strip_hex_prefix_hex. eapply string_all_impl; [apply is_lower_hex_is_hex | done]. }
  destruct (root_of l); [done | exact Hn].
Qed.

Lemma normal_or_zero n : normal n -> normalizeHexOrZero (Some n) no_options = Ok n.
Proof.
  intros Hn. assert (Ha := normal_again n no_options (or_intror eq_refl) Hn). destruct Hn as (d & -> & _). exact Ha.
Qed.

Lemma prefixed_text l : normalizeHexOrZero (Some (prefixed (root_of l))) no_options = Ok (prefixed (root_of l)).
Proof. apply normal_or_zero, normal_root. Qed.

Lemma path_nodes f : forall m l, Forall (fun s => exists l', s = root_of l') (path_spec f m l).
Proof.
  induction f as [| f IH]; intros m l; cbn [path_spec]; [constructor |].
  destruct (Z.leb _ _); [constructor |]. destruct (Z.ltb _ _); (apply Forall_app; split; [apply IH |]);
    (constructor; [by eexists | constructor]).
Qed.

Lemma normalized_path nodes : Forall (fun s => exists l', s = root_of l') nodes ->
  normalize_path nodes = Ok (map prefixed nodes).
Proof.
  induction 1 as [| s nodes [l ->] _ IH]; [done |]. cbn [normalize_path map]. rewrite root_text.
  cbn [mbind result_bind]. by rewrite IH.
Qed.

Lemma path_nonempty f m l : 1 < zlength l -> path_spec (S f) m l <> [].
Proof.
  intros Hl. cbn [path_spec]. destruct (Z.leb_spec (zlength l) 1); [lia |].
  destruct (Z.ltb _ _); intros E; by destruct (app_cons_not_nil _ _ _ (eq_sym E)).
Qed.

(** ** The tree head of a session *)

Lemma current_root b : board_reachable b -> fst (getCurrentRoot b) = Ok (root_of (board_bytes b)).
Proof.
  intros Hb. assert (Hok := board_reachable_ok b Hb). unfold getCurrentRoot.
  destruct (on_tree_returns getRoot b _ (returns_getRoot _ (bo_tree b Hok))) as (b' & -> & _).
  by rewrite board_tree_bytes.
Qed.

Section session.
Context (identity : SessionIdentityRecord) (v : VotingRecord).
Hypothesis Hv : session_ok identity v.
Hypothesis Hcast : vr_votes v <> [].

Lemma some_votes : (0 < length (vr_votes v))%nat.
Proof. destruct (vr_votes v); [done | cbn; lia]. Qed.

Lemma board_count : length (commitments (vr_bulletin v)) = length (vr_votes v).
Proof. by rewrite (lo_commitments _ _ _ _ (so_log _ _ Hv)), length_map. Qed.

Lemma head_root : root_at (vr_bulletin v) (length (vr_votes v) - 1) = root_of (board_bytes (vr_bulletin v)).
Proof.
  unfold root_at. f_equal. apply take_ge. unfold board_bytes. rewrite length_fmap, board_count.
  assert (Hn := some_votes). lia.
Qed.

Lemma head_text : live_root (vr_bulletin v) = Ok (prefixed (root_at (vr_bulletin v) (length (vr_votes v) - 1))).
Proof.
  unfold live_root. rewrite current_root by apply (lo_board _ _ _ _ (so_log _ _ Hv)). cbn [mbind result_bind].
  by rewrite root_text, head_root.
Qed.

Lemma board_size_votes : getSize (vr_bulletin v) = Z.of_nat (length (vr_votes v)).
Proof.
  unfold getSize. rewrite board_size by apply board_reachable_ok, (lo_board _ _ _ _ (so_log _ _ Hv)).
  unfold zlength. by rewrite board_count.
Qed.

(** A snapshot of the head of the log. *)
Definition head_snapshot (s : SthSnapshot) : Prop :=
  sth_treeSize s = Z.of_nat (length (vr_votes v)) /\
  normalizeHexOrZero (Some (sth_root s)) no_options = Ok (prefixed (root_at (vr_bulletin v) (length (vr_votes v) - 1))).

Lemma persisted_snapshot : exists o, getLatestPersistedSTHSnapshot v = Ok o /\
  forall s, o = Some s -> head_snapshot s.
Proof.
  unfold getLatestPersistedSTHSnapshot.
  destruct (parsePersistedRootHistory _ ≫= last) as [snapshot |] eqn:E; [| by eexists].
  unfold resolvePersistedBulletinSnapshot. rewrite board_size_votes. assert (Hn := some_votes).
  destruct (Z.leb_spec (Z.of_nat (length (vr_votes v))) 0); [lia |]. rewrite head_text. cbn [mbind result_bind].
  destruct (Z.eqb_spec (Z.of_nat (length (vr_votes v))) (sth_treeSize (sth_of snapshot))) as [Hz |]; cbn [negb attempt mbind result_bind];
    [| by eexists].
  destruct (normalizeHexOrZero (Some (sth_root (sth_of snapshot))) no_options) as [root | [msg |]] eqn:Er;
    cbn [mbind result_bind attempt]; [| by eexists |].
  - destruct (String.eqb_spec (prefixed (root_at (vr_bulletin v) (length (vr_votes v) - 1))) root) as [<- |]; [| by eexists].
    eexists. split; [done |]. intros s [= <-]. split; [by rewrite <- Hz | exact Er].
  - exfalso. unfold normalizeHexOrZero in Er. destruct (sth_root (sth_of snapshot)); [done |].
    unfold normalizeHex in Er. repeat case_match; done.
Qed.

Lemma commitment_digits e c r commit : computeCommitment e c r = Ok commit ->
  exists b, is_bytes b /\ length b = 32%nat /\ commit = ("0x" +:+ bytesToHex b)%string.
Proof.
  unfold computeCommitment. intros E. bind_inv. injection E as <-. eexists. split_and!; [| | done].
  - apply sha256_bytes.
  - apply sha256_length.
Qed.

Lemma digits_append_ok b : is_bytes b -> length b = 32%nat -> append_ok ("0x" +:+ bytesToHex b)%string = true.
Proof.
  intros Hb Hl. unfold append_ok. rewrite normalize_0x by done.
  assert (Hs : slen (bytesToHex b) = 64) by (unfold slen; rewrite bytesToHex_length, Hl by done; lia).
  assert (Hlow := bytesToHex_lower b Hb).
  assert (Hv' : isValidHexString (bytesToHex b) (Some 32) = true).
  { unfold isValidHexString. rewrite (normalize_lower_hex (bytesToHex b)) by done. rewrite Hlow, Hs.
    by destruct (bytesToHex b). }
  rewrite Hv', andb_true_r. by destruct (bytesToHex b).
Qed.

Lemma commits_append_ok : Forall (fun e => append_ok (sv_commit e.2) = true) (vr_votes v).
Proof.
  apply Forall_lookup. intros k [i vote] Hk. destruct (lo_votes _ _ _ _ (so_log _ _ Hv) k i vote Hk) as [_ [_ _ Ho]].
  destruct (commitment_digits _ _ _ _ Ho) as (b & Hb & Hl & E). cbn. rewrite E. by apply digits_append_ok.
Qed.

Lemma history_total fb l : Forall (fun e => append_ok (sv_commit e.2) = true) l ->
  forall t, tree_ok t -> exists h t', history_loop fb l t = (Ok h, t').
Proof.
  induction 1 as [| [i vote] l Ha _ IH]; intros t Ht; cbn [history_loop]; [by eexists _, _ |].
  cbn in Ha. unfold mbind, SM_bind, sm_lift. destruct (append_grows (sv_commit vote) t Ha) as (t1 & E1 & L1 & _).
  assert (Ht1 : tree_ok t1) by (assert (Hok := tree_ok_append (sv_commit vote) t Ht); by rewrite E1 in Hok).
  rewrite E1. destruct (returns_eq _ _ _ (returns_getRoot t1 Ht1)) as (ER & L2 & Ht2).
  rewrite ER, normalize_root. cbn [sm_get]. destruct (IH (snd (getRoot t1)) Ht2) as (h & t' & ->). by eexists _, _.
Qed.

Lemma canonical_indices_ok : zlength (vr_votes v) <= BOT_COUNT + 1 /\
  assertCanonicalCtVoteIndices (map fst (vr_votes v)) = Ok (zlength (vr_votes v)).
Proof.
  assert (Hc := so_count _ _ Hv). assert (Hu := so_user _ _ Hv).
  assert (Hz : zlength (vr_votes v) <= BOT_COUNT + 1).
  { destruct (vr_userParticipation v); [destruct Hu as [Hu _]; by rewrite Hu in Hcast | lia]. }
  split; [done |]. unfold assertCanonicalCtVoteIndices, sort_indices.
  assert (Hk := lo_keys _ _ _ _ (so_log _ _ Hv)).
  rewrite (sort_canonical (fun x => x) _ 0) by (by rewrite map_id, length_map). rewrite Hk.
  unfold zlength, BOT_COUNT in *. rewrite canonical_from_count by (unfold MAX_SAFE_INTEGER; lia). cbn [negb].
  rewrite count_from_length. unfold asVoteIndex, assertNonNegativeSafeInteger. cbn [isSafeInteger num_ltb].
  destruct (Z.ltb_spec (Z.of_nat (length (vr_votes v))) 0); [lia |].
  assert (safe_Z (Z.of_nat (length (vr_votes v))) = true) as ->
    by (apply safe_Z_spec; unfold MAX_SAFE_INTEGER; lia). done.
Qed.

Lemma history_bytes : map commit_bytes (map (fun e => sv_commit e.2) (vr_votes v)) = board_bytes (vr_bulletin v).
Proof.
  unfold board_bytes. assert (Hval := bo_valid _ (board_reachable_ok _ (lo_board _ _ _ _ (so_log _ _ Hv)))).
  rewrite (lo_commitments _ _ _ _ (so_log _ _ Hv)) in *. assert (Ha := commits_append_ok).
  clear Hv Hcast. revert Hval Ha. induction (vr_votes v) as [| e l IH]; [done |]. cbn [map]. intros Hval Ha.
  apply Forall_cons in Hval as [Hv1 Hval]. apply Forall_cons in Ha as [Ha1 Ha]. cbn [fmap list_fmap].
  f_equal; [by apply commit_bytes_agree | by apply IH].
Qed.

Lemma canonical_snapshot fb : exists s, getLatestCanonicalBulletinSnapshot fb (ct_record v) = Ok (Some s) /\
  head_snapshot (sth_of s).
Proof.
  assert (Hn := some_votes). destruct canonical_indices_ok as [_ Hi].
  assert (Hsort : sort_entries (vr_votes v) = vr_votes v) by apply sort_entries_canonical, (so_log _ _ Hv).
  destruct (history_total fb (vr_votes v) commits_append_ok empty_tree tree_ok_empty) as (h0 & t & Eh).
  assert (Er : exists h, getCanonicalBulletinRootHistory fb (ct_record v) = Ok h).
  { unfold getCanonicalBulletinRootHistory, rebuildCanonicalHistoryFromVotes. cbn [ct_record votes].
    rewrite Hi. cbn [mbind result_bind]. rewrite Hsort, Eh. cbn. by eexists. }
  destruct Er as [h Er]. destruct (canonical_history fb _ h Er) as (Hl & _ & Hs). cbn [ct_record votes] in Hl, Hs.
  unfold getLatestCanonicalBulletinSnapshot. rewrite Er. cbn [mbind result_bind].
  destruct (last h) as [s |] eqn:El; [| apply last_None in El; subst h; cbn in Hl; lia].
  exists s. split; [done |]. rewrite last_lookup in El. destruct (Hs _ _ El) as [Hz Hr].
  replace (pred (length h)) with (length (vr_votes v) - 1)%nat in * by lia.
  split; cbn [sth_of sth_treeSize sth_root].
  - rewrite Hz. lia.
  - rewrite Hr, prefixed_text. do 2 f_equal. unfold root_at, commits_of. by rewrite Hsort, history_bytes.
Qed.

Lemma session_head now options : exists s, getLatestSTHSnapshot now v options = Ok s /\ head_snapshot s.
Proof.
  destruct persisted_snapshot as (o & Ep & Hp). unfold getLatestSTHSnapshot. rewrite Ep. cbn [mbind result_bind].
  destruct o as [s |]; [by exists s; split; [| apply Hp] |].
  destruct (canonical_snapshot now) as (s & Es & Hs).
  assert (El : getLiveBulletinSnapshot now v = Ok (Some (mkSth (prefixed (root_at (vr_bulletin v) (length (vr_votes v) - 1)))
                 (Z.of_nat (length (vr_votes v))) (default now (getLatestVoteTimestamp (vr_votes v)))))).
  { unfold getLiveBulletinSnapshot. rewrite board_size_votes. assert (Hn := some_votes).
    destruct (Z.leb_spec (Z.of_nat (length (vr_votes v))) 0); [lia |]. by rewrite head_text. }
  destruct (allowSparseVoteIndices options).
  - rewrite El. eexists. split; [done |]. split; [done |]. apply prefixed_text.
  - cbn [mbind result_bind]. rewrite Es. cbn [mbind result_bind]. by eexists.
Qed.

(** ** The votes of a session *)

(** The vote of position [k] in the guest input. *)
Definition guest_vote (k : nat) (stored : StoredVoteRecord) : VoteWithProof :=
  mkVoteWithProof (sv_commit stored) (choice_number (sv_vote stored)) (sv_rand stored) (NInt (Z.of_nat k))
    (map prefixed (ip_proofNodes (issued (vr_bulletin v) k (Z.of_nat (length (vr_votes v)))))).

Lemma choice_agrees choice : choice ∈ VOTE_CHOICES -> choice_number choice = NInt (choice_code choice).
Proof. unfold VOTE_CHOICES. rewrite !elem_of_cons, elem_of_nil. intros Hc. destruct_or? Hc; by subst. Qed.

Lemma vote_found k i stored : vr_votes v !! k = Some (i, stored) ->
  votes_get (vr_votes v) (NInt (Z.of_nat k)) = Some stored.
Proof.
  intros Hk. destruct (entry_found _ _ _ _ _ Hv Hk) as (-> & _). unfold votes_get.
  assert (Hkeys := lo_keys _ _ _ _ (so_log _ _ Hv)). revert k Hk Hkeys. clear.
  assert (G : forall (l : list (num * StoredVoteRecord)) from k i s, map fst l = count_from from (length l) ->
    l !! k = Some (i, s) ->
    snd <$> List.find (fun e => same_value e.1 (NInt (from + Z.of_nat k))) l = Some s).
  { induction l as [| [x vote] l IH]; intros from k i s Hl Hk; [done |]. injection Hl as Hx Hl. subst x.
    cbn [List.find fst]. rewrite same_value_int. destruct k as [| k].
    - injection Hk as <- <-. rewrite Z.add_0_r, Z.eqb_refl. done.
    - destruct (Z.eqb_spec from (from + Z.of_nat (S k))); [lia |].
      replace (from + Z.of_nat (S k)) with (from + 1 + Z.of_nat k) by lia. by eapply IH. }
  intros k Hk Hkeys. exact (G _ 0 k _ _ Hkeys Hk).
Qed.

Lemma session_path k i stored : vr_votes v !! k = Some (i, stored) ->
  resolveMerklePath v (Z.of_nat k) stored (Z.of_nat (length (vr_votes v))) = Ok (vote_merklePath (guest_vote k stored)).
Proof.
  intros Hk. destruct (entry_found _ _ _ _ _ Hv Hk) as (-> & id & e & Hid & He & _).
  assert (Hlt := lookup_lt_Some _ _ _ Hk). assert (Hok := board_reachable_ok _ (lo_board _ _ _ _ (so_log _ _ Hv))).
  destruct canonical_indices_ok as [Hmax _].
  assert (Hsafe : Z.of_nat k <= MAX_SAFE_INTEGER) by (unfold zlength, BOT_COUNT, MAX_SAFE_INTEGER in *; lia).
  destruct (issue_proof _ k id e (Z.of_nat (length (vr_votes v))) Hok He) as (b' & Ep & _).
  { unfold zlength. rewrite board_count. lia. }
  unfold resolveMerklePath, resolvePathFromBulletin. rewrite Hid. cbn [stored_proof]. rewrite Ep.
  cbn [fst attempt mbind result_bind].
  change (ip_leafIndex (issued _ _ _)) with (Z.of_nat k). rewrite leaf_check by lia.
  cbn [attempt mbind result_bind]. rewrite Z.eqb_refl. cbn [negb].
  change (ip_treeSize (issued _ _ _)) with (Z.of_nat (length (vr_votes v))). rewrite Z.eqb_refl. cbn [negb].
  rewrite normalized_path by apply path_nodes. cbn [attempt mbind result_bind].
  assert (Hne : Z.ltb 0 (zlength (map prefixed (ip_proofNodes (issued (vr_bulletin v) k (Z.of_nat (length (vr_votes v))))))) ||
                Z.leb (Z.of_nat (length (vr_votes v))) 1 = true); [| by rewrite Hne].
  destruct (Z.leb_spec (Z.of_nat (length (vr_votes v))) 1); [by rewrite orb_true_r |].
  rewrite orb_false_r. apply Z.ltb_lt. unfold zlength. rewrite length_map.
  change (ip_proofNodes (issued (vr_bulletin v) k (Z.of_nat (length (vr_votes v))))) with
    (path_spec (range_fuel (Z.of_nat (length (vr_votes v)))) (Z.of_nat k)
       (take (Z.to_nat (Z.of_nat (length (vr_votes v)))) (board_bytes (vr_bulletin v)))).
  rewrite range_fuel_log. match goal with |- context [path_spec (S ?f) ?m ?l] => assert (Hp := path_nonempty f m l) end.
  destruct (path_spec _ _ _); [| cbn; lia]. exfalso. apply Hp; [| done].
  unfold zlength. rewrite length_take. unfold board_bytes. rewrite length_fmap, board_count. lia.
Qed.

Lemma session_vote k i stored : vr_votes v !! k = Some (i, stored) ->
  vote_with_proof v (id_electionId identity) (Z.of_nat (length (vr_votes v))) (Z.of_nat k) = Ok (guest_vote k stored).
Proof.
  intros Hk. unfold vote_with_proof. rewrite (vote_found _ _ _ Hk).
  destruct (lo_votes _ _ _ _ (so_log _ _ Hv) k i stored Hk) as [_ [Hc Hr Ho]].
  rewrite normal_or_zero by (eapply normal_of_normalize; [by right | exact Hr]). cbn [mbind result_bind].
  rewrite (choice_agrees _ Hc), Ho. cbn [mbind result_bind]. rewrite (session_path _ _ _ Hk). cbn [mbind result_bind].
  unfold guest_vote. by rewrite (choice_agrees _ Hc).
Qed.

(** ** The input of a session *)

(** The votes of the input, in the order of their positions. *)
Definition guest_votes : list VoteWithProof := imap guest_vote (map snd (vr_votes v)).

Lemma votes_loop n : forall l from, drop from (vr_votes v) = l -> (from + length l = n)%nat ->
  exists indices, as_vote_indices (count_from (Z.of_nat from) (length l)) = Ok indices /\
    votes_with_proofs v (id_electionId identity) (Z.of_nat (length (vr_votes v))) indices =
      Ok (imap (fun k => guest_vote (from + k)) (map snd l)).
Proof.
  assert (Hmax := proj1 canonical_indices_ok).
  induction l as [| [i stored] l IH]; intros from El Hn; cbn [length count_from as_vote_indices]; [by exists [] |].
  assert (Hk : vr_votes v !! from = Some (i, stored)).
  { replace from with (from + 0)%nat by lia. by rewrite <- lookup_drop, El. }
  assert (Hlt := lookup_lt_Some _ _ _ Hk). destruct (IH (S from)) as (indices & Ei & Ev).
  { rewrite (drop_S _ _ _ Hk) in El. by injection El. } { cbn in Hn. lia. }
  replace (Z.of_nat from + 1) with (Z.of_nat (S from)) by lia. rewrite Ei.
  rewrite vote_check by (unfold zlength, BOT_COUNT, MAX_SAFE_INTEGER in *; lia). cbn [mbind result_bind].
  eexists. split; [done |]. cbn [votes_with_proofs]. rewrite (session_vote _ _ _ Hk). cbn [mbind result_bind].
  rewrite Ev. cbn [mbind result_bind map snd]. rewrite imap_cons, Nat.add_0_r. do 2 f_equal.
  apply imap_ext. intros k x _. cbn. f_equal. lia.
Qed.

Lemma all_votes options :
  buildVotesWithProofs v (id_electionId identity) (Z.of_nat (length (vr_votes v))) options = Ok guest_votes.
Proof.
  destruct canonical_indices_ok as [Hmax Hi]. destruct (votes_loop _ (vr_votes v) 0 eq_refl eq_refl) as (indices & Ei & Ev).
  change (Z.of_nat 0) with 0 in Ei.
  assert (Hk := lo_keys _ _ _ _ (so_log _ _ Hv)).
  assert (Hs : sort_indices (map fst (vr_votes v)) = map fst (vr_votes v)).
  { unfold sort_indices. apply (sort_canonical (fun x => x) _ 0). by rewrite map_id, length_map. }
  unfold buildVotesWithProofs, resolveInputVoteIndices. rewrite Hs, Hi, Hk.
  destruct (allowSparseVoteIndices options); cbn [negb try_catch mbind result_bind]; rewrite Ei; cbn [mbind result_bind];
    exact Ev.
Qed.

Lemma guest_votes_lookup k i stored : vr_votes v !! k = Some (i, stored) ->
  guest_votes !! k = Some (guest_vote k stored).
Proof.
  intros Hk. unfold guest_votes. rewrite list_lookup_imap. change (@map) with (@list_fmap).
  by rewrite list_lookup_fmap, Hk.
Qed.

End session.
(** ** The identifier of the session *)

Definition kept_session (v : VotingRecord) (m : result SessionVoteMutation) : Prop :=
  forall r, m = Ok r -> vr_sessionId (next_voting v r) = vr_sessionId v.

Lemma user_keeps_session env (authority : SessionVoteAuthority F) vote :
  kept_session (sa_voting authority) (evaluateUserVoteMutation env authority vote).
Proof.
  intros r E. unfold evaluateUserVoteMutation in E. bind_inv. destruct (sr_votes _) as [| sv svs]; [done |].
  destruct (board_getInclusionProof _ _ _) as [answer b]. bind_inv. destruct (negb _); [done |]. bind_inv.
  by injection E as <-.
Qed.

Lemma bots_keep_session env (authority : SessionVoteAuthority F) votes :
  kept_session (sa_voting authority) (evaluateBotVoteMutation env authority votes).
Proof.
  intros r E. unfold evaluateBotVoteMutation in E. bind_inv. repeat case_match; try done. bind_inv. by injection E as <-.
Qed.

Lemma step_keeps_session identity v v' : voting_step (F := F) identity v v' -> vr_sessionId v' = vr_sessionId v.
Proof.
  intros (fin & env & command & m & _ & E & ->). unfold evaluateSessionVoteMutation in E. cbn [sa_voting sa_finalization] in E.
  apply bind_Ok in E as (replay & _ & E).
  assert (Hadmit : forall vote, admitNewUserVote env (mkAuthority identity v fin) vote = Ok (Accepted m) ->
            vr_sessionId (next_voting v m) = vr_sessionId v).
  { intros vote. unfold admitNewUserVote. cbn [sa_voting]. destruct (existsb _ _); [done |].
    destruct (_ || _); [done |].
    destruct (evaluateUserVoteMutation _ _ _) as [m' |] eqn:Em; [| done]. intros [= ->].
    exact (user_keeps_session _ _ _ _ Em). }
  destruct replay as [| | vote i].
  3: { unfold replayed in E. bind_inv. destruct_or?; repeat case_match; try done. bind_inv. by injection E as <-. }
  all: destruct (is_some fin); [done |]; destruct command as [vote | votes]; [by eapply Hadmit |];
    destruct (vr_userParticipation v); [done |]; destruct (Z.ltb _ _); [done |];
    destruct (evaluateBotVoteMutation _ _ _) as [m' |] eqn:Em; [| done]; injection E as ->;
    exact (bots_keep_session _ _ _ _ Em).
Qed.

Lemma reachable_session_id identity v : voting_reachable (F := F) identity v -> vr_sessionId v = id_sessionId identity.
Proof.
  intros [t Ht]. change (id_sessionId identity) with (vr_sessionId (snd (buildSessionRecords identity t))).
  revert Ht. generalize (snd (buildSessionRecords identity t)). intros v0.
  induction 1 as [| v0 v1 v' Hs _ IH]; [done |]. rewrite IH. by eapply step_keeps_session.
Qed.

(** A session without a vote has no tree head. *)
Lemma empty_head identity v now options : session_ok identity v -> vr_votes v = [] ->
  getLatestSTHSnapshot now v options = throw "Missing STH snapshot data".
Proof.
  intros Hv He. assert (Hlog := so_log _ _ Hv). assert (Hh := lo_history _ _ _ _ Hlog). assert (Hs := board_size_votes identity v Hv).
  rewrite He in Hh, Hs. destruct (vr_bulletinRootHistory v) as [| h l] eqn:Er; [| done].
  unfold getLatestSTHSnapshot, getLatestPersistedSTHSnapshot, getLiveBulletinSnapshot. rewrite Er. cbn [snapshots_value map].
  change (parsePersistedRootHistory _ ≫= last) with (@None RootSnapshot). rewrite Hs.
  change (Z.leb (Z.of_nat (length [])) 0) with true. cbn [mbind result_bind].
  destruct (allowSparseVoteIndices options); cbn [mbind result_bind];
    unfold getLatestCanonicalBulletinSnapshot, getCanonicalBulletinRootHistory, rebuildCanonicalHistoryFromVotes, ct_record;
    cbn [votes bulletinRootHistory]; by rewrite He, Er.
Qed.

(** C18: The guest input of a session that the voting policy can reach is built
    exactly when the session has a vote, its election configuration has the hash
    that is recorded and its log identifier is a hexadecimal text; each other case
    throws an error of its own. What is built claims the head of the log, has one
    entry per vote, in order, with the opening of its commitment, and the nodes of
    each audit path are accepted by the verifier of the board for that commitment
    under the claimed root. *)
Theorem guest_input_of_session now identity v options : voting_reachable (F := F) identity v ->
  let n := Z.of_nat (length (vr_votes v)) in
  let root := root_of (board_bytes (vr_bulletin v)) in
  let configured := hasMatchingElectionConfigHash (id_electionConfig identity) (id_electionConfigHash identity) in
  let logId := normalizeHexOrZero (Some (id_logId identity)) no_options in
  match buildZkVMInputFromSession now identity v options with
  | Ok input =>
      vr_votes v <> [] /\ configured = true /\ str_truthy (id_logId identity) = true /\ logId = Ok (in_logId input) /\
      in_electionId input = id_electionId identity /\ in_electionConfigHash input = id_electionConfigHash identity /\
      in_totalExpected input = NInt (cfg_totalExpected (id_electionConfig identity)) /\
      in_treeSize input = NInt n /\ in_bulletinRoot input = prefixed root /\
      length (in_votes input) = length (vr_votes v) /\
      forall k i stored, vr_votes v !! k = Some (i, stored) ->
        exists nodes, in_votes input !! k = Some (mkVoteWithProof (sv_commit stored) (NInt (choice_code (sv_vote stored)))
                                                  (sv_rand stored) (NInt (Z.of_nat k)) (map prefixed nodes)) /\
          computeCommitment (in_electionId input) (choice_code (sv_vote stored)) (sv_rand stored) = Ok (sv_commit stored) /\
          board_verifyInclusionProof (appended (sv_commit stored)) (NInt (Z.of_nat k)) nodes root n = Ok true
  | Err e =>
      configured = false /\ e = Throw "Session electionConfig does not match electionConfigHash" \/
      str_truthy (id_logId identity) = false /\ e = Throw "Missing logId for session" \/
      vr_votes v = [] /\ e = Throw "Missing STH snapshot data" \/
      logId = Err e
  end.
Proof.
  intros Hr n root configured logId. assert (Hv := voting_reachable_ok _ _ Hr).
  unfold buildZkVMInputFromSession. rewrite (reachable_session_id _ _ Hr), String.eqb_refl. fold configured. cbn [negb].
  destruct configured; cbn [negb]; [| by left]. destruct (str_truthy (id_logId identity)); cbn [negb]; [| by right; left].
  destruct (decide (vr_votes v = [])) as [He | Hcast]; [rewrite (empty_head _ _ now options Hv He); by right; right; left |].
  destruct (session_head identity v Hv Hcast now options) as (s & Es & Hsize & Hroot).
  rewrite Es. cbn [mbind result_bind]. rewrite Hroot. cbn [mbind result_bind]. fold logId.
  destruct logId as [log | e] eqn:El; cbn [mbind result_bind]; [| by right; right; right]. rewrite Hsize.
  rewrite (all_votes identity) by done. cbn [mbind result_bind].
  cbn [in_electionId in_logId in_treeSize in_bulletinRoot in_votes in_electionConfigHash in_totalExpected].
  rewrite (head_root identity) by done. split_and!; try done.
  { unfold guest_votes. by rewrite length_imap, length_map. }
  intros k i stored Hk. exists (ip_proofNodes (issued (vr_bulletin v) k n)).
  destruct (lo_votes _ _ _ _ (so_log _ _ Hv) k i stored Hk) as [_ [Hc _ Ho]].
  rewrite (guest_votes_lookup v _ _ _ Hk). unfold guest_vote. rewrite choice_agrees by done.
  split_and!; [done | done |]. destruct (entry_found _ _ _ _ _ Hv Hk) as (_ & id & e & _ & He & Hce).
  assert (Hok := board_reachable_ok _ (lo_board _ _ _ _ (so_log _ _ Hv))). assert (Hlt := lookup_lt_Some _ _ _ Hk).
  rewrite <- Hce. assert (Hp := issued_verifies (vr_bulletin v) k id e n Hok He).
  change (ip_rootHash (issued (vr_bulletin v) k n)) with (root_of (take (Z.to_nat n) (board_bytes (vr_bulletin v)))) in Hp.
  rewrite take_ge in Hp; [apply Hp; unfold zlength; rewrite (board_count identity) by done; lia |].
  unfold board_bytes. rewrite length_fmap, (board_count identity) by done. lia.
Qed.

End guest.
