(* ===== verification/VoteFlow.v ===== *)
(** Completing the votes of a session: the interface of the vote store
    (packages/application/src/session/session-vote-store.ts), the bots
    (bot/botVoter.ts, domain/bot/voteGenerator.ts) and the completion of a
    submission (session/complete-vote-submission.ts). The random values of the
    bots are arguments. *)
From S2P Require Import Prelude.
From S2P Require Import Hex.
From S2P Require Import JsNumber.
From S2P Require Import Contract.
From S2P Require Import Bulletin.
From S2P Require Import CtSession.
From S2P Require Import SessionVote.
From S2P Require Import CtSessionProofs.
From S2P Require Import SessionVoteProofs.
Import Contract.
Import Bulletin.
Import CtSession.
Import SessionVote.

Module VoteFlow.

(** ** The store *)

Inductive SessionVoteStoreError : Type :=
| SESSION_NOT_FOUND
| VoteRefused (error : VoteError).

Inductive StoreOutcome (A : Type) : Type :=
| Stored (value : A)
| NotStored (error : SessionVoteStoreError).
Arguments Stored {A} _.
Arguments NotStored {A} _.

(** The operations of a store that the flow calls. [St] is the state of the
    store, which may include what other invocations do to it between calls. *)
Class VoteStore (F St : Type) := {
  getSessionIdentity : string -> SM St (option SessionIdentityRecord);
  getVotingRecord : string -> SM St (option VotingRecord);
  getCurrentFinalizationRecord : string -> SM St (option F);
  addVote : string -> UserVoteCommand -> SM St (StoreOutcome AddVoteResult);
  addBotVotes : string -> list BotVoteCommand -> SM St (StoreOutcome unit);
}.

(** ** One bot vote (voteGenerator.ts) *)

(** [index] is [Math.floor(Math.random() * VOTE_CHOICES.length)], [hex] the text
    of the 32 random bytes. *)
Definition generateBotVote (draw : Z * string) : result BotVoteCommand :=
  match znth VOTE_CHOICES draw.1 with
  | None => throw "No vote choices are configured"
  | Some choice => Ok (mkBotVote choice ("0x" +:+ draw.2)%string)
  end.

Fixpoint generate_batch (draws : nat -> Z * string) (first : nat) (count : nat) : result (list BotVoteCommand) :=
  match count with
  | O => Ok []
  | S count =>
      vote ← generateBotVote (draws first);
      rest ← generate_batch draws (S first) count;
      Ok (vote :: rest)
  end.

(** ** BotVoter *)

Definition getCurrentBotCount (voting : VotingRecord) : result Z :=
  let userVoteIndex := currentUserVoteIndex voting in
  _ ← assertCanonicalUserVoteIndexForBotVotes (vr_votes voting) userVoteIndex;
  currentBotCount ← deriveBotCountFromVotes (vr_votes voting) userVoteIndex;
  if negb (Z.eqb currentBotCount (vr_botCount voting)) || Z.ltb BOT_COUNT currentBotCount
  then throw "Invalid bot vote count"
  else Ok currentBotCount.

Definition handleBotVoteConflict (code : SessionVoteStoreError) : result unit :=
  match code with
  | VoteRefused ALREADY_VOTED | VoteRefused SESSION_FINALIZED => Ok tt
  | SESSION_NOT_FOUND => throw "SESSION_NOT_FOUND"
  | VoteRefused USER_NOT_VOTED => throw "USER_VOTE_REQUIRED_BEFORE_BOT_VOTES"
  | VoteRefused (DUPLICATE_VOTE _) => throw "BOT_VOTE_CONFLICT"
  | VoteRefused INVALID_COMMITMENT => Ok tt
  end.

Section with_store.
Context {F St : Type} `{VoteStore F St}.

(** [draws attempt] gives the random values of an attempt. *)
Definition appendRemainingBotVotes (sessionId : string) (draws : nat -> Z * string) : SM St bool :=
  identityRecord ← getSessionIdentity sessionId;
  voting ← getVotingRecord sessionId;
  currentFinalization ← getCurrentFinalizationRecord sessionId;
  match identityRecord, voting with
  | Some _, Some voting =>
      currentBotCount ← sm_lift (getCurrentBotCount voting);
      if Z.eqb currentBotCount BOT_COUNT then mret true
      else if is_some currentFinalization then sm_throw "SESSION_ALREADY_FINALIZED"
      else
        batch ← sm_lift (generate_batch draws 0 (Z.to_nat (BOT_COUNT - currentBotCount)));
        outcome ← addBotVotes sessionId batch;
        match outcome with
        | Stored _ => mret true
        | NotStored error => _ ← sm_lift (handleBotVoteConflict error); mret false
        end
  | _, _ => sm_throw "SESSION_NOT_FOUND"
  end.

(** The loop of the attempts that are left. *)
Fixpoint bot_attempts (attempts attempt : nat) (sessionId : string) (draws : nat -> nat -> Z * string) : SM St unit :=
  match attempts with
  | O => sm_throw "Bot voting contention limit exceeded"
  | S attempts =>
      finished ← appendRemainingBotVotes sessionId (draws attempt);
      if finished : bool then mret tt else bot_attempts attempts (S attempt) sessionId draws
  end.

Definition startBotVoting (sessionId : string) (draws : nat -> nat -> Z * string) : SM St unit :=
  bot_attempts 3 0 sessionId draws.

(** ** Completing a submission *)

Record SubmissionReceipt := mkReceipt {
  vc_voteId : option string;
  vc_commitment : string;
  vc_bulletinIndex : Z;
  vc_bulletinRootAtCast : string;
  vc_timestamp : option num;
}.

Definition completeVoteSubmission `{Noble} (sessionId : string) (draws : nat -> nat -> Z * string)
    (submission : PreparedUserVoteSubmission) : SM St (StoreOutcome SubmissionReceipt) :=
  saved ← addVote sessionId (ps_command submission);
  match saved with
  | NotStored error => mret (NotStored error)
  | Stored _ =>
      _ ← startBotVoting sessionId draws;
      identityRecord ← getSessionIdentity sessionId;
      voting ← getVotingRecord sessionId;
      match identityRecord, voting with
      | Some identityRecord, Some voting =>
          replay ← sm_lift (resolveUserVoteReplay identityRecord voting (uv_vote (ps_command submission))
                              (uv_rand (ps_command submission)));
          match replay with
          | replay_found vote index =>
              commitment ← sm_lift (normalizeHex (sv_commit vote) no_options);
              root ← sm_lift (normalizeHex (sv_rootAtCast vote) no_options);
              mret (Stored (mkReceipt (sv_voteId vote) commitment index root (sv_timestamp vote)))
          | _ => sm_throw "Saved vote differs from submission"
          end
      | _, _ => sm_throw "Saved vote authority unavailable"
      end
  end.

End with_store.
End VoteFlow.

(** * What completing a submission promises against any store that keeps the
    laws of [VoteStoreLaws]: the votes of other invocations may arrive between
    any two calls, and still a completed session has its 64 votes and the
    receipt is the one of the stored vote. *)
Import VoteFlow.

(** ** The interface *)

Section laws.
Context `{NobleLaws}.
Context {F : Type}.

(** What a session of the store is. *)
Record SessionView := mkView {
  view_identity : SessionIdentityRecord;
  view_voting : VotingRecord;
  view_finalization : option F;
}.

Definition authority_of (w : SessionView) : SessionVoteAuthority F :=
  mkAuthority (view_identity w) (view_voting w) (view_finalization w).

(** What other invocations may do to a session between two calls: the identity
    is written once, the votes go through the policy. *)
Definition moved (w w' : SessionView) : Prop :=
  view_identity w' = view_identity w /\
  rtc (voting_step (F := F) (view_identity w)) (view_voting w) (view_voting w').

(** A session of a store whose records a policy reached. *)
Definition in_order (w : SessionView) : Prop := session_ok (view_identity w) (view_voting w).

(** [look s id] is the session of the store [s]; [m] returns what [R] relates to
    the session at some moment of the call, and leaves what [R] gives. *)
Definition call_law {St A} (look : St -> string -> option SessionView) (id : string) (m : SM St A)
    (R : A -> SessionView -> SessionView -> Prop) : Prop :=
  forall s a s', m s = (Ok a, s') ->
    forall w, look s id = Some w -> in_order w ->
      exists w1 w2 w3, look s' id = Some w3 /\ moved w w1 /\ R a w1 w2 /\ moved w2 w3.

Class VoteStoreLaws (St : Type) `{VoteStore F St} := {
  look : St -> string -> option SessionView;
  identity_law id : call_law look id (getSessionIdentity id)
    (fun r w w' => w' = w /\ match r with Some i => i = view_identity w | None => True end);
  voting_law id : call_law look id (getVotingRecord id)
    (fun r w w' => w' = w /\ match r with Some v => v = view_voting w | None => True end);
  finalization_law id : call_law look id (getCurrentFinalizationRecord id)
    (fun r w w' => w' = w /\ r = view_finalization w);
  addVote_law id vote : call_law look id (addVote id vote)
    (fun r w w' => match r with
     | Stored result => exists env m, evaluateSessionVoteMutation env (authority_of w) (append_user_vote vote) =
                                       Ok (Accepted m) /\
         w' = mkView (view_identity w) (next_voting (view_voting w) m) (view_finalization w) /\
         (m = user_vote_replayed result \/ exists next intents, m = user_vote_appended next intents result)
     | NotStored _ => w' = w
     end);
  addBotVotes_law id votes : call_law look id (addBotVotes id votes)
    (fun r w w' => match r with
     | Stored _ => exists env next intents,
         evaluateSessionVoteMutation env (authority_of w) (append_bot_votes votes) =
           Ok (Accepted (bot_votes_appended next intents)) /\
         w' = mkView (view_identity w) next (view_finalization w)
     | NotStored _ => w' = w
     end);
}.

(** ** Moving sessions *)

Lemma moved_order w w' : in_order w -> moved w w' ->
  in_order w' /\ vr_votes (view_voting w) `prefix_of` vr_votes (view_voting w').
Proof.
  intros Hw [Hid Hsteps]. unfold in_order. rewrite Hid. by apply (steps_advance _ _ _ Hw Hsteps).
Qed.

Lemma moved_trans w1 w2 w3 : moved w1 w2 -> moved w2 w3 -> moved w1 w3.
Proof. intros [I1 R1] [I2 R2]. split; [congruence |]. rewrite I1 in R2. by etrans. Qed.

(** The votes of the bots are never taken back. *)
Lemma bot_count_grows identity v v' : session_ok identity v -> session_ok identity v' ->
  vr_userParticipation v <> not_cast -> vr_votes v `prefix_of` vr_votes v' ->
  vr_botCount v <= vr_botCount v' /\ vr_userParticipation v' = cast (NInt 0).
Proof.
  intros Hv Hv' Hcast [more Hm]. assert (Hu := so_user _ _ Hv). assert (Hu' := so_user _ _ Hv').
  assert (Hc := so_count _ _ Hv). assert (Hc' := so_count _ _ Hv').
  destruct (vr_userParticipation v) as [| i]; [done |]. destruct Hu as [_ Hz].
  assert (Hl : zlength (vr_votes v') = zlength (vr_votes v) + zlength more) by (by rewrite Hm, zlength_app).
  assert (0 <= zlength more) by (unfold zlength; lia).
  destruct (vr_userParticipation v') as [| i'].
  - destruct Hu' as [Hn _]. rewrite Hn in Hl. unfold zlength at 1 in Hl. cbn [length] in Hl. lia.
  - destruct Hu' as [-> Hz']. split; [lia | done].
Qed.

(** ** The bots *)

Lemma current_count identity v n : session_ok identity v -> getCurrentBotCount v = Ok n ->
  n = vr_botCount v /\ vr_userParticipation v = cast (NInt 0).
Proof.
  intros Hv. unfold getCurrentBotCount. intros E. apply bind_Ok in E as (u & Hu & E).
  apply bind_Ok in E as (count & Hcount & E). destruct (Z.eqb_spec count (vr_botCount v)) as [Heq |]; [| done]. rewrite Heq in E.
  cbn [negb orb] in E. destruct (Z.ltb _ _); [done |]. injection E as <-. split; [done |].
  unfold currentUserVoteIndex in Hu. assert (Hp := so_user _ _ Hv).
  destruct (vr_userParticipation v) as [| i]; [done |]. by destruct Hp as [-> _].
Qed.

Lemma generate_batch_Ok draws : forall count first batch, generate_batch draws first count = Ok batch ->
  length batch = count /\ Forall (fun vote => bv_vote vote ∈ VOTE_CHOICES) batch.
Proof.
  induction count as [| count IH]; intros first batch; cbn [generate_batch]; [by intros [= <-] |].
  intros E. apply bind_Ok in E as (vote & Hv & E). apply bind_Ok in E as (rest & Hr & E). injection E as <-.
  destruct (IH _ _ Hr) as [Hl Hf]. split; [cbn; by rewrite Hl |]. constructor; [| done].
  unfold generateBotVote in Hv. destruct (znth VOTE_CHOICES _) as [choice |] eqn:Ec; [| done].
  injection Hv as <-. unfold znth in Ec. destruct (Z.ltb _ 0); [done |]. by eapply list_elem_of_lookup_2.
Qed.

Lemma full_is_final identity v v' : session_ok identity v -> session_ok identity v' ->
  vr_userParticipation v <> not_cast -> vr_votes v `prefix_of` vr_votes v' -> vr_botCount v = BOT_COUNT ->
  vr_botCount v' = BOT_COUNT.
Proof.
  intros Hv Hv' Hc Hp Hfull. destruct (bot_count_grows _ _ _ Hv Hv' Hc Hp) as [Hle _].
  assert (Hb := so_count _ _ Hv'). lia.
Qed.

(** ** Sequences of calls *)

Lemma sm_bind_Ok {S A B} (m : SM S A) (f : A -> SM S B) s b s' :
  (m ≫= f) s = (Ok b, s') -> exists a s1, m s = (Ok a, s1) /\ f a s1 = (Ok b, s').
Proof.
  unfold mbind, SM_bind. destruct (m s) as [[a | e] s1]; [| done]. intros E. by exists a, s1.
Qed.

Lemma sm_lift_Ok {S A} (m : result A) (s : S) a s' : sm_lift m s = (Ok a, s') -> m = Ok a /\ s' = s.
Proof. unfold sm_lift. by intros [= -> ->]. Qed.

Section flow.
Context {St : Type} `{VoteStoreLaws St}.

(** A call whose moment of effect leaves a moved session. *)
Lemma call_moves {A} id (m : SM St A) (R : A -> SessionView -> SessionView -> Prop) s a s' w :
  call_law look id m R -> m s = (Ok a, s') -> look s id = Some w -> in_order w ->
  exists w1 w2 w3, look s' id = Some w3 /\ moved w w1 /\ in_order w1 /\ R a w1 w2 /\ moved w2 w3.
Proof.
  intros Hm E Hw Ho. destruct (Hm _ _ _ E w Hw Ho) as (w1 & w2 & w3 & L & M1 & HR & M2).
  exists w1, w2, w3. split_and!; try done. by apply (moved_order w w1 Ho M1).
Qed.

(** A call that only reads. *)
Lemma read_moves {A} id (m : SM St A) (P : A -> SessionView -> Prop) s a s' w :
  call_law look id m (fun r w w' => w' = w /\ P r w) -> m s = (Ok a, s') -> look s id = Some w -> in_order w ->
  exists w1 w', look s' id = Some w' /\ in_order w' /\ moved w w1 /\ in_order w1 /\ moved w1 w' /\ P a w1.
Proof.
  intros Hm E Hw Ho. destruct (call_moves id m _ s a s' w Hm E Hw Ho) as (w1 & w2 & w' & Hl & M1 & O1 & [-> HP] & M2).
  exists w1, w'. split_and!; try done. by apply (moved_order w1 w' O1 M2).
Qed.

Lemma bots_step w votes env next intents :
  Forall (fun vote => bv_vote vote ∈ VOTE_CHOICES) votes ->
  evaluateSessionVoteMutation env (authority_of w) (append_bot_votes votes) =
    Ok (Accepted (bot_votes_appended next intents)) ->
  moved w (mkView (view_identity w) next (view_finalization w)) /\
  vr_userParticipation (view_voting w) <> not_cast /\ vr_botCount (view_voting w) + zlength votes <= BOT_COUNT /\
  vr_botCount next = vr_botCount (view_voting w) + zlength votes.
Proof.
  intros Hc E. split.
  { split; [done |]. apply rtc_once. eexists _, env, (append_bot_votes votes), _. split_and!; [exact Hc | exact E | done]. }
  unfold evaluateSessionVoteMutation in E. cbn [mbind result_bind sa_voting sa_finalization authority_of] in E.
  destruct (is_some _); [done |]. destruct (vr_userParticipation _) as [| i] eqn:Eu; [done |].
  destruct (Z.ltb_spec BOT_COUNT (vr_botCount (view_voting w) + zlength votes)); [done |]. split_and!; [done | lia |].
  destruct (evaluateBotVoteMutation _ _ _) as [m |] eqn:Em; [| done]. injection E as ->.
  destruct (bot_parts _ _ _ _ _ _ Em) as (projection & writes & r & Hp & Hbots & Hu & Hw & Hst & [= -> ->]).
  destruct (prepareVotes_Ok _ _ _ _ Hc _ _ Hw) as (Hlen & _). cbn. rewrite Hbots. f_equal.
  assert (Hl := batch_length _ _ _ _ _ Hst). unfold zlength. by rewrite Hl, Hlen.
Qed.

Definition completed (w : SessionView) : Prop :=
  vr_userParticipation (view_voting w) = cast (NInt 0) /\ vr_botCount (view_voting w) = BOT_COUNT.

Lemma completed_moved w w' : in_order w -> moved w w' -> completed w -> completed w'.
Proof.
  intros Ho M [Hu Hc]. destruct (moved_order _ _ Ho M) as [Ho' Hp]. destruct M as [Hid _].
  unfold in_order in *. rewrite Hid in Ho'.
  destruct (bot_count_grows _ _ _ Ho Ho') as [Hle Hu']; [congruence | done |]. split; [done |].
  assert (Hb := so_count _ _ Ho'). lia.
Qed.

(** One attempt: a session that moved, complete when the attempt says so. *)
Lemma attempt_moves id draws s finished s' w :
  appendRemainingBotVotes id draws s = (Ok finished, s') -> look s id = Some w -> in_order w ->
  exists w', look s' id = Some w' /\ in_order w' /\ moved w w' /\ (finished = true -> completed w').
Proof.
  intros E Hw Ho. unfold appendRemainingBotVotes in E.
  apply sm_bind_Ok in E as (idr & s1 & E1 & E).
  destruct (read_moves _ _ _ _ _ _ _ (identity_law id) E1 Hw Ho) as (r1 & w1 & L1 & O1 & M1 & Or1 & M1' & _).
  apply sm_bind_Ok in E as (vr & s2 & E2 & E).
  destruct (read_moves _ _ _ _ _ _ _ (voting_law id) E2 L1 O1) as (r2 & w2 & L2 & O2 & M2 & Or2 & M2' & Hv2).
  apply sm_bind_Ok in E as (fin & s3 & E3 & E).
  destruct (read_moves _ _ _ _ _ _ _ (finalization_law id) E3 L2 O2) as (r3 & w3 & L3 & O3 & M3 & Or3 & M3' & _).
  destruct idr as [idr |]; [| done]. destruct vr as [vr |]; [subst vr | done].
  apply sm_bind_Ok in E as (n & s4 & E4 & E).
  apply sm_lift_Ok in E4 as [E4 ->]. destruct (current_count _ _ _ Or2 E4) as [-> Hu].
  assert (M03 : moved w w3) by (repeat (eapply moved_trans; [eassumption |]); done).
  assert (M23 : moved r2 w3) by (repeat (eapply moved_trans; [eassumption |]); done).
  destruct (Z.eqb_spec (vr_botCount (view_voting r2)) BOT_COUNT) as [Hfull |].
  { injection E as <- <-. exists w3. split_and!; [done | done | done |]. intros _.
    by eapply (completed_moved r2). }
  destruct (is_some fin); [done |]. apply sm_bind_Ok in E as (batch & s5 & E5 & E).
  apply sm_lift_Ok in E5 as [E5 ->]. destruct (generate_batch_Ok _ _ _ _ E5) as [Hlen Hc].
  apply sm_bind_Ok in E as (outcome & s6 & E6 & E).
  destruct (call_moves _ _ _ _ _ _ _ (addBotVotes_law id batch) E6 L3 O3) as (w4 & w5 & w6 & L6 & M4 & O4 & HR & M6).
  assert (M04 : moved w w4) by (by eapply moved_trans).
  destruct outcome as [u | error].
  - destruct HR as (env & next & intents & Hev & ->). destruct (bots_step _ _ _ _ _ Hc Hev) as (M5 & Hcast & Hmax & Hn).
    injection E as <- <-. destruct (moved_order _ _ O4 M5) as [O5 _]. exists w6.
    split_and!; [done | by apply (moved_order _ _ O5 M6) | by repeat (eapply moved_trans; [eassumption |]) |].
    intros _. eapply completed_moved; [exact O5 | exact M6 |]. split.
    + assert (Hu5 := so_user _ _ O5). cbn in Hu5 |- *. destruct (moved_order _ _ O4 M5) as [_ Hp].
      by apply (bot_count_grows _ _ _ O4 O5 Hcast Hp).
    + cbn. rewrite Hn. assert (M24 : moved r2 w4) by (by eapply moved_trans).
      destruct (moved_order _ _ Or2 M24) as [_ Hp]. destruct M24 as [Hid _]. unfold in_order in O4. rewrite Hid in O4.
      destruct (bot_count_grows _ _ _ Or2 O4) as [Hle _]; [congruence | done |].
      assert (Hb := so_count _ _ Or2). unfold zlength in *. rewrite Hlen in *. lia.
  - subst w5. apply sm_bind_Ok in E as (u & s7 & E7 & E). apply sm_lift_Ok in E7 as [_ ->].
    injection E as <- <-. exists w6. split_and!; [done | by apply (moved_order _ _ O4 M6) | by eapply moved_trans | done].
Qed.

Lemma attempts_complete id draws attempts : forall attempt s s' w,
  bot_attempts attempts attempt id draws s = (Ok tt, s') -> look s id = Some w -> in_order w ->
  exists w', look s' id = Some w' /\ in_order w' /\ moved w w' /\ completed w'.
Proof.
  induction attempts as [| attempts IH]; intros attempt s s' w E Hw Ho; cbn [bot_attempts] in E; [done |].
  apply sm_bind_Ok in E as (finished & s1 & E1 & E).
  destruct (attempt_moves _ _ _ _ _ _ E1 Hw Ho) as (w1 & L1 & O1 & M1 & Hdone).
  destruct finished.
  - injection E as <-. exists w1. split_and!; try done. by apply Hdone.
  - destruct (IH _ _ _ _ E L1 O1) as (w' & L' & O' & M' & C'). exists w'. split_and!; try done. by eapply moved_trans.
Qed.

Lemma completed_size w : in_order w -> completed w -> zlength (vr_votes (view_voting w)) = BOT_COUNT + 1.
Proof. intros Ho [Hu Hc]. assert (Hx := so_user _ _ Ho). rewrite Hu, Hc in Hx. apply Hx. Qed.

(** When the bots return, the session is complete: whatever other invocations
    did between the calls of at most three attempts, the votes that were there
    are kept, the vote of the user is the first one and the votes are 64. *)
Theorem bot_voting_completes id draws s s' w :
  startBotVoting id draws s = (Ok tt, s') -> look s id = Some w -> in_order w ->
  exists w', look s' id = Some w' /\ in_order w' /\
    vr_votes (view_voting w) `prefix_of` vr_votes (view_voting w') /\
    vr_userParticipation (view_voting w') = cast (NInt 0) /\
    zlength (vr_votes (view_voting w')) = BOT_COUNT + 1.
Proof.
  intros E Hw Ho. destruct (attempts_complete _ _ _ _ _ _ _ E Hw Ho) as (w' & L & O & M & C).
  exists w'. split_and!; [done | done | by apply (moved_order _ _ Ho M) | apply C | by apply completed_size].
Qed.

(** C37: The receipt of a completed submission is the one of the vote the store
    holds: the opening is the submitted one, the commitment is that of the
    opening, the root is the one stored at the cast, and the session has its
    64 votes. *)
Theorem submission_receipt id draws sub s receipt s' w :
  completeVoteSubmission id draws sub s = (Ok (Stored receipt), s') ->
  uv_vote (ps_command sub) ∈ VOTE_CHOICES -> look s id = Some w -> in_order w ->
  exists w' stored rest, look s' id = Some w' /\ vr_votes (view_voting w') = (NInt 0, stored) :: rest /\
    zlength (vr_votes (view_voting w')) = BOT_COUNT + 1 /\
    sv_vote stored = uv_vote (ps_command sub) /\
    normalizeHex (uv_rand (ps_command sub)) no_options = Ok (sv_rand stored) /\
    computeCommitment (id_electionId (view_identity w)) (choice_code (sv_vote stored)) (sv_rand stored) =
      Ok (sv_commit stored) /\
    receipt = mkReceipt (sv_voteId stored) (sv_commit stored) 0 (sv_rootAtCast stored) (sv_timestamp stored).
Proof.
  intros E Hc Hw Ho. unfold completeVoteSubmission in E. apply sm_bind_Ok in E as (saved & s1 & E1 & E).
  destruct (call_moves _ _ _ _ _ _ _ (addVote_law id _) E1 Hw Ho) as (w1 & w2 & w3 & L3 & M1 & O1 & HR & M3).
  destruct saved as [result | error]; [| done]. destruct HR as (env & m & Hev & -> & _).
  assert (M2 : moved w1 (mkView (view_identity w1) (next_voting (view_voting w1) m) (view_finalization w1))).
  { split; [done |]. apply rtc_once. eexists _, env, (append_user_vote (ps_command sub)), m.
    split_and!; [exact Hc | exact Hev | done]. }
  assert (M : moved w w3) by (eapply moved_trans; [exact M1 |]; by eapply moved_trans).
  assert (O3 := proj1 (moved_order _ _ Ho M)).
  apply sm_bind_Ok in E as (u & s4 & E4 & E). destruct u.
  destruct (attempts_complete _ _ _ _ _ _ _ E4 L3 O3) as (w4 & L4 & O4 & M4 & C4).
  apply sm_bind_Ok in E as (idr & s5 & E5 & E).
  destruct (read_moves _ _ _ _ _ _ _ (identity_law id) E5 L4 O4) as (r5 & w5 & L5 & O5 & M5 & Or5 & M5' & Hi5).
  apply sm_bind_Ok in E as (vr & s6 & E6 & E).
  destruct (read_moves _ _ _ _ _ _ _ (voting_law id) E6 L5 O5) as (r6 & w6 & L6 & O6 & M6 & Or6 & M6' & Hv6).
  destruct idr as [idr |]; [subst idr | done]. destruct vr as [vr |]; [subst vr | done].
  assert (M45 : moved w4 w5) by (by eapply moved_trans).
  assert (M46 : moved w4 r6) by (by eapply moved_trans).
  assert (C6 : completed r6) by (by eapply completed_moved; [exact O4 | |]).
  assert (Hid : view_identity r5 = view_identity r6).
  { destruct M5' as [I1 _], M6 as [I2 _]. congruence. }
  assert (Hid0 : view_identity r6 = view_identity w).
  { destruct M as [I0 _], M4 as [I4 _], M46 as [I6 _]. congruence. }
  rewrite Hid in E. apply sm_bind_Ok in E as (replay & s7 & E7 & E). apply sm_lift_Ok in E7 as [E7 ->].
  destruct (user_vote_stored _ _ _ Or6 (proj1 C6)) as (_ & stored & rest & Ev).
  rewrite (resolve_stored _ _ _ _ _ _ Or6 (proj1 C6) Ev) in E7.
  destruct (String.eqb_spec (sv_vote stored) (uv_vote (ps_command sub))) as [Hvote |]; [| injection E7 as <-; done].
  apply bind_Ok in E7 as (rand & Hrand & E7).
  destruct (String.eqb_spec (sv_rand stored) rand) as [<- |]; [| injection E7 as <-; done].
  injection E7 as <-.
  destruct (first_root_normal _ _ _ _ Or6 Ev) as [Hroot _].
  destruct (lo_votes _ _ _ _ (so_log _ _ Or6) 0 (NInt 0) stored) as [Hst [_ _ Hop]]; [by rewrite Ev |].
  rewrite Hid0 in Hop.
  rewrite (normal_again (sv_commit stored) no_options (or_intror eq_refl) (commitment_normal _ _ _ _ Hop)), Hroot, <- Hst in E.
  injection E as <- <-.
  destruct (moved_order _ _ Or6 M6') as [_ [more Hmore]]. rewrite Ev in Hmore.
  exists w6, stored, (rest ++ more). split_and!; try done.
  apply completed_size; [done |]. by eapply completed_moved.
Qed.

End flow.
End laws.
