(* ===== verification/MockStore.v ===== *)
(** The in-memory session store: the identity record
    (packages/domain/src/types/sessionRecords.ts), the records of a new session
    (aws-adapters/src/store/session-records.ts), the mapped records
    (mapped-session-records.ts, session-vote-writes.ts, session-command-store.ts)
    and the votes, the activity (touches, the count of active sessions that
    removes idle ones) and the finalization transitions of [MockSessionStore]
    (mockSessionStore.ts). What the store reads of its surroundings (clock,
    identifiers) is an argument that may depend on the number of calls made. *)
From S2P Require Import Prelude.
From S2P Require Import Hex.
From S2P Require Import JsNumber.
From S2P Require Import JsValue.
From S2P Require Import Contract.
From S2P Require Import Bulletin.
From S2P Require Import CtSession.
From S2P Require Import FinStorage.
From S2P Require Import FinTransition.
From S2P Require Import SessionVote.
From S2P Require Import VoteFlow.
Import JsValue.
Import Contract.
Import Bulletin.
Import CtSession.
Import SessionVote.
Import VoteFlow.

Module MockStore.

(** ** Identity records *)

Definition IDENTITY_KEYS : list string :=
  ["sessionId"; "electionId"; "electionConfigHash"; "electionConfig"; "logId"; "createdAtMs"]%string.
Definition ELECTION_CONFIG_KEYS : list string :=
  ["totalExpected"; "choices"; "version"; "botCount"; "merkleTreeDepth"]%string.

Definition non_empty_text (value : jsval) : option string :=
  match value with JStr s => if str_truthy s then Some s else None | _ => None end.

Definition isNonEmptyStringArray (value : jsval) : option (list string) :=
  match value with
  | JArr items => if Z.ltb 0 (zlength items) then all_some non_empty_text items else None
  | _ => None
  end.

Definition positive_count (value : jsval) : option Z :=
  match value with JNum n => if isPositiveSafeInteger n then Some (num_Z n) else None | _ => None end.

Definition safe_count (value : jsval) : option Z :=
  match value with JNum n => if isNonNegativeSafeInteger n then Some (num_Z n) else None | _ => None end.

Definition parseElectionConfig (value : jsval) : option ElectionConfig :=
  if negb (isNonArrayObject value) || negb (hasExactOwnKeys value ELECTION_CONFIG_KEYS) then None
  else
    totalExpected ← positive_count (prop value "totalExpected");
    choices ← isNonEmptyStringArray (prop value "choices");
    version ← non_empty_text (prop value "version");
    botCount ← safe_count (prop value "botCount");
    merkleTreeDepth ← positive_count (prop value "merkleTreeDepth");
    Some (mkElectionConfig totalExpected choices version botCount merkleTreeDepth).

Definition parseSessionIdentityRecord (value : jsval) : option SessionIdentityRecord :=
  if negb (isNonArrayObject value) || negb (hasExactOwnKeys value IDENTITY_KEYS) then None
  else
    sessionId ← as_string (prop value "sessionId");
    electionId ← as_string (prop value "electionId");
    electionConfigHash ← as_string (prop value "electionConfigHash");
    electionConfig ← parseElectionConfig (prop value "electionConfig");
    logId ← as_string (prop value "logId");
    createdAtMs ← safe_count (prop value "createdAtMs");
    if negb (FinStorage.isSafeVerifierSegment sessionId) || negb (uuidV4Regex electionId) ||
       negb (isValidHexString electionConfigHash (Some 32)) || negb (isValidHexString logId (Some 32))
    then None
    else Some (mkIdentity sessionId electionId electionConfigHash electionConfig logId createdAtMs).

(** The records as the objects the parsers read. *)
Definition config_value (c : ElectionConfig) : jsval :=
  JObj [("totalExpected", JNum (NInt (cfg_totalExpected c))); ("choices", JArr (map JStr (cfg_choices c)));
        ("version", JStr (cfg_version c)); ("botCount", JNum (NInt (cfg_botCount c)));
        ("merkleTreeDepth", JNum (NInt (cfg_merkleTreeDepth c)))]%string.

Definition identity_value (r : SessionIdentityRecord) : jsval :=
  JObj [("sessionId", JStr (id_sessionId r)); ("electionId", JStr (id_electionId r));
        ("electionConfigHash", JStr (id_electionConfigHash r)); ("electionConfig", config_value (id_electionConfig r));
        ("logId", JStr (id_logId r)); ("createdAtMs", JNum (NInt (id_createdAtMs r)))]%string.

Definition optional_identity (r : option SessionIdentityRecord) : jsval :=
  match r with Some r => identity_value r | None => JUndefined end.

Definition memory_record (r : FinTransition.FinalizationRecord) : jsval :=
  JObj (FinTransition.record_properties r ++
        match FinTransition.fr_result r with
        | Some result =>
            [("finalizationResult"%string, FinTransition.result_record_value FinStorage.result_authority_value result)]
        | None => []
        end).

(** ** Voting records (mockSessionStore.ts) *)

Definition isStoredVoteRecord (vote : StoredVoteRecord) : bool :=
  is_some (sv_voteId vote) &&
  match sv_timestamp vote with Some t => isNonNegativeSafeInteger t | None => false end.

Definition hasStoredVotes (entries : list (num * StoredVoteRecord)) : bool :=
  forallb (fun e => isNonNegativeSafeInteger e.1 && isStoredVoteRecord e.2) entries.

Definition isCurrentParticipation (p : UserParticipation) (entries : list (num * StoredVoteRecord)) : bool :=
  match p with
  | not_cast => true
  | cast voteIndex => isNonNegativeSafeInteger voteIndex && is_some (votes_get entries voteIndex)
  end.

Definition hasSessionBulletin (b : SimpleBulletinBoard) (identityRecord : SessionIdentityRecord) : bool :=
  String.eqb (getLogId b) (id_logId identityRecord).

Definition hasVotingActivityFields (v : VotingRecord) : bool :=
  isNonNegativeSafeInteger (NInt (vr_botCount v)) && isNonNegativeSafeInteger (NInt (vr_lastActivityMs v)).

Definition isVotingRecord (v : VotingRecord) (identityRecord : SessionIdentityRecord) : bool :=
  String.eqb (vr_sessionId v) (id_sessionId identityRecord) && hasSessionBulletin (vr_bulletin v) identityRecord &&
  hasVotingActivityFields v && isCurrentParticipation (vr_userParticipation v) (vr_votes v) &&
  hasStoredVotes (vr_votes v).

(** ** The state of the store *)

Record MockSessionStore := mkMock {
  identityRecords : gmap string SessionIdentityRecord;
  votingRecords : gmap string VotingRecord;
  finalizationRecords : gmap (string * string) FinTransition.FinalizationRecord;
  currentFinalizationIdBySession : gmap string string;
  voteIdIndex : gmap string (string * num);
  calls : nat;
}.

Definition empty_store : MockSessionStore := mkMock ∅ ∅ ∅ ∅ ∅ 0.

Definition with_voting (f : gmap string VotingRecord -> gmap string VotingRecord) (s : MockSessionStore) :
    MockSessionStore :=
  mkMock (identityRecords s) (f (votingRecords s)) (finalizationRecords s) (currentFinalizationIdBySession s)
    (voteIdIndex s) (calls s).

(** The number of the call, from which the surroundings are read. *)
Definition next_call : SM MockSessionStore nat := fun s =>
  (Ok (calls s), mkMock (identityRecords s) (votingRecords s) (finalizationRecords s)
                   (currentFinalizationIdBySession s) (voteIdIndex s) (S (calls s))).

Definition readMappedFinalization (sessionId : string) (s : MockSessionStore) :
    result (option FinTransition.FinalizationRecord) :=
  match currentFinalizationIdBySession s !! sessionId with
  | None | Some EmptyString => Ok None
  | Some finalizationId =>
      match finalizationRecords s !! (sessionId, finalizationId) ≫=
              (fun r => FinTransition.admitFinalizationRecord (memory_record r)) with
      | Some record =>
          if negb (String.eqb (FinTransition.fr_sessionId record) sessionId) ||
             negb (String.eqb (FinTransition.fr_finalizationId record) finalizationId)
          then throw "Current finalization record is missing or invalid"
          else Ok (Some record)
      | None => throw "Current finalization record is missing or invalid"
      end
  end.

Definition currentFinalization (sessionId : string) : SM MockSessionStore (option FinTransition.FinalizationRecord) :=
  fun s => (readMappedFinalization sessionId s, s).

Definition admitted_identity (sessionId : string) (s : MockSessionStore) : option SessionIdentityRecord :=
  parseSessionIdentityRecord (optional_identity (identityRecords s !! sessionId)).

Definition requireIdentity (sessionId : string) : SM MockSessionStore SessionIdentityRecord := fun s =>
  match admitted_identity sessionId s with
  | Some r => if String.eqb (id_sessionId r) sessionId then (Ok r, s)
              else (throw "Session identity is missing or invalid", s)
  | None => (throw "Session identity is missing or invalid", s)
  end.

Definition voting_of (sessionId : string) (identityRecord : SessionIdentityRecord) (s : MockSessionStore) :
    option VotingRecord :=
  match votingRecords s !! sessionId with
  | Some v => if isVotingRecord v identityRecord then Some v else None
  | None => None
  end.

Definition requireVoting (sessionId : string) : SM MockSessionStore VotingRecord :=
  identityRecord ← requireIdentity sessionId;
  s ← sm_get;
  match voting_of sessionId identityRecord s with
  | Some v => mret v
  | None => sm_throw "Session voting record is missing or invalid"
  end.

(** [cloneSessionVoting] copies every value of the record. *)
Definition mock_getSessionIdentity (sessionId : string) : SM MockSessionStore (option SessionIdentityRecord) :=
  s ← sm_get;
  mret (match admitted_identity sessionId s with
        | Some r => if String.eqb (id_sessionId r) sessionId then Some r else None
        | None => None
        end).

Definition mock_getVotingRecord (sessionId : string) : SM MockSessionStore (option VotingRecord) :=
  s ← sm_get;
  mret (match admitted_identity sessionId s with Some r => voting_of sessionId r s | None => None end).

Definition mock_getCurrentFinalizationRecord (sessionId : string) :
    SM MockSessionStore (option FinTransition.FinalizationRecord) :=
  _ ← requireIdentity sessionId;
  currentFinalization sessionId.

(** ** Writes of votes *)

Definition installMappedVoteMutation (sessionId : string) (nextVoting : VotingRecord)
    (indexIntents : list VoteIndexIntent) (s : MockSessionStore) : MockSessionStore :=
  mkMock (identityRecords s) (<[sessionId := nextVoting]> (votingRecords s)) (finalizationRecords s)
    (currentFinalizationIdBySession s)
    (fold_left (fun index intent => <[vi_voteId intent := (sessionId, vi_index intent)]> index) indexIntents
       (voteIdIndex s))
    (calls s).

(** What a write installs, if anything, and the value it returns. *)
Definition PreparedVoteWrite (A : Type) : Type := A * option (VotingRecord * list VoteIndexIntent).

Definition prepareUserVoteWrite (mutation : SessionVoteMutation) : result (PreparedVoteWrite AddVoteResult) :=
  match mutation with
  | user_vote_replayed castResult => Ok (castResult, None)
  | user_vote_appended next intents castResult => Ok (castResult, Some (next, intents))
  | bot_votes_appended _ _ => throw "Session vote mutation invariant violated"
  end.

Definition prepareBotVoteWrite (mutation : SessionVoteMutation) : result (PreparedVoteWrite unit) :=
  match mutation with
  | bot_votes_appended next intents => Ok (tt, Some (next, intents))
  | _ => throw "Session vote mutation invariant violated"
  end.

Section with_noble.
Context `{Noble}.

(** The surroundings of each call. *)
Variable surroundings : nat -> Environment.

Definition mutateVotes {A} (sessionId : string) (command : SessionVoteCommand)
    (prepareWrite : SessionVoteMutation -> result (PreparedVoteWrite A)) : SM MockSessionStore (StoreOutcome A) :=
  call ← next_call;
  s ← sm_get;
  match admitted_identity sessionId s with
  | None => mret (NotStored SESSION_NOT_FOUND)
  | Some identityRecord =>
      match voting_of sessionId identityRecord s with
      | None => sm_throw "Session voting record is missing or invalid"
      | Some voting =>
          finalization ← currentFinalization sessionId;
          outcome ← sm_lift (evaluateSessionVoteMutation (surroundings call)
                               (mkAuthority identityRecord voting finalization) command);
          match outcome with
          | Refused error => mret (NotStored (VoteRefused error))
          | Accepted mutation =>
              write ← sm_lift (prepareWrite mutation);
              match write.2 with
              | None => mret (Stored write.1)
              | Some (nextVoting, indexIntents) =>
                  _ ← sm_modify (installMappedVoteMutation sessionId nextVoting indexIntents);
                  mret (Stored write.1)
              end
          end
      end
  end.

#[export] Instance mock_vote_store : VoteStore FinTransition.FinalizationRecord MockSessionStore := {
  getSessionIdentity := mock_getSessionIdentity;
  getVotingRecord := mock_getVotingRecord;
  getCurrentFinalizationRecord := mock_getCurrentFinalizationRecord;
  addVote sessionId voteData := mutateVotes sessionId (append_user_vote voteData) prepareUserVoteWrite;
  addBotVotes sessionId votes := mutateVotes sessionId (append_bot_votes votes) prepareBotVoteWrite;
}.

(** ** New sessions *)

(** The identifiers of the session, of the election and of the log are drawn at
    random. *)
Definition createDefaultSessionRecords (sessionId electionId logId : string) (createdAtMs : Z) :
    SessionIdentityRecord * VotingRecord :=
  buildSessionRecords
    (mkIdentity sessionId electionId getDefaultElectionConfigHash buildDefaultElectionConfig logId createdAtMs) createdAtMs.

Definition mock_createSession (sessionId electionId logId : string) (createdAtMs : Z) :
    SM MockSessionStore SessionIdentityRecord :=
  let records := createDefaultSessionRecords sessionId electionId logId createdAtMs in
  match parseSessionIdentityRecord (identity_value records.1) with
  | Some identityRecord =>
      if negb (isVotingRecord records.2 identityRecord)
      then sm_throw "Session creation produced invalid lifecycle records"
      else
        _ ← sm_modify (fun s =>
              mkMock (<[sessionId := identityRecord]> (identityRecords s)) (<[sessionId := records.2]> (votingRecords s))
                (finalizationRecords s) (currentFinalizationIdBySession s) (voteIdIndex s) (calls s));
        mret identityRecord
  | None => sm_throw "Session creation produced invalid lifecycle records"
  end.

(** ** Finalization transitions *)

Definition touchVotingRecord (sessionId : string) (atMs : Z) : SM MockSessionStore unit :=
  voting ← requireVoting sessionId;
  sm_modify (with_voting (insert sessionId
    (mkVotingRecord (vr_sessionId voting) (vr_votes voting) (vr_bulletin voting) (vr_bulletinRootHistory voting)
       (vr_botCount voting) (vr_userParticipation voting) atMs))).

Record PreparedFinalization := mkPreparedFinalization {
  pf_record : FinTransition.FinalizationRecord;
  pf_mutated : bool;
  pf_outcome : FinTransition.FinalizationTransitionOutcome;
}.

Definition prepareMappedFinalizationCommand (command : FinTransition.FinalizationTransitionCommand)
    (evaluatedAtMs : Z) (s : MockSessionStore) : result PreparedFinalization :=
  before ← readMappedFinalization (FinTransition.cmd_sessionId command) s;
  let outcome := FinTransition.evaluateFinalizationTransition before command (NInt evaluatedAtMs) in
  match outcome with
  | FinTransition.invalid _ _ => throw "Invalid finalization transition"
  | FinTransition.applied _ _ nextRecord =>
      match FinTransition.admitFinalizationRecord (memory_record nextRecord) with
      | Some record => Ok (mkPreparedFinalization record true outcome)
      | None => throw "Finalization transition produced an invalid record"
      end
  | _ =>
      match before with
      | Some record => Ok (mkPreparedFinalization record false outcome)
      | None => throw "Finalization transition was not applied"
      end
  end.

Definition applyFinalizationCommand (command : FinTransition.FinalizationTransitionCommand) (now touchedAt : Z) :
    SM MockSessionStore PreparedFinalization :=
  let sessionId := FinTransition.cmd_sessionId command in
  _ ← requireIdentity sessionId;
  s ← sm_get;
  prepared ← sm_lift (prepareMappedFinalizationCommand command now s);
  if pf_mutated prepared then
    _ ← sm_modify (fun s =>
          mkMock (identityRecords s) (votingRecords s)
            (<[(sessionId, FinTransition.cmd_finalizationId command) := pf_record prepared]> (finalizationRecords s))
            (<[sessionId := FinTransition.cmd_finalizationId command]> (currentFinalizationIdBySession s))
            (voteIdIndex s) (calls s));
    _ ← touchVotingRecord sessionId touchedAt;
    mret prepared
  else mret prepared.

End with_noble.

(** ** Activity of the sessions *)

Definition touchSession (sessionId : string) (touchedAt : Z) : SM MockSessionStore unit :=
  touchVotingRecord sessionId touchedAt.

Definition FIVE_MINUTES_MS : Z := 300000.

(** The scoped records of the other sessions *)
Definition deleteSessionScopedRecords {A} (sessionId : string) (records : gmap (string * string) A) :
    gmap (string * string) A :=
  filter (fun e => e.1.1 <> sessionId) records.

Definition deleteSessionRecords (sessionId : string) (s : MockSessionStore) : MockSessionStore :=
  mkMock (delete sessionId (identityRecords s)) (delete sessionId (votingRecords s))
    (deleteSessionScopedRecords sessionId (finalizationRecords s)) (delete sessionId (currentFinalizationIdBySession s))
    (filter (fun e => e.2.1 <> sessionId) (voteIdIndex s)) (calls s).

Definition expired (now : Z) (voting : VotingRecord) : bool := Z.ltb FIVE_MINUTES_MS (now - vr_lastActivityMs voting).

(** A record that an earlier turn of the loop removed is not visited. *)
Definition expire_record (now : Z) (s : MockSessionStore) (key : string) : MockSessionStore :=
  match votingRecords s !! key with
  | Some voting => if expired now voting then deleteSessionRecords (vr_sessionId voting) s else s
  | None => s
  end.

Definition expire_sessions (now : Z) (s : MockSessionStore) : MockSessionStore :=
  fold_left (expire_record now) (map fst (map_to_list (votingRecords s))) s.

Definition live_session (s : MockSessionStore) (sessionId : string) : bool :=
  match admitted_identity sessionId s with
  | Some identityRecord => is_some (voting_of sessionId identityRecord s)
  | None => false
  end.

Definition getActiveSessionCount (now : Z) : SM MockSessionStore Z :=
  _ ← sm_modify (expire_sessions now);
  s ← sm_get;
  mret (zlength (List.filter (live_session s) (map fst (map_to_list (identityRecords s))))).

End MockStore.
