(* ===== verification/MockStoreProofs.v ===== *)
(** What the in-memory store promises: it keeps the laws of the vote store, its
    sessions stay in order, the sessions do not touch each other, and once a
    finalization was recorded the votes of the session never change again, until
    the session is removed for being idle. *)
From S2P Require Import Prelude.
From S2P Require Import Hex.
From S2P Require Import JsNumber.
From S2P Require Import JsValue.
From S2P Require Import Contract.
From S2P Require Import Bulletin.
From S2P Require Import CtSession.
From S2P Require Import CtSessionProofs.
From S2P Require Import FinStorage.
From S2P Require Import FinTransition.
From S2P Require Import FinTransitionProofs.
From S2P Require Import SessionVote.
From S2P Require Import SessionVoteProofs.
From S2P Require Import VoteFlow.
From S2P Require Import MockStore.
Import JsValue.
Import Contract.
Import Bulletin.
Import CtSession.
Import SessionVote.
Import VoteFlow.
Import MockStore.

(** ** Identity records *)

Lemma positive_count_int z n : positive_count (JNum (NInt z)) = Some n -> n = z.
Proof. cbn. destruct (isPositiveSafeInteger _); [| done]. by intros [= <-]. Qed.

Lemma safe_count_int z n : safe_count (JNum (NInt z)) = Some n -> n = z.
Proof. cbn. destruct (isNonNegativeSafeInteger _); [| done]. by intros [= <-]. Qed.

Lemma texts_same l l' : all_some non_empty_text (map JStr l) = Some l' -> l' = l.
Proof.
  intros E%all_some_Some. revert l' E. induction l as [| s l IH]; intros l' E; cbn [map] in E; inversion E as [| x y xs ys Hx Hl]; [done |].
  subst. f_equal; [| by apply IH]. cbn in Hx. destruct (str_truthy s); [| done]. by injection Hx as <-.
Qed.

Ltac parts E :=
  repeat match type of E with
  | (match ?x with Some _ => _ | None => _ end) = Some _ => destruct x eqn:?; [| done]
  end.

Lemma config_same c c' : parseElectionConfig (config_value c) = Some c' -> c' = c.
Proof.
  unfold parseElectionConfig. destruct (_ || _); [done |].
  change (prop (config_value c) "totalExpected") with (JNum (NInt (cfg_totalExpected c))).
  change (prop (config_value c) "choices") with (JArr (map JStr (cfg_choices c))).
  change (prop (config_value c) "version") with (JStr (cfg_version c)).
  change (prop (config_value c) "botCount") with (JNum (NInt (cfg_botCount c))).
  change (prop (config_value c) "merkleTreeDepth") with (JNum (NInt (cfg_merkleTreeDepth c))).
  intros E. unfold mbind, option_bind in E. parts E. injection E as <-.
  repeat match goal with
  | H : positive_count _ = Some _ |- _ => apply positive_count_int in H
  | H : safe_count _ = Some _ |- _ => apply safe_count_int in H
  end. subst.
  match goal with H : isNonEmptyStringArray _ = Some _ |- _ => rename H into Hc end. cbn [isNonEmptyStringArray] in Hc.
  destruct (Z.ltb 0 _); [| done]. apply texts_same in Hc as ->.
  match goal with H : non_empty_text _ = Some _ |- _ => rename H into Hv end. cbn in Hv.
  destruct (str_truthy _); [| done]. injection Hv as <-. by destruct c.
Qed.

Lemma identity_same r r' : parseSessionIdentityRecord (identity_value r) = Some r' -> r' = r.
Proof.
  unfold parseSessionIdentityRecord. destruct (negb (isNonArrayObject _) || _); [done |].
  change (prop (identity_value r) "sessionId") with (JStr (id_sessionId r)).
  change (prop (identity_value r) "electionId") with (JStr (id_electionId r)).
  change (prop (identity_value r) "electionConfigHash") with (JStr (id_electionConfigHash r)).
  change (prop (identity_value r) "electionConfig") with (config_value (id_electionConfig r)).
  change (prop (identity_value r) "logId") with (JStr (id_logId r)).
  change (prop (identity_value r) "createdAtMs") with (JNum (NInt (id_createdAtMs r))).
  cbn [as_string]. unfold mbind, option_bind. intros E. parts E. destruct (_ || _); [done |]. injection E as <-.
  match goal with H : parseElectionConfig _ = Some _ |- _ => apply config_same in H; subst end.
  match goal with H : safe_count _ = Some _ |- _ => apply safe_count_int in H; subst end. by destruct r.
Qed.

Lemma safe_count_again v n : safe_count v = Some n -> safe_count (JNum (NInt n)) = Some n.
Proof.
  unfold safe_count. destruct v; try done. destruct (isNonNegativeSafeInteger n0) eqn:E; [| done]. intros [= <-].
  apply isNonNegativeSafeInteger_spec in E as (z & -> & Hz). cbn [num_Z].
  assert (isNonNegativeSafeInteger (NInt z) = true) as -> by (apply isNonNegativeSafeInteger_spec; by exists z). done.
Qed.

Lemma positive_count_again v n : positive_count v = Some n -> positive_count (JNum (NInt n)) = Some n.
Proof.
  unfold positive_count. destruct v; try done. destruct (isPositiveSafeInteger n0) eqn:E; [| done]. intros [= <-].
  assert (exists z, n0 = NInt z) as [z ->].
  { unfold isPositiveSafeInteger in E. apply andb_true_iff in E as [E _].
    apply isNonNegativeSafeInteger_spec in E as (z & -> & _). by exists z. }
  cbn [num_Z]. by rewrite E.
Qed.

Lemma text_again v s : non_empty_text v = Some s -> non_empty_text (JStr s) = Some s.
Proof. destruct v; try done. cbn. destruct (str_truthy s0) eqn:E; [| done]. intros [= <-]. by rewrite E. Qed.

Lemma texts_again v l : isNonEmptyStringArray v = Some l -> isNonEmptyStringArray (JArr (map JStr l)) = Some l.
Proof.
  destruct v as [| | | | | items | |]; try done. cbn [isNonEmptyStringArray].
  destruct (Z.ltb_spec 0 (zlength items)) as [Hl |]; [| done]. intros E%all_some_Some.
  assert (zlength (map JStr l) = zlength items) as ->
    by (unfold zlength; rewrite length_map; f_equal; symmetry; by eapply Forall2_length).
  destruct (Z.ltb_spec 0 (zlength items)); [| lia]. apply all_some_Some. clear Hl H.
  induction E as [| x y items l Hx _ IH]; cbn [map]; constructor; [by eapply text_again | done].
Qed.

Lemma config_stable v c : parseElectionConfig v = Some c -> parseElectionConfig (config_value c) = Some c.
Proof.
  unfold parseElectionConfig at 1. destruct (_ || _); [done |]. unfold mbind, option_bind. intros E. parts E.
  injection E as <-. unfold parseElectionConfig.
  change (_ || _) with false. cbv iota. cbn [config_value prop own String.eqb Ascii.eqb Bool.eqb cfg_totalExpected cfg_choices
    cfg_version cfg_botCount cfg_merkleTreeDepth]. unfold mbind, option_bind.
  repeat match goal with
  | H : positive_count _ = Some _ |- _ => apply positive_count_again in H; rewrite H; clear H
  | H : isNonEmptyStringArray _ = Some _ |- _ => apply texts_again in H; rewrite H; clear H
  | H : non_empty_text _ = Some _ |- _ => apply text_again in H; rewrite H; clear H
  | H : safe_count _ = Some _ |- _ => apply safe_count_again in H; rewrite H; clear H
  end. done.
Qed.

(** An admitted identity record, written as an object, is read back as it is. *)
Theorem identity_round_trip v r :
  parseSessionIdentityRecord v = Some r -> parseSessionIdentityRecord (identity_value r) = Some r.
Proof.
  unfold parseSessionIdentityRecord at 1. destruct (negb (isNonArrayObject v) || _); [done |].
  unfold mbind, option_bind. intros E. parts E.
  match type of E with (if ?b then _ else _) = _ => destruct b eqn:Hb; [done |] end.
  injection E as <-. unfold parseSessionIdentityRecord. change (negb (isNonArrayObject _) || _) with false. cbv iota.
  cbn [identity_value prop own String.eqb Ascii.eqb Bool.eqb id_sessionId id_electionId id_electionConfigHash
    id_electionConfig id_logId id_createdAtMs as_string]. unfold mbind, option_bind.
  match goal with H : parseElectionConfig _ = Some _ |- _ => apply config_stable in H; rewrite H end.
  match goal with H : safe_count _ = Some _ |- _ => apply safe_count_again in H; rewrite H end.
  by rewrite Hb.
Qed.

(** ** The laws of the vote store *)

Section store.
Context `{NobleLaws}.
Variable surroundings : nat -> Environment.

Definition finalization_of (id : string) (s : MockSessionStore) : option FinTransition.FinalizationRecord :=
  match readMappedFinalization id s with Ok f => f | Err _ => None end.

Definition mock_look (s : MockSessionStore) (id : string) : option SessionView :=
  match identityRecords s !! id, votingRecords s !! id with
  | Some i, Some v => Some (mkView i v (finalization_of id s))
  | _, _ => None
  end.

Lemma look_parts s id w : mock_look s id = Some w ->
  identityRecords s !! id = Some (view_identity w) /\ votingRecords s !! id = Some (view_voting w) /\
  view_finalization w = finalization_of id s.
Proof.
  unfold mock_look. destruct (identityRecords s !! id); [| done]. destruct (votingRecords s !! id); [| done].
  by intros [= <-].
Qed.

Lemma admitted_same id s i : admitted_identity id s = Some i -> identityRecords s !! id = Some i.
Proof.
  unfold admitted_identity. destruct (identityRecords s !! id) as [r |]; cbn [optional_identity]; [| done].
  by intros ->%identity_same.
Qed.

Lemma voting_same id i s v : voting_of id i s = Some v -> votingRecords s !! id = Some v.
Proof. unfold voting_of. destruct (votingRecords s !! id); [| done]. destruct (isVotingRecord _ _); congruence. Qed.

(** A call that leaves the store as it was. *)
Lemma unchanged_law {A} id (m : SM MockSessionStore A) (P : A -> SessionView -> Prop) :
  (forall s a s', m s = (Ok a, s') -> s' = s /\ forall w, mock_look s id = Some w -> P a w) ->
  call_law mock_look id m (fun r w w' => w' = w /\ P r w).
Proof.
  intros Hm s a s' E w Hw Ho. destruct (Hm s a s' E) as [-> HP]. exists w, w, w. split_and!; try done. by apply HP.
Qed.

Lemma mock_identity_law id : call_law mock_look id (mock_getSessionIdentity id)
  (fun r w w' => w' = w /\ match r with Some i => i = view_identity w | None => True end).
Proof.
  apply unchanged_law. intros s a s'. cbn. intros [= <- <-]. split; [done |]. intros w Hw.
  destruct (admitted_identity id s) as [i |] eqn:Ei; [| done]. destruct (String.eqb _ _); [| done].
  apply admitted_same in Ei. destruct (look_parts _ _ _ Hw) as (Hi & _). congruence.
Qed.

Lemma mock_voting_law id : call_law mock_look id (mock_getVotingRecord id)
  (fun r w w' => w' = w /\ match r with Some v => v = view_voting w | None => True end).
Proof.
  apply unchanged_law. intros s a s'. cbn. intros [= <- <-]. split; [done |]. intros w Hw.
  destruct (admitted_identity id s) as [i |]; [| done]. destruct (voting_of id i s) as [v |] eqn:Ev; [| done].
  apply voting_same in Ev. destruct (look_parts _ _ _ Hw) as (_ & Hv & _). congruence.
Qed.

Lemma mock_finalization_law id : call_law mock_look id (mock_getCurrentFinalizationRecord id)
  (fun r w w' => w' = w /\ r = view_finalization w).
Proof.
  apply unchanged_law. intros s a s'. unfold mock_getCurrentFinalizationRecord. intros E.
  apply sm_bind_Ok in E as (i & s1 & E1 & E). unfold requireIdentity in E1.
  assert (s1 = s) as -> by (repeat case_match; congruence). unfold currentFinalization in E.
  injection E as E <-. split; [done |]. intros w Hw. destruct (look_parts _ _ _ Hw) as (_ & _ & ->).
  unfold finalization_of. by rewrite E.
Qed.

(** A successful write of votes: what was evaluated and what was installed. *)
Lemma mutateVotes_Ok {A} id command (prepareWrite : SessionVoteMutation -> result (PreparedVoteWrite A)) s r s' :
  mutateVotes surroundings id command prepareWrite s = (Ok r, s') ->
  (exists c, s' = snd (next_call s) /\ r = NotStored c) \/
  exists i v f m value write, identityRecords s !! id = Some i /\ votingRecords s !! id = Some v /\
    readMappedFinalization id s = Ok f /\
    evaluateSessionVoteMutation (surroundings (calls s)) (mkAuthority i v f) command = Ok (Accepted m) /\
    prepareWrite m = Ok (value, write) /\ r = Stored value /\
    s' = match write with
         | None => snd (next_call s)
         | Some (next, intents) => installMappedVoteMutation id next intents (snd (next_call s))
         end.
Proof.
  unfold mutateVotes. intros E. apply sm_bind_Ok in E as (call & s1 & E1 & E). injection E1 as <- <-.
  set (s1 := mkMock _ _ _ _ _ _) in *. change ((sm_get ≫= ?f) s1) with (f s1 s1) in E. cbv beta in E.
  destruct (admitted_identity id s1) as [i |] eqn:Ei; [| injection E as <- <-; left; by eexists].
  destruct (voting_of id i s1) as [v |] eqn:Ev; [| done].
  apply sm_bind_Ok in E as (f & s2 & E2 & E). injection E2 as Hf <-.
  apply sm_bind_Ok in E as (outcome & s3 & E3 & E). apply sm_lift_Ok in E3 as [E3 ->].
  destruct outcome as [m | error]; [| injection E as <- <-; left; by eexists].
  apply sm_bind_Ok in E as ([value write] & s4 & E4 & E). apply sm_lift_Ok in E4 as [E4 ->]. right.
  exists i, v, f, m, value, write. apply admitted_same in Ei. apply voting_same in Ev.
  split_and!; try done.
  - destruct write as [[next intents] |]; [| by injection E as <- <-].
    apply sm_bind_Ok in E as (u & s5 & E5 & E). injection E5 as _ <-. by injection E as <- <-.
  - destruct write as [[next intents] |]; [| by injection E as <- <-].
    apply sm_bind_Ok in E as (u & s5 & E5 & E). injection E5 as _ <-. by injection E as _ <-.
Qed.

Lemma finalization_call id s : finalization_of id (snd (next_call s)) = finalization_of id s.
Proof. done. Qed.

Lemma look_installed id next intents s w : mock_look s id = Some w ->
  mock_look (installMappedVoteMutation id next intents (snd (next_call s))) id =
  Some (mkView (view_identity w) next (view_finalization w)).
Proof.
  intros Hw. destruct (look_parts _ _ _ Hw) as (Hi & Hv & Hf). unfold mock_look. cbn. rewrite Hi, lookup_insert_eq.
  by rewrite Hf.
Qed.

Lemma mutate_law {A} id command (prepareWrite : SessionVoteMutation -> result (PreparedVoteWrite A)) :
  call_law mock_look id (mutateVotes surroundings id command prepareWrite)
    (fun r w w' => match r with
     | Stored value => exists env m write,
         evaluateSessionVoteMutation env (authority_of w) command = Ok (Accepted m) /\
         prepareWrite m = Ok (value, write) /\
         w' = mkView (view_identity w) (match write with Some (next, _) => next | None => view_voting w end)
                (view_finalization w)
     | NotStored _ => w' = w
     end).
Proof.
  intros s r s' E w Hw Ho. destruct (look_parts _ _ _ Hw) as (Hi & Hv & Hf).
  destruct (mutateVotes_Ok _ _ _ _ _ _ E) as [(c & -> & ->) | (i & v & f & m & value & write & Hi' & Hv' & Hr & Hev & Hp & -> & ->)].
  { exists w, w, w. by split_and!. }
  assert (i = view_identity w) as -> by congruence. assert (v = view_voting w) as -> by congruence.
  assert (f = view_finalization w) as -> by (rewrite Hf; unfold finalization_of; by rewrite Hr).
  exists w. exists (mkView (view_identity w) (match write with Some (next, _) => next | None => view_voting w end)
                (view_finalization w)). eexists. split_and!; [| done | by eexists _, m, write | done].
  destruct write as [[next intents] |]; [by apply look_installed |]. destruct w. done.
Qed.

#[export] Instance mock_store_laws : @VoteStoreLaws _ FinTransition.FinalizationRecord MockSessionStore
  (mock_vote_store surroundings).
Proof.
  refine {| look := mock_look |}.
  - apply mock_identity_law.
  - apply mock_voting_law.
  - apply mock_finalization_law.
  - intros id vote s r s' E w Hw Ho. destruct (mutate_law _ _ _ s r s' E w Hw Ho) as (w1 & w2 & w3 & L & M1 & HR & M2).
    exists w1, w2, w3. split_and!; try done. destruct r as [value | error]; [| done].
    destruct HR as (env & m & write & Hev & Hp & ->). exists env, m. split; [done |].
    destruct m as [next intents res | res | next intents]; try done; injection Hp as <- <-.
    + split; [done |]. right. by eexists _, _.
    + split; [by destruct w1 |]. by left.
  - intros id votes s r s' E w Hw Ho. destruct (mutate_law _ _ _ s r s' E w Hw Ho) as (w1 & w2 & w3 & L & M1 & HR & M2).
    exists w1, w2, w3. split_and!; try done. destruct r as [value | error]; [| done].
    destruct HR as (env & m & write & Hev & Hp & ->).
    destruct m as [next intents res | res | next intents]; try done. injection Hp as _ <-. by exists env, next, intents.
Defined.

(** ** Every call of the store *)

Inductive store_call : Type :=
| CallCreate (sessionId electionId logId : string) (createdAtMs : Z)
| CallVote (sessionId : string) (vote : UserVoteCommand)
| CallBots (sessionId : string) (votes : list BotVoteCommand)
| CallFinalize (command : FinTransition.FinalizationTransitionCommand) (now touchedAt : Z)
| CallTouch (sessionId : string) (touchedAt : Z)
| CallCount (now : Z).

Definition run_store_call (c : store_call) (s : MockSessionStore) : MockSessionStore :=
  match c with
  | CallCreate sessionId electionId logId t => snd (mock_createSession sessionId electionId logId t s)
  | CallVote sessionId vote =>
      snd (mutateVotes surroundings sessionId (append_user_vote vote) prepareUserVoteWrite s)
  | CallBots sessionId votes =>
      snd (mutateVotes surroundings sessionId (append_bot_votes votes) prepareBotVoteWrite s)
  | CallFinalize command now touchedAt => snd (applyFinalizationCommand command now touchedAt s)
  | CallTouch sessionId touchedAt => snd (touchSession sessionId touchedAt s)
  | CallCount now => snd (getActiveSessionCount now s)
  end.

Definition call_typed (c : store_call) : Prop :=
  match c with
  | CallVote _ vote => command_typed (append_user_vote vote)
  | CallBots _ votes => command_typed (append_bot_votes votes)
  | _ => True
  end.

Definition touched (t : Z) (v : VotingRecord) : VotingRecord :=
  mkVotingRecord (vr_sessionId v) (vr_votes v) (vr_bulletin v) (vr_bulletinRootHistory v) (vr_botCount v)
    (vr_userParticipation v) t.

(** A voting record of the session had no activity for five minutes. *)
Definition idle_session (id : string) (now : Z) (s : MockSessionStore) : Prop :=
  exists key v, votingRecords s !! key = Some v /\ vr_sessionId v = id /\ FIVE_MINUTES_MS < now - vr_lastActivityMs v.

(** How a call can change the voting record of a session. *)
Inductive voting_change (s : MockSessionStore) (c : store_call) (id : string) (o : option VotingRecord) : Prop :=
| change_none : o = votingRecords s !! id -> voting_change s c id o
| change_created eid lid t : c = CallCreate id eid lid t ->
    o = Some (snd (createDefaultSessionRecords id eid lid t)) -> voting_change s c id o
| change_touched v t : votingRecords s !! id = Some v ->
    o = Some (touched t v) -> voting_change s c id o
| change_expired now : c = CallCount now -> idle_session id now s -> o = None -> voting_change s c id o
| change_voted i v f m command next :
    identityRecords s !! id = Some i -> votingRecords s !! id = Some v ->
    readMappedFinalization id s = Ok f -> (call_typed c -> command_typed command) ->
    evaluateSessionVoteMutation (surroundings (calls s)) (mkAuthority i v f) command = Ok (Accepted m) ->
    (forall r, m <> user_vote_replayed r) -> next = next_voting v m -> o = Some next -> voting_change s c id o.

Lemma mutate_snd {A} id command (prepareWrite : SessionVoteMutation -> result (PreparedVoteWrite A)) s :
  (forall m value next intents, prepareWrite m = Ok (value, Some (next, intents)) ->
     (forall r, m <> user_vote_replayed r) /\ forall v, next_voting v m = next) ->
  let s' := snd (mutateVotes surroundings id command prepareWrite s) in
  s' = snd (next_call s) \/
  exists i v f m next intents, identityRecords s !! id = Some i /\ votingRecords s !! id = Some v /\
    readMappedFinalization id s = Ok f /\
    evaluateSessionVoteMutation (surroundings (calls s)) (mkAuthority i v f) command = Ok (Accepted m) /\
    (forall r, m <> user_vote_replayed r) /\ next = next_voting v m /\
    s' = installMappedVoteMutation id next intents (snd (next_call s)).
Proof.
  intros Hw s'. destruct (mutateVotes surroundings id command prepareWrite s) as [[r | e] s1] eqn:E; cbn in s'; subst s'.
  - destruct (mutateVotes_Ok _ _ _ _ _ _ E) as [(c & -> & _) | (i & v & f & m & value & write & Hi & Hv & Hr & Hev & Hp & _ & ->)].
    { by left. }
    destruct write as [[next intents] |]; [| by left]. right.
    destruct (Hw _ _ _ _ Hp) as [Hm Hn]. by exists i, v, f, m, next, intents.
  - left. unfold mutateVotes in E. change ((next_call ≫= ?f) s) with (f (calls s) (snd (next_call s))) in E.
    cbv beta in E. set (s2 := snd (next_call s)) in *. change ((sm_get ≫= ?f) s2) with (f s2 s2) in E. cbv beta in E.
    destruct (admitted_identity id s2); [| by injection E as _ <-].
    destruct (voting_of _ _ s2); [| by injection E as _ <-].
    unfold mbind at 1, SM_bind at 1 in E. unfold currentFinalization in E at 1.
    destruct (readMappedFinalization id s2); [| by injection E as _ <-].
    unfold mbind at 1, SM_bind at 1 in E. unfold sm_lift at 1 in E.
    destruct (evaluateSessionVoteMutation _ _ _) as [[m | error] |]; [| by injection E as _ <- | by injection E as _ <-].
    unfold mbind at 1, SM_bind at 1 in E. unfold sm_lift at 1 in E.
    destruct (prepareWrite m) as [[value [[next intents] |]] |]; [done | done | by injection E as _ <-].
Qed.

Lemma user_write_ok m value next intents : prepareUserVoteWrite m = Ok (value, Some (next, intents)) ->
  (forall r, m <> user_vote_replayed r) /\ forall v, next_voting v m = next.
Proof. destruct m; try done. cbn. intros [= <- <- <-]. by split. Qed.

Lemma bot_write_ok m value next intents : prepareBotVoteWrite m = Ok (value, Some (next, intents)) ->
  (forall r, m <> user_vote_replayed r) /\ forall v, next_voting v m = next.
Proof. destruct m; try done. cbn. intros [= <- <-]. by split. Qed.

Lemma requireIdentity_state id s r s' : requireIdentity id s = (r, s') -> s' = s.
Proof. unfold requireIdentity. intros E. by repeat case_match; injection E. Qed.

Lemma requireVoting_state id s r s' : requireVoting id s = (r, s') ->
  s' = s /\ forall v, r = Ok v -> votingRecords s !! id = Some v.
Proof.
  unfold requireVoting. unfold mbind at 1, SM_bind at 1.
  destruct (requireIdentity id s) as [[i | e] s1] eqn:E1; apply requireIdentity_state in E1 as ->; [| by intros [= <- <-]].
  change ((sm_get ≫= ?f) s) with (f s s). cbv beta.
  destruct (voting_of id i s) as [v |] eqn:Ev; intros [= <- <-]; (split; [done |]); [| done].
  intros ? [= <-]. by apply voting_same in Ev.
Qed.

Definition recorded (id fid : string) (record : FinTransition.FinalizationRecord) (s : MockSessionStore) :
    MockSessionStore :=
  mkMock (identityRecords s) (votingRecords s) (<[(id, fid) := record]> (finalizationRecords s))
    (<[id := fid]> (currentFinalizationIdBySession s)) (voteIdIndex s) (calls s).

(** The states a finalization command can leave. *)
Lemma finalize_shape command now touchedAt s r s' :
  let id := FinTransition.cmd_sessionId command in
  let fid := FinTransition.cmd_finalizationId command in
  applyFinalizationCommand command now touchedAt s = (r, s') ->
  s' = s \/ exists record outcome, prepareMappedFinalizationCommand command now s =
                Ok (mkPreparedFinalization record true outcome) /\
    (s' = recorded id fid record s \/
     exists v, votingRecords s !! id = Some v /\
       s' = with_voting (insert id (touched touchedAt v)) (recorded id fid record s)).
Proof.
  intros id fid E. unfold applyFinalizationCommand in E. fold id fid in E. cbv zeta in E.
  unfold mbind at 1, SM_bind at 1 in E. destruct (requireIdentity id s) as [[i | e] s1] eqn:E1;
    apply requireIdentity_state in E1 as ->; [| left; by injection E].
  change ((sm_get ≫= ?f) s) with (f s s) in E. cbv beta in E. unfold mbind at 1, SM_bind at 1, sm_lift in E.
  destruct (prepareMappedFinalizationCommand command now s) as [[record mutated outcome] |]; [| left; by injection E].
  destruct mutated; cbn [pf_mutated pf_record] in E; [| left; by injection E]. right. exists record, outcome.
  split; [done |]. match type of E with (sm_modify ?f ≫= ?g) s = _ =>
    change ((sm_modify f ≫= g) s) with (g tt (recorded id fid record s)) in E end. cbv beta in E.
  unfold touchVotingRecord in E. unfold mbind at 1, SM_bind at 1 in E. unfold mbind at 1, SM_bind at 1 in E.
  destruct (requireVoting id (recorded id fid record s)) as [[v | e] s2] eqn:Ev;
    apply requireVoting_state in Ev as [-> Hv]; [| left; by injection E].
  right. exists v. split; [by apply Hv |]. by injection E.
Qed.

(** What a finalization command leaves. *)
Lemma finalize_effect command now touchedAt s :
  let id := FinTransition.cmd_sessionId command in
  let fid := FinTransition.cmd_finalizationId command in
  let s' := snd (applyFinalizationCommand command now touchedAt s) in
  s' = s \/
  FinStorage.isSafeVerifierSegment fid = true /\ identityRecords s' = identityRecords s /\
  currentFinalizationIdBySession s' = <[id := fid]> (currentFinalizationIdBySession s) /\
  (votingRecords s' = votingRecords s \/
   exists v, votingRecords s !! id = Some v /\ votingRecords s' = <[id := touched touchedAt v]> (votingRecords s)).
Proof.
  intros id fid. destruct (applyFinalizationCommand command now touchedAt s) as [r s'] eqn:E.
  apply finalize_shape in E as [-> | (record & outcome & Ep & Hs)]; [by left | right]. fold id fid in Hs.
  assert (Hfid : FinStorage.isSafeVerifierSegment fid = true).
  { unfold prepareMappedFinalizationCommand in Ep. apply bind_Ok in Ep as (before & _ & Ep).
    destruct (FinTransition.evaluateFinalizationTransition _ _ _) as [st reason n | | |] eqn:Eo;
      [| destruct before; done | destruct before; done | done].
    apply evaluate_applied in Eo as (a & Ha & _). unfold FinTransition.admitCommand in Ha.
    destruct (FinTransition.hasValidBase command) eqn:Eb; [done |]. by apply base_valid in Eb as (_ & ? & _). }
  split; [done |]. destruct Hs as [-> | (v & Hv & ->)]; cbn; split_and!; try done; [by left |].
  right. by exists v.
Qed.

(** What creating a session leaves. *)
Lemma create_effect id eid lid t s :
  let s' := snd (mock_createSession id eid lid t s) in
  s' = s \/
  s' = mkMock (<[id := fst (createDefaultSessionRecords id eid lid t)]> (identityRecords s))
         (<[id := snd (createDefaultSessionRecords id eid lid t)]> (votingRecords s))
         (finalizationRecords s) (currentFinalizationIdBySession s) (voteIdIndex s) (calls s).
Proof.
  unfold mock_createSession. destruct (parseSessionIdentityRecord _) as [r |] eqn:Er; [| by left].
  apply identity_same in Er as ->. destruct (isVotingRecord _ _); [| by left]. by right.
Qed.

(** What a touch leaves. *)
Lemma touch_effect sid t s :
  let s' := snd (touchSession sid t s) in
  s' = s \/ exists v, votingRecords s !! sid = Some v /\ s' = with_voting (insert sid (touched t v)) s.
Proof.
  intros s'. subst s'. unfold touchSession, touchVotingRecord, mbind, SM_bind.
  destruct (requireVoting sid s) as [[v | e] s1] eqn:Ev; apply requireVoting_state in Ev as [-> Hv]; [| by left].
  right. exists v. split; [by apply Hv | done].
Qed.

(** ** Removal of idle sessions *)

(** What is kept of a session by identifier: its identity, its votes and its current
    attempt. *)
Definition same_session (id : string) (s s' : MockSessionStore) : Prop :=
  identityRecords s' !! id = identityRecords s !! id /\ votingRecords s' !! id = votingRecords s !! id /\
  currentFinalizationIdBySession s' !! id = currentFinalizationIdBySession s !! id.

Definition session_gone (id : string) (s : MockSessionStore) : Prop :=
  identityRecords s !! id = None /\ votingRecords s !! id = None /\ currentFinalizationIdBySession s !! id = None.

Lemma delete_effect sid s id :
  (sid = id /\ session_gone id (deleteSessionRecords sid s)) \/ same_session id s (deleteSessionRecords sid s).
Proof.
  destruct (decide (sid = id)) as [-> | Hn]; [left | right]; unfold deleteSessionRecords.
  - split; [done |]. unfold session_gone. cbn. by rewrite !lookup_delete_eq.
  - unfold same_session. cbn. by rewrite !lookup_delete_ne.
Qed.

(** The loop over the records keeps a session or removes one that is idle. *)
Lemma expire_effect now id keys s0 : forall s,
  (forall key v, votingRecords s !! key = Some v -> votingRecords s0 !! key = Some v) ->
  same_session id s0 s \/ session_gone id s /\ idle_session id now s0 ->
  let s' := fold_left (expire_record now) keys s in
  same_session id s0 s' \/ session_gone id s' /\ idle_session id now s0.
Proof.
  induction keys as [| key keys IH]; intros s Hsub Hs; cbn [fold_left]; [done |].
  assert (He : expire_record now s key = s \/ exists v, votingRecords s !! key = Some v /\
    FIVE_MINUTES_MS < now - vr_lastActivityMs v /\ expire_record now s key = deleteSessionRecords (vr_sessionId v) s).
  { unfold expire_record, expired. destruct (votingRecords s !! key) as [v |]; [| by left].
    destruct (Z.ltb_spec FIVE_MINUTES_MS (now - vr_lastActivityMs v)); [right; by exists v | by left]. }
  destruct He as [-> | (v & Ev & Hold & ->)]; [by apply IH |]. apply IH.
  - intros k w. cbn. rewrite lookup_delete_Some. intros [_ Hw]. by apply Hsub.
  - destruct (delete_effect (vr_sessionId v) s id) as [[Hid Hg] | (H1 & H2 & H3)].
    + right. split; [done |]. exists key, v. split_and!; [by apply Hsub | done | done].
    + destruct Hs as [(K1 & K2 & K3) | [(K1 & K2 & K3) Hi]]; [left | right].
      * unfold same_session. split_and!; congruence.
      * split; [| done]. unfold session_gone. split_and!; congruence.
Qed.

Lemma count_effect now s id :
  let s' := snd (getActiveSessionCount now s) in
  same_session id s s' \/ session_gone id s' /\ idle_session id now s.
Proof.
  apply (expire_effect now id (map fst (map_to_list (votingRecords s))) s s); [done |]. by left.
Qed.

(** Every call changes the votes of a session in one of five ways. *)
Lemma call_change c s id : voting_change s c id (votingRecords (run_store_call c s) !! id).
Proof.
  destruct c as [sid eid lid t | sid vote | sid votes | command now touchedAt | sid t | now]; cbn [run_store_call].
  - destruct (create_effect sid eid lid t s) as [-> | ->]; [by apply change_none |]. cbn.
    destruct (decide (sid = id)) as [-> | Hn].
    + eapply change_created; [done |]. by rewrite lookup_insert_eq.
    + apply change_none. by rewrite lookup_insert_ne.
  - destruct (mutate_snd sid (append_user_vote vote) _ s user_write_ok)
      as [-> | (i & v & f & m & next & intents & Hi & Hv & Hr & Hev & Hm & Hn & ->)]; [by apply change_none |]. cbn.
    destruct (decide (sid = id)) as [-> | Hne]; [| apply change_none; by rewrite lookup_insert_ne].
    apply (change_voted s (CallVote id vote) id _ i v f m (append_user_vote vote) next Hi Hv Hr (fun x => x) Hev Hm Hn).
    by rewrite lookup_insert_eq.
  - destruct (mutate_snd sid (append_bot_votes votes) _ s bot_write_ok)
      as [-> | (i & v & f & m & next & intents & Hi & Hv & Hr & Hev & Hm & Hn & ->)]; [by apply change_none |]. cbn.
    destruct (decide (sid = id)) as [-> | Hne]; [| apply change_none; by rewrite lookup_insert_ne].
    apply (change_voted s (CallBots id votes) id _ i v f m (append_bot_votes votes) next Hi Hv Hr (fun x => x) Hev Hm Hn).
    by rewrite lookup_insert_eq.
  - destruct (finalize_effect command now touchedAt s) as [-> | (_ & _ & _ & [Hv | (v & Hv & Hv')])].
    + by apply change_none.
    + apply change_none. by rewrite Hv.
    + rewrite Hv'. destruct (decide (FinTransition.cmd_sessionId command = id)) as [<- | Hne].
      * eapply change_touched; [done |]. by rewrite lookup_insert_eq.
      * apply change_none. by rewrite lookup_insert_ne.
  - destruct (touch_effect sid t s) as [-> | (v & Hv & ->)]; [by apply change_none |]. cbn.
    destruct (decide (sid = id)) as [-> | Hne]; [| apply change_none; by rewrite lookup_insert_ne].
    eapply change_touched; [done |]. by rewrite lookup_insert_eq.
  - destruct (count_effect now s id) as [(_ & Hv & _) | [(_ & Hv & _) Hidle]]; [by apply change_none |].
    by eapply change_expired.
Qed.

(** Only creating a session writes its identity, and only its removal takes it away. *)
Lemma call_identity c s id : identityRecords (run_store_call c s) !! id = identityRecords s !! id \/
  session_gone id (run_store_call c s) \/
  exists eid lid t, c = CallCreate id eid lid t /\
    identityRecords (run_store_call c s) !! id = Some (fst (createDefaultSessionRecords id eid lid t)) /\
    votingRecords (run_store_call c s) !! id = Some (snd (createDefaultSessionRecords id eid lid t)).
Proof.
  destruct c as [sid eid lid t | sid vote | sid votes | command now touchedAt | sid t | now]; cbn [run_store_call].
  - destruct (create_effect sid eid lid t s) as [-> | ->]; [by left |]. cbn.
    destruct (decide (sid = id)) as [-> | Hn]; [| left; by rewrite lookup_insert_ne].
    right. right. exists eid, lid, t. by rewrite !lookup_insert_eq.
  - left. by destruct (mutate_snd sid (append_user_vote vote) _ s user_write_ok)
      as [-> | (i & v & f & m & next & intents & Hi & Hv & Hr & Hev & Hm & Hn & ->)].
  - left. by destruct (mutate_snd sid (append_bot_votes votes) _ s bot_write_ok)
      as [-> | (i & v & f & m & next & intents & Hi & Hv & Hr & Hev & Hm & Hn & ->)].
  - left. by destruct (finalize_effect command now touchedAt s) as [-> | (_ & -> & _)].
  - left. by destruct (touch_effect sid t s) as [-> | (v & _ & ->)].
  - destruct (count_effect now s id) as [(Hi & _) | [Hg _]]; [by left | by right; left].
Qed.

(** ** Sessions of the store *)

Definition store_in_order (s : MockSessionStore) : Prop := forall id i v,
  identityRecords s !! id = Some i -> votingRecords s !! id = Some v -> session_ok i v.

Lemma touched_ok i t v : session_ok i v -> session_ok i (touched t v).
Proof. intros []. by split. Qed.

Lemma call_in_order c s : store_in_order s -> call_typed c -> store_in_order (run_store_call c s).
Proof.
  intros Hs Hc id i v Hi Hv.
  destruct (call_identity c s id) as [Hsame | [(Hgone & _) | (eid & lid & t & -> & Hi' & Hv')]]; cycle 1.
  { by rewrite Hi in Hgone. }
  { rewrite Hi in Hi'. rewrite Hv in Hv'. injection Hi' as ->. injection Hv' as ->. apply session_new. }
  rewrite Hsame in Hi. assert (Hch := call_change c s id). rewrite Hv in Hch.
  destruct Hch as [Ho | eid lid t -> Ho | v0 t Hv0 Ho | now _ _ Ho | i0 v0 f m command next Hi0 Hv0 Hr Hty Hev Hm -> Ho].
  - by eapply Hs.
  - destruct (create_effect id eid lid t s) as [Es | Es]; cbn [run_store_call] in *; rewrite Es in *; [by eapply Hs |].
    cbn in Hsame. rewrite lookup_insert_eq in Hsame. rewrite Hi in Hsame. injection Hsame as <-.
    injection Ho as ->. apply session_new.
  - injection Ho as ->. apply touched_ok. by eapply Hs.
  - done.
  - injection Ho as ->. assert (i0 = i) as -> by congruence.
    apply (session_step _ _ _ _ _ _ (Hs _ _ _ Hi Hv0) (Hty Hc) Hev).
Qed.

Lemma calls_in_order cs : forall s, store_in_order s -> Forall call_typed cs ->
  store_in_order (fold_left (fun s c => run_store_call c s) cs s).
Proof.
  induction cs as [| c cs IH]; intros s Hs Hcs; cbn [fold_left]; [done |].
  apply Forall_cons in Hcs as [Hc Hcs]. apply IH; [by apply call_in_order | done].
Qed.

(** Whatever calls the in-memory store gets, every session of it stays in
    order: nothing cast, or the vote of the user first and at most 63 bots; the
    log of the session is the one of its identity and holds exactly the
    commitments of the stored votes, in the order of their consecutive indices;
    every stored commitment is the one of the stored opening. *)
Theorem mock_sessions_in_order cs id i v :
  Forall call_typed cs ->
  let s := fold_left (fun s c => run_store_call c s) cs empty_store in
  identityRecords s !! id = Some i -> votingRecords s !! id = Some v ->
  (vr_userParticipation v = not_cast /\ vr_votes v = [] \/
   vr_userParticipation v = cast (NInt 0) /\ zlength (vr_votes v) = vr_botCount v + 1) /\
  0 <= vr_botCount v <= BOT_COUNT /\ getLogId (vr_bulletin v) = id_logId i /\
  map fst (vr_votes v) = count_from 0 (length (vr_votes v)) /\
  commitments (vr_bulletin v) = map (fun e => appended (sv_commit e.2)) (vr_votes v) /\
  Forall (fun e => computeCommitment (id_electionId i) (choice_code (sv_vote e.2)) (sv_rand e.2) = Ok (sv_commit e.2))
    (vr_votes v).
Proof.
  intros Hcs s Hi Hv. assert (Hs : store_in_order s) by (apply calls_in_order; [intros ? ? ?; done | done]).
  specialize (Hs _ _ _ Hi Hv). split_and!; [| apply Hs | apply Hs | apply Hs | apply Hs | apply Hs |].
  - assert (Hu := so_user _ _ Hs). destruct (vr_userParticipation v) as [| k]; [by left; destruct Hu |].
    destruct Hu as [-> Hu]. by right.
  - apply Forall_lookup. intros k [n vote] Hk. apply (lo_votes _ _ _ _ (so_log _ _ Hs) _ _ _ Hk).
Qed.

(** ** Finalized sessions *)

Lemma finalized_no_append {F} env i v (f : F) command m :
  evaluateSessionVoteMutation env (mkAuthority i v (Some f)) command = Ok (Accepted m) ->
  exists r, m = user_vote_replayed r.
Proof.
  unfold evaluateSessionVoteMutation. cbn [sa_finalization is_some]. intros E.
  apply bind_Ok in E as (replay & _ & E). destruct replay; try done. unfold replayed in E.
  apply bind_Ok in E as (p & _ & E). destruct p; [| done]. apply bind_Ok in E as (path & _ & E). injection E as <-.
  by eexists.
Qed.

Definition finalization_started (id : string) (s : MockSessionStore) : Prop :=
  exists fid, currentFinalizationIdBySession s !! id = Some fid /\ fid <> EmptyString.

Lemma started_reads id s f : finalization_started id s -> readMappedFinalization id s = Ok f -> exists r, f = Some r.
Proof.
  intros (fid & Hf & Hne). unfold readMappedFinalization. rewrite Hf. destruct fid; [done |].
  destruct (_ ≫= _) as [r |]; [| done]. destruct (_ || _); [done |]. intros [= <-]. by eexists.
Qed.

Lemma started_kept c s id : finalization_started id s ->
  finalization_started id (run_store_call c s) \/
  session_gone id (run_store_call c s) /\ exists now, c = CallCount now /\ idle_session id now s.
Proof.
  intros (fid & Hf & Hne).
  destruct c as [sid eid lid t | sid vote | sid votes | command now touchedAt | sid t | now]; cbn [run_store_call].
  - left. destruct (create_effect sid eid lid t s) as [-> | ->]; by exists fid.
  - left. destruct (mutate_snd sid (append_user_vote vote) _ s user_write_ok)
      as [-> | (i & v & f & m & next & intents & _ & _ & _ & _ & _ & _ & ->)]; by exists fid.
  - left. destruct (mutate_snd sid (append_bot_votes votes) _ s bot_write_ok)
      as [-> | (i & v & f & m & next & intents & _ & _ & _ & _ & _ & _ & ->)]; by exists fid.
  - left. destruct (finalize_effect command now touchedAt s) as [-> | (Hsafe & _ & Hcur & _)]; [by exists fid |].
    unfold finalization_started. rewrite Hcur. destruct (decide (FinTransition.cmd_sessionId command = id)) as [<- | Hn].
    + rewrite lookup_insert_eq. eexists. split; [done |]. intros E. by rewrite E in Hsafe.
    + rewrite lookup_insert_ne by done. by exists fid.
  - left. destruct (touch_effect sid t s) as [-> | (v & _ & ->)]; by exists fid.
  - destruct (count_effect now s id) as [(_ & _ & Hc) | [Hg Hi]]; [left | right; split; [done | by exists now]].
    exists fid. by rewrite Hc.
Qed.

(** What of a voting record the log is made of. *)
Definition log_part (v : VotingRecord) :=
  (vr_votes v, vr_bulletin v, vr_bulletinRootHistory v, vr_botCount v, vr_userParticipation v).

Lemma frozen_call c s id : finalization_started id s -> (forall eid lid t, c <> CallCreate id eid lid t) ->
  finalization_started id (run_store_call c s) /\
    log_part <$> votingRecords (run_store_call c s) !! id = log_part <$> votingRecords s !! id \/
  session_gone id (run_store_call c s) /\ exists now, c = CallCount now /\ idle_session id now s.
Proof.
  intros Hf Hc. destruct (started_kept c s id Hf) as [Hf' | Hg]; [left; split; [done |] | by right].
  destruct (call_change c s id) as [-> | eid lid t E _ | v t Hv -> | now E _ Hn | i v f m command next Hi Hv Hr _ Hev Hm _ _].
  - done.
  - by destruct (Hc eid lid t).
  - by rewrite Hv.
  - subst c. destruct (count_effect now s id) as [(_ & Hv & _) | [(_ & _ & Hg) _]]; cbn [run_store_call] in *; [by rewrite Hv |].
    destruct Hf' as (fid & Hf' & _). congruence.
  - destruct (started_reads _ _ _ Hf Hr) as [r ->]. destruct (finalized_no_append _ _ _ _ _ _ Hev) as [res ->].
    by destruct (Hm res).
Qed.

(** A session that was removed does not come back by itself. *)
Lemma gone_kept c s id : session_gone id s -> (forall eid lid t, c <> CallCreate id eid lid t) ->
  session_gone id (run_store_call c s).
Proof.
  intros (Hi & Hv & Hf) Hc. split_and!.
  - destruct (call_identity c s id) as [-> | [(Hg & _) | (eid & lid & t & E & _)]]; [done | done | by destruct (Hc eid lid t)].
  - destruct (call_change c s id) as [-> | eid lid t E _ | v t Hv' _ | now _ _ -> | i v f m command next Hi' _ _ _ _ _ _ _];
      [done | by destruct (Hc eid lid t) | congruence | done | congruence].
  - destruct c as [sid eid lid t | sid vote | sid votes | command now touchedAt | sid t | now]; cbn [run_store_call].
    + by destruct (create_effect sid eid lid t s) as [-> | ->].
    + by destruct (mutate_snd sid (append_user_vote vote) _ s user_write_ok)
        as [-> | (i & v & f & m & next & intents & _ & _ & _ & _ & _ & _ & ->)].
    + by destruct (mutate_snd sid (append_bot_votes votes) _ s bot_write_ok)
        as [-> | (i & v & f & m & next & intents & _ & _ & _ & _ & _ & _ & ->)].
    + destruct (decide (FinTransition.cmd_sessionId command = id)) as [<- | Hn].
      * unfold applyFinalizationCommand. cbv zeta. unfold mbind at 1, SM_bind at 1, requireIdentity, admitted_identity. by rewrite Hi.
      * destruct (finalize_effect command now touchedAt s) as [-> | (_ & _ & Hcur & _)]; [done |].
        by rewrite Hcur, lookup_insert_ne.
    + by destruct (touch_effect sid t s) as [-> | (v & _ & ->)].
    + destruct (count_effect now s id) as [(_ & _ & ->) | [(_ & _ & ->) _]]; done.
Qed.

Definition run_calls (cs : list store_call) (s : MockSessionStore) : MockSessionStore :=
  fold_left (fun s c => run_store_call c s) cs s.

Lemma gone_calls cs id : forall s, session_gone id s -> Forall (fun c => forall eid lid t, c <> CallCreate id eid lid t) cs ->
  session_gone id (run_calls cs s).
Proof.
  induction cs as [| c cs IH]; intros s Hs Hcs; [done |]. apply Forall_cons in Hcs as [Hc Hcs].
  apply (IH (run_store_call c s)); [by apply gone_kept | done].
Qed.

(** C19: Once an attempt to finalize a session was recorded, no method of the store
    that writes sessions changes its votes, its log or its history any more, whatever
    becomes of the attempt. The one exception takes the whole session away: the count
    of the active sessions removes one whose last activity is more than five minutes
    ago, and it stays away (a new session draws another random identifier, which is
    what the hypothesis on the calls says). *)
Theorem votes_frozen_after_finalization cs id s :
  finalization_started id s ->
  Forall (fun c => forall eid lid t, c <> CallCreate id eid lid t) cs ->
  let s' := run_calls cs s in
  finalization_started id s' /\ log_part <$> votingRecords s' !! id = log_part <$> votingRecords s !! id \/
  session_gone id s' /\
    exists before now after, cs = before ++ CallCount now :: after /\ idle_session id now (run_calls before s).
Proof.
  revert s. induction cs as [| c cs IH]; intros s Hf Hcs; [by left |].
  apply Forall_cons in Hcs as [Hc Hcs]. change (run_calls (c :: cs) s) with (run_calls cs (run_store_call c s)).
  destruct (frozen_call c s id Hf Hc) as [[Hf' Hsame] | [Hg (now & -> & Hi)]].
  - destruct (IH _ Hf' Hcs) as [[Hk Hv] | (Hg & before & now & after & -> & Hi)].
    + left. split; [done |]. by rewrite Hv.
    + right. split; [done |]. by exists (c :: before), now, after.
  - right. split; [by apply gone_calls |]. by exists [], now, cs.
Qed.

End store.
