(* ===== verification/SessionSamples.v ===== *)
(** A session run in the in-memory store, from its creation to its 64 votes and
    its finalization, and the witnesses of the properties of the voting policy,
    of the bots and of the store. The hash of these runs is a checksum of the
    same width as SHA-256: the properties hold for every library that keeps the
    laws of [NobleLaws], and the checksum makes runs of 64 votes cheap. *)
From S2P Require Import Prelude.
From S2P Require Import Hex.
From S2P Require Import JsNumber.
From S2P Require Import JsValue.
From S2P Require Import Contract.
From S2P Require Import Bulletin.
From S2P Require Import CtSession.
From S2P Require Import CtSessionProofs.
From S2P Require Import Reference.
From S2P Require Import FinTransition.
From S2P Require Import FinTransitionProofs.
From S2P Require Import FinSamples.
From S2P Require Import SessionVote.
From S2P Require Import SessionVoteProofs.
From S2P Require Import VoteFlow.
From S2P Require Import MockStore.
From S2P Require Import MockStoreProofs.
From S2P Require Import GuestInput.
Import JsValue.
Import Contract.
Import Bulletin.
Import CtSession.
Import SessionVote.
Import VoteFlow.
Import MockStore.

(** ** A checksum in place of the hash *)

Definition mask : Z := 18446744073709551615.

Definition checksum_value (m : bytes) : Z := fold_left (fun acc byte => Z.land (acc * 257 + byte + 1) mask) m 7.

Fixpoint low_bytes (n : nat) (z : Z) : bytes :=
  match n with O => [] | S n => Z.land z 255 :: low_bytes n (Z.shiftr z 8) end.

Lemma low_bytes_ok n z : is_bytes (low_bytes n z).
Proof.
  revert z. induction n as [| n IH]; intros z; cbn; constructor; [| apply IH].
  change 255 with (Z.ones 8). rewrite Z.land_ones by lia. apply Z.mod_pos_bound. lia.
Qed.

Lemma low_bytes_length n z : length (low_bytes n z) = n.
Proof. revert z. induction n as [| n IH]; intros z; cbn; [done |]. by rewrite IH. Qed.

#[local] Instance checksum_library : Noble := {|
  sha256 := fun m => low_bytes 32 (checksum_value m);
  bytesToHex := Reference.encode;
  hexToBytes := Reference.decode;
|}.

#[local] Instance checksum_laws : NobleLaws.
Proof.
  split.
  - intros m. apply low_bytes_ok.
  - intros m. apply low_bytes_length.
  - apply (@bytesToHex_lower Reference.library Reference.laws).
  - apply (@bytesToHex_length Reference.library Reference.laws).
  - apply (@hexToBytes_bytesToHex Reference.library Reference.laws).
  - apply (@bytesToHex_hexToBytes Reference.library Reference.laws).
  - apply (@hexToBytes_total Reference.library Reference.laws).
Qed.

(** ** Surroundings *)

Fixpoint hex_text (n : nat) (z : Z) : string :=
  match n with O => "" | S n => (hex_text n (z / 16) +:+ String (hex_digit_of (z mod 16)) "")%string end.

Definition uuid_of (z : Z) : string := ("01234567-89ab-4def-8123-" +:+ hex_text 12 z)%string.

Definition surroundings (call : nat) : Environment :=
  mkEnvironment (fun k => uuid_of (Z.of_nat call * 1000 + Z.of_nat k)) (fun k => 1000 + Z.of_nat k)
    (fun k => 2000 + k) (fun k => 3000 + k) 4000.

Definition draws (attempt k : nat) : Z * string :=
  (Z.of_nat k mod 5, hex_text 64 (1000 * Z.of_nat attempt + Z.of_nat k)).

#[local] Instance sample_store : VoteStore FinTransition.FinalizationRecord MockSessionStore :=
  mock_vote_store surroundings.
#[local] Instance sample_laws : VoteStoreLaws MockSessionStore := mock_store_laws surroundings.

(** ** The session *)

Definition sample_id : string := "session-1".
Definition sample_election : string := "01234567-89ab-4def-8123-456789abcdef".
Definition sample_vote : UserVoteCommand :=
  mkUserVote "01234567-89ab-4def-8123-456789abcdef" 5 "B" (hex_text 64 77).

Definition created : MockSessionStore := snd (mock_createSession sample_id sample_election (hex_text 64 5) 100 empty_store).
Definition sample_identity : SessionIdentityRecord :=
  fst (createDefaultSessionRecords sample_id sample_election (hex_text 64 5) 100).
Definition sample_voting : VotingRecord :=
  snd (createDefaultSessionRecords sample_id sample_election (hex_text 64 5) 100).

Example created_session : mock_look created sample_id = Some (mkView sample_identity sample_voting None).
Proof. vm_compute. reflexivity. Qed.

Lemma sample_voting_reachable : voting_reachable (F := FinTransition.FinalizationRecord) sample_identity sample_voting.
Proof. exists 100. apply rtc_refl. Qed.

Definition sample_authority : SessionVoteAuthority FinTransition.FinalizationRecord :=
  mkAuthority sample_identity sample_voting None.

Definition sample_mutation : result (Outcome SessionVoteMutation) :=
  evaluateSessionVoteMutation (surroundings 0) sample_authority (append_user_vote sample_vote).

Definition accepted_user (m : result (Outcome SessionVoteMutation)) : bool :=
  match m with Ok (Accepted (user_vote_appended _ _ _)) => true | _ => false end.

Lemma sample_accepted : accepted_user sample_mutation = true.
Proof. vm_compute. reflexivity. Qed.

Lemma accepted_parts m : accepted_user m = true ->
  exists next intents res, m = Ok (Accepted (user_vote_appended next intents res)).
Proof. destruct m as [[[next intents res | |] |] |]; try done. intros _. by exists next, intents, res. Qed.

Lemma sample_choice : uv_vote sample_vote ∈ VOTE_CHOICES.
Proof. by right; left. Qed.

Lemma session_votes_provable_witness :
  exists next intents res, sample_mutation = Ok (Accepted (user_vote_appended next intents res)) /\
    vr_userParticipation next = cast (NInt 0) /\ zlength (vr_votes next) = vr_botCount next + 1.
Proof.
  destruct (accepted_parts _ sample_accepted) as (next & intents & res & E).
  unfold sample_mutation, sample_authority in E. exists next, intents, res.
  split; [exact E |].
  assert (Hr : voting_reachable (F := FinTransition.FinalizationRecord) sample_identity next).
  { exists 100. apply rtc_once. exists None, (surroundings 0), (append_user_vote sample_vote), (user_vote_appended next intents res).
    split_and!; [exact sample_choice | exact E | reflexivity]. }
  destruct (session_votes_provable sample_identity next Hr) as ([[_ Hn] | Hc] & _); [| exact Hc].
  exfalso. destruct (user_accepted _ _ _ _ _ _ _ _ (voting_reachable_ok _ _ sample_voting_reachable) sample_choice E)
    as (_ & _ & _ & stored & Ev & _). congruence.
Defined.

Lemma guest_input_of_session_witness :
  exists next intents res input stored nodes,
    sample_mutation = Ok (Accepted (user_vote_appended next intents res)) /\ vr_votes next = [(NInt 0, stored)] /\
    GuestInput.buildZkVMInputFromSession 7 sample_identity next (GuestInput.mkBuildOptions false) = Ok input /\
    in_votes input = [mkVoteWithProof (sv_commit stored) (NInt (choice_code (sv_vote stored))) (sv_rand stored) (NInt 0)
                        (map prefixed nodes)].
Proof.
  destruct (accepted_parts _ sample_accepted) as (next & intents & res & E).
  unfold sample_mutation, sample_authority in E.
  assert (Hr : voting_reachable (F := FinTransition.FinalizationRecord) sample_identity next).
  { exists 100. apply rtc_once. exists None, (surroundings 0), (append_user_vote sample_vote), (user_vote_appended next intents res).
    split_and!; [exact sample_choice | exact E | reflexivity]. }
  destruct (user_accepted _ _ _ _ _ _ _ _ (voting_reachable_ok _ _ sample_voting_reachable) sample_choice E)
    as (_ & _ & _ & stored & Ev & _).
  assert (Hb := guest_input_of_session 7 sample_identity next (GuestInput.mkBuildOptions false) Hr).
  destruct (GuestInput.buildZkVMInputFromSession 7 sample_identity next (GuestInput.mkBuildOptions false)) as [input | e] eqn:Eb.
  2: { exfalso. destruct Hb as [[Hb _] | [[Hb _] | [[Hb _] | Hb]]]; [vm_compute in Hb; discriminate Hb .. | |].
       - by rewrite Ev in Hb.
       - vm_compute in Hb. discriminate Hb. }
  destruct Hb as (_ & _ & _ & _ & _ & _ & _ & _ & _ & Hlen & Hvotes).
  destruct (Hvotes 0%nat (NInt 0) stored) as (nodes & Hn & _); [by rewrite Ev |].
  exists next, intents, res, input, stored, nodes. split; [exact E | split; [exact Ev | split; [exact Eb |]]].
  rewrite Ev in Hlen. destruct (in_votes input) as [| w [| w2 rest]]; [done | | done]. by injection Hn as ->.
Defined.

(** The repetition carries another identifier, writes the random value with a
    prefix, and comes after the session was finalized. *)
Definition sample_retry : UserVoteCommand := mkUserVote (uuid_of 9) 6 "B" ("0x" +:+ hex_text 64 77)%string.

Lemma replay_returns_original_witness :
  exists record next intents res, sample_run [FinTransition.queue] = Some record /\
    sample_mutation = Ok (Accepted (user_vote_appended next intents res)) /\
    evaluateSessionVoteMutation (surroundings 1) (mkAuthority sample_identity next (Some record))
      (append_user_vote sample_retry) = Ok (Accepted (user_vote_replayed res)).
Proof.
  assert (Hok : is_some (sample_run [FinTransition.queue]) = true) by (vm_compute; reflexivity).
  destruct (sample_run [FinTransition.queue]) as [record |]; [| discriminate Hok].
  destruct (accepted_parts _ sample_accepted) as (next & intents & res & E).
  unfold sample_mutation, sample_authority in E. exists record, next, intents, res.
  split; [reflexivity |]. split; [exact E |].
  apply (replay_returns_original sample_identity sample_voting None (Some record) (surroundings 0) (surroundings 1)
           sample_vote next intents res next sample_retry sample_voting_reachable sample_choice E).
  - apply rtc_refl.
  - reflexivity.
  - vm_compute. reflexivity.
Defined.

Definition other_vote : UserVoteCommand := mkUserVote (uuid_of 9) 6 "C" (hex_text 64 77).

Lemma second_opening_refused_witness :
  exists next intents res, sample_mutation = Ok (Accepted (user_vote_appended next intents res)) /\
    evaluateSessionVoteMutation (surroundings 1) (mkAuthority sample_identity next (@None FinTransition.FinalizationRecord))
      (append_user_vote other_vote) =
    Ok (Refused (if bool_decide (Some (uv_voteId other_vote) ∈ map (fun e => sv_voteId e.2) (vr_votes next))
                 then DUPLICATE_VOTE "voteId" else ALREADY_VOTED)).
Proof.
  destruct (accepted_parts _ sample_accepted) as (next & intents & res & E).
  unfold sample_mutation, sample_authority in E. exists next, intents, res.
  split; [exact E |].
  destruct (user_accepted _ _ _ _ _ _ _ _ (voting_reachable_ok _ _ sample_voting_reachable) sample_choice E)
    as (_ & _ & Hcast & stored & Ev & _ & Hvote & _).
  assert (Hr : voting_reachable (F := FinTransition.FinalizationRecord) sample_identity next).
  { exists 100. apply rtc_once. exists None, (surroundings 0), (append_user_vote sample_vote), (user_vote_appended next intents res).
    split_and!; [exact sample_choice | exact E | reflexivity]. }
  apply (second_opening_refused sample_identity next None (surroundings 1) other_vote ("0x" +:+ hex_text 64 77)%string Hr).
  - rewrite Hcast. discriminate.
  - vm_compute. reflexivity.
  - rewrite Ev. constructor; [| constructor]. intros _. left. cbn. rewrite Hvote. discriminate.
Defined.

Definition sample_commitment : string :=
  match computeCommitment sample_election 1 (hex_text 64 77) with Ok c => c | Err _ => "" end.

Lemma submission_stored_witness :
  exists sub next intents res stored,
    prepareUserVoteSubmission sample_authority sample_vote sample_commitment = Ok (Accepted sub) /\
    evaluateSessionVoteMutation (surroundings 0) sample_authority (append_user_vote (ps_command sub)) =
      Ok (Accepted (user_vote_appended next intents res)) /\
    vr_votes next = [(NInt 0, stored)] /\ sv_commit stored = ps_commitment sub.
Proof.
  destruct (prepareUserVoteSubmission sample_authority sample_vote sample_commitment) as [[sub | e] | e] eqn:Ep;
    try (vm_compute in Ep; discriminate Ep).
  assert (Hok : accepted_user (evaluateSessionVoteMutation (surroundings 0) sample_authority
                                 (append_user_vote (ps_command sub))) = true)
    by (vm_compute in Ep; injection Ep as <-; vm_compute; reflexivity).
  destruct (accepted_parts _ Hok) as (next & intents & res & E).
  destruct (submission_stored sample_identity sample_voting None (surroundings 0) sample_vote sample_commitment sub
              next intents res sample_voting_reachable sample_choice Ep E) as (_ & stored & Ev & _ & _ & _ & Hc & _).
  exact (ex_intro _ sub (ex_intro _ next (ex_intro _ intents (ex_intro _ res (ex_intro _ stored
           (conj eq_refl (conj E (conj Ev Hc)))))))).
Defined.

(** ** The whole flow *)

Definition sample_submission : PreparedUserVoteSubmission := mkSubmission sample_commitment sample_vote.

Definition completed_run : result (StoreOutcome SubmissionReceipt) * MockSessionStore :=
  completeVoteSubmission sample_id draws sample_submission created.

Definition is_receipt (r : result (StoreOutcome SubmissionReceipt)) : bool :=
  match r with Ok (Stored _) => true | _ => false end.

(** The session reaches its 64 votes: every bot vote is admitted at once. *)
Lemma completed_returns : is_receipt (fst completed_run) = true.
Proof. vm_compute. reflexivity. Qed.

Lemma created_look : exists w, look (VoteStoreLaws := sample_laws) created sample_id = Some w /\ in_order w /\
  view_identity w = sample_identity.
Proof.
  exists (mkView sample_identity sample_voting None). split; [exact created_session |].
  split; [apply (session_new sample_identity 100) | reflexivity].
Qed.

Lemma completed_parts : exists receipt s', completed_run = (Ok (Stored receipt), s').
Proof.
  assert (Hr := completed_returns). destruct completed_run as [[[receipt | e] | e] s']; try discriminate Hr.
  by exists receipt, s'.
Qed.

Lemma submission_receipt_witness :
  exists receipt s' w' stored rest, completed_run = (Ok (Stored receipt), s') /\
    look (VoteStoreLaws := sample_laws) s' sample_id = Some w' /\
    vr_votes (view_voting w') = (NInt 0, stored) :: rest /\ zlength (vr_votes (view_voting w')) = 64 /\
    vc_commitment receipt = sv_commit stored.
Proof.
  destruct completed_parts as (receipt & s' & E). destruct created_look as (w & Hw & Ho & _).
  destruct (submission_receipt sample_id draws sample_submission created receipt s' w E sample_choice Hw Ho)
    as (w' & stored & rest & L & Ev & Hz & _ & _ & _ & ->).
  exact (ex_intro _ _ (ex_intro _ s' (ex_intro _ w' (ex_intro _ stored (ex_intro _ rest
           (conj E (conj L (conj Ev (conj Hz eq_refl))))))))).
Defined.

(** The bots of the same run, started on the session that has the vote of the user. *)
Lemma bots_run : exists s1 s2, snd (addVote (VoteStore := sample_store) sample_id sample_vote created) = s1 /\
  startBotVoting sample_id draws s1 = (Ok tt, s2) /\
  exists w1, look (VoteStoreLaws := sample_laws) s1 sample_id = Some w1 /\ in_order w1.
Proof.
  destruct completed_parts as (receipt & s' & E). unfold completed_run, completeVoteSubmission in E.
  apply sm_bind_Ok in E as (saved & s1 & E1 & E). destruct saved as [res | e]; [| discriminate E].
  apply sm_bind_Ok in E as ([] & s2 & E2 & _). exists s1, s2.
  split; [cbn [ps_command sample_submission] in E1; by rewrite E1 |]. split; [exact E2 |].
  destruct created_look as (w & Hw & Ho & _).
  destruct (call_moves _ _ _ _ _ _ _ (addVote_law sample_id _) E1 Hw Ho) as (w1 & w2 & w3 & L3 & M1 & O1 & HR & M3).
  exists w3. split; [exact L3 |]. destruct HR as (env & m & Hev & -> & _).
  eapply moved_order; [| exact M3]. eapply (proj1 (session_step _ _ _ _ (append_user_vote _) _ O1 sample_choice Hev)).
Qed.

Lemma bot_voting_completes_witness :
  exists s1 s2 w', startBotVoting sample_id draws s1 = (Ok tt, s2) /\
    look (VoteStoreLaws := sample_laws) s2 sample_id = Some w' /\ zlength (vr_votes (view_voting w')) = 64.
Proof.
  destruct bots_run as (s1 & s2 & _ & E & w1 & L1 & O1).
  destruct (bot_voting_completes sample_id draws s1 s2 w1 E L1 O1) as (w' & L & _ & _ & _ & Hz).
  exact (ex_intro _ s1 (ex_intro _ s2 (ex_intro _ w' (conj E (conj L Hz))))).
Defined.

(** ** The store *)

Lemma identity_round_trip_witness :
  parseSessionIdentityRecord (identity_value sample_identity) = Some sample_identity /\
  parseSessionIdentityRecord (identity_value sample_identity) = Some sample_identity.
Proof.
  assert (E : parseSessionIdentityRecord (identity_value sample_identity) = Some sample_identity)
    by (vm_compute; reflexivity).
  exact (conj E (identity_round_trip _ _ E)).
Defined.

Definition sample_calls : list store_call :=
  [CallCreate sample_id sample_election (hex_text 64 5) 100; CallVote sample_id sample_vote;
   CallBots sample_id [mkBotVote "A" (hex_text 64 1); mkBotVote "E" (hex_text 64 2)]].

Definition sample_session : MockSessionStore :=
  fold_left (fun s c => run_store_call surroundings c s) sample_calls empty_store.

Lemma sample_calls_typed : Forall call_typed sample_calls.
Proof. repeat constructor. Qed.

Lemma mock_sessions_in_order_witness :
  exists s i v, identityRecords s !! sample_id = Some i /\ votingRecords s !! sample_id = Some v /\
    length (vr_votes v) = 3%nat /\ commitments (vr_bulletin v) = map (fun e => appended (sv_commit e.2)) (vr_votes v).
Proof.
  assert (Hrun := mock_sessions_in_order surroundings sample_calls sample_id). cbv zeta in Hrun.
  assert (Hl : match votingRecords (fold_left (fun s c => run_store_call surroundings c s) sample_calls empty_store)
                 !! sample_id with
               | Some v => length (vr_votes v) = 3%nat | None => False end) by (vm_compute; reflexivity).
  assert (Hi : is_some (identityRecords (fold_left (fun s c => run_store_call surroundings c s) sample_calls empty_store)
                 !! sample_id) = true) by (vm_compute; reflexivity).
  revert Hrun Hl Hi. generalize (fold_left (fun s c => run_store_call surroundings c s) sample_calls empty_store).
  intros s Hrun Hl Hi. exists s.
  destruct (identityRecords s !! sample_id) as [i |]; [| discriminate Hi].
  destruct (votingRecords s !! sample_id) as [v |]; [| destruct Hl].
  destruct (Hrun i v sample_calls_typed eq_refl eq_refl) as (_ & _ & _ & _ & Hc & _).
  exact (ex_intro _ i (ex_intro _ v (conj eq_refl (conj eq_refl (conj Hl Hc))))).
Defined.

Definition queue_call : store_call := CallFinalize (sample_command FinTransition.queue) 2000 2001.

Definition calls_after : list store_call :=
  [CallBots sample_id [mkBotVote "C" (hex_text 64 3)]; CallTouch sample_id 2100; CallVote sample_id sample_vote].

Lemma votes_frozen_after_finalization_witness :
  log_part <$> votingRecords (run_calls surroundings calls_after (run_store_call surroundings queue_call sample_session)) !! sample_id =
  log_part <$> votingRecords (run_store_call surroundings queue_call sample_session) !! sample_id.
Proof.
  destruct (votes_frozen_after_finalization surroundings calls_after sample_id (run_store_call surroundings queue_call sample_session))
    as [[_ Hsame] | (_ & before & now & after & E & _)]; [.. | exact Hsame |].
  - assert (Hf : match currentFinalizationIdBySession (run_store_call surroundings queue_call sample_session) !! sample_id with
                 | Some fid => negb (String.eqb fid "") = true | None => False end) by (vm_compute; reflexivity).
    unfold finalization_started.
    destruct (currentFinalizationIdBySession _ !! sample_id) as [fid |]; [| destruct Hf].
    exists fid. split; [reflexivity |]. intros ->. discriminate Hf.
  - repeat constructor; intros; discriminate.
  - destruct before as [| ? [| ? [| ? before]]]; [discriminate E .. |].
    apply (f_equal (@length store_call)) in E. cbn in E. rewrite length_app in E. cbn in E. lia.
Defined.

(** A session that was left alone for more than five minutes is removed by the count,
    though it is finalized; one that was touched meanwhile is not. *)
Example idle_session_removed :
  let queued := run_store_call surroundings queue_call sample_session in
  is_some (votingRecords (run_calls surroundings [CallCount 302002] queued) !! sample_id) = false /\
  is_some (votingRecords (run_calls surroundings [CallTouch sample_id 3000; CallCount 302002] queued) !! sample_id) = true.
Proof. split; vm_compute; reflexivity. Qed.

(** Without the finalization the third bot is admitted. *)
Example open_session_grows :
  match votingRecords (run_store_call surroundings (CallBots sample_id [mkBotVote "C" (hex_text 64 3)]) sample_session)
          !! sample_id with
  | Some v => length (vr_votes v) = 4%nat | None => False end.
Proof. vm_compute. reflexivity. Qed.
