(* ===== verification/Presentation.v ===== *)
(** What the reader of a verification is shown
    (packages/verification/src/verification/verification-presentation-policy.ts):
    the display decision, the status of the four stages, the "fully verified"
    label, and the re-evaluation of published facts. A branch of the code that
    throws is a [result]. *)
From S2P Require Import Prelude.
From S2P Require Import Hex.
From S2P Require Import JsNumber.
From S2P Require Import Checks.
From S2P Require Import Summary.
From S2P Require Import LocalCast.
From S2P Require Import Contract.
From S2P Require Import Evidence.
From S2P Require Import Engine.
From S2P Require Import Steps.
Import Checks.
Import LocalCast.
Import Contract.
Import Evidence.
Import Engine.
Import Steps.
Import Summary.

Module Presentation.

(** ** Data *)

Inductive VerificationAvailability : Type := available | unavailable | corrupt.

Inductive VerificationDisplayStatus : Type := ds_verified | ds_failed | ds_warning | ds_demo_only.

Inductive VerificationDisplaySource : Type :=
| explicit_server_failure | src_summary | hard_failure | src_pending | src_unavailable | src_corrupt.

Inductive VerificationDisplayReadiness : Type := not_started | sequence_incomplete | rd_pending | ready.

(** [Exclude<VerificationDisplayStatus, 'verified'>] *)
Inductive VerificationExplicitServerFailureStatus : Type := ex_failed | ex_warning | ex_demo_only.

#[export] Instance VerificationDisplayStatus_eq_dec : EqDecision VerificationDisplayStatus.
Proof. solve_decision. Defined.
#[export] Instance VerificationDisplaySource_eq_dec : EqDecision VerificationDisplaySource.
Proof. solve_decision. Defined.
#[export] Instance VerificationDisplayReadiness_eq_dec : EqDecision VerificationDisplayReadiness.
Proof. solve_decision. Defined.

Record VerificationDisplayDecisionInput := mkDisplayInput {
  di_verificationStarted : bool;
  di_sequenceComplete : bool;
  di_hasCheckPending : bool;
  di_explicitServerFailureStatus : option VerificationExplicitServerFailureStatus;
  di_summaryTone : option VerificationSummaryTone;
  di_hasVerificationChecks : bool;
  di_hardFailureDetected : bool;
}.

(** [null] is [None]. *)
Record VerificationDisplayDecision := mkDisplay {
  readiness : VerificationDisplayReadiness;
  source : option VerificationDisplaySource;
  display_status : option VerificationDisplayStatus;
  renderedStatus : option VerificationDisplayStatus;
}.

#[export] Instance VerificationDisplayDecision_eq_dec : EqDecision VerificationDisplayDecision.
Proof. solve_decision. Defined.

Record VerificationStageStatuses := mkStages {
  ss_cast_as_intended : VerificationStepStatus;
  ss_recorded_as_cast : VerificationStepStatus;
  ss_counted_as_recorded : VerificationStepStatus;
  ss_stark_verification : VerificationStepStatus;
}.

#[export] Instance VerificationStageStatuses_eq_dec : EqDecision VerificationStageStatuses.
Proof. solve_decision. Defined.

Definition stage_of (s : VerificationStageStatuses) (id : VerificationStepId) : VerificationStepStatus :=
  match id with
  | cast_as_intended => ss_cast_as_intended s
  | recorded_as_cast => ss_recorded_as_cast s
  | counted_as_recorded => ss_counted_as_recorded s
  | stark_verification => ss_stark_verification s
  end.

(** The optional flags that default to true are given with their default. *)
Record VerificationPresentationPolicyInput := mkPolicyInput {
  pi_availability : VerificationAvailability;
  pi_checks : option (list VerificationCheck);
  pi_context : option VerificationSummaryContext;
  pi_verificationStatus : option VerificationStatus;
  pi_verificationReportStatus : option VerificationStatus;
  pi_explicitServerFailureStatus : option VerificationExplicitServerFailureStatus;
  pi_verificationStarted : option bool;
  pi_sequenceComplete : option bool;
}.

Record VerificationPresentationPolicyResult := mkPolicy {
  po_summary : option VerificationSummaryResult;
  stageStatuses : VerificationStageStatuses;
  evidenceFullyVerified : bool;
  fullyVerifiedLabelEligible : bool;
  display : VerificationDisplayDecision;
  publishedTallyMismatch : bool;
  po_devModeEvidence : bool;
  missingEvidence : bool;
  explanationKey : option string;
}.

(** One number per choice, in the order of [VOTE_CHOICES]. *)
Record VoteCounts := mkCounts { count_A : num; count_B : num; count_C : num; count_D : num; count_E : num }.

Definition count_list (c : VoteCounts) : list num := [count_A c; count_B c; count_C c; count_D c; count_E c].

Definition count_of (c : VoteCounts) (choice : string) : option num :=
  (list_to_map (zip VOTE_CHOICES (count_list c)) : gmap string num) !! choice.

(** ** The display *)

Definition SUMMARY_TONE_TO_DISPLAY_STATUS (t : VerificationSummaryTone) : VerificationDisplayStatus :=
  match t with
  | tone_verified => ds_verified | tone_demo => ds_demo_only
  | tone_warning => ds_warning | tone_failed => ds_failed
  end.

Definition explicit_display (s : VerificationExplicitServerFailureStatus) : VerificationDisplayStatus :=
  match s with ex_failed => ds_failed | ex_warning => ds_warning | ex_demo_only => ds_demo_only end.

Definition resolveDisplayReadiness (verificationStarted sequenceComplete hasCheckPending : bool) :
    VerificationDisplayReadiness :=
  if negb verificationStarted then not_started
  else if negb sequenceComplete then sequence_incomplete
  else if hasCheckPending then rd_pending else ready.

(** [renderedStatus: readiness === 'ready' ? status : null] *)
Definition rendered (r : VerificationDisplayReadiness) (s : option VerificationDisplayStatus) :
    option VerificationDisplayStatus :=
  match r with ready => s | _ => None end.

Definition resolveVerificationDisplayDecision (input : VerificationDisplayDecisionInput) :
    VerificationDisplayDecision :=
  let '(src, st) :=
    match di_explicitServerFailureStatus input with
    | Some s => (Some explicit_server_failure, Some (explicit_display s))
    | None =>
        if di_hasVerificationChecks input && di_hardFailureDetected input &&
           negb (bool_decide (di_summaryTone input = Some tone_failed))
        then (Some hard_failure, Some ds_failed)
        else
          match di_summaryTone input with
          | Some t => (Some src_summary, Some (SUMMARY_TONE_TO_DISPLAY_STATUS t))
          | None =>
              if di_hasVerificationChecks input && di_hasCheckPending input
              then (Some src_pending, Some ds_warning) else (None, None)
          end
    end in
  let r := resolveDisplayReadiness (di_verificationStarted input) (di_sequenceComplete input)
             (di_hasCheckPending input) in
  mkDisplay r src st (rendered r st).

Definition isFullyVerifiedDisplayDecision (d : VerificationDisplayDecision) : bool :=
  bool_decide (renderedStatus d = Some ds_verified).

Definition areAllVerificationStagesSuccessful (s : VerificationStageStatuses) : bool :=
  forallb (fun id => bool_decide (stage_of s id = st_success)) VERIFICATION_STEP_IDS.

(** ** Server steps *)

Record ServerStep := mkServerStep {
  sv_id : VerificationStepId;
  sv_inputs : option (list string);
  sv_error : option string;
}.

Record PresentedStep := mkPresented {
  ps_id : VerificationStepId;
  ps_status : VerificationStepStatus;
  ps_inputs : list string;
  ps_error : option string;
}.

(** [new Map(...)]: the last step of an identifier is the one that is kept. *)
Definition server_step (steps : list ServerStep) (id : VerificationStepId) : option ServerStep :=
  last (List.filter (fun s => bool_decide (sv_id s = id)) steps).

Definition projectVerificationPresentationSteps (steps : list ServerStep)
    (policy : VerificationPresentationPolicyResult) : list PresentedStep :=
  map (fun id =>
    let serverStep := server_step steps id in
    mkPresented id (stage_of (stageStatuses policy) id)
      (default (getVerificationStepInputs id) (serverStep ≫= sv_inputs)) (nonempty (serverStep ≫= sv_error)))
    VERIFICATION_STEP_IDS.

(** ** Stages *)

Definition HARD_FAILURE_CHECK_IDS : list VerificationCheckId :=
  [recorded_consistency_proof; counted_missing_indices_zero; counted_expected_vs_tree_size;
   counted_election_manifest_consistent; counted_close_statement_consistent; stark_receipt_verify].

Definition EXPLICIT_PROOF_FAILURE_CHECK_IDS : list VerificationCheckId :=
  [stark_image_id_match; stark_receipt_verify].

Definition resolveWorstStatus (left right : VerificationStepStatus) : VerificationStepStatus :=
  if Z.ltb (STATUS_PRIORITY left) (STATUS_PRIORITY right) then right else left.

(** [results.set(id, ...)] on the map of the results. *)
Fixpoint results_set (results : Results) (id : VerificationCheckId) (r : CheckResult) : Results :=
  match results with
  | [] => [(id, r)]
  | (i, x) :: rest => if bool_decide (i = id) then (i, r) :: rest else (i, x) :: results_set rest id r
  end.

Definition add_check_result (results : Results) (c : VerificationCheck) : Results :=
  match definition_by_id (check_id c) with
  | None => results
  | Some d =>
      results_set results (def_id d)
        (of_status (match checks_get results (def_id d) with
                    | Some current => resolveWorstStatus (result_status current) (status c)
                    | None => status c
                    end))
  end.

Definition buildCheckResultMap (checks : list VerificationCheck) : Results :=
  fold_left add_check_result checks [].

Definition deriveStageStatuses (checks : list VerificationCheck) (sthSourcesConfigured : bool) :
    VerificationStageStatuses :=
  let results := buildCheckResultMap checks in
  let stage id :=
    deriveStageStatusFromChecks results (getVerificationRequiredCheckIdsForStep id sthSourcesConfigured) in
  mkStages (stage cast_as_intended) (stage recorded_as_cast) (stage counted_as_recorded) (stage stark_verification).

Definition hasSameStageStatuses (left right : VerificationStageStatuses) : bool :=
  forallb (fun id => bool_decide (stage_of left id = stage_of right id)) VERIFICATION_STEP_IDS.

(** [checks.find((check) => check.id === id)] *)
Definition find_check (checks : list VerificationCheck) (id : VerificationCheckId) : option VerificationCheck :=
  find (fun c => String.eqb (check_id c) (check_id_string id)) checks.

Definition has_status (checks : list VerificationCheck) (id : VerificationCheckId) (s : VerificationStepStatus) : bool :=
  existsb (fun c => String.eqb (check_id c) (check_id_string id) && bool_decide (status c = s)) checks.

Definition resolveEffectiveSthSourcesConfigured (checks : list VerificationCheck)
    (expectedStageStatuses : VerificationStageStatuses) : bool :=
  let withoutConfiguredSth := deriveStageStatuses checks false in
  match find_check checks recorded_sth_third_party with
  | Some c => negb (bool_decide (status c = st_not_run))
  | None => false
  end ||
  negb (bool_decide (ss_recorded_as_cast expectedStageStatuses = ss_recorded_as_cast withoutConfiguredSth)).

(** ** The policy *)

Definition hasFailedCheck (checks : list VerificationCheck) (ids : list VerificationCheckId) : bool :=
  existsb (fun c => existsb (fun id => String.eqb (check_id c) (check_id_string id)) ids &&
                    bool_decide (status c = st_failed)) checks.

Definition hasFailClosedExclusionSignal (context : VerificationSummaryContext) : bool :=
  let definedCounts :=
    opt_list (missingSlots context) ++ opt_list (invalidPresentedSlots context) ++ opt_list (excludedSlots context) in
  if existsb (fun value => negb (isSafeInteger value) || num_ltb value (NInt 0)) definedCounts then true
  else if existsb (fun value => num_ltb (NInt 0) value) definedCounts then true
  else
    match missingSlots context, invalidPresentedSlots context, excludedSlots context with
    | Some missing, Some invalid, Some excluded => negb (num_eqb excluded (num_add missing invalid))
    | _, _, _ => false
    end.

Definition hasHardFailure (checks : list VerificationCheck) (context : VerificationSummaryContext) : bool :=
  if hasFailClosedExclusionSignal context then true
  else if hasFailedCheck checks HARD_FAILURE_CHECK_IDS then true
  else flag (sthSourcesConfigured context) && has_status checks recorded_sth_third_party st_failed.

Definition hasSuccessfulProofChecks (checks : list VerificationCheck) : bool :=
  let imageIdChecks :=
    List.filter (fun c => String.eqb (check_id c) (check_id_string stark_image_id_match)) checks in
  has_status checks stark_receipt_verify st_success &&
  (match imageIdChecks with [] => true | _ => false end ||
   existsb (fun c => bool_decide (status c = st_success)) imageIdChecks).

Definition resolvePresentationVerificationStatus (verificationStatus verificationReportStatus : option VerificationStatus) :
    option VerificationStatus :=
  match verificationStatus with
  | Some vs_running | Some vs_not_run => verificationStatus
  | _ => coalesce verificationReportStatus verificationStatus
  end.

Definition hasExplicitProofFailure (checks : list VerificationCheck)
    (verificationStatus verificationReportStatus : option VerificationStatus) : bool :=
  if bool_decide (verificationReportStatus = Some vs_failed) || hasFailedCheck checks EXPLICIT_PROOF_FAILURE_CHECK_IDS
  then true
  else
    let proofSucceeded :=
      bool_decide (verificationReportStatus = Some vs_success) ||
      bool_decide (verificationReportStatus = Some vs_dev_mode) || hasSuccessfulProofChecks checks in
    bool_decide (resolvePresentationVerificationStatus verificationStatus verificationReportStatus = Some vs_failed) &&
    negb proofSucceeded.

Definition deriveUnavailableDisplay (is_corrupt : bool) (input : VerificationPresentationPolicyInput) :
    VerificationDisplayDecision :=
  let r := resolveDisplayReadiness (default true (pi_verificationStarted input))
             (default true (pi_sequenceComplete input)) false in
  if is_corrupt then mkDisplay r (Some src_corrupt) (Some ds_failed) (rendered r (Some ds_failed))
  else mkDisplay r (Some src_unavailable) (Some ds_warning) (rendered r (Some ds_warning)).

Definition NOT_RUN_STAGE_STATUSES : VerificationStageStatuses := mkStages st_not_run st_not_run st_not_run st_not_run.

Definition hasDevelopmentPresentationEvidence (input : VerificationPresentationPolicyInput)
    (checks : list VerificationCheck) : bool :=
  flag (pi_context input ≫= devModeEvidence) ||
  bool_decide (pi_verificationStatus input = Some vs_dev_mode) ||
  bool_decide (pi_verificationReportStatus input = Some vs_dev_mode) ||
  existsb (fun c => bool_decide (evidence c = ev_demo)) checks.

Definition hasCheckPending (checks : list VerificationCheck) : bool :=
  existsb (fun c => isInProgress (status c)) checks.

Definition deriveAvailableDisplay (input : VerificationPresentationPolicyInput) (checks : list VerificationCheck)
    (sum : option VerificationSummaryResult) (hardFailureDetected : bool)
    (explicitServerFailureStatus : option VerificationExplicitServerFailureStatus) : VerificationDisplayDecision :=
  resolveVerificationDisplayDecision
    (mkDisplayInput (default true (pi_verificationStarted input)) (default true (pi_sequenceComplete input))
       (hasCheckPending checks) explicitServerFailureStatus (tone <$> sum) (Z.ltb 0 (zlength checks))
       hardFailureDetected).

Definition hasFullyVerifiedSummaryEvidence (sum : option VerificationSummaryResult) (hardFailureDetected : bool)
    (explicitServerFailureStatus : option VerificationExplicitServerFailureStatus) : bool :=
  match sum with
  | Some r => bool_decide (summary r = fully_verified) && bool_decide (tone r = tone_verified)
  | None => false
  end && negb hardFailureDetected && negb (is_some explicitServerFailureStatus).

Definition deriveIneligiblePresentationPolicy (sum : option VerificationSummaryResult)
    (stages : VerificationStageStatuses) (evidence_fully : bool) (d : VerificationDisplayDecision)
    (dev_mode : bool) : result VerificationPresentationPolicyResult :=
  if isFullyVerifiedDisplayDecision d
  then throw "Verification presentation policy derived contradictory fully verified facts"
  else
    Ok (mkPolicy sum stages evidence_fully false d (bool_decide (summary <$> sum = Some published_tally_mismatch)) dev_mode
          (bool_decide (sum = None \/ summary <$> sum = Some missing_evidence)) (nonempty (sum ≫= messageKey))).

(** [{ ...input.context, devModeEvidence }] *)
Definition with_dev_mode (context : option VerificationSummaryContext) (dev_mode : bool) : VerificationSummaryContext :=
  mkSummaryContext (context ≫= missingSlots) (context ≫= invalidPresentedSlots) (context ≫= rejectedRecords)
    (context ≫= excludedSlots) (context ≫= sthSourcesConfigured) (Some dev_mode).

Definition deriveVerificationPresentationPolicy (input : VerificationPresentationPolicyInput) :
    result VerificationPresentationPolicyResult :=
  let checks := default [] (pi_checks input) in
  let dev_mode := hasDevelopmentPresentationEvidence input checks in
  let unavailable_policy is_corrupt :=
    Ok (mkPolicy None NOT_RUN_STAGE_STATUSES false false (deriveUnavailableDisplay is_corrupt input) false dev_mode
          true None) in
  match pi_availability input with
  | unavailable => unavailable_policy false
  | corrupt => unavailable_policy true
  | available =>
      let context := with_dev_mode (pi_context input) dev_mode in
      let sum := deriveVerificationSummary (Some checks) (Some context) in
      let hardFailureDetected := hasHardFailure checks context in
      let explicitServerFailureStatus :=
        coalesce (pi_explicitServerFailureStatus input)
          (if hasExplicitProofFailure checks (pi_verificationStatus input) (pi_verificationReportStatus input)
           then Some ex_failed else None) in
      let d := deriveAvailableDisplay input checks sum hardFailureDetected explicitServerFailureStatus in
      let evidence_fully := hasFullyVerifiedSummaryEvidence sum hardFailureDetected explicitServerFailureStatus in
      let stages := deriveStageStatuses checks (flag (sthSourcesConfigured context)) in
      if evidence_fully && isFullyVerifiedDisplayDecision d && areAllVerificationStagesSuccessful stages && negb dev_mode
      then Ok (mkPolicy sum stages true true (mkDisplay ready (Some src_summary) (Some ds_verified) (Some ds_verified))
                 false false false None)
      else deriveIneligiblePresentationPolicy sum stages evidence_fully d dev_mode
  end.

End Presentation.

(** * What the presentation of a verification promises: the policy always gives an
    answer, and the "fully verified" label is given exactly to the evidence that
    deserves it. *)
Import Presentation.

#[local] Opaque VERIFICATION_CHECK_DEFINITIONS.

(** ** The map of worst statuses *)

Definition worst_of (current : option VerificationStepStatus) (s : VerificationStepStatus) :
    option VerificationStepStatus :=
  Some (match current with Some c => Presentation.resolveWorstStatus c s | None => s end).

(** The statuses listed for an identifier, in order. *)
Definition statuses_of (cs : list VerificationCheck) (id : VerificationCheckId) : list VerificationStepStatus :=
  map status (List.filter (fun c => String.eqb (check_id c) (check_id_string id)) cs).

Lemma of_status_result s : result_status (of_status s) = s.
Proof. by destruct s. Qed.

Lemma results_set_get results id r i :
  checks_get (results_set results id r) i = if bool_decide (i = id) then Some r else checks_get results i.
Proof.
  induction results as [| [j x] results IH]; cbn [results_set checks_get].
  - by rewrite (bool_decide_ext (id = i) (i = id)).
  - destruct (bool_decide_reflect (j = id)) as [-> | Hj]; cbn [checks_get].
    + rewrite (bool_decide_ext (id = i) (i = id)) by done. by case_bool_decide.
    + rewrite IH. case_bool_decide as E1; case_bool_decide as E2; congruence.
Qed.

Lemma definition_of_id id : exists d, definition_by_id (check_id_string id) = Some d /\ def_id d = id.
Proof.
  destruct (every_id_defined id) as (d & Hd & <-). exists d. split; [| done]. by apply definition_by_id_spec.
Qed.

Lemma add_check_get results c id :
  result_status <$> checks_get (add_check_result results c) id =
  if String.eqb (check_id c) (check_id_string id)
  then worst_of (result_status <$> checks_get results id) (status c)
  else result_status <$> checks_get results id.
Proof.
  unfold add_check_result. destruct (String.eqb_spec (check_id c) (check_id_string id)) as [E | E].
  - rewrite E. destruct (definition_of_id id) as (d & -> & Hd). rewrite Hd, results_set_get, bool_decide_eq_true_2 by done.
    cbn. rewrite of_status_result. by destruct (checks_get results id).
  - destruct (definition_by_id (check_id c)) as [d |] eqn:Ed; [| done].
    apply definition_by_id_spec in Ed as [_ Ed]. rewrite results_set_get, bool_decide_eq_false_2; [done |].
    intros ->. congruence.
Qed.

Lemma result_map_get cs id : forall results,
  result_status <$> checks_get (fold_left add_check_result cs results) id =
  fold_left worst_of (statuses_of cs id) (result_status <$> checks_get results id).
Proof.
  unfold statuses_of. induction cs as [| c cs IH]; intros results; [done |]. cbn [fold_left List.filter].
  rewrite IH, add_check_get. by destruct (String.eqb _ _).
Qed.

Lemma worst_success l : forall o, fold_left worst_of l o = Some st_success <->
  (o = None \/ o = Some st_success) /\ (l <> [] \/ o <> None) /\ forall s, s ∈ l -> s = st_success.
Proof.
  induction l as [| x l IH]; intros o; cbn [fold_left].
  - split.
    + intros ->. split_and!; [by right | by right |]. by intros s []%elem_of_nil.
    + intros (Ho & [|Hn] & _); [done |]. by destruct Ho.
  - rewrite IH. setoid_rewrite elem_of_cons. split.
    + intros (Ho & _ & Hl). assert (Hx : o = None \/ o = Some st_success).
      { unfold worst_of in Ho. destruct o as [c |]; [| by left]. right. destruct Ho as [| Ho]; [done |].
        injection Ho as Ho. unfold Presentation.resolveWorstStatus in Ho. by destruct c, x. }
      split_and!; [done | by left |]. intros s [-> | Hs]; [| by apply Hl].
      destruct Ho as [Ho | Ho]; [done |]. injection Ho as Ho. destruct Hx as [-> | ->]; [done |]. by destruct x.
    + intros (Ho & _ & Hl). assert (x = st_success) as -> by (apply Hl; by left).
      split_and!; [right; by destruct Ho as [-> | ->] | by right | intros s Hs; apply Hl; by right].
Qed.

(** A check of the map succeeded: it is listed, and every entry succeeded. *)
Lemma map_success cs id : status_of (buildCheckResultMap cs) id = st_success <->
  statuses_of cs id <> [] /\ forall s, s ∈ statuses_of cs id -> s = st_success.
Proof.
  assert (E := result_map_get cs id []). unfold status_of, buildCheckResultMap.
  destruct (checks_get (fold_left add_check_result cs []) id) as [r |]; cbn in E.
  - split.
    + intros Hr. rewrite Hr in E. symmetry in E. apply worst_success in E as (_ & [? |] & ?); done.
    + intros [Hn Hs]. assert (Hw : fold_left worst_of (statuses_of cs id) None = Some st_success)
        by (apply worst_success; split_and!; [by left | by left | done]). congruence.
  - split; [done |]. intros [Hn Hs]. assert (Hw : fold_left worst_of (statuses_of cs id) None = Some st_success)
      by (apply worst_success; split_and!; [by left | by left | done]). congruence.
Qed.

(** ** Stages of a fully verified list *)

Lemma stages_success cs sth :
  areAllVerificationStagesSuccessful (deriveStageStatuses cs sth) = true <->
  forall id step, id ∈ getVerificationRequiredCheckIdsForStep step sth -> status_of (buildCheckResultMap cs) id = st_success.
Proof.
  assert (Hstage : forall ids, deriveStageStatusFromChecks (buildCheckResultMap cs) ids = st_success <->
            forall id, id ∈ ids -> status_of (buildCheckResultMap cs) id = st_success).
  { intros ids. assert (Hc := stage_cases (buildCheckResultMap cs) ids). split.
    - intros E. by rewrite E in Hc.
    - intros Hs. destruct (deriveStageStatusFromChecks _ ids); [| | done | |];
        (let H := fresh in assert (H : exists id, id ∈ ids /\ status_of (buildCheckResultMap cs) id <> st_success)
           by (first [destruct Hc as ((id & Hid & E) & _) | destruct Hc as (id & Hid & E)]; exists id; by rewrite E);
         destruct H as (id & Hid & E); by apply Hs in Hid). }
  unfold areAllVerificationStagesSuccessful, VERIFICATION_STEP_IDS. cbn [forallb stage_of deriveStageStatuses
    ss_cast_as_intended ss_recorded_as_cast ss_counted_as_recorded ss_stark_verification].
  rewrite andb_true_r, !andb_true_iff, !bool_decide_eq_true, !Hstage. split.
  - intros (H1 & H2 & H3 & H4) id step Hid.
    destruct step; [exact (H1 id Hid) | exact (H2 id Hid) | exact (H3 id Hid) | exact (H4 id Hid)].
  - intros H. split_and!; intros id Hid; exact (H id _ Hid).
Qed.

Lemma fully_verified_stages cs ctx : fully_verified_results cs ctx ->
  areAllVerificationStagesSuccessful (deriveStageStatuses cs (flag (ctx ≫= sthSourcesConfigured))) = true.
Proof.
  intros (_ & Hreq & Hall). apply stages_success. intros id step Hid.
  unfold getVerificationRequiredCheckIdsForStep, getVerificationRequiredCheckDefinitionsForStep,
    getVerificationAllCheckDefinitionsForStep in Hid. apply map_spec in Hid as (d & Hd & ->).
  apply filter_spec in Hd as [Hd Hr]. apply filter_spec in Hd as [Hd _].
  apply map_success. destruct (Hreq d Hd Hr) as (c & Hc & Ec). unfold statuses_of.
  assert (Hin : status c ∈ map status (List.filter (fun c => String.eqb (check_id c) (check_id_string (def_id d))) cs)).
  { apply map_spec. exists c. split; [| done]. apply filter_spec. split; [done | by apply String.eqb_eq]. }
  split; [intros E; rewrite E in Hin; by apply elem_of_nil in Hin |].
  intros s Hs. apply map_spec in Hs as (c' & Hc' & ->). apply filter_spec in Hc' as [Hc' Ec'%String.eqb_eq].
  destruct (Hall c' Hc') as (d' & Hd' & _ & Hs). rewrite Ec' in Hd'. apply definition_by_id_spec in Hd' as [Hd' Ed].
  apply check_id_string_inj in Ed. assert (d' = d) as -> by (by apply definition_unique).
  unfold isRequiredCheck in Hs. by rewrite Hr in Hs.
Qed.

(** ** The tone of the summary *)

Lemma blocking_tone e ctx r : deriveBlockingSummary e ctx = Some r -> tone r <> tone_verified.
Proof.
  unfold deriveBlockingSummary. repeat case_match; intros [= <-]; try done;
    unfold deriveExclusionSummary; by repeat case_match.
Qed.

Lemma tone_of_summary cs ctx r : deriveVerificationSummary (Some cs) ctx = Some r ->
  tone r = tone_verified <-> summary r = fully_verified.
Proof.
  rewrite derive_unfold. destruct (resolveChecks cs).1; [done |]. intros [= <-].
  destruct (deriveBlockingSummary _ _) as [b |] eqn:Eb.
  - split; intros E; exfalso; [by eapply blocking_tone | by eapply blocking_not_fully].
  - unfold deriveTerminalSummary, deriveSuccessfulEvidenceSummary. repeat case_match; done.
Qed.

(** ** The policy *)

(** The context the policy reads: the development evidence is recomputed. *)
Definition policy_context (input : VerificationPresentationPolicyInput) : VerificationSummaryContext :=
  with_dev_mode (pi_context input) (hasDevelopmentPresentationEvidence input (default [] (pi_checks input))).

Definition explicit_failure (input : VerificationPresentationPolicyInput) :
    option VerificationExplicitServerFailureStatus :=
  coalesce (pi_explicitServerFailureStatus input)
    (if hasExplicitProofFailure (default [] (pi_checks input)) (pi_verificationStatus input)
          (pi_verificationReportStatus input) then Some ex_failed else None).

(** What the label claims. *)
Record label_earned (input : VerificationPresentationPolicyInput) : Prop := {
  le_available : pi_availability input = available;
  le_results : fully_verified_results (default [] (pi_checks input)) (Some (policy_context input));
  le_hard : hasHardFailure (default [] (pi_checks input)) (policy_context input) = false;
  le_explicit : explicit_failure input = None;
  le_started : default true (pi_verificationStarted input) = true;
  le_complete : default true (pi_sequenceComplete input) = true;
  le_settled : hasCheckPending (default [] (pi_checks input)) = false;
}.

Lemma summary_needs_checks cs ctx r : deriveVerificationSummary (Some cs) ctx = Some r -> Z.ltb 0 (zlength cs) = true.
Proof. destruct cs; [done |]. intros _. unfold zlength. cbn [length]. apply Z.ltb_lt. lia. Qed.

(** The display shows "verified" exactly when the label is earned. *)
Lemma display_verified input :
  pi_availability input = available ->
  let cs := default [] (pi_checks input) in
  let ctx := policy_context input in
  isFullyVerifiedDisplayDecision
    (deriveAvailableDisplay input cs (deriveVerificationSummary (Some cs) (Some ctx)) (hasHardFailure cs ctx)
       (explicit_failure input)) = true <-> label_earned input.
Proof.
  intros Ha cs ctx. unfold deriveAvailableDisplay, resolveVerificationDisplayDecision, isFullyVerifiedDisplayDecision.
  cbn [di_explicitServerFailureStatus di_hasVerificationChecks di_hardFailureDetected di_summaryTone
       di_verificationStarted di_sequenceComplete di_hasCheckPending]. rewrite bool_decide_eq_true. split.
  - destruct (explicit_failure input) as [x |] eqn:Ex.
    { cbn [renderedStatus]. destruct (resolveDisplayReadiness _ _ _); cbn; [done .. |]. by destruct x. }
    destruct (deriveVerificationSummary (Some cs) (Some ctx)) as [r |] eqn:Er; cbn [fmap option_fmap option_map].
    2: { rewrite bool_decide_eq_false_2 by done. cbn [negb]. rewrite andb_true_r.
         destruct (Z.ltb _ _), (hasHardFailure _ _), (hasCheckPending cs); cbn [andb];
           by destruct (resolveDisplayReadiness _ _ _). }
    rewrite (summary_needs_checks _ _ _ Er). cbn [andb].
    destruct (hasHardFailure cs ctx && _) eqn:Eh.
    { cbn [renderedStatus]. by destruct (resolveDisplayReadiness _ _ _). }
    cbn [renderedStatus]. unfold resolveDisplayReadiness.
    destruct (default true (pi_verificationStarted input)) eqn:Es; [| done].
    destruct (default true (pi_sequenceComplete input)) eqn:Ec; [| done]. cbn [negb].
    destruct (hasCheckPending cs) eqn:Ep; [done |]. cbn [rendered]. intros [= Et].
    assert (Et' : tone r = tone_verified) by (by destruct (tone r)).
    split; [done | | | done ..].
    + eapply fully_verified_sound; [exact Er |]. by apply (tone_of_summary _ _ _ Er).
    + rewrite Et' in Eh. rewrite bool_decide_eq_false_2 in Eh by done. by rewrite andb_true_r in Eh.
  - intros [_ Hf Hh He Hs Hc Hp]. fold cs ctx in Hf, Hh, Hp. assert (Er := fully_verified_complete _ _ Hf).
    rewrite Er, Hh, He, Hs, Hc, Hp. cbn [fmap option_fmap option_map]. rewrite andb_false_r.
    reflexivity.
Qed.

(** The policy answers, and its label and its display say what was earned. *)
Lemma label_spec input :
  exists policy, deriveVerificationPresentationPolicy input = Ok policy /\
    (fullyVerifiedLabelEligible policy = true <-> label_earned input) /\
    (renderedStatus (display policy) = Some ds_verified <-> label_earned input) /\
    (fullyVerifiedLabelEligible policy = true -> areAllVerificationStagesSuccessful (stageStatuses policy) = true).
Proof.
  unfold deriveVerificationPresentationPolicy. destruct (pi_availability input) eqn:Ea.
  2-3: eexists; split; [done |]; cbn; split_and!; [| | done]; (split; [| by intros []; congruence]);
       [done | by unfold deriveUnavailableDisplay; destruct (resolveDisplayReadiness _ _ _)].
  set (cs := default [] (pi_checks input)). change (with_dev_mode _ _) with (policy_context input).
  change (coalesce _ _) with (explicit_failure input). set (ctx := policy_context input).
  assert (Hd := display_verified input Ea). cbv zeta in Hd. fold cs ctx in Hd.
  set (d := deriveAvailableDisplay _ _ _ _ _) in *.
  assert (Hrd : renderedStatus d = Some ds_verified <-> label_earned input)
    by (rewrite <- Hd; symmetry; apply bool_decide_eq_true).
  destruct (isFullyVerifiedDisplayDecision d) eqn:Ed.
  - destruct (proj1 Hd eq_refl) as [_ Hf Hh He _ _ _]. fold cs ctx in Hf, Hh.
    assert (Hdev := proj1 Hf). cbn [mbind option_bind] in Hdev. cbn in Hdev.
    change (flag (sthSourcesConfigured ctx)) with (flag (Some ctx ≫= sthSourcesConfigured)).
    rewrite (fully_verified_stages _ _ Hf). fold cs in Hdev. rewrite Hdev.
    assert (Hev : hasFullyVerifiedSummaryEvidence (deriveVerificationSummary (Some cs) (Some ctx)) (hasHardFailure cs ctx)
                    (explicit_failure input) = true).
    { by rewrite (fully_verified_complete _ _ Hf), Hh, He. }
    rewrite Hev. cbn [andb negb]. eexists. split; [done |].
    cbn [fullyVerifiedLabelEligible display renderedStatus stageStatuses].
    split_and!; [| | by intros _; apply (fully_verified_stages _ _ Hf)]; by rewrite <- Hd.
  - rewrite andb_false_r. cbn [andb]. unfold deriveIneligiblePresentationPolicy. rewrite Ed. eexists. split; [done |].
    cbn [fullyVerifiedLabelEligible display]. split_and!; [by rewrite <- Hd | done | done].
Qed.

(** C5: The presentation policy always gives an answer (the branch that reports
    contradictory facts is never reached), and it gives the "fully verified"
    label exactly when it was earned: the evidence is available, every required
    check is listed and succeeded without demonstration evidence, no optional
    check failed, nothing is pending, no exclusion or hard failure shows, and the
    server reported no failure. Nothing else is rendered as verified. *)
Theorem label_iff_earned input :
  exists policy, deriveVerificationPresentationPolicy input = Ok policy /\
    (fullyVerifiedLabelEligible policy = true <-> label_earned input) /\
    (renderedStatus (display policy) = Some ds_verified <-> label_earned input) /\
    (fullyVerifiedLabelEligible policy = true -> areAllVerificationStagesSuccessful (stageStatuses policy) = true).
Proof. apply label_spec. Qed.
