(* ===== verification/PublicPolicy.v ===== *)
(** The re-evaluation of what a verification publishes
    (packages/verification/src/verification/verification-presentation-policy.ts):
    the statuses that published facts decide, the checks of the verifier, the
    evidence of the voter and of the scenario, the policy recomputed from the
    published checks, and the evidence behind the "fully verified" label. *)
From S2P Require Import Prelude.
From S2P Require Import Hex.
From S2P Require Import JsNumber.
From S2P Require Import Checks.
From S2P Require Import Summary.
From S2P Require Import LocalCast.
From S2P Require Import Contract.
From S2P Require Import Evidence.
From S2P Require Import Engine.
From S2P Require Import Steps.
From S2P Require Import Presentation.
From S2P Require Import FinStorage.
Import Checks.
Import LocalCast.
Import Contract.
Import Evidence.
Import Engine.
Import Steps.
Import Summary.
Import Presentation.

Module PublicPolicy.

(** ** Data *)

(** The public proof: what the journal says, each number as published. *)
Record PublicProof := mkProof {
  pp_imageId : string;
  pp_bulletinRoot : string;
  pp_inputCommitment : string;
  pp_seenBitmapRoot : string;
  pp_includedBitmapRoot : string;
  pp_verifiedTally : VoteCounts;
  pp_missingSlots : num;
  pp_invalidPresentedSlots : num;
  pp_rejectedRecords : num;
  pp_excludedSlots : num;
  pp_totalExpected : num;
  pp_treeSize : num;
  pp_seenIndicesCount : num;
}.

Record PublicPresentation := mkPresentation {
  pn_counts : VoteCounts;
  pn_totalVotes : num;
  pn_tamperedCount : option num;
  pn_tamperDetected : option bool;
  pn_tamperSummary : option FinStorage.FinalizationTamperSummary;
}.

Record PublicReceipt := mkPublicReceipt {
  prc_voteId : string;
  prc_commitment : string;
  prc_bulletinIndex : num;
  prc_bulletinRootAtCast : string;
  prc_castAtMs : num;
  prc_inputCommitment : string;
}.

Record PublicUserVote := mkPublicVote {
  puv_voteId : string;
  puv_commitment : string;
  puv_leafIndex : num;
  puv_treeSize : num;
  puv_merklePath : list string;
  puv_bulletinRootAtCast : string;
}.

(** [{ availability: 'unavailable' }] is [None]. *)
Definition VoterEvidence : Type := option (PublicReceipt * PublicUserVote).

Record PublicReport := mkPublicReport {
  rep_status : VerificationStatus;
  rep_expected_image_id : string;
  rep_receipt_image_id : option string;
}.

(** ** The canonical list of checks *)

(** [devModeEvidence && definition.evidence === 'zk' ? 'demo' : definition.evidence] *)
Definition expected_evidence (devModeEvidence : bool) (d : VerificationCheckDefinition) : VerificationEvidence :=
  if devModeEvidence && bool_decide (def_evidence d = ev_zk) then ev_demo else def_evidence d.

Definition canonical_check (devModeEvidence : bool) (d : VerificationCheckDefinition) (c : VerificationCheck) : bool :=
  String.eqb (check_id c) (check_id_string (def_id d)) &&
  bool_decide (evidence c = expected_evidence devModeEvidence d) &&
  list_eqb (inputs c) (def_inputs d) && bool_decide (derivedFrom c = def_derivedFrom d).

Fixpoint canonical_checks (devModeEvidence : bool) (ds : list VerificationCheckDefinition)
    (checks : list VerificationCheck) : bool :=
  match ds, checks with
  | [], _ => true
  | d :: ds', c :: checks' => canonical_check devModeEvidence d c && canonical_checks devModeEvidence ds' checks'
  | _ :: _, [] => false
  end.

Definition hasCanonicalVerificationCheckEvidence (checks : list VerificationCheck) (devModeEvidence : bool) : bool :=
  Z.eqb (zlength checks) (zlength VERIFICATION_CHECK_DEFINITIONS) &&
  canonical_checks devModeEvidence VERIFICATION_CHECK_DEFINITIONS checks.

Definition projected_check (devModeEvidence : bool) (d : VerificationCheckDefinition) (c : VerificationCheck) :
    VerificationCheck :=
  mkCheck (check_id_string (def_id d)) (status c) (expected_evidence devModeEvidence d) (def_inputs d)
    (def_derivedFrom d) None.

Definition projectCanonicalVerificationChecks (checks : list VerificationCheck) (devModeEvidence : bool) :
    option (list VerificationCheck) :=
  if negb (hasCanonicalVerificationCheckEvidence checks devModeEvidence) then None
  else Some (zip_with (projected_check devModeEvidence) VERIFICATION_CHECK_DEFINITIONS checks).

(** ** Statuses that published facts decide *)

(** [new Map(checks.map(...)).get(id)]: the last entry of an identifier. *)
Definition statusById (checks : list VerificationCheck) (id : VerificationCheckId) : option VerificationStepStatus :=
  status <$> last (List.filter (fun c => String.eqb (check_id c) (check_id_string id)) checks).

Record PublicFactCheckInput := mkFacts {
  pf_checks : list VerificationCheck;
  pf_verificationStatus : VerificationStatus;
  pf_voterEvidence : VoterEvidence;
  pf_proof : PublicProof;
  pf_presentation : PublicPresentation;
}.

Definition hasCoherentCanonicalFactChecks (input : PublicFactCheckInput) : bool :=
  let statusOf := statusById (pf_checks input) in
  forallb (fun d =>
    match statusOf (def_id d) with
    | None => false
    | Some s =>
        negb (bool_decide (category d = cast_as_intended) && negb (bool_decide (s = st_not_run))) &&
        match def_derivedFrom d with
        | Some source => bool_decide (Some s = statusOf source)
        | None => true
        end
    end) VERIFICATION_CHECK_DEFINITIONS &&
  negb (existsb (fun c => negb (String.eqb (check_id c) (check_id_string counted_my_vote_included)) &&
                          is_some (noteKey c)) (pf_checks input)).

(** The status of a step and that of a verification share their texts. *)
Definition step_status_of (s : VerificationStatus) : VerificationStepStatus :=
  match s with
  | vs_success | vs_dev_mode => st_success
  | vs_failed => st_failed
  | vs_not_run => st_not_run
  | vs_running => st_running
  end.

Definition resolvePublicFactZkGate (verificationStatus : VerificationStatus)
    (starkReceiptStatus : option VerificationStepStatus) : option VerificationStepStatus :=
  match verificationStatus with
  | vs_dev_mode => if bool_decide (starkReceiptStatus = Some st_not_run) then Some st_not_run else None
  | s => resolveZkGateStatus (step_status_of s)
  end.

Definition hasCoherentUngatedMyVoteCheck (input : PublicFactCheckInput) (c : VerificationCheck) : bool :=
  match pf_voterEvidence input with
  | None =>
      let expectedNote :=
        if num_ltb (NInt 0) (pp_excludedSlots (pf_proof input)) then note_excluded else note_missingReceipt in
      bool_decide (status c = st_not_run) && bool_decide (noteKey c = Some expectedNote)
  | Some _ =>
      negb (bool_decide (noteKey c = Some note_missingReceipt) ||
            (bool_decide (status c = st_success) && is_some (noteKey c)))
  end.

Definition hasCoherentPublicMyVoteCheck (input : PublicFactCheckInput) (zkGateStatus : option VerificationStepStatus) :
    bool :=
  match find_check (pf_checks input) counted_my_vote_included with
  | None => false
  | Some c =>
      match zkGateStatus with
      | Some gate => bool_decide (status c = gate) && negb (is_some (noteKey c))
      | None => hasCoherentUngatedMyVoteCheck input c
      end
  end.

Definition fact_receipt (r : PublicReceipt) : VoteReceipt :=
  mkReceipt (prc_voteId r) (prc_commitment r) (prc_bulletinIndex r) (prc_bulletinRootAtCast r)
    (Some (prc_inputCommitment r)) (prc_castAtMs r) None.

Definition fact_vote (v : PublicUserVote) : UserVoteInput :=
  mkUserVote None None (Some (puv_commitment v)) (Some (puv_voteId v))
    (Some (mkCandidate false (Some (puv_leafIndex v)) (Some (puv_treeSize v)) (Some (map Some (puv_merklePath v)))
             (Some (puv_bulletinRootAtCast v)))).

Definition hasCoherentRecordedFactChecks `{Noble} (input : PublicFactCheckInput) : result bool :=
  let statusOf := statusById (pf_checks input) in
  match pf_voterEvidence input with
  | None =>
      Ok (negb (existsb (fun id => negb (bool_decide (statusOf id = Some st_not_run)))
                  [recorded_index_in_range; recorded_inclusion_proof; recorded_consistency_proof]))
  | Some (receipt, vote) =>
      let recordedIndexStatus :=
        result_status (resolveRecordedIndexInRange (Some (fact_receipt receipt)) (Some (pp_treeSize (pf_proof input)))) in
      if negb (bool_decide (statusOf recorded_index_in_range = Some recordedIndexStatus)) then Ok false
      else
        inclusion ← resolveRecordedInclusionProof (Some (fact_receipt receipt)) (Some (fact_vote vote));
        Ok (bool_decide (statusOf recorded_inclusion_proof = Some (result_status inclusion)))
  end.

(** The counts as the object the comparison of tallies reads. *)
Definition counts_map (c : VoteCounts) : gmap string num := list_to_map (zip VOTE_CHOICES (count_list c)).

Definition hasCoherentCountedFactChecks (input : PublicFactCheckInput) (zkGateStatus : option VerificationStepStatus) :
    bool :=
  let statusOf := statusById (pf_checks input) in
  let proof := pf_proof input in
  let shown := pf_presentation input in
  match zkGateStatus with
  | None => true
  | Some gate =>
      forallb (fun id => bool_decide (statusOf id = Some gate))
        [counted_election_manifest_consistent; counted_close_statement_consistent; counted_input_commitment_match]
  end &&
  bool_decide (statusOf counted_missing_indices_zero =
    Some (result_status (resolveCountedMissingIndicesZero None (Some (pp_missingSlots proof))
            (Some (pp_invalidPresentedSlots proof)) (Some (pp_excludedSlots proof)) zkGateStatus))) &&
  bool_decide (statusOf counted_tally_consistent =
    Some (result_status (resolveCountedTallyConsistent None
            (Some (mkTally (Some (counts_map (pn_counts shown))) (Some (pn_totalVotes shown))))
            (Some (count_list (pp_verifiedTally proof))) zkGateStatus))) &&
  bool_decide (statusOf counted_expected_vs_tree_size =
    Some (result_status (resolveCountedExpectedVsTreeSize None (Some (pp_totalExpected proof))
            (Some (pp_treeSize proof)) zkGateStatus))).

(** The evaluation of [a && b && c]: the inclusion proof is checked only when
    the check on the user's vote is coherent. *)
Definition hasCoherentPublicFactDerivedCheckStatuses `{Noble} (input : PublicFactCheckInput) : result bool :=
  if negb (hasCoherentCanonicalFactChecks input) then Ok false
  else
    let gate := resolvePublicFactZkGate (pf_verificationStatus input)
                  (statusById (pf_checks input) stark_receipt_verify) in
    if negb (hasCoherentPublicMyVoteCheck input gate) then Ok false
    else
      recorded ← hasCoherentRecordedFactChecks input;
      Ok (recorded && hasCoherentCountedFactChecks input gate).

(** ** The checks of the verifier *)

(** [report]: [Some id] with the image id of its receipt, null when [id] is. *)
Definition hasCoherentDevelopmentVerifierChecks (report : option (option string))
    (imageIdCheck receiptCheck : VerificationCheck) : bool :=
  if bool_decide (status receiptCheck = st_not_run) && bool_decide (status imageIdCheck = st_not_run) then true
  else
    let expectedImageStatus :=
      match report with None => st_not_run | Some None => st_failed | Some (Some _) => st_success end in
    bool_decide (status receiptCheck = st_success) && bool_decide (status imageIdCheck = expectedImageStatus).

Definition hasCoherentPublicVerifierChecks (checks : list VerificationCheck) (verifier_status : VerificationStatus)
    (report : option (option string)) : bool :=
  match find_check checks stark_image_id_match, find_check checks stark_receipt_verify with
  | Some imageIdCheck, Some receiptCheck =>
      match verifier_status with
      | vs_success =>
          bool_decide (status receiptCheck = st_success) &&
          bool_decide (status imageIdCheck = if is_some report then st_success else st_not_run)
      | vs_dev_mode => hasCoherentDevelopmentVerifierChecks report imageIdCheck receiptCheck
      | s => bool_decide (status imageIdCheck = step_status_of s) && bool_decide (status receiptCheck = step_status_of s)
      end
  | _, _ => false
  end.

(** ** The policy recomputed *)

Definition hasSameVerificationSummary (left right : option VerificationSummaryResult) : bool :=
  match left, right with
  | Some l, Some r =>
      bool_decide (summary l = summary r) && bool_decide (tone l = tone r) && bool_decide (messageKey l = messageKey r)
  | None, None => true
  | _, _ => false
  end.

Definition hasSameDisplayDecision (left right : VerificationDisplayDecision) : bool :=
  bool_decide (readiness left = readiness right) && bool_decide (source left = source right) &&
  bool_decide (display_status left = display_status right) && bool_decide (renderedStatus left = renderedStatus right).

Definition hasSamePresentationExplanation (derived candidate : VerificationPresentationPolicyResult) : bool :=
  Bool.eqb (publishedTallyMismatch derived) (publishedTallyMismatch candidate) &&
  Bool.eqb (po_devModeEvidence derived) (po_devModeEvidence candidate) &&
  Bool.eqb (missingEvidence derived) (missingEvidence candidate) &&
  bool_decide (explanationKey derived = explanationKey candidate).

Definition hasSamePresentationPolicy (derived candidate : VerificationPresentationPolicyResult) : bool :=
  hasSameVerificationSummary (po_summary derived) (po_summary candidate) &&
  hasSameStageStatuses (stageStatuses derived) (stageStatuses candidate) &&
  Bool.eqb (evidenceFullyVerified derived) (evidenceFullyVerified candidate) &&
  Bool.eqb (fullyVerifiedLabelEligible derived) (fullyVerifiedLabelEligible candidate) &&
  hasSameDisplayDecision (display derived) (display candidate) &&
  hasSamePresentationExplanation derived candidate.

(** [{ ...proof, sthSourcesConfigured }]; the flag of development evidence is
    not part of a public proof. *)
Definition policy_input (checks : list VerificationCheck) (proof : VerificationSummaryContext)
    (sthSourcesConfigured : bool) (verificationStatus : VerificationStatus)
    (verificationReportStatus : option VerificationStatus) : VerificationPresentationPolicyInput :=
  mkPolicyInput available (Some checks)
    (Some (mkSummaryContext (missingSlots proof) (invalidPresentedSlots proof) (rejectedRecords proof)
             (excludedSlots proof) (Some sthSourcesConfigured) None))
    (Some verificationStatus) verificationReportStatus None None None.

Definition hasCoherentPublicPresentationPolicy (checks : list VerificationCheck)
    (policy : VerificationPresentationPolicyResult) (proof : VerificationSummaryContext)
    (verificationStatus : VerificationStatus) (verificationReportStatus : option VerificationStatus)
    (devModeEvidence : bool) : result bool :=
  match projectCanonicalVerificationChecks checks devModeEvidence with
  | None => Ok false
  | Some projected =>
      let same sthSourcesConfigured :=
        derived ← deriveVerificationPresentationPolicy
                    (policy_input projected proof sthSourcesConfigured verificationStatus verificationReportStatus);
        Ok (hasSamePresentationPolicy derived policy) in
      without ← same false;
      if without : bool then Ok true else same true
  end.

(** ** The evidence of the "fully verified" label *)

Definition hasCoherentVerificationReportExpectedImageId (report : option PublicReport) (proofImageId : string) : bool :=
  match report with
  | None => true
  | Some r => String.eqb (normalizeHexString (rep_expected_image_id r)) (normalizeHexString proofImageId)
  end.

Definition hasCoherentAvailableVoterEvidence (receipt : PublicReceipt) (vote : PublicUserVote) (proof : PublicProof) :
    bool :=
  let castTreeSize := puv_treeSize vote in
  if negb (String.eqb (prc_voteId receipt) (puv_voteId vote)) ||
     negb (String.eqb (normalizeHexString (prc_commitment receipt)) (normalizeHexString (puv_commitment vote))) ||
     negb (num_eqb (prc_bulletinIndex receipt) (puv_leafIndex vote)) ||
     negb (String.eqb (normalizeHexString (prc_bulletinRootAtCast receipt))
             (normalizeHexString (puv_bulletinRootAtCast vote))) ||
     negb (String.eqb (normalizeHexString (prc_inputCommitment receipt)) (normalizeHexString (pp_inputCommitment proof))) ||
     negb (isSafeInteger (puv_leafIndex vote)) || num_ltb (puv_leafIndex vote) (NInt 0) ||
     negb (isSafeInteger castTreeSize) || negb (num_eqb castTreeSize (num_add (prc_bulletinIndex receipt) (NInt 1))) ||
     num_leb castTreeSize (puv_leafIndex vote) || num_ltb (pp_treeSize proof) castTreeSize
  then false
  else
    negb (num_eqb castTreeSize (pp_treeSize proof)) ||
    String.eqb (normalizeHexString (puv_bulletinRootAtCast vote)) (normalizeHexString (pp_bulletinRoot proof)).

Definition zero_counts (proof : PublicProof) : bool :=
  num_eqb (pp_missingSlots proof) (NInt 0) && num_eqb (pp_invalidPresentedSlots proof) (NInt 0) &&
  num_eqb (pp_rejectedRecords proof) (NInt 0) && num_eqb (pp_excludedSlots proof) (NInt 0).

Definition hasCoherentTamperPresentation (scenarioId : string) (tamperDetected : bool) (tamperedCount : num)
    (proof : PublicProof) (tamperSummary : option FinStorage.FinalizationTamperSummary) : bool :=
  if negb (String.eqb scenarioId "S0") && negb tamperDetected then false
  else if tamperDetected then true
  else
    num_eqb tamperedCount (NInt 0) && zero_counts proof &&
    match tamperSummary with
    | None => true
    | Some t =>
        num_eqb (FinStorage.ts_ignoredVotes t) (NInt 0) && num_eqb (FinStorage.ts_recountedVotes t) (NInt 0) &&
        negb (is_some (FinStorage.ts_userRecountedTo t)) && Z.eqb (zlength (default [] (FinStorage.ts_affectedBotIds t))) 0
    end.

Definition hasSuccessfulPresentationReceipt (report : option PublicReport) (imageId : string) : bool :=
  match report with
  | None => true
  | Some r =>
      bool_decide (rep_status r = vs_success) && hasCoherentVerificationReportExpectedImageId (Some r) imageId &&
      match rep_receipt_image_id r with
      | None => false
      | Some id => String.eqb (normalizeHexString id) (normalizeHexString imageId)
      end
  end.

Definition hasCompletePublicVotePartition (proof : PublicProof) : bool :=
  zero_counts proof && num_eqb (pp_treeSize proof) (pp_totalExpected proof) &&
  num_eqb (pp_seenIndicesCount proof) (pp_treeSize proof).

Record FullyVerifiedPresentationEvidenceInput := mkFullInput {
  fi_scenarioId : string;
  fi_checks : list VerificationCheck;
  fi_stageStatuses : VerificationStageStatuses;
  fi_verificationStatus : VerificationStatus;
  fi_verificationReport : option PublicReport;
  fi_proof : PublicProof;
  fi_presentation : PublicPresentation;
  fi_voterEvidence : VoterEvidence;
}.

Definition hasHonestTamperPresentation (input : FullyVerifiedPresentationEvidenceInput) : bool :=
  let shown := fi_presentation input in
  hasCoherentTamperPresentation (fi_scenarioId input) (default false (pn_tamperDetected shown))
    (default (NInt 0) (pn_tamperedCount shown)) (fi_proof input) (pn_tamperSummary shown) &&
  negb (bool_decide (pn_tamperDetected shown = Some true)).

Definition hasAdmissibleFullyVerifiedFacts (input : FullyVerifiedPresentationEvidenceInput) : bool :=
  let proof := fi_proof input in
  String.eqb (fi_scenarioId input) "S0" && bool_decide (fi_verificationStatus input = vs_success) &&
  match fi_voterEvidence input with
  | None => false
  | Some (receipt, vote) =>
      String.eqb (normalizeHexString (pp_seenBitmapRoot proof)) (normalizeHexString (pp_includedBitmapRoot proof)) &&
      hasSuccessfulPresentationReceipt (fi_verificationReport input) (pp_imageId proof) &&
      hasCoherentAvailableVoterEvidence receipt vote proof && hasHonestTamperPresentation input &&
      hasCompletePublicVotePartition proof
  end.

Definition full_context (proof : PublicProof) (sthSourcesConfigured : bool) : VerificationSummaryContext :=
  mkSummaryContext (Some (pp_missingSlots proof)) (Some (pp_invalidPresentedSlots proof))
    (Some (pp_rejectedRecords proof)) (Some (pp_excludedSlots proof)) (Some sthSourcesConfigured) (Some false).

Definition hasCoherentFullyVerifiedPresentationEvidence (input : FullyVerifiedPresentationEvidenceInput) :
    result bool :=
  if negb (hasAdmissibleFullyVerifiedFacts input) then Ok false
  else
    match projectCanonicalVerificationChecks (fi_checks input) false with
    | None => Ok false
    | Some checks =>
        let sth := resolveEffectiveSthSourcesConfigured checks (fi_stageStatuses input) in
        derivedPolicy ← deriveVerificationPresentationPolicy
          (mkPolicyInput available (Some checks) (Some (full_context (fi_proof input) sth))
             (Some (fi_verificationStatus input)) (Some (fi_verificationStatus input)) None None None);
        if negb (fullyVerifiedLabelEligible derivedPolicy) ||
           negb (hasSameStageStatuses (stageStatuses derivedPolicy) (fi_stageStatuses input))
        then Ok false
        else
          let verifiedCounts := pp_verifiedTally (fi_proof input) in
          let verifiedTotal := num_sum (count_list verifiedCounts) in
          let shown := fi_presentation input in
          Ok (forallb (fun p => num_eqb p.1 p.2) (zip (count_list (pn_counts shown)) (count_list verifiedCounts)) &&
              num_eqb (pn_totalVotes shown) verifiedTotal &&
              num_eqb (pn_totalVotes shown) (pp_totalExpected (fi_proof input)))
    end.

End PublicPolicy.

(** * What the re-evaluation of a published verification shows: the policy that is
    accepted is the one that the published checks give, and the evidence that is
    accepted for the "fully verified" label is complete and honest. *)
Import PublicPolicy.

#[local] Opaque VERIFICATION_CHECK_DEFINITIONS.

(** ** Equality of policies *)

Ltac split_ands H := rewrite ?andb_true_iff, ?bool_decide_eq_true, ?Bool.eqb_true_iff in H; destruct_and? H.

Lemma same_summary l r : hasSameVerificationSummary l r = true <-> l = r.
Proof.
  split; [| intros <-; destruct l as [[]|]; [| done]; cbn; by rewrite !bool_decide_eq_true_2].
  destruct l as [[]|], r as [[]|]; try done. cbn. intros E. split_ands E. by subst.
Qed.

Lemma same_stages l r : hasSameStageStatuses l r = true <-> l = r.
Proof.
  unfold hasSameStageStatuses. split; [| intros <-; apply forallb_spec; intros x _; by apply bool_decide_eq_true].
  destruct l, r. cbn. intros E. split_ands E. by subst.
Qed.

Lemma same_display l r : hasSameDisplayDecision l r = true <-> l = r.
Proof.
  unfold hasSameDisplayDecision. split; [| intros <-; by rewrite !bool_decide_eq_true_2].
  destruct l, r. cbn. intros E. split_ands E. by subst.
Qed.

Lemma same_policy p q : hasSamePresentationPolicy p q = true <-> p = q.
Proof.
  unfold hasSamePresentationPolicy, hasSamePresentationExplanation. split.
  - intros E. split_ands E.
    repeat match goal with
    | H : hasSameVerificationSummary _ _ = true |- _ => apply same_summary in H
    | H : hasSameStageStatuses _ _ = true |- _ => apply same_stages in H
    | H : hasSameDisplayDecision _ _ = true |- _ => apply same_display in H
    end. destruct p, q. cbn in *. by subst.
  - intros <-. rewrite (proj2 (same_summary _ _)), (proj2 (same_stages _ _)), (proj2 (same_display _ _)) by done.
    by rewrite !Bool.eqb_reflx, bool_decide_eq_true_2.
Qed.

(** The published policy is accepted exactly when the published checks are the
    canonical list and the policy derived from them, without or with configured
    third-party logs, is the published one, field by field; the comparison never
    fails with an exception. *)
Theorem published_policy_recomputed checks policy proof vs report dev :
  exists accepted, hasCoherentPublicPresentationPolicy checks policy proof vs report dev = Ok accepted /\
    (accepted = true <->
     exists projected sth, projectCanonicalVerificationChecks checks dev = Some projected /\
       deriveVerificationPresentationPolicy (policy_input projected proof sth vs report) = Ok policy).
Proof.
  unfold hasCoherentPublicPresentationPolicy. destruct (projectCanonicalVerificationChecks checks dev) as [projected |].
  2: { eexists. split; [done |]. split; [done |]. by intros (? & ? & ? & _). }
  destruct (label_spec (policy_input projected proof false vs report)) as (p & Ep & _).
  destruct (label_spec (policy_input projected proof true vs report)) as (q & Eq & _).
  rewrite Ep. cbn [mbind result_bind]. destruct (hasSamePresentationPolicy p policy) eqn:E1.
  - eexists. split; [done |]. split; [| done]. intros _. apply same_policy in E1 as ->. by exists projected, false.
  - rewrite Eq. cbn [mbind result_bind]. eexists. split; [done |]. rewrite same_policy. split.
    + intros ->. by exists projected, true.
    + intros (? & [] & [= <-] & E); [congruence |]. rewrite Ep in E. injection E as ->.
      by rewrite (proj2 (same_policy policy policy)) in E1.
Qed.

(** ** The canonical list *)

Lemma list_eqb_spec l : forall k, list_eqb l k = true <-> l = k.
Proof.
  induction l as [| x l IH]; intros [| y k]; try done. cbn. rewrite andb_true_iff, String.eqb_eq, IH.
  split; [by intros [-> ->] | by intros [= -> ->]].
Qed.

Lemma canonical_checks_spec dev ds : forall cs, length ds = length cs -> canonical_checks dev ds cs = true ->
  Forall2 (fun d c => canonical_check dev d c = true) ds cs.
Proof.
  induction ds as [| d ds IH]; intros [| c cs] Hl H; try done.
  cbn in H. apply andb_true_iff in H as [Hc H]. constructor; [done |]. apply IH; [by injection Hl | done].
Qed.

(** A projected list has the statuses of the published one. *)
Lemma projected_spec checks dev projected : projectCanonicalVerificationChecks checks dev = Some projected ->
  forall c, c ∈ projected -> exists d p, d ∈ VERIFICATION_CHECK_DEFINITIONS /\ p ∈ checks /\ c = projected_check dev d p /\
    check_id p = check_id_string (def_id d) /\ evidence p = expected_evidence dev d.
Proof.
  unfold projectCanonicalVerificationChecks, hasCanonicalVerificationCheckEvidence.
  destruct (Z.eqb_spec (zlength checks) (zlength VERIFICATION_CHECK_DEFINITIONS)) as [Hl |]; [| done].
  destruct (canonical_checks dev VERIFICATION_CHECK_DEFINITIONS checks) eqn:E; [| done]. cbn [negb andb].
  intros [= <-] c Hc. apply canonical_checks_spec in E; [| unfold zlength in Hl; lia].
  apply list_elem_of_lookup in Hc as [i Hi]. apply lookup_zip_with_Some in Hi as (d & p & -> & Hd & Hp).
  assert (Hcan := Forall2_lookup_lr _ _ _ _ _ _ E Hd Hp). cbn in Hcan. unfold canonical_check in Hcan.
  rewrite !andb_true_iff, String.eqb_eq, !bool_decide_eq_true in Hcan. destruct_and? Hcan.
  exists d, p. split_and!; [by eapply list_elem_of_lookup_2 | by eapply list_elem_of_lookup_2 | done ..].
Qed.

(** ** The evidence of the label *)

Record full_evidence (input : FullyVerifiedPresentationEvidenceInput) : Prop := {
  fe_scenario : fi_scenarioId input = "S0"%string;
  fe_checks : forall d, d ∈ VERIFICATION_CHECK_DEFINITIONS -> criticality d = required ->
    exists c, c ∈ fi_checks input /\ check_id c = check_id_string (def_id d) /\ status c = st_success /\
      evidence c = def_evidence d;
  fe_stages : areAllVerificationStagesSuccessful (fi_stageStatuses input) = true;
  fe_partition : pp_missingSlots (fi_proof input) = NInt 0 /\ pp_invalidPresentedSlots (fi_proof input) = NInt 0 /\
    pp_rejectedRecords (fi_proof input) = NInt 0 /\ pp_excludedSlots (fi_proof input) = NInt 0 /\
    num_eqb (pp_treeSize (fi_proof input)) (pp_totalExpected (fi_proof input)) = true;
  fe_tally : Forall2 (fun a b => num_eqb a b = true) (count_list (pn_counts (fi_presentation input)))
               (count_list (pp_verifiedTally (fi_proof input)));
  fe_total : num_eqb (pn_totalVotes (fi_presentation input)) (num_sum (count_list (pp_verifiedTally (fi_proof input)))) = true /\
    num_eqb (pn_totalVotes (fi_presentation input)) (pp_totalExpected (fi_proof input)) = true;
  fe_voter : exists receipt vote, fi_voterEvidence input = Some (receipt, vote) /\
    hasCoherentAvailableVoterEvidence receipt vote (fi_proof input) = true;
  fe_honest : pn_tamperDetected (fi_presentation input) <> Some true;
  fe_receipt : forall r, fi_verificationReport input = Some r ->
    exists id, rep_receipt_image_id r = Some id /\
      normalizeHexString id = normalizeHexString (pp_imageId (fi_proof input)) /\
      normalizeHexString (rep_expected_image_id r) = normalizeHexString (pp_imageId (fi_proof input));
}.

Lemma counts_agree a b : forallb (fun p => num_eqb p.1 p.2) (zip (count_list a) (count_list b)) = true ->
  Forall2 (fun x y => num_eqb x y = true) (count_list a) (count_list b).
Proof.
  destruct a, b. cbn. intros E. rewrite !andb_true_iff in E. destruct_and? E. by repeat constructor.
Qed.

Lemma zero_counts_spec proof : zero_counts proof = true ->
  pp_missingSlots proof = NInt 0 /\ pp_invalidPresentedSlots proof = NInt 0 /\
  pp_rejectedRecords proof = NInt 0 /\ pp_excludedSlots proof = NInt 0.
Proof.
  unfold zero_counts. rewrite !andb_true_iff, !num_eqb_int_r. intros E. destruct_and? E. by split_and!.
Qed.

Lemma successful_receipt report imageId r : hasSuccessfulPresentationReceipt report imageId = true -> report = Some r ->
  exists id, rep_receipt_image_id r = Some id /\ normalizeHexString id = normalizeHexString imageId /\
    normalizeHexString (rep_expected_image_id r) = normalizeHexString imageId.
Proof.
  intros E ->. cbn in E. rewrite !andb_true_iff, String.eqb_eq in E. destruct E as [[_ Hx] Hid].
  destruct (rep_receipt_image_id r) as [id |]; [| done]. apply String.eqb_eq in Hid. by exists id.
Qed.

(** The required checks of an earned label, on the published list. *)
Lemma earned_checks checks projected ctx : projectCanonicalVerificationChecks checks false = Some projected ->
  fully_verified_results projected ctx -> forall d, d ∈ VERIFICATION_CHECK_DEFINITIONS -> criticality d = required ->
  exists c, c ∈ checks /\ check_id c = check_id_string (def_id d) /\ status c = st_success /\ evidence c = def_evidence d.
Proof.
  intros Ep (_ & Hreq & Hall) d Hd Hc.
  assert (Hr : isRequiredCheck d ctx = true)
    by (unfold isRequiredCheck, isVerificationCheckRequired; by destruct (decide (criticality d = required))).
  destruct (Hreq d Hd Hr) as (c & Hin & Eid). destruct (projected_spec _ _ _ Ep c Hin) as (d' & p & Hd' & Hp & -> & Ei & Ee).
  cbn [check_id projected_check] in Eid. apply check_id_string_inj in Eid.
  assert (d' = d) as -> by (by apply definition_unique).
  exists p. split_and!; [done | done | | by rewrite Ee].
  destruct (Hall _ Hin) as (d2 & Hd2 & _ & Hs). cbn [check_id projected_check] in Hd2.
  apply definition_by_id_spec in Hd2 as [Hd2 E2]. apply check_id_string_inj in E2.
  assert (d2 = d) as -> by (by apply definition_unique). by rewrite Hr in Hs.
Qed.

(** C6: The re-evaluation of the evidence of a "fully verified" label always ends,
    and accepts only complete and honest evidence: no scenario, every required
    check of the registry succeeded with its own kind of evidence, four
    successful stages, no slot missing, invalid, rejected or excluded, a tree of
    the expected size, a published tally equal to the proved one whose total is
    the expected number of votes, coherent voter evidence and image ids. *)
Theorem full_evidence_sound input :
  exists accepted, hasCoherentFullyVerifiedPresentationEvidence input = Ok accepted /\
    (accepted = true -> full_evidence input).
Proof.
  unfold hasCoherentFullyVerifiedPresentationEvidence.
  destruct (hasAdmissibleFullyVerifiedFacts input) eqn:Ef; cbn [negb]; [| by eexists].
  destruct (projectCanonicalVerificationChecks (fi_checks input) false) as [checks |] eqn:Ec; [| by eexists].
  match goal with |- context [deriveVerificationPresentationPolicy ?i] =>
    destruct (label_spec i) as (p & Ep & Hlabel & _ & Hstages); set (pin := i) in * end.
  rewrite Ep. cbn [mbind result_bind].
  destruct (fullyVerifiedLabelEligible p) eqn:Ee; cbn [negb orb]; [| by eexists].
  destruct (hasSameStageStatuses (stageStatuses p) (fi_stageStatuses input)) eqn:Es; cbn [negb]; [| by eexists].
  eexists. split; [done |]. rewrite !andb_true_iff. intros [[Htally Htotal] Hexpected].
  apply same_stages in Es. destruct (proj1 Hlabel eq_refl) as [_ Hfull _ _ _ _ _].
  unfold hasAdmissibleFullyVerifiedFacts in Ef. destruct (fi_voterEvidence input) as [[receipt vote] |] eqn:Ev;
    [| by rewrite andb_false_r in Ef].
  rewrite !andb_true_iff in Ef. destruct Ef as [[Hs _] [[[[_ Hreceipt] Hvoter] Hhonest] Hpart]].
  unfold hasCompletePublicVotePartition in Hpart. rewrite !andb_true_iff in Hpart. destruct Hpart as [[Hzero Hsize] _].
  apply zero_counts_spec in Hzero as (? & ? & ? & ?). apply String.eqb_eq in Hs.
  split; [done | by eapply earned_checks | rewrite <- Es; by apply Hstages | done | by apply counts_agree | done | | |].
  - by exists receipt, vote.
  - unfold hasHonestTamperPresentation in Hhonest. apply andb_true_iff in Hhonest as [_ Hh].
    by apply negb_true_iff, bool_decide_eq_false in Hh.
  - intros r Er. by eapply successful_receipt.
Qed.

(** ** A published verification that earns the label *)

Definition published_checks : list VerificationCheck := map (check_of st_success) VERIFICATION_CHECK_DEFINITIONS.

Definition published_tally : VoteCounts := mkCounts (NInt 14) (NInt 13) (NInt 12) (NInt 13) (NInt 12).

Definition published_proof : PublicProof :=
  mkProof "0xa1" "0xb2" "0xc3" "0xd4" "0xD4" published_tally (NInt 0) (NInt 0) (NInt 0) (NInt 0) (NInt 64) (NInt 64) (NInt 64).

Definition published_voter : PublicReceipt * PublicUserVote :=
  (mkPublicReceipt "v" "0x01" (NInt 0) "0x02" (NInt 7) "0xC3", mkPublicVote "v" "01" (NInt 0) (NInt 1) [] "02").

Definition published_input (counts : VoteCounts) : FullyVerifiedPresentationEvidenceInput :=
  mkFullInput "S0" published_checks (mkStages st_success st_success st_success st_success) vs_success
    (Some (mkPublicReport vs_success "a1" (Some "0xA1"%string))) published_proof
    (mkPresentation counts (NInt 64) None None None) (Some published_voter).

(** The published tally must be the proved one: one vote moved is refused. *)
Example published_accepted :
  hasCoherentFullyVerifiedPresentationEvidence (published_input published_tally) = Ok true /\
  hasCoherentFullyVerifiedPresentationEvidence
    (published_input (mkCounts (NInt 13) (NInt 14) (NInt 12) (NInt 13) (NInt 12))) = Ok false.
Proof. by vm_compute. Qed.
