(* ===== verification/Scenario.v ===== *)
(** The tamper scenarios of the simulation
    (packages/domain/src/lib: scenarios/processor.ts,
    finalize/scenario-application.ts): votes left out or counted as another
    choice when a session is finalized. A map of votes is the list of its entries
    in insertion order. [random k n] is [Math.floor(random() * n)] for the [k]-th
    call of [random] of an application. *)
From S2P Require Import Prelude.
From S2P Require Import JsNumber.
From S2P Require Import Contract.
From S2P Require Import CtSession.
From S2P Require Import SessionVote.
From S2P Require Import FinStorage.
From S2P Require Import CtSessionProofs.
From S2P Require Import SessionVoteProofs.
Import Contract.
Import CtSession.
Import SessionVote.
Import FinStorage.

Module Scenario.

(** ** processor.ts *)

Inductive ScenarioAction : Type := IGNORED | RECOUNTED | DUPLICATED.

Record ScenarioChange := mkChange {
  ch_scenario : string;
  ch_voteIndex : num;
  ch_action : ScenarioAction;
  ch_originalVote : option string;
  ch_newVote : option string;
}.

Record ScenarioOptions := mkOptions {
  so_targetChoice : option string;
  so_targetBotId : option num;
}.

Record ScenarioResult := mkScenarioResult {
  modifiedVotes : list (num * StoredVoteRecord);
  changes : list ScenarioChange;
}.

Definition Random : Type := nat -> Z -> Z.

(** The calls of [random] made so far. *)
Definition Calls : Type := nat.

(** [votes.delete(index)] *)
Definition votes_delete (votes : list (num * StoredVoteRecord)) (index : num) : list (num * StoredVoteRecord) :=
  List.filter (fun e => negb (same_value e.1 index)) votes.

Definition with_vote (stored : StoredVoteRecord) (vote : string) : StoredVoteRecord :=
  mkStored (sv_voteId stored) (sv_timestamp stored) vote (sv_rand stored) (sv_commit stored) (sv_rootAtCast stored).

Definition ignoreScenarioVote (result : ScenarioResult) (scenario : string) (voteIndex : num) : ScenarioResult :=
  match votes_get (modifiedVotes result) voteIndex with
  | None => result
  | Some vote =>
      mkScenarioResult (votes_delete (modifiedVotes result) voteIndex)
        (changes result ++ [mkChange scenario voteIndex IGNORED (Some (sv_vote vote)) None])
  end.

Definition recountScenarioVote (result : ScenarioResult) (scenario : string) (voteIndex : num)
    (targetChoice : option string) : ScenarioResult :=
  match targetChoice with
  | None => result
  | Some choice =>
      if negb (str_truthy choice) then result
      else
        match votes_get (modifiedVotes result) voteIndex with
        | None => result
        | Some vote =>
            mkScenarioResult (votes_set (modifiedVotes result) voteIndex (with_vote vote choice))
              (changes result ++ [mkChange scenario voteIndex RECOUNTED (Some (sv_vote vote)) (Some choice)])
        end
  end.

Definition ignoreRandomScenarioVote (result : ScenarioResult) (random : Random) (calls : Calls) :
    ScenarioResult * Calls :=
  let voteIndices := map fst (modifiedVotes result) in
  if Z.eqb (zlength voteIndices) 0 then (result, calls)
  else
    (match znth voteIndices (random calls (zlength voteIndices)) with
     | None => result
     | Some randomIndex => ignoreScenarioVote result "S5" randomIndex
     end, S calls).

Definition applyScenarioChange (result : ScenarioResult) (scenario : string) (userVoteIndex : num)
    (options : ScenarioOptions) (random : Random) (calls : Calls) : ScenarioResult * Calls :=
  if String.eqb scenario "S1" then (ignoreScenarioVote result scenario userVoteIndex, calls)
  else if String.eqb scenario "S2" then
    (recountScenarioVote result scenario userVoteIndex (so_targetChoice options), calls)
  else if String.eqb scenario "S3" then
    (match so_targetBotId options with
     | Some bot => ignoreScenarioVote result scenario bot
     | None => result
     end, calls)
  else if String.eqb scenario "S4" then
    (match so_targetBotId options with
     | Some bot => recountScenarioVote result scenario bot (so_targetChoice options)
     | None => result
     end, calls)
  else if String.eqb scenario "S5" then ignoreRandomScenarioVote result random calls
  else (result, calls).

Fixpoint apply_scenarios (result : ScenarioResult) (scenarios : list string) (userVoteIndex : num)
    (options : ScenarioOptions) (random : Random) (calls : Calls) : ScenarioResult :=
  match scenarios with
  | [] => result
  | scenario :: rest =>
      let (next, calls') := applyScenarioChange result scenario userVoteIndex options random calls in
      apply_scenarios next rest userVoteIndex options random calls'
  end.

Definition applyScenarios (originalVotes : list (num * StoredVoteRecord)) (scenarios : list string) (userVoteIndex : num)
    (options : ScenarioOptions) (random : Random) (calls : Calls) : ScenarioResult :=
  apply_scenarios (mkScenarioResult originalVotes []) scenarios userVoteIndex options random calls.

(** [counts[choice]++]; a choice that is not a key becomes one, with [NaN]. *)
Fixpoint count_vote (counts : list (string * num)) (choice : string) : list (string * num) :=
  match counts with
  | [] => [(choice, NNaN)]
  | (c, n) :: rest => if String.eqb c choice then (c, num_add n (NInt 1)) :: rest else (c, n) :: count_vote rest choice
  end.

Definition zero_tally : list (string * num) := map (fun c => (c, NInt 0)) VOTE_CHOICES.

Definition getTallyCounts (votes : list (num * StoredVoteRecord)) : list (string * num) :=
  fold_left (fun counts e => count_vote counts (sv_vote e.2)) votes zero_tally.

(** ** scenario-application.ts *)

Record ScenarioSummary := mkSummary {
  ignoredCount : num;
  recountedCount : num;
  userRecountChoice : option string;
}.

Record ScenarioApplicationResult := mkApplication {
  sa_modifiedVotes : list (num * StoredVoteRecord);
  sa_scenarioResult : option ScenarioResult;
  sa_scenariosApplied : list string;
  sa_summary : ScenarioSummary;
  sa_claimedCounts : list (string * num);
  sa_claimedTotalVotes : num;
  sa_tamperMode : ScenarioTamperMode;
}.

Definition includes (scenarios : list string) (s : string) : bool := existsb (String.eqb s) scenarios.

Definition selectRecountChoice (original : string) (random : Random) (calls : Calls) (fallback : string) :
    string * Calls :=
  let availableChoices := List.filter (fun choice => negb (String.eqb choice original)) VOTE_CHOICES in
  if Z.eqb (zlength availableChoices) 0 then (fallback, calls)
  else (default fallback (znth availableChoices (random calls (zlength availableChoices))), S calls).

Definition selectBotRecountTarget (votes : list (num * StoredVoteRecord)) (userVoteIndex : num) (random : Random) (calls : Calls)
    (targetChoice : string) : result (string * num * Calls) :=
  let botIndices := List.filter (fun index => negb (num_eqb index userVoteIndex)) (map fst votes) in
  if Z.eqb (zlength botIndices) 0 then Ok (targetChoice, NInt 1, calls)
  else
    match znth botIndices (random calls (zlength botIndices)) with
    | None => throw "No bot vote index selected"
    | Some targetBotId =>
        match votes_get votes targetBotId with
        | Some botVote =>
            let (choice, calls') := selectRecountChoice (sv_vote botVote) random (S calls) targetChoice in
            Ok (choice, targetBotId, calls')
        | None => Ok (targetChoice, targetBotId, S calls)
        end
    end.

Definition selectScenarioTargets (votes : list (num * StoredVoteRecord)) (userVoteIndex : num) (scenariosApplied : list string)
    (random : Random) : result (string * num * Calls) :=
  let (targetChoice, calls) :=
    match votes_get votes userVoteIndex with
    | Some userVoteData =>
        if includes scenariosApplied "S2" then selectRecountChoice (sv_vote userVoteData) random 0%nat "B"
        else ("B"%string, 0%nat)
    | None => ("B"%string, 0%nat)
    end in
  if includes scenariosApplied "S4" then selectBotRecountTarget votes userVoteIndex random calls targetChoice
  else Ok (targetChoice, NInt 1, calls).

Definition summarize_change (userVoteIndex : num) (s : ScenarioSummary) (c : ScenarioChange) : ScenarioSummary :=
  match ch_action c with
  | IGNORED => mkSummary (num_add (ignoredCount s) (NInt 1)) (recountedCount s) (userRecountChoice s)
  | RECOUNTED =>
      mkSummary (ignoredCount s) (num_add (recountedCount s) (NInt 1))
        (match ch_newVote c with
         | Some new => if num_eqb (ch_voteIndex c) userVoteIndex && str_truthy new then Some new else userRecountChoice s
         | None => userRecountChoice s
         end)
  | DUPLICATED => s
  end.

Definition summarizeScenarioChanges (l : list ScenarioChange) (userVoteIndex : num) : ScenarioSummary :=
  fold_left (summarize_change userVoteIndex) l (mkSummary (NInt 0) (NInt 0) None).

Definition resolveScenarioTamperMode (scenariosApplied : list string) : ScenarioTamperMode :=
  if existsb (includes ["S1"; "S3"; "S5"]%string) scenariosApplied then tamper_input
  else if existsb (includes ["S2"; "S4"]%string) scenariosApplied then tamper_claim
  else tamper_none.

(** [Object.values(counts).reduce((sum, value) => sum + value, 0)] *)
Definition total_of (counts : list (string * num)) : num := num_sum (map snd counts).

Definition applyFinalizeScenarios (votes : list (num * StoredVoteRecord)) (userVoteIndex : num) (scenarios : option (list string))
    (simulateTampering : option bool) (random : Random) : result ScenarioApplicationResult :=
  if negb (isInteger userVoteIndex) || num_ltb userVoteIndex (NInt 0)
  then throw "userVoteIndex must be a non-negative integer"
  else
    let given := default [] scenarios in
    let scenariosApplied :=
      if Z.ltb 0 (zlength given) then given
      else if default false simulateTampering then ["S1"%string] else [] in
    match scenariosApplied with
    | [] =>
        let claimedCounts := getTallyCounts votes in
        Ok (mkApplication votes None scenariosApplied (mkSummary (NInt 0) (NInt 0) None) claimedCounts
              (total_of claimedCounts) tamper_none)
    | _ =>
        targets ← selectScenarioTargets votes userVoteIndex scenariosApplied random;
        let '(targetChoice, targetBotId, calls) := targets in
        let scenarioResult :=
          applyScenarios votes scenariosApplied userVoteIndex (mkOptions (Some targetChoice) (Some targetBotId)) random
            calls in
        let claimedCounts := getTallyCounts (modifiedVotes scenarioResult) in
        Ok (mkApplication (modifiedVotes scenarioResult) (Some scenarioResult) scenariosApplied
              (summarizeScenarioChanges (changes scenarioResult) userVoteIndex) claimedCounts (total_of claimedCounts)
              (resolveScenarioTamperMode scenariosApplied))
    end.

End Scenario.

(** * What a tamper scenario does to the votes of a session: it leaves out one vote
    or counts one vote as another choice, and says so. *)
Import Scenario.

(** ** Votes at the positions 0, 1, 2, ... *)

Definition positions_from (from : Z) (votes : list (num * StoredVoteRecord)) : Prop := map fst votes = count_from from (length votes).

Lemma entry_positions_cons from e votes : positions_from from (e :: votes) <-> e.1 = NInt from /\ positions_from (from + 1) votes.
Proof.
  unfold positions_from. cbn. split; [intros [= -> ->] | intros [-> ->]]; done.
Qed.

Lemma positions_lookup from votes k i stored : positions_from from votes -> votes !! k = Some (i, stored) ->
  i = NInt (from + Z.of_nat k).
Proof.
  intros Hp Hk. assert (Hlt := lookup_lt_Some _ _ _ Hk). assert (Hx := f_equal (lookup k) Hp).
  rewrite count_from_lookup in Hx by done. change (@map) with (@list_fmap) in Hx.
  rewrite list_lookup_fmap, Hk in Hx. by injection Hx.
Qed.

Lemma get_at votes : forall from k, positions_from from votes ->
  votes_get votes (NInt (from + Z.of_nat k)) = snd <$> votes !! k.
Proof.
  unfold votes_get. induction votes as [| [x v] votes IH]; intros from k Hp; [done |].
  apply entry_positions_cons in Hp as [Hx Hp]. cbn in Hx. subst x. cbn [List.find fst]. rewrite same_value_int.
  destruct k as [| k].
  - rewrite Z.add_0_r, Z.eqb_refl. done.
  - destruct (Z.eqb_spec from (from + Z.of_nat (S k))); [lia |].
    replace (from + Z.of_nat (S k)) with (from + 1 + Z.of_nat k) by lia. by apply IH.
Qed.

Lemma delete_none votes : forall from z, positions_from from votes -> z < from -> votes_delete votes (NInt z) = votes.
Proof.
  induction votes as [| [x v] votes IH]; intros from z Hp Hz; [done |].
  apply entry_positions_cons in Hp as [Hx Hp]. cbn in Hx. subst x. unfold votes_delete in *. cbn [List.filter fst].
  rewrite same_value_int. destruct (Z.eqb_spec from z); [lia |]. cbn [negb]. f_equal. eapply IH; [done | lia].
Qed.

Lemma delete_at votes : forall from k, positions_from from votes ->
  votes_delete votes (NInt (from + Z.of_nat k)) = delete k votes.
Proof.
  induction votes as [| [x v] votes IH]; intros from k Hp; [by destruct k |].
  apply entry_positions_cons in Hp as [Hx Hp]. cbn in Hx. subst x. unfold votes_delete in *. cbn [List.filter fst].
  rewrite same_value_int. destruct k as [| k].
  - rewrite Z.add_0_r, Z.eqb_refl. cbn. apply (delete_none votes (from + 1)); [done | lia].
  - destruct (Z.eqb_spec from (from + Z.of_nat (S k))); [lia |]. cbn. f_equal.
    replace (from + Z.of_nat (S k)) with (from + 1 + Z.of_nat k) by lia. by apply IH.
Qed.

Lemma set_at votes : forall from k v, positions_from from votes -> (k < length votes)%nat ->
  votes_set votes (NInt (from + Z.of_nat k)) v = <[k := (NInt (from + Z.of_nat k), v)]> votes.
Proof.
  induction votes as [| [x w] votes IH]; intros from k v Hp Hk; cbn in Hk; [lia |].
  apply entry_positions_cons in Hp as [Hx Hp]. cbn in Hx. subst x. cbn [votes_set fst]. rewrite same_value_int.
  destruct k as [| k].
  - by rewrite Z.add_0_r, Z.eqb_refl.
  - destruct (Z.eqb_spec from (from + Z.of_nat (S k))); [lia |]. cbn. f_equal.
    replace (from + Z.of_nat (S k)) with (from + 1 + Z.of_nat k) by lia. apply IH; [done | lia].
Qed.

(** ** Tallies *)

Definition choices_of (votes : list (num * StoredVoteRecord)) : list string := map (fun e => sv_vote e.2) votes.

(** The number of votes for a choice. *)
Definition votes_for (l : list string) (choice : string) : Z := zlength (List.filter (String.eqb choice) l).

Lemma votes_for_cons c l choice : votes_for (c :: l) choice = (if String.eqb choice c then 1 else 0) + votes_for l choice.
Proof. unfold votes_for, zlength. cbn [List.filter]. destruct (String.eqb _ _); cbn [length]; lia. Qed.

Lemma votes_for_app l k choice : votes_for (l ++ k) choice = votes_for l choice + votes_for k choice.
Proof. unfold votes_for. by rewrite List.filter_app, zlength_app. Qed.

Lemma votes_for_bound l choice : 0 <= votes_for l choice <= zlength l.
Proof. unfold votes_for, zlength. assert (H := List.filter_length_le (String.eqb choice) l). lia. Qed.

Definition tally_entries (count : string -> Z) : list (string * num) := map (fun c => (c, NInt (count c))) VOTE_CHOICES.

Lemma count_vote_entries count choice : choice ∈ VOTE_CHOICES -> (forall c, 0 <= count c < MAX_SAFE_INTEGER) ->
  count_vote (tally_entries count) choice =
  tally_entries (fun c => (if String.eqb c choice then 1 else 0) + count c).
Proof.
  intros Hc Hb. assert (Hadd : forall c, num_add (NInt (count c)) (NInt 1) = NInt (1 + count c)).
  { intros c. specialize (Hb c). unfold MAX_SAFE_INTEGER in Hb. rewrite num_add_int by lia. f_equal. lia. }
  unfold tally_entries, VOTE_CHOICES in *. rewrite !elem_of_cons, elem_of_nil in Hc.
  destruct_or? Hc; subst; cbn -[num_add Z.add]; rewrite Hadd, ?Z.add_0_l; reflexivity.
Qed.

Lemma tally_fold votes : forall count, (forall c, 0 <= count c) -> (forall c, count c + zlength votes < MAX_SAFE_INTEGER) ->
  Forall (fun c => c ∈ VOTE_CHOICES) (choices_of votes) ->
  fold_left (fun counts e => count_vote counts (sv_vote e.2)) votes (tally_entries count) =
  tally_entries (fun c => count c + votes_for (choices_of votes) c).
Proof.
  induction votes as [| e votes IH]; intros count Hp Hb Hc; cbn [fold_left choices_of map].
  - unfold tally_entries. apply map_ext. intros c. by rewrite Z.add_0_r.
  - unfold choices_of in Hc. cbn [map] in Hc. apply Forall_cons in Hc as [Hx Hc].
    assert (Hl : zlength (e :: votes) = 1 + zlength votes) by (unfold zlength; cbn [length]; lia).
    assert (Hz := zlength_nonneg votes).
    rewrite count_vote_entries; [| done | intros c; specialize (Hp c); specialize (Hb c); lia].
    rewrite IH; [| | | done]; cbn beta.
    + unfold tally_entries. apply map_ext. intros c. do 2 f_equal. rewrite votes_for_cons. unfold choices_of. lia.
    + intros c. specialize (Hp c). destruct (String.eqb _ _); lia.
    + intros c. specialize (Hb c). destruct (String.eqb _ _); lia.
Qed.

Lemma tally_votes votes : zlength votes < MAX_SAFE_INTEGER -> Forall (fun c => c ∈ VOTE_CHOICES) (choices_of votes) ->
  getTallyCounts votes = tally_entries (votes_for (choices_of votes)).
Proof.
  intros Hl Hc. unfold getTallyCounts, zero_tally. change (map _ VOTE_CHOICES) with (tally_entries (fun _ => 0)).
  by rewrite tally_fold.
Qed.

Lemma choices_total l : Forall (fun c => c ∈ VOTE_CHOICES) l ->
  votes_for l "A" + votes_for l "B" + votes_for l "C" + votes_for l "D" + votes_for l "E" = zlength l.
Proof.
  induction 1 as [| c l Hc _ IH]; [done |]. rewrite !votes_for_cons.
  replace (zlength (c :: l)) with (1 + zlength l) by (unfold zlength; cbn [length]; lia). rewrite <- IH.
  unfold VOTE_CHOICES in Hc. rewrite !elem_of_cons, elem_of_nil in Hc. destruct_or? Hc; subst; cbn; lia.
Qed.

Lemma total_entries l : zlength l < MAX_SAFE_INTEGER -> Forall (fun c => c ∈ VOTE_CHOICES) l ->
  total_of (tally_entries (votes_for l)) = NInt (zlength l).
Proof.
  intros Hl Hc. rewrite <- (choices_total l Hc) in *. unfold total_of, num_sum, tally_entries. cbn [map snd VOTE_CHOICES fold_left].
  assert (HA := votes_for_bound l "A"). assert (HB := votes_for_bound l "B"). assert (HC := votes_for_bound l "C").
  assert (HD := votes_for_bound l "D"). assert (HE := votes_for_bound l "E"). unfold MAX_SAFE_INTEGER in Hl.
  rewrite !num_add_int by lia. f_equal; lia.
Qed.

(** ** One scenario *)

(** What a scenario does: the vote of a position is left out, or counted as
    another choice. *)
Inductive tampering : Type :=
| left_out (k : nat) (stored : StoredVoteRecord)
| moved (k : nat) (stored : StoredVoteRecord) (choice : string).

Definition position (t : tampering) : nat := match t with left_out k _ | moved k _ _ => k end.
Definition victim (t : tampering) : StoredVoteRecord := match t with left_out _ v | moved _ v _ => v end.

Definition tampered_votes (votes : list (num * StoredVoteRecord)) (t : tampering) : list (num * StoredVoteRecord) :=
  match t with
  | left_out k _ => delete k votes
  | moved k stored choice => <[k := (NInt (Z.of_nat k), with_vote stored choice)]> votes
  end.

Definition change_of (s : string) (t : tampering) : ScenarioChange :=
  match t with
  | left_out k stored => mkChange s (NInt (Z.of_nat k)) IGNORED (Some (sv_vote stored)) None
  | moved k stored choice => mkChange s (NInt (Z.of_nat k)) RECOUNTED (Some (sv_vote stored)) (Some choice)
  end.

Definition summary_of (t : tampering) : ScenarioSummary :=
  match t with
  | left_out _ _ => mkSummary (NInt 1) (NInt 0) None
  | moved k _ choice => mkSummary (NInt 0) (NInt 1) (if Nat.eqb k 0 then Some choice else None)
  end.

Definition mode_of (t : tampering) : ScenarioTamperMode :=
  match t with left_out _ _ => tamper_input | moved _ _ _ => tamper_claim end.

(** The tally after the tampering, from the votes before it. *)
Definition tampered_count (votes : list (num * StoredVoteRecord)) (t : tampering) (choice : string) : Z :=
  votes_for (choices_of votes) choice - (if String.eqb choice (sv_vote (victim t)) then 1 else 0) +
  match t with left_out _ _ => 0 | moved _ _ new => if String.eqb choice new then 1 else 0 end.

(** The tampering a scenario may do when the vote of the user is the first. *)
Definition allowed (s : string) (t : tampering) : Prop :=
  match t with
  | left_out k _ => (s = "S1" /\ k = 0%nat) \/ (s = "S3" /\ k = 1%nat) \/ s = "S5"
  | moved k stored choice =>
      choice ∈ VOTE_CHOICES /\ choice <> sv_vote stored /\ ((s = "S2" /\ k = 0%nat) \/ (s = "S4" /\ k <> 0%nat))
  end%string.

(** The votes of a session whose user and a bot have voted. *)
Record session_entries (votes : list (num * StoredVoteRecord)) : Prop := {
  se_positions : positions_from 0 votes;
  se_choices : Forall (fun c => c ∈ VOTE_CHOICES) (choices_of votes);
  se_size : 2 <= zlength votes < MAX_SAFE_INTEGER;
}.

Definition random_ok (random : Random) : Prop := forall k n, 0 < n -> 0 <= random k n < n.

Section one.
Context (votes : list (num * StoredVoteRecord)) (random : Random).
Hypothesis Hv : session_entries votes.
Hypothesis Hr : random_ok random.

Lemma entry_at k i stored : votes !! k = Some (i, stored) ->
  votes_get votes (NInt (Z.of_nat k)) = Some stored /\ i = NInt (Z.of_nat k) /\ sv_vote stored ∈ VOTE_CHOICES.
Proof.
  intros Hk. split_and!.
  - rewrite <- (Z.add_0_l (Z.of_nat k)), (get_at votes) by apply se_positions, Hv. by rewrite Hk.
  - by apply (positions_lookup 0 votes) in Hk; [| apply Hv].
  - assert (Hc := se_choices _ Hv). unfold choices_of in Hc. rewrite Forall_map in Hc.
    exact (Forall_lookup_1 _ _ _ _ Hc Hk).
Qed.

Lemma ignore_at s k i stored : votes !! k = Some (i, stored) ->
  ignoreScenarioVote (mkScenarioResult votes []) s (NInt (Z.of_nat k)) =
  mkScenarioResult (delete k votes) [change_of s (left_out k stored)].
Proof.
  intros Hk. destruct (entry_at _ _ _ Hk) as (Hg & _). unfold ignoreScenarioVote. cbn [modifiedVotes changes].
  rewrite Hg. rewrite <- (Z.add_0_l (Z.of_nat k)) at 1. by rewrite delete_at by apply Hv.
Qed.

Lemma recount_at s k i stored choice : votes !! k = Some (i, stored) -> choice ∈ VOTE_CHOICES ->
  recountScenarioVote (mkScenarioResult votes []) s (NInt (Z.of_nat k)) (Some choice) =
  mkScenarioResult (tampered_votes votes (moved k stored choice)) [change_of s (moved k stored choice)].
Proof.
  intros Hk Hc. destruct (entry_at _ _ _ Hk) as (Hg & _). assert (Hlt := lookup_lt_Some _ _ _ Hk).
  unfold recountScenarioVote. cbn [modifiedVotes changes].
  assert (str_truthy choice = true) as ->.
  { unfold VOTE_CHOICES in Hc. rewrite !elem_of_cons, elem_of_nil in Hc. by destruct_or? Hc; subst. }
  cbn [negb]. rewrite Hg. rewrite <- (Z.add_0_l (Z.of_nat k)) at 1.
  rewrite set_at by (try apply Hv; done). by rewrite Z.add_0_l.
Qed.

(** The choice of a recount is another choice. *)
Lemma recount_choice original calls fallback : original ∈ VOTE_CHOICES ->
  exists choice, selectRecountChoice original random calls fallback = (choice, S calls) /\
    choice ∈ VOTE_CHOICES /\ choice <> original.
Proof.
  intros Ho. unfold selectRecountChoice. set (l := List.filter _ VOTE_CHOICES).
  assert (Hl : zlength l = 4).
  { unfold VOTE_CHOICES in Ho. rewrite !elem_of_cons, elem_of_nil in Ho. by destruct_or? Ho; subst. }
  rewrite Hl. cbn [Z.eqb]. assert (Hp := Hr calls 4 ltac:(lia)).
  destruct (znth l (random calls 4)) as [choice |] eqn:E.
  - exists choice. split; [done |]. unfold znth in E. destruct (Z.ltb _ _); [done |].
    apply list_elem_of_lookup_2 in E. subst l. apply list_elem_of_In, filter_In in E as [Hin Hne].
    apply list_elem_of_In in Hin. split; [done |]. intros ->. by rewrite String.eqb_refl in Hne.
  - exfalso. unfold znth in E. destruct (Z.ltb_spec (random calls 4) 0); [lia |].
    apply lookup_ge_None in E. unfold zlength in Hl. lia.
Qed.

(** A vote drawn among all, or among those of the bots. *)
Lemma drawn {A} (l : list A) calls : 0 < zlength l ->
  exists (k : nat) x, random calls (zlength l) = Z.of_nat k /\ znth l (random calls (zlength l)) = Some x /\ l !! k = Some x.
Proof.
  intros Hl. assert (Hp := Hr calls (zlength l) Hl). exists (Z.to_nat (random calls (zlength l))).
  destruct (lookup_lt_is_Some_2 l (Z.to_nat (random calls (zlength l)))) as [x Hx]; [unfold zlength in *; lia |].
  exists x. split_and!; [lia | | done]. unfold znth. destruct (Z.ltb_spec (random calls (zlength l)) 0); [lia | done].
Qed.

Lemma others_from n : forall from, 0 < from ->
  List.filter (fun index => negb (num_eqb index (NInt 0))) (count_from from n) = count_from from n.
Proof.
  induction n as [| n IH]; intros from Hf; [done |]. cbn [count_from List.filter].
  destruct (num_eqb (NInt from) (NInt 0)) eqn:E; [apply num_eqb_int in E; lia |]. cbn [negb]. f_equal. apply IH. lia.
Qed.

Lemma bot_indices : List.filter (fun index => negb (num_eqb index (NInt 0))) (map fst votes) =
  count_from 1 (length votes - 1).
Proof.
  rewrite (se_positions _ Hv). assert (Hs := se_size _ Hv). unfold zlength in Hs.
  destruct (length votes) as [| n]; [lia |]. cbn [count_from List.filter]. rewrite (proj2 (num_eqb_int 0 0)) by done.
  cbn [negb]. rewrite others_from by lia. f_equal. lia.
Qed.

Lemma some_entry k : (k < length votes)%nat -> exists stored, votes !! k = Some (NInt (Z.of_nat k), stored).
Proof.
  intros Hk. destruct (lookup_lt_is_Some_2 votes k Hk) as [[i stored] E]. exists stored.
  destruct (entry_at _ _ _ E) as (_ & -> & _). done.
Qed.

(** The targets: another choice than that of the user for S2, another choice than
    that of a drawn bot for S4. *)
Lemma targets s : s ∈ ["S1"; "S2"; "S3"; "S4"; "S5"]%string ->
  exists choice k calls, selectScenarioTargets votes (NInt 0) [s] random = Ok (choice, NInt (Z.of_nat k), calls) /\
    (s <> "S4"%string -> k = 1%nat) /\ (k < length votes)%nat /\
    forall t stored, votes !! (if String.eqb s "S2" then 0%nat else k) = Some (t, stored) ->
      s = "S2"%string \/ s = "S4"%string -> choice ∈ VOTE_CHOICES /\ choice <> sv_vote stored /\ (s = "S4"%string -> k <> 0%nat).
Proof.
  intros Hs. assert (Hz := se_size _ Hv). destruct (some_entry 0) as [user Hu]; [unfold zlength in Hz; lia |].
  destruct (entry_at _ _ _ Hu) as (Eu & _ & Cu). change (Z.of_nat 0) with 0 in Eu.
  unfold selectScenarioTargets. rewrite Eu. rewrite !elem_of_cons, elem_of_nil in Hs.
  destruct_or? Hs; subst; cbn [includes existsb String.eqb Ascii.eqb Bool.eqb orb].
  1,3,5: exists "B"%string, 1%nat, 0%nat; split_and!; [done | done | unfold zlength in Hz; lia |]; intros ? ? _ [|]; done.
  - destruct (recount_choice (sv_vote user) 0%nat "B" Cu) as (choice & -> & Hc & Hne). exists choice, 1%nat, 1%nat.
    split_and!; [done | done | unfold zlength in Hz; lia |]. intros t stored. cbn [String.eqb Ascii.eqb Bool.eqb]. rewrite Hu. by intros [= <- <-] _.
  - unfold selectBotRecountTarget. rewrite bot_indices.
    assert (Hl : zlength (count_from 1 (length votes - 1)) = zlength votes - 1)
      by (unfold zlength in *; rewrite count_from_length; lia).
    destruct (Z.eqb_spec (zlength (count_from 1 (length votes - 1))) 0); [lia |].
    destruct (drawn (count_from 1 (length votes - 1)) 0%nat) as (j & x & _ & -> & Hx); [lia |].
    assert (Hj := lookup_lt_Some _ _ _ Hx). rewrite count_from_length in Hj. rewrite count_from_lookup in Hx by done.
    injection Hx as <-. replace (1 + Z.of_nat j) with (Z.of_nat (S j)) by lia.
    destruct (some_entry (S j)) as [bot Hb]; [lia |]. destruct (entry_at _ _ _ Hb) as (Eb & _ & Cb). rewrite Eb.
    destruct (recount_choice (sv_vote bot) 1%nat "B" Cb) as (choice & -> & Hc & Hne). exists choice, (S j), 2%nat.
    split_and!; [done | done | lia |]. intros t stored. cbn [String.eqb Ascii.eqb Bool.eqb]. rewrite Hb. by intros [= <- <-] _.
Qed.

End one.

(** ** Tallies of tampered votes *)

Lemma votes_for_delete votes k i stored choice : votes !! k = Some (i, stored) ->
  votes_for (choices_of (delete k votes)) choice =
  votes_for (choices_of votes) choice - (if String.eqb choice (sv_vote stored) then 1 else 0).
Proof.
  intros Hk. rewrite <- (take_drop_middle _ _ _ Hk) at 2. rewrite delete_take_drop. unfold choices_of.
  rewrite !map_app. cbn [map snd]. rewrite !votes_for_app, votes_for_cons. lia.
Qed.

Lemma votes_for_insert votes k i stored new choice : votes !! k = Some (i, stored) ->
  votes_for (choices_of (<[k := (i, with_vote stored new)]> votes)) choice =
  votes_for (choices_of votes) choice - (if String.eqb choice (sv_vote stored) then 1 else 0) +
  (if String.eqb choice new then 1 else 0).
Proof.
  intros Hk. assert (Hlt := lookup_lt_Some _ _ _ Hk). rewrite insert_take_drop by done.
  rewrite <- (take_drop_middle _ _ _ Hk) at 3. unfold choices_of. rewrite !map_app. cbn [map snd sv_vote with_vote].
  rewrite !votes_for_app, !votes_for_cons. lia.
Qed.

Lemma choices_sublist votes votes' : Forall (fun c => c ∈ VOTE_CHOICES) (choices_of votes) ->
  (forall e, e ∈ votes' -> e ∈ votes \/ sv_vote e.2 ∈ VOTE_CHOICES) -> Forall (fun c => c ∈ VOTE_CHOICES) (choices_of votes').
Proof.
  unfold choices_of. rewrite !Forall_map, !Forall_forall. intros Hc Hsub e He.
  apply Hsub in He as [He | He]; [by apply Hc | done].
Qed.

(** The votes that remain, and their tally. *)
Lemma tampered_tally votes t : session_entries votes -> votes !! position t = Some (NInt (Z.of_nat (position t)), victim t) ->
  match t with moved _ _ choice => choice ∈ VOTE_CHOICES | left_out _ _ => True end ->
  getTallyCounts (tampered_votes votes t) = tally_entries (tampered_count votes t) /\
  total_of (getTallyCounts (tampered_votes votes t)) =
    NInt (match t with left_out _ _ => zlength votes - 1 | moved _ _ _ => zlength votes end).
Proof.
  intros Hv Hk Hm. assert (Hlt := lookup_lt_Some _ _ _ Hk). assert (Hs := se_size _ Hv). unfold zlength in Hs.
  assert (Hc := se_choices _ Hv). destruct t as [k stored | k stored new]; cbn [position victim tampered_votes] in *.
  - assert (Hc' : Forall (fun c => c ∈ VOTE_CHOICES) (choices_of (delete k votes))).
    { apply (choices_sublist votes); [done |]. intros e He. left. rewrite delete_take_drop in He.
      apply elem_of_app in He as [He | He];
        [rewrite <- (take_drop k votes) | rewrite <- (take_drop (S k) votes)]; apply elem_of_app; [by left | by right]. }
    assert (Hl : zlength (choices_of (delete k votes)) = zlength votes - 1).
    { unfold zlength, choices_of. rewrite length_map, length_delete by done. lia. }
    rewrite tally_votes; [| | done].
    2: { unfold zlength. rewrite length_delete by done. lia. }
    rewrite total_entries, Hl by (try done; rewrite Hl; unfold zlength; lia). split; [| done].
    unfold tally_entries. apply map_ext. intros c. do 2 f_equal. unfold tampered_count. cbn [victim].
    rewrite (votes_for_delete _ _ _ _ _ Hk). lia.
  - assert (Hc' : Forall (fun c => c ∈ VOTE_CHOICES) (choices_of (<[k := (NInt (Z.of_nat k), with_vote stored new)]> votes))).
    { apply (choices_sublist votes); [done |]. intros e He. apply list_elem_of_lookup in He as [j He].
      destruct (decide (j = k)) as [-> | Hj]; [rewrite list_lookup_insert_eq in He by done; injection He as <-; by right |].
      rewrite list_lookup_insert_ne in He by done. left. by eapply list_elem_of_lookup_2. }
    assert (Hl : zlength (choices_of (<[k := (NInt (Z.of_nat k), with_vote stored new)]> votes)) = zlength votes).
    { unfold zlength, choices_of. by rewrite length_map, length_insert. }
    rewrite tally_votes; [| | done].
    2: { unfold zlength. rewrite length_insert. lia. }
    rewrite total_entries, Hl by (try done; rewrite Hl; unfold zlength; lia). split; [| done].
    unfold tally_entries. apply map_ext. intros c. do 2 f_equal. unfold tampered_count. cbn [victim].
    by rewrite (votes_for_insert _ _ _ _ _ _ Hk).
Qed.

(** ** The application *)

Definition tampered_application (votes : list (num * StoredVoteRecord)) (s : string) (t : tampering) :
    ScenarioApplicationResult :=
  mkApplication (tampered_votes votes t) (Some (mkScenarioResult (tampered_votes votes t) [change_of s t])) [s]
    (summary_of t) (tally_entries (tampered_count votes t))
    (NInt (match t with left_out _ _ => zlength votes - 1 | moved _ _ _ => zlength votes end)) (mode_of t).

Definition tampers (votes : list (num * StoredVoteRecord)) (s : string) (t : tampering) : Prop :=
  allowed s t /\ votes !! position t = Some (NInt (Z.of_nat (position t)), victim t).

Lemma scenario_applied votes random s : session_entries votes -> random_ok random ->
  s ∈ ["S1"; "S2"; "S3"; "S4"; "S5"]%string ->
  exists t, tampers votes s t /\ applyFinalizeScenarios votes (NInt 0) (Some [s]) None random =
    Ok (tampered_application votes s t).
Proof.
  intros Hv Hr Hs. destruct (targets votes random Hv Hr s Hs) as (choice & k & calls & Et & Hk1 & Hkl & Hmoved).
  assert (Hz := se_size _ Hv). unfold zlength in Hz.
  destruct (some_entry votes Hv 0) as [user Hu]; [lia |]. destruct (some_entry votes Hv 1) as [bot Hb]; [lia |].
  assert (Hfinish : forall t r calls', tampers votes s t ->
    (match t with moved _ _ c => c ∈ VOTE_CHOICES | left_out _ _ => True end) ->
    applyScenarioChange (mkScenarioResult votes []) s (NInt 0) (mkOptions (Some choice) (Some (NInt (Z.of_nat k)))) random
      calls = (r, calls') -> r = mkScenarioResult (tampered_votes votes t) [change_of s t] ->
    exists t, tampers votes s t /\ applyFinalizeScenarios votes (NInt 0) (Some [s]) None random = Ok (tampered_application votes s t)).
  { intros t r calls' Ht Hm Ea ->. exists t. split; [done |]. destruct Ht as [Hallowed Hpos].
    destruct (tampered_tally votes t Hv Hpos Hm) as [Htally Htotal].
    unfold applyFinalizeScenarios. change (default [] (Some [s])) with [s]. change (Z.ltb 0 (zlength [s])) with true.
    cbn [isInteger negb orb]. change (num_ltb (NInt 0) (NInt 0)) with false. cbv iota. rewrite Et. cbn [mbind result_bind].
    unfold applyScenarios. cbn [apply_scenarios]. rewrite Ea. cbn [apply_scenarios modifiedVotes changes].
    rewrite Htotal, Htally. unfold tampered_application. repeat f_equal.
    - unfold summarizeScenarioChanges. destruct t as [j stored | j stored new]; cbn [fold_left change_of summarize_change
        ch_action ch_newVote ch_voteIndex ignoredCount recountedCount userRecountChoice summary_of].
      + by rewrite num_add_int by lia.
      + rewrite num_add_int by lia. assert (str_truthy new = true) as ->.
        { unfold VOTE_CHOICES in Hm. rewrite !elem_of_cons, elem_of_nil in Hm. by destruct_or? Hm; subst. }
        rewrite andb_true_r. f_equal. destruct j as [| j]; [done |].
        destruct (num_eqb (NInt (Z.of_nat (S j))) (NInt 0)) eqn:E; [apply num_eqb_int in E; lia | done].
    - destruct t as [j stored | j stored new]; cbn [allowed mode_of] in *; [destruct Hallowed as [[-> _] | [[-> _] | ->]] |
        destruct Hallowed as (_ & _ & [[-> _] | [-> _]])]; done. }
  rewrite !elem_of_cons, elem_of_nil in Hs. destruct_or? Hs; subst.
  - eapply (Hfinish (left_out 0 user)); [split; [by left | done] | done | |]; [done |]. exact (ignore_at votes Hv "S1" 0 _ _ Hu).
  - destruct (Hmoved _ _ Hu ltac:(by left)) as (Hc & Hne & _).
    eapply (Hfinish (moved 0 user choice)); [split; [split_and!; [done | done | by left] | done] | done | |]; [done |].
    exact (recount_at votes Hv "S2" 0 _ _ _ Hu Hc).
  - rewrite Hk1 in * by done. eapply (Hfinish (left_out 1 bot)); [split; [right; by left | done] | done | |]; [done |].
    exact (ignore_at votes Hv "S3" 1 _ _ Hb).
  - destruct (some_entry votes Hv k Hkl) as [stored Ek]. destruct (Hmoved _ _ Ek ltac:(by right)) as (Hc & Hne & Hk).
    eapply (Hfinish (moved k stored choice)); [split; [split_and!; [done | done | right; split; [done | by apply Hk]] | done] | done | |];
      [done |]. exact (recount_at votes Hv "S4" k _ _ _ Ek Hc).
  - assert (Hl : zlength (map fst votes) = zlength votes) by (unfold zlength; by rewrite length_map).
    destruct (drawn random Hr (map fst votes) calls) as (j & x & _ & Ej & Hj); [unfold zlength in *; lia |].
    assert (Hjl := lookup_lt_Some _ _ _ Hj). rewrite length_map in Hjl. destruct (some_entry votes Hv j Hjl) as [stored Es].
    change (@map) with (@list_fmap) in Hj. rewrite list_lookup_fmap, Es in Hj. injection Hj as <-.
    eapply (Hfinish (left_out j stored)); [split; [right; by right | done] | done | |].
    + unfold applyScenarioChange. cbn [String.eqb Ascii.eqb Bool.eqb]. unfold ignoreRandomScenarioVote. cbn [modifiedVotes].
      rewrite Ej. destruct (Z.eqb_spec (zlength (map fst votes)) 0); [unfold zlength in *; lia | done].
    + exact (ignore_at votes Hv "S5" j _ _ Es).
Qed.
