(* ===== verification/Tamper.v ===== *)
(** The facts of a scenario that a finalization publishes
    (packages/verification/src/verification: finalization-tamper.ts,
    scenario-projection.ts): the count of tampered votes, the signal of a
    tampering, and the admission of the summary, the tally and the bots a
    scenario names. *)
From S2P Require Import Prelude.
From S2P Require Import JsNumber.
From S2P Require Import Contract.
From S2P Require Import CtSession.
From S2P Require Import FinStorage.
From S2P Require Import Presentation.
From S2P Require Import Hex.
From S2P Require Import Engine.
From S2P Require Import Verifiers.
Import Contract.
Import CtSession.
Import FinStorage.
Import Presentation.

Module TamperFacts.

(** ** Numbers *)

(** [-a] *)
Definition num_neg (a : num) : num :=
  match a with
  | NInt z => NInt (- z)
  | NFrac q => NFrac (QArith_base.Qopp q)
  | NInf negative => NInf (negb negative)
  | NNaN => NNaN
  end.

(** [a - b] *)
Definition num_sub (a b : num) : num := num_add a (num_neg b).

(** ** finalization-tamper.ts *)

Definition normalizeNonNegativeCount (value : option num) : num :=
  match value with
  | Some n => if isFinite n && num_ltb (NInt 0) n then n else NInt 0
  | None => NInt 0
  end.

(** The two counts of a summary, when there is one. *)
Definition resolveScenarioTamperCount (summary : option (option num * option num)) : num :=
  num_add (normalizeNonNegativeCount (summary ≫= fst)) (normalizeNonNegativeCount (summary ≫= snd)).

Definition resolveFinalizationTamperDetected (excludedSlots rejectedRecords scenarioTamperCount : option num) : bool :=
  num_ltb (NInt 0) (normalizeNonNegativeCount excludedSlots) ||
  num_ltb (NInt 0) (normalizeNonNegativeCount rejectedRecords) ||
  num_ltb (NInt 0) (normalizeNonNegativeCount scenarioTamperCount).

(** ** scenario-projection.ts *)

Fixpoint hasExactNumberSequence (left right : list num) : bool :=
  match left, right with
  | [], [] => true
  | a :: left', b :: right' => num_eqb a b && hasExactNumberSequence left' right'
  | _, _ => false
  end.

(** [new Set(ids).size === ids.length] *)
Fixpoint distinct_ids (ids : list num) : bool :=
  match ids with
  | [] => true
  | id :: rest => negb (existsb (same_value id) rest) && distinct_ids rest
  end.

Definition hasCanonicalAffectedBotIds (ids : list num) : bool :=
  forallb (fun id => isSafeInteger id && num_leb (NInt 1) id && num_leb id (NInt BOT_COUNT)) ids && distinct_ids ids.

Definition hasUntamperedSummary (s : FinalizationTamperSummary) (affectedBotIds : list num) : bool :=
  num_eqb (ts_ignoredVotes s) (NInt 0) && num_eqb (ts_recountedVotes s) (NInt 0) &&
  negb (is_some (ts_userRecountedTo s)) && Z.eqb (zlength affectedBotIds) 0.

Definition hasExcludedSummary (s : FinalizationTamperSummary) (excludedSlots : num) (affectedBotIds : list num)
    (expectedBotCount : Z) : bool :=
  num_ltb (NInt 0) (ts_ignoredVotes s) && num_eqb (ts_ignoredVotes s) excludedSlots &&
  num_eqb (ts_recountedVotes s) (NInt 0) && negb (is_some (ts_userRecountedTo s)) &&
  Z.eqb (zlength affectedBotIds) expectedBotCount.

Definition hasRecountedSummary (s : FinalizationTamperSummary) (affectedBotIds : list num) (expectedBotCount : Z) : bool :=
  num_eqb (ts_ignoredVotes s) (NInt 0) && num_eqb (ts_recountedVotes s) (NInt 1) &&
  Z.eqb (zlength affectedBotIds) expectedBotCount.

Definition hasSingleExcludedSummary (scenarioId : string) (excludedSlots : num) (s : FinalizationTamperSummary)
    (affectedBotIds : list num) : bool :=
  num_eqb (ts_ignoredVotes s) (NInt 1) &&
  hasExcludedSummary s excludedSlots affectedBotIds (if String.eqb scenarioId "S3" then 1 else 0).

Definition matchesScenarioTamperSummary (scenarioId : string) (excludedSlots : num) (s : FinalizationTamperSummary)
    (affectedBotIds : list num) : bool :=
  if String.eqb scenarioId "S0" then hasUntamperedSummary s affectedBotIds
  else if String.eqb scenarioId "S1" || String.eqb scenarioId "S3"
  then hasSingleExcludedSummary scenarioId excludedSlots s affectedBotIds
  else if String.eqb scenarioId "S2"
  then hasRecountedSummary s affectedBotIds 0 && is_some (ts_userRecountedTo s)
  else if String.eqb scenarioId "S4"
  then hasRecountedSummary s affectedBotIds 1 && negb (is_some (ts_userRecountedTo s))
  else if String.eqb scenarioId "S5" then hasExcludedSummary s excludedSlots affectedBotIds 0
  else false.

Definition hasCanonicalScenarioTamperSummary (scenarioId : string) (excludedSlots : num)
    (tamperSummary : option FinalizationTamperSummary) : bool :=
  match tamperSummary with
  | None => String.eqb scenarioId "S0"
  | Some s =>
      let affectedBotIds := default [] (ts_affectedBotIds s) in
      if negb (hasCanonicalAffectedBotIds affectedBotIds) then false
      else matchesScenarioTamperSummary scenarioId excludedSlots s affectedBotIds
  end.

(** The choices whose delta is [value]. *)
Definition choices_at (deltas : list num) (value : Z) : list string :=
  map fst (List.filter (fun p => num_eqb p.2 (NInt value)) (zip VOTE_CHOICES deltas)).

Definition hasSingleRecountedVote (scenarioId : string) (tamperSummary : option FinalizationTamperSummary)
    (deltas : list num) : bool :=
  let removedChoices := choices_at deltas (-1) in
  let addedChoices := choices_at deltas 1 in
  if negb (Z.eqb (zlength removedChoices) 1) || negb (Z.eqb (zlength addedChoices) 1) ||
     existsb (fun delta => negb (num_eqb delta (NInt (-1))) && negb (num_eqb delta (NInt 0)) &&
                           negb (num_eqb delta (NInt 1))) deltas
  then false
  else
    String.eqb scenarioId "S4" ||
    bool_decide ((tamperSummary ≫= ts_userRecountedTo) = head addedChoices).

Definition tally_deltas (counts verifiedTally : VoteCounts) : list num :=
  zip_with num_sub (count_list counts) (count_list verifiedTally).

Definition hasCoherentScenarioTallyProjection (scenarioId : string) (verifiedTally counts : VoteCounts)
    (tamperSummary : option FinalizationTamperSummary) : bool :=
  let deltas := tally_deltas counts verifiedTally in
  let unchanged := forallb (fun delta => num_eqb delta (NInt 0)) deltas in
  if String.eqb scenarioId "S0" || String.eqb scenarioId "S1" || String.eqb scenarioId "S3" then unchanged
  else if String.eqb scenarioId "S2" || String.eqb scenarioId "S4"
  then hasSingleRecountedVote scenarioId tamperSummary deltas
  else if String.eqb scenarioId "S5" then unchanged
  else false.

Record ScenarioFacts := mkScenarioFacts {
  sf_scenarioId : string;
  sf_tamperDetected : bool;
  sf_tamperedCount : num;
  sf_excludedSlots : num;
  sf_rejectedRecords : num;
  sf_verifiedTally : VoteCounts;
  sf_counts : VoteCounts;
  sf_tamperSummary : option FinalizationTamperSummary;
}.

Definition summary_counts (s : FinalizationTamperSummary) : option num * option num :=
  (Some (ts_ignoredVotes s), Some (ts_recountedVotes s)).

Definition hasCoherentPublicScenarioTamperCoreProjection (input : ScenarioFacts) : bool :=
  if negb (hasCanonicalScenarioTamperSummary (sf_scenarioId input) (sf_excludedSlots input) (sf_tamperSummary input)) ||
     negb (hasCoherentScenarioTallyProjection (sf_scenarioId input) (sf_verifiedTally input) (sf_counts input)
             (sf_tamperSummary input))
  then false
  else
    let scenarioTamperCount := resolveScenarioTamperCount (summary_counts <$> sf_tamperSummary input) in
    num_eqb (sf_tamperedCount input) (num_max (sf_excludedSlots input) scenarioTamperCount) &&
    Bool.eqb (sf_tamperDetected input)
      (resolveFinalizationTamperDetected (Some (sf_excludedSlots input)) (Some (sf_rejectedRecords input))
         (Some scenarioTamperCount)).

Record PublicBotVotesSummaryProjection := mkBotSummary {
  bs_total : option num;
  bs_affectedBotIds : option (list num);
  bs_source : string;
}.

Definition hasCoherentPublicTamperScenarioProjection (input : ScenarioFacts)
    (botVotesSummary : option PublicBotVotesSummaryProjection) : bool :=
  if negb (hasCoherentPublicScenarioTamperCoreProjection input) then false
  else
    let affectedBotIds := default [] (sf_tamperSummary input ≫= ts_affectedBotIds) in
    if negb (String.eqb (sf_scenarioId input) "S3" || String.eqb (sf_scenarioId input) "S4")
    then negb (is_some botVotesSummary)
    else
      match botVotesSummary with
      | None => false
      | Some b =>
          match bs_total b with Some total => num_eqb total (NInt BOT_COUNT) | None => false end &&
          String.eqb (bs_source b) "scenario_simulation" &&
          hasExactNumberSequence (default [] (bs_affectedBotIds b)) affectedBotIds
      end.

End TamperFacts.

(** * The educational tamper report
    (packages/verification/src/verification/tamperDetection.ts): the scenarios
    suggested by the difference between the claimed and the verified tally and by
    the slots of the journal. *)
Import Engine.
Import Verifiers.
Import TamperFacts.

Module TamperReport.

(** ** Data (verification/types.ts) *)

Record BotTamperInfo := mkBotInfo {
  bi_originalChoice : string;
  bi_recountedTo : string;
  bi_count : num;
}.

Record Receipt := mkReceipt {
  rc_tally : VoteCounts;
  rc_bulletinRoot : string;
  rc_totalVotes : num;
  rc_tamperedCount : num;
  rc_missingSlots : option num;
  rc_invalidPresentedSlots : option num;
  rc_rejectedRecords : option num;
  rc_excludedSlots : option num;
  rc_validVotes : option num;
  rc_verifiedTally : option (list num);
  rc_botTamperInfo : option BotTamperInfo;
  rc_randomError : option bool;
}.

Record VoteData := mkVoteData {
  vd_commitment : string;
  vd_path : list string;
  vd_leafIndex : Z;
  vd_choice : string;
  vd_treeSize : option Z;
}.

Record TamperDetectionContext := mkContext {
  cx_expectedTotalVotes : option num;
  cx_scenarios : option (list string);
}.

Record TamperDetails := mkDetails {
  td_ignoreUserVote : bool;
  td_recountUserAsOther : bool;
  td_recountedTo : option string;
  td_ignoreBotVotes : bool;
  td_ignoredBotCount : option num;
  td_recountBotVotes : bool;
  td_recountedBotInfo : option BotTamperInfo;
  td_randomErrors : bool;
  td_indexAnomaly : bool;
  td_invalidPresentedSlotsCount : option num;
  td_missingSlotsCount : option num;
  td_validVotesCount : option num;
}.

Record TamperDetectionResult := mkDetection {
  isTampered : bool;
  detectedScenarios : list string;
  details : TamperDetails;
}.

(** ** Tallies *)

Definition finite_or_zero (value : option num) : num :=
  match value with Some n => if isFinite n then n else NInt 0 | None => NInt 0 end.

Definition getTallyCount (receipt : Receipt) (choice : string) : num := finite_or_zero (count_of (rc_tally receipt) choice).

Definition getVerifiedTally (receipt : Receipt) : option (list num) :=
  match rc_verifiedTally receipt with
  | Some l => if Z.ltb (zlength l) (zlength VOTE_CHOICES) then None else Some l
  | None => None
  end.

Definition getVerifiedTallyCount (verifiedTally : list num) (index : Z) : num := finite_or_zero (znth verifiedTally index).

(** [VOTE_CHOICES.indexOf(choice)], -1 when it is not one. *)
Fixpoint index_of (l : list string) (choice : string) (i : Z) : Z :=
  match l with
  | [] => -1
  | c :: rest => if String.eqb c choice then i else index_of rest choice (i + 1)
  end.

(** [VOTE_CHOICES.entries()] *)
Definition indexed_choices : list (Z * string) := imap (fun i c => (Z.of_nat i, c)) VOTE_CHOICES.

(** ** The scenarios *)

Definition detectIgnoreUserVote (isUserVoteIncluded : bool) (receipt : Receipt) : bool :=
  negb isUserVoteIncluded && num_ltb (NInt 0) (rc_tamperedCount receipt).

(** The best choice so far with its difference. *)
Definition infer_step (receipt : Receipt) (verifiedTally : list num) (userChoice : string)
    (best : option string * num) (entry : Z * string) : option string * num :=
  if String.eqb entry.2 userChoice then best
  else
    let diff := num_sub (getTallyCount receipt entry.2) (getVerifiedTallyCount verifiedTally entry.1) in
    if num_ltb best.2 diff then (Some entry.2, diff) else best.

Definition inferRecountTargetFromDiff (receipt : Receipt) (verifiedTally : list num) (userChoice : string) :
    option string :=
  let (bestChoice, bestDiff) :=
    fold_left (infer_step receipt verifiedTally userChoice) indexed_choices (None, NInt 0) in
  match bestChoice with
  | Some c => if str_truthy c && num_ltb (NInt 0) bestDiff then Some c else None
  | None => None
  end.

(** [{ detected, recountedTo? }] *)
Definition detectRecountUserAsOther (isUserVoteIncluded : bool) (receipt : Receipt) (userVote : VoteData) :
    bool * option string :=
  if negb isUserVoteIncluded || num_eqb (rc_totalVotes receipt) (NInt 0) then (false, None)
  else
    match getVerifiedTally receipt with
    | None => (false, None)
    | Some verifiedTally =>
        let userIndex := index_of VOTE_CHOICES (vd_choice userVote) 0 in
        if Z.ltb userIndex 0 then (false, None)
        else
          let verifiedCount := getVerifiedTallyCount verifiedTally userIndex in
          let claimedCount := getTallyCount receipt (vd_choice userVote) in
          if num_leb verifiedCount claimedCount then (false, None)
          else (true, inferRecountTargetFromDiff receipt verifiedTally (vd_choice userVote))
    end.

(** [{ detected, ignoredCount? }] *)
Definition detectIgnoreBotVotes (receipt : Receipt) (expectedTotal : option num) (userVoteIgnored : bool)
    (scenarios : option (list string)) : bool * option num :=
  let ignored_user := NInt (if userVoteIgnored then 1 else 0) in
  match rc_missingSlots receipt with
  | Some missingSlots =>
      let adjustedMissingSlots := num_max (NInt 0) (num_sub missingSlots ignored_user) in
      if num_ltb (NInt 0) adjustedMissingSlots then (true, Some adjustedMissingSlots) else (false, None)
  | None =>
      let expectedTotalVotes :=
        default (num_add (rc_totalVotes receipt) (num_max (rc_tamperedCount receipt) (NInt 0))) expectedTotal in
      let missingVotes := num_max (NInt 0) (num_sub expectedTotalVotes (rc_totalVotes receipt)) in
      let adjustedMissing := num_max (NInt 0) (num_sub missingVotes ignored_user) in
      if num_ltb (NInt 0) adjustedMissing then (true, Some adjustedMissing)
      else if existsb (String.eqb "S3") (default [] scenarios)
      then (true, if num_ltb (NInt 0) (rc_tamperedCount receipt) then Some (rc_tamperedCount receipt) else None)
      else (false, None)
  end.

Definition positive_diff (receipt : Receipt) (verifiedTally : list num) : num :=
  fold_left (fun positiveDiff entry =>
    let claimed := getTallyCount receipt entry.2 in
    let verified := getVerifiedTallyCount verifiedTally entry.1 in
    if num_ltb verified claimed then num_add positiveDiff (num_sub claimed verified) else positiveDiff)
    indexed_choices (NInt 0).

Definition detectRecountBotVotes (receipt : Receipt) (userVote : VoteData) : bool :=
  if is_some (rc_botTamperInfo receipt) then true
  else
    match getVerifiedTally receipt with
    | None => false
    | Some verifiedTally =>
        let positiveDiff := positive_diff receipt verifiedTally in
        if num_leb positiveDiff (NInt 0) then false
        else
          let userIndex := index_of VOTE_CHOICES (vd_choice userVote) 0 in
          if Z.ltb userIndex 0 then true
          else
            let userShortfall :=
              num_max (NInt 0) (num_sub (getVerifiedTallyCount verifiedTally userIndex)
                                        (getTallyCount receipt (vd_choice userVote))) in
            num_ltb userShortfall positiveDiff
    end.

Definition detectIndexAnomaly (receipt : Receipt) : bool :=
  num_ltb (NInt 0) (default (NInt 0) (rc_rejectedRecords receipt)) ||
  num_ltb (NInt 0) (default (NInt 0) (rc_invalidPresentedSlots receipt)) ||
  num_ltb (NInt 0) (default (NInt 0) (rc_missingSlots receipt)) ||
  num_ltb (NInt 0) (default (rc_tamperedCount receipt) (rc_excludedSlots receipt)).

Definition detectRandomErrors (receipt : Receipt) : bool := default false (rc_randomError receipt).

(** ** The report *)

Record DetectedScenarioInputs := mkDetected {
  sc_ignoreUserVote : bool;
  sc_recountUserAsOther : bool * option string;
  sc_ignoreBotVotes : bool * option num;
  sc_recountBotVotes : bool;
  sc_randomErrors : bool;
}.

Definition name_if (b : bool) (name : string) : list string := if b then [name] else [].

Definition scenario_names (s : DetectedScenarioInputs) : list string :=
  name_if (sc_ignoreUserVote s) "ignoreUserVote" ++ name_if (fst (sc_recountUserAsOther s)) "recountUserAsOther" ++
  name_if (fst (sc_ignoreBotVotes s)) "ignoreBotVotes" ++ name_if (sc_recountBotVotes s) "recountBotVotes" ++
  name_if (sc_randomErrors s) "randomErrors".

Definition positive_count (n : num) : option num := if num_ltb (NInt 0) n then Some n else None.

Definition buildTamperDetectionResult (s : DetectedScenarioInputs) (receipt : Receipt) (indexAnomaly : bool)
    (invalidPresentedSlots missingSlots validVotes : num) : TamperDetectionResult :=
  let names := scenario_names s in
  let detected := match names with [] => if indexAnomaly then ["indexAnomaly"%string] else [] | _ => names end in
  mkDetection (Z.ltb 0 (zlength detected)) detected
    (mkDetails (sc_ignoreUserVote s) (fst (sc_recountUserAsOther s))
       (if fst (sc_recountUserAsOther s)
        then match snd (sc_recountUserAsOther s) with Some c => if str_truthy c then Some c else None | None => None end
        else None)
       (fst (sc_ignoreBotVotes s)) (if fst (sc_ignoreBotVotes s) then snd (sc_ignoreBotVotes s) else None)
       (sc_recountBotVotes s) (if sc_recountBotVotes s then rc_botTamperInfo receipt else None) (sc_randomErrors s)
       indexAnomaly (positive_count invalidPresentedSlots) (positive_count missingSlots) (positive_count validVotes)).

(** An exception of the inclusion check is an answer: not included. *)
Definition checkUserVoteInclusion `{Noble} (userVote : VoteData) (bulletinRoot : string) : result bool :=
  match vd_treeSize userVote with
  | None => Ok false
  | Some size =>
      if Z.leb size 0 then Ok false
      else
        try_catch (verifyCTMerkleInclusion (vd_commitment userVote) (vd_path userVote) (vd_leafIndex userVote) bulletinRoot
                     size) (fun _ => Ok false)
  end.

(** The scenarios detected once the inclusion of the user's vote is known. *)
Definition detected_scenarios (isUserVoteIncluded : bool) (receipt : Receipt) (userVote : VoteData)
    (context : option TamperDetectionContext) : TamperDetectionResult :=
  buildTamperDetectionResult
    (mkDetected (detectIgnoreUserVote isUserVoteIncluded receipt)
       (detectRecountUserAsOther isUserVoteIncluded receipt userVote)
       (detectIgnoreBotVotes receipt (context ≫= cx_expectedTotalVotes) (negb isUserVoteIncluded) (context ≫= cx_scenarios))
       (detectRecountBotVotes receipt userVote) (detectRandomErrors receipt))
    receipt (detectIndexAnomaly receipt) (default (NInt 0) (rc_invalidPresentedSlots receipt))
    (default (NInt 0) (rc_missingSlots receipt)) (default (NInt 0) (rc_validVotes receipt)).

Definition detectTampering `{Noble} (receipt : Receipt) (userVote : VoteData) (context : option TamperDetectionContext) :
    result TamperDetectionResult :=
  isUserVoteIncluded ← checkUserVoteInclusion userVote (rc_bulletinRoot receipt);
  Ok (detected_scenarios isUserVoteIncluded receipt userVote context).

End TamperReport.
