(* ===== verification/FinalizeInputs.v ===== *)
(** Preparing the finalization of a session (packages/application/src/finalize/
    usecases: finalize-session.ts, finalize-scenario-context.ts): the admission of
    the request, the scenario applied to the votes, the guest input of the votes
    that remain and the configuration its manifest will state. [now] is the
    reading of [Date.now()], [random] the draws of the scenario. *)
From S2P Require Import Prelude.
From S2P Require Import Hex.
From S2P Require Import JsNumber.
From S2P Require Import Contract.
From S2P Require Import Verifiers.
From S2P Require Import CtSession.
From S2P Require Import SessionVote.
From S2P Require Import FinStorage.
From S2P Require Import FinTransition.
From S2P Require Import MockStore.
From S2P Require Import GuestInput.
From S2P Require Import Scenario.
From S2P Require Import Rfc6962.
From S2P Require Import MerkleSpec.
From S2P Require Import TreeFacts.
From S2P Require Import JsText.
From S2P Require Import Bulletin.
From S2P Require Import CtSessionProofs.
From S2P Require Import SessionVoteProofs.
From S2P Require Import MockStoreProofs.
Import Contract.
Import CtSession.
Import SessionVote.
Import FinStorage.
Import GuestInput.
Import Scenario.

Module FinalizeInputs.

(** ** Errors *)

(** [ApplicationErrorCode], the codes of a finalization. *)
Inductive ApplicationErrorCode : Type :=
| INTERNAL_ERROR | SESSION_ALREADY_FINALIZED | USER_NOT_VOTED | VOTING_NOT_COMPLETE | VERIFICATION_FAILED
| INVALID_FINALIZATION_ARTIFACT.

(** [FinalizeSessionError]: of the details of an error its message. *)
Inductive FinalizeSessionError : Type :=
| api (code : ApplicationErrorCode) (details : string)
| invalid_image_id (expected : string) (actual : option string).

(** [Result<T, FinalizeSessionError>] *)
Inductive Finalized (A : Type) : Type :=
| Done (value : A)
| Failed (error : FinalizeSessionError).
Arguments Done {A} _.
Arguments Failed {A} _.

(** ** Data *)

Record FinalizeScenarioContext := mkScenarioContext {
  fc_scenarios : list string;
  fc_scenariosApplied : list string;
  fc_tamperMode : ScenarioTamperMode;
  fc_claimedCounts : list (string * num);
  fc_claimedTotalVotes : num;
  fc_summary : ScenarioSummary;
  fc_scenarioResult : option ScenarioResult;
  fc_affectedBotIds : option (list num);
}.

(** The part of [FinalizeSessionInput] that the preparation reads. *)
Record FinalizeSessionInput := mkFinalizeInput {
  fs_sessionId : string;
  fs_identity : SessionIdentityRecord;
  fs_voting : VotingRecord;
  fs_currentFinalization : option FinTransition.FinalizationRecord;
  fs_scenarioId : string;
}.

Record PreparedFinalizationInputs := mkPreparedInputs {
  pr_scenarioContext : FinalizeScenarioContext;
  pr_zkvmInput : ZkVMInput;
  pr_authoritativeElectionConfig : ElectionConfig;
}.

(** ** Admission *)

Definition is_finalized (r : option FinTransition.FinalizationRecord) : bool :=
  match r with
  | Some r => match FinTransition.fr_state r with succeeded _ _ _ _ => true | _ => false end
  | None => false
  end.

Definition admitFinalizationSession (input : FinalizeSessionInput) : Finalized num :=
  let identity := fs_identity input in
  let voting := fs_voting input in
  if negb (is_some (MockStore.parseSessionIdentityRecord (MockStore.identity_value identity))) ||
     negb (String.eqb (id_sessionId identity) (fs_sessionId input)) ||
     negb (String.eqb (vr_sessionId voting) (fs_sessionId input))
  then Failed (api INTERNAL_ERROR "Session identity is missing or invalid")
  else if is_finalized (fs_currentFinalization input) then Failed (api SESSION_ALREADY_FINALIZED "")
  else
    match vr_userParticipation voting with
    | not_cast => Failed (api USER_NOT_VOTED "")
    | cast userVoteIndex =>
        if Z.ltb (vr_botCount voting) BOT_COUNT then Failed (api VOTING_NOT_COMPLETE "") else Done userVoteIndex
    end.

(** ** Preparation *)

(** [Array.from(new Set(values))] *)
Definition distinct_values (l : list num) : list num :=
  fold_left (fun seen x => if existsb (same_value x) seen then seen else seen ++ [x]) l [].

Definition affected_bots (scenarioId : string) (userVoteIndex : num) (scenarioResult : option ScenarioResult) :
    option (list num) :=
  match scenarioResult with
  | Some r =>
      if String.eqb scenarioId "S3" || String.eqb scenarioId "S4"
      then Some (distinct_values (List.filter (fun index => negb (num_eqb index userVoteIndex))
                                    (map ch_voteIndex (changes r))))
      else None
  | None => None
  end.

Definition scenario_context (scenarioId : string) (userVoteIndex : num) (scenarios : list string)
    (application : ScenarioApplicationResult) : FinalizeScenarioContext :=
  mkScenarioContext scenarios (sa_scenariosApplied application) (sa_tamperMode application)
    (sa_claimedCounts application) (sa_claimedTotalVotes application) (sa_summary application)
    (sa_scenarioResult application) (affected_bots scenarioId userVoteIndex (sa_scenarioResult application)).

(** [{ ...voting, votes }] *)
Definition with_votes (voting : VotingRecord) (votes : list (num * StoredVoteRecord)) : VotingRecord :=
  mkVotingRecord (vr_sessionId voting) votes (vr_bulletin voting) (vr_bulletinRootHistory voting)
    (vr_botCount voting) (vr_userParticipation voting) (vr_lastActivityMs voting).

Definition reads_input (mode : ScenarioTamperMode) : bool :=
  match mode with tamper_input => true | _ => false end.

(** [number] of the input that the manifest compares with the configuration. *)
Definition expected_total (input : ZkVMInput) : Z :=
  match in_totalExpected input with NInt z => z | _ => 0 end.

Section with_noble.
Context `{Noble}.

(** The body of the [try]. *)
Definition prepare_inputs (now : Z) (random : Random) (input : FinalizeSessionInput) (userVoteIndex : num) :
    result PreparedFinalizationInputs :=
  let voting := fs_voting input in
  let scenarios := if String.eqb (fs_scenarioId input) "S0" then [] else [fs_scenarioId input] in
  application ← applyFinalizeScenarios (vr_votes voting) userVoteIndex (Some scenarios) None random;
  let sparse := reads_input (sa_tamperMode application) in
  let votesForInput := if sparse then sa_modifiedVotes application else vr_votes voting in
  zkvmInput ← buildZkVMInputFromSession now (fs_identity input) (with_votes voting votesForInput)
                (mkBuildOptions sparse);
  config ← Verifiers.resolveElectionConfigForManifest (Some (id_electionConfig (fs_identity input)))
             (in_electionConfigHash zkvmInput) (expected_total zkvmInput);
  Ok (mkPreparedInputs (scenario_context (fs_scenarioId input) userVoteIndex scenarios application) zkvmInput config).

(** A missing audit path is told apart from every other exception. *)
Definition prepareFinalizationInputs (now : Z) (random : Random) (input : FinalizeSessionInput) (userVoteIndex : num) :
    result (Finalized PreparedFinalizationInputs) :=
  try_catch (prepared ← prepare_inputs now random input userVoteIndex; Ok (Done prepared))
    (fun message =>
       Ok (Failed (api (if String.eqb message CT_PROOF_UNAVAILABLE_FOR_INDEX then VERIFICATION_FAILED
                        else INTERNAL_ERROR) message))).

(** The first part of [finalizeSessionUsecase]. *)
Definition admitted_inputs (now : Z) (random : Random) (input : FinalizeSessionInput) :
    result (Finalized PreparedFinalizationInputs) :=
  match admitFinalizationSession input with
  | Failed error => Ok (Failed error)
  | Done userVoteIndex => prepareFinalizationInputs now random input userVoteIndex
  end.

End with_noble.

(** ** The stored context (finalize-scenario-context.ts) *)

Definition toFinalizationScenarioContext (scenario : FinalizeScenarioContext) : FinalizationScenarioContext :=
  mkScenario (fc_scenariosApplied scenario) (fc_tamperMode scenario) (map snd (fc_claimedCounts scenario))
    (fc_claimedTotalVotes scenario) (ignoredCount (fc_summary scenario)) (recountedCount (fc_summary scenario))
    (userRecountChoice (fc_summary scenario)) (fc_affectedBotIds scenario).

End FinalizeInputs.

(** * What the preparation of a finalization promises: for every complete session
    and every scenario it succeeds, and the guest is given the whole log with
    exactly the votes the scenario leaves. *)
Import Rfc6962.
Import Bulletin.
Import FinalizeInputs.

(** ** Positions with one left out *)

Definition numbered (ks : list nat) : list num := map (fun k => NInt (Z.of_nat k)) ks.

Lemma count_numbered n : forall from, count_from (Z.of_nat from) n = numbered (seq from n).
Proof.
  induction n as [| n IH]; intros from; [done |]. cbn. f_equal.
  replace (Z.of_nat from + 1) with (Z.of_nat (S from)) by lia. apply IH.
Qed.

Lemma sort_increasing ks : StronglySorted lt ks -> sort_indices (numbered ks) = numbered ks.
Proof.
  unfold sort_indices. induction 1 as [| k ks _ IH Hk]; [done |]. cbn [numbered map js_sort]. unfold numbered in IH.
  rewrite IH. destruct ks as [| j ks]; [done |]. apply Forall_cons in Hk as [Hk _]. cbn [map sort_insert].
  unfold difference_sign. cbn [num_ltb]. destruct (Z.ltb_spec (Z.of_nat k) (Z.of_nat j)); [done | lia].
Qed.

Lemma seq_sorted n : forall from, StronglySorted lt (seq from n).
Proof.
  induction n as [| n IH]; intros from; cbn; constructor; [apply IH |].
  apply Forall_forall. intros k Hk%elem_of_seq. lia.
Qed.

Lemma in_delete {A} (l : list A) k x : x ∈ delete k l -> x ∈ l.
Proof.
  rewrite delete_take_drop. intros [Hx | Hx]%elem_of_app;
    [rewrite <- (take_drop k l) | rewrite <- (take_drop (S k) l)]; apply elem_of_app; [by left | by right].
Qed.

Lemma sorted_delete (l : list nat) : forall k, StronglySorted lt l -> StronglySorted lt (delete k l).
Proof.
  induction l as [| x l IH]; intros [| k] Hl; try done; apply StronglySorted_inv in Hl as [Hl Hx]; [done |].
  cbn. constructor; [by apply IH |]. rewrite Forall_forall in Hx |- *. intros y Hy. apply Hx.
  by apply (in_delete l k).
Qed.

Lemma numbered_delete ks : forall k, numbered (delete k ks) = delete k (numbered ks).
Proof. induction ks as [| x ks IH]; intros [| k]; try done. cbn. f_equal. apply IH. Qed.

Lemma fst_delete {A} (l : list (num * A)) : forall k, map fst (delete k l) = delete k (map fst l).
Proof. induction l as [| x l IH]; intros [| k]; try done. cbn. f_equal. apply IH. Qed.

Lemma in_delete_seq k j n : j ∈ delete k (seq 0 n) -> (j < n)%nat /\ j <> k.
Proof.
  intros Hj. assert (Hx := Hj). apply in_delete, elem_of_seq in Hx. split; [lia |]. intros ->.
  rewrite delete_take_drop in Hj. apply elem_of_app in Hj as [Hj | Hj]; apply list_elem_of_lookup in Hj as [i Hi].
  - assert (Hl := lookup_lt_Some _ _ _ Hi). rewrite length_take in Hl. rewrite lookup_take_lt in Hi by lia.
    apply lookup_seq in Hi. lia.
  - rewrite lookup_drop in Hi. apply lookup_seq in Hi. lia.
Qed.

(** A relation that is a function of its first argument has one image. *)
Lemma forall2_same {A B} (R : A -> B -> Prop) (l : list A) (k k' : list B) :
  (forall x y z, R x y -> R x z -> y = z) -> Forall2 R l k -> Forall2 R l k' -> k = k'.
Proof.
  intros HR H. revert k'. induction H as [| x y l k Hx _ IH]; intros k' H'; inversion H'; subst; [done |].
  f_equal; [by eapply HR | by apply IH].
Qed.

(** ** Text of a log identifier *)

Lemma valid_hex_normalizes s : isValidHexString s (Some 32) = true ->
  str_truthy s = true /\ exists l, normalizeHexOrZero (Some s) no_options = Ok l.
Proof.
  unfold isValidHexString. destruct (str_truthy s) eqn:Es; [| done]. cbn [negb].
  destruct (string_all is_lower_hex (normalizeHexString s)) eqn:Eh; [| done]. cbn [negb]. intros El%Z.eqb_eq.
  split; [done |]. rewrite normalize_eq in Eh, El. apply hex_of_lower in Eh.
  assert (Hl : slen (strip_hex_prefix s) = 64) by (rewrite to_lower_length in El; lia).
  exists ("0x" +:+ to_lower (strip_hex_prefix s))%string. destruct s as [| c s]; [done |].
  unfold normalizeHexOrZero, normalizeHex. rewrite Hl, Eh. done.
Qed.

Section prepared.
Context `{NobleLaws}.
Context {F : Type}.

Section session.
Context (identity : SessionIdentityRecord) (v : VotingRecord).
Hypothesis Hv : session_ok identity v.
Hypothesis Hcast : vr_votes v <> [].

(** ** The guest input of a session with one vote left out *)

Section without.
Context (kept : list (num * StoredVoteRecord)).

Lemma sparse_head now : exists s, getLatestSTHSnapshot now (with_votes v kept) (mkBuildOptions true) = Ok s /\
  head_snapshot v s.
Proof.
  destruct (persisted_snapshot identity v Hv Hcast) as (o & Ep & Hp). unfold getLatestSTHSnapshot.
  change (getLatestPersistedSTHSnapshot (with_votes v kept)) with (getLatestPersistedSTHSnapshot v). rewrite Ep.
  cbn [mbind result_bind]. destruct o as [s |]; [by exists s; split; [| apply Hp] |].
  cbn [allowSparseVoteIndices]. unfold getLiveBulletinSnapshot. cbn [vr_bulletin vr_votes with_votes].
  rewrite (board_size_votes identity v Hv). assert (Hn := some_votes v Hcast).
  destruct (Z.leb_spec (Z.of_nat (length (vr_votes v))) 0); [lia |].
  rewrite (head_text identity v Hv Hcast). cbn [attempt mbind result_bind]. eexists. split; [done |].
  split; [done |]. apply prefixed_text.
Qed.

(** The vote of a position that is kept. *)
Definition keeps (k : nat) (w : VoteWithProof) : Prop :=
  exists i stored, vr_votes v !! k = Some (i, stored) /\ w = guest_vote v k stored.

Lemma kept_vote k i stored : vr_votes v !! k = Some (i, stored) -> votes_get kept (NInt (Z.of_nat k)) = Some stored ->
  vote_with_proof (with_votes v kept) (id_electionId identity) (Z.of_nat (length (vr_votes v))) (Z.of_nat k) =
    Ok (guest_vote v k stored).
Proof.
  intros Hk Hg. rewrite <- (session_vote identity v Hv Hcast k i stored Hk). unfold vote_with_proof.
  cbn [vr_votes with_votes]. by rewrite Hg, (vote_found identity v Hv k i stored Hk).
Qed.

Lemma kept_votes ks :
  (forall k, k ∈ ks -> exists i stored, vr_votes v !! k = Some (i, stored) /\ votes_get kept (NInt (Z.of_nat k)) = Some stored) ->
  exists indices ws, as_vote_indices (numbered ks) = Ok indices /\
    votes_with_proofs (with_votes v kept) (id_electionId identity) (Z.of_nat (length (vr_votes v))) indices = Ok ws /\
    Forall2 keeps ks ws.
Proof.
  assert (Hmax := proj1 (canonical_indices_ok identity v Hv Hcast)).
  induction ks as [| k ks IH]; intros Hks; [by exists [], [] |].
  destruct IH as (indices & ws & Ei & Ew & HR); [intros j Hj; apply Hks; by right |].
  destruct (Hks k) as (i & stored & Hk & Hg); [by left |]. assert (Hlt := lookup_lt_Some _ _ _ Hk).
  exists (Z.of_nat k :: indices), (guest_vote v k stored :: ws). cbn [numbered map as_vote_indices].
  rewrite vote_check by (unfold zlength, BOT_COUNT, MAX_SAFE_INTEGER in *; lia). cbn [mbind result_bind].
  unfold numbered in Ei. rewrite Ei. split; [done |]. cbn [votes_with_proofs]. rewrite (kept_vote _ _ _ Hk Hg).
  cbn [mbind result_bind]. rewrite Ew. split; [done |]. constructor; [by exists i, stored | done].
Qed.

End without.

Lemma all_guest_votes : Forall2 keeps (seq 0 (length (vr_votes v))) (guest_votes v).
Proof.
  apply Forall2_same_length_lookup. split.
  - unfold guest_votes. by rewrite length_imap, length_map, length_seq.
  - intros k j w Hj Hw. apply lookup_seq in Hj as [-> Hj]. cbn in *.
    destruct (lookup_lt_is_Some_2 (vr_votes v) k Hj) as [[i stored] Hk]. exists i, stored. split; [done |].
    rewrite (guest_votes_lookup v k i stored Hk) in Hw. by injection Hw.
Qed.

(** Leaving out one vote leaves out its entry of the guest input. *)
Lemma sparse_votes k : (k < length (vr_votes v))%nat ->
  buildVotesWithProofs (with_votes v (delete k (vr_votes v))) (id_electionId identity)
    (Z.of_nat (length (vr_votes v))) (mkBuildOptions true) = Ok (delete k (guest_votes v)).
Proof.
  intros Hlt. assert (Hpos : positions_from 0 (vr_votes v)) by exact (lo_keys _ _ _ _ (so_log _ _ Hv)).
  assert (Hkeys : map fst (delete k (vr_votes v)) = numbered (delete k (seq 0 (length (vr_votes v))))).
  { rewrite fst_delete, numbered_delete, <- count_numbered. f_equal. exact Hpos. }
  destruct (kept_votes (delete k (vr_votes v)) (delete k (seq 0 (length (vr_votes v))))) as (indices & ws & Ei & Ew & HR).
  { intros j Hj. apply in_delete_seq in Hj as [Hj Hne]. destruct (lookup_lt_is_Some_2 (vr_votes v) j Hj) as [[i stored] Hl].
    exists i, stored. split; [done |]. assert (Hg := get_at (vr_votes v) 0 j Hpos). rewrite Hl, Z.add_0_l in Hg.
    rewrite <- (delete_at (vr_votes v) 0 k Hpos), Z.add_0_l. revert Hg. clear - Hne.
    unfold votes_get, votes_delete. induction (vr_votes v) as [| [x w] l IH]; [done |].
    cbn [List.find List.filter fst]. destruct x as [z | q | n |]; cbn [negb]; rewrite ?same_value_int.
    2-4: exact IH.
    destruct (Z.eqb_spec z (Z.of_nat j)) as [-> |].
    - destruct (Z.eqb_spec (Z.of_nat j) (Z.of_nat k)); [lia |]. cbn [negb List.find fst].
      rewrite same_value_int, Z.eqb_refl. done.
    - destruct (Z.eqb_spec z (Z.of_nat k)); cbn [negb List.find fst]; [exact IH |].
      rewrite same_value_int. destruct (Z.eqb_spec z (Z.of_nat j)); [done | exact IH]. }
  unfold buildVotesWithProofs, resolveInputVoteIndices. cbn [vr_votes with_votes allowSparseVoteIndices negb].
  rewrite Hkeys, sort_increasing by apply sorted_delete, seq_sorted. rewrite Ei. cbn [try_catch mbind result_bind].
  rewrite Ew. f_equal. eapply (forall2_same keeps); [| exact HR | by apply Forall2_delete, all_guest_votes].
  intros j w w' (i & s & E1 & ->) (i' & s' & E2 & ->). congruence.
Qed.

End session.

Lemma with_own_votes v : with_votes v (vr_votes v) = v.
Proof. by destruct v. Qed.

(** ** The guest input *)

(** The votes the guest is given. *)
Definition guest_record (v : VotingRecord) (t : option tampering) : list VoteWithProof :=
  match t with Some (left_out k _) => delete k (guest_votes v) | _ => guest_votes v end.

(** The input of a session, with the whole log and the votes that are kept. *)
Definition prepared_input (identity : SessionIdentityRecord) (v : VotingRecord) (t : option tampering) (input : ZkVMInput) :
    Prop :=
  in_electionId input = id_electionId identity /\
  in_bulletinRoot input = prefixed (root_of (board_bytes (vr_bulletin v))) /\
  in_treeSize input = NInt (zlength (vr_votes v)) /\
  in_electionConfigHash input = id_electionConfigHash identity /\
  in_totalExpected input = NInt (cfg_totalExpected (id_electionConfig identity)) /\
  in_votes input = guest_record v t.

Section complete.
Context (identity : SessionIdentityRecord) (v : VotingRecord).
Hypothesis Hv : session_ok identity v.
Hypothesis Hid : vr_sessionId v = id_sessionId identity.
Hypothesis Hparse : is_some (MockStore.parseSessionIdentityRecord (MockStore.identity_value identity)) = true.
Hypothesis Hconfig : hasMatchingElectionConfigHash (id_electionConfig identity) (id_electionConfigHash identity) = true.
Hypothesis Huser : vr_userParticipation v <> not_cast.
Hypothesis Hbots : vr_botCount v = BOT_COUNT.

Lemma complete_votes : vr_userParticipation v = cast (NInt 0) /\ zlength (vr_votes v) = BOT_COUNT + 1.
Proof.
  assert (Hu := so_user _ _ Hv). destruct (vr_userParticipation v) as [| i]; [done |]. destruct Hu as [-> Hz].
  by rewrite Hbots in Hz.
Qed.

Lemma complete_cast : vr_votes v <> [].
Proof. intros E. assert (Hz := proj2 complete_votes). by rewrite E in Hz. Qed.

Lemma complete_entries : session_entries (vr_votes v).
Proof.
  assert (Hz := proj2 complete_votes). split.
  - exact (lo_keys _ _ _ _ (so_log _ _ Hv)).
  - unfold choices_of. apply Forall_map, Forall_lookup. intros k [i stored] Hk.
    destruct (lo_votes _ _ _ _ (so_log _ _ Hv) k i stored Hk) as [_ [Hc _ _]]. exact Hc.
  - rewrite Hz. unfold BOT_COUNT, MAX_SAFE_INTEGER. lia.
Qed.

Lemma log_text : str_truthy (id_logId identity) = true /\
  exists l, normalizeHexOrZero (Some (id_logId identity)) no_options = Ok l.
Proof.
  apply valid_hex_normalizes.
  destruct (MockStore.parseSessionIdentityRecord (MockStore.identity_value identity)) as [r |] eqn:E; [| done].
  assert (Er := identity_same _ _ E). subst r. unfold MockStore.parseSessionIdentityRecord in E.
  destruct (negb _ || _); [done |]. unfold mbind, option_bind in E. parts E.
  match type of E with (if ?b then _ else _) = _ => destruct b eqn:Eb; [done |] end.
  apply orb_false_iff in Eb as [_ Eb]. apply negb_false_iff in Eb. injection E as E. rewrite <- E. exact Eb.
Qed.

Lemma input_with now kept options t :
  (exists s, getLatestSTHSnapshot now (with_votes v kept) options = Ok s /\ head_snapshot v s) ->
  buildVotesWithProofs (with_votes v kept) (id_electionId identity) (Z.of_nat (length (vr_votes v))) options =
    Ok (guest_record v t) ->
  exists input, buildZkVMInputFromSession now identity (with_votes v kept) options = Ok input /\
    prepared_input identity v t input.
Proof.
  intros (s & Es & Hsize & Hroot) Ev. destruct log_text as (Hlog & logId & El).
  unfold buildZkVMInputFromSession. cbn [vr_sessionId with_votes]. rewrite Hid, String.eqb_refl, Hconfig, Hlog, Es.
  cbn [negb mbind result_bind]. rewrite Hroot. cbn [mbind result_bind]. rewrite El, Hsize. cbn [mbind result_bind].
  rewrite Ev. cbn [mbind result_bind]. eexists. split; [done |]. unfold prepared_input.
  cbn [in_electionId in_bulletinRoot in_treeSize in_electionConfigHash in_totalExpected in_votes].
  by rewrite (head_root identity v Hv complete_cast).
Qed.

Lemma full_input now : exists input,
  buildZkVMInputFromSession now identity (with_votes v (vr_votes v)) (mkBuildOptions false) = Ok input /\
  prepared_input identity v None input.
Proof.
  apply input_with; rewrite with_own_votes.
  - by apply (session_head identity); [| apply complete_cast].
  - by apply (all_votes identity); [| apply complete_cast].
Qed.

Lemma sparse_input now k stored : (k < length (vr_votes v))%nat -> exists input,
  buildZkVMInputFromSession now identity (with_votes v (delete k (vr_votes v))) (mkBuildOptions true) = Ok input /\
  prepared_input identity v (Some (left_out k stored)) input.
Proof.
  intros Hk. apply input_with.
  - by apply (sparse_head identity); [| apply complete_cast].
  - by apply (sparse_votes identity); [| apply complete_cast |].
Qed.

(** ** The scenario *)

(** What the scenario of a request does: nothing for S0, one tampering otherwise. *)
Definition scenario_of (votes : list (num * StoredVoteRecord)) (s : string) (t : option tampering) : Prop :=
  match t with None => s = "S0"%string | Some t => tampers votes s t end.

Definition untampered_application (votes : list (num * StoredVoteRecord)) : ScenarioApplicationResult :=
  mkApplication votes None [] (mkSummary (NInt 0) (NInt 0) None) (tally_entries (votes_for (choices_of votes)))
    (NInt (zlength votes)) tamper_none.

Definition application_of (votes : list (num * StoredVoteRecord)) (s : string) (t : option tampering) :
    ScenarioApplicationResult :=
  match t with None => untampered_application votes | Some t => tampered_application votes s t end.

Lemma untampered votes random : session_entries votes ->
  applyFinalizeScenarios votes (NInt 0) (Some []) None random = Ok (untampered_application votes).
Proof.
  intros Hs. assert (Hl := se_size _ Hs). unfold applyFinalizeScenarios, untampered_application.
  change (negb (isInteger (NInt 0)) || num_ltb (NInt 0) (NInt 0)) with false. cbv iota zeta.
  change (if Z.ltb 0 (zlength (default [] (Some ([] : list string)))) then _ else _) with ([] : list string). cbv iota.
  rewrite tally_votes by (lia || apply Hs). do 2 f_equal.
  assert (Hz : zlength (choices_of votes) = zlength votes) by (unfold zlength, choices_of; by rewrite length_map).
  rewrite total_entries; [by rewrite Hz | lia | apply Hs].
Qed.

(** The inputs of a scenario, and what they state. *)
Lemma inputs_of_scenario now random current s : random_ok random -> is_finalized current = false ->
  s ∈ ["S0"; "S1"; "S2"; "S3"; "S4"; "S5"]%string ->
  exists t p, admitted_inputs now random (mkFinalizeInput (id_sessionId identity) identity v current s) = Ok (Done p) /\
    scenario_of (vr_votes v) s t /\
    pr_scenarioContext p = scenario_context s (NInt 0) (match t with None => [] | Some _ => [s] end)
                             (application_of (vr_votes v) s t) /\
    prepared_input identity v t (pr_zkvmInput p) /\
    pr_authoritativeElectionConfig p = cloneElectionConfig (id_electionConfig identity).
Proof.
  intros Hr Hcurrent Hs.
  assert (Hadmit : admitFinalizationSession (mkFinalizeInput (id_sessionId identity) identity v current s) = Done (NInt 0)).
  { unfold admitFinalizationSession. cbn [fs_identity fs_voting fs_sessionId fs_currentFinalization].
    rewrite Hparse, Hid, String.eqb_refl, Hcurrent, (proj1 complete_votes), Hbots. done. }
  assert (Happ : exists t, scenario_of (vr_votes v) s t /\
            applyFinalizeScenarios (vr_votes v) (NInt 0) (Some (match t with None => [] | Some _ => [s] end)) None random =
              Ok (application_of (vr_votes v) s t)).
  { destruct (decide (s = "S0"%string)) as [-> | Hne].
    - exists None. split; [done |]. apply untampered, complete_entries.
    - destruct (scenario_applied (vr_votes v) random s complete_entries Hr) as (t & Ht & Ea);
        [by apply elem_of_cons in Hs as [-> | Hs] |]. by exists (Some t). }
  destruct Happ as (t & Ht & Ea).
  assert (Es : (if String.eqb s "S0" then [] else [s]) = match t with None => [] | Some _ => [s] end).
  { destruct t as [t |]; [| by rewrite Ht]. destruct (String.eqb_spec s "S0") as [-> |]; [| done].
    destruct Ht as [Ht _]. destruct t; cbn in Ht; intuition discriminate. }
  assert (Hin : exists input, buildZkVMInputFromSession now identity
             (with_votes v (if reads_input (sa_tamperMode (application_of (vr_votes v) s t))
                            then sa_modifiedVotes (application_of (vr_votes v) s t) else vr_votes v))
             (mkBuildOptions (reads_input (sa_tamperMode (application_of (vr_votes v) s t)))) = Ok input /\
             prepared_input identity v t input).
  { destruct t as [[k stored | k stored choice] |].
    - apply sparse_input. destruct Ht as [_ Hk]. by apply lookup_lt_Some in Hk.
    - destruct (full_input now) as (input & E & Hi). by exists input.
    - apply full_input. }
  destruct Hin as (input & Ei & Hi). unfold admitted_inputs. rewrite Hadmit. unfold prepareFinalizationInputs, prepare_inputs.
  cbn [fs_identity fs_voting fs_scenarioId]. cbv zeta. rewrite Es, Ea. cbn [mbind result_bind]. rewrite Ei.
  cbn [mbind result_bind]. assert (Hi' := Hi). destruct Hi' as (_ & _ & _ & Hhash & Htotal & _).
  unfold Verifiers.resolveElectionConfigForManifest, expected_total. rewrite Hhash, Htotal.
  cbn [cloneElectionConfig cfg_totalExpected]. rewrite Z.eqb_refl.
  assert (Hclone : hasMatchingElectionConfigHash (cloneElectionConfig (id_electionConfig identity))
                     (id_electionConfigHash identity) = true) by exact Hconfig.
  unfold cloneElectionConfig in *. rewrite Hclone. cbn [negb mbind result_bind try_catch].
  eexists t, _. split; [done |]. split; [done |]. split; [done |]. split; [exact Hi | done].
Qed.

End complete.

(** C25: Every complete session is prepared for every scenario, at its first or later
    attempts: no audit path is missing and no exception is reported. The guest is
    given the whole log, its root and its size, whatever the scenario; it is given
    every vote, except that S1, S3 and S5 leave out exactly the vote the scenario
    chose, at its position. The context states the tally of the tampered votes. *)
Theorem finalization_prepared now random identity v current s :
  voting_reachable (F := F) identity v -> vr_userParticipation v <> not_cast -> vr_botCount v = BOT_COUNT ->
  is_some (MockStore.parseSessionIdentityRecord (MockStore.identity_value identity)) = true ->
  hasMatchingElectionConfigHash (id_electionConfig identity) (id_electionConfigHash identity) = true ->
  random_ok random -> is_finalized current = false -> s ∈ ["S0"; "S1"; "S2"; "S3"; "S4"; "S5"]%string ->
  exists t p, admitted_inputs now random (mkFinalizeInput (id_sessionId identity) identity v current s) = Ok (Done p) /\
    scenario_of (vr_votes v) s t /\
    pr_scenarioContext p = scenario_context s (NInt 0) (match t with None => [] | Some _ => [s] end)
                             (application_of (vr_votes v) s t) /\
    prepared_input identity v t (pr_zkvmInput p) /\
    pr_authoritativeElectionConfig p = cloneElectionConfig (id_electionConfig identity).
Proof.
  intros Hr Huser Hbots Hparse Hconfig Hrandom Hcurrent Hs.
  apply inputs_of_scenario; try done; [by apply (voting_reachable_ok (F := F)) | by apply (reachable_session_id (F := F))].
Qed.

End prepared.
