(* ===== verification/AuditConsistency.v ===== *)
(** The consistency of the public audit artifacts with the journal
    (packages/verification/src/verification/public-audit-artifact-consistency.ts):
    the published input, the election manifest and the close statement against
    the journal and against each other. *)
From S2P Require Import Prelude.
From S2P Require Import Hex.
From S2P Require Import JsNumber.
From S2P Require Import LocalCast.
From S2P Require Import Contract.
From S2P Require Import Evidence.
From S2P Require Import Verifiers.
From S2P Require Import Journal.
From S2P Require Import PublicInput.
From S2P Require Import EngineErrors.
Import LocalCast.
Import Contract.
Import Evidence.
Import PublicInput.

Module AuditConsistency.

Inductive AuditArtifact : Type := audit_publicInputArtifact | audit_electionManifest | audit_closeStatement.

Record PublicAuditArtifactConsistencyIssue := mkIssue {
  is_artifact : AuditArtifact;
  is_reason : string;
}.

Record PublicAuditArtifactResolution := mkResolution {
  re_publicInputArtifact : option SupportedPublicInputArtifact;
  re_electionManifest : option ElectionManifest;
  re_closeStatement : option CloseStatement;
  re_issues : list PublicAuditArtifactConsistencyIssue;
}.

(** The context an artifact must come from. *)
Record PublicInputContext := mkContext {
  pc_finalizationId : option string;
  pc_bundleKey : option string;
  pc_hasLocalPublicInputAuthority : bool;
}.

(** [if (condition) issues.push(...)] *)
Definition issue_if (condition : bool) (artifact : AuditArtifact) (reason : string) :
    list PublicAuditArtifactConsistencyIssue :=
  if condition then [mkIssue artifact reason] else [].

Definition matchesHex (left right : option string) : bool :=
  match left, right with
  | Some l, Some r => String.eqb (normalizeHexString l) (normalizeHexString r)
  | _, _ => false
  end.

Definition admitConsistentArtifact {T} (value : T) (issues : list PublicAuditArtifactConsistencyIssue) :
    option T * list PublicAuditArtifactConsistencyIssue :=
  match issues with [] => (Some value, []) | _ => (None, issues) end.

(** ** Provenance *)

(** [expected ? actual === expected : actual === undefined] *)
Definition matchesGeneratedProvenance (actual expected : option string) : bool :=
  match nonempty expected with
  | Some e => bool_decide (actual = Some e)
  | None => bool_decide (actual = None)
  end.

(** [expected && actual !== expected] *)
Definition contradicts (expected actual : option string) : bool :=
  match nonempty expected with
  | Some e => negb (bool_decide (actual = Some e))
  | None => false
  end.

Definition matchesLocalPublicInputContext (artifact : SupportedPublicInputArtifact) (authority : PublicInputContext) : bool :=
  if contradicts (pc_finalizationId authority) (sp_finalizationId artifact) then false
  else if contradicts (pc_bundleKey authority) (sp_bundleKey artifact) then false
  else true.

Definition hasAuthoritativePublicInputContext (artifact : SupportedPublicInputArtifact) (authority : PublicInputContext) :
    bool :=
  if pc_hasLocalPublicInputAuthority authority then matchesLocalPublicInputContext artifact authority
  else
    match sp_source artifact with
    | generated =>
        matchesGeneratedProvenance (sp_finalizationId artifact) (pc_finalizationId authority) &&
        matchesGeneratedProvenance (sp_bundleKey artifact) (pc_bundleKey authority)
    | bundle =>
        match nonempty (pc_bundleKey authority), nonempty (sp_bundleKey artifact) with
        | Some expected, Some actual =>
            if negb (String.eqb actual expected) then false
            else
              match nonempty (pc_finalizationId authority) with
              | None => true
              | Some id => bool_decide (sp_finalizationId artifact = Some id)
              end
        | _, _ => false
        end
    end.

(** ** The published input *)

Definition comparePublicInputAuthority (a : PublicInputAuthority) (journal : ZkVMJournal) :
    list PublicAuditArtifactConsistencyIssue :=
  let issue c r := issue_if c audit_publicInputArtifact r in
  issue (negb (String.eqb (pa_electionId a) (j_electionId journal))) "election_id_mismatch" ++
  issue (negb (matchesHex (Some (pa_electionConfigHash a)) (Some (j_electionConfigHash journal))))
    "election_config_hash_mismatch" ++
  issue (negb (matchesHex (Some (pa_bulletinRoot a)) (Some (j_bulletinRoot journal)))) "bulletin_root_mismatch" ++
  issue (negb (num_eqb (pa_treeSize a) (j_treeSize journal))) "tree_size_mismatch" ++
  issue (negb (num_eqb (pa_totalExpected a) (j_totalExpected journal))) "total_expected_mismatch" ++
  issue (negb (matchesHex (Some (pa_recomputedInputCommitment a)) (Some (j_inputCommitment journal))))
    "input_commitment_mismatch" ++
  issue (negb (Journal.isSupportedJournalMethodVersion (Some (pa_methodVersion a))) ||
         negb (num_eqb (pa_methodVersion a) (j_methodVersion journal))) "method_version_mismatch".

Definition resolveConsistentPublicInputArtifact (artifact : option SupportedPublicInputArtifact) (journal : ZkVMJournal)
    (authority : PublicInputContext) :
    option SupportedPublicInputArtifact * list PublicAuditArtifactConsistencyIssue :=
  match artifact with
  | None => (None, [mkIssue audit_publicInputArtifact "missing_authoritative_public_input_artifact"])
  | Some artifact =>
      if negb (hasAuthoritativePublicInputContext artifact authority)
      then (None, [mkIssue audit_publicInputArtifact "non_authoritative_provenance"])
      else admitConsistentArtifact artifact (comparePublicInputAuthority (sp_typedAuthority artifact) journal)
  end.

Section with_noble.
Context `{Noble}.

(** ** The election manifest *)

(** [publicInputArtifact && condition] *)
Definition against (publicInputArtifact : option SupportedPublicInputArtifact) (wrong : PublicInputAuthority -> bool) : bool :=
  match publicInputArtifact with Some a => wrong (sp_typedAuthority a) | None => false end.

Definition collectManifestIdentityIssues (manifest : ElectionManifest) (journal : ZkVMJournal)
    (publicInputArtifact : option SupportedPublicInputArtifact) : list PublicAuditArtifactConsistencyIssue :=
  let total := NInt (cfg_totalExpected (em_config manifest)) in
  let issue c r := issue_if c audit_electionManifest r in
  issue (negb (String.eqb (em_electionId manifest) (j_electionId journal))) "election_id_mismatch" ++
  issue (against publicInputArtifact (fun a => negb (String.eqb (em_electionId manifest) (pa_electionId a))))
    "public_input_election_id_mismatch" ++
  issue (negb (num_eqb total (j_totalExpected journal))) "total_expected_mismatch" ++
  issue (against publicInputArtifact (fun a => negb (num_eqb total (pa_totalExpected a))))
    "public_input_total_expected_mismatch".

Definition collectManifestHashIssues (manifest : ElectionManifest) (journal : ZkVMJournal)
    (publicInputArtifact : option SupportedPublicInputArtifact) (recomputedHash : string) :
    list PublicAuditArtifactConsistencyIssue :=
  let hash := Some (em_electionConfigHash manifest) in
  let issue c r := issue_if c audit_electionManifest r in
  issue (negb (matchesHex hash (Some recomputedHash))) "self_hash_mismatch" ++
  issue (negb (matchesHex hash (Some (j_electionConfigHash journal)))) "journal_hash_mismatch" ++
  issue (against publicInputArtifact (fun a => negb (matchesHex hash (Some (pa_electionConfigHash a)))))
    "public_input_hash_mismatch".

Definition resolveConsistentElectionManifest (manifest : option ElectionManifest) (journal : ZkVMJournal)
    (publicInputArtifact : option SupportedPublicInputArtifact) :
    option ElectionManifest * list PublicAuditArtifactConsistencyIssue :=
  match manifest with
  | None => (None, [])
  | Some manifest =>
      let recomputedHash := Verifiers.recomputeElectionManifestHash manifest in
      admitConsistentArtifact manifest
        (collectManifestIdentityIssues manifest journal publicInputArtifact ++
         collectManifestHashIssues manifest journal publicInputArtifact recomputedHash)
  end.

(** ** The close statement *)

(** The issue of the [catch] branch is for exceptions of the recomputation. *)
Definition appendCloseStatementDigestIssues (closeStatement : CloseStatement) (journal : ZkVMJournal) :
    result (list PublicAuditArtifactConsistencyIssue) :=
  try_catch
    (recomputed ← Verifiers.buildCloseStatement (cs_logId closeStatement) (j_treeSize journal)
                    (cs_timestamp closeStatement) (j_bulletinRoot journal);
     Ok (issue_if (negb (matchesHex (Some (cs_sthDigest closeStatement)) (Some (cs_sthDigest recomputed))))
           audit_closeStatement "sth_digest_mismatch"))
    (fun _ => Ok [mkIssue audit_closeStatement "invalid_digest_inputs"]).

Definition resolveConsistentCloseStatement (closeStatement : option CloseStatement) (journal : ZkVMJournal)
    (publicInputArtifact : option SupportedPublicInputArtifact) :
    result (option CloseStatement * list PublicAuditArtifactConsistencyIssue) :=
  match closeStatement with
  | None => Ok (None, [])
  | Some statement =>
      let issue c r := issue_if c audit_closeStatement r in
      digest ← appendCloseStatementDigestIssues statement journal;
      Ok (admitConsistentArtifact statement
            (issue (negb (num_eqb (cs_treeSize statement) (j_treeSize journal))) "tree_size_mismatch" ++
             issue (negb (matchesHex (Some (cs_bulletinRoot statement)) (Some (j_bulletinRoot journal))))
               "bulletin_root_mismatch" ++
             digest ++
             issue (negb (matchesHex (Some (cs_sthDigest statement)) (Some (j_sthDigest journal))))
               "journal_sth_digest_mismatch" ++
             issue (against publicInputArtifact
                      (fun a => negb (matchesHex (Some (cs_logId statement)) (Some (pa_logId a))))) "log_id_mismatch" ++
             issue (against publicInputArtifact (fun a => negb (num_eqb (cs_timestamp statement) (pa_timestamp a))))
               "timestamp_mismatch"))
  end.

(** ** Resolution *)

(** Also [hasConsistentPublicAuditArtifactsWithJournal], below, reads the journal
    alone. *)
Definition resolveConsistentPublicAuditArtifacts (journal : ZkVMJournal)
    (publicInputArtifact : option SupportedPublicInputArtifact) (electionManifest : option ElectionManifest)
    (closeStatement : option CloseStatement) (authority : PublicInputContext) : result PublicAuditArtifactResolution :=
  let input := resolveConsistentPublicInputArtifact publicInputArtifact journal authority in
  let manifest := resolveConsistentElectionManifest electionManifest journal input.1 in
  statement ← resolveConsistentCloseStatement closeStatement journal input.1;
  Ok (mkResolution input.1 manifest.1 statement.1 (input.2 ++ manifest.2 ++ statement.2)).

Definition no_issues (issues : list PublicAuditArtifactConsistencyIssue) : bool :=
  match issues with [] => true | _ => false end.

Definition hasConsistentPublicAuditArtifactsWithJournal (journal : ZkVMJournal)
    (electionManifest : option ElectionManifest) (closeStatement : option CloseStatement) : result bool :=
  if negb (no_issues (resolveConsistentElectionManifest electionManifest journal None).2) then Ok false
  else
    statement ← resolveConsistentCloseStatement closeStatement journal None;
    Ok (no_issues statement.2).

End with_noble.
End AuditConsistency.

(** * What consistent audit artifacts state: the published input, the manifest and
    the close statement are those of one election, the one of the journal. *)
Import AuditConsistency.

(** ** Issues *)

Lemma issue_none c artifact reason : issue_if c artifact reason = [] <-> c = false.
Proof. by destruct c. Qed.

Lemma matchesHex_spec l r : matchesHex (Some l) (Some r) = true <-> normalizeHexString l = normalizeHexString r.
Proof. apply String.eqb_eq. Qed.

Lemma admit_none {T} (v : T) issues : (admitConsistentArtifact v issues).2 = [] <-> issues = [].
Proof. by destruct issues. Qed.

Lemma admit_value {T} (v : T) issues : issues = [] -> admitConsistentArtifact v issues = (Some v, []).
Proof. by intros ->. Qed.

Section audit.
Context `{Noble}.

(** The artifacts and the journal agree. *)
Record audit_agrees (journal : ZkVMJournal) (input : SupportedPublicInputArtifact) (manifest : ElectionManifest)
    (statement : CloseStatement) : Prop := {
  aa_electionId : pa_electionId (sp_typedAuthority input) = j_electionId journal /\
    em_electionId manifest = j_electionId journal;
  aa_config : normalizeHexString (pa_electionConfigHash (sp_typedAuthority input)) =
      normalizeHexString (j_electionConfigHash journal) /\
    normalizeHexString (em_electionConfigHash manifest) = normalizeHexString (j_electionConfigHash journal) /\
    normalizeHexString (hashElectionConfig (em_config manifest)) = normalizeHexString (j_electionConfigHash journal);
  aa_total : j_totalExpected journal = NInt (cfg_totalExpected (em_config manifest)) /\
    pa_totalExpected (sp_typedAuthority input) = NInt (cfg_totalExpected (em_config manifest));
  aa_size : num_eqb (pa_treeSize (sp_typedAuthority input)) (j_treeSize journal) = true /\
    num_eqb (cs_treeSize statement) (j_treeSize journal) = true;
  aa_root : normalizeHexString (pa_bulletinRoot (sp_typedAuthority input)) = normalizeHexString (j_bulletinRoot journal) /\
    normalizeHexString (cs_bulletinRoot statement) = normalizeHexString (j_bulletinRoot journal);
  aa_commitment : normalizeHexString (pa_recomputedInputCommitment (sp_typedAuthority input)) =
    normalizeHexString (j_inputCommitment journal);
  aa_version : Journal.isSupportedJournalMethodVersion (Some (pa_methodVersion (sp_typedAuthority input))) = true /\
    num_eqb (pa_methodVersion (sp_typedAuthority input)) (j_methodVersion journal) = true;
  aa_log : normalizeHexString (cs_logId statement) = normalizeHexString (pa_logId (sp_typedAuthority input)) /\
    num_eqb (cs_timestamp statement) (pa_timestamp (sp_typedAuthority input)) = true;
  aa_digest : normalizeHexString (cs_sthDigest statement) = normalizeHexString (j_sthDigest journal) /\
    exists recomputed, Verifiers.buildCloseStatement (cs_logId statement) (j_treeSize journal) (cs_timestamp statement)
                         (j_bulletinRoot journal) = Ok recomputed /\
      normalizeHexString (cs_sthDigest statement) = normalizeHexString (cs_sthDigest recomputed);
}.

(** ** The parts *)

Lemma input_issues a j : comparePublicInputAuthority a j = [] <->
  pa_electionId a = j_electionId j /\
  normalizeHexString (pa_electionConfigHash a) = normalizeHexString (j_electionConfigHash j) /\
  normalizeHexString (pa_bulletinRoot a) = normalizeHexString (j_bulletinRoot j) /\
  num_eqb (pa_treeSize a) (j_treeSize j) = true /\ num_eqb (pa_totalExpected a) (j_totalExpected j) = true /\
  normalizeHexString (pa_recomputedInputCommitment a) = normalizeHexString (j_inputCommitment j) /\
  Journal.isSupportedJournalMethodVersion (Some (pa_methodVersion a)) = true /\
  num_eqb (pa_methodVersion a) (j_methodVersion j) = true.
Proof.
  unfold comparePublicInputAuthority. cbv zeta.
  rewrite !app_nil, !issue_none, orb_false_iff, !negb_false_iff, !matchesHex_spec, String.eqb_eq. tauto.
Qed.

Lemma manifest_issues m j input : (resolveConsistentElectionManifest (Some m) j (Some input)).2 = [] <->
  em_electionId m = j_electionId j /\ em_electionId m = pa_electionId (sp_typedAuthority input) /\
  j_totalExpected j = NInt (cfg_totalExpected (em_config m)) /\
  pa_totalExpected (sp_typedAuthority input) = NInt (cfg_totalExpected (em_config m)) /\
  normalizeHexString (em_electionConfigHash m) = normalizeHexString (hashElectionConfig (em_config m)) /\
  normalizeHexString (em_electionConfigHash m) = normalizeHexString (j_electionConfigHash j) /\
  normalizeHexString (em_electionConfigHash m) = normalizeHexString (pa_electionConfigHash (sp_typedAuthority input)).
Proof.
  unfold resolveConsistentElectionManifest. cbv zeta. rewrite admit_none, app_nil.
  unfold collectManifestIdentityIssues, collectManifestHashIssues, against, Verifiers.recomputeElectionManifestHash.
  rewrite !app_nil, !issue_none, !negb_false_iff, !matchesHex_spec, !String.eqb_eq, !num_eqb_int_l. tauto.
Qed.

Lemma build_no_fuel l n t r : Verifiers.buildCloseStatement l n t r <> Err OutOfFuel.
Proof. apply nf_closeStatement. Qed.

Lemma statement_issues s j input : exists answer, resolveConsistentCloseStatement (Some s) j (Some input) = Ok answer /\
  (answer.2 = [] -> answer = (Some s, [])) /\
  (answer.2 = [] <->
   num_eqb (cs_treeSize s) (j_treeSize j) = true /\
   normalizeHexString (cs_bulletinRoot s) = normalizeHexString (j_bulletinRoot j) /\
   (exists recomputed, Verifiers.buildCloseStatement (cs_logId s) (j_treeSize j) (cs_timestamp s) (j_bulletinRoot j) =
      Ok recomputed /\ normalizeHexString (cs_sthDigest s) = normalizeHexString (cs_sthDigest recomputed)) /\
   normalizeHexString (cs_sthDigest s) = normalizeHexString (j_sthDigest j) /\
   normalizeHexString (cs_logId s) = normalizeHexString (pa_logId (sp_typedAuthority input)) /\
   num_eqb (cs_timestamp s) (pa_timestamp (sp_typedAuthority input)) = true).
Proof.
  unfold resolveConsistentCloseStatement, appendCloseStatementDigestIssues, against. cbv zeta.
  assert (Hf := build_no_fuel (cs_logId s) (j_treeSize j) (cs_timestamp s) (j_bulletinRoot j)).
  destruct (Verifiers.buildCloseStatement _ _ _ _) as [recomputed | [message |]]; [| | done];
    cbn [mbind result_bind try_catch]; (eexists; split; [done |]; rewrite admit_none; split; [apply admit_value |]);
    rewrite !app_nil, !issue_none, !negb_false_iff, !matchesHex_spec.
  - split; [intros E; destruct_and? E; split_and!; try done; by exists recomputed |].
    intros (? & ? & (r & [= <-] & ?) & ? & ? & ?). by split_and!.
  - split; [intros E; by destruct_and? E |]. by intros (_ & _ & (r & ? & _) & _).
Qed.

Lemma statement_answers s j o : exists answer, resolveConsistentCloseStatement s j o = Ok answer.
Proof.
  destruct s as [s |]; [| by eexists]. unfold resolveConsistentCloseStatement, appendCloseStatementDigestIssues. cbv zeta.
  assert (Hf := build_no_fuel (cs_logId s) (j_treeSize j) (cs_timestamp s) (j_bulletinRoot j)).
  destruct (Verifiers.buildCloseStatement _ _ _ _) as [recomputed | [message |]]; [by eexists .. | done].
Qed.

Lemma input_resolved input j authority :
  (resolveConsistentPublicInputArtifact (Some input) j authority).2 = [] <->
  hasAuthoritativePublicInputContext input authority = true /\ comparePublicInputAuthority (sp_typedAuthority input) j = [].
Proof.
  unfold resolveConsistentPublicInputArtifact. destruct (hasAuthoritativePublicInputContext _ _); cbn [negb].
  - rewrite admit_none. tauto.
  - split; [done | by intros []].
Qed.

(** The resolution always answers. It reports no issue exactly when the published
    input comes from the expected context and agrees, with the manifest and the
    close statement, on the election, its configuration, the tree head and the
    commitment of the journal; the three artifacts are then kept as they are. The
    comparisons of the manifest with the published input add nothing: they follow
    from those with the journal. *)
Theorem audit_artifacts_consistent_iff journal input manifest statement authority :
  exists r, resolveConsistentPublicAuditArtifacts journal (Some input) (Some manifest) (Some statement) authority = Ok r /\
    (re_issues r = [] <->
     hasAuthoritativePublicInputContext input authority = true /\ audit_agrees journal input manifest statement) /\
    (re_issues r = [] -> r = mkResolution (Some input) (Some manifest) (Some statement) []).
Proof.
  unfold resolveConsistentPublicAuditArtifacts. assert (Hi := input_resolved input journal authority).
  assert (Hv := input_issues (sp_typedAuthority input) journal).
  destruct (decide ((resolveConsistentPublicInputArtifact (Some input) journal authority).2 = [])) as [E | E].
  - assert (Ep := proj1 Hi E). destruct Ep as [Ha Ec]. assert (Hx := proj1 Hv Ec).
    unfold resolveConsistentPublicInputArtifact. rewrite Ha, Ec. cbn [negb admitConsistentArtifact fst snd].
    destruct (statement_issues statement journal input) as (answer & -> & Hkeep & Hs). cbn [mbind result_bind].
    assert (Hm := manifest_issues manifest journal input). eexists. split; [done |]. cbn [re_issues app].
    rewrite app_nil, Hm, Hs. split.
    + split.
      * intros E'. destruct_and? E'. destruct_and? Hx. split; [done |]. split; try done; split_and!; try done; try congruence.
      * intros [_ []]. destruct_and?. split_and!; try done; congruence.
    + intros [Em Es]. rewrite (Hkeep (proj2 Hs Es)). apply Hm in Em. revert Em.
      unfold resolveConsistentElectionManifest. cbv zeta. rewrite admit_none. by intros ->.
  - destruct (statement_answers (Some statement) journal
                (resolveConsistentPublicInputArtifact (Some input) journal authority).1) as [answer ->].
    cbn [mbind result_bind]. eexists. split; [done |]. cbn [re_issues]. rewrite !app_nil. split; [| by intros []].
    split; [by intros [? _] |]. intros [Ha []]. exfalso. apply E, Hi. split; [done |]. apply Hv. split_and!; try tauto.
    destruct aa_total0 as [-> ->]. by apply num_eqb_int.
Qed.

End audit.
