(* ===== verification/FinResult.v ===== *)
(** The result of a finalization
    (packages/application/src/finalize/finalization-result.ts): the result a
    journal gives, the scenario applied to it, and the canonical form of a stored
    result. *)
From S2P Require Import Prelude.
From S2P Require Import Hex.
From S2P Require Import JsNumber.
From S2P Require Import JsValue.
From S2P Require Import Contract.
From S2P Require Import Evidence.
From S2P Require Import Journal.
From S2P Require Import PublicInput.
From S2P Require Import FinStorage.
From S2P Require Import Presentation.
From S2P Require Import Tamper.
From S2P Require Import AuditConsistency.
From S2P Require Import JsText.
From S2P Require Import CtSession.
From S2P Require Import CtSessionProofs.
From S2P Require Import SessionVote.
From S2P Require Import SessionVoteProofs.
From S2P Require Import Scenario.
From S2P Require Import FinalizeInputs.
Import JsValue.
Import Evidence.
Import Contract.
Import Journal.
Import FinStorage.
Import TamperFacts.
Import AuditConsistency.

Module FinResult.

(** ** Stored documents as the records they were admitted as *)

Definition text_of (value : jsval) (key : string) : string :=
  match prop value key with JStr s => s | _ => ""%string end.
Definition number_of (value : jsval) (key : string) : num :=
  match prop value key with JNum n => n | _ => NNaN end.
Definition texts_of (value : jsval) (key : string) : list string :=
  match prop value key with
  | JArr l => omap (fun v => match v with JStr s => Some s | _ => None end) l
  | _ => []
  end.

Definition manifest_of (value : jsval) : Evidence.ElectionManifest :=
  Evidence.mkManifest (text_of value "electionId")
    (mkElectionConfig (num_Z (number_of value "totalExpected")) (texts_of value "choices") (text_of value "version")
       (num_Z (number_of value "botCount")) (num_Z (number_of value "merkleTreeDepth")))
    (text_of value "electionConfigHash").

Definition close_statement_of (value : jsval) : Evidence.CloseStatement :=
  Evidence.mkCloseStatement (text_of value "logId") (number_of value "treeSize") (number_of value "timestamp")
    (text_of value "bulletinRoot") (text_of value "sthDigest").

(** ** The result of a journal *)

Definition buildCountsRecord (verifiedTally : list num) : list num :=
  map (fun index => match znth verifiedTally index with
                    | Some value => if isFinite value then value else NInt 0
                    | None => NInt 0
                    end) [0; 1; 2; 3; 4].

Definition buildTamperSummary (scenarioContext : option FinalizationScenarioContext) : option FinalizationTamperSummary :=
  match scenarioContext with
  | None => None
  | Some c =>
      if num_leb (sc_ignoredCount c) (NInt 0) && num_leb (sc_recountedCount c) (NInt 0) then None
      else Some (mkTamperSummary (sc_ignoredCount c) (sc_recountedCount c) (sc_userRecountChoice c) (sc_affectedBotIds c))
  end.

Definition context_tamper_count (c : FinalizationScenarioContext) : num :=
  resolveScenarioTamperCount (Some (Some (sc_ignoredCount c), Some (sc_recountedCount c))).

Definition applyScenarioContext (result : FinalizationResultAuthority)
    (scenarioContext : option FinalizationScenarioContext) : FinalizationResultAuthority :=
  match scenarioContext with
  | None => result
  | Some c =>
      let scenarioTamperCount := context_tamper_count c in
      let journal := ra_journal result in
      mkResultAuthority
        (mkTally (sc_claimedCounts c) (sc_claimedTotalVotes c) (num_max (j_excludedSlots journal) scenarioTamperCount))
        (ra_imageId result) journal
        (Some (resolveFinalizationTamperDetected (Some (j_excludedSlots journal)) (Some (j_rejectedRecords journal))
                 (Some scenarioTamperCount)))
        (Some (sc_scenarios c))
        (match buildTamperSummary scenarioContext with Some s => Some s | None => ra_tamperSummary result end)
        (ra_artifacts result)
  end.

Definition buildFinalizationResultFromJournal (given : ZkVMJournal) (imageId : option string)
    (scenarioContext : option FinalizationScenarioContext) (publicAuditArtifacts : option PublicAuditArtifacts) :
    result FinalizationResultAuthority :=
  journal ← Journal.toPublicZkvmJournal given;
  let excludedSlots := j_excludedSlots journal in
  let artifacts := createUnavailableFinalizationArtifacts in
  Ok (applyScenarioContext
        (mkResultAuthority
           (mkTally (buildCountsRecord (j_verifiedTally journal)) (j_totalExpected journal) excludedSlots)
           (default ""%string imageId) journal
           (Some (resolveFinalizationTamperDetected (Some excludedSlots) (Some (j_rejectedRecords journal)) None))
           (Some []) None
           (mkArtifacts (fa_receipt artifacts) (fa_receiptPublication artifacts) publicAuditArtifacts (fa_bitmap artifacts)))
        scenarioContext).

(** ** Stored results *)

Section with_noble.
Context `{Noble}.

(** The authority of a stored artifact is local. *)
Definition local_context : PublicInputContext := mkContext None None true.

Definition resolveStoredPublicAuditArtifacts (journal : ZkVMJournal) (stored : option PublicAuditArtifacts) :
    result PublicAuditArtifactResolution :=
  match stored with
  | Some a =>
      resolveConsistentPublicAuditArtifacts journal (Some (au_publicInputArtifact a))
        (Some (manifest_of (au_electionManifest a))) (Some (close_statement_of (au_closeStatement a))) local_context
  | None => resolveConsistentPublicAuditArtifacts journal None None None local_context
  end.

(** The audit artifacts are kept together or not at all. *)
Definition kept_artifacts (stored : option PublicAuditArtifacts) (r : PublicAuditArtifactResolution) :
    option PublicAuditArtifacts :=
  if is_some (re_publicInputArtifact r) && is_some (re_electionManifest r) && is_some (re_closeStatement r)
  then stored else None.

Definition canonicalizeFinalizationResult (value : jsval) (scenarioContext : option FinalizationScenarioContext) :
    result (option FinalizationResultAuthority) :=
  match admitFinalizationResultAuthority value with
  | None => Ok None
  | Some candidate =>
      if negb (Journal.isSupportedZkVMJournal (journal_value (ra_journal candidate))) then Ok None
      else
        journal ← Journal.toPublicZkvmJournal (ra_journal candidate);
        let stored := fa_publicAudit (ra_artifacts candidate) in
        artifactResolution ← resolveStoredPublicAuditArtifacts journal stored;
        if negb (no_issues (re_issues artifactResolution)) then Ok None
        else
          derived ← buildFinalizationResultFromJournal journal (Some (ra_imageId candidate)) scenarioContext
                      (kept_artifacts stored artifactResolution);
          let storedScenarioTamperCount := resolveScenarioTamperCount (summary_counts <$> ra_tamperSummary candidate) in
          let artifacts := ra_artifacts candidate in
          let canonical :=
            mkResultAuthority (ra_tally candidate) (ra_imageId candidate) journal
              (Some (default false (ra_tamperDetected candidate) ||
                     resolveFinalizationTamperDetected (Some (j_excludedSlots (ra_journal derived)))
                       (Some (j_rejectedRecords (ra_journal derived))) (Some storedScenarioTamperCount)))
              (ra_scenarios candidate) (ra_tamperSummary candidate)
              (mkArtifacts (fa_receipt artifacts) (fa_receiptPublication artifacts)
                 (fa_publicAudit (ra_artifacts derived)) (fa_bitmap artifacts)) in
          Ok (Some (applyScenarioContext canonical scenarioContext))
  end.

Definition hydrateFinalizationResultFromJournal (value : jsval) (scenarioContext : option FinalizationScenarioContext) :
    result (option FinalizationResultAuthority) := canonicalizeFinalizationResult value scenarioContext.

Definition hasConsistentPublicAuditArtifacts (given : option (ZkVMJournal * FinalizationArtifactAvailability)) :
    result bool :=
  match given with
  | None => Ok false
  | Some (j, artifacts) =>
      if negb (Journal.isSupportedZkVMJournal (journal_value j)) then Ok false
      else
        journal ← Journal.toPublicZkvmJournal j;
        match fa_publicAudit artifacts with
        | None => Ok false
        | Some a =>
            r ← resolveStoredPublicAuditArtifacts journal (Some a);
            Ok (no_issues (re_issues r) && is_some (re_publicInputArtifact r) && is_some (re_electionManifest r) &&
                is_some (re_closeStatement r))
        end
  end.

End with_noble.

(** ** The published result (packages/api-contract/src/schemas/finalizations.ts) *)

(** A tuple of counts, one per choice. *)
Definition counts_of_list (l : list num) : Presentation.VoteCounts :=
  Presentation.mkCounts (List.nth 0 l NNaN) (List.nth 1 l NNaN) (List.nth 2 l NNaN) (List.nth 3 l NNaN) (List.nth 4 l NNaN).

Definition hasCoherentFinalizationScenarioPresentation (r : FinalizationResultAuthority) : bool :=
  hasCoherentPublicScenarioTamperCoreProjection
    (mkScenarioFacts (default "S0"%string (head (default [] (ra_scenarios r)))) (default false (ra_tamperDetected r))
       (ta_tamperedCount (ra_tally r)) (j_excludedSlots (ra_journal r)) (j_rejectedRecords (ra_journal r))
       (counts_of_list (j_verifiedTally (ra_journal r))) (counts_of_list (ta_counts (ra_tally r))) (ra_tamperSummary r)).

End FinResult.

(** * What the result of a finalization states about its scenario: with a journal
    that counts the votes the guest was given, the facts of the result are those
    the published contract admits. *)
Import CtSession.
Import Presentation.
Import Scenario.
Import FinalizeInputs.
Import FinResult.

(** ** Differences of tallies *)

Lemma num_sub_int a b : -4503599627370496 <= a <= 4503599627370496 -> -4503599627370496 <= b <= 4503599627370496 ->
  num_sub (NInt a) (NInt b) = NInt (a - b).
Proof. intros Ha Hb. unfold num_sub, num_neg. rewrite num_add_int by lia. f_equal. Qed.

Definition counts_for (count : string -> Z) : VoteCounts :=
  mkCounts (NInt (count "A")) (NInt (count "B")) (NInt (count "C")) (NInt (count "D")) (NInt (count "E")).

Lemma deltas_of f g : (forall c, -1 <= f c <= 65) -> (forall c, -1 <= g c <= 65) ->
  tally_deltas (counts_for f) (counts_for g) = map (fun c => NInt (f c - g c)) VOTE_CHOICES.
Proof.
  intros Hf Hg. assert (Hd : forall c, num_sub (NInt (f c)) (NInt (g c)) = NInt (f c - g c)).
  { intros c. specialize (Hf c). specialize (Hg c). apply num_sub_int; lia. }
  unfold tally_deltas, counts_for, count_list, VOTE_CHOICES. cbn [zip_with count_A count_B count_C count_D count_E map].
  by rewrite !Hd.
Qed.

Lemma deltas_ext f g : (forall c, f c = g c) -> map (fun c : string => NInt (f c)) VOTE_CHOICES = map (fun c => NInt (g c)) VOTE_CHOICES.
Proof. intros E. apply map_ext. intros c. by rewrite E. Qed.

(** The move of one vote is the only kind of difference a recount may show. *)
Lemma single_recount s summary old new : old ∈ VOTE_CHOICES -> new ∈ VOTE_CHOICES -> new <> old ->
  s = "S4"%string \/ (summary ≫= ts_userRecountedTo) = Some new ->
  hasSingleRecountedVote s summary
    (map (fun c => NInt ((if String.eqb c new then 1 else 0) - (if String.eqb c old then 1 else 0))) VOTE_CHOICES) = true.
Proof.
  intros Ho Hn Hne Hs. unfold VOTE_CHOICES in Ho, Hn. rewrite !elem_of_cons, elem_of_nil in Ho, Hn.
  destruct Hs as [-> | Hs]; destruct_or? Ho; destruct_or? Hn; subst; try done; unfold hasSingleRecountedVote;
    rewrite ?Hs; try (vm_compute; reflexivity); cbn -[orb bool_decide]; by rewrite orb_true_r.
Qed.

(** ** The context of a scenario *)

(** The votes the guest is given, and a journal that counts them. *)
Definition given_votes (votes : list (num * StoredVoteRecord)) (t : option tampering) : list (num * StoredVoteRecord) :=
  match t with Some (left_out k _) => delete k votes | _ => votes end.

Record counts_given (votes : list (num * StoredVoteRecord)) (t : option tampering) (journal : ZkVMJournal) : Prop := {
  cg_tally : counts_of_list (j_verifiedTally journal) = counts_for (votes_for (choices_of (given_votes votes t)));
  cg_excluded : j_excludedSlots journal = NInt (zlength votes - zlength (given_votes votes t));
  cg_rejected : j_rejectedRecords journal = NInt 0;
}.

Definition stored_context (votes : list (num * StoredVoteRecord)) (s : string) (t : option tampering) :
    FinalizationScenarioContext :=
  toFinalizationScenarioContext
    (scenario_context s (NInt 0) (match t with None => [] | Some _ => [s] end) (application_of votes s t)).

Definition bots_of (s : string) (t : tampering) : option (list num) :=
  if String.eqb s "S3" || String.eqb s "S4" then Some [NInt (Z.of_nat (position t))] else None.

Lemma affected_one s t : allowed s t ->
  affected_bots s (NInt 0) (Some (mkScenarioResult [] [change_of s t])) = bots_of s t.
Proof.
  intros Ha. unfold affected_bots, bots_of. destruct (String.eqb s "S3" || String.eqb s "S4") eqn:E; [| done].
  assert (Hk : position t <> 0%nat).
  { apply orb_true_iff in E. rewrite !String.eqb_eq in E.
    destruct t as [k stored | k stored choice]; cbn in *; destruct E as [-> | ->]; intuition (discriminate || lia). }
  assert (Hi : ch_voteIndex (change_of s t) = NInt (Z.of_nat (position t))) by (by destruct t).
  cbn [changes map]. rewrite Hi. cbn [List.filter].
  destruct (num_eqb (NInt (Z.of_nat (position t))) (NInt 0)) eqn:En; [apply num_eqb_int in En; lia | done].
Qed.

Lemma stored_context_of votes s t : allowed s t ->
  stored_context votes s (Some t) =
  mkScenario [s] (mode_of t) (map (fun c => NInt (tampered_count votes t c)) VOTE_CHOICES)
    (NInt (match t with left_out _ _ => zlength votes - 1 | moved _ _ _ => zlength votes end))
    (ignoredCount (summary_of t)) (recountedCount (summary_of t)) (userRecountChoice (summary_of t)) (bots_of s t).
Proof.
  intros Ha. unfold stored_context, toFinalizationScenarioContext, scenario_context, application_of, tampered_application.
  cbn [fc_scenariosApplied fc_tamperMode fc_claimedCounts fc_claimedTotalVotes fc_summary fc_affectedBotIds
    sa_scenariosApplied sa_tamperMode sa_claimedCounts sa_claimedTotalVotes sa_summary sa_scenarioResult].
  change (affected_bots s (NInt 0) (Some (mkScenarioResult (tampered_votes votes t) [change_of s t])))
    with (affected_bots s (NInt 0) (Some (mkScenarioResult [] [change_of s t]))).
  by rewrite affected_one.
Qed.

(** ** The facts of a result *)

(** The summary a scenario is published with. *)
Definition summary_for (s : string) (t : tampering) : FinalizationTamperSummary :=
  mkTamperSummary (ignoredCount (summary_of t)) (recountedCount (summary_of t)) (userRecountChoice (summary_of t))
    (bots_of s t).

Lemma one_bot k : (0 < k < 64)%nat -> hasCanonicalAffectedBotIds [NInt (Z.of_nat k)] = true.
Proof.
  intros Hk. unfold hasCanonicalAffectedBotIds, BOT_COUNT. cbn [forallb existsb distinct_ids isSafeInteger negb andb].
  assert (safe_Z (Z.of_nat k) = true) as -> by (apply safe_Z_spec; unfold MAX_SAFE_INTEGER; lia).
  unfold num_leb. cbn [num_ltb]. destruct (Z.ltb_spec 1 (Z.of_nat k)); destruct (Z.ltb_spec (Z.of_nat k) 63); cbn [orb andb];
    rewrite ?(proj2 (num_eqb_int 1 (Z.of_nat k))), ?(proj2 (num_eqb_int (Z.of_nat k) 63)) by lia; by rewrite ?orb_true_r.
Qed.

Lemma summary_admitted s t : allowed s t -> (position t < 64)%nat ->
  hasCanonicalScenarioTamperSummary s (NInt (match t with left_out _ _ => 1 | moved _ _ _ => 0 end))
    (Some (summary_for s t)) = true.
Proof.
  intros Ha Hk. unfold hasCanonicalScenarioTamperSummary, summary_for. cbn [ts_affectedBotIds].
  assert (Hb : hasCanonicalAffectedBotIds (default [] (bots_of s t)) = true).
  { unfold bots_of. destruct (String.eqb s "S3" || String.eqb s "S4") eqn:E; [| done]. cbn [default]. apply one_bot.
    apply orb_true_iff in E. rewrite !String.eqb_eq in E.
    destruct t as [k stored | k stored choice]; cbn in *; destruct E as [-> | ->]; intuition (discriminate || lia). }
  rewrite Hb. cbn [negb]. clear Hb Hk. unfold bots_of. destruct t as [k stored | k stored choice]; cbn [allowed] in Ha.
  - destruct Ha as [[-> ->] | [[-> ->] | ->]]; vm_compute; reflexivity.
  - destruct Ha as (_ & _ & [[-> ->] | [-> Hk]]); [vm_compute; reflexivity |].
    cbn [summary_of]. apply Nat.eqb_neq in Hk. rewrite Hk. cbn [position]. generalize (Z.of_nat k). intros z. reflexivity.
Qed.

Lemma tally_admitted votes s t : session_entries votes -> zlength votes = BOT_COUNT + 1 -> tampers votes s t ->
  hasCoherentScenarioTallyProjection s (counts_for (votes_for (choices_of (given_votes votes (Some t)))))
    (counts_for (tampered_count votes t)) (Some (summary_for s t)) = true.
Proof.
  intros Hv Hz [Ha Hk]. change (BOT_COUNT + 1) with 64 in Hz.
  assert (Hb : forall l c, zlength l <= 64 -> -1 <= votes_for l c <= 65).
  { intros l c Hl. assert (H := votes_for_bound l c). lia. }
  assert (Hl : zlength (choices_of votes) = 64) by (unfold zlength, choices_of in *; by rewrite length_map).
  assert (Ht : forall c, -1 <= tampered_count votes t c <= 65).
  { intros c. unfold tampered_count. assert (H := votes_for_bound (choices_of votes) c). rewrite Hl in H.
    destruct t; repeat case_match; lia. }
  unfold hasCoherentScenarioTallyProjection. rewrite deltas_of; [| exact Ht |].
  2: { intros c. apply Hb. destruct t as [k stored | k stored new]; cbn [given_votes]; [| lia].
       unfold zlength, choices_of in *. rewrite length_map in *.
       rewrite length_delete by (cbn [position] in Hk; by rewrite Hk). lia. }
  destruct t as [k stored | k stored new]; cbn [position victim given_votes] in *.
  - rewrite (deltas_ext _ (fun _ => 0)).
    2: { intros c. unfold tampered_count. cbn [victim]. rewrite (votes_for_delete _ _ _ _ _ Hk). lia. }
    cbn [allowed] in Ha. destruct Ha as [[-> _] | [[-> _] | ->]]; vm_compute; reflexivity.
  - rewrite (deltas_ext _ (fun c => (if String.eqb c new then 1 else 0) - (if String.eqb c (sv_vote stored) then 1 else 0)))
      by (intros c; unfold tampered_count; cbn [victim]; lia).
    destruct (entry_at votes Hv k _ _ Hk) as (_ & _ & Hold).
    cbn [allowed] in Ha. destruct Ha as (Hnew & Hne & [[-> ->] | [-> _]]); apply single_recount; try done; [by right | by left].
Qed.

(** The facts of a result. *)
Definition states_scenario (votes : list (num * StoredVoteRecord)) (t : option tampering)
    (published : FinalizationResultAuthority) : Prop :=
  hasCoherentFinalizationScenarioPresentation published = true /\
  ra_tamperDetected published = Some (is_some t) /\
  ta_tamperedCount (ra_tally published) = NInt (if is_some t then 1 else 0) /\
  ta_counts (ra_tally published) =
    map (fun c => NInt (match t with None => votes_for (choices_of votes) c | Some t => tampered_count votes t c end))
      VOTE_CHOICES.

Lemma tampered_result votes s t result : session_entries votes -> zlength votes = BOT_COUNT + 1 -> tampers votes s t ->
  counts_given votes (Some t) (ra_journal result) ->
  states_scenario votes (Some t) (applyScenarioContext result (Some (stored_context votes s (Some t)))).
Proof.
  intros Hv Hz Hs [Htally Hexcluded Hrejected]. unfold states_scenario. destruct Hs as [Ha Hk]. rewrite stored_context_of by done. unfold applyScenarioContext, buildTamperSummary, context_tamper_count.
  cbn [sc_scenarios sc_claimedCounts sc_claimedTotalVotes sc_ignoredCount sc_recountedCount sc_userRecountChoice
    sc_affectedBotIds ra_tamperDetected ra_tally ta_tamperedCount ta_counts is_some].
  assert (Hex : j_excludedSlots (ra_journal result) = NInt (match t with left_out _ _ => 1 | moved _ _ _ => 0 end)).
  { rewrite Hexcluded. f_equal. destruct t as [k stored | k stored new]; cbn [given_votes]; [| lia].
    unfold zlength in *. rewrite length_delete by (cbn [position] in Hk; by rewrite Hk).
    unfold BOT_COUNT in Hz. lia. }
  rewrite Hex, Hrejected.
  assert (Hsum : num_leb (ignoredCount (summary_of t)) (NInt 0) && num_leb (recountedCount (summary_of t)) (NInt 0) = false)
    by (by destruct t).
  rewrite Hsum. split_and!; [| by destruct t | by destruct t | done].
  unfold hasCoherentFinalizationScenarioPresentation. cbn [ra_scenarios ra_tamperDetected ra_tally ta_tamperedCount
    ra_journal ra_tamperSummary ta_counts default head]. rewrite Hex, Hrejected, Htally.
  change (counts_of_list (map _ VOTE_CHOICES)) with (counts_for (tampered_count votes t)).
  unfold hasCoherentPublicScenarioTamperCoreProjection. cbn [sf_scenarioId sf_excludedSlots sf_tamperSummary
    sf_verifiedTally sf_counts]. fold (summary_for s t).
  assert (Hlt := lookup_lt_Some _ _ _ Hk).
  rewrite summary_admitted by (done || (unfold zlength, BOT_COUNT in Hz; lia)).
  rewrite tally_admitted by done. cbn [negb orb]. by destruct t.
Qed.

Lemma untampered_result votes result : session_entries votes -> zlength votes = BOT_COUNT + 1 ->
  counts_given votes None (ra_journal result) -> ra_tamperSummary result = None ->
  states_scenario votes None (applyScenarioContext result (Some (stored_context votes "S0" None))).
Proof.
  intros Hv Hz [Htally Hexcluded Hrejected] Hsummary. unfold states_scenario, given_votes in *. rewrite Z.sub_diag in Hexcluded.
  assert (E : applyScenarioContext result (Some (stored_context votes "S0" None)) =
              mkResultAuthority (mkTally (map (fun c => NInt (votes_for (choices_of votes) c)) VOTE_CHOICES) (NInt (zlength votes))
                (NInt 0)) (ra_imageId result) (ra_journal result) (Some false) (Some []) None (ra_artifacts result)).
  { unfold applyScenarioContext, stored_context, context_tamper_count. rewrite Hexcluded, Hrejected. cbn -[votes_for].
    by rewrite Hsummary. }
  rewrite E. split_and!; [| done ..]. unfold hasCoherentFinalizationScenarioPresentation.
  cbn [ra_scenarios ra_tamperDetected ra_tally ta_tamperedCount ra_journal ra_tamperSummary ta_counts default head].
  rewrite Hexcluded, Hrejected, Htally.
  change (counts_of_list (map _ VOTE_CHOICES)) with (counts_for (votes_for (choices_of votes))).
  unfold hasCoherentPublicScenarioTamperCoreProjection, hasCoherentScenarioTallyProjection.
  cbn [sf_scenarioId sf_excludedSlots sf_tamperSummary sf_verifiedTally sf_counts hasCanonicalScenarioTamperSummary].
  assert (Hl : zlength (choices_of votes) = 64)
    by (change (BOT_COUNT + 1) with 64 in Hz; unfold zlength, choices_of in *; by rewrite length_map).
  assert (Hb : forall c, -1 <= votes_for (choices_of votes) c <= 65)
    by (intros c; assert (H := votes_for_bound (choices_of votes) c); lia).
  rewrite deltas_of by done. rewrite (deltas_ext _ (fun _ => 0)) by (intros c; lia). vm_compute. reflexivity.
Qed.

(** The result of every scenario is one the published contract admits: its
    summary, its tally and its counts agree with a journal that counts the votes
    the guest was given. The result says that the election was tampered with
    exactly when the scenario tampered with it, and counts one vote. *)
Theorem scenario_result_admitted votes s t result :
  session_entries votes -> zlength votes = BOT_COUNT + 1 -> scenario_of votes s t ->
  counts_given votes t (ra_journal result) -> ra_tamperSummary result = None ->
  let published := applyScenarioContext result (Some (stored_context votes s t)) in
  hasCoherentFinalizationScenarioPresentation published = true /\
  ra_tamperDetected published = Some (is_some t) /\
  ta_tamperedCount (ra_tally published) = NInt (if is_some t then 1 else 0) /\
  ta_counts (ra_tally published) =
    map (fun c => NInt (match t with None => votes_for (choices_of votes) c | Some t => tampered_count votes t c end))
      VOTE_CHOICES.
Proof.
  intros Hv Hz Hs Hc Hsummary. destruct t as [t |]; cbn in Hs; [by apply tampered_result |].
  subst s. by apply untampered_result.
Qed.
