(* ===== verification/CommitAdmission.v ===== *)
(** What a successful finalization is committed and answered with
    (packages/application/src/finalize: finalization-bitmap-admission.ts,
    usecases/user-vote-artifacts.ts): the bitmap of counted votes that is stored
    beside the record, and the receipt and proof of the vote of the user. *)
From S2P Require Import Prelude.
From S2P Require Import Hex.
From S2P Require Import JsNumber.
From S2P Require Import JsText.
From S2P Require Import JsValue.
From S2P Require Import Contract.
From S2P Require Import Evidence.
From S2P Require Import Bitmap.
From S2P Require Import Bulletin.
From S2P Require Import CtSession.
From S2P Require Import SessionVote.
From S2P Require Import FinStorage.
From S2P Require Import FinTransition.
From S2P Require Import Journal.
From S2P Require Import MerkleSpec.
From S2P Require Import HostIoProofs.
From S2P Require Import TreeFacts.
From S2P Require Import BitmapFacts.
From S2P Require Import FinStorageProofs.
From S2P Require Import CtSessionProofs.
From S2P Require Import ContractFacts.
From S2P Require Import SessionVoteProofs.
Import JsText.
Import JsValue.
Import Evidence.
Import Bulletin.
Import CtSession.
Import SessionVote.
Import FinStorage.
Import FinTransition.
#[global] Open Scope Z_scope.

Module CommitAdmission.

(** ** Bitmap evidence (finalization-bitmap-admission.ts) *)

Inductive FinalizationBitmapDisposition : Type :=
| bitmap_unavailable
| bitmap_available (data : FinalizationBitmapData).

Definition AVAILABLE_DISPOSITION_KEYS : list string := ["availability"; "data"]%string.
Definition UNAVAILABLE_DISPOSITION_KEYS : list string := ["availability"]%string.

Definition normalizeHex32 (value : option string) : option string :=
  match value with
  | Some s =>
      if negb (isValidHexString s (Some 32)) then None
      else let normalized := normalizeHexString s in
           Some (if String.prefix "0x" normalized then normalized else ("0x" +:+ normalized)%string)
  | None => None
  end.

Definition sameSeenBitmapData (left right : option (list bool * string)) : bool :=
  match left, right with
  | Some (l, lr), Some (r, rr) =>
      bool_decide (normalizeHex32 (Some lr) = normalizeHex32 (Some rr)) && bool_decide (l = r)
  | None, None => true
  | _, _ => false
  end.

Definition sameBitmapData (left right : FinalizationBitmapData) : bool :=
  num_eqb (bd_treeSize left) (bd_treeSize right) && num_eqb (bd_finalizedAtMs left) (bd_finalizedAtMs right) &&
  bool_decide (normalizeHex32 (Some (bd_includedBitmapRoot left)) = normalizeHex32 (Some (bd_includedBitmapRoot right))) &&
  bool_decide (bd_includedBitmap left = bd_includedBitmap right) && sameSeenBitmapData (bd_seen left) (bd_seen right).

Definition invalid_bitmap {A} : result A := throw "Invalid finalization bitmap evidence".

Section with_noble.
Context `{Noble}.

Definition admitIncludedBitmapRoot (data : FinalizationBitmapData) (journal : ZkVMJournal) : result string :=
  computed ← Bitmap.computeIncludedBitmapRootHex (bd_includedBitmap data);
  match normalizeHex32 (Some (j_includedBitmapRoot journal)) with
  | None => invalid_bitmap
  | Some journalIncludedRoot =>
      if negb (bool_decide (normalizeHex32 (Some (bd_includedBitmapRoot data)) = Some journalIncludedRoot)) ||
         negb (bool_decide (normalizeHex32 (Some computed) = Some journalIncludedRoot)) ||
         negb (num_eqb (bd_treeSize data) (j_treeSize journal)) ||
         negb (num_eqb (NInt (zlength (bd_includedBitmap data))) (j_treeSize journal))
      then invalid_bitmap else Ok journalIncludedRoot
  end.

(** The admitted bits come with their root. *)
Definition admitSeenBitmapRoot (data : FinalizationBitmapData) (journal : ZkVMJournal) :
    result (option (list bool * string)) :=
  match bd_seen data with
  | None => Ok None
  | Some (seenBitmap, seenBitmapRoot) =>
      if negb (num_eqb (NInt (zlength seenBitmap)) (j_treeSize journal)) then invalid_bitmap
      else
        match normalizeHex32 (j_seenBitmapRoot journal) with
        | None => invalid_bitmap
        | Some journalSeenRoot =>
            if negb (bool_decide (normalizeHex32 (Some seenBitmapRoot) = Some journalSeenRoot)) then invalid_bitmap
            else
              computed ← Bitmap.computeIncludedBitmapRootHex seenBitmap;
              if negb (bool_decide (normalizeHex32 (Some computed) = Some journalSeenRoot)) then invalid_bitmap
              else Ok (Some (seenBitmap, journalSeenRoot))
        end
  end.

Definition admitUnavailableBitmap (r : FinalizationResultAuthority) (value : jsval) :
    result FinalizationBitmapDisposition :=
  if negb (hasOnlyAllowedKeys value UNAVAILABLE_DISPOSITION_KEYS) then invalid_bitmap
  else if is_some (fa_bitmap (ra_artifacts r))
  then throw "Successful finalization bitmap disposition contradicts embedded evidence"
  else Ok bitmap_unavailable.

Definition availability_is (value : jsval) (availability : string) : bool :=
  match prop value "availability" with JStr s => String.eqb s availability | _ => false end.

(** Of the record its result. *)
Definition admitFinalizationBitmapDisposition (r : FinalizationResultAuthority) (value : jsval) :
    result FinalizationBitmapDisposition :=
  if negb (isNonArrayObject value) then invalid_bitmap
  else if availability_is value "unavailable" then admitUnavailableBitmap r value
  else if negb (availability_is value "available") || negb (hasOnlyAllowedKeys value AVAILABLE_DISPOSITION_KEYS)
  then invalid_bitmap
  else
    match parseFinalizationBitmapData (prop value "data") with
    | None => invalid_bitmap
    | Some data =>
        includedRoot ← admitIncludedBitmapRoot data (ra_journal r);
        seen ← admitSeenBitmapRoot data (ra_journal r);
        let admittedData := mkBitmapData (bd_includedBitmap data) includedRoot seen (bd_treeSize data) (bd_finalizedAtMs data) in
        match fa_bitmap (ra_artifacts r) with
        | Some (_, embedded) =>
            if negb (sameBitmapData embedded admittedData)
            then throw "Successful finalization bitmap evidence does not match its semantic record"
            else Ok (bitmap_available admittedData)
        | None => Ok (bitmap_available admittedData)
        end
    end.

Record FinalizationBitmapRecord := mkBitmapRecord {
  br_sessionId : string;
  br_finalizationId : string;
  br_data : FinalizationBitmapData;
}.

Definition text_eqb (value : jsval) (s : string) : bool := match value with JStr t => String.eqb t s | _ => false end.

(** [None] is [undefined]; exceptions are caught. *)
Definition admitPersistedFinalizationBitmapData (record : FinalizationRecord) (r : FinalizationResultAuthority)
    (candidate : jsval) : result (option FinalizationBitmapRecord) :=
  if negb (isNonArrayObject candidate) || negb (text_eqb (prop candidate "sessionId") (fr_sessionId record)) ||
     negb (text_eqb (prop candidate "finalizationId") (fr_finalizationId record))
  then Ok None
  else
    try_catch
      (admitted ← admitFinalizationBitmapDisposition r
                    (JObj [("availability", JStr "available");
                           ("data", without_key (without_key candidate "sessionId") "finalizationId")]%string);
       match admitted with
       | bitmap_unavailable => Ok None
       | bitmap_available data => Ok (Some (mkBitmapRecord (fr_sessionId record) (fr_finalizationId record) data))
       end)
      (fun _ => Ok None).

(** What the store keeps: the data with the identifiers in front. *)
Definition encodeBitmapRecord (b : FinalizationBitmapRecord) : jsval :=
  match encodeFinalizationBitmapData (br_data b) with
  | JObj properties =>
      JObj ([("sessionId", JStr (br_sessionId b)); ("finalizationId", JStr (br_finalizationId b))]%string ++ properties)
  | other => other
  end.

(** ** The vote of the user (usecases/user-vote-artifacts.ts) *)

(** The errors of the class [UserVoteArtifactsUnavailableError]. *)
Inductive ArtifactsOutcome (A : Type) : Type :=
| Built (artifacts : A)
| Unavailable (message : string).
#[global] Arguments Built {A} _.
#[global] Arguments Unavailable {A} _.

Record VoteReceiptPayload := mkVoteReceiptPayload {
  vp_voteId : string;
  vp_commitment : string;
  vp_bulletinIndex : Z;
  vp_bulletinRootAtCast : string;
  vp_timestamp : option num;
  vp_inputCommitment : string;
}.

Record UserVoteProof := mkUserVoteProof {
  up_commitment : string;
  up_voteId : string;
  up_leafIndex : Z;
  up_merklePath : list string;
  up_treeSize : Z;
  up_bulletinRootAtCast : string;
}.

Record UserVoteArtifacts := mkUserVoteArtifacts {
  ua_bulletinRoot : string;
  ua_inputCommitment : string;
  ua_voteReceipt : VoteReceiptPayload;
  ua_proof : UserVoteProof;
}.

(** [normalizeHex32(value, label)] of this file. *)
Definition requireHex32 (value label : string) : result string :=
  if negb (isValidHexString value (Some 32)) then throw ("Invalid " +:+ label +:+ " (expected 32-byte hex)")%string
  else Ok (addHexPrefix (normalizeHexString value)).

(** The part after the inclusion proof was issued. *)
Definition user_artifacts (userVoteIndex : Z) (voteData : StoredVoteRecord) (voteId : string) (inclusionProof : InclusionProof)
    (journal : ZkVMJournal) : result (ArtifactsOutcome UserVoteArtifacts) :=
  proofLeafIndex ← Bulletin.asLeafIndex (NInt (ip_leafIndex inclusionProof));
  if negb (Z.eqb proofLeafIndex userVoteIndex) then throw "User vote inclusion proof leaf index mismatch"
  else if negb (Z.eqb (ip_treeSize inclusionProof) (userVoteIndex + 1))
  then throw "User vote inclusion proof tree size mismatch"
  else
    let finalMerklePath := map addHexPrefix (ip_proofNodes inclusionProof) in
    normalizedCommitment ← requireHex32 (sv_commit voteData) "user commitment";
    bulletinRoot ← requireHex32 (j_bulletinRoot journal) "bulletinRoot";
    inputCommitment ← requireHex32 (j_inputCommitment journal) "inputCommitment";
    if negb (str_truthy (sv_rootAtCast voteData))
    then Ok (Unavailable "Exact cast-time bulletin root is missing for user vote")
    else
      bulletinRootAtCast ← requireHex32 (sv_rootAtCast voteData) "bulletinRootAtCast";
      proofRootAtCast ← requireHex32 (ip_rootHash inclusionProof) "proof bulletinRootAtCast";
      if negb (String.eqb bulletinRootAtCast proofRootAtCast)
      then Ok (Unavailable "Stored cast root does not match exact cast-time inclusion proof root")
      else
        Ok (Built (mkUserVoteArtifacts bulletinRoot inputCommitment
              (mkVoteReceiptPayload voteId normalizedCommitment (ip_leafIndex inclusionProof) bulletinRootAtCast
                 (sv_timestamp voteData) inputCommitment)
              (mkUserVoteProof normalizedCommitment voteId (ip_leafIndex inclusionProof) finalMerklePath (ip_treeSize inclusionProof)
                 bulletinRootAtCast))).

Definition buildUserVoteArtifacts (voting : VotingRecord) (journal : ZkVMJournal) :
    result (ArtifactsOutcome UserVoteArtifacts) :=
  match vr_userParticipation voting with
  | not_cast => Ok (Unavailable "User vote index is missing for finalization")
  | cast voteIndex =>
      match Bulletin.asVoteIndex voteIndex with
      | Err OutOfFuel => Err OutOfFuel
      | Err (Throw _) => Ok (Unavailable "User vote index is missing for finalization")
      | Ok userVoteIndex =>
          match votes_get (vr_votes voting) (NInt userVoteIndex) with
          | None => Ok (Unavailable "Exact user vote record is missing for finalization")
          | Some voteData =>
              match sv_voteId voteData with
              | None | Some EmptyString => Ok (Unavailable "Vote identifier is missing for user vote")
              | Some voteId =>
                  inclusionProof ← fst (board_getInclusionProof voteId (Some (userVoteIndex + 1)) (vr_bulletin voting));
                  match inclusionProof with
                  | None => Ok (Unavailable "Bulletin inclusion proof unavailable for user vote")
                  | Some inclusionProof => user_artifacts userVoteIndex voteData voteId inclusionProof journal
                  end
              end
          end
      end
  end.

End with_noble.
End CommitAdmission.

(** * What the admission promises: the stored bitmap is the one the journal commits
    to, and it is read back; the user's proof verifies. *)
Import CommitAdmission.

Section bitmaps.
Context `{NobleLaws}.

(** The inputs that are hashed for the root of a bitmap. *)
Definition root_inputs (bitmap : list bool) : list bytes := mth_inputs (bitmap_chunks bitmap).

(** The text of the root of a bitmap. *)
Definition root_text (bitmap : list bool) : string := ("0x" +:+ bytesToHex (MTH (bitmap_chunks bitmap)))%string.

Lemma hex_text_valid d : string_all is_lower_hex d = true -> slen d = 64 ->
  isValidHexString ("0x" +:+ d)%string (Some 32) = true /\ isValidHexString d (Some 32) = true /\
  normalizeHexString ("0x" +:+ d)%string = d /\ normalizeHexString d = d.
Proof.
  intros Hd Hl. assert (En : normalizeHexString d = d) by (by apply normalize_lower_hex).
  assert (Ep : normalizeHexString ("0x" +:+ d)%string = d)
    by (change (normalizeHexString ("0x" +:+ d)%string) with (to_lower d); by apply to_lower_lower_hex).
  split_and!; [| | done | done]; unfold isValidHexString; rewrite ?Ep, ?En, Hd, Hl; [done |].
  destruct d; [done |]. done.
Qed.

Lemma no_prefix d : string_all is_lower_hex d = true -> String.prefix "0x" d = false.
Proof.
  intros Hd. destruct (String.prefix "0x" d) eqn:Ep; [| done]. apply String.prefix_correct in Ep.
  destruct d as [| a [| b d]]; [done | done |]. injection Ep as -> -> _. done.
Qed.

(** A normal form has its prefix and 64 digits, and stays as it is. *)
Lemma normalizeHex32_Some o n : normalizeHex32 o = Some n ->
  normalizeHex32 (Some n) = Some n /\ bitmap_root (Some n) = Some n /\
  exists d, n = ("0x" +:+ d)%string /\ string_all is_lower_hex d = true /\ slen d = 64.
Proof.
  destruct o as [s |]; [| done]. unfold normalizeHex32. destruct (isValidHexString s (Some 32)) eqn:Ev; [| done]. cbn [negb].
  destruct (isValidHexString_spec _ _ Ev) as [Hd Hl]. rewrite (no_prefix _ Hd). intros [= <-].
  set (d := normalizeHexString s) in *. destruct (hex_text_valid d Hd Hl) as (Hv & _ & En & _).
  rewrite Hv, En, (no_prefix _ Hd). split_and!; [done | | by exists d]. cbn [bitmap_root]. unfold BITMAP_ROOT_PATTERN.
  change (match ("0x" +:+ d)%string with String "0" (String "x" rest) => Journal.matches (repeat is_lower_hex 64) rest | _ => false end)
    with (Journal.matches (repeat is_lower_hex 64) d).
  assert (Journal.matches (repeat is_lower_hex 64) d = true) as -> by (apply matches_repeat; split; [unfold slen in Hl; lia | done]).
  by rewrite orb_true_r.
Qed.

Lemma root_text_normal bitmap : normalizeHex32 (Some (root_text bitmap)) = Some (root_text bitmap).
Proof.
  unfold normalizeHex32, root_text. set (d := bytesToHex _).
  assert (Hd : string_all is_lower_hex d = true) by apply bytesToHex_lower, MTH_bytes.
  assert (Hl : slen d = 64) by (unfold slen, d; rewrite bytesToHex_length, MTH_length by apply MTH_bytes; done).
  destruct (hex_text_valid d Hd Hl) as (-> & _ & -> & _). by rewrite (no_prefix _ Hd).
Qed.

Lemma computed_root bitmap : Bitmap.computeIncludedBitmapRootHex bitmap = Ok (root_text bitmap).
Proof. apply computeIncludedBitmapRootHex_ok. Qed.

Lemma root_text_inj b b' : zlength b = zlength b' -> root_text b = root_text b' ->
  b = b' \/ collision_in (root_inputs b ++ root_inputs b').
Proof.
  intros Hl Hr. apply bitmap_of_root; [done |]. unfold root_text in Hr. apply (inj (String.append "0x")) in Hr.
  by apply hex_inj in Hr; [| apply MTH_bytes ..].
Qed.

(** ** The admission of one bitmap *)

Lemma included_iff data j root : admitIncludedBitmapRoot data j = Ok root <->
  root = root_text (bd_includedBitmap data) /\ normalizeHex32 (Some (j_includedBitmapRoot j)) = Some root /\
  normalizeHex32 (Some (bd_includedBitmapRoot data)) = Some root /\
  j_treeSize j = NInt (zlength (bd_includedBitmap data)) /\ bd_treeSize data = j_treeSize j.
Proof.
  unfold admitIncludedBitmapRoot. rewrite computed_root. cbn [mbind result_bind]. rewrite root_text_normal.
  destruct (normalizeHex32 (Some (j_includedBitmapRoot j))) as [jr |]; [| by split; [| intros (_ & ? & _)]].
  split.
  - destruct (_ || _) eqn:E; [done |]. intros [= <-]. rewrite !orb_false_iff, !negb_false_iff, !bool_decide_eq_true in E.
    destruct E as [[[E1 [= E2]] E3] E4]. apply num_eqb_int_l in E4. rewrite E4 in *. apply num_eqb_int_r in E3. done.
  - intros (-> & [= ->] & E1 & E4 & ->). rewrite E1, E4, !bool_decide_eq_true_2 by done. cbn. by rewrite Z.eqb_refl.
Qed.

Lemma seen_iff data j seen : admitSeenBitmapRoot data j = Ok seen <->
  match bd_seen data with
  | None => seen = None
  | Some (bits, root) =>
      seen = Some (bits, root_text bits) /\ normalizeHex32 (j_seenBitmapRoot j) = Some (root_text bits) /\
      normalizeHex32 (Some root) = Some (root_text bits) /\ j_treeSize j = NInt (zlength bits)
  end.
Proof.
  unfold admitSeenBitmapRoot. destruct (bd_seen data) as [[bits root] |]; [| by split; [intros [=] | intros ->]].
  rewrite computed_root. cbn [mbind result_bind]. rewrite root_text_normal. split.
  - destruct (num_eqb (NInt (zlength bits)) (j_treeSize j)) eqn:En; [| done]. apply num_eqb_int_l in En. cbn [negb].
    destruct (normalizeHex32 (j_seenBitmapRoot j)) as [jr |]; [| done].
    destruct (bool_decide (normalizeHex32 (Some root) = _)) eqn:E1; [| done]. apply bool_decide_eq_true in E1. cbn [negb].
    destruct (bool_decide (Some (root_text bits) = _)) eqn:E2; [| done]. apply bool_decide_eq_true in E2 as [= <-].
    by intros [= <-].
  - intros (-> & -> & -> & ->). cbn [num_eqb]. rewrite Z.eqb_refl, !bool_decide_eq_true_2 by done. done.
Qed.

(** What admitted evidence is: the bitmaps whose roots the journal commits to. *)
Record evidence_ok (r : FinalizationResultAuthority) (d : FinalizationBitmapData) : Prop := {
  ev_size : bd_treeSize d = NInt (zlength (bd_includedBitmap d));
  ev_journal : j_treeSize (ra_journal r) = bd_treeSize d;
  ev_root : bd_includedBitmapRoot d = root_text (bd_includedBitmap d);
  ev_committed : normalizeHex32 (Some (j_includedBitmapRoot (ra_journal r))) = Some (bd_includedBitmapRoot d);
  ev_seen : forall bits root, bd_seen d = Some (bits, root) ->
    root = root_text bits /\ normalizeHex32 (j_seenBitmapRoot (ra_journal r)) = Some root /\
    bd_treeSize d = NInt (zlength bits);
  ev_embedded : forall source embedded, fa_bitmap (ra_artifacts r) = Some (source, embedded) ->
    sameBitmapData embedded d = true;
  ev_data : bitmap_data_ok d;
}.

Definition evidence_value (data : jsval) : jsval :=
  JObj [("availability", JStr "available"); ("data", data)]%string.

(** The admission of available evidence: what it accepts and what it returns. *)
Lemma available_iff r v d : admitFinalizationBitmapDisposition r v = Ok (bitmap_available d) <->
  isNonArrayObject v = true /\ availability_is v "unavailable" = false /\ availability_is v "available" = true /\
  hasOnlyAllowedKeys v AVAILABLE_DISPOSITION_KEYS = true /\
  exists data, parseFinalizationBitmapData (prop v "data") = Some data /\
    admitIncludedBitmapRoot data (ra_journal r) = Ok (bd_includedBitmapRoot d) /\
    admitSeenBitmapRoot data (ra_journal r) = Ok (bd_seen d) /\
    bd_includedBitmap d = bd_includedBitmap data /\ bd_treeSize d = bd_treeSize data /\
    bd_finalizedAtMs d = bd_finalizedAtMs data /\
    forall source embedded, fa_bitmap (ra_artifacts r) = Some (source, embedded) -> sameBitmapData embedded d = true.
Proof.
  unfold admitFinalizationBitmapDisposition. destruct (isNonArrayObject v); [| by split; [| intros (? & _)]]. cbn [negb].
  destruct (availability_is v "unavailable").
  { split; [| by intros (_ & ? & _)]. unfold admitUnavailableBitmap. by repeat case_match. }
  destruct (availability_is v "available"); [| by split; [| intros (_ & _ & ? & _)]]. cbn [negb orb].
  destruct (hasOnlyAllowedKeys v AVAILABLE_DISPOSITION_KEYS); [| by split; [| intros (_ & _ & _ & ? & _)]]. cbn [negb].
  destruct (parseFinalizationBitmapData (prop v "data")) as [data |]; [| by split; [| intros (_ & _ & _ & _ & ? & ? & _)]].
  split.
  - intros E. apply bind_Ok in E as (root & Er & E). apply bind_Ok in E as (seen & Es & E).
    split_and!; [done ..|]. exists data. split; [done |].
    destruct (fa_bitmap (ra_artifacts r)) as [[source embedded] |] eqn:Ef.
    + destruct (sameBitmapData embedded _) eqn:Ee; [| done]. injection E as <-. split_and!; [done ..|]. by intros ? ? [= <- <-].
    + injection E as <-. by split_and!.
  - intros (_ & _ & _ & _ & data' & [= <-] & -> & -> & E1 & E2 & E3 & He). cbn [mbind result_bind].
    rewrite <- E1, <- E2, <- E3. replace (mkBitmapData _ _ _ _ _) with d by (by destruct d).
    destruct (fa_bitmap (ra_artifacts r)) as [[source embedded] |]; [| done]. by rewrite (He _ _ eq_refl).
Qed.

Lemma admitted_evidence r v d : admitFinalizationBitmapDisposition r v = Ok (bitmap_available d) -> evidence_ok r d.
Proof.
  intros (_ & _ & _ & _ & data & Ep & Ei & Es & E1 & E2 & E3 & He)%available_iff.
  apply included_iff in Ei as (Hr & Hj & Hd & Hn & Ht). apply seen_iff in Es. apply bitmap_data_read in Ep as [_ Hsz Htm _].
  assert (Hseen : forall bits root, bd_seen d = Some (bits, root) ->
    root = root_text bits /\ normalizeHex32 (j_seenBitmapRoot (ra_journal r)) = Some root /\ bd_treeSize d = NInt (zlength bits)).
  { intros bits root Eb. rewrite Eb in Es. destruct (bd_seen data) as [[bits' root'] |]; [| done].
    destruct Es as ([= <- ->] & ? & _ & ?). split_and!; [done | done | congruence]. }
  split; [congruence | congruence | congruence | done | done | done |].
  split; [by eapply normalizeHex32_Some | congruence | congruence |].
  destruct (bd_seen d) as [[bits root] |] eqn:Eb; [| done]. destruct (Hseen _ _ eq_refl) as (_ & Hs & _).
  by eapply normalizeHex32_Some.
Qed.

Lemma evidence_admitted r d : evidence_ok r d ->
  admitFinalizationBitmapDisposition r (evidence_value (encodeFinalizationBitmapData d)) = Ok (bitmap_available d).
Proof.
  intros [Hsz Hj Hr Hc Hs He Hd]. apply available_iff. split_and!; [done .. |]. exists d.
  split; [by apply bitmap_data_back |]. split; [| split; [| done]].
  - apply included_iff. split_and!; [done | done | by eapply normalizeHex32_Some | congruence | done].
  - apply seen_iff. destruct (bd_seen d) as [[bits root] |] eqn:Eb; [| done].
    destruct (Hs _ _ eq_refl) as (-> & Hn & Ht). split_and!; [done | done | by eapply normalizeHex32_Some | congruence].
Qed.

Lemma persisted_data b : without_key (without_key (encodeBitmapRecord b) "sessionId") "finalizationId" =
  encodeFinalizationBitmapData (br_data b).
Proof. by destruct b as [? ? [? ? [[? ?] |] ? ?]]. Qed.

Lemma persisted_same record r b v : evidence_ok r (br_data b) -> br_sessionId b = fr_sessionId record ->
  br_finalizationId b = fr_finalizationId record -> v = encodeBitmapRecord b ->
  admitPersistedFinalizationBitmapData record r v = Ok (Some b).
Proof.
  intros He Hs Hf ->. unfold admitPersistedFinalizationBitmapData. rewrite persisted_data.
  change (prop (encodeBitmapRecord b) "sessionId") with (JStr (br_sessionId b)).
  change (prop (encodeBitmapRecord b) "finalizationId") with (JStr (br_finalizationId b)).
  change (isNonArrayObject (encodeBitmapRecord b)) with true. cbn [text_eqb]. rewrite Hs, Hf, !String.eqb_refl. cbn [negb orb].
  assert (E := evidence_admitted _ _ He). unfold evidence_value in E. rewrite E. cbn. rewrite <- Hs, <- Hf. by destruct b.
Qed.

(** ** What the admission promises *)

(** C31: The bitmap a finalization is committed with is the one its journal
    commits to: it has one bit per vote of the journal's tree, its stored root
    is the Merkle root of its own bits and is the root in the journal, the
    bitmap of seen votes likewise, and evidence already embedded in the record
    is the same; so two pieces of evidence admitted for one result, whatever
    values they came as, carry the same bits, or hashed inputs collide. *)
Theorem bitmap_evidence_bound r v d :
  admitFinalizationBitmapDisposition r v = Ok (bitmap_available d) ->
  j_treeSize (ra_journal r) = NInt (zlength (bd_includedBitmap d)) /\ bd_treeSize d = j_treeSize (ra_journal r) /\
  Bitmap.computeIncludedBitmapRootHex (bd_includedBitmap d) = Ok (bd_includedBitmapRoot d) /\
  normalizeHex32 (Some (j_includedBitmapRoot (ra_journal r))) = Some (bd_includedBitmapRoot d) /\
  (forall bits root, bd_seen d = Some (bits, root) ->
     zlength bits = zlength (bd_includedBitmap d) /\ Bitmap.computeIncludedBitmapRootHex bits = Ok root /\
     normalizeHex32 (j_seenBitmapRoot (ra_journal r)) = Some root) /\
  (forall source embedded, fa_bitmap (ra_artifacts r) = Some (source, embedded) ->
     bd_includedBitmap embedded = bd_includedBitmap d) /\
  forall v' d', admitFinalizationBitmapDisposition r v' = Ok (bitmap_available d') ->
    bd_includedBitmapRoot d' = bd_includedBitmapRoot d /\
    (bd_includedBitmap d' = bd_includedBitmap d \/
     collision_in (root_inputs (bd_includedBitmap d') ++ root_inputs (bd_includedBitmap d))) /\
    forall bits bits' root root', bd_seen d = Some (bits, root) -> bd_seen d' = Some (bits', root') ->
      root' = root /\ (bits' = bits \/ collision_in (root_inputs bits' ++ root_inputs bits)).
Proof.
  intros [Hsz Hj Hr Hc Hs He _]%admitted_evidence. split_and!; [congruence | done | by rewrite computed_root, Hr | done | | |].
  - intros bits root Hb. destruct (Hs _ _ Hb) as (-> & Hn & Hl). rewrite computed_root. split_and!; [congruence | done | done].
  - intros source embedded Hf. assert (E := He _ _ Hf). unfold sameBitmapData in E. rewrite !andb_true_iff, !bool_decide_eq_true in E.
    by destruct E as [[[[_ _] _] E] _].
  - intros v' d' [Hsz' Hj' Hr' Hc' Hs' _ _]%admitted_evidence. assert (Eroot : bd_includedBitmapRoot d' = bd_includedBitmapRoot d) by congruence.
    split; [done |]. split; [apply root_text_inj; congruence |]. intros bits bits' root root' Hb Hb'.
    destruct (Hs _ _ Hb) as (-> & Hn & Hl), (Hs' _ _ Hb') as (-> & Hn' & Hl').
    split; [congruence |]. apply root_text_inj; congruence.
Qed.

(** Evidence that was admitted and stored is read back: the record the store
    keeps for it, its data with the identifiers in front, is admitted again for
    the same finalization as exactly these data; for another session or another
    attempt it is not read at all. *)
Theorem bitmap_evidence_stored record r v d :
  admitFinalizationBitmapDisposition r v = Ok (bitmap_available d) ->
  let stored := mkBitmapRecord (fr_sessionId record) (fr_finalizationId record) d in
  admitPersistedFinalizationBitmapData record r (encodeBitmapRecord stored) = Ok (Some stored) /\
  forall other, fr_sessionId other <> fr_sessionId record \/ fr_finalizationId other <> fr_finalizationId record ->
    admitPersistedFinalizationBitmapData other r (encodeBitmapRecord stored) = Ok None.
Proof.
  intros He%admitted_evidence stored. split; [by eapply persisted_same |]. intros other Hne.
  unfold admitPersistedFinalizationBitmapData.
  change (prop (encodeBitmapRecord stored) "sessionId") with (JStr (fr_sessionId record)).
  change (prop (encodeBitmapRecord stored) "finalizationId") with (JStr (fr_finalizationId record)).
  cbn [text_eqb]. assert (E : negb (isNonArrayObject (encodeBitmapRecord stored)) ||
    negb (String.eqb (fr_sessionId record) (fr_sessionId other)) ||
    negb (String.eqb (fr_finalizationId record) (fr_finalizationId other)) = true).
  { destruct (String.eqb_spec (fr_sessionId record) (fr_sessionId other)) as [E1 |]; [| done].
    destruct (String.eqb_spec (fr_finalizationId record) (fr_finalizationId other)) as [E2 |]; [| done].
    destruct Hne as [Hne | Hne]; by destruct Hne. }
  by rewrite E.
Qed.
End bitmaps.

(** ** The vote of the user *)

Section user_vote.
Context `{NobleLaws}.

Lemma require_hex d label : string_all is_lower_hex d = true -> slen d = 64 ->
  requireHex32 ("0x" +:+ d)%string label = Ok ("0x" +:+ d)%string /\ requireHex32 d label = Ok ("0x" +:+ d)%string.
Proof.
  intros Hd Hl. destruct (hex_text_valid d Hd Hl) as (V1 & V2 & E1 & E2).
  unfold requireHex32, addHexPrefix. by rewrite V1, V2, E1, !E2.
Qed.

Lemma require_root l label : requireHex32 (prefixed (root_of l)) label = Ok (prefixed (root_of l)) /\
  requireHex32 (root_of l) label = Ok (prefixed (root_of l)).
Proof. destruct (root_of_canonical l) as [Hl Hd]. by apply require_hex. Qed.

Lemma require_valid s label : isValidHexString s (Some 32) = true -> requireHex32 s label = Ok (addHexPrefix s).
Proof.
  intros Hv. unfold requireHex32, addHexPrefix. rewrite Hv. cbn [negb].
  destruct (isValidHexString_spec _ _ Hv) as [Hd Hl]. by rewrite (normalize_lower_hex (normalizeHexString s)).
Qed.

Lemma require_commitment e c r commit label : Contract.computeCommitment e c r = Ok commit -> requireHex32 commit label = Ok commit.
Proof.
  unfold Contract.computeCommitment. intros E. bind_inv. injection E as <-.
  apply require_hex; [apply bytesToHex_lower, sha256_bytes |].
  unfold slen. rewrite bytesToHex_length by apply sha256_bytes. by rewrite sha256_length.
Qed.

Lemma first_artifacts vote id p journal l :
  ip_leafIndex p = 0 -> ip_treeSize p = 1 -> ip_proofNodes p = [] -> ip_rootHash p = root_of l ->
  (forall label, requireHex32 (sv_commit vote) label = Ok (sv_commit vote)) -> sv_rootAtCast vote = prefixed (root_of l) ->
  isValidHexString (j_bulletinRoot journal) (Some 32) = true ->
  isValidHexString (j_inputCommitment journal) (Some 32) = true ->
  user_artifacts 0 vote id p journal =
  Ok (Built (mkUserVoteArtifacts (addHexPrefix (j_bulletinRoot journal)) (addHexPrefix (j_inputCommitment journal))
    (mkVoteReceiptPayload id (sv_commit vote) 0 (sv_rootAtCast vote) (sv_timestamp vote) (addHexPrefix (j_inputCommitment journal)))
    (mkUserVoteProof (sv_commit vote) id 0 [] 1 (sv_rootAtCast vote)))).
Proof.
  intros Hi Hn Hp Hr Hc Hroot Vb Vi. unfold user_artifacts. rewrite Hi, Hn, Hp, Hr, Hc.
  change (asLeafIndex (NInt 0)) with (Ok 0). cbn [mbind result_bind Z.eqb negb Z.add].
  rewrite (require_valid _ _ Vb). cbn [mbind result_bind]. rewrite (require_valid _ _ Vi). cbn [mbind result_bind].
  rewrite Hroot. cbn [prefixed str_truthy String.append negb].
  rewrite (proj1 (require_root l _)). cbn [mbind result_bind]. rewrite (proj2 (require_root l _)). cbn [mbind result_bind].
  by rewrite String.eqb_refl.
Qed.

(** C34: Every finalization of a session in which the user voted carries the
    receipt and the proof of that vote, whatever the journal says beyond being
    well formed: they name the stored vote, its commitment, which opens to the
    stored choice, and the bulletin root stored when it was cast; the verifier
    of the board accepts the proof for that commitment at size 1; and where no
    vote was cast the error says so. *)
Theorem user_artifacts_verify {F : Type} identity v journal :
  voting_reachable (F := F) identity v ->
  isValidHexString (j_bulletinRoot journal) (Some 32) = true ->
  isValidHexString (j_inputCommitment journal) (Some 32) = true ->
  match vr_userParticipation v with
  | not_cast => buildUserVoteArtifacts v journal = Ok (Unavailable "User vote index is missing for finalization")
  | cast _ => exists id stored rest a root,
      vr_votes v = (NInt 0, stored) :: rest /\ sv_voteId stored = Some id /\
      buildUserVoteArtifacts v journal = Ok (Built a) /\
      ua_bulletinRoot a = addHexPrefix (j_bulletinRoot journal) /\
      ua_voteReceipt a = mkVoteReceiptPayload id (sv_commit stored) 0 (sv_rootAtCast stored) (sv_timestamp stored)
                           (addHexPrefix (j_inputCommitment journal)) /\
      ua_proof a = mkUserVoteProof (sv_commit stored) id 0 [] 1 (sv_rootAtCast stored) /\
      Contract.computeCommitment (id_electionId identity) (choice_code (sv_vote stored)) (sv_rand stored) = Ok (sv_commit stored) /\
      sv_rootAtCast stored = ("0x" +:+ root)%string /\
      board_verifyInclusionProof (appended (sv_commit stored)) (NInt 0) (up_merklePath (ua_proof a)) root 1 = Ok true
  end.
Proof.
  intros Hv%voting_reachable_ok Hb Hi. unfold buildUserVoteArtifacts.
  destruct (vr_userParticipation v) as [| i] eqn:Eu; [done |].
  destruct (user_vote_stored _ _ _ Hv Eu) as (-> & stored & rest & Ev).
  destruct (entry_found identity v 0 (NInt 0) stored Hv) as (_ & id & e & Hid & He & Hc); [by rewrite Ev |].
  destruct (lo_votes _ _ _ _ (so_log _ _ Hv) 0 (NInt 0) stored) as [Hroot [_ _ Ho]]; [by rewrite Ev |].
  assert (Hok := board_reachable_ok _ (lo_board _ _ _ _ (so_log _ _ Hv))).
  destruct (first_proof _ _ _ (lo_board _ _ _ _ (so_log _ _ Hv)) He) as (p & b' & Ep & Hnil).
  assert (Hsz : Z.of_nat 0 < 1 <= zlength (commitments (vr_bulletin v)))
    by (rewrite (votes_board_size _ _ Hv), Ev; unfold zlength; cbn; lia).
  destruct (issue_proof _ 0 id e 1 Hok He Hsz) as (b2 & Ep2 & _). rewrite Ep in Ep2. injection Ep2 as -> _.
  assert (Hver := issued_verifies _ 0 id e 1 Hok He Hsz). rewrite Hc, Hnil in Hver.
  destruct (bo_entries _ Hok _ _ _ He) as (Hvalid & _).
  assert (Hne : id <> EmptyString) by (by intros ->).
  exists id, stored, rest. change (asVoteIndex (NInt 0)) with (Ok 0). cbv iota beta.
  rewrite (votes_get_first _ _ _ _ Ev eq_refl), Hid. change (0 + 1) with 1. rewrite Ep. cbn [fst mbind result_bind].
  assert (E := first_artifacts stored id (issued (vr_bulletin v) 0 1) journal _ eq_refl eq_refl Hnil eq_refl
    (fun label => require_commitment _ _ _ _ label Ho) Hroot Hb Hi).
  eexists _, _. split; [done |]. split; [done |]. split; [destruct id; [done |]; exact E |].
  split_and!; [done .. | exact Hroot | exact Hver].
Qed.
End user_vote.
