(* ===== verification/Coordinator.v ===== *)
(** Coordinating a transition with a revisioned store (packages/application/src/
    finalize: finalization-transition-persistence.ts,
    finalization-transition-coordinator.ts, and the commands of
    finalization-store.ts): load, evaluate the policy, write under the revision
    that was read, retry when it is stale. *)
From S2P Require Import Prelude.
From S2P Require Import JsNumber.
From S2P Require Import JsValue.
From S2P Require Import LocalCast.
From S2P Require Import FinStorage.
From S2P Require Import FinTransition.
From S2P Require Import FinStorageProofs.
From S2P Require Import FinTransitionProofs.
From S2P Require Import MockStore.
From S2P Require Import FinSamples.
Import JsValue.
Import LocalCast.
Import FinStorage.
Import FinTransition.

Module Coordinator.

(** ** The port *)

(** [Rev] is the optimistic concurrency token, an opaque text of the code. *)
Record LoadedFinalizationLifecycle (Rev : Type) := mkLifecycle {
  lc_currentRecord : option FinalizationRecord;
  lc_revision : Rev;
}.
Arguments mkLifecycle {Rev} _ _.
Arguments lc_currentRecord {Rev} _.
Arguments lc_revision {Rev} _.

Inductive FinalizationLifecycleLoadResult (Rev : Type) : Type :=
| loaded (lifecycle : LoadedFinalizationLifecycle Rev)
| load_missing
| load_invalid_record (error : string)
| load_persistence_failure (error : string).
Arguments loaded {Rev} _.
Arguments load_missing {Rev}.
Arguments load_invalid_record {Rev} _.
Arguments load_persistence_failure {Rev} _.

Inductive FinalizationLifecycleApplyResult (Rev : Type) : Type :=
| apply_applied (lifecycle : LoadedFinalizationLifecycle Rev)
| apply_already_applied (lifecycle : LoadedFinalizationLifecycle Rev)
| apply_stale (lifecycle : LoadedFinalizationLifecycle Rev)
| apply_missing
| apply_invalid_record (error : string)
| apply_persistence_failure (error : string).
Arguments apply_applied {Rev} _.
Arguments apply_already_applied {Rev} _.
Arguments apply_stale {Rev} _.
Arguments apply_missing {Rev}.
Arguments apply_invalid_record {Rev} _.
Arguments apply_persistence_failure {Rev} _.

(** [St] is the state of the store, with what other invocations do to it. *)
Class FinalizationLifecyclePersistencePort (Rev St : Type) := {
  loadFinalizationLifecycle : string -> string -> SM St (FinalizationLifecycleLoadResult Rev);
  applyFinalizationLifecycleMutation :
    string -> string -> Rev -> FinalizationRecord -> SM St (FinalizationLifecycleApplyResult Rev);
}.

(** ** The result *)

Inductive CoordinationStage : Type := at_load | at_apply.

(** [staleConflicts] comes with every result. *)
Inductive FinalizationTransitionCoordinationResult (Rev : Type) : Type :=
| co_applied (lifecycle : LoadedFinalizationLifecycle Rev) (outcome : FinalizationTransitionOutcome) (staleConflicts : Z)
| co_already_applied_policy (lifecycle : LoadedFinalizationLifecycle Rev) (outcome : FinalizationTransitionOutcome)
    (staleConflicts : Z)
| co_already_applied_persistence (lifecycle : LoadedFinalizationLifecycle Rev)
    (outcome : FinalizationTransitionOutcome) (staleConflicts : Z)
| co_rejected (lifecycle : LoadedFinalizationLifecycle Rev) (outcome : FinalizationTransitionOutcome) (staleConflicts : Z)
| co_invalid (lifecycle : LoadedFinalizationLifecycle Rev) (outcome : FinalizationTransitionOutcome) (staleConflicts : Z)
| co_stale (lifecycle : LoadedFinalizationLifecycle Rev) (outcome : FinalizationTransitionOutcome) (staleConflicts : Z)
| co_missing (stage : CoordinationStage) (staleConflicts : Z)
| co_persistence_failure (stage : CoordinationStage) (error : string) (staleConflicts : Z)
| co_invalid_record (stage : CoordinationStage) (error : string) (staleConflicts : Z).
Arguments co_applied {Rev} _ _ _.
Arguments co_already_applied_policy {Rev} _ _ _.
Arguments co_already_applied_persistence {Rev} _ _ _.
Arguments co_rejected {Rev} _ _ _.
Arguments co_invalid {Rev} _ _ _.
Arguments co_stale {Rev} _ _ _.
Arguments co_missing {Rev} _ _.
Arguments co_persistence_failure {Rev} _ _ _.
Arguments co_invalid_record {Rev} _ _ _.

(** ** The coordinator *)

Section coordinator.
Context {Rev St : Type} `{FinalizationLifecyclePersistencePort Rev St}.

(** The loop; [fuel] is more than the conflicts that are allowed. *)
Fixpoint coordinate_loop (fuel : nat) (command : FinalizationTransitionCommand) (evaluatedAtMs : num)
    (staleRetryLimit staleConflicts : Z) : SM St (FinalizationTransitionCoordinationResult Rev) :=
  match fuel with
  | O => sm_lift (Err OutOfFuel)
  | S fuel =>
      loadResult ← loadFinalizationLifecycle (cmd_sessionId command) (cmd_finalizationId command);
      match loadResult with
      | load_missing => mret (co_missing at_load staleConflicts)
      | load_invalid_record error => mret (co_invalid_record at_load error staleConflicts)
      | load_persistence_failure error => mret (co_persistence_failure at_load error staleConflicts)
      | loaded lifecycle =>
          let outcome := evaluateFinalizationTransition (lc_currentRecord lifecycle) command evaluatedAtMs in
          match outcome with
          | idempotent _ => mret (co_already_applied_policy lifecycle outcome staleConflicts)
          | rejected _ _ => mret (co_rejected lifecycle outcome staleConflicts)
          | invalid _ _ => mret (co_invalid lifecycle outcome staleConflicts)
          | applied _ _ nextRecord =>
              applyResult ← applyFinalizationLifecycleMutation (cmd_sessionId command) (cmd_finalizationId command)
                              (lc_revision lifecycle) nextRecord;
              match applyResult with
              | apply_applied after => mret (co_applied after outcome staleConflicts)
              | apply_already_applied after => mret (co_already_applied_persistence after outcome staleConflicts)
              | apply_missing => mret (co_missing at_apply staleConflicts)
              | apply_invalid_record error => mret (co_invalid_record at_apply error staleConflicts)
              | apply_persistence_failure error => mret (co_persistence_failure at_apply error staleConflicts)
              | apply_stale after =>
                  let conflicts := staleConflicts + 1 in
                  if Z.ltb staleRetryLimit conflicts then mret (co_stale after outcome conflicts)
                  else coordinate_loop fuel command evaluatedAtMs staleRetryLimit conflicts
              end
          end
      end
  end.

Definition coordinateFinalizationTransition (command : FinalizationTransitionCommand) (evaluatedAtMs : num)
    (staleRetryLimit : Z) : SM St (FinalizationTransitionCoordinationResult Rev) :=
  coordinate_loop (S (Z.to_nat staleRetryLimit)) command evaluatedAtMs staleRetryLimit 0.

End coordinator.

(** ** Commands (finalization-store.ts) *)

(** [pl_reason] is [payload.observability?.reason]. *)
Record FinalizationPayload := mkPayload {
  pl_finalizationId : string;
  pl_queuedAtMs : num;
  pl_scenarioContext : jsval;
  pl_reason : option string;
}.

(** [Boolean(value)] *)
Definition truthy_value (value : jsval) : bool :=
  match value with
  | JUndefined | JNull => false
  | JBool b => b
  | JNum n => negb (num_eqb n (NInt 0)) && num_eqb n n
  | JStr s => str_truthy s
  | JArr _ | JBytes _ | JObj _ => true
  end.

(** A context that is falsy is left out, except in a command that queues. *)
Definition command_of (sessionId : string) (payload : FinalizationPayload) (kind : CommandKind) :
    FinalizationTransitionCommand :=
  let scenarioContext :=
    match kind with
    | queue => pl_scenarioContext payload
    | _ => if truthy_value (pl_scenarioContext payload) then pl_scenarioContext payload else JUndefined
    end in
  mkCommand kind sessionId (pl_finalizationId payload) (pl_queuedAtMs payload) scenarioContext
    (nonempty (pl_reason payload)).

(** A failure whose code is that of a cancellation is a cancellation. *)
Definition buildFinalizationCommand (sessionId : string) (payload : FinalizationPayload) (kind : CommandKind) :
    FinalizationTransitionCommand :=
  command_of sessionId payload
    (match kind with
     | fail startedAtMs failedAtMs error =>
         match prop error "code" with
         | JStr code =>
             if String.eqb code "USER_CANCELLED"
             then cancel startedAtMs failedAtMs (match prop error "message" with JStr m => m | _ => ""%string end)
             else kind
         | _ => kind
         end
     | _ => kind
     end).

Definition requestedFinalizationStatus (command : FinalizationTransitionCommand) : string :=
  match cmd_kind command with
  | queue => "pending"
  | start _ => "running"
  | succeed _ _ _ => "succeeded"
  | fail _ _ _ | cancel _ _ _ => "failed"
  | time_out _ _ => "timeout"
  end.

End Coordinator.

(** * What the coordinator promises of a store that keeps the laws of a revisioned
    cell: it always answers, after a bounded number of conflicts, and its answer is
    the one the policy gives for the record the store held at one moment of the
    call; a record is only written over the very record it was computed from. *)
Import Coordinator.

(** ** The laws of a port *)

(** The form of a record that a store keeps: the one its codec admits. *)
Definition stored_form (r : FinalizationRecord) : option FinalizationRecord :=
  admitFinalizationRecord (MockStore.memory_record r).

(** [cell] is the current lifecycle of a session, [evolves] what other
    invocations and time do to the store, [lawful] what they keep of it. A failure
    to persist may hide a write that took place. *)
Class LifecyclePortLaws (Rev St : Type) `{FinalizationLifecyclePersistencePort Rev St} := {
  lawful : St -> Prop;
  cell : St -> string -> option (LoadedFinalizationLifecycle Rev);
  evolves : St -> St -> Prop;
  evolves_refl s : evolves s s;
  evolves_trans s1 s2 s3 : evolves s1 s2 -> evolves s2 s3 -> evolves s1 s3;
  evolves_lawful s s' : evolves s s' -> lawful s -> lawful s';
  revision_law sid s s' l l' : lawful s -> evolves s s' -> cell s sid = Some l -> cell s' sid = Some l' ->
    lc_revision l = lc_revision l' -> lc_currentRecord l = lc_currentRecord l';
  load_law sid fid s r s' : lawful s -> loadFinalizationLifecycle sid fid s = (r, s') ->
    exists answer, r = Ok answer /\
      match answer with
      | loaded l => exists s1, evolves s s1 /\ cell s1 sid = Some l /\ evolves s1 s'
      | _ => evolves s s'
      end;
  apply_law sid fid l next s0 s r s' : lawful s0 -> cell s0 sid = Some l -> evolves s0 s ->
    applyFinalizationLifecycleMutation sid fid (lc_revision l) next s = (r, s') ->
    let writes after := exists s1 s2 before, evolves s s1 /\ cell s1 sid = Some before /\
      lc_revision before = lc_revision l /\ is_some (stored_form next) = true /\
      lc_currentRecord after = stored_form next /\ cell s2 sid = Some after /\
      (forall other, other <> sid -> cell s2 other = cell s1 other) /\ evolves s2 s' in
    exists answer, r = Ok answer /\
      match answer with
      | apply_applied after => writes after
      | apply_already_applied after => exists s1, evolves s s1 /\ cell s1 sid = Some after /\
          is_some (stored_form next) = true /\ lc_currentRecord after = stored_form next /\ evolves s1 s'
      | apply_stale after => exists s1, evolves s s1 /\ cell s1 sid = Some after /\ evolves s1 s'
      | apply_persistence_failure _ => evolves s s' \/ exists after, writes after
      | _ => evolves s s'
      end;
}.

Section laws.
Context {Rev St : Type} `{LifecyclePortLaws Rev St}.

(** ** One answer of the policy *)

(** At one moment of a call the store held [l], for which the policy answers
    [outcome]; nothing is written. *)
Definition answered (command : FinalizationTransitionCommand) (t : num) (s : St)
    (l : LoadedFinalizationLifecycle Rev) (outcome : FinalizationTransitionOutcome) (s' : St) : Prop :=
  exists s1, evolves s s1 /\ cell s1 (cmd_sessionId command) = Some l /\
    evaluateFinalizationTransition (lc_currentRecord l) command t = outcome /\ evolves s1 s'.

(** At one moment of a call the store held a record to which the policy applies
    the command, and its next record took its place, in this session only. *)
Definition installed (command : FinalizationTransitionCommand) (t : num) (s : St)
    (after : LoadedFinalizationLifecycle Rev) (outcome : FinalizationTransitionOutcome) (s' : St) : Prop :=
  exists s1 s2 before state reason next, outcome = applied state reason next /\
    evolves s s1 /\ cell s1 (cmd_sessionId command) = Some before /\
    evaluateFinalizationTransition (lc_currentRecord before) command t = outcome /\
    is_some (stored_form next) = true /\ lc_currentRecord after = stored_form next /\ cell s2 (cmd_sessionId command) = Some after /\
    (forall other, other <> cmd_sessionId command -> cell s2 other = cell s1 other) /\ evolves s2 s'.

(** Another invocation wrote the record the policy asked for. *)
Definition written_by_others (command : FinalizationTransitionCommand) (t : num) (s : St)
    (after : LoadedFinalizationLifecycle Rev) (outcome : FinalizationTransitionOutcome) (s' : St) : Prop :=
  exists s1 s2 before state reason next, outcome = applied state reason next /\
    evolves s s1 /\ cell s1 (cmd_sessionId command) = Some before /\
    evaluateFinalizationTransition (lc_currentRecord before) command t = outcome /\
    evolves s1 s2 /\ cell s2 (cmd_sessionId command) = Some after /\ is_some (stored_form next) = true /\
    lc_currentRecord after = stored_form next /\ evolves s2 s'.

Definition coordinated (command : FinalizationTransitionCommand) (t : num) (limit : Z) (s : St)
    (r : FinalizationTransitionCoordinationResult Rev) (s' : St) : Prop :=
  match r with
  | co_applied after outcome n => installed command t s after outcome s' /\ 0 <= n <= limit
  | co_already_applied_policy l outcome n =>
      answered command t s l outcome s' /\ (exists state, outcome = idempotent state) /\ 0 <= n <= limit
  | co_rejected l outcome n =>
      answered command t s l outcome s' /\ (exists state reason, outcome = rejected state reason) /\ 0 <= n <= limit
  | co_invalid l outcome n =>
      answered command t s l outcome s' /\ (exists state reason, outcome = invalid state reason) /\ 0 <= n <= limit
  | co_already_applied_persistence after outcome n => written_by_others command t s after outcome s' /\ 0 <= n <= limit
  | co_stale after outcome n =>
      (exists s1, evolves s s1 /\ cell s1 (cmd_sessionId command) = Some after /\ evolves s1 s') /\ n = limit + 1
  | co_missing _ n | co_invalid_record _ _ n => evolves s s' /\ 0 <= n <= limit
  | co_persistence_failure _ _ n =>
      (evolves s s' \/ exists after outcome, installed command t s after outcome s') /\ 0 <= n <= limit
  end.

(** What holds from a later moment holds from an earlier one. *)
Lemma coordinated_earlier command t limit s0 s r s' : evolves s0 s -> coordinated command t limit s r s' ->
  coordinated command t limit s0 r s'.
Proof.
  intros He. assert (Ht : forall s2, evolves s s2 -> evolves s0 s2) by (intros; by eapply evolves_trans).
  assert (Hw : forall after outcome, installed command t s after outcome s' -> installed command t s0 after outcome s').
  { intros after outcome (s1 & s2 & before & state & reason & next & E & H1 & Hrest).
    exists s1, s2, before, state, reason, next. split; [done |]. split; [by apply Ht | done]. }
  assert (Ha : forall l outcome, answered command t s l outcome s' -> answered command t s0 l outcome s').
  { intros l outcome (s1 & H1 & Hrest). exists s1. split; [by apply Ht | done]. }
  destruct r as [after outcome n | l outcome n | after outcome n | l outcome n | l outcome n | after outcome n | stage n
                | stage error n | stage error n]; cbn [coordinated].
  - intros [Hr Hn]. split; [by apply Hw | done].
  - intros (Hr & Ho & Hn). split; [by apply Ha | done].
  - intros [(s1 & s2 & before & state & reason & next & E & H1 & Hrest) Hn]. split; [| done].
    exists s1, s2, before, state, reason, next. split; [done |]. split; [by apply Ht | done].
  - intros (Hr & Ho & Hn). split; [by apply Ha | done].
  - intros (Hr & Ho & Hn). split; [by apply Ha | done].
  - intros [(s1 & H1 & Hrest) Hn]. split; [| done]. exists s1. split; [by apply Ht | done].
  - intros [Hr Hn]. split; [by apply Ht | done].
  - intros [[Hr | (after & outcome & Hr)] Hn]; (split; [| done]); [left; by apply Ht | right; exists after, outcome; by apply Hw].
  - intros [Hr Hn]. split; [by apply Ht | done].
Qed.

(** ** The loop *)

Ltac evolve := solve [eauto 8 using evolves_trans, evolves_refl].

Lemma loop_coordinates command t limit fuel : forall conflicts s r s',
  Z.of_nat fuel = limit + 1 - conflicts -> 0 <= conflicts <= limit -> lawful s ->
  coordinate_loop fuel command t limit conflicts s = (r, s') ->
  exists answer, r = Ok answer /\ coordinated command t limit s answer s'.
Proof.
  induction fuel as [| fuel IH]; intros conflicts s r s' Hf Hc Hs E; [lia |]. cbn [coordinate_loop] in E.
  unfold mbind, SM_bind in E. destruct (loadFinalizationLifecycle _ _ s) as [ra sa] eqn:Ea.
  destruct (load_law _ _ _ _ _ Hs Ea) as (answer & -> & Hload). destruct answer as [l | | error | error].
  2-4: injection E as <- <-; eexists; split; [done |]; cbn [coordinated]; auto.
  destruct Hload as (s1 & H1 & Hcell & H1'). set (outcome := evaluateFinalizationTransition _ command t) in *.
  assert (Hans : answered command t s l outcome sa) by (by exists s1).
  assert (Hs1 : lawful s1) by (by eapply evolves_lawful).
  destruct outcome as [state reason next | state | state reason | state reason] eqn:Eo.
  2-4: injection E as <- <-; eexists; split; [done |]; cbn [coordinated]; eauto.
  destruct (applyFinalizationLifecycleMutation _ _ _ next sa) as [rb sb] eqn:Eb.
  destruct (apply_law _ _ _ _ _ _ _ _ Hs1 Hcell H1' Eb) as (answer & -> & Happly). cbv zeta in Happly.
  assert (Hwrite : forall after, (exists s1 s2 before, evolves sa s1 /\ cell s1 (cmd_sessionId command) = Some before /\
            lc_revision before = lc_revision l /\ is_some (stored_form next) = true /\
            lc_currentRecord after = stored_form next /\ cell s2 (cmd_sessionId command) = Some after /\
            (forall other, other <> cmd_sessionId command -> cell s2 other = cell s1 other) /\ evolves s2 sb) ->
          installed command t s after (applied state reason next) sb).
  { intros after (s2 & s3 & before & H2 & Hb & Hrev & Hf' & Hn & Hafter & Hothers & H3).
    exists s2, s3, before, state, reason, next. assert (H12 : evolves s1 s2) by (by eapply evolves_trans).
    split_and!; try done; [by eapply evolves_trans; [exact H1 |] |].
    rewrite <- (revision_law _ _ _ _ _ Hs1 H12 Hcell Hb) by done. exact Eo. }
  destruct answer as [after | after | after | | error | error].
  - injection E as <- <-. eexists. split; [done |]. cbn [coordinated]. auto.
  - injection E as <- <-. eexists. split; [done |]. cbn [coordinated]. split; [| lia].
    destruct Happly as (s2 & H2 & Hafter & Hok & Hn & H3). exists s1, s2, l, state, reason, next. split_and!; try done.
    by eapply evolves_trans.
  - destruct Happly as (s2 & H2 & Hafter & H3). assert (Hsb : evolves s sb) by evolve.
    destruct (Z.ltb_spec limit (conflicts + 1)) as [Hl | Hl].
    + injection E as <- <-. eexists. split; [done |]. cbn [coordinated]. split; [| lia]. exists s2. split_and!; [evolve | done | done].
    + destruct (IH (conflicts + 1) sb r s') as (answer & -> & Hr); [lia | lia | by eapply evolves_lawful | exact E |].
      exists answer. split; [done |]. by eapply coordinated_earlier.
  - injection E as <- <-. eexists. split; [done |]. cbn [coordinated]. split; [evolve | lia].
  - injection E as <- <-. eexists. split; [done |]. cbn [coordinated]. split; [evolve | lia].
  - injection E as <- <-. eexists. split; [done |]. cbn [coordinated]. split; [| lia].
    destruct Happly as [Hsame | (after & Hw)]; [left; evolve | right; exists after; eexists; by apply Hwrite].
Qed.

(** The lifecycle that an answer carries was the session's at one moment. *)
Definition answer_lifecycle (r : FinalizationTransitionCoordinationResult Rev) :
    option (LoadedFinalizationLifecycle Rev) :=
  match r with
  | co_applied l _ _ | co_already_applied_policy l _ _ | co_already_applied_persistence l _ _ | co_rejected l _ _
  | co_invalid l _ _ | co_stale l _ _ => Some l
  | _ => None
  end.

Lemma answer_held command t limit s r s' l : coordinated command t limit s r s' -> answer_lifecycle r = Some l ->
  exists s1, cell s1 (cmd_sessionId command) = Some l /\ evolves s1 s'.
Proof.
  destruct r; intros Hr [= ->]; cbn [coordinated] in Hr.
  - destruct Hr as [(s1 & s2 & before & state & reason & next & _ & _ & _ & _ & _ & _ & Hc & _ & He) _]. by exists s2.
  - destruct Hr as [(s1 & _ & Hc & _ & He) _]. by exists s1.
  - destruct Hr as [(s1 & s2 & before & state & reason & next & _ & _ & _ & _ & _ & Hc & _ & _ & He) _]. by exists s2.
  - destruct Hr as [(s1 & _ & Hc & _ & He) _]. by exists s1.
  - destruct Hr as [(s1 & _ & Hc & _ & He) _]. by exists s1.
  - destruct Hr as [(s1 & _ & Hc & He) _]. by exists s1.
Qed.

Lemma coordination_spec command t limit s r s' : 0 <= limit -> lawful s ->
  coordinateFinalizationTransition command t limit s = (r, s') ->
  exists answer, r = Ok answer /\ coordinated command t limit s answer s'.
Proof. intros Hl Hs E. eapply loop_coordinates; [| | exact Hs | exact E]; lia. Qed.

(** C24: A coordination always answers, after at most the conflicts it is allowed, and
    is atomic: whatever other invocations do between its reads and its writes, its
    answer is that of the policy for the record the store held at one moment of
    the call. A record is only ever written over the record it was computed from,
    so no transition of another invocation is lost, and no other session changes. *)
Theorem coordination_linearizable command t limit s r s' : 0 <= limit -> lawful s ->
  coordinateFinalizationTransition command t limit s = (r, s') ->
  exists answer, r = Ok answer /\ coordinated command t limit s answer s'.
Proof. apply coordination_spec. Qed.

End laws.

(** What the policy writes is kept as it is, when the error of a failed attempt
    has the current shape. *)
Lemma coherent_stored_form r : record_coherent r -> error_current (fr_state r) -> stored_form r = Some r.
Proof.
  intros Hr He. unfold stored_form. change (MockStore.memory_record r) with (record_object result_authority_value r).
  apply (record_read _ _ ADMITTED_FINALIZATION_RESULT_AUTHORITY_KEYS).
  - apply nested_read.
  - apply nested_admitted.
  - closed_not_in.
  - by apply coherent_ok.
Qed.

(** * A store of one session that keeps the laws of a port, with rivals: before each
    write another invocation may write first. A command meets one of them, is
    retried and succeeds. *)
Import Coordinator.

(** The record of ["session-1"] under a counter, and what rivals will write. *)
Record CellStore := mkCell {
  cs_record : option FinalizationRecord;
  cs_revision : Z;
  cs_rivals : list (option FinalizationRecord);
}.

Definition cs_lifecycle (s : CellStore) : LoadedFinalizationLifecycle Z := mkLifecycle (cs_record s) (cs_revision s).

Definition rival_write (s : CellStore) : CellStore :=
  match cs_rivals s with
  | [] => s
  | r :: rest => mkCell r (cs_revision s + 1) rest
  end.

Definition cs_load (sid fid : string) : SM CellStore (FinalizationLifecycleLoadResult Z) := fun s =>
  (Ok (if String.eqb sid "session-1" then loaded (cs_lifecycle s) else load_missing), s).

Definition cs_apply (sid fid : string) (rev : Z) (next : FinalizationRecord) :
    SM CellStore (FinalizationLifecycleApplyResult Z) := fun s =>
  let s1 := rival_write s in
  if negb (String.eqb sid "session-1") then (Ok apply_missing, s1)
  else if negb (Z.eqb (cs_revision s1) rev) then (Ok (apply_stale (cs_lifecycle s1)), s1)
  else
    match stored_form next with
    | None => (Ok (apply_invalid_record "Invalid finalization lifecycle mutation"), s1)
    | Some n => let s2 := mkCell (Some n) (rev + 1) (cs_rivals s1) in (Ok (apply_applied (cs_lifecycle s2)), s2)
    end.

#[export] Instance cell_port : FinalizationLifecyclePersistencePort Z CellStore := {
  loadFinalizationLifecycle := cs_load;
  applyFinalizationLifecycleMutation := cs_apply;
}.

Definition cs_evolves (s s' : CellStore) : Prop := s = s' \/ cs_revision s < cs_revision s'.

Definition cs_cell (s : CellStore) (sid : string) : option (LoadedFinalizationLifecycle Z) :=
  if String.eqb sid "session-1" then Some (cs_lifecycle s) else None.

Lemma rival_evolves s : cs_evolves s (rival_write s).
Proof. unfold cs_evolves, rival_write. destruct (cs_rivals s); [by left | right; cbn; lia]. Qed.

#[export, program] Instance cell_laws : LifecyclePortLaws Z CellStore := {
  lawful _ := True;
  cell := cs_cell;
  evolves := cs_evolves;
}.
Next Obligation. by left. Qed.
Next Obligation. unfold cs_evolves. intros s1 s2 s3 [-> | H1] [-> | H2]; [by left | by right | by right | right; lia]. Qed.
Next Obligation. done. Qed.
Next Obligation.
  intros sid s s' l l' _ He. unfold cs_cell. destruct (String.eqb sid "session-1"); [| done].
  intros [= <-] [= <-]. cbn. destruct He as [-> | Hlt]; [done | lia].
Qed.
Next Obligation.
  intros sid fid s r s' _ [= <- <-]. eexists. split; [done |]. destruct (String.eqb sid "session-1") eqn:E; [| by left].
  exists s. unfold cs_cell. rewrite E. split_and!; [by left | done | by left].
Qed.
Next Obligation.
  intros sid fid l next s0 s r s' _ Hl He. cbn [applyFinalizationLifecycleMutation cell_port]. unfold cs_apply.
  set (s1 := rival_write s). assert (H1 : cs_evolves s s1) by apply rival_evolves.
  unfold cs_cell in *. destruct (String.eqb sid "session-1") eqn:Es; [| done]. cbn [negb].
  apply String.eqb_eq in Es as ->. destruct (Z.eqb_spec (cs_revision s1) (lc_revision l)) as [Er | Er]; cbn [negb].
  - destruct (stored_form next) as [n |] eqn:En.
    + intros [= <- <-]. eexists. split; [done |]. exists s1. eexists (mkCell _ _ _), (cs_lifecycle s1).
      split_and!; try done; [| by left]. intros other Ho. by apply String.eqb_neq in Ho as ->.
    + intros [= <- <-]. eexists. by split.
  - intros [= <- <-]. eexists. split; [done |]. exists s1. split_and!; [done | done | by left].
Qed.

(** The attempt is queued; a rival rewrites the same record. *)
Definition rivalled : CellStore := mkCell (sample_run [queue]) 1 [sample_run [queue]].

Definition start_sample : FinalizationTransitionCommand := sample_command (start (NInt 1200)).

Lemma coordination_linearizable_witness : exists after outcome s',
  coordinateFinalizationTransition start_sample (NInt 1300) 2 rivalled = (Ok (co_applied after outcome 1), s') /\
  exists answer, @Ok (FinalizationTransitionCoordinationResult Z) (co_applied after outcome 1) = Ok answer /\
    coordinated start_sample (NInt 1300) 2 rivalled answer s'.
Proof.
  destruct (coordinateFinalizationTransition start_sample (NInt 1300) 2 rivalled) as [r s'] eqn:E.
  assert (Er : exists after outcome, r = Ok (co_applied after outcome 1)).
  { assert (Ef := f_equal fst E). vm_compute in Ef. cbn [fst] in Ef. rewrite <- Ef. by eexists _, _. }
  destruct Er as (after & outcome & ->). exists after, outcome, s'. split; [done |].
  apply (coordination_linearizable start_sample (NInt 1300) 2 rivalled (Ok (co_applied after outcome 1)) s');
    [lia | exact I | exact E].
Defined.
