(* ===== verification/FinRun.v ===== *)
(** Running a finalization (packages/application/src/finalize: finalization-queue.ts,
    finalization-work-item.ts, usecases/finalize-async.ts, the asynchronous part of
    usecases/finalize-session.ts, finalization-state-update.ts,
    reconcile-finalization.ts, prepareDirectSuccessfulFinalization; of apps/api the
    handler finalizeCancel.ts) over the commands of a store
    (packages/aws-adapters/src/store/session-command-store.ts).
    Logging and canonical events are left out. *)
From Stdlib Require Import QArith.
From S2P Require Import Prelude.
From S2P Require Import Hex.
From S2P Require Import JsNumber.
From S2P Require Import JsText.
From S2P Require Import JsValue.
From S2P Require Import Contract.
From S2P Require Import LocalCast.
From S2P Require Import FinStorage.
From S2P Require Import FinTransition.
From S2P Require Import FinStorageProofs.
From S2P Require Import FinTransitionProofs.
From S2P Require Import MockStore.
From S2P Require Import Tamper.
From S2P Require Import Coordinator.
From S2P Require Import FinalizeInputs.
From S2P Require Import FinResult.
Import JsValue.
Import Contract.
Import FinStorage.
Import FinTransition.
Import TamperFacts.
Import Coordinator.
Import FinalizeInputs.
Import FinResult.
#[global] Open Scope Z_scope.

Module FinRun.

(** ** The store *)

(** The methods of [SessionCommandStore] that a store implements, and its clock. *)
Class FinalizationCommands (St : Type) := {
  command_clock : SM St num;
  applyFinalizationCommand : FinalizationTransitionCommand -> SM St FinalizationRecord;
  getCurrentFinalizationRecord : string -> SM St (option FinalizationRecord);
  getFinalizationRecord : string -> string -> SM St (option FinalizationRecord);
}.

(** A commit without receipt and with an unavailable bitmap; of its result the record. *)
Class SuccessfulFinalizationStore (St : Type) := {
  commitSuccessfulFinalization : FinalizationRecord -> SM St FinalizationRecord;
}.

Section commands.
Context {St : Type} `{FinalizationCommands St}.

(** Payloads are typed, so that they have no other keys. *)
Definition markFinalizationQueued (sessionId : string) (payload : FinalizationPayload) : SM St FinalizationRecord :=
  applyFinalizationCommand (buildFinalizationCommand sessionId payload queue).

Definition markFinalizationRunning (sessionId : string) (payload : FinalizationPayload) (startedAtMs : num) :
    SM St FinalizationRecord :=
  applyFinalizationCommand (buildFinalizationCommand sessionId payload (start startedAtMs)).

Definition markFinalizationFailed (sessionId : string) (payload : FinalizationPayload) (startedAtMs : option num)
    (failedAtMs : num) (error : jsval) : SM St FinalizationRecord :=
  applyFinalizationCommand (buildFinalizationCommand sessionId payload (fail startedAtMs failedAtMs error)).

Definition markFinalizationTimedOut (sessionId : string) (payload : FinalizationPayload) (startedAtMs : option num)
    (timeoutAtMs : num) : SM St FinalizationRecord :=
  applyFinalizationCommand (buildFinalizationCommand sessionId payload (time_out startedAtMs timeoutAtMs)).

End commands.

(** ** A success without artifacts (successful-finalization-commit-admission.ts) *)

Definition assertDirectSuccessfulFinalizationPayload (finalizationResult : jsval) : result unit :=
  match admitFinalizationResultAuthority finalizationResult with
  | None => Ok tt
  | Some r =>
      if is_some (fa_bitmap (ra_artifacts r)) then throw "Direct finalization success does not accept embedded bitmap evidence"
      else if is_some (fa_receiptPublication (ra_artifacts r))
      then throw "Direct finalization success does not accept embedded receipt publication"
      else Ok tt
  end.

Definition before_moment (a b : num) : bool := num_ltb a b.

Definition admitSuccessfulFinalizationCommitRecord (value : jsval) : result FinalizationRecord :=
  match admitFinalizationRecord value with
  | None => throw "Invalid succeeded finalization record"
  | Some record =>
      match fr_state record, fr_result record with
      | succeeded _ queuedAtMs startedAtMs completedAtMs, Some finalizationResult =>
          if is_some (fa_receiptPublication (ra_artifacts (rr_authority finalizationResult)))
          then throw "Successful finalization commit does not accept pre-populated receipt publication"
          else if before_moment startedAtMs queuedAtMs || before_moment completedAtMs startedAtMs
          then throw "Invalid successful finalization lifecycle chronology"
          else Ok record
      | _, _ => throw "Invalid succeeded finalization record"
      end
  end.

(** [{ ...value, [key]: v }] *)
Definition with_property (value : jsval) (key : string) (v : jsval) : jsval :=
  match spread value with
  | JObj properties =>
      if existsb (fun e => String.eqb e.1 key) properties
      then JObj (map (fun e => if String.eqb e.1 key then (key, v) else e) properties)
      else JObj (properties ++ [(key, v)])
  | other => other
  end.

(** [payload.scenarioContext ?? current?.scenarioContext] *)
Definition context_or_current (scenarioContext : jsval) (current : option FinalizationRecord) : jsval :=
  match scenarioContext with
  | JUndefined | JNull => default JUndefined ((fun r => scenario_value (fr_scenarioContext r)) <$> current)
  | _ => scenarioContext
  end.

Definition buildDirectSuccessfulFinalizationCommitRecord (sessionId : string) (payload : FinalizationPayload)
    (startedAtMs completedAtMs : num) (finalizationResult : jsval) (current : option FinalizationRecord) :
    result FinalizationRecord :=
  _ ← assertDirectSuccessfulFinalizationPayload finalizationResult;
  let finalizationId := JStr (pl_finalizationId payload) in
  admitSuccessfulFinalizationCommitRecord
    (JObj [("sessionId", JStr sessionId); ("finalizationId", finalizationId);
           ("scenarioContext", context_or_current (pl_scenarioContext payload) current);
           ("state", JObj [("status", JStr "succeeded"); ("finalizationId", finalizationId);
                           ("queuedAtMs", JNum (pl_queuedAtMs payload)); ("startedAtMs", JNum startedAtMs);
                           ("completedAtMs", JNum completedAtMs)]);
           ("finalizationResult", with_property finalizationResult "finalizationId" finalizationId)]%string).

Inductive DirectSuccess : Type :=
| direct_transition (command : FinalizationTransitionCommand)
| direct_commit (record : FinalizationRecord).

Definition prepareDirectSuccessfulFinalization (sessionId : string) (payload : FinalizationPayload)
    (startedAtMs completedAtMs : num) (finalizationResult : jsval) (current : option FinalizationRecord)
    (evaluatedAtMs : num) : result DirectSuccess :=
  let command := buildFinalizationCommand sessionId payload (succeed startedAtMs completedAtMs finalizationResult) in
  match evaluateFinalizationTransition current command evaluatedAtMs with
  | invalid _ _ => throw "Invalid finalization transition"
  | _ =>
      let closed := match current with
                    | Some r => negb (String.eqb (fr_finalizationId r) (pl_finalizationId payload)) ||
                                match fr_state r with failed _ _ _ _ _ | timeout _ _ _ _ => true | _ => false end
                    | None => false
                    end in
      if closed then Ok (direct_transition command)
      else
        record ← buildDirectSuccessfulFinalizationCommitRecord sessionId payload startedAtMs completedAtMs
                   finalizationResult current;
        Ok (direct_commit record)
  end.

Definition markFinalizationSucceeded {St} `{FinalizationCommands St} `{SuccessfulFinalizationStore St}
    (sessionId : string) (payload : FinalizationPayload) (startedAtMs completedAtMs : num) (finalizationResult : jsval) :
    SM St FinalizationRecord :=
  _ ← sm_lift (assertDirectSuccessfulFinalizationPayload finalizationResult);
  current ← getCurrentFinalizationRecord sessionId;
  now ← command_clock;
  prepared ← sm_lift (prepareDirectSuccessfulFinalization sessionId payload startedAtMs completedAtMs
                        finalizationResult current now);
  match prepared with
  | direct_transition command => applyFinalizationCommand command
  | direct_commit record => commitSuccessfulFinalization record
  end.

(** ** The queue (finalization-queue.ts, finalization-work-item.ts) *)

Inductive WorkItemInput : Type :=
| inline (zkvmInput : ZkVMInput) (zkvmInputCommitment : string) (electionConfig : ElectionConfig)
| s3.

Record FinalizationWorkItem := mkWorkItem {
  wi_sessionId : string;
  wi_finalizationId : string;
  wi_queuedAtMs : num;
  wi_expectedImageId : string;
  wi_scenarios : list string;
  wi_simulateTampering : bool;
  wi_scenarioContext : FinalizationScenarioContext;
  wi_input : WorkItemInput;
}.

(** [Math.floor] of a number *)
Definition num_floor (n : num) : num :=
  match n with NFrac q => NInt (Qnum q / Zpos (Qden q)) | _ => n end.

(** [Number.isFinite(maxAttempts) && maxAttempts > 0 ? Math.floor(maxAttempts) : 1] *)
Definition publish_attempts (maxAttempts : num) : nat :=
  if isFinite maxAttempts && num_ltb (NInt 0) maxAttempts then Z.to_nat (num_Z (num_floor maxAttempts)) else 1.

Section publish.
Context {St : Type} (publish : FinalizationWorkItem -> SM St unit).

(** The loop, with the attempts that are left and the last error. *)
Fixpoint publish_loop (message : FinalizationWorkItem) (attempts : nat) (lastError : string) : SM St unit :=
  match attempts with
  | O => sm_throw lastError
  | S attempts => fun s =>
      match publish message s with
      | (Err (Throw error), s') => publish_loop message attempts error s'
      | outcome => outcome
      end
  end.

Definition publishFinalizeMessageWithRetry (message : FinalizationWorkItem) (maxAttempts : num) : SM St unit :=
  publish_loop message (publish_attempts maxAttempts) "Failed to publish finalize job".

End publish.

Definition toScenarioCode (value : string) : result string :=
  if existsb (String.eqb value) ["S0"; "S1"; "S2"; "S3"; "S4"; "S5"]%string then Ok value
  else throw ("Unsupported scenario code: " +:+ value)%string.

(** ** Asynchronous finalization (usecases/finalize-async.ts) *)

Inductive InputSource : Type := from_inline | from_s3.

Record FinalizeAsyncInput := mkAsyncInput {
  fa_sessionId : string;
  fa_finalizationId : string;
  fa_queuedAtMs : num;
  fa_zkvmInput : ZkVMInput;
  fa_electionConfig : ElectionConfig;
  fa_expectedImageId : string;
  fa_scenarios : list string;
  fa_scenarioContext : FinalizationScenarioContext;
  fa_publishMaxAttempts : num;
  fa_inputSource : InputSource;
}.

Record FinalizeAcceptedPayload := mkAccepted {
  ac_finalizationId : string;
  ac_state : FinalizationState;
}.

(** The external services of the use case; [persistAsyncProverInput] may be missing. *)
Record AsyncServices (St : Type) := mkServices {
  sv_publish : FinalizationWorkItem -> SM St unit;
  sv_persistAsyncProverInput : option (string -> string -> ZkVMInput -> ElectionConfig -> SM St unit);
}.
Arguments mkServices {St} _ _.
Arguments sv_publish {St} _ _.
Arguments sv_persistAsyncProverInput {St} _.

Definition is_pending_of (finalizationId : string) (state : FinalizationState) : bool :=
  match state with pending i _ => String.eqb i finalizationId | _ => false end.

Definition failure_value (code message : string) : jsval :=
  JObj [("code", JStr code); ("message", JStr message)]%string.

Definition internal {A} (details : string) : Finalized A := Failed (api INTERNAL_ERROR details).

Section finalize_async.
Context {St : Type} `{FinalizationCommands St} `{Noble} (deps : AsyncServices St).

Definition queued_payload (input : FinalizeAsyncInput) : FinalizationPayload :=
  mkPayload (fa_finalizationId input) (fa_queuedAtMs input) (scenario_value (fa_scenarioContext input))
    (Some "FINALIZE_REQUESTED"%string).

Definition writeAsyncFailure (input : FinalizeAsyncInput) (code message : string) : SM St unit :=
  sm_catch
    (failedAtMs ← command_clock;
     _ ← markFinalizationFailed (fa_sessionId input)
           (mkPayload (fa_finalizationId input) (fa_queuedAtMs input) JUndefined (Some code)) None failedAtMs
           (failure_value code message);
     mret tt)
    (fun _ => mret tt).

Definition persistAsyncInput (input : FinalizeAsyncInput) : SM St (Finalized unit) :=
  match sv_persistAsyncProverInput deps with
  | None =>
      _ ← writeAsyncFailure input "PROVER_INPUT_PERSISTENCE_UNAVAILABLE"
            "Target async prover input persistence is unavailable";
      mret (internal "Target async prover input persistence is not configured")
  | Some persistAsyncProverInput =>
      sm_catch
        (_ ← persistAsyncProverInput (fa_sessionId input) (fa_finalizationId input) (fa_zkvmInput input)
               (fa_electionConfig input);
         mret (Done tt))
        (fun _ =>
           _ ← writeAsyncFailure input "PROVER_INPUT_UPLOAD_FAILED" "Failed to persist target async prover input";
           mret (internal "Failed to persist target async prover input"))
  end.

Definition work_item (input : FinalizeAsyncInput) (commitment : string) (scenarios : list string) : FinalizationWorkItem :=
  mkWorkItem (fa_sessionId input) (fa_finalizationId input) (fa_queuedAtMs input) (fa_expectedImageId input) scenarios
    false (fa_scenarioContext input)
    (match fa_inputSource input with
     | from_s3 => s3
     | from_inline => inline (fa_zkvmInput input) commitment (fa_electionConfig input)
     end).

(** What follows when the attempt is pending. *)
Definition dispatch_pending (input : FinalizeAsyncInput) (state : FinalizationState) :
    SM St (Finalized FinalizeAcceptedPayload) :=
  zkvmInputCommitment ← sm_lift (computeInputCommitment (fa_zkvmInput input));
  persistence ← match fa_inputSource input with from_s3 => persistAsyncInput input | from_inline => mret (Done tt) end;
  match persistence with
  | Failed error => mret (Failed error)
  | Done _ =>
      scenarios ← sm_lift (map_result toScenarioCode (fa_scenarios input));
      sm_catch
        (_ ← publishFinalizeMessageWithRetry (sv_publish deps) (work_item input zkvmInputCommitment scenarios)
               (fa_publishMaxAttempts input);
         mret (Done (mkAccepted (fa_finalizationId input) state)))
        (fun _ =>
           _ ← writeAsyncFailure input "SQS_PUBLISH_FAILED" "Failed to enqueue finalization job";
           mret (internal "Failed to enqueue finalization job"))
  end.

Definition finalizeAsync (input : FinalizeAsyncInput) : SM St (Finalized FinalizeAcceptedPayload) :=
  queued ← sm_catch
             (record ← markFinalizationQueued (fa_sessionId input) (queued_payload input); mret (Some (fr_state record)))
             (fun _ => mret None);
  match queued with
  | None => mret (internal "Failed to update session finalization state")
  | Some finalizationState =>
      if negb (is_pending_of (fa_finalizationId input) finalizationState)
      then mret (Done (mkAccepted (state_id finalizationState) finalizationState))
      else dispatch_pending input finalizationState
  end.

(** ** The asynchronous outcome of [finalizeSessionUsecase] *)

Definition async_input (sessionId finalizationId : string) (queuedAtMs : num) (work : PreparedFinalizationInputs)
    (expectedImageId : string) (publishMaxAttempts : num) (inputSource : InputSource) : FinalizeAsyncInput :=
  mkAsyncInput sessionId finalizationId queuedAtMs (pr_zkvmInput work) (pr_authoritativeElectionConfig work)
    expectedImageId (fc_scenariosApplied (pr_scenarioContext work))
    (toFinalizationScenarioContext (pr_scenarioContext work)) publishMaxAttempts inputSource.

(** Every exception of the use case is an error of its result. *)
Definition finalizeSessionAsynchronously (sessionId finalizationId : string) (queuedAtMs : num)
    (work : PreparedFinalizationInputs) (expectedImageId : string) (publishMaxAttempts : num) (inputSource : InputSource) :
    SM St (Finalized FinalizeAcceptedPayload) :=
  sm_catch
    (finalizeAsync (async_input sessionId finalizationId queuedAtMs work expectedImageId publishMaxAttempts inputSource))
    (fun message => mret (internal message)).

End finalize_async.

(** ** Updates of the prover (finalization-state-update.ts) *)

Inductive FinalizationStateUpdate : Type :=
| RUNNING (startedAtMs : num)
| SUCCEEDED (startedAtMs completedAtMs : num) (finalizationResult : jsval)
| FAILED (startedAtMs : option num) (failedAtMs : num) (error : jsval)
| TIMED_OUT (startedAtMs : option num) (timeoutAtMs : num).

Record FinalizationStateUpdatePayload := mkUpdate {
  up_sessionId : string;
  up_finalizationId : string;
  up_queuedAtMs : num;
  up_update : FinalizationStateUpdate;
}.

Definition RUNTIME_UPDATE_RECEIVED : string := "RUNTIME_UPDATE_RECEIVED".

Definition resolveWriterUpdateFailureReason (error : jsval) : string :=
  match prop error "code" with
  | JStr reason => if isFinalizationEventReason reason then reason else RUNTIME_UPDATE_RECEIVED
  | _ => RUNTIME_UPDATE_RECEIVED
  end.

(** The error of a result without proof-bound data. *)
Definition invalid_result_error : jsval :=
  JObj [("code", JStr "FINALIZATION_RESULT_INVALID");
        ("message", JStr "Canonical finalization result is missing proof-bound journal data");
        ("category", JStr "artifact")]%string.

Section updates.
Context {St : Type} `{FinalizationCommands St} `{SuccessfulFinalizationStore St} `{Noble}.

Definition update_payload (payload : FinalizationStateUpdatePayload) (reason : string) : FinalizationPayload :=
  mkPayload (up_finalizationId payload) (up_queuedAtMs payload) JUndefined (Some reason).

Definition applySucceededFinalizationUpdate (payload : FinalizationStateUpdatePayload)
    (startedAtMs completedAtMs : num) (finalizationResult : jsval) : SM St FinalizationState :=
  currentRecord ← getFinalizationRecord (up_sessionId payload) (up_finalizationId payload);
  match currentRecord with
  | None => sm_throw "Finalization record unavailable"
  | Some currentRecord =>
      if negb (String.eqb (fr_finalizationId currentRecord) (up_finalizationId payload))
      then sm_throw "Finalization record unavailable"
      else
        hydratedResult ← sm_lift (hydrateFinalizationResultFromJournal finalizationResult
                                    (Some (fr_scenarioContext currentRecord)));
        match hydratedResult with
        | None =>
            failedRecord ← markFinalizationFailed (up_sessionId payload)
                             (update_payload payload "FINALIZATION_RESULT_INVALID") (Some startedAtMs) completedAtMs
                             invalid_result_error;
            mret (fr_state failedRecord)
        | Some hydratedResult =>
            succeededRecord ← markFinalizationSucceeded (up_sessionId payload)
                                (update_payload payload RUNTIME_UPDATE_RECEIVED) startedAtMs completedAtMs
                                (JObj (result_authority_value hydratedResult));
            mret (fr_state succeededRecord)
        end
  end.

Definition applyFinalizationStateUpdatePayload (payload : FinalizationStateUpdatePayload) :
    SM St (string * FinalizationState) :=
  state ← match up_update payload with
          | RUNNING startedAtMs =>
              record ← markFinalizationRunning (up_sessionId payload) (update_payload payload RUNTIME_UPDATE_RECEIVED)
                         startedAtMs;
              mret (fr_state record)
          | SUCCEEDED startedAtMs completedAtMs finalizationResult =>
              applySucceededFinalizationUpdate payload startedAtMs completedAtMs finalizationResult
          | FAILED startedAtMs failedAtMs error =>
              record ← markFinalizationFailed (up_sessionId payload)
                         (update_payload payload (resolveWriterUpdateFailureReason error)) startedAtMs failedAtMs error;
              mret (fr_state record)
          | TIMED_OUT startedAtMs timeoutAtMs =>
              record ← markFinalizationTimedOut (up_sessionId payload) (update_payload payload RUNTIME_UPDATE_RECEIVED)
                         startedAtMs timeoutAtMs;
              mret (fr_state record)
          end;
  mret (up_sessionId payload, state).

End updates.

(** ** Reconciliation (reconcile-finalization.ts) *)

Inductive StoppedStatus : Type := exec_succeeded | exec_failed | exec_timed_out | exec_aborted.

Inductive FinalizationExecutionObservation : Type :=
| exec_missing
| exec_running
| exec_stopped (status : StoppedStatus) (stoppedAtMs : num).

Record ReconciliationInput := mkReconciliation {
  re_sessionId : string;
  re_finalizationId : string;
  re_nowMs : num;
  re_dispatchDeadlineMs : num;
}.

Definition is_active (state : FinalizationState) : bool :=
  match state with pending _ _ | running _ _ _ => true | _ => false end.

Definition isCurrentUnfinishedFinalization (record : option FinalizationRecord) (finalizationId : string) :
    option FinalizationRecord :=
  match record with
  | Some r => if String.eqb (fr_finalizationId r) finalizationId && is_active (fr_state r) then Some r else None
  | None => None
  end.

Definition is_pending (state : FinalizationState) : bool := match state with pending _ _ => true | _ => false end.

(** [a - b < 60_000] and [a - b <= limit] *)
Definition shouldReconcileExecution (state : FinalizationState) (execution : FinalizationExecutionObservation)
    (nowMs dispatchDeadlineMs : num) : bool :=
  match execution with
  | exec_running => false
  | exec_missing =>
      if negb (is_pending state) || num_leb (num_sub nowMs (state_queued state)) dispatchDeadlineMs then false else true
  | exec_stopped _ stoppedAtMs => if num_ltb (num_sub nowMs stoppedAtMs) (NInt 60000) then false else true
  end.

Definition resolveReconciliationFailureReason (state : FinalizationState)
    (execution : FinalizationExecutionObservation) : string :=
  match execution with
  | exec_missing => "FINALIZATION_DISPATCH_TIMEOUT"
  | exec_stopped exec_succeeded _ | exec_stopped exec_timed_out _ => "FINALIZATION_OUTCOME_UNRECORDED"
  | exec_stopped exec_failed _ =>
      if is_pending state then "FINALIZATION_OUTCOME_UNRECORDED" else "PROVER_EXECUTION_FAILED"
  | _ => if is_pending state then "FINALIZATION_OUTCOME_UNRECORDED" else "PROVER_EXECUTION_ABORTED"
  end.

Definition status_text (execution : FinalizationExecutionObservation) : string :=
  match execution with
  | exec_missing => "missing"
  | exec_running => "running"
  | exec_stopped exec_succeeded _ => "succeeded"
  | exec_stopped exec_failed _ => "failed"
  | exec_stopped exec_timed_out _ => "timed_out"
  | exec_stopped exec_aborted _ => "aborted"
  end.

Definition reconciled_error (state : FinalizationState) (execution : FinalizationExecutionObservation) : jsval :=
  failure_value (resolveReconciliationFailureReason state execution)
    (match execution with
     | exec_missing => "Finalization dispatch did not start before its deadline."
     | _ => ("Finalization execution " +:+ status_text execution +:+ " without a recorded outcome.")%string
     end).

Definition started_of (state : FinalizationState) : option num :=
  match state with running _ _ startedAtMs => Some startedAtMs | _ => None end.

Section reconciliation.
Context {St : Type} `{FinalizationCommands St}.
Context (observeExecution : string -> string -> SM St FinalizationExecutionObservation).

Definition writeReconciledOutcome (input : ReconciliationInput) (state : FinalizationState)
    (execution : FinalizationExecutionObservation) : SM St FinalizationRecord :=
  let payload := fun reason => mkPayload (re_finalizationId input) (state_queued state) JUndefined (Some reason) in
  match execution, state with
  | exec_stopped exec_timed_out stoppedAtMs, running _ _ startedAtMs =>
      markFinalizationTimedOut (re_sessionId input) (payload "EXECUTION_TIMED_OUT"%string) (Some startedAtMs) stoppedAtMs
  | _, _ =>
      markFinalizationFailed (re_sessionId input) (payload (resolveReconciliationFailureReason state execution))
        (started_of state) (match execution with exec_stopped _ stoppedAtMs => stoppedAtMs | _ => re_nowMs input end)
        (reconciled_error state execution)
  end.

Definition reconcileFinalization (input : ReconciliationInput) : SM St unit :=
  current ← getCurrentFinalizationRecord (re_sessionId input);
  match isCurrentUnfinishedFinalization current (re_finalizationId input) with
  | None => mret tt
  | Some current =>
      let state := fr_state current in
      if num_ltb (num_sub (re_nowMs input) (state_queued state)) (NInt 60000) then mret tt
      else
        execution ← observeExecution (re_sessionId input) (re_finalizationId input);
        if negb (shouldReconcileExecution state execution (re_nowMs input) (re_dispatchDeadlineMs input)) then mret tt
        else
          sm_catch
            (_ ← writeReconciledOutcome input state execution; mret tt)
            (fun error =>
               latest ← getCurrentFinalizationRecord (re_sessionId input);
               match isCurrentUnfinishedFinalization latest (re_finalizationId input) with
               | None => mret tt
               | Some _ => sm_throw error
               end)
  end.

End reconciliation.

(** ** The cancellation of the user (apps/api/src/server/api/handlers/finalizeCancel.ts) *)

Inductive CancelAnswer : Type :=
| async_disabled
| not_cancellable
| cancellation_written (state : FinalizationState).

Definition isCancellable (state : option FinalizationState) (finalizationId : string) : option FinalizationState :=
  match state with
  | Some s => if String.eqb (state_id s) finalizationId && is_active s then Some s else None
  | None => None
  end.

Definition cancellation_reason (reason : option string) : string :=
  match reason with
  | Some text => if str_truthy (JsText.trim text) then JsText.trim text else "Cancelled by user request"
  | None => "Cancelled by user request"
  end.

Section cancellation.
Context {St : Type} `{FinalizationCommands St}.
(** The runtime data of the store and the execution service; the answer of a store that
    keeps runtime data with the record is that of [markFinalizationFailed]. *)
Context (date_now : SM St num).
Context (getStepFunctionsArn : string -> string -> SM St (option string)).
Context (stopFinalizationExecution : string -> string -> SM St unit).

(** No failure to stop the execution leaves the handler. *)
Definition stop_execution (arn : option string) (reason : string) : SM St unit :=
  match LocalCast.nonempty arn with
  | Some arn => sm_catch (stopFinalizationExecution arn reason) (fun _ => mret tt)
  | None => mret tt
  end.

Definition cancelFinalizationHandler (asyncMode : bool) (finalization : option FinalizationRecord)
    (sessionId finalizationId : string) (reason : option string) : SM St CancelAnswer :=
  if negb asyncMode then mret async_disabled
  else
    arn ← (match finalization with
           | Some r => if String.eqb (fr_finalizationId r) finalizationId then getStepFunctionsArn sessionId finalizationId
                       else mret None
           | None => mret None
           end);
    match isCancellable (fr_state <$> finalization) finalizationId with
    | None => mret not_cancellable
    | Some state =>
        _ ← stop_execution arn (cancellation_reason reason);
        failedAtMs ← date_now;
        record ← markFinalizationFailed sessionId
                   (mkPayload finalizationId (state_queued state) JUndefined (Some "USER_CANCELLED"%string))
                   (started_of state) failedAtMs (failure_value "USER_CANCELLED" (cancellation_reason reason));
        mret (cancellation_written (fr_state record))
    end.

End cancellation.

End FinRun.

(** * What the use cases promise over any store that keeps the laws of commands:
    each command is answered for the record the session had at one moment, beside
    other invocations. *)
Import FinRun.

(** ** The laws of a store *)

(** An attempt that is open when the user cancels it is sent the command that ends it,
    with the moment it started when it is running. *)
Lemma cancellation_command r failedAtMs reason : record_coherent r -> is_active (fr_state r) = true ->
  isCancellable (Some (fr_state r)) (fr_finalizationId r) = Some (fr_state r) /\
  buildFinalizationCommand (fr_sessionId r)
    (mkPayload (fr_finalizationId r) (state_queued (fr_state r)) JUndefined (Some "USER_CANCELLED"%string))
    (fail (started_of (fr_state r)) failedAtMs (failure_value "USER_CANCELLED" (cancellation_reason reason))) =
  ending_command r (cancel (state_started (fr_state r)) failedAtMs (cancellation_reason reason)) (Some "USER_CANCELLED"%string).
Proof.
  intros Hr Ha. unfold isCancellable. rewrite (rc_state_id r Hr), String.eqb_refl, Ha. split; [done |].
  assert (started_of (fr_state r) = state_started (fr_state r)) as -> by (by destruct (fr_state r)). done.
Qed.

(** An execution that cannot be stopped does not keep the cancellation from its command. *)
Lemma cancellation_sent {St} `{FinalizationCommands St} date_now (arn_of : string -> string -> SM St (option string))
    (stop : string -> string -> SM St unit) r reason s s1 arn s2 n s3 :
  record_coherent r -> is_active (fr_state r) = true ->
  arn_of (fr_sessionId r) (fr_finalizationId r) s = (Ok arn, s1) ->
  (exists answer, match LocalCast.nonempty arn with Some a => stop a (cancellation_reason reason) s1 | None => (Ok tt, s1) end =
     (answer, s2) /\ answer <> Err OutOfFuel) ->
  date_now s2 = (Ok n, s3) ->
  cancelFinalizationHandler date_now arn_of stop true (Some r) (fr_sessionId r) (fr_finalizationId r) reason s =
  (record ← applyFinalizationCommand
              (ending_command r (cancel (state_started (fr_state r)) n (cancellation_reason reason)) (Some "USER_CANCELLED"%string));
   mret (cancellation_written (fr_state record))) s3.
Proof.
  intros Hr Ha Earn (answer & Estop & Hans) Enow. destruct (cancellation_command r n reason Hr Ha) as [Hc Hcommand].
  unfold cancelFinalizationHandler. cbn [negb fmap option_fmap option_map]. rewrite Hc, String.eqb_refl.
  assert (Hstop : stop_execution stop arn (cancellation_reason reason) s1 = (Ok tt, s2)).
  { unfold stop_execution. destruct (LocalCast.nonempty arn) as [a |]; [| by injection Estop as <- <-].
    unfold sm_catch. rewrite Estop. by destruct answer as [[] | [m |]]. }
  unfold mbind, SM_bind. rewrite Earn, Hstop, Enow. unfold markFinalizationFailed. by rewrite Hcommand.
Qed.

Section answers.
Context {St : Type} (held : St -> string -> option FinalizationRecord) (meanwhile : St -> St -> Prop).

(** At one moment the policy applied [command] to the record of the session, and
    [record] took its place, in this session only. *)
Definition command_installed (command : FinalizationTransitionCommand) (s : St) (record : FinalizationRecord) (s' : St) :
    Prop :=
  exists s1 s2 t state reason next, meanwhile s s1 /\ evaluateFinalizationTransition (held s1 (cmd_sessionId command)) command t =
    applied state reason next /\ stored_form next = Some record /\ held s2 (cmd_sessionId command) = Some record /\
    (forall other, other <> cmd_sessionId command -> held s2 other = held s1 other) /\ meanwhile s2 s'.

(** What a command that returned a record did. *)
Inductive command_answer (command : FinalizationTransitionCommand) (s : St) (record : FinalizationRecord) (s' : St) : Prop :=
| answer_installed : command_installed command s record s' -> command_answer command s record s'
| answer_kept s1 t : meanwhile s s1 -> held s1 (cmd_sessionId command) = Some record ->
    (match evaluateFinalizationTransition (Some record) command t with idempotent _ | rejected _ _ => True | _ => False end) ->
    meanwhile s1 s' -> command_answer command s record s'
| answer_shared s1 s2 t state reason next : meanwhile s s1 ->
    evaluateFinalizationTransition (held s1 (cmd_sessionId command)) command t = applied state reason next ->
    stored_form next = Some record -> meanwhile s1 s2 -> held s2 (cmd_sessionId command) = Some record -> meanwhile s2 s' ->
    command_answer command s record s'
| answer_overtaken s1 : meanwhile s s1 -> held s1 (cmd_sessionId command) = Some record -> meanwhile s1 s' ->
    command_answer command s record s'.

(** A command that threw wrote nothing, or its answer was lost. *)
Definition command_lost (command : FinalizationTransitionCommand) (s s' : St) : Prop :=
  meanwhile s s' \/ exists record, command_installed command s record s'.

End answers.

(** [held] is the current record of a session, [meanwhile] what other invocations
    and time do, [in_order n] says that the store is well formed and has room for
    [n] commands. *)
Class FinalizationCommandsLaws (St : Type) `{FinalizationCommands St} := {
  store_ready : nat -> St -> Prop;
  held : St -> string -> option FinalizationRecord;
  meanwhile : St -> St -> Prop;
  meanwhile_refl s : meanwhile s s;
  meanwhile_trans s1 s2 s3 : meanwhile s1 s2 -> meanwhile s2 s3 -> meanwhile s1 s3;
  meanwhile_ready n s s' : meanwhile s s' -> store_ready n s -> store_ready n s';
  fewer_ready n s : store_ready (S n) s -> store_ready n s;
  command_clock_law n s r s' : store_ready n s -> command_clock s = (r, s') -> meanwhile s s' /\ no_fuel_error r;
  current_law n sid s r s' : store_ready n s -> getCurrentFinalizationRecord sid s = (r, s') -> no_fuel_error r /\
    exists s1, meanwhile s s1 /\ meanwhile s1 s' /\ forall record, r = Ok (Some record) -> held s1 sid = Some record;
  record_law n sid fid s r s' : store_ready n s -> getFinalizationRecord sid fid s = (r, s') ->
    meanwhile s s' /\ no_fuel_error r;
  command_law n command s r s' : store_ready (S n) s -> applyFinalizationCommand command s = (r, s') ->
    store_ready n s' /\
    match r with
    | Ok record => command_answer held meanwhile command s record s'
    | Err (Throw _) => command_lost held meanwhile command s s'
    | Err OutOfFuel => False
    end;
}.

(** What the use case relies on of the queue and of the storage of inputs: their
    calls end, and time passes. *)
Record AsyncServicesLaws {St} `{FinalizationCommandsLaws St} (deps : AsyncServices St) : Prop := {
  publish_law n message s r s' : store_ready n s -> sv_publish deps message s = (r, s') -> meanwhile s s' /\ no_fuel_error r;
  persist_law persist n sid fid input config s r s' : sv_persistAsyncProverInput deps = Some persist -> store_ready n s ->
    persist sid fid input config s = (r, s') -> meanwhile s s' /\ no_fuel_error r;
}.

(** ** The commitment of an input is computed or throws *)

Lemma map_result_returns {A B} (f : A -> result B) l : (forall x, no_fuel_error (f x)) -> no_fuel_error (map_result f l).
Proof. intros Hf. induction l; cbn [map_result]; no_fuel; done. Qed.

Lemma scenario_code_returns value : no_fuel_error (toScenarioCode value).
Proof. unfold toScenarioCode. no_fuel. Qed.

Section commitment.
Context `{Noble}.

Lemma strict_returns s : no_fuel_error (Contract.hexToBytesStrict s).
Proof. unfold Contract.hexToBytesStrict. no_fuel. Qed.

Lemma in_range_returns n max name : no_fuel_error (assertUnsignedIntegerInRange n max name).
Proof. unfold assertUnsignedIntegerInRange. no_fuel. Qed.

Lemma push_returns nodes : no_fuel_error (push_nodes nodes).
Proof. induction nodes; cbn [push_nodes]; no_fuel; done. Qed.

#[local] Hint Resolve strict_returns in_range_returns push_returns : no_fuel.

Lemma encode_votes_returns votes : no_fuel_error (encode_votes votes).
Proof.
  induction votes as [| vote votes IH]; cbn [encode_votes]; [done |].
  apply no_fuel_bind; [| intros; apply no_fuel_bind; [exact IH | intros; apply no_fuel_ok]].
  unfold encode_vote, uint32LE, uint16LE. no_fuel.
Qed.

Lemma commitment_returns input : no_fuel_error (computeInputCommitment input).
Proof.
  assert (Hn : forall v, no_fuel_error (normalizeInputCommitmentVote v)).
  { intros v. unfold normalizeInputCommitmentVote. apply no_fuel_bind; [apply strict_returns | intros c].
    apply no_fuel_bind; [apply map_result_returns, strict_returns | intros p; apply no_fuel_ok]. }
  unfold computeInputCommitment, computeInputCommitmentFromPublicInput, encodeInputCommitmentPreimage,
    validateInputCommitmentPublicFields, toUuidBytes, uint32LE.
  repeat first [solve [auto using map_result_returns, encode_votes_returns with no_fuel]
               | apply no_fuel_bind; [| intros ?] | case_match].
Qed.

End commitment.

(** ** Direct success *)

Lemma admitted_object value authority : admitFinalizationResultAuthority value = Some authority ->
  exists properties, value = JObj properties /\ "finalizationId"%string ∉ map fst properties.
Proof.
  unfold admitFinalizationResultAuthority.
  destruct value as [| | | | | l | l | properties]; [by (cbn; repeat case_match) .. |].
  destruct (hasOnlyAllowedKeys (JObj properties) _) eqn:Ek; [| done]. intros _. exists properties. split; [done |].
  eapply allowed_keys; [exact Ek |]. intros Hin%(bool_decide_pack _). vm_compute in Hin. destruct Hin.
Qed.

Lemma own_appended l key v : key ∉ map fst l -> own (l ++ [(key, v)]) key = Some v.
Proof.
  induction l as [| [k w] l IH]; cbn; [by rewrite String.eqb_refl |]. intros [Hn Hk]%not_elem_of_cons.
  destruct (String.eqb_spec k key) as [-> |]; [done | by apply IH].
Qed.

(** The result that is handed to a commit reads back as the result of the payload. *)
Lemma extended_result value authority id : admitFinalizationResultAuthority value = Some authority ->
  isSafeVerifierSegment id = true ->
  admitFinalizationResultRecord (with_property value "finalizationId" (JStr id)) = Some (mkResultRecord id authority).
Proof.
  intros Ha Hid. destruct (admitted_object _ _ Ha) as (l & -> & Hk). unfold with_property. cbn [spread].
  assert (Hno : existsb (fun e => String.eqb e.1 "finalizationId") l = false).
  { apply not_true_iff_false. intros (e & He & Hx%String.eqb_eq)%existsb_exists. apply Hk.
    rewrite <- Hx. apply list_elem_of_In, in_map_iff. by exists e. }
  rewrite Hno. unfold admitFinalizationResultRecord, parseResultRecordWith. cbn [isNonArrayObject negb prop].
  rewrite own_appended by done. rewrite option_segment by done.
  assert (Hw : without_key (JObj (l ++ [("finalizationId"%string, JStr id)])) "finalizationId" = JObj l).
  { rewrite <- (without_own l "finalizationId" Hk). cbn [without_key]. f_equal. rewrite List.filter_app. cbn. by rewrite app_nil_r. }
  by rewrite Hw, Ha.
Qed.

(** The fields of a record that was read from an object. *)
Lemma admitted_fields v record : admitFinalizationRecord v = Some record ->
  prop v "sessionId" = JStr (fr_sessionId record) /\ prop v "finalizationId" = JStr (fr_finalizationId record) /\
  parseFinalizationState (prop v "state") = Some (fr_state record) /\
  parseFinalizationScenarioContext (prop v "scenarioContext") = Some (fr_scenarioContext record) /\
  (if is_succeeded (fr_state record)
   then exists r, admitFinalizationResultRecord (prop v "finalizationResult") = Some r /\ fr_result record = Some r
   else fr_result record = None).
Proof.
  unfold admitFinalizationRecord, parseRecordWith. destruct (negb _); [done |]. unfold parseFinalizationRecordIdentity.
  destruct (prop v "sessionId") as [| | | | sid | | |]; try done. cbn [parseSessionId].
  destruct (isSafeVerifierSegment sid); [| done]. destruct (prop v "finalizationId") as [| | | | fid | | |]; try done.
  cbn [parseFinalizationId]. destruct (isSafeVerifierSegment fid); [| done].
  destruct (parseFinalizationState _) as [state |]; [| done].
  destruct (parseFinalizationScenarioContext _) as [context |]; [| done]. destruct (String.eqb (state_id state) fid); [| done].
  destruct (is_succeeded state) eqn:Es.
  - destruct (negb _); [done |]. change (parseResultRecordWith admitFinalizationResultAuthority) with admitFinalizationResultRecord.
    destruct (admitFinalizationResultRecord _) as [r |]; [| done]. destruct (String.eqb _ _); [| done]. intros [= <-]. cbn.
    rewrite Es. split_and!; try done. by exists r.
  - destruct (negb _); [done |]. intros [= <-]. cbn. by rewrite Es.
Qed.

Section direct.
Context (sessionId : string) (payload : FinalizationPayload) (startedAtMs completedAtMs : num) (finalizationResult : jsval).

Definition succeed_command : FinalizationTransitionCommand :=
  buildFinalizationCommand sessionId payload (succeed startedAtMs completedAtMs finalizationResult).

Lemma committed_fields current record :
  buildDirectSuccessfulFinalizationCommitRecord sessionId payload startedAtMs completedAtMs finalizationResult current = Ok record ->
  fr_sessionId record = sessionId /\ fr_finalizationId record = pl_finalizationId payload /\
  parseFinalizationScenarioContext (context_or_current (pl_scenarioContext payload) current) =
    Some (fr_scenarioContext record) /\
  (state_ok (succeeded (pl_finalizationId payload) (pl_queuedAtMs payload) startedAtMs completedAtMs) ->
   fr_state record = succeeded (pl_finalizationId payload) (pl_queuedAtMs payload) startedAtMs completedAtMs) /\
  (forall authority, admitFinalizationResultAuthority finalizationResult = Some authority ->
   isSafeVerifierSegment (pl_finalizationId payload) = true ->
   fr_result record = Some (mkResultRecord (pl_finalizationId payload) authority) /\
   fa_bitmap (ra_artifacts authority) = None /\ fa_receiptPublication (ra_artifacts authority) = None).
Proof.
  unfold buildDirectSuccessfulFinalizationCommitRecord. destruct (assertDirectSuccessfulFinalizationPayload _) as [[] |] eqn:Ed; [| done].
  cbn [mbind result_bind]. unfold admitSuccessfulFinalizationCommitRecord. set (v := JObj _).
  destruct (admitFinalizationRecord v) as [r |] eqn:Er; [| done]. destruct (admitted_fields _ _ Er) as (H1 & H2 & H3 & H4 & H5).
  destruct (fr_state r) as [| | i q st ct | |] eqn:Es; try done. cbn [is_succeeded] in H5. destruct H5 as (rr & Hrr & Hres).
  rewrite Hres. destruct (is_some _); [done |]. destruct (_ || _); [done |]. intros [= <-].
  change (prop v "sessionId") with (JStr sessionId) in H1. injection H1 as <-.
  change (prop v "finalizationId") with (JStr (pl_finalizationId payload)) in H2. injection H2 as <-.
  split_and!; try done.
  - intros Hok%state_write. change (prop v "state") with
      (state_value (succeeded (pl_finalizationId payload) (pl_queuedAtMs payload) startedAtMs completedAtMs)) in H3.
    rewrite Hok in H3. injection H3 as H3. congruence.
  - intros authority Ha Hid. change (prop v "finalizationResult") with
      (with_property finalizationResult "finalizationId" (JStr (pl_finalizationId payload))) in Hrr.
    rewrite (extended_result _ _ _ Ha Hid) in Hrr. injection Hrr as <-. split; [done |].
    unfold assertDirectSuccessfulFinalizationPayload in Ed. rewrite Ha in Ed.
    destruct (fa_bitmap _); [done |]. by destruct (fa_receiptPublication _).
Qed.

Lemma succeed_admitted a : admitCommand succeed_command = inl a ->
  ad_state a = succeeded (pl_finalizationId payload) (pl_queuedAtMs payload) startedAtMs completedAtMs /\
  ad_successfulResult a = admitFinalizationResultAuthority finalizationResult /\
  ad_invalidSuccessfulResult a = negb (is_some (admitFinalizationResultAuthority finalizationResult)) /\
  ad_scenarioContext a =
    (if truthy_value (pl_scenarioContext payload) then parseFinalizationScenarioContext (pl_scenarioContext payload) else None).
Proof.
  unfold admitCommand. destruct (hasValidBase succeed_command) eqn:Eb; [done |].
  apply base_valid in Eb as (_ & Hid & _). cbn in Hid. rewrite option_segment by exact Hid.
  change (cmd_kind succeed_command) with (succeed startedAtMs completedAtMs finalizationResult). cbv iota beta.
  destruct (negb (hasRequiredScenarioContext _ _)); [done |]. unfold admitCommandState.
  change (cmd_kind succeed_command) with (succeed startedAtMs completedAtMs finalizationResult). cbv iota beta.
  destruct (_ || _); [done |]. intros [= <-]. split_and!; try done. cbn [ad_scenarioContext].
  change (cmd_scenarioContext succeed_command) with
    (if truthy_value (pl_scenarioContext payload) then pl_scenarioContext payload else JUndefined).
  destruct (truthy_value (pl_scenarioContext payload)) eqn:Et; [| done]. unfold admitScenarioContext.
  by destruct (pl_scenarioContext payload).
Qed.

Lemma succeed_prior r a : record_coherent r -> admitCommand succeed_command = inl a ->
  match evaluatePriorFinalizationState (cmd_kind succeed_command) (ad_state a) (Some (fr_state r)) with
  | Some (idempotent state) => state = fr_state r /\ fr_finalizationId r = pl_finalizationId payload /\
      is_succeeded (fr_state r) = true
  | Some (rejected _ _) => negb (String.eqb (fr_finalizationId r) (pl_finalizationId payload)) ||
      match fr_state r with failed _ _ _ _ _ | timeout _ _ _ _ => true | _ => false end = true
  | Some _ => False
  | None => True
  end.
Proof.
  intros Hr Ha. destruct (succeed_admitted _ Ha) as (-> & _). rewrite <- (rc_state_id r Hr).
  change (cmd_kind succeed_command) with (succeed startedAtMs completedAtMs finalizationResult).
  unfold evaluatePriorFinalizationState. cbn [is_cancel negb andb state_id].
  destruct (String.eqb_spec (state_id (fr_state r)) (pl_finalizationId payload)) as [Hid |]; [| done]. cbn [negb andb orb].
  by destruct (fr_state r).
Qed.

Lemma next_is_committed current a next built : coherent current -> admitCommand succeed_command = inl a ->
  buildNextRecord current a = Some next ->
  buildDirectSuccessfulFinalizationCommitRecord sessionId payload startedAtMs completedAtMs finalizationResult current = Ok built ->
  next = built /\ ad_state a = fr_state built /\ exists res, fr_result built = Some res /\
  fa_bitmap (ra_artifacts (rr_authority res)) = None /\ fa_receiptPublication (ra_artifacts (rr_authority res)) = None.
Proof.
  intros Hc Ha Hn (Hs & Hid & Hctx & Hstate & Hres)%committed_fields. assert (Hadm := admit_spec _ _ Ha).
  destruct (succeed_admitted _ Ha) as (Est & Esr & _ & Ec). destruct (built_record _ _ _ Hn) as (E1 & E2 & E3 & E4 & E5).
  assert (Hsafe : isSafeVerifierSegment (pl_finalizationId payload) = true)
    by (change (pl_finalizationId payload) with (cmd_finalizationId succeed_command);
        rewrite <- (as_id _ _ Hadm); apply (as_safe_id _ _ Hadm)).
  assert (Hbuilt : fr_state built = ad_state a).
  { rewrite Est. apply Hstate. rewrite <- Est. apply ordered_state_ok; [| apply (as_order _ _ Hadm) | by rewrite Est].
    by rewrite Est. }
  rewrite Est in E5. cbn [is_succeeded] in E5. destruct E5 as (res & Er1 & Er2). rewrite Esr in Er1.
  destruct (Hres _ Er1 Hsafe) as (Hr & Hbitmap & Hreceipt).
  split; [| split; [done | by exists (mkResultRecord (pl_finalizationId payload) res)]]. assert (Hcontext : fr_scenarioContext next = fr_scenarioContext built).
  { destruct E4 as [E4 | (E4 & r & -> & E4')]; rewrite Ec in E4.
    - destruct (truthy_value (pl_scenarioContext payload)) eqn:Et; [| done].
      unfold context_or_current in Hctx. destruct (pl_scenarioContext payload); try done; congruence.
    - rewrite E4'. unfold context_or_current in Hctx. cbn [fmap option_fmap option_map default] in Hctx.
      assert (Hp := rc_context r Hc). unfold truthy_value in E4.
      destruct (pl_scenarioContext payload) as [| | [] | | text | | |]; try done; cbn in *; congruence. }
  destruct next, built. cbn in *. rewrite (as_session _ _ Hadm) in E1. rewrite (as_id _ _ Hadm) in E2, Er2. cbn in E1, E2, Er2. congruence.
Qed.

(** The direct success of an attempt, which a store commits without going through
    the transition policy, is the success the policy would have applied: the
    record that is prepared for the commit is the policy's next record, with
    its times, scenario and result, and has no bitmap and no receipt publication; or
    the attempt has succeeded already. What has failed or belongs to another attempt
    is left to the policy. *)
Theorem direct_success_is_applied current evaluatedAtMs record : coherent current ->
  prepareDirectSuccessfulFinalization sessionId payload startedAtMs completedAtMs finalizationResult current evaluatedAtMs =
    Ok (direct_commit record) ->
  ((exists reason res, evaluateFinalizationTransition current succeed_command evaluatedAtMs =
      applied (fr_state record) reason record /\ fr_result record = Some res /\
      fa_bitmap (ra_artifacts (rr_authority res)) = None /\ fa_receiptPublication (ra_artifacts (rr_authority res)) = None) \/
   (exists r, current = Some r /\ fr_finalizationId r = pl_finalizationId payload /\ is_succeeded (fr_state r) = true /\
      evaluateFinalizationTransition current succeed_command evaluatedAtMs = idempotent (fr_state r))) /\
  fr_sessionId record = sessionId /\ fr_finalizationId record = pl_finalizationId payload.
Proof.
  intros Hc. unfold prepareDirectSuccessfulFinalization. fold succeed_command.
  set (closed := match current with Some _ => _ | None => _ end). intros Hp.
  assert (Hopen : closed = false /\ exists built, buildDirectSuccessfulFinalizationCommitRecord sessionId payload
    startedAtMs completedAtMs finalizationResult current = Ok built /\ record = built).
  { destruct (evaluateFinalizationTransition current succeed_command evaluatedAtMs); [.. | done];
      (destruct closed; [done |]); (destruct (buildDirectSuccessfulFinalizationCommitRecord _ _ _ _ _ _) as [built | e]; [| done]);
      injection Hp as <-; by split; [| exists built]. }
  destruct Hopen as (Hopen & built & Hb & ->). assert (Hfields := committed_fields _ _ Hb).
  split; [| by split; apply Hfields]. revert Hp. unfold evaluateFinalizationTransition at 1 2 3.
  destruct (negb (isNonNegativeSafeInteger evaluatedAtMs)); [done |].
  destruct (admitCommand succeed_command) as [a |] eqn:Ha; [| done].
  destruct (match current with Some r => negb (String.eqb (fr_sessionId r) _) | None => false end); [done |].
  destruct current as [r |]; cbn [fmap option_fmap option_map].
  - assert (Hprior := succeed_prior r a Hc Ha). destruct (evaluatePriorFinalizationState _ _ _) as [[| state | |] |] eqn:Eprior; try done.
    + destruct Hprior as (-> & Hid & Hsucc). intros _. right. by exists r.
    + unfold closed in Hopen. congruence.
    + destruct (ad_invalidSuccessfulResult a); [done |]. destruct (buildNextRecord (Some r) a) as [next |] eqn:En; [| done].
      destruct (next_is_committed _ _ _ _ Hc Ha En Hb) as (-> & Est & res & Hres). intros _. left. exists (ad_reason a), res.
      assert (Hd : haveSameNonterminalState (fr_state r) (ad_state a) = false).
      { destruct (succeed_admitted _ Ha) as (-> & _). by destruct (fr_state r). }
      rewrite Hd. cbn [andb]. by rewrite Est.
  - unfold evaluatePriorFinalizationState. change (is_cancel (cmd_kind succeed_command)) with false. cbn [andb].
    destruct (ad_invalidSuccessfulResult a); [done |]. destruct (buildNextRecord None a) as [next |] eqn:En; [| done].
    destruct (next_is_committed _ _ _ _ Hc Ha En Hb) as (-> & Est & res & Hres). intros _. left. exists (ad_reason a), res.
    by rewrite Est.
Qed.

End direct.

Section runs.
Context {St : Type} `{FinalizationCommandsLaws St}.

Ltac meantime := solve [eauto 6 using meanwhile_trans, meanwhile_refl].

(** ** Commands *)

(** The record of an answer was the session's at one moment. *)
Lemma run_answer_held command s record s' : command_answer held meanwhile command s record s' ->
  exists s1, held s1 (cmd_sessionId command) = Some record /\ meanwhile s1 s'.
Proof.
  intros [(s1 & s2 & t & state & reason & next & _ & _ & _ & Hh & _ & Hm) | s1 t _ Hh _ Hm | s1 s2 t state reason next _ _ _ _ Hh Hm
         | s1 _ Hh Hm]; eauto.
Qed.

Lemma lost_earlier command s0 s s' : meanwhile s0 s -> command_lost held meanwhile command s s' ->
  command_lost held meanwhile command s0 s'.
Proof.
  intros Hb [Hs | (record & s1 & s2 & t & state & reason & next & Hs & Hrest)]; [left; meantime | right].
  exists record, s1, s2, t, state, reason, next. split; [meantime | done].
Qed.

(** What is read back of a record that the policy wrote. *)
Lemma stored_fields next record : stored_form next = Some record -> state_ok (fr_state next) ->
  fr_state record = fr_state next /\ fr_sessionId record = fr_sessionId next /\
  fr_finalizationId record = fr_finalizationId next /\
  parseFinalizationScenarioContext (scenario_value (fr_scenarioContext next)) = Some (fr_scenarioContext record).
Proof.
  intros E Hs. unfold stored_form, admitFinalizationRecord, parseRecordWith in E. set (v := MockStore.memory_record next) in E.
  destruct (negb (isNonArrayObject v)); [done |]. unfold parseFinalizationRecordIdentity in E.
  change (prop v "sessionId") with (JStr (fr_sessionId next)) in E.
  change (prop v "finalizationId") with (JStr (fr_finalizationId next)) in E.
  change (prop v "state") with (state_value (fr_state next)) in E.
  change (prop v "scenarioContext") with (scenario_value (fr_scenarioContext next)) in E.
  rewrite (state_write _ Hs) in E. unfold parseSessionId, parseFinalizationId in E.
  destruct (isSafeVerifierSegment (fr_sessionId next)); [| done].
  destruct (isSafeVerifierSegment (fr_finalizationId next)); [| done].
  destruct (parseFinalizationScenarioContext _) as [c |]; [| done]. destruct (String.eqb _ _); [| done].
  destruct (is_succeeded (fr_state next)).
  - destruct (negb _); [done |]. destruct (admitFinalizationResultRecord _) as [r |]; [| done].
    destruct (String.eqb _ _); [| done]. by injection E as <-.
  - destruct (negb _); [done |]. by injection E as <-.
Qed.

(** A command that was applied asked for the state that is stored. *)
Lemma applied_stored cur command t state reason next record :
  evaluateFinalizationTransition cur command t = applied state reason next -> stored_form next = Some record ->
  exists a, admitCommand command = inl a /\ fr_sessionId next = cmd_sessionId command /\
    evaluatePriorFinalizationState (cmd_kind command) (ad_state a) (fr_state <$> cur) = None /\
    buildNextRecord cur a = Some next /\
    (error_current (ad_state a) -> fr_state record = ad_state a /\
     fr_finalizationId record = cmd_finalizationId command /\
     parseFinalizationScenarioContext (scenario_value (fr_scenarioContext next)) = Some (fr_scenarioContext record)).
Proof.
  intros Ev Hst. apply evaluate_applied in Ev as (a & Ha & -> & _ & Hp & _ & Hn). exists a.
  assert (Hadm := admit_spec _ _ Ha). destruct (built_record _ _ _ Hn) as (E1 & E2 & E3 & _).
  split; [done |]. split; [by rewrite E1, (as_session _ _ Hadm) |]. split; [done |]. split; [done |]. intros He.
  assert (Hok : state_ok (fr_state next)).
  { rewrite E3. apply ordered_state_ok; [| apply (as_order _ _ Hadm) | done].
    rewrite (as_state_id _ _ Hadm). apply (as_safe_id _ _ Hadm). }
  destruct (stored_fields _ _ Hst Hok) as (F1 & F2 & F3 & F4).
  split; [by rewrite F1 |]. split; [by rewrite F3, E2, (as_id _ _ Hadm) | done].
Qed.

(** ** Asynchronous finalization *)

Section async.
Context `{Noble} (deps : AsyncServices St) (services : AsyncServicesLaws deps).

Definition queue_command (input : FinalizeAsyncInput) : FinalizationTransitionCommand :=
  buildFinalizationCommand (fa_sessionId input) (queued_payload input) queue.

Definition async_failure (input : FinalizeAsyncInput) (code message : string) (failedAtMs : num) :
    FinalizationTransitionCommand :=
  buildFinalizationCommand (fa_sessionId input)
    (mkPayload (fa_finalizationId input) (fa_queuedAtMs input) JUndefined (Some code))
    (fail None failedAtMs (failure_value code message)).

(** After [sq] the failure of the attempt was written, or its command threw. *)
Definition failure_written (input : FinalizeAsyncInput) (sq s' : St) : Prop :=
  exists code message failedAtMs s1, meanwhile sq s1 /\
    ((exists record, command_answer held meanwhile (async_failure input code message failedAtMs) s1 record s') \/
     command_lost held meanwhile (async_failure input code message failedAtMs) s1 s').

(** The queue took the work item of the request. *)
Definition handed_over (input : FinalizeAsyncInput) (sq s' : St) : Prop :=
  exists commitment scenarios s1, computeInputCommitment (fa_zkvmInput input) = Ok commitment /\
    map_result toScenarioCode (fa_scenarios input) = Ok scenarios /\ meanwhile sq s1 /\
    sv_publish deps (work_item input commitment scenarios) s1 = (Ok tt, s').


Lemma failure_spec n input code message s r s' : store_ready (S n) s -> writeAsyncFailure input code message s = (r, s') ->
  r = Ok tt /\ store_ready n s' /\ failure_written input s s'.
Proof.
  intros Hs. unfold writeAsyncFailure, sm_catch, mbind, SM_bind. destruct (command_clock s) as [rc sc] eqn:Ec.
  destruct (command_clock_law _ _ _ _ Hs Ec) as [Hm Hf]. assert (Hsc := meanwhile_ready _ _ _ Hm Hs).
  destruct rc as [now | [msg |]]; [| | done].
  2: { intros [= <- <-]. split; [done |]. split; [by apply fewer_ready |]. exists code, message, (NInt 0), sc.
       split; [done |]. right. left. apply meanwhile_refl. }
  destruct (markFinalizationFailed _ _ _ _ _ sc) as [rf sf] eqn:Ef. destruct (command_law _ _ _ _ _ Hsc Ef) as [Hsf Ha].
  assert (Hw : forall answered, answered = ((exists record,
      command_answer held meanwhile (async_failure input code message now) sc record sf) \/
      command_lost held meanwhile (async_failure input code message now) sc sf) -> answered ->
    failure_written input s sf) by (intros answered -> Hans; by exists code, message, now, sc).
  destruct rf as [record | [msg |]]; [| | done]; intros [= <- <-]; (split; [done |]); (split; [done |]);
    (eapply Hw; [reflexivity |]); [left; by exists record | by right].
Qed.

Lemma failure_earlier input s0 s s' : meanwhile s0 s -> failure_written input s s' -> failure_written input s0 s'.
Proof.
  intros Hm (code & message & now & s1 & Hfirst & Hrest). exists code, message, now, s1. split; [meantime | done].
Qed.

Lemma persist_input_spec n input s r s' : store_ready (S n) s -> persistAsyncInput deps input s = (r, s') ->
  (r = Ok (Done tt) /\ meanwhile s s') \/
  (exists error, r = Ok (Failed error) /\ store_ready n s' /\ failure_written input s s').
Proof.
  intros Hs. unfold persistAsyncInput. destruct (sv_persistAsyncProverInput deps) as [persist |] eqn:Ep.
  2: { unfold mbind, SM_bind. destruct (writeAsyncFailure _ _ _ s) as [rw sw] eqn:Ew.
       destruct (failure_spec _ _ _ _ _ _ _ Hs Ew) as (-> & Hw). intros [= <- <-]. right. by eexists. }
  unfold sm_catch, mbind, SM_bind. destruct (persist _ _ _ _ s) as [rp sp] eqn:Epp.
  destruct (persist_law _ services _ _ _ _ _ _ _ _ _ Ep Hs Epp) as [Hm Hf].
  destruct rp as [[] | [msg |]]; [intros [= <- <-]; by left | | done].
  destruct (writeAsyncFailure _ _ _ sp) as [rw sw] eqn:Ew. assert (Hsp := meanwhile_ready _ _ _ Hm Hs).
  destruct (failure_spec _ _ _ _ _ _ _ Hsp Ew) as (-> & Hr & Hw). intros [= <- <-]. right. eexists. split; [done |].
  split; [done | by eapply failure_earlier].
Qed.

(** The first attempt that the queue accepts is the last. *)
Lemma publish_spec n message attempts : forall lastError s r s', store_ready n s ->
  publish_loop (sv_publish deps) message attempts lastError s = (r, s') ->
  meanwhile s s' /\ no_fuel_error r /\
  (r = Ok tt -> exists s1, meanwhile s s1 /\ sv_publish deps message s1 = (Ok tt, s')).
Proof.
  induction attempts as [| attempts IH]; intros lastError s r s' Hs; cbn [publish_loop].
  - intros [= <- <-]. split; [apply meanwhile_refl | done].
  - destruct (sv_publish deps message s) as [rp sp] eqn:Ep. destruct (publish_law _ services _ _ _ _ _ Hs Ep) as [Hm Hf].
    destruct rp as [[] | [msg |]]; [| | done].
    + intros [= <- <-]. split; [done |]. split; [done |]. intros _. exists s. split; [apply meanwhile_refl | done].
    + intros E. destruct (IH _ _ _ _ (meanwhile_ready _ _ _ Hm Hs) E) as (Hm' & Hf' & Hok).
      split; [meantime |]. split; [done |]. intros Er. destruct (Hok Er) as (s1 & Hfirst & E1). exists s1. split; [meantime | done].
Qed.

Definition dispatched (input : FinalizeAsyncInput) (state : FinalizationState) (s : St)
    (r : result (Finalized FinalizeAcceptedPayload)) (s' : St) : Prop :=
  match r with
  | Ok (Done accepted) => accepted = mkAccepted (fa_finalizationId input) state /\ handed_over input s s'
  | Ok (Failed _) => failure_written input s s'
  | Err (Throw message) => meanwhile s s' /\ (computeInputCommitment (fa_zkvmInput input) = Err (Throw message) \/
                                              map_result toScenarioCode (fa_scenarios input) = Err (Throw message))
  | Err OutOfFuel => False
  end.

Lemma hand_over_spec input state commitment scenarios s0 s r s' : store_ready 1 s -> meanwhile s0 s ->
  computeInputCommitment (fa_zkvmInput input) = Ok commitment ->
  map_result toScenarioCode (fa_scenarios input) = Ok scenarios ->
  sm_catch
    (_ ← publishFinalizeMessageWithRetry (sv_publish deps) (work_item input commitment scenarios) (fa_publishMaxAttempts input);
     mret (Done (mkAccepted (fa_finalizationId input) state)))
    (fun _ => _ ← writeAsyncFailure input "SQS_PUBLISH_FAILED" "Failed to enqueue finalization job";
              mret (internal "Failed to enqueue finalization job")) s = (r, s') ->
  store_ready 0 s' /\ dispatched input state s0 r s'.
Proof.
  intros Hs Hm0 Ec El. unfold sm_catch, mbind, SM_bind. destruct (publishFinalizeMessageWithRetry _ _ _ s) as [rp sp] eqn:Ep.
  destruct (publish_spec _ _ _ _ _ _ _ Hs Ep) as (Hm & Hf & Hok). assert (Hsp := meanwhile_ready _ _ _ Hm Hs).
  destruct rp as [[] | [msg |]]; [| | done].
  - intros [= <- <-]. split; [by apply fewer_ready |]. cbn [dispatched]. split; [done |].
    destruct (Hok eq_refl) as (s1 & Hfirst & E1). exists commitment, scenarios, s1. split_and!; [done | done | meantime | done].
  - destruct (writeAsyncFailure _ _ _ sp) as [rw sw] eqn:Ew. destruct (failure_spec _ _ _ _ _ _ _ Hsp Ew) as (-> & Hr & Hw).
    intros [= <- <-]. split; [done |]. cbn [dispatched]. eapply failure_earlier; [| exact Hw]. meantime.
Qed.

Lemma dispatch_spec input state s r s' : store_ready 1 s -> dispatch_pending deps input state s = (r, s') ->
  store_ready 0 s' /\ dispatched input state s r s'.
Proof.
  intros Hs. unfold dispatch_pending, mbind at 1, SM_bind at 1, sm_lift at 1.
  destruct (computeInputCommitment (fa_zkvmInput input)) as [commitment | [msg |]] eqn:Ec.
  2: { intros [= <- <-]. split; [by apply fewer_ready |]. cbn [dispatched]. split; [apply meanwhile_refl | by left]. }
  2: by apply commitment_returns in Ec.
  unfold mbind at 1, SM_bind at 1. set (persistence := match fa_inputSource input with from_inline => _ | from_s3 => _ end).
  destruct (persistence s) as [rp sp] eqn:Ep.
  assert (Hp : (rp = Ok (Done tt) /\ meanwhile s sp) \/
    (exists error, rp = Ok (Failed error) /\ store_ready 0 sp /\ failure_written input s sp)).
  { unfold persistence in Ep. destruct (fa_inputSource input); [| by eapply persist_input_spec].
    injection Ep as <- <-. left. split; [done | apply meanwhile_refl]. }
  destruct Hp as [[-> Hm] | (error & -> & Hr & Hw)]; [| by intros [= <- <-]].
  assert (Hsp := meanwhile_ready _ _ _ Hm Hs). unfold mbind at 1, SM_bind at 1, sm_lift at 1.
  destruct (map_result toScenarioCode (fa_scenarios input)) as [scenarios | [msg |]] eqn:El.
  - intros E. by eapply hand_over_spec.
  - intros [= <- <-]. split; [by apply fewer_ready |]. cbn [dispatched]. split; [done | by right].
  - by apply (map_result_returns _ _ scenario_code_returns) in El.
Qed.

(** ** The record of a queued attempt *)

(** The queue time and the scenario are those of the request. *)
Definition as_requested (input : FinalizeAsyncInput) (record : FinalizationRecord) : Prop :=
  fr_state record = pending (fa_finalizationId input) (fa_queuedAtMs input) /\
  parseFinalizationScenarioContext (scenario_value (fa_scenarioContext input)) = Some (fr_scenarioContext record).

Lemma queue_admitted input a : admitCommand (queue_command input) = inl a ->
  ad_state a = pending (fa_finalizationId input) (fa_queuedAtMs input) /\ ad_invalidSuccessfulResult a = false /\
  ad_scenarioContext a = parseFinalizationScenarioContext (scenario_value (fa_scenarioContext input)) /\
  is_some (ad_scenarioContext a) = true /\ exists q, fa_queuedAtMs input = NInt q.
Proof.
  unfold admitCommand. destruct (hasValidBase (queue_command input)) eqn:Eb; [done |].
  apply base_valid in Eb as (_ & Hid & Hq). cbn in Hid, Hq. rewrite option_segment by exact Hid.
  change (cmd_kind (queue_command input)) with queue. cbv iota beta.
  change (admitScenarioContext _) with (parseFinalizationScenarioContext (scenario_value (fa_scenarioContext input))).
  unfold hasRequiredScenarioContext. change (cmd_kind (queue_command input)) with queue.
  rewrite andb_false_r, orb_false_r. destruct (parseFinalizationScenarioContext _) as [c |]; [| done].
  cbn [is_some negb]. intros [= <-]. split_and!; try done. apply safe_moment in Hq as (q & Eq & _). by exists q.
Qed.

Lemma queue_stored input cur t state reason next record :
  evaluateFinalizationTransition cur (queue_command input) t = applied state reason next ->
  stored_form next = Some record -> as_requested input record.
Proof.
  intros Ev Hst. destruct (applied_stored _ _ _ _ _ _ _ Ev Hst) as (a & Ha & _ & _ & Hn & Hf).
  destruct (queue_admitted _ _ Ha) as (Es & _ & Ec & Hc & _). rewrite Es in Hf. destruct (Hf I) as (Hs & _ & Hctx).
  split; [done |]. rewrite <- Ec. destruct (ad_scenarioContext a) as [c |] eqn:Eac; [| done]. f_equal.
  apply built_record in Hn as (_ & _ & _ & [Hx | [Hx _]] & _); [| congruence]. rewrite Eac in Hx. injection Hx as Hx. rewrite <- Hx in Hctx.
  rewrite (as_context _ _ (admit_spec _ _ Ha) _ Eac) in Hctx. by injection Hctx.
Qed.

Lemma queue_kept input record t :
  (match evaluateFinalizationTransition (Some record) (queue_command input) t with
   | idempotent _ | rejected _ _ => True | _ => False end) ->
  is_pending_of (fa_finalizationId input) (fr_state record) = true -> as_requested input record.
Proof.
  unfold evaluateFinalizationTransition. destruct (negb (isNonNegativeSafeInteger t)); [done |].
  destruct (admitCommand (queue_command input)) as [a |] eqn:Ha; [| done].
  destruct (queue_admitted _ _ Ha) as (Es & Ei & Ec & Hc & q & Eq). destruct (negb (String.eqb _ _)); [done |].
  destruct (fr_state record) as [i q' | | | |] eqn:Er; try done. cbn [is_pending_of fmap option_fmap option_map].
  intros Hev Hid. rewrite Er, Es in Hev. apply String.eqb_eq in Hid as ->. revert Hev.
  unfold evaluatePriorFinalizationState. change (cmd_kind (queue_command input)) with queue.
  cbn [is_cancel negb andb state_id isTerminalState]. rewrite String.eqb_refl. cbn [negb andb]. rewrite Ei.
  unfold buildNextRecord. rewrite Es. cbn [is_succeeded negb].
  destruct (ad_scenarioContext a) as [c |] eqn:Eac; [| done]. cbn [haveSameNonterminalState fr_scenarioContext].
  rewrite String.eqb_refl. cbn [andb]. destruct (num_eqb q' (fa_queuedAtMs input)) eqn:En; [| done].
  unfold haveSameScenarioContext. destruct (decide (fr_scenarioContext record = c)) as [Hsame |].
  - intros _. split; [| by rewrite <- Ec, Hsame]. rewrite Eq in En |- *. apply num_eqb_int_r in En as ->. by rewrite Er.
  - by rewrite bool_decide_eq_false_2.
Qed.

(** A queued attempt holds what its request asked for, unless another invocation
    won every race. *)
Lemma queued_as_requested input s record s' :
  command_answer held meanwhile (queue_command input) s record s' ->
  is_pending_of (fa_finalizationId input) (fr_state record) = true ->
  as_requested input record \/
  (exists s1, meanwhile s s1 /\ held s1 (fa_sessionId input) = Some record /\ meanwhile s1 s').
Proof.
  intros [(s1 & s2 & t & state & reason & next & _ & Ev & Hst & _) | s1 t _ _ Hev _
         | s1 s2 t state reason next _ Ev Hst _ _ _ | s1 Ha Hb Hc] Hp.
  - left. by eapply queue_stored.
  - left. by eapply queue_kept.
  - left. by eapply queue_stored.
  - right. by exists s1.
Qed.

(** C29: An accepted request is a recorded one. When [finalizeAsync] accepts, the
    session had the answer's state as its current one at a moment of the call.
    Either that is this attempt, pending, and then the queue took its work item,
    with the commitment computed from its input, the record keeps the queue time
    and the scenario of the request (or another invocation won every race);
    or another state owns the session and nothing was sent. A refusal
    follows a command that threw or an attempt whose failure was written (or whose
    failure command threw). An exception reports an input without a commitment or
    an unknown scenario, after the attempt was recorded. *)
Theorem accepted_request_recorded input s r s' : store_ready 2 s -> finalizeAsync deps input s = (r, s') ->
  store_ready 0 s' /\
  match r with
  | Ok (Done accepted) => exists record sq, command_answer held meanwhile (queue_command input) s record sq /\
      ac_state accepted = fr_state record /\ ac_finalizationId accepted = state_id (fr_state record) /\
      (if is_pending_of (fa_finalizationId input) (fr_state record)
       then handed_over input sq s' /\
            (as_requested input record \/
             exists s1, meanwhile s s1 /\ held s1 (fa_sessionId input) = Some record /\ meanwhile s1 sq)
       else s' = sq)
  | Ok (Failed _) => command_lost held meanwhile (queue_command input) s s' \/
      exists record sq, command_answer held meanwhile (queue_command input) s record sq /\
        is_pending_of (fa_finalizationId input) (fr_state record) = true /\ failure_written input sq s'
  | Err (Throw message) => exists record sq, command_answer held meanwhile (queue_command input) s record sq /\
      is_pending_of (fa_finalizationId input) (fr_state record) = true /\ meanwhile sq s' /\
      (computeInputCommitment (fa_zkvmInput input) = Err (Throw message) \/
       map_result toScenarioCode (fa_scenarios input) = Err (Throw message))
  | Err OutOfFuel => False
  end.
Proof.
  intros Hs. unfold finalizeAsync, mbind at 1, SM_bind at 1, sm_catch at 1, mbind at 1, SM_bind at 1.
  destruct (markFinalizationQueued _ _ s) as [rq sq] eqn:Eq. destruct (command_law _ _ _ _ _ Hs Eq) as [Hsq Ha].
  destruct rq as [record | [msg |]]; [| | done].
  2: { intros [= <- <-]. split; [by apply fewer_ready | by left]. }
  unfold mret at 1, SM_ret at 1.
  destruct (is_pending_of (fa_finalizationId input) (fr_state record)) eqn:Ep; cbn [negb].
  2: { intros [= <- <-]. split; [by apply fewer_ready |]. exists record, sq. split; [exact Ha |]. by rewrite Ep. }
  intros E. destruct (dispatch_spec _ _ _ _ _ Hsq E) as [Hs' Hd]. split; [done |].
  destruct r as [[accepted | error] | [msg |]]; cbn [dispatched] in Hd.
  - destruct Hd as [-> Hh]. exists record, sq. split; [exact Ha |]. rewrite Ep. split; [done |]. split.
    + destruct (fr_state record); try done. by apply String.eqb_eq in Ep as <-.
    + split; [done | by apply queued_as_requested].
  - right. by exists record, sq.
  - exists record, sq. destruct Hd as [Hm Hx]. done.
  - done.
Qed.

End async.

(** ** Reconciliation *)

Section reconcile.
Context (observeExecution : string -> string -> SM St FinalizationExecutionObservation).
Hypothesis observe_law : forall n sid fid s r s', store_ready n s -> observeExecution sid fid s = (r, s') ->
  meanwhile s s' /\ no_fuel_error r.

(** What a reconciliation asks for, and the state it would record. *)
Definition outcome_kind (input : ReconciliationInput) (state : FinalizationState)
    (execution : FinalizationExecutionObservation) : CommandKind * string :=
  match execution, state with
  | exec_stopped exec_timed_out stoppedAtMs, running _ _ startedAtMs =>
      (time_out (Some startedAtMs) stoppedAtMs, "EXECUTION_TIMED_OUT"%string)
  | _, _ =>
      (fail (started_of state) (match execution with exec_stopped _ stoppedAtMs => stoppedAtMs | _ => re_nowMs input end)
         (reconciled_error state execution), resolveReconciliationFailureReason state execution)
  end.

Definition outcome_state (input : ReconciliationInput) (state : FinalizationState)
    (execution : FinalizationExecutionObservation) : FinalizationState :=
  match execution, state with
  | exec_stopped exec_timed_out stoppedAtMs, running _ queuedAtMs startedAtMs =>
      timeout (re_finalizationId input) queuedAtMs (Some startedAtMs) stoppedAtMs
  | _, _ =>
      failed (re_finalizationId input) (state_queued state) (started_of state)
        (match execution with exec_stopped _ stoppedAtMs => stoppedAtMs | _ => re_nowMs input end)
        (reconciled_error state execution)
  end.

Definition outcome_command (input : ReconciliationInput) (state : FinalizationState)
    (execution : FinalizationExecutionObservation) : FinalizationTransitionCommand :=
  let asked := outcome_kind input state execution in
  mkCommand asked.1 (re_sessionId input) (re_finalizationId input) (state_queued state) JUndefined (Some asked.2).

Lemma outcome_asked input state execution :
  writeReconciledOutcome input state execution = applyFinalizationCommand (outcome_command input state execution).
Proof. destruct execution as [| | [] at_], state; reflexivity. Qed.

Lemma outcome_admitted input state execution a : admitCommand (outcome_command input state execution) = inl a ->
  ad_state a = outcome_state input state execution /\ ad_scenarioContext a = None /\
  error_current (ad_state a) /\ is_active (ad_state a) = false /\ is_succeeded (ad_state a) = false.
Proof.
  unfold admitCommand. destruct (hasValidBase (outcome_command input state execution)) eqn:Eb; [done |].
  apply base_valid in Eb as (_ & Hid & _). cbn in Hid. rewrite option_segment by exact Hid.
  destruct (match cmd_kind _ with fail _ _ _ => _ | _ => _ end); [done |].
  change (admitScenarioContext _) with (@None FinalizationScenarioContext). destruct (negb _); [done |].
  destruct (admitCommandState _ _) as [[[st successful] inv] |] eqn:Es; [| done]. intros [= <-]. cbn.
  unfold admitCommandState in Es.
  destruct execution as [| | [] at_], state; cbn -[hasValidOptionalStartedAt hasValidTerminalAt] in Es;
    (destruct (_ || _) in Es; [done |]); injection Es as <- _ _; done.
Qed.

(** The attempt that was read is unfinished, queued a minute ago, and its execution
    is over for a minute, or has not started before its deadline. *)
Record due (input : ReconciliationInput) (observed : FinalizationRecord)
    (execution : FinalizationExecutionObservation) : Prop := {
  due_attempt : fr_finalizationId observed = re_finalizationId input;
  due_active : is_active (fr_state observed) = true;
  due_age : num_ltb (num_sub (re_nowMs input) (state_queued (fr_state observed))) (NInt 60000) = false;
  due_execution : match execution with
                  | exec_running => False
                  | exec_missing => fr_state observed = pending (state_id (fr_state observed)) (state_queued (fr_state observed)) /\
                      num_leb (num_sub (re_nowMs input) (state_queued (fr_state observed))) (re_dispatchDeadlineMs input) = false
                  | exec_stopped _ stoppedAtMs => num_ltb (num_sub (re_nowMs input) stoppedAtMs) (NInt 60000) = false
                  end;
}.

Lemma should_be_due input observed execution :
  fr_finalizationId observed = re_finalizationId input -> is_active (fr_state observed) = true ->
  num_ltb (num_sub (re_nowMs input) (state_queued (fr_state observed))) (NInt 60000) = false ->
  shouldReconcileExecution (fr_state observed) execution (re_nowMs input) (re_dispatchDeadlineMs input) = true ->
  due input observed execution.
Proof.
  intros Hid Ha Hage Hs. split; [done .. |]. unfold shouldReconcileExecution in Hs. destruct execution; [| done |].
  - destruct (is_pending (fr_state observed)) eqn:Ep; [| done]. cbn [negb orb] in Hs.
    destruct (num_leb _ _); [done |]. split; [by destruct (fr_state observed) | done].
  - destruct (num_ltb (num_sub (re_nowMs input) stoppedAtMs) _); [discriminate Hs | reflexivity].
Qed.

(** The attempt a reconciliation read, and what the service then answered about the
    execution of this session and attempt. *)
Definition observed_as (input : ReconciliationInput) (s : St) (observed : FinalizationRecord)
    (execution : FinalizationExecutionObservation) (sb : St) : Prop :=
  exists s1 sa, meanwhile s s1 /\ held s1 (re_sessionId input) = Some observed /\ meanwhile s1 sa /\
    observeExecution (re_sessionId input) (re_finalizationId input) sa = (Ok execution, sb).

(** The only write of a reconciliation. *)
Definition reconciled (input : ReconciliationInput) (s s' : St) : Prop :=
  exists observed execution before record sb s2 s3,
    observed_as input s observed execution sb /\ due input observed execution /\
    meanwhile sb s2 /\ held s2 (re_sessionId input) = Some before /\
    is_active (fr_state before) = true /\ state_id (fr_state before) = re_finalizationId input /\
    held s3 (re_sessionId input) = Some record /\ fr_finalizationId record = re_finalizationId input /\
    fr_state record = outcome_state input (fr_state observed) execution /\
    (forall other, other <> re_sessionId input -> held s3 other = held s2 other) /\ meanwhile s3 s'.

(** Why a reconciliation ended without an error: nothing was to be done for the attempt
    or for its execution, the outcome was recorded or answered by what is there, or the
    command failed and the attempt is no longer the unfinished one. *)
Inductive reconciliation_done (input : ReconciliationInput) (s s' : St) : Prop :=
| done_not_asked current :
    getCurrentFinalizationRecord (re_sessionId input) s = (Ok current, s') ->
    (forall observed, isCurrentUnfinishedFinalization current (re_finalizationId input) = Some observed ->
       num_ltb (num_sub (re_nowMs input) (state_queued (fr_state observed))) (NInt 60000) = true) ->
    reconciliation_done input s s'
| done_not_over observed execution : observed_as input s observed execution s' ->
    shouldReconcileExecution (fr_state observed) execution (re_nowMs input) (re_dispatchDeadlineMs input) = false ->
    reconciliation_done input s s'
| done_recorded observed execution sb record : observed_as input s observed execution sb -> due input observed execution ->
    command_answer held meanwhile (outcome_command input (fr_state observed) execution) sb record s' ->
    reconciliation_done input s s'
| done_superseded observed execution sb sc latest : observed_as input s observed execution sb -> due input observed execution ->
    command_lost held meanwhile (outcome_command input (fr_state observed) execution) sb sc ->
    getCurrentFinalizationRecord (re_sessionId input) sc = (Ok latest, s') ->
    isCurrentUnfinishedFinalization latest (re_finalizationId input) = None -> reconciliation_done input s s'.

Lemma unfinished_spec r fid found : isCurrentUnfinishedFinalization r fid = Some found ->
  r = Some found /\ fr_finalizationId found = fid /\ is_active (fr_state found) = true.
Proof.
  unfold isCurrentUnfinishedFinalization. destruct r as [r |]; [| done].
  destruct (String.eqb_spec (fr_finalizationId r) fid); [| done]. cbn. destruct (is_active (fr_state r)) eqn:E; [| done].
  by intros [= <-].
Qed.

Lemma installed_reconciled input observed execution s0 sb record s' : observed_as input s0 observed execution sb ->
  due input observed execution ->
  command_installed held meanwhile (outcome_command input (fr_state observed) execution) sb record s' ->
  reconciled input s0 s'.
Proof.
  intros Hobs Hdue (sc & sd & t & state & reason & next & Hma & Ev & Hst & Hb & Hothers & Hmb).
  change (cmd_sessionId (outcome_command input (fr_state observed) execution)) with (re_sessionId input) in *.
  destruct (applied_stored _ _ _ _ _ _ _ Ev Hst) as (a & Ha & _ & Hp & Hn & Hf).
  destruct (outcome_admitted _ _ _ _ Ha) as (Es & Ec & He & _ & _). destruct (Hf He) as (Hstate & Hid & _).
  destruct (held sc (re_sessionId input)) as [before |] eqn:Ebefore.
  2: { exfalso. revert Hn. unfold buildNextRecord. by rewrite Ec. }
  cbn [fmap option_fmap option_map] in Hp. apply prior_none in Hp as [Hpid Hterm].
  exists observed, execution, before, record, sb, sc, sd. split_and!; try done.
  - by destruct (fr_state before).
  - rewrite Hpid. rewrite (as_state_id _ _ (admit_spec _ _ Ha)), (as_id _ _ (admit_spec _ _ Ha)). done.
  - by rewrite Hstate.
Qed.

Lemma answer_reconciled input observed execution s0 sb record s' : observed_as input s0 observed execution sb ->
  meanwhile s0 sb -> due input observed execution ->
  command_answer held meanwhile (outcome_command input (fr_state observed) execution) sb record s' ->
  meanwhile s0 s' \/ reconciled input s0 s'.
Proof.
  intros Hobs Hm Hdue [Hi | sa t Ha _ _ Hb | sa sc t state reason next Ha _ _ Hb _ Hc | sa Ha _ Hb].
  - right. by eapply installed_reconciled.
  - left. meantime.
  - left. assert (meanwhile s0 sc) by meantime. meantime.
  - left. meantime.
Qed.

Lemma reconciled_later input s s1 s' : reconciled input s s1 -> meanwhile s1 s' -> reconciled input s s'.
Proof.
  intros (observed & execution & before & record & sa & sb & sc & Hr) Hm.
  exists observed, execution, before, record, sa, sb, sc. destruct_and? Hr. split_and!; try done. meantime.
Qed.

(** C30: Reconciliation never guesses. It writes at most once, only to the record of the
    session, when that is the unfinished attempt it was asked about: read at
    least a minute after its queueing, when the service of the executions then
    answered for this session and attempt that the execution has been over for a
    minute or, of a pending attempt, that it is missing after the deadline. What
    it writes is the outcome of that very answer, a failure or a timeout of that attempt
    with the times that were read, never a success; a writer that was first is not
    overwritten, and no other session changes. And it is not idle: without an error it
    ends only when nothing was due, when the command that records the outcome was
    answered, or when the attempt is no longer the unfinished one. *)
Theorem reconciliation_conservative input s r s' : store_ready 1 s ->
  reconcileFinalization observeExecution input s = (r, s') ->
  store_ready 0 s' /\ no_fuel_error r /\ (meanwhile s s' \/ reconciled input s s') /\
  (r = Ok tt -> reconciliation_done input s s').
Proof.
  intros Hs. unfold reconcileFinalization, mbind at 1, SM_bind at 1.
  destruct (getCurrentFinalizationRecord (re_sessionId input) s) as [ra sa] eqn:Ea.
  destruct (current_law _ _ _ _ _ Hs Ea) as (Hfa & s1 & Hm1 & Hm1' & Hheld).
  assert (Hsa : store_ready 1 sa) by (eapply meanwhile_ready; [| exact Hs]; meantime).
  assert (Hma : meanwhile s sa) by meantime.
  assert (Hquiet : forall r0, no_fuel_error r0 -> (r0 = Ok tt -> reconciliation_done input s sa) -> (r0, sa) = (r, s') ->
    store_ready 0 s' /\ no_fuel_error r /\ (meanwhile s s' \/ reconciled input s s') /\
    (r = Ok tt -> reconciliation_done input s s')).
  { intros r0 Hr0 Hd [= <- <-]. split; [by apply fewer_ready |]. split; [done |]. split; [by left | done]. }
  destruct ra as [current | e]; [| apply (Hquiet (Err e)); [intros [= ->]; by apply Hfa | done]].
  destruct (isCurrentUnfinishedFinalization current _) as [observed |] eqn:Eu.
  2: { apply (Hquiet (Ok tt)); [done |]. intros _. eapply done_not_asked; [exact Ea |]. intros observed. by rewrite Eu. }
  assert (Eu' := Eu). apply unfinished_spec in Eu as (-> & Hid & Hactive). specialize (Hheld observed eq_refl). cbv zeta.
  destruct (num_ltb _ (NInt 60000)) eqn:Eage.
  { apply (Hquiet (Ok tt)); [done |]. intros _. eapply done_not_asked; [exact Ea |]. intros x. rewrite Eu'. by intros [= <-]. }
  clear Hquiet. unfold mbind at 1, SM_bind at 1. destruct (observeExecution _ _ sa) as [rb sb] eqn:Eb.
  destruct (observe_law _ _ _ _ _ _ Hsa Eb) as [Hmb Hfb]. assert (Hsb := meanwhile_ready _ _ _ Hmb Hsa).
  assert (Hmsb : meanwhile s sb) by meantime.
  destruct rb as [execution | e].
  2: { intros [= <- <-]. split; [by apply fewer_ready |]. split; [intros [= ->]; by apply Hfb |]. by split; [left |]. }
  assert (Hobs : observed_as input s observed execution sb) by (exists s1, sa; by split_and!).
  destruct (shouldReconcileExecution _ execution _ _) eqn:Es; cbn [negb].
  2: { intros [= <- <-]. split; [by apply fewer_ready |]. split; [done |]. split; [by left |]. intros _. by eapply done_not_over. }
  assert (Hdue : due input observed execution) by (by apply should_be_due).
  unfold sm_catch, mbind at 1, SM_bind at 1. rewrite outcome_asked.
  destruct (applyFinalizationCommand _ sb) as [rc sc] eqn:Ec. destruct (command_law _ _ _ _ _ Hsb Ec) as [Hsc Hc].
  destruct rc as [record | [msg |]]; [| | done].
  { intros [= <- <-]. split; [done |]. split; [done |]. split; [by eapply answer_reconciled |]. intros _. by eapply done_recorded. }
  assert (Hlost : meanwhile s sc \/ reconciled input s sc).
  { destruct Hc as [Hc | [record Hc]]; [left; meantime | right; by eapply installed_reconciled]. }
  unfold mbind, SM_bind. destruct (getCurrentFinalizationRecord _ sc) as [rd sd] eqn:Ed.
  destruct (current_law _ _ _ _ _ Hsc Ed) as (Hfd & s2 & Hm2 & Hm2' & _).
  assert (Hmd : meanwhile sc sd) by meantime.
  assert (Hend : meanwhile s sd \/ reconciled input s sd)
    by (destruct Hlost; [left; meantime | right; by eapply reconciled_later]).
  assert (Hsd := meanwhile_ready _ _ _ Hmd Hsc).
  destruct rd as [latest | e].
  - destruct (isCurrentUnfinishedFinalization latest _) eqn:El; intros [= <- <-]; (split; [done |]); (split; [done |]); (split; [done |]);
      [done |]. intros _. by eapply done_superseded.
  - intros [= <- <-]. split; [done |]. split; [intros [= ->]; by apply Hfd | done].
Qed.

End reconcile.

(** ** Updates of the prover *)

Section unproved.
Context `{SuccessfulFinalizationStore St} `{Noble}.

Definition invalid_result_command (payload : FinalizationStateUpdatePayload) (startedAtMs completedAtMs : num) :
    FinalizationTransitionCommand :=
  buildFinalizationCommand (up_sessionId payload) (update_payload payload "FINALIZATION_RESULT_INVALID")
    (fail (Some startedAtMs) completedAtMs invalid_result_error).

Lemma invalid_result_stored payload startedAtMs completedAtMs s record s' :
  command_installed held meanwhile (invalid_result_command payload startedAtMs completedAtMs) s record s' ->
  fr_state record = failed (up_finalizationId payload) (up_queuedAtMs payload) (Some startedAtMs) completedAtMs
                      invalid_result_error.
Proof.
  intros (s1 & s2 & t & state & reason & next & _ & Ev & Hst & _).
  destruct (applied_stored _ _ _ _ _ _ _ Ev Hst) as (a & Ha & _ & _ & _ & Hf). revert Ha. unfold admitCommand.
  destruct (hasValidBase _) eqn:Eb; [done |]. apply base_valid in Eb as (_ & Hid & _). cbn in Hid.
  rewrite option_segment by exact Hid.
  change (cmd_kind (invalid_result_command payload startedAtMs completedAtMs)) with
    (fail (Some startedAtMs) completedAtMs invalid_result_error). cbv iota beta.
  destruct (negb (hasValidFailureError _)); [done |]. destruct (negb (hasRequiredScenarioContext _ _)); [done |].
  unfold admitCommandState. change (cmd_kind (invalid_result_command payload startedAtMs completedAtMs)) with
    (fail (Some startedAtMs) completedAtMs invalid_result_error). cbv iota beta.
  destruct (_ || _); [done |]. intros [= <-]. by apply Hf.
Qed.

(** A success without proof is recorded as a failure. When the result that comes
    with a success cannot be rehydrated from a supported journal, the update writes
    nothing, or writes the failure FINALIZATION_RESULT_INVALID with the times of
    the update; it never writes a success. The state it returns was the session's
    at a moment of the call. *)
Theorem unproved_success_is_failure payload startedAtMs completedAtMs value s r s' : store_ready 1 s ->
  up_update payload = SUCCEEDED startedAtMs completedAtMs value ->
  (forall context, hydrateFinalizationResultFromJournal value context = Ok None) ->
  applyFinalizationStateUpdatePayload payload s = (r, s') ->
  store_ready 0 s' /\ no_fuel_error r /\
  (meanwhile s s' \/ exists record,
     command_installed held meanwhile (invalid_result_command payload startedAtMs completedAtMs) s record s' /\
     fr_state record = failed (up_finalizationId payload) (up_queuedAtMs payload) (Some startedAtMs) completedAtMs
                         invalid_result_error) /\
  (forall sid state, r = Ok (sid, state) -> sid = up_sessionId payload /\
     exists s1 record, held s1 sid = Some record /\ fr_state record = state /\ meanwhile s1 s').
Proof.
  intros Hs Hu Hv. unfold applyFinalizationStateUpdatePayload. rewrite Hu. unfold applySucceededFinalizationUpdate.
  unfold mbind, SM_bind. destruct (getFinalizationRecord _ _ s) as [rg sg] eqn:Eg.
  destruct (record_law _ _ _ _ _ _ Hs Eg) as [Hm Hf]. assert (Hsg := meanwhile_ready _ _ _ Hm Hs).
  assert (Hquiet : forall e, e <> OutOfFuel -> (Err e, sg) = (r, s') -> store_ready 0 s' /\ no_fuel_error r /\
    (meanwhile s s' \/ exists record,
       command_installed held meanwhile (invalid_result_command payload startedAtMs completedAtMs) s record s' /\
       fr_state record = failed (up_finalizationId payload) (up_queuedAtMs payload) (Some startedAtMs) completedAtMs
                           invalid_result_error) /\
    (forall sid state, r = Ok (sid, state) -> sid = up_sessionId payload /\
       exists s1 record, held s1 sid = Some record /\ fr_state record = state /\ meanwhile s1 s')).
  { intros e He [= <- <-]. split; [by apply fewer_ready |]. split; [congruence |]. split; [by left | done]. }
  destruct rg as [[cur |] | e]; [| by apply Hquiet | apply Hquiet; congruence].
  destruct (negb (String.eqb (fr_finalizationId cur) _)); [by apply Hquiet |]. clear Hquiet.
  rewrite Hv. unfold sm_lift. destruct (markFinalizationFailed _ _ _ _ _ sg) as [rf sf] eqn:Ef.
  destruct (command_law _ _ _ _ _ Hsg Ef) as [Hsf Ha].
  assert (Hbefore : forall record, command_installed held meanwhile (invalid_result_command payload startedAtMs completedAtMs) sg record sf ->
    command_installed held meanwhile (invalid_result_command payload startedAtMs completedAtMs) s record sf).
  { intros record (s1 & s2 & t & state & reason & next & Hx & Hrest). exists s1, s2, t, state, reason, next.
    split; [meantime | done]. }
  destruct rf as [record | [msg |]]; [| | done]; intros [= <- <-]; (split; [done |]); (split; [done |]); split.
  - destruct Ha as [Hi | s1 t Hx _ _ Hy | s1 s2 t state reason next Hx _ _ Hy _ Hz | s1 Hx _ Hy]; [right | left; meantime | left | left; meantime].
    + apply Hbefore in Hi. exists record. split; [done | by eapply invalid_result_stored].
    + assert (meanwhile s s1) by meantime. assert (meanwhile s s2) by meantime. meantime.
  - intros sid state [= <- <-]. split; [done |]. destruct (run_answer_held _ _ _ _ Ha) as (s1 & Hh & Hm1). by exists s1, record.
  - destruct Ha as [Ha | [record Hi]]; [left; meantime | right]. apply Hbefore in Hi. exists record.
    split; [done | by eapply invalid_result_stored].
  - done.
Qed.

End unproved.
End runs.
