(* ===== verification/DynamoRecords.v ===== *)
(** Items of the DynamoDB tables (packages/aws-adapters/src/store:
    dynamo-records.ts, root-snapshot-admission.ts): their keys, the revision of a
    lifecycle and the exact admission of what a read returns. [now] is
    [Date.now()]; an item past its time to live may still be in the table.

    [DeepEqual]: deep equality of finalization records ([isDeepStrictEqual] of
    node:util), with which the store compares records. A codec has built them, so
    their properties are present or absent, never present and undefined, and equal
    values are equal records. *)
From S2P Require Import Prelude.
From S2P Require Import Hex.
From S2P Require Import JsNumber.
From S2P Require Import JsValue.
From S2P Require Import Contract.
From S2P Require Import Evidence.
From S2P Require Import Journal.
From S2P Require Import PublicInput.
From S2P Require Import Bulletin.
From S2P Require Import CtSession.
From S2P Require Import FinStorage.
From S2P Require Import FinTransition.
From S2P Require Import SessionVote.
From S2P Require Import MockStore.
Import JsValue.
Import Bulletin.
Import CtSession.
Import FinStorage.
Import FinTransition.
Import SessionVote.
Import MockStore.

Module DeepEqual.
Import Evidence.

Definition pair_eq_dec {A} (dec : forall x y : A, {x = y} + {x <> y}) (p q : string * A) : {p = q} + {p <> q} :=
  match p, q with
  | (k, v), (k', v') =>
      match decide (k = k'), dec v v' with
      | left Hk, left Hv => left (f_equal2 pair Hk Hv)
      | right Hk, _ => right (fun E : (k, v) = (k', v') => Hk (f_equal fst E))
      | _, right Hv => right (fun E : (k, v) = (k', v') => Hv (f_equal snd E))
      end
  end.

#[export] Instance jsval_eq_dec : EqDecision jsval.
Proof.
  unfold EqDecision, Decision. fix go 1. intros x y.
  destruct x as [| | b | n | s | items | data | properties], y as [| | b' | n' | s' | items' | data' | properties'];
    try (right; discriminate); try (left; reflexivity).
  - destruct (decide (b = b')) as [-> | Hb]; [by left | right; congruence].
  - destruct (decide (n = n')) as [-> | Hn]; [by left | right; congruence].
  - destruct (decide (s = s')) as [-> | Hs]; [by left | right; congruence].
  - destruct (@list_eq_dec _ go items items') as [-> | Hi]; [by left | right; congruence].
  - destruct (decide (data = data')) as [-> | Hd]; [by left | right; congruence].
  - destruct (@list_eq_dec _ (pair_eq_dec go) properties properties') as [-> | Hp]; [by left | right; congruence].
Defined.

#[export] Instance ReceiptJournal_eq_dec : EqDecision ReceiptJournal.
Proof. solve_decision. Defined.
#[export] Instance ReceiptWithImageId_eq_dec : EqDecision ReceiptWithImageId.
Proof. solve_decision. Defined.
#[export] Instance FinalizationTally_eq_dec : EqDecision FinalizationTally.
Proof. solve_decision. Defined.
#[export] Instance FinalizationReceiptPublication_eq_dec : EqDecision FinalizationReceiptPublication.
Proof. solve_decision. Defined.
#[export] Instance FinalizationBitmapData_eq_dec : EqDecision FinalizationBitmapData.
Proof. solve_decision. Defined.
#[export] Instance FinalizationTamperSummary_eq_dec : EqDecision FinalizationTamperSummary.
Proof. solve_decision. Defined.
#[export] Instance FinalizationState_eq_dec : EqDecision FinalizationState.
Proof. solve_decision. Defined.
#[export] Instance InputCommitmentVote_eq_dec : EqDecision Contract.InputCommitmentVote.
Proof. solve_decision. Defined.
#[export] Instance PublicInputAuthority_eq_dec : EqDecision Evidence.PublicInputAuthority.
Proof. solve_decision. Defined.
#[export] Instance PublicInputArtifactSource_eq_dec : EqDecision PublicInput.PublicInputArtifactSource.
Proof. solve_decision. Defined.
#[export] Instance SupportedPublicInputArtifact_eq_dec : EqDecision PublicInput.SupportedPublicInputArtifact.
Proof. solve_decision. Defined.
#[export] Instance PublicAuditArtifacts_eq_dec : EqDecision PublicAuditArtifacts.
Proof. solve_decision. Defined.
#[export] Instance BitmapProofSource_eq_dec : EqDecision BitmapProofSource.
Proof. solve_decision. Defined.
#[export] Instance FinalizationArtifactAvailability_eq_dec : EqDecision FinalizationArtifactAvailability.
Proof. solve_decision. Defined.
#[export] Instance ZkVMJournal_eq_dec : EqDecision ZkVMJournal.
Proof. solve_decision. Defined.
#[export] Instance FinalizationResultAuthority_eq_dec : EqDecision FinalizationResultAuthority.
Proof. solve_decision. Defined.
#[export] Instance FinalizationResultRecord_eq_dec : EqDecision FinalizationResultRecord.
Proof. solve_decision. Defined.
#[export] Instance FinalizationRecord_eq_dec : EqDecision FinalizationRecord.
Proof. solve_decision. Defined.

Definition isDeepStrictEqual (left right : option FinalizationRecord) : bool := bool_decide (left = right).

End DeepEqual.

Module DynamoRecords.

(** ** Items *)

Record IdentityItem := mkIdentityItem {
  ii_identity : SessionIdentityRecord;
  ii_expiresAt : Z;
}.

Record PersistedVotingRecord := mkPersistedVoting {
  pv_sessionId : string;
  pv_bulletinRootHistory : list RootSnapshot;
  pv_botCount : Z;
  pv_userParticipation : UserParticipation;
  pv_lastActivityMs : Z;
}.

Record VotingItem := mkVotingItem {
  vi_sessionId : string;
  vi_record : PersistedVotingRecord;
  vi_revision : Z;
  vi_expiresAt : Z;
}.

Record VoteItem := mkVoteItem {
  vo_sessionId : string;
  vo_voteIndex : Z;
  vo_voteId : string;
  vo_vote : string;
  vo_rand : string;
  vo_commit : string;
  vo_timestamp : Z;
  vo_rootAtCast : string;
  vo_isUserVote : bool;
  vo_expiresAt : Z;
}.

Record CurrentFinalizationItem := mkCurrentItem {
  ci_sessionId : string;
  ci_ownerSessionId : string;
  ci_currentFinalizationId : string;
  ci_revision : Z;
  ci_expiresAt : Z;
}.

Record FinalizationItem := mkFinalizationItem {
  fi_sessionId : string;
  fi_ownerSessionId : string;
  fi_finalizationId : string;
  fi_record : FinalizationRecord;
  fi_revision : Z;
  fi_expiresAt : Z;
}.

Record EncodedLifecycleRevision := mkRevision {
  lr_currentFinalizationId : option string;
  lr_revision : Z;
}.

(** ** Keys *)

Definition identityKey (sessionId : string) : string := sessionId.
Definition votingKey (sessionId : string) : string := "VOTING#" +:+ sessionId.
Definition currentFinalizationKey (sessionId : string) : string := "FINALIZATION_CURRENT#" +:+ sessionId.
Definition finalizationKey (sessionId finalizationId : string) : string :=
  "FINALIZATION#" +:+ sessionId +:+ "#" +:+ finalizationId.

(** ** Keys of the items *)

Definition IDENTITY_ITEM_KEYS : list string := ["sessionId"; "itemType"; "identity"; "expiresAt"]%string.
Definition VOTING_ITEM_KEYS : list string := ["sessionId"; "itemType"; "record"; "revision"; "expiresAt"]%string.
Definition PERSISTED_VOTING_KEYS : list string :=
  ["sessionId"; "bulletinRootHistory"; "botCount"; "userParticipation"; "lastActivityMs"]%string.
Definition VOTE_ITEM_KEYS : list string :=
  ["sessionId"; "voteIndex"; "itemType"; "voteId"; "vote"; "rand"; "commit"; "timestamp"; "rootAtCast"; "isUserVote";
   "expiresAt"]%string.
Definition CURRENT_FINALIZATION_ITEM_KEYS : list string :=
  ["sessionId"; "itemType"; "ownerSessionId"; "currentFinalizationId"; "revision"; "expiresAt"]%string.
Definition FINALIZATION_ITEM_KEYS : list string :=
  ["sessionId"; "itemType"; "ownerSessionId"; "finalizationId"; "record"; "revision"; "expiresAt"]%string.
Definition USER_NOT_CAST_KEYS : list string := ["status"]%string.
Definition USER_CAST_KEYS : list string := ["status"; "voteIndex"]%string.

(** ** Helpers of the admission *)

(** [Math.floor(Date.now() / 1000)] *)
Definition now_seconds (now : Z) : Z := now / 1000.

Definition isExpiredItem (now : Z) (value : jsval) : bool :=
  isNonArrayObject value &&
  match prop value "expiresAt" with JNum n => num_leb n (NInt (now_seconds now)) | _ => false end.

Definition text_is (value : jsval) (expected : string) : bool :=
  match value with JStr s => String.eqb s expected | _ => false end.

(** ** The revision of a lifecycle *)

(** The token is the JSON text of this object; [JSON.parse] gives it back. *)
Definition encodeLifecycleRevision (value : EncodedLifecycleRevision) : jsval :=
  JObj [("currentFinalizationId", match lr_currentFinalizationId value with Some i => JStr i | None => JNull end);
        ("revision", JNum (NInt (lr_revision value)))]%string.

Definition decodeLifecycleRevision (parsed : jsval) : option EncodedLifecycleRevision :=
  if negb (isNonArrayObject parsed) || negb (hasExactOwnKeys parsed ["currentFinalizationId"; "revision"]%string)
  then None
  else
    match prop parsed "currentFinalizationId", safe_count (prop parsed "revision") with
    | JNull, Some revision => Some (mkRevision None revision)
    | JStr s, Some revision =>
        match parseFinalizationId (JStr s) with
        | Some admittedFinalizationId => Some (mkRevision (Some admittedFinalizationId) revision)
        | None => None
        end
    | _, _ => None
    end.

(** ** Voting records *)

Definition ROOT_KEYS : list string := ["timestamp"; "root"; "treeSize"]%string.
Definition SIGNED_ROOT_KEYS : list string := ["timestamp"; "root"; "treeSize"; "signature"]%string.

Definition hasRootSnapshotShape (value : jsval) : bool :=
  isNonArrayObject value && (hasExactOwnKeys value ROOT_KEYS || hasExactOwnKeys value SIGNED_ROOT_KEYS).

(** [signature] may be undefined, or a text. *)
Definition parseRootSnapshotFields (value : jsval) : option (Z * string * jsval * option string) :=
  if negb (hasRootSnapshotShape value) then None
  else
    match safe_count (prop value "timestamp"), prop value "root", prop value "signature" with
    | Some timestamp, JStr root, JUndefined => Some (timestamp, root, prop value "treeSize", None)
    | Some timestamp, JStr root, JStr signature => Some (timestamp, root, prop value "treeSize", Some signature)
    | _, _, _ => None
    end.

Definition even_only : NormalizeHexOptions := mkHexOptions None None None (Some false).

Definition parseRootSnapshot (value : jsval) : option RootSnapshot :=
  match parseRootSnapshotFields value with
  | Some (timestamp, root, treeSize, signature) =>
      match positive_count treeSize with
      | Some treeSize =>
          if negb (isValidHexString root (Some 32)) then None
          else match normalizeHex root even_only with
               | Ok normalized => Some (mkSnapshot timestamp treeSize normalized signature)
               | Err _ => None
               end
      | None => None
      end
  | None => None
  end.

Definition parseUserParticipation (value : jsval) : option UserParticipation :=
  if negb (isNonArrayObject value) then None
  else if text_is (prop value "status") "not_cast" && hasExactOwnKeys value USER_NOT_CAST_KEYS then Some not_cast
  else if text_is (prop value "status") "cast" && hasExactOwnKeys value USER_CAST_KEYS then
    (fun index => cast (NInt index)) <$> safe_count (prop value "voteIndex")
  else None.

Definition parseRootHistory (history : list jsval) : option (list RootSnapshot) := all_some parseRootSnapshot history.

Definition parsePersistedVotingRecord (value : jsval) (expectedSessionId : string) : option PersistedVotingRecord :=
  if negb (isNonArrayObject value) || negb (hasExactOwnKeys value PERSISTED_VOTING_KEYS) then None
  else
    match prop value "bulletinRootHistory", safe_count (prop value "botCount"),
          parseUserParticipation (prop value "userParticipation"), safe_count (prop value "lastActivityMs") with
    | JArr history, Some botCount, Some userParticipation, Some lastActivityMs =>
        if negb (text_is (prop value "sessionId") expectedSessionId) then None
        else
          (fun bulletinRootHistory =>
             mkPersistedVoting expectedSessionId bulletinRootHistory botCount userParticipation lastActivityMs)
          <$> parseRootHistory history
    | _, _, _, _ => None
    end.

(** ** Items *)

(** [expectedSessionId] is not given when the sessions are listed. *)
Definition parseIdentityItem (now : Z) (value : jsval) (expectedSessionId : option string) : option IdentityItem :=
  if negb (isNonArrayObject value) || negb (hasExactOwnKeys value IDENTITY_ITEM_KEYS) ||
     negb (text_is (prop value "itemType") "SESSION_IDENTITY") || isExpiredItem now value
  then None
  else
    match prop value "sessionId", safe_count (prop value "expiresAt"),
          parseSessionIdentityRecord (prop value "identity") with
    | JStr sessionId, Some expiresAt, Some identity =>
        if negb (String.eqb (id_sessionId identity) sessionId) ||
           match expectedSessionId with
           | Some expected => negb (String.eqb (id_sessionId identity) expected)
           | None => false
           end
        then None
        else Some (mkIdentityItem identity expiresAt)
    | _, _, _ => None
    end.

Definition parseVotingItem (now : Z) (value : jsval) (expectedSessionId : string) : option VotingItem :=
  if negb (isNonArrayObject value) || negb (hasExactOwnKeys value VOTING_ITEM_KEYS) ||
     negb (text_is (prop value "itemType") "SESSION_VOTING") ||
     negb (text_is (prop value "sessionId") (votingKey expectedSessionId)) || isExpiredItem now value
  then None
  else
    match safe_count (prop value "revision"), safe_count (prop value "expiresAt"),
          parsePersistedVotingRecord (prop value "record") expectedSessionId with
    | Some revision, Some expiresAt, Some record =>
        Some (mkVotingItem (votingKey expectedSessionId) record revision expiresAt)
    | _, _, _ => None
    end.

Definition parseVoteItem (now : Z) (value : jsval) (expectedSessionId : string) : option VoteItem :=
  if negb (isNonArrayObject value) || negb (hasExactOwnKeys value VOTE_ITEM_KEYS) ||
     negb (text_is (prop value "itemType") "VOTE") || negb (text_is (prop value "sessionId") expectedSessionId) ||
     isExpiredItem now value
  then None
  else
    voteIndex ← safe_count (prop value "voteIndex");
    voteId ← as_string (prop value "voteId");
    vote ← as_string (prop value "vote");
    rand ← as_string (prop value "rand");
    commit ← as_string (prop value "commit");
    timestamp ← safe_count (prop value "timestamp");
    rootAtCast ← as_string (prop value "rootAtCast");
    isUserVote ← as_bool (prop value "isUserVote");
    expiresAt ← safe_count (prop value "expiresAt");
    Some (mkVoteItem expectedSessionId voteIndex voteId vote rand commit timestamp rootAtCast isUserVote expiresAt).

Definition parseCurrentFinalizationItem (now : Z) (value : jsval) (expectedSessionId : string) :
    option CurrentFinalizationItem :=
  if negb (isNonArrayObject value) || negb (hasExactOwnKeys value CURRENT_FINALIZATION_ITEM_KEYS) ||
     negb (text_is (prop value "itemType") "FINALIZATION_CURRENT") ||
     negb (text_is (prop value "sessionId") (currentFinalizationKey expectedSessionId)) ||
     negb (text_is (prop value "ownerSessionId") expectedSessionId) || isExpiredItem now value
  then None
  else
    match positive_count (prop value "revision"), safe_count (prop value "expiresAt"),
          parseFinalizationId (prop value "currentFinalizationId") with
    | Some revision, Some expiresAt, Some currentFinalizationId =>
        Some (mkCurrentItem (currentFinalizationKey expectedSessionId) expectedSessionId currentFinalizationId revision
                expiresAt)
    | _, _, _ => None
    end.

(** The revision and the expiry of an item that carries the header of [itemType]. *)
Definition hasVersionedFinalizationHeader (now : Z) (value : jsval)
    (expectedSessionId expectedFinalizationId : string) (keys : list string) (itemType : string)
    (key : string -> string -> string) : option (Z * Z) :=
  if negb (isNonArrayObject value) || negb (hasExactOwnKeys value keys) ||
     negb (text_is (prop value "itemType") itemType) ||
     negb (text_is (prop value "sessionId") (key expectedSessionId expectedFinalizationId)) ||
     negb (text_is (prop value "ownerSessionId") expectedSessionId) ||
     negb (text_is (prop value "finalizationId") expectedFinalizationId) || isExpiredItem now value
  then None
  else
    match positive_count (prop value "revision"), safe_count (prop value "expiresAt") with
    | Some revision, Some expiresAt => Some (revision, expiresAt)
    | _, _ => None
    end.

Definition parseFinalizationItem (now : Z) (value : jsval) (expectedSessionId expectedFinalizationId : string) :
    option FinalizationItem :=
  match hasVersionedFinalizationHeader now value expectedSessionId expectedFinalizationId FINALIZATION_ITEM_KEYS
          "FINALIZATION" finalizationKey with
  | None => None
  | Some (revision, expiresAt) =>
      match decodeFinalizationRecord (prop value "record") with
      | Some record =>
          if negb (String.eqb (fr_sessionId record) expectedSessionId) ||
             negb (String.eqb (fr_finalizationId record) expectedFinalizationId)
          then None
          else Some (mkFinalizationItem (finalizationKey expectedSessionId expectedFinalizationId) expectedSessionId
                       expectedFinalizationId record revision expiresAt)
      | None => None
      end
  end.

(** ** Items as the values that are written *)

Definition current_item_value (sessionId ownerSessionId currentFinalizationId : string) (revision : Z)
    (expiresAt : num) : jsval :=
  JObj [("sessionId", JStr sessionId); ("itemType", JStr "FINALIZATION_CURRENT"); ("ownerSessionId", JStr ownerSessionId);
        ("currentFinalizationId", JStr currentFinalizationId); ("revision", JNum (NInt revision));
        ("expiresAt", JNum expiresAt)]%string.

Definition finalization_item_value (sessionId ownerSessionId finalizationId : string) (record : jsval)
    (revision : Z) (expiresAt : num) : jsval :=
  JObj [("sessionId", JStr sessionId); ("itemType", JStr "FINALIZATION"); ("ownerSessionId", JStr ownerSessionId);
        ("finalizationId", JStr finalizationId); ("record", record); ("revision", JNum (NInt revision));
        ("expiresAt", JNum expiresAt)]%string.

End DynamoRecords.
