(* ===== verification/DynamoService.v ===== *)
(** The DynamoDB service as the session store uses it: strongly consistent reads of
    one row, a paged query of the votes of a session and transactions of
    conditional writes; and how the store tells a conflict from another failure
    (packages/aws-adapters/src/store: dynamoSessionStore.ts,
    dynamo-write-conditions.ts). *)
From S2P Require Import Prelude.
From S2P Require Import JsNumber.
From S2P Require Import JsValue.
Import JsValue.

Module DynamoService.

(** ** Requests *)

(** The row of a key of the sessions table, and of a vote in the votes table. *)
Inductive TableKey : Type :=
| session_row (sessionId : string)
| vote_row (sessionId : string) (voteIndex : Z).

#[export] Instance TableKey_eq_dec : EqDecision TableKey.
Proof. solve_decision. Defined.

(** The condition expressions of the store: [attribute_not_exists(sessionId)] and
    conjunctions of equalities of attributes. *)
Inductive WriteCondition : Type :=
| attribute_not_exists
| attributes_equal (expected : list (string * jsval)).

(** [SET #expiresAt = :expiresAt] is the only update. *)
Inductive TransactItem : Type :=
| Put (key : TableKey) (item : jsval) (condition : option WriteCondition)
| Update (key : TableKey) (expiresAt : num) (condition : option WriteCondition)
| ConditionCheck (key : TableKey) (condition : WriteCondition).

(** What is read of the error of a transaction; [CancellationReasons] is
    undefined where the error has none. *)
Record TransactError := mkTransactError {
  te_name : string;
  te_CancellationReasons : jsval;
  te_message : string;
}.

(** ** The client *)

(** [K] is the key a page of a query ends with. A throw of [getItem] or
    [queryVotes] is any failure of the service. [query_limit] is more than the
    pages of a query. [clock] is [Date.now()]. *)
Class DynamoDB (K St : Type) := {
  getItem : string -> SM St (option jsval);
  queryVotes : string -> option K -> SM St (list jsval * option K);
  transactWrite : list TransactItem -> SM St (option TransactError);
  query_limit : nat;
  clock : St -> Z;
}.

(** ** Conflicts *)

Definition transactionCancellationReasons (error : TransactError) (itemCount : Z) : option (list jsval) :=
  if negb (String.eqb (te_name error) "TransactionCanceledException") then None
  else
    match te_CancellationReasons error with
    | JArr reasons => if Z.eqb (zlength reasons) itemCount then Some reasons else None
    | _ => None
    end.

Definition isCancellationReason (value : jsval) : bool :=
  isNonArrayObject value && bool_decide ("Code"%string ∈ object_keys value) &&
  match prop value "Message" with JUndefined | JStr _ => true | _ => false end.

Definition hasTransactionCondition (item : TransactItem) : bool :=
  match item with
  | Put _ _ condition | Update _ _ condition => is_some condition
  | ConditionCheck _ _ => true
  end.

Definition code_is (reason : jsval) (code : string) : bool :=
  match prop reason "Code" with JStr s => String.eqb s code | _ => false end.

Fixpoint conditional_reasons (items : list TransactItem) (reasons : list jsval) (conditionalFailure : bool) : bool :=
  match items, reasons with
  | item :: items, reason :: reasons =>
      if negb (isCancellationReason reason) then false
      else if code_is reason "None" then conditional_reasons items reasons conditionalFailure
      else if negb (code_is reason "ConditionalCheckFailed") || negb (hasTransactionCondition item) then false
      else conditional_reasons items reasons true
  | [], _ => conditionalFailure
  | _ :: _, [] => false
  end.

Definition isConditionalTransactionFailure (error : TransactError) (items : list TransactItem) : bool :=
  match transactionCancellationReasons error (zlength items) with
  | Some reasons => conditional_reasons items reasons false
  | None => false
  end.

Definition MAX_DYNAMODB_TRANSACTION_ITEMS : Z := 100.

(** [ConditionalTransactionConflict] is thrown where this is [conflicted]. *)
Inductive WriteOutcome : Type := committed | conflicted.

Section client.
Context {K St : Type} `{DynamoDB K St}.

(** [Date.now()] *)
Definition date_now : SM St Z := fun s => (Ok (clock s), s).

Definition writeTransaction (items : list TransactItem) : SM St WriteOutcome :=
  if Z.ltb MAX_DYNAMODB_TRANSACTION_ITEMS (zlength items) then sm_throw "DynamoDB transaction item limit exceeded"
  else
    error ← transactWrite items;
    match error with
    | None => mret committed
    | Some error =>
        if isConditionalTransactionFailure error items then mret conflicted else sm_throw (te_message error)
    end.

End client.

End DynamoService.

(** * What the DynamoDB service does, as the store relies on it: strongly consistent
    reads, and transactions that are committed as a whole, at one moment, when each
    of their conditions holds. *)
Import DynamoService.

(** ** Transactions *)

Definition Table : Type := TableKey -> option jsval.

Fixpoint set_property (properties : list (string * jsval)) (key : string) (value : jsval) : list (string * jsval) :=
  match properties with
  | [] => [(key, value)]
  | (k, v) :: rest => if String.eqb k key then (k, value) :: rest else (k, v) :: set_property rest key value
  end.

Definition condition_holds (condition : option WriteCondition) (row : option jsval) : Prop :=
  match condition, row with
  | None, _ => True
  | Some attribute_not_exists, _ => row = None
  | Some (attributes_equal expected), Some item => Forall (fun e => prop item e.1 = e.2) expected
  | Some (attributes_equal _), None => False
  end.

Definition item_key (item : TransactItem) : TableKey :=
  match item with Put key _ _ | Update key _ _ | ConditionCheck key _ => key end.

Definition item_condition (item : TransactItem) : option WriteCondition :=
  match item with Put _ _ condition | Update _ _ condition => condition | ConditionCheck _ condition => Some condition end.

Definition set_row (key : TableKey) (row : option jsval) (t : Table) : Table :=
  fun k => if decide (k = key) then row else t k.

Definition apply_item (t : Table) (item : TransactItem) : Table :=
  match item with
  | Put key item _ => set_row key (Some item) t
  | Update key expiresAt _ =>
      match t key with
      | Some (JObj properties) => set_row key (Some (JObj (set_property properties "expiresAt" (JNum expiresAt)))) t
      | _ => t
      end
  | ConditionCheck _ _ => t
  end.

(** Every condition is evaluated before any write; no two items of a transaction
    name one row. *)
Definition commits (items : list TransactItem) (t t' : Table) : Prop :=
  Forall (fun item => condition_holds (item_condition item) (t (item_key item))) items /\
  NoDup (map item_key items) /\ forall k, t' k = fold_left apply_item items t k.

(** ** The service *)

(** [others] is what other invocations and time do between two moments of a call.
    A transaction that was cancelled wrote nothing; any other error leaves open
    whether it was committed. [remaining] counts the pages a query still has. *)
Class DynamoLaws (K St : Type) `{DynamoDB K St} := {
  table : St -> Table;
  others : St -> St -> Prop;
  remaining : option K -> nat;
  others_refl s : others s s;
  others_trans s1 s2 s3 : others s1 s2 -> others s2 s3 -> others s1 s3;
  get_law key s r s' : getItem key s = (r, s') -> r <> Err OutOfFuel /\
    exists s1, others s s1 /\ others s1 s' /\ forall v, r = Ok v -> v = table s1 (session_row key);
  query_law sid start s r s' : queryVotes sid start s = (r, s') -> r <> Err OutOfFuel /\ others s s' /\
    forall items k, r = Ok (items, Some k) -> (remaining (Some k) < remaining start)%nat;
  query_limit_law : (remaining None < query_limit)%nat;
  transact_law items s r s' : transactWrite items s = (r, s') -> exists answer, r = Ok answer /\
    let committed := exists s1 s2, others s s1 /\ commits items (table s1) (table s2) /\ others s2 s' in
    match answer with
    | None => committed
    | Some e => others s s' \/ (te_name e <> "TransactionCanceledException"%string /\ committed)
    end;
}.

(** ** Facts *)

Lemma apply_item_other item t k : k <> item_key item -> apply_item t item k = t k.
Proof.
  intros Hk. destruct item as [key v c | key e c | key c]; cbn in *; try done.
  - unfold set_row. by rewrite decide_False.
  - destruct (t key) as [[] |]; try done. unfold set_row. by rewrite decide_False.
Qed.

Lemma apply_items_other items : forall t k, k ∉ map item_key items -> fold_left apply_item items t k = t k.
Proof.
  induction items as [| item items IH]; intros t k Hk; [done |]. cbn in Hk |- *. apply not_elem_of_cons in Hk as [H1 H2].
  rewrite IH by done. by apply apply_item_other.
Qed.

(** What the first item of a transaction wrote is there afterwards. *)
Lemma put_row key v c items t : key ∉ map item_key items ->
  fold_left apply_item (Put key v c :: items) t key = Some v.
Proof.
  intros Hk. cbn [fold_left]. rewrite apply_items_other by done. cbn [apply_item]. unfold set_row. by rewrite decide_True.
Qed.

(** Each item of a transaction acts on the row it names alone. *)
Lemma apply_item_local item t t' : t (item_key item) = t' (item_key item) ->
  apply_item t item (item_key item) = apply_item t' item (item_key item).
Proof.
  intros Heq. destruct item as [key v c | key e c | key c]; cbn in *; [| | done].
  - unfold set_row. by rewrite !decide_True.
  - rewrite Heq. destruct (t' key) as [[| | | | | | | properties] |] eqn:E; [congruence .. | | congruence].
    unfold set_row. by rewrite !decide_True.
Qed.

Lemma item_effect items : forall t item, NoDup (map item_key items) -> In item items ->
  fold_left apply_item items t (item_key item) = apply_item t item (item_key item).
Proof.
  induction items as [| i items IH]; intros t item Hnd Hin; [done |]. cbn in Hnd. apply NoDup_cons in Hnd as [Hnot Hnd].
  cbn [fold_left]. destruct Hin as [-> | Hin]; [by apply apply_items_other |].
  rewrite IH by done. apply apply_item_local, apply_item_other. intros Heq. apply Hnot. rewrite <- Heq.
  apply list_elem_of_In, in_map_iff. by exists item.
Qed.

Lemma own_set_property properties key v : own (set_property properties key v) key = Some v.
Proof.
  induction properties as [| [k w] rest IH]; cbn; [by rewrite String.eqb_refl |].
  destruct (String.eqb k key) eqn:E; cbn; by rewrite E.
Qed.

(** A row after a transaction was there before, or is what one of the items wrote. *)
Lemma apply_items_row items : forall t k v, NoDup (map item_key items) -> fold_left apply_item items t k = Some v ->
  t k = Some v \/ (exists c, In (Put k v c) items) \/
  (exists e c properties, In (Update k e c) items /\ t k = Some (JObj properties) /\
     v = JObj (set_property properties "expiresAt" (JNum e))).
Proof.
  induction items as [| item items IH]; intros t k v Hnd Hv; [by left |]. cbn in Hnd, Hv.
  apply NoDup_cons in Hnd as [Hnot Hnd]. destruct (decide (k = item_key item)) as [-> | Hne].
  - rewrite apply_items_other in Hv by done. destruct item as [key w c | key e c | key c]; cbn in Hv; [| | by left].
    + unfold set_row in Hv. rewrite decide_True in Hv by done. injection Hv as ->. right. left. exists c. by left.
    + destruct (t key) as [[| | | | | | | properties] |] eqn:Et; try (by left).
      unfold set_row in Hv. rewrite decide_True in Hv by done. injection Hv as <-. right. right.
      exists e, c, properties. split; [by left | done].
  - destruct (IH _ _ _ Hnd Hv) as [Hk | [(c & Hc) | (e & c & properties & Hin & Hk & ->)]].
    + rewrite apply_item_other in Hk by done. by left.
    + right. left. exists c. by right.
    + rewrite apply_item_other in Hk by done. right. right. exists e, c, properties. split; [by right | done].
Qed.

(** ** Computations that only read *)

Section reads.
Context {K St : Type} `{DynamoLaws K St}.
Variable lawful : St -> Prop.
Hypothesis others_lawful : forall s s', others s s' -> lawful s -> lawful s'.

(** From a lawful state [m] only lets others act, does not run out of fuel, and
    what it returns satisfies [P]. *)
Definition reads {A} (m : SM St A) (P : A -> Prop) : Prop := forall s r s', lawful s -> m s = (r, s') ->
  others s s' /\ match r with Ok a => P a | Err e => e <> OutOfFuel end.

Lemma reads_ret {A} (a : A) (P : A -> Prop) : P a -> reads (mret a) P.
Proof. intros Ha s r s' _ [= <- <-]. split; [apply others_refl | done]. Qed.

Lemma reads_throw {A} msg (P : A -> Prop) : reads (sm_throw msg) P.
Proof. intros s r s' _ [= <- <-]. by split; [apply others_refl |]. Qed.

Lemma reads_lift {A} (m : result A) (P : A -> Prop) :
  no_fuel_error m -> (forall a, m = Ok a -> P a) -> reads (sm_lift m) P.
Proof.
  intros Hf HP s r s' _ [= <- <-]. split; [apply others_refl |]. destruct m as [a | e]; [by apply HP |].
  intros ->. by apply Hf.
Qed.

Lemma reads_bind {A B} (m : SM St A) (f : A -> SM St B) P Q :
  reads m P -> (forall a, P a -> reads (f a) Q) -> reads (m ≫= f) Q.
Proof.
  intros Hm Hf s r s' Hs. unfold mbind, SM_bind. destruct (m s) as [ra sa] eqn:Ea.
  destruct (Hm _ _ _ Hs Ea) as [Ho Hr]. destruct ra as [a | e].
  - intros E. destruct (Hf a Hr _ _ _ (others_lawful _ _ Ho Hs) E) as [Ho' Hr']. split; [by eapply others_trans | done].
  - intros [= <- <-]. by split.
Qed.

Lemma reads_weaken {A} (m : SM St A) (P Q : A -> Prop) : reads m P -> (forall a, P a -> Q a) -> reads m Q.
Proof. intros Hm HPQ s r s' Hs E. destruct (Hm _ _ _ Hs E) as [Ho Hr]. split; [done |]. destruct r; [by apply HPQ | done]. Qed.

Lemma reads_get key : reads (getItem key) (fun _ => True).
Proof.
  intros s r s' _ E. destruct (get_law _ _ _ _ E) as (Hr & s1 & H1 & H2 & _). split; [by eapply others_trans |].
  destruct r as [v | e]; [done | congruence].
Qed.

End reads.
