(* ===== verification/DynamoLifecycle.v ===== *)
(** Finalization records in DynamoDB (packages/aws-adapters/src/store:
    dynamoSessionStore.ts): the pointer to the current finalization of a session
    and the record it names, read and replaced under one revision, and the
    commands that move them. *)
From S2P Require Import Prelude.
From S2P Require Import JsNumber.
From S2P Require Import JsText.
From S2P Require Import JsValue.
From S2P Require Import LocalCast.
From S2P Require Import FinStorage.
From S2P Require Import FinTransition.
From S2P Require Import SessionVote.
From S2P Require Import MockStore.
From S2P Require Import Tamper.
From S2P Require Import Coordinator.
From S2P Require Import DynamoRecords.
From S2P Require Import DynamoService.
Import JsText.
Import JsValue.
Import FinStorage.
Import FinTransition.
Import SessionVote.
Import TamperFacts.
Import DeepEqual.
Import Coordinator.
Import DynamoRecords.
Import DynamoService.

Module DynamoLifecycle.

(** ** Times to live *)

(** [process.env[name]] is [value]. *)
Definition readPositiveIntegerEnv (value : option string) (name : string) (fallback : num) : result num :=
  match trim <$> value with
  | None | Some EmptyString => Ok fallback
  | Some raw =>
      let parsed := number_of_text raw in
      if negb (isInteger parsed) || num_leb parsed (NInt 0)
      then throw ("Invalid " +:+ name +:+ " value: " +:+ raw +:+ ". Expected a positive integer.")%string
      else Ok parsed
  end.

Record TtlAuthority := mkTtlAuthority {
  ttl_identity : IdentityItem;
  ttl_voting : VotingItem;
  ttl_votes : list VoteItem;
  ttl_expiresAt : num;
}.

Section store.
Context {K St : Type} `{DynamoDB K St}.
Variable env : string -> option string.

Definition expires_after (name : string) (fallback : num) : SM St num :=
  now ← date_now;
  ttl ← sm_lift (readPositiveIntegerEnv (env name) name fallback);
  mret (num_add (NInt (now_seconds now)) ttl).

Definition liveExpiresAt : SM St num := expires_after "SESSION_LIVE_TTL_SECONDS" (NInt (5 * 60)).
Definition artifactExpiresAt : SM St num := expires_after "VERIFICATION_ARTIFACT_TTL_SECONDS" (NInt (2 * 60 * 60)).

(** ** Reads *)

(** [result.Item] *)
Definition getSessionItem (key : string) : SM St jsval :=
  item ← getItem key;
  mret (default JUndefined item).

Definition getSessionIdentity (sessionId : string) : SM St (option SessionIdentityRecord) :=
  raw ← getSessionItem (identityKey sessionId);
  now ← date_now;
  if is_undefined raw || isExpiredItem now raw then mret None
  else
    match parseIdentityItem now raw (Some sessionId) with
    | None => sm_throw "Session identity is missing or invalid"
    | Some item => mret (Some (ii_identity item))
    end.

Definition loadVotingItem (sessionId : string) : SM St (option VotingItem) :=
  raw ← getSessionItem (votingKey sessionId);
  now ← date_now;
  if is_undefined raw || isExpiredItem now raw then mret None
  else
    match parseVotingItem now raw sessionId with
    | None => sm_throw "Session voting record is missing or invalid"
    | Some item => mret (Some item)
    end.

Fixpoint load_vote_pages (fuel : nat) (sessionId : string) (exclusiveStartKey : option K) (items : list VoteItem) :
    SM St (list VoteItem) :=
  match fuel with
  | O => sm_lift (Err OutOfFuel)
  | S fuel =>
      page ← queryVotes sessionId exclusiveStartKey;
      now ← date_now;
      match all_some (fun raw => parseVoteItem now raw sessionId) page.1 with
      | None => sm_throw "CT_PROOF_UNAVAILABLE"
      | Some parsed =>
          match page.2 with
          | Some lastEvaluatedKey => load_vote_pages fuel sessionId (Some lastEvaluatedKey) (items ++ parsed)
          | None => mret (items ++ parsed)
          end
      end
  end.

Fixpoint vote_index_repeated (seen : list Z) (items : list VoteItem) : bool :=
  match items with
  | [] => false
  | item :: rest => bool_decide (vo_voteIndex item ∈ seen) || vote_index_repeated (vo_voteIndex item :: seen) rest
  end.

Definition loadVoteItems (sessionId : string) : SM St (list VoteItem) :=
  items ← load_vote_pages query_limit sessionId None [];
  if vote_index_repeated [] items then sm_throw "CT_PROOF_UNAVAILABLE" else mret items.

(** [None] where the code throws a [SessionNotFoundError]. *)
Definition find_ttl_authority (sessionId : string) : SM St (option TtlAuthority) :=
  identityRaw ← getSessionItem (identityKey sessionId);
  now ← date_now;
  match parseIdentityItem now identityRaw (Some sessionId) with
  | None => mret None
  | Some identity =>
      voting ← loadVotingItem sessionId;
      match voting with
      | None => sm_throw "Session voting record is missing or invalid"
      | Some voting =>
          votes ← loadVoteItems sessionId;
          let expectedVoteCount := zlength (pv_bulletinRootHistory (vi_record voting)) in
          if negb (Z.eqb (zlength votes) expectedVoteCount) ||
             existsb (fun vote => Z.ltb (vo_voteIndex vote) 0 || Z.leb expectedVoteCount (vo_voteIndex vote)) votes
          then sm_throw "CT_PROOF_UNAVAILABLE"
          else
            live ← liveExpiresAt;
            mret (Some (mkTtlAuthority identity voting votes
                    (fold_left (fun expiresAt vote => num_max expiresAt (NInt (vo_expiresAt vote))) votes
                       (num_max (num_max live (NInt (ii_expiresAt identity))) (NInt (vi_expiresAt voting))))))
      end
  end.

Definition loadSessionTtlAuthority (sessionId : string) : SM St TtlAuthority :=
  found ← find_ttl_authority sessionId;
  match found with
  | None => sm_throw "Session not found"
  | Some authority => mret authority
  end.

(** ** Keeping a session alive *)

Definition ttl_update (key : TableKey) (itemType : string) (currentExpiresAt : Z) (expiresAt : num) : TransactItem :=
  Update key expiresAt (Some (attributes_equal
    [("itemType", JStr itemType); ("expiresAt", JNum (NInt currentExpiresAt))]%string)).

Definition buildSessionTtlUpdates (sessionId : string) (authority : TtlAuthority) (expiresAt : num) :
    list TransactItem :=
  ttl_update (session_row (identityKey sessionId)) "SESSION_IDENTITY" (ii_expiresAt (ttl_identity authority)) expiresAt
  :: map (fun vote => ttl_update (vote_row sessionId (vo_voteIndex vote)) "VOTE" (vo_expiresAt vote) expiresAt)
       (ttl_votes authority).

(** The items, and the time at which the written rows expire. *)
Definition buildArtifactTtlUpdatePlan (sessionId : string) (requestedExpiresAt : num) :
    SM St (num * list TransactItem) :=
  authority ← loadSessionTtlAuthority sessionId;
  let expiresAt := num_max requestedExpiresAt (ttl_expiresAt authority) in
  mret (expiresAt,
        buildSessionTtlUpdates sessionId authority expiresAt ++
        [Update (session_row (votingKey sessionId)) expiresAt (Some (attributes_equal
           [("revision", JNum (NInt (vi_revision (ttl_voting authority))));
            ("expiresAt", JNum (NInt (vi_expiresAt (ttl_voting authority))))]%string))]).

(** ** The current lifecycle *)

Definition no_lifecycle : LoadedFinalizationLifecycle jsval :=
  mkLifecycle None (encodeLifecycleRevision (mkRevision None 0)).

Definition load_current (sessionId : string) : SM St (FinalizationLifecycleLoadResult jsval) :=
  identity ← getSessionIdentity sessionId;
  if negb (is_some identity) then mret load_missing
  else
    rawPointer ← getSessionItem (currentFinalizationKey sessionId);
    now ← date_now;
    if is_undefined rawPointer || isExpiredItem now rawPointer then mret (loaded no_lifecycle)
    else
      match parseCurrentFinalizationItem now rawPointer sessionId with
      | None => mret (load_invalid_record "Invalid current finalization pointer")
      | Some pointer =>
          rawRecord ← getSessionItem (finalizationKey sessionId (ci_currentFinalizationId pointer));
          now ← date_now;
          match parseFinalizationItem now rawRecord sessionId (ci_currentFinalizationId pointer) with
          | Some item =>
              if negb (Z.eqb (fi_revision item) (ci_revision pointer))
              then mret (load_invalid_record "Invalid current finalization record")
              else mret (loaded (mkLifecycle (Some (fi_record item))
                     (encodeLifecycleRevision (mkRevision (Some (ci_currentFinalizationId pointer)) (ci_revision pointer)))))
          | None => mret (load_invalid_record "Invalid current finalization record")
          end
      end.

(** The finalization that is asked for is not read. *)
Definition dynamo_loadFinalizationLifecycle (sessionId finalizationId : string) :
    SM St (FinalizationLifecycleLoadResult jsval) :=
  sm_catch (load_current sessionId) (fun error => mret (load_persistence_failure error)).

(** ** Writing the next record *)

Definition admitLifecycleMutation (sessionId finalizationId : string) (expectedRevision : jsval)
    (next : FinalizationRecord) : option (EncodedLifecycleRevision * FinalizationRecord) :=
  match decodeLifecycleRevision expectedRevision, admitFinalizationRecord (MockStore.memory_record next) with
  | Some expected, Some nextRecord =>
      if negb (String.eqb (fr_sessionId nextRecord) sessionId) ||
         negb (String.eqb (fr_finalizationId nextRecord) finalizationId)
      then None
      else Some (expected, nextRecord)
  | _, _ => None
  end.

Definition projectLifecycleReloadFailure (reloaded : FinalizationLifecycleLoadResult jsval) :
    FinalizationLifecycleApplyResult jsval :=
  match reloaded with
  | load_missing => apply_missing
  | load_invalid_record error => apply_invalid_record error
  | load_persistence_failure error => apply_persistence_failure error
  | loaded lifecycle => apply_stale lifecycle
  end.

Definition pointer_condition (expected : EncodedLifecycleRevision) : WriteCondition :=
  match lr_currentFinalizationId expected with
  | None => attribute_not_exists
  | Some current =>
      attributes_equal [("revision", JNum (NInt (lr_revision expected))); ("currentFinalizationId", JStr current)]%string
  end.

Definition record_condition (expected : EncodedLifecycleRevision) : WriteCondition :=
  match lr_currentFinalizationId expected with
  | None => attribute_not_exists
  | Some _ => attributes_equal [("revision", JNum (NInt (lr_revision expected)))]%string
  end.

Definition mutation_items (sessionId finalizationId : string) (expected : EncodedLifecycleRevision) (encoded : jsval)
    (expiresAt : num) (ttl_items : list TransactItem) : list TransactItem :=
  let nextRevision := lr_revision expected + 1 in
  Put (session_row (currentFinalizationKey sessionId))
    (current_item_value (currentFinalizationKey sessionId) sessionId finalizationId nextRevision expiresAt)
    (Some (pointer_condition expected))
  :: Put (session_row (finalizationKey sessionId finalizationId))
       (finalization_item_value (finalizationKey sessionId finalizationId) sessionId finalizationId encoded nextRevision
          expiresAt)
       (Some (record_condition expected))
  :: ttl_items.

(** What the [try] block does: [inr] is an error that is not a conflict. *)
Definition write_next (sessionId finalizationId : string) (expected : EncodedLifecycleRevision)
    (nextRecord : FinalizationRecord) : SM St (WriteOutcome + string) :=
  sm_catch
    (requested ← artifactExpiresAt;
     plan ← buildArtifactTtlUpdatePlan sessionId requested;
     encoded ← sm_lift (encodeFinalizationRecord nextRecord);
     outcome ← writeTransaction (mutation_items sessionId finalizationId expected encoded plan.1 plan.2);
     mret (inl outcome))
    (fun error => mret (inr error)).

Definition dynamo_applyFinalizationLifecycleMutation (sessionId finalizationId : string) (expectedRevision : jsval)
    (next : FinalizationRecord) : SM St (FinalizationLifecycleApplyResult jsval) :=
  match admitLifecycleMutation sessionId finalizationId expectedRevision next with
  | None => mret (apply_invalid_record "Invalid finalization lifecycle mutation")
  | Some (expected, nextRecord) =>
      outcome ← write_next sessionId finalizationId expected nextRecord;
      match outcome with
      | inr error => mret (apply_persistence_failure error)
      | inl committed =>
          mret (apply_applied (mkLifecycle (Some nextRecord)
            (encodeLifecycleRevision (mkRevision (Some finalizationId) (lr_revision expected + 1)))))
      | inl conflicted =>
          reloaded ← dynamo_loadFinalizationLifecycle sessionId finalizationId;
          match reloaded with
          | loaded lifecycle =>
              if isDeepStrictEqual (lc_currentRecord lifecycle) (Some nextRecord)
              then mret (apply_already_applied lifecycle)
              else mret (apply_stale lifecycle)
          | _ => mret (projectLifecycleReloadFailure reloaded)
          end
      end
  end.

#[export] Instance dynamo_lifecycle_port : FinalizationLifecyclePersistencePort jsval St := {
  loadFinalizationLifecycle := dynamo_loadFinalizationLifecycle;
  applyFinalizationLifecycleMutation := dynamo_applyFinalizationLifecycleMutation;
}.

(** ** Commands *)

Definition requireCoordinatedRecord (record : option FinalizationRecord) (message : string) :
    result FinalizationRecord :=
  match record with Some r => Ok r | None => throw message end.

(** The reasons that are printed after a message are left out. *)
Definition resolveCoordinatedRecord (r : FinalizationTransitionCoordinationResult jsval) :
    result FinalizationRecord :=
  match r with
  | co_applied l _ _ | co_already_applied_policy l _ _ | co_already_applied_persistence l _ _ | co_rejected l _ _ =>
      requireCoordinatedRecord (lc_currentRecord l) "Finalization transition was not applied"
  | co_invalid _ _ _ => throw "Invalid finalization transition"
  | co_missing _ _ => throw "Session not found"
  | co_stale l _ _ => requireCoordinatedRecord (lc_currentRecord l) "Finalization lifecycle changed concurrently"
  | co_invalid_record _ _ _ => throw "Invalid persisted finalization record"
  | co_persistence_failure _ _ _ => throw "Failed to persist finalization transition"
  end.

Definition dynamo_applyFinalizationCommand (command : FinalizationTransitionCommand) :
    SM St (FinalizationRecord * FinalizationTransitionCoordinationResult jsval) :=
  now ← date_now;
  coordination ← coordinateFinalizationTransition command (NInt now) 2;
  record ← sm_lift (resolveCoordinatedRecord coordination);
  mret (record, coordination).

Definition dynamo_getCurrentFinalizationRecord (sessionId : string) : SM St (option FinalizationRecord) :=
  result ← dynamo_loadFinalizationLifecycle sessionId "";
  match result with
  | load_missing => mret None
  | loaded lifecycle => mret (lc_currentRecord lifecycle)
  | _ => sm_throw "Failed to load current finalization record"
  end.

Definition dynamo_getFinalizationRecord (sessionId finalizationId : string) : SM St (option FinalizationRecord) :=
  identity ← getSessionIdentity sessionId;
  if negb (is_some identity) then mret None
  else
    raw ← getSessionItem (finalizationKey sessionId finalizationId);
    now ← date_now;
    if is_undefined raw || isExpiredItem now raw then mret None
    else
      match parseFinalizationItem now raw sessionId finalizationId with
      | None => sm_throw "Invalid persisted finalization record"
      | Some item => mret (Some (fi_record item))
      end.

End store.
End DynamoLifecycle.
