(* ===== verification/DynamoLifecycleProofs.v ===== *)
(** The lifecycle of finalizations in DynamoDB keeps the laws of a port, for calls
    that are shorter than a time to live: a load gives the lifecycle the table held
    at one moment although it reads two rows, a write replaces the lifecycle it was
    computed from, and keeps what the calls of other invocations rely on. *)
From Stdlib Require Import QArith.
From S2P Require Import Prelude.
From S2P Require Import JsNumber.
From S2P Require Import JsValue.
From S2P Require Import FinStorage.
From S2P Require Import FinTransition.
From S2P Require Import FinStorageProofs.
From S2P Require Import FinTransitionProofs.
From S2P Require Import SessionVote.
From S2P Require Import MockStore.
From S2P Require Import Coordinator.
From S2P Require Import DynamoRecords.
From S2P Require Import DynamoService.
From S2P Require Import DynamoLifecycle.
Import JsValue.
Import FinStorage.
Import FinTransition.
Import SessionVote.
Import DeepEqual.
Import Coordinator.
Import DynamoRecords.
Import DynamoService.
Import DynamoLifecycle.
#[global] Open Scope Z_scope.

(** ** Numbers and times *)

Lemma num_leb_mono n a b : a <= b -> num_leb n (NInt a) = true -> num_leb n (NInt b) = true.
Proof.
  intros Hab. unfold num_leb. destruct n as [z | q | [] |]; cbn; try done.
  - rewrite !orb_true_iff, !Z.ltb_lt, !Z.eqb_eq. lia.
  - rewrite !orb_false_r, !andb_true_iff, !negb_true_iff. intros [H1 H2].
    apply Qle_bool_iff in H1. assert (Hq : (inject_Z a <= inject_Z b)%Q) by (by rewrite <- Zle_Qle).
    split; [apply Qle_bool_iff; by eapply Qle_trans |].
    apply not_true_iff_false. intros Hb%Qeq_bool_iff. apply not_true_iff_false in H2. apply H2, Qeq_bool_iff.
    apply Qle_antisym; [done |]. by rewrite Hb.
Qed.

Lemma num_max_int a b : num_max (NInt a) (NInt b) = NInt (Z.max a b).
Proof. unfold num_max. cbn. destruct (Z.ltb_spec a b); f_equal; lia. Qed.

Lemma max_list {A} (f : A -> Z) l : forall z, fold_left (fun m x => num_max m (NInt (f x))) l (NInt z) =
  NInt (fold_left (fun m x => Z.max m (f x)) l z).
Proof. induction l as [| x l IH]; intros z; [done |]. cbn [fold_left]. by rewrite num_max_int, IH. Qed.

Lemma safe_count_ok v z : MockStore.safe_count v = Some z -> v = JNum (NInt z) /\ 0 <= z <= MAX_SAFE_INTEGER.
Proof.
  destruct v as [| | | n | | | |]; try done. cbn. destruct (isNonNegativeSafeInteger n) eqn:E; [| done].
  apply isNonNegativeSafeInteger_spec in E as (w & -> & Hw). by intros [= <-].
Qed.

Lemma positive_count_ok v z : MockStore.positive_count v = Some z -> v = JNum (NInt z) /\ 0 < z <= MAX_SAFE_INTEGER.
Proof.
  destruct v as [| | | n | | | |]; try done. cbn. unfold isPositiveSafeInteger.
  destruct (isNonNegativeSafeInteger n) eqn:E; [| done].
  apply isNonNegativeSafeInteger_spec in E as (w & -> & Hw). cbn. destruct (Z.ltb_spec 0 w); [| done]. intros [= <-].
  split; [done | lia].
Qed.

Lemma safe_count_Z z : 0 <= z <= MAX_SAFE_INTEGER -> MockStore.safe_count (JNum (NInt z)) = Some z.
Proof. intros Hz. cbn. by rewrite safe_of_Z. Qed.

Lemma positive_count_Z z : 0 < z <= MAX_SAFE_INTEGER -> MockStore.positive_count (JNum (NInt z)) = Some z.
Proof.
  intros Hz. cbn. unfold isPositiveSafeInteger. rewrite safe_of_Z by lia. cbn. by destruct (Z.ltb_spec 0 z); [| lia].
Qed.

Lemma text_is_spec v s : text_is v s = true <-> v = JStr s.
Proof. destruct v; cbn; try (by split). rewrite String.eqb_eq. split; [by intros -> | by intros [= ->]]. Qed.

(** ** Keys *)

Lemma segment_no_hash a b : isSafeVerifierSegment (a +:+ "#" +:+ b) = false.
Proof.
  unfold isSafeVerifierSegment. apply andb_false_iff. right. induction a as [| c a IH]; [reflexivity |].
  cbn [String.app string_all]. apply andb_false_iff. by right.
Qed.

Lemma not_segment a b : isSafeVerifierSegment (a +:+ "#" +:+ b) = true -> False.
Proof. by rewrite segment_no_hash. Qed.

Lemma segments_inj a b a' b' : isSafeVerifierSegment a = true -> isSafeVerifierSegment a' = true ->
  (a +:+ "#" +:+ b = a' +:+ "#" +:+ b')%string -> a = a' /\ b = b'.
Proof.
  unfold isSafeVerifierSegment. intros [_ Ha]%andb_true_iff [_ Ha']%andb_true_iff. revert a' Ha'.
  induction a as [| c a IH]; intros [| c' a'] Ha' E; [by simplify_eq/= .. |].
  cbn in Ha, Ha'. injection E as <- E.
  apply andb_true_iff in Ha as [_ Ha], Ha' as [_ Ha']. by destruct (IH Ha a' Ha' E) as [-> ->].
Qed.

Lemma finalization_key_inj sid fid sid' fid' : isSafeVerifierSegment sid = true -> isSafeVerifierSegment sid' = true ->
  finalizationKey sid fid = finalizationKey sid' fid' -> sid = sid' /\ fid = fid'.
Proof. intros H H' E. apply segments_inj; [done | done |]. unfold finalizationKey in E. by simplify_eq. Qed.

(** ** The lifecycle a table holds, during a call *)

Section window.
Variables call_start call_end : Z.

(** Nothing expires during the call, so that any of its moments will do. *)
Definition unexpiring (t : Table) : Prop := forall key v, t (session_row key) = Some v ->
  isExpiredItem call_start v = isExpiredItem call_end v.

Definition row (t : Table) (key : string) : jsval := default JUndefined (t (session_row key)).

Definition item_in (t : Table) (sid fid : string) : option FinalizationItem :=
  parseFinalizationItem call_start (row t (finalizationKey sid fid)) sid fid.

Definition lifecycle_in (t : Table) (sid : string) : option (option FinalizationRecord * EncodedLifecycleRevision) :=
  let raw := row t (currentFinalizationKey sid) in
  if is_undefined raw || isExpiredItem call_start raw then Some (None, mkRevision None 0)
  else
    pointer ← parseCurrentFinalizationItem call_start raw sid;
    item ← item_in t sid (ci_currentFinalizationId pointer);
    if Z.eqb (fi_revision item) (ci_revision pointer)
    then Some (Some (fi_record item), mkRevision (Some (ci_currentFinalizationId pointer)) (ci_revision pointer))
    else None.

Record lawful_table (t : Table) : Prop := {
  lt_unexpiring : unexpiring t;
  lt_lifecycle sid : isSafeVerifierSegment sid = true ->
    exists c, lifecycle_in t sid = Some c /\ lr_revision c.2 < MAX_SAFE_INTEGER;
}.

(** What every write of a lifecycle keeps: a lifecycle, or a record, that changes
    is replaced under a later revision. *)
Record keeps (t t' : Table) : Prop := {
  keeps_lifecycle sid c c' : isSafeVerifierSegment sid = true -> lifecycle_in t sid = Some c ->
    lifecycle_in t' sid = Some c' -> c = c' \/ lr_revision c.2 < lr_revision c'.2;
  keeps_item sid fid i i' : isSafeVerifierSegment sid = true -> item_in t sid fid = Some i ->
    item_in t' sid fid = Some i' ->
    (fi_record i = fi_record i' /\ fi_revision i = fi_revision i') \/ fi_revision i < fi_revision i';
}.

Lemma expired_same now v : call_start <= now <= call_end -> isExpiredItem call_start v = isExpiredItem call_end v ->
  isExpiredItem now v = isExpiredItem call_start v.
Proof.
  intros Hn Hv. assert (Hmono : forall a b, a <= b -> isExpiredItem a v = true -> isExpiredItem b v = true).
  { unfold isExpiredItem, now_seconds. intros a b Hab. rewrite !andb_true_iff. intros [Ho He]. split; [done |].
    destruct (prop v "expiresAt"); try done. eapply num_leb_mono; [| done]. apply Z.div_le_mono; lia. }
  destruct (isExpiredItem call_start v) eqn:Es; [by eapply Hmono; [| exact Es]; lia |].
  apply not_true_iff_false. intros Ht. apply (Hmono now call_end) in Ht; [congruence | lia].
Qed.

Lemma row_expired t now key : lawful_table t -> call_start <= now <= call_end ->
  isExpiredItem now (row t key) = isExpiredItem call_start (row t key).
Proof.
  intros Ht Hn. unfold row. destruct (t (session_row key)) as [v |] eqn:E; [| done].
  apply expired_same; [done |]. by eapply lt_unexpiring.
Qed.

Lemma pointer_same now v sid : isExpiredItem now v = isExpiredItem call_start v ->
  parseCurrentFinalizationItem now v sid = parseCurrentFinalizationItem call_start v sid.
Proof. intros E. unfold parseCurrentFinalizationItem. by rewrite E. Qed.

Lemma item_same now v sid fid : isExpiredItem now v = isExpiredItem call_start v ->
  parseFinalizationItem now v sid fid = parseFinalizationItem call_start v sid fid.
Proof. intros E. unfold parseFinalizationItem, hasVersionedFinalizationHeader. by rewrite E. Qed.

(** What is known of items that were admitted. *)
Lemma pointer_read now v sid p : parseCurrentFinalizationItem now v sid = Some p ->
  prop v "revision" = JNum (NInt (ci_revision p)) /\ 0 < ci_revision p <= MAX_SAFE_INTEGER /\
  prop v "currentFinalizationId" = JStr (ci_currentFinalizationId p) /\
  isSafeVerifierSegment (ci_currentFinalizationId p) = true.
Proof.
  unfold parseCurrentFinalizationItem. destruct (_ || _); [done |].
  destruct (MockStore.positive_count (prop v "revision")) as [r |] eqn:Er; [| done].
  destruct (MockStore.safe_count (prop v "expiresAt")); [| done].
  destruct (parseFinalizationId (prop v "currentFinalizationId")) as [i |] eqn:Ei; [| done]. intros [= <-].
  apply positive_count_ok in Er as [-> Hr]. split_and!; cbn; try done; try lia.
  - destruct (prop v "currentFinalizationId"); try done. cbn in Ei. by destruct (isSafeVerifierSegment s); simplify_eq.
  - by eapply segment_text.
Qed.

Lemma item_read now v sid fid i : parseFinalizationItem now v sid fid = Some i ->
  prop v "revision" = JNum (NInt (fi_revision i)) /\ 0 < fi_revision i <= MAX_SAFE_INTEGER /\
  record_ok (fi_record i).
Proof.
  unfold parseFinalizationItem, hasVersionedFinalizationHeader. destruct (_ || _); [done |].
  destruct (MockStore.positive_count (prop v "revision")) as [r |] eqn:Er; [| done].
  destruct (MockStore.safe_count (prop v "expiresAt")); [| done].
  destruct (decodeFinalizationRecord _) as [rec |] eqn:Ed; [| done]. destruct (_ || _); [done |]. intros [= <-].
  apply positive_count_ok in Er as [-> Hr]. split_and!; cbn; try done; try lia. by eapply decoded_ok.
Qed.

(** A lifecycle with a record has the revision of its pointer. *)
Lemma lifecycle_pointer t sid c : lifecycle_in t sid = Some c -> match lr_currentFinalizationId c.2 with
  | None => c = (None, mkRevision None 0)
  | Some fid => 0 < lr_revision c.2 /\ exists r, c.1 = Some r /\
      prop (row t (currentFinalizationKey sid)) "revision" = JNum (NInt (lr_revision c.2)) /\
      prop (row t (currentFinalizationKey sid)) "currentFinalizationId" = JStr fid
  end.
Proof.
  unfold lifecycle_in. destruct (_ || _); [by intros [= <-] |].
  destruct (parseCurrentFinalizationItem _ _ _) as [p |] eqn:Ep; [| done]. cbn.
  destruct (item_in t sid _) as [i |]; [| done]. cbn. destruct (Z.eqb _ _); [| done]. intros [= <-]. cbn.
  apply pointer_read in Ep as (H1 & H2 & H3 & H4). split; [lia |]. by eexists.
Qed.

(** ** What a table holds after a write *)

Lemma unexpired now v e : prop v "expiresAt" = JNum (NInt e) -> now_seconds now < e -> isExpiredItem now v = false.
Proof.
  intros Hv He. unfold isExpiredItem. rewrite Hv. unfold num_leb. cbn. apply andb_false_iff. right.
  apply orb_false_iff. rewrite Z.ltb_ge, Z.eqb_neq. lia.
Qed.


Lemma written_pointer sid fid rev e : isSafeVerifierSegment fid = true -> 0 < rev <= MAX_SAFE_INTEGER ->
  0 <= e <= MAX_SAFE_INTEGER -> now_seconds call_start < e ->
  parseCurrentFinalizationItem call_start (current_item_value (currentFinalizationKey sid) sid fid rev (NInt e)) sid =
  Some (mkCurrentItem (currentFinalizationKey sid) sid fid rev e).
Proof.
  intros Hf Hr He Hn. unfold parseCurrentFinalizationItem. set (v := current_item_value _ _ _ _ _).
  change (negb (isNonArrayObject v)) with false. change (hasExactOwnKeys v _) with true.
  change (text_is (prop v "itemType") "FINALIZATION_CURRENT") with true.
  change (prop v "sessionId") with (JStr (currentFinalizationKey sid)). change (prop v "ownerSessionId") with (JStr sid).
  change (prop v "revision") with (JNum (NInt rev)). change (prop v "expiresAt") with (JNum (NInt e)).
  change (prop v "currentFinalizationId") with (JStr fid).
  assert (Ee := unexpired call_start v e eq_refl Hn).
  rewrite Ee, positive_count_Z, safe_count_Z, option_segment by done. cbn [text_is negb orb].
  by rewrite !String.eqb_refl.
Qed.

Lemma written_item sid fid rev e record encoded : record_ok record -> fr_sessionId record = sid ->
  fr_finalizationId record = fid -> encodeFinalizationRecord record = Ok encoded ->
  0 < rev <= MAX_SAFE_INTEGER -> 0 <= e <= MAX_SAFE_INTEGER -> now_seconds call_start < e ->
  parseFinalizationItem call_start (finalization_item_value (finalizationKey sid fid) sid fid encoded rev (NInt e)) sid fid =
  Some (mkFinalizationItem (finalizationKey sid fid) sid fid record rev e).
Proof.
  intros Hok Hs Hf Hen Hr He Hn. unfold parseFinalizationItem, hasVersionedFinalizationHeader.
  set (v := finalization_item_value _ _ _ _ _ _).
  change (negb (isNonArrayObject v)) with false. change (hasExactOwnKeys v _) with true.
  change (text_is (prop v "itemType") "FINALIZATION") with true.
  change (prop v "sessionId") with (JStr (finalizationKey sid fid)). change (prop v "ownerSessionId") with (JStr sid).
  change (prop v "revision") with (JNum (NInt rev)). change (prop v "expiresAt") with (JNum (NInt e)).
  change (prop v "finalizationId") with (JStr fid). change (prop v "record") with encoded.
  assert (Ee := unexpired call_start v e eq_refl Hn).
  destruct (record_stored _ Hok) as (v' & Ev & Hd). rewrite Hen in Ev. injection Ev as ->.
  rewrite Ee, positive_count_Z, safe_count_Z by done. cbn [text_is negb orb]. rewrite !String.eqb_refl. cbn [negb].
  by rewrite Hd, Hs, Hf, !String.eqb_refl.
Qed.

(** ** The transaction of a mutation *)

(** The rows that keep a session alive. *)
Definition session_key (sid : string) (k : TableKey) : Prop :=
  match k with session_row x => x = identityKey sid \/ x = votingKey sid | vote_row _ _ => True end.

Section mutation.
Variables (t0 t t' : Table) (sid fid : string) (c0 : option FinalizationRecord * EncodedLifecycleRevision).
Variables (record : FinalizationRecord) (encoded : jsval) (e : Z) (ttl_items : list TransactItem).
Hypotheses (Ht : lawful_table t) (Hc0 : lifecycle_in t0 sid = Some c0) (Hkeep : keeps t0 t).
Hypotheses (Hbound : lr_revision c0.2 < MAX_SAFE_INTEGER) (Hsid : isSafeVerifierSegment sid = true).
Hypotheses (Hok : record_ok record) (Hs : fr_sessionId record = sid) (Hf : fr_finalizationId record = fid).
Hypotheses (Hencoded : encodeFinalizationRecord record = Ok encoded).
Hypotheses (He : 0 <= e <= MAX_SAFE_INTEGER) (Hnow : now_seconds call_start < e).
Hypotheses (Hkeys : Forall (session_key sid) (map item_key ttl_items)).
Hypothesis Hcommits : commits (mutation_items sid fid c0.2 encoded (NInt e) ttl_items) t t'.

Lemma revision_range : 0 < lr_revision c0.2 + 1 <= MAX_SAFE_INTEGER.
Proof.
  assert (H := lifecycle_pointer _ _ _ Hc0). destruct (lr_currentFinalizationId c0.2); [lia |]. rewrite H in *. cbn in *. lia.
Qed.

(** The conditions hold only over the lifecycle that was read. *)
Lemma conditions_lifecycle : lifecycle_in t sid = Some c0.
Proof.
  destruct Hcommits as (Hconds & _). apply Forall_cons in Hconds as [Hp _]. cbn in Hp. unfold pointer_condition in Hp.
  destruct (lt_lifecycle _ Ht sid Hsid) as (c & Hc & _). assert (H0 := lifecycle_pointer _ _ _ Hc0).
  destruct (lr_currentFinalizationId c0.2) as [cur |] eqn:Ecur.
  - assert (H1 := lifecycle_pointer _ _ _ Hc). destruct (keeps_lifecycle _ _ Hkeep sid c0 c Hsid Hc0 Hc) as [-> | Hlt]; [done |].
    destruct (t (session_row (currentFinalizationKey sid))) as [v |] eqn:Ev; [| done].
    apply Forall_cons in Hp as [Hrev _]. cbn in Hrev.
    destruct (lr_currentFinalizationId c.2); [| subst c; cbn in *; lia].
    destruct H1 as (_ & r & _ & Hr & _). unfold row in Hr. rewrite Ev in Hr. cbn in Hr. rewrite Hrev in Hr.
    injection Hr as Hr. lia.
  - rewrite H0. unfold lifecycle_in, row. by rewrite Hp.
Qed.

(** The rows of the session's pointer and of its record are the ones written; the
    rows of other lifecycles are untouched. *)
Lemma untouched k : ~ session_key sid k -> k <> session_row (currentFinalizationKey sid) ->
  k <> session_row (finalizationKey sid fid) -> t' k = t k.
Proof.
  intros H1 H2 H3. destruct Hcommits as (_ & _ & ->). apply apply_items_other. cbn.
  rewrite !not_elem_of_cons. split_and!; try done. intros Hin. apply H1. by eapply Forall_forall in Hin.
Qed.

Lemma pointer_written : row t' (currentFinalizationKey sid) =
  current_item_value (currentFinalizationKey sid) sid fid (lr_revision c0.2 + 1) (NInt e).
Proof.
  destruct Hcommits as (_ & Hnd & Hr). unfold row. rewrite Hr. unfold mutation_items. cbn zeta. rewrite put_row; [done |].
  by apply NoDup_cons in Hnd as [? _].
Qed.

Lemma record_written : row t' (finalizationKey sid fid) =
  finalization_item_value (finalizationKey sid fid) sid fid encoded (lr_revision c0.2 + 1) (NInt e).
Proof.
  destruct Hcommits as (_ & Hnd & Hr). unfold row. rewrite Hr. unfold mutation_items. cbn zeta. cbn [fold_left].
  change (fold_left apply_item ttl_items (apply_item ?t1 ?i)) with (fold_left apply_item (i :: ttl_items) t1).
  rewrite put_row; [done |]. apply NoDup_cons in Hnd as [_ Hnd]. by apply NoDup_cons in Hnd as [? _].
Qed.

Lemma written_lifecycle :
  lifecycle_in t' sid = Some (Some record, mkRevision (Some fid) (lr_revision c0.2 + 1)).
Proof.
  assert (Hr := revision_range). assert (Hfid : isSafeVerifierSegment fid = true) by (rewrite <- Hf; by apply ro_id).
  assert (Hi : item_in t' sid fid = Some (mkFinalizationItem (finalizationKey sid fid) sid fid record (lr_revision c0.2 + 1) e)).
  { unfold item_in. rewrite record_written. by apply written_item. }
  unfold lifecycle_in. rewrite pointer_written. set (v := current_item_value _ _ _ _ _).
  assert (Hv := written_pointer sid fid _ _ Hfid Hr He Hnow). fold v in Hv. rewrite Hv.
  unfold parseCurrentFinalizationItem in Hv. destruct (isExpiredItem call_start v); [by rewrite orb_true_r in Hv |].
  cbn. rewrite Hi. cbn. by rewrite Z.eqb_refl.
Qed.

Lemma other_rows other : isSafeVerifierSegment other = true -> other <> sid ->
  row t' (currentFinalizationKey other) = row t (currentFinalizationKey other) /\
  forall f, row t' (finalizationKey other f) = row t (finalizationKey other f).
Proof.
  intros Ho Hne. unfold row. split; [| intros f]; rewrite untouched; try done.
  - cbn. intros [E | E]; [| done]. unfold currentFinalizationKey, identityKey in E. rewrite <- E in Hsid.
    exact (not_segment "FINALIZATION_CURRENT" other Hsid).
  - intros E. injection E as E. done.
  - cbn. intros [E | E]; [| done]. unfold finalizationKey, identityKey in E. rewrite <- E in Hsid.
    exact (not_segment "FINALIZATION" (other +:+ "#" +:+ f) Hsid).
  - intros E. injection E as E. by apply segments_inj in E as [-> _].
Qed.

Lemma other_lifecycles other : isSafeVerifierSegment other = true -> other <> sid ->
  lifecycle_in t' other = lifecycle_in t other.
Proof.
  intros Ho Hne. destruct (other_rows other Ho Hne) as [Hp Hr]. unfold lifecycle_in, item_in. rewrite Hp.
  destruct (_ || _); [done |]. destruct (parseCurrentFinalizationItem _ _ _) as [p |]; [| done]. cbn. by rewrite Hr.
Qed.

(** What a mutation does to the rows is what every call relies on. *)
Lemma mutation_keeps : keeps t t'.
Proof.
  assert (Hb := conditions_lifecycle). assert (Ha := written_lifecycle). split.
  - intros other c c' Ho Hc Hc'. destruct (decide (other = sid)) as [-> | Hne].
    + right. rewrite Hb in Hc. rewrite Ha in Hc'. simplify_eq. cbn. lia.
    + left. rewrite other_lifecycles in Hc' by done. congruence.
  - intros other f i i' Ho Hi Hi'. destruct (decide (other = sid)) as [-> | Hne].
    2: { left. unfold item_in in *. rewrite (proj2 (other_rows other Ho Hne)) in Hi'. by simplify_eq. }
    destruct (decide (f = fid)) as [-> | Hf'].
    + right. unfold item_in in Hi, Hi'. rewrite record_written in Hi'.
      apply item_read in Hi as (Hi & _ & _), Hi' as (Hi' & _ & _). injection Hi' as Hi'. rewrite <- Hi'.
      destruct Hcommits as (Hconds & _). apply Forall_cons in Hconds as [_ Hconds].
      apply Forall_cons in Hconds as [Hr _]. cbn in Hr. unfold record_condition in Hr. unfold row in Hi.
      destruct (t (session_row (finalizationKey sid fid))) as [v |]; [| done].
      destruct (lr_currentFinalizationId c0.2); [| done]. apply Forall_cons in Hr as [Hr _]. cbn in Hr, Hi.
      rewrite Hr in Hi. injection Hi as Hi. lia.
    + left. unfold item_in in *. unfold row in Hi'. rewrite untouched in Hi'; [by unfold row in Hi; simplify_eq | | done |].
      * cbn. intros [E | E]; [| done]. unfold finalizationKey, identityKey in E. rewrite <- E in Hsid.
        exact (not_segment "FINALIZATION" (sid +:+ "#" +:+ f) Hsid).
      * intros E. injection E as E. apply segments_inj in E as [_ ->]; done.
Qed.

Hypothesis Httl : Forall (fun i => match i with Update _ expiresAt _ => expiresAt = NInt e | _ => False end) ttl_items.
Hypothesis Hend : now_seconds call_end < e.

(** A written row expires at [e]. *)
Lemma written_expiry k v : t' k = Some v -> t k = Some v \/ prop v "expiresAt" = JNum (NInt e).
Proof.
  destruct Hcommits as (_ & Hnd & ->). intros Hv. destruct (apply_items_row _ _ _ _ Hnd Hv) as [Hk | [Hput | Hupd]]; [by left | right ..].
  - destruct Hput as (c & [[= <- <- <-] | [[= <- <- <-] | Hin]]); [done | done |].
    eapply Forall_forall in Httl; [| by apply list_elem_of_In]. done.
  - destruct Hupd as (x & c & properties & [[=] | [[=] | Hin]] & _ & ->).
    eapply Forall_forall in Httl; [| by apply list_elem_of_In]. cbn in Httl. subst x. cbn. by rewrite own_set_property.
Qed.

Lemma mutation_lawful : lr_revision c0.2 + 1 < MAX_SAFE_INTEGER -> lawful_table t'.
Proof.
  intros Hb. split.
  - intros key v Hv. destruct (written_expiry _ _ Hv) as [Hk | Hx]; [by eapply lt_unexpiring |].
    unfold isExpiredItem. rewrite Hx. f_equal. unfold num_leb. cbn.
    destruct (Z.ltb_spec e (now_seconds call_start)), (Z.ltb_spec e (now_seconds call_end)),
      (Z.eqb_spec e (now_seconds call_start)), (Z.eqb_spec e (now_seconds call_end)); (done || lia).
  - intros other Ho. destruct (decide (other = sid)) as [-> | Hne].
    + rewrite written_lifecycle. by eexists.
    + rewrite other_lifecycles by done. by apply lt_lifecycle.
Qed.
End mutation.
End window.

(** ** What every write keeps *)

(** A lifecycle is written only over the revision that was read, however old, and
    only if no other invocation has moved it since; the rows stay well formed and
    unexpired, the lifecycle and the record advance to the next revision, and the
    lifecycles of all other sessions are the same. What a call relies on other
    invocations to keep is what each of its own writes keeps. *)
Theorem lifecycle_write_keeps call_start call_end t0 t t' sid c0 record encoded e ttl_items :
  lawful_table call_start call_end t -> lifecycle_in call_start t0 sid = Some c0 -> keeps call_start t0 t ->
  lr_revision c0.2 + 1 < MAX_SAFE_INTEGER -> record_ok record -> fr_sessionId record = sid ->
  encodeFinalizationRecord record = Ok encoded ->
  0 <= now_seconds call_start <= now_seconds call_end -> now_seconds call_end < e <= MAX_SAFE_INTEGER ->
  Forall (session_key sid) (map item_key ttl_items) ->
  Forall (fun i => match i with Update _ expiresAt _ => expiresAt = NInt e | _ => False end) ttl_items ->
  commits (mutation_items sid (fr_finalizationId record) c0.2 encoded (NInt e) ttl_items) t t' ->
  lifecycle_in call_start t sid = Some c0 /\
  lifecycle_in call_start t' sid = Some (Some record, mkRevision (Some (fr_finalizationId record)) (lr_revision c0.2 + 1)) /\
  (forall other, isSafeVerifierSegment other = true -> other <> sid ->
     lifecycle_in call_start t' other = lifecycle_in call_start t other) /\
  lawful_table call_start call_end t' /\ keeps call_start t t'.
Proof.
  intros Ht Hc0 Hk Hb Hok Hs Hen Hw He Hkeys Httl Hc. assert (Hsid : isSafeVerifierSegment sid = true) by (rewrite <- Hs; by apply ro_session).
  assert (Hb' : lr_revision c0.2 < MAX_SAFE_INTEGER) by lia. assert (He' : 0 <= e <= MAX_SAFE_INTEGER) by lia.
  assert (Hnow : now_seconds call_start < e) by lia. destruct He as [He _]. split_and!.
  - by eapply conditions_lifecycle.
  - by eapply written_lifecycle.
  - intros other Ho Hne. exact (other_lifecycles _ _ _ _ _ _ _ _ _ Hsid Hkeys Hc other Ho Hne).
  - by eapply mutation_lawful.
  - by eapply mutation_keeps.
Qed.
