(* ===== verification/DynamoPort.v ===== *)
(** The DynamoDB store implements the port of lifecycles, for calls in which nothing
    expires, beside invocations that keep what it keeps itself. *)
From S2P Require Import Prelude.
From S2P Require Import JsNumber.
From S2P Require Import JsText.
From S2P Require Import JsValue.
From S2P Require Import FinStorage.
From S2P Require Import FinTransition.
From S2P Require Import FinStorageProofs.
From S2P Require Import FinTransitionProofs.
From S2P Require Import SessionVote.
From S2P Require Import MockStore.
From S2P Require Import Coordinator.
From S2P Require Import DynamoRecords.
From S2P Require Import DynamoService.
From S2P Require Import DynamoLifecycle.
From S2P Require Import DynamoLifecycleProofs.
Import JsValue.
Import FinStorage.
Import FinTransition.
Import SessionVote.
Import DeepEqual.
Import Coordinator.
Import DynamoRecords.
Import DynamoService.
Import DynamoLifecycle.

Lemma identity_segment v r : MockStore.parseSessionIdentityRecord v = Some r ->
  isSafeVerifierSegment (id_sessionId r) = true.
Proof.
  unfold MockStore.parseSessionIdentityRecord. destruct (_ || _); [done |].
  repeat match goal with |- context [mbind _ ?o] => destruct o; [| done]; cbn [mbind option_bind] end.
  destruct (isSafeVerifierSegment s) eqn:E; [| done]. cbn [negb orb]. destruct (_ || _); [done |]. by intros [= <-].
Qed.

(** ** A call *)

Definition dynamo_lawful {K St} `{DynamoLaws K St} (call_start call_end : Z) (s : St) : Prop :=
  call_start <= clock s <= call_end /\ lawful_table call_start call_end (table s).

(** Between [call_start] and [call_end] the other invocations keep the rows lawful
    and their lifecycles in order, and the configured times to live are longer. *)
Class DynamoCall (K St : Type) `{DynamoLaws K St} (env : string -> option string) (call_start call_end : Z) : Prop := {
  call_window : 0 <= call_start;
  others_lawful s s' : others s s' -> dynamo_lawful call_start call_end s -> dynamo_lawful call_start call_end s';
  others_keep s s' : dynamo_lawful call_start call_end s -> others s s' -> keeps call_start (table s) (table s');
  ttl_fits name fallback t : In (name, fallback)
      [("SESSION_LIVE_TTL_SECONDS", NInt (5 * 60)); ("VERIFICATION_ARTIFACT_TTL_SECONDS", NInt (2 * 60 * 60))]%string ->
    readPositiveIntegerEnv (env name) name fallback = Ok t ->
    exists k, t = NInt k /\ now_seconds call_end < now_seconds call_start + k /\
      now_seconds call_end + k <= MAX_SAFE_INTEGER;
}.

Section calls.
Context {K St : Type} `{DynamoLaws K St}.
Variable env : string -> option string.
Variables call_start call_end : Z.
Context `{!DynamoCall K St env call_start call_end}.

Definition lawful_now : St -> Prop := dynamo_lawful call_start call_end.
Definition reading {A} (m : SM St A) (P : A -> Prop) : Prop := reads lawful_now m P.

(** ** What the reads of a call are *)

Lemma reading_bind {A B} (m : SM St A) (f : A -> SM St B) P Q :
  reading m P -> (forall a, P a -> reading (f a) Q) -> reading (m ≫= f) Q.
Proof. apply reads_bind. apply others_lawful. Qed.

Lemma reading_now : reading date_now (fun now => call_start <= now <= call_end).
Proof. intros s r s' [Hc _] [= <- <-]. by split; [apply others_refl |]. Qed.

Lemma reading_item key : reading (getSessionItem key) (fun _ => True).
Proof. eapply reading_bind; [apply reads_get | intros v _; by apply reads_ret]. Qed.

Lemma env_no_fuel value name fallback : no_fuel_error (readPositiveIntegerEnv value name fallback).
Proof. unfold readPositiveIntegerEnv. destruct (JsText.trim <$> value) as [[] |]; try done. by destruct (_ || _). Qed.

(** A time to live ends after the call, at a safe integer. *)
Definition after_call (t : num) : Prop := exists e, t = NInt e /\ now_seconds call_end < e <= MAX_SAFE_INTEGER.

Lemma reading_expiry name fallback : In (name, fallback)
    [("SESSION_LIVE_TTL_SECONDS", NInt (5 * 60)); ("VERIFICATION_ARTIFACT_TTL_SECONDS", NInt (2 * 60 * 60))]%string ->
  reading (expires_after env name fallback) after_call.
Proof.
  intros Hin. eapply reading_bind; [apply reading_now |]. cbv beta. intros now Hnow.
  eapply reading_bind; [apply (reads_lift _ _ (fun t => readPositiveIntegerEnv (env name) name fallback = Ok t));
    [apply env_no_fuel | done] |].
  cbv beta. intros t Ht. apply reads_ret. destruct (ttl_fits _ _ _ Hin Ht) as (k & -> & H1 & H2).
  assert (Hs : now_seconds call_start <= now_seconds now <= now_seconds call_end)
    by (unfold now_seconds; split; apply Z.div_le_mono; lia).
  exists (now_seconds now + k). split; [| lia]. assert (Hpos : 0 <= now_seconds now).
  { assert (Hw := call_window). unfold now_seconds. apply Z.div_pos; lia. }
  apply num_add_int. unfold MAX_SAFE_INTEGER in *. lia.
Qed.

Lemma identity_item_safe now v sid i : parseIdentityItem now v (Some sid) = Some i ->
  id_sessionId (ii_identity i) = sid /\ isSafeVerifierSegment sid = true /\ 0 <= ii_expiresAt i <= MAX_SAFE_INTEGER.
Proof.
  unfold parseIdentityItem. destruct (_ || _); [done |]. destruct (prop v "sessionId"); try done.
  destruct (MockStore.safe_count _) as [e |] eqn:Ee; [| done].
  destruct (MockStore.parseSessionIdentityRecord _) as [r |] eqn:Er; [| done].
  destruct (_ || _) eqn:Ei; [done |]. intros [= <-]. apply safe_count_ok in Ee as [_ He].
  apply orb_false_iff in Ei as [_ Ei]. apply negb_false_iff, String.eqb_eq in Ei as <-.
  split; [done |]. split; [| done]. by eapply identity_segment.
Qed.

Lemma voting_item_safe now v sid i : parseVotingItem now v sid = Some i -> 0 <= vi_expiresAt i <= MAX_SAFE_INTEGER.
Proof.
  unfold parseVotingItem. destruct (_ || _); [done |]. destruct (MockStore.safe_count (prop v "revision")); [| done].
  destruct (MockStore.safe_count (prop v "expiresAt")) as [e |] eqn:Ee; [| done].
  destruct (parsePersistedVotingRecord _ _); [| done]. intros [= <-]. by apply safe_count_ok in Ee as [_ ?].
Qed.

Lemma vote_item_safe now v sid i : parseVoteItem now v sid = Some i -> 0 <= vo_expiresAt i <= MAX_SAFE_INTEGER.
Proof.
  unfold parseVoteItem. destruct (_ || _); [done |].
  repeat match goal with |- context [mbind _ ?o] => destruct o eqn:?; [| done]; cbn [mbind option_bind] end.
  intros [= <-]. cbn. by match goal with E : MockStore.safe_count (prop v "expiresAt") = _ |- _ => apply safe_count_ok in E as [_ ?] end.
Qed.

Definition safe_votes (votes : list VoteItem) : Prop := Forall (fun v => 0 <= vo_expiresAt v <= MAX_SAFE_INTEGER) votes.

Lemma reading_identity sid : reading (getSessionIdentity sid)
  (fun o => is_some o = true -> isSafeVerifierSegment sid = true).
Proof.
  eapply reading_bind; [apply reading_item |]. intros raw _. eapply reading_bind; [apply reading_now |]. intros now _.
  destruct (_ || _); [by apply reads_ret |].
  destruct (parseIdentityItem now raw (Some sid)) as [i |] eqn:E; [| apply reads_throw].
  apply reads_ret. intros _. by eapply identity_item_safe.
Qed.

Lemma reading_voting sid : reading (loadVotingItem sid)
  (fun o => match o with Some i => 0 <= vi_expiresAt i <= MAX_SAFE_INTEGER | None => True end).
Proof.
  eapply reading_bind; [apply reading_item |]. intros raw _. eapply reading_bind; [apply reading_now |]. intros now _.
  destruct (_ || _); [by apply reads_ret |].
  destruct (parseVotingItem now raw sid) as [i |] eqn:E; [| apply reads_throw].
  apply reads_ret. by eapply voting_item_safe.
Qed.

Lemma reading_pages sid fuel : forall start items, (remaining start < fuel)%nat -> safe_votes items ->
  reading (load_vote_pages fuel sid start items) safe_votes.
Proof.
  induction fuel as [| fuel IH]; intros start items Hfuel Hitems; [lia |]. cbn [load_vote_pages].
  eapply reading_bind with (P := fun page => match page.2 with Some k => (remaining (Some k) < remaining start)%nat | None => True end).
  { intros s r s' _ E. destruct (query_law _ _ _ _ _ E) as (Hr & Ho & Hpage). split; [done |].
    destruct r as [[l [k |]] | e]; [by eapply Hpage | done | congruence]. }
  intros [raws next] Hnext. cbn [fst snd] in *. eapply reading_bind; [apply reading_now |]. intros now _.
  destruct (all_some _ raws) as [parsed |] eqn:Ep; [| apply reads_throw].
  assert (Hparsed : safe_votes (items ++ parsed)).
  { apply Forall_app. split; [done |]. apply all_some_Some in Ep. induction Ep as [| raw v raws' vs Hv _ IHp]; constructor;
      [by eapply vote_item_safe | done]. }
  destruct next as [k |]; [apply IH; [lia | done] | by apply reads_ret].
Qed.

Lemma reading_votes sid : reading (loadVoteItems sid) safe_votes.
Proof.
  eapply reading_bind; [apply reading_pages; [apply query_limit_law | constructor] |]. intros items Hitems.
  destruct (vote_index_repeated [] items); [apply reads_throw | by apply reads_ret].
Qed.

(** ** The times to live of a session *)

Lemma after_call_max a z : after_call a -> 0 <= z <= MAX_SAFE_INTEGER -> after_call (num_max a (NInt z)).
Proof. intros (e & -> & He) Hz. rewrite num_max_int. eexists. split; [done | lia]. Qed.

Lemma after_call_votes votes : safe_votes votes -> forall a, after_call a ->
  after_call (fold_left (fun m v => num_max m (NInt (vo_expiresAt v))) votes a).
Proof. induction 1 as [| v votes Hv _ IH]; intros a Ha; [done |]. cbn. by apply IH, after_call_max. Qed.

(** What the rows of a session are read as. *)
Record ttl_authority_ok (sid : string) (a : TtlAuthority) : Prop := {
  ta_expiry : after_call (ttl_expiresAt a);
  ta_identity : id_sessionId (ii_identity (ttl_identity a)) = sid;
  ta_count : zlength (ttl_votes a) = zlength (pv_bulletinRootHistory (vi_record (ttl_voting a)));
}.

Lemma reading_found sid : reading (find_ttl_authority env sid)
  (fun found => match found with Some a => ttl_authority_ok sid a | None => True end).
Proof.
  eapply reading_bind; [apply reading_item |]. intros raw _. eapply reading_bind; [apply reading_now |]. intros now _.
  destruct (parseIdentityItem now raw (Some sid)) as [i |] eqn:Ei; [| by apply reads_ret].
  apply identity_item_safe in Ei as (Hs & _ & Hi). eapply reading_bind; [apply reading_voting |].
  intros [v |] Hv; [| apply reads_throw]. eapply reading_bind; [apply reading_votes |]. cbv zeta. intros votes Hvotes.
  destruct (negb _ || _) eqn:Ec; [apply reads_throw |]. apply orb_false_iff in Ec as [Ec _]. bool_prop.
  eapply reading_bind; [by apply reading_expiry; left |].
  intros live Hlive. apply reads_ret. split; [| done ..]. cbn [ttl_expiresAt]. apply after_call_votes; [done |].
  by repeat (apply after_call_max; [| done]).
Qed.

Lemma reading_authority sid : reading (loadSessionTtlAuthority env sid) (ttl_authority_ok sid).
Proof.
  eapply reading_bind; [apply reading_found |]. intros [a |] Ha; [by apply reads_ret | apply reads_throw].
Qed.

Lemma reading_plan sid requested : after_call requested -> reading (buildArtifactTtlUpdatePlan env sid requested)
  (fun plan => after_call plan.1 /\ Forall (session_key sid) (map item_key plan.2) /\
     Forall (fun i => match i with Update _ expiresAt _ => expiresAt = plan.1 | _ => False end) plan.2).
Proof.
  intros Hreq. eapply reading_bind; [apply reading_authority |]. intros a Hok. apply reads_ret.
  assert (Ha := ta_expiry _ _ Hok). cbn [fst snd]. split_and!.
  - destruct Hreq as (e & -> & He), Ha as (e' & -> & He'). rewrite num_max_int. eexists. split; [done | lia].
  - rewrite map_app, Forall_app. split; [| by repeat constructor; right]. cbn. constructor; [by left |].
    rewrite map_map. apply Forall_forall. intros k Hk. apply list_elem_of_In, in_map_iff in Hk as (v & <- & _). done.
  - rewrite Forall_app. split; [| by repeat constructor]. cbn. constructor; [done |].
    apply Forall_forall. intros i Hi. by apply list_elem_of_In, in_map_iff in Hi as (v & <- & _).
Qed.

(** [others s s'] along known moments *)
Ltac chain := solve [eauto 8 using others_trans, others_refl].

(** ** Loading a lifecycle *)

Definition dynamo_cell (s : St) (sid : string) : option (LoadedFinalizationLifecycle jsval) :=
  if isSafeVerifierSegment sid
  then (fun c => mkLifecycle c.1 (encodeLifecycleRevision c.2)) <$> lifecycle_in call_start (table s) sid
  else None.

Lemma item_moment key s r s' : getSessionItem key s = (r, s') -> r <> Err OutOfFuel /\
  exists s1, others s s1 /\ others s1 s' /\ forall v, r = Ok v -> v = row (table s1) key.
Proof.
  unfold getSessionItem, mbind, SM_bind. destruct (getItem key s) as [rg sg] eqn:Eg.
  destruct (get_law _ _ _ _ Eg) as (Hf & s1 & H1 & H2 & Hv). destruct rg as [v | e]; intros [= <- <-].
  - split; [done |]. exists s1. split_and!; try done. intros v' [= <-]. unfold row. by rewrite (Hv v eq_refl).
  - split; [congruence |]. by exists s1.
Qed.

(** The record read after a pointer of its revision is the one the pointer named. *)
Lemma torn_read s1 s2 sid p i : lawful_now s1 -> others s1 s2 -> isSafeVerifierSegment sid = true ->
  let raw := row (table s1) (currentFinalizationKey sid) in
  is_undefined raw || isExpiredItem call_start raw = false ->
  parseCurrentFinalizationItem call_start raw sid = Some p ->
  item_in call_start (table s2) sid (ci_currentFinalizationId p) = Some i -> fi_revision i = ci_revision p ->
  lifecycle_in call_start (table s1) sid =
  Some (Some (fi_record i), mkRevision (Some (ci_currentFinalizationId p)) (ci_revision p)).
Proof.
  cbv zeta. intros Hs1 Ho Hsid Hlive Hp Hi Hrev. destruct (lt_lifecycle _ _ _ (proj2 Hs1) sid Hsid) as (c & Hc & _).
  assert (Hk := others_keep _ _ Hs1 Ho). revert Hc. unfold lifecycle_in. rewrite Hlive, Hp. cbn.
  destruct (item_in call_start (table s1) sid _) as [i1 |] eqn:Ei1; [| done]. cbn.
  destruct (Z.eqb_spec (fi_revision i1) (ci_revision p)) as [Er |]; [| done]. intros _.
  destruct (keeps_item _ _ _ Hk sid _ i1 i Hsid Ei1 Hi) as [[-> _] | Hlt]; [done | lia].
Qed.

Lemma load_current_spec sid s r s' : lawful_now s -> load_current sid s = (r, s') -> others s s' /\
  match r with
  | Ok (loaded l) => exists s1, others s s1 /\ dynamo_cell s1 sid = Some l /\ others s1 s'
  | Ok _ => True
  | Err e => e <> OutOfFuel
  end.
Proof.
  intros Hs. unfold load_current, mbind, SM_bind. destruct (getSessionIdentity sid s) as [ri sa] eqn:Ei.
  destruct (reading_identity sid _ _ _ Hs Ei) as [Ha Hri]. destruct ri as [o | e]; [| by intros [= <- <-]].
  destruct (is_some o); cbn [negb]; [| by intros [= <- <-]]. specialize (Hri eq_refl).
  assert (Hsa := others_lawful _ _ Ha Hs).
  destruct (getSessionItem (currentFinalizationKey sid) sa) as [rp sb] eqn:Ep.
  destruct (item_moment _ _ _ _ Ep) as (Hf & s1 & H1 & Hb & Hv).
  assert (Hs1 := others_lawful _ _ H1 Hsa). assert (Hsb := others_lawful _ _ Hb Hs1).
  assert (Hsb' : others s sb) by chain.
  assert (Hss1 : others s s1) by chain.
  destruct rp as [raw | e]; [| intros [= <- <-]; split; [done | congruence]].
  specialize (Hv raw eq_refl). cbn [date_now]. assert (Hx := row_expired _ _ _ (clock sb) (currentFinalizationKey sid) (proj2 Hs1) (proj1 Hsb)).
  rewrite <- Hv in Hx. rewrite Hx. destruct (is_undefined raw || isExpiredItem call_start raw) eqn:Elive.
  { intros [= <- <-]. split; [done |]. exists s1. split_and!; [done | | done]. unfold dynamo_cell, lifecycle_in.
    rewrite Hri, <- Hv, Elive. done. }
  rewrite (pointer_same call_start) by done. destruct (parseCurrentFinalizationItem call_start raw sid) as [p |] eqn:Epp;
    [| by intros [= <- <-]].
  destruct (getSessionItem (finalizationKey sid (ci_currentFinalizationId p)) sb) as [rr sc] eqn:Er.
  destruct (item_moment _ _ _ _ Er) as (Hf2 & s2 & H2 & Hc & Hv2). assert (Hs2 := others_lawful _ _ H2 Hsb).
  assert (Hsc := others_lawful _ _ Hc Hs2).
  assert (Hsc' : others s sc) by chain.
  destruct rr as [rawRecord | e]; [| intros [= <- <-]; split; [done | congruence]]. specialize (Hv2 _ eq_refl).
  rewrite (item_same call_start) by (rewrite Hv2; apply (row_expired _ _ _ _ _ (proj2 Hs2) (proj1 Hsc))).
  destruct (parseFinalizationItem call_start rawRecord sid _) as [i |] eqn:Eii; [| by intros [= <- <-]].
  destruct (Z.eqb_spec (fi_revision i) (ci_revision p)) as [Erev |]; cbn [negb]; [| by intros [= <- <-]].
  intros [= <- <-]. split; [done |]. exists s1. split_and!; [done | | chain].
  unfold dynamo_cell. rewrite Hri. rewrite (torn_read s1 s2 sid p i); try done; [chain | | |].
  - by rewrite <- Hv.
  - by rewrite <- Hv.
  - unfold item_in. by rewrite <- Hv2.
Qed.

Lemma load_spec sid fid s r s' : lawful_now s -> dynamo_loadFinalizationLifecycle sid fid s = (r, s') ->
  exists answer, r = Ok answer /\ others s s' /\
    match answer with
    | loaded l => exists s1, others s s1 /\ dynamo_cell s1 sid = Some l /\ others s1 s'
    | _ => True
    end.
Proof.
  intros Hs. unfold dynamo_loadFinalizationLifecycle, sm_catch. destruct (load_current sid s) as [rl sl] eqn:El.
  destruct (load_current_spec _ _ _ _ Hs El) as [Ho Hr]. destruct rl as [a | [msg |]]; [| | done]; intros [= <- <-].
  - by exists a.
  - by eexists.
Qed.

(** ** Writing the next record *)

Definition wrote (sid fid : string) (expected : EncodedLifecycleRevision) (next : FinalizationRecord) (s s' : St) : Prop :=
  exists s1 s2 e encoded items, others s s1 /\ others s2 s' /\ encodeFinalizationRecord next = Ok encoded /\
    now_seconds call_end < e <= MAX_SAFE_INTEGER /\ Forall (session_key sid) (map item_key items) /\
    commits (mutation_items sid fid expected encoded (NInt e) items) (table s1) (table s2).

Lemma conflict_cancelled e items : isConditionalTransactionFailure e items = true ->
  te_name e = "TransactionCanceledException"%string.
Proof.
  unfold isConditionalTransactionFailure, transactionCancellationReasons.
  destruct (String.eqb_spec (te_name e) "TransactionCanceledException"); [done |]. done.
Qed.

Lemma transaction_spec items s r s' : writeTransaction items s = (r, s') ->
  let done_ := exists s1 s2, others s s1 /\ commits items (table s1) (table s2) /\ others s2 s' in
  match r with
  | Ok committed => done_
  | Ok conflicted => others s s'
  | Err (Throw _) => others s s' \/ done_
  | Err OutOfFuel => False
  end.
Proof.
  unfold writeTransaction, mbind, SM_bind. destruct (Z.ltb _ _); [intros [= <- <-]; left; apply others_refl |].
  destruct (transactWrite items s) as [rt st] eqn:Et. destruct (transact_law _ _ _ _ Et) as (answer & -> & Ha).
  destruct answer as [e |]; [| by intros [= <- <-]].
  destruct (isConditionalTransactionFailure e items) eqn:Ec; intros [= <- <-].
  - apply conflict_cancelled in Ec. destruct Ha as [Ha | [Hn _]]; done.
  - destruct Ha as [Ha | [_ Ha]]; [by left | by right].
Qed.

Lemma encode_no_fuel record : no_fuel_error (encodeFinalizationRecord record).
Proof. unfold encodeFinalizationRecord. destruct (negb _); [done |]. by destruct (fr_result record). Qed.

Lemma write_next_spec sid fid expected next s r s' : lawful_now s ->
  write_next env sid fid expected next s = (r, s') -> exists o, r = Ok o /\
    match o with
    | inl committed => wrote sid fid expected next s s'
    | inl conflicted => others s s'
    | inr _ => others s s' \/ wrote sid fid expected next s s'
    end.
Proof.
  intros Hs. unfold write_next, sm_catch, mbind, SM_bind.
  destruct (artifactExpiresAt env s) as [rq sq] eqn:Eq.
  destruct (reading_expiry "VERIFICATION_ARTIFACT_TTL_SECONDS" (NInt (2 * 60 * 60)) ltac:(by right; left) _ _ _ Hs Eq) as [Hq Hrq].
  destruct rq as [requested | [msg |]]; [| intros [= <- <-]; eexists; split; [done | by left] | done].
  destruct (buildArtifactTtlUpdatePlan env sid requested sq) as [rp sp] eqn:Ep.
  assert (Hsq := others_lawful _ _ Hq Hs). destruct (reading_plan sid requested Hrq _ _ _ Hsq Ep) as [Hp Hrp].
  assert (Hsp : others s sp) by chain.
  destruct rp as [[expiresAt items] | [msg |]]; [| intros [= <- <-]; eexists; split; [done | by left] | done].
  destruct Hrp as ((e & He & Hrange) & Hkeys & _). cbn [fst snd] in *. subst expiresAt. unfold sm_lift.
  destruct (encodeFinalizationRecord next) as [encoded | [msg |]] eqn:Ee;
    [| intros [= <- <-]; eexists; split; [done | by left] | by apply encode_no_fuel in Ee].
  destruct (writeTransaction _ sp) as [rw sw] eqn:Ew. apply transaction_spec in Ew. cbv zeta in Ew.
  assert (Hdone : (exists s1 s2, others sp s1 /\ commits (mutation_items sid fid expected encoded (NInt e) items) (table s1) (table s2) /\
    others s2 sw) -> wrote sid fid expected next s sw).
  { intros (s1 & s2 & H1 & Hc & H2). exists s1, s2, e, encoded, items. split_and!; try done; [chain | lia | lia]. }
  destruct rw as [[] | [msg |]]; [| | | done]; cbn in Ew; intros [= <- <-]; (eexists; split; [done | cbn]).
  - by apply Hdone.
  - chain.
  - destruct Ew as [Ew | Ew]; [left; chain | right; by apply Hdone].
Qed.

(** A token that was read decodes to the revision it was made from. *)
Lemma token_decodes t sid c : lifecycle_in call_start t sid = Some c -> lr_revision c.2 < MAX_SAFE_INTEGER ->
  decodeLifecycleRevision (encodeLifecycleRevision c.2) = Some c.2.
Proof.
  intros Hc Hb. assert (Hp := lifecycle_pointer _ _ _ _ Hc). destruct c as [o [[fid |] rev]]; cbn in Hp, Hb; [| by simplify_eq].
  destruct Hp as (Hr & r & -> & _ & Hfid). assert (Hf : isSafeVerifierSegment fid = true).
  { revert Hc. unfold lifecycle_in. destruct (_ || _); [done |].
    destruct (parseCurrentFinalizationItem _ _ _) as [p |] eqn:Ep; [| done]. cbn.
    destruct (item_in _ _ _ _) as [i |]; [| done]. cbn. destruct (Z.eqb _ _); [| done]. intros [= _ <- _].
    by apply pointer_read in Ep as (_ & _ & _ & ?). }
  unfold decodeLifecycleRevision, encodeLifecycleRevision. set (v := JObj _).
  change (negb (isNonArrayObject v) || _) with false. cbv iota.
  change (prop v "currentFinalizationId") with (JStr fid). change (prop v "revision") with (JNum (NInt rev)).
  rewrite safe_count_Z by lia. cbn [parseFinalizationId]. by rewrite Hf.
Qed.

Lemma wrote_law sid fid s0 c0 record s s' : lawful_now s0 -> lifecycle_in call_start (table s0) sid = Some c0 ->
  others s0 s -> record_ok record -> fr_sessionId record = sid -> fr_finalizationId record = fid ->
  wrote sid fid c0.2 record s s' ->
  exists s1 s2, others s s1 /\
    dynamo_cell s1 sid = Some (mkLifecycle c0.1 (encodeLifecycleRevision c0.2)) /\
    dynamo_cell s2 sid = Some (mkLifecycle (Some record)
      (encodeLifecycleRevision (mkRevision (Some fid) (lr_revision c0.2 + 1)))) /\
    (forall other, other <> sid -> dynamo_cell s2 other = dynamo_cell s1 other) /\ others s2 s'.
Proof.
  intros Hs0 Hc0 Ho Hok Hs Hf (s1 & s2 & e & encoded & items & H1 & H2 & He & Hrange & Hkeys & Hcommits).
  assert (H01 : others s0 s1) by chain. assert (Hs1 := others_lawful _ _ H01 Hs0).
  assert (Hkeep := others_keep _ _ Hs0 H01). assert (Hsid : isSafeVerifierSegment sid = true) by (rewrite <- Hs; by apply ro_session).
  destruct (lt_lifecycle _ _ _ (proj2 Hs0) sid Hsid) as (c & Hc & Hb). rewrite Hc0 in Hc. injection Hc as <-.
  assert (Hw : now_seconds call_start <= now_seconds call_end)
    by (destruct Hs0 as [Hclock _]; unfold now_seconds; apply Z.div_le_mono; lia).
  assert (Hpos : 0 <= now_seconds call_start) by (assert (Hcw := call_window); unfold now_seconds; apply Z.div_pos; lia).
  assert (He' : 0 <= e <= MAX_SAFE_INTEGER) by lia. assert (Hnow : now_seconds call_start < e) by lia.
  exists s1, s2. unfold dynamo_cell. rewrite Hsid. split_and!; [done | | | | done].
  - by rewrite (conditions_lifecycle _ _ _ _ _ _ _ _ _ _ _ (proj2 Hs1) Hc0 Hkeep Hb Hsid Hcommits).
  - by rewrite (written_lifecycle _ _ _ _ _ _ _ _ _ _ _ Hc0 Hb Hok Hs Hf He He' Hnow Hcommits).
  - intros other Hne. destruct (isSafeVerifierSegment other) eqn:Eo; [| done].
    by rewrite (other_lifecycles _ _ _ _ _ _ _ _ _ Hsid Hkeys Hcommits other Eo Hne).
Qed.

Lemma revision_inj c c' : encodeLifecycleRevision c = encodeLifecycleRevision c' -> lr_revision c = lr_revision c'.
Proof. intros E. by injection E. Qed.

Lemma dynamo_revision_law sid s s' l l' : lawful_now s -> others s s' -> dynamo_cell s sid = Some l ->
  dynamo_cell s' sid = Some l' -> lc_revision l = lc_revision l' -> lc_currentRecord l = lc_currentRecord l'.
Proof.
  intros Hs Ho. unfold dynamo_cell. destruct (isSafeVerifierSegment sid) eqn:Esid; [| done].
  destruct (lifecycle_in call_start (table s) sid) as [c |] eqn:Ec; [| done].
  destruct (lifecycle_in call_start (table s') sid) as [c' |] eqn:Ec'; [| done].
  intros [= <-] [= <-] E%revision_inj. cbn. 
  destruct (keeps_lifecycle _ _ _ (others_keep _ _ Hs Ho) sid c c' Esid Ec Ec') as [-> | Hlt]; [done | lia].
Qed.

Lemma dynamo_apply_law sid fid l next s0 s r s' : lawful_now s0 -> dynamo_cell s0 sid = Some l -> others s0 s ->
  dynamo_applyFinalizationLifecycleMutation env sid fid (lc_revision l) next s = (r, s') ->
  let writes after := exists s1 s2 before, others s s1 /\ dynamo_cell s1 sid = Some before /\
    lc_revision before = lc_revision l /\ is_some (stored_form next) = true /\
    lc_currentRecord after = stored_form next /\ dynamo_cell s2 sid = Some after /\
    (forall other, other <> sid -> dynamo_cell s2 other = dynamo_cell s1 other) /\ others s2 s' in
  exists answer, r = Ok answer /\
    match answer with
    | apply_applied after => writes after
    | apply_already_applied after => exists s1, others s s1 /\ dynamo_cell s1 sid = Some after /\
        is_some (stored_form next) = true /\ lc_currentRecord after = stored_form next /\ others s1 s'
    | apply_stale after => exists s1, others s s1 /\ dynamo_cell s1 sid = Some after /\ others s1 s'
    | apply_persistence_failure _ => others s s' \/ exists after, writes after
    | _ => others s s'
    end.
Proof.
  intros Hs0 Hl Ho. assert (Hs := others_lawful _ _ Ho Hs0).
  assert (Hcell : exists c0, lifecycle_in call_start (table s0) sid = Some c0 /\
    l = mkLifecycle c0.1 (encodeLifecycleRevision c0.2) /\ isSafeVerifierSegment sid = true).
  { revert Hl. unfold dynamo_cell. destruct (isSafeVerifierSegment sid); [| done].
    destruct (lifecycle_in call_start (table s0) sid) as [c |]; [| done]. intros [= <-]. by exists c. }
  destruct Hcell as (c0 & Hc0 & -> & Hsid). destruct (lt_lifecycle _ _ _ (proj2 Hs0) sid Hsid) as (c & Hc & Hb).
  rewrite Hc0 in Hc. injection Hc as <-. cbn [lc_revision]. unfold dynamo_applyFinalizationLifecycleMutation, admitLifecycleMutation.
  rewrite (token_decodes _ _ _ Hc0 Hb). fold (stored_form next). destruct (stored_form next) as [record |] eqn:Est;
    [| intros [= <- <-]; eexists; split; [done | apply others_refl]].
  assert (Hok := admitted_ok _ _ Est). destruct (String.eqb_spec (fr_sessionId record) sid) as [Hrs |];
    [| intros [= <- <-]; eexists; split; [done | apply others_refl]].
  destruct (String.eqb_spec (fr_finalizationId record) fid) as [Hrf |];
    [| intros [= <- <-]; eexists; split; [done | apply others_refl]].
  cbn [negb orb]. unfold mbind, SM_bind. destruct (write_next env sid fid c0.2 record s) as [rw sw] eqn:Ew.
  destruct (write_next_spec _ _ _ _ _ _ _ Hs Ew) as (o & -> & Hw). destruct o as [[] | error].
  - intros [= <- <-]. eexists. split; [done |]. cbv zeta.
    destruct (wrote_law _ _ _ _ _ _ _ Hs0 Hc0 Ho Hok Hrs Hrf Hw) as (s1 & s2 & H1 & Hb1 & Ha & Hothers & H2).
    by exists s1, s2, (mkLifecycle c0.1 (encodeLifecycleRevision c0.2)).
  - cbn in Hw. assert (Hsw := others_lawful _ _ Hw Hs). destruct (dynamo_loadFinalizationLifecycle sid fid sw) as [rl sl] eqn:El.
    destruct (load_spec _ _ _ _ _ Hsw El) as (reloaded & -> & Hsl & Hr).
    destruct reloaded as [after | | error | error]; [| | |];
      [| intros [= <- <-]; eexists; (split; [done |]); cbn; first [chain | left; chain] ..].
    destruct Hr as (s1 & H1 & Hafter & H2). destruct (isDeepStrictEqual (lc_currentRecord after) (Some record)) eqn:Ed;
      intros [= <- <-]; (eexists; split; [done |]).
    + exists s1. apply bool_decide_eq_true in Ed. split_and!; try done. chain.
    + exists s1. split_and!; try done. chain.
  - intros [= <- <-]. eexists. split; [done |]. cbv zeta. destruct Hw as [Hw | Hw]; [by left | right].
    destruct (wrote_law _ _ _ _ _ _ _ Hs0 Hc0 Ho Hok Hrs Hrf Hw) as (s1 & s2 & H1 & Hb1 & Ha & Hothers & H2).
    exists (mkLifecycle (Some record) (encodeLifecycleRevision (mkRevision (Some fid) (lr_revision c0.2 + 1)))).
    by exists s1, s2, (mkLifecycle c0.1 (encodeLifecycleRevision c0.2)).
Qed.

#[export] Instance dynamo_port_laws : @LifecyclePortLaws jsval St (dynamo_lifecycle_port env).
Proof.
  refine {| lawful := lawful_now; cell := dynamo_cell; evolves := others |}.
  - apply others_refl.
  - apply others_trans.
  - apply others_lawful.
  - apply dynamo_revision_law.
  - intros sid fid s r s' Hs E. destruct (load_spec sid fid s r s' Hs E) as (answer & -> & Ho & Ha). exists answer.
    split; [done |]. by destruct answer.
  - apply dynamo_apply_law.
Defined.

(** ** Commands *)

(** C23: A command on DynamoDB is atomic although it reads two rows, writes several and
    is retried when another invocation was first: its answer is the one the policy
    gives for the lifecycle the session had at one moment of the call, a record is
    written only over the one it was computed from, and the record a command
    returns was the session's current record at one moment of the call. *)
Theorem dynamo_command_atomic command s r s' : dynamo_lawful call_start call_end s ->
  dynamo_applyFinalizationCommand env command s = (r, s') ->
  exists now coordination, call_start <= now <= call_end /\
    @coordinated _ _ _ dynamo_port_laws command (NInt now) 2 s coordination s' /\
    r = (fun record => (record, coordination)) <$> resolveCoordinatedRecord coordination /\
    forall record, resolveCoordinatedRecord coordination = Ok record ->
      exists s1 l, dynamo_cell s1 (cmd_sessionId command) = Some l /\ lc_currentRecord l = Some record /\ others s1 s'.
Proof.
  intros Hs. unfold dynamo_applyFinalizationCommand, mbind, SM_bind. cbn [date_now].
  destruct (@coordinateFinalizationTransition _ _ (dynamo_lifecycle_port env) command (NInt (clock s)) 2 s) as [rc sc] eqn:Ec.
  destruct (@coordination_spec _ _ _ dynamo_port_laws _ _ 2 _ _ _ ltac:(lia) Hs Ec) as (coordination & -> & Hc).
  intros E. assert (Er : r = (fun record => (record, coordination)) <$> resolveCoordinatedRecord coordination /\ s' = sc).
  { unfold sm_lift in E. by destruct (resolveCoordinatedRecord coordination); injection E as <- <-. }
  destruct Er as [-> ->]. exists (clock s), coordination. split; [apply Hs |]. split; [done |]. split; [done |].
  intros record Hrec. assert (Hl : exists l, answer_lifecycle coordination = Some l /\ lc_currentRecord l = Some record).
  { destruct coordination as [l | l | l | l | | l | | |]; try done; cbn in Hrec; destruct (lc_currentRecord l) as [r |] eqn:El;
      try done; injection Hrec as ->; by exists l. }
  destruct Hl as (l & Hl & Hlr). destruct (answer_held _ _ _ _ _ _ _ Hc Hl) as (s1 & Hcell & Hev). by exists s1, l.
Qed.

End calls.
