(* ===== verification/VoteCipher.v ===== *)
(** Secrets at rest: where the runtime resolves a secret from
    (packages/runtime-config/src/env: runtimeConfigReferences.ts,
    runtimeSecretPlaceholders.ts) and how the choice and the random value of a
    vote are encrypted (packages/aws-adapters/src/security/voteSecretCipher.ts).
    AES-256-GCM is node:crypto's, the class [AesGcm]; [Buffer]'s codecs are
    definitions. *)
From S2P Require Import Prelude.
From S2P Require Import Hex.
From S2P Require Import Reference.
From S2P Require Import JsNumber.
From S2P Require Import JsText.
From S2P Require Import LocalCast.
Import JsText.

(** ** Texts *)

Module Text.

(** [text.startsWith(part)] *)
Definition starts_with (part text : string) : bool := String.prefix part text.

(** [text.split(c)] *)
Fixpoint split (c : ascii) (text : string) : list string :=
  match text with
  | EmptyString => [EmptyString]
  | String d rest =>
      if Ascii.eqb d c then EmptyString :: split c rest
      else match split c rest with
           | part :: parts => String d part :: parts
           | [] => [String d EmptyString]
           end
  end.

(** The text before the first [c] and the text after it. *)
Fixpoint cut (c : ascii) (text : string) : option (string * string) :=
  match text with
  | EmptyString => None
  | String d rest =>
      if Ascii.eqb d c then Some (EmptyString, rest)
      else (fun p => (String d p.1, p.2)) <$> cut c rest
  end.

(** What is left of [text] after [part], which it starts with. *)
Definition after (part text : string) : option string :=
  if starts_with part text then Some (text_slice (String.length part) text) else None.

End Text.
Import Text.

(** ** References to the configuration of the runtime *)

Module RuntimeConfig.

Inductive RuntimeConfigReferenceName : Type :=
| SESSION_CAPABILITY_SECRET
| VOTE_SECRET_ENCRYPTION_KEY
| SESSION_CAPABILITY_TTL_SECONDS
| TURNSTILE_SECRET_KEY
| LOG_IP_HASH_SALT
| EXPECTED_ORIGIN_VERIFY_HEADER
| VITE_TURNSTILE_SITE_KEY.

Definition reference_name (name : RuntimeConfigReferenceName) : string :=
  match name with
  | SESSION_CAPABILITY_SECRET => "SESSION_CAPABILITY_SECRET"
  | VOTE_SECRET_ENCRYPTION_KEY => "VOTE_SECRET_ENCRYPTION_KEY"
  | SESSION_CAPABILITY_TTL_SECONDS => "SESSION_CAPABILITY_TTL_SECONDS"
  | TURNSTILE_SECRET_KEY => "TURNSTILE_SECRET_KEY"
  | LOG_IP_HASH_SALT => "LOG_IP_HASH_SALT"
  | EXPECTED_ORIGIN_VERIFY_HEADER => "EXPECTED_ORIGIN_VERIFY_HEADER"
  | VITE_TURNSTILE_SITE_KEY => "VITE_TURNSTILE_SITE_KEY"
  end.

Definition TARGET_RUNTIME_REFERENCE_SUFFIXES (name : RuntimeConfigReferenceName) : string :=
  match name with
  | SESSION_CAPABILITY_SECRET => "secrets/session-capability-secret"
  | VOTE_SECRET_ENCRYPTION_KEY => "secrets/vote-secret-encryption-key"
  | SESSION_CAPABILITY_TTL_SECONDS => "config/session-capability-ttl-seconds"
  | TURNSTILE_SECRET_KEY => "secrets/turnstile-secret-key"
  | LOG_IP_HASH_SALT => "secrets/log-ip-hash-salt"
  | EXPECTED_ORIGIN_VERIFY_HEADER => "secrets/expected-origin-verify-header"
  | VITE_TURNSTILE_SITE_KEY => "config/vite-turnstile-site-key"
  end.

Inductive DeploymentEnvironment : Type := develop | main.

#[export] Instance DeploymentEnvironment_eq_dec : EqDecision DeploymentEnvironment.
Proof. solve_decision. Defined.

Definition environment_name (e : DeploymentEnvironment) : string :=
  match e with develop => "develop" | main => "main" end.

(** An absent option and an empty one are not checked. *)
Record RuntimeConfigReferenceValidationOptions := mkOptions {
  ro_expectedAccountId : option string;
  ro_expectedDeploymentEnvironment : DeploymentEnvironment;
  ro_expectedRegion : option string;
}.

Record RuntimeConfigReference := mkReference {
  rr_name : RuntimeConfigReferenceName;
  rr_reference : string;
}.

(** The resolver that is installed, with the options it was installed with. *)
Record BoundRuntimeConfigReferenceResolver := mkResolver {
  br_resolve : RuntimeConfigReference -> option string;
  br_validationOptions : RuntimeConfigReferenceValidationOptions;
}.

Definition TARGET_RUNTIME_REFERENCE_IDENTITIES : list (string * DeploymentEnvironment) :=
  [("stark-dev", develop); ("stark-prod", main)]%string.

Definition UNRESOLVED_RUNTIME_SECRET_PLACEHOLDER : string := "<value will be resolved during runtime>".

Definition isUnresolvedRuntimeSecretPlaceholder (value : string) : bool :=
  String.eqb (trim value) UNRESOLVED_RUNTIME_SECRET_PLACEHOLDER.

Definition normalizeAbsolutePath (path : string) : string :=
  if starts_with "/" path then path else ("/" +:+ path)%string.

Definition is_alphanumeric (c : ascii) : bool :=
  code_between 48 57 c || code_between 65 90 c || code_between 97 122 c.

(** The regular expression is the escaped path, a dash and six characters. *)
Definition secretNameMatchesExpectedPath (secretResource expectedPath : string) : bool :=
  let secretName := normalizeAbsolutePath secretResource in
  String.eqb secretName expectedPath ||
  match after (expectedPath +:+ "-") secretName with
  | Some suffix => Z.eqb (slen suffix) 6 && string_all is_alphanumeric suffix
  | None => false
  end.

Definition expectedRuntimeConfigReferencePaths (name : RuntimeConfigReferenceName)
    (options : RuntimeConfigReferenceValidationOptions) : list string :=
  map (fun identity => ("/stark-ballot-simulator/" +:+ identity.1 +:+ "/" +:+ environment_name identity.2 +:+
                        "/app/" +:+ TARGET_RUNTIME_REFERENCE_SUFFIXES name)%string)
    (List.filter (fun identity => bool_decide (identity.2 = ro_expectedDeploymentEnvironment options))
       TARGET_RUNTIME_REFERENCE_IDENTITIES).

(** The messages name the variable; the list of the expected paths is left out. *)
Definition reference_error {A} (name : RuntimeConfigReferenceName) (message : string) : result A :=
  throw (reference_name name +:+ message)%string.

Definition assertExpectedReferencePath (name : RuntimeConfigReferenceName) (actualPath : string)
    (expectedPaths : list string) : result unit :=
  if bool_decide (actualPath ∈ expectedPaths) then Ok tt else reference_error name "_REF must reference ".

Inductive ArnService : Type := ssm | secretsmanager.

Record ReferenceArn := mkArn {
  arn_service : ArnService;
  arn_region : string;
  arn_account : string;
  arn_resource : string;
}.

Definition line_break (c : ascii) : bool := Z.eqb (char_code c) 10 || Z.eqb (char_code c) 13.

(** [/^arn:aws:(ssm|secretsmanager):([^:]+):([0-9]{12}):(.+)$/]: the groups end at
    the first colons, since neither may contain one. *)
Definition match_arn (value : string) : option ReferenceArn :=
  rest ← after "arn:aws:" value;
  service ← cut ":" rest;
  kind ← (if String.eqb service.1 "ssm" then Some ssm
          else if String.eqb service.1 "secretsmanager" then Some secretsmanager else None);
  region ← cut ":" service.2;
  account ← cut ":" region.2;
  if str_truthy region.1 && Z.eqb (slen account.1) 12 && string_all is_digit account.1 &&
     str_truthy account.2 && string_all (fun c => negb (line_break c)) account.2
  then Some (mkArn kind region.1 account.1 account.2) else None.

Definition validateRuntimeReferenceResource (name : RuntimeConfigReferenceName) (service : ArnService)
    (resource : string) (expectedPaths : list string) : result unit :=
  match service with
  | ssm =>
      match after "parameter/" resource with
      | None => reference_error name "_REF must reference an SSM parameter or Secrets Manager secret."
      | Some path => assertExpectedReferencePath name (normalizeAbsolutePath path) expectedPaths
      end
  | secretsmanager =>
      match after "secret:" resource with
      | None => reference_error name "_REF must reference an SSM parameter or Secrets Manager secret."
      | Some secretName =>
          if existsb (secretNameMatchesExpectedPath secretName) expectedPaths then Ok tt
          else reference_error name "_REF must reference "
      end
  end.

(** [expected && actual !== expected] *)
Definition differs (expected : option string) (actual : string) : bool :=
  match expected with Some e => str_truthy e && negb (String.eqb actual e) | None => false end.

Definition validateRuntimeReferenceArn (name : RuntimeConfigReferenceName) (value : string)
    (options : RuntimeConfigReferenceValidationOptions) (expectedPaths : list string) : result unit :=
  match match_arn value with
  | None => reference_error name "_REF must be an absolute SSM parameter path or approved secret/config ARN."
  | Some arn =>
      if differs (ro_expectedRegion options) (arn_region arn)
      then reference_error name "_REF region must match AWS_REGION/AWS_DEFAULT_REGION."
      else if differs (ro_expectedAccountId options) (arn_account arn)
      then reference_error name "_REF account must match AWS_ACCOUNT_ID."
      else validateRuntimeReferenceResource name (arn_service arn) (arn_resource arn) expectedPaths
  end.

Definition validateRuntimeConfigReferenceSource (name : RuntimeConfigReferenceName) (rawReference : option string)
    (options : RuntimeConfigReferenceValidationOptions) : result string :=
  match trim <$> rawReference with
  | None | Some EmptyString =>
      reference_error name "_REF must be set to an SSM parameter path or approved secret/config ARN."
  | Some value =>
      if isUnresolvedRuntimeSecretPlaceholder value
      then reference_error name "_REF must not be an unresolved runtime secret placeholder."
      else
        let lowered := to_lower value in
        if text_includes lowered "amplify" || text_includes lowered "legacy" || text_includes lowered "placeholder" ||
           starts_with "change-me" lowered
        then reference_error name "_REF must reference a target-account SSM or Secrets Manager source."
        else
          let expectedPaths := expectedRuntimeConfigReferencePaths name options in
          if starts_with "/" value then
            _ ← assertExpectedReferencePath name value expectedPaths;
            Ok value
          else
            _ ← validateRuntimeReferenceArn name value options expectedPaths;
            Ok value
  end.

Definition normalizeReference (reference : RuntimeConfigReference)
    (validationOptions : RuntimeConfigReferenceValidationOptions) : result RuntimeConfigReference :=
  if negb (str_truthy (trim (rr_reference reference)))
  then reference_error (rr_name reference) "_REF must be set before resolving "
  else
    value ← validateRuntimeConfigReferenceSource (rr_name reference) (Some (rr_reference reference)) validationOptions;
    Ok (mkReference (rr_name reference) value).

Definition resolveRuntimeConfigReference (activeResolver : option BoundRuntimeConfigReferenceResolver)
    (reference : RuntimeConfigReference) : result string :=
  match activeResolver with
  | None => reference_error (rr_name reference) "_REF is configured but no target runtime resolver returned a value."
  | Some active =>
      normalized ← normalizeReference reference (br_validationOptions active);
      match trim <$> br_resolve active normalized with
      | None | Some EmptyString =>
          reference_error (rr_name normalized) "_REF is configured but no target runtime resolver returned a value."
      | Some resolved =>
          if String.eqb resolved (rr_reference normalized) || isUnresolvedRuntimeSecretPlaceholder resolved
          then reference_error (rr_name normalized) "_REF resolved to an unresolved or invalid value."
          else Ok resolved
      end
  end.

End RuntimeConfig.
Import RuntimeConfig.

Module VoteCipher.

(** ** Buffers *)

(** [Buffer.from(text, 'hex')] of hexadecimal text: a digit without its pair is
    dropped. *)
Fixpoint buffer_of_hex (text : string) : bytes :=
  match text with
  | String c (String d rest) =>
      match Reference.digit_value c, Reference.digit_value d with
      | Some x, Some y => x * 16 + y :: buffer_of_hex rest
      | _, _ => []
      end
  | _ => []
  end.

(** [buffer.toString('hex')] *)
Definition buffer_hex (b : bytes) : string := Reference.encode b.

(** [Buffer.from(text, 'utf8')] and [buffer.toString('utf8')] on ASCII text *)
Definition utf8_bytes (text : string) : bytes := map char_code (String.list_ascii_of_string text).
Definition utf8_text (b : bytes) : string := String.string_of_list_ascii (map (fun z => ascii_of_N (Z.to_N z)) b).

Definition base64_value (c : ascii) : option Z :=
  let v := char_code c in
  if code_between 65 90 c then Some (v - 65)
  else if code_between 97 122 c then Some (v - 71)
  else if code_between 48 57 c then Some (v + 4)
  else if Ascii.eqb c "+" then Some 62
  else if Ascii.eqb c "/" then Some 63
  else None.

(** The regular expression reads groups of four characters; the last one may end
    in one or two [=]. *)
Fixpoint isBase64 (value : string) : bool :=
  match value with
  | EmptyString => true
  | String a (String b (String c (String d rest))) =>
      is_some (base64_value a) && is_some (base64_value b) &&
      ((is_some (base64_value c) && is_some (base64_value d) && isBase64 rest) ||
       (match rest with EmptyString => true | _ => false end && Ascii.eqb d "=" &&
        (Ascii.eqb c "=" || is_some (base64_value c))))
  | _ => false
  end.

(** [Buffer.from(text, 'base64')] of text that [isBase64] accepts *)
Fixpoint buffer_of_base64 (text : string) : bytes :=
  match text with
  | String a (String b (String c (String d rest))) =>
      match base64_value a, base64_value b with
      | Some x, Some y =>
          x * 4 + y / 16 ::
          match base64_value c with
          | None => []
          | Some z =>
              (y mod 16) * 16 + z / 4 ::
              match base64_value d with
              | None => []
              | Some w => (z mod 4) * 64 + w :: buffer_of_base64 rest
              end
          end
      | _, _ => []
      end
  | _ => []
  end.

(** ** Keys *)

Definition CIPHER_PREFIX : string := "enc:v1".
Definition IV_BYTES : Z := 12.
Definition AUTH_TAG_BYTES : Z := 16.
Definition TEST_FALLBACK_VOTE_SECRET_KEY_HEX : string :=
  "0123456789abcdef0123456789abcdef0123456789abcdef0123456789abcdef".

Definition isHex64 (value : string) : bool := Z.eqb (slen value) 64 && string_all is_hex value.

Definition parseVoteSecretKey (raw : option string) : option bytes :=
  match raw with
  | None | Some EmptyString => None
  | Some raw =>
      let normalized := trim raw in
      if Z.eqb (slen normalized) 0 then None
      else if isHex64 normalized then Some (buffer_of_hex normalized)
      else if negb (isBase64 normalized) then None
      else
        let decoded := buffer_of_base64 normalized in
        if negb (Z.eqb (zlength decoded) 32) then None else Some decoded
  end.

Definition parseAllowedVoteSecretKey (raw : option string) : option bytes :=
  match parseVoteSecretKey raw with
  | None => None
  | Some parsed =>
      if bool_decide (parsed = buffer_of_hex TEST_FALLBACK_VOTE_SECRET_KEY_HEX) then None else Some parsed
  end.

Definition assertNoRawVoteSecretAlongsideReference (rawValue : option string) : result unit :=
  match trim <$> rawValue with
  | None | Some EmptyString => Ok tt
  | Some _ => throw "VOTE_SECRET_ENCRYPTION_KEY must not be set directly when VOTE_SECRET_ENCRYPTION_KEY_REF is configured."
  end.

Section resolve.
(** [process.env] and the installed resolver. *)
Variable env : string -> option string.
Variable activeResolver : option BoundRuntimeConfigReferenceResolver.

Definition resolveVoteSecretKey : result bytes :=
  match trim <$> env "VOTE_SECRET_ENCRYPTION_KEY_REF" with
  | Some (String _ _ as voteSecretRef) =>
      _ ← assertNoRawVoteSecretAlongsideReference (env "VOTE_SECRET_ENCRYPTION_KEY");
      resolved ← resolveRuntimeConfigReference activeResolver (mkReference VOTE_SECRET_ENCRYPTION_KEY voteSecretRef);
      match parseAllowedVoteSecretKey (Some resolved) with
      | None => throw "VOTE_SECRET_ENCRYPTION_KEY must resolve to a valid 32-byte key."
      | Some resolvedParsed => Ok resolvedParsed
      end
  | _ =>
      match parseAllowedVoteSecretKey (env "VOTE_SECRET_ENCRYPTION_KEY") with
      | Some parsed => Ok parsed
      | None =>
          if bool_decide (env "NODE_ENV"%string = Some "test"%string)
          then Ok (buffer_of_hex TEST_FALLBACK_VOTE_SECRET_KEY_HEX)
          else throw "VOTE_SECRET_ENCRYPTION_KEY must be set to a valid 32-byte key (hex or base64)."
      end
  end.

(** ** The frame *)

Record CipherPayload := mkPayload {
  cp_iv : bytes;
  cp_tag : bytes;
  cp_ciphertext : bytes;
}.

Definition hasCipherFrame (parts : list string) : bool :=
  match parts with
  | [p0; p1; _; _; _] => String.eqb p0 "enc" && String.eqb p1 "v1"
  | _ => false
  end.

Definition hasHexCipherFields (iv tag ciphertext : string) : bool :=
  str_truthy iv && string_all is_hex iv && str_truthy tag && string_all is_hex tag && string_all is_hex ciphertext.

Definition parseCipherPayload (value : string) : option CipherPayload :=
  let parts := split ":" value in
  if negb (hasCipherFrame parts) then None
  else
    match parts with
    | [_; _; iv; tag; ciphertext] =>
        if negb (hasHexCipherFields iv tag ciphertext) then None
        else
          let ivBuffer := buffer_of_hex iv in
          let tagBuffer := buffer_of_hex tag in
          let ciphertextBuffer := buffer_of_hex ciphertext in
          if negb (Z.eqb (zlength ivBuffer) IV_BYTES) || negb (Z.eqb (zlength tagBuffer) AUTH_TAG_BYTES) then None
          else Some (mkPayload ivBuffer tagBuffer ciphertextBuffer)
    | _ => None
    end.

Definition isEncryptedVoteSecret (value : string) : bool := starts_with (CIPHER_PREFIX +:+ ":") value.

(** ** AES-256-GCM *)

(** [seal key iv plaintext] is the ciphertext and its tag; [open] throws where the
    tag is not the one of the ciphertext. *)
Class AesGcm := {
  seal : bytes -> bytes -> bytes -> bytes * bytes;
  open : bytes -> bytes -> bytes -> bytes -> option bytes;
}.

(** What the standard promises of a 32-byte key and a 12-byte nonce. *)
Class AesGcmLaws `{AesGcm} := {
  seal_bytes key iv plaintext : is_bytes plaintext -> is_bytes (seal key iv plaintext).1;
  seal_tag key iv plaintext : is_bytes (seal key iv plaintext).2 /\ length (seal key iv plaintext).2 = 16%nat;
  open_seal key iv plaintext : length key = 32%nat -> length iv = 12%nat -> is_bytes plaintext ->
    open key iv (seal key iv plaintext).2 (seal key iv plaintext).1 = Some plaintext;
}.

Section cipher.
Context `{AesGcm}.

(** [iv] is [randomBytes(12)]. *)
Definition encryptVoteSecret (iv : bytes) (plaintext : string) : result string :=
  key ← resolveVoteSecretKey;
  let sealed := seal key iv (utf8_bytes plaintext) in
  Ok (CIPHER_PREFIX +:+ ":" +:+ buffer_hex iv +:+ ":" +:+ buffer_hex sealed.2 +:+ ":" +:+ buffer_hex sealed.1)%string.

Definition decryptVoteSecret (value : string) : result string :=
  if negb (isEncryptedVoteSecret value) then throw "Encrypted vote secret payload is required."
  else
    match parseCipherPayload value with
    | None => throw "Invalid encrypted vote secret payload."
    | Some parsed =>
        key ← resolveVoteSecretKey;
        match open key (cp_iv parsed) (cp_tag parsed) (cp_ciphertext parsed) with
        | None => throw "Unsupported state or unable to authenticate data"
        | Some plaintext => Ok (utf8_text plaintext)
        end
    end.

End cipher.
End resolve.
End VoteCipher.

(** * What the secrets promise: a reference leads only to the deployment's own
    sources, a key has 32 bytes, and what was encrypted is decrypted. *)
Import VoteCipher.

(** ** References *)

(** The resource of a reference that leads to one of [paths]. *)
Inductive leads_to (paths : list string) (options : RuntimeConfigReferenceValidationOptions) : string -> Prop :=
| to_path path : path ∈ paths -> leads_to paths options path
| to_arn value arn : match_arn value = Some arn ->
    differs (ro_expectedRegion options) (arn_region arn) = false ->
    differs (ro_expectedAccountId options) (arn_account arn) = false ->
    match arn_service arn with
    | ssm => exists path, after "parameter/" (arn_resource arn) = Some path /\ normalizeAbsolutePath path ∈ paths
    | secretsmanager => exists secret path, after "secret:" (arn_resource arn) = Some secret /\ path ∈ paths /\
        secretNameMatchesExpectedPath secret path = true
    end -> leads_to paths options value.

Lemma assert_path name path paths u : assertExpectedReferencePath name path paths = Ok u -> path ∈ paths.
Proof. unfold assertExpectedReferencePath. by destruct (bool_decide_reflect (path ∈ paths)). Qed.

Lemma validate_arn name value options paths u : validateRuntimeReferenceArn name value options paths = Ok u ->
  leads_to paths options value.
Proof.
  unfold validateRuntimeReferenceArn. destruct (match_arn value) as [arn |] eqn:Ea; [| done].
  destruct (differs _ (arn_region arn)) eqn:Er; [done |]. destruct (differs _ (arn_account arn)) eqn:Ec; [done |].
  intros Hv. eapply to_arn; [done .. |]. unfold validateRuntimeReferenceResource in Hv. destruct (arn_service arn).
  - destruct (after _ _) as [path |]; [| done]. apply assert_path in Hv. by exists path.
  - destruct (after _ _) as [secret |]; [| done]. destruct (existsb _ paths) eqn:Ex; [| done].
    apply existsb_exists in Ex as (path & Hp & Hm). exists secret, path. by rewrite list_elem_of_In.
Qed.

Lemma validate_source name raw options value : validateRuntimeConfigReferenceSource name raw options = Ok value ->
  leads_to (expectedRuntimeConfigReferencePaths name options) options value /\
  isUnresolvedRuntimeSecretPlaceholder value = false.
Proof.
  unfold validateRuntimeConfigReferenceSource. destruct (trim <$> raw) as [[| c text] |]; [done | | done].
  destruct (isUnresolvedRuntimeSecretPlaceholder (String c text)) eqn:Ep; [done |]. destruct (_ || _); [done |].
  destruct (starts_with "/" _); intros E; bind_inv; injection E as <-; (split; [| done]).
  - apply to_path. by eapply assert_path.
  - by eapply validate_arn.
Qed.

(** Two deployments share no path. *)
Lemma deployment_paths name e1 e2 a1 a2 r1 r2 path : e1 <> e2 ->
  path ∈ expectedRuntimeConfigReferencePaths name (mkOptions a1 e1 r1) ->
  path ∉ expectedRuntimeConfigReferencePaths name (mkOptions a2 e2 r2).
Proof.
  destruct e1, e2; try done; intros _; cbn; intros ->%list_elem_of_singleton Hin%list_elem_of_singleton; by destruct name.
Qed.

(** ** Keys *)

Lemma buffer_of_hex_decode text : string_all is_hex text = true -> Nat.even (String.length text) = true ->
  Reference.decode text = Some (buffer_of_hex text).
Proof.
  induction text as [| c | c d s IH] using Reference.string_pair_ind; cbn; [done | done |].
  rewrite !andb_true_iff. intros (Hc & Hd & Hs) Hev. assert (Sc := Reference.digit_value_spec c).
  assert (Sd := Reference.digit_value_spec d). destruct (Reference.digit_value c); [| congruence].
  destruct (Reference.digit_value d); [| congruence]. by rewrite IH.
Qed.

Lemma parsed_key raw key : parseVoteSecretKey raw = Some key -> length key = 32%nat.
Proof.
  unfold parseVoteSecretKey. destruct raw as [[| c text] |]; [done | | done]. set (s := trim _).
  destruct (Z.eqb (slen s) 0); [done |]. destruct (isHex64 s) eqn:Eh.
  - intros [= <-]. unfold isHex64 in Eh. bool_prop. unfold slen in *.
    assert (Hl : String.length s = 64%nat) by lia. assert (Hd : Reference.decode s = Some (buffer_of_hex s)) by (apply buffer_of_hex_decode; [done | by rewrite Hl]).
    apply Reference.encode_decode in Hd as [_ He]. apply (f_equal String.length) in He.
    rewrite Reference.encode_length in He. unfold to_lower in He. rewrite string_map_length, Hl in He. lia.
  - destruct (isBase64 s); [| done]. cbn [negb]. destruct (Z.eqb_spec (zlength (buffer_of_base64 s)) 32) as [El |]; [| done].
    intros [= <-]. unfold zlength in El. lia.
Qed.

Lemma allowed_key raw key : parseAllowedVoteSecretKey raw = Some key ->
  length key = 32%nat /\ key <> buffer_of_hex TEST_FALLBACK_VOTE_SECRET_KEY_HEX.
Proof.
  unfold parseAllowedVoteSecretKey. destruct (parseVoteSecretKey raw) as [parsed |] eqn:Ep; [| done].
  destruct (bool_decide_reflect (parsed = buffer_of_hex TEST_FALLBACK_VOTE_SECRET_KEY_HEX)) as [| Hne]; [done |].
  intros [= <-]. split; [by eapply parsed_key | done].
Qed.

Lemma resolved_key env active key : resolveVoteSecretKey env active = Ok key -> length key = 32%nat /\
  (key = buffer_of_hex TEST_FALLBACK_VOTE_SECRET_KEY_HEX -> env "NODE_ENV"%string = Some "test"%string).
Proof.
  unfold resolveVoteSecretKey. intros E.
  assert (Hplain : match parseAllowedVoteSecretKey (env "VOTE_SECRET_ENCRYPTION_KEY"%string) with
      | Some parsed => Ok parsed
      | None =>
          if bool_decide (env "NODE_ENV"%string = Some "test"%string)
          then Ok (buffer_of_hex TEST_FALLBACK_VOTE_SECRET_KEY_HEX)
          else throw "VOTE_SECRET_ENCRYPTION_KEY must be set to a valid 32-byte key (hex or base64)."
      end = Ok key -> length key = 32%nat /\
      (key = buffer_of_hex TEST_FALLBACK_VOTE_SECRET_KEY_HEX -> env "NODE_ENV"%string = Some "test"%string)).
  { clear E. destruct (parseAllowedVoteSecretKey _) as [parsed |] eqn:Ep.
    - intros [= <-]. apply allowed_key in Ep as [Hl Hne]. done.
    - destruct (bool_decide_reflect (env "NODE_ENV"%string = Some "test"%string)) as [Ht |]; [by intros [= <-] | done]. }
  destruct (trim <$> env "VOTE_SECRET_ENCRYPTION_KEY_REF"%string) as [[| c text] |]; [by apply Hplain | | by apply Hplain].
  bind_inv. destruct (parseAllowedVoteSecretKey _) as [parsed |] eqn:Ep; [| done]. injection E as <-.
  apply allowed_key in Ep as [Hl Hne]. done.
Qed.

(** A configured reference is the only source of the key, and leads to the
    deployment's own secret. *)
Lemma referenced_key env active key c text : resolveVoteSecretKey env active = Ok key ->
  trim <$> env "VOTE_SECRET_ENCRYPTION_KEY_REF"%string = Some (String c text) -> exists resolver value resolved,
    active = Some resolver /\
    leads_to (expectedRuntimeConfigReferencePaths VOTE_SECRET_ENCRYPTION_KEY (br_validationOptions resolver))
      (br_validationOptions resolver) value /\
    br_resolve resolver (mkReference VOTE_SECRET_ENCRYPTION_KEY value) = Some resolved /\
    parseAllowedVoteSecretKey (Some (trim resolved)) = Some key.
Proof.
  unfold resolveVoteSecretKey. intros E Href. rewrite Href in E. bind_inv.
  match goal with Hp : resolveRuntimeConfigReference _ _ = Ok ?t |- _ => rename Hp into Hr, t into answer end.
  destruct (parseAllowedVoteSecretKey (Some answer)) as [parsed |] eqn:Ep; [| done]. injection E as ->.
  unfold resolveRuntimeConfigReference in Hr. destruct active as [resolver |]; [| done].
  apply bind_Ok in Hr as (normalized & Hn & Hr).
  assert (Hsource : exists value, normalized = mkReference VOTE_SECRET_ENCRYPTION_KEY value /\
    leads_to (expectedRuntimeConfigReferencePaths VOTE_SECRET_ENCRYPTION_KEY (br_validationOptions resolver))
      (br_validationOptions resolver) value).
  { unfold normalizeReference in Hn. destruct (str_truthy _); [| done]. cbn [negb] in Hn.
    apply bind_Ok in Hn as (value & Hv & [= <-]). exists value. split; [done |]. by apply validate_source in Hv as [Hv _]. }
  destruct Hsource as (value & -> & Hsource). destruct (br_resolve resolver _) as [resolved |] eqn:Eb; [| done].
  cbn [fmap option_fmap option_map] in Hr. exists resolver, value, resolved. split_and!; [done | done | done |].
  destruct (trim resolved) as [| d rest]; [done |]. destruct (_ || _); [done |]. by injection Hr as ->.
Qed.

(** ** The frame of a secret *)

Lemma buffer_of_hex_encode b : is_bytes b -> buffer_of_hex (buffer_hex b) = b.
Proof.
  intros Hb. assert (He := Reference.encode_lower b Hb).
  assert (Hd := buffer_of_hex_decode (buffer_hex b)). unfold buffer_hex in *. rewrite Reference.decode_encode in Hd by done.
  assert (Some b = Some (buffer_of_hex (Reference.encode b))) as [= <-]; [apply Hd | done].
  - eapply string_all_impl; [apply is_lower_hex_is_hex | done].
  - rewrite Reference.encode_length. apply Nat.even_mul.
Qed.

Lemma encode_hex b : is_bytes b -> string_all is_hex (buffer_hex b) = true.
Proof. intros Hb. eapply string_all_impl; [apply is_lower_hex_is_hex | by apply Reference.encode_lower]. Qed.

Lemma split_no_colon text : string_all is_hex text = true -> split ":" text = [text].
Proof.
  induction text as [| c text IH]; [done |]. cbn. rewrite andb_true_iff. intros [Hc Ht]. rewrite IH by done.
  destruct (Ascii.eqb_spec c ":") as [-> |]; [done | done].
Qed.

Lemma split_field c text rest : string_all is_hex text = true -> is_hex c = false ->
  split c (text +:+ String c rest) = text :: split c rest.
Proof.
  intros Ht Hc. induction text as [| d text IH]; [change ("" +:+ ?s)%string with s; cbn [split]; by rewrite Ascii.eqb_refl |].
  cbn in Ht. apply andb_true_iff in Ht as [Hd Ht].
  change (String d text +:+ String c rest)%string with (String d (text +:+ String c rest)). cbn [split].
  destruct (Ascii.eqb_spec d c) as [-> |]; [congruence |]. by rewrite IH.
Qed.

Lemma prefix_append part rest : String.prefix part (part +:+ rest) = true.
Proof.
  induction part as [| c part IH]; [by destruct rest |].
  change (String c part +:+ rest)%string with (String c (part +:+ rest)). cbn. rewrite IH. by destruct (ascii_dec c c).
Qed.

Lemma code_char c : ascii_of_N (Z.to_N (char_code c)) = c.
Proof. unfold char_code. rewrite N2Z.id. apply ascii_N_embedding. Qed.

Lemma utf8_again text : utf8_text (utf8_bytes text) = text.
Proof.
  unfold utf8_text, utf8_bytes. rewrite map_map, (map_ext _ id); [| apply code_char].
  rewrite map_id. apply String.string_of_list_ascii_of_string.
Qed.

Lemma utf8_is_bytes text : is_bytes (utf8_bytes text).
Proof.
  unfold utf8_bytes, is_bytes. induction (String.list_ascii_of_string text) as [| c l IH]; [constructor |]. cbn.
  constructor; [| done]. unfold is_byte, char_code. assert (N_of_ascii c < 256)%N by apply N_ascii_bounded. lia.
Qed.

Section laws.
Context `{AesGcmLaws}.
Variables (env : string -> option string) (active : option BoundRuntimeConfigReferenceResolver).

(** The text of a payload. *)
Definition frame (iv tag ciphertext : bytes) : string :=
  (CIPHER_PREFIX +:+ ":" +:+ buffer_hex iv +:+ ":" +:+ buffer_hex tag +:+ ":" +:+ buffer_hex ciphertext)%string.

Lemma frame_parsed iv tag ciphertext : is_bytes iv -> is_bytes tag -> is_bytes ciphertext ->
  length iv = 12%nat -> length tag = 16%nat ->
  isEncryptedVoteSecret (frame iv tag ciphertext) = true /\
  parseCipherPayload (frame iv tag ciphertext) = Some (mkPayload iv tag ciphertext).
Proof.
  intros Hiv Htag Hct Liv Ltag. split; [apply (prefix_append "enc:v1:") |]. unfold parseCipherPayload, frame, CIPHER_PREFIX.
  assert (Hsplit : split ":" ("enc:v1" +:+ ":" +:+ buffer_hex iv +:+ ":" +:+ buffer_hex tag +:+ ":" +:+ buffer_hex ciphertext)
      = ["enc"; "v1"; buffer_hex iv; buffer_hex tag; buffer_hex ciphertext]%string).
  { change ("enc:v1" +:+ ":" +:+ ?rest)%string with (String "e" (String "n" (String "c" (String ":" (String "v" (String "1" (String ":" rest))))))).
    cbn [split Ascii.eqb Bool.eqb andb]. change (":" +:+ ?rest)%string with (String ":" rest).
    rewrite split_field by (done || by apply encode_hex). change (":" +:+ ?rest)%string with (String ":" rest).
    rewrite split_field by (done || by apply encode_hex). by rewrite split_no_colon by (by apply encode_hex). }
  rewrite Hsplit. cbn [hasCipherFrame negb]. rewrite !String.eqb_refl. cbn [andb negb]. unfold hasHexCipherFields.
  assert (Ht : forall b, is_bytes b -> length b <> 0%nat -> str_truthy (buffer_hex b) = true).
  { intros b _ Hl. destruct b; [done |]. done. }
  rewrite !Ht by (done || lia). rewrite !encode_hex by done. cbn [andb negb].
  rewrite !buffer_of_hex_encode by done. unfold zlength. rewrite Liv, Ltag. done.
Qed.

Lemma decrypt_encrypt iv text secret : is_bytes iv -> length iv = 12%nat ->
  encryptVoteSecret env active iv text = Ok secret -> decryptVoteSecret env active secret = Ok text.
Proof.
  intros Hiv Liv. unfold encryptVoteSecret. intros E. bind_inv. injection E as <-. rename x into key.
  destruct (resolved_key env active key) as [Hkey _]; [done |].
  destruct (seal_tag key iv (utf8_bytes text)) as [Htag Ltag].
  destruct (frame_parsed iv (seal key iv (utf8_bytes text)).2 (seal key iv (utf8_bytes text)).1) as [He Hp]; try done.
  { apply seal_bytes, utf8_is_bytes. }
  unfold decryptVoteSecret. unfold frame in He, Hp. rewrite He, Hp. cbn [negb cp_iv cp_tag cp_ciphertext].
  match goal with Hk : resolveVoteSecretKey env active = Ok key |- _ => rewrite Hk end. cbn.
  rewrite open_seal by (done || apply utf8_is_bytes). by rewrite utf8_again.
Qed.

(** The secrets of a vote are stored only in a form that the same deployment
    can open: an encrypted secret is in the frame of the cipher and is decrypted to
    its text; its key has 32 bytes; outside of the tests the key is never the one
    that the sources publish; and where a reference to the key is configured, the
    key is what the installed resolver has at the path of this secret in this
    deployment, in the expected region and account. *)
Theorem vote_secrets_protected iv text secret : is_bytes iv -> length iv = 12%nat ->
  encryptVoteSecret env active iv text = Ok secret ->
  isEncryptedVoteSecret secret = true /\ decryptVoteSecret env active secret = Ok text /\
  exists key, resolveVoteSecretKey env active = Ok key /\ length key = 32%nat /\
    (env "NODE_ENV"%string <> Some "test"%string -> key <> buffer_of_hex TEST_FALLBACK_VOTE_SECRET_KEY_HEX) /\
    forall c reference, trim <$> env "VOTE_SECRET_ENCRYPTION_KEY_REF"%string = Some (String c reference) ->
      exists resolver value resolved, active = Some resolver /\
        leads_to (expectedRuntimeConfigReferencePaths VOTE_SECRET_ENCRYPTION_KEY (br_validationOptions resolver))
          (br_validationOptions resolver) value /\
        br_resolve resolver (mkReference VOTE_SECRET_ENCRYPTION_KEY value) = Some resolved /\
        parseAllowedVoteSecretKey (Some (trim resolved)) = Some key.
Proof.
  intros Hiv Liv E. split_and!; [| by eapply decrypt_encrypt |]; unfold encryptVoteSecret in E; bind_inv; rename x into key.
  - injection E as <-. apply (prefix_append "enc:v1:").
  - match goal with Hk : resolveVoteSecretKey env active = Ok key |- _ => rename Hk into Hkey end.
    destruct (resolved_key _ _ _ Hkey) as [Hl Ht]. exists key. split_and!; [done | done | by intros Hne Heq; apply Hne, Ht |].
    intros c reference Href. by eapply referenced_key.
Qed.

Lemma decrypt_opens secret text : decryptVoteSecret env active secret = Ok text ->
  exists key payload plaintext, resolveVoteSecretKey env active = Ok key /\ parseCipherPayload secret = Some payload /\
    open key (cp_iv payload) (cp_tag payload) (cp_ciphertext payload) = Some plaintext /\ text = utf8_text plaintext.
Proof.
  unfold decryptVoteSecret. destruct (isEncryptedVoteSecret secret); [| done]. cbn [negb].
  destruct (parseCipherPayload secret) as [payload |] eqn:Ep; [| done]. intros E. bind_inv.
  destruct (open _ _ _ _) as [plaintext |] eqn:Eo; [| done]. injection E as <-.
  do 3 eexists. split_and!; [done | done | exact Eo | done].
Qed.

End laws.
