(* ===== verification/Bundle.v ===== *)
(** What the prover's receipt becomes (packages/verification/src/verification/
    receipt-normalizer.ts), and the files of a verification bundle
    (verification-bundle.ts). *)
From S2P Require Import Prelude.
From S2P Require Import Hex.
From S2P Require Import JsNumber.
From S2P Require Import JsValue.
From S2P Require Import Contract.
From S2P Require Import LocalCast.
From S2P Require Import Evidence.
From S2P Require Import Verifiers.
From S2P Require Import FailClosed.
From S2P Require Import Journal.
From S2P Require Import HostIo.
From S2P Require Import HostIoProofs.
From S2P Require Import PublicInput.
From S2P Require Import PublicBundle.
From S2P Require Import AuditConsistency.
From S2P Require Import FinStorage.
From S2P Require Import FinStorageProofs.
From S2P Require Import Coordinator.
From S2P Require Import JsText.
From S2P Require Import VoteCipher.
Import JsValue.
Import Contract.
Import Evidence.
Import LocalCast.
Import Journal.
Import FinStorage.
Import Coordinator.
Import JsonText.
Import VoteCipher.
#[global] Open Scope Z_scope.

Module Receipt.

Record ZkVMExecutionReceipt := mkExecutionReceipt {
  xr_imageId : option string;
  xr_payload : jsval;
  xr_raw : jsval;
}.

Record NormalizedExecutionReceipt := mkNormalized {
  nr_receipt : ReceiptWithImageId;
  nr_rawPayload : jsval;
}.

Record ReceiptFormat := mkFormat {
  rf_sealBase64 : string;
  rf_journalBase64 : option string;
  rf_receiptKind : option string;
}.

Definition is_array (v : jsval) : bool := match v with JArr _ => true | _ => false end.

Definition admitReceiptPayload (payload : jsval) : result jsval :=
  if negb (isNonNullObject payload) || is_array payload then throw "Receipt payload must be an object" else Ok payload.

Definition readExecutionPayload (value : jsval) : result jsval :=
  if negb (isNonNullObject value) then throw "zkVM execution did not return a modern receipt payload" else Ok value.

Definition isFakeReceiptPayload (payload : jsval) : bool :=
  let inner := prop payload "inner" in isNonNullObject inner && hasOwn inner "Fake".

(** ** Bytes *)

Definition receipt_byte (value : jsval) : result Z :=
  match value with
  | JNum n =>
      if negb (isFinite n) then throw "Receipt bytes contain non-numeric value"
      else if num_ltb n (NInt 0) || num_ltb (NInt 255) n || negb (isInteger n)
      then throw "Receipt bytes must be integers between 0 and 255"
      else Ok (num_Z n)
  | _ => throw "Receipt bytes contain non-numeric value"
  end.

Definition encodeBytesToBase64 (values : list jsval) : result string :=
  bytes ← map_result receipt_byte values; Ok (base64_text bytes).

Definition receipt_word (value : num) : result bytes :=
  if negb (isFinite value) then throw "Receipt seal contains non-numeric value"
  else if negb (isInteger value) || num_ltb value (NInt 0) || num_ltb (NInt 4294967295) value
  then throw "Receipt seal words must be integers between 0 and 4294967295"
  else Ok (little_endian 4 (num_Z value)).

(** The top of the stack is the head of [stack]; [result] is in the order of the
    pushes. *)
Fixpoint flatten_loop (fuel : nat) (stack : list jsval) (result : list num) : Prelude.result (list num) :=
  match stack with
  | [] => Ok (rev result)
  | value :: stack =>
      match fuel with
      | O => Err OutOfFuel
      | S fuel =>
          match value with
          | JArr items => flatten_loop fuel (rev items ++ stack) result
          | JNum n => flatten_loop fuel stack (result ++ [n])
          | _ => throw "Receipt seal contains unsupported value"
          end
      end
  end.

(** The number of values in a value, an array with its elements. *)
Fixpoint weight (value : jsval) : nat :=
  match value with JArr items => S (list_sum (map weight items)) | _ => 1 end.

Definition flattenNumericArray (source : list jsval) : result (list num) :=
  flatten_loop (list_sum (map weight source)) (rev source) [].

Definition encodeSealWordsToBase64 (values : list jsval) : result string :=
  flattened ← flattenNumericArray values;
  words ← map_result receipt_word flattened;
  Ok (base64_text (concat words)).

(** ** The formats of a seal *)

Definition extractSealBase64 (sealValue : jsval) : result (option string) :=
  if negb (truthy_value sealValue) then Ok None
  else
    match sealValue with
    | JStr s => Ok (Some s)
    | JArr values => text ← encodeBytesToBase64 values; Ok (Some text)
    | _ => Ok None
    end.

(** [Buffer.from(JSON.stringify(value)).toString('base64')] of an object *)
Definition json_base64 (value : jsval) : string := base64_text (utf8_bytes (default "" (json_text value))).

Definition extractJournalBase64 (journalValue : jsval) : result (option string) :=
  if negb (truthy_value journalValue) then Ok None
  else
    match journalValue with
    | JStr s => Ok (Some s)
    | JArr _ | JBytes _ | JObj _ =>
        match prop journalValue "bytes" with
        | JArr values => text ← encodeBytesToBase64 values; Ok (Some text)
        | _ => Ok (Some (json_base64 journalValue))
        end
    | _ => Ok None
    end.

Definition firstReceiptString (record : jsval) (first second : string) : option string :=
  match getStringProperty record first with Some s => Some s | None => getStringProperty record second end.

(** [a ?? b] *)
Definition coalesce (a b : jsval) : jsval := match a with JUndefined | JNull => b | _ => a end.

Definition extractModernProof (payload : jsval) : option ReceiptFormat :=
  let modern := coalesce (prop payload "modernReceipt") (prop payload "modern_receipt") in
  if negb (isNonNullObject modern) then None
  else
    match nonempty (firstReceiptString modern "seal" "seal_base64") with
    | None => None
    | Some seal =>
        Some (mkFormat seal (firstReceiptString modern "journal" "journal_base64") (getStringProperty modern "kind"))
    end.

Definition extractCompositeJournal (payload : jsval) : result (option string) :=
  match prop (prop payload "journal") "bytes" with
  | JArr values => text ← encodeBytesToBase64 values; Ok (Some text)
  | _ => Ok None
  end.

(** Reading a property of [undefined] or [null] throws. *)
Definition extractCompositeProof (payload : jsval) : result (option ReceiptFormat) :=
  let composite := prop (prop payload "inner") "Composite" in
  if negb (isNonNullObject composite) then Ok None
  else
    match prop composite "segments" with
    | JArr (segment :: _) =>
        match segment with
        | JUndefined | JNull => throw "Cannot read properties of the first segment"
        | _ =>
            match prop segment "seal" with
            | JArr sealValues =>
                sealBase64 ← encodeSealWordsToBase64 sealValues;
                journalBase64 ← extractCompositeJournal payload;
                Ok (Some (mkFormat sealBase64 journalBase64 (Some "composite"%string)))
            | _ => Ok None
            end
        end
    | _ => Ok None
    end.

(** ** Normalization *)

(** [a ?? b] of optional texts *)
Definition or_else (a b : option string) : option string := match a with Some _ => a | None => b end.

Definition DEV_MODE_SEAL : string := base64_text (utf8_bytes "dev-mode-fake-receipt").

Definition resolveNormalizedSeal (payload : jsval) (modern composite : option ReceiptFormat) (isFakeReceipt : bool) :
    result (option string) :=
  direct ← extractSealBase64 (prop payload "seal");
  let seal := or_else (or_else direct (rf_sealBase64 <$> modern)) (rf_sealBase64 <$> composite) in
  Ok (if negb (is_some (nonempty seal)) && isFakeReceipt then Some DEV_MODE_SEAL else seal).

Definition fakeJournalBase64 (payload : jsval) : string :=
  json_base64 (if isNonNullObject (prop payload "journal") then prop payload "journal"
               else JObj [("fake"%string, JBool true)]).

Definition resolveNormalizedJournal (payload : jsval) (modern composite : option ReceiptFormat) (isFakeReceipt : bool) :
    result (option string) :=
  direct ← extractJournalBase64 (prop payload "journal");
  let journal := or_else (or_else direct (modern ≫= rf_journalBase64)) (composite ≫= rf_journalBase64) in
  Ok (if negb (is_some (nonempty journal)) && isFakeReceipt then Some (fakeJournalBase64 payload) else journal).

Definition projectReceiptMetadata (payload : jsval) (isFakeReceipt : bool) : option jsval :=
  if isFakeReceipt && isNonNullObject (prop payload "metadata")
  then Some (FailClosed.set_prop (spread (prop payload "metadata")) "isFake" (JBool true))
  else if isFakeReceipt then Some (JObj [("isFake"%string, JBool true)]) else None.

Definition normalizeExecutionReceipt (executionReceipt : option ZkVMExecutionReceipt) (fallbackImageId : string) :
    result NormalizedExecutionReceipt :=
  match executionReceipt with
  | None => throw "zkVM execution did not return a modern receipt payload"
  | Some executionReceipt =>
      payload ← readExecutionPayload (xr_payload executionReceipt);
      let isFakeReceipt := isFakeReceiptPayload payload in
      let modern := extractModernProof payload in
      composite ← match modern with Some _ => Ok None | None => extractCompositeProof payload end;
      seal ← resolveNormalizedSeal payload modern composite isFakeReceipt;
      journal ← resolveNormalizedJournal payload modern composite isFakeReceipt;
      match nonempty seal with
      | None => throw "Receipt seal is missing or invalid (tried direct, modern, and composite formats)"
      | Some seal =>
          match nonempty journal with
          | None => throw "Receipt journal is missing or invalid (tried direct, modern, and composite formats)"
          | Some journal =>
              rawPayload ← admitReceiptPayload payload;
              Ok (mkNormalized
                    (mkReceipt seal (journal_text journal)
                       (Some (default fallbackImageId (xr_imageId executionReceipt)))
                       (projectReceiptMetadata payload isFakeReceipt))
                    rawPayload)
          end
      end
  end.

End Receipt.
Import Receipt.

Module VerificationBundle.

(** The typed result of an execution: [xe_imageID] is the property of that name
    that an executor may add. *)
Record ZkVMExecutionResult := mkExecution {
  xe_journal : ZkVMJournal;
  xe_receipt : option ZkVMExecutionReceipt;
  xe_includedBitmap : option (list bool);
  xe_seenBitmap : option (list bool);
  xe_imageID : option string;
}.

Record VerificationBundleArtifactContext := mkContext {
  vb_sessionId : string;
  vb_createdAt : string;
  vb_zkvmInput : ZkVMInput;
  vb_electionConfig : ElectionConfig;
  vb_electionManifest : option ElectionManifest;
  vb_zkvmResult : ZkVMExecutionResult;
  vb_normalizedReceipt : option (option ReceiptWithImageId * option jsval);
}.

Record BundleMetadata := mkMetadata {
  md_sessionId : string;
  md_createdAt : string;
  md_methodVersion : num;
}.

(** The files, under the names of [bundle_members]. *)
Record VerificationBundleArtifactMap := mkBundle {
  ba_input : HostIo.AggregatorInputJson * ElectionConfig;
  ba_publicInput : PublicInput.PublicInputArtifactRecord;
  ba_electionManifest : ElectionManifest;
  ba_closeStatement : CloseStatement;
  ba_journal : ZkVMJournal;
  ba_receipt : jsval;
  ba_metadata : BundleMetadata;
  ba_includedBitmap : option HostIo.BitmapArtifact;
  ba_seenBitmap : option HostIo.BitmapArtifact;
}.

Definition bundle_members (b : VerificationBundleArtifactMap) : list string :=
  ["input.json"; "public-input.json"; "election-manifest.json"; "close-statement.json"; "journal.json"; "receipt.json";
   "metadata.json"]%string ++
  (if is_some (ba_includedBitmap b) then ["included-bitmap.json"%string] else []) ++
  (if is_some (ba_seenBitmap b) then ["seen-bitmap.json"%string] else []).

(** ** The receipt *)

Definition resolveBundleReceiptImageId (context : VerificationBundleArtifactContext) : option string :=
  let receipt := vb_normalizedReceipt context ≫= fst in
  or_else (or_else (receipt ≫= rc_imageId) (j_imageId (xe_journal (vb_zkvmResult context))))
    (xe_imageID (vb_zkvmResult context)).

(** [if (typeof value[key] !== 'string') value[key] = id]; an array keeps its items,
    the names set on it are in no text printed from it. *)
Definition set_missing (value : jsval) (key id : string) : jsval :=
  match prop value key with JStr _ => value | _ => FailClosed.set_prop value key (JStr id) end.

Definition set_identifiers (value : jsval) (id : string) : jsval := set_missing (set_missing value "image_id" id) "imageId" id.

Definition injectImageIdentifiers (payload : jsval) (imageId : option string) : result jsval :=
  let cloned := default JUndefined (json_clone payload) in
  if negb (isNonNullObject cloned) then throw "Receipt payload JSON clone is not an object"
  else
    Ok (match nonempty imageId with
        | None => cloned
        | Some id =>
            let named := set_identifiers cloned id in
            if isNonNullObject (prop named "receipt")
            then FailClosed.set_prop named "receipt" (set_identifiers (prop named "receipt") id)
            else named
        end).

Definition receipt_image (r : ReceiptWithImageId) : jsval :=
  match rc_imageId r with Some id => JStr id | None => JUndefined end.

Definition resolveReceiptPayload (context : VerificationBundleArtifactContext) : result jsval :=
  let derivedImageId := resolveBundleReceiptImageId context in
  match xr_raw <$> xe_receipt (vb_zkvmResult context) with
  | Some (JArr _ as raw) | Some (JBytes _ as raw) | Some (JObj _ as raw) => injectImageIdentifiers raw derivedImageId
  | _ =>
      match vb_normalizedReceipt context with
      | Some (_, Some rawPayload) => injectImageIdentifiers rawPayload derivedImageId
      | Some (Some receipt, None) =>
          let id := receipt_image receipt in
          Ok (JObj [("receipt", JObj [("seal", JStr (rc_seal receipt)); ("journal", receipt_journal_value (rc_journal receipt));
                                      ("imageId", id); ("image_id", id)]);
                    ("imageId", id); ("image_id", id)]%string)
      | _ => throw "zkVM receipt payload unavailable for verification bundle"
      end
  end.

(** ** The bundle *)

Section with_noble.
Context `{Noble}.

(** The configuration is compared with a number of the input. *)
Definition manifest_config (context : VerificationBundleArtifactContext) : result ElectionConfig :=
  match in_totalExpected (vb_zkvmInput context) with
  | NInt total =>
      Verifiers.resolveElectionConfigForManifest (Some (vb_electionConfig context)) (in_electionConfigHash (vb_zkvmInput context)) total
  | _ => throw "Authoritative election config totalExpected does not match zkVM input"
  end.

Definition bundle_manifest (context : VerificationBundleArtifactContext) : result ElectionManifest :=
  match vb_electionManifest context with
  | Some manifest => Ok manifest
  | None =>
      config ← manifest_config context;
      Ok (Verifiers.buildElectionManifest (in_electionId (vb_zkvmInput context)) config)
  end.

Definition bundle_bitmap (k : HostIo.BitmapArtifactKind) (bitmap : option (list bool)) (root : option string) (treeSize : num) :
    result (option HostIo.BitmapArtifact) :=
  match bitmap, root with
  | Some bitmap, Some root => artifact ← HostIo.createBitmapArtifact k bitmap root treeSize; Ok (Some artifact)
  | _, _ => Ok None
  end.

(** The list of issues in the message of the exception is left out. *)
Definition buildVerificationBundleArtifacts (context : VerificationBundleArtifactContext) :
    result VerificationBundleArtifactMap :=
  let input := vb_zkvmInput context in
  let journal := xe_journal (vb_zkvmResult context) in
  serializedInput ← HostIo.serializeZkvmAggregatorInput input;
  let publicInput := PublicInput.buildPublicInputArtifactFromZkvmInput input (j_methodVersion journal) in
  canonicalJournal ← Journal.toPublicZkvmJournal journal;
  publicInputArtifact ← PublicInput.buildSupportedPublicInputArtifactFromZkvmInput input (j_methodVersion journal) None None;
  electionManifest ← bundle_manifest context;
  closeStatement ← Verifiers.buildCloseStatement (PublicInput.ar_logId publicInput) (j_treeSize canonicalJournal)
                     (PublicInput.ar_timestamp publicInput) (j_bulletinRoot canonicalJournal);
  artifactResolution ← AuditConsistency.resolveConsistentPublicAuditArtifacts canonicalJournal (Some publicInputArtifact)
                         (Some electionManifest) (Some closeStatement) (AuditConsistency.mkContext None None true);
  if negb (AuditConsistency.no_issues (AuditConsistency.re_issues artifactResolution))
  then throw "Public audit artifacts are inconsistent with canonical proof data"
  else
    receiptPayload ← resolveReceiptPayload context;
    included ← bundle_bitmap HostIo.included_bitmap (xe_includedBitmap (vb_zkvmResult context))
                 (Some (j_includedBitmapRoot journal)) (j_treeSize journal);
    seen ← bundle_bitmap HostIo.seen_bitmap (xe_seenBitmap (vb_zkvmResult context)) (nonempty (j_seenBitmapRoot journal))
             (j_treeSize journal);
    Ok (mkBundle (serializedInput, vb_electionConfig context) publicInput electionManifest closeStatement canonicalJournal
          receiptPayload (mkMetadata (vb_sessionId context) (vb_createdAt context) (j_methodVersion journal)) included seen).

End with_noble.
End VerificationBundle.
Import VerificationBundle.

(** * What a receipt is normalized to *)

(** ** The words of a seal *)

(** The numbers of a nested array from left to right; [None] if something else is
    in it. *)
Fixpoint numbers_in (value : jsval) : option (list num) :=
  match value with
  | JNum n => Some [n]
  | JArr items => @concat num <$> all_some numbers_in items
  | _ => None
  end.

Definition numbers_of (l : list jsval) : option (list num) := @concat num <$> all_some numbers_in l.

Lemma all_some_app {A B} (f : A -> option B) l k :
  all_some f (l ++ k) = (xs ← all_some f l; ys ← all_some f k; Some (xs ++ ys)).
Proof.
  induction l as [| x l IH]; cbn; [by destruct (all_some f k) |]. rewrite IH.
  destruct (f x), (all_some f l), (all_some f k); done.
Qed.

Lemma numbers_of_app l k : numbers_of (l ++ k) = (xs ← numbers_of l; ys ← numbers_of k; Some (xs ++ ys)).
Proof.
  unfold numbers_of. rewrite all_some_app. destruct (all_some _ l), (all_some _ k); cbn; try done. by rewrite concat_app.
Qed.

Lemma numbers_of_single v : numbers_of [v] = numbers_in v.
Proof. unfold numbers_of. cbn. destruct (numbers_in v); cbn; [by rewrite app_nil_r | done]. Qed.

Definition unsupported : result (list num) := throw "Receipt seal contains unsupported value".

Definition weights (l : list jsval) : nat := list_sum (map weight l).

Lemma weights_app l k : weights (l ++ k) = (weights l + weights k)%nat.
Proof. unfold weights. by rewrite map_app, list_sum_app. Qed.

Lemma weights_cons v l : weights (v :: l) = (weight v + weights l)%nat.
Proof. done. Qed.

Lemma weight_pos v : (1 <= weight v)%nat.
Proof. destruct v; cbn; lia. Qed.

Lemma weights_rev l : weights (rev l) = weights l.
Proof. induction l as [| x l IH]; [done |]. cbn [rev]. rewrite weights_app, IH, !weights_cons. change (weights []) with O. lia. Qed.

(** The loop pops from the end of the values that are left, so that what is pushed
    is read backwards. *)
Lemma flatten_loop_spec fuel : forall stack acc, (weights stack <= fuel)%nat ->
  flatten_loop fuel stack acc =
    match numbers_of (rev stack) with Some l => Ok (l ++ rev acc) | None => unsupported end.
Proof.
  induction fuel as [| fuel IH]; intros [| v stack] acc Hw; cbn [flatten_loop]; [done | | done |].
  - exfalso. rewrite weights_cons in Hw. assert (Hp := weight_pos v). lia.
  - cbn [rev]. rewrite numbers_of_app, numbers_of_single. rewrite weights_cons in Hw.
    destruct v; cbn [weight] in Hw; try (cbn [numbers_in]; by destruct (numbers_of (rev stack))).
    + rewrite IH by lia. cbn [numbers_in]. rewrite rev_app_distr. destruct (numbers_of (rev stack)); cbn; [by rewrite <- app_assoc | done].
    + fold (weights items) in Hw. rewrite IH by (rewrite weights_app, weights_rev; lia).
      rewrite rev_app_distr, rev_involutive, numbers_of_app. cbn [numbers_in]. fold (numbers_of items).
      by destruct (numbers_of (rev stack)), (numbers_of items).
Qed.

Lemma flatten_spec source : flattenNumericArray source = match numbers_of source with Some l => Ok l | None => unsupported end.
Proof.
  unfold flattenNumericArray. rewrite flatten_loop_spec by (fold (weights source); by rewrite weights_rev).
  rewrite rev_involutive. cbn [rev]. destruct (numbers_of source); [by rewrite app_nil_r | done].
Qed.

(** ** Base64 *)

Lemma base64_value_char v : 0 <= v < 64 -> base64_value (base64_char v) = Some v.
Proof.
  intros Hv. assert (E : forallb (fun v => bool_decide (base64_value (base64_char v) = Some v)) (map Z.of_nat (seq 0 64)) = true)
    by (vm_compute; reflexivity).
  rewrite forallb_forall in E. specialize (E v). apply bool_decide_eq_true in E; [done |].
  apply in_map_iff. exists (Z.to_nat v). rewrite in_seq. lia.
Qed.

Lemma base64_pad : base64_value "=" = None.
Proof. reflexivity. Qed.

Ltac base64_digits := repeat rewrite base64_value_char by (Z.to_euclidean_division_equations; lia).

Lemma base64_decodes b : Forall (fun x => 0 <= x < 256) b -> buffer_of_base64 (base64_text b) = b.
Proof.
  assert (H : forall n b, (length b <= n)%nat -> Forall (fun x => 0 <= x < 256) b -> buffer_of_base64 (base64_text b) = b);
    [| by apply (H (length b))].
  clear b. induction n as [| n IH]; intros [| x [| y [| z b]]] Hn Hb; cbn [length] in Hn; try done; try lia;
    repeat match goal with Hb : Forall _ (_ :: _) |- _ => apply Forall_cons_1 in Hb as [? Hb] end;
    cbn [base64_text buffer_of_base64]; base64_digits; rewrite ?base64_pad.
  - f_equal. Z.to_euclidean_division_equations; lia.
  - f_equal; [| f_equal]; Z.to_euclidean_division_equations; lia.
  - rewrite IH by (done || lia). f_equal; [| f_equal; [| f_equal]]; Z.to_euclidean_division_equations; lia.
Qed.

Lemma little_endian_bytes n z : Forall (fun x => 0 <= x < 256) (little_endian n z).
Proof. revert z. induction n as [| n IH]; intros z; cbn; constructor; [by apply Z.mod_pos_bound | apply IH]. Qed.

(** ** The bytes and words that are accepted *)

Lemma byte_values values : forall bytes, map_result receipt_byte values = Ok bytes ->
  values = map (fun z => JNum (NInt z)) bytes /\ Forall (fun x => 0 <= x < 256) bytes.
Proof.
  induction values as [| v values IH]; intros bytes E; [by injection E as <- |]. cbn [map_result] in E.
  apply bind_Ok in E as (z & Hz & E). apply bind_Ok in E as (zs & Hzs & E). injection E as <-.
  destruct (IH _ Hzs) as [-> Hf]. destruct v as [| | | n | | | |]; try done. cbn [receipt_byte] in Hz.
  destruct (isFinite n); [| done]. destruct (_ || _) eqn:En; [done |]. injection Hz as <-.
  apply orb_false_iff in En as [En Hi]. apply orb_false_iff in En as [H0 H1]. apply negb_false_iff in Hi.
  destruct n as [z | | |]; try done. cbn in H0, H1 |- *. split; [done |]. constructor; [lia | done].
Qed.

Lemma word_values values : forall words, map_result receipt_word values = Ok words ->
  exists zs, values = map NInt zs /\ words = map (little_endian 4) zs /\ Forall (fun z => 0 <= z < 2 ^ 32) zs.
Proof.
  induction values as [| v values IH]; intros words E; [injection E as <-; by exists [] |]. cbn [map_result] in E.
  apply bind_Ok in E as (w & Hw & E). apply bind_Ok in E as (ws & Hws & E). injection E as <-.
  destruct (IH _ Hws) as (zs & -> & -> & Hf). unfold receipt_word in Hw.
  destruct (isFinite v); [| done]. destruct (_ || _) eqn:En; [done |]. injection Hw as <-.
  apply orb_false_iff in En as [En H1]. apply orb_false_iff in En as [Hi H0]. apply negb_false_iff in Hi.
  destruct v as [z | | |]; try done. cbn in H0, H1. exists (z :: zs). split_and!; [done | done |].
  constructor; [lia | done].
Qed.

Lemma words_bytes zs : Forall (fun x => 0 <= x < 256) (concat (map (little_endian 4) zs)).
Proof. induction zs as [| z zs IH]; cbn [map concat]; [constructor |]. apply Forall_app. split; [apply little_endian_bytes | done]. Qed.

(** A text of bytes is the base64 text of the numbers of the array. *)
Definition text_of_bytes (values : list jsval) (text : string) : Prop :=
  exists bytes, values = map (fun z => JNum (NInt z)) bytes /\ Forall (fun x => 0 <= x < 256) bytes /\
    buffer_of_base64 text = bytes.

(** A text of words is that of their bytes, the low one first, from left to right. *)
Definition text_of_words (values : list jsval) (text : string) : Prop :=
  exists words, numbers_of values = Some (map NInt words) /\ Forall (fun z => 0 <= z < 2 ^ 32) words /\
    buffer_of_base64 text = concat (map (little_endian 4) words).

Lemma encoded_bytes values text : encodeBytesToBase64 values = Ok text -> text_of_bytes values text.
Proof.
  intros E. apply bind_Ok in E as (bytes & Hb & E). injection E as <-. apply byte_values in Hb as [-> Hf].
  exists bytes. split_and!; [done | done | by apply base64_decodes].
Qed.

Lemma encoded_words values text : encodeSealWordsToBase64 values = Ok text -> text_of_words values text.
Proof.
  unfold encodeSealWordsToBase64. rewrite flatten_spec. destruct (numbers_of values) as [l |] eqn:El; [| done].
  intros E. apply bind_Ok in E as (l' & [= <-] & E). apply bind_Ok in E as (ws & Hw & E). injection E as <-.
  apply word_values in Hw as (zs & -> & -> & Hf). exists zs. split_and!; [done | done | apply base64_decodes, words_bytes].
Qed.

(** ** Normalization *)

(** Where a seal comes from. *)
Inductive seal_of (payload : jsval) (seal : string) : Prop :=
| seal_text : prop payload "seal" = JStr seal -> seal_of payload seal
| seal_bytes values : prop payload "seal" = JArr values -> text_of_bytes values seal -> seal_of payload seal
| seal_modern modern : extractModernProof payload = Some modern -> rf_sealBase64 modern = seal -> seal_of payload seal
| seal_composite segment others values :
    prop (prop (prop payload "inner") "Composite") "segments" = JArr (segment :: others) ->
    prop segment "seal" = JArr values -> text_of_words values seal -> seal_of payload seal
| seal_development : isFakeReceiptPayload payload = true -> seal = DEV_MODE_SEAL -> seal_of payload seal.

Lemma truthy_text o s : nonempty o = Some s -> o = Some s /\ s <> ""%string.
Proof. destruct o as [[| c t] |]; try done. by intros [= <-]. Qed.

Lemma composite_seal payload f : extractCompositeProof payload = Ok (Some f) -> exists segment others values,
  prop (prop (prop payload "inner") "Composite") "segments" = JArr (segment :: others) /\
  prop segment "seal" = JArr values /\ text_of_words values (rf_sealBase64 f).
Proof.
  unfold extractCompositeProof. destruct (isNonNullObject _); [| done]. cbn [negb].
  destruct (prop _ "segments") as [| | | | | [| segment others] | |]; try done.
  assert (H : forall m, match segment with JUndefined | JNull => throw "Cannot read properties of the first segment" | _ => m end =
                        Ok (Some f) -> m = Ok (Some f)) by (by destruct segment).
  intros E%H. destruct (prop segment "seal") as [| | | | | values | |] eqn:Es; try done.
  apply bind_Ok in E as (text & Ht & E). apply bind_Ok in E as (j & _ & E). injection E as <-.
  exists segment, others, values. split_and!; [done | done | by apply encoded_words].
Qed.

Lemma direct_seal payload o s : extractSealBase64 (prop payload "seal") = Ok o -> o = Some s -> seal_of payload s.
Proof.
  unfold extractSealBase64. intros E ->. destruct (truthy_value _); [| done]. cbn [negb] in E.
  destruct (prop payload "seal") as [| | | | t | values | |] eqn:Ep; try done.
  - injection E as ->. by apply seal_text.
  - apply bind_Ok in E as (text & Ht & E). injection E as ->. eapply seal_bytes; [done |]. by apply encoded_bytes.
Qed.

Lemma normalized_seal payload modern composite seal s : extractModernProof payload = modern ->
  match modern with Some _ => Ok None | None => extractCompositeProof payload end = Ok composite ->
  resolveNormalizedSeal payload modern composite (isFakeReceiptPayload payload) = Ok seal -> nonempty seal = Some s ->
  seal_of payload s.
Proof.
  intros Hm Hc E [-> _]%truthy_text. unfold resolveNormalizedSeal in E. apply bind_Ok in E as (direct & Hd & E).
  cbv zeta in E. destruct (negb _ && _) eqn:Ef.
  - injection E as <-. apply andb_true_iff in Ef as [_ Hf]. by apply seal_development.
  - injection E as E. destruct direct as [d |]; [injection E as ->; by eapply direct_seal |]. cbn [or_else] in E.
    destruct modern as [m |]; [injection E as <-; by eapply seal_modern |]. cbn [fmap option_fmap option_map or_else] in E.
    destruct composite as [f |]; [| done]. injection E as <-. apply composite_seal in Hc as (segment & others & values & H1 & H2 & H3).
    by eapply seal_composite.
Qed.

Lemma spread_object v : exists l, spread v = JObj l.
Proof. destruct v; by eexists. Qed.

Lemma metadata_flag payload fake : exists l, default (JObj []) (projectReceiptMetadata payload fake) = JObj l /\
  (projectReceiptMetadata payload fake = None \/ projectReceiptMetadata payload fake = Some (JObj l)) /\
  (own l "isFake" = Some (JBool true) <-> fake = true).
Proof.
  unfold projectReceiptMetadata. destruct fake; cbn [andb].
  - destruct (isNonNullObject _).
    + destruct (spread_object (prop payload "metadata")) as [l ->]. cbn [FailClosed.set_prop default].
      eexists. split_and!; [done | by right |]. by rewrite own_set.
    + eexists. split_and!; [done | by right | done].
  - exists []. split_and!; [done | by left | done].
Qed.

Lemma stored_receipt seal j id metadata : j <> ""%string -> str_truthy id = true ->
  (forall m, metadata = Some m -> exists l, m = JObj l) ->
  parseReceiptWithImageId (receipt_value (mkReceipt seal (journal_text j) (Some id) metadata)) =
    Some (mkReceipt seal (journal_text j) (Some id) metadata).
Proof.
  intros Hj Hi Hm. assert (Ht : str_truthy j = true) by (by destruct j).
  destruct metadata as [m |]; [destruct (Hm m eq_refl) as [l ->] |];
    unfold parseReceiptWithImageId, receipt_value; cbn; by rewrite Ht, Hi.
Qed.

(** C33: A normalized receipt states what the payload holds: its seal is the text, the
    bytes or, for a composite receipt, the words of the payload in their order,
    and only a payload that is marked as fake gets a seal that is not its own;
    such a receipt says so in its metadata, and no other does. Its image is the one
    of the execution, and a store reads the receipt back as it is. *)
Theorem normalized_receipt_faithful executionReceipt fallbackImageId n :
  normalizeExecutionReceipt (Some executionReceipt) fallbackImageId = Ok n ->
  let payload := xr_payload executionReceipt in
  let receipt := nr_receipt n in
  seal_of payload (rc_seal receipt) /\ rc_seal receipt <> ""%string /\
  (exists journal, rc_journal receipt = journal_text journal /\ journal <> ""%string) /\
  rc_imageId receipt = Some (default fallbackImageId (xr_imageId executionReceipt)) /\
  (exists metadata, default (JObj []) (rc_metadata receipt) = JObj metadata /\
     (own metadata "isFake" = Some (JBool true) <-> isFakeReceiptPayload payload = true)) /\
  nr_rawPayload n = payload /\ isNonArrayObject payload = true /\
  (str_truthy (default fallbackImageId (xr_imageId executionReceipt)) = true ->
   parseReceiptWithImageId (receipt_value receipt) = Some receipt).
Proof.
  intros E payload receipt. cbn [normalizeExecutionReceipt] in E.
  apply bind_Ok in E as (p & Hp & E). unfold readExecutionPayload in Hp. fold payload in Hp.
  destruct (isNonNullObject payload) eqn:Eo; [| done]. injection Hp as <-. cbv zeta in E.
  apply bind_Ok in E as (composite & Hc & E). apply bind_Ok in E as (seal & Hs & E). apply bind_Ok in E as (journal & Hj & E).
  destruct (nonempty seal) as [s |] eqn:En; [| done]. destruct (nonempty journal) as [j |] eqn:Ej; [| done].
  apply bind_Ok in E as (raw & Hr & E). injection E as <-. subst receipt. cbn [nr_receipt nr_rawPayload rc_seal rc_journal rc_imageId rc_metadata].
  unfold admitReceiptPayload in Hr. rewrite Eo in Hr. destruct (is_array payload) eqn:Ea; [done |]. injection Hr as <-.
  apply truthy_text in Ej as [-> Hj0]. assert (En' := En). apply truthy_text in En' as [-> Hs0].
  destruct (metadata_flag payload (isFakeReceiptPayload payload)) as (l & Hl & Hd & Hf).
  split_and!; [by eapply normalized_seal | done | by exists j | done | by exists l | done | by destruct payload |].
  intros Hi. apply stored_receipt; [done | done |]. by destruct Hd as [-> | ->]; intros m [= <-]; exists l.
Qed.

(** * What a bundle publishes *)

Section bundle.
Context `{NobleLaws}.

(** A published bitmap is the one the executor returned; a reader parses it to
    itself, and its root is the Merkle root of its bits. *)
Definition published_bitmap (k : HostIo.BitmapArtifactKind) (bitmap : option (list bool)) (root : option string) (treeSize : num)
    (published : option HostIo.BitmapArtifact) : Prop :=
  match published with
  | None => bitmap = None \/ root = None
  | Some a =>
      bitmap = Some (HostIo.artifact_bitmap a) /\ treeSize = NInt (zlength (HostIo.artifact_bitmap a)) /\
      HostIo.artifact_treeSize a = treeSize /\ root <> None /\
      HostIo.artifact_root a = HostIo.normalizeBitmapRoot (default ""%string root) /\
      normalizeHexString (HostIo.artifact_root a) =
        bytesToHex (MerkleSpec.MTH (BitmapFacts.bitmap_chunks (HostIo.artifact_bitmap a))) /\
      HostIo.parseBitmapArtifact k (HostIo.artifact_value k a) = Ok (Some a)
  end.

Lemma bundle_bitmap_Ok k bitmap root treeSize o : bundle_bitmap k bitmap root treeSize = Ok o ->
  published_bitmap k bitmap root treeSize o.
Proof.
  unfold bundle_bitmap. destruct bitmap as [bits |]; [| intros [= <-]; by left].
  destruct root as [root |]; [| intros [= <-]; by right]. intros E. apply bind_Ok in E as (a & Ha & E). injection E as <-.
  assert (Hp := parse_created _ _ _ _ _ Ha). apply bind_Ok in Ha as (r & Hr & Ha). injection Ha as <-.
  apply validateArtifact_Ok in Hr as (-> & Hn & _ & _ & Hm). by split_and!.
Qed.

Lemma audit_kept journal artifact manifest statement r :
  AuditConsistency.resolveConsistentPublicAuditArtifacts journal (Some artifact) (Some manifest) (Some statement)
    (AuditConsistency.mkContext None None true) = Ok r ->
  AuditConsistency.no_issues (AuditConsistency.re_issues r) = true -> audit_agrees journal artifact manifest statement.
Proof.
  intros E Hn. destruct (audit_artifacts_consistent_iff journal artifact manifest statement (AuditConsistency.mkContext None None true))
    as (r' & E' & Hi & _). rewrite E' in E. injection E as ->. apply Hi. unfold AuditConsistency.no_issues in Hn.
  by destruct (AuditConsistency.re_issues r).
Qed.

Lemma public_fields j p : Journal.toPublicZkvmJournal j = Ok p ->
  j_includedBitmapRoot p = j_includedBitmapRoot j /\ j_seenBitmapRoot p = j_seenBitmapRoot j /\ j_treeSize p = j_treeSize j.
Proof. unfold Journal.toPublicZkvmJournal. destruct (hasLegacyJournalCountAliases _); [done |]. destruct (_ || _); [done |]. by intros [= <-]. Qed.

Lemma sync_members b : exists manifest, PublicBundle.PUBLIC_BUNDLE_MANIFEST = Ok manifest /\
  let policy := PublicBundle.resolvePublicBundlePolicy manifest PublicBundle.sync in
  (forall m, m ∈ PublicBundle.requiredMembers policy -> m ∈ bundle_members b) /\
  forall m, m ∈ bundle_members b -> m ∈ PublicBundle.requiredMembers policy \/ m ∈ PublicBundle.neverPublicMembers policy.
Proof.
  assert (E : is_ok PublicBundle.PUBLIC_BUNDLE_MANIFEST) by (vm_compute; done).
  destruct PublicBundle.PUBLIC_BUNDLE_MANIFEST as [manifest |] eqn:Em; [| done]. vm_compute in Em. injection Em as <-.
  eexists. split; [done |]. unfold bundle_members.
  split; apply Forall_forall; destruct (ba_includedBitmap b), (ba_seenBitmap b); apply (bool_decide_unpack _); vm_compute; done.
Qed.

(** C27: A bundle is published only when its files tell one story. Its journal is the
    public part of the prover's; the published input is read back as a supported
    document that agrees, with the manifest and the close statement, with this
    journal; the commitment in the journal is that of the input the prover was
    given; the bitmaps that come with it are those of the roots in the journal and
    are read back; and, of the files the manifest of bundles knows, it has all those
    required of a synchronous run and no other that may be published. *)
Theorem published_bundle_consistent context b :
  buildVerificationBundleArtifacts context = Ok b ->
  let execution := vb_zkvmResult context in
  let journal := ba_journal b in
  Journal.toPublicZkvmJournal (xe_journal execution) = Ok journal /\
  (exists artifact,
     PublicInput.parseSupportedPublicInputArtifact (PublicInput.record_value (ba_publicInput b))
       (PublicInput.mkProvenance (Some PublicInput.generated) None None) = Some artifact /\
     audit_agrees journal artifact (ba_electionManifest b) (ba_closeStatement b)) /\
  (exists commitment, computeInputCommitment (vb_zkvmInput context) = Ok commitment /\
     normalizeHexString commitment = normalizeHexString (j_inputCommitment journal)) /\
  published_bitmap HostIo.included_bitmap (xe_includedBitmap execution) (Some (j_includedBitmapRoot journal))
    (j_treeSize journal) (ba_includedBitmap b) /\
  published_bitmap HostIo.seen_bitmap (xe_seenBitmap execution) (nonempty (j_seenBitmapRoot journal))
    (j_treeSize journal) (ba_seenBitmap b) /\
  exists manifest, PublicBundle.PUBLIC_BUNDLE_MANIFEST = Ok manifest /\
    let policy := PublicBundle.resolvePublicBundlePolicy manifest PublicBundle.sync in
    (forall m, m ∈ PublicBundle.requiredMembers policy -> m ∈ bundle_members b) /\
    forall m, m ∈ bundle_members b -> m ∈ PublicBundle.requiredMembers policy \/ m ∈ PublicBundle.neverPublicMembers policy.
Proof.
  intros E execution journal. unfold buildVerificationBundleArtifacts in E. cbv zeta in E. fold execution in E.
  apply bind_Ok in E as (i & _ & E). apply bind_Ok in E as (p & Hp & E). apply bind_Ok in E as (artifact & Ha & E).
  apply bind_Ok in E as (manifest & _ & E). apply bind_Ok in E as (statement & _ & E). apply bind_Ok in E as (r & Hr & E).
  destruct (AuditConsistency.no_issues _) eqn:Hn; [| done]. cbn [negb] in E. assert (Hg := audit_kept _ _ _ _ _ Hr Hn).
  apply bind_Ok in E as (payload & _ & E). apply bind_Ok in E as (included & Hi & E). apply bind_Ok in E as (seen & Hs & E).
  injection E as <-. subst journal. cbn [ba_journal ba_publicInput ba_electionManifest ba_closeStatement ba_includedBitmap ba_seenBitmap].
  destruct (public_fields _ _ Hp) as (-> & -> & ->). apply bundle_bitmap_Ok in Hi, Hs.
  destruct (generated_input_commits _ _ _ _ _ Ha) as (Hc & _).
  split_and!; [done | | | done | done | apply sync_members].
  - exists artifact. split; [| done]. unfold PublicInput.buildSupportedPublicInputArtifactFromZkvmInput in Ha.
    unfold PublicInput.parseSupportedPublicInputArtifact.
    destruct (PublicInput.toSupportedPublicInputArtifact _) as [s |]; [| done]. by injection Ha as ->.
  - exists (pa_recomputedInputCommitment (PublicInput.sp_typedAuthority artifact)). split; [done | by destruct Hg].
Qed.

End bundle.
