(* ===== verification/FinalizeSync.v ===== *)
(** Synchronous finalization (packages/application/src/finalize/usecases/
    finalize-sync.ts and the last part of finalize-session.ts): the prover and the
    verifier run inside the request, over external services and the commit of a
    store; and one of these services, the proof bundle service of the API
    (apps/api/src/server/api/adapters). Logging is left out. *)
From S2P Require Import Prelude.
From S2P Require Import Hex.
From S2P Require Import JsNumber.
From S2P Require Import JsValue.
From S2P Require Import Contract.
From S2P Require Import LocalCast.
From S2P Require Import Evidence.
From S2P Require Import Verifiers.
From S2P Require Import Journal.
From S2P Require Import HostIo.
From S2P Require Import Bitmap.
From S2P Require Import HostIoProofs.
From S2P Require Import PublicInput.
From S2P Require Import SessionVote.
From S2P Require Import FinStorage.
From S2P Require Import FinStorageProofs.
From S2P Require Import FinTransition.
From S2P Require Import Tamper.
From S2P Require Import Scenario.
From S2P Require Import FinalizeInputs.
From S2P Require Import FinResult.
From S2P Require Import CommitAdmission.
From S2P Require Import JsText.
From S2P Require Import VerifierReport.
From S2P Require Import Bundle.
Import JsValue.
Import Contract.
Import LocalCast.
Import Evidence.
Import SessionVote.
Import FinStorage.
Import FinTransition.
Import Scenario.
Import TamperFacts.
Import FinalizeInputs.
Import FinResult.
Import CommitAdmission.
Import JsonText.
Import Receipt.
Import VerificationBundle.
#[global] Open Scope Z_scope.

Module FinalizeSync.

Record FinalizeSyncInput := mkSyncInput {
  fy_sessionId : string;
  fy_finalizationId : string;
  fy_queuedAtMs : num;
  fy_voting : VotingRecord;
  fy_zkvmInput : ZkVMInput;
  fy_electionConfig : ElectionConfig;
  fy_expectedImageId : string;
  fy_scenario : FinalizeScenarioContext;
  fy_allowDevMode : bool;
  fy_bitmapProofSource : option BitmapProofSource;
}.

(** ** The services *)

Record ZkVMExecutor (St : Type) := mkExecutor {
  ex_execute : ZkVMInput -> SM St ZkVMExecutionResult;
  ex_type : BitmapProofSource;
}.
Arguments mkExecutor {St} _ _.
Arguments ex_execute {St} _ _.
Arguments ex_type {St} _.

(** proof-bundle-service.ts *)
Record ProofBundleOptions := mkOptions {
  po_sessionId : string;
  po_finalizationId : string;
  po_zkvmInput : ZkVMInput;
  po_electionConfig : ElectionConfig;
  po_electionManifest : ElectionManifest;
  po_zkvmResult : ZkVMExecutionResult;
  po_normalizedReceipt : NormalizedExecutionReceipt;
  po_expectedImageId : string;
  po_allowDevMode : bool;
  po_verifies : bool;
}.

Inductive ProofBundleFailure : Type :=
| verifier_failed (dev_mode : bool) (finalizationId : string) (report : jsval)
| invocation_failed (error : string).

Inductive ProofBundleOutcome : Type :=
| bundle_created (verificationResult : jsval) (finalizationId : string)
| bundle_failed (error : ProofBundleFailure).

(** finalization-store.ts: [observability] is left out. *)
Record SuccessfulFinalizationCommitInput := mkCommitInput {
  ci_record : FinalizationRecord;
  ci_receipt : option (string * num);
  ci_bitmap : FinalizationBitmapDisposition;
  ci_verificationResult : option jsval;
}.

Record SuccessfulFinalizationCommitResult := mkCommitResult {
  cr_record : FinalizationRecord;
  cr_bitmap : FinalizationBitmapDisposition;
  cr_receiptPublication : option FinalizationReceiptPublication;
}.

(** [sync_clock] is [deps.now ?? Date.now], [date_now] the clock itself. *)
Class SyncServices (St : Type) := {
  sync_clock : SM St num;
  date_now : SM St num;
  getExecutor : SM St (ZkVMExecutor St);
  createBundle : ProofBundleOptions -> SM St ProofBundleOutcome;
  commitSuccessfulFinalization : SuccessfulFinalizationCommitInput -> SM St SuccessfulFinalizationCommitResult;
}.

Record FinalizeSyncPayload := mkSyncPayload {
  sp_sessionId : string;
  sp_finalizationId : string;
  sp_state : FinalizationState;
  sp_finalizationResult : FinalizationResultAuthority;
  sp_verificationResult : jsval;
  sp_bitmapDisposition : FinalizationBitmapDisposition;
  sp_artifacts : UserVoteArtifacts;
  sp_receipt : ReceiptWithImageId;
  sp_receiptJournal : string;
}.

(** ** Values *)

Definition manifest_value (m : ElectionManifest) : jsval :=
  JObj [("electionId", JStr (em_electionId m)); ("totalExpected", JNum (NInt (cfg_totalExpected (em_config m))));
        ("choices", JArr (map JStr (cfg_choices (em_config m)))); ("version", JStr (cfg_version (em_config m)));
        ("botCount", JNum (NInt (cfg_botCount (em_config m))));
        ("merkleTreeDepth", JNum (NInt (cfg_merkleTreeDepth (em_config m))));
        ("electionConfigHash", JStr (em_electionConfigHash m))]%string.

Definition close_statement_value (c : CloseStatement) : jsval :=
  JObj [("logId", JStr (cs_logId c)); ("treeSize", JNum (cs_treeSize c)); ("timestamp", JNum (cs_timestamp c));
        ("bulletinRoot", JStr (cs_bulletinRoot c)); ("sthDigest", JStr (cs_sthDigest c))]%string.

(** [JSON.stringify] of the receipt of the commit *)
Definition commit_receipt (j : ZkVMJournal) : string :=
  default ""%string (json_text
    (JObj [("methodVersion", JNum (j_methodVersion j)); ("sthDigest", JStr (j_sthDigest j));
           ("verifiedTally", JArr (map JNum (j_verifiedTally j))); ("includedBitmapRoot", JStr (j_includedBitmapRoot j))]%string)).

Section sync.
Context {St : Type} `{SyncServices St} `{Noble}.

(** ** What is admitted of an execution *)

Definition admitCurrentExecutionJournal (execution : ZkVMExecutionResult) : option ZkVMJournal :=
  match Journal.toPublicZkvmJournal (xe_journal execution) with
  | Ok journal => if Journal.isSupportedZkVMJournal (Journal.journal_value journal) then Some journal else None
  | Err _ => None
  end.

Definition execution_image (execution : ZkVMExecutionResult) : option string :=
  or_else (j_imageId (xe_journal execution)) (xe_imageID execution).

Record ExecutionIdentity := mkIdentity {
  xi_publicJournal : ZkVMJournal;
  xi_actualImageId : string;
}.

(** The version in the message is left out. *)
Definition admitExecutionIdentity (input : FinalizeSyncInput) (execution : ZkVMExecutionResult) : Finalized ExecutionIdentity :=
  match admitCurrentExecutionJournal execution with
  | None => Failed (api INTERNAL_ERROR "Unsupported zkVM journal contract")
  | Some publicJournal =>
      match nonempty (execution_image execution) with
      | Some actualImageId =>
          if String.eqb actualImageId (fy_expectedImageId input) then Done (mkIdentity publicJournal actualImageId)
          else Failed (invalid_image_id (fy_expectedImageId input) (execution_image execution))
      | None => Failed (invalid_image_id (fy_expectedImageId input) (execution_image execution))
      end
  end.

Definition resolveExactUserVoteArtifacts (input : FinalizeSyncInput) (journal : ZkVMJournal) :
    result (Finalized UserVoteArtifacts) :=
  try_catch
    (outcome ← buildUserVoteArtifacts (fy_voting input) journal;
     Ok (match outcome with
         | Built a => Done a
         | Unavailable message => Failed (api VERIFICATION_FAILED message)
         end))
    (fun _ => Ok (Failed (api INTERNAL_ERROR "Failed to build exact user vote artifacts"))).

(** ** Bitmaps *)

Definition buildSeenBitmapData (execution : ZkVMExecutionResult) : result (option (list bool * string)) :=
  match xe_seenBitmap execution, nonempty (j_seenBitmapRoot (xe_journal execution)) with
  | Some seenBitmap, Some root =>
      let normalizedSeenRoot := HostIo.normalizeBitmapRoot root in
      computedSeenRoot ← Bitmap.computeIncludedBitmapRootHex seenBitmap;
      if negb (String.eqb (normalizeHexString computedSeenRoot) (normalizeHexString normalizedSeenRoot)) then Ok None
      else Ok (Some (seenBitmap, normalizedSeenRoot))
  | _, _ => Ok None
  end.

(** The bits of the disposition come with the source of their proofs. *)
Definition buildBitmapData (execution : ZkVMExecutionResult) (bitmapProofSource : BitmapProofSource) :
    SM St (option (BitmapProofSource * FinalizationBitmapData)) :=
  match xe_includedBitmap execution with
  | None => mret None
  | Some includedBitmap =>
      let normalizedRoot := HostIo.normalizeBitmapRoot (j_includedBitmapRoot (xe_journal execution)) in
      computedRoot ← sm_lift (Bitmap.computeIncludedBitmapRootHex includedBitmap);
      if negb (String.eqb (normalizeHexString computedRoot) (normalizeHexString normalizedRoot)) then mret None
      else
        seen ← sm_lift (buildSeenBitmapData execution);
        finalizedAtMs ← date_now;
        mret (Some (bitmapProofSource,
                    mkBitmapData includedBitmap normalizedRoot seen (j_treeSize (xe_journal execution)) finalizedAtMs))
  end.

Definition disposition_of (bitmap : option (BitmapProofSource * FinalizationBitmapData)) : FinalizationBitmapDisposition :=
  match bitmap with Some (_, data) => bitmap_available data | None => bitmap_unavailable end.

(** ** The result *)

Definition buildSyncPublicAuditArtifacts (input : FinalizeSyncInput) (execution : ZkVMExecutionResult)
    (manifest : ElectionManifest) (finalizationId : string) : result PublicAuditArtifacts :=
  publicInputArtifact ← PublicInput.buildSupportedPublicInputArtifactFromZkvmInput (fy_zkvmInput input)
                          (j_methodVersion (xe_journal execution)) (Some finalizationId) None;
  closeStatement ← Verifiers.buildCloseStatement (in_logId (fy_zkvmInput input)) (j_treeSize (xe_journal execution))
                     (in_timestamp (fy_zkvmInput input)) (j_bulletinRoot (xe_journal execution));
  Ok (mkPublicAudit publicInputArtifact (manifest_value manifest) (close_statement_value closeStatement)).

Definition scenario_tamper_count (scenario : FinalizeScenarioContext) : num :=
  resolveScenarioTamperCount (Some (Some (ignoredCount (fc_summary scenario)), Some (recountedCount (fc_summary scenario)))).

Definition sync_tamper_summary (scenario : FinalizeScenarioContext) : option FinalizationTamperSummary :=
  let summary := fc_summary scenario in
  if is_some (fc_scenarioResult scenario) &&
     (num_ltb (NInt 0) (ignoredCount summary) || num_ltb (NInt 0) (recountedCount summary))
  then Some (mkTamperSummary (ignoredCount summary) (recountedCount summary) (userRecountChoice summary)
               (fc_affectedBotIds scenario))
  else None.

Definition buildSyncFinalizationAuthority (input : FinalizeSyncInput) (execution : ZkVMExecutionResult)
    (identity : ExecutionIdentity) (receipt : ReceiptWithImageId) (publicAudit : PublicAuditArtifacts)
    (bitmap : option (BitmapProofSource * FinalizationBitmapData)) : FinalizationResultAuthority :=
  let scenario := fy_scenario input in
  mkResultAuthority
    (mkTally (map snd (fc_claimedCounts scenario)) (fc_claimedTotalVotes scenario)
       (num_max (j_excludedSlots (xe_journal execution)) (scenario_tamper_count scenario)))
    (xi_actualImageId identity) (xi_publicJournal identity)
    (Some (resolveFinalizationTamperDetected (Some (j_excludedSlots (xe_journal execution)))
             (Some (j_rejectedRecords (xe_journal execution))) (Some (scenario_tamper_count scenario))))
    (Some (fc_scenarios scenario)) (sync_tamper_summary scenario)
    (mkArtifacts (Some receipt) None (Some publicAudit) bitmap).

(** ** Commit and answer *)

Definition sync_record (input : FinalizeSyncInput) (startedAtMs completedAtMs : num) (r : FinalizationResultAuthority) :
    FinalizationRecord :=
  let id := fy_finalizationId input in
  mkRecord (fy_sessionId input) id (toFinalizationScenarioContext (fy_scenario input))
    (succeeded id (fy_queuedAtMs input) startedAtMs completedAtMs) (Some (mkResultRecord id r)).

(** The record that a commit returns has a result, by its type. *)
Definition commitSyncFinalization (input : FinalizeSyncInput) (execution : ZkVMExecutionResult) (startedAtMs : num)
    (r : FinalizationResultAuthority) (bitmap : FinalizationBitmapDisposition) (verificationResult : jsval) :
    SM St (SuccessfulFinalizationCommitResult * FinalizationResultAuthority) :=
  timestamp ← sync_clock;
  completedAtMs ← sync_clock;
  committed ← commitSuccessfulFinalization
                (mkCommitInput (sync_record input startedAtMs completedAtMs r)
                   (Some (commit_receipt (xe_journal execution), timestamp)) bitmap (Some verificationResult));
  match fr_result (cr_record committed) with
  | None => sm_throw "Committed finalization record has no result"
  | Some finalizationResult =>
      if negb (String.eqb (rr_finalizationId finalizationResult) (fy_finalizationId input))
      then sm_throw "Committed finalization authority does not match the requested finalization"
      else mret (committed, rr_authority finalizationResult)
  end.

(** Of the details of a failed verification the status of the report. *)
Definition proofBundleFailure (error : ProofBundleFailure) : FinalizeSessionError :=
  match error with
  | verifier_failed dev_mode _ _ => api VERIFICATION_FAILED (if dev_mode then "dev_mode" else "failed")
  | invocation_failed _ => api INTERNAL_ERROR "Proof bundle creation failed"
  end.

Definition bundle_options (input : FinalizeSyncInput) (executor : ZkVMExecutor St) (execution : ZkVMExecutionResult)
    (manifest : ElectionManifest) (receipt : NormalizedExecutionReceipt) (imageId : string) : ProofBundleOptions :=
  mkOptions (fy_sessionId input) (fy_finalizationId input) (fy_zkvmInput input) (fy_electionConfig input) manifest execution
    receipt imageId (fy_allowDevMode input) (match ex_type executor with source_mock => false | source_real => true end).

(** The part of the [try] after the bundle was created. *)
Definition finish_sync (input : FinalizeSyncInput) (startedAtMs : num) (executor : ZkVMExecutor St)
    (execution : ZkVMExecutionResult) (identity : ExecutionIdentity) (receipt : NormalizedExecutionReceipt)
    (manifest : ElectionManifest) (artifacts : UserVoteArtifacts) (verificationResult : jsval) :
    SM St (Finalized FinalizeSyncPayload) :=
  publicAudit ← sm_lift (buildSyncPublicAuditArtifacts input execution manifest (fy_finalizationId input));
  bitmap ← buildBitmapData execution (default (ex_type executor) (fy_bitmapProofSource input));
  committed ← commitSyncFinalization input execution startedAtMs
                (buildSyncFinalizationAuthority input execution identity (nr_receipt receipt) publicAudit bitmap)
                (disposition_of bitmap) verificationResult;
  match rc_journal (nr_receipt receipt) with
  | journal_bytes _ => sm_throw "Receipt journal is missing or invalid"
  | journal_text receiptJournal =>
      mret (Done (mkSyncPayload (fy_sessionId input) (fy_finalizationId input) (fr_state (cr_record committed.1)) committed.2
                    verificationResult (cr_bitmap committed.1) artifacts (nr_receipt receipt) receiptJournal))
  end.

(** The body of the [try]. *)
Definition run_sync (input : FinalizeSyncInput) (startedAtMs : num) : SM St (Finalized FinalizeSyncPayload) :=
  executor ← getExecutor;
  execution ← ex_execute executor (fy_zkvmInput input);
  match admitExecutionIdentity input execution with
  | Failed error => mret (Failed error)
  | Done identity =>
      receipt ← sm_lift (normalizeExecutionReceipt (xe_receipt execution) (xi_actualImageId identity));
      let manifest := Verifiers.buildElectionManifest (in_electionId (fy_zkvmInput input)) (fy_electionConfig input) in
      userArtifacts ← sm_lift (resolveExactUserVoteArtifacts input (xi_publicJournal identity));
      match userArtifacts with
      | Failed error => mret (Failed error)
      | Done artifacts =>
          outcome ← createBundle (bundle_options input executor execution manifest receipt (xi_actualImageId identity));
          match outcome with
          | bundle_failed error => mret (Failed (proofBundleFailure error))
          | bundle_created verificationResult finalizationId =>
              if negb (String.eqb finalizationId (fy_finalizationId input))
              then mret (Failed (api INVALID_FINALIZATION_ARTIFACT
                                  "Proof bundle finalization authority does not match the requested finalization"))
              else finish_sync input startedAtMs executor execution identity receipt manifest artifacts verificationResult
          end
      end
  end.

Definition proof_generation_failed : Finalized FinalizeSyncPayload := Failed (api INTERNAL_ERROR "Proof generation failed").

Definition finalizeSync (input : FinalizeSyncInput) : SM St (Finalized FinalizeSyncPayload) :=
  startedAtMs ← sync_clock;
  sm_catch (run_sync input startedAtMs) (fun _ => mret proof_generation_failed).

(** The synchronous outcome of [finalizeSessionUsecase]. *)
Definition finalizeSessionSynchronously (sessionId finalizationId : string) (queuedAtMs : num) (voting : VotingRecord)
    (work : PreparedFinalizationInputs) (expectedImageId : string) (allowDevMode : bool)
    (bitmapProofSource : option BitmapProofSource) : SM St (Finalized FinalizeSyncPayload) :=
  finalizeSync (mkSyncInput sessionId finalizationId queuedAtMs voting (pr_zkvmInput work)
                  (pr_authoritativeElectionConfig work) expectedImageId (pr_scenarioContext work) allowDevMode bitmapProofSource).

End sync.
End FinalizeSync.

(** ** The proof bundle service of the API (proofBundleService.ts, proofBundleLocalArtifacts.ts) *)

Module ApiProofBundle.
Import FinalizeSync.

Inductive InvocationStatus : Type := invoked_success | invoked_dev_mode | invoked_failed.

Record VerifierInvocationResult := mkInvocation {
  iv_status : InvocationStatus;
  iv_bundlePath : string;
  iv_reportPath : string;
  iv_report : jsval;
}.

Record VerificationBundleResult := mkBundleResult {
  bu_bundlePath : string;
  bu_receiptPath : string;
  bu_inputPath : string;
  bu_journalPath : string;
  bu_electionManifestPath : string;
  bu_closeStatementPath : string;
  bu_metadataPath : string;
  bu_reportPath : string;
  bu_sessionId : string;
  bu_finalizationId : string;
}.

Record BundlePublicationResult := mkPublished {
  bp_s3BundleKey : option string;
  bp_s3ReportKey : option string;
  bp_s3UploadedAtMs : option num;
}.

(** The file system, the verifier service and the delivery. [persist_files] answers with
    the session, the attempt and the directory of the bundle; [iso_now] is
    [new Date().toISOString()], the paths are those of node:path. *)
Class ApiBundlePorts (St : Type) := {
  iso_now : SM St string;
  path_join : string -> string -> string;
  path_basename : string -> string;
  persist_files : string -> string -> option string -> VerificationBundleArtifactMap -> SM St (string * string * string);
  write_report : string -> jsval -> SM St unit;
  invokeVerifier : string -> string -> string -> SM St VerifierInvocationResult;
  publishBundleArtifacts : string -> string -> string -> bool -> SM St BundlePublicationResult;
  port_recordPublication : option (string -> string -> BundlePublicationResult -> SM St unit);
}.

Section api.
Context {St : Type} `{ApiBundlePorts St} `{Noble}.
Variable verifierWorkDir : option string.

Definition bundle_context (options : ProofBundleOptions) (createdAt : string) : VerificationBundleArtifactContext :=
  mkContext (po_sessionId options) createdAt (po_zkvmInput options) (po_electionConfig options)
    (Some (po_electionManifest options)) (po_zkvmResult options)
    (Some (Some (nr_receipt (po_normalizedReceipt options)), Some (nr_rawPayload (po_normalizedReceipt options)))).

Definition persistProofVerificationBundle (options : ProofBundleOptions) : SM St VerificationBundleResult :=
  createdAt ← iso_now;
  artifacts ← sm_lift (buildVerificationBundleArtifacts (bundle_context options createdAt));
  persisted ← persist_files (po_sessionId options) (po_finalizationId options) verifierWorkDir artifacts;
  let '(sessionId, finalizationId, bundlePath) := persisted in
  if negb (String.eqb sessionId (po_sessionId options)) || negb (String.eqb finalizationId (po_finalizationId options))
  then sm_throw "Persisted verification bundle identity does not match admitted input"
  else
    mret (mkBundleResult bundlePath (path_join bundlePath "receipt.json") (path_join bundlePath "input.json")
            (path_join bundlePath "journal.json") (path_join bundlePath "election-manifest.json")
            (path_join bundlePath "close-statement.json") (path_join bundlePath "metadata.json")
            (path_join bundlePath "verification.json") (po_sessionId options) (po_finalizationId options)).

Definition mock_report (bundle : VerificationBundleResult) (options : ProofBundleOptions) (verifiedAt : string) : jsval :=
  JObj [("status", JStr "dev_mode"); ("verifier_version", JStr "mock-bundle"); ("verified_at", JStr verifiedAt);
        ("duration_ms", JNum (NInt 0)); ("expected_image_id", JStr (po_expectedImageId options));
        ("bundle_path", JStr (path_basename (bu_bundlePath bundle)));
        ("receipt_path", JStr (path_basename (bu_receiptPath bundle)));
        ("receipt_image_id", JStr (default (po_expectedImageId options)
                                     (rc_imageId (nr_receipt (po_normalizedReceipt options)))));
        ("dev_mode_receipt", JBool true)]%string.

Definition createMockVerificationReport (bundle : VerificationBundleResult) (options : ProofBundleOptions) :
    SM St VerifierInvocationResult :=
  verifiedAt ← iso_now;
  wireReport ← sm_lift (VerifierReport.parseVerifierServiceWireReport (mock_report bundle options verifiedAt));
  if negb (VerifierReport.has_status wireReport "dev_mode")
  then sm_throw "Mock verifier report did not preserve dev-mode status"
  else
    let report := VerifierReport.projectVerifierServiceWireReport wireReport in
    _ ← write_report (bu_reportPath bundle) wireReport;
    mret (mkInvocation invoked_dev_mode (bu_bundlePath bundle) (bu_reportPath bundle) report).

Definition assertPersistedBundleIdentity (bundle : VerificationBundleResult) (options : ProofBundleOptions) : result unit :=
  if negb (String.eqb (bu_sessionId bundle) (po_sessionId options))
  then throw "Persisted proof bundle session identity does not match the request"
  else if negb (String.eqb (bu_finalizationId bundle) (po_finalizationId options))
  then throw "Persisted proof bundle finalization identity does not match the request"
  else Ok tt.

(** Keys that are empty are left out. *)
Definition recordBundlePublication (bundle : VerificationBundleResult) (publication : BundlePublicationResult) : SM St unit :=
  match port_recordPublication with
  | None => mret tt
  | Some record =>
      record (bu_sessionId bundle) (bu_finalizationId bundle)
        (mkPublished (nonempty (bp_s3BundleKey publication)) (nonempty (bp_s3ReportKey publication))
           (bp_s3UploadedAtMs publication))
  end.

Definition invocation_status (status : InvocationStatus) : string :=
  match status with invoked_success => "success" | invoked_dev_mode => "dev_mode" | invoked_failed => "failed" end.

Definition projectVerificationResult (invocation : VerifierInvocationResult) : jsval :=
  JObj [("status", JStr (invocation_status (iv_status invocation))); ("report", iv_report invocation)]%string.

Definition buildVerificationOutcome (invocation : VerifierInvocationResult) (bundle : VerificationBundleResult) :
    ProofBundleOutcome :=
  bundle_created (projectVerificationResult invocation) (bu_finalizationId bundle).

Definition publish_bundle (bundle : VerificationBundleResult) (upload : bool) : SM St BundlePublicationResult :=
  publishBundleArtifacts (bu_bundlePath bundle) (bu_sessionId bundle) (bu_finalizationId bundle) upload.

Definition accepted (invocation : VerifierInvocationResult) (options : ProofBundleOptions) : bool :=
  match iv_status invocation with
  | invoked_success => true
  | invoked_dev_mode => po_allowDevMode options
  | invoked_failed => false
  end.

(** The body of the [try]. *)
Definition create_bundle (options : ProofBundleOptions) : SM St ProofBundleOutcome :=
  bundle ← persistProofVerificationBundle options;
  _ ← sm_lift (assertPersistedBundleIdentity bundle options);
  if negb (po_verifies options) then
    mockInvocation ← createMockVerificationReport bundle options;
    publication ← publish_bundle bundle true;
    _ ← recordBundlePublication bundle publication;
    mret (buildVerificationOutcome mockInvocation bundle)
  else
    invocation ← invokeVerifier (bu_bundlePath bundle) (po_expectedImageId options) (bu_reportPath bundle);
    publication ← publish_bundle bundle (accepted invocation options);
    match iv_status invocation with
    | invoked_dev_mode =>
        if po_allowDevMode options then
          _ ← recordBundlePublication bundle publication; mret (buildVerificationOutcome invocation bundle)
        else mret (bundle_failed (verifier_failed true (bu_finalizationId bundle) (iv_report invocation)))
    | invoked_failed => mret (bundle_failed (verifier_failed false (bu_finalizationId bundle) (iv_report invocation)))
    | invoked_success => _ ← recordBundlePublication bundle publication; mret (buildVerificationOutcome invocation bundle)
    end.

Definition api_createBundle (options : ProofBundleOptions) : SM St ProofBundleOutcome :=
  sm_catch (create_bundle options) (fun error => mret (bundle_failed (invocation_failed error))).

End api.
End ApiProofBundle.

(** * What a synchronous finalization promises *)
Import FinalizeSync.
Import ApiProofBundle.

(** Not finding what follows, a run ends where it was. *)
Lemma bind_cases {S A B} (m : SM S A) (f : A -> SM S B) s r s' : (m ≫= f) s = (r, s') ->
  (exists a s1, m s = (Ok a, s1) /\ f a s1 = (r, s')) \/ (exists e, m s = (Err e, s') /\ r = Err e).
Proof.
  unfold mbind, SM_bind. destruct (m s) as [[a | e] s1]; [intros E; left; by exists a, s1 | intros [= <- <-]; right; by exists e].
Qed.

Lemma lift_cases {S A B} (m : result A) (f : A -> SM S B) s r s' : (sm_lift m ≫= f) s = (r, s') ->
  (exists a, m = Ok a /\ f a s = (r, s')) \/ (exists e, m = Err e /\ r = Err e /\ s' = s).
Proof.
  intros [(a & s1 & [= E <-] & H) | (e & [= E <-] & H)]%bind_cases; [left; by exists a | right; by exists e].
Qed.

(** What stands behind a bundle that the service of the API created: the documents of
    exactly the execution it was asked for were stored, and the verifier ran on them
    and accepted, where it was to verify; a mock report says that it is one. *)
Inductive bundle_behind {St} `{ApiBundlePorts St} `{Noble} (workDir : option string) (options : ProofBundleOptions)
    (verificationResult : jsval) (s : St) : Prop :=
| behind bundle createdAt artifacts s0 s1 invocation s2 :
    iso_now s = (Ok createdAt, s0) -> buildVerificationBundleArtifacts (bundle_context options createdAt) = Ok artifacts ->
    persist_files (po_sessionId options) (po_finalizationId options) workDir artifacts s0 =
      (Ok (po_sessionId options, po_finalizationId options, bu_bundlePath bundle), s1) ->
    verificationResult = projectVerificationResult invocation ->
    (if po_verifies options
     then invokeVerifier (bu_bundlePath bundle) (po_expectedImageId options) (path_join (bu_bundlePath bundle) "verification.json") s1 =
            (Ok invocation, s2) /\
          (iv_status invocation = invoked_success \/ iv_status invocation = invoked_dev_mode /\ po_allowDevMode options = true)
     else createMockVerificationReport bundle options s1 = (Ok invocation, s2) /\ iv_status invocation = invoked_dev_mode) ->
    bundle_behind workDir options verificationResult s.

Section bundles.
Context {St : Type} `{ApiBundlePorts St} `{Noble}.

Lemma persisted_bundle workDir options s bundle s1 : persistProofVerificationBundle workDir options s = (Ok bundle, s1) ->
  bu_finalizationId bundle = po_finalizationId options /\
  bu_reportPath bundle = path_join (bu_bundlePath bundle) "verification.json" /\
  exists createdAt artifacts s0, iso_now s = (Ok createdAt, s0) /\
    buildVerificationBundleArtifacts (bundle_context options createdAt) = Ok artifacts /\
    persist_files (po_sessionId options) (po_finalizationId options) workDir artifacts s0 =
      (Ok (po_sessionId options, po_finalizationId options, bu_bundlePath bundle), s1).
Proof.
  unfold persistProofVerificationBundle. intros [(createdAt & s0 & En & E) | (e & _ & [=])]%bind_cases.
  apply lift_cases in E as [(artifacts & Ea & E) | (e & _ & [=] & _)].
  apply bind_cases in E as [([[sessionId id] path] & s2 & Ep & E) | (e & _ & [=])].
  destruct (String.eqb_spec sessionId (po_sessionId options)) as [-> |], (String.eqb_spec id (po_finalizationId options)) as [-> |];
    try done. injection E as <- <-. split_and!; [done | done | by exists createdAt, artifacts, s0].
Qed.

Lemma mock_dev_mode bundle options s invocation s' : createMockVerificationReport bundle options s = (Ok invocation, s') ->
  iv_status invocation = invoked_dev_mode.
Proof.
  unfold createMockVerificationReport. intros [(at_ & s0 & _ & E) | (e & _ & [=])]%bind_cases.
  apply lift_cases in E as [(report & _ & E) | (e & _ & [=] & _)]. destruct (negb _); [done |]. cbv zeta in E.
  apply bind_cases in E as [(u & s1 & _ & E) | (e & _ & [=])]. by injection E as <- <-.
Qed.

Lemma recorded_outcome bundle publication invocation s v id s' :
  (_ ← recordBundlePublication bundle publication; mret (buildVerificationOutcome invocation bundle)) s =
    (Ok (bundle_created v id), s') ->
  v = projectVerificationResult invocation /\ id = bu_finalizationId bundle.
Proof. intros [(u & s1 & _ & [= <- <- _]) | (e & _ & [=])]%bind_cases. done. Qed.

Lemma api_created workDir options s v id s' : api_createBundle workDir options s = (Ok (bundle_created v id), s') ->
  id = po_finalizationId options /\ bundle_behind workDir options v s.
Proof.
  unfold api_createBundle, sm_catch. destruct (create_bundle workDir options s) as [[o | [m |]] s2] eqn:E; [| done | done].
  intros [= -> ->]. unfold create_bundle in E.
  apply bind_cases in E as [(bundle & s1 & Ep & E) | (e & _ & [=])].
  apply lift_cases in E as [(u & _ & E) | (e & _ & [=] & _)].
  apply persisted_bundle in Ep as (Eid & Er & createdAt & artifacts & s0 & En & Ea & Ep). rewrite <- Eid.
  destruct (po_verifies options) eqn:Ev; cbn [negb] in E;
    apply bind_cases in E as [(invocation & s3 & Ei & E) | (e & _ & [=])];
    apply bind_cases in E as [(publication & s4 & _ & E) | (e & _ & [=])].
  - rewrite Er in Ei.
    destruct (iv_status invocation) eqn:Es; [| destruct (po_allowDevMode options) eqn:Ed | done]; try done;
      apply recorded_outcome in E as [-> ->]; (split; [done |]);
      eapply behind; try done; rewrite Ev; (split; [exact Ei |]); rewrite Es; auto.
  - apply recorded_outcome in E as [-> ->]. split; [done |]. eapply behind; try done. rewrite Ev. split; [exact Ei |].
    by eapply mock_dev_mode.
Qed.

End bundles.

Section promises.
Context {St : Type} `{SyncServices St} `{NobleLaws}.

(** What every service keeps, except the commit: for instance the records of the
    store, or any order in which other invocations move them. *)
Variable kept : St -> St -> Prop.
Context `{!PreOrder kept}.

Definition keeps {A} (m : SM St A) : Prop := forall s r s', m s = (r, s') -> kept s s'.

Record services_keep : Prop := {
  sk_clock : keeps sync_clock;
  sk_date : keeps date_now;
  sk_executor : keeps getExecutor;
  sk_execute executor s s' : getExecutor s = (Ok executor, s') -> forall input, keeps (ex_execute executor input);
  sk_bundle options : keeps (createBundle options);
}.

Lemma keeps_ret {A} (a : A) : keeps (mret a).
Proof. by intros s r s' [= _ <-]. Qed.

Lemma keeps_lift {A} (m : result A) : keeps (sm_lift m).
Proof. by intros s r s' [= _ <-]. Qed.

Lemma keeps_bind {A B} (m : SM St A) (f : A -> SM St B) : keeps m -> (forall a, keeps (f a)) -> keeps (m ≫= f).
Proof.
  intros Hm Hf s r s' [(a & s1 & E & E') | (e & E & _)]%bind_cases; [| by eapply Hm]. etrans; [by eapply Hm | by eapply Hf].
Qed.

Lemma keeps_catch {A} (m : SM St A) handler : keeps m -> (forall e, keeps (handler e)) -> keeps (sm_catch m handler).
Proof.
  intros Hm Hh s r s'. unfold sm_catch. destruct (m s) as [[a | [e |]] s1] eqn:E; intros E'.
  - injection E' as <- <-. by eapply Hm.
  - etrans; [by eapply Hm | by eapply Hh].
  - injection E' as <- <-. by eapply Hm.
Qed.

(** The bundle service of the API keeps what its ports keep. *)
Record ports_keep `{ApiBundlePorts St} : Prop := {
  pk_now : keeps iso_now;
  pk_persist sessionId id workDir artifacts : keeps (persist_files sessionId id workDir artifacts);
  pk_report path report : keeps (write_report path report);
  pk_verifier bundlePath image reportPath : keeps (invokeVerifier bundlePath image reportPath);
  pk_publish bundlePath sessionId id upload : keeps (publishBundleArtifacts bundlePath sessionId id upload);
  pk_record record : port_recordPublication = Some record -> forall sessionId id p, keeps (record sessionId id p);
}.

Lemma api_keeps `{ApiBundlePorts St} workDir options : ports_keep -> keeps (api_createBundle workDir options).
Proof.
  intros []. assert (Hrecord : forall bundle p, keeps (recordBundlePublication bundle p)).
  { intros bundle p. unfold recordBundlePublication. destruct port_recordPublication as [record |] eqn:E; [by eapply pk_record0 | apply keeps_ret]. }
  apply keeps_catch; [| intros e; apply keeps_ret]. unfold create_bundle, createMockVerificationReport, persistProofVerificationBundle.
  repeat first [ apply keeps_ret | apply keeps_lift | done | apply Hrecord | apply pk_persist0 | apply pk_report0 | apply pk_verifier0
    | apply pk_publish0 | apply keeps_bind; [| intros ?] | case_match | apply (keeps_lift (throw _)) ].
Qed.

(** What is known of a commit when it is called. *)
Record sync_evidence (input : FinalizeSyncInput) (execution : ZkVMExecutionResult) (receipt : NormalizedExecutionReceipt)
    (artifacts : UserVoteArtifacts) (verificationResult : jsval) (c : SuccessfulFinalizationCommitInput)
    (r : FinalizationResultAuthority) : Prop := {
  se_record : exists startedAtMs completedAtMs, ci_record c = sync_record input startedAtMs completedAtMs r;
  se_journal : Journal.toPublicZkvmJournal (xe_journal execution) = Ok (ra_journal r) /\
    Journal.isSupportedZkVMJournal (Journal.journal_value (ra_journal r)) = true;
  se_image : ra_imageId r = fy_expectedImageId input /\ nonempty (execution_image execution) = Some (ra_imageId r);
  se_receipt : normalizeExecutionReceipt (xe_receipt execution) (ra_imageId r) = Ok receipt /\
    fa_receipt (ra_artifacts r) = Some (nr_receipt receipt);
  se_artifacts : buildUserVoteArtifacts (fy_voting input) (ra_journal r) = Ok (Built artifacts);
  se_audit : exists audit, fa_publicAudit (ra_artifacts r) = Some audit /\
    computeInputCommitment (fy_zkvmInput input) =
      Ok (pa_recomputedInputCommitment (PublicInput.sp_typedAuthority (au_publicInputArtifact audit)));
  se_bitmap : ci_bitmap c = disposition_of (fa_bitmap (ra_artifacts r)) /\
    forall source data, fa_bitmap (ra_artifacts r) = Some (source, data) ->
      xe_includedBitmap execution = Some (bd_includedBitmap data) /\ bd_treeSize data = j_treeSize (ra_journal r) /\
      bd_includedBitmapRoot data = root_text (bd_includedBitmap data) /\
      normalizeHexString (j_includedBitmapRoot (ra_journal r)) = normalizeHexString (bd_includedBitmapRoot data) /\
      forall bits root, bd_seen data = Some (bits, root) -> xe_seenBitmap execution = Some bits /\ root = root_text bits /\
        exists given, j_seenBitmapRoot (ra_journal r) = Some given /\ normalizeHexString given = normalizeHexString root;
  se_verification : ci_verificationResult c = Some verificationResult;
}.

(** The record that the store returned has no result of this attempt. *)
Definition other_record (input : FinalizeSyncInput) (committed : SuccessfulFinalizationCommitResult) : Prop :=
  forall found, fr_result (cr_record committed) = Some found -> rr_finalizationId found <> fy_finalizationId input.

Definition is_journal_text (receipt : ReceiptWithImageId) : bool :=
  match rc_journal receipt with journal_text _ => true | journal_bytes _ => false end.

(** What the commit answered and what becomes of it. *)
Definition sync_answer (input : FinalizeSyncInput) (receipt : NormalizedExecutionReceipt) (artifacts : UserVoteArtifacts)
    (verificationResult : jsval) (answer : result SuccessfulFinalizationCommitResult)
    (r : result (Finalized FinalizeSyncPayload)) : Prop :=
  match r with
  | Ok (Done payload) => exists committed, answer = Ok committed /\
      fr_result (cr_record committed) = Some (mkResultRecord (fy_finalizationId input) (sp_finalizationResult payload)) /\
      sp_state payload = fr_state (cr_record committed) /\ sp_bitmapDisposition payload = cr_bitmap committed /\
      sp_verificationResult payload = verificationResult /\ sp_artifacts payload = artifacts /\
      sp_receipt payload = nr_receipt receipt /\ rc_journal (sp_receipt payload) = journal_text (sp_receiptJournal payload)
  | Ok (Failed _) => False
  | Err OutOfFuel => answer = Err OutOfFuel
  | Err (Throw e) => answer = Err (Throw e) \/
      exists committed, answer = Ok committed /\ (other_record input committed \/ is_journal_text (nr_receipt receipt) = false)
  end.

Inductive committed (input : FinalizeSyncInput) (execution : ZkVMExecutionResult) (receipt : NormalizedExecutionReceipt)
    (artifacts : UserVoteArtifacts) (verificationResult : jsval) (s s' : St) (r : result (Finalized FinalizeSyncPayload)) : Prop :=
| commit_called c authority s1 answer s2 :
    kept s s1 -> commitSuccessfulFinalization c s1 = (answer, s2) -> kept s2 s' ->
    sync_evidence input execution receipt artifacts verificationResult c authority ->
    sync_answer input receipt artifacts verificationResult answer r ->
    committed input execution receipt artifacts verificationResult s s' r.

Definition unchanged (s s' : St) (r : result (Finalized FinalizeSyncPayload)) : Prop :=
  kept s s' /\ forall payload, r <> Ok (Done payload).

Hypothesis quiet : services_keep.

(** ** Bitmaps *)

Lemma root_compared bits root : String.eqb (normalizeHexString (root_text bits)) (normalizeHexString (HostIo.normalizeBitmapRoot root)) = true ->
  HostIo.normalizeBitmapRoot root = root_text bits /\ normalizeHexString root = normalizeHexString (root_text bits).
Proof.
  intros E%String.eqb_eq. assert (Ei : normalizeHexString (HostIo.normalizeBitmapRoot root) = normalizeHexString root).
  { change (normalizeHexString (HostIo.normalizeBitmapRoot root)) with (to_lower (normalizeHexString root)). apply normalize_idemp. }
  rewrite Ei in E. split; [| done]. unfold HostIo.normalizeBitmapRoot. rewrite <- E. unfold root_text.
  change (normalizeHexString ("0x" +:+ ?d)) with (to_lower d). f_equal. apply to_lower_lower_hex.
  apply bytesToHex_lower, MerkleSpec.MTH_bytes.
Qed.

Lemma seen_data execution o : buildSeenBitmapData execution = Ok o -> forall bits root, o = Some (bits, root) ->
  xe_seenBitmap execution = Some bits /\ root = root_text bits /\
  exists given, j_seenBitmapRoot (xe_journal execution) = Some given /\ normalizeHexString given = normalizeHexString root.
Proof.
  unfold buildSeenBitmapData. destruct (xe_seenBitmap execution) as [seen |]; [| by intros [= <-]].
  destruct (nonempty _) as [given |] eqn:Eg; [| by intros [= <-]]. rewrite computed_root. cbn [mbind result_bind].
  destruct (String.eqb _ _) eqn:E; [| by intros [= <-]]. cbn [negb]. intros [= <-] bits root [= <- <-].
  apply root_compared in E as [-> E]. split_and!; [done | done |]. exists given. split; [| done].
  unfold nonempty in Eg. destruct (j_seenBitmapRoot _) as [x |]; [| done]. by destruct (str_truthy x).
Qed.

Lemma bitmap_built execution source s o s' : buildBitmapData execution source s = (Ok o, s') -> forall from data, o = Some (from, data) ->
  xe_includedBitmap execution = Some (bd_includedBitmap data) /\ bd_treeSize data = j_treeSize (xe_journal execution) /\
  bd_includedBitmapRoot data = root_text (bd_includedBitmap data) /\
  normalizeHexString (j_includedBitmapRoot (xe_journal execution)) = normalizeHexString (bd_includedBitmapRoot data) /\
  forall bits root, bd_seen data = Some (bits, root) -> xe_seenBitmap execution = Some bits /\ root = root_text bits /\
    exists given, j_seenBitmapRoot (xe_journal execution) = Some given /\ normalizeHexString given = normalizeHexString root.
Proof.
  unfold buildBitmapData. destruct (xe_includedBitmap execution) as [bits |]; [| intros [= <- <-]; done]. cbv zeta.
  intros [(computed & Ec & E) | (e & _ & [=] & _)]%lift_cases. rewrite computed_root in Ec. injection Ec as <-.
  destruct (String.eqb _ _) eqn:Er; cbn [negb] in E; [| by injection E as <- <-].
  apply lift_cases in E as [(seen & Es & E) | (e & _ & [=] & _)]. apply bind_cases in E as [(now & s1 & _ & E) | (e & _ & [=])].
  injection E as <- <-. intros from data [= <- <-]. cbn. apply root_compared in Er as [-> Er].
  split_and!; try done. by apply seen_data.
Qed.

Lemma bitmap_keeps execution source : keeps (buildBitmapData execution source).
Proof.
  intros s r s'. unfold buildBitmapData. destruct (xe_includedBitmap execution) as [bits |]; [| by intros [= <- <-]]. cbv zeta.
  intros [(computed & _ & E) | (e & _ & _ & ->)]%lift_cases; [| done].
  destruct (negb _); [by injection E as <- <- |].
  apply lift_cases in E as [(seen & _ & E) | (e & _ & _ & ->)]; [| done].
  apply bind_cases in E as [(now & s1 & En & E) | (e & En & _)]; [injection E as <- <- |]; by apply (sk_date quiet) in En.
Qed.

(** ** The commit *)

Lemma public_same j p : Journal.toPublicZkvmJournal j = Ok p ->
  j_treeSize p = j_treeSize j /\ j_includedBitmapRoot p = j_includedBitmapRoot j /\ j_seenBitmapRoot p = j_seenBitmapRoot j.
Proof. intros (-> & -> & ->)%public_fields. done. Qed.

Lemma commit_cases input execution started authority bitmap v s r s' :
  commitSyncFinalization input execution started authority bitmap v s = (r, s') ->
  (kept s s' /\ exists e, r = Err e) \/
  exists timestamp completedAtMs s1 answer,
    let c := mkCommitInput (sync_record input started completedAtMs authority)
               (Some (commit_receipt (xe_journal execution), timestamp)) bitmap (Some v) in
    kept s s1 /\ commitSuccessfulFinalization c s1 = (answer, s') /\
    match r with
    | Ok (res, a) => answer = Ok res /\ fr_result (cr_record res) = Some (mkResultRecord (fy_finalizationId input) a)
    | Err OutOfFuel => answer = Err OutOfFuel
    | Err (Throw e) => answer = Err (Throw e) \/ exists res, answer = Ok res /\ other_record input res
    end.
Proof.
  unfold commitSyncFinalization.
  intros [(t & s1 & Et & E) | (e & Et & ->)]%bind_cases; apply (sk_clock quiet) in Et; [| left; eauto].
  apply bind_cases in E as [(t' & s2 & Et' & E) | (e & Et' & ->)]; apply (sk_clock quiet) in Et';
    [| left; split; [by etrans | eauto]].
  right. exists t, t', s2. apply bind_cases in E as [(res & s3 & Ec & E) | (e & Ec & ->)].
  - exists (Ok res). destruct (fr_result (cr_record res)) as [[id a] |] eqn:Ef.
    + cbn [rr_finalizationId rr_authority] in E. destruct (String.eqb_spec id (fy_finalizationId input)) as [-> | Hn]; cbn [negb] in E;
        injection E as <- <-; (split; [by etrans | split; [done |]]); [done |].
      right. exists res. split; [done |]. intros found. rewrite Ef. by intros [= <-].
    + injection E as <- <-. split; [by etrans | split; [done |]]. right. exists res. split; [done |]. intros found. by rewrite Ef.
  - exists (Err e). split; [by etrans | split; [done |]]. destruct e; [by left | done].
Qed.

Lemma commit_stage input execution identity receipt audit bitmap artifacts verificationResult started source s0 s1 s r s' :
  Journal.toPublicZkvmJournal (xe_journal execution) = Ok (xi_publicJournal identity) ->
  Journal.isSupportedZkVMJournal (Journal.journal_value (xi_publicJournal identity)) = true ->
  xi_actualImageId identity = fy_expectedImageId input ->
  nonempty (execution_image execution) = Some (xi_actualImageId identity) ->
  normalizeExecutionReceipt (xe_receipt execution) (xi_actualImageId identity) = Ok receipt ->
  buildUserVoteArtifacts (fy_voting input) (xi_publicJournal identity) = Ok (Built artifacts) ->
  computeInputCommitment (fy_zkvmInput input) =
    Ok (pa_recomputedInputCommitment (PublicInput.sp_typedAuthority (au_publicInputArtifact audit))) ->
  buildBitmapData execution source s0 = (Ok bitmap, s1) ->
  (committed ← commitSyncFinalization input execution started
                 (buildSyncFinalizationAuthority input execution identity (nr_receipt receipt) audit bitmap)
                 (disposition_of bitmap) verificationResult;
   match rc_journal (nr_receipt receipt) with
   | journal_bytes _ => sm_throw "Receipt journal is missing or invalid"
   | journal_text receiptJournal =>
       mret (Done (mkSyncPayload (fy_sessionId input) (fy_finalizationId input) (fr_state (cr_record committed.1)) committed.2
                     verificationResult (cr_bitmap committed.1) artifacts (nr_receipt receipt) receiptJournal))
   end) s = (r, s') ->
  unchanged s s' r \/ committed input execution receipt artifacts verificationResult s s' r.
Proof.
  intros Hj Hs Hi Hx Hr Ha Hc Hb E. set (authority := buildSyncFinalizationAuthority _ _ _ _ _ _) in *.
  assert (Hbit := bitmap_built _ _ _ _ _ Hb). destruct (public_same _ _ Hj) as (Et & Ei & Es).
  assert (Hev : forall startedAtMs completedAtMs receiptData, sync_evidence input execution receipt artifacts verificationResult
     (mkCommitInput (sync_record input startedAtMs completedAtMs authority) receiptData (disposition_of bitmap)
        (Some verificationResult)) authority).
  { intros startedAtMs completedAtMs receiptData. split.
    - by exists startedAtMs, completedAtMs.
    - done.
    - done.
    - done.
    - done.
    - by exists audit.
    - split; [done |]. change (ra_journal authority) with (xi_publicJournal identity). rewrite Et, Ei, Es. exact Hbit.
    - done. }
  apply bind_cases in E as [([res a] & s2 & Ec & E) | (e & Ec & ->)]; apply commit_cases in Ec as
    [[Hk Herr] | (timestamp & completedAtMs & s3 & answer & Hk & Hcall & Hans)].
  - by destruct Herr as [e [=]].
  - destruct Hans as [-> Hres]. right. assert (Es' : s' = s2) by (destruct (rc_journal _) in E; by injection E as <- <-). subst s2.
    eapply commit_called; [exact Hk | exact Hcall | done | apply Hev |].
    destruct (rc_journal (nr_receipt receipt)) eqn:Ej; injection E as <-; [by exists res |].
    right. exists res. split; [done |]. right. unfold is_journal_text. by rewrite Ej.
  - left. split; [done |]. by intros payload [=].
  - right. eapply commit_called; [exact Hk | exact Hcall | done | apply Hev |].
    destruct e as [m |]; [| done]. destruct Hans as [Hans | (res & Hres & Ho)]; [by left | right; exists res; auto].
Qed.

(** ** The run *)

Lemma unchanged_before s0 s s' r : kept s0 s -> unchanged s s' r -> unchanged s0 s' r.
Proof. intros Hk [Hu Hr]. split; [by etrans | done]. Qed.

Lemma committed_before input execution receipt artifacts v s0 s s' r : kept s0 s ->
  committed input execution receipt artifacts v s s' r -> committed input execution receipt artifacts v s0 s' r.
Proof. intros Hk [c a s1 answer s2 Hb Hc Ha He Hans]. by eapply commit_called; [etrans | exact Hc | ..]. Qed.

Lemma outcome_before input execution receipt artifacts v s0 s s' r : kept s0 s ->
  unchanged s s' r \/ committed input execution receipt artifacts v s s' r ->
  unchanged s0 s' r \/ committed input execution receipt artifacts v s0 s' r.
Proof. intros Hk [Hu | Hc]; [left; by eapply unchanged_before | right; by eapply committed_before]. Qed.

Lemma failed_unchanged s s' e : kept s s' -> unchanged s s' (Ok (Failed e)).
Proof. intros Hk. split; [done | by intros payload]. Qed.

Lemma thrown_unchanged s s' e : kept s s' -> unchanged s s' (Err e).
Proof. intros Hk. split; [done | by intros payload]. Qed.

Lemma finish_cases input executor execution identity receipt manifest artifacts v started s r s' :
  admitExecutionIdentity input execution = Done identity ->
  normalizeExecutionReceipt (xe_receipt execution) (xi_actualImageId identity) = Ok receipt ->
  buildUserVoteArtifacts (fy_voting input) (xi_publicJournal identity) = Ok (Built artifacts) ->
  finish_sync input started executor execution identity receipt manifest artifacts v s = (r, s') ->
  unchanged s s' r \/ committed input execution receipt artifacts v s s' r.
Proof.
  intros Hid Hr Ha E. unfold admitExecutionIdentity, admitCurrentExecutionJournal in Hid.
  destruct (Journal.toPublicZkvmJournal _) as [journal |] eqn:Ej; [| done].
  destruct (Journal.isSupportedZkVMJournal _) eqn:Es; [| done].
  destruct (nonempty _) as [image |] eqn:Ei; [| done]. destruct (String.eqb_spec image (fy_expectedImageId input)) as [Em |]; [| done].
  injection Hid as <-. cbn [xi_actualImageId xi_publicJournal] in *. unfold finish_sync in E.
  apply lift_cases in E as [(audit & Eu & E) | (e & _ & -> & ->)]; [| left; by apply thrown_unchanged].
  apply bind_cases in E as [(bitmap & s1 & Eb & E) | (e & Eb & ->)]; [| left; by apply thrown_unchanged; eapply bitmap_keeps].
  eapply outcome_before; [by eapply bitmap_keeps |]. apply bind_Ok in Eu as (artifact & Ep & Eu).
  apply bind_Ok in Eu as (statement & _ & Eu). destruct (generated_input_commits _ _ _ _ _ Ep) as (Hc & _).
  eapply (commit_stage input execution (mkIdentity journal image)); cbn [xi_actualImageId xi_publicJournal];
    [done | done | done | done | done | done | | exact Eb | exact E].
  by injection Eu as <-.
Qed.

(** What the bundle is asked for: the verifier is to run unless the executor is a mock. *)
Record bundle_request (input : FinalizeSyncInput) (executor : ZkVMExecutor St) (execution : ZkVMExecutionResult)
    (receipt : NormalizedExecutionReceipt) (options : ProofBundleOptions) : Prop := {
  br_sessionId : po_sessionId options = fy_sessionId input;
  br_finalizationId : po_finalizationId options = fy_finalizationId input;
  br_zkvmInput : po_zkvmInput options = fy_zkvmInput input;
  br_electionConfig : po_electionConfig options = fy_electionConfig input;
  br_electionManifest : po_electionManifest options =
    Verifiers.buildElectionManifest (in_electionId (fy_zkvmInput input)) (fy_electionConfig input);
  br_zkvmResult : po_zkvmResult options = execution;
  br_receipt : po_normalizedReceipt options = receipt;
  br_image : po_expectedImageId options = fy_expectedImageId input;
  br_allowDevMode : po_allowDevMode options = fy_allowDevMode input;
  br_verifies : po_verifies options = true <-> ex_type executor = source_real;
}.

(** The calls before the commit, each from where the one before it ended. *)
Inductive sync_calls (input : FinalizeSyncInput) (execution : ZkVMExecutionResult) (receipt : NormalizedExecutionReceipt)
    (verificationResult : jsval) (s s' : St) : Prop :=
| bundle_called executor options s0 s1 s2 :
    kept s s0 -> getExecutor s0 = (Ok executor, s1) ->
    ex_execute executor (fy_zkvmInput input) s1 = (Ok execution, s2) ->
    bundle_request input executor execution receipt options ->
    createBundle options s2 = (Ok (bundle_created verificationResult (fy_finalizationId input)), s') ->
    (forall `{ApiBundlePorts St} workDir, (forall o t, createBundle o t = api_createBundle workDir o t) ->
       bundle_behind workDir options verificationResult s2) ->
    sync_calls input execution receipt verificationResult s s'.

Lemma calls_before input execution receipt v s0 s s' : kept s0 s -> sync_calls input execution receipt v s s' ->
  sync_calls input execution receipt v s0 s'.
Proof. intros Hk [executor options s1 s2 s3 Hb ? ? ? ? ?]. eapply bundle_called; [by etrans | done ..]. Qed.

Lemma artifacts_cases input journal o : resolveExactUserVoteArtifacts input journal = Ok (Done o) ->
  buildUserVoteArtifacts (fy_voting input) journal = Ok (Built o).
Proof.
  unfold resolveExactUserVoteArtifacts. destruct (buildUserVoteArtifacts _ _) as [[a | m] | [m |]]; cbn; try done.
  by intros [= ->].
Qed.

Lemma run_cases input started s r s' : run_sync input started s = (r, s') ->
  unchanged s s' r \/
  exists execution receipt artifacts v s1, sync_calls input execution receipt v s s1 /\
    committed input execution receipt artifacts v s1 s' r.
Proof.
  unfold run_sync. intros [(executor & s1 & Ex & E) | (e & Ex & ->)]%bind_cases;
    assert (Hk := sk_executor quiet _ _ _ Ex); [| left; by apply thrown_unchanged].
  apply bind_cases in E as [(execution & s2 & Ee & E) | (e & Ee & ->)]; assert (Hk' := sk_execute quiet _ _ _ Ex _ _ _ _ Ee);
    [| left; apply thrown_unchanged; by etrans].
  assert (Hk2 : kept s s2) by (by etrans).
  destruct (admitExecutionIdentity input execution) as [identity | e] eqn:Ei;
    [| injection E as <- <-; left; by apply failed_unchanged].
  apply lift_cases in E as [(receipt & Er & E) | (e & _ & -> & ->)]; [| left; by apply thrown_unchanged].
  apply lift_cases in E as [(userArtifacts & Ea & E) | (e & _ & -> & ->)]; [| left; by apply thrown_unchanged].
  destruct userArtifacts as [artifacts | e]; [| injection E as <- <-; left; by apply failed_unchanged].
  apply bind_cases in E as [(outcome & s3 & Eb & E) | (e & Eb & ->)]; assert (Hk3 := sk_bundle quiet _ _ _ _ Eb);
    [| left; apply thrown_unchanged; by etrans].
  assert (Hk4 : kept s s3) by (by etrans).
  destruct outcome as [v id | e]; [| injection E as <- <-; left; by apply failed_unchanged].
  destruct (String.eqb_spec id (fy_finalizationId input)) as [-> |]; cbn [negb] in E;
    [| injection E as <- <-; left; by apply failed_unchanged].
  assert (Himage : xi_actualImageId identity = fy_expectedImageId input).
  { unfold admitExecutionIdentity in Ei. destruct (admitCurrentExecutionJournal _); [| done]. destruct (nonempty _) as [actual |]; [| done].
    destruct (String.eqb_spec actual (fy_expectedImageId input)) as [Em |]; [| done]. by injection Ei as <-. }
  apply (finish_cases _ _ _ _ _ _ _ _ _ _ _ _ Ei Er (artifacts_cases _ _ _ Ea)) in E as [Hu | Hc];
    [left; by eapply unchanged_before |].
  right. exists execution, receipt, artifacts, v, s3. split; [| done].
  eapply bundle_called; [reflexivity | exact Ex | exact Ee | | exact Eb |].
  - split; cbn; try done. by destruct (ex_type executor).
  - intros ports workDir Hapi. rewrite Hapi in Eb. by apply api_created in Eb as [_ Hb].
Qed.

(** C26: A synchronous finalization commits only what was proved, and answers only what
    was committed. Either nothing but the other services was called and the answer
    is no success; or the calls were these, in this order: the executor ran on the
    guest input of the request; the proof bundle was made for this attempt, of
    exactly this execution, its receipt and the expected image, with the verifier
    for every executor that is not a mock (where the service is that of the API, the
    verifier ran on the stored bundle of this execution and succeeded, or answered
    dev mode where that is allowed, and a mock is reported as dev mode); then one commit, with
    evidence: the journal is a supported one and its image the expected one, the
    result carries that journal, the receipt of the execution, a public input with
    the commitment of the guest input and the bitmaps whose roots are in the
    journal, and the vote of the user has its proof. The answer is then the record
    the store returned; it is an error only if the commit failed, the
    record returned has no result of this attempt, or the receipt has no text of a
    journal. *)
Theorem sync_commits_only_proved input s r s' : finalizeSync input s = (r, s') ->
  unchanged s s' r \/
  exists execution receipt artifacts verificationResult s1,
    sync_calls input execution receipt verificationResult s s1 /\
    (committed input execution receipt artifacts verificationResult s1 s' r \/
     r = Ok proof_generation_failed /\
     exists e, committed input execution receipt artifacts verificationResult s1 s' (Err (Throw e))).
Proof.
  unfold finalizeSync. intros [(started & s1 & Et & E) | (e & Et & ->)]%bind_cases; assert (Hk := sk_clock quiet _ _ _ Et);
    [| left; by apply thrown_unchanged].
  unfold sm_catch in E. destruct (run_sync input started s1) as [r' s2] eqn:Er. apply run_cases in Er.
  destruct Er as [Hu | (execution & receipt & artifacts & v & sb & Hcalls & Hc)].
  - left. apply (unchanged_before _ _ _ _ Hk). destruct Hu as [Hu Hr].
    destruct r' as [o | [message |]]; injection E as <- <-; [done | by apply failed_unchanged | done].
  - right. exists execution, receipt, artifacts, v, sb. split; [by eapply calls_before |].
    destruct r' as [o | [message |]]; injection E as <- <-; [by left | right | by left]. split; [done | by exists message].
Qed.

(** ** The admission of the bitmap *)

Definition disposition_value (disposition : FinalizationBitmapDisposition) : jsval :=
  match disposition with
  | bitmap_unavailable => JObj [("availability"%string, JStr "unavailable")]
  | bitmap_available data => evidence_value (encodeFinalizationBitmapData data)
  end.

Lemma same_root a bits : normalizeHexString a = normalizeHexString (root_text bits) -> normalizeHex32 (Some a) = Some (root_text bits).
Proof.
  assert (Hn := root_text_normal bits). unfold normalizeHex32, isValidHexString in *. intros E. rewrite E.
  destruct (str_truthy (root_text bits)); [| done]. cbn [negb] in Hn.
  destruct a as [| x a]; [| done]. exfalso. change (normalizeHexString "") with ""%string in E. by rewrite <- E in Hn.
Qed.

(** The size of the tree counts the bits of both bitmaps. *)
Definition bits_match (journal : ZkVMJournal) (data : FinalizationBitmapData) : Prop :=
  j_treeSize journal = NInt (zlength (bd_includedBitmap data)) /\
  forall bits root, bd_seen data = Some (bits, root) -> j_treeSize journal = NInt (zlength bits).

Lemma supported_size j : Journal.isSupportedZkVMJournal (Journal.journal_value j) = true ->
  admit_safe_count (isNumber (JNum (j_treeSize j))) = Some (j_treeSize j).
Proof.
  intros (_ & _ & _ & _ & Hs & _)%Journal.supported_parts. rewrite (value_evidence _ Hs) in Hs.
  apply Journal.journal_semantics_spec in Hs as (tally & n & seen & missing & invalid & rejected & excluded & sr & ir & te & tv & vv & iv & E & Hp & _).
  assert (Ht : j_treeSize j = NInt n) by (by injection E). apply Journal.part_treeSize in Hp. rewrite Ht.
  unfold admit_safe_count, isNumber. cbn [isFinite].
  assert (isNonNegativeSafeInteger (NInt n) = true) as ->; [| done].
  apply isNonNegativeSafeInteger_spec. exists n. split; [done |]. unfold UINT32_MAX, MAX_SAFE_INTEGER in *. lia.
Qed.

Lemma same_bitmap data : isInteger (bd_treeSize data) = true ->
  admit_safe_count (isNumber (JNum (bd_finalizedAtMs data))) = Some (bd_finalizedAtMs data) -> sameBitmapData data data = true.
Proof.
  intros Hn Ht. assert (Hi : num_eqb (bd_finalizedAtMs data) (bd_finalizedAtMs data) = true).
  { destruct (bd_finalizedAtMs data); try done. apply Z.eqb_refl. }
  unfold sameBitmapData, sameSeenBitmapData. destruct (bd_treeSize data) as [n | | |]; try done. cbn [num_eqb].
  rewrite Z.eqb_refl, Hi, !bool_decide_eq_true_2 by done. destruct (bd_seen data) as [[bits root] |]; [| done].
  by rewrite !bool_decide_eq_true_2.
Qed.

(** C32: The bitmap evidence of a synchronous commit is admitted by the store that
    commits it, as it is and with the copy in the result, exactly when there is one
    bit per vote of the tree of the journal; where there is no evidence, that is
    admitted. (The root alone does not tell the number of bits, and the use case
    compares roots only.) *)
Theorem sync_bitmap_admitted input execution receipt artifacts verificationResult c authority :
  sync_evidence input execution receipt artifacts verificationResult c authority ->
  (forall data, ci_bitmap c = bitmap_available data ->
     admit_safe_count (isNumber (JNum (bd_finalizedAtMs data))) = Some (bd_finalizedAtMs data)) ->
  (admitFinalizationBitmapDisposition authority (disposition_value (ci_bitmap c)) = Ok (ci_bitmap c) <->
   match ci_bitmap c with
   | bitmap_unavailable => True
   | bitmap_available data => bits_match (ra_journal authority) data
   end) /\
  (ci_bitmap c = bitmap_unavailable <-> fa_bitmap (ra_artifacts authority) = None).
Proof.
  intros Hev Htime. destruct (se_bitmap _ _ _ _ _ _ _ Hev) as [Ed Hdata]. rewrite Ed in *.
  destruct (fa_bitmap (ra_artifacts authority)) as [[source data] |] eqn:Ef; cbn [disposition_of disposition_value] in *.
  2: { split; [| done]. split; [done |]. intros _. unfold admitFinalizationBitmapDisposition. cbn.
       unfold admitUnavailableBitmap. by rewrite Ef. }
  destruct (Hdata source data eq_refl) as (_ & Hn & Hr & Hj & Hseen). specialize (Htime data eq_refl). split; [| by split].
  split.
  - intros He%admitted_evidence. destruct He as [Hsz Hjn _ _ Hs _ _]. split; [congruence |].
    intros bits root E. destruct (Hs bits root E) as (_ & _ & Hb). congruence.
  - intros [Hsz Hss]. apply evidence_admitted. assert (Hroot : normalizeHex32 (Some (bd_includedBitmapRoot data)) = Some (bd_includedBitmapRoot data))
      by (rewrite Hr; apply root_text_normal).
    assert (Hs' : forall bits root, bd_seen data = Some (bits, root) ->
      root = root_text bits /\ normalizeHex32 (j_seenBitmapRoot (ra_journal authority)) = Some root).
    { intros bits root E. destruct (Hseen bits root E) as (_ & -> & given & -> & Hg). split; [done | by apply same_root]. }
    split.
    + congruence.
    + done.
    + done.
    + rewrite Hr in Hj |- *. by apply same_root.
    + intros bits root E. destruct (Hs' bits root E) as [-> ?]. split_and!; [done | done |]. rewrite Hn. by eapply Hss.
    + intros from embedded. rewrite Ef. intros [= <- <-]. by apply same_bitmap; [rewrite Hn, Hsz |].
    + split; [by eapply normalizeHex32_Some | | done |].
      * rewrite Hn. by apply supported_size, (se_journal _ _ _ _ _ _ _ Hev).
      * destruct (bd_seen data) as [[bits root] |]; [| done]. destruct (Hs' _ _ eq_refl) as [_ ?]. by eapply normalizeHex32_Some.
Qed.

End promises.

(** ** The two ways to a result *)

Lemma one_change result s user options random calls :
  (length (changes (applyScenarioChange result s user options random calls).1) <= S (length (changes result)))%nat.
Proof.
  assert (Hi : forall name index, (length (changes (ignoreScenarioVote result name index)) <= S (length (changes result)))%nat).
  { intros name index. unfold ignoreScenarioVote. destruct (votes_get _ _); [| lia]. cbn. rewrite length_app. cbn. lia. }
  assert (Hr : forall name index choice, (length (changes (recountScenarioVote result name index choice)) <= S (length (changes result)))%nat).
  { intros name index [choice |]; unfold recountScenarioVote; [| lia]. destruct (negb _); [lia |].
    destruct (votes_get _ _); [| lia]. cbn. rewrite length_app. cbn. lia. }
  unfold applyScenarioChange, ignoreRandomScenarioVote. repeat case_match; cbn [fst]; try apply Hi; try apply Hr; lia.
Qed.

(** The names of a prepared context are those that were applied, and its counts are
    numbers, zero when nothing was applied. *)
Lemma prepared_coherent `{Noble} now random input user p : prepare_inputs now random input user = Ok p ->
  let c := pr_scenarioContext p in
  fc_scenarios c = fc_scenariosApplied c /\
  exists ignored recounted, ignoredCount (fc_summary c) = NInt ignored /\ recountedCount (fc_summary c) = NInt recounted /\
    (fc_scenarioResult c = None -> ignored = 0 /\ recounted = 0).
Proof.
  unfold prepare_inputs. cbv zeta. set (scenarios := if String.eqb (fs_scenarioId input) "S0" then [] else [fs_scenarioId input]).
  intros E. apply bind_Ok in E as (application & Ha & E). apply bind_Ok in E as (zi & _ & E). apply bind_Ok in E as (config & _ & E).
  injection E as <-. cbn. unfold applyFinalizeScenarios in Ha. destruct (_ || _); [done |]. cbn [default] in Ha.
  change (default [] (Some scenarios)) with scenarios in Ha.
  change (default false None) with false in Ha. subst scenarios. destruct (String.eqb _ _); cbn in Ha.
  - injection Ha as <-. split; [done |]. exists 0, 0. done.
  - apply bind_Ok in Ha as ([[choice bot] calls] & _ & Ha). injection Ha as <-. split; [done |]. cbn [sa_summary sa_scenarioResult].
    unfold applyScenarios. cbn [apply_scenarios].
    match goal with |- context [applyScenarioChange ?a ?b ?c ?d ?e ?f] =>
      assert (Hl := one_change a b c d e f); destruct (applyScenarioChange a b c d e f) as [next calls'] end.
    cbn [fst changes length] in Hl.
    destruct (changes next) as [| change [| ? ?]]; [by exists 0, 0 | | cbn in Hl; lia].
    unfold summarizeScenarioChanges. cbn [fold_left]. unfold summarize_change. cbn [ignoredCount recountedCount].
    assert (num_add (NInt 0) (NInt 1) = NInt 1) as -> by (vm_compute; reflexivity).
    destruct (ch_action change); [exists 1, 0 | exists 0, 1 | exists 0, 0]; done.
Qed.

(** C28: A synchronous finalization and one that is rehydrated from its journal say the
    same: for the prepared input of a request, the tally, the image, the journal, the
    tampering that is reported and its summary are those that the journal of the
    execution gives under the stored scenario; only the receipt and the bitmaps,
    which a journal does not hold, are added. *)
Theorem sync_result_is_rehydrated `{Noble} now random request user p input execution identity receipt audit bitmap :
  prepare_inputs now random request user = Ok p -> fy_scenario input = pr_scenarioContext p ->
  Journal.toPublicZkvmJournal (xe_journal execution) = Ok (xi_publicJournal identity) ->
  exists r, buildFinalizationResultFromJournal (xe_journal execution) (Some (xi_actualImageId identity))
              (Some (toFinalizationScenarioContext (fy_scenario input))) (Some audit) = Ok r /\
    buildSyncFinalizationAuthority input execution identity receipt audit bitmap =
      mkResultAuthority (ra_tally r) (ra_imageId r) (ra_journal r) (ra_tamperDetected r) (ra_scenarios r) (ra_tamperSummary r)
        (mkArtifacts (Some receipt) None (fa_publicAudit (ra_artifacts r)) bitmap).
Proof.
  intros Hp Hs Hj. apply prepared_coherent in Hp as (Hn & ignored & recounted & Ei & Er & Hz). rewrite <- Hs in *.
  unfold buildFinalizationResultFromJournal. rewrite Hj. cbn [mbind result_bind]. eexists. split; [done |].
  assert (Hx : j_excludedSlots (xi_publicJournal identity) = j_excludedSlots (xe_journal execution) /\
               j_rejectedRecords (xi_publicJournal identity) = j_rejectedRecords (xe_journal execution)).
  { unfold Journal.toPublicZkvmJournal in Hj. destruct (Journal.hasLegacyJournalCountAliases _); [done |].
    destruct (_ || _); [done |]. by injection Hj as <-. }
  unfold buildSyncFinalizationAuthority, applyScenarioContext. cbn -[sync_tamper_summary buildTamperSummary].
  destruct Hx as [-> ->]. rewrite Hn. f_equal. unfold sync_tamper_summary, buildTamperSummary, toFinalizationScenarioContext.
  cbn [sc_ignoredCount sc_recountedCount sc_userRecountChoice sc_affectedBotIds]. rewrite Ei, Er.
  unfold num_leb. cbn [num_ltb num_eqb].
  assert (Hsign : forall z, Z.ltb z 0 || Z.eqb z 0 = negb (Z.ltb 0 z)).
  { intros z. destruct (Z.ltb_spec z 0), (Z.eqb_spec z 0), (Z.ltb_spec 0 z); try done; lia. }
  rewrite !Hsign. destruct (fc_scenarioResult (fy_scenario input)); cbn [is_some andb].
  - by destruct (Z.ltb 0 ignored), (Z.ltb 0 recounted).
  - by destruct (Hz eq_refl) as [-> ->].
Qed.
