(* ===== verification/FinalizeSamples.v ===== *)
(** The finalization of the sample session: the witnesses of the properties of
    the preparation and of the result, at the session that has its 64 votes. *)
From S2P Require Import Prelude.
From S2P Require Import Hex.
From S2P Require Import JsNumber.
From S2P Require Import Contract.
From S2P Require Import Evidence.
From S2P Require Import CtSession.
From S2P Require Import CtSessionProofs.
From S2P Require Import SessionVote.
From S2P Require Import SessionVoteProofs.
From S2P Require Import FinStorage.
From S2P Require Import FinTransition.
From S2P Require Import VoteFlow.
From S2P Require Import MockStore.
From S2P Require Import MockStoreProofs.
From S2P Require Import SessionSamples.
From S2P Require Import PublicInput.
From S2P Require Import GuestInput.
From S2P Require Import Scenario.
From S2P Require Import FinalizeInputs.
From S2P Require Import FinResult.
From S2P Require Import JsValue.
From S2P Require Import JsText.
From S2P Require Import BitmapFacts.
From S2P Require Import HostSamples.
From S2P Require Import FinSamples.
From S2P Require Import CommitAdmission.
From S2P Require Import Verifiers.
From S2P Require Import Journal.
From S2P Require Import Bundle.
From S2P Require Import FinalizeSync.
Import Contract.
Import Evidence.
Import CtSession.
Import SessionVote.
Import VoteFlow.
Import MockStore.
Import Scenario.
Import FinalizeInputs.
Import FinResult.
Import JsText.
Import JsValue.
Import FinTransition.
Import CommitAdmission.
Import Receipt.
Import VerificationBundle.
Import FinalizeSync.

#[local] Existing Instances checksum_library checksum_laws sample_store sample_laws.

(** ** The completed session *)

Definition created_view : SessionView (F := FinTransition.FinalizationRecord) :=
  mkView sample_identity sample_voting None.

Lemma created_seen : look (VoteStoreLaws := sample_laws) created sample_id = Some (mkView sample_identity sample_voting None).
Proof. exact created_session. Qed.

Lemma completed_view : exists w, VoteFlow.moved created_view w /\ completed w.
Proof.
  destruct completed_parts as (receipt & s' & E). unfold completed_run, completeVoteSubmission in E.
  apply sm_bind_Ok in E as (saved & s1 & E1 & E). destruct saved as [res | e]; [| discriminate E].
  apply sm_bind_Ok in E as ([] & s2 & E2 & _).
  assert (Ho : in_order created_view) by apply (session_new sample_identity 100).
  destruct (call_moves _ _ _ _ _ _ created_view (addVote_law sample_id _) E1 created_seen Ho)
    as (w1 & w2 & w3 & L3 & M1 & O1 & (env & m & Hev & -> & _) & M3).
  assert (M2 : VoteFlow.moved w1 (mkView (view_identity w1) (next_voting (view_voting w1) m) (view_finalization w1))).
  { split; [done |]. apply rtc_once. eexists _, env, (append_user_vote _), m. split_and!; [exact sample_choice | exact Hev | done]. }
  assert (M : VoteFlow.moved created_view w3) by (eapply moved_trans; [exact M1 |]; by eapply moved_trans).
  destruct (attempts_complete _ _ _ _ _ _ _ E2 L3 (proj1 (moved_order _ _ Ho M))) as (w & _ & _ & M4 & C4).
  exists w. split; [by eapply moved_trans | done].
Qed.

Definition complete_session (v : VotingRecord) : Prop :=
  voting_reachable (F := FinTransition.FinalizationRecord) sample_identity v /\ vr_userParticipation v <> not_cast /\
  vr_botCount v = BOT_COUNT.

Lemma some_complete_session : exists v, complete_session v.
Proof.
  destruct completed_view as (w & [_ Hm] & Hu & Hb). exists (view_voting w). split_and!; [by exists 100 | by rewrite Hu | done].
Qed.

Definition first_draw : Random := fun _ _ => 0.

Lemma first_draw_ok : random_ok first_draw.
Proof. intros k n Hn. unfold first_draw. lia. Qed.

Lemma finalization_prepared_witness :
  exists v t p, complete_session v /\
    admitted_inputs 7 first_draw (mkFinalizeInput sample_id sample_identity v None "S3") = Ok (Done p) /\
    scenario_of (vr_votes v) "S3" t /\ prepared_input sample_identity v t (pr_zkvmInput p).
Proof.
  destruct some_complete_session as (v & Hv & Hu & Hb).
  destruct (finalization_prepared (F := FinTransition.FinalizationRecord) 7 first_draw sample_identity v None "S3" Hv Hu Hb)
    as (t & p & E & Ht & _ & Hp & _).
  - vm_compute. reflexivity.
  - vm_compute. reflexivity.
  - exact first_draw_ok.
  - reflexivity.
  - right; right; right; left.
  - exists v, t, p. exact (conj (conj Hv (conj Hu Hb)) (conj E (conj Ht Hp))).
Defined.

(** ** A journal that counts the votes of the guest *)

Definition journal_of (votes : list (num * StoredVoteRecord)) (t : option tampering) : ZkVMJournal :=
  mkJournal sample_election "" "" (NInt 64) (NInt 64) ""
    (map (fun c => NInt (votes_for (choices_of (given_votes votes t)) c)) VOTE_CHOICES)
    (NInt 64) (NInt 64) (NInt 0) (NInt 64) (NInt 0) (NInt 0) (NInt 0) (Some ""%string) ""
    (NInt (zlength votes - zlength (given_votes votes t))) "" (NInt 1) None.

Definition result_of (votes : list (num * StoredVoteRecord)) (t : option tampering) : FinStorage.FinalizationResultAuthority :=
  FinStorage.mkResultAuthority (FinStorage.mkTally [] (NInt 0) (NInt 0)) "" (journal_of votes t) None None None
    FinStorage.createUnavailableFinalizationArtifacts.

Lemma scenario_result_admitted_witness :
  exists v t, complete_session v /\ tampers (vr_votes v) "S4" t /\
    hasCoherentFinalizationScenarioPresentation
      (applyScenarioContext (result_of (vr_votes v) (Some t)) (Some (stored_context (vr_votes v) "S4" (Some t)))) = true.
Proof.
  destruct some_complete_session as (v & Hc). assert (Hc' := Hc). destruct Hc' as (Hv & Hu & Hb).
  assert (Hok := voting_reachable_ok _ _ Hv). assert (He := complete_entries sample_identity v Hok Hu Hb).
  assert (Hz := proj2 (complete_votes sample_identity v Hok Hu Hb)).
  destruct (scenario_applied (vr_votes v) first_draw "S4" He first_draw_ok) as (t & Ht & _); [by do 3 right; left |].
  destruct (scenario_result_admitted (vr_votes v) "S4" (Some t) (result_of (vr_votes v) (Some t)) He Hz Ht)
    as (Hadmitted & _); [by split | reflexivity |].
  exists v, t. exact (conj Hc (conj Ht Hadmitted)).
Defined.

(** ** What the sample session is committed and answered with *)

Lemma user_artifacts_verify_witness :
  exists v a, complete_session v /\ buildUserVoteArtifacts v sample_journal = Ok (Built a) /\
    vp_bulletinIndex (ua_voteReceipt a) = 0 /\ up_treeSize (ua_proof a) = 1.
Proof.
  destruct some_complete_session as (v & Hv & Hu & Hb).
  assert (Hart := user_artifacts_verify (F := FinTransition.FinalizationRecord) sample_identity v sample_journal Hv eq_refl eq_refl).
  destruct (vr_userParticipation v) as [| i] eqn:Eu; [exfalso; by apply Hu |].
  destruct Hart as (id & stored & rest & a & root & _ & _ & Ha & _ & Er & Ep & _).
  exists v, a. split; [split; [exact Hv | split; [by rewrite Eu | exact Hb]] |]. split; [exact Ha |].
  rewrite Er, Ep. split; reflexivity.
Defined.

Definition counted_bits : list bool := [true; false; true].
Definition seen_bits : list bool := [true; true; true].

Definition with_roots (j : ZkVMJournal) (seen included : string) : ZkVMJournal :=
  mkJournal (j_electionId j) (j_electionConfigHash j) (j_bulletinRoot j) (j_treeSize j) (j_totalExpected j) (j_sthDigest j)
    (j_verifiedTally j) (j_totalVotes j) (j_validVotes j) (j_invalidVotes j) (j_seenIndicesCount j) (j_missingSlots j)
    (j_invalidPresentedSlots j) (j_rejectedRecords j) (Some seen) included (j_excludedSlots j) (j_inputCommitment j)
    (j_methodVersion j) (j_imageId j).

(** The journal writes its roots in capitals, the evidence has one without a prefix. *)
Definition bitmap_result : FinStorage.FinalizationResultAuthority :=
  FinStorage.mkResultAuthority (FinStorage.mkTally [] (NInt 3) (NInt 0)) ""
    (with_roots sample_journal (root_text seen_bits) (root_text counted_bits)) None None None
    FinStorage.createUnavailableFinalizationArtifacts.

Definition sample_evidence : FinStorage.FinalizationBitmapData :=
  FinStorage.mkBitmapData counted_bits (text_slice 2 (root_text counted_bits))
    (Some (seen_bits, root_text seen_bits)) (NInt 3) (NInt 1900).

Definition admitted_sample : FinStorage.FinalizationBitmapData :=
  FinStorage.mkBitmapData counted_bits (root_text counted_bits) (Some (seen_bits, root_text seen_bits)) (NInt 3) (NInt 1900).

Lemma sample_evidence_admitted :
  admitFinalizationBitmapDisposition bitmap_result
    (evidence_value (FinStorage.encodeFinalizationBitmapData sample_evidence)) = Ok (bitmap_available admitted_sample).
Proof. vm_compute. reflexivity. Qed.

(** Bits that do not have the root of the journal are refused. *)
Example other_bits_refused :
  admitFinalizationBitmapDisposition bitmap_result
    (evidence_value (FinStorage.encodeFinalizationBitmapData
       (FinStorage.mkBitmapData seen_bits (root_text counted_bits) None (NInt 3) (NInt 1900)))) = invalid_bitmap.
Proof. vm_compute. reflexivity. Qed.

Lemma bitmap_evidence_bound_witness :
  j_treeSize (FinStorage.ra_journal bitmap_result) = NInt 3 /\
  normalizeHex32 (Some (j_includedBitmapRoot (FinStorage.ra_journal bitmap_result))) = Some (root_text counted_bits).
Proof.
  destruct (bitmap_evidence_bound bitmap_result _ admitted_sample sample_evidence_admitted) as (Hn & _ & _ & Hr & _).
  exact (conj Hn Hr).
Defined.

Definition record_of_attempt (id : string) : FinTransition.FinalizationRecord :=
  mkRecord "session-1" id sample_scenario (FinStorage.succeeded id (NInt 1000) (NInt 1200) (NInt 1900)) None.

Lemma bitmap_evidence_stored_witness :
  let stored := mkBitmapRecord "session-1" "01HZX" admitted_sample in
  admitPersistedFinalizationBitmapData (record_of_attempt "01HZX") bitmap_result (encodeBitmapRecord stored) = Ok (Some stored) /\
  admitPersistedFinalizationBitmapData (record_of_attempt "01HZY") bitmap_result (encodeBitmapRecord stored) = Ok None.
Proof.
  destruct (bitmap_evidence_stored (record_of_attempt "01HZX") bitmap_result _ admitted_sample sample_evidence_admitted)
    as [Hread Hother].
  split; [exact Hread |]. apply (Hother (record_of_attempt "01HZY")). right. discriminate.
Defined.

(** ** A receipt, a bundle and a synchronous run *)

(** A composite receipt: the words of its seal are nested. *)
Definition composite_payload : jsval :=
  let number := fun z => JNum (NInt z) in
  JObj [("inner", JObj [("Composite", JObj [("segments", JArr [JObj [("seal", JArr [number 1; JArr [number 258; number 3]])]])])]);
        ("journal", JObj [("bytes", JArr [number 7; number 255])])]%string.

Definition sample_image : string := prefixed (hex_text 64 6).

Definition sample_execution_receipt : ZkVMExecutionReceipt := mkExecutionReceipt (Some sample_image) composite_payload JUndefined.

Lemma normalized_receipt_faithful_witness : exists n,
  normalizeExecutionReceipt (Some sample_execution_receipt) "" = Ok n /\
  seal_of composite_payload (FinStorage.rc_seal (nr_receipt n)) /\
  VoteCipher.VoteCipher.buffer_of_base64 (FinStorage.rc_seal (nr_receipt n)) = [1; 0; 0; 0; 2; 1; 0; 0; 3; 0; 0; 0] /\
  FinStorage.rc_metadata (nr_receipt n) = None.
Proof.
  destruct (normalizeExecutionReceipt (Some sample_execution_receipt) "") as [n |] eqn:E; [| vm_compute in E; discriminate E].
  exists n. split; [reflexivity |].
  destruct (normalized_receipt_faithful sample_execution_receipt "" n E) as (Hseal & _). split; [exact Hseal |].
  vm_compute in E. injection E as <-. split; [vm_compute; reflexivity | reflexivity].
Defined.

(** The session with its first vote, and the input of the guest. *)
Definition voted : VotingRecord :=
  match sample_mutation with Ok (Accepted (user_vote_appended next _ _)) => next | _ => sample_voting end.

Definition voted_input : result ZkVMInput :=
  GuestInput.buildZkVMInputFromSession 7 sample_identity voted (GuestInput.mkBuildOptions false).

Definition text_of (r : result string) : string := match r with Ok s => s | Err _ => "" end.

(** What an honest guest writes for an input with one vote for B. *)
Definition honest_journal (i : ZkVMInput) : ZkVMJournal :=
  mkJournal (in_electionId i) (in_electionConfigHash i) (in_bulletinRoot i) (in_treeSize i) (in_totalExpected i)
    (match Verifiers.buildCloseStatement (in_logId i) (in_treeSize i) (in_timestamp i) (in_bulletinRoot i) with
     | Ok c => cs_sthDigest c
     | Err _ => ""
     end)
    (map NInt [0; 1; 0; 0; 0]) (NInt 1) (NInt 1) (NInt 0) (NInt 1) (NInt 0) (NInt 0) (NInt 0)
    (Some (root_text [true])) (root_text [true]) (NInt 0) (text_of (computeInputCommitment i)) (NInt 14) (Some sample_image).

Definition honest_execution (i : ZkVMInput) : ZkVMExecutionResult :=
  mkExecution (honest_journal i) (Some sample_execution_receipt) (Some [true]) (Some [true]) None.

Definition bundle_context (i : ZkVMInput) : VerificationBundleArtifactContext :=
  mkContext sample_id "2024-01-01T00:00:00Z" i (id_electionConfig sample_identity) None (honest_execution i)
    (Some (None, Some composite_payload)).

Definition sample_bundle : result VerificationBundleArtifactMap := i ← voted_input; buildVerificationBundleArtifacts (bundle_context i).

Example bundle_built : is_ok sample_bundle.
Proof. vm_compute. exact I. Qed.

Lemma published_bundle_consistent_witness : exists b artifact commitment,
  sample_bundle = Ok b /\
  PublicInput.parseSupportedPublicInputArtifact (PublicInput.record_value (ba_publicInput b))
    (PublicInput.mkProvenance (Some PublicInput.generated) None None) = Some artifact /\
  normalizeHexString commitment = normalizeHexString (j_inputCommitment (ba_journal b)) /\ is_some (ba_includedBitmap b) = true.
Proof.
  assert (Hok := bundle_built). unfold sample_bundle in *. destruct voted_input as [i |] eqn:Ei; [| destruct Hok].
  cbn [mbind result_bind] in Hok |- *.
  destruct (buildVerificationBundleArtifacts (bundle_context i)) as [b |] eqn:E; [| destruct Hok].
  destruct (published_bundle_consistent (bundle_context i) b E) as (_ & (artifact & Ha & _) & (commitment & _ & Hc) & Hi & _).
  exists b, artifact, commitment. split; [reflexivity | split; [exact Ha | split; [exact Hc |]]].
  unfold published_bitmap in Hi. destruct (ba_includedBitmap b); [reflexivity |]. destruct Hi as [Hi | Hi]; discriminate Hi.
Defined.

(** The services of a run: the state is the list of the committed records, the
    clock stands still, and the commit returns what it was given. *)
Definition honest_executor : ZkVMExecutor (list FinTransition.FinalizationRecord) :=
  mkExecutor (fun i => mret (honest_execution i)) Evidence.source_real.

(** A verifier with a fixed answer; the bundles go to a directory per attempt. *)
Definition sample_report (status : ApiProofBundle.InvocationStatus) : jsval :=
  JObj [("status", JStr (ApiProofBundle.invocation_status status))]%string.

Definition sample_ports (status : ApiProofBundle.InvocationStatus) : ApiProofBundle.ApiBundlePorts (list FinTransition.FinalizationRecord) := {|
  ApiProofBundle.iso_now := mret "2024-01-01T00:00:00Z"%string;
  ApiProofBundle.path_join := fun directory name => (directory +:+ "/" +:+ name)%string;
  ApiProofBundle.path_basename := fun _ => "bundle"%string;
  ApiProofBundle.persist_files := fun sessionId id _ _ => mret (sessionId, id, ("work/" +:+ id)%string);
  ApiProofBundle.write_report := fun _ _ => mret tt;
  ApiProofBundle.invokeVerifier := fun bundlePath _ reportPath =>
    mret (ApiProofBundle.mkInvocation status bundlePath reportPath (sample_report status));
  ApiProofBundle.publishBundleArtifacts := fun _ _ _ _ => mret (ApiProofBundle.mkPublished None None None);
  ApiProofBundle.port_recordPublication := None;
|}.

#[local] Instance accepting_ports : ApiProofBundle.ApiBundlePorts (list FinTransition.FinalizationRecord) :=
  sample_ports ApiProofBundle.invoked_success.

Definition services_with (source : BitmapProofSource) (status : ApiProofBundle.InvocationStatus) :
    SyncServices (list FinTransition.FinalizationRecord) := {|
  sync_clock := mret (NInt 2000);
  date_now := mret (NInt 2001);
  getExecutor := mret (mkExecutor (ex_execute honest_executor) source);
  createBundle := ApiProofBundle.api_createBundle (H := sample_ports status) None;
  commitSuccessfulFinalization := fun c records =>
    (Ok (mkCommitResult (ci_record c) (ci_bitmap c) None), records ++ [ci_record c]);
|}.

#[local] Instance sample_services : SyncServices (list FinTransition.FinalizationRecord) :=
  services_with Evidence.source_real ApiProofBundle.invoked_success.

Definition sample_prepared (i : ZkVMInput) : PreparedFinalizationInputs :=
  mkPreparedInputs
    (mkScenarioContext [] [] FinStorage.tamper_none [("A", NInt 0); ("B", NInt 1); ("C", NInt 0); ("D", NInt 0); ("E", NInt 0)]
       (NInt 1) (mkSummary (NInt 0) (NInt 0) None) None None)%string
    i (id_electionConfig sample_identity).

Definition sync_input (i : ZkVMInput) : FinalizeSyncInput :=
  mkSyncInput sample_id "01HZX" (NInt 1000) voted i (id_electionConfig sample_identity) sample_image
    (pr_scenarioContext (sample_prepared i)) false None.

Definition sync_run : result (Finalized FinalizeSyncPayload) * list FinTransition.FinalizationRecord :=
  match voted_input with Ok i => finalizeSync (sync_input i) [] | Err e => (Err e, []) end.

Definition run_bitmap : FinStorage.FinalizationBitmapData :=
  FinStorage.mkBitmapData [true] (root_text [true]) (Some ([true], root_text [true])) (NInt 1) (NInt 2001).

Example sync_run_commits : match sync_run with
  | (Ok (Done payload), [record]) =>
      FinTransition.fr_result record = Some (FinTransition.mkResultRecord "01HZX" (sp_finalizationResult payload)) /\
      sp_bitmapDisposition payload = bitmap_available run_bitmap
  | _ => False
  end.
Proof. vm_compute. split; reflexivity. Qed.

(** What the verifier refuses is not committed; a mock is not shown to it. *)
Definition run_with (source : BitmapProofSource) (status : ApiProofBundle.InvocationStatus) :
    result (Finalized FinalizeSyncPayload) * list FinTransition.FinalizationRecord :=
  match voted_input with Ok i => finalizeSync (H := services_with source status) (sync_input i) [] | Err e => (Err e, []) end.

Example refused_not_committed :
  run_with Evidence.source_real ApiProofBundle.invoked_failed = (Ok (Failed (api VERIFICATION_FAILED "failed")), []) /\
  run_with Evidence.source_real ApiProofBundle.invoked_dev_mode = (Ok (Failed (api VERIFICATION_FAILED "dev_mode")), []).
Proof. vm_compute. split; reflexivity. Qed.

Example mock_is_dev_mode : match run_with Evidence.source_mock ApiProofBundle.invoked_failed with
  | (Ok (Done payload), [_]) =>
      assoc match sp_verificationResult payload with JObj fields => fields | _ => [] end "status" = Some (JStr "dev_mode")
  | _ => False
  end.
Proof. vm_compute. reflexivity. Qed.

Lemma sample_quiet : services_keep (@eq (list FinTransition.FinalizationRecord)).
Proof.
  split; try (intros s r s' E; injection E as _ <-; reflexivity).
  - intros executor s s' [= <- _] i t r t' [= _ <-]. done.
  - intros options. apply api_keeps; [exact _ |].
    split; intros; first [discriminate | by intros s r s' [= _ <-]].
Qed.

Lemma run_result : exists i payload record, voted_input = Ok i /\
  finalizeSync (sync_input i) [] = (Ok (Done payload), [record]) /\ sp_bitmapDisposition payload = bitmap_available run_bitmap.
Proof.
  assert (Hok := sync_run_commits). unfold sync_run in Hok. destruct voted_input as [i |] eqn:Ei; [| destruct Hok]. exists i.
  destruct (finalizeSync (sync_input i) []) as [[[payload | e] | e] [| record [| more rest]]]; try (destruct Hok).
  exists payload, record. split; [reflexivity | split; [reflexivity | assumption]].
Qed.

Lemma sync_commits_only_proved_witness : exists i payload record execution receipt artifacts v s1 options s2,
  voted_input = Ok i /\ finalizeSync (sync_input i) [] = (Ok (Done payload), [record]) /\
  sync_calls eq (sync_input i) execution receipt v [] s1 /\
  committed eq (sync_input i) execution receipt artifacts v s1 [record] (Ok (Done payload)) /\
  po_zkvmResult options = execution /\ bundle_behind None options v s2.
Proof.
  destruct run_result as (i & payload & record & Ei & E & _).
  destruct (sync_commits_only_proved eq sample_quiet (sync_input i) [] (Ok (Done payload)) [record] E)
    as [[_ Hu] | (execution & receipt & artifacts & v & s1 & Hcalls & [Hc | [Hf _]])].
  - exfalso. exact (Hu payload eq_refl).
  - destruct Hcalls as [executor options t0 t1 t2 Hb Hx He Hr Hcreate Hapi] eqn:Ecalls. clear Ecalls.
    exists i, payload, record, execution, receipt, artifacts, v, s1, options, t2.
    split; [exact Ei | split; [exact E | split; [exact Hcalls | split; [exact Hc | split]]]].
    + exact (br_zkvmResult _ _ _ _ _ Hr).
    + exact (Hapi accepting_ports None (fun o t => eq_refl)).
  - discriminate Hf.
Defined.

(** The commit of the run. *)
Lemma run_evidence : exists i execution receipt artifacts v c authority,
  voted_input = Ok i /\ sync_evidence (sync_input i) execution receipt artifacts v c authority /\
  ci_bitmap c = bitmap_available run_bitmap.
Proof.
  destruct run_result as (i & payload & record & Ei & E & Eb).
  assert (Er : run_sync (sync_input i) (NInt 2000) [] = (Ok (Done payload), [record])).
  { change (sm_catch (run_sync (sync_input i) (NInt 2000)) (fun _ => mret proof_generation_failed) [] =
            (Ok (Done payload), [record])) in E.
    unfold sm_catch in E. destruct (run_sync (sync_input i) (NInt 2000) []) as [[o | [m |]] s']; [exact E | discriminate E | exact E]. }
  destruct (run_cases eq sample_quiet _ _ _ _ _ Er) as [[_ Hu] | (execution & receipt & artifacts & v & s0 & _ & Hc)];
    [exfalso; exact (Hu payload eq_refl) |].
  destruct Hc as [c authority s1 answer s2 _ Hcall _ Hev (res & -> & _ & _ & Hd & _)].
  exists i, execution, receipt, artifacts, v, c, authority. split; [exact Ei | split; [exact Hev |]].
  injection Hcall as Hres _. rewrite <- Eb, Hd, <- Hres. reflexivity.
Qed.

Lemma sync_bitmap_admitted_witness : exists c authority,
  bits_match (FinStorage.ra_journal authority) run_bitmap /\ ci_bitmap c = bitmap_available run_bitmap /\
  admitFinalizationBitmapDisposition authority (disposition_value (ci_bitmap c)) = Ok (ci_bitmap c).
Proof.
  destruct run_evidence as (i & execution & receipt & artifacts & v & c & authority & Ei & Hev & Ec).
  destruct (sync_bitmap_admitted (sync_input i) execution receipt artifacts v c authority Hev) as [[_ Hadmit] _].
  { intros data Ed. rewrite Ec in Ed. injection Ed as <-. reflexivity. }
  rewrite Ec in Hadmit.
  assert (Hm : bits_match (FinStorage.ra_journal authority) run_bitmap).
  { destruct (se_bitmap _ _ _ _ _ _ _ Hev) as [Ed Hdata]. rewrite Ec in Ed.
    destruct (FinStorage.fa_bitmap (FinStorage.ra_artifacts authority)) as [[source data] |]; [| discriminate Ed].
    injection Ed as <-. destruct (Hdata source run_bitmap eq_refl) as (_ & Hn & _).
    split; [symmetry; exact Hn |]. intros bits root [= <- _]. symmetry. exact Hn. }
  exists c, authority. rewrite Ec. exact (conj Hm (conj eq_refl (Hadmit Hm))).
Defined.

(** The request of the session with its first vote, counted as another choice. *)
Definition moved_request : result PreparedFinalizationInputs :=
  prepare_inputs 7 first_draw (mkFinalizeInput sample_id sample_identity voted None "S2") (NInt 0).

Definition moved_input (p : PreparedFinalizationInputs) : FinalizeSyncInput :=
  mkSyncInput sample_id "01HZX" (NInt 1000) voted (pr_zkvmInput p) (pr_authoritativeElectionConfig p) sample_image
    (pr_scenarioContext p) false None.

Definition moved_audit (p : PreparedFinalizationInputs) : result FinStorage.PublicAuditArtifacts :=
  buildSyncPublicAuditArtifacts (moved_input p) (honest_execution (pr_zkvmInput p))
    (Verifiers.buildElectionManifest sample_election (pr_authoritativeElectionConfig p)) "01HZX".

Example moved_request_prepared : match moved_request with
  | Ok p => is_ok (moved_audit p) /\ is_ok (Journal.toPublicZkvmJournal (honest_journal (pr_zkvmInput p)))
  | Err _ => False
  end.
Proof. vm_compute. split; exact I. Qed.

Lemma sync_result_is_rehydrated_witness : exists p audit identity receipt r,
  moved_request = Ok p /\ moved_audit p = Ok audit /\
  buildFinalizationResultFromJournal (honest_journal (pr_zkvmInput p)) (Some sample_image)
    (Some (toFinalizationScenarioContext (pr_scenarioContext p))) (Some audit) = Ok r /\
  FinStorage.ra_tamperSummary (buildSyncFinalizationAuthority (moved_input p) (honest_execution (pr_zkvmInput p)) identity receipt audit None) =
    FinStorage.ra_tamperSummary r.
Proof.
  assert (Hok := moved_request_prepared). destruct moved_request as [p |] eqn:Ep; [| destruct Hok]. destruct Hok as [Ha Hj].
  destruct (moved_audit p) as [audit |] eqn:Ea; [| destruct Ha].
  destruct (Journal.toPublicZkvmJournal (honest_journal (pr_zkvmInput p))) as [journal |] eqn:Ej; [| destruct Hj].
  unfold moved_request in Ep. set (receipt := FinStorage.mkReceipt "c2VhbA==" (FinStorage.journal_text "e30=") None None).
  destruct (sync_result_is_rehydrated 7 first_draw (mkFinalizeInput sample_id sample_identity voted None "S2") (NInt 0) p
              (moved_input p) (honest_execution (pr_zkvmInput p)) (mkIdentity journal sample_image) receipt audit None Ep
              eq_refl Ej) as (r & Er & Eq).
  exists p, audit, (mkIdentity journal sample_image), receipt, r.
  split; [reflexivity | split; [exact Ea | split; [exact Er |]]]. rewrite Eq. reflexivity.
Defined.
