(* ===== verification/DynamoVotes.v ===== *)
(** Votes in the DynamoDB tables (packages/aws-adapters/src/store:
    dynamoSessionStore.ts, ct-proof.ts): the rows a voting record is stored as, the
    restoration of the record from them, and the writes of votes. The choice and
    the random value of a vote are encrypted. *)
From S2P Require Import Prelude.
From S2P Require Import Hex.
From S2P Require Import JsNumber.
From S2P Require Import JsText.
From S2P Require Import JsValue.
From S2P Require Import Contract.
From S2P Require Import LocalCast.
From S2P Require Import Evidence.
From S2P Require Import Journal.
From S2P Require Import Bulletin.
From S2P Require Import CtSession.
From S2P Require Import SessionVote.
From S2P Require Import FinStorage.
From S2P Require Import FinTransition.
From S2P Require Import VoteFlow.
From S2P Require Import MockStore.
From S2P Require Import VoteCipher.
From S2P Require Import DynamoRecords.
From S2P Require Import DynamoService.
From S2P Require Import DynamoLifecycle.
Import JsText.
Import JsValue.
Import Contract.
Import Bulletin.
Import CtSession.
Import SessionVote.
Import VoteFlow.
Import MockStore.
Import RuntimeConfig.
Import VoteCipher.
Import DynamoRecords.
Import DynamoService.
Import DynamoLifecycle.

Module DynamoVotes.

Definition CT_PROOF_UNAVAILABLE {A} : result A := throw "CT_PROOF_UNAVAILABLE".

(** The value is a text wherever the code calls it. *)
Definition normalizeStrictHex32 (value : string) : result string :=
  if negb (isValidHexString value (Some 32)) then CT_PROOF_UNAVAILABLE else normalizeHex value even_only.

(** ** Rows *)

Definition toPersistedVotingRecord (record : VotingRecord) : PersistedVotingRecord :=
  mkPersistedVoting (vr_sessionId record) (vr_bulletinRootHistory record) (vr_botCount record)
    (vr_userParticipation record) (vr_lastActivityMs record).

Definition participation_value (p : UserParticipation) : jsval :=
  match p with
  | not_cast => JObj [("status", JStr "not_cast")]%string
  | cast voteIndex => JObj [("status", JStr "cast"); ("voteIndex", JNum voteIndex)]%string
  end.

Definition persisted_value (p : PersistedVotingRecord) : jsval :=
  JObj [("sessionId", JStr (pv_sessionId p)); ("bulletinRootHistory", snapshots_value (pv_bulletinRootHistory p));
        ("botCount", JNum (NInt (pv_botCount p))); ("userParticipation", participation_value (pv_userParticipation p));
        ("lastActivityMs", JNum (NInt (pv_lastActivityMs p)))]%string.

Definition voting_item_value (sessionId : string) (record : PersistedVotingRecord) (revision : Z) (expiresAt : num) :
    jsval :=
  JObj [("sessionId", JStr (votingKey sessionId)); ("itemType", JStr "SESSION_VOTING");
        ("record", persisted_value record); ("revision", JNum (NInt revision)); ("expiresAt", JNum expiresAt)]%string.

Definition identity_item_value (identity : SessionIdentityRecord) (expiresAt : num) : jsval :=
  JObj [("sessionId", JStr (id_sessionId identity)); ("itemType", JStr "SESSION_IDENTITY");
        ("identity", identity_value identity); ("expiresAt", JNum expiresAt)]%string.

Definition optional_text (text : option string) : jsval := match text with Some s => JStr s | None => JUndefined end.
Definition optional_num (n : option num) : jsval := match n with Some n => JNum n | None => JUndefined end.

(** The ids of a record: [map.get], [array.some] *)
Definition voteId_text (vote : StoredVoteRecord) : string := default "" (sv_voteId vote).

(** ** The secrets of a vote *)

Section secrets.
Context `{Noble} `{AesGcm}.
Variable env : string -> option string.
Variable activeResolver : option BoundRuntimeConfigReferenceResolver.

(** [ivs] are the random bytes of the two encryptions. *)
Definition toVoteItem (ivs : bytes * bytes) (sessionId : string) (voteIndex : num) (record : StoredVoteRecord)
    (isUserVote : bool) (expiresAt : num) : result jsval :=
  vote ← encryptVoteSecret env activeResolver ivs.1 (sv_vote record);
  rand ← encryptVoteSecret env activeResolver ivs.2 (sv_rand record);
  Ok (JObj [("sessionId", JStr sessionId); ("voteIndex", JNum voteIndex); ("itemType", JStr "VOTE");
            ("voteId", optional_text (sv_voteId record)); ("vote", JStr vote); ("rand", JStr rand);
            ("commit", JStr (sv_commit record)); ("timestamp", optional_num (sv_timestamp record));
            ("rootAtCast", JStr (sv_rootAtCast record)); ("isUserVote", JBool isUserVote);
            ("expiresAt", JNum expiresAt)])%string.

Definition toStoredVoteRecord (item : VoteItem) : result StoredVoteRecord :=
  try_catch
    (vote ← decryptVoteSecret env activeResolver (vo_vote item);
     secret ← decryptVoteSecret env activeResolver (vo_rand item);
     rand ← normalizeHex secret allow_empty;
     if negb (bool_decide (vote ∈ VOTE_CHOICES)) then throw "Invalid vote choice"
     else
       commit ← normalizeStrictHex32 (vo_commit item);
       rootAtCast ← normalizeStrictHex32 (vo_rootAtCast item);
       Ok (mkStored (Some (vo_voteId item)) (Some (NInt (vo_timestamp item))) vote rand commit rootAtCast))
    (fun _ => CT_PROOF_UNAVAILABLE).

(** ** Restoring a record *)

(** [bulletin.appendVote], whose exceptions are replaced. *)
Definition append_or_unavailable (voteId commitment : string) (now : Z) : SM SimpleBulletinBoard AppendResult := fun b =>
  let '(r, b') := appendVote voteId commitment now b in
  (match r with Err (Throw _) => CT_PROOF_UNAVAILABLE | _ => r end, b').

(** The rest of the loop from the index [expected]: the votes and the history it
    adds. [now] is [Date.now()] when an index is appended. *)
Fixpoint restore_loop (now : Z -> Z) (identity : SessionIdentityRecord) (expected : Z) (seenVoteIds : list string)
    (sorted : list VoteItem) : SM SimpleBulletinBoard (list (num * StoredVoteRecord) * list RootSnapshot) :=
  match sorted with
  | [] => mret ([], [])
  | item :: rest =>
      if negb (Z.eqb (vo_voteIndex item) expected) || bool_decide (vo_voteId item ∈ seenVoteIds)
      then sm_lift CT_PROOF_UNAVAILABLE
      else
        vote ← sm_lift (toStoredVoteRecord item);
        let choiceIndex := LocalCast.index_of VOTE_CHOICES (sv_vote vote) in
        opened ← sm_lift (if Z.ltb choiceIndex 0 then Ok None
                          else
                            commitment ← computeCommitment (id_electionId identity) choiceIndex (sv_rand vote);
                            Some <$> normalizeStrictHex32 commitment);
        if negb (bool_decide (opened = Some (sv_commit vote))) then sm_lift CT_PROOF_UNAVAILABLE
        else
          append ← append_or_unavailable (voteId_text vote) (text_slice 2 (sv_commit vote)) (now expected);
          root ← sm_lift (normalizeStrictHex32 (ar_rootAtAppend append));
          if negb (Z.eqb (ar_index append) expected) || negb (String.eqb root (sv_rootAtCast vote))
          then sm_lift CT_PROOF_UNAVAILABLE
          else
            more ← restore_loop now identity (expected + 1) (vo_voteId item :: seenVoteIds) rest;
            mret ((NInt expected, vote) :: more.1,
                  mkSnapshot (vo_timestamp item) (expected + 1) root None :: more.2)
  end.

Definition restoreVoteItems (now : Z -> Z) (identity : SessionIdentityRecord) (sorted : list VoteItem) :
    result (list (num * StoredVoteRecord) * SimpleBulletinBoard * list RootSnapshot) :=
  match restore_loop now identity 0 [] sorted (new_board (Some (id_logId identity))) with
  | (Ok (votes, reconstructedHistory), bulletin) => Ok (votes, bulletin, reconstructedHistory)
  | (Err e, _) => Err e
  end.

(** The snapshots of the positions from [index] on. *)
Fixpoint restore_history (votes : list (num * StoredVoteRecord)) (index : Z) (persisted reconstructed : list RootSnapshot)
    {struct reconstructed} : result (list RootSnapshot) :=
  match reconstructed with
  | [] => Ok []
  | snapshot :: reconstructed =>
      match persisted with
      | [] => CT_PROOF_UNAVAILABLE
      | persistedSnapshot :: persisted =>
          if negb (Z.eqb (rs_treeSize persistedSnapshot) (rs_treeSize snapshot)) then CT_PROOF_UNAVAILABLE
          else
            root ← normalizeStrictHex32 (rs_root persistedSnapshot);
            let timestamp := votes_get votes (NInt index) ≫= sv_timestamp in
            if negb (String.eqb root (rs_root snapshot)) ||
               negb (match timestamp with Some t => num_eqb (NInt (rs_timestamp persistedSnapshot)) t | None => false end)
            then CT_PROOF_UNAVAILABLE
            else
              history ← restore_history votes (index + 1) persisted reconstructed;
              Ok (mkSnapshot (rs_timestamp persistedSnapshot) (rs_treeSize persistedSnapshot) (rs_root snapshot)
                    (rs_signature persistedSnapshot) :: history)
      end
  end.

Definition restorePersistedRootHistory (persisted reconstructed : list RootSnapshot)
    (votes : list (num * StoredVoteRecord)) : result (list RootSnapshot) :=
  if negb (Z.eqb (zlength persisted) (zlength reconstructed)) then CT_PROOF_UNAVAILABLE
  else restore_history votes 0 persisted reconstructed.

Definition hasFirstUserVote (userVoteIndex : option num) (sorted : list VoteItem)
    (votes : list (num * StoredVoteRecord)) : bool :=
  match userVoteIndex with
  | None => Z.eqb (zlength sorted) 0
  | Some index =>
      num_eqb index (NInt 0) && is_some (votes_get votes index) &&
      match sorted with item :: _ => vo_isUserVote item | [] => false end
  end.

(** [item.isUserVote !== (index === userVoteIndex)] for some position from [index] on *)
Fixpoint misplaced_user_vote (userVoteIndex : option num) (index : Z) (sorted : list VoteItem) : bool :=
  match sorted with
  | [] => false
  | item :: rest =>
      negb (Bool.eqb (vo_isUserVote item)
              (match userVoteIndex with Some u => num_eqb (NInt index) u | None => false end)) ||
      misplaced_user_vote userVoteIndex (index + 1) rest
  end.

Definition assertPersistedParticipation (persisted : PersistedVotingRecord) (sorted : list VoteItem)
    (votes : list (num * StoredVoteRecord)) : result unit :=
  let userVoteIndex := explicit_index (pv_userParticipation persisted) in
  if negb (hasFirstUserVote userVoteIndex sorted votes) || misplaced_user_vote userVoteIndex 0 sorted ||
     negb (Z.eqb (pv_botCount persisted) (zlength sorted - (if is_some userVoteIndex then 1 else 0)))
  then CT_PROOF_UNAVAILABLE else Ok tt.

Definition sort_items (voteItems : list VoteItem) : list VoteItem :=
  js_sort (fun left right => difference_sign (NInt (vo_voteIndex left)) (NInt (vo_voteIndex right))) voteItems.

Definition restoreVotingRecord (now : Z -> Z) (identity : SessionIdentityRecord) (persisted : PersistedVotingRecord)
    (voteItems : list VoteItem) : result VotingRecord :=
  let sorted := sort_items voteItems in
  restored ← restoreVoteItems now identity sorted;
  let '(votes, bulletin, reconstructedHistory) := restored in
  bulletinRootHistory ← restorePersistedRootHistory (pv_bulletinRootHistory persisted) reconstructedHistory votes;
  _ ← assertPersistedParticipation persisted sorted votes;
  Ok (mkVotingRecord (id_sessionId identity) votes bulletin bulletinRootHistory (pv_botCount persisted)
        (pv_userParticipation persisted) (pv_lastActivityMs persisted)).

(** ** Reading *)

Section store.
Context {K St : Type} `{DynamoDB K St}.

(** [rebuild_now call] is the clock inside the log that a call rebuilds. *)
Variable rebuild_now : Z -> Z.

(** [isSuccessfulFinalizationRecord], and its result *)
Definition successful_result (record : option FinTransition.FinalizationRecord) : option FinStorage.FinalizationResultAuthority :=
  match record with
  | Some r => if FinTransition.is_succeeded (FinTransition.fr_state r)
              then FinTransition.rr_authority <$> FinTransition.fr_result r else None
  | None => None
  end.

Definition assert_final_root (record : VotingRecord) (current : option FinTransition.FinalizationRecord) : result unit :=
  match successful_result current, last (vr_bulletinRootHistory record) with
  | Some result, Some final =>
      if negb (str_truthy (rs_root final)) then CT_PROOF_UNAVAILABLE
      else
        journalRoot ← normalizeStrictHex32 (Evidence.j_bulletinRoot (FinStorage.ra_journal result));
        finalRoot ← normalizeStrictHex32 (rs_root final);
        if negb (String.eqb journalRoot finalRoot) then CT_PROOF_UNAVAILABLE else Ok tt
  | _, _ => Ok tt
  end.

Definition dynamo_getVotingRecord (sessionId : string) : SM St (option VotingRecord) :=
  identity ← DynamoLifecycle.getSessionIdentity sessionId;
  match identity with
  | None => mret None
  | Some identity =>
      votingItem ← loadVotingItem sessionId;
      match votingItem with
      | None => sm_throw "Session voting record is missing or invalid"
      | Some votingItem =>
          voteItems ← loadVoteItems sessionId;
          record ← sm_lift (restoreVotingRecord rebuild_now identity (vi_record votingItem) voteItems);
          current ← dynamo_getCurrentFinalizationRecord sessionId;
          _ ← sm_lift (assert_final_root record current);
          mret (Some record)
      end
  end.

Definition getSessionVotingSummary (sessionId : string) : SM St (option (string * Z * UserParticipation)) :=
  voting ← dynamo_getVotingRecord sessionId;
  mret ((fun voting => (sessionId, vr_botCount voting, vr_userParticipation voting)) <$> voting).

Definition dynamo_getVoteById (sessionId voteId : string) : SM St (option (StoredVoteRecord * Z)) :=
  identity ← DynamoLifecycle.getSessionIdentity sessionId;
  if negb (is_some identity) then mret None
  else
    items ← loadVoteItems sessionId;
    match List.filter (fun item => String.eqb (vo_voteId item) voteId) items with
    | [] => mret None
    | [item] =>
        voteData ← sm_lift (toStoredVoteRecord item);
        mret (Some (voteData, vo_voteIndex item))
    | _ => sm_lift CT_PROOF_UNAVAILABLE
    end.

(** ** Exact proofs (ct-proof.ts) *)

Record ExactCtProof := mkExactProof {
  ep_leafIndex : Z;
  ep_merklePath : list string;
  ep_bulletinRootAtCast : string;
  ep_treeSize : Z;
}.

(** Every exception is the same error. *)
Definition unavailable {A} (m : result A) : result A := try_catch m (fun _ => CT_PROOF_UNAVAILABLE).

Definition deriveExactCtProof (bulletin : SimpleBulletinBoard) (voteId : string) (leafIndex : Z) (rootAtCast : string) :
    result ExactCtProof :=
  if negb (str_truthy voteId) || Z.ltb leafIndex 0 || negb (str_truthy rootAtCast) then CT_PROOF_UNAVAILABLE
  else
    let castTreeSize := leafIndex + 1 in
    ctProof ← unavailable (fst (board_getInclusionProof voteId (Some castTreeSize) bulletin));
    match ctProof with
    | None => CT_PROOF_UNAVAILABLE
    | Some ctProof =>
        if negb (Z.eqb (ip_leafIndex ctProof) leafIndex) || negb (Z.eqb (ip_treeSize ctProof) castTreeSize)
        then CT_PROOF_UNAVAILABLE
        else unavailable (
          normalizedRootAtCast ← normalizeHex rootAtCast allow_empty;
          normalizedProofRoot ← normalizeHex (ip_rootHash ctProof) allow_empty;
          if negb (String.eqb normalizedRootAtCast normalizedProofRoot) then CT_PROOF_UNAVAILABLE
          else
            merklePath ← normalize_nodes allow_empty (ip_proofNodes ctProof);
            Ok (mkExactProof leafIndex merklePath normalizedRootAtCast (ip_treeSize ctProof)))
    end.

Definition dynamo_getVoteByIdWithProof (sessionId voteId : string) : SM St (option (StoredVoteRecord * ExactCtProof)) :=
  vote ← dynamo_getVoteById sessionId voteId;
  voting ← dynamo_getVotingRecord sessionId;
  match vote, voting with
  | Some (voteData, index), Some voting =>
      proof ← sm_lift (deriveExactCtProof (vr_bulletin voting) voteId index (sv_rootAtCast voteData));
      mret (Some (voteData, proof))
  | _, _ => mret None
  end.

(** ** Writing votes *)

Record VoteMutationAuthority := mkMutationAuthority {
  ma_ttl : TtlAuthority;
  ma_voting : VotingRecord;
  ma_finalization : option FinTransition.FinalizationRecord;
}.

(** [None] where the session is not found, a throw that the caller replaces. *)
Definition findVoteMutationAuthority (sessionId : string) : SM St (option VoteMutationAuthority) :=
  found ← find_ttl_authority env sessionId;
  match found with
  | None => mret None
  | Some ttlAuthority =>
      voting ← sm_lift (restoreVotingRecord rebuild_now (ii_identity (ttl_identity ttlAuthority))
                          (vi_record (ttl_voting ttlAuthority)) (ttl_votes ttlAuthority));
      finalization ← dynamo_getCurrentFinalizationRecord sessionId;
      mret (Some (mkMutationAuthority ttlAuthority voting finalization))
  end.

Definition voting_condition (voting : VotingItem) : WriteCondition :=
  attributes_equal [("revision", JNum (NInt (vi_revision voting))); ("expiresAt", JNum (NInt (vi_expiresAt voting)))]%string.

Definition is_user_vote (next : VotingRecord) (index : num) : bool :=
  match vr_userParticipation next with cast voteIndex => num_eqb voteIndex index | not_cast => false end.

(** The puts of the new votes; the key of a row is the number of its index. *)
Fixpoint vote_puts (ivs : Z -> bytes * bytes) (sessionId : string) (next : VotingRecord) (expiresAt : num)
    (newVotes : list (num * StoredVoteRecord)) : result (list TransactItem) :=
  match newVotes with
  | [] => Ok []
  | (index, vote) :: rest =>
      item ← toVoteItem (ivs (num_Z index)) sessionId index vote (is_user_vote next index) expiresAt;
      puts ← vote_puts ivs sessionId next expiresAt rest;
      Ok (Put (vote_row sessionId (num_Z index)) item (Some attribute_not_exists) :: puts)
  end.

Definition new_votes (authority : TtlAuthority) (next : VotingRecord) : list (num * StoredVoteRecord) :=
  List.filter (fun e => num_leb (NInt (zlength (pv_bulletinRootHistory (vi_record (ttl_voting authority))))) e.1)
    (vr_votes next).

Definition vote_items (ivs : Z -> bytes * bytes) (sessionId : string) (authority : TtlAuthority) (next : VotingRecord) :
    result (list TransactItem) :=
  puts ← vote_puts ivs sessionId next (ttl_expiresAt authority) (new_votes authority next);
  Ok (buildSessionTtlUpdates sessionId authority (ttl_expiresAt authority) ++
      Put (session_row (votingKey sessionId))
        (voting_item_value sessionId (toPersistedVotingRecord next) (vi_revision (ttl_voting authority) + 1)
           (ttl_expiresAt authority))
        (Some (voting_condition (ttl_voting authority)))
      :: ConditionCheck (session_row (currentFinalizationKey sessionId)) attribute_not_exists
      :: puts).

Definition persistVoteMutation (ivs : Z -> bytes * bytes) (sessionId : string) (authority : TtlAuthority)
    (next : VotingRecord) : SM St WriteOutcome :=
  items ← sm_lift (vote_items ivs sessionId authority next);
  writeTransaction items.

(** What one attempt reads of its surroundings besides the service. *)
Variable surroundings : nat -> Environment.
Variable attempt_ivs : nat -> Z -> bytes * bytes.

Definition MAX_CONDITIONAL_RETRIES : nat := 3.

(** The attempts that are left. *)
Fixpoint mutate_attempts {A} (attempts attempt : nat) (sessionId : string) (command : SessionVoteCommand)
    (prepareWrite : SessionVoteMutation -> result (PreparedVoteWrite A)) : SM St (StoreOutcome A) :=
  match attempts with
  | O => sm_throw "Vote mutation contention limit exceeded"
  | S attempts =>
      found ← findVoteMutationAuthority sessionId;
      match found with
      | None => mret (NotStored SESSION_NOT_FOUND)
      | Some authority =>
          outcome ← sm_lift (evaluateSessionVoteMutation (surroundings attempt)
                      (mkAuthority (ii_identity (ttl_identity (ma_ttl authority))) (ma_voting authority)
                         (ma_finalization authority)) command);
          match outcome with
          | Refused error => mret (NotStored (VoteRefused error))
          | Accepted mutation =>
              write ← sm_lift (prepareWrite mutation);
              match write.2 with
              | None => mret (Stored write.1)
              | Some (nextVoting, _) =>
                  written ← persistVoteMutation (attempt_ivs attempt) sessionId (ma_ttl authority) nextVoting;
                  match written, attempts with
                  | committed, _ => mret (Stored write.1)
                  | conflicted, O => sm_throw "Conditional transaction write conflict"
                  | conflicted, _ => mutate_attempts attempts (S attempt) sessionId command prepareWrite
                  end
              end
          end
      end
  end.

Definition dynamo_mutateVotes {A} (sessionId : string) (command : SessionVoteCommand)
    (prepareWrite : SessionVoteMutation -> result (PreparedVoteWrite A)) : SM St (StoreOutcome A) :=
  mutate_attempts MAX_CONDITIONAL_RETRIES 0 sessionId command prepareWrite.

Definition dynamo_addVote (sessionId : string) (voteData : UserVoteCommand) : SM St (StoreOutcome AddVoteResult) :=
  dynamo_mutateVotes sessionId (append_user_vote voteData) prepareUserVoteWrite.

Definition dynamo_addBotVotes (sessionId : string) (votes : list BotVoteCommand) : SM St (StoreOutcome unit) :=
  dynamo_mutateVotes sessionId (append_bot_votes votes) prepareBotVoteWrite.

(** ** Activity *)

Definition touch_items (sessionId : string) (authority : TtlAuthority) (now : Z) : list TransactItem :=
  let record := vi_record (ttl_voting authority) in
  buildSessionTtlUpdates sessionId authority (ttl_expiresAt authority) ++
  [Put (session_row (votingKey sessionId))
     (voting_item_value sessionId
        (mkPersistedVoting (pv_sessionId record) (pv_bulletinRootHistory record) (pv_botCount record)
           (pv_userParticipation record) now)
        (vi_revision (ttl_voting authority) + 1) (ttl_expiresAt authority))
     (Some (voting_condition (ttl_voting authority)))].

Fixpoint touch_attempts (attempts : nat) (sessionId : string) : SM St unit :=
  match attempts with
  | O => sm_throw "Session activity contention limit exceeded"
  | S attempts =>
      authority ← loadSessionTtlAuthority env sessionId;
      now ← date_now;
      written ← writeTransaction (touch_items sessionId authority now);
      match written, attempts with
      | committed, _ => mret tt
      | conflicted, O => sm_throw "Conditional transaction write conflict"
      | conflicted, _ => touch_attempts attempts sessionId
      end
  end.

Definition touchSession (sessionId : string) : SM St unit := touch_attempts MAX_CONDITIONAL_RETRIES sessionId.

(** The warning that is logged is left out. *)
Definition touchSessionAfterCommit (sessionId : string) : SM St unit :=
  sm_catch (touchSession sessionId) (fun _ => mret tt).

(** ** New sessions *)

Definition generateLogId (seed : string) : result string :=
  Journal.asLogId (generateBulletinLogId seed).

(** The identifiers of the session and of the election are drawn at random. *)
Definition dynamo_createSession (sessionId electionId : string) : SM St SessionIdentityRecord :=
  nowMs ← date_now;
  logId ← sm_lift (generateLogId ("dynamo-" +:+ sessionId));
  let records := createDefaultSessionRecords sessionId electionId logId nowMs in
  match parseSessionIdentityRecord (identity_value records.1) with
  | None => sm_throw "Session creation produced invalid identity authority"
  | Some identity =>
      expiresAt ← liveExpiresAt env;
      written ← writeTransaction
        [Put (session_row (identityKey sessionId)) (identity_item_value identity expiresAt) (Some attribute_not_exists);
         Put (session_row (votingKey sessionId))
           (voting_item_value sessionId (toPersistedVotingRecord records.2) 0 expiresAt) (Some attribute_not_exists)];
      match written with
      | committed => mret identity
      | conflicted => sm_throw "Conditional transaction write conflict"
      end
  end.

#[export] Instance dynamo_vote_store : VoteStore FinTransition.FinalizationRecord St := {
  VoteFlow.getSessionIdentity := DynamoLifecycle.getSessionIdentity;
  getVotingRecord := dynamo_getVotingRecord;
  getCurrentFinalizationRecord := dynamo_getCurrentFinalizationRecord;
  addVote := dynamo_addVote;
  addBotVotes := dynamo_addBotVotes;
}.

End store.
End secrets.
End DynamoVotes.
