(* ===== verification/DynamoVotesProofs.v ===== *)
(** What the votes stored in DynamoDB promise: whatever the rows hold, a record
    that is restored from them is in order; a record in order is restored from
    the rows it was written as; and a write of votes is committed only over the
    votes that were read, in a session without a finalization. *)
From S2P Require Import Prelude.
From S2P Require Import Hex.
From S2P Require Import Rfc6962.
From S2P Require Import MerkleSpec.
From S2P Require Import TreeFacts.
From S2P Require Import Inclusion.
From S2P Require Import JsNumber.
From S2P Require Import JsText.
From S2P Require Import JsValue.
From S2P Require Import Contract.
From S2P Require Import ContractFacts.
From S2P Require Import LocalCast.
From S2P Require Import Bulletin.
From S2P Require Import CtSession.
From S2P Require Import CtSessionProofs.
From S2P Require Import FinTransition.
From S2P Require Import SessionVote.
From S2P Require Import SessionVoteProofs.
From S2P Require Import VoteFlow.
From S2P Require Import MockStore.
From S2P Require Import MockStoreProofs.
From S2P Require Import Coordinator.
From S2P Require Import VoteCipher.
From S2P Require Import DynamoRecords.
From S2P Require Import DynamoService.
From S2P Require Import DynamoLifecycle.
From S2P Require Import DynamoLifecycleProofs.
From S2P Require Import DynamoPort.
From S2P Require Import DynamoVotes.
Import JsText.
Import JsValue.
Import Contract.
Import Bulletin.
Import CtSession.
Import SessionVote.
Import VoteFlow.
Import MockStore.
Import RuntimeConfig.
Import VoteCipher.
Import DynamoRecords.
Import DynamoService.
Import DynamoLifecycle.
Import DynamoVotes.

(** ** The times of a session *)

Section times.
Context `{NobleLaws}.

(** The time of a snapshot is the time of its vote. *)
Definition same_times (entries : list (num * StoredVoteRecord)) (history : list RootSnapshot) : Prop :=
  forall k e s, entries !! k = Some e -> history !! k = Some s ->
    sv_timestamp e.2 = Some (NInt (rs_timestamp s)) /\ 0 < rs_timestamp s <= MAX_SAFE_INTEGER.

Lemma positive_time value t t' : value = JNum (NInt t) -> toPositiveInteger value = Some t' -> t' = t.
Proof. intros ->. cbn. unfold positive_integer. cbn. destruct (Z.ltb 0 t); [by intros [= <-] | done]. Qed.

Lemma snapshot_time s s' : normalizePersistedRootSnapshot (snapshot_value s) = Some s' -> rs_timestamp s' = rs_timestamp s.
Proof.
  unfold normalizePersistedRootSnapshot. destruct (isNonNullObject _); [| done]. cbn [negb].
  destruct (as_string _); [| done]. destruct (toPositiveInteger (prop _ "treeSize")); [| done].
  destruct (toPositiveInteger (prop _ "timestamp")) as [t |] eqn:Et; [| done]. apply (positive_time _ (rs_timestamp s)) in Et as ->; [| done].
  destruct (negb _); [done |]. destruct (normalizeHex _ _); [| done]. by intros [= <-].
Qed.

Lemma persisted_times history p k s s' : parsePersistedRootHistory (snapshots_value history) = Some p ->
  history !! k = Some s -> p !! k = Some s' -> rs_timestamp s' = rs_timestamp s.
Proof.
  cbn. intros Hp Hs Hk. apply all_some_Some in Hp. change (@map) with (@list_fmap) in Hp. apply Forall2_fmap_l in Hp.
  apply snapshot_time. by eapply (Forall2_lookup_lr _ _ _ _ _ _ Hp).
Qed.

Lemma resolved_time vote fb t : sv_timestamp vote = Some (NInt t) -> 0 < t -> resolveSnapshotTimestamp vote fb = t.
Proof.
  intros Hv Ht. unfold resolveSnapshotTimestamp. rewrite Hv. cbn. unfold positive_integer. cbn.
  destruct (Z.ltb_spec 0 t); [done | lia].
Qed.

Lemma loop_times fb l : forall t0 h t1, history_loop fb l t0 = (Ok h, t1) -> forall k e s, l !! k = Some e ->
  h !! k = Some s -> rs_timestamp s = resolveSnapshotTimestamp e.2 fb.
Proof.
  induction l as [| [i vote] l IH]; intros t0 h t1; cbn [history_loop]; [done |]. unfold mbind, SM_bind.
  destruct (Rfc6962.append _ t0) as [[u |] ta]; [| done]. destruct (Rfc6962.getRoot ta) as [[root |] tb]; [| done].
  unfold sm_lift. destruct (normalizeHex root allow_empty) as [n |]; [| done]. cbn [sm_get].
  destruct (history_loop fb l tb) as [[rest |] tc] eqn:El; [| done]. intros [= <- <-] [| k] e s Hk Hs; cbn in Hk, Hs.
  - by simplify_eq.
  - by eapply IH.
Qed.

Lemma merged_times reconstructed persisted k s : mergePersistedRootHistory reconstructed persisted !! k = Some s ->
  (exists r, reconstructed !! k = Some r /\ rs_timestamp s = rs_timestamp r) \/
  (exists p q, persisted = Some p /\ p !! k = Some q /\ rs_timestamp s = rs_timestamp q).
Proof.
  assert (Hclone : forall l, map cloneRootSnapshot l !! k = Some s -> exists r, l !! k = Some r /\ rs_timestamp s = rs_timestamp r).
  { intros l. change (@map) with (@list_fmap). rewrite list_lookup_fmap. destruct (l !! k) as [r |]; [| done].
    cbn. intros [= <-]. by exists r. }
  unfold mergePersistedRootHistory. destruct reconstructed as [| r0 rest]; [done |]. set (l := r0 :: rest).
  destruct persisted as [p |]; [| intros Hk; left; by apply Hclone].
  destruct (persisted_agrees l p); intros Hk; [right | left; by apply Hclone].
  rewrite lookup_zip_with in Hk. destruct (l !! k); [| done]. destruct (p !! k) as [q |] eqn:Eq; [| done].
  cbn in Hk. injection Hk as <-. by exists p, q.
Qed.

(** The canonical history keeps the times of the record's history. *)
Lemma canonical_times fb voting history h : getCanonicalBulletinRootHistory fb voting = Ok h ->
  sort_entries (votes voting) = votes voting -> bulletinRootHistory voting = snapshots_value history ->
  length history = length (votes voting) -> same_times (votes voting) history -> same_times (votes voting) h.
Proof.
  intros E Hsort Hh Hlen Ht k e s Hk Hs. destruct (lookup_lt_is_Some_2 history k) as [s0 Hs0];
    [rewrite Hlen; by eapply lookup_lt_Some |].
  destruct (Ht k e s0 Hk Hs0) as [Hte Hrange]. enough (Heq : rs_timestamp s = rs_timestamp s0) by (by rewrite Heq).
  unfold getCanonicalBulletinRootHistory, rebuildCanonicalHistoryFromVotes in E. bind_inv. injection E as <-.
  match goal with Hr : fst (history_loop _ _ _) = Ok ?r0 |- _ => rename Hr into Hl, r0 into r end.
  destruct (history_loop fb _ _) as [res t'] eqn:El. cbn in Hl. subst res. rewrite Hsort in El.
  destruct (merged_times _ _ _ _ Hs) as [(r1 & Hr1 & ->) | (p & q & Hp & Hq & ->)].
  - rewrite (loop_times _ _ _ _ _ El _ _ _ Hk Hr1). apply resolved_time; [done | lia].
  - rewrite Hh in Hp. by eapply persisted_times.
Qed.

(** A staged vote and its snapshot have the reading of the clock. *)
Lemma stage_times now l : (forall k, 0 < now k <= MAX_SAFE_INTEGER) -> forall b n res b', board_ok b ->
  stage_loop now n l b = (Ok res, b') -> forall k v s, res.2 !! k = Some v -> res.1 !! k = Some s ->
    sv_timestamp (st_storedVote v) = Some (NInt (rs_timestamp s)) /\ 0 < rs_timestamp s <= MAX_SAFE_INTEGER.
Proof.
  intros Hnow. induction l as [| w l IH]; intros b n res b' Hb; cbn [stage_loop]; [by intros [= <- _] |].
  destruct (num_eqb _ _); [| done]. cbn [negb]. change ((sm_get ≫= ?f) b) with (f b b). cbv beta.
  unfold mbind at 1, SM_bind at 1. destruct (appendVote _ _ _ b) as [[a |] b1] eqn:Ea; [| done].
  destruct (appendVote_Ok _ _ _ _ _ _ Hb Ea) as [-> G]. change ((sm_get ≫= ?f) b1) with (f b1 b1). cbv beta.
  unfold mbind, SM_bind, sm_lift. destruct (normalizeHex _ _); [| done].
  destruct (stage_loop now _ l b1) as [[staged |] b2] eqn:El; [| done]. intros [= <- _] [| k] v s Hv Hs; cbn in Hv, Hs.
  - injection Hv as <-. injection Hs as <-. cbn. done.
  - by eapply IH; [apply (gr_ok _ _ _ G) | | |].
Qed.

Lemma staged_times now fb authority writes r history : stageCtVoteWrites now fb authority writes = Ok r ->
  (forall k, 0 < now k <= MAX_SAFE_INTEGER) -> sort_entries (votes authority) = votes authority ->
  bulletinRootHistory authority = snapshots_value history -> length history = length (votes authority) ->
  same_times (votes authority) history ->
  same_times (votes authority ++ map (fun s => (st_index s, st_storedVote s)) (sr_votes r)) (sr_bulletinRootHistory r).
Proof.
  intros E Hnow Hsort Hh Hlen Ht. destruct (stage_parts _ _ _ _ _ E) as (board & b0 & h & staged & _ & Ea & Eh & Es & Er & Ev).
  destruct (append_existing_Ok _ _ _ _ (board_new _) Ea) as (Hb0 & _).
  assert (Hkept := canonical_times _ _ _ _ Eh Hsort Hh Hlen Ht). destruct (canonical_history _ _ _ Eh) as (Hhl & _).
  rewrite Hsort, take_ge in Er by lia. rewrite Er, Ev. intros k e s Hk Hs.
  destruct (decide (k < length (votes authority))%nat) as [Hlt | Hge].
  - rewrite lookup_app_l in Hk by done. rewrite lookup_app_l in Hs by (rewrite length_map; lia).
    change (@map) with (@list_fmap) in Hs. rewrite list_lookup_fmap in Hs. destruct (h !! k) as [s0 |] eqn:E0; [| done].
    injection Hs as <-. exact (Hkept k e s0 Hk E0).
  - rewrite lookup_app_r in Hk by lia. rewrite lookup_app_r in Hs by (rewrite length_map; lia). rewrite length_map, Hhl in Hs.
    change (@map) with (@list_fmap) in Hk. rewrite list_lookup_fmap in Hk.
    destruct (staged.2 !! (k - length (votes authority))%nat) as [v |] eqn:E0; [| done]. injection Hk as <-.
    by eapply (stage_times now _ Hnow _ _ _ _ (board_reachable_ok _ Hb0) Es).
Qed.

(** A record whose times fit their fields, and whose history has the times of its
    votes. *)
Record storable (identity : SessionIdentityRecord) (v : VotingRecord) : Prop := {
  sb_ok : session_ok identity v;
  sb_session : vr_sessionId v = id_sessionId identity;
  sb_times : same_times (vr_votes v) (vr_bulletinRootHistory v);
  sb_activity : 0 <= vr_lastActivityMs v <= MAX_SAFE_INTEGER;
}.

(** The clock of an evaluation. *)
Definition clock_ok (env : Environment) : Prop :=
  (forall k, 0 < clock_stage env k <= MAX_SAFE_INTEGER) /\ forall n, 0 <= nowMs env n <= MAX_SAFE_INTEGER.

Lemma storable_new identity t : 0 <= t <= MAX_SAFE_INTEGER -> storable identity (snd (buildSessionRecords identity t)).
Proof. intros Ht. split; [apply session_new | done | done | done]. Qed.

Lemma entries_sorted_ok identity v : session_ok identity v -> sort_entries (vr_votes v) = vr_votes v.
Proof. intros Hv. apply sort_entries_canonical, (so_log _ _ Hv). Qed.

Lemma next_storable identity v v' writes now fb authority r history : storable identity v -> session_ok identity v' ->
  votes authority = vr_votes v -> (getLogId <$> bulletin authority) = Some (id_logId identity) ->
  map iw_index writes = count_from (zlength (vr_votes v)) (length writes) ->
  Forall (fun w => write_opens identity (iw_vote w)) writes -> stageCtVoteWrites now fb authority writes = Ok r ->
  (forall k, 0 < now k <= MAX_SAFE_INTEGER) -> bulletinRootHistory authority = snapshots_value history ->
  length history = length (vr_votes v) -> same_times (vr_votes v) history ->
  vr_votes v' = vr_votes (buildNextVoting v (sr_votes r) (vr_bulletin v') (vr_bulletinRootHistory v') 0 None 0) ->
  vr_bulletinRootHistory v' = sr_bulletinRootHistory r -> vr_sessionId v' = vr_sessionId v ->
  0 <= vr_lastActivityMs v' <= MAX_SAFE_INTEGER -> storable identity v'.
Proof.
  intros Hs Hv' Hvotes Hid Hindex Hopen Hst Hnow Hh Hlen Ht Hentries Hhistory Hsid Hact.
  assert (Hv := sb_ok _ _ Hs). split; [done | rewrite Hsid; apply Hs | | done].
  assert (Hr : board_reachable (sr_bulletin r)) by apply (staged_board _ _ _ _ _ Hst).
  destruct (next_votes identity v writes now fb authority r (sr_bulletin r) (vr_bulletinRootHistory v') 0 None 0 Hv Hvotes Hid Hindex
    Hopen Hst (same_board_refl _ (board_reachable_ok _ Hr)) Hr) as (Hn & _). cbn [vr_votes buildNextVoting] in Hentries, Hn.
  rewrite Hentries, Hn, Hhistory, <- Hvotes. eapply staged_times; try done; rewrite Hvotes; [| done | done].
  by eapply entries_sorted_ok.
Qed.

Lemma user_storable env identity v F (finalization : option F) vote m : storable identity v -> clock_ok env ->
  uv_vote vote ∈ VOTE_CHOICES -> session_ok identity (next_voting v m) ->
  evaluateUserVoteMutation env (mkAuthority identity v finalization) vote = Ok m -> storable identity (next_voting v m).
Proof.
  intros Hs [Hnow Hms] Hc Hv' E. assert (Hv := sb_ok _ _ Hs).
  destruct (user_parts _ _ _ _ _ _ E) as (pv & r & s & rest & p & b' & path & Hpv & Hst & _ & _ & _ & ->).
  destruct (prepareVote_Ok _ _ _ _ _ Hpv Hc) as (_ & _ & _ & Hw).
  eapply (next_storable identity v _ [mkWrite (NInt (zlength (vr_votes v))) pv] _ _ (ct_record v) r (vr_bulletinRootHistory v));
    try done.
  - cbn. by rewrite (lo_log _ _ _ _ (so_log _ _ Hv)).
  - by constructor; [exact Hw | constructor].
  - apply (so_log _ _ Hv).
  - apply Hs.
  - cbn. apply Hms.
Qed.

Lemma bot_storable env identity v F (finalization : option F) votes m : storable identity v -> clock_ok env ->
  Forall (fun vote => bv_vote vote ∈ VOTE_CHOICES) votes -> session_ok identity (next_voting v m) ->
  evaluateBotVoteMutation env (mkAuthority identity v finalization) votes = Ok m -> storable identity (next_voting v m).
Proof.
  intros Hs [Hnow Hms] Hc Hv' E. assert (Hv := sb_ok _ _ Hs).
  destruct (bot_parts _ _ _ _ _ _ E) as (projection & writes & r & Hp & _ & _ & Hw & Hst & ->).
  destruct (projection_parts _ _ _ _ Hp) as (Hlogid & Hnext & _). cbn in Hlogid, Hnext.
  destruct (prepareVotes_Ok _ _ _ _ Hc _ _ Hw) as (Hlen & Hindex & Hopen).
  rewrite Hnext, Z.add_0_r, <- Hlen in Hindex.
  assert (Hh : getCanonicalBulletinRootHistory (clock_fallback env) (ct_record v) = Ok (cp_bulletinRootHistory projection)).
  { unfold buildCanonicalCtSessionProjection in Hp. bind_inv. injection Hp as <-. done. }
  assert (Hhl := lo_history _ _ _ _ (so_log _ _ Hv)).
  eapply (next_storable identity v _ writes _ _ (mkVoting (vr_votes v) (Some (cp_bulletin projection))
    (snapshots_value (cp_bulletinRootHistory projection)) (vr_userParticipation v)) r (cp_bulletinRootHistory projection)); try done.
  - cbn. rewrite <- Hlogid. f_equal. apply (so_log _ _ Hv).
  - by destruct (canonical_history _ _ _ Hh) as (Hl & _).
  - eapply (canonical_times _ _ (vr_bulletinRootHistory v) _ Hh); try done; [by eapply entries_sorted_ok | apply Hs].
  - cbn. apply Hms.
Qed.

Lemma accepted_kinds env F (authority : SessionVoteAuthority F) command m :
  evaluateSessionVoteMutation env authority command = Ok (Accepted m) ->
  (exists result, m = user_vote_replayed result) \/
  (exists vote, command = append_user_vote vote /\ evaluateUserVoteMutation env authority vote = Ok m) \/
  (exists votes, command = append_bot_votes votes /\ evaluateBotVoteMutation env authority votes = Ok m).
Proof.
  unfold evaluateSessionVoteMutation. intros E. apply bind_Ok in E as (replay & Hr & E).
  assert (Hadmit : forall vote, admitNewUserVote env authority vote = Ok (Accepted m) -> evaluateUserVoteMutation env authority vote = Ok m).
  { intros vote. unfold admitNewUserVote. destruct (existsb _ _); [done |]. destruct (_ || _); [done |].
    destruct (evaluateUserVoteMutation _ _ _) as [m' |]; [| done]. by intros [= ->]. }
  destruct replay as [| | vote i].
  3: { left. unfold replayed in E. bind_inv. repeat case_match; try done. bind_inv. injection E as <-. by eexists. }
  all: destruct (is_some (sa_finalization authority)); [done |]; right; destruct command as [vote | votes];
    [left; exists vote; split; [done | by apply Hadmit] | right; exists votes; split; [done |]];
    (destruct (vr_userParticipation _); [done |]); (destruct (Z.ltb _ _); [done |]);
    destruct (evaluateBotVoteMutation _ _ _) as [m' |]; [| done]; by injection E as ->.
Qed.

Lemma step_storable env identity v F (finalization : option F) command m : storable identity v -> clock_ok env ->
  command_typed command -> evaluateSessionVoteMutation env (mkAuthority identity v finalization) command = Ok (Accepted m) ->
  storable identity (next_voting v m).
Proof.
  intros Hs Hclock Hc E. destruct (session_step _ _ _ _ _ _ (sb_ok _ _ Hs) Hc E) as [Hv' _].
  destruct (accepted_kinds _ _ _ _ _ E) as [(result & ->) | [(vote & -> & Eu) | (votes & -> & Eb)]]; [done | |].
  - by eapply user_storable.
  - by eapply bot_storable.
Qed.

(** A step of the voting policy whose clock fits the fields of the rows. *)
Definition timed_step {F} (identity : SessionIdentityRecord) (v v' : VotingRecord) : Prop :=
  exists (finalization : option F) env command m, clock_ok env /\ command_typed command /\
    evaluateSessionVoteMutation env (mkAuthority identity v finalization) command = Ok (Accepted m) /\
    v' = next_voting v m.

Definition timed_reachable {F} (identity : SessionIdentityRecord) (v : VotingRecord) : Prop :=
  exists t, 0 <= t <= MAX_SAFE_INTEGER /\ rtc (timed_step (F := F) identity) (snd (buildSessionRecords identity t)) v.

Lemma timed_storable F identity v : timed_reachable (F := F) identity v -> storable identity v.
Proof.
  intros (t & Ht & Hv). apply (rtc_ind_r (storable identity) _ (storable_new identity t Ht)) in Hv; [done |].
  intros v1 v2 _ (fin & env & command & m & Hclock & Hc & E & ->) IH. by eapply step_storable.
Qed.

End times.

(** ** Strict hexadecimal text *)

Definition strict (s : string) : Prop :=
  exists d, s = ("0x" +:+ d)%string /\ slen d = 64 /\ string_all is_lower_hex d = true.

Lemma strict_normal s : strict s -> normal s.
Proof. intros (d & -> & Hl & Hd). exists d. split_and!; [done | lia | done]. Qed.

Lemma even_digits value d : strip_hex_prefix value = d -> slen d = 64 -> string_all is_hex d = true ->
  normalizeHex value even_only = Ok ("0x" +:+ to_lower d)%string.
Proof. intros Es Hl Hd. unfold normalizeHex. rewrite Es, Hl, Hd. reflexivity. Qed.

Lemma strict_Ok value n : normalizeStrictHex32 value = Ok n -> strict n.
Proof.
  unfold normalizeStrictHex32. destruct (isValidHexString value (Some 32)) eqn:Ev; [| done]. cbn [negb].
  apply isValidHexString_spec in Ev as [Hd Hl]. unfold normalizeHexString in *.
  destruct (str_truthy value); [| done]. cbn [negb] in *.
  rewrite (even_digits value (strip_hex_prefix value)); [| done | | ].
  - intros [= <-]. eexists. split; [reflexivity |]. split; [lia | done].
  - rewrite to_lower_length in Hl. lia.
  - unfold to_lower in Hd. rewrite string_all_map in Hd.
    eapply string_all_impl; [apply is_lower_hex_of_lower | done].
Qed.

Lemma strict_digits d : slen d = 64 -> string_all is_lower_hex d = true ->
  normalizeStrictHex32 d = Ok ("0x" +:+ d)%string /\ normalizeStrictHex32 ("0x" +:+ d) = Ok ("0x" +:+ d)%string.
Proof.
  intros Hl Hd. assert (Hx : string_all is_hex d = true) by (eapply string_all_impl; [apply is_lower_hex_is_hex | done]).
  assert (Hn := normalize_lower_hex d Hd). assert (Hlow := to_lower_lower_hex d Hd). unfold normalizeStrictHex32.
  assert (Hv : isValidHexString d (Some 32) = true).
  { unfold isValidHexString. rewrite Hn, Hd, Hl. destruct d; done. }
  assert (Hv' : isValidHexString ("0x" +:+ d) (Some 32) = true).
  { unfold isValidHexString, normalizeHexString. change ("0x" +:+ d)%string with (String "0" (String "x" d)). cbn [str_truthy negb strip_hex_prefix].
    rewrite Hlow, Hd, Hl. done. }
  rewrite Hv, Hv'. cbn [negb]. rewrite !(even_digits _ d); rewrite ?Hlow; try done.
  by rewrite strip_hex_prefix_hex.
Qed.

Lemma strict_again s : strict s -> normalizeStrictHex32 s = Ok s.
Proof. intros (d & -> & Hl & Hd). by apply strict_digits. Qed.

Section log.
Context `{NobleLaws}.

Lemma strict_root l : normalizeStrictHex32 (root_of l) = Ok (prefixed (root_of l)) /\ strict (prefixed (root_of l)).
Proof.
  destruct (root_of_canonical l) as [Hl Hs]. split; [apply strict_digits; [lia | done] |].
  exists (root_of l). split_and!; [done | lia | done].
Qed.

(** ** One more vote *)

Lemma log_snoc identity entries b history vote id t a b' s : log_ok identity entries b history ->
  sv_voteId vote = Some id -> appendVote id (text_slice 2 (sv_commit vote)) t b = (Ok a, b') ->
  vote_opens identity vote -> sv_rootAtCast vote = prefixed (ar_rootAtAppend a) ->
  rs_treeSize s = Z.of_nat (S (length entries)) -> rs_root s = prefixed (ar_rootAtAppend a) ->
  log_ok identity (entries ++ [(NInt (zlength entries), vote)]) b' (history ++ [s]).
Proof.
  intros Hlog Hid E Hopen Hroot Hsize Hs. assert (Hb := lo_board _ _ _ _ Hlog).
  assert (Hb' := appendVote_reachable _ _ _ _ _ _ Hb E).
  destruct (appendVote_Ok _ _ _ _ _ _ (board_reachable_ok b Hb) E) as [Ha [Hok Hc He Hl]].
  set (e := entry_of b id _ t) in *. assert (Hlen : length (commitments b) = length entries).
  { by rewrite (lo_commitments _ _ _ _ Hlog), length_map. }
  assert (Hat : forall k, (k < length entries)%nat -> root_at b' k = root_at b k).
  { intros k Hk. apply root_at_prefix; [rewrite Hc; by eexists | lia]. }
  assert (Hnew : root_at b' (length entries) = ar_rootAtAppend a).
  { destruct (bo_entries _ Hok (length entries) id e) as (_ & _ & _ & _ & Hr).
    - rewrite He, lookup_app_r; rewrite (bo_length _ (board_reachable_ok b Hb)), Hlen; [by rewrite Nat.sub_diag | done].
    - by rewrite Ha. }
  destruct Hlog as [Hkeys _ Hlg Hcm Hids Hh Hr Hv]. split; [| done | by unfold getLogId in *; congruence | | | | |].
  - rewrite map_app, length_app, count_from_app, <- Hkeys. done.
  - by rewrite Hc, Hcm, map_app.
  - rewrite He, !map_app, Hids. cbn. by rewrite Hid.
  - rewrite !length_app. cbn. lia.
  - intros k x Hk. apply lookup_app_Some in Hk as [Hk | [Hge Hk]].
    + assert (Hlt := lookup_lt_Some _ _ _ Hk). rewrite Hat by lia. by apply Hr.
    + apply list_lookup_singleton_Some in Hk as [Hk0 <-]. replace k with (length entries) by lia.
      split; [done |]. right. congruence.
  - intros k i x Hk. apply lookup_app_Some in Hk as [Hk | [Hge Hk]].
    + rewrite Hat by (by eapply lookup_lt_Some). by apply (Hv k i).
    + apply list_lookup_singleton_Some in Hk as [Hk0 [= <- <-]]. replace k with (length entries) by lia.
      split; [congruence | done].
Qed.

Lemma commitment_strict e c r commit : computeCommitment e c r = Ok commit -> strict commit.
Proof.
  unfold computeCommitment. intros E. bind_inv. injection E as <-. eexists. split; [reflexivity |].
  split; [| apply bytesToHex_lower, sha256_bytes].
  unfold slen. rewrite bytesToHex_length by apply sha256_bytes. rewrite sha256_length. lia.
Qed.

(** ** What a row decodes to *)

Context `{AesGcmLaws}.
Variables (env : string -> option string) (active : option BoundRuntimeConfigReferenceResolver).

Lemma row_decoded item vote : toStoredVoteRecord env active item = Ok vote ->
  sv_voteId vote = Some (vo_voteId item) /\ sv_timestamp vote = Some (NInt (vo_timestamp item)) /\
  sv_vote vote ∈ VOTE_CHOICES /\ normal (sv_rand vote) /\ strict (sv_commit vote) /\ strict (sv_rootAtCast vote).
Proof.
  unfold toStoredVoteRecord, try_catch. intros E. case_match; [| by case_match]. injection E as <-. bind_inv.
  match goal with Hc : (if negb ?c then _ else _) = Ok _ |- _ => destruct c eqn:Ec; [| done] end.
  cbn [negb] in *. bind_inv. apply bool_decide_eq_true in Ec.
  match goal with Hc : Ok _ = Ok _ |- _ => injection Hc as <- end. cbn.
  split_and!; try done; [eapply normal_of_normalize; [by left | done] | by eapply strict_Ok | by eapply strict_Ok].
Qed.

Lemma choice_code_positive choice : choice ∈ VOTE_CHOICES -> 0 <= choice_code choice.
Proof. unfold VOTE_CHOICES. rewrite !elem_of_cons, elem_of_nil. intros Hc. destruct_or? Hc; by subst. Qed.

Lemma index_of_choice choice : choice ∈ VOTE_CHOICES -> LocalCast.index_of VOTE_CHOICES choice = choice_code choice.
Proof. unfold VOTE_CHOICES. rewrite !elem_of_cons, elem_of_nil. intros Hc. destruct_or? Hc; by subst. Qed.

(** ** Restoring *)

(** What the loop makes of the rows from the index [expected] on. *)
Definition restored_from (expected : Z) (sorted : list VoteItem) (votes : list (num * StoredVoteRecord))
    (history : list RootSnapshot) : Prop :=
  length votes = length sorted /\ length history = length sorted /\
  forall k item, sorted !! k = Some item -> vo_voteIndex item = expected + Z.of_nat k /\
    exists vote s, votes !! k = Some (NInt (expected + Z.of_nat k), vote) /\ history !! k = Some s /\
      toStoredVoteRecord env active item = Ok vote /\ rs_timestamp s = vo_timestamp item /\ strict (rs_root s) /\
      rs_root s = sv_rootAtCast vote /\ rs_treeSize s = expected + Z.of_nat k + 1 /\ rs_signature s = None.

Lemma restored_cons expected item vote s sorted votes history : vo_voteIndex item = expected ->
  toStoredVoteRecord env active item = Ok vote -> rs_timestamp s = vo_timestamp item -> strict (rs_root s) ->
  rs_root s = sv_rootAtCast vote -> rs_treeSize s = expected + 1 -> rs_signature s = None ->
  restored_from (expected + 1) sorted votes history ->
  restored_from expected (item :: sorted) ((NInt expected, vote) :: votes) (s :: history).
Proof.
  intros Hi Hv Ht Hr Hs Hsize Hsig (L1 & L2 & Hall). split_and!; [cbn; lia | cbn; lia |]. intros [| k] x Hk; cbn in Hk.
  - injection Hk as <-. split; [cbn; lia |]. exists vote, s. rewrite Z.add_0_r. split_and!; done || lia.
  - destruct (Hall k x Hk) as (Hx & vote' & s' & Hrest).
    replace (expected + Z.of_nat (S k)) with (expected + 1 + Z.of_nat k) by lia. split; [done |].
    by exists vote', s'.
Qed.

Lemma restore_loop_Ok now identity sorted : forall expected seen entries b history votes hist b',
  log_ok identity entries b history -> expected = zlength entries ->
  restore_loop env active now identity expected seen sorted b = (Ok (votes, hist), b') ->
  log_ok identity (entries ++ votes) b' (history ++ hist) /\ restored_from expected sorted votes hist.
Proof.
  induction sorted as [| item sorted IH]; intros expected seen entries b history votes hist b' Hlog Hz; cbn [restore_loop].
  { intros [= <- <- <-]. rewrite !app_nil_r. split; [done |]. by split_and!. }
  destruct (Z.eqb_spec (vo_voteIndex item) expected) as [Hi |]; [| done]. destruct (bool_decide (_ ∈ seen)); [done |].
  cbn [negb orb]. unfold mbind, SM_bind, sm_lift at 1.
  destruct (toStoredVoteRecord env active item) as [vote |] eqn:Ev; [| done]. cbv zeta. unfold sm_lift at 1.
  destruct (row_decoded item vote Ev) as (Hid & Ht & Hchoice & Hrand & Hcommit & Hroot).
  rewrite (index_of_choice _ Hchoice).
  destruct (Z.ltb_spec (choice_code (sv_vote vote)) 0) as [Hneg | _]; [by apply choice_code_positive in Hchoice; lia |].
  destruct (computeCommitment _ _ _) as [commitment |] eqn:Ec; [| done].
  cbn [result_bind fmap result_fmap].
  destruct (normalizeStrictHex32 commitment) as [strictCommitment |] eqn:Es; [| done].
  change (Some <$> Ok strictCommitment) with (Ok (Some strictCommitment)). cbv iota beta.
  destruct (bool_decide_reflect (Some strictCommitment = Some (sv_commit vote))) as [[= ->] |]; [| done].
  cbn [negb]. unfold append_or_unavailable, voteId_text. rewrite Hid. cbn [default].
  destruct (appendVote _ _ _ b) as [[a | [msg |]] b1] eqn:Ea; [| done ..]. unfold sm_lift at 1.
  assert (Hopen : vote_opens identity vote).
  { split; [done | by apply normal_again; [right |] |]. rewrite Ec. f_equal.
    assert (Hstrict : strict commitment); [| rewrite strict_again in Es by done; by injection Es].
    apply commitment_strict in Ec. done. }
  destruct (normalizeStrictHex32 (ar_rootAtAppend a)) as [root |] eqn:Er; [| done].
  destruct (Z.eqb (ar_index a) expected); [| done]. destruct (String.eqb_spec root (sv_rootAtCast vote)) as [-> |]; [| done].
  cbn [negb orb]. destruct (restore_loop _ _ _ _ _ _ sorted b1) as [[more |] b2] eqn:Em; [| done].
  intros [= <- <- <-].
  assert (Hroot' : prefixed (ar_rootAtAppend a) = sv_rootAtCast vote).
  { destruct (appendVote_Ok _ _ _ _ _ _ (board_reachable_ok b (lo_board _ _ _ _ Hlog)) Ea) as [-> _].
    cbn [ar_rootAtAppend] in *. assert (Heq : Ok (prefixed (ve_rootAtAppend (entry_of b (vo_voteId item) (text_slice 2 (sv_commit vote))
      (now expected)))) = Ok (sv_rootAtCast vote)) by (rewrite <- Er; symmetry; apply strict_root). by injection Heq. }
  set (s := mkSnapshot (vo_timestamp item) (expected + 1) (sv_rootAtCast vote) None).
  destruct (IH (expected + 1) (vo_voteId item :: seen) (entries ++ [(NInt expected, vote)]) b1 (history ++ [s]) more.1 more.2 b2)
    as [Hlog' Hfrom].
  - rewrite Hz. eapply log_snoc; try done. unfold s. cbn. unfold zlength in Hz. lia.
  - rewrite zlength_app, zlength_single. lia.
  - rewrite Em. by destruct more.
  - rewrite <- !app_assoc in Hlog'. split; [done |]. by apply restored_cons.
Qed.

(** The snapshots that are kept have the roots and the sizes that were rebuilt. *)
Lemma restore_history_Ok votes reconstructed : forall index persisted history,
  restore_history votes index persisted reconstructed = Ok history -> length history = length reconstructed /\
  forall k h, history !! k = Some h -> exists s, reconstructed !! k = Some s /\ rs_root h = rs_root s /\
    rs_treeSize h = rs_treeSize s.
Proof.
  induction reconstructed as [| s reconstructed IH]; intros index persisted history; cbn [restore_history].
  { intros [= <-]. by split. }
  destruct persisted as [| p persisted]; [done |].
  destruct (Z.eqb_spec (rs_treeSize p) (rs_treeSize s)) as [Hsize |]; [| done]. cbn [negb]. intros E. bind_inv.
  destruct (negb _ || _); [done |]. bind_inv. injection E as <-.
  match goal with Hr : restore_history _ _ _ _ = Ok _ |- _ => destruct (IH _ _ _ Hr) as [Hl Hall] end.
  split; [cbn; lia |]. intros [| k] h Hk; [| by apply Hall]. injection Hk as <-. by exists s.
Qed.

Lemma log_history identity entries b history history' : log_ok identity entries b history ->
  length history' = length history ->
  (forall k h, history' !! k = Some h -> exists s, history !! k = Some s /\ rs_root h = rs_root s /\
     rs_treeSize h = rs_treeSize s) -> log_ok identity entries b history'.
Proof.
  intros [? ? ? ? ? Hl Hroots ?] Hl' Hall. split; try done; [congruence |]. intros k h Hk.
  destruct (Hall k h Hk) as (s & Hs & Hr & Hz). destruct (Hroots k s Hs) as [Hsize Hroot]. by rewrite Hr, Hz.
Qed.

Lemma participation_Ok persisted sorted votes u : length votes = length sorted ->
  assertPersistedParticipation persisted sorted votes = Ok u ->
  match pv_userParticipation persisted with
  | not_cast => votes = [] /\ pv_botCount persisted = 0
  | cast i => i = NInt 0 /\ zlength votes = pv_botCount persisted + 1
  end /\ 0 <= pv_botCount persisted <= Z.max 0 (zlength sorted - 1).
Proof.
  intros Hl. unfold assertPersistedParticipation. destruct (_ || _) eqn:E; [done |]. intros _. bool_prop.
  unfold hasFirstUserVote, zlength in *. destruct (pv_userParticipation persisted) as [| i]; cbn [explicit_index is_some] in *; bool_prop.
  - destruct sorted; [| done]. destruct votes; [| done]. cbn in *. split; [split; [done |] |]; lia.
  - match goal with Hi : num_eqb i _ = true |- _ => apply num_eqb_int_r in Hi end.
    destruct sorted as [| item sorted]; [done |]. cbn [length] in *. split; [split; [done |] |]; lia.
Qed.

(** ** Whatever the rows hold, a restored record is in order *)

Lemma restored_log now identity persisted items v : restoreVotingRecord env active now identity persisted items = Ok v ->
  log_ok identity (vr_votes v) (vr_bulletin v) (vr_bulletinRootHistory v) /\ vr_sessionId v = id_sessionId identity /\
  match vr_userParticipation v with
  | not_cast => vr_votes v = [] /\ vr_botCount v = 0
  | cast i => i = NInt 0 /\ zlength (vr_votes v) = vr_botCount v + 1
  end /\ 0 <= vr_botCount v <= Z.max 0 (zlength items - 1).
Proof.
  intros E. unfold restoreVotingRecord, restoreVoteItems in E. cbv zeta in E.
  destruct (restore_loop _ _ _ _ _ _ _ _) as [[[votes reconstructed] |] bulletin] eqn:El; [| done].
  cbn [mbind result_bind] in E. bind_inv. injection E as <-.
  assert (Hnew : log_ok identity [] (new_board (Some (id_logId identity))) []) by (apply (so_log _ _ (session_new identity 0))).
  destruct (restore_loop_Ok _ _ _ _ _ _ _ _ _ _ _ Hnew eq_refl El) as [Hlog (L1 & L2 & _)]. cbn [app] in Hlog.
  match goal with Hh : restorePersistedRootHistory _ _ _ = Ok _ |- _ =>
    unfold restorePersistedRootHistory in Hh; destruct (Z.eqb _ _); [| done]; cbn [negb] in Hh;
    destruct (restore_history_Ok _ _ _ _ _ Hh) as [Hl Hall] end.
  match goal with Hp : assertPersistedParticipation _ _ _ = Ok _ |- _ =>
    destruct (participation_Ok _ _ _ _ L1 Hp) as [Huser Hcount] end.
  assert (Hz : zlength (sort_items items) = zlength items) by (unfold sort_items, zlength; by rewrite (Permutation_length (js_sort_perm _ items))).
  rewrite Hz in Hcount. split; [by eapply log_history | done].
Qed.

Lemma restored_in_order now identity persisted items v :
  restoreVotingRecord env active now identity persisted items = Ok v -> zlength items <= BOT_COUNT + 1 ->
  session_ok identity v /\ vr_sessionId v = id_sessionId identity.
Proof.
  intros (Hlog & Hsid & Huser & Hcount)%restored_log Hbound. split; [| done]. split; [done | done |].
  unfold BOT_COUNT in *. lia.
Qed.

(** The nodes of a proof are in normal form once they carry the prefix. *)
Lemma path_normalized f : forall m l, normalize_nodes allow_empty (path_spec f m l) = Ok (map prefixed (path_spec f m l)).
Proof.
  assert (Happ : forall nodes x, normalize_nodes allow_empty nodes = Ok (map prefixed nodes) ->
    normalize_nodes allow_empty (nodes ++ [root_of x]) = Ok (map prefixed (nodes ++ [root_of x]))).
  { induction nodes as [| node nodes IH]; intros x E; cbn [normalize_nodes app map] in *.
    - rewrite normalize_root. done.
    - apply bind_Ok in E as (n & En & (ns & Ens & [= -> ->])%bind_Ok). by rewrite En, (IH x Ens). }
  induction f as [| f IH]; intros m l; cbn [path_spec]; [done |]. destruct (Z.leb _ _); [done |].
  destruct (Z.ltb _ _); apply Happ, IH.
Qed.

(** The proof of every vote of a log is derived, and the verifier accepts it. *)
Lemma exact_proof identity entries b history k i vote : log_ok identity entries b history -> entries !! k = Some (i, vote) ->
  i = NInt (Z.of_nat k) /\ exists id nodes root, sv_voteId vote = Some id /\ sv_rootAtCast vote = prefixed root /\
    deriveExactCtProof b id (Z.of_nat k) (sv_rootAtCast vote) =
      Ok (mkExactProof (Z.of_nat k) (map prefixed nodes) (sv_rootAtCast vote) (Z.of_nat k + 1)) /\
    board_verifyInclusionProof (appended (sv_commit vote)) (NInt (Z.of_nat k)) nodes root (Z.of_nat k + 1) = Ok true.
Proof.
  intros Hlog Hk. assert (Hok := board_reachable_ok _ (lo_board _ _ _ _ Hlog)).
  assert (Hlt := lookup_lt_Some _ _ _ Hk). destruct (lo_votes _ _ _ _ Hlog _ _ _ Hk) as [Hroot _].
  destruct (log_entry _ _ _ _ _ _ _ Hlog Hk) as (-> & id & e & Hid & He & Hc). split; [done |].
  assert (Hn : Z.of_nat k < Z.of_nat k + 1 <= zlength (commitments b)).
  { unfold zlength. rewrite (lo_commitments _ _ _ _ Hlog), length_map. lia. }
  destruct (issue_proof _ _ _ _ _ Hok He Hn) as (b' & Ep & _). set (p := issued b k (Z.of_nat k + 1)) in *.
  assert (Hat : sv_rootAtCast vote = prefixed (ip_rootHash p)).
  { rewrite Hroot. unfold root_at, p. cbn. do 3 f_equal. lia. }
  exists id, (ip_proofNodes p), (ip_rootHash p). split_and!; [done | done | | rewrite <- Hc; by eapply issued_verifies].
  unfold deriveExactCtProof. assert (Hids : isValidVoteId id = true) by (by destruct (bo_entries _ Hok _ _ _ He)).
  assert (Ht : str_truthy id = true) by (destruct id; [by vm_compute in Hids | done]). rewrite Ht.
  destruct (Z.ltb_spec (Z.of_nat k) 0); [lia |]. rewrite Hat. change (str_truthy (prefixed (ip_rootHash p))) with true. cbn [negb orb].
  cbv zeta. unfold unavailable, try_catch. rewrite Ep. cbn [fst mbind result_bind]. cbn [p issued ip_leafIndex ip_treeSize].
  rewrite !Z.eqb_refl. cbn [negb orb].
  change (ip_rootHash p) with (root_of (take (Z.to_nat (Z.of_nat k + 1)) (board_bytes b))).
  rewrite normalize_prefixed, normalize_root. cbn [mbind result_bind]. rewrite String.eqb_refl. cbn [negb].
  unfold p, issued. cbn [ip_proofNodes]. by rewrite path_normalized.
Qed.

(** C22: Whatever the rows of a session hold, a record that is restored from them
    is in order: either nothing was cast, or the vote of the user is the first one
    and the bots cast the rest; the log has the identity of the session, the
    history has one snapshot per vote with the root stored with the vote; and
    every vote opens its commitment and has the proof that it was recorded when it
    was cast, which the client's verifier accepts. *)
Theorem restored_votes_in_order now identity persisted items v :
  restoreVotingRecord env active now identity persisted items = Ok v ->
  (vr_userParticipation v = not_cast /\ vr_votes v = [] /\ vr_botCount v = 0 \/
   vr_userParticipation v = cast (NInt 0) /\ zlength (vr_votes v) = vr_botCount v + 1) /\
  getLogId (vr_bulletin v) = id_logId identity /\ length (vr_bulletinRootHistory v) = length (vr_votes v) /\
  forall k i vote, vr_votes v !! k = Some (i, vote) ->
    i = NInt (Z.of_nat k) /\ sv_vote vote ∈ VOTE_CHOICES /\
    computeCommitment (id_electionId identity) (choice_code (sv_vote vote)) (sv_rand vote) = Ok (sv_commit vote) /\
    exists id nodes root, sv_voteId vote = Some id /\ sv_rootAtCast vote = prefixed root /\
      (exists s, vr_bulletinRootHistory v !! k = Some s /\ rs_treeSize s = Z.of_nat k + 1 /\
        normalizeHex (rs_root s) allow_empty = Ok (sv_rootAtCast vote)) /\
      deriveExactCtProof (vr_bulletin v) id (Z.of_nat k) (sv_rootAtCast vote) =
        Ok (mkExactProof (Z.of_nat k) (map prefixed nodes) (sv_rootAtCast vote) (Z.of_nat k + 1)) /\
      board_verifyInclusionProof (appended (sv_commit vote)) (NInt (Z.of_nat k)) nodes root (Z.of_nat k + 1) = Ok true.
Proof.
  intros (Hlog & _ & Huser & _)%restored_log. split_and!; [| apply Hlog | apply Hlog |].
  { destruct (vr_userParticipation v); [left; by destruct Huser | right; by destruct Huser as [-> Huser]]. }
  intros k i vote Hk. destruct (lo_votes _ _ _ _ Hlog _ _ _ Hk) as [Hroot [Hchoice _ Hopen]].
  destruct (exact_proof _ _ _ _ _ _ _ Hlog Hk) as (-> & id & nodes & root & Hid & Hr & Hp & Hv).
  split_and!; [done | done | done |]. exists id, nodes, root. split_and!; [done | done | | done | done].
  destruct (lookup_lt_is_Some_2 (vr_bulletinRootHistory v) k) as [s Hs].
  { rewrite (lo_history _ _ _ _ Hlog). by eapply lookup_lt_Some. }
  exists s. destruct (lo_roots _ _ _ _ Hlog _ _ Hs) as [Hsize Hsr]. split_and!; [done | lia |].
  rewrite Hroot. unfold root_at in *. destruct Hsr as [-> | ->]; [apply normalize_root | apply normalize_prefixed].
Qed.

(** ** A record in order is restored *)

Lemma log_id identity entries b history k e : log_ok identity entries b history -> entries !! k = Some e ->
  exists id x, sv_voteId e.2 = Some id /\ voteEntries b !! k = Some (id, x) /\ isValidVoteId id = true.
Proof.
  intros Hlog Hk. assert (Hids := f_equal (lookup k) (lo_ids _ _ _ _ Hlog)).
  change (@map) with (@list_fmap) in Hids. rewrite !list_lookup_fmap, Hk in Hids.
  destruct (voteEntries b !! k) as [[id x] |] eqn:Ek; [| done]. injection Hids as Hid. exists id, x.
  split_and!; [done | done |]. by destruct (bo_entries _ (board_reachable_ok _ (lo_board _ _ _ _ Hlog)) _ _ _ Ek).
Qed.

Lemma log_ids_distinct identity entries b history k k' e e' : log_ok identity entries b history ->
  entries !! k = Some e -> entries !! k' = Some e' -> sv_voteId e.2 = sv_voteId e'.2 -> k = k'.
Proof.
  intros Hlog Hk Hk' Heq. destruct (log_id _ _ _ _ _ _ Hlog Hk) as (id & x & Hid & Hx & _).
  destruct (log_id _ _ _ _ _ _ Hlog Hk') as (id' & x' & Hid' & Hx' & _). rewrite Hid, Hid' in Heq. injection Heq as <-.
  eapply NoDup_lookup; [apply (bo_ids _ (board_reachable_ok _ (lo_board _ _ _ _ Hlog))) | |];
    change (@map) with (@list_fmap); rewrite list_lookup_fmap; [by rewrite Hx | by rewrite Hx'].
Qed.

(** A vote of a log can be appended to the log of the votes before it. *)
Lemma vote_accepted identity entries e rest B history b h id : log_ok identity (entries ++ e :: rest) B history ->
  log_ok identity entries b h -> sv_voteId e.2 = Some id -> accepts b id (text_slice 2 (sv_commit e.2)) = true.
Proof.
  intros HB Hb Hid. assert (Hk : (entries ++ e :: rest) !! length entries = Some e) by (by rewrite lookup_app_r, Nat.sub_diag).
  destruct (log_id _ _ _ _ _ _ HB Hk) as (id' & x & Hid' & Hx & Hvalid). rewrite Hid in Hid'. injection Hid' as <-.
  assert (HokB := board_reachable_ok _ (lo_board _ _ _ _ HB)). assert (Hokb := board_reachable_ok _ (lo_board _ _ _ _ Hb)).
  assert (HcB := lo_commitments _ _ _ _ HB). assert (Hcb := lo_commitments _ _ _ _ Hb).
  rewrite map_app in HcB. cbn [map] in HcB. unfold accepts. rewrite Hvalid. fold (appended (sv_commit e.2)).
  assert (Hin : isValidHexString (appended (sv_commit e.2)) (Some 32) = true).
  { assert (Hv := bo_valid _ HokB). rewrite HcB in Hv. apply Forall_app in Hv as [_ Hv]. by apply Forall_cons in Hv as [Hv _]. }
  assert (Hnotin : appended (sv_commit e.2) ∉ commitments b).
  { rewrite Hcb. assert (Hn := bo_nodup _ HokB). rewrite HcB in Hn. apply NoDup_app in Hn as (_ & Hn & _).
    intros Hm. apply (Hn _ Hm). by left. }
  assert (Hget : map_get (voteEntries b) id = None).
  { destruct (map_get (voteEntries b) id) as [x' |] eqn:Eg; [| done]. apply map_get_Some in Eg as [j Hj].
    assert (Hj' := f_equal (lookup j) (lo_ids _ _ _ _ Hb)). change (@map) with (@list_fmap) in Hj'.
    rewrite !list_lookup_fmap, Hj in Hj'. destruct (entries !! j) as [e' |] eqn:Ee; [| done]. injection Hj' as Hj'.
    assert (Hlt := lookup_lt_Some _ _ _ Ee). enough (j = length entries) by lia.
    apply (log_ids_distinct _ _ _ _ j (length entries) e' e HB); [by apply lookup_app_l_Some | done | congruence]. }
  assert (Hsafe : zlength (commitments b) <= MAX_SAFE_INTEGER).
  { assert (Hs := bo_safe _ HokB). rewrite HcB in Hs. rewrite Hcb. unfold zlength in *.
    rewrite length_app in Hs. cbn [length] in Hs. rewrite length_map in *. lia. }
  rewrite Hget, Hin, bool_decide_eq_false_2 by done. cbn [is_some negb andb]. by apply Z.leb_le.
Qed.

(** What the votes of a log say of their rows. *)
Definition decodes (item : VoteItem) (e : num * StoredVoteRecord) : Prop :=
  toStoredVoteRecord env active item = Ok e.2 /\ e.1 = NInt (vo_voteIndex item).

Lemma vote_root identity entries i vote rest B history b h id t : 
  log_ok identity (entries ++ (i, vote) :: rest) B history -> log_ok identity entries b h -> sv_voteId vote = Some id ->
  exists a b1 s, appendVote id (text_slice 2 (sv_commit vote)) t b = (Ok a, b1) /\
    sv_rootAtCast vote = prefixed (ar_rootAtAppend a) /\ ar_index a = zlength entries /\
    normalizeStrictHex32 (ar_rootAtAppend a) = Ok (sv_rootAtCast vote) /\
    log_ok identity (entries ++ [(NInt (zlength entries), vote)]) b1 (h ++ [s]).
Proof.
  intros HB Hb Hid. assert (Hk : (entries ++ (i, vote) :: rest) !! length entries = Some (i, vote)) by (by rewrite lookup_app_r, Nat.sub_diag).
  assert (Hacc := vote_accepted _ _ (i, vote) _ _ _ _ _ id HB Hb Hid). cbn [snd] in Hacc.
  assert (Hokb := board_reachable_ok _ (lo_board _ _ _ _ Hb)).
  assert (Hs := appendVote_spec id (text_slice 2 (sv_commit vote)) t b Hokb). cbv zeta in Hs. rewrite Hacc in Hs.
  destruct Hs as (b1 & Ea & G). set (e := entry_of b id (text_slice 2 (sv_commit vote)) t) in *.
  destruct (lo_votes _ _ _ _ HB _ _ _ Hk) as [Hroot Hopen].
  assert (Hlen : length (commitments b) = length entries) by (by rewrite (lo_commitments _ _ _ _ Hb), length_map).
  assert (Hat : root_at B (length entries) = ve_rootAtAppend e).
  { assert (Hb1 := gr_ok _ _ _ G). destruct (bo_entries _ Hb1 (length entries) id e) as (_ & _ & _ & _ & ->).
    - rewrite (gr_entries _ _ _ G), lookup_app_r; rewrite (bo_length _ Hokb), Hlen; [by rewrite Nat.sub_diag | done].
    - apply root_at_prefix; [| rewrite (gr_commitments _ _ _ G), length_app; cbn; lia].
      rewrite (gr_commitments _ _ _ G), (lo_commitments _ _ _ _ Hb), (lo_commitments _ _ _ _ HB), map_app. cbn [map].
      eexists. by rewrite <- app_assoc. }
  eexists _, b1, (mkSnapshot 0 (Z.of_nat (S (length entries))) (prefixed (ve_rootAtAppend e)) None). split; [exact Ea |].
  cbn [ar_rootAtAppend ar_index]. split_and!.
  - congruence.
  - unfold e. cbn. unfold zlength. by rewrite Hlen.
  - rewrite Hroot, Hat. apply strict_root.
  - eapply log_snoc; [done | done | exact Ea | done | cbn [ar_rootAtAppend]; by rewrite Hroot, Hat | done | done].
Qed.

Lemma log_index identity entries i vote rest B history : log_ok identity (entries ++ (i, vote) :: rest) B history ->
  i = NInt (zlength entries).
Proof.
  intros HB. assert (Hx := f_equal (lookup (length entries)) (lo_keys _ _ _ _ HB)).
  rewrite count_from_lookup in Hx by (rewrite length_app; cbn; lia). change (@map) with (@list_fmap) in Hx.
  rewrite list_lookup_fmap, lookup_app_r, Nat.sub_diag in Hx by done. by injection Hx.
Qed.

Lemma restore_loop_complete now identity B history rest : forall items entries b h seen,
  log_ok identity (entries ++ rest) B history -> log_ok identity entries b h -> Forall2 decodes items rest ->
  (forall id, id ∈ seen -> exists k e, entries !! k = Some e /\ sv_voteId e.2 = Some id) ->
  exists hist b', restore_loop env active now identity (zlength entries) seen items b = (Ok (rest, hist), b').
Proof.
  induction rest as [| [i vote] rest IH]; intros items entries b h seen HB Hb Hitems Hseen.
  { apply Forall2_nil_inv_r in Hitems as ->. by eexists _, _. }
  apply Forall2_cons_inv_r in Hitems as (item & items' & [Hrow Hindex] & Hitems & ->). cbn [fst snd] in *.
  assert (Hi := log_index _ _ _ _ _ _ _ HB). rewrite Hindex in Hi. injection Hi as Hi.
  destruct (row_decoded item vote Hrow) as (Hid & _ & Hchoice & _ & Hcommit & _).
  destruct (vote_root _ _ _ _ _ _ _ _ _ _ (now (zlength entries)) HB Hb Hid) as (a & b1 & s & Ea & Hroot & Hai & Hstrict & Hlog).
  assert (Hk : (entries ++ (i, vote) :: rest) !! length entries = Some (i, vote)) by (by rewrite lookup_app_r, Nat.sub_diag).
  destruct (lo_votes _ _ _ _ HB _ _ _ Hk) as [_ [_ _ Hopen]].
  assert (Hfresh : vo_voteId item ∉ seen).
  { intros (k & e & Hke & Hide)%Hseen. assert (Hlt := lookup_lt_Some _ _ _ Hke). enough (k = length entries) by lia.
    apply (log_ids_distinct _ _ _ _ k (length entries) e (i, vote) HB); [by apply lookup_app_l_Some | done | cbn; congruence]. }
  assert (HB' : log_ok identity ((entries ++ [(NInt (zlength entries), vote)]) ++ rest) B history).
  { rewrite <- app_assoc. rewrite <- Hi, <- Hindex. done. }
  destruct (IH items' _ b1 _ (vo_voteId item :: seen) HB' Hlog Hitems) as (hist & b2 & Eloop).
  { intros id [-> | (k & e & Hke & Hide)%Hseen]%elem_of_cons.
    - exists (length entries), (NInt (zlength entries), vote). by rewrite lookup_app_r, Nat.sub_diag by done.
    - exists k, e. split; [by apply lookup_app_l_Some | done]. }
  rewrite zlength_app, zlength_single in Eloop. cbn [restore_loop]. rewrite Hi, Z.eqb_refl, bool_decide_eq_false_2 by done.
  cbn [negb orb]. unfold mbind, SM_bind, sm_lift at 1. rewrite Hrow. cbv zeta. unfold sm_lift at 1.
  rewrite (index_of_choice _ Hchoice). assert (Hpos := choice_code_positive _ Hchoice).
  destruct (Z.ltb_spec (choice_code (sv_vote vote)) 0) as [Hneg | _]; [lia |]. rewrite Hopen.
  cbn [result_bind fmap result_fmap]. rewrite strict_again by done.
  change (Some <$> Ok (sv_commit vote)) with (Ok (Some (sv_commit vote))). cbv iota beta.
  rewrite bool_decide_eq_true_2 by done. cbn [negb]. unfold append_or_unavailable, voteId_text.
  rewrite Hid.
  change (default EmptyString (Some (vo_voteId item))) with (vo_voteId item). rewrite Ea. unfold sm_lift at 1. rewrite Hstrict, Hai, Z.eqb_refl, String.eqb_refl.
  cbn [negb orb]. rewrite Eloop. eexists _, b2. cbn. rewrite Hindex, Hi. reflexivity.
Qed.

Lemma votes_get_canonical {A} (entries : list (num * A)) k e : forall from,
  map fst entries = count_from from (length entries) -> entries !! k = Some e ->
  votes_get entries (NInt (from + Z.of_nat k)) = Some e.2.
Proof.
  revert k. induction entries as [| [i x] entries IH]; intros k from Hkeys Hk; [done |].
  cbn in Hkeys. injection Hkeys as -> Hkeys. unfold votes_get. cbn [List.find fst]. rewrite same_value_int.
  destruct k as [| k]; cbn in Hk.
  - injection Hk as <-. rewrite Z.add_0_r, Z.eqb_refl. done.
  - destruct (Z.eqb_spec from (from + Z.of_nat (S k))) as [|_]; [lia |].
    replace (from + Z.of_nat (S k)) with (from + 1 + Z.of_nat k) by lia. by apply IH.
Qed.

Lemma restore_history_complete votes persisted : forall reconstructed index,
  Forall2 (fun p s => rs_treeSize p = rs_treeSize s /\ strict (rs_root p) /\ rs_root p = rs_root s) persisted reconstructed ->
  (forall k p, persisted !! k = Some p ->
     votes_get votes (NInt (index + Z.of_nat k)) ≫= sv_timestamp = Some (NInt (rs_timestamp p))) ->
  restore_history votes index persisted reconstructed = Ok persisted.
Proof.
  induction persisted as [| p persisted IH]; intros reconstructed index Hall Hvotes.
  { by apply Forall2_nil_inv_l in Hall as ->. }
  apply Forall2_cons_inv_l in Hall as (s & reconstructed' & (Hsize & Hstrict & Hroot) & Hall & ->). cbn [restore_history].
  rewrite Hsize, Z.eqb_refl, strict_again by done. cbn [negb mbind result_bind].
  assert (H0k := Hvotes 0%nat p eq_refl). rewrite Z.add_0_r in H0k. cbv zeta. rewrite H0k, Hroot, String.eqb_refl.
  cbn [num_eqb negb orb]. rewrite Z.eqb_refl. cbn [negb]. rewrite IH; [| done |].
  - cbn. destruct p as [ts size root sig]; cbn in *. by subst.
  - intros k q Hq. specialize (Hvotes (S k) q Hq). by replace (index + 1 + Z.of_nat k) with (index + Z.of_nat (S k)) by lia.
Qed.

(** ** The rows a record is written as *)

Definition nonces (ivs : bytes * bytes) : Prop :=
  (is_bytes ivs.1 /\ length ivs.1 = 12%nat) /\ is_bytes ivs.2 /\ length ivs.2 = 12%nat.

(** A row that was written for a vote and is not expired. *)
Definition row_of (now : Z) (sid : string) (v : VotingRecord) (e : num * StoredVoteRecord) (row : jsval) : Prop :=
  exists ivs expires, nonces ivs /\ now_seconds now < expires <= MAX_SAFE_INTEGER /\ 0 <= expires /\
    toVoteItem env active ivs sid e.1 e.2 (is_user_vote v e.1) (NInt expires) = Ok row.

Lemma toVoteItem_Ok ivs sid index record user expires row :
  toVoteItem env active ivs sid index record user expires = Ok row -> exists vote rand,
    encryptVoteSecret env active ivs.1 (sv_vote record) = Ok vote /\
    encryptVoteSecret env active ivs.2 (sv_rand record) = Ok rand /\
    row = JObj [("sessionId", JStr sid); ("voteIndex", JNum index); ("itemType", JStr "VOTE");
            ("voteId", optional_text (sv_voteId record)); ("vote", JStr vote); ("rand", JStr rand);
            ("commit", JStr (sv_commit record)); ("timestamp", optional_num (sv_timestamp record));
            ("rootAtCast", JStr (sv_rootAtCast record)); ("isUserVote", JBool user);
            ("expiresAt", JNum expires)]%string.
Proof. unfold toVoteItem. intros E. bind_inv. injection E as <-. by eexists _, _. Qed.

Lemma row_parsed now sid v i vote row id t identity history b entries k : row_of now sid v (NInt i, vote) row ->
  log_ok identity entries b history -> entries !! k = Some (NInt i, vote) -> 0 <= i <= MAX_SAFE_INTEGER ->
  sv_voteId vote = Some id -> sv_timestamp vote = Some (NInt t) -> 0 <= t <= MAX_SAFE_INTEGER ->
  exists item, parseVoteItem now row sid = Some item /\ decodes item (NInt i, vote) /\
    vo_isUserVote item = is_user_vote v (NInt i) /\ vo_timestamp item = t.
Proof.
  intros (ivs & expires & [[Hb1 Hl1] [Hb2 Hl2]] & Hexp & Hpos & E) Hlog Hk Hi Hid Ht Htime. cbn [fst snd] in E.
  apply toVoteItem_Ok in E as (cvote & crand & Evote & Erand & ->). rewrite Hid, Ht. cbn [optional_text optional_num].
  set (row := JObj _). exists (mkVoteItem sid i id cvote crand (sv_commit vote) t (sv_rootAtCast vote) (is_user_vote v (NInt i)) expires).
  split_and!; [| | done | done].
  - unfold parseVoteItem. assert (Ee := unexpired now row expires eq_refl ltac:(lia)). rewrite Ee.
    change (negb (isNonArrayObject row)) with false. change (hasExactOwnKeys row VOTE_ITEM_KEYS) with true.
    change (text_is (prop row "itemType") "VOTE") with true. change (prop row "sessionId") with (JStr sid).
    change (prop row "voteIndex") with (JNum (NInt i)). change (prop row "timestamp") with (JNum (NInt t)).
    change (prop row "expiresAt") with (JNum (NInt expires)). unfold text_is. rewrite String.eqb_refl.
    rewrite !safe_count_Z by lia. done.
  - split; [| done]. cbn [snd]. unfold toStoredVoteRecord. cbn [vo_vote vo_rand vo_commit vo_rootAtCast vo_voteId vo_timestamp].
    rewrite (decrypt_encrypt env active ivs.1 (sv_vote vote) cvote), (decrypt_encrypt env active ivs.2 (sv_rand vote) crand) by done.
    destruct (lo_votes _ _ _ _ Hlog _ _ _ Hk) as [Hroot [Hchoice Hrand Hcommit]]. cbn [mbind result_bind].
    assert (Hn : normal (sv_rand vote)) by (eapply normal_of_normalize; [by right | done]).
    rewrite (normal_again _ allow_empty) by (done || by left). cbn [mbind result_bind].
    rewrite bool_decide_eq_true_2 by done. cbn [negb]. rewrite (strict_again (sv_commit vote)) by (eapply commitment_strict; exact Hcommit). cbn [mbind result_bind].
    rewrite strict_again by (rewrite Hroot; apply strict_root). cbn. f_equal. destruct vote; cbn in *. by subst.
Qed.

(** A snapshot and the same snapshot with the text of its root in normal form. *)
Definition same_snapshot (s s' : RootSnapshot) : Prop :=
  rs_timestamp s' = rs_timestamp s /\ rs_treeSize s' = rs_treeSize s /\ rs_signature s' = rs_signature s /\
  normalizeStrictHex32 (rs_root s) = Ok (rs_root s').

Lemma snapshot_parsed s : 0 <= rs_timestamp s <= MAX_SAFE_INTEGER -> 0 < rs_treeSize s <= MAX_SAFE_INTEGER ->
  is_ok (normalizeStrictHex32 (rs_root s)) -> exists s', parseRootSnapshot (snapshot_value s) = Some s' /\ same_snapshot s s'.
Proof.
  intros Ht Hsize Hroot. destruct (normalizeStrictHex32 (rs_root s)) as [root |] eqn:Er; [| done].
  exists (mkSnapshot (rs_timestamp s) (rs_treeSize s) root (rs_signature s)). split; [| done].
  unfold normalizeStrictHex32 in Er. destruct (isValidHexString (rs_root s) (Some 32)) eqn:Ev; [| done]. cbn [negb] in Er.
  destruct s as [t size r [sig |]]; cbn in *; unfold parseRootSnapshot, parseRootSnapshotFields, snapshot_value; set (w := JObj _);
    change (hasRootSnapshotShape w) with true; change (prop w "timestamp") with (JNum (NInt t));
    change (prop w "root") with (JStr r); change (prop w "treeSize") with (JNum (NInt size)); cbn [negb].
  - change (prop w "signature") with (JStr sig). rewrite safe_count_Z by done. cbv iota beta.
    rewrite positive_count_Z, Ev by done. cbn [negb]. by rewrite Er.
  - change (prop w "signature") with JUndefined. rewrite safe_count_Z by done. cbv iota beta.
    rewrite positive_count_Z, Ev by done. cbn [negb]. by rewrite Er.
Qed.

Lemma all_some_related {A B C} (f : A -> option B) (g : C -> A) (R : C -> B -> Prop) l :
  Forall (fun x => exists y, f (g x) = Some y /\ R x y) l -> exists l', all_some f (map g l) = Some l' /\ Forall2 R l l'.
Proof.
  induction 1 as [| x l (y & Hy & Hr) _ (l' & Hl & Hall)]; [by exists [] |]. exists (y :: l'). cbn. rewrite Hy, Hl.
  by split; [| constructor].
Qed.

Lemma votes_bounded identity v : session_ok identity v -> zlength (vr_votes v) <= BOT_COUNT + 1.
Proof.
  intros Hv. assert (Hc := so_count _ _ Hv). assert (Hu := so_user _ _ Hv). unfold BOT_COUNT in *.
  destruct (vr_userParticipation v); [destruct Hu as [-> _]; done | lia].
Qed.

Lemma root_strict identity v k s : session_ok identity v -> vr_bulletinRootHistory v !! k = Some s ->
  rs_treeSize s = Z.of_nat (S k) /\ normalizeStrictHex32 (rs_root s) = Ok (prefixed (root_at (vr_bulletin v) k)).
Proof.
  intros Hv Hk. destruct (lo_roots _ _ _ _ (so_log _ _ Hv) k s Hk) as [Hsize [-> | ->]]; (split; [done |]).
  - apply strict_root.
  - apply strict_again, strict_root.
Qed.

Lemma history_parsed identity v : storable identity v -> exists history,
  parseRootHistory (map snapshot_value (vr_bulletinRootHistory v)) = Some history /\
  Forall2 same_snapshot (vr_bulletinRootHistory v) history.
Proof.
  intros Hs. apply all_some_related. apply Forall_lookup. intros k s Hk.
  destruct (root_strict _ _ _ _ (sb_ok _ _ Hs) Hk) as [Hsize Hroot]. assert (Hlt := lookup_lt_Some _ _ _ Hk).
  assert (Hlen := lo_history _ _ _ _ (so_log _ _ (sb_ok _ _ Hs))).
  destruct (lookup_lt_is_Some_2 (vr_votes v) k) as [e He]; [lia |]. destruct (sb_times _ _ Hs k e s He Hk) as [_ Ht].
  assert (Hz := votes_bounded _ _ (sb_ok _ _ Hs)).
  apply snapshot_parsed; [lia | | by rewrite Hroot].
  unfold zlength, MAX_SAFE_INTEGER, BOT_COUNT in *. lia.
Qed.

(** What the row of the votes says of a record. *)
Record persisted_of (identity : SessionIdentityRecord) (v : VotingRecord) (p : PersistedVotingRecord) : Prop := {
  po_session : pv_sessionId p = id_sessionId identity;
  po_history : Forall2 same_snapshot (vr_bulletinRootHistory v) (pv_bulletinRootHistory p);
  po_bots : pv_botCount p = vr_botCount v;
  po_user : pv_userParticipation p = vr_userParticipation v;
  po_activity : pv_lastActivityMs p = vr_lastActivityMs v;
}.

(** A record and the record that is read back: the roots of the history are in
    normal form, and the log is a new one. *)
Record same_record (v v' : VotingRecord) : Prop := {
  back_votes : vr_votes v' = vr_votes v;
  back_bots : vr_botCount v' = vr_botCount v;
  back_user : vr_userParticipation v' = vr_userParticipation v;
  back_activity : vr_lastActivityMs v' = vr_lastActivityMs v;
  back_session : vr_sessionId v' = vr_sessionId v;
  back_history : Forall2 same_snapshot (vr_bulletinRootHistory v) (vr_bulletinRootHistory v');
  back_commitments : commitments (vr_bulletin v') = commitments (vr_bulletin v);
}.

Lemma same_storable identity v v' : storable identity v -> session_ok identity v' -> same_record v v' -> storable identity v'.
Proof.
  intros Hs Hv' [Hvotes _ _ Hact Hsid Hhist _]. split; [done | by rewrite Hsid; apply Hs | | by rewrite Hact; apply Hs].
  intros k e s' Hk Hs'. rewrite Hvotes in Hk. assert (Hlt := lookup_lt_Some _ _ _ Hs').
  rewrite <- (Forall2_length _ _ _ Hhist) in Hlt. destruct (lookup_lt_is_Some_2 _ _ Hlt) as [s Hsk].
  destruct (Forall2_lookup_lr _ _ _ _ _ _ Hhist Hsk Hs') as [-> _]. by apply (sb_times _ _ Hs k).
Qed.

Lemma persisted_parsed identity v : storable identity v -> exists p,
  parsePersistedVotingRecord (persisted_value (toPersistedVotingRecord v)) (id_sessionId identity) = Some p /\
  persisted_of identity v p.
Proof.
  intros Hs. destruct (history_parsed _ _ Hs) as (history & Hh & Hsame).
  exists (mkPersistedVoting (id_sessionId identity) history (vr_botCount v) (vr_userParticipation v) (vr_lastActivityMs v)).
  split; [| done].
  assert (Hc := so_count _ _ (sb_ok _ _ Hs)). assert (Ha := sb_activity _ _ Hs). unfold BOT_COUNT in Hc.
  unfold parsePersistedVotingRecord. set (w := persisted_value _).
  change (negb (isNonArrayObject w)) with false. change (hasExactOwnKeys w PERSISTED_VOTING_KEYS) with true.
  change (prop w "sessionId") with (JStr (vr_sessionId v)).
  change (prop w "bulletinRootHistory") with (JArr (map snapshot_value (vr_bulletinRootHistory v))).
  change (prop w "botCount") with (JNum (NInt (vr_botCount v))). change (prop w "lastActivityMs") with (JNum (NInt (vr_lastActivityMs v))).
  change (prop w "userParticipation") with (participation_value (vr_userParticipation v)).
  assert (Hp : parseUserParticipation (participation_value (vr_userParticipation v)) = Some (vr_userParticipation v)).
  { assert (Hu := so_user _ _ (sb_ok _ _ Hs)). destruct (vr_userParticipation v) as [| i]; [done |]. by destruct Hu as [-> _]. }
  rewrite Hp, !safe_count_Z by (unfold MAX_SAFE_INTEGER in *; lia). cbn [orb negb text_is].
  rewrite (sb_session _ _ Hs), String.eqb_refl. cbn [negb]. by rewrite Hh.
Qed.

Lemma rows_parsed now identity v rows : storable identity v ->
  Forall2 (row_of now (id_sessionId identity) v) (vr_votes v) rows -> exists items,
    all_some (fun raw => parseVoteItem now raw (id_sessionId identity)) rows = Some items /\
    Forall2 (fun item e => decodes item e /\ vo_isUserVote item = is_user_vote v e.1 /\
                           sv_timestamp e.2 = Some (NInt (vo_timestamp item))) items (vr_votes v).
Proof.
  intros Hs Hrows. assert (Hlog := so_log _ _ (sb_ok _ _ Hs)). assert (Hz := votes_bounded _ _ (sb_ok _ _ Hs)).
  assert (Hall : Forall2 (fun e row => exists item, parseVoteItem now row (id_sessionId identity) = Some item /\
      decodes item e /\ vo_isUserVote item = is_user_vote v e.1 /\ sv_timestamp e.2 = Some (NInt (vo_timestamp item)))
      (vr_votes v) rows).
  { apply Forall2_same_length_lookup. split; [by eapply Forall2_length |]. intros k [i vote] row Hk Hr.
    assert (Hrow : row_of now (id_sessionId identity) v (i, vote) row) by (by eapply Forall2_lookup_lr).
    destruct (log_id _ _ _ _ _ _ Hlog Hk) as (id & x & Hid & _ & _). assert (Hlt := lookup_lt_Some _ _ _ Hk).
    destruct (lookup_lt_is_Some_2 (vr_bulletinRootHistory v) k) as [s Hsk]; [by rewrite (lo_history _ _ _ _ Hlog) |].
    destruct (sb_times _ _ Hs k _ s Hk Hsk) as [Ht Htime]. destruct (entry_found _ _ _ _ _ (sb_ok _ _ Hs) Hk) as [-> _].
    destruct (row_parsed _ _ _ _ _ _ _ _ _ _ _ _ _ Hrow Hlog Hk ltac:(unfold zlength, MAX_SAFE_INTEGER, BOT_COUNT in *; lia) Hid Ht ltac:(lia))
      as (item & Hp & Hd & Hu & Hti). exists item. split_and!; [done | done | done |]. cbn [snd] in *. by rewrite Ht, Hti. }
  clear -Hall. induction Hall as [| e row entries rows (item & Hp & Hrest) Hall (items & Ei & IH)]; [by exists [] |].
  exists (item :: items). cbn. rewrite Hp, Ei. split; [done | by constructor].
Qed.

Lemma flags_placed user index items : forall votes v from, index = vr_userParticipation v ->
  user = explicit_index index -> map fst votes = count_from from (length votes) ->
  Forall2 (fun item (e : num * StoredVoteRecord) => decodes item e /\ vo_isUserVote item = is_user_vote v e.1 /\
     sv_timestamp e.2 = Some (NInt (vo_timestamp item))) items votes ->
  (forall i, user = Some i -> i = NInt 0) -> misplaced_user_vote user from items = false.
Proof.
  intros votes v from -> -> Hkeys Hall Huser. revert from Hkeys.
  induction Hall as [| item [i vote] items votes (_ & Hflag & _) Hall IH]; intros from Hkeys; [done |].
  cbn in Hkeys. injection Hkeys as -> Hkeys. cbn [misplaced_user_vote]. rewrite IH by done. rewrite orb_false_r.
  apply negb_false_iff, eqb_true_iff. rewrite Hflag. unfold is_user_vote. cbn [fst].
  destruct (vr_userParticipation v) as [| u]; [done |]. rewrite (Huser u eq_refl).
  cbn [explicit_index num_eqb]. apply Z.eqb_sym.
Qed.

Lemma items_sorted items votes from : map fst votes = count_from from (length votes) ->
  Forall2 (fun item (e : num * StoredVoteRecord) => decodes item e) items votes ->
  map (fun item => NInt (vo_voteIndex item)) items = count_from from (length items).
Proof.
  intros Hkeys Hall. revert from Hkeys. induction Hall as [| item [i vote] items votes [_ Hi] Hall IH]; intros from Hkeys; [done |].
  cbn in Hkeys, Hi. injection Hkeys as -> Hkeys. injection Hi as Hi. cbn. by rewrite <- Hi, (IH _ Hkeys).
Qed.

(** What the rows say of the history is what the log rebuilds. *)
Lemma history_agrees identity v items history hist : storable identity v ->
  Forall2 same_snapshot (vr_bulletinRootHistory v) history -> restored_from 0 items (vr_votes v) hist ->
  Forall2 (fun p s => rs_treeSize p = rs_treeSize s /\ strict (rs_root p) /\ rs_root p = rs_root s) history hist.
Proof.
  intros Hs Hsame (L1 & L2 & Hfrom). assert (Hlog := so_log _ _ (sb_ok _ _ Hs)). assert (Hlh := lo_history _ _ _ _ Hlog).
  assert (Hls := Forall2_length _ _ _ Hsame). apply Forall2_same_length_lookup. split; [lia |]. intros k p s Hp Hk.
  assert (Hlt := lookup_lt_Some _ _ _ Hk). destruct (lookup_lt_is_Some_2 items k) as [item Hitem]; [lia |].
  destruct (Hfrom k item Hitem) as (_ & vote & s' & Hv & Hs' & _ & _ & Hstrict & Hroot & Hsize & _).
  rewrite Hk in Hs'. injection Hs' as <-. destruct (lo_votes _ _ _ _ Hlog _ _ _ Hv) as [Hcast _].
  destruct (lookup_lt_is_Some_2 (vr_bulletinRootHistory v) k) as [s0 Hs0]; [lia |].
  assert (Hpair := Forall2_lookup_lr _ _ _ _ _ _ Hsame Hs0 Hp). destruct Hpair as (_ & Hpz & _ & Hpr).
  destruct (root_strict _ _ _ _ (sb_ok _ _ Hs) Hs0) as [Hz0 Hr0]. rewrite Hr0 in Hpr. injection Hpr as Hpr.
  split_and!; [lia | rewrite <- Hpr; apply strict_root | congruence].
Qed.

Lemma votes_timed identity v history k p : storable identity v ->
  Forall2 same_snapshot (vr_bulletinRootHistory v) history -> history !! k = Some p ->
  votes_get (vr_votes v) (NInt (0 + Z.of_nat k)) ≫= sv_timestamp = Some (NInt (rs_timestamp p)).
Proof.
  intros Hs Hsame Hp. assert (Hlog := so_log _ _ (sb_ok _ _ Hs)). assert (Hlt := lookup_lt_Some _ _ _ Hp).
  assert (Hlh := lo_history _ _ _ _ Hlog). assert (Hls := Forall2_length _ _ _ Hsame).
  destruct (lookup_lt_is_Some_2 (vr_bulletinRootHistory v) k) as [s Hk]; [lia |].
  destruct (lookup_lt_is_Some_2 (vr_votes v) k) as [e He]; [lia |].
  destruct (sb_times _ _ Hs k e s He Hk) as [Ht _]. destruct (Forall2_lookup_lr _ _ _ _ _ _ Hsame Hk Hp) as [Hts _].
  rewrite (votes_get_canonical _ _ _ _ (lo_keys _ _ _ _ Hlog) He). cbn [mbind option_bind]. by rewrite Ht, Hts.
Qed.

Lemma participation_written identity v items history : storable identity v ->
  Forall2 (fun item (e : num * StoredVoteRecord) => decodes item e /\ vo_isUserVote item = is_user_vote v e.1 /\
     sv_timestamp e.2 = Some (NInt (vo_timestamp item))) items (vr_votes v) ->
  assertPersistedParticipation (mkPersistedVoting (id_sessionId identity) history (vr_botCount v) (vr_userParticipation v)
    (vr_lastActivityMs v)) items (vr_votes v) = Ok tt.
Proof.
  intros Hs Hall. assert (Hu := so_user _ _ (sb_ok _ _ Hs)). assert (Hlog := so_log _ _ (sb_ok _ _ Hs)).
  assert (Hkeys := lo_keys _ _ _ _ Hlog). unfold assertPersistedParticipation. cbn [pv_userParticipation pv_botCount].
  assert (Hli := Forall2_length _ _ _ Hall).
  rewrite (flags_placed _ _ items (vr_votes v) v 0 eq_refl eq_refl Hkeys Hall).
  2: { intros i Hi. destruct (vr_userParticipation v) as [| u]; [done |]. injection Hi as <-. by destruct Hu. }
  unfold hasFirstUserVote, zlength in *. destruct (vr_userParticipation v) as [| u] eqn:Ep; cbn [explicit_index is_some].
  - destruct Hu as [Hn Hb]. rewrite Hn in *. destruct items; [| done]. rewrite Hb. done.
  - destruct Hu as [-> Hb]. destruct Hall as [| item e items votes (_ & Hflag & _) Hall]; [cbn in Hb; assert (Hc := so_count _ _ (sb_ok _ _ Hs)); lia |].
    destruct e as [i vote]. cbn in Hkeys. injection Hkeys as -> _. rewrite Hflag. unfold is_user_vote. rewrite Ep.
    unfold votes_get. cbn [List.find fst]. rewrite same_value_int. cbn in Hli |- *. rewrite (Forall2_length _ _ _ Hall) in *.
    cbn [length] in Hb. destruct (Z.eqb_spec (vr_botCount v) (Z.of_nat (S (length votes)) - 1)); [done | lia].
Qed.

(** The rows of a record are read back as the record. *)
Lemma rows_restored now clk identity v p rows : storable identity v -> persisted_of identity v p ->
  Forall2 (row_of now (id_sessionId identity) v) (vr_votes v) rows -> exists items v',
    all_some (fun raw => parseVoteItem now raw (id_sessionId identity)) rows = Some items /\
    restoreVotingRecord env active clk identity p items = Ok v' /\
    same_record v v' /\ storable identity v' /\ persisted_of identity v' p.
Proof.
  intros Hs Hp Hrows. destruct (rows_parsed _ _ _ _ Hs Hrows) as (items & Hitems & Hall).
  assert (Hsame := po_history _ _ _ Hp). set (history := pv_bulletinRootHistory p) in *.
  assert (Hlog := so_log _ _ (sb_ok _ _ Hs)). assert (Hkeys := lo_keys _ _ _ _ Hlog).
  assert (Hdec : Forall2 decodes items (vr_votes v)) by (eapply Forall2_impl; [done |]; by intros ? ? [? _]).
  assert (Hsort : sort_items items = items) by (eapply sort_canonical; by eapply items_sorted).
  assert (Hnew : log_ok identity [] (new_board (Some (id_logId identity))) []) by (apply (so_log _ _ (session_new identity 0))).
  destruct (restore_loop_complete clk identity _ _ (vr_votes v) items [] _ [] [] Hlog Hnew Hdec) as (hist & b' & El).
  { intros id Hin. by apply elem_of_nil in Hin. }
  change (zlength []) with 0 in El. destruct (restore_loop_Ok _ _ _ _ _ _ _ _ _ _ _ Hnew eq_refl El) as [Hlog' Hrestored].
  assert (Hagree := history_agrees _ _ _ _ _ Hs Hsame Hrestored). assert (Hla := Forall2_length _ _ _ Hagree).
  assert (Hstrict : Forall (fun s => strict (rs_root s)) history).
  { apply Forall_forall. intros s (k & Hk)%list_elem_of_lookup. destruct (Forall2_lookup_l _ _ _ _ _ Hagree Hk) as (s' & _ & _ & Hr & _). done. }
  set (v' := mkVotingRecord (id_sessionId identity) (vr_votes v) b' history (vr_botCount v) (vr_userParticipation v)
    (vr_lastActivityMs v)).
  assert (E : restoreVotingRecord env active clk identity p items = Ok v').
  { unfold restoreVotingRecord. cbv zeta. rewrite Hsort. unfold restoreVoteItems. rewrite El.
    cbn [mbind result_bind]. fold history. unfold restorePersistedRootHistory, zlength. rewrite Hla, Z.eqb_refl. cbn [negb].
    rewrite restore_history_complete; [| done | intros k q Hk; by eapply votes_timed]. cbn [mbind result_bind].
    assert (Hw := participation_written identity v items history Hs Hall). destruct Hp as [Hp1 _ Hp3 Hp4 Hp5].
    destruct p as [psid phist pbots puser pact]; cbn in *; subst.
    by rewrite Hw. }
  exists items, v'. assert (Hsr : same_record v v').
  { split; try done; [by rewrite (sb_session _ _ Hs) |]. cbn. by rewrite (lo_commitments _ _ _ _ Hlog), (lo_commitments _ _ _ _ Hlog'). }
  split_and!; [done | done | done | |].
  - eapply same_storable; [done | | done]. apply (restored_in_order _ _ _ _ _ E). unfold zlength.
    rewrite (Forall2_length _ _ _ Hdec). apply (votes_bounded _ _ (sb_ok _ _ Hs)).
  - destruct Hp as [Hp1 _ Hp3 Hp4 Hp5]. split; try done. cbn. fold history.
    clear -Hstrict. induction Hstrict as [| s l Hr Hl IH]; constructor; [| done]. by split_and!; [.. | apply strict_again].
Qed.

(** ** Restoring always returns *)

Lemma source_no_fuel name raw options : no_fuel_error (validateRuntimeConfigReferenceSource name raw options).
Proof.
  unfold validateRuntimeConfigReferenceSource, validateRuntimeReferenceArn, validateRuntimeReferenceResource,
    assertExpectedReferencePath, reference_error. no_fuel.
Qed.

Lemma key_no_fuel : no_fuel_error (resolveVoteSecretKey env active).
Proof.
  unfold resolveVoteSecretKey, assertNoRawVoteSecretAlongsideReference, resolveRuntimeConfigReference, normalizeReference, reference_error.
  assert (Hs := source_no_fuel). no_fuel.
Qed.

Lemma decrypt_no_fuel secret : no_fuel_error (decryptVoteSecret env active secret).
Proof. unfold decryptVoteSecret. assert (Hk := key_no_fuel). no_fuel. Qed.

Lemma row_no_fuel item : no_fuel_error (toStoredVoteRecord env active item).
Proof.
  unfold toStoredVoteRecord, normalizeStrictHex32, normalizeHex, CT_PROOF_UNAVAILABLE. assert (Hd := decrypt_no_fuel). no_fuel.
Qed.

Lemma strict_no_fuel value : no_fuel_error (normalizeStrictHex32 value).
Proof. unfold normalizeStrictHex32, normalizeHex, CT_PROOF_UNAVAILABLE. no_fuel. Qed.

Lemma commitment_no_fuel e c r : no_fuel_error (computeCommitment e c r).
Proof.
  unfold computeCommitment, Contract.toUuidBytes. unfold Contract.hexToBytesStrict. no_fuel.
Qed.

Lemma append_no_fuel id commitment now b r b' : board_ok b -> append_or_unavailable id commitment now b = (r, b') ->
  no_fuel_error r /\ (forall a, r = Ok a -> appendVote id commitment now b = (Ok a, b') /\ board_ok b').
Proof.
  intros Hb. unfold append_or_unavailable. assert (Hs := appendVote_spec id commitment now b Hb). cbv zeta in Hs.
  destruct (accepts b id commitment); destruct Hs as [x Hs].
  - destruct Hs as [-> G]. intros [= <- <-]. split; [done |]. intros a [= <-]. split; [done | apply G].
  - rewrite Hs. intros [= <- <-]. split; [done |]. done.
Qed.

Lemma loop_no_fuel now identity sorted : forall expected seen b, board_ok b ->
  no_fuel_error (fst (restore_loop env active now identity expected seen sorted b)).
Proof.
  induction sorted as [| item sorted IH]; intros expected seen b Hb; cbn [restore_loop]; [done |].
  destruct (_ || _); [done |]. unfold mbind, SM_bind, sm_lift at 1. assert (Hrow := row_no_fuel item).
  destruct (toStoredVoteRecord env active item) as [vote | e]; [| by intros [= ->]]. cbv zeta. unfold sm_lift at 1.
  match goal with |- context [match ?m with Ok _ => _ | Err _ => _ end] => assert (Hm : no_fuel_error m); [| destruct m as [opened | e]] end.
  { case_match; [done |]. apply no_fuel_bind; [apply commitment_no_fuel |]. intros c. assert (Hc := strict_no_fuel c).
    destruct (normalizeStrictHex32 c); [done |]. cbn. intros [= ->]. done. }
  2: by intros [= ->].
  destruct (negb _); [done |]. destruct (append_or_unavailable _ _ _ b) as [ra b1] eqn:Ea.
  destruct (append_no_fuel _ _ _ _ _ _ Hb Ea) as [Hf Hok]. destruct ra as [a | e]; [| by intros [= ->]].
  destruct (Hok a eq_refl) as [_ Hb1]. unfold sm_lift at 1. assert (Hr := strict_no_fuel (ar_rootAtAppend a)).
  destruct (normalizeStrictHex32 (ar_rootAtAppend a)) as [root | e]; [| by intros [= ->]]. destruct (_ || _); [done |].
  assert (Hrest := IH (expected + 1) (vo_voteId item :: seen) b1 Hb1).
  by destruct (restore_loop env active now identity _ _ sorted b1) as [[more | e] b2].
Qed.

Lemma history_no_fuel votes reconstructed : forall index persisted, no_fuel_error (restore_history votes index persisted reconstructed).
Proof.
  induction reconstructed as [| s reconstructed IH]; intros index persisted; cbn [restore_history]; [done |].
  destruct persisted as [| p persisted]; [done |]. destruct (negb _); [done |]. apply no_fuel_bind; [apply strict_no_fuel |].
  intros root. cbv zeta. destruct (_ || _); [done |]. apply no_fuel_bind; [apply IH | done].
Qed.

Lemma restore_no_fuel now identity persisted items : no_fuel_error (restoreVotingRecord env active now identity persisted items).
Proof.
  unfold restoreVotingRecord, restoreVoteItems. cbv zeta.
  assert (Hl := loop_no_fuel now identity (sort_items items) 0 [] _ (board_ok_new (Some (id_logId identity)))).
  destruct (restore_loop _ _ _ _ _ _ _ _) as [[[votes hist] | e] b]; [| intros [= ->]; by apply Hl]. cbn [mbind result_bind].
  apply no_fuel_bind.
  - unfold restorePersistedRootHistory. destruct (negb _); [done | apply history_no_fuel].
  - intros h. apply no_fuel_bind; [| done]. unfold assertPersistedParticipation. by destruct (_ || _).
Qed.

End log.
