(* ===== verification/DynamoVoteWrites.v ===== *)
(** The writes of votes in DynamoDB: what a call that stored a vote has committed,
    and what the tables hold afterwards. *)
From S2P Require Import Prelude.
From S2P Require Import Hex.
From S2P Require Import JsNumber.
From S2P Require Import JsValue.
From S2P Require Import Contract.
From S2P Require Import Bulletin.
From S2P Require Import CtSession.
From S2P Require Import CtSessionProofs.
From S2P Require Import FinStorage.
From S2P Require Import FinTransition.
From S2P Require Import SessionVote.
From S2P Require Import SessionVoteProofs.
From S2P Require Import VoteFlow.
From S2P Require Import MockStore.
From S2P Require Import MockStoreProofs.
From S2P Require Import Coordinator.
From S2P Require Import VoteCipher.
From S2P Require Import DynamoRecords.
From S2P Require Import DynamoService.
From S2P Require Import DynamoLifecycle.
From S2P Require Import DynamoLifecycleProofs.
From S2P Require Import DynamoPort.
From S2P Require Import DynamoVotes.
From S2P Require Import DynamoVotesProofs.
Import JsValue.
Import Contract.
Import Bulletin.
Import CtSession.
Import FinStorage.
Import SessionVote.
Import VoteFlow.
Import MockStore.
Import RuntimeConfig.
Import VoteCipher.
Import DynamoRecords.
Import DynamoService.
Import DynamoLifecycle.
Import DynamoVotes.

Section calls.
Context `{NobleLaws} `{AesGcmLaws}.
Context {K St : Type} `{DynamoLaws K St}.
Variable env : string -> option string.
Variable active : option BoundRuntimeConfigReferenceResolver.
Variables call_start call_end : Z.
Context `{!DynamoCall K St env call_start call_end}.
Variable rebuild_now : Z -> Z.
Variable surroundings : nat -> Environment.
Variable attempt_ivs : nat -> Z -> bytes * bytes.

Let lawful_now : St -> Prop := DynamoPort.lawful_now call_start call_end.

(** ** What a call reads *)

Lemma reading_current sid : reading call_start call_end (dynamo_getCurrentFinalizationRecord sid) (fun _ => True).
Proof.
  intros s r s' Hs. unfold dynamo_getCurrentFinalizationRecord, mbind, SM_bind.
  destruct (dynamo_loadFinalizationLifecycle sid "" s) as [rl sl] eqn:El.
  destruct (load_spec env call_start call_end sid "" _ _ _ Hs El) as (answer & -> & Ho & _).
  destruct answer; by intros [= <- <-].
Qed.

(** The record a write starts from, and the rows it was restored from. *)
Record mutation_authority (sid : string) (a : VoteMutationAuthority) : Prop := {
  mu_ttl : ttl_authority_ok call_end sid (ma_ttl a);
  mu_voting : restoreVotingRecord env active rebuild_now (ii_identity (ttl_identity (ma_ttl a)))
    (vi_record (ttl_voting (ma_ttl a))) (ttl_votes (ma_ttl a)) = Ok (ma_voting a);
}.

Lemma reading_mutation sid : reading call_start call_end (findVoteMutationAuthority env active rebuild_now sid)
  (fun found => match found with Some a => mutation_authority sid a | None => True end).
Proof.
  eapply (reading_bind env call_start call_end); [by apply (reading_found env call_start call_end) |]. intros [ttl |] Httl; [| by apply reads_ret].
  eapply (reading_bind env call_start call_end) with (P := fun v => restoreVotingRecord env active rebuild_now (ii_identity (ttl_identity ttl))
    (vi_record (ttl_voting ttl)) (ttl_votes ttl) = Ok v).
  - apply reads_lift; [apply restore_no_fuel | done].
  - intros v Hv. eapply (reading_bind env call_start call_end); [apply reading_current |]. intros fin _. by apply reads_ret.
Qed.

(** ** What a call writes *)

(** The votes of [next] were committed at one moment of the call. *)
Definition votes_written (ivs : Z -> bytes * bytes) (sid : string) (a : VoteMutationAuthority) (next : VotingRecord)
    (s s' : St) : Prop :=
  exists items s1 s2, vote_items env active ivs sid (ma_ttl a) next = Ok items /\ others s s1 /\
    commits items (table s1) (table s2) /\ others s2 s'.

Lemma persist_spec ivs sid a next s r s' : lawful_now s -> persistVoteMutation env active ivs sid (ma_ttl a) next s = (r, s') ->
  match r with
  | Ok committed => votes_written ivs sid a next s s'
  | Ok conflicted => others s s'
  | Err _ => others s s' \/ votes_written ivs sid a next s s'
  end.
Proof.
  intros Hs. unfold persistVoteMutation, mbind, SM_bind, sm_lift.
  destruct (vote_items env active ivs sid (ma_ttl a) next) as [items | e] eqn:Ei; [| intros [= <- <-]; left; apply others_refl].
  intros Ew. apply transaction_spec in Ew. cbv zeta in Ew.
  assert (Hdone : (exists s1 s2, others s s1 /\ commits items (table s1) (table s2) /\ others s2 s') -> votes_written ivs sid a next s s').
  { intros (s1 & s2 & H1' & Hc & H2'). by exists items, s1, s2. }
  destruct r as [[] | [msg |]]; [by apply Hdone | done | | done]. destruct Ew as [Ew | Ew]; [by left | right; by apply Hdone].
Qed.

(** What an attempt that reads [a] and does not conflict has done. *)
Inductive attempt_done {A} (sid : string) (command : SessionVoteCommand)
    (prepareWrite : SessionVoteMutation -> result (PreparedVoteWrite A)) (s s' : St) : result (StoreOutcome A) -> Prop :=
| call_refused error : others s s' -> attempt_done sid command prepareWrite s s' (Ok (NotStored error))
| call_failed e : others s s' -> attempt_done sid command prepareWrite s s' (Err e)
| call_done attempt a m w r s1 : others s s1 -> mutation_authority sid a ->
    evaluateSessionVoteMutation (surroundings attempt)
      (mkAuthority (ii_identity (ttl_identity (ma_ttl a))) (ma_voting a) (ma_finalization a)) command = Ok (Accepted m) ->
    prepareWrite m = Ok w -> (r = Ok (Stored w.1) \/ exists e, r = Err e) ->
    match w.2 with
    | None => others s1 s'
    | Some (next, _) => votes_written (attempt_ivs attempt) sid a next s1 s'
    end -> attempt_done sid command prepareWrite s s' r.

Lemma attempts_spec {A} (prepareWrite : SessionVoteMutation -> result (PreparedVoteWrite A)) sid command attempts :
  forall attempt s r s', lawful_now s ->
    mutate_attempts env active rebuild_now surroundings attempt_ivs attempts attempt sid command prepareWrite s = (r, s') ->
    attempt_done sid command prepareWrite s s' r.
Proof.
  induction attempts as [| attempts IH]; intros attempt s r s' Hs; cbn [mutate_attempts].
  { intros [= <- <-]. apply call_failed, others_refl. }
  unfold mbind at 1, SM_bind at 1.
  destruct (findVoteMutationAuthority env active rebuild_now sid s) as [rf sf] eqn:Ef.
  destruct (reading_mutation _ _ _ _ Hs Ef) as [Hf Hrf].
  destruct rf as [[a |] | e]; [| intros [= <- <-]; by apply call_refused | intros [= <- <-]; by apply call_failed].
  unfold mbind at 1, SM_bind at 1, sm_lift at 1.
  destruct (evaluateSessionVoteMutation _ _ _) as [[m | error] | e] eqn:Ee;
    [| intros [= <- <-]; by apply call_refused | intros [= <- <-]; by apply call_failed].
  unfold mbind at 1, SM_bind at 1, sm_lift at 1.
  destruct (prepareWrite m) as [w | e] eqn:Ew; [| intros [= <- <-]; by apply call_failed].
  destruct (w.2) as [[next intents] |] eqn:E2.
  2: { intros [= <- <-]. eapply (call_done _ _ _ _ _ attempt a m w); try done; [by left | rewrite E2; apply others_refl]. }
  unfold mbind, SM_bind. destruct (persistVoteMutation _ _ _ _ _ _ sf) as [rw sw] eqn:Ep.
  assert (Hsf := others_lawful _ _ Hf Hs). assert (Hw := persist_spec _ _ _ _ _ _ _ Hsf Ep).
  destruct rw as [[] | e].
  - intros [= <- <-]. eapply (call_done _ _ _ _ _ attempt a m w); try done; [by left | by rewrite E2].
  - assert (Hsw : others s sw) by (by eapply others_trans). destruct attempts as [| attempts].
    + intros [= <- <-]. by apply call_failed.
    + intros E. assert (Hlater := IH _ _ _ _ (others_lawful _ _ Hsw Hs) E).
      destruct Hlater as [error Ho | e Ho | attempt' a' m' w' r s1 Ho Ha Hm Hp Hr Hdone].
      * apply call_refused. by eapply others_trans.
      * apply call_failed. by eapply others_trans.
      * eapply (call_done _ _ _ _ _ attempt' a' m' w' r s1); try done. by eapply others_trans.
  - intros [= <- <-]. destruct Hw as [Ho | Hw]; [apply call_failed; by eapply others_trans |].
    eapply (call_done _ _ _ _ _ attempt a m w); try done; [right; by eexists | by rewrite E2].
Qed.

End calls.

(** ** The transaction of a write *)

Section transaction.
Context `{NobleLaws} `{AesGcmLaws}.
Variable env : string -> option string.
Variable active : option BoundRuntimeConfigReferenceResolver.

Lemma vote_puts_Ok ivs sid next e entries : forall puts, vote_puts env active ivs sid next e entries = Ok puts ->
  Forall2 (fun entry put => exists row,
    toVoteItem env active (ivs (num_Z entry.1)) sid entry.1 entry.2 (is_user_vote next entry.1) e = Ok row /\
    put = Put (vote_row sid (num_Z entry.1)) row (Some attribute_not_exists)) entries puts.
Proof.
  induction entries as [| [index vote] entries IH]; intros puts; cbn [vote_puts]; [intros [= <-]; constructor |].
  intros E. bind_inv. injection E as <-. constructor; [by eexists | by apply IH].
Qed.

(** The new votes of a record in order are those after the ones that were read. *)
Lemma new_votes_drop identity next a : session_ok identity next ->
  new_votes a next = drop (length (pv_bulletinRootHistory (vi_record (ttl_voting a)))) (vr_votes next).
Proof.
  intros Hn. assert (Hkeys := lo_keys _ _ _ _ (so_log _ _ Hn)). unfold new_votes, zlength.
  set (n := length _). clearbody n. revert Hkeys. generalize (vr_votes next) as l. intros l.
  assert (Hgen : forall l from, map fst l = count_from from (length l) -> forall j, Z.of_nat j = Z.max 0 (Z.of_nat n - from) -> 0 <= from ->
    List.filter (fun e : num * StoredVoteRecord => num_leb (NInt (Z.of_nat n)) e.1) l = drop j l).
  { clear l. induction l as [| [i x] l IH]; intros from Hkeys j Hj Hf; [by rewrite drop_nil |]. cbn in Hkeys.
    injection Hkeys as -> Hkeys. cbn [List.filter fst]. unfold num_leb at 1. cbn [num_ltb num_eqb].
    destruct (Z.ltb_spec (Z.of_nat n) from), (Z.eqb_spec (Z.of_nat n) from); cbn [orb]; try lia.
    1, 2: destruct j; [| lia]; cbn [drop]; f_equal; rewrite (IH (from + 1) Hkeys 0%nat); [done | lia | lia].
    destruct j as [| j]; [lia |]. cbn [drop]. apply (IH (from + 1) Hkeys); lia. }
  intros Hkeys. apply (Hgen l 0 Hkeys n); lia.
Qed.

Section commit.
Variables (ivs : Z -> bytes * bytes) (sid : string) (a : TtlAuthority) (next : VotingRecord).
Variables (items : list TransactItem) (t t' : Table).
Hypothesis Hitems : vote_items env active ivs sid a next = Ok items.
Hypothesis Hcommits : commits items t t'.

Lemma items_parts : exists puts, items = buildSessionTtlUpdates sid a (ttl_expiresAt a) ++
    Put (session_row (votingKey sid))
      (voting_item_value sid (toPersistedVotingRecord next) (vi_revision (ttl_voting a) + 1) (ttl_expiresAt a))
      (Some (voting_condition (ttl_voting a)))
    :: ConditionCheck (session_row (currentFinalizationKey sid)) attribute_not_exists :: puts /\
  Forall2 (fun entry put => exists row,
    toVoteItem env active (ivs (num_Z entry.1)) sid entry.1 entry.2 (is_user_vote next entry.1) (ttl_expiresAt a) = Ok row /\
    put = Put (vote_row sid (num_Z entry.1)) row (Some attribute_not_exists)) (new_votes a next) puts.
Proof.
  unfold vote_items in Hitems. apply bind_Ok in Hitems as (puts & Hp & [= <-]). exists puts. split; [done |].
  by apply vote_puts_Ok.
Qed.

(** An item of the transaction held its condition and had its effect. *)
Lemma item_committed item : In item items ->
  condition_holds (item_condition item) (t (item_key item)) /\ t' (item_key item) = apply_item t item (item_key item).
Proof.
  intros Hin. destruct Hcommits as (Hconds & Hnd & Hr). split.
  - by apply (proj1 (List.Forall_forall _ _) Hconds).
  - rewrite Hr. by apply item_effect.
Qed.

(** No finalization was recorded when the votes were written, and none is recorded by it. *)
Lemma no_finalization : t (session_row (currentFinalizationKey sid)) = None /\ t' (session_row (currentFinalizationKey sid)) = None.
Proof.
  destruct items_parts as (puts & Hi & _).
  destruct (item_committed (ConditionCheck (session_row (currentFinalizationKey sid)) attribute_not_exists)) as [Hc He].
  - rewrite Hi. apply in_app_iff. right. right. by left.
  - cbn in Hc, He. by rewrite He.
Qed.

(** The votes are written over the votes that were read. *)
Lemma voting_replaced : (exists item, t (session_row (votingKey sid)) = Some item /\
    prop item "revision" = JNum (NInt (vi_revision (ttl_voting a)))) /\
  t' (session_row (votingKey sid)) = Some (voting_item_value sid (toPersistedVotingRecord next)
    (vi_revision (ttl_voting a) + 1) (ttl_expiresAt a)).
Proof.
  destruct items_parts as (puts & Hi & _). set (v := voting_item_value _ _ _ _) in *.
  destruct (item_committed (Put (session_row (votingKey sid)) v (Some (voting_condition (ttl_voting a))))) as [Hc He].
  - rewrite Hi. apply in_app_iff. right. by left.
  - cbn in Hc, He. split; [| rewrite He; unfold set_row; by rewrite decide_True].
    destruct (t (session_row (votingKey sid))) as [item |]; [| done]. exists item. split; [done |].
    apply Forall_cons in Hc as [Hrev _]. done.
Qed.

(** A new vote replaces nothing. *)
Lemma vote_added entry : In entry (new_votes a next) -> t (vote_row sid (num_Z entry.1)) = None /\
  exists row, t' (vote_row sid (num_Z entry.1)) = Some row /\
    toVoteItem env active (ivs (num_Z entry.1)) sid entry.1 entry.2 (is_user_vote next entry.1) (ttl_expiresAt a) = Ok row.
Proof.
  intros Hin. destruct items_parts as (puts & Hi & Hputs).
  apply list_elem_of_In, list_elem_of_lookup in Hin as [j Hj]. destruct (Forall2_lookup_l _ _ _ _ _ Hputs Hj) as (put & Hp & row & Hrow & ->).
  destruct (item_committed (Put (vote_row sid (num_Z entry.1)) row (Some attribute_not_exists))) as [Hc He].
  - rewrite Hi. apply in_app_iff. right. right. right. apply list_elem_of_In. by eapply list_elem_of_lookup_2.
  - cbn in Hc, He. split; [done |]. exists row. split; [| done]. rewrite He. unfold set_row. by rewrite decide_True.
Qed.

(** A row is rewritten by the item that names it, if one does. *)
Lemma row_cases key : (exists item, In item items /\ item_key item = key) \/ t' key = t key.
Proof.
  destruct Hcommits as (_ & _ & Hr). destruct (decide (key ∈ map item_key items)) as [Hin | Hout].
  - left. apply list_elem_of_In, in_map_iff in Hin as (item & Hk & Hin). by exists item.
  - right. rewrite Hr. by apply apply_items_other.
Qed.

Lemma items_keys item : In item items ->
  (exists key c, item = Update key (ttl_expiresAt a) c /\ (key = session_row (identityKey sid) \/
     exists vote, In vote (ttl_votes a) /\ key = vote_row sid (vo_voteIndex vote))) \/
  item_key item = session_row (votingKey sid) \/
  item = ConditionCheck (session_row (currentFinalizationKey sid)) attribute_not_exists \/
  exists entry row, In entry (new_votes a next) /\ item = Put (vote_row sid (num_Z entry.1)) row (Some attribute_not_exists).
Proof.
  intros Hin. destruct items_parts as (puts & Hi & Hputs). rewrite Hi in Hin. apply in_app_iff in Hin as [Hin | Hin].
  - left. destruct Hin as [<- | Hin]; [eexists _, _; split; [done | by left] |].
    apply in_map_iff in Hin as (vote & <- & Hvote). eexists _, _. split; [done |]. right. by exists vote.
  - right. destruct Hin as [<- | [<- | Hin]]; [by left | by right; left | right; right].
    apply list_elem_of_In, list_elem_of_lookup in Hin as [j Hj].
    destruct (Forall2_lookup_r _ _ _ _ _ Hputs Hj) as (entry & He & row & _ & ->). exists entry, row. split; [| done].
    apply list_elem_of_In. by eapply list_elem_of_lookup_2.
Qed.

(** No row of a session but its identity and its votes is written. *)
Lemma session_row_kept x : x <> identityKey sid -> x <> votingKey sid -> t' (session_row x) = t (session_row x).
Proof.
  intros H1x H2x. destruct (row_cases (session_row x)) as [(item & Hin & Hk) | Heq]; [| done].
  destruct (items_keys item Hin) as [(key & c & -> & [-> | (vote & _ & ->)]) | [Hv | [-> | (entry & row & _ & ->)]]]; try done.
  - cbn in Hk. congruence.
  - congruence.
  - destruct (item_committed _ Hin) as [_ He]. cbn in He, Hk. by rewrite <- Hk, He.
Qed.

(** The row of a vote that was read keeps everything but its time to live. *)
Lemma vote_kept i : Forall (fun entry => num_Z entry.1 <> i) (new_votes a next) ->
  t' (vote_row sid i) = t (vote_row sid i) \/
  exists properties, t (vote_row sid i) = Some (JObj properties) /\
    t' (vote_row sid i) = Some (JObj (set_property properties "expiresAt" (JNum (ttl_expiresAt a)))).
Proof.
  intros Hnew. destruct (row_cases (vote_row sid i)) as [(item & Hin & Hk) | Heq]; [| by left].
  destruct (items_keys item Hin) as [(key & c & -> & Hkey) | [Hv | [-> | (entry & row & He & ->)]]].
  - destruct (item_committed _ Hin) as [_ He]. cbn in He, Hk. subst key. rewrite He.
    destruct (t (vote_row sid i)) as [[| | | | | | | properties] |] eqn:Et; [left; congruence .. | | left; congruence].
    right. exists properties. split; [done |]. unfold set_row. by rewrite decide_True.
  - by rewrite Hk in Hv.
  - done.
  - cbn in Hk. injection Hk as Hk. apply (proj1 (List.Forall_forall _ _)) with (x := entry) in Hnew; [by cbn in Hnew | done].
Qed.

(** The lifecycles of finalization are untouched, and nothing written expires early. *)
Lemma lifecycles_kept call_start call_end : isSafeVerifierSegment sid = true -> lawful_table call_start call_end t ->
  (exists e, ttl_expiresAt a = NInt e /\ 0 <= now_seconds call_start <= now_seconds call_end /\ now_seconds call_end < e) ->
  lawful_table call_start call_end t' /\ keeps call_start t t' /\
  forall other, isSafeVerifierSegment other = true -> lifecycle_in call_start t' other = lifecycle_in call_start t other.
Proof.
  intros Hsid Ht (e & He & Hw & Hlate).
  assert (Hpointer : forall other, row t' (currentFinalizationKey other) = row t (currentFinalizationKey other)).
  { intros other. unfold row. rewrite session_row_kept; [done | | done]. unfold identityKey. intros <-.
    exact (not_segment "FINALIZATION_CURRENT" other Hsid). }
  assert (Hitem : forall other f, row t' (finalizationKey other f) = row t (finalizationKey other f)).
  { intros other f. unfold row. rewrite session_row_kept; [done | | done]. unfold identityKey. intros <-.
    exact (not_segment "FINALIZATION" (other +:+ "#" +:+ f) Hsid). }
  assert (Hsame : forall other, lifecycle_in call_start t' other = lifecycle_in call_start t other).
  { intros other. unfold lifecycle_in, item_in. rewrite Hpointer. destruct (_ || _); [done |].
    destruct (parseCurrentFinalizationItem _ _ _) as [p |]; [| done]. cbn. by rewrite Hitem. }
  split; [| split; [| done]].
  - split; [| intros other Ho; rewrite Hsame; by apply Ht].
    intros key v Hv. destruct (row_cases (session_row key)) as [(item & Hin & Hk) | Heq]; [| rewrite Heq in Hv; by eapply lt_unexpiring].
    assert (Hexp : prop v "expiresAt" = JNum (NInt e) \/ t (session_row key) = Some v).
    { destruct (item_committed _ Hin) as [_ Hi]. rewrite Hk, Hv in Hi.
      destruct (items_keys item Hin) as [(k & c & -> & _) | [Hvk | [-> | (entry & row & _ & ->)]]].
      - cbn in Hk. subst k. cbn in Hi. destruct (t (session_row key)) as [[| | | | | | | properties] |] eqn:Et; [by right; congruence .. | | by right; congruence].
        left. unfold set_row in Hi. rewrite decide_True in Hi by done. injection Hi as ->. cbn. by rewrite own_set_property, He.
      - left. rewrite Hvk in Hk. rewrite <- Hk in Hv. rewrite (proj2 voting_replaced) in Hv. injection Hv as <-. cbn. by rewrite He.
      - right. by rewrite Hi.
      - done. }
    destruct Hexp as [Hexp | Hold]; [| by eapply lt_unexpiring]. rewrite !(unexpired _ v e) by (done || lia). done.
  - split.
    + intros other c c' _ Hc Hc'. left. rewrite Hsame in Hc'. congruence.
    + intros other f i i' _ Hi Hi'. left. unfold item_in in *. rewrite Hitem in Hi'. by simplify_eq.
Qed.

End commit.

(** ** What the rows of a session hold *)

(** The rows of a session hold [v] under [revision], unexpired at [now]. *)
Record rows_hold (now : Z) (t : Table) (identity : SessionIdentityRecord) (v : VotingRecord) (revision : Z) : Prop := {
  rh_voting : exists item, parseVotingItem now (row t (votingKey (id_sessionId identity))) (id_sessionId identity) = Some item /\
    vi_revision item = revision /\ persisted_of identity v (vi_record item);
  rh_votes k e : vr_votes v !! k = Some e -> exists r, t (vote_row (id_sessionId identity) (Z.of_nat k)) = Some r /\
    row_of env active now (id_sessionId identity) v e r;
  rh_others i : i < 0 \/ zlength (vr_votes v) <= i -> t (vote_row (id_sessionId identity) i) = None;
}.

Lemma voting_parsed now identity v revision expires : storable identity v -> 0 <= revision <= MAX_SAFE_INTEGER ->
  0 <= now_seconds now < expires -> expires <= MAX_SAFE_INTEGER -> exists item,
    parseVotingItem now (voting_item_value (id_sessionId identity) (toPersistedVotingRecord v) revision (NInt expires))
      (id_sessionId identity) = Some item /\ vi_revision item = revision /\ persisted_of identity v (vi_record item).
Proof.
  intros Hs Hr He Hm. destruct (persisted_parsed identity v Hs) as (p & Hp & Hof).
  exists (mkVotingItem (votingKey (id_sessionId identity)) p revision expires). split; [| done].
  unfold parseVotingItem. set (w := voting_item_value _ _ _ _).
  rewrite (unexpired now w expires eq_refl) by lia.
  change (negb (isNonArrayObject w)) with false. change (hasExactOwnKeys w VOTING_ITEM_KEYS) with true.
  change (text_is (prop w "itemType") "SESSION_VOTING") with true.
  change (prop w "sessionId") with (JStr (votingKey (id_sessionId identity))).
  change (prop w "revision") with (JNum (NInt revision)). change (prop w "expiresAt") with (JNum (NInt expires)).
  change (prop w "record") with (persisted_value (toPersistedVotingRecord v)).
  unfold text_is. rewrite String.eqb_refl, !safe_count_Z by lia. cbn [negb orb]. by rewrite Hp.
Qed.

Lemma row_touched now sid v v' e row properties expires : row_of env active now sid v e row -> row = JObj properties ->
  is_user_vote v' e.1 = is_user_vote v e.1 -> 0 <= now_seconds now < expires -> expires <= MAX_SAFE_INTEGER ->
  row_of env active now sid v' e (JObj (set_property properties "expiresAt" (JNum (NInt expires)))).
Proof.
  intros (ivs & old & Hivs & _ & _ & E) Hrow Huser He Hmax. exists ivs, expires. split_and!; [done | lia | done | lia |].
  apply toVoteItem_Ok in E as (vote & rand & Ev & Er & ->). injection Hrow as <-. rewrite Huser.
  unfold toVoteItem. rewrite Ev, Er. done.
Qed.

Lemma row_same now sid v v' e row : row_of env active now sid v e row -> is_user_vote v' e.1 = is_user_vote v e.1 ->
  row_of env active now sid v' e row.
Proof. intros (ivs & old & H1r & H2r & H3r & E) Hu. exists ivs, old. by rewrite Hu. Qed.

(** The user's vote stays the user's vote. *)
Lemma user_kept identity v next k e : session_ok identity v -> session_ok identity next ->
  vr_votes v `prefix_of` vr_votes next -> vr_votes v !! k = Some e -> is_user_vote next e.1 = is_user_vote v e.1.
Proof.
  intros Hv Hn [more Hm] Hk. assert (Hu := so_user _ _ Hv). assert (Hun := so_user _ _ Hn). unfold is_user_vote.
  destruct (vr_userParticipation v) as [| i]; [destruct Hu as [Hempty _]; by rewrite Hempty in Hk |].
  destruct (vr_userParticipation next) as [| i']; [destruct Hun as [Hempty _]; rewrite Hempty in Hm; symmetry in Hm;
    apply app_eq_nil in Hm as [Hm _]; by rewrite Hm in Hk |].
  by destruct Hu as [-> _], Hun as [-> _].
Qed.

(** A write over the rows of a record leaves the rows of the next one. *)
Lemma write_stores now t t' identity v next revision ivs a items expires : rows_hold now t identity v revision ->
  session_ok identity v -> storable identity next -> vr_votes v `prefix_of` vr_votes next ->
  parseVotingItem now (row t (votingKey (id_sessionId identity))) (id_sessionId identity) = Some (ttl_voting a) ->
  0 <= revision < MAX_SAFE_INTEGER ->
  ttl_expiresAt a = NInt expires -> 0 <= now_seconds now < expires -> expires <= MAX_SAFE_INTEGER ->
  (forall i, nonces (ivs i)) -> vote_items env active ivs (id_sessionId identity) a next = Ok items -> commits items t t' ->
  rows_hold now t' identity next (revision + 1).
Proof.
  intros Hrows Hv Hstore Hpre Hread Hsafe Hexp Hnow Hmax Hivs Hitems Hc. assert (Hn := sb_ok _ _ Hstore).
  destruct (rh_voting _ _ _ _ _ Hrows) as (voting & Hvoting & Hrev & Hof). rewrite Hread in Hvoting. injection Hvoting as <-.
  assert (Hlen : length (pv_bulletinRootHistory (vi_record (ttl_voting a))) = length (vr_votes v)).
  { rewrite <- (Forall2_length _ _ _ (po_history _ _ _ Hof)). apply (lo_history _ _ _ _ (so_log _ _ Hv)). }
  assert (Hnew := new_votes_drop identity next a Hn). rewrite Hlen in Hnew.
  assert (Hkeys : forall j e, vr_votes next !! j = Some e -> e.1 = NInt (Z.of_nat j)).
  { intros j [i vote] Hj. by destruct (entry_found _ _ _ _ _ Hn Hj) as [-> _]. }
  assert (Hnum : forall i, (i < zlength (vr_votes v) \/ zlength (vr_votes next) <= i) ->
    Forall (fun entry => num_Z entry.1 <> i) (new_votes a next)).
  { intros i Hi. rewrite Hnew. apply Forall_lookup. intros j e Hj. rewrite lookup_drop in Hj.
    assert (Hlt := lookup_lt_Some _ _ _ Hj). rewrite (Hkeys _ _ Hj). unfold zlength in Hi. cbn. lia. }
  assert (Hle : zlength (vr_votes v) <= zlength (vr_votes next)) by (apply prefix_length in Hpre; unfold zlength; lia).
  split.
  - unfold row. rewrite (proj2 (voting_replaced _ _ _ _ _ _ _ Hitems Hc)), Hrev, Hexp. apply voting_parsed; lia || done.
  - intros k e Hk. destruct (decide (k < length (vr_votes v))%nat) as [Hlt | Hge].
    + destruct (lookup_lt_is_Some_2 (vr_votes v) k Hlt) as [e' Hk']. assert (e' = e) as ->.
      { destruct Hpre as [more Hm]. rewrite Hm, lookup_app_l in Hk by done. congruence. }
      assert (Huser := user_kept _ _ _ _ _ Hv Hn Hpre Hk'). destruct (rh_votes _ _ _ _ _ Hrows k e Hk') as (r & Hr & Hrow).
      destruct (vote_kept _ _ _ _ _ _ _ Hitems Hc (Z.of_nat k)) as [-> | (properties & Ht & ->)].
      * apply Hnum. left. unfold zlength. lia.
      * exists r. split; [done |]. by eapply row_same.
      * eexists. split; [done |]. rewrite Hexp. eapply row_touched; try done. congruence.
    + assert (Hin : In e (new_votes a next)).
      { rewrite Hnew. apply list_elem_of_In. eapply list_elem_of_lookup_2 with (i := (k - length (vr_votes v))%nat).
        rewrite lookup_drop. by replace (length (vr_votes v) + (k - length (vr_votes v)))%nat with k by lia. }
      destruct (vote_added _ _ _ _ _ _ _ Hitems Hc e Hin) as (_ & r & Hr & E). rewrite (Hkeys _ _ Hk) in Hr. cbn in Hr.
      exists r. split; [done |]. exists (ivs (num_Z e.1)), expires. rewrite Hexp in E. split_and!; [apply Hivs | lia | done | lia | done].
  - intros i Hi. destruct (vote_kept _ _ _ _ _ _ _ Hitems Hc i) as [-> | (properties & Ht & _)].
    + apply Hnum. destruct Hi; [| by right]. left. unfold zlength. lia.
    + apply (rh_others _ _ _ _ _ Hrows). lia.
    + rewrite (rh_others _ _ _ _ _ Hrows) in Ht; [done | lia].
Qed.

(** ** Reading the rows back *)

(** The first [n] votes of a session, parsed. *)
Definition vote_rows (now : Z) (t : Table) (sid : string) (n : nat) : option (list VoteItem) :=
  all_some (fun i => t (vote_row sid (Z.of_nat i)) ≫= fun raw => parseVoteItem now raw sid) (seq 0 n).

Lemma rows_listed now t identity v revision : rows_hold now t identity v revision -> exists rows,
  Forall2 (row_of env active now (id_sessionId identity) v) (vr_votes v) rows /\
  vote_rows now t (id_sessionId identity) (length (vr_votes v)) =
    all_some (fun raw => parseVoteItem now raw (id_sessionId identity)) rows.
Proof.
  intros Hrows. assert (Hget := rh_votes _ _ _ _ _ Hrows). unfold vote_rows. set (sid := id_sessionId identity) in *.
  assert (Hgen : forall entries from, (forall k e, entries !! k = Some e -> exists r, t (vote_row sid (Z.of_nat (from + k))) = Some r /\
      row_of env active now sid v e r) -> exists rows, Forall2 (row_of env active now sid v) entries rows /\
    all_some (fun i => t (vote_row sid (Z.of_nat i)) ≫= fun raw => parseVoteItem now raw sid) (seq from (length entries)) =
    all_some (fun raw => parseVoteItem now raw sid) rows).
  { induction entries as [| e entries IH]; intros from Hall; [by exists [] |].
    destruct (Hall 0%nat e eq_refl) as (r & Hr & Hof). rewrite Nat.add_0_r in Hr.
    destruct (IH (S from)) as (rows & Hrest & E).
    - intros k x Hk. destruct (Hall (S k) x Hk) as (r' & Hr' & Hof'). exists r'. by replace (S from + k)%nat with (from + S k)%nat by lia.
    - exists (r :: rows). split; [by constructor |]. cbn [length seq all_some]. rewrite Hr. cbn [mbind option_bind]. by rewrite E. }
  by apply (Hgen (vr_votes v) 0%nat).
Qed.

Lemma rows_read now clk t identity v revision : storable identity v -> rows_hold now t identity v revision ->
  exists item items v',
    parseVotingItem now (row t (votingKey (id_sessionId identity))) (id_sessionId identity) = Some item /\
    vi_revision item = revision /\
    vote_rows now t (id_sessionId identity) (length (vr_votes v)) = Some items /\
    restoreVotingRecord env active clk identity (vi_record item) items = Ok v' /\
    same_record v v' /\ storable identity v' /\ rows_hold now t identity v' revision.
Proof.
  intros Hs Hrows. destruct (rh_voting _ _ _ _ _ Hrows) as (item & Hitem & Hrev & Hof).
  destruct (rows_listed _ _ _ _ _ Hrows) as (rows & Hall & Elist).
  destruct (rows_restored env active now clk identity v (vi_record item) rows Hs Hof Hall)
    as (items & v' & Hparse & E & Hsame & Hs' & Hof').
  exists item, items, v'. rewrite Elist. split_and!; try done. assert (Hvotes := back_votes _ _ Hsame).
  split; [by exists item | | rewrite Hvotes; apply (rh_others _ _ _ _ _ Hrows)].
  intros k e Hk. rewrite Hvotes in Hk. destruct (rh_votes _ _ _ _ _ Hrows k e Hk) as (r & Hr & Hrow). exists r. split; [done |].
  eapply row_same; [done |]. unfold is_user_vote. by rewrite (back_user _ _ Hsame).
Qed.

(** ** What the tables promise *)

(** Round trip: the rows that hold a voting record of the policy are read back
    as that record, with the random values and the choices decrypted, the log
    rebuilt and the history in normal form, and hold the record that was read. *)
Theorem stored_votes_round_trip F now clk t identity v revision : timed_reachable (F := F) identity v ->
  rows_hold now t identity v revision -> exists item items v',
    parseVotingItem now (row t (votingKey (id_sessionId identity))) (id_sessionId identity) = Some item /\
    vi_revision item = revision /\
    vote_rows now t (id_sessionId identity) (length (vr_votes v)) = Some items /\
    restoreVotingRecord env active clk identity (vi_record item) items = Ok v' /\
    vr_votes v' = vr_votes v /\ vr_botCount v' = vr_botCount v /\ vr_userParticipation v' = vr_userParticipation v /\
    vr_lastActivityMs v' = vr_lastActivityMs v /\ vr_sessionId v' = vr_sessionId v /\
    commitments (vr_bulletin v') = commitments (vr_bulletin v) /\
    Forall2 same_snapshot (vr_bulletinRootHistory v) (vr_bulletinRootHistory v') /\
    rows_hold now t identity v' revision.
Proof.
  intros Hs%timed_storable Hrows.
  destruct (rows_read now clk t identity v revision Hs Hrows) as (item & items & v' & H1r & H2r & H3r & H4r & Hsame & _ & Hrows').
  exists item, items, v'. destruct Hsame. by split_and!.
Qed.

(** C21: A vote that is written over the rows of a session leaves the rows of the
    session with the vote: the policy is asked about the record that was read, the
    record it answers with is the one the rows hold afterwards under the next
    revision, the earlier votes unchanged, and a session that keeps this can be
    written again. No finalization was recorded at that moment, and the lifecycle
    of no session is touched. *)
Theorem vote_write_stores F (finalization : option F) call_start call_end now clk t t' identity v revision voting items v' senv
    command m next ivs a written expires :
  call_start <= now <= call_end -> 0 <= now_seconds call_start ->
  isSafeVerifierSegment (id_sessionId identity) = true -> lawful_table call_start call_end t ->
  storable identity v -> rows_hold now t identity v revision -> 0 <= revision < MAX_SAFE_INTEGER ->
  parseVotingItem now (row t (votingKey (id_sessionId identity))) (id_sessionId identity) = Some voting ->
  vote_rows now t (id_sessionId identity) (length (vr_votes v)) = Some items ->
  restoreVotingRecord env active clk identity (vi_record voting) items = Ok v' ->
  clock_ok senv -> command_typed command ->
  evaluateSessionVoteMutation senv (mkAuthority identity v' finalization) command = Ok (Accepted m) ->
  next = next_voting v' m -> ttl_voting a = voting -> ttl_expiresAt a = NInt expires ->
  now_seconds call_end < expires <= MAX_SAFE_INTEGER -> (forall i, nonces (ivs i)) ->
  vote_items env active ivs (id_sessionId identity) a next = Ok written -> commits written t t' ->
  storable identity next /\ rows_hold now t' identity next (revision + 1) /\ vr_votes v `prefix_of` vr_votes next /\
  t (session_row (currentFinalizationKey (id_sessionId identity))) = None /\
  lawful_table call_start call_end t' /\ keeps call_start t t' /\
  forall sid, isSafeVerifierSegment sid = true -> lifecycle_in call_start t' sid = lifecycle_in call_start t sid.
Proof.
  intros Hcall Hzero Hsafe Ht Hs Hrows Hrev Hvoting Hitems E Hclock Hc Em -> Ha Hexp Hlate Hivs Hwritten Hcommit.
  destruct (rows_read now clk t identity v revision Hs Hrows) as (item & items' & v1 & H1r & H2r & H3r & H4r & Hsame & Hs' & Hrows').
  assert (item = voting) as -> by congruence. assert (items' = items) as -> by congruence. assert (v1 = v') as -> by congruence.
  assert (Hnext := step_storable _ _ _ _ _ _ _ Hs' Hclock Hc Em).
  assert (Hadv := session_step _ _ _ _ _ _ (sb_ok _ _ Hs') Hc Em).
  assert (Hsec : now_seconds call_start <= now_seconds now <= now_seconds call_end)
    by (unfold now_seconds; split; apply Z.div_le_mono; lia).
  destruct (lifecycles_kept _ _ _ _ _ _ _ Hwritten Hcommit call_start call_end Hsafe Ht) as (Hl & Hk & Hall).
  { exists expires. split_and!; [done | lia ..]. }
  split_and!; [done | | | | done | done | done].
  - eapply (write_stores now t t' identity v'); try done; [apply Hs' | apply Hadv | by rewrite Ha | lia ..].
  - rewrite <- (back_votes _ _ Hsame). apply Hadv.
  - by destruct (no_finalization _ _ _ _ _ _ _ Hwritten Hcommit).
Qed.

End transaction.

(** ** What a call promises *)

Section guarded.
Context `{NobleLaws} `{AesGcmLaws}.
Context {K St : Type} `{DynamoLaws K St}.
Variable env : string -> option string.
Variable active : option BoundRuntimeConfigReferenceResolver.
Variables call_start call_end : Z.
Context `{!DynamoCall K St env call_start call_end}.
Variable rebuild_now : Z -> Z.
Variable surroundings : nat -> Environment.
Variable attempt_ivs : nat -> Z -> bytes * bytes.

(** Between [t] and [t'] the votes of [next] replaced the votes that [a] read: no
    finalization was recorded, the revision was still the one that was read, and no
    new vote took the place of another. *)
Record votes_replaced (ivs : Z -> bytes * bytes) (sid : string) (a : TtlAuthority) (next : VotingRecord) (t t' : Table) : Prop := {
  vp_open : t (session_row (currentFinalizationKey sid)) = None;
  vp_revision : exists item, t (session_row (votingKey sid)) = Some item /\
    prop item "revision" = JNum (NInt (vi_revision (ttl_voting a)));
  vp_voting : t' (session_row (votingKey sid)) = Some (voting_item_value sid (toPersistedVotingRecord next)
    (vi_revision (ttl_voting a) + 1) (ttl_expiresAt a));
  vp_votes entry : In entry (new_votes a next) -> t (vote_row sid (num_Z entry.1)) = None /\
    exists row, t' (vote_row sid (num_Z entry.1)) = Some row /\
      toVoteItem env active (ivs (num_Z entry.1)) sid entry.1 entry.2 (is_user_vote next entry.1) (ttl_expiresAt a) = Ok row;
  vp_sessions x : x <> identityKey sid -> x <> votingKey sid -> t' (session_row x) = t (session_row x);
}.

Lemma written_replaced ivs sid a next s s' : votes_written env active ivs sid a next s s' -> exists s1 s2,
  others s s1 /\ others s2 s' /\ votes_replaced ivs sid (ma_ttl a) next (table s1) (table s2).
Proof.
  intros (items & s1 & s2 & Hi & Ho & Hc & Ho'). exists s1, s2. split_and!; [done | done |].
  destruct (no_finalization _ _ _ _ _ _ _ _ _ Hi Hc) as [Hnone _]. destruct (voting_replaced _ _ _ _ _ _ _ _ _ Hi Hc) as [Hr Hv].
  split; [done | done | done | |].
  - intros entry Hin. by apply (vote_added _ _ _ _ _ _ _ _ _ Hi Hc).
  - intros x Hx Hx'. by apply (session_row_kept _ _ _ _ _ _ _ _ _ Hi Hc).
Qed.

(** C20: A vote is stored only over the session it was decided about, although the
    decision reads many rows and is repeated when another invocation was first: when
    the call answers that the vote is stored, the policy accepted the command over a
    record in order that was restored from the rows, and there is one moment at which
    the votes it wrote replaced the votes it had read, no finalization being
    recorded; a repeated vote writes nothing. When the call refuses the command it
    wrote nothing, and when it fails it wrote nothing or all of it. *)
Theorem vote_write_guarded A (prepareWrite : SessionVoteMutation -> result (PreparedVoteWrite A)) sid command s r s' :
  DynamoPort.lawful_now call_start call_end s ->
  dynamo_mutateVotes env active rebuild_now surroundings attempt_ivs sid command prepareWrite s = (r, s') ->
  (exists error, r = Ok (NotStored error) /\ others s s') \/ (exists e, r = Err e /\ others s s') \/
  exists attempt a m w, (r = Ok (Stored w.1) \/ exists e, r = Err e) /\
    id_sessionId (ii_identity (ttl_identity (ma_ttl a))) = sid /\
    restoreVotingRecord env active rebuild_now (ii_identity (ttl_identity (ma_ttl a))) (vi_record (ttl_voting (ma_ttl a)))
      (ttl_votes (ma_ttl a)) = Ok (ma_voting a) /\
    (zlength (ttl_votes (ma_ttl a)) <= BOT_COUNT + 1 -> session_ok (ii_identity (ttl_identity (ma_ttl a))) (ma_voting a)) /\
    evaluateSessionVoteMutation (surroundings attempt)
      (mkAuthority (ii_identity (ttl_identity (ma_ttl a))) (ma_voting a) (ma_finalization a)) command = Ok (Accepted m) /\
    prepareWrite m = Ok w /\
    match w.2 with
    | None => others s s'
    | Some (next, _) => exists s1 s2, others s s1 /\ others s2 s' /\
        votes_replaced (attempt_ivs attempt) sid (ma_ttl a) next (table s1) (table s2)
    end.
Proof.
  intros Hs E. unfold dynamo_mutateVotes in E.
  destruct (attempts_spec env active call_start call_end rebuild_now surroundings attempt_ivs prepareWrite sid command _ _ _ _ _ Hs E)
    as [error Ho | e Ho | attempt a m w r s1 Ho Ha Hm Hp Hr Hdone]; [left; by exists error | right; left; by exists e |].
  right; right. exists attempt, a, m, w. destruct Ha as [Httl Hv]. split_and!; try done; [apply Httl | |].
  - intros Hn. by destruct (restored_in_order _ _ _ _ _ _ _ Hv Hn).
  - destruct (w.2) as [[next intents] |]; [| by eapply others_trans].
    destruct (written_replaced _ _ _ _ _ _ Hdone) as (s2 & s3 & H2s & H3s & Hreplaced). exists s2, s3.
    split_and!; [by eapply others_trans | done | done].
Qed.

End guarded.
