(* ===== verification/DynamoSamples.v ===== *)
(** A table in memory that keeps the laws of DynamoDB, with one session without
    votes whose finalization is queued: the witnesses of the properties of
    DynamoLifecycleProofs.v and DynamoPort.v. *)
From S2P Require Import Prelude.
From S2P Require Import JsNumber.
From S2P Require Import JsText.
From S2P Require Import JsValue.
From S2P Require Import Contract.
From S2P Require Import FinStorage.
From S2P Require Import FinTransition.
From S2P Require Import FinTransitionProofs.
From S2P Require Import FinSamples.
From S2P Require Import SessionVote.
From S2P Require Import MockStore.
From S2P Require Import Coordinator.
From S2P Require Import DynamoRecords.
From S2P Require Import DynamoService.
From S2P Require Import DynamoLifecycle.
From S2P Require Import DynamoLifecycleProofs.
From S2P Require Import DynamoPort.
From S2P Require Import Hex.
From S2P Require Import Bulletin.
From S2P Require Import CtSession.
From S2P Require Import CtSessionProofs.
From S2P Require Import SessionVoteProofs.
From S2P Require Import VoteFlow.
From S2P Require Import SessionSamples.
From S2P Require Import VoteCipher.
From S2P Require Import DynamoVotes.
From S2P Require Import DynamoVotesProofs.
From S2P Require Import DynamoVoteWrites.
Import JsText.
Import JsValue.
Import Contract.
Import FinStorage.
Import FinTransition.
Import SessionVote.
Import DeepEqual.
Import Coordinator.
Import DynamoRecords.
Import DynamoService.
Import DynamoLifecycle.
Import Bulletin.
Import CtSession.
Import VoteFlow.
Import RuntimeConfig.
Import VoteCipher.
Import DynamoVotes.
#[global] Open Scope Z_scope.

(** ** The service in memory *)

(** A query has one page, of the votes with an index below ten; time stands still. *)
Record Memory := mkMemory { m_rows : Table; m_clock : Z }.

Definition condition_met (condition : option WriteCondition) (row : option jsval) : bool :=
  match condition, row with
  | None, _ => true
  | Some attribute_not_exists, _ => negb (is_some row)
  | Some (attributes_equal expected), Some item => forallb (fun e => bool_decide (prop item e.1 = e.2)) expected
  | Some (attributes_equal _), None => false
  end.

Definition reason_of (t : Table) (item : TransactItem) : jsval :=
  JObj [("Code"%string, JStr (if condition_met (item_condition item) (t (item_key item)) then "None" else "ConditionalCheckFailed"))].

Definition memory_transact (items : list TransactItem) : SM Memory (option TransactError) := fun m =>
  let met := forallb (fun item => condition_met (item_condition item) (m_rows m (item_key item))) items in
  if met && bool_decide (NoDup (map item_key items))
  then (Ok None, mkMemory (fold_left apply_item items (m_rows m)) (m_clock m))
  else (Ok (Some (mkTransactError "TransactionCanceledException" (JArr (map (reason_of (m_rows m)) items)) "cancelled")), m).

#[export] Instance memory_db : DynamoDB unit Memory := {
  getItem key m := (Ok (m_rows m (session_row key)), m);
  queryVotes sid _ m := (Ok (omap (fun i => m_rows m (vote_row sid (Z.of_nat i))) (seq 0 10), None), m);
  transactWrite := memory_transact;
  query_limit := 1;
  clock := m_clock;
}.

Lemma condition_met_holds condition row : condition_met condition row = true -> condition_holds condition row.
Proof.
  destruct condition as [[| expected] |], row as [item |]; try done. cbn. rewrite forallb_forall. intros Hall.
  apply Forall_forall. intros e He%list_elem_of_In. by apply Hall, bool_decide_eq_true in He.
Qed.

#[export] Instance memory_laws : DynamoLaws unit Memory.
Proof.
  refine {| table := m_rows; others := eq; remaining := fun _ => 0%nat |}.
  - done.
  - intros s1 s2 s3 -> ->. done.
  - intros key s r s' [= <- <-]. split; [done |]. exists s. split_and!; try done. by intros v [= ->].
  - intros sid start s r s' [= <- <-]. done.
  - cbn. lia.
  - intros items s r s' E. cbn in E. unfold memory_transact in E. destruct (forallb _ items && _) eqn:Em.
    + injection E as <- <-. eexists. split; [done |]. apply andb_true_iff in Em as [Hm Hn].
      exists s. eexists. split; [done |]. split; [| done]. split_and!; [| by apply bool_decide_eq_true in Hn | done].
      apply Forall_forall. intros item Hitem%list_elem_of_In. apply condition_met_holds.
      by apply (proj1 (forallb_forall _ _) Hm).
    + injection E as <- <-. eexists. split; [done |]. by left.
Defined.

(** ** A session without votes *)

Definition stored_identity : SessionIdentityRecord :=
  mkIdentity "session-1" "01234567-89ab-4def-8123-0123456789ab" (repeat_char 64 "a")
    (mkElectionConfig 64 ["A"; "B"]%string "1.0" 63 6) (repeat_char 64 "b") 1000.

Definition identity_row : jsval :=
  JObj [("sessionId", JStr "session-1"); ("itemType", JStr "SESSION_IDENTITY");
        ("identity", MockStore.identity_value stored_identity); ("expiresAt", JNum (NInt 2000000))]%string.

Definition voting_row : jsval :=
  JObj [("sessionId", JStr "VOTING#session-1"); ("itemType", JStr "SESSION_VOTING");
        ("record", JObj [("sessionId", JStr "session-1"); ("bulletinRootHistory", JArr []); ("botCount", JNum (NInt 0));
                         ("userParticipation", JObj [("status", JStr "not_cast")]); ("lastActivityMs", JNum (NInt 1000))]);
        ("revision", JNum (NInt 0)); ("expiresAt", JNum (NInt 2000000))]%string.

Definition session_rows : Table := fun k =>
  if decide (k = session_row "session-1") then Some identity_row
  else if decide (k = session_row "VOTING#session-1") then Some voting_row
  else None.

Definition call_time : Z := 1000000000.
Definition fresh : Memory := mkMemory session_rows call_time.
Definition no_env (name : string) : option string := None.

Lemma no_pointer sid : row session_rows (currentFinalizationKey sid) = JUndefined.
Proof. unfold row, session_rows. by rewrite !decide_False by (intros [=]). Qed.

Lemma fresh_table : lawful_table call_time call_time session_rows.
Proof.
  split; [done |]. intros sid _. exists (None, mkRevision None 0). split; [| done]. unfold lifecycle_in.
  by rewrite no_pointer.
Qed.

Lemma fresh_lawful : dynamo_lawful call_time call_time fresh.
Proof. split; [done | apply fresh_table]. Qed.

#[export] Instance fresh_call : DynamoCall unit Memory no_env call_time call_time.
Proof.
  split.
  - done.
  - by intros s s' <-.
  - intros s s' _ <-. split; [intros sid c c' _ -> [= ->]; by left | intros sid fid i i' _ -> [= ->]; by left].
  - intros name fallback t Hin E. cbn in E. injection E as <-.
    destruct Hin as [[= _ <-] | [[= _ <-] | []]]; eexists; (split; [done |]); by vm_compute.
Qed.

(** ** Witnesses *)

Definition queue_sample : FinalizationTransitionCommand := sample_command queue.

Lemma dynamo_command_atomic_witness : exists record coordination s',
  dynamo_applyFinalizationCommand no_env queue_sample fresh = (Ok (record, coordination), s') /\
  Some record = sample_run [queue] /\
  exists now coordination', call_time <= now <= call_time /\
    @coordinated _ _ _ (dynamo_port_laws no_env call_time call_time) queue_sample (NInt now) 2 fresh coordination' s' /\
    Ok (record, coordination) = (fun record => (record, coordination')) <$> resolveCoordinatedRecord coordination' /\
    forall record, resolveCoordinatedRecord coordination' = Ok record ->
      exists s1 l, dynamo_cell call_time s1 "session-1" = Some l /\ lc_currentRecord l = Some record /\ others s1 s'.
Proof.
  destruct (dynamo_applyFinalizationCommand no_env queue_sample fresh) as [r s'] eqn:E.
  assert (Er : exists record coordination, r = Ok (record, coordination) /\ Some record = sample_run [queue]).
  { assert (Ef := f_equal fst E). vm_compute in Ef. cbn [fst] in Ef. rewrite <- Ef. by eexists _, _. }
  destruct Er as (record & coordination & -> & Hrec). exists record, coordination, s'. split; [done |]. split; [done |].
  exact (dynamo_command_atomic no_env call_time call_time queue_sample fresh (Ok (record, coordination)) s' fresh_lawful E).
Defined.

Lemma lifecycle_write_keeps_witness : exists record encoded t', sample_run [queue] = Some record /\
  encodeFinalizationRecord record = Ok encoded /\
  commits (mutation_items "session-1" (fr_finalizationId record) (mkRevision None 0) encoded (NInt 1500000) [])
    session_rows t' /\
  lifecycle_in call_time session_rows "session-1" = Some (None, mkRevision None 0) /\
  lifecycle_in call_time t' "session-1" = Some (Some record, mkRevision (Some (fr_finalizationId record)) (0 + 1)) /\
  (forall other, isSafeVerifierSegment other = true -> other <> "session-1"%string ->
     lifecycle_in call_time t' other = lifecycle_in call_time session_rows other) /\
  lawful_table call_time call_time t' /\ keeps call_time session_rows t'.
Proof.
  destruct (sample_run [queue]) as [record |] eqn:Er; [| by vm_compute in Er].
  assert (Hreach : reachable (Some record)) by (rewrite <- Er; apply run_reachable, reach_start).
  assert (Hok : record_ok record).
  { apply coherent_ok; [by apply reachable_coherent in Hreach |]. vm_compute in Er. injection Er as <-. done. }
  destruct (record_stored _ Hok) as (encoded & He & _). exists record, encoded.
  set (items := mutation_items "session-1" (fr_finalizationId record) (mkRevision None 0) encoded (NInt 1500000) []).
  exists (fold_left apply_item items session_rows). split; [done |]. split; [done |].
  assert (Hrow : session_rows (session_row (currentFinalizationKey "session-1")) = None) by done.
  assert (Hid : fr_finalizationId record = "01HZX"%string /\ fr_sessionId record = "session-1"%string)
    by (vm_compute in Er; by injection Er as <-).
  assert (Hc : commits items session_rows (fold_left apply_item items session_rows)).
  { split_and!; [| | done].
    - constructor; [exact Hrow | constructor; [| constructor]]. cbn. by rewrite (proj1 Hid).
    - cbn. rewrite (proj1 Hid). apply NoDup_cons. split; [| apply NoDup_cons; split; [apply not_elem_of_nil | constructor]].
      intros [= ]%list_elem_of_singleton. }
  split; [exact Hc |].
  exact (lifecycle_write_keeps call_time call_time session_rows session_rows (fold_left apply_item items session_rows)
    "session-1" (None, mkRevision None 0) record encoded 1500000 [] fresh_table eq_refl
    (others_keep (env := no_env) fresh fresh fresh_lawful eq_refl) ltac:(by vm_compute) Hok (proj2 Hid) He
    ltac:(by vm_compute) ltac:(by vm_compute) (List.Forall_nil _) (List.Forall_nil _) Hc).
Defined.

(** ** A vote *)

#[local] Existing Instances checksum_library checksum_laws.

(** A cipher that keeps the laws: the text in the clear, with a constant tag. *)
Definition clear_tag : bytes := repeat 0 16.

#[export] Instance clear_cipher : AesGcm := {
  seal _ _ plaintext := (plaintext, clear_tag);
  open _ _ tag ciphertext := if decide (tag = clear_tag) then Some ciphertext else None;
}.

#[export] Instance clear_laws : AesGcmLaws.
Proof.
  split.
  - by intros key iv plaintext Hp.
  - intros key iv plaintext. split; [| done]. repeat constructor; done.
  - intros key iv plaintext _ _ _. cbn. by rewrite decide_True.
Qed.

Definition test_env (name : string) : option string := if String.eqb name "NODE_ENV" then Some "test"%string else None.

#[export] Instance test_call : DynamoCall unit Memory test_env call_time call_time.
Proof.
  split.
  - done.
  - by intros s s' <-.
  - apply (others_keep (env := no_env)).
  - intros name fallback t Hin E. apply (ttl_fits (env := no_env) name fallback t Hin).
    by destruct Hin as [[= <- _] | [[= <- _] | []]].
Qed.

Definition sample_ivs (attempt : nat) (index : Z) : bytes * bytes := (repeat 1 12, repeat 2 12).

Lemma sample_nonces attempt i : nonces (sample_ivs attempt i).
Proof. split_and!; cbn; try done; repeat constructor; done. Qed.

Definition no_votes : VotingRecord := snd (buildSessionRecords stored_identity 1000).

Definition session_record : VotingItem :=
  mkVotingItem "VOTING#session-1" (mkPersistedVoting "session-1" [] 0 not_cast 1000) 0 2000000.

Definition session_authority : TtlAuthority :=
  mkTtlAuthority (mkIdentityItem stored_identity 2000000) session_record [] (NInt 2000000).

Definition clock_one (_ : Z) : Z := 1.

Example session_read : fst (find_ttl_authority test_env "session-1" fresh) = Ok (Some session_authority).
Proof. vm_compute. reflexivity. Qed.

(** Surroundings whose clocks stand still. *)
Definition steady (attempt : nat) : Environment :=
  mkEnvironment (fun k => uuid_of (Z.of_nat k)) (fun _ => 1000) (fun _ => 2000) (fun _ => 3000) 4000.

Lemma steady_ok attempt : clock_ok (steady attempt).
Proof. split; intros k; cbn; unfold MAX_SAFE_INTEGER; lia. Qed.

Definition voted : result (Outcome SessionVoteMutation) :=
  evaluateSessionVoteMutation (steady 0) (mkAuthority stored_identity no_votes (@None FinTransition.FinalizationRecord))
    (append_user_vote sample_vote).

(** The transaction of the vote, and that its conditions hold. *)
Definition vote_transaction : result (VotingRecord * list TransactItem) :=
  outcome ← voted;
  match outcome with
  | Accepted m =>
      items ← vote_items test_env None (sample_ivs 0) "session-1" session_authority (next_voting no_votes m);
      Ok (next_voting no_votes m, items)
  | Refused _ => throw "refused"
  end.

Definition transaction_met (t : Table) (items : list TransactItem) : bool :=
  forallb (fun item => condition_met (item_condition item) (t (item_key item))) items && bool_decide (NoDup (map item_key items)).

Lemma met_commits t items : transaction_met t items = true -> commits items t (fold_left apply_item items t).
Proof.
  intros [Hm Hn]%andb_true_iff. split_and!; [| by apply bool_decide_eq_true in Hn | done].
  apply Forall_forall. intros item Hitem%list_elem_of_In. apply condition_met_holds. by apply (proj1 (forallb_forall _ _) Hm).
Qed.

Lemma vote_written : exists m items, voted = Ok (Accepted m) /\
  vote_items test_env None (sample_ivs 0) "session-1" session_authority (next_voting no_votes m) = Ok items /\
  commits items session_rows (fold_left apply_item items session_rows) /\ zlength (vr_votes (next_voting no_votes m)) = 1.
Proof.
  assert (Hmet : match vote_transaction with
                 | Ok (next, items) => transaction_met session_rows items && Z.eqb (zlength (vr_votes next)) 1
                 | Err _ => false
                 end = true) by (vm_compute; reflexivity).
  unfold vote_transaction in Hmet. destruct voted as [[m | error] |]; [| done ..]. cbn [mbind result_bind] in Hmet.
  destruct (vote_items _ _ _ _ _ _) as [items |] eqn:Ei; [| done]. cbn [mbind result_bind] in Hmet.
  apply andb_true_iff in Hmet as [Hmet Hone]. exists m, items.
  split_and!; [done | done | by apply met_commits | by apply Z.eqb_eq].
Qed.

Lemma no_rows i : session_rows (vote_row "session-1" i) = None.
Proof. unfold session_rows. by rewrite !decide_False by done. Qed.

Lemma fresh_rows : rows_hold test_env None call_time session_rows stored_identity no_votes 0.
Proof.
  split.
  - exists session_record. split_and!; [by vm_compute | done | by split].
  - done.
  - intros i _. apply no_rows.
Qed.

Lemma call_seconds : 0 <= now_seconds call_time /\ now_seconds call_time < 2000000 <= MAX_SAFE_INTEGER.
Proof. by vm_compute. Qed.

Lemma no_votes_storable : storable stored_identity no_votes.
Proof. apply storable_new. by vm_compute. Qed.

Lemma session_parsed : parseVotingItem call_time (row session_rows "VOTING#session-1") "session-1" = Some session_record.
Proof. by vm_compute. Qed.

Lemma session_restored : restoreVotingRecord test_env None clock_one stored_identity (vi_record session_record) [] = Ok no_votes.
Proof. by vm_compute. Qed.

Lemma vote_write_stores_witness : exists m items, voted = Ok (Accepted m) /\
  vote_items test_env None (sample_ivs 0) "session-1" session_authority (next_voting no_votes m) = Ok items /\
  zlength (vr_votes (next_voting no_votes m)) = 1 /\
  rows_hold test_env None call_time (fold_left apply_item items session_rows) stored_identity (next_voting no_votes m) 1.
Proof.
  destruct vote_written as (m & items & Hm & Hi & Hc & Hone). exists m, items. split; [exact Hm |]. split; [exact Hi |]. split; [exact Hone |].
  refine (proj1 (proj2 (vote_write_stores test_env None FinTransition.FinalizationRecord None call_time call_time call_time clock_one
    session_rows (fold_left apply_item items session_rows) stored_identity no_votes 0 session_record [] no_votes (steady 0)
    (append_user_vote sample_vote) m (next_voting no_votes m) (sample_ivs 0) session_authority items 2000000
    (conj (Z.le_refl _) (Z.le_refl _)) (proj1 call_seconds) eq_refl fresh_table no_votes_storable fresh_rows
    ltac:(split; [apply Z.le_refl | unfold MAX_SAFE_INTEGER; lia]) session_parsed eq_refl session_restored (steady_ok 0) sample_choice Hm
    eq_refl eq_refl eq_refl (proj2 call_seconds) (sample_nonces 0) Hi Hc))).
Defined.

Lemma sample_typed : command_typed (append_user_vote sample_vote).
Proof. exact sample_choice. Qed.

(** The table after the vote. *)
Lemma vote_rows_hold : exists m items, voted = Ok (Accepted m) /\ zlength (vr_votes (next_voting no_votes m)) = 1 /\
  storable stored_identity (next_voting no_votes m) /\
  rows_hold test_env None call_time (fold_left apply_item items session_rows) stored_identity (next_voting no_votes m) 1.
Proof.
  destruct vote_written as (m & items & Hm & Hi & Hc & Hone). exists m, items. split; [exact Hm |]. split; [exact Hone |].
  assert (Hstore := step_storable _ _ _ _ _ _ _ no_votes_storable (steady_ok 0) sample_typed Hm). split; [exact Hstore |].
  assert (Hadv := session_step _ _ _ _ _ _ (sb_ok _ _ no_votes_storable) sample_typed Hm).
  exact (write_stores test_env None call_time session_rows _ stored_identity no_votes _ 0 (sample_ivs 0) session_authority items 2000000
    fresh_rows (sb_ok _ _ no_votes_storable) Hstore (proj2 Hadv) session_parsed
    ltac:(split; [apply Z.le_refl | unfold MAX_SAFE_INTEGER; lia]) eq_refl
    (conj (proj1 call_seconds) (proj1 (proj2 call_seconds))) (proj2 (proj2 call_seconds)) (sample_nonces 0) Hi Hc).
Qed.

Lemma stored_votes_round_trip_witness : exists v t item items v', zlength (vr_votes v) = 1 /\
  parseVotingItem call_time (row t "VOTING#session-1") "session-1" = Some item /\
  vote_rows call_time t "session-1" 1 = Some items /\
  restoreVotingRecord test_env None clock_one stored_identity (vi_record item) items = Ok v' /\ vr_votes v' = vr_votes v.
Proof.
  destruct vote_rows_hold as (m & items & Hm & Hone & _ & Hrows).
  assert (Hreach : timed_reachable (F := FinTransition.FinalizationRecord) stored_identity (next_voting no_votes m)).
  { exists 1000. split; [split; [apply Z.lt_le_incl, Z.ltb_lt; reflexivity | unfold MAX_SAFE_INTEGER; lia] |]. apply rtc_once.
    exists None, (steady 0), (append_user_vote sample_vote), m.
    split; [apply steady_ok |]. split; [apply sample_choice |]. split; [exact Hm | reflexivity]. }
  destruct (stored_votes_round_trip test_env None FinTransition.FinalizationRecord call_time clock_one
    (fold_left apply_item items session_rows) stored_identity (next_voting no_votes m) 1 Hreach Hrows)
    as (item & rows & v' & Hitem & _ & Hvotes & E & Hv & _).
  exists (next_voting no_votes m), (fold_left apply_item items session_rows), item, rows, v'.
  assert (Hlen : length (vr_votes (next_voting no_votes m)) = 1%nat) by (unfold zlength in Hone; lia). rewrite Hlen in Hvotes.
  split; [exact Hone |]. split; [exact Hitem |]. split; [exact Hvotes |]. split; [exact E | exact Hv].
Defined.

Lemma restored_votes_in_order_witness : exists p items v, restoreVotingRecord test_env None clock_one stored_identity p items = Ok v /\
  zlength (vr_votes v) = 1 /\ getLogId (vr_bulletin v) = id_logId stored_identity /\
  exists vote id nodes root, vr_votes v !! 0%nat = Some (NInt 0, vote) /\ sv_voteId vote = Some id /\
    board_verifyInclusionProof (appended (sv_commit vote)) (NInt 0) nodes root 1 = Ok true.
Proof.
  destruct vote_rows_hold as (m & items & _ & Hone & Hs & Hrows).
  destruct (rows_read test_env None call_time clock_one _ _ _ _ Hs Hrows) as (item & rows & v & _ & _ & _ & E & Hsame & _).
  exists (vi_record item), rows, v. split; [exact E |]. assert (Hv := back_votes _ _ Hsame).
  split; [rewrite Hv; exact Hone |].
  destruct (restored_votes_in_order test_env None clock_one stored_identity (vi_record item) rows v E) as (_ & Hlog & _ & Hall).
  split; [exact Hlog |]. rewrite Hv in Hall |- *. unfold zlength in Hone.
  destruct (vr_votes (next_voting no_votes m)) as [| [i vote] rest] eqn:Ev; [discriminate |].
  destruct (Hall 0%nat i vote eq_refl) as (Hi & _ & _ & id & nodes & root & Hid & _ & _ & _ & Hver). exists vote, id, nodes, root.
  split; [rewrite Hi; reflexivity |]. split; [exact Hid | exact Hver].
Defined.

Definition vote_call : result (StoreOutcome AddVoteResult) * Memory :=
  dynamo_addVote test_env None clock_one steady sample_ivs "session-1" sample_vote fresh.

Definition answered (call : result (StoreOutcome AddVoteResult) * Memory) : bool :=
  match call with
  | (Ok (Stored _), s) => is_some (m_rows s (vote_row "session-1" 0))
  | _ => false
  end.

Lemma vote_answered : answered vote_call = true.
Proof. vm_compute. reflexivity. Qed.

Lemma vote_write_guarded_witness : exists x s', vote_call = (Ok (Stored x), s') /\
  exists attempt a next, votes_replaced test_env None (sample_ivs attempt) "session-1" a next session_rows (m_rows s').
Proof.
  assert (Ha := vote_answered). destruct vote_call as [r s'] eqn:E. unfold answered in Ha.
  destruct r as [[x | error] | e]; [| discriminate Ha ..]. exists x, s'. split; [reflexivity |].
  destruct (vote_write_guarded test_env None call_time call_time clock_one steady (fun attempt => sample_ivs attempt) AddVoteResult MockStore.prepareUserVoteWrite "session-1"
    (append_user_vote sample_vote) fresh _ s' fresh_lawful E)
    as [(error & Hr & _) | [(e & Hr & _) | (attempt & a & m & w & Hr & _ & _ & _ & _ & _ & Hdone)]]; [discriminate Hr .. |].
  destruct w as [answer [[next intents] |]]; cbn [snd] in Hdone.
  - destruct Hdone as (s1 & s2 & H1s & H2s & Hreplaced). cbn in H1s, H2s. subst s1 s2. exists attempt, (ma_ttl a), next. exact Hreplaced.
  - cbn in Hdone. subst s'. cbn [m_rows fresh] in Ha. rewrite no_rows in Ha. discriminate Ha.
Defined.

(** ** A key in the deployment's own store *)

Definition key_path : string := "/stark-ballot-simulator/stark-dev/develop/app/secrets/vote-secret-encryption-key".

Definition develop_env (name : string) : option string :=
  if String.eqb name "VOTE_SECRET_ENCRYPTION_KEY_REF" then Some key_path else None.

Definition develop_resolver : BoundRuntimeConfigReferenceResolver :=
  mkResolver (fun reference => if String.eqb (rr_reference reference) key_path then Some (repeat_char 64 "7") else None)
    (mkOptions (Some "123456789012"%string) develop None).

Lemma vote_secrets_protected_witness : exists secret, encryptVoteSecret develop_env (Some develop_resolver) (repeat 1 12) "B" = Ok secret /\
  decryptVoteSecret develop_env (Some develop_resolver) secret = Ok "B"%string /\
  exists resolver value, Some develop_resolver = Some resolver /\
    leads_to (expectedRuntimeConfigReferencePaths VOTE_SECRET_ENCRYPTION_KEY (br_validationOptions resolver))
      (br_validationOptions resolver) value.
Proof.
  destruct (encryptVoteSecret develop_env (Some develop_resolver) (repeat 1 12) "B") as [secret |] eqn:E; [| by vm_compute in E].
  exists secret. split; [reflexivity |].
  destruct (vote_secrets_protected develop_env (Some develop_resolver) (repeat 1 12) "B" secret) as (_ & Hd & key & _ & _ & _ & Href);
    [by repeat constructor | reflexivity | exact E |].
  split; [exact Hd |]. destruct (Href "/"%char (text_slice 1 key_path) ltac:(vm_compute; reflexivity)) as (resolver & value & _ & Hr & Hl & _).
  exists resolver, value. split; [exact Hr | exact Hl].
Defined.
