(* ===== verification/FinRunDynamo.v ===== *)
(** The DynamoDB store keeps the laws of finalization commands (FinRun.v), for
    calls in which no lifecycle comes to its last revision: its commands leave the
    rows well formed, so that a use case may issue one after another. *)
From S2P Require Import Prelude.
From S2P Require Import JsNumber.
From S2P Require Import JsText.
From S2P Require Import JsValue.
From S2P Require Import FinStorage.
From S2P Require Import FinTransition.
From S2P Require Import FinTransitionProofs.
From S2P Require Import SessionVote.
From S2P Require Import MockStore.
From S2P Require Import Coordinator.
From S2P Require Import DynamoRecords.
From S2P Require Import DynamoService.
From S2P Require Import DynamoLifecycle.
From S2P Require Import DynamoLifecycleProofs.
From S2P Require Import DynamoPort.
From S2P Require Import FinRun.
From S2P Require Import Hex.
From S2P Require Import Contract.
From S2P Require Import FinalizeInputs.
From S2P Require Import FinResult.
From S2P Require Import FinSamples.
From S2P Require Import SessionSamples.
From S2P Require Import DynamoSamples.
Import JsValue.
Import FinStorage.
Import FinTransition.
Import SessionVote.
Import DeepEqual.
Import Coordinator.
Import DynamoRecords.
Import DynamoService.
Import DynamoLifecycle.
Import FinRun.
#[global] Open Scope Z_scope.

(** ** Tables with room for commands *)

(** Every lifecycle has [n] revisions to go. *)
Record table_ready (call_start call_end : Z) (n : nat) (t : Table) : Prop := {
  tr_lawful : lawful_table call_start call_end t;
  tr_room sid c : isSafeVerifierSegment sid = true -> lifecycle_in call_start t sid = Some c ->
    lr_revision c.2 + Z.of_nat n < MAX_SAFE_INTEGER;
}.

(** Other invocations leave this room, and a transaction ends within the call. *)
Class DynamoRun (K St : Type) `{DynamoLaws K St} (call_start call_end : Z) : Prop := {
  others_room n s s' : others s s' -> table_ready call_start call_end n (table s) ->
    table_ready call_start call_end n (table s');
  transaction_time items s r s' : dynamo_lawful call_start call_end s -> transactWrite items s = (r, s') ->
    call_start <= clock s' <= call_end;
}.

Section store.
Context {K St : Type} `{DynamoDB K St} (env : string -> option string).

(** The methods of the DynamoDB store. *)
#[export] Instance dynamo_commands : FinalizationCommands St := {
  command_clock := (now ← date_now; mret (NInt now));
  applyFinalizationCommand command := (answered ← dynamo_applyFinalizationCommand env command; mret answered.1);
  getCurrentFinalizationRecord := dynamo_getCurrentFinalizationRecord;
  getFinalizationRecord := dynamo_getFinalizationRecord;
}.

End store.

Section run.
Context {K St : Type} `{DynamoLaws K St} (env : string -> option string) (call_start call_end : Z).
Context `{!DynamoCall K St env call_start call_end, !DynamoRun K St call_start call_end}.

Definition dynamo_ready (n : nat) (s : St) : Prop :=
  call_start <= clock s <= call_end /\ table_ready call_start call_end n (table s).

Lemma ready_lawful n s : dynamo_ready n s -> lawful_now call_start call_end s.
Proof. intros [Hc Ht]. split; [done | by eapply tr_lawful]. Qed.

Lemma others_ready n s s' : others s s' -> dynamo_ready n s -> dynamo_ready n s'.
Proof.
  intros Ho Hs. assert (Hl := others_lawful _ _ Ho (ready_lawful _ _ Hs)). destruct Hs as [Hc Ht].
  split; [apply Hl | by eapply others_room].
Qed.

Lemma less_ready n s : dynamo_ready (S n) s -> dynamo_ready n s.
Proof. intros [Hc [Hl Hr]]. split; [done |]. split; [done |]. intros sid c Hsid E. specialize (Hr sid c Hsid E). lia. Qed.

Lemma reads_ready {A} (m : SM St A) P n s r s' : reading call_start call_end m P -> dynamo_ready n s -> m s = (r, s') ->
  dynamo_ready n s' /\ others s s' /\ match r with Ok a => P a | Err e => e <> OutOfFuel end.
Proof.
  intros Hm Hs E. destruct (Hm _ _ _ (ready_lawful _ _ Hs) E) as [Ho Hr]. split; [by eapply others_ready | done].
Qed.

(** ** A write leaves one revision less *)

Lemma committed_room t0 t t' sid fid c0 record encoded e items n :
  table_ready call_start call_end (S n) t -> lifecycle_in call_start t0 sid = Some c0 -> DynamoLifecycleProofs.keeps call_start t0 t ->
  lr_revision c0.2 < MAX_SAFE_INTEGER -> isSafeVerifierSegment sid = true ->
  record_ok record -> fr_sessionId record = sid -> fr_finalizationId record = fid ->
  encodeFinalizationRecord record = Ok encoded ->
  0 <= now_seconds call_start <= now_seconds call_end -> now_seconds call_end < e <= MAX_SAFE_INTEGER ->
  Forall (session_key sid) (map item_key items) ->
  Forall (fun i => match i with Update _ expiresAt _ => expiresAt = NInt e | _ => False end) items ->
  commits (mutation_items sid fid c0.2 encoded (NInt e) items) t t' -> table_ready call_start call_end n t'.
Proof.
  intros [Hl Hroom] Hc0 Hk Hb Hsid Hok Hs Hf Hen Hw He Hkeys Httl Hc. assert (He' : 0 <= e <= MAX_SAFE_INTEGER) by lia.
  assert (Hnow : now_seconds call_start < e) by lia.
  assert (Hbefore := conditions_lifecycle _ _ _ _ _ _ _ _ _ _ _ Hl Hc0 Hk Hb Hsid Hc).
  assert (Hwritten := written_lifecycle _ _ _ _ _ _ _ _ _ _ _ Hc0 Hb Hok Hs Hf Hen He' Hnow Hc).
  assert (Hmore := Hroom _ _ Hsid Hbefore). split.
  - destruct He as [He _]. eapply mutation_lawful; try exact Hc; try done. lia.
  - intros other c Ho Hlc. destruct (decide (other = sid)) as [-> | Hne].
    + rewrite Hwritten in Hlc. injection Hlc as <-. cbn. lia.
    + rewrite (other_lifecycles _ _ _ _ _ _ _ _ _ Hsid Hkeys Hc other Ho Hne) in Hlc. specialize (Hroom _ _ Ho Hlc). lia.
Qed.

Lemma window_seconds n s : dynamo_ready n s -> 0 <= now_seconds call_start <= now_seconds call_end.
Proof.
  intros [Hc _]. assert (Hw := call_window). unfold now_seconds. split; [apply Z.div_pos; lia | apply Z.div_le_mono; lia].
Qed.

(** A transaction of a mutation is committed over a table with room, or only lets
    others act. *)
Lemma transaction_room items n s r s' : dynamo_ready (S n) s -> writeTransaction items s = (r, s') ->
  (forall s1 t', others s s1 -> commits items (table s1) t' -> table_ready call_start call_end n t') -> dynamo_ready n s'.
Proof.
  intros Hs E Hcommit. unfold writeTransaction in E.
  destruct (Z.ltb _ _); [injection E as <- <-; by apply less_ready |]. unfold mbind, SM_bind in E.
  destruct (transactWrite items s) as [rt st] eqn:Et. destruct (transact_law _ _ _ _ Et) as (answer & -> & Ha).
  assert (Hst : s' = st) by (destruct answer as [err |]; [destruct (isConditionalTransactionFailure err items) |]; by injection E).
  subst st. assert (Hclock := transaction_time _ _ _ _ (ready_lawful _ _ Hs) Et).
  assert (Hdone : (exists s1 s2, others s s1 /\ commits items (table s1) (table s2) /\ others s2 s') -> dynamo_ready n s').
  { intros (s1 & s2 & Ho1 & Hc & Ho2). split; [done |]. eapply others_room; [exact Ho2 |]. by eapply Hcommit. }
  assert (Hkept : others s s' -> dynamo_ready n s') by (intros Ho; apply less_ready; by eapply others_ready).
  cbv zeta in Ha. destruct answer as [err |]; [destruct Ha as [Ha | [_ Ha]] |]; auto.
Qed.

Section mutation.
Context (s0 : St) (sid fid : string) (c0 : option FinalizationRecord * EncodedLifecycleRevision).
Context (record : FinalizationRecord) (n : nat).
Hypothesis Hs0 : lawful_now call_start call_end s0.
Hypothesis Hc0 : lifecycle_in call_start (table s0) sid = Some c0.
Hypothesis Hbound : lr_revision c0.2 < MAX_SAFE_INTEGER.
Hypothesis Hsid : isSafeVerifierSegment sid = true.
Hypothesis Hok : record_ok record.
Hypothesis Hsession : fr_sessionId record = sid.
Hypothesis Hattempt : fr_finalizationId record = fid.

Lemma write_room s r s' : dynamo_ready (S n) s -> others s0 s ->
  write_next env sid fid c0.2 record s = (r, s') -> dynamo_ready n s'.
Proof.
  intros Hs Ho E. unfold write_next, sm_catch, mbind, SM_bind in E. destruct (artifactExpiresAt env s) as [rq sq] eqn:Eq.
  assert (Hexpiry := reading_expiry env call_start call_end "VERIFICATION_ARTIFACT_TTL_SECONDS" (NInt (2 * 60 * 60))
    ltac:(by right; left)).
  destruct (reads_ready _ _ _ _ _ _ Hexpiry Hs Eq) as (Hsq & Hoq & Hrq).
  destruct rq as [requested | [msg |]]; [| injection E as <- <-; by apply less_ready | done].
  destruct (buildArtifactTtlUpdatePlan env sid requested sq) as [rp sp] eqn:Ep.
  destruct (reads_ready _ _ _ _ _ _ (reading_plan env call_start call_end sid requested Hrq) Hsq Ep) as (Hsp & Hop & Hrp).
  destruct rp as [[expiresAt items] | [msg |]]; [| injection E as <- <-; by apply less_ready | done].
  cbn [fst snd] in Hrp, E. destruct Hrp as ((e & -> & He) & Hkeys & Httl). unfold sm_lift in E.
  destruct (encodeFinalizationRecord record) as [encoded | [msg |]] eqn:Een; [| injection E as <- <-; by apply less_ready |].
  2: { by apply encode_no_fuel in Een. }
  destruct (writeTransaction _ sp) as [rw sw] eqn:Ew.
  assert (Hsw : s' = sw) by (destruct rw as [outcome | [msg |]]; by injection E).
  subst sw. apply (transaction_room _ _ _ _ _ Hsp Ew). intros s1 t' Ho1 Hc.
  assert (H01 : others s0 s1) by (eapply others_trans; [exact Ho |]; eapply others_trans; [exact Hoq |]; by eapply others_trans).
  assert (Hs1 := proj2 (others_ready _ _ _ Ho1 Hsp)).
  exact (committed_room _ _ _ _ _ _ _ _ _ _ _ Hs1 Hc0 (others_keep _ _ Hs0 H01) Hbound Hsid Hok Hsession Hattempt Een
    (window_seconds _ _ Hs) He Hkeys Httl Hc).
Qed.

End mutation.

(** What a mutation of a lifecycle leaves; a stale one wrote nothing. *)
Lemma apply_room sid fid l next s0 n s r s' : lawful_now call_start call_end s0 ->
  dynamo_cell call_start s0 sid = Some l -> others s0 s -> dynamo_ready (S n) s ->
  dynamo_applyFinalizationLifecycleMutation env sid fid (lc_revision l) next s = (r, s') -> dynamo_ready n s'.
Proof.
  intros Hs0 Hl Ho Hs E.
  assert (Hcell : exists c0, lifecycle_in call_start (table s0) sid = Some c0 /\
    l = mkLifecycle c0.1 (encodeLifecycleRevision c0.2) /\ isSafeVerifierSegment sid = true).
  { revert Hl. unfold dynamo_cell. destruct (isSafeVerifierSegment sid); [| done].
    destruct (lifecycle_in call_start (table s0) sid) as [c |]; [| done]. intros [= <-]. by exists c. }
  destruct Hcell as (c0 & Hc0 & -> & Hsid). destruct (lt_lifecycle _ _ _ (proj2 Hs0) sid Hsid) as (c & Hc & Hb).
  rewrite Hc0 in Hc. injection Hc as <-. revert E. cbn [lc_revision].
  unfold dynamo_applyFinalizationLifecycleMutation, admitLifecycleMutation. rewrite (token_decodes call_start _ _ _ Hc0 Hb).
  fold (stored_form next). destruct (stored_form next) as [record |] eqn:Est; [| intros [= <- <-]; by apply less_ready].
  destruct (String.eqb_spec (fr_sessionId record) sid) as [Hrs |]; [| intros [= <- <-]; by apply less_ready].
  destruct (String.eqb_spec (fr_finalizationId record) fid) as [Hrf |]; [| intros [= <- <-]; by apply less_ready].
  cbn [negb orb]. unfold mbind, SM_bind. destruct (write_next env sid fid c0.2 record s) as [rw sw] eqn:Ew.
  assert (Hsw := write_room s0 sid fid c0 record n Hs0 Hc0 Hb Hsid (admitted_ok _ _ Est) Hrs Hrf _ _ _ Hs Ho Ew).
  destruct rw as [[[] | error] | e]; [by intros [= <- <-] | | by intros [= <- <-] | by intros [= <- <-]].
  destruct (dynamo_loadFinalizationLifecycle sid fid sw) as [rl sl] eqn:El.
  destruct (load_spec env call_start call_end _ _ _ _ _ (ready_lawful _ _ Hsw) El) as (reloaded & -> & Hol & _).
  assert (Hsl := others_ready _ _ _ Hol Hsw).
  destruct reloaded as [after | | error | error]; [destruct (isDeepStrictEqual _ _) | ..]; by intros [= <- <-].
Qed.

Lemma loop_room command t limit fuel n : forall conflicts s r s', dynamo_ready (S n) s ->
  @coordinate_loop _ _ (dynamo_lifecycle_port env) fuel command t limit conflicts s = (r, s') -> dynamo_ready n s'.
Proof.
  induction fuel as [| fuel IH]; intros conflicts s r s' Hs; cbn [coordinate_loop]; [intros [= <- <-]; by apply less_ready |].
  unfold mbind, SM_bind. cbn [loadFinalizationLifecycle dynamo_lifecycle_port].
  destruct (dynamo_loadFinalizationLifecycle _ _ s) as [ra sa] eqn:Ea.
  destruct (load_spec env call_start call_end _ _ _ _ _ (ready_lawful _ _ Hs) Ea) as (answer & -> & Hoa & Hload).
  assert (Hsa := others_ready _ _ _ Hoa Hs). assert (Hless := less_ready _ _ Hsa).
  destruct answer as [l | | error | error]; [| by intros [= <- <-] ..]. destruct Hload as (s1 & Ho1 & Hcell & Ho1').
  destruct (evaluateFinalizationTransition _ command t) as [state reason next | state | state reason | state reason];
    [| by intros [= <- <-] ..].
  cbn [applyFinalizationLifecycleMutation dynamo_lifecycle_port].
  destruct (dynamo_applyFinalizationLifecycleMutation _ _ _ _ next sa) as [rb sb] eqn:Eb.
  assert (Hs1 := ready_lawful _ _ (others_ready _ _ _ Ho1 Hs)).
  assert (Hsb := apply_room _ _ _ _ _ _ _ _ _ Hs1 Hcell Ho1' Hsa Eb).
  destruct (dynamo_apply_law env call_start call_end _ _ _ _ _ _ _ _ Hs1 Hcell Ho1' Eb) as (answer & -> & Happly).
  destruct answer as [after | after | after | | error | error]; try (by intros [= <- <-]).
  destruct Happly as (s2 & Ho2 & _ & Ho2'). assert (Hstale : dynamo_ready (S n) sb).
  { eapply others_ready; [| exact Hsa]. by eapply others_trans. }
  destruct (Z.ltb limit (conflicts + 1)); [by intros [= <- <-] | by apply IH].
Qed.

(** ** The laws *)

Definition dynamo_held (s : St) (sid : string) : option FinalizationRecord := dynamo_cell call_start s sid ≫= lc_currentRecord.

Lemma held_cell s sid l : dynamo_cell call_start s sid = Some l -> dynamo_held s sid = lc_currentRecord l.
Proof. unfold dynamo_held. by intros ->. Qed.

Lemma installed_answer command t s after outcome s' :
  @installed _ _ _ (dynamo_port_laws env call_start call_end) command t s after outcome s' ->
  exists record, lc_currentRecord after = Some record /\ command_installed dynamo_held others command s record s'.
Proof.
  intros (s1 & s2 & before & state & reason & next & -> & Ho1 & Hb & Hev & Hst & Hafter & Ha & Hothers & Ho2).
  destruct (stored_form next) as [record |] eqn:Er; [| done]. exists record. split; [done |].
  exists s1, s2, t, state, reason, next. cbn [cell dynamo_port_laws] in *. rewrite (held_cell _ _ _ Hb), (held_cell _ _ _ Ha).
  split_and!; try done. intros other Hne. unfold dynamo_held. by rewrite Hothers.
Qed.

Lemma coordinated_answer command t limit s answer s' record :
  @coordinated _ _ _ (dynamo_port_laws env call_start call_end) command t limit s answer s' ->
  resolveCoordinatedRecord answer = Ok record -> command_answer dynamo_held others command s record s'.
Proof.
  destruct answer as [after outcome n | l outcome n | after outcome n | l outcome n | l outcome n | after outcome n | stage n
                     | stage error n | stage error n]; cbn [coordinated resolveCoordinatedRecord]; try done.
  - intros [Hi _] Hr. destruct (installed_answer _ _ _ _ _ _ Hi) as (r & Er & Hc). rewrite Er in Hr. injection Hr as <-.
    by apply answer_installed.
  - intros [(s1 & Ho1 & Hb & Hev & Ho2) [[state ->] _]] Hr. cbn [cell dynamo_port_laws] in *.
    destruct (lc_currentRecord l) as [r |] eqn:El; [| done]. injection Hr as <-.
    apply (answer_kept _ _ _ _ _ _ s1 t); [done | by rewrite (held_cell _ _ _ Hb) | by rewrite Hev | done].
  - intros [(s1 & s2 & before & state & reason & next & -> & Ho1 & Hb & Hev & Ho2 & Ha & Hst & Hafter & Ho3) _] Hr.
    cbn [cell dynamo_port_laws] in *. destruct (stored_form next) as [r |] eqn:Er; [| done]. rewrite Hafter in Hr.
    injection Hr as <-. apply (answer_shared _ _ _ _ _ _ s1 s2 t state reason next); try done.
    + by rewrite (held_cell _ _ _ Hb).
    + by rewrite (held_cell _ _ _ Ha).
  - intros [(s1 & Ho1 & Hb & Hev & Ho2) [(state & reason & ->) _]] Hr. cbn [cell dynamo_port_laws] in *.
    destruct (lc_currentRecord l) as [r |] eqn:El; [| done]. injection Hr as <-.
    apply (answer_kept _ _ _ _ _ _ s1 t); [done | by rewrite (held_cell _ _ _ Hb) | by rewrite Hev | done].
  - intros [(s1 & Ho1 & Ha & Ho2) _] Hr. cbn [cell dynamo_port_laws] in *.
    destruct (lc_currentRecord after) as [r |] eqn:El; [| done]. injection Hr as <-.
    apply (answer_overtaken _ _ _ _ _ _ s1); [done | by rewrite (held_cell _ _ _ Ha) | done].
Qed.

Ltac elapse := solve [left; eauto 6 using others_trans].

Lemma coordinated_lost command t limit s answer s' error :
  @coordinated _ _ _ (dynamo_port_laws env call_start call_end) command t limit s answer s' ->
  resolveCoordinatedRecord answer = Err error -> error <> OutOfFuel /\ command_lost dynamo_held others command s s'.
Proof.
  intros Hc Hr. split.
  { intros ->. destruct answer as [l | l | l | l | | l | | |]; cbn in Hr; try done; by destruct (lc_currentRecord l). }
  destruct answer as [after outcome n | l outcome n | after outcome n | l outcome n | l outcome n | after outcome n | stage n
                     | stage e n | stage e n]; cbn [coordinated resolveCoordinatedRecord cell evolves dynamo_port_laws] in Hc, Hr.
  - destruct Hc as [Hi _]. destruct (installed_answer _ _ _ _ _ _ Hi) as (r & Er & Hc). by right; exists r.
  - destruct Hc as [(s1 & Ho1 & _ & _ & Ho2) _]. elapse.
  - destruct Hc as [(s1 & s2 & before & state & reason & next & _ & Ho1 & _ & _ & Ho2 & _ & _ & _ & Ho3) _]. elapse.
  - destruct Hc as [(s1 & Ho1 & _ & _ & Ho2) _]. elapse.
  - destruct Hc as [(s1 & Ho1 & _ & _ & Ho2) _]. elapse.
  - destruct Hc as [(s1 & Ho1 & _ & Ho2) _]. elapse.
  - left. apply Hc.
  - destruct Hc as [[Ho | (after & outcome & Hi)] _]; [by left |].
    destruct (installed_answer _ _ _ _ _ _ Hi) as (r & Er & Hc). by right; exists r.
  - left. apply Hc.
Qed.

Lemma reading_record sid fid : reading call_start call_end (dynamo_getFinalizationRecord sid fid) (fun _ => True).
Proof.
  apply (reading_bind env call_start call_end _ _ _ _ (reading_identity env call_start call_end sid)). intros o _.
  destruct (negb (is_some o)); [by apply reads_ret |].
  apply (reading_bind env call_start call_end _ _ _ _ (reading_item env call_start call_end _)). intros raw _.
  apply (reading_bind env call_start call_end _ _ _ _ (reading_now call_start call_end)). intros now _.
  destruct (_ || _); [by apply reads_ret |]. destruct (parseFinalizationItem now raw sid fid); [by apply reads_ret | apply reads_throw].
Qed.

#[export] Instance dynamo_commands_laws : @FinalizationCommandsLaws St (dynamo_commands env).
Proof.
  refine {| store_ready := dynamo_ready; held := dynamo_held; meanwhile := others |}.
  - apply others_refl.
  - apply others_trans.
  - apply others_ready.
  - apply less_ready.
  - intros n s r s' _ [= <- <-]. split; [apply others_refl | done].
  - intros n sid s r s' Hs. cbn. unfold dynamo_getCurrentFinalizationRecord, mbind, SM_bind.
    destruct (dynamo_loadFinalizationLifecycle sid "" s) as [rl sl] eqn:El.
    destruct (load_spec env call_start call_end _ _ _ _ _ (ready_lawful _ _ Hs) El) as (answer & -> & Ho & Ha).
    destruct answer as [l | | error | error]; intros [= <- <-].
    2-4: split; [done |]; exists s; split_and!; [apply others_refl | done | by intros].
    destruct Ha as (s1 & Ho1 & Hc & Ho2). split; [done |]. exists s1. split_and!; [done | done |].
    intros record [= Hr]. by rewrite (held_cell _ _ _ Hc).
  - intros n sid fid s r s' Hs E. destruct (reads_ready _ _ _ _ _ _ (reading_record sid fid) Hs E) as (_ & Ho & Hr).
    split; [done |]. destruct r as [o | e]; [done | congruence].
  - intros n command s r s' Hs. cbn. unfold dynamo_applyFinalizationCommand, mbind, SM_bind. cbn [date_now].
    destruct (@coordinateFinalizationTransition _ _ (dynamo_lifecycle_port env) command (NInt (clock s)) 2 s) as [rc sc] eqn:Ec.
    assert (Hsc := loop_room _ _ _ _ _ _ _ _ _ Hs Ec).
    destruct (@coordination_spec _ _ _ (dynamo_port_laws env call_start call_end) _ _ 2 _ _ _ ltac:(lia) (ready_lawful _ _ Hs) Ec)
      as (answer & -> & Hc). unfold sm_lift. destruct (resolveCoordinatedRecord answer) as [record | error] eqn:Er.
    + intros [= <- <-]. split; [done |]. by eapply coordinated_answer.
    + destruct (coordinated_lost _ _ _ _ _ _ _ Hc Er) as [Hf Hl]. intros [= <- <-]. split; [done |]. by destruct error.
Defined.

End run.

(** * The hypotheses hold on a table in memory: a request is accepted, an execution
    that stopped without an outcome is reconciled, and a success without proof
    is a failure. *)
Import Contract.
Import FinalizeInputs.
Import FinResult.
Import JsText.

#[export] Instance memory_run : DynamoRun unit Memory call_time call_time.
Proof.
  split; [by intros n s s' <- |]. intros items s r s' [Hc _] E. cbn in E. unfold memory_transact in E.
  destruct (_ && _); injection E as _ <-; exact Hc.
Qed.

#[local] Existing Instance checksum_library.

Lemma fresh_ready : dynamo_ready call_time call_time 2 fresh.
Proof.
  split; [done |]. split; [apply fresh_table |]. intros sid c _. unfold lifecycle_in. cbn [table memory_laws m_rows fresh].
  rewrite no_pointer. cbn. by intros [= <-].
Qed.

#[local] Instance memory_commands : FinalizationCommands Memory := dynamo_commands no_env.
#[local] Instance memory_commands_laws : FinalizationCommandsLaws Memory :=
  dynamo_commands_laws no_env call_time call_time.
#[local] Instance memory_commit : SuccessfulFinalizationStore Memory := {| commitSuccessfulFinalization := fun record => mret record |}.

(** ** A request *)

Definition sample_input : ZkVMInput :=
  mkZkVMInput "01234567-89ab-4def-8123-0123456789ab" (repeat_char 64 "a") (NInt 2) (repeat_char 64 "b") (NInt 900)
    (NInt 64) (repeat_char 64 "c") [].

Definition sample_request : FinalizeAsyncInput :=
  mkAsyncInput "session-1" "01HZX" (NInt 1000) sample_input (mkElectionConfig 64 ["A"; "B"]%string "1.0" 63 6)
    (repeat_char 64 "d") ["S1"%string] sample_scenario (NInt 3) from_inline.

(** The queue takes every message, on its first attempt. *)
Definition sample_services : AsyncServices Memory := mkServices (fun _ => mret tt) None.

Lemma services_end : AsyncServicesLaws sample_services.
Proof. split; [intros n message s r s' _ [= <- <-]; by split | done]. Qed.

Lemma accepted_request_recorded_witness : exists accepted s',
  finalizeAsync sample_services sample_request fresh = (Ok (Done accepted), s') /\
  is_pending_of "01HZX" (ac_state accepted) = true /\
  exists record sq, command_answer held meanwhile (queue_command sample_request) fresh record sq /\
    ac_state accepted = fr_state record /\ handed_over sample_services sample_request sq s'.
Proof.
  destruct (finalizeAsync sample_services sample_request fresh) as [r s'] eqn:E.
  assert (Er : exists accepted, r = Ok (Done accepted) /\ is_pending_of "01HZX" (ac_state accepted) = true).
  { assert (Ef := f_equal fst E). vm_compute in Ef. cbn [fst] in Ef. rewrite <- Ef. by eexists. }
  destruct Er as (accepted & -> & Hp). exists accepted, s'. split; [reflexivity |]. split; [exact Hp |].
  destruct (accepted_request_recorded sample_services services_end sample_request fresh (Ok (Done accepted)) s' fresh_ready E)
    as (_ & record & sq & Ha & Hstate & _ & Hpending).
  exists record, sq. split; [exact Ha |]. split; [exact Hstate |]. rewrite <- Hstate in Hpending.
  change (fa_finalizationId sample_request) with "01HZX"%string in Hpending. rewrite Hp in Hpending. exact (proj1 Hpending).
Defined.

(** ** A reconciliation *)

Definition queued : result FinalizationRecord * Memory :=
  applyFinalizationCommand queue_sample fresh.

Lemma queued_ready : dynamo_ready call_time call_time 1 (snd queued).
Proof.
  destruct queued as [r s] eqn:E. exact (proj1 (command_law 1 queue_sample fresh r s fresh_ready E)).
Qed.

Definition aborted (sessionId finalizationId : string) : SM Memory FinalizationExecutionObservation :=
  mret (exec_stopped exec_aborted (NInt 500000000)).

Definition sample_reconciliation : ReconciliationInput := mkReconciliation "session-1" "01HZX" (NInt call_time) (NInt 60000).

Definition status_now (s : Memory) : option string :=
  match fst (getCurrentFinalizationRecord "session-1" s) with
  | Ok (Some r) => Some (state_status (fr_state r))
  | _ => None
  end.

(** A maximal number of attempts below one publishes nothing at all. *)
Example fraction_publishes_nothing : publish_attempts (NFrac (QArith_base.Qmake 1 2)) = 0%nat.
Proof. reflexivity. Qed.

Example pending_before : status_now (snd queued) = Some "pending"%string.
Proof. vm_compute. reflexivity. Qed.
Example failed_after : status_now (snd (reconcileFinalization aborted sample_reconciliation (snd queued))) = Some "failed"%string.
Proof. vm_compute. reflexivity. Qed.
(** An execution that is running is left alone, however old. *)
Example running_left : status_now (snd (reconcileFinalization (fun _ _ => mret exec_running) sample_reconciliation (snd queued))) =
  Some "pending"%string.
Proof. vm_compute. reflexivity. Qed.

Lemma reconciliation_conservative_witness : exists s',
  reconcileFinalization aborted sample_reconciliation (snd queued) = (Ok tt, s') /\
  (meanwhile (snd queued) s' \/ reconciled aborted sample_reconciliation (snd queued) s') /\
  reconciliation_done aborted sample_reconciliation (snd queued) s'.
Proof.
  destruct (reconcileFinalization aborted sample_reconciliation (snd queued)) as [r s'] eqn:E.
  assert (Er : r = Ok tt).
  { assert (Ef := f_equal fst E). vm_compute in Ef. cbn [fst] in Ef. exact (eq_sym Ef). }
  subst r. exists s'. split; [reflexivity |].
  assert (Hobserve : forall n sid fid s r s', store_ready n s -> aborted sid fid s = (r, s') ->
    meanwhile s s' /\ no_fuel_error r) by (intros n sid fid s r s1 _ [= <- <-]; by split).
  destruct (reconciliation_conservative aborted Hobserve sample_reconciliation (snd queued) (Ok tt) s' queued_ready E)
    as (_ & _ & Hw & Hd).
  exact (conj Hw (Hd eq_refl)).
Defined.

(** ** Updates of the prover *)

Definition unproved : FinalizationStateUpdatePayload :=
  mkUpdate "session-1" "01HZX" (NInt 1000) (SUCCEEDED (NInt 1200) (NInt 1900) JNull).

Lemma unproved_success_is_failure_witness : exists state s',
  applyFinalizationStateUpdatePayload unproved (snd queued) = (Ok ("session-1"%string, state), s') /\
  state_status state = "failed"%string /\
  (meanwhile (snd queued) s' \/ exists record,
     command_installed held meanwhile (invalid_result_command unproved (NInt 1200) (NInt 1900)) (snd queued) record s' /\
     fr_state record = failed "01HZX" (NInt 1000) (Some (NInt 1200)) (NInt 1900) invalid_result_error).
Proof.
  destruct (applyFinalizationStateUpdatePayload unproved (snd queued)) as [r s'] eqn:E.
  assert (Er : exists state, r = Ok ("session-1"%string, state) /\ state_status state = "failed"%string).
  { assert (Ef := f_equal fst E). vm_compute in Ef. cbn [fst] in Ef. rewrite <- Ef. eexists. split; reflexivity. }
  destruct Er as (state & -> & Hstate). exists state, s'. split; [reflexivity |]. split; [exact Hstate |].
  exact (proj1 (proj2 (proj2 (unproved_success_is_failure unproved (NInt 1200) (NInt 1900) JNull (snd queued)
    (Ok ("session-1"%string, state)) s' queued_ready eq_refl (fun _ => eq_refl) E)))).
Defined.

(** ** A direct success *)

Definition running_sample : option FinalizationRecord := sample_run [queue; start (NInt 1200)].

Definition sample_success : FinalizationPayload := mkPayload "01HZX" (NInt 1000) JUndefined None.

Definition sample_success_value : jsval := JObj (result_authority_value sample_result).

Lemma direct_success_is_applied_witness : exists record,
  prepareDirectSuccessfulFinalization "session-1" sample_success (NInt 1200) (NInt 1900) sample_success_value running_sample
    (NInt 2000) = Ok (direct_commit record) /\ is_succeeded (fr_state record) = true /\ fr_sessionId record = "session-1"%string.
Proof.
  destruct (prepareDirectSuccessfulFinalization "session-1" sample_success (NInt 1200) (NInt 1900) sample_success_value
    running_sample (NInt 2000)) as [[command | record] | e] eqn:E; [by vm_compute in E | | by vm_compute in E].
  exists record. split; [reflexivity |].
  assert (Hc : coherent running_sample) by (apply reachable_coherent, run_reachable, reach_start).
  split; [vm_compute in E; by injection E as <- |].
  exact (proj1 (proj2 (direct_success_is_applied "session-1" sample_success (NInt 1200) (NInt 1900) sample_success_value
    running_sample (NInt 2000) record Hc E))).
Defined.
